(* ===== verification/_CoqProject ===== *)
-Q . S2P
Prelude.v
GoStrings.v
Paths.v
Gnmi.v
Pathz.v
PathzTrie.v
PathzPolicy.v
Json.v
JsonClient.v
JsonClientFacts.v
Redis.v
World.v
Dbus.v
GnsiUtil.v
PathzServer.v
PathzServerFacts.v
AuthzServer.v
CertzServer.v
CertzServerFacts.v
Bypass.v
BypassFacts.v
Trie.v
DbConfig.v
DbConn.v
VirtualDb.v
V2R.v
VirtualDbFacts.v
DbClient.v
Show.v
ShowPaths.v
ShowFacts.v
Events.v
EventsFacts.v
Debug.v
Dialout.v
DialoutFacts.v
DbStream.v
MixedDb.v
MixedSet.v
MixedStream.v
DbClientFacts.v
DbStreamFacts.v
Connections.v
Auth.v
Gnoi.v
GnoiFile.v
GnoiFileFacts.v
HostExec.v
GnoiOs.v
Transl.v
TranslStream.v
TranslStreamFacts.v
Server.v
ServerFacts.v
TranslFacts.v
MixedFacts.v
MixedConfigFacts.v
Subscribe.v
SubscribeFacts.v
GnoiHealthz.v
GnoiSystem.v
GnoiSystemFacts.v
NonDb.v
DpuProxy.v
Operational.v
Startup.v
Telemetry.v
ShowLib.v
ShowCounters.v
ShowIntf.v
ShowStats.v
ShowHost.v
ShowTables.v
ShowHostFacts.v
ShowSfpTables.v
ShowSfp.v
ShowSystem.v
ShowIp.v
ShowEnv.v
