(* ===== verification/Prelude.v ===== *)
(** * A verified model of the SONiC gNMI server

    The program (src/) is the management server of a SONiC switch, written in
    Go.  It answers gNMI requests (Capabilities, Get, Set, Subscribe) from
    Redis databases, the translation library, files and programs of the host;
    operates the switch through the gNOI services; rotates credentials and
    policies through gNSI; forwards RPCs to DPUs; and can publish telemetry to
    collectors by itself.  This library is a shallow embedding of it: Go
    functions are Rocq functions, state is passed explicitly, errors are
    values, and the theorems say what the components guarantee and where they
    do not.

    ** The parts of the program and the files that model them

    [Telemetry] is the program: it reads its arguments and runs the server
    that [Startup] makes.  An RPC passes the interceptors of [DpuProxy], which
    may forward it to a DPU.  Get and Set enter at [Server], which checks the
    request, authenticates it ([Auth]) and gives it to a data client; a Set on
    the native databases tries the fast path ([Bypass]) first.  Subscribe is a
    session of [Subscribe], counted by [Connections].

    The data clients: [DbClient] and [DbStream] read the databases: paths are
    resolved to tables, directly or through the virtual paths of COUNTERS_DB
    ([VirtualDb], [V2R], over the path trie of [Trie]), over the connections
    of [DbConn], which are found through the configuration of [DbConfig].
    [MixedDb], [MixedSet] and [MixedStream] read and write native paths; a
    change of the configuration is tried on a checkpoint ([JsonClient]) and
    handed to the host over [Dbus].  [Transl] and [TranslStream] are the client
    of the translation library, [NonDb] serves data outside the databases,
    [Events] the event daemon, [Operational] the file system, and [Show] the
    SHOW commands, whose functions are in the files [Show..].

    gNOI: [GnoiFile], [GnoiOs], [GnoiSystem], [GnoiHealthz] and [Debug], over
    [Gnoi] and the commands of [HostExec].  gNSI: [PathzServer] installs
    policies in the path authorizer ([Pathz]), [AuthzServer] and [CertzServer]
    write files that the gRPC library watches.  [Dialout] is the dial-out
    client.

    - Prelude (this file): results, state-passing, iteration over Go maps,
      generic lemmas and tactics.  GoStrings, Paths, Json, Gnmi: what
      the sources use of Go's [strings], [sort], [path/filepath] and
      [encoding/json] and of the gNMI messages.  Redis: a hash store as an
      interface with its documented laws and an instance.  World: files, links
      and one database behind calls that may fail.
    - Pathz: src/pathz_authorizer/pathz_authorizer.go.  [GnmiAuthzProcessor] is
      the processor, [gnmiAuthzNode] a node of its trie.  PathzTrie reads the
      trie as a map from token lists, PathzPolicy relates it to the list of
      rules.
    - GnsiUtil, PathzServer, AuthzServer, CertzServer: gnsi_util.go,
      gnsi_pathz.go, gnsi_authz.go and gnsi_certz.go of src/gnmi_server.  One
      [Rotate] per server, a fold of the handler over the messages of the
      stream.
    - Auth: [authenticate] of server.go, basicAuth.go, jwtAuth.go, pamAuth.go,
      clientCertAuth.go.  Server: Get and Set of server.go.  Startup: its
      start, stop, Capabilities and map of sessions.  Subscribe:
      client_subscribe.go.  Connections: connection_manager.go.
    - In src/sonic_data_client: Trie: trie.go.  DbConn, DbClient, DbStream:
      db_client.go.  VirtualDb, V2R: virtual_db.go.  JsonClient:
      json_client.go.  MixedDb, MixedSet, MixedStream: mixed_db_client.go.
      Transl, TranslStream: transl_data_client.go and transl_subscriber.go with
      src/transl_utils, and the preferences of subscriptions of
      src/gnmi_server/debug.go.  NonDb: non_db_client.go.  Events: events_client.go.
      Show: show_client.go and its helpers.
    - DbConfig: src/sonic_db_config/db_config.go.  Dbus:
      src/sonic_service_client/dbus_client.go.  Bypass: src/pkg/bypass.
      DpuProxy: src/pkg/interceptors.  Operational:
      src/pkg/server/operational-handler, src/internal/diskspace and firmware.
      HostExec: src/pkg/exec.  Dialout: src/dialout/dialout_client.  Telemetry:
      src/telemetry/telemetry.go.
    - Debug: src/pkg/gnoi/debug and src/internal/exec.  Gnoi, GnoiFile, GnoiOs, GnoiSystem,
      GnoiHealthz: the files gnoi*.go of src/gnmi_server with src/pkg/gnoi,
      src/internal/download and hash.
    - In src/show_client: ShowPaths: show_paths.go, the table of commands.
      ShowLib: common/ and show_common.go.  ShowCounters: counters of
      interfaces.  ShowIntf: interface_cli.go.  ShowStats: drop counters,
      queues, watermarks and port channels.  ShowHost: commands that run
      programs.  ShowTables: commands over tables.  ShowSfpTables, ShowSfp:
      constant.go, sfpshow_common.go and interface_transceiver_cli.go.
      ShowSystem: common/host.go, platform, versions, processes, memory, clock,
      chassis modules and LLDP.  ShowIp: the files ipv6_*.go with
      helpers/ipinterfaces.  ShowEnv: environment_cli.go.

    Facts about a component [X] are in [XFacts], if not in its own file; those
    of ShowHost and ShowTables are in ShowHostFacts, those of MixedSet in
    MixedConfigFacts and MixedFacts.

    ** Conventions

    A Go function with results [(T, error)] returns a [res]; a call that
    dereferences nil or indexes out of range returns a value [Panic],
    [Panicked], [Panics] or [Crashed] of the component.  A function that
    changes state is an [ST S A := S → S * A].  Where the code shares a pointer
    and a theorem depends on it (the metadata of PathzServer, the
    authentication data of a request, the subscriptions of Dialout), the shared
    object is state; the fast path, the authorization and the data clients of a
    Set act on one world ([lift_client] of Server).  The file system of [World]
    is a flat map of paths: symbolic links at the path of a call are followed,
    directories that are links are not part of it.  The order of [range] over a map is a class [MapRange]
    over which theorems quantify.  Calls that can fail read an oracle of faults
    ([faults] of [World]), so a theorem about a world covers every pattern of
    failures.  A routine that runs until its session ends is a step function
    that is run over the list of events it receives, each with the contents of
    the databases at that moment.  Goroutines that share state (Connections,
    Subscribe, Events, Dialout, GnoiOs, DpuProxy, Startup, Telemetry) are step
    relations, and theorems about them quantify over the runs.  Integers keep
    their Go width where it matters ([to_int64] in DbClient and ShowCounters,
    the counters of Server).

    Fuel: [authorize] and [insertPath] of Pathz recurse on indices into the
    path and its keys; the entry points pass the number of tokens of the path
    plus one, and PathzTrie proves both equal to structural recursions over
    the tokens, so fuel never runs out.  The matcher of file patterns in
    Operational has the length of the pattern plus one, which it consumes at
    each step.  A table operation of MixedSet is tried at most seven times, the
    source's own bound.  How often a wait of GnoiHealthz polls before its time
    is up is a parameter.  [quote_keys] of ShowSfp, and the repetitions of
    regular expressions and the loop over lines of ShowEnv, read something in
    every round and have the length of what they read; [hex] writes at most
    seventeen digits of a 64-bit number.  Everything else is structural.

    ** What the theorems show

    - Path policy (PathzPolicy): decisions are exactly those of the rules that
      apply, a deny for the user on the exact path wins, the order of map
      iteration is irrelevant, a policy that does not compile changes nothing,
      lookups always return.
    - Checkpoint store (JsonClientFacts): reads after writes, frames, removal
      undoes addition and leaves no empty container.
    - Rotations (PathzServerFacts, AuthzServer, CertzServerFacts): what a
      commit installs, what a rotation that is aborted restores, with the
      conditions under which it does, and the ways in which it does not; what
      the links of certificate and key are after each failure.
    - Fast path (BypassFacts): only allowed tables, header and devices; what a
      replacement leaves in the database.
    - Virtual paths (Trie, V2R, VirtualDbFacts): the trie agrees with the
      flat table it is filled from, dispatch of every path, independence of map
      order, reported names can be queried back, a failed load is not
      repeated.
    - Database client (DbClientFacts, DbStreamFacts): Get of real paths against
      the contents of the database, what streams and polls send over a history
      of the database, and two histories on which they fail.
    - Native paths (MixedFacts, MixedConfigFacts): a Set of
      the configuration is one patch that holds the request less the removals
      of what is not configured, or nothing, and its checkpoint is deleted; what
      was written is read back, in the form it is stored in; which tables a Set works on; bounded retries.
    - Translation library (TranslFacts, TranslStreamFacts): a bulk Set sends every item under
      its own path or nothing, samples follow the cache, timers are bounded, requests are
      anonymous.
    - Server (ServerFacts, Connections, SubscribeFacts, Startup,
      Telemetry): the bound on subscriptions by the threshold and the calls
      between its test and the insertion, fencing by election id over any
      sequence of Sets, who may write with a certificate and which role that
      takes, that a Set changes nothing before it is authenticated but through
      the fast path, what a session sends, that it does not panic and that a
      stream returns when it ends, listeners with the same services, who closes
      whose session, that with TLS the server serves only with the certificates
      it read, and the ways around the checks: the path policy, the
      fast path, roles left by a wrong password, updates without a path, keys
      that coincide, and the default settings.
    - DPU proxy (DpuProxy): one connection per DPU in every interleaving,
      forwarded streams keep their order, and the caller is not looked at.
    - Other clients: the windows of the processor utilization (NonDb),
      accounting of events, received to sent (EventsFacts), operational paths (Operational),
      publishing routines (DialoutFacts).
    - gNOI (GnoiFileFacts, GnoiOs, GnoiSystemFacts, GnoiHealthz, Debug):
      writes are atomic, images are stored as sent by one session at a time, commands are validated, RPCs need write access.
    - SHOW: dispatch and validation of options (ShowFacts); counters of chosen
      interfaces and over a period (ShowCounters); listings, aliases and
      panics of the interface commands (ShowIntf); columns of drop and
      queue counters (ShowStats); MAC table, health of DPUs, redaction and
      the reading of any file through kdump (ShowHostFacts); labels and units
      of transceivers, fields copied from newer tables, monitoring that is
      never shown (ShowSfp); facts of the platform that stick, power supplies
      by number, neighbours that are lost (ShowSystem); merging of interfaces,
      prefix lists, the forwarding table, which commands of the routing suite a
      request can run (ShowIp); reading back the output of sensors (ShowEnv).

    Witnesses instantiate the theorems at concrete inputs, in modules named
    [..Example].

    ** Parameters

    Code that is not in src/ is an argument: Redis ([Redis], [Conn] with
    [Serves]), swsscommon ([Swss], [Tables]), translib ([Translib]), ygot
    ([Ygot]), the JSON codec ([JsonCodec]), the YAML library ([Yaml]), the text
    and JSON forms of policies and profiles, formatting of numbers ([GoFmt]),
    floating point numbers ([GoFloat]), parsers of package net, PAM, tokens,
    certificate chains and downloads ([AuthEnv]), hashes, the D-Bus ([Bus]) and
    the host behind it ([Host]), programs of the host, the shell parser and
    shlex, the event library, goprocinfo, [statfs] and directory walks
    ([OsHost]), dialling and the DPUs, the parser of flags, the natural order
    of names, the environment ([PlatformEnv]), netlink ([NetKernel]), decoders
    of the replies of lldpctl and vtysh ([LldpCodec], [FrrCodec]), time.

    ** Not modelled

    - types.go of src/show_client: structures that only decode and encode replies
      of the routing suite, which is the parameter [reencode].  The helpers of
      show_common.go that ShowLib has from common/, of which they are copies.
    - The mirror of the counters in shared memory (shareMem.go).
    - ygot_diff.go walks generated structures by reflection; it is the parameter
      [yg_diff].  The subscription methods of the operational handlers are
      stubs in the source.
    - Command line clients (src/gnmi_cli, src/gnoi_client, src/dialout servers)
      print the answers of a server.
    - src/proto is generated. *)
From stdpp Require Import base gmap sets list strings sorting pretty.

(** ** Results of fallible Go functions

    A Go function that returns [(T, error)] is modelled as a [res E T]:
    [Ok v] for a nil error, [Err e] for a non-nil one. *)
Inductive res (E A : Type) : Type :=
| Ok (a : A)
| Err (e : E).
Arguments Ok {E A} a.
Arguments Err {E A} e.

Global Instance res_ret E : MRet (res E) := λ A a, Ok a.
Global Instance res_bind E : MBind (res E) := λ A B f r,
  match r with Ok a => f a | Err e => Err e end.
Global Instance res_fmap E : FMap (res E) := λ A B f r,
  match r with Ok a => Ok (f a) | Err e => Err e end.

(** A Go comma-ok lookup turned into an error return. *)
Definition of_option {E A} (e : E) (o : option A) : res E A :=
  match o with Some a => Ok a | None => Err e end.

Definition is_ok {E A} (r : res E A) : bool :=
  match r with Ok _ => true | Err _ => false end.

(** What a handler does: it returns, or it panics, which ends the server
    since nothing recovers. *)
Inductive handled (X : Type) := Returns (x : X) | Panics.
Arguments Returns {X} _.
Arguments Panics {X}.

(** ** Iteration over a Go map

    [for k, v := range m] visits the entries of a map in an order the language
    leaves open.  A [MapRange] fixes one such order; a theorem that quantifies
    over the instance holds for every order. *)
Class MapRange := {
  map_range : ∀ {A : Type}, gmap string A → list (string * A);
  map_range_perm : ∀ {A : Type} (m : gmap string A), map_range m ≡ₚ map_to_list m
}.

(** The order of the map's canonical representation; witnesses use it. *)
Definition canonical_range : MapRange :=
  {| map_range := λ A, map_to_list; map_range_perm := λ A m, reflexivity _ |}.

(** The opposite order, for instances of theorems about two orders. *)
Lemma reversed_range_perm A (m : gmap string A) : reverse (map_to_list m) ≡ₚ map_to_list m.
Proof. apply reverse_Permutation. Qed.
Definition reversed_range : MapRange :=
  {| map_range := λ A m, reverse (map_to_list m); map_range_perm := reversed_range_perm |}.

Section map_range.
Context `{MapRange}.

Lemma elem_of_map_range {A} (m : gmap string A) k v :
    (k, v) ∈ map_range m ↔ m !! k = Some v.
  Proof. by rewrite map_range_perm, elem_of_map_to_list. Qed.

Lemma map_range_empty {A} : map_range (∅ : gmap string A) = [].
  Proof. apply Permutation_nil. by rewrite map_range_perm, map_to_list_empty. Qed.

Lemma NoDup_map_range_fst {A} (m : gmap string A) : NoDup (map_range m).*1.
  Proof. rewrite map_range_perm. apply NoDup_fst_map_to_list. Qed.

Lemma map_range_nil {A} (m : gmap string A) : map_range m = [] ↔ m = ∅.
  Proof.
    split; [|intros ->; apply map_range_empty].
    intros Hr. apply map_to_list_empty_iff, Permutation_nil.
    by rewrite <- map_range_perm, Hr.
  Qed.
End map_range.

(** ** Automation shared by the components *)
Create HintDb sonic.
#[export] Hint Resolve lookup_insert_eq lookup_delete_eq : sonic.

(** Split every [match] and [decide] of the goal and close what is immediate. *)
Ltac go_cases := repeat (case_match || case_decide); simplify_eq/=; try done.

(** Run a bind whose scrutinee is known from a hypothesis. *)
Ltac res_step :=
  match goal with
  | H : ?x = Ok _ |- context [?x] => rewrite H; simpl
  | H : ?x = Err _ |- context [?x] => rewrite H; simpl
  end.

(** Invert [mbind f r = Ok b]. *)
Lemma bind_Ok {E A B} (f : A → res E B) (r : res E A) (b : B) :
  (r ≫= f) = Ok b ↔ ∃ a, r = Ok a ∧ f a = Ok b.
Proof. destruct r as [a|e]; simpl; split; [eauto|naive_solver|done|naive_solver]. Qed.

Lemma bind_Err {E A B} (f : A → res E B) (r : res E A) (e : E) :
  (r ≫= f) = Err e ↔ r = Err e ∨ ∃ a, r = Ok a ∧ f a = Err e.
Proof. destruct r as [a|e']; simpl; split; naive_solver. Qed.

(** A result from its second component: how the concrete examples state the
    outcome of a run without spelling out the state it ends in. *)
Lemma pair_snd_eq {A B} (p : A * B) b : p.2 = b → p = (p.1, b).
Proof. destruct p. by intros <-. Qed.

(** ** Generic list lemmas *)

(** A left fold in the error monad: [for _, x := range xs] with an early
    [return err]. *)
Fixpoint foldM {E A S} (f : S → A → res E S) (s : S) (xs : list A) : res E S :=
  match xs with
  | [] => Ok s
  | x :: xs => f s x ≫= λ s', foldM f s' xs
  end.

Lemma foldM_app {E A S} (f : S → A → res E S) s xs ys :
  foldM f s (xs ++ ys) = (foldM f s xs ≫= λ s', foldM f s' ys).
Proof.
  revert s. induction xs as [|x xs IH]; intros s; [done|]. simpl.
  destruct (f s x); simpl; [apply IH|done].
Qed.

(** An invariant of the loop body is an invariant of the loop. *)
Lemma foldM_inv {E A S} (P : S → Prop) (f : S → A → res E S) s xs s' :
  (∀ s x s', x ∈ xs → P s → f s x = Ok s' → P s') →
  P s → foldM f s xs = Ok s' → P s'.
Proof.
  revert s. induction xs as [|x xs IH]; intros s Hf HP; simpl.
  - by intros [= <-].
  - intros (s1 & H1 & H2)%bind_Ok. eapply IH; [|by eapply Hf; [left|..]|done].
    intros ????. apply Hf. by right.
Qed.

(** ** Building a map entry by entry

    [for ... { m[k] = v }] where each element gives at most one entry. *)
Definition insert_all {A B} (f : A → option (string * B)) (m : gmap string B) (l : list A) : gmap string B :=
  foldl (λ m x, match f x with Some (k, v) => <[k := v]> m | None => m end) m l.

(** When no two elements give the same key, their order does not matter. *)
Lemma insert_all_nodup {A B} (f : A → option (string * B)) m l :
  NoDup (omap f l).*1 → insert_all f m l = list_to_map (omap f l) ∪ m.
Proof.
  unfold insert_all. revert m. induction l as [|x l IH]; intros m Hn; simpl.
  - by rewrite (left_id_L ∅ (∪)).
  - simpl in Hn. destruct (f x) as [[k v]|]; [|by apply IH].
    simpl in *. apply NoDup_cons in Hn as [Hk Hn]. rewrite IH by done.
    rewrite <- insert_union_l. symmetry. apply insert_union_r, not_elem_of_list_to_map_1, Hk.
Qed.

Lemma insert_all_lookup {A B} (f : A → option (string * B)) l k v :
  NoDup (omap f l).*1 → insert_all f ∅ l !! k = Some v ↔ ∃ x, x ∈ l ∧ f x = Some (k, v).
Proof.
  intros Hn. rewrite insert_all_nodup, (right_id_L ∅ (∪)) by done.
  rewrite <- elem_of_list_to_map by done. apply list_elem_of_omap.
Qed.
