(* ===== verification/GoStrings.v ===== *)
(** * The part of Go's standard library the sources use on strings

    Go strings are byte strings; they are modelled by [string], a list of
    8-bit characters.  This file models [strings.HasPrefix], [HasSuffix],
    [TrimPrefix], [TrimSuffix], [Contains], [ReplaceAll], [Split], [SplitN]
    (with a limit of two), [Join], [sort.Strings] and [strconv.Atoi]/[Itoa],
    and proves the facts about them the components rely on. *)
From Stdlib Require Import Ascii.
From stdpp Require Import base gmap list strings sorting pretty.
From S2P Require Import Prelude.

(** ** Appending *)
Lemma app_assoc_str (a b c : string) : (a +:+ b) +:+ c = a +:+ (b +:+ c).
Proof. induction a; simpl; [done|]. unfold String.app in *. simpl. by f_equal. Qed.

Lemma app_empty_r (a : string) : a +:+ "" = a.
Proof. induction a; [done|]. unfold String.app in *. simpl. by f_equal. Qed.

Lemma app_cons_str c (a b : string) : String c a +:+ b = String c (a +:+ b).
Proof. done. Qed.

Lemma app_nil_str (b : string) : "" +:+ b = b.
Proof. done. Qed.

Lemma length_app_str (a b : string) :
  String.length (a +:+ b) = String.length a + String.length b.
Proof. induction a; [done|]. rewrite app_cons_str. simpl. by f_equal. Qed.

Create Rewrite HintDb gostr.
#[export] Hint Rewrite app_assoc_str app_empty_r length_app_str : gostr.

(** ** Prefixes and suffixes *)

(** [strings.HasPrefix(s, p)] *)
Fixpoint HasPrefix (s p : string) {struct p} : bool :=
  match p, s with
  | EmptyString, _ => true
  | String a p', String b s' => bool_decide (a = b) && HasPrefix s' p'
  | String _ _, EmptyString => false
  end.

(** [s[n:]] *)
Fixpoint str_drop (n : nat) (s : string) : string :=
  match n, s with
  | 0, _ => s
  | S n', String _ s' => str_drop n' s'
  | S _, EmptyString => ""
  end.

(** [s[:n]] *)
Fixpoint str_take (n : nat) (s : string) : string :=
  match n, s with
  | 0, _ => ""
  | S n', String c s' => String c (str_take n' s')
  | S _, EmptyString => ""
  end.

(** [strings.HasSuffix(s, p)] *)
Definition HasSuffix (s p : string) : bool :=
  (String.length p <=? String.length s) &&
  bool_decide (str_drop (String.length s - String.length p) s = p).

(** [strings.TrimPrefix(s, p)] *)
Definition TrimPrefix (s p : string) : string :=
  if HasPrefix s p then str_drop (String.length p) s else s.

(** [strings.TrimSuffix(s, p)] *)
Definition TrimSuffix (s p : string) : string :=
  if HasSuffix s p then str_take (String.length s - String.length p) s else s.

Lemma str_take_drop n (s : string) : str_take n s +:+ str_drop n s = s.
Proof.
  revert s. induction n as [|n IH]; intros [|c s]; try done.
  simpl. rewrite app_cons_str. by f_equal.
Qed.

Lemma str_drop_app (p s : string) : str_drop (String.length p) (p +:+ s) = s.
Proof. induction p; [done|]. by rewrite app_cons_str. Qed.

Lemma str_take_app (p s : string) : str_take (String.length p) (p +:+ s) = p.
Proof. induction p; [done|]. rewrite app_cons_str. simpl. by f_equal. Qed.

Lemma HasPrefix_spec (s p : string) : HasPrefix s p = true ↔ ∃ t, s = p +:+ t.
Proof.
  revert s. induction p as [|a p IH]; intros [|b s]; simpl; split; try done.
  - intros _. by exists "".
  - intros _. by exists (String b s).
  - by intros [t [=]].
  - intros [->%bool_decide_eq_true (t & ->)%IH]%andb_true_iff. by exists t.
  - intros [t Ht]. rewrite app_cons_str in Ht. injection Ht as -> ->.
    rewrite andb_true_iff, bool_decide_eq_true, IH. eauto.
Qed.

Lemma HasPrefix_app (p s : string) : HasPrefix (p +:+ s) p = true.
Proof. apply HasPrefix_spec. eauto. Qed.

Lemma HasSuffix_spec (s p : string) : HasSuffix s p = true ↔ ∃ t, s = t +:+ p.
Proof.
  unfold HasSuffix. rewrite andb_true_iff, Nat.leb_le, bool_decide_eq_true. split.
  - intros [_ Hd]. eexists.
    pose proof (str_take_drop (String.length s - String.length p) s) as Hs.
    rewrite Hd in Hs. by symmetry.
  - intros [t ->]. rewrite length_app_str, Nat.add_sub. split; [lia|].
    apply str_drop_app.
Qed.

Lemma HasSuffix_app (p s : string) : HasSuffix (s +:+ p) p = true.
Proof. apply HasSuffix_spec. eauto. Qed.

Lemma TrimSuffix_app (s p : string) : TrimSuffix (s +:+ p) p = s.
Proof.
  unfold TrimSuffix. rewrite HasSuffix_app, length_app_str, Nat.add_sub.
  apply str_take_app.
Qed.

Lemma TrimPrefix_app (s p : string) : TrimPrefix (p +:+ s) p = s.
Proof. unfold TrimPrefix. rewrite HasPrefix_app. apply str_drop_app. Qed.

(** ** Searching *)

(** [strings.Contains(s, sub)] *)
Fixpoint Contains (s sub : string) : bool :=
  HasPrefix s sub ||
  match s with EmptyString => false | String _ s' => Contains s' sub end.

(** [strings.ReplaceAll(s, old, new)] for a non-empty [old]; the sources only
    pass literal two-character patterns.  [skip] counts the bytes of the
    occurrence being replaced that are still to be consumed. *)
Fixpoint replace_go (old new s : string) (skip : nat) : string :=
  match s with
  | EmptyString => ""
  | String c s' =>
      match skip with
      | S k => replace_go old new s' k
      | 0 => if HasPrefix s old
             then new +:+ replace_go old new s' (String.length old - 1)
             else String c (replace_go old new s' 0)
      end
  end.

Definition ReplaceAll (s old new : string) : string := replace_go old new s 0.

(** A pattern of two characters: at an occurrence, and at a character that
    does not start one. *)
Lemma replace_hit a b new s :
  ReplaceAll (String a (String b s)) (String a (String b "")) new
  = new +:+ ReplaceAll s (String a (String b "")) new.
Proof.
  unfold ReplaceAll. cbn [replace_go HasPrefix String.length Nat.sub].
  rewrite !bool_decide_true by done. reflexivity.
Qed.

Lemma replace_skip a b c new s :
  c ≠ a ∨ HasPrefix s (String b "") = false →
  ReplaceAll (String c s) (String a (String b "")) new
  = String c (ReplaceAll s (String a (String b "")) new).
Proof.
  intros Hc. unfold ReplaceAll.
  assert (HasPrefix (String c s) (String a (String b "")) = false) as Hp.
  { cbn [HasPrefix]. destruct Hc as [Hc|Hc].
    - by rewrite bool_decide_false.
    - cbn [HasPrefix] in Hc. rewrite Hc. apply andb_false_r. }
  cbn [replace_go]. by rewrite Hp.
Qed.

(** [strings.Split(s, sep)] for a non-empty [sep]: [acc] is the piece being
    collected, as a string; a split of ["" ] is [[""]]. *)
Fixpoint split_go (sep s acc : string) (skip : nat) : list string :=
  match s with
  | EmptyString => [acc]
  | String c s' =>
      match skip with
      | S k => split_go sep s' acc k
      | 0 => if HasPrefix s sep
             then acc :: split_go sep s' "" (String.length sep - 1)
             else split_go sep s' (acc +:+ String c "") 0
      end
  end.

Definition Split (s sep : string) : list string := split_go sep s "" 0.

(** Splitting at the empty string gives the characters, here the bytes of an
    ASCII string. *)
Fixpoint explode (s : string) : list string :=
  match s with
  | EmptyString => []
  | String c s' => String c "" :: explode s'
  end.

(** [strings.Split(s, sep)] for any [sep]. *)
Definition SplitAny (s sep : string) : list string :=
  if bool_decide (sep = "") then explode s else Split s sep.

(** [strings.SplitN(s, sep, 2)] for a non-empty [sep]: one or two pieces, cut
    at the first occurrence of [sep]. *)
Fixpoint SplitN2 (s sep : string) : list string :=
  if HasPrefix s sep then [""; str_drop (String.length sep) s]
  else match s with
       | EmptyString => [""]
       | String c s' =>
           match SplitN2 s' sep with
           | [] => []
           | p :: ps => String c p :: ps
           end
       end.

(** [strings.SplitN(s, sep, 2)] for any [sep]. *)
Definition SplitN2Any (s sep : string) : list string :=
  if bool_decide (sep = "") then
    match s with
    | EmptyString => []
    | String c EmptyString => [s]
    | String c s' => [String c ""; s']
    end
  else SplitN2 s sep.

(** [strings.Join(l, sep)] *)
Fixpoint Join (l : list string) (sep : string) : string :=
  match l with
  | [] => ""
  | [x] => x
  | x :: l' => x +:+ sep +:+ Join l' sep
  end.

(** Pieces that are free of a one-character separator survive the round trip. *)
Definition free_of (c : ascii) (s : string) : Prop := c ∉ String.list_ascii_of_string s.

Lemma split_go_free c x rest acc :
  free_of c x → split_go (String c "") (x +:+ rest) acc 0 = split_go (String c "") rest (acc +:+ x) 0.
Proof.
  unfold free_of. revert acc. induction x as [|a x IH]; intros acc Hx.
  - by rewrite app_empty_r.
  - rewrite app_cons_str. cbn [split_go HasPrefix].
    assert (a ≠ c) by (intros ->; apply Hx; left).
    rewrite bool_decide_false by congruence. simpl.
    rewrite IH by (intros Hc; apply Hx; by right). f_equal. by rewrite app_assoc_str.
Qed.

Lemma Split_Join c l :
  l ≠ [] → Forall (free_of c) l → Split (Join l (String c "")) (String c "") = l.
Proof.
  unfold Split. induction l as [|x l IH]; [done|]. intros _ [Hx Hl]%Forall_cons.
  destruct l as [|y l].
  - cbn [Join]. rewrite <- (app_empty_r x) at 1. by rewrite split_go_free.
  - cbn [Join]. rewrite split_go_free by done. rewrite app_cons_str. cbn [split_go HasPrefix].
    rewrite bool_decide_true by done. simpl. f_equal. by apply IH.
Qed.

(** [sort.Strings]: the standard library sorts by byte-wise comparison. *)
Definition sort_Strings (l : list string) : list string := merge_sort String.le l.

Lemma sort_Strings_perm l : sort_Strings l ≡ₚ l.
Proof. apply merge_sort_Permutation. Qed.

Lemma sort_Strings_sorted l : Sorted String.le (sort_Strings l).
Proof. apply Sorted_merge_sort. apply _. Qed.

(** A sorted slice is determined by its elements: the order in which a loop
    over a map collected the keys does not matter once they are sorted. *)
Lemma sort_Strings_unique l1 l2 : l1 ≡ₚ l2 → sort_Strings l1 = sort_Strings l2.
Proof.
  intros Hp. apply (StronglySorted_unique String.le).
  - apply StronglySorted_merge_sort; apply _.
  - apply StronglySorted_merge_sort; apply _.
  - by rewrite !sort_Strings_perm.
Qed.

(** Keys of a Go map, collected by a [range] loop and then sorted. *)
Definition sorted_keys `{MapRange} {A} (m : gmap string A) : list string :=
  sort_Strings (map_range m).*1.

Lemma sorted_keys_canonical `{MapRange} {A} (m : gmap string A) :
  sorted_keys m = sort_Strings (map_to_list m).*1.
Proof. unfold sorted_keys. apply sort_Strings_unique. by rewrite map_range_perm. Qed.

Lemma elem_of_sorted_keys `{MapRange} {A} (m : gmap string A) k :
  k ∈ sorted_keys m ↔ is_Some (m !! k).
Proof.
  unfold sorted_keys. rewrite sort_Strings_perm, list_elem_of_fmap. split.
  - intros ([k' v] & -> & Hin). apply elem_of_map_range in Hin. by exists v.
  - intros [v Hv]. exists (k, v). by rewrite elem_of_map_range.
Qed.

Lemma sorted_keys_nil `{MapRange} {A} (m : gmap string A) :
  sorted_keys m = [] ↔ m = ∅.
Proof.
  rewrite <- map_range_nil. unfold sorted_keys. split.
  - intros Hs. pose proof (sort_Strings_perm (map_range m).*1) as Hp.
    rewrite Hs in Hp. apply Permutation_nil in Hp. by apply fmap_nil_inv in Hp.
  - by intros ->.
Qed.

(** ** Numbers *)

Definition digit_val (c : ascii) : option Z := Z.of_nat <$> Ascii.is_nat c.

(** Value of a string of decimal digits; [None] on any other byte. *)
Fixpoint digits_go (acc : Z) (s : string) : option Z :=
  match s with
  | EmptyString => Some acc
  | String c s' => d ← digit_val c; digits_go (10 * acc + d)%Z s'
  end.

Definition digits (s : string) : option Z :=
  match s with EmptyString => None | _ => digits_go 0 s end.

Definition max_int64 : Z := 9223372036854775807.
Definition min_int64 : Z := -9223372036854775808.

(** [strconv.Atoi] on a 64-bit platform: an optional sign, one or more decimal
    digits, and a value that fits an [int]; anything else is an error. *)
Definition Atoi (s : string) : option Z :=
  let '(neg, body) :=
    match s with
    | String "-" s' => (true, s')
    | String "+" s' => (false, s')
    | _ => (false, s)
    end%char in
  n ← digits body;
  let v := if neg : bool then (- n)%Z else n in
  if bool_decide (min_int64 ≤ v ≤ max_int64)%Z then Some v else None.

(** [strconv.Itoa] and [fmt.Sprintf("%d", v)] *)
Definition Itoa (z : Z) : string := pretty z.

Lemma Atoi_bounds s v : Atoi s = Some v → (min_int64 ≤ v ≤ max_int64)%Z.
Proof.
  unfold Atoi. case_match. destruct (digits _) as [n|]; simpl; [|done].
  case_bool_decide as Hb; [|done]. intros [= <-]. done.
Qed.

Example atoi_examples :
  (Atoi "42", Atoi "-7", Atoi "+3", Atoi "", Atoi "1a", Atoi "9223372036854775808")
  = (Some 42, Some (-7), Some 3, None, None, None)%Z.
Proof. vm_compute. reflexivity. Qed.

Example split_examples :
  (Split "a,b,c" ",", Split "" ",", Split "a,," ",", SplitN2 "T|a|b" "|", SplitN2 "T" "|")
  = (["a"; "b"; "c"], [""], ["a"; ""; ""], ["T"; "a|b"], ["T"]).
Proof. vm_compute. reflexivity. Qed.

(** [strconv.ParseUint(s, 10, 64)] *)
Definition ParseUint (s : string) : option Z :=
  n ← digits s; if bool_decide (n < 2 ^ 64)%Z then Some n else None.

(** [strconv.ParseBool] *)
Definition ParseBool (s : string) : option bool :=
  if bool_decide (s ∈ ["1"; "t"; "T"; "TRUE"; "true"; "True"]) then Some true
  else if bool_decide (s ∈ ["0"; "f"; "F"; "FALSE"; "false"; "False"]) then Some false
  else None.

(** ** Trimming *)

(** Characters removed from both ends. *)
Fixpoint trim_left (p : Ascii.ascii → bool) (s : string) : string :=
  match s with String c s' => if p c then trim_left p s' else s | _ => s end.
Definition rev_str (s : string) : string := String.string_of_list_ascii (reverse (String.list_ascii_of_string s)).
Definition trim_by (p : Ascii.ascii → bool) (s : string) : string :=
  rev_str (trim_left p (rev_str (trim_left p s))).

(** [strings.Trim(m, " ")], and [strings.TrimSpace(m)] on ASCII. *)
Definition trim_spaces : string → string := trim_by (λ c, Ascii.nat_of_ascii c =? 32).
Definition TrimSpace : string → string :=
  trim_by (λ c, let n := Ascii.nat_of_ascii c in (n =? 32) || ((9 <=? n) && (n <=? 13))).

(** ASCII [strings.ToLower]. *)
Fixpoint ToLower (s : string) : string :=
  match s with
  | EmptyString => ""
  | String c s' =>
      let n := Ascii.nat_of_ascii c in
      String (if (65 <=? n) && (n <=? 90) then Ascii.ascii_of_nat (n + 32) else c) (ToLower s')
  end.

(** ** Slash-separated paths *)

(** One component in the stack of [filepath.Clean], the last one first. *)
Definition clean_step (rooted : bool) (stack : list string) (c : string) : list string :=
  if bool_decide (c = "") || bool_decide (c = ".") then stack
  else if bool_decide (c = "..") then
    match stack with
    | ".." :: _ => c :: stack
    | _ :: stack' => stack'
    | [] => if rooted then [] else [c]
    end
  else c :: stack.

(** [filepath.Clean] *)
Definition Clean (p : string) : string :=
  if bool_decide (p = "") then "."
  else
    let rooted := HasPrefix p "/" in
    let body := Join (rev (foldl (clean_step rooted) [] (Split p "/"))) "/" in
    if rooted then "/" +:+ body else if bool_decide (body = "") then "." else body.

(** [filepath.Join] of two elements *)
Definition path_Join (a b : string) : string :=
  if bool_decide (a = "") then (if bool_decide (b = "") then "" else Clean b)
  else Clean (a +:+ "/" +:+ b).

(** [filepath.Dir]: what precedes the last slash, cleaned. *)
Definition path_Dir (p : string) : string :=
  match rev (Split p "/") with
  | [] | [_] => Clean ""
  | _ :: l => Clean (Join (rev l) "/" +:+ "/")
  end.

(** [filepath.Abs] in a working directory. *)
Definition path_Abs (cwd p : string) : string :=
  if HasPrefix p "/" then Clean p else path_Join cwd p.

Example path_examples :
  (Clean "/a//b/../c/.", Clean "../x", Clean "a/..", path_Join "/etc/crl" "crl", path_Dir "/keys/cert.lnk",
   path_Dir "cert", path_Dir "/x", path_Abs "/w" "a/b")
  = ("/a/c", "../x", ".", "/etc/crl/crl", "/keys", ".", "/", "/w/a/b").
Proof. vm_compute. reflexivity. Qed.
