(* ===== verification/Paths.v ===== *)
(** * Cleaned paths

    What [filepath.Clean] guarantees: the path of a file is a list of names
    none of which is empty, a dot or, in an absolute path, two dots.  The
    checks of the gNOI services on directories rest on it. *)
From Stdlib Require Import Ascii.
From stdpp Require Import base list strings.
From S2P Require Import Prelude GoStrings.

Notation slash := ("/"%char).

(** A name that a component of a path can have, other than dots. *)
Record real_name (c : string) : Prop := {
  rn_empty : c ≠ "";
  rn_dot : c ≠ ".";
  rn_dots : c ≠ "..";
  rn_slash : free_of slash c
}.

(** ** Pieces *)

Global Instance free_of_dec c s : Decision (free_of c s).
Proof. unfold free_of. apply _. Defined.

(** Closes [free_of] on a literal. *)
Ltac free_name := match goal with |- free_of ?c ?s => apply (bool_decide_unpack (free_of c s)); vm_compute; exact I end.

Lemma free_of_app c a b : free_of c (a +:+ b) ↔ free_of c a ∧ free_of c b.
Proof.
  unfold free_of. assert (String.list_ascii_of_string (a +:+ b) = String.list_ascii_of_string a ++ String.list_ascii_of_string b) as ->.
  { induction a as [|x a IH]; [done|]. rewrite app_cons_str. simpl. by rewrite IH. }
  rewrite elem_of_app. tauto.
Qed.

Lemma split_go_pieces c s acc :
  free_of c acc →
  let l := split_go (String c "") s acc 0 in
  Forall (free_of c) l ∧ l ≠ [] ∧ Join l (String c "") = acc +:+ s.
Proof.
  revert acc. induction s as [|a s IH]; intros acc Hacc; cbv zeta.
  - simpl. rewrite app_empty_r. split; [by constructor|]. done.
  - cbn [split_go HasPrefix]. rewrite andb_true_r. case_bool_decide as Hac.
    + assert (a = c) as -> by done. cbn [String.length Nat.sub].
      destruct (IH "" (not_elem_of_nil _)) as (Hf & Hne & HJ).
      split; [by constructor|]. split; [done|].
      change (split_go (String c "") s "" (1 - 1)) with (split_go (String c "") s "" 0).
      destruct (split_go (String c "") s "" 0) as [|x l] eqn:E; [done|].
      change (acc +:+ String c "" +:+ Join (x :: l) (String c "") = acc +:+ String c s). by rewrite HJ.
    + destruct (IH (acc +:+ String a "")) as (Hf & Hne & HJ).
      { apply free_of_app. split; [done|]. unfold free_of. simpl. intros [->|?]%elem_of_cons; [done|]. by apply elem_of_nil in H. }
      split; [done|]. split; [done|]. rewrite HJ, app_assoc_str. done.
Qed.

Lemma Split_free c s : Forall (free_of c) (Split s (String c "")).
Proof. by apply split_go_pieces, not_elem_of_nil. Qed.
Lemma Split_ne c s : Split s (String c "") ≠ [].
Proof. by apply split_go_pieces, not_elem_of_nil. Qed.
Lemma Join_Split c s : Join (Split s (String c "")) (String c "") = s.
Proof. by apply split_go_pieces, not_elem_of_nil. Qed.

(** The first piece of a string that starts with one. *)
Lemma Split_app c x s : free_of c x → Split (x +:+ String c s) (String c "") = x :: Split s (String c "").
Proof.
  intros Hx. unfold Split. rewrite split_go_free by done. cbn [split_go HasPrefix].
  rewrite bool_decide_true by done. done.
Qed.

(** ** Clean *)

(** The stack holds names, and dots at its end when the path is relative. *)
Definition clean_name (rooted : bool) (c : string) : Prop :=
  c ≠ "" ∧ c ≠ "." ∧ free_of slash c ∧ (rooted = true → c ≠ "..").

Lemma clean_step_ok rooted stack c :
  free_of slash c → Forall (clean_name rooted) stack → Forall (clean_name rooted) (clean_step rooted stack c).
Proof.
  intros Hc Hs. unfold clean_step. case_bool_decide as H1; [done|]. case_bool_decide as H2; [done|]. simpl.
  case_bool_decide as H3; [|by repeat constructor].
  assert (rooted = false → Forall (clean_name rooted) (c :: stack)) as Hpush.
  { intros ->. by repeat constructor. }
  destruct stack as [|x stack].
  - destruct rooted; [constructor|by apply Hpush].
  - assert (x = ".." ∨ x ≠ "..") as [->|Hx] by (destruct (decide (x = "..")); auto).
    + apply Hpush. destruct rooted; [|done]. apply Forall_cons in Hs as [(_ & _ & _ & Hx) _]. by destruct (Hx eq_refl).
    + apply Forall_cons in Hs as [_ Hs].
      repeat (case_match; simplify_eq; try done).
Qed.

Lemma clean_stack_ok rooted p :
  Forall (clean_name rooted) (foldl (clean_step rooted) [] (Split p "/")).
Proof.
  assert (∀ l stack, Forall (free_of slash) l → Forall (clean_name rooted) stack →
    Forall (clean_name rooted) (foldl (clean_step rooted) stack l)) as H.
  { induction l as [|c l IH]; intros stack Hl Hs; [done|]. apply Forall_cons in Hl as [Hc Hl].
    apply IH; [done|]. by apply clean_step_ok. }
  apply H; [apply Split_free|constructor].
Qed.

(** A cleaned path that starts with a slash is a slash and names. *)
Lemma Clean_absolute p :
  HasPrefix (Clean p) "/" = true →
  ∃ cs, Clean p = "/" +:+ Join cs "/" ∧ Forall real_name cs.
Proof.
  unfold Clean. case_bool_decide as Hp; [done|]. pose proof (clean_stack_ok (HasPrefix p "/") p) as Hs.
  set (stack := foldl _ _ _) in *. destruct (HasPrefix p "/").
  - intros _. exists (rev stack). split; [done|]. 
    apply Forall_rev. eapply Forall_impl; [exact Hs|]. intros c (? & ? & ? & ?). constructor; auto.
  - case_bool_decide as Hb; [done|]. intros H. exfalso. apply HasPrefix_spec in H as [t Ht].
    destruct (rev stack) as [|x l] eqn:E; [by simpl in Ht|].
    assert (clean_name false x) as (Hx & _ & Hf & _).
    { apply Forall_rev in Hs. rewrite E in Hs. by apply Forall_cons in Hs as [? _]. }
    destruct x as [|a x]; [done|].
    assert (a = slash) as ->. { cbn [Join] in Ht. destruct l; rewrite ?app_cons_str in Ht; by injection Ht as -> _. }
    apply Hf. simpl. left.
Qed.

(** ** Directories *)

(** A file below a directory, by names only. *)
Definition under (dir p : string) : Prop :=
  ∃ cs, cs ≠ [] ∧ Forall real_name cs ∧ p = dir +:+ "/" +:+ Join cs "/".

(** A cleaned path below a directory of one name. *)
Lemma clean_under cs d p :
  Forall real_name cs → free_of slash d → "/" +:+ Join cs "/" = "/" +:+ d +:+ "/" +:+ p →
  ∃ rest, cs = d :: rest ∧ rest ≠ [] ∧ p = Join rest "/".
Proof.
  intros Hcs Hd H. assert (Join cs "/" = d +:+ "/" +:+ p) as Heq by (by injection H). clear H. destruct cs as [|x cs].
  { exfalso. simpl in Heq. destruct d; discriminate. }
  assert (Split (Join (x :: cs) "/") "/" = x :: cs) as Hs.
  { apply Split_Join; [done|]. eapply Forall_impl; [exact Hcs|]. by intros ? []. }
  rewrite Heq in Hs. rewrite app_cons_str, app_nil_str in Hs. rewrite Split_app in Hs by done.
  injection Hs as -> Hs. exists cs. split; [done|]. rewrite <- Hs. split; [apply Split_ne|]. by rewrite Join_Split.
Qed.

(** ** Joining and trimming *)

Lemma Join_snoc l x s sep : Join (l ++ [x]) sep +:+ s = Join (l ++ [x +:+ s]) sep.
Proof.
  induction l as [|y l IH]; [done|].
  change (Join ((y :: l) ++ [x]) sep) with (Join (y :: (l ++ [x])) sep).
  change (Join ((y :: l) ++ [x +:+ s]) sep) with (Join (y :: (l ++ [x +:+ s])) sep).
  assert (∀ l' z, Join (y :: (l' ++ [z])) sep = y +:+ sep +:+ Join (l' ++ [z]) sep) as H by (by intros []).
  by rewrite !H, !app_assoc_str, IH.
Qed.

Lemma trim_left_id p c s : p c = false → trim_left p (String c s) = String c s.
Proof. intros H. simpl. by rewrite H. Qed.

Lemma rev_str_involutive s : rev_str (rev_str s) = s.
Proof.
  unfold rev_str. rewrite String.list_ascii_of_string_of_list_ascii, reverse_involutive. apply String.string_of_list_ascii_of_string.
Qed.

Lemma list_ascii_app a b :
  String.list_ascii_of_string (a +:+ b) = String.list_ascii_of_string a ++ String.list_ascii_of_string b.
Proof. induction a as [|c a IH]; [done|]. rewrite app_cons_str. simpl. by rewrite IH. Qed.

Lemma rev_str_app a b : rev_str (a +:+ b) = rev_str b +:+ rev_str a.
Proof.
  unfold rev_str. rewrite list_ascii_app, reverse_app. generalize (reverse (String.list_ascii_of_string b)) as l.
  induction l as [|c l IH]; [done|]. simpl. rewrite app_cons_str. by rewrite IH.
Qed.

Lemma length_rev_str s : String.length (rev_str s) = String.length s.
Proof.
  unfold rev_str. assert (∀ l, String.length (String.string_of_list_ascii l) = length l) as H1 by (intros l; induction l; simpl; congruence).
  assert (∀ x, length (String.list_ascii_of_string x) = String.length x) as H2 by (intros x; induction x; simpl; congruence).
  by rewrite H1, length_reverse, H2.
Qed.

Lemma trim_left_le p s : String.length (trim_left p s) ≤ String.length s.
Proof. induction s as [|c s IH]; simpl; [done|]. destruct (p c); simpl; lia. Qed.

Lemma trim_left_full p s : String.length (trim_left p s) = String.length s → trim_left p s = s.
Proof. destruct s as [|c s]; simpl; [done|]. destruct (p c); [|done]. pose proof (trim_left_le p s). lia. Qed.

(** A text that trimming leaves alone: neither end is trimmed. *)
Lemma trim_by_ends p s : trim_by p s = s → trim_left p s = s ∧ trim_left p (rev_str s) = rev_str s.
Proof.
  unfold trim_by. intros H. pose proof (f_equal String.length H) as Hl. rewrite length_rev_str in Hl.
  pose proof (trim_left_le p (rev_str (trim_left p s))) as H1. rewrite length_rev_str in H1. pose proof (trim_left_le p s).
  assert (trim_left p s = s) as Hs by (apply trim_left_full; lia). split; [done|]. rewrite Hs in *.
  apply trim_left_full. rewrite length_rev_str. lia.
Qed.

Lemma trim_left_app p s t : s ≠ "" → trim_left p s = s → trim_left p (s +:+ t) = s +:+ t.
Proof.
  destruct s as [|c s]; [done|]. intros _ H. rewrite app_cons_str. simpl in *. destruct (p c) eqn:E; [|done].
  pose proof (trim_left_le p s) as Hl. rewrite H in Hl. simpl in Hl. lia.
Qed.

(** Text before a trimmed one: white space goes, anything else stays. *)
Lemma trim_by_prefix p a s :
  s ≠ "" → trim_by p s = s → trim_by p (a +:+ s) = trim_left p a +:+ s.
Proof.
  intros Hne [Hl Hr]%trim_by_ends.
  assert (trim_left p (a +:+ s) = trim_left p a +:+ s) as Ha.
  { clear Hr. induction a as [|c a IH]; [done|]. rewrite app_cons_str. simpl. by destruct (p c). }
  unfold trim_by. rewrite Ha, rev_str_app, trim_left_app; [|intros H; apply Hne; rewrite <- (rev_str_involutive s), H; done|done].
  by rewrite <- rev_str_app, rev_str_involutive.
Qed.

(** A text whose ends are not trimmed. *)
Lemma trim_by_id p s : trim_left p s = s → trim_left p (rev_str s) = rev_str s → trim_by p s = s.
Proof. intros H1 H2. unfold trim_by. by rewrite H1, H2, rev_str_involutive. Qed.
