(* ===== verification/Gnmi.v ===== *)
(** * gNMI messages

    The protobuf messages the components exchange, with the fields the sources
    read.  The generated Go code is not part of the repository; its getters
    return the zero value on a nil message, which [option] and [default]
    express.  A repeated field decoded from the wire is nil exactly when it is
    empty, so a list models it. *)
From stdpp Require Import base gmap list strings.
From S2P Require Import Prelude.

(** [gnmipb.PathElem] *)
Record PathElem := {
  elem_name : string;
  elem_key : gmap string string
}.

Global Instance PathElem_eq_dec : EqDecision PathElem.
Proof. solve_decision. Defined.

(** [gnmipb.Path] *)
Record Path := {
  path_origin : string;
  path_target : string;
  path_elem : list PathElem
}.

Global Instance Path_eq_dec : EqDecision Path.
Proof. solve_decision. Defined.

(** The getters, on a possibly nil message. *)
Definition GetElem (p : option Path) : list PathElem :=
  match p with Some p => path_elem p | None => [] end.
Definition GetTarget (p : option Path) : string :=
  match p with Some p => path_target p | None => "" end.
Definition GetOrigin (p : option Path) : string :=
  match p with Some p => path_origin p | None => "" end.

(** A path element without keys, as [TABLE] or [KEY] of a native path. *)
Definition elem (s : string) : PathElem := {| elem_name := s; elem_key := ∅ |}.

Definition path_of (names : list string) : Path :=
  {| path_origin := ""; path_target := ""; path_elem := elem <$> names |}.

(** The cases of [gnmipb.TypedValue] the sources look at. *)
Inductive TypedValue :=
| StringVal (s : string)
| IntVal (z : Z)
| UintVal (z : Z)
| BoolVal (b : bool)
| JsonIetfVal (s : string)
| ProtoBytes (s : string)
| OtherVal.

Definition GetStringVal (v : option TypedValue) : string :=
  match v with Some (StringVal s) => s | _ => "" end.
Definition GetIntVal (v : option TypedValue) : Z :=
  match v with Some (IntVal z) => z | _ => 0%Z end.
Definition GetUintVal (v : option TypedValue) : Z :=
  match v with Some (UintVal z) => z | _ => 0%Z end.
Definition GetJsonIetfVal (v : option TypedValue) : string :=
  match v with Some (JsonIetfVal s) => s | _ => "" end.

(** [gnmipb.Update] *)
Record Update := {
  upd_path : option Path;
  upd_val : option TypedValue
}.

Inductive Encoding := JSON | BYTES | PROTO | ASCII | JSON_IETF.

Global Instance Encoding_eq_dec : EqDecision Encoding.
Proof. solve_decision. Defined.

(** Extensions of a request.  A registered extension carries the bundle
    version its message decodes to; the kinds no source looks at are
    [OtherExt]. *)
Record uint128 := { High : Z; Low : Z }.

Record MasterArbitration := { ElectionId : option uint128; has_role : bool }.

Inductive Extension :=
| MasterArbitrationExt (ma : MasterArbitration)
| RegisteredExt (id : Z) (version : string)
| OtherExt.

(** gRPC status codes used by the servers. *)
Inductive Code :=
| Canceled | Unknown | InvalidArgument | DeadlineExceeded | NotFound | AlreadyExists | PermissionDenied
| ResourceExhausted | FailedPrecondition | Aborted | Unimplemented | Internal | Unavailable | DataLoss
| Unauthenticated.

Global Instance Code_eq_dec : EqDecision Code.
Proof. solve_decision. Defined.
