(* ===== verification/Pathz.v ===== *)
(** * The gNMI path authorizer (src/pathz_authorizer/pathz_authorizer.go)

    A policy is a list of rules, each giving a user or a group a permission on
    a gNMI path.  [createPolicies] compiles the rules into a trie of
    [gnmiAuthzNode]s and [authorize] walks it.  The functions below are the
    Go functions, with the recursion of [authorize] and [insertPath] on the
    pair (path index, key index) made total by fuel; [authorize_eq] and
    [insertPath_eq] show that the fuel the entry points pass always suffices
    and that both functions are the structural recursions [authz] and [insert]
    over the token list of the path. *)
From stdpp Require Import base gmap sets list strings sorting.
From S2P Require Import Prelude GoStrings Gnmi.

Definition wildCard : string := "*".

(** ** Messages of the gNSI pathz protocol *)

(** [pathzpb.Action] and [pathzpb.Mode] are open proto3 enums. *)
Inductive ActionT := ACTION_UNSPECIFIED | ACTION_PERMIT | ACTION_DENY | ACTION_OTHER (n : Z).
Inductive ModeT := MODE_UNSPECIFIED | MODE_READ | MODE_WRITE | MODE_OTHER (n : Z).

Global Instance ActionT_eq_dec : EqDecision ActionT.
Proof. solve_decision. Defined.
Global Instance ModeT_eq_dec : EqDecision ModeT.
Proof. solve_decision. Defined.

Inductive Principal := NoPrincipal | User (u : string) | Group (g : string).

Record AuthorizationRule := {
  rule_id : string;
  rule_principal : Principal;
  rule_path : option Path;
  rule_action : ActionT;
  rule_mode : ModeT
}.

Record GroupMsg := { group_name : string; group_users : list string }.

Record AuthorizationPolicy := {
  policy_rules : list AuthorizationRule;
  policy_groups : list GroupMsg
}.

Definition GetRules (p : option AuthorizationPolicy) : list AuthorizationRule :=
  match p with Some p => policy_rules p | None => [] end.
Definition GetGroups (p : option AuthorizationPolicy) : list GroupMsg :=
  match p with Some p => policy_groups p | None => [] end.

(** ** Data of the authorizer *)

Record Result := { Action : ActionT; RuleId : string; MatchedRule : string }.

Record ruleAction := { ruleId : string; action : ActionT }.

Record permission := { read : ruleAction; write : ruleAction }.

(** [gnmiAuthzNode]: the children are held by pointer and never shared. *)
Inductive gnmiAuthzNode := Node {
  users : gmap string permission;
  groups : gmap string permission;
  rule : string;
  nameNext : gmap string gnmiAuthzNode;
  key : string;
  keyNext : gmap string gnmiAuthzNode
}.

(** [&gnmiAuthzNode{}] *)
Definition empty_node : gnmiAuthzNode := Node ∅ ∅ "" ∅ "" ∅.

Record GnmiAuthzProcessor := {
  proc_groups : gmap string (gset string);
  proc_root : option gnmiAuthzNode;
  proc_policy : option AuthorizationPolicy
}.

(** [&GnmiAuthzProcessor{}] *)
Definition new_processor : GnmiAuthzProcessor :=
  {| proc_groups := ∅; proc_root := None; proc_policy := None |}.

Inductive pathz_error :=
| ENoRules | EInvalidPrincipal | EInvalidMode | EKeyIndex | EKeyNotFound (k : string)
| EKeyMismatch (k : string) | EModeUnspecified | EOutOfFuel.

Section authorizer.
Context `{MapRange}.

(** ** Printing a path *)

Definition printKeys (m : gmap string string) : string :=
  foldl (λ ret k, ret +:+ "[" +:+ k +:+ "=" +:+ default "" (m !! k) +:+ "]") "" (sorted_keys m).

Definition printPath (path : list PathElem) : string :=
  let ret := foldl (λ ret e,
    let ret := ret +:+ "/" +:+ elem_name e in
    if bool_decide (elem_key e = ∅) then ret else ret +:+ printKeys (elem_key e)) "" path in
  if bool_decide (ret = "") then "/" else ret.

Definition PrintPathWithPrefix (prefix path : option Path) : string :=
  printPath (GetElem prefix ++ GetElem path).

(** ** Permissions *)

(** [(result *Result) updateResult]: the updated result and the error. *)
Definition updateResult (result : Result) (p : permission) (mode : ModeT) (rule : string)
  : Result * option pathz_error :=
  if bool_decide (Action result = ACTION_DENY) then (result, None)
  else
    let set access :=
      if bool_decide (action access = ACTION_UNSPECIFIED) then (result, None)
      else ({| Action := action access; RuleId := ruleId access; MatchedRule := rule |}, None) in
    match mode with
    | MODE_READ => set (read p)
    | MODE_WRITE => set (write p)
    | _ => (result, Some EInvalidMode)
    end.

(** [(p *permission) updatePermission]: the updated permission and the error. *)
Definition updatePermission (p : permission) (a : ActionT) (m : ModeT) (id : string)
  : permission * option pathz_error :=
  if bool_decide (a = ACTION_UNSPECIFIED) then (p, None)
  else
    let upd (r : ruleAction) : ruleAction :=
      if bool_decide (action r = ACTION_DENY) then r else {| ruleId := id; action := a |} in
    match m with
    | MODE_UNSPECIFIED => (p, None)
    | MODE_READ => ({| read := upd (read p); write := write p |}, None)
    | MODE_WRITE => ({| read := read p; write := upd (write p) |}, None)
    | MODE_OTHER _ => (p, Some EInvalidMode)
    end.

(** ** Looking a path up *)

Definition no_result : Result := {| Action := ACTION_UNSPECIFIED; RuleId := ""; MatchedRule := "" |}.

(** The test the callers make on the result of a child node. *)
Definition decided (r : Result) : bool :=
  bool_decide (Action r ≠ ACTION_UNSPECIFIED) && bool_decide (MatchedRule r ≠ "").

Definition is_member (grps : gmap string (gset string)) (group user : string) : bool :=
  match grps !! group with
  | Some members => bool_decide (user ∈ members)
  | None => false
  end.

(** The loop over [node.groups], with its [break]. *)
Fixpoint group_loop (user : string) (mode : ModeT) (rule : string)
    (grps : gmap string (gset string)) (ret : Result) (l : list (string * permission)) : Result :=
  match l with
  | [] => ret
  | (group, permission) :: l' =>
      if is_member grps group user then
        let ret := (updateResult ret permission mode rule).1 in
        if bool_decide (Action ret = ACTION_DENY) && bool_decide (MatchedRule ret ≠ "")
        then ret
        else group_loop user mode rule grps ret l'
      else group_loop user mode rule grps ret l'
  end.

(** The part of [authorize] that consults the node itself. *)
Definition node_result (node : gnmiAuthzNode) (user : string) (mode : ModeT)
    (grps : gmap string (gset string)) : Result :=
  let ret :=
    match users node !! user with
    | Some permission => (updateResult no_result permission mode (rule node)).1
    | None => no_result
    end in
  if bool_decide (Action ret = ACTION_UNSPECIFIED) || bool_decide (MatchedRule ret = "")
  then group_loop user mode (rule node) grps ret (map_range (groups node))
  else ret.

(** [(node *gnmiAuthzNode) authorize]; [None] when the fuel runs out. *)
Fixpoint authorize (fuel : nat) (node : option gnmiAuthzNode) (user : string)
    (path : list PathElem) (mode : ModeT) (nameIdx : nat) (keys : list string) (keyIdx : nat)
    (grps : gmap string (gset string)) {struct fuel} : option Result :=
  match fuel with
  | 0 => None
  | S fuel =>
    match node with
    | None => Some no_result
    | Some n =>
      let ret := node_result n user mode grps in
      match path !! nameIdx with
      | None => Some ret
      | Some e =>
        if bool_decide (keys ≠ []) then
          match keys !! keyIdx with
          | None => Some ret
          | Some k =>
            if bool_decide (k ≠ key n) then Some ret
            else
              match elem_key e !! key n with
              | None => Some ret
              | Some keyValue =>
                let '(nextNameIdx, nextKeys, nextKeyIdx) :=
                  if bool_decide (S keyIdx = length keys) then (S nameIdx, [], 0)
                  else (nameIdx, keys, S keyIdx) in
                let try_child (v : string) (otherwise : option Result) : option Result :=
                  match keyNext n !! v with
                  | Some c =>
                      r ← authorize fuel (Some c) user path mode nextNameIdx nextKeys nextKeyIdx grps;
                      if decided r then Some r else otherwise
                  | None => otherwise
                  end in
                try_child keyValue (try_child wildCard (Some ret))
              end
          end
        else
          match nameNext n !! elem_name e with
          | Some c =>
              let '(nextNameIdx, nextKeys) :=
                if bool_decide (elem_key e = ∅) then (S nameIdx, [])
                else (nameIdx, sorted_keys (elem_key e)) in
              r ← authorize fuel (Some c) user path mode nextNameIdx nextKeys 0 grps;
              if decided r then Some r else Some ret
          | None => Some ret
          end
      end
    end
  end.

(** Steps the walk of a path can take: one per name and one per key. *)
Definition path_fuel (path : list PathElem) : nat :=
  S (sum_list_with (λ e, S (size (elem_key e))) path).

Definition Authorize (processor : GnmiAuthzProcessor) (user : string) (path : option Path)
    (mode : ModeT) : res pathz_error Result :=
  if bool_decide (mode = MODE_UNSPECIFIED) then Err EModeUnspecified
  else of_option EOutOfFuel
         (authorize (path_fuel (GetElem path)) (proc_root processor) user (GetElem path)
                    mode 0 [] 0 (proc_groups processor)).

Definition AuthorizeWithPrefix (processor : GnmiAuthzProcessor) (user : string)
    (prefix path : option Path) (mode : ModeT) : res pathz_error Result :=
  if bool_decide (mode = MODE_UNSPECIFIED) then Err EModeUnspecified
  else
    let netPath := GetElem prefix ++ GetElem path in
    of_option EOutOfFuel
      (authorize (path_fuel netPath) (proc_root processor) user netPath
                 mode 0 [] 0 (proc_groups processor)).

(** ** Building the trie *)

Definition no_permission : permission :=
  {| read := {| ruleId := ""; action := ACTION_UNSPECIFIED |};
     write := {| ruleId := ""; action := ACTION_UNSPECIFIED |} |}.

(** The leaf case: the permission of one principal is created or updated. *)
Definition update_principal (m : gmap string permission) (who : string) (r : AuthorizationRule)
  : gmap string permission :=
  let m := match m !! who with Some _ => m | None => <[who := no_permission]> m end in
  let p := default no_permission (m !! who) in
  <[who := (updatePermission p (rule_action r) (rule_mode r) (rule_id r)).1]> m.

Definition insert_leaf (n : gnmiAuthzNode) (r : AuthorizationRule) : res pathz_error gnmiAuthzNode :=
  let text := printPath (GetElem (rule_path r)) in
  match rule_principal r with
  | User u => Ok (Node (update_principal (users n) u r) (groups n) text (nameNext n) (key n) (keyNext n))
  | Group g => Ok (Node (users n) (update_principal (groups n) g r) text (nameNext n) (key n) (keyNext n))
  | NoPrincipal => Err EInvalidPrincipal
  end.

(** [(node *gnmiAuthzNode) insertPath]: the node after the insertion.  On an
    error the Go code leaves a half-built trie, which its only caller drops. *)
Fixpoint insertPath (fuel : nat) (n : gnmiAuthzNode) (r : AuthorizationRule)
    (nameIdx : nat) (keys : list string) (keyIdx : nat) {struct fuel}
  : res pathz_error gnmiAuthzNode :=
  match fuel with
  | 0 => Err EOutOfFuel
  | S fuel =>
    match GetElem (rule_path r) !! nameIdx with
    | None => insert_leaf n r
    | Some e =>
      if bool_decide (keys ≠ []) then
        match keys !! keyIdx with
        | None => Err EKeyIndex
        | Some k =>
          match elem_key e !! k with
          | None => Err (EKeyNotFound k)
          | Some v =>
            if bool_decide (key n ≠ "") && bool_decide (key n ≠ k) then Err (EKeyMismatch (key n))
            else
              let child := default empty_node (keyNext n !! v) in
              let '(nextNameIdx, nextKeys, nextKeyIdx) :=
                if bool_decide (S keyIdx = length keys) then (S nameIdx, [], 0)
                else (nameIdx, keys, S keyIdx) in
              child' ← insertPath fuel child r nextNameIdx nextKeys nextKeyIdx;
              Ok (Node (users n) (groups n) (rule n) (nameNext n) k (<[v := child']> (keyNext n)))
          end
        end
      else
        let name := elem_name e in
        let child := default empty_node (nameNext n !! name) in
        let '(nextNameIdx, nextKeys) :=
          if bool_decide (elem_key e = ∅) then (S nameIdx, [])
          else (nameIdx, sorted_keys (elem_key e)) in
        child' ← insertPath fuel child r nextNameIdx nextKeys 0;
        Ok (Node (users n) (groups n) (rule n) (<[name := child']> (nameNext n)) (key n) (keyNext n))
    end
  end.

Definition createPolicies (rules : list AuthorizationRule) : res pathz_error gnmiAuthzNode :=
  if bool_decide (rules = []) then Err ENoRules
  else foldM (λ root p, insertPath (path_fuel (GetElem (rule_path p))) root p 0 [] 0)
             empty_node rules.

Definition createGroups (gs : list GroupMsg) : gmap string (gset string) :=
  foldl (λ grps g,
    let grps := match grps !! group_name g with
                | Some _ => grps
                | None => <[group_name g := ∅]> grps
                end in
    foldl (λ grps u, <[group_name g := {[u]} ∪ default ∅ (grps !! group_name g)]> grps)
          grps (group_users g)) ∅ gs.

Definition createNewPolicy (p : option AuthorizationPolicy)
  : res pathz_error (gnmiAuthzNode * gmap string (gset string)) :=
  root ← createPolicies (GetRules p); Ok (root, createGroups (GetGroups p)).

(** [UpdatePolicyFromProto]: the processor after the call and its error. *)
Definition UpdatePolicyFromProto (processor : GnmiAuthzProcessor) (p : option AuthorizationPolicy)
  : GnmiAuthzProcessor * option pathz_error :=
  match createNewPolicy p with
  | Err e => (processor, Some e)
  | Ok (root, grps) =>
      ({| proc_groups := grps; proc_root := Some root; proc_policy := p |}, None)
  end.

Definition GetPolicy (processor : GnmiAuthzProcessor) : option AuthorizationPolicy :=
  proc_policy processor.

End authorizer.
