(* ===== verification/PathzTrie.v ===== *)
(** * The policy trie as a map from token lists (for Pathz.v)

    A path is a list of tokens: its element names, each followed by its keys in
    alphabetical order.  [authz] and [insert] are the structural recursions on
    tokens that the indexed Go functions [authorize] and [insertPath]
    implement; [view] reads the permissions stored under a token list, and
    [insert_view] states what an insertion changes: the view at the rule's own
    tokens, and nothing else. *)
From stdpp Require Import base gmap sets list strings sorting.
From S2P Require Import Prelude GoStrings Gnmi Pathz.

Inductive tok := TName (n : string) | TKey (k v : string).

Global Instance tok_eq_dec : EqDecision tok.
Proof. solve_decision. Defined.

(** ** Tokens of a path *)
Definition keys_toks (m : gmap string string) (ks : list string) : list tok :=
  (λ k, TKey k (default "" (m !! k))) <$> ks.

Section trie.
Context `{MapRange}.

Definition elem_toks (e : PathElem) : list tok :=
  TName (elem_name e) :: keys_toks (elem_key e) (sorted_keys (elem_key e)).

Definition path_toks (p : list PathElem) : list tok := p ≫= elem_toks.

Lemma path_toks_cons e p : path_toks (e :: p) = elem_toks e ++ path_toks p.
Proof. done. Qed.

(** ** The reference lookup and insertion *)

Fixpoint authz (user : string) (mode : ModeT) (grps : gmap string (gset string))
    (n : gnmiAuthzNode) (ts : list tok) : Result :=
  let ret := node_result n user mode grps in
  let via (c : option gnmiAuthzNode) (ts' : list tok) (otherwise : Result) : Result :=
    match c with
    | Some c => let r := authz user mode grps c ts' in if decided r then r else otherwise
    | None => otherwise
    end in
  match ts with
  | [] => ret
  | TName s :: ts' => via (nameNext n !! s) ts' ret
  | TKey k v :: ts' =>
      if bool_decide (k = key n)
      then via (keyNext n !! v) ts' (via (keyNext n !! wildCard) ts' ret)
      else ret
  end.

Fixpoint insert (n : gnmiAuthzNode) (r : AuthorizationRule) (ts : list tok)
  : res pathz_error gnmiAuthzNode :=
  match ts with
  | [] => insert_leaf n r
  | TName s :: ts' =>
      c ← insert (default empty_node (nameNext n !! s)) r ts';
      Ok (Node (users n) (groups n) (rule n) (<[s := c]> (nameNext n)) (key n) (keyNext n))
  | TKey k v :: ts' =>
      if bool_decide (key n ≠ "") && bool_decide (key n ≠ k) then Err (EKeyMismatch (key n))
      else
        c ← insert (default empty_node (keyNext n !! v)) r ts';
        Ok (Node (users n) (groups n) (rule n) (nameNext n) k (<[v := c]> (keyNext n)))
  end.

(** ** The indexed functions are the structural ones *)

(** The tokens still ahead of a Go call with these indices. *)
Definition rest_toks (path : list PathElem) (i : nat) (keys : list string) (j : nat) : list tok :=
  match keys with
  | [] => path_toks (drop i path)
  | _ => match path !! i with
         | None => []
         | Some e => keys_toks (elem_key e) (drop j keys) ++ path_toks (drop (S i) path)
         end
  end.

Arguments rest_toks : simpl never.

(** The states the recursion passes through: outside the keys of an element,
    or inside them with the element's sorted keys. *)
Definition idx_ok (path : list PathElem) (i : nat) (keys : list string) (j : nat) : Prop :=
  keys = [] ∨ ∃ e, path !! i = Some e ∧ keys = sorted_keys (elem_key e) ∧ j < length keys.

Lemma rest_toks_end path i keys j :
  idx_ok path i keys j → path !! i = None → rest_toks path i keys j = [].
Proof.
  intros [->|(e & He & _)] Hn; [|congruence]. unfold rest_toks.
  by rewrite drop_ge by (by apply lookup_ge_None).
Qed.

Lemma rest_toks_name path i e j :
  path !! i = Some e →
  rest_toks path i [] j = TName (elem_name e) ::
    (if bool_decide (elem_key e = ∅) then rest_toks path (S i) [] 0
     else rest_toks path i (sorted_keys (elem_key e)) 0).
Proof.
  intros He. unfold rest_toks at 1. rewrite (drop_S _ _ _ He).
  rewrite path_toks_cons. unfold elem_toks. cbn [app]. f_equal.
  case_bool_decide as Hk.
  - apply sorted_keys_nil in Hk as ->. done.
  - rewrite <- sorted_keys_nil in Hk. unfold rest_toks.
    destruct (sorted_keys _) eqn:Hs; [done|]. by rewrite He.
Qed.

Lemma rest_toks_key path i e keys j k :
  path !! i = Some e → keys !! j = Some k →
  rest_toks path i keys j = TKey k (default "" (elem_key e !! k)) ::
    (if bool_decide (S j = length keys) then rest_toks path (S i) [] 0
     else rest_toks path i keys (S j)).
Proof.
  intros He Hk. unfold rest_toks. destruct keys as [|k0 ks]; [done|].
  rewrite He, (drop_S _ _ _ Hk). unfold keys_toks. rewrite fmap_cons. cbn [app]. f_equal.
  case_bool_decide as Hj; [|done].
  by rewrite (drop_ge (k0 :: ks)) by lia.
Qed.

Lemma keys_pair_eq {A} (b : bool) (f : nat → list string → nat → A) i keys j :
  (let '(x, y, z) := if b then (S i, [], 0) else (i, keys, S j) in f x y z)
  = if b then f (S i) [] 0 else f i keys (S j).
Proof. by destruct b. Qed.

Lemma idx_ok_next path i e keys j k :
  path !! i = Some e → keys !! j = Some k → keys = sorted_keys (elem_key e) →
  idx_ok path (S i) [] 0 ∧ (S j ≠ length keys → idx_ok path i keys (S j)).
Proof.
  intros He Hk ->. split; [by left|]. intros. right. exists e. split_and!; [done..|].
  apply lookup_lt_Some in Hk. lia.
Qed.

Lemma idx_ok_inside path i e keys j :
  idx_ok path i keys j → path !! i = Some e → keys ≠ [] →
  keys = sorted_keys (elem_key e) ∧ ∃ k v, keys !! j = Some k ∧ elem_key e !! k = Some v.
Proof.
  intros [->|(e' & He' & Hs & Hj)] He Hne; [done|].
  assert (e' = e) as -> by congruence. split; [done|].
  destruct (lookup_lt_is_Some_2 _ _ Hj) as [k Hk]. exists k.
  destruct (proj1 (elem_of_sorted_keys (elem_key e) k)) as [v Hv].
  - rewrite <- Hs. by eapply list_elem_of_lookup_2.
  - by exists v.
Qed.

Lemma idx_ok_enter path i e :
  path !! i = Some e → elem_key e ≠ ∅ → idx_ok path i (sorted_keys (elem_key e)) 0.
Proof.
  intros He Hk. right. exists e. split_and!; [done..|].
  rewrite <- sorted_keys_nil in Hk. destruct (sorted_keys _); [done|simpl; lia].
Qed.

(** With more fuel than tokens ahead, [authorize] returns, and its result is
    the reference lookup. *)
Lemma authorize_rest user mode grps path fuel n i keys j :
  idx_ok path i keys j →
  length (rest_toks path i keys j) < fuel →
  authorize fuel (Some n) user path mode i keys j grps
  = Some (authz user mode grps n (rest_toks path i keys j)).
Proof.
  revert n i keys j. induction fuel as [|fuel IH]; intros n i keys j Hok Hf; [lia|]. simpl.
  destruct (path !! i) as [e|] eqn:He; [|by rewrite rest_toks_end].
  case_bool_decide as Hkeys.
  - destruct (idx_ok_inside _ _ _ _ _ Hok He Hkeys) as (Hs & k & v & Hk & Hv).
    rewrite (rest_toks_key _ _ _ _ _ _ He Hk), Hv in *. simpl in *. rewrite Hk.
    destruct (decide (k = key n)) as [->|Hkn].
    2:{ rewrite bool_decide_true, bool_decide_false by done. done. }
    rewrite bool_decide_false, (bool_decide_true (key n = key n)), Hv by auto.
    destruct (idx_ok_next _ _ _ _ _ _ He Hk Hs) as [Hn1 Hn2].
    revert Hf; destruct (bool_decide (S j = length keys)) eqn:Hj; intros Hf;
      [|apply bool_decide_eq_false in Hj];
      (destruct (keyNext n !! v); simpl; [rewrite IH by (auto; lia); simpl; case_match; [done|]|]);
      (destruct (keyNext n !! wildCard); simpl; [rewrite IH by (auto; lia); simpl; by case_match|done]).
  - subst keys. rewrite (rest_toks_name _ _ _ _ He) in *. simpl in *.
    destruct (nameNext n !! elem_name e) as [c|]; [|done].
    revert Hf; destruct (bool_decide (elem_key e = ∅)) eqn:Hk; intros Hf;
      (rewrite IH; [simpl; by case_match| |lia]); [by left|].
    apply idx_ok_enter; [done|]. by apply bool_decide_eq_false in Hk.
Qed.

Lemma insertPath_rest r fuel n i keys j :
  let path := GetElem (rule_path r) in
  idx_ok path i keys j →
  length (rest_toks path i keys j) < fuel →
  insertPath fuel n r i keys j = insert n r (rest_toks path i keys j).
Proof.
  intros path. revert n i keys j.
  induction fuel as [|fuel IH]; intros n i keys j Hok Hf; [lia|]. simpl. fold path.
  destruct (path !! i) as [e|] eqn:He; [|by rewrite rest_toks_end].
  case_bool_decide as Hkeys.
  - destruct (idx_ok_inside _ _ _ _ _ Hok He Hkeys) as (Hs & k & v & Hk & Hv).
    rewrite (rest_toks_key _ _ _ _ _ _ He Hk), Hk, Hv in *. simpl in *.
    destruct (_ && _); [done|]. destruct (idx_ok_next _ _ _ _ _ _ He Hk Hs) as [Hn1 Hn2].
    revert Hf; destruct (bool_decide (S j = length keys)) eqn:Hj; intros Hf;
      [|apply bool_decide_eq_false in Hj]; rewrite IH by (auto; lia); done.
  - subst keys. rewrite (rest_toks_name _ _ _ _ He) in *. simpl in *.
    revert Hf; destruct (bool_decide (elem_key e = ∅)) eqn:Hk; intros Hf; (rewrite IH; [done| |lia]); [by left|].
    apply idx_ok_enter; [done|]. by apply bool_decide_eq_false in Hk.
Qed.

Lemma length_path_toks path : length (path_toks path) < path_fuel path.
Proof.
  unfold path_fuel. induction path as [|e path IH]; [simpl; lia|].
  rewrite path_toks_cons, length_app. simpl. unfold keys_toks. rewrite length_fmap.
  rewrite sorted_keys_canonical, (Permutation_length (sort_Strings_perm _)), length_fmap.
  rewrite length_map_to_list. simpl in *. lia.
Qed.

Lemma authorize_eq user mode grps path n :
  authorize (path_fuel path) (Some n) user path mode 0 [] 0 grps
  = Some (authz user mode grps n (path_toks path)).
Proof.
  rewrite authorize_rest; [done|by left|]. apply length_path_toks.
Qed.

Lemma insertPath_eq n r :
  insertPath (path_fuel (GetElem (rule_path r))) n r 0 [] 0
  = insert n r (path_toks (GetElem (rule_path r))).
Proof. rewrite insertPath_rest; [done|by left|]. apply length_path_toks. Qed.

(** ** What is stored under a token list *)

Definition viewT : Type := gmap string permission * gmap string permission * string.

Definition view_of (n : gnmiAuthzNode) : viewT := (users n, groups n, rule n).
Definition empty_view : viewT := (∅, ∅, "").

Fixpoint node_at (n : gnmiAuthzNode) (ts : list tok) : option gnmiAuthzNode :=
  match ts with
  | [] => Some n
  | TName s :: ts' => c ← nameNext n !! s; node_at c ts'
  | TKey k v :: ts' =>
      if bool_decide (k = key n) then c ← keyNext n !! v; node_at c ts' else None
  end.

Definition view (n : gnmiAuthzNode) (ts : list tok) : viewT :=
  from_option view_of empty_view (node_at n ts).

(** The answer of a node depends on its view alone. *)
Definition view_result (v : viewT) (user : string) (mode : ModeT)
    (grps : gmap string (gset string)) : Result :=
  node_result (Node v.1.1 v.1.2 v.2 ∅ "" ∅) user mode grps.

(** What a rule does to the view at its own tokens. *)
Definition leaf_update (r : AuthorizationRule) (v : viewT) : viewT :=
  let text := printPath (GetElem (rule_path r)) in
  match rule_principal r with
  | User u => (update_principal v.1.1 u r, v.1.2, text)
  | Group g => (v.1.1, update_principal v.1.2 g r, text)
  | NoPrincipal => v
  end.

(** A node with key children has a key name. *)
Definition keys_named (n : gnmiAuthzNode) : Prop :=
  ∀ ts m, node_at n ts = Some m → key m = "" → keyNext m = ∅.

Definition tok_named (t : tok) : Prop :=
  match t with TName _ => True | TKey k _ => k ≠ "" end.

Lemma view_empty_node ts : view empty_node ts = empty_view.
Proof. destruct ts as [|[s|k v] ts]; try done. unfold view. simpl. by case_bool_decide. Qed.

Lemma keys_named_empty : keys_named empty_node.
Proof.
  intros [|[s|k v] ts] m; simpl; [by intros [= <-]|done|].
  by case_bool_decide.
Qed.

Lemma view_name n s ts : view n (TName s :: ts) = view (default empty_node (nameNext n !! s)) ts.
Proof.
  unfold view at 1. simpl. destruct (nameNext n !! s); [done|]. by rewrite view_empty_node.
Qed.

Lemma view_key n k v ts :
  view n (TKey k v :: ts)
  = if bool_decide (k = key n) then view (default empty_node (keyNext n !! v)) ts else empty_view.
Proof.
  unfold view at 1. simpl. case_bool_decide; [|done].
  destruct (keyNext n !! v); [done|]. by rewrite view_empty_node.
Qed.

Lemma keys_named_name n s : keys_named n → keys_named (default empty_node (nameNext n !! s)).
Proof.
  intros Hn. destruct (nameNext n !! s) as [c|] eqn:Hc; [|apply keys_named_empty].
  intros ts m Hm. apply (Hn (TName s :: ts)). simpl. by rewrite Hc.
Qed.

Lemma keys_named_key n v : keys_named n → keys_named (default empty_node (keyNext n !! v)).
Proof.
  intros Hn. destruct (keyNext n !! v) as [c|] eqn:Hc; [|apply keys_named_empty].
  intros ts m Hm. apply (Hn (TKey (key n) v :: ts)). simpl.
  by rewrite bool_decide_true, Hc.
Qed.

(** A node whose key name is free or already [k] shows the same views before
    and after the name is set. *)
Lemma view_key_set n k v ts :
  keys_named n → k ≠ "" → (key n = "" ∨ key n = k) →
  view (default empty_node (keyNext n !! v)) ts = view n (TKey k v :: ts).
Proof.
  intros Hn Hk [He|He]; rewrite view_key; [|by rewrite bool_decide_true].
  rewrite bool_decide_false by congruence.
  by rewrite (Hn [] n eq_refl He), lookup_empty; simpl; rewrite view_empty_node.
Qed.

Lemma insert_leaf_view n r n' :
  insert_leaf n r = Ok n' →
  view_of n' = leaf_update r (view_of n) ∧
  nameNext n' = nameNext n ∧ key n' = key n ∧ keyNext n' = keyNext n.
Proof. unfold insert_leaf, leaf_update. destruct (rule_principal r); intros; by simplify_eq/=. Qed.

Lemma node_at_children n n' :
  nameNext n' = nameNext n → key n' = key n → keyNext n' = keyNext n →
  ∀ t ts, node_at n' (t :: ts) = node_at n (t :: ts).
Proof. intros HN HK HX [s|k v] ts; simpl; by rewrite ?HN, ?HK, ?HX. Qed.

(** The insertion of a rule changes the view at the rule's tokens, as
    [leaf_update] says, and no other view. *)
Lemma insert_view n r ts n' :
  keys_named n → Forall tok_named ts → insert n r ts = Ok n' →
  keys_named n' ∧
  ∀ ts', view n' ts' = if bool_decide (ts' = ts) then leaf_update r (view n ts) else view n ts'.
Proof.
  revert n n'. induction ts as [|[s|k v] ts IH]; intros n n' Hn Hts; simpl.
  - intros (Hv & HN & HK & HX)%insert_leaf_view.
    pose proof (node_at_children n n' HN HK HX) as Hat. split.
    + intros [|t ts'] m; [|rewrite Hat; apply Hn].
      intros [= <-]. rewrite HK, HX. apply (Hn [] n eq_refl).
    + intros [|t ts']; [done|]. unfold view. by rewrite Hat.
  - intros (c & Hc & [= <-])%bind_Ok. apply Forall_cons in Hts as [_ Hts].
    destruct (IH _ _ (keys_named_name _ s Hn) Hts Hc) as [Hn' Hv]. split.
    + intros [|[s'|k v] ts'] m; simpl; [by intros [= <-]; apply (Hn [] n)| |by apply (Hn (TKey k v :: ts') m)].
      rewrite lookup_insert. case_decide as Hs; simpl; [by apply Hn'|].
      by apply (Hn (TName s' :: ts')).
    + intros [|[s'|k v] ts']; [done| |done].
      rewrite (view_name (Node _ _ _ _ _ _)). simpl. rewrite lookup_insert. case_decide as Hs; simpl.
      * subst s'. rewrite Hv, !view_name. repeat case_bool_decide; naive_solver.
      * rewrite bool_decide_false by congruence. by rewrite view_name.
  - apply Forall_cons in Hts as [Hk Hts]. simpl in Hk.
    destruct (bool_decide (key n ≠ "") && bool_decide (key n ≠ k)) eqn:Hkey; [done|].
    assert (key n = "" ∨ key n = k) as Hkey'.
    { apply andb_false_iff in Hkey as [Hkey|Hkey]; apply bool_decide_eq_false in Hkey;
        apply dec_stable in Hkey; auto. }
    clear Hkey.
    intros (c & Hc & [= <-])%bind_Ok.
    destruct (IH _ _ (keys_named_key _ v Hn) Hts Hc) as [Hn' Hv]. split.
    + intros [|[s'|k' v'] ts'] m; simpl; [by intros [= <-]|by apply (Hn (TName s' :: ts') m)|].
      case_bool_decide as Hkk; [|done]. rewrite lookup_insert. case_decide; simpl; [by apply Hn'|].
      intros Hm. destruct (keyNext n !! v') as [c'|] eqn:Hc'; [|done].
      eapply (keys_named_key n v' Hn). rewrite Hc'. done.
    + intros [|[s'|k' v'] ts']; [done..|].
      rewrite (view_key (Node _ _ _ _ _ _)). simpl. case_bool_decide as Hkk.
      2:{ rewrite (bool_decide_false (TKey k' v' :: ts' = _)) by congruence.
          rewrite view_key. case_bool_decide as Hk'; [|done]. destruct Hkey' as [He|He]; [|congruence].
          by rewrite (Hn [] n eq_refl He), lookup_empty; simpl; rewrite view_empty_node. }
      subst k'. rewrite lookup_insert. case_decide as Hvv; simpl.
      * subst v'. rewrite Hv, !(view_key_set n k v) by done. repeat case_bool_decide; naive_solver.
      * rewrite bool_decide_false by congruence. by rewrite (view_key_set n k v').
Qed.

(** ** Which views a lookup consults *)

(** A rule's tokens match a request's when they are a prefix of them, up to a
    wild card in place of a key value. *)
Fixpoint pat_match (p ts : list tok) : bool :=
  match p, ts with
  | [], _ => true
  | TName s :: p', TName s' :: ts' => bool_decide (s = s') && pat_match p' ts'
  | TKey k v :: p', TKey k' v' :: ts' =>
      bool_decide (k = k') && (bool_decide (v = v') || bool_decide (v = wildCard)) && pat_match p' ts'
  | _, _ => false
  end.

Lemma pat_match_refl ts : pat_match ts ts = true.
Proof.
  induction ts as [|[s|k v] ts IH]; simpl; [done|..];
    rewrite !bool_decide_true by done; simpl; done.
Qed.

Lemma view_result_empty user mode grps : view_result empty_view user mode grps = no_result.
Proof.
  unfold view_result, node_result. simpl. rewrite lookup_empty, map_range_empty. done.
Qed.

Lemma node_result_view n user mode grps :
  node_result n user mode grps = view_result (view_of n) user mode grps.
Proof. done. Qed.

(** Soundness of the walk: the answer is that of a stored view on a matching path. *)
Lemma authz_view user mode grps n ts :
  ∃ p, pat_match p ts = true ∧ authz user mode grps n ts = view_result (view n p) user mode grps.
Proof.
  revert n. induction ts as [|[s|k v] ts IH]; intros n; simpl.
  - by exists [].
  - destruct (nameNext n !! s) as [c|] eqn:Hc; [|by exists []].
    case_match; [|by exists []]. destruct (IH c) as (p & Hp & Heq).
    exists (TName s :: p). simpl. rewrite bool_decide_true, view_name, Hc by done. done.
  - case_bool_decide as Hk; [|by exists []]. subst k.
    destruct (keyNext n !! v) as [c|] eqn:Hc; [case_match|];
      [| |]; [destruct (IH c) as (p & Hp & Heq); exists (TKey (key n) v :: p)|..].
    { simpl. rewrite view_key, Hc, !bool_decide_true by done. done. }
    all: destruct (keyNext n !! wildCard) as [c'|] eqn:Hc'; [|by exists []];
      case_match; [|by exists []]; destruct (IH c') as (p & Hp & Heq);
      exists (TKey (key n) wildCard :: p); simpl;
      by rewrite view_key, Hc', orb_true_r, !bool_decide_true.
Qed.

(** A node that decides leads to a decision. *)
Lemma decided_else r r' :
  decided r' = true → decided (if decided r then r else r') = true.
Proof. by destruct (decided r) eqn:?. Qed.

Lemma authz_node user mode grps n ts :
  decided (node_result n user mode grps) = true → decided (authz user mode grps n ts) = true.
Proof.
  intros Hd. destruct ts as [|[s|k v] ts]; simpl; [done|..].
  - destruct (nameNext n !! s); [by apply decided_else|done].
  - destruct (bool_decide _); [|done].
    destruct (keyNext n !! v); [apply decided_else|];
      (destruct (keyNext n !! wildCard); [by apply decided_else|done]).
Qed.

(** Completeness: a decision stored on a matching path leads to a decision. *)
Lemma authz_complete user mode grps n p ts :
  pat_match p ts = true → decided (view_result (view n p) user mode grps) = true →
  decided (authz user mode grps n ts) = true.
Proof.
  revert n p. induction ts as [|[s|k v] ts IH]; intros n p Hp Hd.
  - by destruct p as [|[] ]; simpl in *.
  - destruct p as [|[s'|k' v'] p]; simpl in Hp; [|apply andb_true_iff in Hp as [->%bool_decide_eq_true Hp]|done].
    + by apply authz_node.
    + rewrite view_name in Hd. simpl. destruct (nameNext n !! s) as [c|]; simpl in Hd.
      * rewrite (IH c p Hp Hd). by apply (IH c p).
      * rewrite view_empty_node, view_result_empty in Hd. done.
  - destruct p as [|[s'|k' v'] p]; simpl in Hp; [|done|].
    { by apply authz_node. }
    apply andb_true_iff in Hp as [[->%bool_decide_eq_true Hv]%andb_true_iff Hp].
    rewrite view_key in Hd. simpl. case_bool_decide; [|by rewrite view_result_empty in Hd].
    assert (∀ w, view_result (view (default empty_node (keyNext n !! w)) p) user mode grps
                 = view_result (view (default empty_node (keyNext n !! v')) p) user mode grps →
            ∃ c, keyNext n !! w = Some c ∧ decided (authz user mode grps c ts) = true) as Hw.
    { intros w Hw. rewrite <- Hw in Hd. destruct (keyNext n !! w) as [c|]; simpl in Hd.
      - exists c. by rewrite (IH c p).
      - rewrite view_empty_node, view_result_empty in Hd. done. }
    apply orb_true_iff in Hv as [->%bool_decide_eq_true| ->%bool_decide_eq_true];
      destruct (Hw _ eq_refl) as (c & -> & Hc); [by rewrite Hc|].
    destruct (keyNext n !! v); [apply decided_else|]; by rewrite Hc.
Qed.

(** Precedence: a decision stored for the exact path is the answer. *)
Lemma authz_exact user mode grps n ts :
  decided (view_result (view n ts) user mode grps) = true →
  authz user mode grps n ts = view_result (view n ts) user mode grps.
Proof.
  revert n. induction ts as [|[s|k v] ts IH]; intros n Hd; simpl; [done|..].
  - rewrite view_name in *. destruct (nameNext n !! s) as [c|]; simpl in *;
      [|by rewrite view_empty_node, view_result_empty in Hd]. by rewrite IH, Hd.
  - rewrite view_key in *. case_bool_decide; [|by rewrite view_result_empty in Hd].
    destruct (keyNext n !! v) as [c|]; simpl in *;
      [|by rewrite view_empty_node, view_result_empty in Hd]. by rewrite IH, Hd.
Qed.
End trie.
