(* ===== verification/PathzPolicy.v ===== *)
(** * What a path policy means (for Pathz.v)

    The abstract policy is the list of rules itself: [rule_applies] says when a
    rule speaks about a user, a path and a mode.  The theorems relate the
    decisions of the compiled trie to that list: every decision comes from a
    rule that applies, a rule that applies leads to a decision, a deny rule on
    the exact path wins, and the order in which Go iterates over the groups of
    a node does not change the action. *)
From stdpp Require Import base gmap sets list strings sorting.
From S2P Require Import Prelude GoStrings Gnmi Pathz PathzTrie.

(** ** The abstract policy *)

Definition covers (grps : gmap string (gset string)) (pr : Principal) (user : string) : bool :=
  match pr with
  | User u => bool_decide (u = user)
  | Group g => is_member grps g user
  | NoPrincipal => false
  end.

Definition is_access (m : ModeT) : bool :=
  match m with MODE_READ | MODE_WRITE => true | _ => false end.

Definition access (p : permission) (m : ModeT) : option ruleAction :=
  match m with MODE_READ => Some (read p) | MODE_WRITE => Some (write p) | _ => None end.

Definition known_action (a : ActionT) : bool :=
  match a with ACTION_OTHER _ => false | _ => true end.

(** The permission a view holds for a principal. *)
Definition select (pr : Principal) (v : viewT) : option permission :=
  match pr with
  | User u => v.1.1 !! u
  | Group g => v.1.2 !! g
  | NoPrincipal => None
  end.

Global Instance Principal_eq_dec : EqDecision Principal.
Proof. solve_decision. Defined.

Section policy.
Context `{MapRange}.

Definition rule_toks (r : AuthorizationRule) : list tok := path_toks (GetElem (rule_path r)).

(** The key names of a rule's path are not empty. *)
Definition rule_named (r : AuthorizationRule) : Prop := Forall tok_named (rule_toks r).

(** Rule [r] speaks about [user], [mode] and the path [path]. *)
Definition rule_applies (grps : gmap string (gset string)) (r : AuthorizationRule)
    (user : string) (path : list PathElem) (mode : ModeT) : bool :=
  covers grps (rule_principal r) user &&
  pat_match (rule_toks r) (path_toks path) &&
  bool_decide (rule_mode r = mode) && is_access mode &&
  bool_decide (rule_action r ≠ ACTION_UNSPECIFIED).

(** ** Printing depends on the tokens only *)

Definition print_tok (t : tok) : string :=
  match t with
  | TName n => "/" +:+ n
  | TKey k v => "[" +:+ k +:+ "=" +:+ v +:+ "]"
  end.

Lemma foldl_concat {A} (f : A → string) a l :
  foldl (λ r x, r +:+ f x) a l = a +:+ foldl (λ r x, r +:+ f x) "" l.
Proof.
  revert a. induction l as [|x l IH]; intros a; simpl; [by rewrite app_empty_r|].
  rewrite IH, (IH ("" +:+ f x)). by rewrite app_assoc_str.
Qed.

Lemma foldl_ext_str {A} (f g : string → A → string) a l :
  (∀ r x, f r x = g r x) → foldl f a l = foldl g a l.
Proof. intros Hfg. revert a. induction l; intros; simpl; [done|]. by rewrite Hfg. Qed.

Definition print_toks (ts : list tok) : string := foldl (λ r t, r +:+ print_tok t) "" ts.

Lemma print_toks_app ts1 ts2 : print_toks (ts1 ++ ts2) = print_toks ts1 +:+ print_toks ts2.
Proof. unfold print_toks. rewrite foldl_app. apply foldl_concat. Qed.

Lemma printKeys_toks m : printKeys m = print_toks (keys_toks m (sorted_keys m)).
Proof.
  unfold printKeys, print_toks, keys_toks. by rewrite foldl_fmap.
Qed.

Lemma printPath_toks p :
  printPath p = if bool_decide (print_toks (path_toks p) = "") then "/" else print_toks (path_toks p).
Proof.
  unfold printPath.
  rewrite (foldl_ext_str _ (λ ret e, ret +:+ print_toks (elem_toks e))).
  - assert (foldl (λ ret e, ret +:+ print_toks (elem_toks e)) "" p = print_toks (path_toks p)) as ->;
      [|done].
    induction p as [|e p IH]; [done|].
    rewrite path_toks_cons, print_toks_app, <- IH. cbn [foldl]. rewrite app_nil_str.
    apply (foldl_concat (λ e, print_toks (elem_toks e))).
  - intros s e. unfold elem_toks.
    change (TName ?n :: ?l) with ([TName n] ++ l). rewrite print_toks_app.
    change (print_toks [TName ?n]) with ("" +:+ ("/" +:+ n)). rewrite app_nil_str.
    rewrite <- printKeys_toks. case_bool_decide as Hk; [|by rewrite !app_assoc_str].
    unfold printKeys. apply sorted_keys_nil in Hk as ->. simpl. by rewrite app_empty_r.
Qed.

Lemma printPath_nonempty p : printPath p ≠ "".
Proof. unfold printPath. by case_bool_decide. Qed.

Lemma printPath_rule r r' :
  rule_toks r = rule_toks r' →
  printPath (GetElem (rule_path r)) = printPath (GetElem (rule_path r')).
Proof. unfold rule_toks. intros Ht. by rewrite !printPath_toks, Ht. Qed.

(** ** The trie of a rule list *)

Definition leaf_fold (rules : list AuthorizationRule) (ts : list tok) : viewT :=
  foldl (λ v r, if bool_decide (ts = rule_toks r) then leaf_update r v else v) empty_view rules.

Lemma insert_principal n r ts n' : insert n r ts = Ok n' → rule_principal r ≠ NoPrincipal.
Proof.
  revert n n'. induction ts as [|[s|k v] ts IH]; intros n n'; simpl.
  - unfold insert_leaf. by destruct (rule_principal r).
  - intros (c & Hc & _)%bind_Ok. by eapply IH.
  - destruct (_ && _); [done|]. intros (c & Hc & _)%bind_Ok. by eapply IH.
Qed.

Lemma createPolicies_fold rules0 rules n n' :
  keys_named n → (∀ ts, view n ts = leaf_fold rules0 ts) →
  Forall rule_named rules →
  foldM (λ root p, insertPath (path_fuel (GetElem (rule_path p))) root p 0 [] 0) n rules = Ok n' →
  (∀ ts, view n' ts = leaf_fold (rules0 ++ rules) ts)
  ∧ Forall (λ r, rule_principal r ≠ NoPrincipal) rules.
Proof.
  revert rules0 n. induction rules as [|r rules IH]; intros rules0 n Hn Hv Hr; cbn [foldM].
  - intros [= <-]. by rewrite app_nil_r.
  - intros (n1 & Hi & Hf)%bind_Ok. apply Forall_cons in Hr as [Hr Hrs].
    rewrite insertPath_eq in Hi. pose proof (insert_principal _ _ _ _ Hi) as Hp.
    destruct (insert_view _ _ _ _ Hn Hr Hi) as [Hn1 Hv1].
    rewrite (cons_middle r), app_assoc.
    destruct (IH (rules0 ++ [r]) n1 Hn1) as [Hv' Hps]; [|done..|by auto].
    intros ts. rewrite Hv1, !Hv. unfold leaf_fold. rewrite foldl_app. simpl.
    fold (leaf_fold rules0 ts). unfold rule_toks. by case_bool_decide; subst.
Qed.

(** The compiled trie stores exactly the fold of the rules. *)
Lemma createPolicies_view rules root :
  Forall rule_named rules → createPolicies rules = Ok root →
  (∀ ts, view root ts = leaf_fold rules ts) ∧ Forall (λ r, rule_principal r ≠ NoPrincipal) rules.
Proof.
  intros Hr. unfold createPolicies. case_bool_decide; [done|]. intros Hf.
  eapply (createPolicies_fold [] rules); [apply keys_named_empty|apply view_empty_node|done..].
Qed.

(** ** Permissions of a view *)

Lemma access_update p a m id m' :
  access (updatePermission p a m id).1 m' =
    (old ← access p m';
     Some (if bool_decide (a ≠ ACTION_UNSPECIFIED) && bool_decide (m = m')
              && bool_decide (action old ≠ ACTION_DENY)
           then {| ruleId := id; action := a |} else old)).
Proof.
  unfold updatePermission. destruct (decide (a = ACTION_UNSPECIFIED)) as [->|Ha].
  - rewrite bool_decide_true by done. simpl. by destruct (access p m').
  - rewrite bool_decide_false, (bool_decide_true (a ≠ _)) by done.
    destruct m, m'; simpl; try done; rewrite ?bool_decide_true, ?(bool_decide_false (_ = _)) by done; simpl;
      repeat case_bool_decide; done.
Qed.

Lemma update_principal_eq m who r :
  update_principal m who r =
  <[who := (updatePermission (default no_permission (m !! who)) (rule_action r) (rule_mode r) (rule_id r)).1]> m.
Proof.
  unfold update_principal. destruct (m !! who) as [p|] eqn:Hm; [by rewrite Hm|].
  by rewrite lookup_insert_eq, insert_insert_eq.
Qed.

Lemma select_update pr r v :
  pr ≠ NoPrincipal →
  select pr (leaf_update r v) =
    if bool_decide (pr = rule_principal r)
    then Some (updatePermission (default no_permission (select pr v))
                 (rule_action r) (rule_mode r) (rule_id r)).1
    else select pr v.
Proof.
  intros Hpr. unfold leaf_update. destruct (rule_principal r) as [|u|g]; simpl;
    [by rewrite bool_decide_false|..]; destruct pr as [|u'|g']; try done; simpl;
    rewrite update_principal_eq, lookup_insert; case_decide as Hd;
    rewrite ?bool_decide_true, ?bool_decide_false by congruence; by subst.
Qed.

Lemma leaf_fold_snoc rules r ts :
  leaf_fold (rules ++ [r]) ts =
  if bool_decide (ts = rule_toks r) then leaf_update r (leaf_fold rules ts) else leaf_fold rules ts.
Proof. unfold leaf_fold. by rewrite foldl_app. Qed.

Lemma select_fold_snoc rules r ts pr :
  pr ≠ NoPrincipal →
  select pr (leaf_fold (rules ++ [r]) ts) =
    if bool_decide (ts = rule_toks r) && bool_decide (pr = rule_principal r)
    then Some (updatePermission (default no_permission (select pr (leaf_fold rules ts)))
                 (rule_action r) (rule_mode r) (rule_id r)).1
    else select pr (leaf_fold rules ts).
Proof.
  intros Hpr. rewrite leaf_fold_snoc. case_bool_decide; [|done]. by rewrite select_update.
Qed.

Lemma access_no_permission m ra : access no_permission m = Some ra → action ra = ACTION_UNSPECIFIED.
Proof. destruct m; simpl; naive_solver. Qed.

Lemma select_Some_principal pr v p : select pr v = Some p → pr ≠ NoPrincipal.
Proof. by destruct pr. Qed.

(** What is stored for a principal was put there by one of the rules. *)
Lemma leaf_fold_sound rules ts pr p mode ra :
  select pr (leaf_fold rules ts) = Some p → access p mode = Some ra →
  action ra ≠ ACTION_UNSPECIFIED →
  ∃ r, r ∈ rules ∧ rule_toks r = ts ∧ rule_principal r = pr ∧ rule_mode r = mode ∧
       rule_action r = action ra ∧ rule_id r = ruleId ra.
Proof.
  intros Hs. pose proof (select_Some_principal _ _ _ Hs) as Hpr. revert p ra Hs.
  induction rules as [|r rules IH] using rev_ind; intros p ra.
  { destruct pr; simpl; by rewrite ?lookup_empty. }
  rewrite select_fold_snoc by done. intros Hs Ha Hne.
  assert (∀ r', r' ∈ rules → r' ∈ rules ++ [r]) as Hin by set_solver.
  destruct (_ && _) eqn:Hb; [|destruct (IH p ra) as (r' & ? & ?); naive_solver].
  apply andb_true_iff in Hb as [Hts%bool_decide_eq_true Hp%bool_decide_eq_true].
  injection Hs as <-. rewrite access_update in Ha.
  destruct (access (default _ _) mode) as [old|] eqn:Ho; [|done]. injection Ha as <-.
  destruct (_ && _ && _) eqn:Hu.
  - apply andb_true_iff in Hu as [[_ Hm%bool_decide_eq_true]%andb_true_iff _].
    exists r. set_solver.
  - destruct (select pr (leaf_fold rules ts)) as [p'|] eqn:Hp'; simpl in Ho.
    + destruct (IH p' old) as (r' & ? & ?); naive_solver.
    + by apply access_no_permission in Ho.
Qed.

(** A rule leaves a decision for its principal, and a deny rule leaves a deny. *)
Lemma leaf_fold_complete rules r :
  r ∈ rules → rule_principal r ≠ NoPrincipal → is_access (rule_mode r) = true →
  rule_action r ≠ ACTION_UNSPECIFIED →
  ∃ p ra, select (rule_principal r) (leaf_fold rules (rule_toks r)) = Some p ∧
          access p (rule_mode r) = Some ra ∧ action ra ≠ ACTION_UNSPECIFIED ∧
          (rule_action r = ACTION_DENY → action ra = ACTION_DENY).
Proof.
  intros Hin Hpr Hacc Hact. induction rules as [|r' rules IH] using rev_ind; [set_solver|].
  rewrite select_fold_snoc by done.
  apply elem_of_app in Hin as [Hr|Hr%list_elem_of_singleton].
  - destruct (IH Hr) as (p & ra & Hs & Ha & Hne & Hd). rewrite Hs. simpl.
    destruct (_ && _); [|by eauto 10].
    eexists _, _. split; [done|]. rewrite access_update, Ha. simpl. split; [done|].
    destruct (bool_decide (rule_action r' ≠ _)) eqn:H1; simpl; [|done].
    apply bool_decide_eq_true in H1. repeat case_bool_decide; simpl; naive_solver.
  - subst r'. rewrite !bool_decide_true by done. simpl.
    eexists _. rewrite access_update.
    assert (∃ old, access (default no_permission (select (rule_principal r) (leaf_fold rules (rule_toks r))))
                     (rule_mode r) = Some old) as [old Ho].
    { destruct (rule_mode r); simpl in *; eauto; done. }
    rewrite Ho. simpl. eexists. split; [done|]. split; [done|].
    rewrite (bool_decide_true (_ ≠ _)), (bool_decide_true (rule_mode r = _)) by done. simpl.
    case_bool_decide as Hdn; simpl; [done|]. by rewrite Hdn.
Qed.

Lemma leaf_fold_text rules r :
  Forall (λ r, rule_principal r ≠ NoPrincipal) rules → r ∈ rules →
  (leaf_fold rules (rule_toks r)).2 = printPath (GetElem (rule_path r)).
Proof.
  intros Hall Hin. induction rules as [|r' rules IH] using rev_ind; [set_solver|].
  apply Forall_app in Hall as [Hall [Hr' _]%Forall_cons].
  rewrite leaf_fold_snoc. case_bool_decide as Ht.
  - unfold leaf_update. destruct (rule_principal r') eqn:Hpr; simpl.
    + by destruct Hr'.
    + by rewrite (printPath_rule r r').
    + by rewrite (printPath_rule r r').
  - apply IH; [done|]. set_solver.
Qed.

Lemma leaf_fold_known rules ts pr p mode ra :
  Forall (λ r, known_action (rule_action r) = true) rules →
  select pr (leaf_fold rules ts) = Some p → access p mode = Some ra → known_action (action ra) = true.
Proof.
  intros Hall Hs Ha. destruct (decide (action ra = ACTION_UNSPECIFIED)) as [->|Hne]; [done|].
  destruct (leaf_fold_sound _ _ _ _ _ _ Hs Ha Hne) as (r & Hin & _ & _ & _ & <- & _).
  rewrite Forall_forall in Hall. by apply Hall.
Qed.

(** ** The answer of a view *)

(** The answer is open, or it is the access of a covering principal. *)
Definition from_view (v : viewT) (user : string) (mode : ModeT)
    (grps : gmap string (gset string)) (r : Result) : Prop :=
  Action r = ACTION_UNSPECIFIED ∨
  ∃ pr p ra, covers grps pr user = true ∧ select pr v = Some p ∧ access p mode = Some ra ∧
    Action r = action ra ∧ RuleId r = ruleId ra ∧ MatchedRule r = v.2.

Lemma updateResult_cases ret p mode rl :
  (updateResult ret p mode rl).1 = ret ∨
  ∃ ra, access p mode = Some ra ∧ action ra ≠ ACTION_UNSPECIFIED ∧
    (updateResult ret p mode rl).1 =
      {| Action := action ra; RuleId := ruleId ra; MatchedRule := rl |}.
Proof.
  unfold updateResult. case_bool_decide; [by left|].
  destruct mode; simpl; [by left| | |by left]; case_bool_decide; eauto 10.
Qed.

Lemma updateResult_from_view v user mode grps pr p ret :
  covers grps pr user = true → select pr v = Some p →
  from_view v user mode grps ret → from_view v user mode grps (updateResult ret p mode v.2).1.
Proof.
  intros Hc Hs Hr.
  destruct (updateResult_cases ret p mode v.2) as [->|(ra & Ha & _ & ->)]; [done|].
  right. exists pr, p, ra. done.
Qed.

Lemma group_loop_from_view v user mode grps ret l :
  (∀ g p, (g, p) ∈ l → v.1.2 !! g = Some p) →
  from_view v user mode grps ret → from_view v user mode grps (group_loop user mode v.2 grps ret l).
Proof.
  revert ret. induction l as [|[g p] l IH]; intros ret Hl Hr; simpl; [done|].
  assert (∀ g p, (g, p) ∈ l → v.1.2 !! g = Some p) by set_solver.
  destruct (is_member grps g user) eqn:Hm; [|by apply IH].
  assert (from_view v user mode grps (updateResult ret p mode v.2).1).
  { apply (updateResult_from_view _ _ _ _ (Group g)); [done| |done]. apply Hl. set_solver. }
  destruct (_ && _); [done|]. by apply IH.
Qed.

Lemma view_result_sound v user mode grps : from_view v user mode grps (view_result v user mode grps).
Proof.
  unfold view_result, node_result. simpl.
  assert (from_view v user mode grps no_result) as H0 by by left.
  set (ret := match v.1.1 !! user with Some _ => _ | None => _ end).
  assert (from_view v user mode grps ret) as Hret.
  { unfold ret. destruct (v.1.1 !! user) as [p|] eqn:Hu; [|done].
    apply (updateResult_from_view _ _ _ _ (User user)); [by apply bool_decide_eq_true|done..]. }
  destruct (_ || _); [|done]. apply group_loop_from_view; [|done].
  intros g p. by rewrite elem_of_map_range.
Qed.

Lemma decided_spec r : decided r = true ↔ Action r ≠ ACTION_UNSPECIFIED ∧ MatchedRule r ≠ "".
Proof. unfold decided. by rewrite andb_true_iff, !bool_decide_eq_true. Qed.

Lemma updateResult_decided ret p mode rl :
  rl ≠ "" → decided ret = true → decided (updateResult ret p mode rl).1 = true.
Proof.
  intros Hrl Hd. destruct (updateResult_cases ret p mode rl) as [->|(ra & _ & Hne & ->)]; [done|].
  by apply decided_spec.
Qed.

Lemma updateResult_decides ret p mode rl ra :
  rl ≠ "" → Action ret ≠ ACTION_DENY → access p mode = Some ra → action ra ≠ ACTION_UNSPECIFIED →
  (updateResult ret p mode rl).1 = {| Action := action ra; RuleId := ruleId ra; MatchedRule := rl |}.
Proof.
  intros Hrl Hd Ha Hne. unfold updateResult. rewrite bool_decide_false by done.
  destruct mode; simplify_eq/=; by rewrite bool_decide_false.
Qed.

Lemma group_loop_decided user mode rl grps ret l :
  rl ≠ "" → decided ret = true → decided (group_loop user mode rl grps ret l) = true.
Proof.
  intros Hrl. revert ret. induction l as [|[g p] l IH]; intros ret Hd; simpl; [done|].
  destruct (is_member _ _ _); [|by apply IH]. destruct (_ && _); [|apply IH];
    by apply updateResult_decided.
Qed.

Lemma group_loop_decides user mode rl grps ret l g p ra :
  rl ≠ "" → (Action ret = ACTION_UNSPECIFIED ∨ decided ret = true) →
  (g, p) ∈ l → is_member grps g user = true → access p mode = Some ra →
  action ra ≠ ACTION_UNSPECIFIED → decided (group_loop user mode rl grps ret l) = true.
Proof.
  intros Hrl Hret Hin Hm Ha Hne. revert ret Hret. induction l as [|[g' p'] l IH]; [set_solver|].
  intros ret [Hret|Hret]; [|by apply group_loop_decided]. simpl.
  apply elem_of_cons in Hin as [[= <- <-]|Hin].
  - rewrite Hm. erewrite updateResult_decides by (rewrite ?Hret; done).
    destruct (_ && _); [|apply group_loop_decided; [done|]]; by apply decided_spec.
  - destruct (is_member grps g' user); [|by apply IH; [|left]].
    destruct (updateResult_cases ret p' mode rl) as [->|(ra' & _ & Hne' & ->)].
    + rewrite Hret. simpl. by apply IH; [|left].
    + destruct (_ && _); [by apply decided_spec|]. apply IH; [done|]. right. by apply decided_spec.
Qed.

(** A stored decision for a covering principal makes the view decide. *)
Lemma view_result_complete v user mode grps pr p ra :
  v.2 ≠ "" → covers grps pr user = true → select pr v = Some p → access p mode = Some ra →
  action ra ≠ ACTION_UNSPECIFIED → decided (view_result v user mode grps) = true.
Proof.
  intros Hv Hc Hs Ha Hne. unfold view_result, node_result. simpl.
  set (ret := match v.1.1 !! user with Some _ => _ | None => _ end).
  assert (Action ret = ACTION_UNSPECIFIED ∨ decided ret = true) as Hret.
  { unfold ret. destruct (v.1.1 !! user) as [q|]; [|by left].
    destruct (updateResult_cases no_result q mode v.2) as [->|(ra' & _ & ? & ->)]; [by left|].
    right. by apply decided_spec. }
  destruct pr as [|u|g]; [done|..]; simpl in Hc, Hs.
  - apply bool_decide_eq_true in Hc as ->. unfold ret. rewrite Hs.
    rewrite (updateResult_decides _ _ _ _ ra) by done. simpl.
    rewrite !bool_decide_false by done. by apply decided_spec.
  - destruct (_ || _) eqn:Hb.
    + eapply group_loop_decides; [done..| |done|done|done]. by apply elem_of_map_range.
    + apply orb_false_iff in Hb as [?%bool_decide_eq_false _].
      by destruct Hret.
Qed.

(** A deny stored for the user makes the view deny. *)
Lemma view_result_user_deny v user mode grps p ra :
  v.2 ≠ "" → v.1.1 !! user = Some p → access p mode = Some ra → action ra = ACTION_DENY →
  Action (view_result v user mode grps) = ACTION_DENY ∧ decided (view_result v user mode grps) = true.
Proof.
  intros Hv Hs Ha Hd. unfold view_result, node_result. simpl. rewrite Hs.
  rewrite (updateResult_decides _ _ _ _ ra) by (rewrite ?Hd; done). simpl.
  rewrite Hd, !bool_decide_false by done. simpl. split; [done|]. by apply decided_spec.
Qed.
End policy.

(** ** The order of a Go map does not change the action *)

Definition grants (user : string) (mode : ModeT) (grps : gmap string (gset string))
    (l : list (string * permission)) (a : ActionT) : Prop :=
  ∃ g p ra, (g, p) ∈ l ∧ is_member grps g user = true ∧ access p mode = Some ra ∧ action ra = a.

Definition known_perms (l : list (string * permission)) : Prop :=
  ∀ g p mode ra, (g, p) ∈ l → access p mode = Some ra → known_action (action ra) = true.

(** What the group loop may end with, given what it started with. *)
Definition loop_summary (rl : string) (ret r : Result) (G : ActionT → Prop) : Prop :=
  (Action r = ACTION_DENY ↔ Action ret = ACTION_DENY ∨ G ACTION_DENY) ∧
  (Action r = ACTION_UNSPECIFIED ↔
     Action ret = ACTION_UNSPECIFIED ∧ ∀ a, a ≠ ACTION_UNSPECIFIED → ¬ G a) ∧
  known_action (Action r) = true ∧
  MatchedRule r = (if bool_decide (Action r = ACTION_UNSPECIFIED) then "" else rl).

Definition result_ok (rl : string) (r : Result) : Prop :=
  known_action (Action r) = true ∧
  MatchedRule r = (if bool_decide (Action r = ACTION_UNSPECIFIED) then "" else rl).

Lemma updateResult_ok p mode rl ret :
  (∀ ra, access p mode = Some ra → known_action (action ra) = true) →
  result_ok rl ret → result_ok rl (updateResult ret p mode rl).1.
Proof.
  intros Hk Hr. destruct (updateResult_cases ret p mode rl) as [->|(ra & Ha & Hne & ->)]; [done|].
  split; simpl; [by apply Hk|]. by rewrite bool_decide_false.
Qed.

Lemma updateResult_deny_iff ret p mode rl :
  Action (updateResult ret p mode rl).1 = ACTION_DENY ↔
  Action ret = ACTION_DENY ∨ ∃ ra, access p mode = Some ra ∧ action ra = ACTION_DENY.
Proof.
  unfold updateResult. case_bool_decide as Hd; [by split; [left|]|].
  destruct mode; simpl; repeat case_bool_decide; simpl;
    (split; [intros ?; eauto 6|intros [?|(? & [=] & ?)]; subst; congruence]).
Qed.

Lemma updateResult_open_iff ret p mode rl :
  Action (updateResult ret p mode rl).1 = ACTION_UNSPECIFIED ↔
  Action ret = ACTION_UNSPECIFIED ∧ ∀ ra, access p mode = Some ra → action ra = ACTION_UNSPECIFIED.
Proof.
  unfold updateResult. case_bool_decide as Hd; [simpl; rewrite Hd; split; [discriminate|intros [? _]; discriminate]|].
  destruct mode; simpl; repeat case_bool_decide; simpl;
    (split; [intros ?; split; [congruence|intros ? [=]; subst; congruence]|intros [? Ha]; auto]).
Qed.

Lemma grants_cons user mode grps g p l a :
  grants user mode grps ((g, p) :: l) a ↔
  (is_member grps g user = true ∧ ∃ ra, access p mode = Some ra ∧ action ra = a) ∨
  grants user mode grps l a.
Proof.
  unfold grants. setoid_rewrite elem_of_cons. split.
  - intros (g' & p' & ra & [[= -> ->]|Hin] & Hrest); [left; naive_solver|right; naive_solver].
  - intros [(Hm & ra & Ha)|(g' & p' & ra & Hin & Hrest)]; [exists g, p, ra|exists g', p', ra]; naive_solver.
Qed.

Lemma group_loop_summary user mode rl grps ret l :
  known_perms l → result_ok rl ret →
  loop_summary rl ret (group_loop user mode rl grps ret l) (grants user mode grps l).
Proof.
  revert ret. induction l as [|[g p] l IH]; intros ret Hk Hr.
  { simpl. assert (∀ a, ¬ grants user mode grps [] a) by (unfold grants; set_solver).
    destruct Hr. split_and!; naive_solver. }
  assert (known_perms l) as Hk' by (intros ????; unfold known_perms in Hk; set_solver).
  unfold loop_summary. setoid_rewrite grants_cons. simpl.
  destruct (is_member grps g user) eqn:Hm.
  2:{ destruct (IH ret Hk' Hr) as (H1 & H2 & H3). split_and!; [naive_solver..]. }
  assert (result_ok rl (updateResult ret p mode rl).1) as Hr'.
  { apply updateResult_ok; [|done]. intros ra. apply (Hk g). set_solver. }
  pose proof (updateResult_deny_iff ret p mode rl) as Hd.
  pose proof (updateResult_open_iff ret p mode rl) as Ho.
  destruct (_ && _) eqn:Hb.
  - apply andb_true_iff in Hb as [Hb%bool_decide_eq_true _]. destruct Hr' as [? ->].
    rewrite Hb in *. split_and!; [naive_solver| |done|done]. split; [done|].
    intros [Hu Hg].
    destruct (proj1 Hd eq_refl) as [Hret|(ra & Ha & Hra)]; [congruence|].
    exfalso. apply (Hg ACTION_DENY); [done|]. naive_solver.
  - destruct (IH _ Hk' Hr') as (H1 & H2 & H3 & H4). split_and!; [naive_solver| |done|done].
    rewrite H2, Ho. split.
    + intros [[? Ha] Hg]. split; [done|]. intros a Hne [(_ & ra & ? & <-)|]; naive_solver.
    + intros [? Hg]. split_and!; [done| |naive_solver]. intros ra Ha.
      destruct (decide (action ra = ACTION_UNSPECIFIED)); [done|]. naive_solver.
Qed.

Lemma known_cases a : known_action a = true → a = ACTION_UNSPECIFIED ∨ a = ACTION_PERMIT ∨ a = ACTION_DENY.
Proof. destruct a; naive_solver. Qed.

Definition known_view (v : viewT) : Prop :=
  ∀ pr p mode ra, select pr v = Some p → access p mode = Some ra → known_action (action ra) = true.

Definition same_action (r1 r2 : Result) : Prop :=
  Action r1 = Action r2 ∧ MatchedRule r1 = MatchedRule r2.

Lemma summary_same rl ret r1 r2 (G1 G2 : ActionT → Prop) :
  (∀ a, G1 a ↔ G2 a) → loop_summary rl ret r1 G1 → loop_summary rl ret r2 G2 → same_action r1 r2.
Proof.
  intros HG (D1 & U1 & K1 & M1) (D2 & U2 & K2 & M2).
  assert (Action r1 = Action r2) as Ha; [|split; [done|]; by rewrite M1, M2, Ha].
  assert (Action r1 = ACTION_DENY ↔ Action r2 = ACTION_DENY) as HD by (rewrite D1, D2, HG; done).
  assert (Action r1 = ACTION_UNSPECIFIED ↔ Action r2 = ACTION_UNSPECIFIED) as HU.
  { rewrite U1, U2. by setoid_rewrite HG. }
  destruct (known_cases _ K1) as [E1|[E1|E1]], (known_cases _ K2) as [E2|[E2|E2]]; naive_solver congruence.
Qed.

Lemma node_result_range (H1 H2 : MapRange) n user mode grps :
  known_view (view_of n) →
  same_action (@node_result H1 n user mode grps) (@node_result H2 n user mode grps).
Proof.
  intros Hk. unfold node_result.
  set (ret := match users n !! user with Some _ => _ | None => _ end).
  assert (result_ok (rule n) ret) as Hret.
  { unfold ret. destruct (users n !! user) as [p|] eqn:Hu; [|done].
    apply updateResult_ok; [|done]. intros ra. by apply (Hk (User user)). }
  destruct (_ || _); [|done].
  assert (∀ H' : MapRange, loop_summary (rule n) ret
            (group_loop user mode (rule n) grps ret (@map_range H' _ (groups n)))
            (grants user mode grps (@map_range H' _ (groups n)))) as Hsum.
  { intros H'. apply group_loop_summary; [|done]. intros g p m ra Hin.
    apply (Hk (Group g)). by apply elem_of_map_range in Hin. }
  eapply summary_same; [|apply Hsum..]. intros a. unfold grants.
  by setoid_rewrite elem_of_map_range.
Qed.

Lemma decided_same r1 r2 : same_action r1 r2 → decided r1 = decided r2.
Proof. intros [Ha Hm]. unfold decided. by rewrite Ha, Hm. Qed.

Lemma same_else r1 r2 d1 d2 :
  same_action r1 r2 → same_action d1 d2 →
  same_action (if decided r1 then r1 else d1) (if decided r2 then r2 else d2).
Proof. intros Hr Hd. rewrite <- (decided_same _ _ Hr). by destruct (decided r1). Qed.

Lemma authz_range (H1 H2 : MapRange) user mode grps n ts :
  (∀ ts, known_view (view n ts)) →
  same_action (@authz H1 user mode grps n ts) (@authz H2 user mode grps n ts).
Proof.
  revert n. induction ts as [|t ts IH]; intros n Hk;
    pose proof (node_result_range H1 H2 n user mode grps (Hk [])) as Hn; [done|].
  destruct t as [s|k v]; simpl.
  - destruct (nameNext n !! s) as [c|] eqn:Hc; [|done]. apply same_else; [|done].
    apply IH. intros ts'. specialize (Hk (TName s :: ts')). by rewrite view_name, Hc in Hk.
  - case_bool_decide as Hkey; [|done].
    assert (∀ w c, keyNext n !! w = Some c → ∀ ts', known_view (view c ts')) as Hkc.
    { intros w c Hc ts'. specialize (Hk (TKey k w :: ts')).
      by rewrite view_key, Hc, bool_decide_true in Hk. }
    destruct (keyNext n !! v) as [c|] eqn:Hc; [apply same_else; [by apply IH, (Hkc v)|]|];
      (destruct (keyNext n !! wildCard) as [c'|] eqn:Hc'; [apply same_else; [|done]|done];
       by apply IH, (Hkc wildCard)).
Qed.

Lemma path_toks_range (H1 H2 : MapRange) p : @path_toks H1 p = @path_toks H2 p.
Proof.
  induction p as [|e p IH]; [done|]. rewrite !path_toks_cons, IH. f_equal.
  unfold elem_toks. by rewrite !sorted_keys_canonical.
Qed.

(** ** The policy-level theorems *)

Section theorems.
Context `{MapRange}.

(** A successful policy update, unfolded. *)
Lemma UpdatePolicy_inv processor0 policy processor :
  UpdatePolicyFromProto processor0 policy = (processor, None) →
  ∃ root, createPolicies (GetRules policy) = Ok root ∧
    processor = {| proc_groups := createGroups (GetGroups policy);
                   proc_root := Some root; proc_policy := policy |}.
Proof.
  unfold UpdatePolicyFromProto, createNewPolicy.
  destruct (createPolicies (GetRules policy)) as [root|e]; simpl; [|done].
  intros [= <-]. eauto.
Qed.

Lemma Authorize_root processor root user path mode :
  proc_root processor = Some root → mode ≠ MODE_UNSPECIFIED →
  Authorize processor user path mode =
  Ok (authz user mode (proc_groups processor) root (path_toks (GetElem path))).
Proof.
  intros Hr Hm. unfold Authorize. rewrite bool_decide_false by done.
  by rewrite Hr, authorize_eq.
Qed.

(** C5. Soundness of the path authorizer: after a successful
    [UpdatePolicyFromProto], whenever [Authorize] answers with an action, the
    policy has a rule that covers the user (directly or through a group),
    whose path matches the request's path (a prefix of it, with wild cards for
    key values), for the requested mode, and the answer carries exactly that
    rule's action, id and printed path. *)
Theorem authorize_decision_has_rule processor0 policy processor user path mode r :
  Forall rule_named (GetRules policy) →
  UpdatePolicyFromProto processor0 policy = (processor, None) →
  Authorize processor user path mode = Ok r →
  Action r ≠ ACTION_UNSPECIFIED →
  ∃ rl, rl ∈ GetRules policy ∧
    rule_applies (createGroups (GetGroups policy)) rl user (GetElem path) mode = true ∧
    rule_action rl = Action r ∧ rule_id rl = RuleId r ∧
    printPath (GetElem (rule_path rl)) = MatchedRule r.
Proof.
  intros Hn (root & Hroot & ->)%UpdatePolicy_inv Hau Hne.
  assert (mode ≠ MODE_UNSPECIFIED) as Hm.
  { intros ->. unfold Authorize in Hau. by rewrite bool_decide_true in Hau. }
  rewrite (Authorize_root _ root) in Hau by done. injection Hau as <-. simpl in *.
  destruct (createPolicies_view _ _ Hn Hroot) as [Hv Hpr].
  destruct (authz_view user mode (createGroups (GetGroups policy)) root (path_toks (GetElem path)))
    as (p & Hp & Heq). rewrite Heq in *. rewrite Hv in *.
  destruct (view_result_sound (leaf_fold (GetRules policy) p) user mode (createGroups (GetGroups policy)))
    as [Hu|(pr & pm & ra & Hc & Hs & Ha & HA & HR & HM)]; [done|].
  rewrite HA in Hne. destruct (leaf_fold_sound _ _ _ _ _ _ Hs Ha Hne)
    as (rl & Hin & Ht & Hrp & Hrm & Hra & Hid).
  exists rl. rewrite HA, HR, HM, <- Ht, leaf_fold_text by done. split_and!; try done.
  unfold rule_applies. rewrite Hrp, Ht, Hc, Hp, Hra, !bool_decide_true by done. simpl.
  by destruct mode.
Qed.

(** C6. Completeness: after a successful update, if some rule of the policy
    applies to the user, path and mode, then [Authorize] returns a decision
    (never the "no matching rule" answer, which callers treat as a deny). *)
Theorem authorize_rule_gives_decision processor0 policy processor user path mode rl :
  Forall rule_named (GetRules policy) →
  UpdatePolicyFromProto processor0 policy = (processor, None) →
  rl ∈ GetRules policy →
  rule_applies (createGroups (GetGroups policy)) rl user (GetElem path) mode = true →
  ∃ r, Authorize processor user path mode = Ok r ∧ Action r ≠ ACTION_UNSPECIFIED.
Proof.
  intros Hn (root & Hroot & ->)%UpdatePolicy_inv Hin Happ.
  unfold rule_applies in Happ.
  rewrite !andb_true_iff, !bool_decide_eq_true in Happ.
  destruct Happ as ((((Hc & Hp) & <-) & Hacc) & Hne).
  rewrite (Authorize_root _ root) by (by destruct (rule_mode rl)). eexists. split; [done|]. simpl.
  destruct (createPolicies_view _ _ Hn Hroot) as [Hv Hpr].
  pose proof (proj1 (Forall_forall _ _) Hpr _ Hin) as Hpr1. simpl in Hpr1.
  destruct (leaf_fold_complete _ _ Hin Hpr1 Hacc Hne) as (p & ra & Hs & Ha & Hna & _).
  refine (proj1 (proj1 (decided_spec _) _)). eapply authz_complete; [exact Hp|]. rewrite Hv.
  eapply view_result_complete; [|done..]. rewrite leaf_fold_text by done. apply printPath_nonempty.
Qed.

(** C1. Deny wins: a deny rule for the user on exactly the requested path is
    honoured whatever the other rules of the policy are (group rules, wild
    card rules, permits on the same path) and wherever it stands in the list. *)
Theorem authorize_user_deny_wins processor0 policy processor user path rl :
  Forall rule_named (GetRules policy) →
  UpdatePolicyFromProto processor0 policy = (processor, None) →
  rl ∈ GetRules policy →
  rule_principal rl = User user → rule_action rl = ACTION_DENY →
  is_access (rule_mode rl) = true → GetElem (rule_path rl) = GetElem path →
  ∃ r, Authorize processor user path (rule_mode rl) = Ok r ∧ Action r = ACTION_DENY.
Proof.
  intros Hn (root & Hroot & ->)%UpdatePolicy_inv Hin Hu Hd Hacc Hpath.
  rewrite (Authorize_root _ root) by (by destruct (rule_mode rl)). eexists. split; [done|]. simpl.
  destruct (createPolicies_view _ _ Hn Hroot) as [Hv Hpr].
  destruct (leaf_fold_complete _ _ Hin) as (p & ra & Hs & Ha & Hna & Hde);
    [by rewrite Hu|done|by rewrite Hd|]. rewrite Hu in Hs. simpl in Hs.
  destruct (view_result_user_deny (leaf_fold (GetRules policy) (rule_toks rl)) user (rule_mode rl)
              (createGroups (GetGroups policy)) p ra) as [HA Hdec]; [|by auto..|].
  { rewrite leaf_fold_text by done. apply printPath_nonempty. }
  unfold rule_toks in *. rewrite Hpath in *. rewrite authz_exact; by rewrite Hv.
Qed.

End theorems.

(** Determinism: the action (and the matched rule's path) that [Authorize]
    answers does not depend on the order in which Go iterates over the groups
    of a node, as long as the policy uses the defined actions. *)
Theorem authorize_order_independent (R R1 R2 : MapRange) processor0 policy processor user path mode :
  Forall (@rule_named R) (GetRules policy) →
  Forall (λ r, known_action (rule_action r) = true) (GetRules policy) →
  @UpdatePolicyFromProto R processor0 policy = (processor, None) →
  mode ≠ MODE_UNSPECIFIED →
  ∃ r1 r2, @Authorize R1 processor user path mode = Ok r1 ∧
           @Authorize R2 processor user path mode = Ok r2 ∧
           Action r1 = Action r2 ∧ MatchedRule r1 = MatchedRule r2.
Proof.
  intros Hn Hka (root & Hroot & ->)%UpdatePolicy_inv Hm.
  rewrite (@Authorize_root R1 _ root), (@Authorize_root R2 _ root) by done.
  eexists _, _. split; [done|]. split; [done|]. simpl.
  rewrite (path_toks_range R1 R2). apply authz_range. intros ts pr p m ra.
  destruct (createPolicies_view _ _ Hn Hroot) as [Hv _]. rewrite Hv. by apply leaf_fold_known.
Qed.

Section processor.
Context `{MapRange}.

(** ** Groups *)

Lemma is_member_add grps name us g u :
  is_member (foldl (λ grps u, <[name := {[u]} ∪ default ∅ (grps !! name)]> grps) grps us) g u = true ↔
  is_member grps g u = true ∨ (g = name ∧ u ∈ us).
Proof.
  revert grps. induction us as [|u' us IH]; intros grps; simpl; [set_solver|].
  rewrite IH, elem_of_cons. unfold is_member at 1. rewrite lookup_insert. case_decide as Hg.
  - subst g. rewrite bool_decide_eq_true. unfold is_member.
    destruct (grps !! name); simpl; [rewrite bool_decide_eq_true|]; set_solver.
  - fold (is_member grps g u). unfold is_member. naive_solver.
Qed.

(** The groups of a policy: a user is a member of a group exactly when one
    of the policy's group messages of that name lists the user, also when the
    same group is given in several messages. *)
Theorem createGroups_member gs g u :
  is_member (createGroups gs) g u = true ↔
  ∃ m, m ∈ gs ∧ group_name m = g ∧ u ∈ group_users m.
Proof.
  unfold createGroups. match goal with |- is_member (foldl ?f _ _) _ _ = true ↔ ?P =>
    assert (∀ grps, is_member (foldl f grps gs) g u = true ↔ is_member grps g u = true ∨ P) as Hf end.
  2:{ rewrite Hf. unfold is_member at 1. rewrite lookup_empty. naive_solver. }
  induction gs as [|m gs IH]; intros grps; simpl; [set_solver|].
  rewrite IH, is_member_add.
  assert (is_member (match grps !! group_name m with Some _ => grps | None => <[group_name m := ∅]> grps end) g u = true
          ↔ is_member grps g u = true) as ->.
  { destruct (grps !! group_name m) eqn:Hm; [done|]. unfold is_member. rewrite lookup_insert.
    case_decide as Hg; [|done]. subst g. rewrite Hm, bool_decide_eq_true. set_solver. }
  set_solver.
Qed.

(** ** Sequences of policy updates *)

Definition apply_updates (ps : list (option AuthorizationPolicy)) : GnmiAuthzProcessor :=
  foldl (λ processor p, (UpdatePolicyFromProto processor p).1) new_processor ps.

Lemma UpdatePolicy_step processor p :
  (UpdatePolicyFromProto processor p).1 =
  if is_ok (createNewPolicy p) then (UpdatePolicyFromProto new_processor p).1 else processor.
Proof. unfold UpdatePolicyFromProto. by destruct (createNewPolicy p) as [[]|]. Qed.

(** C7. A processor always runs the last policy that compiled: after any
    sequence of updates, failed ones included, its policy and its decisions are
    those of the last successful update; when none succeeded it has no policy
    and answers every read or write with "no matching rule". *)
Theorem updates_keep_last_good ps :
  match last (filter (λ p, is_ok (createNewPolicy p) = true) ps) with
  | Some p =>
      GetPolicy (apply_updates ps) = p ∧
      ∀ user path mode, Authorize (apply_updates ps) user path mode =
                        Authorize (UpdatePolicyFromProto new_processor p).1 user path mode
  | None =>
      GetPolicy (apply_updates ps) = None ∧
      ∀ user path mode, mode ≠ MODE_UNSPECIFIED →
        Authorize (apply_updates ps) user path mode = Ok no_result
  end.
Proof.
  assert (apply_updates ps =
    match last (filter (λ p, is_ok (createNewPolicy p) = true) ps) with
    | Some p => (UpdatePolicyFromProto new_processor p).1
    | None => new_processor
    end) as Heq.
  { induction ps as [|p ps IH] using rev_ind; [done|]. unfold apply_updates in *.
    rewrite foldl_app, filter_app. simpl. rewrite UpdatePolicy_step, IH.
    rewrite filter_cons, filter_nil. destruct (is_ok (createNewPolicy p)) eqn:Hok; simpl.
    - by rewrite last_snoc.
    - by rewrite app_nil_r. }
  rewrite Heq. destruct (last _) as [p|] eqn:Hl.
  - split; [|done].
    apply last_Some_elem_of, list_elem_of_filter in Hl as [Hok _].
    unfold UpdatePolicyFromProto. by destruct (createNewPolicy p) as [[]|].
  - split; [done|]. intros user path mode Hm. unfold Authorize. by rewrite bool_decide_false.
Qed.

(** C38. [Authorize] and [AuthorizeWithPrefix] always return: for every
    processor the walk of the trie ends within the fuel of the path, its result
    is the reference lookup [authz] over the path's tokens, and the only error
    is an unspecified mode. *)
Theorem authorize_total processor user prefix path mode :
  Authorize processor user path mode =
    (if bool_decide (mode = MODE_UNSPECIFIED) then Err EModeUnspecified
     else Ok (from_option (λ root, authz user mode (proc_groups processor) root
                                     (path_toks (GetElem path)))
                no_result (proc_root processor))) ∧
  AuthorizeWithPrefix processor user prefix path mode =
    Authorize processor user
      (Some {| path_origin := ""; path_target := ""; path_elem := GetElem prefix ++ GetElem path |}) mode.
Proof.
  split; [|done]. unfold Authorize. case_bool_decide; [done|].
  destruct (proc_root processor) as [root|]; [by rewrite authorize_eq|done].
Qed.
End processor.

(** ** A policy to run *)
Module PathzExample.
Definition name_key (n v : string) : PathElem :=
    {| elem_name := n; elem_key := {[ "name" := v ]} |}.
Definition p_of (es : list PathElem) : option Path :=
    Some {| path_origin := ""; path_target := ""; path_elem := es |}.
Definition r_admin : AuthorizationRule :=
    {| rule_id := "admins"; rule_principal := Group "admin"; rule_path := p_of [elem "interfaces"];
       rule_action := ACTION_PERMIT; rule_mode := MODE_READ |}.
Definition r_wild : AuthorizationRule :=
    {| rule_id := "any-if"; rule_principal := User "bob";
       rule_path := p_of [elem "interfaces"; name_key "interface" "*"];
       rule_action := ACTION_PERMIT; rule_mode := MODE_READ |}.
Definition r_deny : AuthorizationRule :=
    {| rule_id := "no-eth0"; rule_principal := User "bob";
       rule_path := p_of [elem "interfaces"; name_key "interface" "Ethernet0"];
       rule_action := ACTION_DENY; rule_mode := MODE_READ |}.
Definition policy : option AuthorizationPolicy :=
    Some {| policy_rules := [r_admin; r_wild; r_deny];
            policy_groups := [{| group_name := "admin"; group_users := ["alice"; "bob"] |}] |}.
Definition processor : GnmiAuthzProcessor :=
    (@UpdatePolicyFromProto canonical_range new_processor policy).1.
Definition ask (user : string) (es : list PathElem) : res pathz_error Result :=
    @Authorize canonical_range processor user (p_of es) MODE_READ.
End PathzExample.

Example pathz_decisions :
  (Action <$> PathzExample.ask "bob" [elem "interfaces"; PathzExample.name_key "interface" "Ethernet0"],
   RuleId <$> PathzExample.ask "bob" [elem "interfaces"; PathzExample.name_key "interface" "Ethernet4"; elem "mtu"],
   RuleId <$> PathzExample.ask "alice" [elem "interfaces"; PathzExample.name_key "interface" "Ethernet0"],
   Action <$> PathzExample.ask "mallory" [elem "interfaces"])
  = (Ok ACTION_DENY, Ok "any-if", Ok "admins", Ok ACTION_UNSPECIFIED).
Proof. vm_compute. reflexivity. Qed.

(** The side conditions on the concrete policy, by their decision procedures. *)
Global Instance tok_named_dec t : Decision (tok_named t).
Proof. destruct t; apply _. Defined.
Lemma policy_named : Forall (@rule_named canonical_range) (GetRules PathzExample.policy).
Proof.
  apply (bool_decide_unpack (Forall (λ r, Forall tok_named (@rule_toks canonical_range r))
           (GetRules PathzExample.policy))). vm_compute. exact I.
Qed.
Lemma policy_known : Forall (λ r, known_action (rule_action r) = true) (GetRules PathzExample.policy).
Proof. apply (bool_decide_unpack _). vm_compute. exact I. Qed.

Lemma authorize_decision_has_rule_witness :
  ∃ rl, rl ∈ GetRules PathzExample.policy ∧
    @rule_applies canonical_range (createGroups (GetGroups PathzExample.policy)) rl "bob"
      [elem "interfaces"; PathzExample.name_key "interface" "Ethernet4"; elem "mtu"] MODE_READ = true ∧
    rule_action rl = ACTION_PERMIT ∧ rule_id rl = "any-if" ∧
    @printPath canonical_range (GetElem (rule_path rl)) = "/interfaces/interface[name=*]".
Proof.
  apply (@authorize_decision_has_rule canonical_range new_processor PathzExample.policy PathzExample.processor
           "bob" (PathzExample.p_of [elem "interfaces"; PathzExample.name_key "interface" "Ethernet4"; elem "mtu"])
           MODE_READ {| Action := ACTION_PERMIT; RuleId := "any-if";
                        MatchedRule := "/interfaces/interface[name=*]" |}).
  - apply policy_named.
  - apply (pair_snd_eq (@UpdatePolicyFromProto canonical_range new_processor PathzExample.policy)).
    vm_compute. reflexivity.
  - vm_compute. reflexivity.
  - discriminate.
Defined.

Lemma authorize_rule_gives_decision_witness :
  ∃ r, @Authorize canonical_range PathzExample.processor "alice"
         (PathzExample.p_of [elem "interfaces"; elem "state"]) MODE_READ = Ok r ∧
       Action r ≠ ACTION_UNSPECIFIED.
Proof.
  apply (@authorize_rule_gives_decision canonical_range new_processor PathzExample.policy PathzExample.processor
           "alice" (PathzExample.p_of [elem "interfaces"; elem "state"]) MODE_READ PathzExample.r_admin).
  - apply policy_named.
  - apply (pair_snd_eq (@UpdatePolicyFromProto canonical_range new_processor PathzExample.policy)).
    vm_compute. reflexivity.
  - left.
  - vm_compute. reflexivity.
Defined.

Lemma authorize_user_deny_wins_witness :
  ∃ r, @Authorize canonical_range PathzExample.processor "bob"
         (rule_path PathzExample.r_deny) MODE_READ = Ok r ∧ Action r = ACTION_DENY.
Proof.
  apply (@authorize_user_deny_wins canonical_range new_processor PathzExample.policy PathzExample.processor
           "bob" (rule_path PathzExample.r_deny) PathzExample.r_deny).
  - apply policy_named.
  - apply (pair_snd_eq (@UpdatePolicyFromProto canonical_range new_processor PathzExample.policy)).
    vm_compute. reflexivity.
  - right. right. left.
  - reflexivity.
  - reflexivity.
  - reflexivity.
  - reflexivity.
Defined.

Lemma authorize_order_independent_witness :
  ∃ r1 r2, @Authorize canonical_range PathzExample.processor "bob" (rule_path PathzExample.r_admin) MODE_READ = Ok r1 ∧
           @Authorize reversed_range PathzExample.processor "bob" (rule_path PathzExample.r_admin) MODE_READ = Ok r2 ∧
           Action r1 = Action r2 ∧ MatchedRule r1 = MatchedRule r2.
Proof.
  apply (authorize_order_independent canonical_range canonical_range reversed_range new_processor PathzExample.policy).
  - apply policy_named.
  - apply policy_known.
  - apply (pair_snd_eq (@UpdatePolicyFromProto canonical_range new_processor PathzExample.policy)).
    vm_compute. reflexivity.
  - discriminate.
Defined.
