(* ===== verification/Json.v ===== *)
(** * Decoded JSON values

    The values [encoding/json] produces when it decodes into an [interface{}]:
    nil, bool, float64, string, [[]interface{}] and [map[string]interface{}].
    A float64 is kept as its bit pattern: no component computes with it. *)
From stdpp Require Import base gmap list strings pretty.
From S2P Require Import Prelude GoStrings.

Inductive json :=
| JNull
| JBool (b : bool)
| JNum (bits : Z)
| JStr (s : string)
| JArr (l : list json)
| JObj (m : gmap string json).

(** [reflect.DeepEqual] on decoded values. *)
Global Instance json_eq_dec : EqDecision json.
Proof.
  refine (fix go (a b : json) {struct a} : Decision (a = b) :=
    match a, b with
    | JNull, JNull => left eq_refl
    | JBool x, JBool y => cast_if (decide (x = y))
    | JNum x, JNum y => cast_if (decide (x = y))
    | JStr x, JStr y => cast_if (decide (x = y))
    | JArr x, JArr y => cast_if (@list_eq_dec _ go x y)
    | JObj x, JObj y => cast_if (@gmap_eq_dec _ _ _ _ go x y)
    | _, _ => right _
    end); clear go; congruence.
Defined.

(** The Go type assertions on an [interface{}], with the comma-ok form. *)
Definition as_map (v : json) : option (gmap string json) :=
  match v with JObj m => Some m | _ => None end.
Definition as_string (v : json) : option string :=
  match v with JStr s => Some s | _ => None end.
Definition as_list (v : json) : option (list json) :=
  match v with JArr l => Some l | _ => None end.

(** The codec of [encoding/json] over byte strings: a decoder and an encoder,
    each of which may fail. *)
Class JsonCodec := {
  Unmarshal : string → option json;
  Marshal : json → option string
}.

(** * The text [json.Marshal] gives structures

    Structures are encoded with their fields in order, maps with their keys
    sorted; numbers and names are as written here, and the encoder of strings
    is a parameter of the users. *)

Definition dquote : string := String (Ascii.ascii_of_nat 34) "".

(** The name of a field and the colon; names need no escapes. *)
Definition key (name : string) : string := dquote +:+ name +:+ dquote +:+ ":".

Definition json_object (fields : list (string * string)) : string :=
  "{" +:+ Join ((λ '(k, v), key k +:+ v) <$> fields) "," +:+ "}".

Definition json_array (l : list string) : string := "[" +:+ Join l "," +:+ "]".

Definition json_bool (b : bool) : string := if b then "true" else "false".
