(* ===== verification/JsonClient.v ===== *)
(** * The checkpoint store (src/sonic_data_client/json_client.go)

    [JsonClient] holds the configuration of one checkpoint as nested maps
    (table, key, field, and a list index below a field) and applies the
    operations of a JSON patch to it, so that [SetIncrementalConfig] can check a
    request before it asks the host service to apply it.  The maps are nested
    and not shared, so a write through an inner map is a nested insertion. *)
From stdpp Require Import base gmap list strings.
From S2P Require Import Prelude GoStrings Json.

Record JsonClient := { jsonData : gmap string json }.

Inductive jc_error :=
| InvalidDatabase (table : string)
| InvalidTable (v : json)
| InvalidEntryName (entry : string)
| InvalidEntry (v : json)
| InvalidFieldName (field : string)
| InvalidField (v : json)
| InvalidIndex (index : string)
| InvalidItem (v : json)
| InvalidTargetField
| FailToParse (value : string)
| InvalidPath (path : list string)
| InvalidCheckpoint
| InvalidNamespace (ns : string)
| UnexpectedNamespace (ns : string)
| ReadError
| MarshalError.

Section client.
Context `{JsonCodec}.

(** [parseJson] and [emitJSON] (mixed_db_client.go, db_client.go) *)
Definition parseJson (str : string) : res jc_error json := of_option (FailToParse str) (Unmarshal str).
Definition emitJSON (m : gmap string json) : res jc_error string := of_option MarshalError (Marshal (JObj m)).

Definition DecodeJsonTable (database : gmap string json) (tableName : string)
  : res jc_error (gmap string json) :=
  match database !! tableName with
  | None => Err (InvalidDatabase tableName)
  | Some vtable => of_option (InvalidTable vtable) (as_map vtable)
  end.

Definition DecodeJsonEntry (table : gmap string json) (entryName : string)
  : res jc_error (gmap string json) :=
  match table !! entryName with
  | None => Err (InvalidEntryName entryName)
  | Some ventry => of_option (InvalidEntry ventry) (as_map ventry)
  end.

(** A string pointer and a list, one of them nil: a sum. *)
Definition DecodeJsonField (entry : gmap string json) (fieldName : string)
  : res jc_error (string + list json) :=
  match entry !! fieldName with
  | None => Err (InvalidFieldName fieldName)
  | Some (JStr str) => Ok (inl str)
  | Some (JArr list) => Ok (inr list)
  | Some vfield => Err (InvalidField vfield)
  end.

Definition DecodeJsonListItem (list : list json) (index : string) : res jc_error string :=
  match Atoi index with
  | None => Err (InvalidIndex index)
  | Some id =>
      if bool_decide (id < 0)%Z || bool_decide (id >= Z.of_nat (length list))%Z
      then Err (InvalidIndex index)
      else match list !! Z.to_nat id with
           | Some vitem => of_option (InvalidItem vitem) (as_string vitem)
           | None => Err (InvalidIndex index)
           end
  end.

(** [NewJsonClient]: [content] is what reading the file gave. *)
Definition NewJsonClient (content : option string) (nameSpace : string) : res jc_error JsonClient :=
  data ← of_option ReadError content;
  v ← parseJson data;
  jsonMap ← of_option InvalidCheckpoint (as_map v);
  if bool_decide (nameSpace = "") then Ok {| jsonData := jsonMap |}
  else match jsonMap !! nameSpace with
       | None => Err (UnexpectedNamespace nameSpace)
       | Some r => m ← of_option (InvalidNamespace nameSpace) (as_map r); Ok {| jsonData := m |}
       end.

(** [FixPath] overwrites the second element of the caller's slice. *)
Definition FixPath (path : list string) : list string :=
  match path with
  | p0 :: p1 :: ps => p0 :: ReplaceAll p1 "~1" "/" :: ps
  | _ => path
  end.

(** A string between double quotes, without any escaping. *)
Definition dquote : string := String (Ascii.ascii_of_nat 34) EmptyString.
Definition quote (s : string) : string := dquote +:+ s +:+ dquote.

Definition Get (c : JsonClient) (path : list string) : res jc_error string :=
  match FixPath path with
  | [] => emitJSON (jsonData c)
  | [t] => vtable ← DecodeJsonTable (jsonData c) t; emitJSON vtable
  | [t; k] =>
      vtable ← DecodeJsonTable (jsonData c) t;
      ventry ← DecodeJsonEntry vtable k; emitJSON ventry
  | [t; k; f] =>
      vtable ← DecodeJsonTable (jsonData c) t;
      ventry ← DecodeJsonEntry vtable k;
      v ← DecodeJsonField ventry f;
      match v with
      | inl vstr => Ok (quote vstr)
      | inr vlist => of_option MarshalError (Marshal (JArr vlist))
      end
  | [t; k; f; i] =>
      vtable ← DecodeJsonTable (jsonData c) t;
      ventry ← DecodeJsonEntry vtable k;
      v ← DecodeJsonField ventry f;
      vstr ← DecodeJsonListItem (match v with inl _ => [] | inr vlist => vlist end) i;
      Ok (quote vstr)
  | p => Err (InvalidPath p)
  end.

(** A write through the pointer to an inner map. *)
Definition put_table (data : gmap string json) (t : string) (vtable : gmap string json)
  : gmap string json := <[t := JObj vtable]> data.
Definition put_entry (data : gmap string json) (t k : string) (vtable ventry : gmap string json)
  : gmap string json := put_table data t (<[k := JObj ventry]> vtable).

(** The table, or a new one that is put in the database at once. *)
Definition table_or_new (data : gmap string json) (t : string)
  : gmap string json * gmap string json :=
  match DecodeJsonTable data t with
  | Ok vtable => (data, vtable)
  | Err _ => (put_table data t ∅, ∅)
  end.

Definition entry_or_new (data vtable : gmap string json) (t k : string)
  : gmap string json * gmap string json * gmap string json :=
  match DecodeJsonEntry vtable k with
  | Ok ventry => (data, vtable, ventry)
  | Err _ => (put_entry data t k vtable ∅, <[k := JObj ∅]> vtable, ∅)
  end.

(** The insertion of a place holder at [id], before the value is parsed. *)
Definition make_room (vlist : list json) (id : nat) : list json :=
  if bool_decide (id = length vlist) then vlist ++ [JStr ""]
  else take (S id) vlist ++ drop id vlist.

(** [Add]: the data after the call and its error; the code changes the data
    step by step, so an error can leave some of the changes behind. *)
Definition Add (c : JsonClient) (path : list string) (value : string)
  : JsonClient * option jc_error :=
  let data := jsonData c in
  let done_ (d : gmap string json) := ({| jsonData := d |}, None) in
  let fail (d : gmap string json) (e : jc_error) := ({| jsonData := d |}, Some e) in
  match FixPath path with
  | [t] =>
      match parseJson value with
      | Err e => fail data e
      | Ok vtable =>
          match as_map vtable with
          | None => fail data (InvalidTable vtable)
          | Some v => done_ (<[t := JObj v]> data)
          end
      end
  | [t; k] =>
      let '(data, vtable) := table_or_new data t in
      match parseJson value with
      | Err e => fail data e
      | Ok ventry =>
          match as_map ventry with
          | None => fail data (InvalidEntry ventry)
          | Some v => done_ (put_entry data t k vtable v)
          end
      end
  | [t; k; f] =>
      let '(data, vtable) := table_or_new data t in
      let '(data, vtable, ventry) := entry_or_new data vtable t k in
      match parseJson value with
      | Err e => fail data e
      | Ok (JStr vstr) => done_ (put_entry data t k vtable (<[f := JStr vstr]> ventry))
      | Ok (JArr vlist) => done_ (put_entry data t k vtable (<[f := JArr vlist]> ventry))
      | Ok vfield => fail data (InvalidField vfield)
      end
  | [t; k; f; i] =>
      match Atoi i with
      | None => fail data (InvalidIndex i)
      | Some id =>
          let '(data, vtable) := table_or_new data t in
          let '(data, vtable, ventry) := entry_or_new data vtable t k in
          let insert (data ventry : gmap string json) (vlist : list json) :=
            if bool_decide (id < 0)%Z || bool_decide (id > Z.of_nat (length vlist))%Z
            then fail data (InvalidIndex i)
            else
              let vlist := make_room vlist (Z.to_nat id) in
              let put (l : list json) := put_entry data t k vtable (<[f := JArr l]> ventry) in
              match parseJson value with
              | Err e => fail (put vlist) e
              | Ok v => done_ (put (<[Z.to_nat id := v]> vlist))
              end in
          match DecodeJsonField ventry f with
          | Ok (inl _) => fail data InvalidTargetField
          | Ok (inr vlist) => insert data ventry vlist
          | Err _ =>
              let ventry := <[f := JArr []]> ventry in
              insert (put_entry data t k vtable ventry) ventry []
          end
      end
  | p => fail data (InvalidPath p)
  end.

(** The clean-up at the end of [Remove]: an emptied entry is dropped from its
    table, an emptied table from the database. *)
Definition prune_table (data : gmap string json) (t : string) (vtable : gmap string json)
  : gmap string json :=
  if bool_decide (vtable = ∅) then delete t data else put_table data t vtable.

Definition prune_entry (data : gmap string json) (t k : string) (vtable ventry : gmap string json)
  : gmap string json :=
  prune_table data t (if bool_decide (ventry = ∅) then delete k vtable else <[k := JObj ventry]> vtable).

Definition Remove (c : JsonClient) (path : list string) : JsonClient * option jc_error :=
  let data := jsonData c in
  let ret (r : res jc_error (gmap string json)) : JsonClient * option jc_error :=
    match r with Ok d => ({| jsonData := d |}, None) | Err e => (c, Some e) end in
  match FixPath path with
  | [t] => ret (vtable ← DecodeJsonTable data t; Ok (delete t data))
  | [t; k] =>
      ret (vtable ← DecodeJsonTable data t;
           ventry ← DecodeJsonEntry vtable k;
           Ok (prune_table data t (delete k vtable)))
  | [t; k; f] =>
      ret (vtable ← DecodeJsonTable data t;
           ventry ← DecodeJsonEntry vtable k;
           v ← DecodeJsonField ventry f;
           Ok (prune_entry data t k vtable (delete f ventry)))
  | [t; k; f; i] =>
      ret (id ← of_option (InvalidIndex i) (Atoi i);
           vtable ← DecodeJsonTable data t;
           ventry ← DecodeJsonEntry vtable k;
           v ← DecodeJsonField ventry f;
           let vlist := match v with inl _ => [] | inr l => l end in
           item ← DecodeJsonListItem vlist i;
           let vlist := take (Z.to_nat id) vlist ++ drop (S (Z.to_nat id)) vlist in
           Ok (prune_entry data t k vtable
                 (if bool_decide (vlist = []) then delete f ventry
                  else <[f := JArr vlist]> ventry)))
  | p => ret (Err (InvalidPath p))
  end.

(** [Replace]: [Remove] has already overwritten the caller's slice. *)
Definition Replace (c : JsonClient) (path : list string) (value : string)
  : JsonClient * option jc_error :=
  match Remove c path with
  | (c', Some e) => (c', Some e)
  | (c', None) => Add c' (FixPath path) value
  end.
End client.
