(* ===== verification/JsonClientFacts.v ===== *)
(** * Properties of the checkpoint store (JsonClient.v)

    Reads after writes, what a write leaves alone, removal as the inverse of a
    fresh addition, and that removal never leaves an empty container behind. *)
From Stdlib Require Import Ascii.
From stdpp Require Import base gmap list strings.
From S2P Require Import Prelude GoStrings Json JsonClient.

(** ** Unescaping a path element *)

Notation unslash s := (ReplaceAll s "~1" "/").

Lemma unslash_cons c s :
  unslash (String c s) =
  match c, s with
  | "~"%char, String "1"%char s' => String "/"%char (unslash s')
  | _, _ => String c (unslash s)
  end.
Proof.
  unfold ReplaceAll. cbn [replace_go HasPrefix String.length Nat.sub].
  destruct (decide (c = "~"%char)) as [->|Hc].
  - destruct s as [|d s]; [done|].
    destruct (decide (d = "1"%char)) as [->|Hd]; [reflexivity|].
    assert (bool_decide ("1"%char = d) = false) as Hb by (by apply bool_decide_eq_false).
    simpl. rewrite Hb. simpl. by destruct d as [[] [] [] [] [] [] [] []].
  - rewrite (bool_decide_false ("~"%char = c)) by done. simpl.
    by destruct c as [[] [] [] [] [] [] [] []].
Qed.

(** An escaped slash is decoded once: what decoding leaves has none. *)
Lemma unslash_idem s : unslash (unslash s) = unslash s.
Proof.
  remember (String.length s) as n eqn:Hn. revert s Hn.
  induction n as [n IH] using lt_wf_ind. intros [|c s] ->; [done|].
  assert (unslash (unslash s) = unslash s) as Hs by (eapply IH; [|done]; simpl; lia).
  destruct (decide (c = "~"%char)) as [->|Hc].
  - destruct s as [|d s]; [done|].
    destruct (decide (d = "1"%char)) as [->|Hd].
    + rewrite unslash_cons. rewrite (unslash_cons "/"%char). f_equal.
      eapply IH; [|done]. simpl; lia.
    + assert (unslash (String "~" (String d s)) = String "~"%char (unslash (String d s))) as ->.
      { rewrite unslash_cons. destruct d as [[] [] [] [] [] [] [] []]; done. }
      rewrite unslash_cons, Hs. rewrite (unslash_cons d s).
      destruct d as [[] [] [] [] [] [] [] []]; try done; by destruct s as [|[[] [] [] [] [] [] [] []] s].
  - assert (∀ s', unslash (String c s') = String c (unslash s')) as Hcons.
    { intros s'. rewrite unslash_cons. destruct c as [[] [] [] [] [] [] [] []]; done. }
    by rewrite Hcons, Hcons, Hs.
Qed.

Lemma FixPath_idem path : FixPath (FixPath path) = FixPath path.
Proof. destruct path as [|p0 [|p1 ps]]; simpl; [done..|]. by rewrite unslash_idem. Qed.

Lemma length_FixPath path : length (FixPath path) = length path.
Proof. by destruct path as [|p0 [|p1 ps]]. Qed.

(** ** Reading nested maps *)

Lemma DecodeTable_insert_eq d t m : DecodeJsonTable (<[t := JObj m]> d) t = Ok m.
Proof. unfold DecodeJsonTable. by rewrite lookup_insert_eq. Qed.

Lemma DecodeEntry_insert_eq d t m : DecodeJsonEntry (<[t := JObj m]> d) t = Ok m.
Proof. unfold DecodeJsonEntry. by rewrite lookup_insert_eq. Qed.

Lemma DecodeTable_Ok d t m : DecodeJsonTable d t = Ok m ↔ d !! t = Some (JObj m).
Proof. unfold DecodeJsonTable. destruct (d !! t) as [[]|]; simpl; naive_solver. Qed.

Lemma DecodeEntry_Ok d t m : DecodeJsonEntry d t = Ok m ↔ d !! t = Some (JObj m).
Proof. unfold DecodeJsonEntry. destruct (d !! t) as [[]|]; simpl; naive_solver. Qed.

#[export] Hint Rewrite DecodeTable_insert_eq DecodeEntry_insert_eq : gostr.

Section facts.
Context `{JsonCodec}.

(** What [Get] answers for a value stored at a path of the given length. *)
Definition rendered (depth : nat) (v : json) : res jc_error string :=
  match depth, v with
  | 3, JStr s => Ok (quote s)
  | 4, JStr s => Ok (quote s)
  | 4, _ => Err (InvalidItem v)
  | _, _ => of_option MarshalError (Marshal v)
  end.

Lemma make_room_length l id : id ≤ length l → length (make_room l id) = S (length l).
Proof.
  intros Hid. unfold make_room. case_bool_decide; rewrite length_app; simpl; [lia|].
  rewrite length_take, length_drop. lia.
Qed.

Lemma item_of_insert l id i v :
  Atoi i = Some id → (0 ≤ id)%Z → (id ≤ Z.of_nat (length l))%Z →
  DecodeJsonListItem (<[Z.to_nat id := v]> (make_room l (Z.to_nat id))) i
  = of_option (InvalidItem v) (as_string v).
Proof.
  intros Hi H0 Hl. unfold DecodeJsonListItem. rewrite Hi, length_insert, make_room_length by lia.
  rewrite !bool_decide_false by lia. simpl.
  rewrite list_lookup_insert_eq; [done|]. rewrite make_room_length; lia.
Qed.

Lemma add_get c path value c' :
  Add c path value = (c', None) →
  ∃ v, Unmarshal value = Some v ∧ Get c' path = rendered (length path) v.
Proof.
  rewrite <- length_FixPath. unfold Add, Get, parseJson.
  destruct (Unmarshal value) as [v|] eqn:Hv; simpl;
    destruct (FixPath path) as [|t [|k [|f [|i [|? ?]]]]]; try done; simpl.
  - destruct v; try done. intros [= <-]. eexists; split; [done|]. simpl. by rewrite DecodeTable_insert_eq.
  - destruct (table_or_new _ t). destruct v; try done. intros [= <-]. eexists; split; [done|].
    simpl. unfold put_entry, put_table. rewrite DecodeTable_insert_eq. simpl.
    by rewrite DecodeEntry_insert_eq.
  - destruct (table_or_new _ t), (entry_or_new _ _ t k) as [[]].
    destruct v; try done; intros [= <-]; (eexists; split; [done|]); simpl;
      unfold put_entry, put_table; rewrite DecodeTable_insert_eq; simpl;
      rewrite DecodeEntry_insert_eq; simpl; unfold DecodeJsonField; by rewrite lookup_insert_eq.
  - destruct (Atoi i) as [id|] eqn:Hi; [|done].
    destruct (table_or_new _ t) as [d1 vt1], (entry_or_new _ _ t k) as [[d2 vt2] ve].
    assert (∀ data ventry vlist,
      (if bool_decide (id < 0)%Z || bool_decide (id > Z.of_nat (length vlist))%Z
       then ({| jsonData := data |}, Some (InvalidIndex i))
       else ({| jsonData := put_entry data t k vt2
                  (<[f := JArr (<[Z.to_nat id := v]> (make_room vlist (Z.to_nat id)))]> ventry) |}, None))
      = (c', None) →
      ∃ v', Some v = Some v' ∧
        (vtable ← DecodeJsonTable (jsonData c') t; ventry ← DecodeJsonEntry vtable k;
         v0 ← DecodeJsonField ventry f;
         vstr ← DecodeJsonListItem (match v0 with inl _ => [] | inr vlist => vlist end) i;
         Ok (quote vstr)) = rendered 4 v') as Hins.
    { intros data ventry vlist. destruct (_ || _) eqn:Hb; [done|].
      apply orb_false_iff in Hb as [?%bool_decide_eq_false ?%bool_decide_eq_false].
      intros [= <-]. exists v. split; [done|]. simpl. unfold put_entry, put_table.
      rewrite DecodeTable_insert_eq. simpl. rewrite DecodeEntry_insert_eq. simpl.
      unfold DecodeJsonField. rewrite lookup_insert_eq. simpl.
      rewrite item_of_insert by (done || lia). by destruct v. }
    destruct (DecodeJsonField ve f) as [[?|?]|]; [done|apply Hins|].
    exact (Hins (put_entry d2 t k vt2 (<[f:=JArr []]> ve)) (<[f:=JArr []]> ve) []).
  - by destruct (table_or_new _ t).
  - by destruct (table_or_new _ t), (entry_or_new _ _ t k) as [[]].
  - destruct (Atoi i); [|done]. destruct (table_or_new _ t), (entry_or_new _ _ t k) as [[d2 vt2] ve].
    destruct (DecodeJsonField ve f) as [[?|?]|]; simpl; [done|by destruct (_ || _)..].
Qed.

(** Read after write: when [Add] or [Replace] succeeds on a path (table,
    key, field, list index), the value decoded, and [Get] on the same path then
    returns that value: its encoding, or the quoted string for a field or list
    item that is a string. *)
Theorem write_then_get c path value c' :
  (Add c path value = (c', None) ∨ Replace c path value = (c', None)) →
  ∃ v, Unmarshal value = Some v ∧ Get c' path = rendered (length path) v.
Proof.
  intros [Ha|Hr]; [by eapply add_get|].
  unfold Replace in Hr. destruct (Remove c path) as [c1 [e|]]; [done|].
  apply add_get in Hr as (v & Hv & Hg). exists v. split; [done|].
  rewrite length_FixPath in Hg. rewrite <- Hg. unfold Get. by rewrite FixPath_idem.
Qed.

(** ** What a write leaves alone *)

(** The value of an entry, when its table is a map. *)
Definition entry_at (d : gmap string json) (t k : string) : option json :=
  match d !! t with Some (JObj m) => m !! k | _ => None end.

Lemma entry_at_put_table d t m t' k' :
  entry_at (put_table d t m) t' k' = if decide (t = t') then m !! k' else entry_at d t' k'.
Proof.
  unfold entry_at, put_table. case_decide as Ht.
  - subst t'. by rewrite lookup_insert_eq.
  - by rewrite lookup_insert_ne.
Qed.

Lemma entry_at_put_entry d t k m e t' k' :
  (t, k) ≠ (t', k') → (∀ k, entry_at d t k = m !! k) →
  entry_at (put_entry d t k m e) t' k' = entry_at d t' k'.
Proof.
  intros Hne Hm. unfold put_entry. rewrite entry_at_put_table. case_decide; subst; [|done].
  rewrite lookup_insert_ne by naive_solver. by rewrite Hm.
Qed.

Lemma table_or_new_frame d t d' m :
  table_or_new d t = (d', m) →
  (∀ k, entry_at d' t k = m !! k) ∧ (∀ t' k', entry_at d' t' k' = entry_at d t' k').
Proof.
  unfold table_or_new. destruct (DecodeJsonTable d t) as [m'|] eqn:Hd; intros [= <- <-].
  - apply DecodeTable_Ok in Hd. split; [|done]. intros k. unfold entry_at. by rewrite Hd.
  - assert (∀ k, entry_at d t k = None) as Hn.
    { intros k. revert Hd. unfold DecodeJsonTable, entry_at. by destruct (d !! t) as [[]|]. }
    split; intros; rewrite entry_at_put_table; case_decide; subst; rewrite ?lookup_empty, ?Hn; done.
Qed.

Lemma entry_or_new_frame d m t k d' m' e' :
  (∀ k, entry_at d t k = m !! k) → entry_or_new d m t k = (d', m', e') →
  (∀ k, entry_at d' t k = m' !! k) ∧
  (∀ t' k', (t, k) ≠ (t', k') → entry_at d' t' k' = entry_at d t' k').
Proof.
  intros Hm. unfold entry_or_new. destruct (DecodeJsonEntry m k) as [e|]; intros [= <- <- <-]; [done|].
  split; [|intros; by rewrite entry_at_put_entry].
  intros k'. unfold put_entry. by rewrite entry_at_put_table, decide_True.
Qed.

Lemma add_frame c path value t k rest t' k' :
  FixPath path = t :: k :: rest → (t, k) ≠ (t', k') →
  entry_at (jsonData (Add c path value).1) t' k' = entry_at (jsonData c) t' k'.
Proof.
  intros Hp Hne. unfold Add. rewrite Hp. unfold parseJson.
  destruct rest as [|f [|i [|? ?]]]; [..|done];
    try (destruct (Atoi i); [|done]);
    destruct (table_or_new (jsonData c) t) as [d1 m1] eqn:Ht;
    destruct (table_or_new_frame _ _ _ _ Ht) as [Hm1 Hd1];
    try (destruct (entry_or_new d1 m1 t k) as [[d2 m2] e2] eqn:Hk;
         destruct (entry_or_new_frame _ _ _ _ _ _ _ Hm1 Hk) as [Hm2 Hd2]).
  - destruct (Unmarshal value) as [[]|]; simpl; rewrite ?entry_at_put_entry by done; apply Hd1.
  - destruct (Unmarshal value) as [[]|]; simpl; rewrite ?entry_at_put_entry by done;
      rewrite Hd2 by done; apply Hd1.
  - assert (∀ e3, (∀ k0, entry_at (put_entry d2 t k m2 e3) t k0 = (<[k := JObj e3]> m2) !! k0)) as Hm3.
    { intros e3 k0. unfold put_entry. by rewrite entry_at_put_table, decide_True. }
    destruct (DecodeJsonField e2 f) as [[?|l]|]; simpl;
      [by rewrite Hd2, Hd1 by done|..];
      (destruct (_ || _); [|destruct (Unmarshal value)]); simpl;
      unfold put_entry; rewrite ?entry_at_put_table; repeat case_decide; subst;
      rewrite ?lookup_insert_ne by naive_solver; rewrite <- ?Hm2, ?Hd2, ?Hd1 by done; done.
Qed.

Lemma remove_frame c path t k rest t' k' :
  FixPath path = t :: k :: rest → (t, k) ≠ (t', k') →
  entry_at (jsonData (Remove c path).1) t' k' = entry_at (jsonData c) t' k'.
Proof.
  intros Hp Hne. unfold Remove. rewrite Hp.
  assert (∀ m m', jsonData c !! t = Some (JObj m) → (∀ k0, k0 ≠ k → m' !! k0 = m !! k0) →
    entry_at (prune_table (jsonData c) t m') t' k' = entry_at (jsonData c) t' k') as Hprune.
  { intros m m' Hm Heq. unfold prune_table. case_bool_decide as He.
    - subst m'. unfold entry_at. destruct (decide (t = t')) as [<-|].
      + rewrite lookup_delete_eq, Hm, <- Heq by naive_solver. done.
      + by rewrite lookup_delete_ne.
    - rewrite entry_at_put_table. case_decide; [subst t'|done].
      rewrite Heq by naive_solver. unfold entry_at. by rewrite Hm. }
  destruct rest as [|f [|i [|? ?]]]; [..|done];
    try (destruct (Atoi i); [simpl|done]);
    (destruct (DecodeJsonTable _ t) as [m|] eqn:Hm; [apply DecodeTable_Ok in Hm; simpl|done]);
    (destruct (DecodeJsonEntry m k) as [e|]; [simpl|done]);
    try (destruct (DecodeJsonField e f) as [v|]; [simpl|done]);
    try (destruct (DecodeJsonListItem _ i); [simpl|done]);
    (eapply Hprune; [done|]); intros; repeat case_bool_decide;
    rewrite ?lookup_delete_ne, ?lookup_insert_ne by done; done.
Qed.

(** Frame: a write to an entry (its whole value, one of its fields or an
    item of a list field), successful or failing part way, changes no other
    entry of any table. *)
Theorem write_frame c path value t k rest t' k' :
  FixPath path = t :: k :: rest → (t, k) ≠ (t', k') →
  entry_at (jsonData (Add c path value).1) t' k' = entry_at (jsonData c) t' k' ∧
  entry_at (jsonData (Remove c path).1) t' k' = entry_at (jsonData c) t' k' ∧
  entry_at (jsonData (Replace c path value).1) t' k' = entry_at (jsonData c) t' k'.
Proof.
  intros Hp Hne. pose proof (remove_frame c path t k rest t' k' Hp Hne) as Hr.
  split_and!; [by eapply add_frame|done|].
  unfold Replace. destruct (Remove c path) as [c1 [e|]]; simpl in *; [done|].
  rewrite <- Hr. eapply add_frame; [|done]. by rewrite FixPath_idem.
Qed.

(** ** Removal *)

(** A configuration as the store keeps it: tables and entries are maps, fields
    are strings or lists, and no table, entry or list is empty. *)
Definition tidy_field (v : json) : Prop :=
  match v with JStr _ => True | JArr l => l ≠ [] | _ => False end.
Definition tidy_entry (v : json) : Prop :=
  ∃ e, v = JObj e ∧ e ≠ ∅ ∧ map_Forall (λ _ x, tidy_field x) e.
Definition tidy_table (v : json) : Prop :=
  ∃ m, v = JObj m ∧ m ≠ ∅ ∧ map_Forall (λ _ x, tidy_entry x) m.
Definition tidy (d : gmap string json) : Prop := map_Forall (λ _ x, tidy_table x) d.

Lemma tidy_prune_table d t m :
  tidy d → map_Forall (λ _ x, tidy_entry x) m → tidy (prune_table d t m).
Proof.
  intros Hd Hm. unfold prune_table. case_bool_decide.
  - by apply map_Forall_delete.
  - apply map_Forall_insert_2; [|done]. by exists m.
Qed.

Lemma tidy_prune_entry d t k m e :
  tidy d → map_Forall (λ _ x, tidy_entry x) m → map_Forall (λ _ x, tidy_field x) e →
  tidy (prune_entry d t k m e).
Proof.
  intros Hd Hm He. apply tidy_prune_table; [done|]. case_bool_decide.
  - by apply map_Forall_delete.
  - apply map_Forall_insert_2; [|done]. by exists e.
Qed.

Lemma tidy_lookup d t m : tidy d → d !! t = Some (JObj m) → map_Forall (λ _ x, tidy_entry x) m.
Proof. intros Hd Ht. apply Hd in Ht as (m' & [= <-] & _ & Hm). done. Qed.

Lemma tidy_entry_lookup (m : gmap string json) k e :
  map_Forall (λ _ x, tidy_entry x) m → m !! k = Some (JObj e) →
  map_Forall (λ _ x, tidy_field x) e.
Proof. intros Hm Hk. apply Hm in Hk as (e' & [= <-] & _ & He). done. Qed.

(** C4. Removing anything from a configuration without empty containers
    leaves one without empty containers: the emptied list, entry and table go
    with their last element. *)
Theorem remove_tidy c path : tidy (jsonData c) → tidy (jsonData (Remove c path).1).
Proof.
  intros Hc. unfold Remove. destruct (FixPath path) as [|t [|k [|f [|i [|? ?]]]]]; try done;
    try (destruct (Atoi i); [simpl|done]);
    (destruct (DecodeJsonTable _ t) as [m|] eqn:Hm; [apply DecodeTable_Ok in Hm; simpl|done]);
    [by apply map_Forall_delete|..];
    pose proof (tidy_lookup _ _ _ Hc Hm) as Htm;
    (destruct (DecodeJsonEntry m k) as [e|] eqn:He; [apply DecodeEntry_Ok in He; simpl|done]);
    [apply tidy_prune_table; [done|]; by apply map_Forall_delete|..];
    pose proof (tidy_entry_lookup _ _ _ Htm He) as Hte;
    (destruct (DecodeJsonField e f) as [v|] eqn:Hf; [simpl|done]);
    [apply tidy_prune_entry; [done..|]; by apply map_Forall_delete|].
  destruct (DecodeJsonListItem _ i); [simpl|done].
  apply tidy_prune_entry; [done..|]. case_bool_decide.
  - by apply map_Forall_delete.
  - by apply map_Forall_insert_2.
Qed.

(** The part of the path that names an existing value: a table, an entry or a
    field.  A list index always names a position an item can be put at. *)
Definition absent (d : gmap string json) (path : list string) : Prop :=
  match path with
  | [t] => d !! t = None
  | [t; k] => entry_at d t k = None
  | [t; k; f] => match entry_at d t k with Some (JObj e) => e !! f = None | _ => True end
  | _ => True
  end.

Lemma prune_put d t m m' :
  tidy d → DecodeJsonTable d t = Ok m → prune_table (put_table d t m') t m = d.
Proof.
  intros Hd Hm%DecodeTable_Ok. unfold prune_table, put_table.
  rewrite bool_decide_false by (apply Hd in Hm as (? & [= <-] & ? & _); done).
  by rewrite insert_insert_eq, insert_id.
Qed.

Lemma prune_new d t e m' :
  tidy d → DecodeJsonTable d t = Err e → prune_table (put_table d t m') t ∅ = d.
Proof.
  intros Hd Hm. unfold prune_table, put_table. rewrite bool_decide_true by done.
  rewrite delete_insert_eq, delete_id; [done|].
  destruct (d !! t) as [v|] eqn:Ht; [|done]. destruct (Hd t v Ht) as (m & -> & _).
  unfold DecodeJsonTable in Hm. by rewrite Ht in Hm.
Qed.

Lemma table_or_new_restore d t d1 m1 :
  tidy d → table_or_new d t = (d1, m1) →
  d1 = put_table d t m1 ∧ (∀ m', prune_table (put_table d t m') t m1 = d) ∧
  map_Forall (λ _ x, tidy_entry x) m1 ∧ ∀ k, entry_at d t k = m1 !! k.
Proof.
  intros Hd. unfold table_or_new. destruct (DecodeJsonTable d t) as [m|e] eqn:Hm; intros [= <- <-].
  - split_and!; [|intros; by apply prune_put|..]; apply DecodeTable_Ok in Hm.
    + unfold put_table. by rewrite insert_id.
    + by eapply tidy_lookup.
    + intros k. unfold entry_at. by rewrite Hm.
  - split_and!; [done|intros; by eapply prune_new|apply map_Forall_empty|].
    intros k. rewrite lookup_empty. revert Hm. unfold DecodeJsonTable, entry_at.
    by destruct (d !! t) as [[]|].
Qed.

Lemma entry_or_new_restore d t k m1 d2 m2 e2 :
  map_Forall (λ _ x, tidy_entry x) m1 →
  entry_or_new (put_table d t m1) m1 t k = (d2, m2, e2) →
  d2 = put_table d t m2 ∧ m2 = <[k := JObj e2]> m1 ∧
  (∀ v, (if bool_decide (e2 = ∅) then delete k (<[k := v]> m1)
         else <[k := JObj e2]> (<[k := v]> m1)) = m1) ∧
  map_Forall (λ _ x, tidy_field x) e2 ∧
  (e2 = ∅ ∨ m1 !! k = Some (JObj e2)).
Proof.
  intros Hm. unfold entry_or_new. destruct (DecodeJsonEntry m1 k) as [e|er] eqn:He; intros [= <- <- <-].
  - apply DecodeEntry_Ok in He. destruct (Hm _ _ He) as (e' & [= <-] & Hne & Hf).
    split_and!; [done|by rewrite insert_id|..]; [intros v|done|by right].
    rewrite bool_decide_false by done. by rewrite insert_insert_eq, insert_id.
  - unfold put_entry, put_table. rewrite insert_insert_eq.
    split_and!; [done|done|..]; [intros v|apply map_Forall_empty|by left].
    rewrite bool_decide_true, delete_insert_eq, delete_id; [done| |done].
    destruct (m1 !! k) as [v'|] eqn:Hk; [|done]. destruct (Hm _ _ Hk) as (e' & -> & _).
    unfold DecodeJsonEntry in He. by rewrite Hk in He.
Qed.

(** The change of a field of an entry, and its reversal by [Remove]. *)
Lemma prune_put_entry d t k m1 e2 e' :
  (∀ m', prune_table (put_table d t m') t m1 = d) →
  (∀ v, (if bool_decide (e2 = ∅) then delete k (<[k := v]> m1)
         else <[k := JObj e2]> (<[k := v]> m1)) = m1) →
  prune_entry (<[t := JObj (<[k := JObj e']> m1)]> d) t k (<[k := JObj e']> m1) e2 = d.
Proof. intros Ht Hk. unfold prune_entry. rewrite Hk. apply Ht. Qed.

Lemma remove_make_room l id v :
  id ≤ length l →
  take id (<[id := v]> (make_room l id)) ++ drop (S id) (<[id := v]> (make_room l id)) = l.
Proof.
  intros Hid. rewrite take_insert_ge, drop_insert_lt by lia.
  unfold make_room. case_bool_decide as He.
  - subst id. rewrite take_app_length, drop_ge, app_nil_r; [done|]. rewrite length_app. simpl. lia.
  - rewrite take_app_le, take_take, drop_app_ge by (rewrite length_take; lia).
    rewrite length_take, !Nat.min_l by lia. rewrite Nat.sub_diag, drop_0. apply take_drop.
Qed.

Lemma prune_item (e : gmap string json) f l l' :
  map_Forall (λ _ x, tidy_field x) e →
  match DecodeJsonField e f with Ok v => v = inr l | Err _ => l = [] end →
  (if bool_decide (l = []) then delete f (<[f := l']> e)
   else <[f := JArr l]> (<[f := l']> e)) = e.
Proof.
  unfold DecodeJsonField. intros He Hl. destruct (e !! f) as [v|] eqn:Hf.
  - pose proof (He _ _ Hf) as Hv. destruct v; simplify_eq/=; try done.
    rewrite bool_decide_false by done. by rewrite insert_insert_eq, insert_id.
  - subst l. rewrite bool_decide_true by done. by rewrite delete_insert_id.
Qed.

Lemma remove_item path d t k f i m1 e2 l id s :
  FixPath path = [t; k; f; i] →
  Atoi i = Some id → (0 ≤ id)%Z → (id ≤ Z.of_nat (length l))%Z →
  (∀ m', prune_table (put_table d t m') t m1 = d) →
  (∀ v, (if bool_decide (e2 = ∅) then delete k (<[k := v]> m1)
         else <[k := JObj e2]> (<[k := v]> m1)) = m1) →
  map_Forall (λ _ x, tidy_field x) e2 →
  match DecodeJsonField e2 f with Ok v => v = inr l | Err _ => l = [] end →
  let l' := <[Z.to_nat id := JStr s]> (make_room l (Z.to_nat id)) in
  Remove {| jsonData := <[t := JObj (<[k := JObj (<[f := JArr l']> e2)]> m1)]> d |} path
  = ({| jsonData := d |}, None).
Proof.
  intros Hp Hi H0 Hle Hr Hr' He2 Hf l'. unfold Remove. rewrite Hp, Hi. cbn.
  rewrite DecodeTable_insert_eq. cbn. rewrite DecodeEntry_insert_eq. cbn.
  unfold DecodeJsonField. rewrite lookup_insert_eq. cbn.
  unfold l'. rewrite item_of_insert by done. cbn.
  rewrite remove_make_room, prune_item by (done || lia). by rewrite prune_put_entry.
Qed.

(** The step of [Add] that finds or makes the table and the entry. *)
Ltac open_table m1 Hr Hm1 Hat :=
  match goal with
  | Hc : tidy ?d |- context [table_or_new ?d ?t] =>
      let Ht := fresh in
      destruct (table_or_new d t) as [? m1] eqn:Ht;
      destruct (table_or_new_restore _ _ _ _ Hc Ht) as (-> & Hr & Hm1 & Hat)
  end.
Ltac open_entry m1 e2 Hr Hr' Hat Hcase :=
  let Hm1 := fresh in
  open_table m1 Hr Hm1 Hat;
  match goal with
  | |- context [entry_or_new ?d m1 ?t ?k] =>
      let Hk := fresh in
      destruct (entry_or_new d m1 t k) as [[? ?] e2] eqn:Hk;
      destruct (entry_or_new_restore _ _ _ _ _ _ _ Hm1 Hk) as (-> & -> & Hr' & ? & Hcase)
  end.

Lemma add_then_remove_item path t k f i c value c' s :
  FixPath path = [t; k; f; i] → tidy (jsonData c) → Unmarshal value = Some (JStr s) →
  Add c path value = (c', None) → Remove c' path = (c, None).
Proof.
  intros Hp Hc Hs. unfold Add, parseJson. rewrite Hp, Hs. destruct c as [d]. cbn in Hc |- *.
  destruct (Atoi i) as [id|] eqn:Hi; [|done]. open_entry m1 e2 Hr Hr' Hat Hcase. intros Hadd.
  assert (∃ l, match DecodeJsonField e2 f with Ok v => v = inr l | Err _ => l = [] end ∧
    (0 ≤ id ≤ Z.of_nat (length l))%Z ∧
    c' = {| jsonData := <[t := JObj (<[k := JObj (<[f :=
           JArr (<[Z.to_nat id := JStr s]> (make_room l (Z.to_nat id)))]> e2)]> m1)]> d |})
    as (l & Hl & Hid & ->).
  { destruct (DecodeJsonField e2 f) as [[?|l]|]; [done|exists l|exists []];
      (destruct (_ || _) eqn:Hb; [done|]);
      apply orb_false_iff in Hb as [?%bool_decide_eq_false ?%bool_decide_eq_false];
      (split_and!; [done|simpl in *; lia..|]);
      injection Hadd as <-; unfold put_entry, put_table; by rewrite !insert_insert_eq. }
  by eapply (remove_item path); try lia.
Qed.

(** [Remove] is the inverse of an [Add] of something new: on a
    configuration without empty containers, adding a table, entry or field
    that was absent, or an item (a string) at any position of a list, and then
    removing the same path gives back exactly the configuration before. *)
Theorem add_then_remove c path value c' :
  tidy (jsonData c) → absent (jsonData c) (FixPath path) →
  (length path = 4 → ∃ s, Unmarshal value = Some (JStr s)) →
  Add c path value = (c', None) → Remove c' path = (c, None).
Proof.
  rewrite <- length_FixPath. intros Hc Habs Hitem.
  destruct (FixPath path) as [|t [|k [|f [|i [|? ?]]]]] eqn:Hp; simpl in Habs;
    [|..|destruct (Hitem eq_refl) as [s Hs]; by eapply add_then_remove_item|];
    unfold Add, Remove, parseJson; rewrite Hp; try done; destruct c as [d]; cbn in Hc, Habs |- *.
  - destruct (Unmarshal value) as [[]|]; try done. intros [= <-]. cbn.
    rewrite DecodeTable_insert_eq. cbn. by rewrite delete_insert_id.
  - open_table m1 Hr Hm1 Hat. destruct (Unmarshal value) as [[| | | | |m]|]; try done. intros [= <-].
    cbn. unfold put_entry, put_table. rewrite insert_insert_eq, DecodeTable_insert_eq. cbn.
    rewrite DecodeEntry_insert_eq. cbn. rewrite delete_insert_id by (by rewrite <- Hat).
    fold (put_table d t (<[k:=JObj m]> m1)). by rewrite Hr.
  - open_entry m1 e2 Hr Hr' Hat Hcase. assert (e2 !! f = None) as Hf.
    { destruct Hcase as [->|Hcase]; [done|]. rewrite Hat, Hcase in Habs. done. }
    destruct (Unmarshal value) as [[]|]; try done; intros [= <-];
      cbn; unfold put_entry, put_table;
      rewrite !insert_insert_eq, DecodeTable_insert_eq; cbn;
      rewrite DecodeEntry_insert_eq; cbn; unfold DecodeJsonField; rewrite lookup_insert_eq; cbn;
      rewrite delete_insert_id by done; by rewrite prune_put_entry.
Qed.
End facts.

(** ** Instances at a concrete configuration *)
Module JsonClientExample.
(** A codec that knows quoted strings only. *)
Definition string_codec : JsonCodec :=
  {| Unmarshal s :=
       if HasPrefix s dquote && HasSuffix s dquote
       then Some (JStr (TrimSuffix (TrimPrefix s dquote) dquote)) else None;
     Marshal v := match v with JStr s => Some (quote s) | _ => None end |}.

Definition mtu : list string := ["PORT"; "Ethernet0~1a"; "mtu"].
Definition port0 : JsonClient :=
  {| jsonData := {[ "PORT" := JObj {[ "Ethernet4" := JObj {[ "mtu" := JStr "1500" ]} ]} ]} |}.
Definition port1 : JsonClient :=
  {| jsonData := {[ "PORT" := JObj {[ "Ethernet4" := JObj {[ "mtu" := JStr "1500" ]};
                                      "Ethernet0/a" := JObj {[ "mtu" := JStr "9100" ]} ]} ]} |}.

Lemma write_then_get_witness :
  ∃ v, @Unmarshal string_codec (quote "9100") = Some v ∧
       @Get string_codec port1 mtu = @rendered string_codec (length mtu) v.
Proof.
  apply (@write_then_get string_codec port0 mtu (quote "9100") port1). left.
  vm_compute. reflexivity.
Defined.

Lemma write_frame_witness :
  entry_at (jsonData (@Add string_codec port0 mtu (quote "9100")).1) "PORT" "Ethernet4"
  = entry_at (jsonData port0) "PORT" "Ethernet4".
Proof.
  apply (@write_frame string_codec port0 mtu (quote "9100") "PORT" "Ethernet0/a" ["mtu"]
           "PORT" "Ethernet4"); [vm_compute; reflexivity|done].
Defined.

Lemma tidy_port0 : tidy (jsonData port0).
Proof.
  apply map_Forall_singleton. eexists; split; [done|]. split; [done|].
  apply map_Forall_singleton. eexists; split; [done|]. split; [done|].
  by apply map_Forall_singleton.
Qed.

Lemma remove_tidy_witness : tidy (jsonData (Remove port0 ["PORT"; "Ethernet4"; "mtu"]).1).
Proof. apply (remove_tidy port0 ["PORT"; "Ethernet4"; "mtu"]). apply tidy_port0. Defined.

Lemma add_then_remove_witness : Remove port1 mtu = (port0, None).
Proof.
  apply (@add_then_remove string_codec port0 mtu (quote "9100") port1).
  - apply tidy_port0.
  - vm_compute. exact I.
  - intros Hl. discriminate Hl.
  - vm_compute. reflexivity.
Defined.
End JsonClientExample.
