(* ===== verification/Redis.v ===== *)
(** * The interface to Redis

    The servers and data clients keep their tables in hashes of a Redis
    server, through the go-redis client; neither is part of the sources.  What
    the code relies on is the documented behaviour of HGET, HSET, DEL and
    HGETALL on hashes, stated here as the laws of a class: a client's theorems
    hold for every server that has them.  A key that holds something other
    than a hash, and a server that cannot be reached, make a command fail;
    failures are modelled where the commands are called. *)
From stdpp Require Import base gmap list strings.
From S2P Require Import Prelude.

(** The last value a list of pairs gives a field. *)
Fixpoint assoc_last (f : string) (l : list (string * string)) : option string :=
  match l with
  | [] => None
  | (f', v) :: l =>
      match assoc_last f l with
      | Some v' => Some v'
      | None => if bool_decide (f = f') then Some v else None
      end
  end.

Class Redis := {
  redis : Type;
  hget : redis → string → string → option string;
  hset : redis → string → list (string * string) → redis;
  del : redis → string → redis;
  hget_hset : ∀ d k l k' f,
    hget (hset d k l) k' f =
    (if decide (k' = k) then match assoc_last f l with Some v => Some v | None => hget d k' f end
     else hget d k' f);
  hget_del : ∀ d k k' f, hget (del d k) k' f = (if decide (k' = k) then None else hget d k' f)
}.

Section laws.
Context `{Redis}.

Lemma hget_hset_eq d k f v : hget (hset d k [(f, v)]) k f = Some v.
Proof. rewrite hget_hset, decide_True by done. simpl. by rewrite bool_decide_true. Qed.

Lemma hget_hset_field_ne d k f v f' : f' ≠ f → hget (hset d k [(f, v)]) k f' = hget d k f'.
Proof. intros Hf. rewrite hget_hset, decide_True by done. simpl. by rewrite bool_decide_false. Qed.

Lemma hget_hset_key_ne d k l k' f : k' ≠ k → hget (hset d k l) k' f = hget d k' f.
Proof. intros Hk. by rewrite hget_hset, decide_False. Qed.

Lemma hget_del_eq d k f : hget (del d k) k f = None.
Proof. by rewrite hget_del, decide_True. Qed.

Lemma hget_del_ne d k k' f : k' ≠ k → hget (del d k) k' f = hget d k' f.
Proof. intros Hk. by rewrite hget_del, decide_False. Qed.
End laws.

(** ** A server that has the laws *)

Definition map_hset (d : gmap string (gmap string string)) (k : string) (l : list (string * string))
  : gmap string (gmap string string) :=
  <[k := foldl (λ h '(f, v), <[f := v]> h) (default ∅ (d !! k)) l]> d.

Definition map_hget (d : gmap string (gmap string string)) (k f : string) : option string :=
  d !! k ≫= λ h, h !! f.

Lemma foldl_insert_lookup (h : gmap string string) (l : list (string * string)) f :
  foldl (λ h '(f, v), <[f := v]> h) h l !! f =
  match assoc_last f l with Some v => Some v | None => h !! f end.
Proof.
  revert h. induction l as [|[f' v] l IH]; intros h; [done|]. simpl. rewrite IH.
  destruct (assoc_last f l); [done|]. case_bool_decide as Hf.
  - subst. by rewrite lookup_insert_eq.
  - by rewrite lookup_insert_ne.
Qed.

Lemma map_hget_hset d k l k' f :
  map_hget (map_hset d k l) k' f =
  (if decide (k' = k) then match assoc_last f l with Some v => Some v | None => map_hget d k' f end
   else map_hget d k' f).
Proof.
  unfold map_hget, map_hset. case_decide as Hk.
  - subst. rewrite lookup_insert_eq. simpl. rewrite foldl_insert_lookup. by destruct (d !! k).
  - by rewrite lookup_insert_ne.
Qed.

Lemma map_hget_del (d : gmap string (gmap string string)) k k' f :
  map_hget (delete k d) k' f = (if decide (k' = k) then None else map_hget d k' f).
Proof.
  unfold map_hget. case_decide as Hk.
  - subst. by rewrite lookup_delete_eq.
  - by rewrite lookup_delete_ne.
Qed.

(** The instance the concrete examples run on. *)
Definition map_redis : Redis := {|
  redis := gmap string (gmap string string);
  hget := map_hget;
  hset := map_hset;
  del := λ d k, delete k d;
  hget_hset := map_hget_hset;
  hget_del := map_hget_del
|}.
