(* ===== verification/World.v ===== *)
(** * The world outside the process: files and the state database

    The servers of gNSI keep their policies in files and publish what is
    active in hashes of STATE_DB.  [World] holds both.  Every call to the
    operating system or to Redis can fail: the world carries a list of
    [fault]s, one consumed per call, so a theorem for all worlds is a theorem
    for all ways the calls can fail.  A call on an empty list succeeds.

    A path is a string that is looked up as it is; directories are not kept,
    and a missing or unwritable one shows as a fault of the call.  A symbolic
    link at the path of a call is followed the way the kernel does, at most
    forty times; a link in the place of a directory cannot be expressed, so
    nothing here says where a path leads when its directories are links. *)
From Stdlib Require Import Ascii.
From stdpp Require Import base gmap list strings.
From S2P Require Import Prelude GoStrings Redis.

Inductive inode :=
| Reg (data : string)
| Lnk (target : string).

(** A call succeeds, fails before any effect, or (a write) fails half way. *)
Inductive fault := NoFault | Fault | Partial (data : string).

Inductive os_error := NotExist | Exist | NotRegular | Loop | OsFault | RedisFault.

Global Instance os_error_eq_dec : EqDecision os_error.
Proof. solve_decision. Defined.

(** ** Programs over a state *)
Definition ST (S A : Type) : Type := S → S * A.
Global Instance ST_ret S : MRet (ST S) := λ A a s, (s, a).
Global Instance ST_bind S : MBind (ST S) := λ A B f m s, let '(s', a) := m s in f a s'.

Definition gets {S A} (f : S → A) : ST S A := λ s, (s, f s).
Definition modify {S} (f : S → S) : ST S () := λ s, (f s, ()).

(** [if err := m; err != nil { return h(err) }; k] *)
Definition try_ {S E A} (m : ST S (option E)) (h : E → ST S A) (k : ST S A) : ST S A :=
  e ← m; match e with Some e => h e | None => k end.

(** Links on the way to a file. *)
Fixpoint resolve (fuel : nat) (m : gmap string inode) (p : string) : res os_error string :=
  match m !! p with
  | Some (Lnk t) => match fuel with 0 => Err Loop | S fuel => resolve fuel m t end
  | _ => Ok p
  end.

Arguments resolve : simpl never.

Section world.
Context {Rd : Redis}.

Record World := {
  fs : gmap string inode;
  db : redis;
  faults : list fault
}.

Notation IO := (ST World).

Definition set_fs (f : gmap string inode → gmap string inode) (w : World) : World :=
  {| fs := f (fs w); db := db w; faults := faults w |}.
Definition set_db (f : redis → redis) (w : World) : World :=
  {| fs := fs w; db := f (db w); faults := faults w |}.

(** The next fault. *)
Definition next_fault : IO fault := λ w,
  match faults w with
  | [] => (w, NoFault)
  | f :: l => ({| fs := fs w; db := db w; faults := l |}, f)
  end.

(** ** The file system *)

(** [os.Lstat]: the node itself. *)
Definition Lstat (p : string) : IO (res os_error inode) :=
  f ← next_fault;
  match f with
  | NoFault => m ← gets fs; mret (of_option NotExist (m !! p))
  | _ => mret (Err OsFault)
  end.

(** [os.Stat]: the node a link leads to. *)
Definition Stat (p : string) : IO (res os_error inode) :=
  f ← next_fault;
  match f with
  | NoFault => m ← gets fs; mret (q ← resolve 40 m p; of_option NotExist (m !! q))
  | _ => mret (Err OsFault)
  end.

Definition is_regular (n : inode) : bool := match n with Reg _ => true | Lnk _ => false end.

(** [os.ReadFile] *)
Definition ReadFile (p : string) : IO (res os_error string) :=
  f ← next_fault;
  match f with
  | NoFault =>
      m ← gets fs;
      mret (q ← resolve 40 m p;
            match m !! q with
            | Some (Reg d) => Ok d
            | Some (Lnk _) => Err Loop
            | None => Err NotExist
            end)
  | _ => mret (Err OsFault)
  end.

(** [os.WriteFile]: created or truncated, through a link. *)
Definition WriteFile (p data : string) : IO (option os_error) :=
  f ← next_fault;
  m ← gets fs;
  match resolve 40 m p, f with
  | Err e, _ => mret (Some e)
  | Ok q, NoFault => _ ← modify (set_fs <[q := Reg data]>); mret None
  | Ok q, Fault => mret (Some OsFault)
  | Ok q, Partial d => _ ← modify (set_fs <[q := Reg d]>); mret (Some OsFault)
  end.

(** [os.Remove]: the link and not what it points to. *)
Definition os_Remove (p : string) : IO (option os_error) :=
  f ← next_fault;
  m ← gets fs;
  match m !! p, f with
  | None, _ => mret (Some NotExist)
  | Some _, NoFault => _ ← modify (set_fs (delete p)); mret None
  | Some _, _ => mret (Some OsFault)
  end.

(** [os.Rename]: replaces what is at the new name. *)
Definition Rename (p q : string) : IO (option os_error) :=
  f ← next_fault;
  m ← gets fs;
  match m !! p, f with
  | None, _ => mret (Some NotExist)
  | Some n, NoFault => _ ← modify (set_fs (λ m, <[q := n]> (delete p m))); mret None
  | Some _, _ => mret (Some OsFault)
  end.

(** [os.Symlink] *)
Definition Symlink (target link : string) : IO (option os_error) :=
  f ← next_fault;
  m ← gets fs;
  match m !! link, f with
  | Some _, _ => mret (Some Exist)
  | None, NoFault => _ ← modify (set_fs <[link := Lnk target]>); mret None
  | None, _ => mret (Some OsFault)
  end.

(** [os.Readlink] *)
Definition Readlink (p : string) : IO (res os_error string) :=
  f ← next_fault;
  m ← gets fs;
  mret (match m !! p, f with
        | Some (Lnk t), NoFault => Ok t
        | Some (Reg _), NoFault => Err NotRegular
        | None, NoFault => Err NotExist
        | _, _ => Err OsFault
        end).

(** [os.ReadDir]: the names below a directory, sorted.  A directory without
    files and one that is not there give the same empty list; the callers only
    log the error. *)
Definition in_dir (dir p : string) : option string :=
  if HasPrefix p (dir +:+ "/")
  then let name := str_drop (S (String.length dir)) p in
       if Contains name "/" then None else Some name
  else None.

Definition ReadDir (dir : string) : IO (list string) :=
  f ← next_fault;
  m ← gets fs;
  mret (match f with
        | NoFault => sort_Strings (omap (in_dir dir) (map_to_list m).*1)
        | _ => []
        end).

(** [os.Chmod]: the mode is not kept. *)
Definition Chmod (p : string) : IO (option os_error) :=
  f ← next_fault;
  mret (match f with NoFault => None | _ => Some OsFault end).

(** [os.CreateTemp]: a file whose name extends the pattern and is not in use;
    longer than every name in use will do. *)
Fixpoint zeros (n : nat) : string :=
  match n with 0 => "" | S n => String "0" (zeros n) end.
Definition longest (m : gmap string inode) : nat :=
  max_list (String.length <$> (map_to_list m).*1).
Definition temp_name (pattern : string) (m : gmap string inode) : string :=
  pattern +:+ zeros (S (longest m)).

Definition CreateTemp (pattern : string) : IO (res os_error string) :=
  f ← next_fault;
  match f with
  | NoFault =>
      m ← gets fs;
      let name := temp_name pattern m in
      _ ← modify (set_fs <[name := Reg ""]>); mret (Ok name)
  | _ => mret (Err OsFault)
  end.

(** Writing to and closing an open temporary file. *)
Definition FileWrite (name data : string) : IO (option os_error) :=
  f ← next_fault;
  match f with
  | NoFault => _ ← modify (set_fs <[name := Reg data]>); mret None
  | Partial d => _ ← modify (set_fs <[name := Reg d]>); mret (Some OsFault)
  | Fault => mret (Some OsFault)
  end.

Definition FileClose : IO (option os_error) :=
  f ← next_fault;
  mret (match f with NoFault => None | _ => Some OsFault end).

(** ** The state database *)

(** [redis.Client.HSet] *)
Definition HSet (key field value : string) : IO (option os_error) :=
  f ← next_fault;
  match f with
  | NoFault =>
      _ ← modify (set_db (λ d, hset d key [(field, value)]));
      mret None
  | _ => mret (Some RedisFault)
  end.

(** [HSet] with several fields, [Del] and [HGet]; a field that is not there is
    the client's error [redis.Nil]. *)
Definition HSetFields (key : string) (fields : list (string * string)) : IO (option os_error) :=
  f ← next_fault;
  match f with
  | NoFault => _ ← modify (set_db (λ d, hset d key fields)); mret None
  | _ => mret (Some RedisFault)
  end.

Definition Del (key : string) : IO (option os_error) :=
  f ← next_fault;
  match f with
  | NoFault => _ ← modify (set_db (λ d, del d key)); mret None
  | _ => mret (Some RedisFault)
  end.

Definition HGet (key field : string) : IO (res os_error string) :=
  f ← next_fault;
  match f with
  | NoFault => d ← gets db; mret (of_option NotExist (hget d key field))
  | _ => mret (Err RedisFault)
  end.

(** [common_utils.GetRedisDBClient], which pings the server. *)
Definition GetRedisDBClient : IO (option os_error) :=
  f ← next_fault;
  mret (match f with NoFault => None | _ => Some RedisFault end).

End world.

Notation IO := (ST World).

(** [common_utils.GetKey] *)
Definition GetKey (k : list string) : string := Join k "|".
