(* ===== verification/Dbus.v ===== *)
(** * The client of the host service (src/sonic_service_client/dbus_client.go)

    The server asks a service outside its container to change the
    configuration, files and images of the switch.  Each request is one method
    call over D-Bus with a time limit; its answer is a list whose first value
    is a return code and whose second is the result or a message.  The bus is a
    parameter: whether it can be reached, and what a call does and answers.  A
    call that times out has been sent.

    The counters of common_utils/context.go count the calls; their copy in
    shared memory is not modelled. *)
From stdpp Require Import base gmap list strings.
From S2P Require Import Prelude GoStrings Gnmi World.

(** ** Counters *)

Inductive CounterType :=
| GNMI_GET | GNMI_GET_FAIL | GNMI_SET | GNMI_SET_FAIL | GNMI_SET_BYPASS
| GNOI_REBOOT | GNOI_FACTORY_RESET | GNOI_OS_INSTALL
| GNOI_HEALTHZ_ACK | GNOI_HEALTHZ_CHECK | GNOI_HEALTHZ_COLLECT
| DBUS | DBUS_FAIL | DBUS_APPLY_PATCH_DB | DBUS_APPLY_PATCH_YANG
| DBUS_CREATE_CHECKPOINT | DBUS_DELETE_CHECKPOINT | DBUS_CONFIG_SAVE | DBUS_CONFIG_RELOAD
| DBUS_STOP_SERVICE | DBUS_RESTART_SERVICE | DBUS_FILE_STAT | DBUS_FILE_DOWNLOAD
| DBUS_FILE_REMOVE | DBUS_IMAGE_DOWNLOAD | DBUS_IMAGE_INSTALL | DBUS_IMAGE_LIST
| DBUS_IMAGE_ACTIVATE | DBUS_DOCKER_LOAD | DBUS_CONFIG_REPLACE.

Global Instance CounterType_eq_dec : EqDecision CounterType.
Proof. solve_decision. Defined.

(** Counters are uint64. *)
Definition inc (c : CounterType) (n : CounterType → Z) : CounterType → Z :=
  λ c', if bool_decide (c' = c) then ((n c + 1) mod 2 ^ 64)%Z else n c'.

(** ** The bus *)

(** The values an answer carries. *)
Inductive dbval := DInt32 (z : Z) | DStr (s : string) | DMap (m : gmap string string) | DOther.

Inductive call_result := CallErr (e : string) | Body (l : list dbval) | CallTimeout.

Class Bus := {
  BusT : Type;
  (* an error of [dbus.SystemBus] *)
  SystemBus : BusT → option string;
  (* name, object path, method, time limit in seconds, arguments *)
  Call : string → string → string → Z → list string → BusT → BusT * call_result;
  (* what [fmt.Errorf] makes of a message that it takes for a format *)
  FmtMessage : string → string
}.

Section dbus.
Context {Bu : Bus}.

Record DState := { ds_bus : BusT; ds_counters : CounterType → Z }.

Notation DM A := (ST DState A).

Definition IncCounter (c : CounterType) : DM () :=
  modify (λ s, {| ds_bus := ds_bus s; ds_counters := inc c (ds_counters s) |}).

(** What an answer means. *)
Definition decode_body (result : list dbval) : res string dbval :=
  match result with
  | [] => Err "Dbus result is empty"
  | DInt32 ret :: rest =>
      match rest with
      | [v] =>
          if bool_decide (ret = 0%Z) then Ok v
          else match v with
               | DStr msg => Err (FmtMessage msg)
               | DMap m => Err (FmtMessage (default "" (m !! "error")))
               | _ => Err "Invalid result message type"
               end
      | _ => Err "Dbus result is invalid"
      end
  | _ :: _ => Err "Invalid result type"
  end.

Definition decode_call (timeout : Z) (r : call_result) : res string dbval :=
  match r with
  | CallErr e => Err e
  | Body l => decode_body l
  | CallTimeout => Err ("Timeout " +:+ Itoa timeout)
  end.

Definition send_call (busName busPath intName : string) (timeout : Z) (args : list string) : DM call_result :=
  λ s, let '(b, r) := Call busName busPath intName timeout args (ds_bus s) in
       ({| ds_bus := b; ds_counters := ds_counters s |}, r).

Definition DbusApi (busName busPath intName : string) (timeout : Z) (args : list string)
  : DM (res string dbval) :=
  _ ← IncCounter DBUS;
  err ← gets (λ s, SystemBus (ds_bus s));
  match err with
  | Some e => _ ← IncCounter DBUS_FAIL; mret (Err e)
  | None =>
      call ← send_call busName busPath intName timeout args;
      match decode_call timeout call with
      | Err e => _ ← IncCounter DBUS_FAIL; mret (Err e)
      | Ok v => mret (Ok v)
      end
  end.

(** ** Methods *)

Record DbusClient := { busNamePrefix : string; busPathPrefix : string; intNamePrefix : string }.

(** [NewDbusClient] never fails; the bus is looked for at each call. *)
Definition NewDbusClient : DbusClient := {|
  busNamePrefix := "org.SONiC.HostService.";
  busPathPrefix := "/org/SONiC/HostService/";
  intNamePrefix := "org.SONiC.HostService."
|}.

(** The lines every method has in common. *)
Definition host_call (c : DbusClient) (cnt : CounterType) (modName method : string) (timeout : Z)
    (args : list string) : DM (res string dbval) :=
  _ ← IncCounter cnt;
  DbusApi (busNamePrefix c +:+ modName) (busPathPrefix c +:+ modName)
          (intNamePrefix c +:+ modName +:+ "." +:+ method) timeout args.

(** [_, err := ...; return err] *)
Definition only_err (m : DM (res string dbval)) : DM (option string) :=
  r ← m; mret (match r with Ok _ => None | Err e => Some e end).

(** [strResult, ok := result.(string)] *)
Definition string_result (m : DM (res string dbval)) : DM (res string string) :=
  r ← m;
  mret (v ← r; match v with DStr s => Ok s | _ => Err "Invalid result type" end).

Definition ConfigReload (c : DbusClient) (config : string) : DM (option string) :=
  only_err (host_call c DBUS_CONFIG_RELOAD "config" "reload" 60 [config]).
Definition ConfigReplace (c : DbusClient) (config : string) : DM (option string) :=
  only_err (host_call c DBUS_CONFIG_REPLACE "gcu" "replace_db" 600 [config]).
Definition ConfigSave (c : DbusClient) (fileName : string) : DM (option string) :=
  only_err (host_call c DBUS_CONFIG_SAVE "config" "save" 60 [fileName]).
Definition ApplyPatchYang (c : DbusClient) (patch : string) : DM (option string) :=
  only_err (host_call c DBUS_APPLY_PATCH_YANG "gcu" "apply_patch_yang" 600 [patch]).
Definition ApplyPatchDb (c : DbusClient) (patch : string) : DM (option string) :=
  only_err (host_call c DBUS_APPLY_PATCH_DB "gcu" "apply_patch_db" 600 [patch]).
Definition CreateCheckPoint (c : DbusClient) (fileName : string) : DM (option string) :=
  only_err (host_call c DBUS_CREATE_CHECKPOINT "gcu" "create_checkpoint" 60 [fileName]).
Definition DeleteCheckPoint (c : DbusClient) (fileName : string) : DM (option string) :=
  only_err (host_call c DBUS_DELETE_CHECKPOINT "gcu" "delete_checkpoint" 60 [fileName]).
Definition StopService (c : DbusClient) (service : string) : DM (option string) :=
  only_err (host_call c DBUS_STOP_SERVICE "systemd" "stop_service" 240 [service]).
Definition RestartService (c : DbusClient) (service : string) : DM (option string) :=
  only_err (host_call c DBUS_RESTART_SERVICE "systemd" "restart_service" 240 [service]).

(** A result of another type reads as a nil map. *)
Definition GetFileStat (c : DbusClient) (path : string) : DM (res string (gmap string string)) :=
  r ← host_call c DBUS_FILE_STAT "file" "get_file_stat" 60 [path];
  mret (v ← r; Ok (match v with DMap m => m | _ => ∅ end)).
Definition DownloadFile (c : DbusClient) (hostname username password remotePath localPath protocol : string)
  : DM (option string) :=
  only_err (host_call c DBUS_FILE_DOWNLOAD "file" "download" 900
              [hostname; username; password; remotePath; localPath; protocol]).
Definition RemoveFile (c : DbusClient) (path : string) : DM (option string) :=
  only_err (host_call c DBUS_FILE_REMOVE "file" "remove" 60 [path]).
Definition DownloadImage (c : DbusClient) (url save_as : string) : DM (option string) :=
  only_err (host_call c DBUS_IMAGE_DOWNLOAD "image_service" "download" 900 [url; save_as]).
Definition InstallImage (c : DbusClient) (where_ : string) : DM (option string) :=
  only_err (host_call c DBUS_IMAGE_INSTALL "image_service" "install" 900 [where_]).
Definition ListImages (c : DbusClient) : DM (res string string) :=
  string_result (host_call c DBUS_IMAGE_LIST "image_service" "list_images" 60 []).
Definition ActivateImage (c : DbusClient) (image : string) : DM (option string) :=
  only_err (host_call c DBUS_IMAGE_ACTIVATE "image_service" "set_next_boot" 60 [image]).
Definition LoadDockerImage (c : DbusClient) (image : string) : DM (option string) :=
  only_err (host_call c DBUS_DOCKER_LOAD "docker_service" "load" 180 [image]).
Definition FactoryReset (c : DbusClient) (cmd : string) : DM (res string string) :=
  string_result (host_call c GNOI_FACTORY_RESET "gnoi_reset" "issue_reset" 10 [cmd]).
Definition HealthzCheck (c : DbusClient) (req : string) : DM (res string string) :=
  string_result (host_call c GNOI_HEALTHZ_CHECK "debug_info" "check" 10 [req]).
Definition HealthzCollect (c : DbusClient) (req : string) : DM (res string string) :=
  string_result (host_call c GNOI_HEALTHZ_COLLECT "debug_info" "collect" 10 [req]).
Definition HealthzAck (c : DbusClient) (req : string) : DM (res string string) :=
  string_result (host_call c GNOI_HEALTHZ_ACK "debug_info" "ack" 10 [req]).

(** Errors with a status when the host says that it has no such service. *)
Definition unimplemented (e : string) : option Code * string :=
  (if Contains e "ERROR_UNIMPLEMENTED" then Some Unimplemented else None, e).

Definition InstallOS (c : DbusClient) (req : string) : DM (res (option Code * string) string) :=
  r ← host_call c GNOI_OS_INSTALL "image_service" "gnoi_install_os" 60 [req];
  mret match r with
       | Err e => Err (unimplemented e)
       | Ok (DStr s) => if Contains s "ERROR_UNIMPLEMENTED" then Err (Some Unimplemented, s) else Ok s
       | Ok _ => Err (None, "Invalid result type")
       end.

(** ** Facts *)

(** Every call is counted, and so is every failure; a failure to reach the bus
    sends nothing. *)
Lemma DbusApi_counted n p i t a s :
  let '(s', r) := DbusApi n p i t a s in
  ds_counters s' = (if is_ok r then inc DBUS else λ c, inc DBUS_FAIL (inc DBUS c)) (ds_counters s) ∧
  ds_bus s' = if SystemBus (ds_bus s) then ds_bus s else (Call n p i t a (ds_bus s)).1.
Proof.
  unfold DbusApi, IncCounter, send_call, gets, modify, mbind, ST_bind, mret, ST_ret. simpl.
  destruct (SystemBus _); [done|]. destruct (Call _ _ _ _ _ _) as [b r]. simpl.
  by destruct (decode_call t r).
Qed.

(** The state of the bus after a method, as far as the bus itself goes. *)
Definition bus_call (c : DbusClient) (modName method : string) (timeout : Z) (args : list string) (b : BusT)
  : BusT :=
  if SystemBus b then b
  else (Call (busNamePrefix c +:+ modName) (busPathPrefix c +:+ modName)
             (intNamePrefix c +:+ modName +:+ "." +:+ method) timeout args b).1.

Lemma only_err_bus c cnt m method t a s :
  ds_bus (only_err (host_call c cnt m method t a) s).1 = bus_call c m method t a (ds_bus s).
Proof.
  unfold only_err, host_call, IncCounter, modify, mbind, ST_bind.
  match goal with |- context [DbusApi ?n ?p ?i t a ?s'] => pose proof (DbusApi_counted n p i t a s') as H;
    destruct (DbusApi n p i t a s') as [s1 r] end.
  destruct H as [_ H]. simpl in *. rewrite H. done.
Qed.

(** The error of a method, from the state of the bus alone. *)
Definition bus_error (c : DbusClient) (modName method : string) (timeout : Z) (args : list string) (b : BusT)
  : option string :=
  match SystemBus b with
  | Some e => Some e
  | None =>
      match decode_call timeout (Call (busNamePrefix c +:+ modName) (busPathPrefix c +:+ modName)
              (intNamePrefix c +:+ modName +:+ "." +:+ method) timeout args b).2 with
      | Err e => Some e
      | Ok _ => None
      end
  end.

Lemma only_err_error c cnt m method t a s :
  (only_err (host_call c cnt m method t a) s).2 = bus_error c m method t a (ds_bus s).
Proof.
  unfold only_err, host_call, DbusApi, bus_error, IncCounter, send_call, gets, modify, mbind, ST_bind, mret, ST_ret.
  simpl. destruct (SystemBus _); [done|]. destruct (Call _ _ _ _ _ _) as [b r]. simpl.
  by destruct (decode_call t r).
Qed.

End dbus.
