(* ===== verification/GnsiUtil.v ===== *)
(** * File and database helpers of the gNSI servers

    src/gnmi_server/gnsi_util.go ([copyFile], [fileCheck]) and the helpers of
    gnsi_certz.go the other servers call ([attemptWrite],
    [writeCredentialsMetadataToDB]), with what each of them can have changed
    when it fails. *)
From stdpp Require Import base gmap list strings.
From S2P Require Import Prelude GoStrings Redis World.

Section util.
Context {Rd : Redis}.

(** Removes a temporary file and reports the error that made it useless. *)
Definition drop_temp (tmp : string) (e : os_error) : IO (option os_error) :=
  _ ← os_Remove tmp; mret (Some e).

(** The tail [copyFile] and [saveToAuthzFile] share: the data goes to a
    temporary file that is renamed to the destination. *)
Definition install (dstPath data : string) : IO (option os_error) :=
  tmp ← CreateTemp dstPath;
  match tmp with
  | Err e => mret (Some e)
  | Ok tmpDst =>
      try_ (FileWrite tmpDst data) (drop_temp tmpDst)
      (try_ FileClose (drop_temp tmpDst)
      (try_ (Rename tmpDst dstPath) (drop_temp tmpDst)
      (Chmod dstPath)))
  end.

Definition copyFile (srcPath dstPath : string) : IO (option os_error) :=
  st ← Stat srcPath;
  match st with
  | Err e => mret (Some e)
  | Ok n =>
      if negb (is_regular n) then mret (Some NotRegular)
      else
        src ← ReadFile srcPath;
        match src with
        | Err e => mret (Some e)
        | Ok data => install dstPath data
        end
  end.

Definition fileCheck (f : string) : IO (option os_error) :=
  st ← Lstat f;
  mret (match st with
        | Err e => Some e
        | Ok n => if is_regular n then None else Some NotRegular
        end).

Definition attemptWrite (name data : string) : IO (option os_error) :=
  try_ (WriteFile name data) (λ e, _ ← os_Remove name; mret (Some e)) (mret None).

Definition credentialsTbl : string := "CREDENTIALS".

Definition writeCredentialsMetadataToDB (tbl key fld val : string) : IO (option os_error) :=
  try_ GetRedisDBClient (λ e, mret (Some e))
  (let path := GetKey [credentialsTbl; tbl] in
   let path := if bool_decide (0 < String.length key) then GetKey [path; key] else path in
   HSet path fld val).

(** ** Runs of the helpers *)

(** No call fails. *)
Definition quiet (w : World) : Prop := faults w = [].

(** No symbolic links. *)
Definition plain (m : gmap string inode) : Prop := map_Forall (λ _ n, is_regular n = true) m.

Lemma plain_insert m p d : plain m → plain (<[p := Reg d]> m).
Proof. intros Hm. by apply map_Forall_insert_2. Qed.
Lemma plain_delete m p : plain m → plain (delete p m).
Proof. intros Hm. by apply map_Forall_delete. Qed.
#[local] Hint Resolve plain_insert plain_delete : sonic.

Lemma resolve_plain n m p : plain m → resolve n m p = Ok p.
Proof.
  intros Hm. destruct n; unfold resolve; destruct (m !! p) as [[d|t]|] eqn:Hp; try done;
    by apply Hm in Hp.
Qed.

Lemma plain_lookup m p t : plain m → m !! p ≠ Some (Lnk t).
Proof. intros Hm Hp. by apply Hm in Hp. Qed.

(** [next_fault] changes nothing but the list. *)
Lemma next_fault_eq w : ∃ l f, next_fault w = ({| fs := fs w; db := db w; faults := l |}, f)
  ∧ (quiet w → l = [] ∧ f = NoFault).
Proof.
  unfold next_fault, quiet. destruct w as [m d [|f l]]; simpl; eexists _, _; split; done.
Qed.

(** Opens a call at a world [w]: its fault is [f] and the rest of the list [l]. *)
Ltac call w l f Hq :=
  destruct (next_fault_eq w) as (l & f & -> & Hq); cbn.

Lemma bind_ST {S A B} (m : ST S A) (k : A → ST S B) s :
  (m ≫= k) s = let '(s', a) := m s in k a s'.
Proof. done. Qed.

(** What file calls that write only the names of [T] can do: the database and
    every other name are left alone, no link appears, and where no call fails
    none will. *)
Record evolves (T : list string) (w w' : World) : Prop := {
  ev_db : db w' = db w;
  ev_quiet : quiet w → quiet w';
  ev_plain : plain (fs w) → plain (fs w');
  ev_keep : ∀ q, q ∉ T → fs w' !! q = fs w !! q
}.

Lemma evolves_refl T w : evolves T w w.
Proof. by split. Qed.

Lemma evolves_trans T w1 w2 w3 : evolves T w1 w2 → evolves T w2 w3 → evolves T w1 w3.
Proof.
  intros [] []. split; [congruence|auto|auto|]. intros q Hq. by rewrite ev_keep1, ev_keep0.
Qed.

Lemma evolves_sub T T' w w' : T ⊆ T' → evolves T w w' → evolves T' w w'.
Proof. intros Hs []. split; [done..|]. intros q Hq. apply ev_keep0. set_solver. Qed.

Lemma evolves_fs T w l (f : gmap string inode → gmap string inode) :
  (plain (fs w) → plain (f (fs w))) →
  (∀ q, q ∉ T → f (fs w) !! q = fs w !! q) → (quiet w → l = []) →
  evolves T w {| fs := f (fs w); db := db w; faults := l |}.
Proof. by split. Qed.

Section runs.
Implicit Types (w : World) (p q : string).

Lemma Remove_run w p w' e :
  os_Remove p w = (w', e) →
  evolves [p] w w' ∧ (e = None → fs w' = delete p (fs w)) ∧
  (quiet w → is_Some (fs w !! p) → e = None).
Proof.
  unfold os_Remove, mbind, ST_bind. call w l f Hq.
  assert (evolves [p] w {| fs := delete p (fs w); db := db w; faults := l |}).
  { apply (evolves_fs _ _ _ (delete p)); [auto with sonic| |naive_solver].
    intros q Hqp. by rewrite lookup_delete_ne by set_solver. }
  assert (evolves [p] w {| fs := fs w; db := db w; faults := l |}) by (split; naive_solver).
  destruct (fs w !! p) as [n|] eqn:Hp; [destruct f|]; intros [= <- <-]; naive_solver.
Qed.

Lemma WriteFile_run w p d w' e :
  plain (fs w) → WriteFile p d w = (w', e) →
  evolves [p] w w' ∧ (e = None → fs w' = <[p := Reg d]> (fs w)) ∧ (quiet w → e = None).
Proof.
  intros Hp. unfold WriteFile, mbind, ST_bind. call w l f Hq. rewrite resolve_plain by done.
  assert (∀ d, evolves [p] w {| fs := <[p := Reg d]> (fs w); db := db w; faults := l |}).
  { intros d'. apply (evolves_fs _ _ _ (<[p := Reg d']>)); [auto with sonic| |naive_solver].
    intros q Hqp. by rewrite lookup_insert_ne by set_solver. }
  assert (evolves [p] w {| fs := fs w; db := db w; faults := l |}) by (split; naive_solver).
  destruct f; intros [= <- <-]; cbn; naive_solver.
Qed.

Lemma attemptWrite_run w p d w' e :
  plain (fs w) → attemptWrite p d w = (w', e) →
  evolves [p] w w' ∧ (e = None → fs w' = <[p := Reg d]> (fs w)) ∧ (quiet w → e = None).
Proof.
  intros Hp. unfold attemptWrite, try_. rewrite bind_ST.
  destruct (WriteFile p d w) as [w1 e1] eqn:Hw.
  destruct (WriteFile_run _ _ _ _ _ Hp Hw) as (Hev & Hok & Hq).
  destruct e1 as [e1|]; [|intros [= <- <-]; naive_solver].
  rewrite bind_ST. destruct (os_Remove p w1) as [w2 e2] eqn:Hr. intros [= <- <-].
  apply Remove_run in Hr as (Hev2 & _). split_and!; [by eapply evolves_trans|done|naive_solver].
Qed.

Lemma ReadFile_run w p w' r :
  plain (fs w) → ReadFile p w = (w', r) →
  evolves [] w w' ∧ fs w' = fs w ∧ (∀ d, r = Ok d → fs w !! p = Some (Reg d)) ∧
  (quiet w → ∀ d, fs w !! p = Some (Reg d) → r = Ok d).
Proof.
  intros Hp. unfold ReadFile, mbind, ST_bind. call w l f Hq.
  assert (evolves [] w {| fs := fs w; db := db w; faults := l |}) by (split; naive_solver).
  destruct f; cbn; rewrite ?resolve_plain by done; cbn; intros [= <- <-]; split_and!; try done;
    repeat case_match; naive_solver.
Qed.

Lemma fileCheck_run w p w' e :
  fileCheck p w = (w', e) →
  evolves [] w w' ∧ fs w' = fs w ∧ (e = None → ∃ d, fs w !! p = Some (Reg d)).
Proof.
  unfold fileCheck, Lstat, mbind, ST_bind. call w l f Hq.
  assert (evolves [] w {| fs := fs w; db := db w; faults := l |}) by (split; naive_solver).
  destruct f; cbn; [|intros [= <- <-]; by split_and!..].
  destruct (fs w !! p) as [[d|t]|]; cbn; intros [= <- <-]; split_and!; eauto; done.
Qed.

Lemma Rename_run w p q w' e :
  p ≠ q → Rename p q w = (w', e) →
  evolves [p; q] w w' ∧
  (∀ n, e = None → fs w !! p = Some n → fs w' = <[q := n]> (delete p (fs w))) ∧
  (e = None → is_Some (fs w !! p)) ∧ (e ≠ None → fs w' = fs w) ∧
  (quiet w → is_Some (fs w !! p) → e = None).
Proof.
  intros Hne. unfold Rename, mbind, ST_bind. call w l f Hq.
  assert (evolves [p; q] w {| fs := fs w; db := db w; faults := l |}) by (split; naive_solver).
  destruct (fs w !! p) as [n|] eqn:Hp.
  2: { intros [= <- <-]. by split_and!. }
  assert (evolves [p; q] w {| fs := <[q := n]> (delete p (fs w)); db := db w; faults := l |}).
  { apply (evolves_fs _ _ _ (λ m, <[q := n]> (delete p m))); [| |naive_solver].
    - intros Hpl. apply map_Forall_insert_2; [apply (Hpl _ _ Hp)|by apply plain_delete].
    - intros r Hr. by rewrite lookup_insert_ne, lookup_delete_ne by set_solver. }
  destruct f; intros [= <- <-]; naive_solver.
Qed.

Lemma Stat_run w p w' r :
  plain (fs w) → Stat p w = (w', r) →
  evolves [] w w' ∧ fs w' = fs w ∧ (∀ n, r = Ok n → fs w !! p = Some n) ∧
  (quiet w → ∀ n, fs w !! p = Some n → r = Ok n).
Proof.
  intros Hp. unfold Stat, mbind, ST_bind. call w l f Hq.
  assert (evolves [] w {| fs := fs w; db := db w; faults := l |}) by (split; naive_solver).
  destruct f; cbn; rewrite ?resolve_plain by done; cbn; intros [= <- <-]; split_and!; try done;
    destruct (fs w !! p); naive_solver.
Qed.

Lemma length_zeros n : String.length (zeros n) = n.
Proof. induction n; simpl; congruence. Qed.

Lemma temp_ne p (m : gmap string inode) : temp_name p m ≠ p.
Proof.
  intros Heq%(f_equal String.length). revert Heq. unfold temp_name.
  rewrite length_app_str, length_zeros. lia.
Qed.

Lemma temp_fresh p (m : gmap string inode) : m !! temp_name p m = None.
Proof.
  apply eq_None_not_Some. intros [n Hn].
  assert (String.length (temp_name p m) ≤ longest m) as Hle.
  { unfold longest. apply max_list_elem_of_le, list_elem_of_fmap_2, list_elem_of_fmap.
    exists (temp_name p m, n). by rewrite elem_of_map_to_list. }
  revert Hle. unfold temp_name. rewrite length_app_str, length_zeros. lia.
Qed.

Lemma CreateTemp_run w p w' r :
  CreateTemp p w = (w', r) →
  evolves [temp_name p (fs w)] w w' ∧
  (∀ tmp, r = Ok tmp →
     tmp = temp_name p (fs w) ∧ fs w' = <[tmp := Reg EmptyString]> (fs w)) ∧
  (quiet w → ∃ tmp, r = Ok tmp).
Proof.
  unfold CreateTemp, mbind, ST_bind. call w l f Hq.
  destruct f; cbn; intros [= <- <-]; split_and!; try naive_solver; try (split; naive_solver).
  unfold set_fs; cbn.
  apply (evolves_fs _ _ _ (<[temp_name p (fs w) := Reg EmptyString]>)); [auto with sonic| |naive_solver].
  intros q Hqp. by rewrite lookup_insert_ne by set_solver.
Qed.

Lemma FileWrite_run w p d w' e :
  FileWrite p d w = (w', e) →
  evolves [p] w w' ∧ (e = None → fs w' = <[p := Reg d]> (fs w)) ∧ (quiet w → e = None).
Proof.
  unfold FileWrite, mbind, ST_bind. call w l f Hq.
  assert (∀ d, evolves [p] w {| fs := <[p := Reg d]> (fs w); db := db w; faults := l |}).
  { intros d'. apply (evolves_fs _ _ _ (<[p := Reg d']>)); [auto with sonic| |naive_solver].
    intros q Hqp. by rewrite lookup_insert_ne by set_solver. }
  assert (evolves [p] w {| fs := fs w; db := db w; faults := l |}) by (split; naive_solver).
  destruct f; intros [= <- <-]; cbn; naive_solver.
Qed.

(** Calls that only can fail. *)
Lemma FileClose_run w w' e :
  FileClose w = (w', e) → evolves [] w w' ∧ fs w' = fs w ∧ (quiet w → e = None).
Proof.
  unfold FileClose, mbind, ST_bind. call w l f Hq. intros [= <- <-].
  split_and!; [split; naive_solver|done|]. by intros [_ ->]%Hq.
Qed.

Lemma Chmod_run w p w' e :
  Chmod p w = (w', e) → evolves [] w w' ∧ fs w' = fs w ∧ (quiet w → e = None).
Proof.
  unfold Chmod, mbind, ST_bind. call w l f Hq. intros [= <- <-].
  split_and!; [split; naive_solver|done|]. by intros [_ ->]%Hq.
Qed.

Lemma drop_temp_run w tmp e w' r :
  drop_temp tmp e w = (w', r) → evolves [tmp] w w' ∧ r = Some e.
Proof.
  unfold drop_temp. rewrite bind_ST. destruct (os_Remove tmp w) as [w1 e1] eqn:Hr.
  intros [= <- <-]. apply Remove_run in Hr. naive_solver.
Qed.


(** Whatever fails, the destination holds what it held or the whole data, and
    all other files there were keep their content. *)
Lemma install_run w dst d w' e :
  install dst d w = (w', e) →
  evolves [dst; temp_name dst (fs w)] w w' ∧
  (fs w' !! dst = fs w !! dst ∧ e ≠ None ∨ fs w' !! dst = Some (Reg d)) ∧
  (quiet w → e = None ∧ fs w' = <[dst := Reg d]> (fs w)).
Proof.
  unfold install, try_. pose proof (temp_ne dst (fs w)) as Hne.
  pose proof (temp_fresh dst (fs w)) as Hfr.
  rewrite bind_ST. destruct (CreateTemp dst w) as [w1 r] eqn:Hc.
  apply CreateTemp_run in Hc as (Hev1 & Htmp & Hq1). set (tmp := temp_name dst (fs w)) in *.
  assert (∀ w2 w3 e e2, evolves [tmp] w w2 → drop_temp tmp e w2 = (w3, e2) →
    evolves [dst; tmp] w w3 ∧ fs w3 !! dst = fs w !! dst ∧ e2 ≠ None) as Hdrop.
  { intros w2 w3 e' e2 Hev (Hev' & ->)%drop_temp_run.
    assert (evolves [tmp] w w3) as Hev3 by (by eapply evolves_trans).
    split_and!; [by eapply evolves_sub; [|done]; set_solver|apply (ev_keep _ _ _ Hev3); set_solver|done]. }
  destruct r as [tmp'|e1].
  2: { intros [= <- <-]. split_and!; [by eapply evolves_sub; [|done]; set_solver| |naive_solver].
       left. split; [apply (ev_keep _ _ _ Hev1); set_solver|done]. }
  destruct (Htmp tmp' eq_refl) as (-> & Hfs1).
  rewrite bind_ST. destruct (FileWrite tmp d w1) as [w2 [e2|]] eqn:H2;
    apply FileWrite_run in H2 as (Hev2 & Hfs2 & Hq2).
  { intros (? & ? & ?)%Hdrop; [|by eapply evolves_trans]. split_and!; [done|by left|].
    intros Hq. by apply (ev_quiet _ _ _ Hev1), Hq2 in Hq. }
  rewrite Hfs1, insert_insert_eq in Hfs2. specialize (Hfs2 eq_refl).
  pose proof (evolves_trans _ _ _ _ Hev1 Hev2) as Hev12.
  rewrite bind_ST. destruct (FileClose w2) as [w3 [e3|]] eqn:H3;
    apply FileClose_run in H3 as (Hev3 & Hfs3 & Hq3); rewrite Hfs2 in Hfs3;
    (apply (evolves_sub _ [tmp]) in Hev3; [|apply list_subseteq_nil]);
    pose proof (evolves_trans _ _ _ _ Hev12 Hev3) as Hev13.
  { intros (? & ? & ?)%Hdrop; [|done]. split_and!; [done|by left|].
    intros Hq. by apply (ev_quiet _ _ _ Hev12), Hq3 in Hq. }
  rewrite bind_ST. destruct (Rename tmp dst w3) as [w4 [e4|]] eqn:H4;
    apply Rename_run in H4 as (Hev4 & Hfs4 & _ & Hfs4' & Hq4); try done.
  { rewrite Hfs3 in Hfs4'.
    assert (evolves [tmp] w w4) as Hev14.
    { split; [by rewrite (ev_db _ _ _ Hev4), (ev_db _ _ _ Hev13)| | |].
      - intros Hq. by apply (ev_quiet _ _ _ Hev4), (ev_quiet _ _ _ Hev13).
      - intros Hq. by apply (ev_plain _ _ _ Hev4), (ev_plain _ _ _ Hev13).
      - intros q Hq. rewrite Hfs4' by done. rewrite lookup_insert_ne by set_solver. done. }
    intros (? & ? & ?)%Hdrop; [|done]. split_and!; [done|by left|].
    intros Hq%(ev_quiet _ _ _ Hev13)%Hq4; [done|]. rewrite Hfs3, lookup_insert_eq. done. }
  rewrite Hfs3, lookup_insert_eq in Hfs4. specialize (Hfs4 _ eq_refl eq_refl).
  rewrite delete_insert_id in Hfs4 by done.
  intros H5. apply Chmod_run in H5 as (Hev5 & Hfs5 & Hq5). rewrite Hfs4 in Hfs5.
  split_and!.
  - eapply evolves_trans; [by eapply evolves_sub; [|exact Hev13]; set_solver|].
    eapply evolves_trans; [by eapply evolves_sub; [|exact Hev4]; set_solver|].
    eapply evolves_sub; [|done]. set_solver.
  - right. by rewrite Hfs5, lookup_insert_eq.
  - intros Hq. split; [|done]. by apply Hq5, (ev_quiet _ _ _ Hev4), (ev_quiet _ _ _ Hev13).
Qed.

Lemma copyFile_run w src dst w' e :
  plain (fs w) → copyFile src dst w = (w', e) →
  evolves [dst; temp_name dst (fs w)] w w' ∧
  (e = None → ∃ d, fs w !! src = Some (Reg d) ∧ fs w' !! dst = Some (Reg d)) ∧
  (quiet w → ∀ d, fs w !! src = Some (Reg d) → e = None ∧ fs w' = <[dst := Reg d]> (fs w)).
Proof.
  intros Hp. unfold copyFile. rewrite bind_ST. destruct (Stat src w) as [w1 st] eqn:Hst.
  apply Stat_run in Hst as (Hev1 & Hfs1 & Hst1 & Hst2); [|done].
  apply (evolves_sub _ [dst; temp_name dst (fs w)]) in Hev1; [|set_solver].
  destruct st as [n|e1].
  2: { intros [= <- <-]. split_and!; [done|done|]. intros Hq d Hd. by specialize (Hst2 Hq _ Hd). }
  pose proof (Hst1 n eq_refl) as Hn. rewrite (Hp _ _ Hn). cbn [negb].
  rewrite bind_ST. destruct (ReadFile src w1) as [w2 r] eqn:Hr.
  apply ReadFile_run in Hr as (Hev2 & Hfs2 & Hr1 & Hr2); [|by rewrite Hfs1].
  apply (evolves_sub _ [dst; temp_name dst (fs w)]) in Hev2; [|set_solver].
  pose proof (evolves_trans _ _ _ _ Hev1 Hev2) as Hev. rewrite Hfs1 in *.
  destruct r as [d|e2].
  2: { intros [= <- <-]. split_and!; [done|done|]. intros Hq d Hd.
       by specialize (Hr2 (ev_quiet _ _ _ Hev1 Hq) _ Hd). }
  intros Hi. apply install_run in Hi as (Hev3 & Hdst & Hq3). rewrite Hfs2 in Hev3, Hq3.
  split_and!; [by eapply evolves_trans|naive_solver|].
  intros Hq d' Hd'. rewrite (Hr1 _ eq_refl) in Hd'. injection Hd' as ->.
  apply Hq3. by apply (ev_quiet _ _ _ Hev).
Qed.
End runs.

(** A write to the state database leaves the files alone. *)
Lemma writeCredentials_run w tbl fld val w' e :
  writeCredentialsMetadataToDB tbl "" fld val w = (w', e) →
  fs w' = fs w ∧ (quiet w → quiet w' ∧ e = None) ∧
  (if e then db w' = db w
   else db w' = hset (db w) (GetKey [credentialsTbl; tbl]) [(fld, val)]).
Proof.
  unfold writeCredentialsMetadataToDB, try_, GetRedisDBClient, HSet, mbind, ST_bind.
  call w l f Hq. destruct f; cbn; try (intros [= <- <-]; split_and!; naive_solver).
  set (w1 := {| fs := fs w; db := db w; faults := l |}).
  destruct (next_fault_eq w1) as (l' & f' & -> & Hq'). cbn.
  destruct f'; intros [= <- <-]; split_and!; try done; unfold quiet in *; naive_solver.
Qed.

Lemma fileCheck_quiet w p d :
  quiet w → fs w !! p = Some (Reg d) → ∃ w', fileCheck p w = (w', None) ∧ fs w' = fs w ∧ quiet w'.
Proof.
  intros Hq Hp. destruct (fileCheck p w) as [w' e] eqn:Hrun.
  pose proof Hrun as (Hev & Hfs & _)%fileCheck_run. exists w'.
  split_and!; [|done|by apply (ev_quiet _ _ _ Hev)]. f_equal. revert Hrun.
  unfold fileCheck, Lstat, next_fault, mbind, ST_bind. rewrite Hq. cbn. rewrite Hp.
  by intros [= _ <-].
Qed.
End util.
