(* ===== verification/PathzServer.v ===== *)
(** * Rotation of the path authorization policy (src/gnmi_server/gnsi_pathz.go)

    [Rotate] serves one stream: it takes a checkpoint of the active policy and
    its file, installs every uploaded policy at once, and either commits on a
    finalize message or goes back to the checkpoint.  The two metadata
    pointers of the Go struct are pointers into a heap here, because the
    checkpoint copies the pointer and not what it points to. *)
From stdpp Require Import base gmap list strings.
From S2P Require Import Prelude GoStrings Gnmi Pathz Redis World GnsiUtil.

Section pathz_server.
Context {Rd : Redis}.

Record PathzMetadata := { PathzVersion : string; PathzCreatedOn : string }.

Definition NewPathzMetadata : PathzMetadata := {| PathzVersion := "unknown"; PathzCreatedOn := "0" |}.

Definition pathzTbl : string := "PATHZ_POLICY|".
Definition pathzVersionFld : string := "pathz_version".
Definition pathzCreatedOnFld : string := "pathz_created_on".
Definition pathzPolicyActive : string := "ACTIVE".

(** The server with the part of the configuration it reads, the metadata
    objects in memory and the world it acts on. *)
Record GNSIPathzServer := {
  pathzProcessor : GnmiAuthzProcessor;
  pathzMetadata : option nat;
  pathzMetadataCopy : option nat;
  policyCopy : option AuthorizationPolicy;
  policyUpdated : bool;
  pathzV1Policy : string;
  pathzV1PolicyBackup : string;
  PathzMetaFile : string;
  pz_heap : gmap nat PathzMetadata;
  pz_world : World
}.

(** Field updates. *)
Definition set_processor (x : GnmiAuthzProcessor) (s : GNSIPathzServer) : GNSIPathzServer :=
  {| pathzProcessor := x; pathzMetadata := pathzMetadata s; pathzMetadataCopy := pathzMetadataCopy s;
     policyCopy := policyCopy s; policyUpdated := policyUpdated s; pathzV1Policy := pathzV1Policy s;
     pathzV1PolicyBackup := pathzV1PolicyBackup s; PathzMetaFile := PathzMetaFile s;
     pz_heap := pz_heap s; pz_world := pz_world s |}.
Definition set_updated (x : bool) (s : GNSIPathzServer) : GNSIPathzServer :=
  {| pathzProcessor := pathzProcessor s; pathzMetadata := pathzMetadata s;
     pathzMetadataCopy := pathzMetadataCopy s; policyCopy := policyCopy s; policyUpdated := x;
     pathzV1Policy := pathzV1Policy s; pathzV1PolicyBackup := pathzV1PolicyBackup s;
     PathzMetaFile := PathzMetaFile s; pz_heap := pz_heap s; pz_world := pz_world s |}.
Definition set_pointers (m c : option nat) (s : GNSIPathzServer) : GNSIPathzServer :=
  {| pathzProcessor := pathzProcessor s; pathzMetadata := m; pathzMetadataCopy := c;
     policyCopy := policyCopy s; policyUpdated := policyUpdated s; pathzV1Policy := pathzV1Policy s;
     pathzV1PolicyBackup := pathzV1PolicyBackup s; PathzMetaFile := PathzMetaFile s;
     pz_heap := pz_heap s; pz_world := pz_world s |}.
Definition set_policyCopy (x : option AuthorizationPolicy) (s : GNSIPathzServer) : GNSIPathzServer :=
  {| pathzProcessor := pathzProcessor s; pathzMetadata := pathzMetadata s;
     pathzMetadataCopy := pathzMetadataCopy s; policyCopy := x; policyUpdated := policyUpdated s;
     pathzV1Policy := pathzV1Policy s; pathzV1PolicyBackup := pathzV1PolicyBackup s;
     PathzMetaFile := PathzMetaFile s; pz_heap := pz_heap s; pz_world := pz_world s |}.
Definition set_heap (x : gmap nat PathzMetadata) (s : GNSIPathzServer) : GNSIPathzServer :=
  {| pathzProcessor := pathzProcessor s; pathzMetadata := pathzMetadata s;
     pathzMetadataCopy := pathzMetadataCopy s; policyCopy := policyCopy s;
     policyUpdated := policyUpdated s; pathzV1Policy := pathzV1Policy s;
     pathzV1PolicyBackup := pathzV1PolicyBackup s; PathzMetaFile := PathzMetaFile s;
     pz_heap := x; pz_world := pz_world s |}.
Definition set_world (x : World) (s : GNSIPathzServer) : GNSIPathzServer :=
  {| pathzProcessor := pathzProcessor s; pathzMetadata := pathzMetadata s;
     pathzMetadataCopy := pathzMetadataCopy s; policyCopy := policyCopy s;
     policyUpdated := policyUpdated s; pathzV1Policy := pathzV1Policy s;
     pathzV1PolicyBackup := pathzV1PolicyBackup s; PathzMetaFile := PathzMetaFile s;
     pz_heap := pz_heap s; pz_world := x |}.

(** A call to the outside. *)
Definition lift {A} (m : IO A) : ST GNSIPathzServer A := λ s,
  let '(w, a) := m (pz_world s) in (set_world w s, a).

(** [*srv.pathzMetadata]; the pointer is set when the server is made and
    never reset to nil. *)
Definition metadata (s : GNSIPathzServer) : PathzMetadata :=
  default NewPathzMetadata (p ← pathzMetadata s; pz_heap s !! p).
Definition write_metadata (x : PathzMetadata) (s : GNSIPathzServer) : GNSIPathzServer :=
  match pathzMetadata s with Some p => set_heap (<[p := x]> (pz_heap s)) s | None => s end.

(** ** Messages of the stream *)

Record UploadRequest := {
  Version : string;
  CreatedOn : Z;
  Policy : option AuthorizationPolicy
}.

Inductive RotateReq := FinalizeRotation | Upload (u : UploadRequest) | NoRequest.
Record RotateRequest := { rotate_request : RotateReq; ForceOverwrite : bool }.

(** What one turn of the loop receives: an error other than the end of the
    stream, or a message, with the fate of the answer sent to it.  The end of
    the list is the end of the stream. *)
Inductive event := RecvError | Received (req : RotateRequest) (sent : bool).

(** The codecs the server calls: the protobuf text format and the JSON
    encoding of the metadata ([DecodeMetadata] decodes into an object and may
    fail after filling part of it). *)
Class PathzCodec := {
  MarshalTextString : option AuthorizationPolicy → string;
  UnmarshalText : string → option AuthorizationPolicy;
  EncodeMetadata : PathzMetadata → option string;
  DecodeMetadata : string → PathzMetadata → PathzMetadata * bool
}.

Section server.
Context {MR : MapRange} {PC : PathzCodec}.
Notation M := (ST GNSIPathzServer).

(** ** Operations *)

Definition savePathzFileFreshess (path : string) : M (option os_error) :=
  md ← gets metadata;
  match EncodeMetadata md with
  | None => mret (Some OsFault)
  | Some buf => lift (attemptWrite path buf)
  end.

Definition loadPathzFreshness (path : string) : M bool :=
  r ← lift (ReadFile path);
  match r with
  | Err _ => mret false
  | Ok bytes =>
      md ← gets metadata;
      let '(md', ok) := DecodeMetadata bytes md in
      _ ← modify (write_metadata md'); mret ok
  end.

Definition savePathzPolicyToFile (p : option AuthorizationPolicy) : M (string * option os_error) :=
  let content := MarshalTextString p in
  file ← gets pathzV1Policy;
  e ← lift (attemptWrite file content); mret (content, e).

Definition verifyPathzFile (c : string) : M bool :=
  file ← gets pathzV1Policy;
  r ← lift (ReadFile file);
  mret (match r with Ok content => bool_decide (c = content) | Err _ => false end).

Definition writePathzMetadataToDB (id : string) : M (option os_error) :=
  md ← gets metadata;
  try_ (lift (writeCredentialsMetadataToDB (pathzTbl +:+ id) "" pathzVersionFld (PathzVersion md)))
       (λ e, mret (Some e))
  (lift (writeCredentialsMetadataToDB (pathzTbl +:+ id) "" pathzCreatedOnFld (PathzCreatedOn md))).

(** The two policy updates of the processor, on the server's field. *)
Definition update_processor (p : option AuthorizationPolicy) : M (option pathz_error) := λ s,
  let '(pr, e) := UpdatePolicyFromProto (pathzProcessor s) p in (set_processor pr s, e).

Definition UpdatePolicyFromFile (policyFile : string) : M bool :=
  r ← lift (ReadFile policyFile);
  match r with
  | Err _ => mret false
  | Ok content =>
      match UnmarshalText content with
      | None => mret false
      | Some policy => e ← update_processor (Some policy); mret (bool_decide (e = None))
      end
  end.

(** An error from any of the three steps has the same consequences for the
    caller: the message is not kept. *)
Definition updatePolicy (p : option AuthorizationPolicy) : M bool :=
  ce ← savePathzPolicyToFile p;
  match ce with
  | (_, Some _) => mret false
  | (c, None) =>
      ok ← verifyPathzFile c;
      if ok : bool then e ← update_processor p; mret (bool_decide (e = None)) else mret false
  end.

Definition createCheckpoint : M (option os_error) :=
  _ ← modify (λ s, set_policyCopy (GetPolicy (pathzProcessor s)) s);
  _ ← modify (set_updated false);
  _ ← modify (λ s, set_pointers (pathzMetadata s) (pathzMetadata s) s);
  file ← gets pathzV1Policy; backup ← gets pathzV1PolicyBackup;
  lift (copyFile file backup).

Definition restore_files : M bool :=
  _ ← modify (λ s, set_pointers (pathzMetadataCopy s) (pathzMetadataCopy s) s);
  file ← gets pathzV1Policy; backup ← gets pathzV1PolicyBackup;
  e ← lift (Rename backup file); mret (bool_decide (e = None)).

Definition revertPolicy : M bool :=
  updated ← gets policyUpdated;
  if updated : bool then
    _ ← modify (set_updated false);
    copy ← gets policyCopy;
    e ← update_processor copy;
    match e with
    | Some _ => backup ← gets pathzV1PolicyBackup; _ ← lift (os_Remove backup); mret false
    | None => restore_files
    end
  else restore_files.

Definition commitChanges : M (option os_error) :=
  try_ (writePathzMetadataToDB pathzPolicyActive) (λ e, mret (Some e))
  (file ← gets PathzMetaFile; savePathzFileFreshess file).

Definition processRotateRequest (req : RotateRequest) : M (option Code) :=
  match rotate_request req with
  | Upload policyReq =>
      if bool_decide (Version policyReq = "") then mret (Some Aborted)
      else
        md ← gets metadata;
        if bool_decide (PathzVersion md = Version policyReq) && negb (ForceOverwrite req)
        then mret (Some AlreadyExists)
        else
          _ ← modify (λ s, write_metadata
                 {| PathzVersion := Version policyReq;
                    PathzCreatedOn := PathzCreatedOn (metadata s) |} s);
          _ ← modify (λ s, write_metadata
                 {| PathzVersion := PathzVersion (metadata s);
                    PathzCreatedOn := Itoa (CreatedOn policyReq) |} s);
          ok ← updatePolicy (Policy policyReq);
          if ok : bool then _ ← modify (set_updated true); mret None
          else mret (Some Aborted)
  | _ => mret (Some Aborted)
  end.

(** The loop of [Rotate]. *)
Fixpoint rotate_loop (evs : list event) : M (option Code) :=
  match evs with
  | [] => _ ← revertPolicy; mret (Some Aborted)
  | RecvError :: _ => _ ← revertPolicy; mret (Some Aborted)
  | Received req sent :: evs =>
      match rotate_request req with
      | FinalizeRotation =>
          updated ← gets policyUpdated;
          if updated : bool then
            try_ commitChanges (λ _, mret (Some Aborted))
            (backup ← gets pathzV1PolicyBackup; _ ← lift (os_Remove backup); mret None)
          else _ ← revertPolicy; mret (Some Aborted)
      | _ =>
          try_ (processRotateRequest req) (λ code, _ ← revertPolicy; mret (Some code))
          (if sent then rotate_loop evs else _ ← revertPolicy; mret (Some Aborted))
      end
  end.

(** [Rotate]: [auth] is the status [authenticate] fails with, if any, and
    [locked] whether another rotation holds the mutex. *)
Definition Rotate (auth : option Code) (locked : bool) (evs : list event) : M (option Code) :=
  match auth with
  | Some c => mret (Some c)
  | None =>
      if locked then mret (Some Aborted)
      else
        file ← gets pathzV1Policy;
        try_ (lift (fileCheck file)) (λ _, mret (Some NotFound))
        (try_ createCheckpoint (λ _, mret (Some Aborted))
        (rotate_loop evs))
  end.

(** [NewGNSIPathzServer]: [policy_on] is the configuration's PathzPolicy. *)
Definition NewGNSIPathzServer (policyFile metaFile : string) (policy_on : bool) (w : World)
  : GNSIPathzServer :=
  let s :=
    {| pathzProcessor := {| proc_groups := ∅; proc_root := None; proc_policy := None |};
       pathzMetadata := Some 0; pathzMetadataCopy := None; policyCopy := None;
       policyUpdated := false; pathzV1Policy := policyFile;
       pathzV1PolicyBackup := policyFile +:+ ".backup"; PathzMetaFile := metaFile;
       pz_heap := {[ 0 := NewPathzMetadata ]}; pz_world := w |} in
  fst ((_ ← loadPathzFreshness metaFile;
   _ ← writePathzMetadataToDB pathzPolicyActive;
   if policy_on then _ ← UpdatePolicyFromFile policyFile; mret () else mret ()) s).
End server.
End pathz_server.

Arguments metadata {_} s : simpl never.
Arguments write_metadata {_} x s : simpl never.
