(* ===== verification/PathzServerFacts.v ===== *)
(** * What a rotation of the path policy guarantees (PathzServer.v)

    A rotation that returns no error has installed, saved and published the
    last policy uploaded; one that is aborted while a policy was running goes
    back to that policy; and the ways in which going back is not complete. *)
From stdpp Require Import base gmap list strings.
From S2P Require Import Prelude GoStrings Gnmi Pathz Redis World GnsiUtil PathzServer.

Section pathz_facts.
Context {Rd : Redis}.

Section facts.
Context {MR : MapRange} {PC : PathzCodec}.
Implicit Types (s : GNSIPathzServer).

(** The metadata pointer is valid and the checkpoint shares it. *)
Definition pointers_ok (p : nat) s : Prop :=
  pathzMetadata s = Some p ∧ pathzMetadataCopy s = Some p ∧ is_Some (pz_heap s !! p).

(** The processor runs exactly this policy. *)
Definition runs (pr : GnmiAuthzProcessor) (pol : option AuthorizationPolicy) : Prop :=
  ∃ root grps, createNewPolicy pol = Ok (root, grps) ∧
    pr = {| proc_groups := grps; proc_root := Some root; proc_policy := pol |}.

Lemma update_processor_run pol s s' e :
  update_processor pol s = (s', e) →
  ∃ pr, s' = set_processor pr s ∧
    match e with
    | None => runs pr pol
    | Some _ => pr = pathzProcessor s ∧ ∀ x, createNewPolicy pol ≠ Ok x
    end.
Proof.
  unfold update_processor, UpdatePolicyFromProto.
  destruct (createNewPolicy pol) as [[root grps]|] eqn:Hc; intros [= <- <-];
    eexists; (split; [done|]); [by eexists _, _|done].
Qed.

Lemma runs_update pr pol s :
  runs pr pol → update_processor pol s = (set_processor pr s, None).
Proof.
  intros (root & grps & Hc & ->). unfold update_processor, UpdatePolicyFromProto. by rewrite Hc.
Qed.

Lemma pathz_lift_run {A} (m : IO A) s :
  lift m s = let '(w, a) := m (pz_world s) in (set_world w s, a).
Proof. done. Qed.

(** Saving and installing one uploaded policy. *)
Lemma updatePolicy_run pol s s' ok :
  plain (fs (pz_world s)) → updatePolicy pol s = (s', ok) →
  ∃ pr w', s' = set_world w' (set_processor pr s) ∧
    evolves [pathzV1Policy s] (pz_world s) w' ∧
    (if ok : bool then fs w' !! pathzV1Policy s = Some (Reg (MarshalTextString pol)) ∧ runs pr pol
     else pr = pathzProcessor s) ∧
    (quiet (pz_world s) → ∀ x, createNewPolicy pol = Ok x → ok = true).
Proof.
  intros Hp. unfold updatePolicy, savePathzPolicyToFile. rewrite !bind_ST. cbn.
  rewrite bind_ST, pathz_lift_run. destruct (attemptWrite _ _ _) as [w1 e1] eqn:Hw.
  apply attemptWrite_run in Hw as (Hev1 & Hfs1 & Hq1); [|done]. cbn.
  destruct e1 as [e1|].
  { intros [= <- <-]. exists (pathzProcessor s), w1. split_and!; [by destruct s|done..|naive_solver]. }
  unfold verifyPathzFile. rewrite !bind_ST. cbn. rewrite bind_ST, pathz_lift_run. cbn.
  destruct (ReadFile _ w1) as [w2 r] eqn:Hr.
  apply ReadFile_run in Hr as (Hev2 & Hfs2 & Hr1 & Hr2); [|by apply (ev_plain _ _ _ Hev1)].
  apply (evolves_sub _ [pathzV1Policy s]) in Hev2; [|apply list_subseteq_nil].
  pose proof (evolves_trans _ _ _ _ Hev1 Hev2) as Hev. specialize (Hfs1 eq_refl).
  assert (fs w1 !! pathzV1Policy s = Some (Reg (MarshalTextString pol))) as Hfile
    by by rewrite Hfs1, lookup_insert_eq.
  cbn. destruct (match r with Ok _ => _ | Err _ => _ end) eqn:Hok.
  - rewrite bind_ST. destruct (update_processor pol _) as [s3 e3] eqn:H3.
    apply update_processor_run in H3 as (pr & -> & He). intros [= <- <-].
    exists pr, w2. split_and!; [by destruct s|done| |].
    + case_bool_decide; [subst e3; split; [by rewrite Hfs2|done]|]. destruct e3; [naive_solver|done].
    + intros Hq x Hx. destruct e3; [naive_solver|done].
  - intros [= <- <-]. exists (pathzProcessor s), w2. split_and!; [by destruct s|done..|].
    intros Hq x Hx. apply (ev_quiet _ _ _ Hev1) in Hq. rewrite (Hr2 Hq _ Hfile) in Hok.
    by apply bool_decide_eq_false in Hok.
Qed.

Definition metadata_of (u : UploadRequest) : PathzMetadata :=
  {| PathzVersion := Version u; PathzCreatedOn := Itoa (CreatedOn u) |}.

Lemma write_metadata_eq p x s :
  pathzMetadata s = Some p → write_metadata x s = set_heap (<[p := x]> (pz_heap s)) s.
Proof. unfold write_metadata. by intros ->. Qed.

Lemma metadata_set_heap p x h s :
  pathzMetadata s = Some p → metadata (set_heap (<[p := x]> h) s) = x.
Proof. unfold metadata. cbn. intros ->. cbn. by rewrite lookup_insert_eq. Qed.

(** An upload: accepted, or refused with the metadata possibly overwritten. *)
Lemma pathz_process_run p req s s' e :
  plain (fs (pz_world s)) → pointers_ok p s → processRotateRequest req s = (s', e) →
  ∃ h pr w', evolves [pathzV1Policy s] (pz_world s) w' ∧ is_Some (h !! p) ∧
    match e with
    | None =>
        ∃ u, rotate_request req = Upload u ∧
          s' = set_updated true (set_world w' (set_processor pr (set_heap h s))) ∧
          h !! p = Some (metadata_of u) ∧ runs pr (Policy u) ∧
          fs w' !! pathzV1Policy s = Some (Reg (MarshalTextString (Policy u)))
    | Some _ => s' = set_world w' (set_processor pr (set_heap h s)) ∧ pr = pathzProcessor s
    end.
Proof.
  intros Hp (Hp1 & Hp2 & Hp3). unfold processRotateRequest.
  assert (∃ h pr w', evolves [pathzV1Policy s] (pz_world s) w' ∧ is_Some (h !! p) ∧
    s = set_world w' (set_processor pr (set_heap h s)) ∧ pr = pathzProcessor s) as Hsame.
  { exists (pz_heap s), (pathzProcessor s), (pz_world s).
    split_and!; [apply evolves_refl|done|by destruct s|done]. }
  destruct (rotate_request req) as [|u|]; [intros [= <- <-]; exact Hsame| |intros [= <- <-]; exact Hsame].
  destruct (bool_decide (Version u = "")); [intros [= <- <-]; exact Hsame|].
  rewrite bind_ST. cbn. destruct (_ && _); [intros [= <- <-]; exact Hsame|].
  rewrite bind_ST. cbn. rewrite bind_ST. cbn.
  rewrite (write_metadata_eq p _ s) by done. rewrite (write_metadata_eq p) by done.
  rewrite (metadata_set_heap p) by done. cbn. rewrite insert_insert_eq.
  set (h := <[p := _]> (pz_heap s)).
  assert (h !! p = Some (metadata_of u)) as Hh by apply lookup_insert_eq.
  change (set_heap h _) with (set_heap h s).
  rewrite bind_ST. destruct (updatePolicy _ _) as [s1 ok] eqn:Hu.
  apply updatePolicy_run in Hu as (pr & w' & -> & Hev & Hok & _); [|done]. cbn in *.
  destruct ok; intros [= <- <-]; exists h, pr, w'; rewrite Hh; (split_and!; [done..|]); naive_solver.
Qed.

(** ** Commit *)

(** The last upload before the first finalize message. *)
Fixpoint last_upload (acc : option UploadRequest) (evs : list event) : option UploadRequest :=
  match evs with
  | [] => acc
  | RecvError :: _ => acc
  | Received req _ :: evs =>
      match rotate_request req with
      | FinalizeRotation => acc
      | Upload u => last_upload (Some u) evs
      | NoRequest => last_upload acc evs
      end
  end.

(** The upload [u] is active in memory and on disk. *)
Definition active (p : nat) (u : UploadRequest) s : Prop :=
  runs (pathzProcessor s) (Policy u) ∧ pz_heap s !! p = Some (metadata_of u) ∧
  fs (pz_world s) !! pathzV1Policy s = Some (Reg (MarshalTextString (Policy u))).

(** The hash that publishes the active policy. *)
Definition active_key : string := GetKey [credentialsTbl; pathzTbl +:+ pathzPolicyActive].
Definition published (u : UploadRequest) s : Prop :=
  hget (db (pz_world s)) active_key pathzVersionFld = Some (Version u) ∧
  hget (db (pz_world s)) active_key pathzCreatedOnFld = Some (Itoa (CreatedOn u)).

Definition metadata_saved (u : UploadRequest) s : Prop :=
  ∃ buf, EncodeMetadata (metadata_of u) = Some buf ∧
    fs (pz_world s) !! PathzMetaFile s = Some (Reg buf).

(** The three files are different. *)
Definition files_distinct s : Prop :=
  pathzV1Policy s ≠ pathzV1PolicyBackup s ∧ pathzV1Policy s ≠ PathzMetaFile s ∧
  PathzMetaFile s ≠ pathzV1PolicyBackup s.

Lemma publish_run p u s s' e :
  pathzMetadata s = Some p → pz_heap s !! p = Some (metadata_of u) →
  writePathzMetadataToDB pathzPolicyActive s = (s', e) →
  ∃ w', s' = set_world w' s ∧ fs w' = fs (pz_world s) ∧
    (quiet (pz_world s) → quiet w' ∧ e = None) ∧ (e = None → published u s').
Proof.
  intros Hp Hh. unfold writePathzMetadataToDB, try_. rewrite !bind_ST. cbn.
  assert (metadata s = metadata_of u) as -> by (unfold metadata; by rewrite Hp; cbn; rewrite Hh).
  rewrite bind_ST, pathz_lift_run.
  destruct (writeCredentialsMetadataToDB _ _ _ _ (pz_world s)) as [w1 e1] eqn:H1.
  apply writeCredentials_run in H1 as (Hfs1 & Hq1 & Hdb1).
  destruct e1 as [e1|]. { intros [= <- <-]. exists w1. naive_solver. }
  rewrite pathz_lift_run. cbn. destruct (writeCredentialsMetadataToDB _ _ _ _ w1) as [w2 e2] eqn:H2.
  apply writeCredentials_run in H2 as (Hfs2 & Hq2 & Hdb2). intros [= <- <-].
  exists w2. split_and!; [by destruct s|congruence|naive_solver|]. intros ->.
  unfold published. cbn. rewrite Hdb2, Hdb1. fold active_key. split.
  - rewrite hget_hset_field_ne by done. apply hget_hset_eq.
  - apply hget_hset_eq.
Qed.

(** The finalize turn of the loop. *)
Lemma finalize_run p u s s' e :
  plain (fs (pz_world s)) → files_distinct s → pathzMetadata s = Some p → active p u s →
  (try_ commitChanges (λ _, mret (Some Aborted))
     (backup ← gets pathzV1PolicyBackup; _ ← lift (os_Remove backup); mret None)) s = (s', e) →
  pathzProcessor s' = pathzProcessor s ∧
  (e = None → active p u s' ∧ published u s' ∧ metadata_saved u s') ∧
  (quiet (pz_world s) → is_Some (EncodeMetadata (metadata_of u)) → e = None).
Proof.
  intros Hp (Hd1 & Hd2 & Hd3) Hmd (Hruns & Hh & Hfile).
  unfold try_. rewrite bind_ST. unfold commitChanges, try_. rewrite bind_ST.
  destruct (writePathzMetadataToDB _ s) as [s1 e1] eqn:H1.
  apply (publish_run p u) in H1 as (w1 & -> & Hfs1 & Hq1 & Hpub); [|done..].
  destruct e1 as [e1|]. { intros [= <- <-]. split_and!; [done..|]. intros Hq. naive_solver. }
  rewrite bind_ST. cbn. unfold savePathzFileFreshess. rewrite bind_ST. cbn.
  assert (metadata (set_world w1 s) = metadata_of u) as ->
    by (unfold metadata; cbn; by rewrite Hmd; cbn; rewrite Hh).
  destruct (EncodeMetadata (metadata_of u)) as [buf|] eqn:Henc.
  2: { intros [= <- <-]. split_and!; [done..|]. by intros _ [? [=]]. }
  rewrite pathz_lift_run. cbn. destruct (attemptWrite _ _ w1) as [w2 e2] eqn:H2.
  apply attemptWrite_run in H2 as (Hev2 & Hfs2 & Hq2); [|by rewrite Hfs1].
  destruct e2 as [e2|]. { intros [= <- <-]. split_and!; [done..|]. intros Hq. naive_solver. }
  rewrite bind_ST. cbn. rewrite bind_ST, pathz_lift_run. cbn.
  destruct (os_Remove _ w2) as [w3 e3] eqn:H3. apply Remove_run in H3 as (Hev3 & _).
  intros [= <- <-]. specialize (Hfs2 eq_refl). rewrite Hfs1 in Hfs2.
  split_and!; [done| |done]. intros _. unfold active, published, metadata_saved. cbn.
  rewrite !(ev_keep _ _ _ Hev3) by set_solver. rewrite Hfs2, lookup_insert_eq, lookup_insert_ne by done.
  split; [done|]. split; [|by eexists].
  rewrite (ev_db _ _ _ Hev3), (ev_db _ _ _ Hev2). by apply Hpub.
Qed.

(** Before the loop and between its turns. *)
Definition between (p : nat) (acc : option UploadRequest) s : Prop :=
  plain (fs (pz_world s)) ∧ files_distinct s ∧ pointers_ok p s ∧
  (policyUpdated s = true → ∃ u, acc = Some u ∧ active p u s).

Lemma between_step p acc req s s' :
  between p acc s → processRotateRequest req s = (s', None) →
  ∃ u, rotate_request req = Upload u ∧ between p (Some u) s'.
Proof.
  intros (Hp & Hd & Hptr & _) Hr.
  apply (pathz_process_run p) in Hr as (h & pr & w' & Hev & Hh & u & Hu & -> & Hhp & Hrun & Hfile); [|done..].
  exists u. split; [done|]. destruct Hptr as (? & ? & ?).
  split_and!; cbn; [by apply (ev_plain _ _ _ Hev)|done|done|].
  intros _. exists u. by split_and!.
Qed.

Lemma pathz_rotate_loop_commit p evs acc s s' :
  between p acc s → rotate_loop evs s = (s', None) →
  ∃ u, last_upload acc evs = Some u ∧ active p u s' ∧ published u s' ∧ metadata_saved u s'.
Proof.
  revert acc s. induction evs as [|[|req sent] evs IH]; intros acc s Hb; cbn [rotate_loop last_upload].
  - rewrite bind_ST. by destruct (revertPolicy s).
  - rewrite bind_ST. by destruct (revertPolicy s).
  - assert (∀ acc', (try_ (processRotateRequest req) (λ code, _ ← revertPolicy; mret (Some code))
        (if sent then rotate_loop evs else _ ← revertPolicy; mret (Some Aborted))) s = (s', None) →
        (∀ u, rotate_request req = Upload u → acc' = Some u) →
        ∃ u, last_upload acc' evs = Some u ∧ active p u s' ∧ published u s' ∧ metadata_saved u s') as Hproc.
    { intros acc' Hrun Hacc. unfold try_ in Hrun. rewrite bind_ST in Hrun.
      destruct (processRotateRequest req s) as [s1 [c|]] eqn:H1.
      { rewrite bind_ST in Hrun. by destruct (revertPolicy s1). }
      eapply between_step in H1 as (u & Hu & Hb1); [|done]. rewrite (Hacc u Hu).
      destruct sent; [by eapply IH|]. rewrite bind_ST in Hrun. by destruct (revertPolicy s1). }
    destruct (rotate_request req) as [|u|]; [|intros Hrun; apply (Hproc _ Hrun); by intros ? [= <-]..].
    rewrite bind_ST. cbn. destruct Hb as (Hp & Hd & Hptr & Hacc).
    destruct (policyUpdated s) eqn:Hup; [|rewrite bind_ST; by destruct (revertPolicy s)].
    destruct (Hacc eq_refl) as (u & -> & Hact). intros Hfin. exists u. split; [done|].
    eapply finalize_run in Hfin as (_ & Hcommit & _); [|done..|by destruct Hptr|done].
    by apply Hcommit.
Qed.

Lemma create_run p s s' e :
  plain (fs (pz_world s)) → files_distinct s → pathzMetadata s = Some p → is_Some (pz_heap s !! p) →
  createCheckpoint s = (s', e) →
  between p None s' ∧ policyUpdated s' = false ∧ pathzProcessor s' = pathzProcessor s ∧
  policyCopy s' = GetPolicy (pathzProcessor s) ∧ pathzV1Policy s' = pathzV1Policy s ∧
  pathzV1PolicyBackup s' = pathzV1PolicyBackup s ∧ pz_heap s' = pz_heap s ∧
  evolves [pathzV1PolicyBackup s; temp_name (pathzV1PolicyBackup s) (fs (pz_world s))]
          (pz_world s) (pz_world s') ∧
  (quiet (pz_world s) → ∀ d, fs (pz_world s) !! pathzV1Policy s = Some (Reg d) →
     e = None ∧ fs (pz_world s') = <[pathzV1PolicyBackup s := Reg d]> (fs (pz_world s))).
Proof.
  intros Hp Hd Hmd Hh. unfold createCheckpoint. do 5 (rewrite bind_ST; cbn). rewrite pathz_lift_run. cbn.
  destruct (copyFile _ _ _) as [w1 e1] eqn:Hc.
  apply copyFile_run in Hc as (Hev & _ & Hq); [|done]. intros [= <- <-].
  split; [|by split_and!]. split_and!; cbn; try done. by apply (ev_plain _ _ _ Hev).
Qed.

(** C8. Commit: whatever calls fail on the way, a rotation that returns no
    error leaves the last policy uploaded before the finalize message running
    in the processor, its text in the policy file, its version and creation
    time in the metadata in memory, in the metadata file and in the database. *)
Theorem rotate_commits p evs s s' :
  plain (fs (pz_world s)) → files_distinct s →
  pathzMetadata s = Some p → is_Some (pz_heap s !! p) →
  Rotate None false evs s = (s', None) →
  ∃ u, last_upload None evs = Some u ∧ active p u s' ∧ published u s' ∧ metadata_saved u s'.
Proof.
  intros Hp Hd Hmd Hh. unfold Rotate, try_. rewrite !bind_ST. cbn. rewrite bind_ST, pathz_lift_run.
  destruct (fileCheck _ _) as [w1 [e1|]] eqn:H1; [done|].
  apply fileCheck_run in H1 as (Hev1 & Hfs1 & _). rewrite bind_ST.
  destruct (createCheckpoint _) as [s2 [e2|]] eqn:H2; [done|].
  apply (create_run p) in H2 as (Hb & _); [|cbn; by rewrite Hfs1|done..].
  by apply pathz_rotate_loop_commit.
Qed.

(** ** Abort *)

Lemma restore_run s s' b :
  pathzV1Policy s ≠ pathzV1PolicyBackup s → restore_files s = (s', b) →
  pathzProcessor s' = pathzProcessor s ∧ pz_heap s' = pz_heap s ∧
  pathzMetadata s' = pathzMetadataCopy s ∧ pathzV1Policy s' = pathzV1Policy s ∧
  (files_distinct s → files_distinct s') ∧
  (quiet (pz_world s) → quiet (pz_world s')) ∧ (plain (fs (pz_world s)) → plain (fs (pz_world s'))) ∧
  ∀ d, quiet (pz_world s) → fs (pz_world s) !! pathzV1PolicyBackup s = Some (Reg d) →
    fs (pz_world s') = <[pathzV1Policy s := Reg d]> (delete (pathzV1PolicyBackup s) (fs (pz_world s))).
Proof.
  intros Hne. unfold restore_files. do 3 (rewrite bind_ST; cbn). rewrite bind_ST, pathz_lift_run. cbn.
  destruct (Rename _ _ _) as [w1 e1] eqn:H1. apply Rename_run in H1 as (Hev & Hfs & _ & _ & Hq); [|done].
  intros [= <- <-]. split_and!; [done..|apply Hev|apply Hev|]. intros d Hquiet Hd. cbn. apply Hfs; [|done]. by apply Hq.
Qed.

Lemma pathz_revert_run pr0 s s' b :
  pathzV1Policy s ≠ pathzV1PolicyBackup s → runs pr0 (policyCopy s) →
  (policyUpdated s = false → pathzProcessor s = pr0) → revertPolicy s = (s', b) →
  pathzProcessor s' = pr0 ∧ pz_heap s' = pz_heap s ∧ pathzMetadata s' = pathzMetadataCopy s ∧
  pathzV1Policy s' = pathzV1Policy s ∧ (files_distinct s → files_distinct s') ∧
  (quiet (pz_world s) → quiet (pz_world s')) ∧ (plain (fs (pz_world s)) → plain (fs (pz_world s'))) ∧
  ∀ d, quiet (pz_world s) → fs (pz_world s) !! pathzV1PolicyBackup s = Some (Reg d) →
    fs (pz_world s') = <[pathzV1Policy s := Reg d]> (delete (pathzV1PolicyBackup s) (fs (pz_world s))).
Proof.
  intros Hne Hr Hup. unfold revertPolicy. rewrite bind_ST. cbn. destruct (policyUpdated s).
  - rewrite bind_ST. cbn. rewrite bind_ST. cbn. rewrite bind_ST, (runs_update pr0) by done.
    intros (-> & Hrest)%restore_run; done.
  - rewrite <- Hup by done. by intros ?%restore_run.
Qed.

(** A processor that has a policy runs it: what [UpdatePolicyFromProto] leaves,
    and the processor of a new server. *)
Definition processor_ok (pr : GnmiAuthzProcessor) : Prop := proc_policy pr = None ∨ runs pr (proc_policy pr).

(** What the loop keeps: the policy to go back to and, where no call fails
    ([Q]), the checkpoint [d0] of the policy file and every other file of
    [m0]. *)
Record checkpointed (Q : Prop) (p : nat) (pr0 : GnmiAuthzProcessor) (m0 : gmap string inode) (d0 : string) s : Prop := {
  cp_plain : plain (fs (pz_world s));
  cp_files : files_distinct s;
  cp_ptr : pointers_ok p s;
  cp_ok : processor_ok pr0;
  cp_copy : policyCopy s = proc_policy pr0;
  cp_same : policyUpdated s = false → pathzProcessor s = pr0;
  cp_quiet : Q → quiet (pz_world s);
  cp_backup : Q → fs (pz_world s) !! pathzV1PolicyBackup s = Some (Reg d0);
  cp_rest : Q → ∀ q, q ≠ pathzV1Policy s → q ≠ pathzV1PolicyBackup s → fs (pz_world s) !! q = m0 !! q
}.

(** The old policy runs and, where no call fails, every file is as before. *)
Definition restored (Q : Prop) (pr0 : GnmiAuthzProcessor) (file backup : string) (m0 : gmap string inode)
    (d0 : string) s : Prop :=
  pathzProcessor s = pr0 ∧
  (Q → fs (pz_world s) !! file = Some (Reg d0) ∧ fs (pz_world s) !! backup = None ∧
       ∀ q, q ≠ file → q ≠ backup → fs (pz_world s) !! q = m0 !! q).

(** There was no policy to go back to, and the last one accepted runs. *)
Definition nothing_before (pr0 : GnmiAuthzProcessor) (u : UploadRequest) s : Prop :=
  proc_policy pr0 = None ∧ runs (pathzProcessor s) (Policy u).

Lemma checkpointed_revert Q p pr0 m0 d0 acc s s' b :
  checkpointed Q p pr0 m0 d0 s → (policyUpdated s = true → ∃ u, acc = Some u ∧ runs (pathzProcessor s) (Policy u)) →
  revertPolicy s = (s', b) →
  restored Q pr0 (pathzV1Policy s) (pathzV1PolicyBackup s) m0 d0 s' ∨ ∃ u, acc = Some u ∧ nothing_before pr0 u s'.
Proof.
  intros [Hp (Hd & _) _ Hok Hcp Hs Hq Hb Hm] Hacc Hrun.
  assert (policyUpdated s = false ∨ runs pr0 (policyCopy s) →
    restored Q pr0 (pathzV1Policy s) (pathzV1PolicyBackup s) m0 d0 s') as Hback.
  { intros Hcase. assert (∃ s1, restore_files s1 = (s', b) ∧ pathzProcessor s1 = pr0 ∧ pathzV1Policy s1 = pathzV1Policy s ∧
      pathzV1PolicyBackup s1 = pathzV1PolicyBackup s ∧ pz_world s1 = pz_world s) as (s1 & H1 & Hpr & Hf & Hbk & Hw).
    { revert Hrun. unfold revertPolicy. rewrite bind_ST. cbn. destruct (policyUpdated s) eqn:Hup.
      - destruct Hcase as [|Hr]; [done|]. rewrite bind_ST. cbn. rewrite bind_ST. cbn.
        rewrite bind_ST, (runs_update pr0) by done. intros Hr'. eexists. by split.
      - intros Hr'. exists s. split_and!; auto. }
    apply restore_run in H1 as (Hpr' & _ & _ & _ & _ & _ & _ & Hfs); [|congruence].
    split; [congruence|]. intros HQ. rewrite Hf, Hbk, Hw in Hfs. rewrite (Hfs d0 (Hq HQ) (Hb HQ)). split_and!.
    - apply lookup_insert_eq.
    - by rewrite lookup_insert_ne, lookup_delete_eq.
    - intros q H1 H2. rewrite lookup_insert_ne, lookup_delete_ne by done. auto. }
  destruct Hok as [Hnone|Hr]; [|left; apply Hback; right; by rewrite Hcp].
  destruct (policyUpdated s) eqn:Hup; [|left; by apply Hback; left].
  destruct (Hacc eq_refl) as (u & -> & Hact). right. exists u. split; [done|]. split; [done|].
  revert Hrun. unfold revertPolicy. rewrite bind_ST. cbn. rewrite Hup, bind_ST. cbn. rewrite bind_ST. cbn.
  rewrite bind_ST, Hcp, Hnone. cbn. rewrite !bind_ST. cbn. rewrite bind_ST, pathz_lift_run. cbn.
  destruct (os_Remove _ _) as [w1 e1]. by intros [= <- <-].
Qed.

Lemma pathz_checkpointed_process Q p pr0 m0 d0 req s s' e :
  checkpointed Q p pr0 m0 d0 s → processRotateRequest req s = (s', e) →
  checkpointed Q p pr0 m0 d0 s' ∧ pathzV1Policy s' = pathzV1Policy s ∧
  pathzV1PolicyBackup s' = pathzV1PolicyBackup s ∧
  match e with
  | None => ∃ u, rotate_request req = Upload u ∧ active p u s'
  | Some _ => pathzProcessor s' = pathzProcessor s ∧ policyUpdated s' = policyUpdated s
  end.
Proof.
  intros [Hp Hd Hptr Hok Hcp Hs Hq Hb Hm] Hrun.
  apply (pathz_process_run p) in Hrun as (h & pr & w' & Hev & Hh & He); [|done..].
  destruct Hd as (Hd1 & Hd2 & Hd3), Hptr as (? & ? & ?).
  assert (∀ q, q ≠ pathzV1Policy s → fs w' !! q = fs (pz_world s) !! q) as Hkeep.
  { intros q Hqq. apply (ev_keep _ _ _ Hev). set_solver. }
  destruct e as [c|].
  - destruct He as (-> & ->). split; [|done]. split; cbn; try done;
      [by apply (ev_plain _ _ _ Hev)|intros HQ; by apply (ev_quiet _ _ _ Hev), Hq|intros HQ; rewrite Hkeep by done; auto|].
    intros HQ q Hq1 Hq2. rewrite Hkeep by done. auto.
  - destruct He as (u & Hu & -> & Hhp & Hrun & Hfile). split_and!; [|done..|].
    + split; cbn; try done;
        [by apply (ev_plain _ _ _ Hev)|intros HQ; by apply (ev_quiet _ _ _ Hev), Hq|intros HQ; rewrite Hkeep by done; auto|].
      intros HQ q Hq1 Hq2. rewrite Hkeep by done. auto.
    + exists u. by split_and!.
Qed.

(** Whether a finalize message is reached. *)
Fixpoint finalizes (evs : list event) : bool :=
  match evs with
  | [] | RecvError :: _ => false
  | Received req _ :: evs => match rotate_request req with FinalizeRotation => true | _ => finalizes evs end
  end.

(** The client finalized [u] and the commit failed, which is not reverted;
    where no call fails, because the metadata cannot be encoded. *)
Definition commit_failed (Q : Prop) (evs : list event) (u : UploadRequest) s : Prop :=
  finalizes evs = true ∧ runs (pathzProcessor s) (Policy u) ∧ (Q → EncodeMetadata (metadata_of u) = None).

(** The uploads of a stream up to its finalize message. *)
Fixpoint uploads (evs : list event) : list UploadRequest :=
  match evs with
  | [] | RecvError :: _ => []
  | Received req _ :: evs =>
      match rotate_request req with
      | FinalizeRotation => []
      | Upload u => u :: uploads evs
      | NoRequest => uploads evs
      end
  end.

Lemma active_runs p acc s :
  (∃ u, acc = Some u ∧ active p u s) → ∃ u, acc = Some u ∧ runs (pathzProcessor s) (Policy u).
Proof. intros (u & -> & Hact & _). by exists u. Qed.

Lemma pathz_rotate_loop_abort Q p pr0 m0 d0 evs acc s s' c :
  checkpointed Q p pr0 m0 d0 s → (policyUpdated s = true → ∃ u, acc = Some u ∧ active p u s) →
  rotate_loop evs s = (s', Some c) →
  restored Q pr0 (pathzV1Policy s) (pathzV1PolicyBackup s) m0 d0 s' ∨
  (∃ u, last_upload acc evs = Some u ∧ commit_failed Q evs u s') ∨
  (∃ u, u ∈ option_list acc ++ uploads evs ∧ nothing_before pr0 u s').
Proof.
  revert acc s. induction evs as [|[|req sent] evs IH]; intros acc s Hc Hacc; cbn [rotate_loop];
    pose proof (λ H, active_runs p acc s (Hacc H)) as Hrs.
  - rewrite bind_ST. destruct (revertPolicy s) eqn:Hr. intros [= <- <-].
    eapply (checkpointed_revert Q p pr0 m0 d0 acc) in Hr as [?|(u & -> & ?)]; [auto| |done..]. right. right. exists u. split; [by left|done].
  - rewrite bind_ST. destruct (revertPolicy s) eqn:Hr. intros [= <- <-].
    eapply (checkpointed_revert Q p pr0 m0 d0 acc) in Hr as [?|(u & -> & ?)]; [auto| |done..]. right. right. exists u. split; [by left|done].
  - assert (rotate_request req ≠ FinalizeRotation → (try_ (processRotateRequest req) (λ code, _ ← revertPolicy; mret (Some code))
        (if sent then rotate_loop evs else _ ← revertPolicy; mret (Some Aborted))) s = (s', Some c) →
        restored Q pr0 (pathzV1Policy s) (pathzV1PolicyBackup s) m0 d0 s' ∨
        (∃ u, last_upload acc (Received req sent :: evs) = Some u ∧ commit_failed Q (Received req sent :: evs) u s') ∨
        (∃ u, u ∈ option_list acc ++ uploads (Received req sent :: evs) ∧ nothing_before pr0 u s')) as Hproc.
    { intros Hnf. unfold try_. rewrite bind_ST. destruct (processRotateRequest req s) as [s1 e1] eqn:H1.
      apply (pathz_checkpointed_process Q p pr0 m0 d0) in H1 as (Hc1 & Hf & Hbk & He); [|done]. rewrite <- Hf, <- Hbk.
      destruct e1 as [c1|].
      { destruct He as [Hpr Hup]. rewrite bind_ST. destruct (revertPolicy s1) eqn:Hr. intros [= <- <-].
        eapply (checkpointed_revert Q p pr0 m0 d0 acc) in Hr as [?|(u & -> & ?)]; [auto| |done|].
        - right. right. exists u. split; [by left|done].
        - rewrite Hup. intros Hu. destruct (Hacc Hu) as (u & -> & Hact). exists u. split; [done|].
          rewrite Hpr. apply Hact. }
      destruct He as (u & Hu & Hact). destruct sent.
      - intros Hl. apply (IH (Some u)) in Hl as [?|[(u' & Hlu & Hcf)|(u' & Hin & Hnb)]]; [auto| | |done|by eauto].
        + right. left. exists u'. unfold commit_failed. cbn. by rewrite Hu.
        + right. right. exists u'. cbn. rewrite Hu. split; [|done]. rewrite elem_of_app in *. cbn in Hin. set_solver.
      - rewrite bind_ST. destruct (revertPolicy s1) eqn:Hr. intros [= <- <-].
        eapply (checkpointed_revert Q p pr0 m0 d0 (Some u)) in Hr as [?|(u' & [= <-] & ?)]; [auto| |done|].
        2: { intros _. exists u. split; [done|apply Hact]. }
        right. right. exists u. cbn. rewrite Hu. split; [set_solver|done]. }
    destruct (rotate_request req) as [|u|] eqn:Hreq; [|by apply Hproc..].
    rewrite bind_ST. cbn. destruct (policyUpdated s) eqn:Hup.
    + destruct (Hacc eq_refl) as (u & -> & Hact). intros Hfin. destruct Hc as [Hp Hd (Hmd & _) _ _ _ Hq _ _].
      eapply finalize_run in Hfin as (Hpr & _ & Hok); [|done..]. right. left. exists u.
      unfold commit_failed. cbn. rewrite Hreq. split; [done|]. split_and!; [done|rewrite Hpr; apply Hact|].
      intros HQ. destruct (EncodeMetadata (metadata_of u)) eqn:He; [|done]. by specialize (Hok (Hq HQ) (mk_is_Some _ _ eq_refl)).
    + rewrite bind_ST. destruct (revertPolicy s) eqn:Hr. intros [= <- <-].
      eapply (checkpointed_revert Q p pr0 m0 d0 acc) in Hr as [?|(u & -> & ?)]; [auto| |done|by rewrite Hup].
      right. right. exists u. split; [by left|done].
Qed.

(** The start of a rotation when nothing fails. *)
Lemma rotate_start p evs d0 s :
  quiet (pz_world s) → plain (fs (pz_world s)) → files_distinct s →
  pathzMetadata s = Some p → is_Some (pz_heap s !! p) →
  fs (pz_world s) !! pathzV1Policy s = Some (Reg d0) →
  ∃ s1, Rotate None false evs s = rotate_loop evs s1 ∧ quiet (pz_world s1) ∧ between p None s1 ∧
    policyUpdated s1 = false ∧ pathzProcessor s1 = pathzProcessor s ∧
    policyCopy s1 = GetPolicy (pathzProcessor s) ∧ pz_heap s1 = pz_heap s ∧
    pathzV1Policy s1 = pathzV1Policy s ∧ pathzV1PolicyBackup s1 = pathzV1PolicyBackup s ∧
    fs (pz_world s1) = <[pathzV1PolicyBackup s := Reg d0]> (fs (pz_world s)).
Proof.
  intros Hq Hp Hd Hmd Hh Hd0. unfold Rotate, try_. rewrite !bind_ST. cbn.
  rewrite bind_ST, pathz_lift_run.
  destruct (fileCheck_quiet (pz_world s) (pathzV1Policy s) d0 Hq Hd0) as (w1 & -> & Hfs1 & Hq1).
  cbn. rewrite bind_ST. destruct (createCheckpoint _) as [s2 e2] eqn:H2.
  apply (create_run p) in H2 as (Hb & Hup & Hpr & Hcopy & Hf & Hbk & Hhp & Hev & Hq2);
    [|cbn; by rewrite Hfs1|done..].
  cbn in *. rewrite Hfs1 in *. destruct (Hq2 Hq1 d0 Hd0) as (-> & Hfs2).
  exists s2. split_and!; try done. by apply (ev_quiet _ _ _ Hev).
Qed.

(** C2. Abort: of a rotation that was let in and returns an error there are
    three endings.  Either the processor runs the policy it ran before, whatever
    outside calls failed, and if none fails the policy file has the content it
    had, there is no backup, and every other file is untouched.  Or the client
    finalized and the commit itself failed, which is not reverted: the last
    upload stays in force; without failing calls this needs metadata that cannot
    be encoded.  Or there was no policy before: then an uploaded policy stays in
    force. *)
Theorem rotate_abort_restores p evs d0 s s' c :
  plain (fs (pz_world s)) → files_distinct s → pathzMetadata s = Some p → is_Some (pz_heap s !! p) →
  processor_ok (pathzProcessor s) →
  Rotate None false evs s = (s', Some c) →
  let Q := quiet (pz_world s) ∧ fs (pz_world s) !! pathzV1Policy s = Some (Reg d0) in
  restored Q (pathzProcessor s) (pathzV1Policy s) (pathzV1PolicyBackup s) (fs (pz_world s)) d0 s' ∨
  (∃ u, last_upload None evs = Some u ∧ commit_failed Q evs u s') ∨
  (∃ u, u ∈ uploads evs ∧ nothing_before (pathzProcessor s) u s').
Proof.
  intros Hp Hd Hmd Hh Hok. unfold Rotate, try_. rewrite !bind_ST. cbn. rewrite bind_ST, pathz_lift_run.
  destruct (fileCheck _ _) as [w1 e1] eqn:H1. pose proof H1 as Hfc. apply fileCheck_run in H1 as (Hev1 & Hfs1 & _).
  destruct e1 as [e1|].
  { intros [= <- <-]. left. split; [done|]. intros [Hq Hd0].
    destruct (fileCheck_quiet (pz_world s) (pathzV1Policy s) d0 Hq Hd0) as (w2 & H2 & _). congruence. }
  rewrite bind_ST. destruct (createCheckpoint _) as [s2 e2] eqn:H2.
  apply (create_run p) in H2 as ((Hp2 & Hd2 & Hptr & _) & Hup & Hpr & Hcopy & Hf & Hbk & _ & Hev2 & Hq2);
    [|cbn; by rewrite Hfs1|done..].
  cbn in *. rewrite Hfs1 in *. destruct e2 as [e2|].
  { intros [= <- <-]. left. split; [done|]. intros [Hq Hd0].
    destruct (Hq2 (ev_quiet _ _ _ Hev1 Hq) d0 Hd0) as [? _]. done. }
  intros Hloop. rewrite <- Hf, <- Hbk.
  eapply (pathz_rotate_loop_abort (quiet (pz_world s) ∧ fs (pz_world s) !! pathzV1Policy s2 = Some (Reg d0))
    p (pathzProcessor s) (fs (pz_world s)) d0 evs None) in Hloop; [exact Hloop|split; try done| ].
  - intros [Hq _]. by apply (ev_quiet _ _ _ Hev2), (ev_quiet _ _ _ Hev1).
  - intros [Hq Hd0]. destruct (Hq2 (ev_quiet _ _ _ Hev1 Hq) d0) as [_ ->]; [by rewrite <- Hf|].
    by rewrite Hbk, lookup_insert_eq.
  - intros [Hq Hd0] q _ Hqb. destruct (Hq2 (ev_quiet _ _ _ Hev1 Hq) d0) as [_ ->]; [by rewrite <- Hf|].
    by rewrite lookup_insert_ne by congruence.
  - by rewrite Hup.
Qed.

(** ** What an abort does not undo *)

Definition upload (u : UploadRequest) : RotateRequest :=
  {| rotate_request := Upload u; ForceOverwrite := false |}.

Lemma process_accepts p u s x :
  plain (fs (pz_world s)) → quiet (pz_world s) → pointers_ok p s →
  Version u ≠ "" → PathzVersion (metadata s) ≠ Version u → createNewPolicy (Policy u) = Ok x →
  ∃ s', processRotateRequest (upload u) s = (s', None).
Proof.
  intros Hp Hq (Hp1 & _) Hv Hne Hx. unfold processRotateRequest. cbn.
  rewrite bool_decide_false by done. rewrite bind_ST. cbn.
  rewrite bool_decide_false by done. cbn. rewrite bind_ST. cbn. rewrite bind_ST. cbn.
  rewrite (write_metadata_eq p _ s) by done. rewrite (write_metadata_eq p) by done.
  rewrite bind_ST. destruct (updatePolicy _ _) as [s1 ok] eqn:Hu.
  apply updatePolicy_run in Hu as (pr & w' & _ & _ & _ & Hok); [|done].
  rewrite (Hok Hq x Hx). by eexists.
Qed.

Lemma process_rejects u s :
  Version u ≠ "" → PathzVersion (metadata s) = Version u →
  processRotateRequest (upload u) s = (s, Some AlreadyExists).
Proof.
  intros Hv Heq. unfold processRotateRequest. cbn. rewrite bool_decide_false by done.
  rewrite bind_ST. cbn. by rewrite bool_decide_true.
Qed.

Lemma metadata_eq p s md : pathzMetadata s = Some p → pz_heap s !! p = Some md → metadata s = md.
Proof. intros Hp Hh. unfold metadata. rewrite Hp. cbn. by rewrite Hh. Qed.

(** A rotation of one accepted upload whose stream then ends. *)
Lemma upload_then_end p d0 u x s :
  quiet (pz_world s) → plain (fs (pz_world s)) → files_distinct s →
  pathzMetadata s = Some p → is_Some (pz_heap s !! p) →
  fs (pz_world s) !! pathzV1Policy s = Some (Reg d0) →
  Version u ≠ "" → PathzVersion (metadata s) ≠ Version u → createNewPolicy (Policy u) = Ok x →
  ∃ s1 w, Rotate None false [Received (upload u) true] s
      = (let '(s2, _) := revertPolicy s1 in (s2, Some Aborted)) ∧
    policyUpdated s1 = true ∧ policyCopy s1 = GetPolicy (pathzProcessor s) ∧
    runs (pathzProcessor s1) (Policy u) ∧ pz_heap s1 !! p = Some (metadata_of u) ∧
    pathzMetadata s1 = Some p ∧ pathzMetadataCopy s1 = Some p ∧
    pathzV1Policy s1 = pathzV1Policy s ∧ pathzV1PolicyBackup s1 = pathzV1PolicyBackup s ∧
    files_distinct s1 ∧ pz_world s1 = w ∧ quiet w ∧ plain (fs w) ∧
    fs w !! pathzV1PolicyBackup s = Some (Reg d0) ∧
    fs w !! pathzV1Policy s = Some (Reg (MarshalTextString (Policy u))).
Proof.
  intros Hq Hp Hd Hmd Hh Hd0 Hv Hne Hx.
  destruct (rotate_start p [Received (upload u) true] d0 s) as (s1 & -> & Hq1 & (Hp1 & Hd1 & Hptr & _)
    & Hup & Hpr & Hcopy & Hhp & Hf & Hbk & Hfs); [done..|].
  cbn [rotate_loop upload rotate_request]. unfold try_. rewrite bind_ST.
  assert (metadata s1 = metadata s) as Hmeq.
  { destruct Hh as [md Hh]. by rewrite !(metadata_eq p _ md); try done; [apply Hptr|rewrite Hhp]. }
  destruct (process_accepts p u s1 x) as [s2 H2]; [done..|by rewrite Hmeq|done|].
  rewrite H2. apply (pathz_process_run p) in H2 as (h & pr & w' & Hev & _ & u' & Hu & -> & Hhu & Hrun & Hfile);
    [|done..]. injection Hu as <-. destruct Hptr as (? & ? & ?).
  eexists _, w'. split; [by rewrite bind_ST|]. cbn. rewrite <- Hf, <- Hbk.
  split_and!; try done; [by apply (ev_quiet _ _ _ Hev)|by apply (ev_plain _ _ _ Hev)|].
  rewrite (ev_keep _ _ _ Hev); [by rewrite Hfs, Hbk, lookup_insert_eq|].
  rewrite list_elem_of_singleton. intros Heq. by destruct Hd1.
Qed.

(** An abort does not undo the metadata: after a rotation that uploads a
    good policy and is then cut off, the old policy runs again but the version
    in memory stays the one of the upload, so that uploading the same policy
    again is refused as already existing. *)
Theorem aborted_version_sticks p pol d0 u x s :
  quiet (pz_world s) → plain (fs (pz_world s)) → files_distinct s →
  pathzMetadata s = Some p → is_Some (pz_heap s !! p) →
  runs (pathzProcessor s) pol → fs (pz_world s) !! pathzV1Policy s = Some (Reg d0) →
  Version u ≠ "" → PathzVersion (metadata s) ≠ Version u → createNewPolicy (Policy u) = Ok x →
  ∃ s1 s2, Rotate None false [Received (upload u) true] s = (s1, Some Aborted) ∧
    pathzProcessor s1 = pathzProcessor s ∧ PathzVersion (metadata s1) = Version u ∧
    Rotate None false [Received (upload u) true] s1 = (s2, Some AlreadyExists).
Proof.
  intros Hq Hp Hd Hmd Hh Hr Hd0 Hv Hne Hx.
  destruct (upload_then_end p d0 u x s) as (s1 & w & -> & Hup & Hcopy & Hrun & Hhp & Hm1 & Hc1
    & Hf & Hbk & Hd1 & Hw & Hqw & Hpw & Hb & Hfile); [done..|].
  destruct (revertPolicy s1) as [s2 b] eqn:Hrev. subst w.
  apply (pathz_revert_run (pathzProcessor s)) in Hrev as
    (Hpr & Hheap & Hptr & Hfe & Hd2 & Hq2 & Hp2 & Hfs); [|apply Hd1| |by rewrite Hup].
  2: { rewrite Hcopy. destruct Hr as (root & grps & Hcr & ->). cbn. by exists root, grps. }
  rewrite <- Hbk in Hb. specialize (Hfs d0 Hqw Hb).
  destruct (rotate_start p [Received (upload u) true] d0 s2)
    as (s3 & Hrot & _ & (_ & _ & Hptr3 & _) & _ & _ & _ & Hh3 & _); [auto..| | |].
  { congruence. } { by rewrite Hheap, Hhp. } { by rewrite Hfe, Hfs, lookup_insert_eq. }
  assert (metadata s3 = metadata_of u) as Hm3.
  { apply (metadata_eq p); [apply Hptr3|]. by rewrite Hh3, Hheap. }
  exists s2, (revertPolicy s3).1. split_and!; [done|done| |].
  - rewrite (metadata_eq p _ (metadata_of u)); [done|congruence|by rewrite Hheap].
  - rewrite Hrot. cbn [rotate_loop upload rotate_request]. unfold try_. rewrite bind_ST.
    rewrite process_rejects; [|done|by rewrite Hm3]. rewrite bind_ST. by destruct (revertPolicy s3).
Qed.

(** A first policy cannot be taken back: when no policy was active, a
    rotation that uploads a good policy and is then cut off returns an error
    and leaves the uploaded policy running and saved, and the backup gone. *)
Theorem first_policy_not_reverted p d0 u x s :
  quiet (pz_world s) → plain (fs (pz_world s)) → files_distinct s →
  pathzMetadata s = Some p → is_Some (pz_heap s !! p) →
  GetPolicy (pathzProcessor s) = None → fs (pz_world s) !! pathzV1Policy s = Some (Reg d0) →
  Version u ≠ "" → PathzVersion (metadata s) ≠ Version u → createNewPolicy (Policy u) = Ok x →
  ∃ s1, Rotate None false [Received (upload u) true] s = (s1, Some Aborted) ∧
    runs (pathzProcessor s1) (Policy u) ∧
    fs (pz_world s1) !! pathzV1Policy s = Some (Reg (MarshalTextString (Policy u))) ∧
    fs (pz_world s1) !! pathzV1PolicyBackup s = None.
Proof.
  intros Hq Hp Hd Hmd Hh Hnone Hd0 Hv Hne Hx.
  destruct (upload_then_end p d0 u x s) as (s1 & w & -> & Hup & Hcopy & Hrun & Hhp & Hm1 & Hc1
    & Hf & Hbk & Hd1 & Hw & Hqw & Hpw & Hb & Hfile); [done..|].
  unfold revertPolicy. rewrite bind_ST. cbn. rewrite Hup, bind_ST. cbn. rewrite bind_ST. cbn.
  rewrite bind_ST, Hcopy, Hnone. cbn. rewrite !bind_ST. cbn. rewrite bind_ST, pathz_lift_run. cbn.
  destruct (os_Remove _ _) as [w1 e1] eqn:Hrm. apply Remove_run in Hrm as (Hev & Hfs & Hok).
  rewrite Hw, Hbk in *. rewrite Hok in Hfs by (done || by rewrite Hb).
  eexists. split; [done|]. cbn. rewrite Hfs by done. split_and!; [by destruct s1|..].
  - rewrite lookup_delete_ne; [done|]. intros Heq. by destruct Hd.
  - apply lookup_delete_eq.
Qed.
End facts.

End pathz_facts.

(** ** Instances at a concrete server *)
Module RotateExample.
#[local] Instance server_db : Redis := map_redis.
#[local] Instance range : MapRange := canonical_range.

Definition rule (id user : string) : AuthorizationRule :=
  {| rule_id := id; rule_principal := User user; rule_path := Some (path_of ["a"]);
     rule_action := ACTION_PERMIT; rule_mode := MODE_READ |}.
Definition policy (id user : string) : AuthorizationPolicy :=
  {| policy_rules := [rule id user]; policy_groups := [] |}.

(** A text format that keeps the rule ids only. *)
#[local] Instance codec : PathzCodec := {|
  MarshalTextString p := Join (rule_id <$> GetRules p) ";";
  UnmarshalText _ := None;
  EncodeMetadata md := Some (PathzVersion md +:+ "," +:+ PathzCreatedOn md);
  DecodeMetadata _ md := (md, false) |}.

Definition world0 : World :=
  {| fs := {[ "/p" := Reg "r1"; "/other" := Reg "x" ]}; db := (∅ : gmap string (gmap string string)); faults := [] |}.
Definition server0 : GNSIPathzServer := NewGNSIPathzServer "/p" "/m" false world0.
Definition server1 : GNSIPathzServer :=
  set_processor (UpdatePolicyFromProto (pathzProcessor server0) (Some (policy "r1" "alice"))).1 server0.
Definition u2 : UploadRequest := {| Version := "v2"; CreatedOn := 7; Policy := Some (policy "r2" "bob") |}.
Definition finalize : RotateRequest := {| rotate_request := FinalizeRotation; ForceOverwrite := false |}.
Definition good_run : list event := [Received (upload u2) true; Received finalize true].

Lemma plain1 : plain (fs (pz_world server1)).
Proof. apply (bool_decide_unpack _). vm_compute. exact I. Qed.

Lemma distinct1 : files_distinct server1.
Proof. vm_compute. done. Qed.

Lemma runs1 : runs (pathzProcessor server1) (Some (policy "r1" "alice")).
Proof. eexists _, _. split; [vm_compute; reflexivity|]. vm_compute. reflexivity. Qed.

Lemma rotate_commits_witness :
  ∃ u, last_upload None good_run = Some u ∧
    active 0 u (Rotate None false good_run server1).1 ∧
    published u (Rotate None false good_run server1).1 ∧
    metadata_saved u (Rotate None false good_run server1).1.
Proof.
  apply (rotate_commits 0 good_run server1).
  - apply plain1.
  - apply distinct1.
  - reflexivity.
  - vm_compute. eexists. reflexivity.
  - apply pair_snd_eq. vm_compute. reflexivity.
Defined.

(** No call fails and the client does not finalize: the first ending. *)
Lemma rotate_abort_restores_witness :
  pathzProcessor (Rotate None false [Received (upload u2) true] server1).1 = pathzProcessor server1 ∧
  fs (pz_world (Rotate None false [Received (upload u2) true] server1).1) !! "/p" = Some (Reg "r1").
Proof.
  assert (is_Some (pz_heap server1 !! 0)) as Hh by (vm_compute; eexists; reflexivity).
  assert (Rotate None false [Received (upload u2) true] server1 =
    ((Rotate None false [Received (upload u2) true] server1).1, Some Aborted)) as Hrun
    by (apply pair_snd_eq; vm_compute; reflexivity).
  destruct (rotate_abort_restores 0 _ "r1" server1 _ _ plain1 distinct1 eq_refl Hh (or_intror runs1) Hrun)
    as [[H1 H2]|[(u & _ & Hf & _)|(u & _ & Hn & _)]]; [|discriminate Hf|discriminate Hn].
  split; [exact H1|]. refine (proj1 (H2 _)). split; vm_compute; reflexivity.
Defined.

Lemma aborted_version_sticks_witness :
  ∃ s1 s2, Rotate None false [Received (upload u2) true] server1 = (s1, Some Aborted) ∧
    pathzProcessor s1 = pathzProcessor server1 ∧ PathzVersion (metadata s1) = "v2" ∧
    Rotate None false [Received (upload u2) true] s1 = (s2, Some AlreadyExists).
Proof.
  eapply (aborted_version_sticks 0 (Some (policy "r1" "alice")) "r1" u2).
  - reflexivity.
  - apply plain1.
  - apply distinct1.
  - reflexivity.
  - vm_compute. eexists. reflexivity.
  - apply runs1.
  - vm_compute. reflexivity.
  - done.
  - done.
  - vm_compute. reflexivity.
Defined.

Lemma first_policy_not_reverted_witness :
  ∃ s1, Rotate None false [Received (upload u2) true] server0 = (s1, Some Aborted) ∧
    runs (pathzProcessor s1) (Policy u2) ∧
    fs (pz_world s1) !! pathzV1Policy server0 = Some (Reg (MarshalTextString (Policy u2))) ∧
    fs (pz_world s1) !! pathzV1PolicyBackup server0 = None.
Proof.
  eapply (first_policy_not_reverted 0 "r1" u2).
  - reflexivity.
  - apply plain1.
  - apply distinct1.
  - reflexivity.
  - vm_compute. eexists. reflexivity.
  - reflexivity.
  - vm_compute. reflexivity.
  - done.
  - done.
  - vm_compute. reflexivity.
Defined.
End RotateExample.
