(* ===== verification/AuthzServer.v ===== *)
(** * Rotation of the RPC authorization policy (src/gnmi_server/gnsi_authz.go)

    The same protocol as PathzServer.v with another discipline: the policy is
    a JSON text the gRPC library watches in its file, the metadata is copied
    by value, and what is published in the database follows every upload. *)
From stdpp Require Import base gmap list strings.
From S2P Require Import Prelude GoStrings Gnmi Redis World GnsiUtil.

Section authz_server.
Context {Rd : Redis}.

Record AuthzMetadata := { AuthzVersion : string; AuthzCreatedOn : string }.

Definition NewAuthzMetadata : AuthzMetadata := {| AuthzVersion := "unknown"; AuthzCreatedOn := "0" |}.

Definition authzP4rtTbl : string := "AUTHZ_POLICY|p4rt".
Definition authzGnxiTbl : string := "AUTHZ_POLICY|gnxi".
Definition authzVersionFld : string := "authz_version".
Definition authzCreatedOnFld : string := "authz_created_on".
Definition backupExt : string := ".bak".

(** The server is the [gnsiAuthz] of its own [Server], so that both names of
    the metadata in the source are this field. *)
Record GNSIAuthzServer := {
  authzMetadata : AuthzMetadata;
  authzMetadataCopy : AuthzMetadata;
  AuthzPolicyFile : string;
  AuthzMetaFile : string;
  az_world : World
}.

Definition set_metadata (x : AuthzMetadata) (s : GNSIAuthzServer) : GNSIAuthzServer :=
  {| authzMetadata := x; authzMetadataCopy := authzMetadataCopy s;
     AuthzPolicyFile := AuthzPolicyFile s; AuthzMetaFile := AuthzMetaFile s; az_world := az_world s |}.
Definition set_metadata_copy (x : AuthzMetadata) (s : GNSIAuthzServer) : GNSIAuthzServer :=
  {| authzMetadata := authzMetadata s; authzMetadataCopy := x;
     AuthzPolicyFile := AuthzPolicyFile s; AuthzMetaFile := AuthzMetaFile s; az_world := az_world s |}.
Definition set_world (x : World) (s : GNSIAuthzServer) : GNSIAuthzServer :=
  {| authzMetadata := authzMetadata s; authzMetadataCopy := authzMetadataCopy s;
     AuthzPolicyFile := AuthzPolicyFile s; AuthzMetaFile := AuthzMetaFile s; az_world := x |}.

Definition lift {A} (m : IO A) : ST GNSIAuthzServer A := λ s,
  let '(w, a) := m (az_world s) in (set_world w s, a).

(** ** Messages of the stream *)

Record UploadRequest := { Version : string; CreatedOn : Z; Policy : string }.
Inductive RotateReq := FinalizeRotation | Upload (u : UploadRequest) | NoRequest.
Record RotateRequest := { rotate_request : RotateReq; ForceOverwrite : bool }.
Inductive event := RecvError | Received (req : RotateRequest) (sent : bool).

(** [encoding/json]: validity of a text and the encoding of the metadata. *)
Class AuthzCodec := {
  Valid : string → bool;
  EncodeMetadata : AuthzMetadata → option string;
  DecodeMetadata : string → AuthzMetadata → AuthzMetadata * bool
}.

Section server.
Context {AC : AuthzCodec}.
Notation M := (ST GNSIAuthzServer).

(** ** Operations *)

Definition writeAuthzMetadataToDB (fld val : string) : M (option os_error) :=
  try_ (lift (writeCredentialsMetadataToDB authzP4rtTbl "" fld val)) (λ e, mret (Some e))
  (try_ (lift (writeCredentialsMetadataToDB authzGnxiTbl "" fld val)) (λ e, mret (Some e))
  (_ ← modify (λ s,
     if bool_decide (fld = authzVersionFld)
     then set_metadata {| AuthzVersion := val; AuthzCreatedOn := AuthzCreatedOn (authzMetadata s) |} s
     else if bool_decide (fld = authzCreatedOnFld)
     then set_metadata {| AuthzVersion := AuthzVersion (authzMetadata s); AuthzCreatedOn := val |} s
     else s);
   mret None)).

Definition checkpointAuthzFreshness : M () := modify (λ s, set_metadata_copy (authzMetadata s) s).

Definition revertAuthzFileFreshness : M () :=
  copy ← gets authzMetadataCopy;
  _ ← writeAuthzMetadataToDB authzVersionFld (AuthzVersion copy);
  copy ← gets authzMetadataCopy;
  _ ← writeAuthzMetadataToDB authzCreatedOnFld (AuthzCreatedOn copy);
  mret ().

Definition saveAuthzFileFreshess (path : string) : M (option os_error) :=
  md ← gets authzMetadata;
  match EncodeMetadata md with
  | None => mret (Some OsFault)
  | Some buf =>
      try_ (lift (WriteFile path buf)) (λ e, _ ← lift (os_Remove path); mret (Some e)) (mret None)
  end.

Definition loadAuthzFreshness (path : string) : M bool :=
  r ← lift (ReadFile path);
  match r with
  | Err _ => mret false
  | Ok bytes =>
      md ← gets authzMetadata;
      let '(md', ok) := DecodeMetadata bytes md in
      _ ← modify (set_metadata md'); mret ok
  end.

Definition saveToAuthzFile (p : string) : M (option os_error) :=
  file ← gets AuthzPolicyFile; lift (install file p).

Definition checkpointAuthzFile : M (option os_error) :=
  file ← gets AuthzPolicyFile; lift (copyFile file (file +:+ backupExt)).

Definition commitAuthzFileChanges : M (option os_error) :=
  file ← gets AuthzPolicyFile;
  st ← lift (Stat file);
  match st with
  | Err e => mret (Some e)
  | Ok n =>
      if negb (is_regular n) then mret (Some NotRegular)
      else
        let backup := file +:+ backupExt in
        bst ← lift (Stat backup);
        match bst with
        | Err _ => mret None
        | Ok bn => if negb (is_regular bn) then mret (Some NotRegular) else lift (os_Remove backup)
        end
  end.

Definition processRotateRequest (req : RotateRequest) : M (option Code) :=
  match rotate_request req with
  | Upload policyReq =>
      if bool_decide (Policy policyReq = "") then mret (Some Aborted)
      else if bool_decide (Version policyReq = "") then mret (Some Aborted)
      else if negb (Valid (Policy policyReq)) then mret (Some Aborted)
      else
        file ← gets AuthzPolicyFile;
        try_ (lift (fileCheck file)) (λ _, mret (Some NotFound))
        (md ← gets authzMetadata;
         if bool_decide (AuthzVersion md = Version policyReq) && negb (ForceOverwrite req)
         then mret (Some AlreadyExists)
         else
           try_ (writeAuthzMetadataToDB authzVersionFld (Version policyReq)) (λ _, mret (Some Aborted))
           (try_ (writeAuthzMetadataToDB authzCreatedOnFld (Itoa (CreatedOn policyReq)))
                 (λ _, mret (Some Aborted))
           (try_ (saveToAuthzFile (Policy policyReq)) (λ _, mret (Some Aborted))
           (mret None))))
  | _ => mret (Some Aborted)
  end.

(** What every failing branch of [Rotate] does before it returns. *)
Definition revert : M () :=
  file ← gets AuthzPolicyFile;
  _ ← lift (copyFile (file +:+ backupExt) file);
  revertAuthzFileFreshness.

Fixpoint rotate_loop (evs : list event) : M (option Code) :=
  match evs with
  | [] => _ ← revert; mret (Some Aborted)
  | RecvError :: _ => _ ← revert; mret (Some Aborted)
  | Received req sent :: evs =>
      match rotate_request req with
      | FinalizeRotation =>
          _ ← commitAuthzFileChanges;
          file ← gets AuthzMetaFile; _ ← saveAuthzFileFreshess file; mret None
      | _ =>
          try_ (processRotateRequest req) (λ code, _ ← revert; mret (Some code))
          (if sent then rotate_loop evs else _ ← revert; mret (Some Aborted))
      end
  end.

Definition Rotate (auth : option Code) (locked : bool) (evs : list event) : M (option Code) :=
  match auth with
  | Some c => mret (Some c)
  | None =>
      if locked then mret (Some Aborted)
      else _ ← checkpointAuthzFreshness; _ ← checkpointAuthzFile; rotate_loop evs
  end.

Definition NewGNSIAuthzServer (policyFile metaFile : string) (w : World) : GNSIAuthzServer :=
  let s := {| authzMetadata := NewAuthzMetadata;
              authzMetadataCopy := {| AuthzVersion := ""; AuthzCreatedOn := "" |};
              AuthzPolicyFile := policyFile; AuthzMetaFile := metaFile; az_world := w |} in
  fst ((_ ← loadAuthzFreshness metaFile;
        _ ← checkpointAuthzFreshness;
        md ← gets authzMetadata;
        _ ← writeAuthzMetadataToDB authzVersionFld (AuthzVersion md);
        md ← gets authzMetadata;
        _ ← writeAuthzMetadataToDB authzCreatedOnFld (AuthzCreatedOn md);
        mret ()) s).
End server.
End authz_server.

(** * What a rotation of the RPC authorization policy guarantees (AuthzServer.v) *)

Section authz_facts.
Context {Rd : Redis}.

Section facts.
Context {AC : AuthzCodec}.
Implicit Types (s : GNSIAuthzServer).

Lemma authz_lift_run {A} (m : IO A) s :
  lift m s = let '(w, a) := m (az_world s) in (set_world w s, a).
Proof. done. Qed.

(** A field of the hash of a table of credentials. *)
Definition field (w : World) (tbl fld : string) : option string :=
  hget (db w) (GetKey [credentialsTbl; tbl]) fld.

Lemma writeCredentials_field w tbl fld val w' :
  tbl = authzP4rtTbl ∨ tbl = authzGnxiTbl →
  writeCredentialsMetadataToDB tbl "" fld val w = (w', None) →
  field w' tbl fld = Some val ∧
  ∀ tbl' fld', tbl' = authzP4rtTbl ∨ tbl' = authzGnxiTbl → (tbl', fld') ≠ (tbl, fld) →
    field w' tbl' fld' = field w tbl' fld'.
Proof.
  intros Ht (_ & _ & Hdb)%writeCredentials_run. cbn in Hdb. unfold field. rewrite Hdb. split.
  - apply hget_hset_eq.
  - intros tbl' fld' Ht' Hne. destruct (decide (tbl' = tbl)) as [->|Htt].
    + apply hget_hset_field_ne. congruence.
    + apply hget_hset_key_ne. destruct Ht, Ht'; subst; done.
Qed.

(** Both tables carry this value. *)
Definition both (w : World) (fld val : string) : Prop :=
  field w authzP4rtTbl fld = Some val ∧ field w authzGnxiTbl fld = Some val.

Definition published (md : AuthzMetadata) (w : World) : Prop :=
  both w authzVersionFld (AuthzVersion md) ∧ both w authzCreatedOnFld (AuthzCreatedOn md).

(** The state of the server apart from the metadata in memory. *)
Definition same_server s s' : Prop :=
  authzMetadataCopy s' = authzMetadataCopy s ∧ AuthzPolicyFile s' = AuthzPolicyFile s ∧
  AuthzMetaFile s' = AuthzMetaFile s.

Lemma same_server_trans s1 s2 s3 : same_server s1 s2 → same_server s2 s3 → same_server s1 s3.
Proof. unfold same_server. intuition congruence. Qed.

Lemma writeAuthz_run fld val s s' e :
  writeAuthzMetadataToDB fld val s = (s', e) →
  same_server s s' ∧ fs (az_world s') = fs (az_world s) ∧
  (quiet (az_world s) → quiet (az_world s') ∧ e = None) ∧
  (e = None → both (az_world s') fld val ∧
     ∀ fld' val', fld' ≠ fld → both (az_world s) fld' val' → both (az_world s') fld' val') ∧
  authzMetadata s' =
    match e with
    | Some _ => authzMetadata s
    | None =>
        if bool_decide (fld = authzVersionFld)
        then {| AuthzVersion := val; AuthzCreatedOn := AuthzCreatedOn (authzMetadata s) |}
        else if bool_decide (fld = authzCreatedOnFld)
        then {| AuthzVersion := AuthzVersion (authzMetadata s); AuthzCreatedOn := val |}
        else authzMetadata s
    end.
Proof.
  unfold writeAuthzMetadataToDB, try_. rewrite bind_ST, authz_lift_run.
  destruct (writeCredentialsMetadataToDB authzP4rtTbl _ _ _ _) as [w1 e1] eqn:H1.
  pose proof H1 as (Hfs1 & Hq1 & _)%writeCredentials_run.
  destruct e1 as [e1|]. { intros [= <- <-]. split_and!; [done..|naive_solver|done|done]. }
  rewrite bind_ST, authz_lift_run. cbn.
  destruct (writeCredentialsMetadataToDB authzGnxiTbl _ _ _ w1) as [w2 e2] eqn:H2.
  pose proof H2 as (Hfs2 & Hq2 & _)%writeCredentials_run.
  destruct e2 as [e2|].
  { intros [= <- <-]. cbn. split_and!; [done..|congruence|naive_solver|done|done]. }
  apply writeCredentials_field in H1 as [Hv1 Hk1]; [|by left].
  apply writeCredentials_field in H2 as [Hv2 Hk2]; [|by right].
  rewrite bind_ST. cbn. intros [= <- <-].
  match goal with |- same_server _ ?x ∧ _ => assert (az_world x = w2) as Hw by (by repeat case_bool_decide) end.
  rewrite Hw. cbn. split_and!; try (by repeat case_bool_decide); [congruence|naive_solver|].
  intros _. split.
  - split; [|done]. rewrite Hk2; [done|by left|done].
  - intros fld' val' Hne [Ha Hb]. split; (rewrite Hk2, Hk1; [done|auto..]); congruence.
Qed.

(** Writing both fields. *)
Lemma writeBoth_run md s s1 s2 :
  writeAuthzMetadataToDB authzVersionFld (AuthzVersion md) s = (s1, None) →
  writeAuthzMetadataToDB authzCreatedOnFld (AuthzCreatedOn md) s1 = (s2, None) →
  same_server s s2 ∧ fs (az_world s2) = fs (az_world s) ∧
  (quiet (az_world s) → quiet (az_world s2)) ∧
  published md (az_world s2) ∧ authzMetadata s2 = md.
Proof.
  intros (Hs1 & Hfs1 & Hq1 & Hp1 & Hm1)%writeAuthz_run (Hs2 & Hfs2 & Hq2 & Hp2 & Hm2)%writeAuthz_run.
  destruct (Hp1 eq_refl) as [Hb1 _], (Hp2 eq_refl) as [Hb2 Hk2].
  split_and!; [by eapply same_server_trans|congruence|naive_solver|split; [by apply Hk2|done]|].
  rewrite Hm2, Hm1. by destruct md.
Qed.

Definition metadata_of (u : UploadRequest) : AuthzMetadata :=
  {| AuthzVersion := Version u; AuthzCreatedOn := Itoa (CreatedOn u) |}.

(** How the files can change while only the policy file is written. *)
Record files_kept (file : string) (w w' : World) : Prop := {
  fk_plain : plain (fs w) → plain (fs w');
  fk_quiet : quiet w → quiet w';
  fk_keep : ∀ q n, q ≠ file → fs w !! q = Some n → fs w' !! q = Some n
}.

Lemma files_kept_trans f w1 w2 w3 : files_kept f w1 w2 → files_kept f w2 w3 → files_kept f w1 w3.
Proof. intros [] []. split; auto. Qed.

Lemma files_kept_same f w w' : fs w' = fs w → (quiet w → quiet w') → files_kept f w w'.
Proof. intros Hfs Hq. split; [by rewrite Hfs|done|by rewrite Hfs]. Qed.

Lemma files_kept_evolves f tmp w w' :
  evolves [f; tmp] w w' → fs w !! tmp = None → files_kept f w w'.
Proof.
  intros Hev Ht. split; [apply Hev|apply Hev|]. intros q n Hq Hn.
  rewrite (ev_keep _ _ _ Hev); [done|]. set_solver.
Qed.

Definition active (u : UploadRequest) s : Prop :=
  fs (az_world s) !! AuthzPolicyFile s = Some (Reg (Policy u)) ∧
  authzMetadata s = metadata_of u ∧ published (metadata_of u) (az_world s).

Lemma authz_process_run req s s' e :
  plain (fs (az_world s)) → processRotateRequest req s = (s', e) →
  same_server s s' ∧ files_kept (AuthzPolicyFile s) (az_world s) (az_world s') ∧
  (e = None → ∃ u, rotate_request req = Upload u ∧ active u s').
Proof.
  intros Hp. unfold processRotateRequest, try_.
  assert (∀ w w', fs w' = fs w → (quiet w → quiet w') → files_kept (AuthzPolicyFile s) w w') as Hsame
    by (intros; by apply files_kept_same).
  assert (∀ c : Code, (s, Some c) = (s', e) → same_server s s' ∧
    files_kept (AuthzPolicyFile s) (az_world s) (az_world s') ∧
    (e = None → ∃ u, rotate_request req = Upload u ∧ active u s')) as Hnone.
  { intros c [= <- <-]. split_and!; [done|by apply Hsame|done]. }
  destruct (rotate_request req) as [|u|]; [apply Hnone| |apply Hnone].
  destruct (bool_decide (Policy u = "")); [apply Hnone|].
  destruct (bool_decide (Version u = "")); [apply Hnone|].
  destruct (Valid (Policy u)); cbn; [|apply Hnone]. clear Hnone.
  rewrite bind_ST. cbn. rewrite bind_ST, authz_lift_run.
  destruct (fileCheck _ _) as [w1 e1] eqn:H1. apply fileCheck_run in H1 as (Hev1 & Hfs1 & _).
  pose proof (Hsame _ _ Hfs1 (ev_quiet _ _ _ Hev1)) as Hk1.
  destruct e1 as [e1|]; [by intros [= <- <-]|].
  rewrite bind_ST. cbn. destruct (_ && _); [by intros [= <- <-]|].
  rewrite bind_ST. destruct (writeAuthzMetadataToDB authzVersionFld _ _) as [s2 e2] eqn:H2.
  pose proof H2 as (Hs2 & Hfs2 & Hq2 & _)%writeAuthz_run.
  assert (files_kept (AuthzPolicyFile s) w1 (az_world s2)) as Hk2 by (apply Hsame; naive_solver).
  pose proof (files_kept_trans _ _ _ _ Hk1 Hk2) as Hk.
  destruct e2 as [e2|]; [by intros [= <- <-]|].
  rewrite bind_ST. destruct (writeAuthzMetadataToDB authzCreatedOnFld _ _) as [s3 e3] eqn:H3.
  pose proof H3 as (Hs3 & Hfs3 & Hq3 & _)%writeAuthz_run.
  pose proof (same_server_trans _ _ _ Hs2 Hs3) as Hs.
  assert (files_kept (AuthzPolicyFile s) (az_world s2) (az_world s3)) as Hk3 by (apply Hsame; naive_solver).
  pose proof (files_kept_trans _ _ _ _ Hk Hk3) as Hk'.
  destruct e3 as [e3|]; [by intros [= <- <-]|].
  destruct (writeBoth_run (metadata_of u) _ _ _ H2 H3) as (_ & _ & _ & Hpub & Hmd).
  rewrite bind_ST. unfold saveToAuthzFile. rewrite bind_ST. cbn. rewrite authz_lift_run.
  destruct (install _ _ _) as [w4 e4] eqn:H4. apply install_run in H4 as (Hev4 & Hf4 & _).
  pose proof (files_kept_evolves _ _ _ _ Hev4 (temp_fresh _ _)) as Hk4.
  destruct Hs as (Hs_a & Hs_b & Hs_c). rewrite Hs_b in *. cbn in *.
  pose proof (files_kept_trans _ _ _ _ Hk' Hk4) as Hk''.
  destruct e4 as [e4|]; intros [= <- <-]; [by split_and!|]. split_and!; [done..|].
  intros _. exists u. split; [done|]. unfold active. cbn. rewrite Hs_b.
  split_and!; [naive_solver|done|]. unfold published, both, field in *. by rewrite (ev_db _ _ _ Hev4).
Qed.

(** ** Commit *)

Fixpoint last_upload (acc : option UploadRequest) (evs : list event) : option UploadRequest :=
  match evs with
  | [] => acc
  | RecvError :: _ => acc
  | Received req _ :: evs =>
      match rotate_request req with
      | FinalizeRotation => acc
      | Upload u => last_upload (Some u) evs
      | NoRequest => last_upload acc evs
      end
  end.

Lemma backup_ne f : f +:+ backupExt ≠ f.
Proof. intros Heq%(f_equal String.length). rewrite length_app_str in Heq. simpl in Heq. lia. Qed.

Lemma temp_backup_ne f m : temp_name (f +:+ backupExt) m ≠ f.
Proof.
  intros Heq%(f_equal String.length). unfold temp_name in Heq. rewrite !length_app_str in Heq.
  simpl in Heq. lia.
Qed.

(** The two steps of a finalize message touch the backup and the metadata file only. *)
Lemma commit_run s s' e :
  plain (fs (az_world s)) → commitAuthzFileChanges s = (s', e) →
  ∃ w', s' = set_world w' s ∧ evolves [AuthzPolicyFile s +:+ backupExt] (az_world s) w'.
Proof.
  intros Hp. unfold commitAuthzFileChanges. rewrite bind_ST. cbn. rewrite bind_ST, authz_lift_run.
  set (bk := AuthzPolicyFile s +:+ backupExt).
  destruct (Stat _ (az_world s)) as [w1 r1] eqn:H1. apply Stat_run in H1 as (Hev1 & Hfs1 & _); [|done].
  apply (evolves_sub _ [bk]) in Hev1; [|apply list_subseteq_nil].
  destruct r1 as [n|]; [|intros [= <- <-]; by eexists].
  destruct (negb (is_regular n)); [intros [= <- <-]; by eexists|].
  rewrite bind_ST, authz_lift_run. cbn.
  destruct (Stat _ w1) as [w2 r2] eqn:H2. apply Stat_run in H2 as (Hev2 & _ & _); [|by rewrite Hfs1].
  apply (evolves_sub _ [bk]) in Hev2; [|apply list_subseteq_nil].
  pose proof (evolves_trans _ _ _ _ Hev1 Hev2) as Hev.
  destruct r2 as [n2|]; [|intros [= <- <-]; by eexists].
  destruct (negb (is_regular n2)); [intros [= <- <-]; by eexists|].
  rewrite authz_lift_run. cbn. destruct (os_Remove _ w2) as [w3 r3] eqn:H3. intros [= <- <-].
  apply Remove_run in H3 as (Hev3 & _). exists w3. split; [done|]. by eapply evolves_trans.
Qed.

Lemma save_run path s s' e :
  plain (fs (az_world s)) → saveAuthzFileFreshess path s = (s', e) →
  ∃ w', s' = set_world w' s ∧ evolves [path] (az_world s) w'.
Proof.
  intros Hp. unfold saveAuthzFileFreshess, try_. rewrite bind_ST. cbn.
  destruct (EncodeMetadata _) as [buf|].
  2: { intros [= <- <-]. exists (az_world s). split; [by destruct s|apply evolves_refl]. }
  rewrite bind_ST, authz_lift_run. destruct (WriteFile _ _ _) as [w1 e1] eqn:H1.
  apply WriteFile_run in H1 as (Hev1 & _ & _); [|done].
  destruct e1; [|intros [= <- <-]; by eexists].
  rewrite bind_ST, authz_lift_run. cbn. destruct (os_Remove _ w1) as [w2 e2] eqn:H2.
  apply Remove_run in H2 as (Hev2 & _). intros [= <- <-]. exists w2. split; [done|].
  by eapply evolves_trans.
Qed.

(** The state after an accepted upload, or the one of the start. *)
Definition progress (f0 : option inode) (md0 : AuthzMetadata) (acc : option UploadRequest) s : Prop :=
  match acc with
  | Some u => active u s
  | None => authzMetadata s = md0 ∧ fs (az_world s) !! AuthzPolicyFile s = f0
  end.

Lemma progress_world f0 md0 acc s w T :
  evolves T (az_world s) w → AuthzPolicyFile s ∉ T →
  progress f0 md0 acc s → progress f0 md0 acc (set_world w s).
Proof.
  intros Hev Hf. unfold progress, active, published, both, field. cbn.
  by rewrite (ev_keep _ _ _ Hev), (ev_db _ _ _ Hev).
Qed.

Lemma authz_rotate_loop_commit f0 md0 evs acc s s' :
  plain (fs (az_world s)) → AuthzMetaFile s ≠ AuthzPolicyFile s → progress f0 md0 acc s →
  rotate_loop evs s = (s', None) → progress f0 md0 (last_upload acc evs) s'.
Proof.
  revert acc s. induction evs as [|[|req sent] evs IH]; intros acc s Hp Hne Hacc;
    cbn [rotate_loop last_upload].
  - rewrite bind_ST. by destruct (revert s).
  - rewrite bind_ST. by destruct (revert s).
  - assert (∀ acc', (try_ (processRotateRequest req) (λ code, _ ← revert; mret (Some code))
        (if sent then rotate_loop evs else _ ← revert; mret (Some Aborted))) s = (s', None) →
        (∀ u, rotate_request req = Upload u → acc' = Some u) →
        progress f0 md0 (last_upload acc' evs) s') as Hproc.
    { intros acc' Hrun Hu. unfold try_ in Hrun. rewrite bind_ST in Hrun.
      destruct (processRotateRequest req s) as [s1 [c|]] eqn:H1.
      { rewrite bind_ST in Hrun. by destruct (revert s1). }
      apply authz_process_run in H1 as ((_ & Hf & Hm) & Hk & Hact); [|done].
      destruct (Hact eq_refl) as (u & Hreq & Ha). rewrite (Hu u Hreq).
      destruct sent; [|rewrite bind_ST in Hrun; by destruct (revert s1)].
      eapply IH; [by apply (fk_plain _ _ _ Hk)|congruence|done|done]. }
    destruct (rotate_request req) as [|u|]; [|intros Hrun; apply (Hproc _ Hrun); by intros ? [= <-]..].
    rewrite bind_ST. destruct (commitAuthzFileChanges s) as [s1 e1] eqn:H1.
    apply commit_run in H1 as (w1 & -> & Hev1); [|done]. rewrite bind_ST. cbn.
    rewrite bind_ST. destruct (saveAuthzFileFreshess _ _) as [s2 e2] eqn:H2.
    apply save_run in H2 as (w2 & -> & Hev2); [|by apply (ev_plain _ _ _ Hev1)].
    intros [= <-].
    eapply progress_world; [done|cbn; set_solver|]. eapply progress_world; [done| |done].
    pose proof (backup_ne (AuthzPolicyFile s)). set_solver.
Qed.

(** Commit: whatever calls fail on the way, a rotation that returns no
    error leaves the text of the last policy uploaded in the policy file and
    its version and creation time in memory and in both tables of the
    database; one without an upload leaves the policy and the metadata alone. *)
Theorem authz_rotate_commits evs s s' :
  plain (fs (az_world s)) → AuthzMetaFile s ≠ AuthzPolicyFile s →
  Rotate None false evs s = (s', None) →
  match last_upload None evs with
  | Some u => active u s'
  | None => authzMetadata s' = authzMetadata s ∧
            fs (az_world s') !! AuthzPolicyFile s' = fs (az_world s) !! AuthzPolicyFile s
  end.
Proof.
  intros Hp Hne. unfold Rotate. rewrite bind_ST. cbn. rewrite bind_ST.
  unfold checkpointAuthzFile. rewrite bind_ST. cbn. rewrite authz_lift_run. cbn.
  destruct (copyFile _ _ _) as [w1 e1] eqn:H1. apply copyFile_run in H1 as (Hev & _ & _); [|done].
  intros Hrun. eapply authz_rotate_loop_commit in Hrun; [exact Hrun|by apply (ev_plain _ _ _ Hev)|done|].
  split; [done|]. cbn. apply (ev_keep _ _ _ Hev).
  pose proof (backup_ne (AuthzPolicyFile s)).
  pose proof (temp_backup_ne (AuthzPolicyFile s) (fs (az_world s))). set_solver.
Qed.

(** ** Abort *)

Lemma revertFreshness_run s s' :
  quiet (az_world s) → revertAuthzFileFreshness s = (s', ()) →
  same_server s s' ∧ fs (az_world s') = fs (az_world s) ∧
  published (authzMetadataCopy s) (az_world s') ∧ authzMetadata s' = authzMetadataCopy s.
Proof.
  intros Hq. unfold revertAuthzFileFreshness. rewrite bind_ST. cbn. rewrite bind_ST.
  destruct (writeAuthzMetadataToDB authzVersionFld _ _) as [s1 e1] eqn:H1.
  pose proof H1 as ((Hc & _) & _ & Hq1 & _)%writeAuthz_run. destruct (Hq1 Hq) as [Hq1' ->].
  rewrite bind_ST. cbn. rewrite bind_ST, Hc.
  destruct (writeAuthzMetadataToDB authzCreatedOnFld _ _) as [s2 e2] eqn:H2.
  pose proof H2 as (_ & _ & Hq2 & _)%writeAuthz_run. destruct (Hq2 Hq1') as [_ ->].
  intros [= <-]. destruct (writeBoth_run _ _ _ _ H1 H2) as (? & ? & _ & ? & ?). done.
Qed.

(** Between two messages, as long as no call fails. *)
Record checkpointed (m0 : gmap string inode) (d0 : string) (md0 : AuthzMetadata) s : Prop := {
  cp_quiet : quiet (az_world s);
  cp_plain : plain (fs (az_world s));
  cp_copy : authzMetadataCopy s = md0;
  cp_backup : fs (az_world s) !! (AuthzPolicyFile s +:+ backupExt) = Some (Reg d0);
  cp_rest : ∀ q n, q ≠ AuthzPolicyFile s → q ≠ AuthzPolicyFile s +:+ backupExt →
    m0 !! q = Some n → fs (az_world s) !! q = Some n
}.

Definition restored (file : string) (m0 : gmap string inode) (d0 : string) (md0 : AuthzMetadata) s : Prop :=
  fs (az_world s) !! file = Some (Reg d0) ∧ authzMetadata s = md0 ∧ published md0 (az_world s) ∧
  ∀ q n, q ≠ file → q ≠ file +:+ backupExt → m0 !! q = Some n → fs (az_world s) !! q = Some n.

Lemma authz_revert_run m0 d0 md0 s s' :
  checkpointed m0 d0 md0 s → revert s = (s', ()) → restored (AuthzPolicyFile s) m0 d0 md0 s'.
Proof.
  intros [Hq Hp Hc Hb Hr]. unfold revert. rewrite bind_ST. cbn. rewrite bind_ST, authz_lift_run.
  destruct (copyFile _ _ _) as [w1 e1] eqn:H1. apply copyFile_run in H1 as (Hev & _ & Hq1); [|done].
  destruct (Hq1 Hq d0 Hb) as [_ Hfs1]. intros H2. apply revertFreshness_run in H2 as (_ & Hfs2 & Hpub & Hmd).
  - cbn in *. rewrite Hc in *. split_and!; [by rewrite Hfs2, Hfs1, lookup_insert_eq|done|done|].
    intros q n Hq1' Hq2 Hn. rewrite Hfs2, Hfs1, lookup_insert_ne by done. by apply Hr.
  - by apply (ev_quiet _ _ _ Hev).
Qed.

Lemma authz_checkpointed_process m0 d0 md0 req s s' e :
  checkpointed m0 d0 md0 s → processRotateRequest req s = (s', e) →
  checkpointed m0 d0 md0 s' ∧ AuthzPolicyFile s' = AuthzPolicyFile s.
Proof.
  intros [Hq Hp Hc Hb Hr] Hrun. apply authz_process_run in Hrun as ((Hs1 & Hs2 & _) & [Hkp Hkq Hkk] & _); [|done].
  split; [|done]. split; rewrite ?Hs1, ?Hs2; [auto..| |].
  - apply Hkk; [apply backup_ne|done].
  - intros q n Hq1 Hq2 Hn. apply Hkk; auto.
Qed.

Lemma authz_rotate_loop_abort m0 d0 md0 evs s s' c :
  checkpointed m0 d0 md0 s → rotate_loop evs s = (s', Some c) →
  restored (AuthzPolicyFile s) m0 d0 md0 s'.
Proof.
  revert s. induction evs as [|[|req sent] evs IH]; intros s Hc; cbn [rotate_loop].
  - rewrite bind_ST. destruct (revert s) as [? []] eqn:Hr. intros [= <- <-]. by eapply authz_revert_run.
  - rewrite bind_ST. destruct (revert s) as [? []] eqn:Hr. intros [= <- <-]. by eapply authz_revert_run.
  - assert ((try_ (processRotateRequest req) (λ code, _ ← revert; mret (Some code))
        (if sent then rotate_loop evs else _ ← revert; mret (Some Aborted))) s = (s', Some c) →
        restored (AuthzPolicyFile s) m0 d0 md0 s') as Hproc.
    { unfold try_. rewrite bind_ST. destruct (processRotateRequest req s) as [s1 e1] eqn:H1.
      eapply authz_checkpointed_process in H1 as [Hc1 <-]; [|done].
      assert (∀ c1, (_ ← revert; mret (Some c1)) s1 = (s', Some c) →
        restored (AuthzPolicyFile s1) m0 d0 md0 s') as Hrev.
      { intros c1. rewrite bind_ST. destruct (revert s1) as [? []] eqn:Hr. intros [= <- <-].
        by eapply authz_revert_run. }
      destruct e1 as [c1|]; [apply Hrev|]. destruct sent; [by apply IH|apply Hrev]. }
    destruct (rotate_request req) as [|u|]; [|done..].
    rewrite bind_ST. destruct (commitAuthzFileChanges s). rewrite bind_ST. cbn.
    rewrite bind_ST. by destruct (saveAuthzFileFreshess _ _).
Qed.

(** Abort: when no outside call fails, a rotation that was let in and
    returns an error leaves the policy file with the content it had, the
    version and creation time in memory as they were, the database with
    exactly those values in both tables, and every other file there was
    (apart from the backup) untouched. *)
Theorem authz_rotate_abort_restores evs d0 s s' c :
  quiet (az_world s) → plain (fs (az_world s)) →
  fs (az_world s) !! AuthzPolicyFile s = Some (Reg d0) →
  Rotate None false evs s = (s', Some c) →
  restored (AuthzPolicyFile s) (fs (az_world s)) d0 (authzMetadata s) s'.
Proof.
  intros Hq Hp Hd0. unfold Rotate. rewrite bind_ST. cbn. rewrite bind_ST.
  unfold checkpointAuthzFile. rewrite bind_ST. cbn. rewrite authz_lift_run. cbn.
  destruct (copyFile _ _ _) as [w1 e1] eqn:H1. apply copyFile_run in H1 as (Hev & _ & Hq1); [|done].
  destruct (Hq1 Hq d0 Hd0) as [_ Hfs]. intros Hrun.
  eapply authz_rotate_loop_abort in Hrun; [exact Hrun|]. split; cbn; [by apply Hev|by apply Hev|done|..].
  - by rewrite Hfs, lookup_insert_eq.
  - intros q n Hq1' Hq2 Hn. by rewrite Hfs, lookup_insert_ne.
Qed.
End facts.

End authz_facts.

(** ** Instances at a concrete server *)
Module AuthzExample.
#[local] Instance server_db : Redis := map_redis.
#[local] Instance codec : AuthzCodec := {|
  Valid p := HasPrefix p "{";
  EncodeMetadata md := Some (AuthzVersion md +:+ "," +:+ AuthzCreatedOn md);
  DecodeMetadata _ md := (md, false) |}.

Definition world0 : World :=
  {| fs := {[ "/p" := Reg "{old}"; "/other" := Reg "x" ]}; db := (∅ : gmap string (gmap string string)); faults := [] |}.
Definition server0 : GNSIAuthzServer := NewGNSIAuthzServer "/p" "/m" world0.
Definition u2 : UploadRequest := {| Version := "v2"; CreatedOn := 7; Policy := "{new}" |}.
Definition upload : RotateRequest := {| rotate_request := Upload u2; ForceOverwrite := false |}.
Definition finalize : RotateRequest := {| rotate_request := FinalizeRotation; ForceOverwrite := false |}.
Definition good_run : list event := [Received upload true; Received finalize true].

Lemma plain0 : plain (fs (az_world server0)).
Proof. apply (bool_decide_unpack _). vm_compute. exact I. Qed.

Lemma authz_rotate_commits_witness : active u2 (Rotate None false good_run server0).1.
Proof.
  apply (authz_rotate_commits good_run server0).
  - apply plain0.
  - done.
  - apply pair_snd_eq. vm_compute. reflexivity.
Defined.

Lemma authz_rotate_abort_restores_witness :
  restored "/p" (fs (az_world server0)) "{old}" (authzMetadata server0)
    (Rotate None false [Received upload true] server0).1.
Proof.
  apply (authz_rotate_abort_restores [Received upload true] "{old}" server0 _ Aborted).
  - reflexivity.
  - apply plain0.
  - vm_compute. reflexivity.
  - apply pair_snd_eq. vm_compute. reflexivity.
Defined.
End AuthzExample.
