(* ===== verification/CertzServer.v ===== *)
(** * Rotation of certificates (src/gnmi_server/gnsi_certz.go)

    A profile holds four entities (server certificate, trust bundle, CRL
    bundle, authentication policy), each with the one that is active and the
    last one that was finalized.  [Rotate] activates every uploaded entity at
    once (a new file and a symbolic link to it) and on a finalize message makes
    it final, or goes back to the last final one.

    The entities of the Go profile are pointers; the only field written
    through one, [Final] of an active entity, is written before the pointer is
    shared, so values model them.  An entity missing from a saved profile
    makes the Go code panic; the decoder of the model returns none such.
    Where the code dereferences a message field that the client left out,
    the model returns [Panic]. *)
From stdpp Require Import base gmap list strings.
From S2P Require Import Prelude GoStrings Gnmi Redis World GnsiUtil.

Section certz_server.
Context {Rd : Redis}.

(** ** Data *)

Inductive CertzType := certType | tbType | crlType | apType | unknownType.

Global Instance CertzType_eq_dec : EqDecision CertzType.
Proof. solve_decision. Defined.

Record genericEntity := {
  EType : CertzType;
  CreatedOn : Z;
  Version : string;
  CertPath : string;
  KeyPath : string;
  Final : bool
}.

Record entityGroup := {
  Cert : genericEntity;
  TrustBundle : genericEntity;
  CrlBundle : genericEntity;
  AuthPolicy : genericEntity
}.

Record profile := {
  ID : string;
  ActiveEntities : entityGroup;
  LastEntities : entityGroup;
  generatedKey : option string
}.

(** The part of the server's configuration the code reads, and the working
    directory ([None] when it cannot be determined). *)
Record Config := {
  SrvCertLnk : string; SrvKeyLnk : string; CaCertLnk : string;
  SrvCertFile : string; SrvKeyFile : string; CaCertFile : string;
  CertCRLConfig : string; FedPolicyFile : string; CertzMetaFile : string;
  cwd : option string
}.

(** The server; [clock] holds the readings of the clock still to come. *)
Record GNSICertzServer := {
  profiles : gmap string profile;
  config : Config;
  clock : list Z;
  cz_world : World
}.

Definition set_profiles (x : gmap string profile) (s : GNSICertzServer) : GNSICertzServer :=
  {| profiles := x; config := config s; clock := clock s; cz_world := cz_world s |}.
Definition set_world (x : World) (s : GNSICertzServer) : GNSICertzServer :=
  {| profiles := profiles s; config := config s; clock := clock s; cz_world := x |}.
Definition set_profile (id : string) (p : profile) (s : GNSICertzServer) : GNSICertzServer :=
  set_profiles (<[id := p]> (profiles s)) s.
Definition set_groups (a l : entityGroup) (p : profile) : profile :=
  {| ID := ID p; ActiveEntities := a; LastEntities := l; generatedKey := generatedKey p |}.
Definition set_key (k : option string) (p : profile) : profile :=
  {| ID := ID p; ActiveEntities := ActiveEntities p; LastEntities := LastEntities p; generatedKey := k |}.
Definition set_final (e : genericEntity) : genericEntity :=
  {| EType := EType e; CreatedOn := CreatedOn e; Version := Version e; CertPath := CertPath e;
     KeyPath := KeyPath e; Final := true |}.

(** The slot of a group for a type of entity. *)
Definition get_slot (t : CertzType) (g : entityGroup) : genericEntity :=
  match t with
  | certType => Cert g | tbType => TrustBundle g | crlType => CrlBundle g | _ => AuthPolicy g
  end.
Definition set_slot (t : CertzType) (e : genericEntity) (g : entityGroup) : entityGroup :=
  match t with
  | certType => {| Cert := e; TrustBundle := TrustBundle g; CrlBundle := CrlBundle g; AuthPolicy := AuthPolicy g |}
  | tbType => {| Cert := Cert g; TrustBundle := e; CrlBundle := CrlBundle g; AuthPolicy := AuthPolicy g |}
  | crlType => {| Cert := Cert g; TrustBundle := TrustBundle g; CrlBundle := e; AuthPolicy := AuthPolicy g |}
  | _ => {| Cert := Cert g; TrustBundle := TrustBundle g; CrlBundle := CrlBundle g; AuthPolicy := e |}
  end.

Definition lift {A} (m : IO A) : ST GNSICertzServer A := λ s,
  let '(w, a) := m (cz_world s) in (set_world w s, a).

Definition Now : ST GNSICertzServer Z := λ s,
  match clock s with
  | [] => (s, 0%Z)
  | t :: l => ({| profiles := profiles s; config := config s; clock := l; cz_world := cz_world s |}, t)
  end.

Inductive cz_error := Status (c : Code) | Os (e : os_error) | Panic.

Definition os_result (e : option os_error) : option cz_error := Os <$> e.

Definition defaultProfile : string := "gnxi".
Definition certTbl : string := "CERT".
Definition crlDefault : string := "crl".
Definition crlFlush : string := "_flush".
Definition backupExt : string := ".bak".

(** ** Messages *)

(** The X.509 type and the PEM encoding of the protocol's enumerations. *)
Definition TYPE_X509 : Z := 1.
Definition ENCODING_PEM : Z := 1.

Record Certificate := {
  cert_type : Z; cert_encoding : Z; cert_bytes : option string; private_key : option string
}.

(** A chain: the certificate of its head and those of its parents, each
    possibly missing. *)
Record CertificateChain := { chain_head : option Certificate; chain_parents : list (option Certificate) }.

Record CRL := { crl_type : Z; crl_encoding : Z; crl_id : string; crl_bytes : string }.

Inductive EntityOneof :=
| EntCertChain (c : CertificateChain)
| EntTrustBundle (c : CertificateChain)
| EntCRLBundle (l : list CRL)
| EntAuthPolicy (serialized : string)
| EntNone.

Record Entity := { ent_created_on : Z; ent_version : string; ent_value : EntityOneof }.

(** [certz.CSRSuite]: key type, key size and hash; [OtherSuite] is the
    unspecified suite and any number without a name. *)
Inductive CSRSuite :=
| RSA_2048_SHA_256 | RSA_2048_SHA_384 | RSA_2048_SHA_512
| RSA_3072_SHA_256 | RSA_3072_SHA_384 | RSA_3072_SHA_512
| RSA_4096_SHA_256 | RSA_4096_SHA_384 | RSA_4096_SHA_512
| ECDSA_P256_SHA_256 | ECDSA_P256_SHA_384 | ECDSA_P256_SHA_512
| ECDSA_P384_SHA_256 | ECDSA_P384_SHA_384 | ECDSA_P384_SHA_512
| ECDSA_P521_SHA_256 | ECDSA_P521_SHA_384 | ECDSA_P521_SHA_512
| EDDSA_ED25519 | OtherSuite.

Global Instance CSRSuite_eq_dec : EqDecision CSRSuite.
Proof. solve_decision. Defined.

Record CSRParams := { csr_suite : CSRSuite; common_name : string }.

Inductive RotateReq :=
| FinalizeRotation
| GenerateCsr (params : option CSRParams)
| Certificates (entities : list Entity)
| OtherRequest.
Record RotateRequest := { rotate_request : RotateReq; ForceOverwrite : bool; SslProfileId : string }.
Inductive event := RecvError | Received (req : RotateRequest) (sent : bool).

(** [x509.SignatureAlgorithm], the cases the code names. *)
Inductive SignatureAlgorithm :=
| SHA256WithRSA | SHA384WithRSA | SHA512WithRSA
| ECDSAWithSHA256 | ECDSAWithSHA384 | ECDSAWithSHA512
| PureEd25519 | UnknownSignatureAlgorithm.

(** What [pem.Decode] and [x509.ParseRevocationList] make of a CRL. *)
Inductive crl_parse := NoPemBlock | BadCRL | GoodCRL.

(** The cryptography and the codecs the code calls.  A generated key is its
    PEM text. *)
Class CertzLib := {
  parse_crl : string → crl_parse;
  rsa_GenerateKey : Z → option string;
  ecdsa_GenerateKey : Z → option string;
  CreateCertificateRequest : CSRParams → SignatureAlgorithm → string → option string;
  EncodeProfiles : gmap string profile → option string;
  DecodeProfiles : string → gmap string profile → gmap string profile * bool
}.

(** ** Files and links *)

Definition rmSymlink (path : string) : IO (res os_error string) :=
  st ← Lstat path;
  match st with
  | Err NotExist => mret (Ok "")
  | _ =>
      old ← Readlink path;
      match old with
      | Err e => mret (Err e)
      | Ok t => e ← os_Remove path; mret (match e with Some e => Err e | None => Ok t end)
      end
  end.

Definition restoreSymlink (oldTarget link : string) : IO (option os_error) :=
  if bool_decide (oldTarget = "") then mret None
  else
    st ← Stat oldTarget;
    match st with
    | Err e => mret (Some e)
    | Ok _ =>
        r ← rmSymlink link;
        match r with Err e => mret (Some e) | Ok _ => Symlink oldTarget link end
    end.

Definition rmFileIfNotPointedToBySymlink (file link : string) : IO (option os_error) :=
  st ← Lstat link;
  match st with
  | Err NotExist => mret None
  | _ =>
      linked ← Readlink link;
      match linked with
      | Err e => mret (Some e)
      | Ok t => if bool_decide (file = t) then mret None else os_Remove file
      end
  end.

Definition isSymlinkValid (path : string) : IO bool :=
  st ← Stat path; mret (match st with Ok n => is_regular n | Err _ => false end).

Definition Abs (cfg : Config) (p : string) : res os_error string :=
  if HasPrefix p "/" then Ok (Clean p) else c ← of_option OsFault (cwd cfg); Ok (path_Abs c p).

Definition atomicSetSrvCertKeyPair (cfg : Config) (sCert sKey : string) : IO (option os_error) :=
  match (cert ← Abs cfg sCert; key ← Abs cfg sKey; Ok (cert, key)) with
  | Err e => mret (Some e)
  | Ok (cert, key) =>
      oldCert ← rmSymlink (SrvCertLnk cfg);
      match oldCert with
      | Err e => mret (Some e)
      | Ok oldCert =>
          oldKey ← rmSymlink (SrvKeyLnk cfg);
          match oldKey with
          | Err e => _ ← restoreSymlink oldCert (SrvCertLnk cfg); mret (Some e)
          | Ok oldKey =>
              let undo (e : os_error) : IO (option os_error) :=
                _ ← restoreSymlink oldCert (SrvCertLnk cfg);
                _ ← restoreSymlink oldKey (SrvKeyLnk cfg);
                mret (Some e) in
              try_ (Symlink cert (SrvCertLnk cfg)) undo
              (try_ (Symlink key (SrvKeyLnk cfg)) undo (mret None))
          end
      end
  end.

Definition atomicSetCACert (cfg : Config) (caCert : string) : IO (option os_error) :=
  match Abs cfg caCert with
  | Err e => mret (Some e)
  | Ok cert =>
      oldCert ← rmSymlink (CaCertLnk cfg);
      match oldCert with
      | Err e => mret (Some e)
      | Ok oldCert =>
          try_ (Symlink cert (CaCertLnk cfg))
               (λ e, _ ← restoreSymlink oldCert (CaCertLnk cfg); mret (Some e)) (mret None)
      end
  end.

Definition restoreFromFile (link file : string) : IO string :=
  let from_file : IO string :=
    st ← Stat file;
    mret (match st with Err NotExist => "unknown" | _ => file end) in
  st ← Lstat link;
  match st with
  | Err NotExist => from_file
  | _ =>
      r ← Readlink link;
      match r with
      | Err _ => from_file
      | Ok path => st ← Lstat path; match st with Err NotExist => from_file | _ => mret path end
      end
  end.

Definition removeEntityFiles (e : genericEntity) : IO () :=
  match EType e with
  | certType => _ ← os_Remove (CertPath e); _ ← os_Remove (KeyPath e); mret ()
  | tbType => _ ← os_Remove (CertPath e); mret ()
  | _ => mret ()
  end.

(** [for ...] loops of file calls whose errors are only logged. *)
Fixpoint for_each {A} (f : A → IO ()) (l : list A) : IO () :=
  match l with [] => mret () | x :: l => _ ← f x; for_each f l end.

Definition clear_dir (path : string) : IO () :=
  files ← ReadDir path;
  for_each (λ name, _ ← os_Remove (path_Join path name); mret ()) files.

Definition copyCRLBundle (srcPath dstPath : string) : IO () :=
  _ ← clear_dir dstPath;
  srcFiles ← ReadDir srcPath;
  for_each (λ name,
    input ← ReadFile (path_Join srcPath name);
    match input with
    | Err _ => mret ()
    | Ok d => _ ← attemptWrite (path_Join dstPath name) d; mret ()
    end) srcFiles.

(** [for ... { if err := f(x); err != nil { return err } }] *)
Fixpoint for_all {A} (f : A → IO (option cz_error)) (l : list A) : IO (option cz_error) :=
  match l with
  | [] => mret None
  | x :: l => try_ (f x) (λ e, mret (Some e)) (for_all f l)
  end.

Section server.
Context {MR : MapRange} {CL : CertzLib}.
Notation M := (ST GNSICertzServer).

Definition write_crl (path : string) (c : CRL) : IO (option cz_error) :=
  e ← attemptWrite (path_Join path (crl_id c)) (crl_bytes c);
  mret (match e with Some _ => Some (Status FailedPrecondition) | None => None end).

Definition check_crl (path : string) (c : CRL) : IO (option cz_error) :=
  if bool_decide (crl_type c ≠ TYPE_X509) then mret (Some (Status InvalidArgument))
  else if bool_decide (crl_encoding c ≠ ENCODING_PEM) then mret (Some (Status InvalidArgument))
  else if bool_decide (crl_bytes c = "") then mret (Some (Status InvalidArgument))
  else match parse_crl (crl_bytes c) with
       | NoPemBlock => mret (Some Panic)
       | BadCRL => mret (Some (Status InvalidArgument))
       | GoodCRL => write_crl path c
       end.

Definition rotateCRLBundle (certs : list CRL) (path : string) : IO (option cz_error) :=
  if bool_decide (length certs = 0) then mret (Some (Status InvalidArgument))
  else
    try_ (for_all (check_crl path) certs) (λ e, mret (Some e))
    (_ ← clear_dir path; for_all (write_crl path) certs).

(** ** Keys *)

Definition parseCSRSuite (suite : CSRSuite) : Z * SignatureAlgorithm :=
  match suite with
  | RSA_2048_SHA_256 => (2048, SHA256WithRSA)
  | RSA_2048_SHA_384 => (2048, SHA384WithRSA)
  | RSA_2048_SHA_512 => (2048, SHA512WithRSA)
  | RSA_3072_SHA_256 => (3072, SHA512WithRSA)
  | RSA_3072_SHA_384 => (3072, SHA384WithRSA)
  | RSA_3072_SHA_512 => (3072, SHA512WithRSA)
  | RSA_4096_SHA_256 => (4096, SHA512WithRSA)
  | RSA_4096_SHA_384 => (4096, SHA384WithRSA)
  | RSA_4096_SHA_512 => (4096, SHA512WithRSA)
  | ECDSA_P256_SHA_256 => (256, ECDSAWithSHA256)
  | ECDSA_P256_SHA_384 => (256, ECDSAWithSHA384)
  | ECDSA_P256_SHA_512 => (256, ECDSAWithSHA512)
  | ECDSA_P384_SHA_256 => (384, ECDSAWithSHA256)
  | ECDSA_P384_SHA_384 => (384, ECDSAWithSHA384)
  | ECDSA_P384_SHA_512 => (384, ECDSAWithSHA512)
  | ECDSA_P521_SHA_256 => (521, ECDSAWithSHA256)
  | ECDSA_P521_SHA_384 => (521, ECDSAWithSHA384)
  | ECDSA_P521_SHA_512 => (521, ECDSAWithSHA512)
  | EDDSA_ED25519 => (256, PureEd25519)
  | OtherSuite => (0, UnknownSignatureAlgorithm)
  end%Z.

Definition CanGenerateCSR (params : option CSRParams) : bool :=
  match params with Some p => negb (bool_decide (common_name p = "")) | None => false end.

Definition generate_key (keySize : Z) (sigAlgo : SignatureAlgorithm) : res cz_error string :=
  match sigAlgo with
  | SHA256WithRSA | SHA384WithRSA | SHA512WithRSA => of_option (Status Internal) (rsa_GenerateKey keySize)
  | ECDSAWithSHA256 | ECDSAWithSHA384 | ECDSAWithSHA512 =>
      if bool_decide (keySize = 256 ∨ keySize = 384 ∨ keySize = 521)%Z
      then of_option (Status Internal) (ecdsa_GenerateKey keySize)
      else Err (Status InvalidArgument)
  | PureEd25519 | UnknownSignatureAlgorithm => Err (Status InvalidArgument)
  end.

(** [doGenerateCsr]: the template reads the parameters through a pointer. *)
Definition doGenerateCsr (profileID : string) (params : option CSRParams) : M (res cz_error string) :=
  match params with
  | None => mret (Err Panic)
  | Some ps =>
      let '(keySize, sigAlgo) := parseCSRSuite (csr_suite ps) in
      match (key ← generate_key keySize sigAlgo;
             csr ← of_option (Status Internal) (CreateCertificateRequest ps sigAlgo key);
             Ok (key, csr)) with
      | Err e => mret (Err e)
      | Ok (key, csr) =>
          m ← gets profiles;
          match m !! profileID with
          | None => mret (Err Panic)
          | Some p => _ ← modify (set_profile profileID (set_key (Some key) p)); mret (Ok csr)
          end
      end
  end.

(** ** Entities *)

(** [writeEntityFreshness]: the errors of the two writes are dropped; an
    entity of an unknown type writes to a field with an empty name. *)
Definition freshness_field (t : CertzType) : string :=
  match t with
  | certType => "certificate" | tbType => "ca_trust_bundle"
  | crlType => "certificate_revocation_list_bundle" | apType => "authentication_policy"
  | unknownType => ""
  end.

Definition writeEntityFreshness (profileID : string) (e : genericEntity) : IO () :=
  let name (suffix : string) :=
    if bool_decide (EType e = unknownType) then "" else freshness_field (EType e) +:+ suffix in
  _ ← writeCredentialsMetadataToDB certTbl profileID (name "_created_on")
        (Itoa (CreatedOn e) +:+ "000000000");
  _ ← writeCredentialsMetadataToDB certTbl profileID (name "_version") (Version e);
  mret ().

(** The directory of the CRLs of a profile. *)
Definition crl_dir (cfg : Config) (profileID : string) : string :=
  path_Join (CertCRLConfig cfg)
    (if bool_decide (profileID = defaultProfile) then crlDefault else profileID).

Definition newGenericEntity (eType : CertzType) (profileID : string) (msg : Entity) : M genericEntity :=
  cfg ← gets config;
  t ← Now;
  let ver := ReplaceAll (ent_version msg) " " "-" in
  let file (dir kind : string) :=
    dir +:+ "/" +:+ profileID +:+ "_" +:+ ver +:+ "_" +:+ Itoa t +:+ kind in
  mret {| EType := eType; CreatedOn := ent_created_on msg; Version := ent_version msg;
          CertPath :=
            match eType with
            | certType => file (path_Dir (SrvCertLnk cfg)) "_cert.pem"
            | tbType => path_Dir (CaCertLnk cfg) +:+ "/ca_" +:+ profileID +:+ "_" +:+ ver +:+ "_"
                        +:+ Itoa t +:+ "_bundle.pem"
            | crlType => crl_dir cfg profileID
            | apType => FedPolicyFile cfg
            | unknownType => ""
            end;
          KeyPath := match eType with certType => file (path_Dir (SrvKeyLnk cfg)) "_key.pem" | _ => "" end;
          Final := false |}.

Definition type_of (v : EntityOneof) : option CertzType :=
  match v with
  | EntCertChain _ => Some certType | EntTrustBundle _ => Some tbType
  | EntCRLBundle _ => Some crlType | EntAuthPolicy _ => Some apType | EntNone => None
  end.

(** [readCertChain]: the parents are read without a check that they are there. *)
Fixpoint append_parents (cert : string) (l : list (option Certificate)) : res cz_error string :=
  match l with
  | [] => Ok cert
  | None :: _ => Err Panic
  | Some c :: l =>
      if bool_decide (cert_type c ≠ TYPE_X509) then Err (Status InvalidArgument)
      else if bool_decide (cert_encoding c ≠ ENCODING_PEM) then Err (Status InvalidArgument)
      else append_parents (cert +:+ default "" (cert_bytes c) +:+ String (Ascii.ascii_of_nat 10) "") l
  end.

Definition readCertChain (p : profile) (chain : CertificateChain) : res cz_error (string * string) :=
  match chain_head chain with
  | None => Err (Status InvalidArgument)
  | Some c =>
      if bool_decide (cert_type c ≠ TYPE_X509) then Err (Status InvalidArgument)
      else if bool_decide (cert_encoding c ≠ ENCODING_PEM) then Err (Status InvalidArgument)
      else
        data ← of_option (Status InvalidArgument) (cert_bytes c);
        key ← match private_key c with
              | Some k => Ok k
              | None => of_option (Status InvalidArgument) (generatedKey p)
              end;
        cert ← append_parents (data +:+ String (Ascii.ascii_of_nat 10) "") (chain_parents chain);
        Ok (cert, key)
  end.

(** [saveEntities]: [profileID] names a profile of the server. *)
Definition saveEntities (p : profile) (msg : Entity) (e : genericEntity) : IO (option cz_error) :=
  match ent_value msg with
  | EntCertChain chain =>
      match readCertChain p chain with
      | Err er => mret (Some er)
      | Ok (cert, key) =>
          try_ (attemptWrite (KeyPath e) key) (λ er, mret (Some (Os er)))
          (r ← attemptWrite (CertPath e) cert; mret (os_result r))
      end
  | EntTrustBundle chain =>
      match chain_head chain with
      | None => mret (Some Panic)
      | Some tb =>
          if bool_decide (cert_type tb ≠ TYPE_X509) then mret (Some (Status InvalidArgument))
          else if bool_decide (cert_encoding tb ≠ ENCODING_PEM) then mret (Some (Status InvalidArgument))
          else if bool_decide (default "" (cert_bytes tb) = "") then mret (Some (Status InvalidArgument))
          else r ← attemptWrite (CertPath e) (default "" (cert_bytes tb)); mret (os_result r)
      end
  | EntCRLBundle l =>
      r ← rotateCRLBundle l (CertPath e);
      mret (match r with None => None | Some Panic => Some Panic | Some _ => Some (Status Aborted) end)
  | EntAuthPolicy v =>
      let save : IO (option cz_error) :=
        try_ (attemptWrite (CertPath e) v)
             (λ er, _ ← Rename (CertPath e +:+ backupExt) (CertPath e); mret (Some (Os er)))
             (mret None) in
      st ← Lstat (CertPath e +:+ backupExt);
      match st with
      | Err NotExist => try_ (Rename (CertPath e) (CertPath e +:+ backupExt)) (λ er, mret (Some (Os er))) save
      | _ => save
      end
  | EntNone => mret (Some (Status Internal))
  end.

Definition entityAlreadyActive (profileID : string) (e : genericEntity) : M bool :=
  m ← gets profiles;
  mret (match m !! profileID with
        | None => false
        | Some p => bool_decide (Version e = Version (get_slot (EType e) (ActiveEntities p)))
        end).

(** The bookkeeping of [activateEntity]: a final active entity becomes the
    last one, the new one the active one. *)
Definition activate_slot (e : genericEntity) (p : profile) : profile :=
  let a := ActiveEntities p in
  let l := if Final (get_slot (EType e) a)
           then set_slot (EType e) (get_slot (EType e) a) (LastEntities p) else LastEntities p in
  set_groups (set_slot (EType e) e a) l p.

(** The links of an entity that has any. *)
Definition set_links (cfg : Config) (e : genericEntity) : IO (option os_error) :=
  match EType e with
  | certType => atomicSetSrvCertKeyPair cfg (CertPath e) (KeyPath e)
  | tbType => atomicSetCACert cfg (CertPath e)
  | _ => mret None
  end.

Definition activateEntity (profileID : string) (e : genericEntity) : M (option cz_error) :=
  m ← gets profiles;
  match m !! profileID with
  | None => mret (Some (Status InvalidArgument))
  | Some p =>
      cfg ← gets config;
      try_ (lift (set_links cfg e)) (λ er, mret (Some (Os er)))
      (_ ← modify (set_profile profileID (activate_slot e p));
       _ ← lift (writeEntityFreshness profileID e);
       mret None)
  end.

(** The body of the loop of [doUpload]. *)
Definition upload_one (overwrite : bool) (profileID : string) (msg : Entity) : M (option cz_error) :=
  if bool_decide (ent_created_on msg = 0%Z) then mret (Some (Status InvalidArgument))
  else if bool_decide (ent_version msg = "") then mret (Some (Status InvalidArgument))
  else
    cfg ← gets config;
    match type_of (ent_value msg) with
    | None => mret (Some (Status Internal))
    | Some t =>
        if bool_decide (t = crlType) && bool_decide (CertCRLConfig cfg = "")
        then mret (Some (Status Aborted))
        else
          e ← newGenericEntity t profileID msg;
          active ← (if overwrite then mret false else entityAlreadyActive profileID e);
          if active : bool then mret (Some (Status AlreadyExists))
          else
            m ← gets profiles;
            match m !! profileID with
            | None => mret (Some Panic)
            | Some p =>
                try_ (lift (saveEntities p msg e))
                     (λ er, mret (Some (match er with Panic => Panic | _ => Status Aborted end)))
                (try_ (activateEntity profileID e) (λ _, mret (Some (Status Aborted)))
                (mret None))
            end
    end.

Fixpoint upload_all (overwrite : bool) (profileID : string) (l : list Entity) : M (option cz_error) :=
  match l with
  | [] => mret None
  | x :: l => try_ (upload_one overwrite profileID x) (λ e, mret (Some e)) (upload_all overwrite profileID l)
  end.

Definition doUpload (entities : list Entity) (overwrite : bool) (profileID : string) : M (option cz_error) :=
  if bool_decide (length entities = 0) then mret (Some (Status InvalidArgument))
  else upload_all overwrite profileID entities.

(** ** Going back and finishing *)

(** The branch of [revertProfile] for one slot: [undo] is what it does to the
    files, with the active and the last entity. *)
Definition revert_slot (t : CertzType) (profileID : string)
    (undo : Config → genericEntity → genericEntity → IO ()) (cleanup : genericEntity → IO ())
  : M () :=
  m ← gets profiles;
  match m !! profileID with
  | None => mret ()
  | Some p =>
      let active := get_slot t (ActiveEntities p) in
      let last := get_slot t (LastEntities p) in
      if Final active then mret ()
      else
        cfg ← gets config;
        _ ← lift (undo cfg active last);
        _ ← lift (writeEntityFreshness profileID last);
        _ ← lift (cleanup active);
        modify (set_profile profileID (set_groups (set_slot t last (ActiveEntities p)) (LastEntities p) p))
  end.

Definition revertProfile (profileID : string) : M () :=
  let profileID := if bool_decide (profileID = "") then defaultProfile else profileID in
  _ ← revert_slot certType profileID
        (λ cfg _ last, _ ← atomicSetSrvCertKeyPair cfg (CertPath last) (KeyPath last); mret ())
        removeEntityFiles;
  _ ← revert_slot tbType profileID
        (λ cfg _ last, _ ← atomicSetCACert cfg (CertPath last); mret ())
        removeEntityFiles;
  _ ← revert_slot crlType profileID
        (λ cfg _ _, copyCRLBundle (crl_dir cfg profileID +:+ crlFlush) (crl_dir cfg profileID))
        (λ _, mret ());
  revert_slot apType profileID
        (λ _ active _, _ ← Rename (CertPath active +:+ backupExt) (CertPath active); mret ())
        (λ _, mret ()).

Definition saveCertzMetadata : M (option cz_error) :=
  m ← gets profiles; cfg ← gets config;
  match EncodeProfiles m with
  | None => mret (Some (Os OsFault))
  | Some data => e ← lift (attemptWrite (CertzMetaFile cfg) data); mret (os_result e)
  end.

(** The bookkeeping of [finalizeProfile] for one slot. *)
Definition finalize_slot (t : CertzType) (p : profile) : profile :=
  let e := set_final (get_slot t (ActiveEntities p)) in
  set_groups (set_slot t e (ActiveEntities p)) (set_slot t e (LastEntities p)) p.

Definition finalizeProfile (profileID : string) : M (option cz_error) :=
  m ← gets profiles; cfg ← gets config;
  match m !! profileID with
  | None => mret (Some (Status InvalidArgument))
  | Some p =>
      let a := ActiveEntities p in
      let l := LastEntities p in
      _ ← lift (if Final (Cert a) then mret () else removeEntityFiles (Cert l));
      _ ← lift (if Final (TrustBundle a) then mret () else removeEntityFiles (TrustBundle l));
      _ ← lift (if Final (CrlBundle a) then mret ()
                else copyCRLBundle (crl_dir cfg profileID) (crl_dir cfg profileID +:+ crlFlush));
      _ ← lift (if Final (AuthPolicy a) then mret ()
                else _ ← os_Remove (CertPath (AuthPolicy a) +:+ backupExt); mret ());
      let p := finalize_slot tbType (finalize_slot certType p) in
      let p := if Final (CrlBundle a) then p else finalize_slot crlType p in
      let p := finalize_slot apType p in
      _ ← modify (set_profile profileID p);
      saveCertzMetadata
  end.

(** ** The stream *)

Definition processRotateRequest (profileID : string) (req : RotateRequest) : M (option cz_error) :=
  m ← gets profiles;
  match m !! profileID with
  | None => mret (Some (Status InvalidArgument))
  | Some _ =>
      match rotate_request req with
      | GenerateCsr params =>
          r ← doGenerateCsr profileID params;
          mret (match r with Ok _ => None | Err e => Some e end)
      | Certificates l => doUpload l (ForceOverwrite req) profileID
      | _ => mret (Some (Status Aborted))
      end
  end.

(** The profile a stream works on: the one its first message names. *)
Definition choose_profile (profileId : string) (req : RotateRequest) : string :=
  if bool_decide (profileId = "")
  then if bool_decide (SslProfileId req = "") then defaultProfile else SslProfileId req
  else profileId.

(** The outcome of the call: an error status, or a panic of the handler. *)
Inductive outcome := Done | Failed (c : Code) | Panicked.

Fixpoint rotate_loop (profileId : string) (evs : list event) : M outcome :=
  match evs with
  | [] => _ ← revertProfile profileId; mret (Failed Aborted)
  | RecvError :: _ => _ ← revertProfile profileId; mret (Failed Aborted)
  | Received req sent :: evs =>
      match rotate_request req with
      | FinalizeRotation =>
          e ← finalizeProfile profileId;
          mret (match e with Some _ => Failed Unknown | None => Done end)
      | _ =>
          let profileId := choose_profile profileId req in
          e ← processRotateRequest profileId req;
          match e with
          | Some Panic => mret Panicked
          | Some _ => _ ← revertProfile profileId; mret (Failed Aborted)
          | None =>
              if sent then rotate_loop profileId evs
              else _ ← revertProfile profileId; mret (Failed Aborted)
          end
      end
  end.

Definition Rotate (auth : option Code) (locked : bool) (evs : list event) : M outcome :=
  match auth with
  | Some c => mret (Failed c)
  | None => if locked then mret (Failed Aborted) else rotate_loop "" evs
  end.

(** ** Start *)

(** The zero value of a Go entity has the first type of the enumeration. *)
Definition zero_entity : genericEntity :=
  {| EType := certType; CreatedOn := 0; Version := ""; CertPath := ""; KeyPath := ""; Final := false |}.

Definition bootstrapDefaultProfile : M profile :=
  t ← Now;
  cfg ← gets config;
  cert ← lift (restoreFromFile (SrvCertLnk cfg) (SrvCertFile cfg));
  key ← lift (restoreFromFile (SrvKeyLnk cfg) (SrvKeyFile cfg));
  ca ← lift (restoreFromFile (CaCertLnk cfg) (CaCertFile cfg));
  let entity (ty : CertzType) (c k : string) :=
    {| EType := ty; CreatedOn := t; Version := "V1"; CertPath := c; KeyPath := k; Final := true |} in
  mret {| ID := defaultProfile;
          ActiveEntities := {| Cert := entity certType cert key; TrustBundle := entity tbType ca "";
                               CrlBundle := entity crlType (CertCRLConfig cfg) "";
                               AuthPolicy := entity apType (FedPolicyFile cfg) "" |};
          LastEntities := {| Cert := zero_entity; TrustBundle := zero_entity;
                             CrlBundle := zero_entity; AuthPolicy := zero_entity |};
          generatedKey := None |}.

Definition exists_file (p : string) : IO bool :=
  st ← Lstat p; mret (match st with Err NotExist => false | _ => true end).

Definition validateProfileExists (p : profile) : IO bool :=
  if bool_decide (ID p = "") then mret false
  else
    c ← exists_file (CertPath (Cert (ActiveEntities p)));
    if negb c then mret false
    else
      k ← exists_file (KeyPath (Cert (ActiveEntities p)));
      if negb k then mret false
      else exists_file (CertPath (TrustBundle (ActiveEntities p))).

Fixpoint drop_invalid (l : list (string * profile)) : M () :=
  match l with
  | [] => mret ()
  | (k, p) :: l =>
      ok ← lift (validateProfileExists p);
      _ ← modify (λ s, if ok : bool then s else set_profiles (delete k (profiles s)) s);
      drop_invalid l
  end.

Definition loadCertzMetadata : M () :=
  cfg ← gets config;
  r ← lift (ReadFile (CertzMetaFile cfg));
  match r with
  | Err _ => mret ()
  | Ok bytes =>
      m ← gets profiles;
      let '(m', ok) := DecodeProfiles bytes m in
      _ ← modify (set_profiles m');
      if ok : bool then drop_invalid (map_range m') else mret ()
  end.

Fixpoint publish_all (l : list (string * profile)) : IO () :=
  match l with
  | [] => mret ()
  | (_, p) :: l =>
      _ ← writeEntityFreshness (ID p) (Cert (ActiveEntities p));
      _ ← writeEntityFreshness (ID p) (TrustBundle (ActiveEntities p));
      _ ← writeEntityFreshness (ID p) (CrlBundle (ActiveEntities p));
      _ ← writeEntityFreshness (ID p) (AuthPolicy (ActiveEntities p));
      publish_all l
  end.

(** [NewGNSICertzServer] up to the creation of the two CRL directories, whose
    errors are only logged. *)
Definition NewGNSICertzServer (cfg : Config) (clk : list Z) (w : World) : GNSICertzServer :=
  fst ((_ ← loadCertzMetadata;
        m ← gets profiles;
        _ ← match m !! defaultProfile with
            | Some _ => mret ()
            | None => p ← bootstrapDefaultProfile; modify (set_profile defaultProfile p)
            end;
        m ← gets profiles;
        _ ← lift (publish_all (map_range m));
        _ ← saveCertzMetadata;
        mret ()) {| profiles := ∅; config := cfg; clock := clk; cz_world := w |}).
End server.
End certz_server.
