(* ===== verification/CertzServerFacts.v ===== *)
(** * What a rotation of certificates guarantees (CertzServer.v)

    The bookkeeping of the profiles does not depend on which file or database
    calls fail: outside a rotation every active entity is final, and a
    rotation that is cut off goes back to the entities it found. *)
From stdpp Require Import base gmap list strings.
From S2P Require Import Prelude GoStrings Gnmi Redis World GnsiUtil CertzServer.

Section certz_facts.
Context {Rd : Redis}.

(** ** Slots *)

Lemma get_set_slot t e g : get_slot t (set_slot t e g) = e.
Proof. by destruct t. Qed.

Definition slot_types : list CertzType := [certType; tbType; crlType; apType].

Lemma get_set_slot_ne t t' e g :
  t ∈ slot_types → t' ∈ slot_types → t ≠ t' → get_slot t (set_slot t' e g) = get_slot t g.
Proof. intros Ht Ht' Hne. destruct t, t'; try done; unfold slot_types in *; set_solver. Qed.

Lemma slot_cases t : t ∈ slot_types → t = certType ∨ t = tbType ∨ t = crlType ∨ t = apType.
Proof. unfold slot_types. set_solver. Qed.

(** All entities of a group are final. *)
Definition all_final (g : entityGroup) : Prop := ∀ t, t ∈ slot_types → Final (get_slot t g) = true.

Global Instance all_final_dec g : Decision (all_final g).
Proof.
  refine (cast_if (decide (Forall (λ t, Final (get_slot t g) = true) slot_types)));
    by rewrite Forall_forall in *.
Defined.

Lemma group_ext g g' : (∀ t, t ∈ slot_types → get_slot t g = get_slot t g') → g = g'.
Proof.
  intros Hg. destruct g, g'.
  pose proof (Hg certType) as H1. pose proof (Hg tbType) as H2.
  pose proof (Hg crlType) as H3. pose proof (Hg apType) as H4. simpl in *.
  f_equal; [apply H1|apply H2|apply H3|apply H4]; set_solver.
Qed.

(** ** The pair of links

    No call fails any more; at most one call fails. *)
Definition calm (w : World) : Prop := Forall (eq NoFault) (faults w).
Inductive at_most_one : list fault → Prop :=
| am_nil : at_most_one []
| am_ok l : at_most_one l → at_most_one (NoFault :: l)
| am_fault f l : Forall (eq NoFault) l → at_most_one (f :: l).

Lemma calm_one l : Forall (eq NoFault) l → at_most_one l.
Proof. intros Hl. induction Hl as [|? l <- _ IH]; by constructor. Qed.

(** The allowance after some calls, and the calls that used it up. *)
Definition spares (w w' : World) : Prop := at_most_one (faults w') ∧ (calm w → calm w').
Definition used (w w' : World) : Prop := calm w' ∧ ¬ calm w.

Lemma spares_trans w1 w2 w3 : spares w1 w2 → spares w2 w3 → spares w1 w3.
Proof. unfold spares. naive_solver. Qed.
Lemma used_before w1 w2 w3 : spares w1 w2 → used w2 w3 → used w1 w3.
Proof. unfold spares, used. naive_solver. Qed.
Lemma used_after w1 w2 w3 : used w1 w2 → spares w2 w3 → used w1 w3.
Proof. unfold spares, used. naive_solver. Qed.
Hint Resolve spares_trans used_before used_after : core.

Lemma next_fault_one w w1 f :
  next_fault w = (w1, f) → at_most_one (faults w) →
  fs w1 = fs w ∧ spares w w1 ∧ (f = NoFault ∨ f ≠ NoFault ∧ used w w1).
Proof.
  unfold next_fault, spares, used, calm. destruct (faults w) as [|f' l] eqn:Hf; intros [= <- <-] H; cbn.
  { rewrite Hf. auto. }
  assert (at_most_one l ∧ (f' = NoFault ∨ Forall (eq NoFault) l)) as [Hl Hf'].
  { inversion H; subst; [auto|]. split; [by apply calm_one|auto]. }
  split; [done|]. split; [split; [done|]; by intros [_ ?]%Forall_cons|].
  destruct f'; [by left|..]; (right; split; [done|]; split; [by destruct Hf'|]; by intros [? _]%Forall_cons).
Qed.

(** Calls with at most one failure: they do what they do without failures, or
    use it up and do nothing. *)
Lemma Lstat_one w p w' r : Lstat p w = (w', r) → at_most_one (faults w) →
  fs w' = fs w ∧ spares w w' ∧ (r = of_option NotExist (fs w !! p) ∨ r = Err OsFault ∧ used w w').
Proof.
  unfold Lstat. rewrite bind_ST. destruct (next_fault w) as [w1 f] eqn:H1. intros Hr Ha.
  apply next_fault_one in H1 as (E & K & Hf); [|done].
  destruct f; cbn in Hr; injection Hr as <- <-; rewrite ?E; naive_solver.
Qed.

Lemma Stat_one w p d w' r : Stat p w = (w', r) → at_most_one (faults w) → fs w !! p = Some (Reg d) →
  fs w' = fs w ∧ spares w w' ∧ (r = Ok (Reg d) ∨ used w w').
Proof.
  unfold Stat. rewrite bind_ST. destruct (next_fault w) as [w1 f] eqn:H1. intros Hr Ha Hp.
  apply next_fault_one in H1 as (E & K & Hf); [|done].
  destruct f; cbn in Hr; [|injection Hr as <- <-; naive_solver..].
  rewrite bind_ST in Hr. cbn in Hr. rewrite E in Hr. unfold resolve in Hr. rewrite Hp in Hr. cbn in Hr. rewrite Hp in Hr.
  injection Hr as <- <-. auto.
Qed.

Lemma Readlink_one w p w' r : Readlink p w = (w', r) → at_most_one (faults w) →
  fs w' = fs w ∧ spares w w' ∧
  (r = match fs w !! p with Some (Lnk t) => Ok t | Some (Reg _) => Err NotRegular | None => Err NotExist end ∨
   r = Err OsFault ∧ used w w').
Proof.
  unfold Readlink. rewrite bind_ST. destruct (next_fault w) as [w1 f] eqn:H1. intros Hr Ha.
  apply next_fault_one in H1 as (E & K & Hf); [|done]. rewrite bind_ST in Hr. cbn in Hr. rewrite E in Hr.
  injection Hr as <- <-. split; [done|]. split; [done|].
  destruct Hf as [->|[Hf U]]; [left; by destruct (fs w !! p) as [[]|]|right].
  split; [|done]. by destruct (fs w !! p) as [[]|], f.
Qed.

Lemma Remove_one w p n w' e : os_Remove p w = (w', e) → at_most_one (faults w) → fs w !! p = Some n →
  spares w w' ∧ (e = None ∧ fs w' = delete p (fs w) ∨ e = Some OsFault ∧ fs w' = fs w ∧ used w w').
Proof.
  unfold os_Remove. rewrite bind_ST. destruct (next_fault w) as [w1 f] eqn:H1. intros Hr Ha Hp.
  apply next_fault_one in H1 as (E & K & Hf); [|done]. rewrite bind_ST in Hr. cbn in Hr. rewrite E, Hp in Hr.
  destruct f; cbn in Hr; injection Hr as <- <-; cbn; rewrite E; (split; [done|]); naive_solver.
Qed.

Lemma Symlink_one w t p w' e : Symlink t p w = (w', e) → at_most_one (faults w) → fs w !! p = None →
  spares w w' ∧ (e = None ∧ fs w' = <[p := Lnk t]> (fs w) ∨ is_Some e ∧ fs w' = fs w ∧ used w w').
Proof.
  unfold Symlink. rewrite bind_ST. destruct (next_fault w) as [w1 f] eqn:H1. intros Hr Ha Hp.
  apply next_fault_one in H1 as (E & K & Hf); [|done]. rewrite bind_ST in Hr. cbn in Hr. rewrite E, Hp in Hr.
  destruct f; cbn in Hr; injection Hr as <- <-; cbn; rewrite E; (split; [done|]); naive_solver.
Qed.

(** Taking a link away. *)
Lemma rmSymlink_one w p w' r : rmSymlink p w = (w', r) → at_most_one (faults w) →
  spares w w' ∧
  match r with
  | Ok t => fs w !! p = None ∧ t = "" ∧ fs w' = fs w ∨ fs w !! p = Some (Lnk t) ∧ fs w' = delete p (fs w)
  | Err _ => fs w' = fs w ∧ ((∃ d, fs w !! p = Some (Reg d)) ∨ used w w')
  end.
Proof.
  unfold rmSymlink. rewrite bind_ST. destruct (Lstat p w) as [w1 st] eqn:H1. intros Hr Ha.
  apply Lstat_one in H1 as (E1 & K1 & H1); [|done].
  destruct (fs w !! p) as [n|] eqn:Hp.
  - assert ((old ← Readlink p; match old with
        | Err e => mret (Err e)
        | Ok t => e ← os_Remove p; mret (match e with Some e => Err e | None => Ok t end) end) w1 = (w', r)) as Hr'.
    { destruct H1 as [->|[-> _]]; exact Hr. }
    rewrite bind_ST in Hr'. destruct (Readlink p w1) as [w2 old] eqn:H2.
    apply Readlink_one in H2 as (E2 & K2 & H2); [|apply K1]. rewrite E1, Hp in H2.
    destruct n as [d|t]; [destruct old as [t|e]; [destruct H2 as [|[]]; done|]|destruct old as [t'|e]].
    + injection Hr' as <- <-. rewrite E2. eauto 6.
    + destruct H2 as [[= <-]|[? _]]; [|done]. rewrite bind_ST in Hr'. destruct (os_Remove p w2) as [w3 e3] eqn:H3.
      apply (Remove_one _ _ (Lnk t')) in H3 as (K3 & H3); [|apply K2|by rewrite E2, E1].
      injection Hr' as <- <-. split; [eauto|]. rewrite E2, E1 in H3.
      destruct H3 as [[-> ?]|(-> & ? & ?)]; [auto|]. split; [done|]. right. eauto.
    + injection Hr' as <- <-. rewrite E2. split; [eauto|]. split; [done|]. right.
      destruct H2 as [|[_ ?]]; [done|eauto].
  - destruct H1 as [->|[-> U]]; [injection Hr as <- <-; auto|].
    rewrite bind_ST in Hr. destruct (Readlink p w1) as [w2 old] eqn:H2.
    apply Readlink_one in H2 as (E2 & K2 & H2); [|apply K1]. rewrite E1, Hp in H2.
    assert (is_ok old = false) as Hold by (destruct H2 as [->|[-> _]]; done).
    destruct old as [|e]; [done|]. injection Hr as <- <-. rewrite E2. split; [eauto|]. split; [done|]. right. eauto.
Qed.

(** Putting a link back, once the failure is used up. *)
Lemma restoreSymlink_calm w t p d w' e :
  restoreSymlink t p w = (w', e) → calm w → t ≠ "" → fs w !! t = Some (Reg d) → (∀ x, fs w !! p ≠ Some (Reg x)) →
  calm w' ∧ fs w' = <[p := Lnk t]> (fs w).
Proof.
  intros Hr Hc Ht Hd Hp. assert (t ≠ p) as Htp by (intros ->; by destruct (Hp d)).
  unfold restoreSymlink in Hr. rewrite bool_decide_false in Hr by done.
  rewrite bind_ST in Hr. destruct (Stat t w) as [w1 st] eqn:H1.
  apply (Stat_one _ _ d) in H1 as (E1 & K1 & [->|[_ ?]]); [|done|by apply calm_one|done].
  assert (calm w1) as Hc1 by by apply K1. rewrite bind_ST in Hr. destruct (rmSymlink p w1) as [w2 r] eqn:H2.
  apply rmSymlink_one in H2 as (K2 & H2); [|by apply calm_one]. assert (calm w2) as Hc2 by by apply K2.
  assert (∃ x, r = Ok x ∧ fs w2 = delete p (fs w)) as (x & -> & E2).
  { destruct r as [x|x].
    - exists x. split; [done|]. rewrite E1 in H2. destruct H2 as [(Hn & _ & ->)|[_ ->]]; [by rewrite delete_id|done].
    - rewrite E1 in H2. destruct H2 as (_ & [[y Hy]|[_ ?]]); [by destruct (Hp y)|done]. }
  apply Symlink_one in Hr as (K3 & Hs); [|by apply calm_one|by rewrite E2, lookup_delete_eq].
  split; [by apply K3|]. destruct Hs as [[_ ->]|(_ & _ & _ & ?)]; [|done]. by rewrite E2, insert_delete_eq.
Qed.

(** What the name of a link holds before: nothing, or a link to a file; and
    what was found there. *)
Definition link_ok (m : gmap string inode) (p : string) : Prop :=
  m !! p = None ∨ ∃ t d, m !! p = Some (Lnk t) ∧ t ≠ "" ∧ m !! t = Some (Reg d).
Definition found (m : gmap string inode) (p old : string) : Prop := m !! p = None ∧ old = "" ∨ m !! p = Some (Lnk old).

Lemma take_away w p w' r : rmSymlink p w = (w', r) → at_most_one (faults w) → link_ok (fs w) p →
  spares w w' ∧ match r with
              | Ok old => found (fs w) p old ∧ fs w' = delete p (fs w)
              | Err _ => fs w' = fs w ∧ used w w'
              end.
Proof.
  intros Hr Ha Hp. apply rmSymlink_one in Hr as (K & Hr); [|done]. split; [done|]. destruct r as [old|e].
  - unfold found. destruct Hr as [(Hn & -> & ->)|[Hl ->]]; [|auto]. split; [auto|]. by rewrite delete_id.
  - destruct Hr as (-> & [[d Hd]|?]); [|done]. destruct Hp as [|(t & d' & Hp & _)]; congruence.
Qed.

Lemma put_back m w p old w' e :
  restoreSymlink old p w = (w', e) → calm w → link_ok m p → found m p old →
  (∀ t d, m !! t = Some (Reg d) → fs w !! t = Some (Reg d)) → (∀ x, fs w !! p ≠ Some (Reg x)) →
  calm w' ∧ fs w' = match m !! p with Some n => <[p := n]> (fs w) | None => fs w end.
Proof.
  intros Hr Hc Hok Hf Hreg Hp. destruct Hf as [[Hn ->]|Hl].
  - rewrite Hn. injection Hr as <- <-. done.
  - destruct Hok as [|(t & d & Hl' & Ht & Hd)]; [congruence|]. rewrite Hl in Hl'. injection Hl' as <-.
    rewrite Hl. by apply (restoreSymlink_calm _ _ _ d) in Hr; auto.
Qed.

(** Equality of two maps that were only changed at two keys. *)
Ltac by_keys a b :=
  let i := fresh "i" in
  apply map_eq; intros i; destruct (decide (i = a)); [subst i|destruct (decide (i = b)); [subst i|]]; by simplify_map_eq.

(** C10. The two links of the server's certificate and key change together.
    When both names hold a link to a file or nothing, and at most one call
    fails, wherever it is: without an error both links point to the new absolute
    paths and nothing else changed; with an error every link and file is as
    before, except that a certificate link that did not exist before can be
    left behind. *)
Theorem set_pair_atomic cfg sCert sKey w w' e :
  SrvCertLnk cfg ≠ SrvKeyLnk cfg → link_ok (fs w) (SrvCertLnk cfg) → link_ok (fs w) (SrvKeyLnk cfg) →
  at_most_one (faults w) →
  atomicSetSrvCertKeyPair cfg sCert sKey w = (w', e) →
  match e with
  | Some _ => fs w' = fs w ∨
      fs w !! SrvCertLnk cfg = None ∧ ∃ cert, Abs cfg sCert = Ok cert ∧ fs w' = <[SrvCertLnk cfg := Lnk cert]> (fs w)
  | None => ∃ cert key, Abs cfg sCert = Ok cert ∧ Abs cfg sKey = Ok key ∧
      fs w' = <[SrvKeyLnk cfg := Lnk key]> (<[SrvCertLnk cfg := Lnk cert]> (fs w))
  end.
Proof.
  set (cl := SrvCertLnk cfg). set (kl := SrvKeyLnk cfg). intros Hne Hcl Hkl Ha. unfold atomicSetSrvCertKeyPair.
  destruct (Abs cfg sCert) as [cert|] eqn:Hc; cbn; [|intros [= <- <-]; by left].
  destruct (Abs cfg sKey) as [key|] eqn:Hk; cbn; [|intros [= <- <-]; by left].
  fold cl kl. rewrite bind_ST. destruct (rmSymlink cl w) as [w1 [oldCert|e1]] eqn:H1;
    (apply take_away in H1 as (K1 & H1); [|done..]); [|intros [= <- <-]; left; apply H1].
  destruct H1 as [F1 E1]. assert (link_ok (fs w1) kl) as Hkl1.
  { rewrite E1. destruct Hkl as [Hn|(t & d & Ht & Hne' & Hd)]; [left; by rewrite lookup_delete_ne|].
    right. exists t, d. rewrite lookup_delete_ne by done. split; [done|]. split; [done|]. rewrite lookup_delete_ne; [done|].
    intros <-. destruct Hcl as [|(? & ? & ? & _)]; congruence. }
  assert (∀ t d, fs w !! t = Some (Reg d) → t ≠ cl ∧ t ≠ kl) as Hreg.
  { intros t d Ht. destruct Hcl as [|(? & ? & ? & _)], Hkl as [|(? & ? & ? & _)]; split; intros ->; congruence. }
  rewrite bind_ST. destruct (rmSymlink kl w1) as [w2 [oldKey|e2]] eqn:H2;
    (apply take_away in H2 as (K2 & H2); [|apply K1|done]).
  2: { destruct H2 as [E2 [U2 _]]. rewrite bind_ST. destruct (restoreSymlink oldCert cl w2) as [w3 e3] eqn:H3.
       intros [= <- <-]. left. apply (put_back (fs w)) in H3 as [_ ->]; try done; rewrite E2, E1.
       - destruct (fs w !! cl) eqn:Hn; [by rewrite insert_delete_eq, insert_id|by rewrite delete_id].
       - intros t d Ht. rewrite lookup_delete_ne; [done|]. intros ->. by destruct (Hreg _ _ Ht).
       - intros x. by rewrite lookup_delete_eq. }
  destruct H2 as [F2 E2]. rewrite E1 in E2.
  assert (found (fs w) kl oldKey) as F2' by (unfold found in *; rewrite E1, lookup_delete_ne in F2; done).
  assert (∀ w3 w4 c', calm w3 → fs w3 = delete kl (delete cl (fs w)) ∨ fs w3 = <[cl := Lnk cert]> (delete kl (delete cl (fs w))) →
    (_ ← restoreSymlink oldCert cl; _ ← restoreSymlink oldKey kl; mret (Some c')) w3 = (w4, e) →
    ∃ c, e = Some c ∧ (fs w4 = fs w ∨ fs w !! cl = None ∧ fs w4 = <[cl := Lnk cert]> (fs w))) as Hundo.
  { intros w3 w4 c' C3 E3. rewrite bind_ST. destruct (restoreSymlink oldCert cl w3) as [w5 e5] eqn:H5.
    rewrite bind_ST. destruct (restoreSymlink oldKey kl w5) as [w6 e6] eqn:H6. intros [= <- <-]. eexists. split; [done|].
    apply (put_back (fs w)) in H5 as [C5 E5]; try done.
    - apply (put_back (fs w)) in H6 as [_ E6]; try done; rewrite ?E5.
      + rewrite E6, ?E5. clear -E3 Hne. destruct (fs w !! cl) as [n|] eqn:Hn1.
        * left. destruct (fs w !! kl) as [n'|] eqn:Hn2, E3 as [-> | ->]; by_keys cl kl.
        * destruct E3 as [-> | ->]; [left|right; split; [done|]]; destruct (fs w !! kl) as [n'|] eqn:Hn2; by_keys cl kl.
      + intros t d Ht. destruct (Hreg _ _ Ht). destruct (fs w !! cl), E3 as [-> | ->]; by simplify_map_eq.
      + intros x. destruct (fs w !! cl), E3 as [-> | ->]; by simplify_map_eq.
    - intros t d Ht. destruct (Hreg _ _ Ht). destruct E3 as [-> | ->]; by simplify_map_eq.
    - intros x. destruct E3 as [-> | ->]; by simplify_map_eq. }
  unfold try_. rewrite bind_ST. destruct (Symlink cert cl w2) as [w3 e3] eqn:H3.
  apply Symlink_one in H3 as (K3 & H3); [|apply K2|rewrite E2; by simplify_map_eq]. rewrite E2 in H3.
  destruct H3 as [[-> E3]|([c3 ->] & E3 & [C3 _])].
  2: { intros Hr. apply Hundo in Hr as (c & -> & Hr); [|done|by left]. destruct Hr as [?|[? ?]]; [by left|right]. eauto. }
  rewrite bind_ST. destruct (Symlink key kl w3) as [w4 e4] eqn:H4.
  apply Symlink_one in H4 as (K4 & H4); [|apply K3|rewrite E3; by simplify_map_eq]. rewrite E3 in H4.
  destruct H4 as [[-> E4]|([c4 ->] & E4 & [C4 _])].
  - intros [= <- <-]. exists cert, key. split_and!; [done..|]. rewrite E4. by_keys cl kl.
  - intros Hr. apply Hundo in Hr as (c & -> & Hr); [|done|by right]. destruct Hr as [?|[? ?]]; [by left|right]. eauto.
Qed.

(** ** Suites *)

(** The hash a suite names and the one of an algorithm, in bits. *)
Definition suite_hash (s : CSRSuite) : option Z :=
  match s with
  | RSA_2048_SHA_256 | RSA_3072_SHA_256 | RSA_4096_SHA_256
  | ECDSA_P256_SHA_256 | ECDSA_P384_SHA_256 | ECDSA_P521_SHA_256 => Some 256
  | RSA_2048_SHA_384 | RSA_3072_SHA_384 | RSA_4096_SHA_384
  | ECDSA_P256_SHA_384 | ECDSA_P384_SHA_384 | ECDSA_P521_SHA_384 => Some 384
  | RSA_2048_SHA_512 | RSA_3072_SHA_512 | RSA_4096_SHA_512
  | ECDSA_P256_SHA_512 | ECDSA_P384_SHA_512 | ECDSA_P521_SHA_512 => Some 512
  | EDDSA_ED25519 | OtherSuite => None
  end%Z.
Definition algo_hash (a : SignatureAlgorithm) : option Z :=
  match a with
  | SHA256WithRSA | ECDSAWithSHA256 => Some 256
  | SHA384WithRSA | ECDSAWithSHA384 => Some 384
  | SHA512WithRSA | ECDSAWithSHA512 => Some 512
  | PureEd25519 | UnknownSignatureAlgorithm => None
  end%Z.

(** The signature algorithm chosen for a suite has the hash the suite
    names, except for the two suites of RSA keys of 3072 and 4096 bits with
    SHA-256, which get SHA-512. *)
Theorem suite_hash_kept suite :
  if bool_decide (suite = RSA_3072_SHA_256 ∨ suite = RSA_4096_SHA_256)
  then algo_hash (parseCSRSuite suite).2 = Some 512%Z
  else algo_hash (parseCSRSuite suite).2 = suite_hash suite.
Proof. by destruct suite. Qed.

Section facts.
Context {MR : MapRange} {CL : CertzLib}.
Implicit Types (s : GNSICertzServer).

(** ** Programs that leave the profiles alone *)
Definition keeps {A} (m : ST GNSICertzServer A) : Prop :=
  ∀ s s' a, m s = (s', a) → profiles s' = profiles s ∧ config s' = config s.

Lemma keeps_lift {A} (m : IO A) : keeps (lift m).
Proof. intros s s' a. unfold lift. destruct (m _) as [w x]. by intros [= <- <-]. Qed.

Lemma keeps_Now : keeps Now.
Proof. intros s s' a. unfold Now. by destruct (clock s); intros [= <- <-]. Qed.

Lemma keeps_bind {A B} (m : ST GNSICertzServer A) (k : A → ST GNSICertzServer B) :
  keeps m → (∀ a, keeps (k a)) → keeps (m ≫= k).
Proof.
  intros Hm Hk s s' b. rewrite bind_ST. destruct (m s) as [s1 a] eqn:H1. intros H2.
  apply Hm in H1 as [Ha Hb]. apply Hk in H2 as [Hc Hd]. split; congruence.
Qed.

Lemma keeps_ret {A} (a : A) : keeps (mret a : ST GNSICertzServer A).
Proof. by intros s s' b [= <- <-]. Qed.

Lemma keeps_gets {A} (f : GNSICertzServer → A) : keeps (gets f).
Proof. by intros s s' b [= <- <-]. Qed.

(** ** The state of one profile during a rotation *)

(** [g] is what was active at the start: a slot still holds it, or holds an
    entity that is not final while the last final one is [g]'s. *)
Definition slot_ok (g : entityGroup) (p : profile) (t : CertzType) : Prop :=
  Final (get_slot t g) = true ∧
  (get_slot t (ActiveEntities p) = get_slot t g ∨
   Final (get_slot t (ActiveEntities p)) = false ∧ get_slot t (LastEntities p) = get_slot t g).

Definition profile_ok (g : entityGroup) (p : profile) : Prop := ∀ t, t ∈ slot_types → slot_ok g p t.

(** During a stream on profile [pid]. *)
Definition rotating (E0 : gmap string entityGroup) (pid : string) (m : gmap string profile) : Prop :=
  ∀ id, match m !! id, E0 !! id with
        | Some p, Some g => if decide (id = pid) then profile_ok g p else ActiveEntities p = g ∧ all_final g
        | None, None => True
        | _, _ => False
        end.

(** Outside of streams. *)
Definition settled (m : gmap string profile) : Prop := map_Forall (λ _ p, all_final (ActiveEntities p)) m.

Global Instance settled_dec m : Decision (settled m).
Proof. unfold settled. apply _. Defined.

Lemma settled_rotating pid m : settled m → rotating (ActiveEntities <$> m) pid m.
Proof.
  intros Hs id. rewrite lookup_fmap. destruct (m !! id) as [p|] eqn:Hp; [|done]. simpl.
  pose proof (Hs _ _ Hp) as Hf. case_decide; [|done]. intros t Ht. split; [by apply Hf|by left].
Qed.

Lemma rotating_lookup E0 pid m p :
  rotating E0 pid m → m !! pid = Some p → ∃ g, E0 !! pid = Some g ∧ profile_ok g p.
Proof.
  intros Hr Hp. specialize (Hr pid). rewrite Hp in Hr. destruct (E0 !! pid) as [g|]; [|done].
  exists g. by rewrite decide_True in Hr by done.
Qed.

Lemma rotating_update E0 pid m g p :
  rotating E0 pid m → E0 !! pid = Some g → profile_ok g p → rotating E0 pid (<[pid := p]> m).
Proof.
  intros Hr Hg Hp id. specialize (Hr id). destruct (decide (id = pid)) as [->|].
  - by rewrite lookup_insert_eq, Hg.
  - by rewrite lookup_insert_ne by done.
Qed.

Lemma activate_ok g p e :
  EType e ∈ slot_types → Final e = false → profile_ok g p → profile_ok g (activate_slot e p).
Proof.
  intros Ht He Hp t Hin. destruct (Hp t Hin) as [Hg Hc]. split; [done|].
  unfold activate_slot, set_groups. simpl. destruct (decide (t = EType e)) as [->|Hne].
  - rewrite get_set_slot. right. split; [done|].
    destruct (Final (get_slot (EType e) (ActiveEntities p))) eqn:Hfin.
    + rewrite get_set_slot. destruct Hc as [Hc|[Hc _]]; congruence.
    + destruct Hc as [Hc|[_ Hc]]; congruence.
  - rewrite get_set_slot_ne by done. destruct Hc as [Hc|[Hc1 Hc2]]; [by left|right]. split; [done|].
    case_match; [|done]. by rewrite get_set_slot_ne.
Qed.

Lemma set_key_ok g p k : profile_ok g p → profile_ok g (set_key k p).
Proof. done. Qed.

(** ** Uploads *)

Lemma newGenericEntity_run t pid msg s s' e :
  newGenericEntity t pid msg s = (s', e) →
  profiles s' = profiles s ∧ config s' = config s ∧ EType e = t ∧ Final e = false.
Proof.
  unfold newGenericEntity. rewrite bind_ST. cbn. rewrite bind_ST. destruct (Now s) as [s1 x] eqn:H1.
  apply keeps_Now in H1 as [<- <-]. by intros [= <- <-].
Qed.

Lemma activateEntity_run E0 pid e s s' er :
  rotating E0 pid (profiles s) → EType e ∈ slot_types → Final e = false →
  activateEntity pid e s = (s', er) → rotating E0 pid (profiles s').
Proof.
  intros Hr Ht Hf. unfold activateEntity, try_. rewrite bind_ST. cbn.
  destruct (profiles s !! pid) as [p|] eqn:Hp; [|by intros [= <- <-]].
  rewrite bind_ST. cbn. rewrite bind_ST.
  destruct (lift _ s) as [s1 e1] eqn:H1.
  apply keeps_lift in H1 as [H1 _]. destruct e1 as [e1|]; [intros [= <- <-]; by rewrite H1|].
  rewrite bind_ST. cbn. rewrite bind_ST.
  destruct (lift _ _) as [s2 []] eqn:H2. apply keeps_lift in H2 as [H2 _]. intros [= <- <-].
  rewrite H2. simpl. rewrite H1. destruct (rotating_lookup _ _ _ _ Hr Hp) as (g & Hg & Hok).
  eapply rotating_update; [done..|]. by apply activate_ok.
Qed.

Lemma type_of_slot v t : type_of v = Some t → t ∈ slot_types.
Proof. destruct v; intros [= <-]; unfold slot_types; set_solver. Qed.

Lemma upload_one_run E0 ow pid msg s s' er :
  rotating E0 pid (profiles s) → upload_one ow pid msg s = (s', er) → rotating E0 pid (profiles s').
Proof.
  intros Hr. unfold upload_one, try_.
  destruct (bool_decide _); [by intros [= <- <-]|]. destruct (bool_decide _); [by intros [= <- <-]|].
  rewrite bind_ST. cbn. destruct (type_of _) as [t|] eqn:Ht; [|by intros [= <- <-]].
  destruct (_ && _); [by intros [= <- <-]|].
  rewrite bind_ST. destruct (newGenericEntity t pid msg s) as [s1 e] eqn:H1.
  apply newGenericEntity_run in H1 as (H1 & _ & He1 & He2).
  rewrite bind_ST.
  assert (keeps (if ow then mret false else entityAlreadyActive pid e)) as Hk.
  { destruct ow; [apply keeps_ret|]. apply keeps_bind; [apply keeps_gets|intros; apply keeps_ret]. }
  set (check := if ow then mret false else entityAlreadyActive pid e) in *.
  destruct (check s1) as [s2 b] eqn:H2. apply Hk in H2 as [H2 _].
  rewrite <- H1, <- H2 in Hr. destruct b; [by intros [= <- <-]|].
  rewrite bind_ST. cbn. destruct (profiles s2 !! pid) as [p|]; [|by intros [= <- <-]].
  rewrite bind_ST. destruct (lift _ _) as [s3 e3] eqn:H3. apply keeps_lift in H3 as [H3 _].
  rewrite <- H3 in Hr. destruct e3 as [e3|]; [by intros [= <- <-]|].
  rewrite bind_ST. destruct (activateEntity pid e s3) as [s4 e4] eqn:H4.
  eapply activateEntity_run in H4; [|done|by rewrite He1; eapply type_of_slot|done].
  by destruct e4; intros [= <- <-].
Qed.

Lemma upload_all_run E0 ow pid l s s' er :
  rotating E0 pid (profiles s) → upload_all ow pid l s = (s', er) → rotating E0 pid (profiles s').
Proof.
  revert s. induction l as [|x l IH]; intros s Hr; simpl; [by intros [= <- <-]|].
  unfold try_. rewrite bind_ST. destruct (upload_one ow pid x s) as [s1 e1] eqn:H1.
  eapply upload_one_run in H1; [|done]. destruct e1; [by intros [= <- <-]|by apply IH].
Qed.

Lemma doGenerateCsr_run E0 pid ps s s' r :
  rotating E0 pid (profiles s) → doGenerateCsr pid ps s = (s', r) → rotating E0 pid (profiles s').
Proof.
  intros Hr. unfold doGenerateCsr. destruct ps as [ps|]; [|by intros [= <- <-]].
  destruct (parseCSRSuite _) as [sz algo].
  destruct (generate_key _ _ ≫= _) as [[key csr]|]; [|by intros [= <- <-]].
  rewrite bind_ST. cbn. destruct (profiles s !! pid) as [p|] eqn:Hp; [|by intros [= <- <-]].
  rewrite bind_ST. cbn. intros [= <- <-]. simpl.
  destruct (rotating_lookup _ _ _ _ Hr Hp) as (g & Hg & Hok).
  eapply rotating_update; [done..|]. by apply set_key_ok.
Qed.

Lemma certz_process_run E0 pid req s s' er :
  rotating E0 pid (profiles s) → processRotateRequest pid req s = (s', er) →
  rotating E0 pid (profiles s').
Proof.
  intros Hr. unfold processRotateRequest. rewrite bind_ST. cbn.
  destruct (profiles s !! pid); [|by intros [= <- <-]].
  destruct (rotate_request req) as [|ps|l|]; try by intros [= <- <-].
  - rewrite bind_ST. destruct (doGenerateCsr pid ps s) as [s1 r1] eqn:H1.
    eapply doGenerateCsr_run in H1; [|done]. by intros [= <- <-].
  - unfold doUpload. destruct (bool_decide _); [by intros [= <- <-]|]. by apply upload_all_run.
Qed.

(** ** Going back *)

(** The bookkeeping of one slot. *)
Definition revert_entity (t : CertzType) (p : profile) : profile :=
  if Final (get_slot t (ActiveEntities p)) then p
  else set_groups (set_slot t (get_slot t (LastEntities p)) (ActiveEntities p)) (LastEntities p) p.

Lemma revert_slot_run t pid undo cleanup s s' :
  revert_slot t pid undo cleanup s = (s', ()) →
  profiles s' = alter (revert_entity t) pid (profiles s).
Proof.
  unfold revert_slot. rewrite bind_ST. cbn.
  destruct (profiles s !! pid) as [p|] eqn:Hp.
  2: { intros [= <-]. apply map_eq. intros i. destruct (decide (i = pid)) as [->|].
       - by rewrite lookup_alter_eq, Hp. - by rewrite lookup_alter_ne. }
  assert (alter (revert_entity t) pid (profiles s) = <[pid := revert_entity t p]> (profiles s)) as ->.
  { apply map_eq. intros i. destruct (decide (i = pid)) as [->|].
    - by rewrite lookup_alter_eq, lookup_insert_eq, Hp. - by rewrite lookup_alter_ne, lookup_insert_ne. }
  unfold revert_entity. destruct (Final (get_slot t (ActiveEntities p))).
  - intros [= <-]. by rewrite insert_id.
  - rewrite bind_ST. cbn. rewrite bind_ST. destruct (lift _ s) as [s1 []] eqn:H1.
    rewrite bind_ST. destruct (lift _ s1) as [s2 []] eqn:H2.
    rewrite bind_ST. destruct (lift _ s2) as [s3 []] eqn:H3.
    apply keeps_lift in H1 as [H1 _], H2 as [H2 _], H3 as [H3 _].
    intros [= <-]. simpl. congruence.
Qed.

Lemma revert_entity_ok g p t :
  t ∈ slot_types → profile_ok g p →
  profile_ok g (revert_entity t p) ∧
  get_slot t (ActiveEntities (revert_entity t p)) = get_slot t g ∧
  ∀ t', t' ∈ slot_types → get_slot t' (ActiveEntities p) = get_slot t' g →
    get_slot t' (ActiveEntities (revert_entity t p)) = get_slot t' g.
Proof.
  intros Ht Hp. unfold revert_entity. destruct (Hp t Ht) as [Hg Hc].
  destruct (Final (get_slot t (ActiveEntities p))) eqn:Hf.
  - split_and!; [done| |done]. destruct Hc as [|[? _]]; [done|congruence].
  - assert (get_slot t (LastEntities p) = get_slot t g) as Hl by (destruct Hc as [|[_ ?]]; congruence).
    simpl. rewrite Hl, get_set_slot. split_and!; [|done|].
    + intros t' Ht'. destruct (Hp t' Ht') as [Hg' Hc']. split; [done|]. simpl.
      destruct (decide (t' = t)) as [->|]; [left; apply get_set_slot|]. by rewrite get_set_slot_ne.
    + intros t' Ht' Heq. destruct (decide (t' = t)) as [->|]; [apply get_set_slot|].
      by rewrite get_set_slot_ne.
Qed.

Lemma revert_all_ok g p :
  profile_ok g p →
  ActiveEntities (revert_entity apType (revert_entity crlType (revert_entity tbType
    (revert_entity certType p)))) = g.
Proof.
  intros Hp. apply group_ext.
  assert (certType ∈ slot_types ∧ tbType ∈ slot_types ∧ crlType ∈ slot_types ∧ apType ∈ slot_types)
    as (I1 & I2 & I3 & I4) by (unfold slot_types; set_solver).
  set (p1 := revert_entity certType p). set (p2 := revert_entity tbType p1).
  set (p3 := revert_entity crlType p2).
  destruct (revert_entity_ok g p certType I1 Hp) as (H1 & E1 & _).
  destruct (revert_entity_ok g p1 tbType I2 H1) as (H2 & E2 & K2).
  destruct (revert_entity_ok g p2 crlType I3 H2) as (H3 & E3 & K3).
  destruct (revert_entity_ok g p3 apType I4 H3) as (H4 & E4 & K4).
  intros t Ht.
  pose proof (slot_cases t Ht) as Hcases.
  destruct Hcases as [-> | [-> | [-> | -> ] ] ]; auto.
Qed.

(** The active entities of all profiles are those of the start. *)
Definition back_at (E0 : gmap string entityGroup) (m : gmap string profile) : Prop :=
  ActiveEntities <$> m = E0.

Lemma revertProfile_run E0 pid s s' :
  pid ≠ "" → rotating E0 pid (profiles s) → revertProfile pid s = (s', ()) →
  back_at E0 (profiles s').
Proof.
  intros Hne Hr. unfold revertProfile. rewrite (bool_decide_false (pid = "")) by done.
  rewrite bind_ST. destruct (revert_slot certType _ _ _ s) as [s1 []] eqn:H1.
  rewrite bind_ST. destruct (revert_slot tbType _ _ _ s1) as [s2 []] eqn:H2.
  rewrite bind_ST. destruct (revert_slot crlType _ _ _ s2) as [s3 []] eqn:H3. intros H4.
  apply revert_slot_run in H1, H2, H3, H4. unfold back_at. rewrite H4, H3, H2, H1.
  apply map_eq. intros id. specialize (Hr id). rewrite lookup_fmap.
  destruct (decide (id = pid)) as [->|].
  - rewrite !lookup_alter_eq. destruct (profiles s !! pid) as [p|], (E0 !! pid) as [g|]; try done.
    simpl. by rewrite (revert_all_ok g).
  - rewrite !lookup_alter_ne by done. destruct (profiles s !! id), (E0 !! id); naive_solver.
Qed.

(** ** Finishing *)

Lemma finalize_slot_final t p t' :
  t ∈ slot_types → t' ∈ slot_types →
  Final (get_slot t' (ActiveEntities p)) = true ∨ t' = t →
  Final (get_slot t' (ActiveEntities (finalize_slot t p))) = true.
Proof.
  intros Ht Ht' Hc. unfold finalize_slot. simpl. destruct (decide (t' = t)) as [->|Hne].
  - by rewrite get_set_slot.
  - rewrite get_set_slot_ne by done. by destruct Hc.
Qed.

Lemma saveCertzMetadata_keeps : keeps saveCertzMetadata.
Proof.
  unfold saveCertzMetadata. apply keeps_bind; [apply keeps_gets|intros m].
  apply keeps_bind; [apply keeps_gets|intros cfg].
  destruct (EncodeProfiles m); [|apply keeps_ret].
  apply keeps_bind; [apply keeps_lift|intros; apply keeps_ret].
Qed.

Lemma finalize_profile_final g p :
  profile_ok g p →
  all_final (ActiveEntities (finalize_slot apType
    (if Final (CrlBundle (ActiveEntities p)) then finalize_slot tbType (finalize_slot certType p)
     else finalize_slot crlType (finalize_slot tbType (finalize_slot certType p))))).
Proof.
  intros _ t Ht.
  pose proof (slot_cases t Ht) as Hcases.
  destruct (Final (CrlBundle (ActiveEntities p))) eqn:Hc;
    destruct Hcases as [-> | [-> | [-> | -> ] ] ]; done.
Qed.

Lemma finalizeProfile_run E0 pid s s' e :
  rotating E0 pid (profiles s) → finalizeProfile pid s = (s', e) →
  (settled (profiles s') ∧ is_Some (profiles s !! pid)) ∨
  (profiles s' = profiles s ∧ profiles s !! pid = None).
Proof.
  intros Hr. unfold finalizeProfile. rewrite bind_ST. cbn. rewrite bind_ST. cbn.
  destruct (profiles s !! pid) as [p|] eqn:Hp; [|intros [= <- <-]; by right].
  rewrite bind_ST. destruct (lift _ s) as [s1 []] eqn:H1.
  rewrite bind_ST. destruct (lift _ s1) as [s2 []] eqn:H2.
  rewrite bind_ST. destruct (lift _ s2) as [s3 []] eqn:H3.
  rewrite bind_ST. destruct (lift _ s3) as [s4 []] eqn:H4.
  apply keeps_lift in H1 as [H1 _], H2 as [H2 _], H3 as [H3 _], H4 as [H4 _].
  rewrite bind_ST. cbn. intros [H5 _]%saveCertzMetadata_keeps. left. split; [|done].
  rewrite H5. simpl. rewrite H4, H3, H2, H1.
  destruct (rotating_lookup _ _ _ _ Hr Hp) as (g & Hg & Hok).
  intros id q. destruct (decide (id = pid)) as [->|].
  - rewrite lookup_insert_eq. intros [= <-]. by eapply finalize_profile_final.
  - rewrite lookup_insert_ne by done. intros Hq. specialize (Hr id). rewrite Hq in Hr.
    destruct (E0 !! id); [|done]. rewrite decide_False in Hr by done. by destruct Hr as [-> ?].
Qed.

Lemma back_at_settled E0 m : back_at E0 m → map_Forall (λ _ g, all_final g) E0 → settled m.
Proof.
  intros <- HE id p Hp. apply (HE id). by rewrite lookup_fmap, Hp.
Qed.

(** ** The stream *)

(** How a stream can end. *)
Definition ended (E0 : gmap string entityGroup) (o : outcome) (m : gmap string profile) : Prop :=
  match o with
  | Done => settled m
  | Failed c => back_at E0 m ∨ c = Unknown ∧ settled m
  | Panicked => True
  end.

Lemma choose_profile_ne pid req : choose_profile pid req ≠ "".
Proof. unfold choose_profile. repeat case_bool_decide; done. Qed.

Lemma choose_profile_keep pid req : pid ≠ "" → choose_profile pid req = pid.
Proof. intros. unfold choose_profile. by rewrite bool_decide_false. Qed.

Lemma revert_step E0 pid s s' c :
  pid ≠ "" → rotating E0 pid (profiles s) →
  (_ ← revertProfile pid; mret (Failed c)) s = (s', Failed c) → back_at E0 (profiles s').
Proof.
  intros Hne Hr. rewrite bind_ST. destruct (revertProfile pid s) as [s1 []] eqn:H1.
  intros [= <-]. by eapply revertProfile_run.
Qed.

Lemma rotate_loop_run E0 pid evs s s' o :
  pid ≠ "" → rotating E0 pid (profiles s) → rotate_loop pid evs s = (s', o) →
  ended E0 o (profiles s').
Proof.
  intros Hne. revert s. induction evs as [|[|req sent] evs IH]; intros s Hr; cbn [rotate_loop].
  - rewrite bind_ST. destruct (revertProfile pid s) as [s1 []] eqn:H1. intros [= <- <-].
    left. by eapply revertProfile_run.
  - rewrite bind_ST. destruct (revertProfile pid s) as [s1 []] eqn:H1. intros [= <- <-].
    left. by eapply revertProfile_run.
  - rewrite choose_profile_keep by done.
    assert ((e ← processRotateRequest pid req;
             match e with
             | Some Panic => mret Panicked
             | Some _ => _ ← revertProfile pid; mret (Failed Aborted)
             | None => if sent then rotate_loop pid evs else _ ← revertProfile pid; mret (Failed Aborted)
             end) s = (s', o) → ended E0 o (profiles s')) as Hproc.
    { rewrite bind_ST. destruct (processRotateRequest pid req s) as [s1 e1] eqn:H1.
      eapply certz_process_run in H1; [|done].
      assert ((_ ← revertProfile pid; mret (Failed Aborted)) s1 = (s', o) → ended E0 o (profiles s')) as Hrev.
      { rewrite bind_ST. destruct (revertProfile pid s1) as [s2 []] eqn:H2. intros [= <- <-].
        left. by eapply revertProfile_run. }
      destruct e1 as [[]|]; [exact Hrev|exact Hrev|by intros [= <- <-]|].
      destruct sent; [by apply IH|exact Hrev]. }
    destruct (rotate_request req); [|exact Hproc..].
    rewrite bind_ST. destruct (finalizeProfile pid s) as [s1 e1] eqn:H1. intros [= <- <-].
    pose proof H1 as Hf. eapply finalizeProfile_run in Hf; [|done].
    destruct Hf as [[Hs _]|[Hs Hn]].
    + destruct e1; [right; split; done|done].
    + assert (e1 = Some (Status InvalidArgument)) as ->.
      { revert H1. unfold finalizeProfile. rewrite bind_ST. cbn. rewrite bind_ST. cbn. rewrite Hn.
        by intros [= _ <-]. }
      left. unfold back_at. rewrite Hs. apply map_eq. intros id. specialize (Hr id).
      rewrite lookup_fmap. destruct (decide (id = pid)) as [->|].
      * rewrite Hn in Hr |- *. by destruct (E0 !! pid).
      * destruct (profiles s !! id), (E0 !! id); naive_solver.
Qed.

Lemma revertProfile_empty : revertProfile "" = revertProfile defaultProfile.
Proof. done. Qed.

Lemma rotate_loop_start evs s s' o :
  settled (profiles s) → rotate_loop "" evs s = (s', o) →
  ended (ActiveEntities <$> profiles s) o (profiles s').
Proof.
  intros Hs. destruct evs as [|[|req sent] evs].
  - cbn [rotate_loop]. rewrite revertProfile_empty.
    apply (rotate_loop_run _ defaultProfile []); [done|by apply settled_rotating].
  - cbn [rotate_loop]. rewrite revertProfile_empty.
    apply (rotate_loop_run _ defaultProfile [RecvError]); [done|by apply settled_rotating].
  - destruct (rotate_request req) eqn:Hreq.
    2-4: intros Hl; apply (rotate_loop_run _ (choose_profile "" req) (Received req sent :: evs) s);
      [apply choose_profile_ne|by apply settled_rotating|];
      rewrite <- Hl; cbn [rotate_loop]; rewrite Hreq;
      by rewrite (choose_profile_keep (choose_profile "" req)) by apply choose_profile_ne.
    cbn [rotate_loop]. rewrite Hreq, bind_ST.
    destruct (finalizeProfile "" s) as [s1 e1] eqn:H1. intros [= <- <-].
    pose proof (finalizeProfile_run _ _ _ _ _ (settled_rotating "" _ Hs) H1) as [[Hs1 _]|[Hs1 Hn]].
    + destruct e1; [by right|done].
    + destruct e1; [left; unfold back_at; by rewrite Hs1|]. unfold ended. by rewrite Hs1.
Qed.

(** C9. Rotation of certificates: whatever calls fail, when every active
    entity was final before the stream, then every one is final after it
    (unless the handler panics); and a stream that fails in any way other than
    at its finalize message leaves in every profile exactly the active
    entities it found. *)
Theorem certz_rotation_outcome evs s s' o :
  settled (profiles s) → Rotate None false evs s = (s', o) → o ≠ Panicked →
  settled (profiles s') ∧
  ∀ c, o = Failed c → c ≠ Unknown →
    ∀ id, ActiveEntities <$> profiles s' !! id = ActiveEntities <$> profiles s !! id.
Proof.
  intros Hs Hrot Hnp. apply rotate_loop_start in Hrot; [|done].
  assert (map_Forall (λ _ g, all_final g) (ActiveEntities <$> profiles s)) as HE.
  { intros id g. rewrite lookup_fmap. destruct (profiles s !! id) as [p|] eqn:Hp; [|done].
    intros [= <-]. by apply (Hs id). }
  destruct o as [|c|]; [by split| |done]. destruct Hrot as [Hb|[-> Hb]].
  - split; [by eapply back_at_settled|]. intros _ _ _ id.
    by rewrite <- !lookup_fmap, <- Hb.
  - split; [done|]. by intros c [= <-].
Qed.

(** ** Panics *)

(** A message that reads a field the client left out. *)
Definition csr_without_params : RotateRequest :=
  {| rotate_request := GenerateCsr None; ForceOverwrite := false; SslProfileId := "" |}.

Definition upload_of (v : EntityOneof) : RotateRequest :=
  {| rotate_request := Certificates [{| ent_created_on := 1; ent_version := "v"; ent_value := v |}];
     ForceOverwrite := true; SslProfileId := "" |}.

Definition good_cert : Certificate :=
  {| cert_type := TYPE_X509; cert_encoding := ENCODING_PEM; cert_bytes := Some "c"; private_key := Some "k" |}.

Lemma saveEntities_panics p e w :
  saveEntities p {| ent_created_on := 1; ent_version := "v";
    ent_value := EntTrustBundle {| chain_head := None; chain_parents := [] |} |} e w = (w, Some Panic) ∧
  saveEntities p {| ent_created_on := 1; ent_version := "v";
    ent_value := EntCertChain {| chain_head := Some good_cert; chain_parents := [None] |} |} e w
  = (w, Some Panic).
Proof. done. Qed.

Lemma upload_one_panics v s :
  is_Some (profiles s !! defaultProfile) → type_of v = Some certType ∨ type_of v = Some tbType →
  (∀ p e w, saveEntities p {| ent_created_on := 1; ent_version := "v"; ent_value := v |} e w = (w, Some Panic)) →
  (upload_one true defaultProfile
     {| ent_created_on := 1; ent_version := "v"; ent_value := v |} s).2 = Some Panic.
Proof.
  intros [p Hp] Ht Hsave. unfold upload_one. rewrite !bool_decide_false by done.
  rewrite bind_ST. unfold gets. cbn [ent_value]. destruct (type_of v) as [t|]; [|naive_solver].
  assert (bool_decide (t = crlType) = false) as -> by (apply bool_decide_eq_false; naive_solver).
  cbn [andb]. rewrite bind_ST. destruct (newGenericEntity _ _ _ s) as [s1 e] eqn:H1.
  apply newGenericEntity_run in H1 as (Hp1 & _). rewrite bind_ST. unfold mret, ST_ret. cbn.
  rewrite bind_ST. unfold gets. rewrite Hp1, Hp. unfold try_. rewrite bind_ST. unfold lift.
  by rewrite Hsave.
Qed.

Lemma upload_panics v s :
  is_Some (profiles s !! defaultProfile) → type_of v = Some certType ∨ type_of v = Some tbType →
  (∀ p e w, saveEntities p {| ent_created_on := 1; ent_version := "v"; ent_value := v |} e w = (w, Some Panic)) →
  (Rotate None false [Received (upload_of v) true] s).2 = Panicked.
Proof.
  intros [p Hp] Ht Hsave. unfold Rotate. cbn [rotate_loop upload_of rotate_request].
  rewrite bind_ST. unfold processRotateRequest. rewrite bind_ST. unfold gets.
  change (choose_profile "" _) with defaultProfile. rewrite Hp.
  cbn [rotate_request ForceOverwrite upload_of]. unfold doUpload. rewrite bool_decide_false by done.
  cbn [upload_all]. unfold try_. rewrite bind_ST.
  pose proof (upload_one_panics v s (mk_is_Some _ _ Hp) Ht Hsave) as Hup.
  destruct (upload_one _ _ _ s) as [s1 e1]. cbn in Hup. by subst e1.
Qed.

(** A client that is let in can make the handler panic: by asking for a
    signing request without parameters, by uploading a trust bundle without a
    certificate, or a certificate chain with a parent without a certificate. *)
Theorem certz_panics s :
  is_Some (profiles s !! defaultProfile) →
  (Rotate None false [Received csr_without_params true] s).2 = Panicked ∧
  (Rotate None false [Received (upload_of
     (EntTrustBundle {| chain_head := None; chain_parents := [] |})) true] s).2 = Panicked ∧
  (Rotate None false [Received (upload_of
     (EntCertChain {| chain_head := Some good_cert; chain_parents := [None] |})) true] s).2 = Panicked.
Proof.
  intros [p Hp]. split; [|split].
  - unfold Rotate. cbn [rotate_loop csr_without_params rotate_request]. rewrite bind_ST.
    unfold processRotateRequest. rewrite bind_ST. unfold gets.
    change (choose_profile "" _) with defaultProfile. rewrite Hp. done.
  - apply upload_panics; [done|by right|]. intros. apply saveEntities_panics.
  - apply upload_panics; [done|by left|]. intros. apply saveEntities_panics.
Qed.
End facts.

End certz_facts.

(** ** Instances at a concrete server *)
Module CertzExample.
#[local] Instance server_db : Redis := map_redis.
#[local] Instance range : MapRange := canonical_range.
#[local] Instance lib : CertzLib := {|
  parse_crl s := if HasPrefix s "-----" then GoodCRL else NoPemBlock;
  rsa_GenerateKey n := Some ("rsa" +:+ Itoa n);
  ecdsa_GenerateKey n := Some ("ec" +:+ Itoa n);
  CreateCertificateRequest p _ k := Some (common_name p +:+ k);
  EncodeProfiles m := Some (Itoa (Z.of_nat (size m)));
  DecodeProfiles _ m := (m, false) |}.

Definition cfg : Config := {|
  SrvCertLnk := "/keys/cert.lnk"; SrvKeyLnk := "/keys/key.lnk"; CaCertLnk := "/keys/ca.lnk";
  SrvCertFile := "/keys/cert.pem"; SrvKeyFile := "/keys/key.pem"; CaCertFile := "/keys/ca.pem";
  CertCRLConfig := "/keys/crls"; FedPolicyFile := "/keys/fed"; CertzMetaFile := "/keys/meta";
  cwd := Some "/" |}.
Definition files : gmap string inode :=
  {[ "/keys/cert.pem" := Reg "c0"; "/keys/key.pem" := Reg "k0"; "/keys/ca.pem" := Reg "a0";
     "/keys/fed" := Reg "f0";
     "/keys/cert.lnk" := Lnk "/keys/cert.pem"; "/keys/key.lnk" := Lnk "/keys/key.pem" ]}.
Definition empty_db : redis := (∅ : gmap string (gmap string string)).
Definition server0 : GNSICertzServer := NewGNSICertzServer cfg [1; 2; 3]%Z {| fs := files; db := empty_db; faults := [] |}.
Definition new_cert : RotateRequest :=
  upload_of (EntCertChain {| chain_head := Some good_cert; chain_parents := [] |}).

Lemma settled0 : settled (profiles server0).
Proof. apply (bool_decide_unpack _). vm_compute. exact I. Qed.

Lemma certz_rotation_outcome_witness :
  settled (profiles (Rotate None false [Received new_cert true] server0).1) ∧
  ∀ c, Failed Aborted = Failed c → c ≠ Unknown →
    ∀ id, ActiveEntities <$> profiles (Rotate None false [Received new_cert true] server0).1 !! id
        = ActiveEntities <$> profiles server0 !! id.
Proof.
  apply (certz_rotation_outcome [Received new_cert true] server0).
  - apply settled0.
  - apply pair_snd_eq. vm_compute. reflexivity.
  - done.
Defined.

Lemma certz_panics_witness :
  (Rotate None false [Received csr_without_params true] server0).2 = Panicked.
Proof.
  assert (is_Some (profiles server0 !! defaultProfile)) as Hp by (vm_compute; eexists; reflexivity).
  exact (proj1 (certz_panics server0 Hp)).
Defined.

(** The link of the key cannot be made: both old links are put back. *)
Definition failing_link : World := {| fs := files; db := empty_db; faults := replicate 7 NoFault ++ [Fault] |}.

Lemma set_pair_atomic_witness :
  (atomicSetSrvCertKeyPair cfg "/keys/c1" "/keys/k1" failing_link).2 = Some OsFault ∧
  fs (atomicSetSrvCertKeyPair cfg "/keys/c1" "/keys/k1" failing_link).1 = fs failing_link.
Proof.
  assert (SrvCertLnk cfg ≠ SrvKeyLnk cfg) as H1 by done.
  assert (link_ok (fs failing_link) (SrvCertLnk cfg)) as H2 by (right; eexists _, _; vm_compute; done).
  assert (link_ok (fs failing_link) (SrvKeyLnk cfg)) as H3 by (right; eexists _, _; vm_compute; done).
  assert (at_most_one (faults failing_link)) as H4 by (do 7 apply am_ok; apply am_fault; constructor).
  assert (atomicSetSrvCertKeyPair cfg "/keys/c1" "/keys/k1" failing_link =
    ((atomicSetSrvCertKeyPair cfg "/keys/c1" "/keys/k1" failing_link).1, Some OsFault)) as H5
    by (apply pair_snd_eq; vm_compute; reflexivity).
  split; [rewrite H5; reflexivity|].
  destruct (set_pair_atomic cfg _ _ _ _ _ H1 H2 H3 H4 H5) as [H|[H _]]; [exact H|]. vm_compute in H. discriminate H.
Defined.

(** The links after an upload and after it is cut off. *)
Example links_follow :
  let run evs := fs (cz_world (Rotate None false evs server0).1) in
  (run [Received new_cert true] !! "/keys/cert.lnk",
   run [Received new_cert true; Received {| rotate_request := FinalizeRotation;
          ForceOverwrite := false; SslProfileId := "" |} true] !! "/keys/cert.lnk")
  = (Some (Lnk "/keys/cert.pem"), Some (Lnk "/keys/gnxi_v_2_cert.pem")).
Proof. vm_compute. reflexivity. Qed.
End CertzExample.
