(* ===== verification/Bypass.v ===== *)
(** * Direct writes to the configuration database (src/pkg/bypass/bypass.go)

    A Set request that carries a header, on a device of certain models, may
    write certain tables straight to CONFIG_DB.  [db] of the world is that
    database; a connection or a command can fail like any call of World.v. *)
From stdpp Require Import base gmap sets list strings.
From S2P Require Import Prelude GoStrings Gnmi Json Redis World.

Definition MetadataKeyBypassValidation : string := "x-sonic-ss-bypass-validation".

Definition AllowedTables : gset string :=
  {[ "VNET"; "VNET_ROUTE_TUNNEL"; "VLAN_SUB_INTERFACE"; "ACL_RULE"; "BGP_PEER_RANGE" ]}.

Definition AllowedSKUPrefixes : list string := ["Cisco-8102"; "Cisco-8101"; "Cisco-8223"].

(** The incoming metadata of a request; [None] when the context is nil or
    has none. *)
Definition Context_ : Type := option (gmap string (list string)).

(** [getConfigDbClientDefault]: the network and address of the client, from
    the environment and from whether the default socket is there. *)
Definition getConfigDbClientDefault (redis_addr : string) (socket_exists : bool) : string * string :=
  if bool_decide (redis_addr ≠ "") then
    (if HasPrefix redis_addr "/" then "unix" else "tcp", redis_addr)
  else if socket_exists then ("unix", "/var/run/redis/redis.sock")
  else ("tcp", "127.0.0.1:6379").

Definition hasBypassHeader (ctx : Context_) : bool :=
  match ctx with
  | None => false
  | Some md =>
      match md !! MetadataKeyBypassValidation with
      | Some (v :: _) => bool_decide (v = "true")
      | _ => false
      end
  end.

(** ** Paths *)

(** The names of a path that are neither the database nor the host. *)
Definition skipped (name : string) : bool :=
  bool_decide (name = "CONFIG_DB") || bool_decide (name = "localhost").

Definition full_elems (prefix path : option Path) : list PathElem := GetElem prefix ++ GetElem path.

Fixpoint first_kept (elems : list PathElem) : string :=
  match elems with
  | [] => ""
  | e :: elems => if skipped (elem_name e) then first_kept elems else elem_name e
  end.

Definition extractTable (prefix path : option Path) : string := first_kept (full_elems prefix path).

Definition decodeJsonPointer (s : string) : string :=
  ReplaceAll (ReplaceAll s "~1" "/") "~0" "~".

(** The parts of the path, and the table, key and field they name. *)
Definition path_parts (prefix path : option Path) : list string :=
  filter (λ n, skipped n = false) (elem_name <$> full_elems prefix path).

Definition parsePath (prefix path : option Path) : string * string * string :=
  let parts := path_parts prefix path in
  (default "" (parts !! 0), from_option decodeJsonPointer "" (parts !! 1), default "" (parts !! 2)).

Definition allowed (table : string) : bool :=
  negb (bool_decide (table = "")) && bool_decide (table ∈ AllowedTables).

Definition checkAllowedDeletePaths (prefix : option Path) (deletes : list (option Path)) : bool :=
  forallb (λ path, allowed (extractTable prefix path)) deletes.

Definition checkAllowedTables (prefix : option Path) (updates : list Update) : bool :=
  forallb (λ u, allowed (extractTable prefix (upd_path u))) updates.

(** ** Values *)

(** [fmt.Sprintf("%v", v)] of a decoded value: of numbers, lists and maps it
    is the business of package fmt. *)
Class GoFmt := { fmt_number : Z → string; fmt_composite : json → string }.

Section values.
Context {Fmt : GoFmt} {MR : MapRange}.

Definition Sprintv (v : json) : string :=
  match v with
  | JNull => "<nil>"
  | JBool b => if b then "true" else "false"
  | JNum n => fmt_number n
  | JStr s => s
  | JArr _ | JObj _ => fmt_composite v
  end.

Definition redis_field (kv : string * json) : string * string :=
  match kv with
  | (k, JArr l) => (k +:+ "@", Join (Sprintv <$> l) ",")
  | (k, v) => (k, Sprintv v)
  end.

Definition convertToRedisFields (data : gmap string json) : gmap string string :=
  foldl (λ fields kv, let '(k, v) := redis_field kv in <[k := v]> fields) ∅ (map_range data).

(** The fields with the place holder of an empty entry. *)
Definition entry_fields (data : gmap string json) : list (string * string) :=
  let fields := convertToRedisFields data in
  map_range (if bool_decide (fields = ∅) then <["NULL" := "NULL"]> fields else fields).

(** [json.Unmarshal] into a map of values, or of maps of values: a JSON null
    leaves a nil map, anything but an object is an error. *)
Definition decode_fields (v : json) : option (gmap string json) :=
  match v with JNull => Some ∅ | JObj m => Some m | _ => None end.

Definition decode_bulk (v : json) : option (gmap string (gmap string json)) :=
  match v with
  | JNull => Some ∅
  | JObj m => if bool_decide (map_Forall (λ _ x, is_Some (decode_fields x)) m)
              then Some (default ∅ ∘ decode_fields <$> m) else None
  | _ => None
  end.
End values.

(** ** Operations *)
Section bypass.
Context {Rd : Redis} {Fmt : GoFmt} {MR : MapRange} {JC : JsonCodec}.

Inductive bp_error := NoClient | InvalidPath | BulkNeedsJson | BadJson | HSetFailed | DelFailed.

(** The client is made on every call and may not be available. *)
Definition getConfigDbClient : IO (option os_error) :=
  f ← next_fault; mret (match f with NoFault => None | _ => Some RedisFault end).

Definition checkSKU : IO bool :=
  try_ getConfigDbClient (λ _, mret false)
  (r ← HGet "DEVICE_METADATA|localhost" "hwsku";
   mret (match r with
         | Err _ => false
         | Ok hwsku => existsb (HasPrefix hwsku) AllowedSKUPrefixes
         end)).

Definition ShouldBypass (ctx : Context_) (prefix : option Path) (updates : list Update) : IO bool :=
  if negb (hasBypassHeader ctx) then mret false
  else sku ← checkSKU; mret (if sku : bool then checkAllowedTables prefix updates else false).

Definition ShouldBypassDelete (ctx : Context_) (prefix : option Path) (deletes : list (option Path))
  : IO bool :=
  if negb (hasBypassHeader ctx) then mret false
  else sku ← checkSKU; mret (if sku : bool then checkAllowedDeletePaths prefix deletes else false).

(** [HSet] of an entry, with the error of the caller. *)
Definition write_entry (redisKey : string) (fields : list (string * string)) : IO (option bp_error) :=
  e ← HSetFields redisKey fields;
  mret (match e with Some _ => Some HSetFailed | None => None end).

(** A loop that stops at the first error. *)
Fixpoint run_all {A} (f : A → IO (option bp_error)) (l : list A) : IO (option bp_error) :=
  match l with
  | [] => mret None
  | x :: l => try_ (f x) (λ e, mret (Some e)) (run_all f l)
  end.

Definition scalar_text (val : option TypedValue) : string :=
  if bool_decide (GetStringVal val ≠ "") then GetStringVal val
  else if bool_decide (GetIntVal val ≠ 0%Z) then Itoa (GetIntVal val)
  else if bool_decide (GetUintVal val ≠ 0%Z) then Itoa (GetUintVal val)
  else "".

Definition apply_one (prefix : option Path) (u : Update) : IO (option bp_error) :=
  let '(table, key, field) := parsePath prefix (upd_path u) in
  if bool_decide (table = "") then mret (Some InvalidPath)
  else
    let jsonVal := GetJsonIetfVal (upd_val u) in
    if bool_decide (key = "") then
      if bool_decide (jsonVal = "") then mret (Some BulkNeedsJson)
      else match Unmarshal jsonVal ≫= decode_bulk with
           | None => mret (Some BadJson)
           | Some bulkData =>
               run_all (λ '(entryKey, entryFields),
                  write_entry (table +:+ "|" +:+ entryKey) (entry_fields entryFields))
                 (map_range bulkData)
           end
    else
      let redisKey := table +:+ "|" +:+ key in
      if bool_decide (jsonVal ≠ "") then
        match Unmarshal jsonVal ≫= decode_fields with
        | None => mret (Some BadJson)
        | Some data => write_entry redisKey (entry_fields data)
        end
      else if bool_decide (field ≠ "") then write_entry redisKey [(field, scalar_text (upd_val u))]
      else mret None.

Definition Apply (prefix : option Path) (updates : list Update) : IO (option bp_error) :=
  try_ getConfigDbClient (λ _, mret (Some NoClient)) (run_all (apply_one prefix) updates).

Definition delete_one (prefix path : option Path) : IO (option bp_error) :=
  let '(table, key, _) := parsePath prefix path in
  if bool_decide (table = "") || bool_decide (key = "") then mret (Some InvalidPath)
  else e ← Del (table +:+ "|" +:+ key);
       mret (match e with Some _ => Some DelFailed | None => None end).

Definition Delete (prefix : option Path) (deletes : list (option Path)) : IO (option bp_error) :=
  try_ getConfigDbClient (λ _, mret (Some NoClient)) (run_all (delete_one prefix) deletes).

(** The results of the answer. *)
Inductive Op := DELETE | UPDATE.
Definition SetResponse : Type := option Path * list (option Path * Op).

(** [TrySet]: the answer and whether the fast path was taken, or its error. *)
Inductive try_result := NotUsed | Used (r : SetResponse) | UsedFailed (e : bp_error).

Definition TrySet (ctx : Context_) (prefix : option Path) (deletes : list (option Path))
    (updates : list Update) : IO try_result :=
  if bool_decide (length updates = 0) && bool_decide (length deletes = 0) then mret NotUsed
  else
    ok ← (if bool_decide (length updates = 0) then mret true else ShouldBypass ctx prefix updates);
    if negb ok then mret NotUsed
    else
      okd ← (if bool_decide (length deletes = 0) then mret true else ShouldBypassDelete ctx prefix deletes);
      if negb okd then mret NotUsed
      else
        try_ (if bool_decide (length deletes = 0) then mret None else Delete prefix deletes)
             (λ e, mret (UsedFailed e))
        (try_ (if bool_decide (length updates = 0) then mret None else Apply prefix updates)
             (λ e, mret (UsedFailed e))
        (mret (Used (prefix, ((λ d, (d, DELETE)) <$> deletes) ++ ((λ u, (upd_path u, UPDATE)) <$> updates))))).
End bypass.
