(* ===== verification/BypassFacts.v ===== *)
(** * What the direct writes can touch (Bypass.v)

    Nothing but allowed tables, and only for requests that carry the header on
    an allowed device; a delete and an update of one entry replace it exactly;
    keys survive the escaping of paths. *)
From Stdlib Require Import Ascii.
From stdpp Require Import base gmap sets list strings.
From S2P Require Import Prelude GoStrings Gnmi Json Redis World Bypass.

(** ** The table of a path *)

Lemma first_kept_parts elems :
  first_kept elems = default "" (filter (λ n, skipped n = false) (elem_name <$> elems) !! 0).
Proof.
  induction elems as [|e elems IH]; [done|]. simpl. destruct (skipped (elem_name e)) eqn:Hs.
  - rewrite filter_cons_False by congruence. done.
  - by rewrite filter_cons_True.
Qed.

(** The table the checks look at is the one the writes go to. *)
Lemma extractTable_parsePath prefix path : extractTable prefix path = (parsePath prefix path).1.1.
Proof. apply first_kept_parts. Qed.

Lemma allowed_spec t : allowed t = true → t ∈ AllowedTables.
Proof. unfold allowed. intros [_ Ht%bool_decide_eq_true]%andb_true_iff. done. Qed.

(** ** Escaped keys *)

(** The escaping of RFC 6901, for all but the characters of a set. *)
Fixpoint escape (slash : bool) (s : string) : string :=
  match s with
  | EmptyString => ""
  | String c s =>
      if bool_decide (c = "~"%char) then String "~" (String "0" (escape slash s))
      else if slash && bool_decide (c = "/"%char) then String "~" (String "1" (escape slash s))
      else String c (escape slash s)
  end.

Definition encodeJsonPointer (s : string) : string := escape true s.

Lemma decode_slashes s : ReplaceAll (escape true s) "~1" "/" = escape false s.
Proof.
  induction s as [|c s IH]; [done|]. cbn [escape]. case_bool_decide as Hc.
  - rewrite replace_skip by (by right). rewrite replace_skip by (by left). by rewrite IH.
  - cbn [andb]. case_bool_decide as Hs.
    + rewrite replace_hit, IH. by subst.
    + rewrite replace_skip by (by left). by rewrite IH.
Qed.

Lemma decode_tildes s : ReplaceAll (escape false s) "~0" "~" = s.
Proof.
  induction s as [|c s IH]; [done|]. cbn [escape andb]. case_bool_decide as Hc.
  - rewrite replace_hit, IH. by subst.
  - rewrite replace_skip by (by left). by rewrite IH.
Qed.

(** Escaped keys: decoding the RFC 6901 escaping of any string gives the
    string back. *)
Theorem decode_encode_pointer s : decodeJsonPointer (encodeJsonPointer s) = s.
Proof. unfold decodeJsonPointer, encodeJsonPointer. by rewrite decode_slashes, decode_tildes. Qed.

Section facts.
Context {Rd : Redis} {Fmt : GoFmt} {MR : MapRange} {JC : JsonCodec}.

(** ** Programs that write only some keys *)

Definition writes_only {A} (P : string → Prop) (m : IO A) : Prop :=
  ∀ w w' a, m w = (w', a) → ∀ k f, ¬ P k → hget (db w') k f = hget (db w) k f.

Lemma writes_ret {A} P (a : A) : writes_only P (mret a : IO A).
Proof. by intros w w' b [= <- <-]. Qed.

Lemma writes_bind {A B} P (m : IO A) (k : A → IO B) :
  writes_only P m → (∀ a, writes_only P (k a)) → writes_only P (m ≫= k).
Proof.
  intros Hm Hk w w' b. unfold mbind, ST_bind. destruct (m w) as [w1 a] eqn:H1. intros H2 q f Hq.
  by rewrite (Hk _ _ _ _ H2), (Hm _ _ _ H1).
Qed.

Lemma next_fault_db w w' f : next_fault w = (w', f) → db w' = db w.
Proof. unfold next_fault. by destruct (faults w); intros [= <- <-]. Qed.

Lemma writes_next_fault P : writes_only P next_fault.
Proof. intros w w' a Hn k f _. by rewrite (next_fault_db _ _ _ Hn). Qed.

Lemma writes_modify_db P (g : redis → redis) :
  (∀ d k f, ¬ P k → hget (g d) k f = hget d k f) → writes_only P (modify (set_db g)).
Proof. intros Hg w w' a [= <- <-] k f Hk. simpl. by apply Hg. Qed.

Lemma writes_gets {A} P (g : World → A) : writes_only P (gets g).
Proof. by intros w w' a [= <- <-]. Qed.

Create HintDb writes.
Hint Resolve writes_ret writes_next_fault writes_gets : writes.

Lemma writes_HSetFields (P : string → Prop) key fields : P key → writes_only P (HSetFields key fields).
Proof.
  intros HP. apply writes_bind; [auto with writes|]. intros []; auto with writes.
  apply writes_bind; [|auto with writes]. apply writes_modify_db. intros d k f Hk.
  apply hget_hset_key_ne. by intros ->.
Qed.

Lemma writes_Del (P : string → Prop) key : P key → writes_only P (Del key).
Proof.
  intros HP. apply writes_bind; [auto with writes|]. intros []; auto with writes.
  apply writes_bind; [|auto with writes]. apply writes_modify_db. intros d k f Hk.
  apply hget_del_ne. by intros ->.
Qed.

Lemma writes_try {E A} P (m : IO (option E)) (h : E → IO A) (k : IO A) :
  writes_only P m → (∀ e, writes_only P (h e)) → writes_only P k → writes_only P (try_ m h k).
Proof. intros. apply writes_bind; [done|]. by intros []. Qed.

Lemma writes_run_all {A} P (f : A → IO (option bp_error)) l :
  (∀ x, x ∈ l → writes_only P (f x)) → writes_only P (run_all f l).
Proof.
  induction l as [|x l IH]; intros Hf; simpl; [apply writes_ret|].
  apply writes_try; [apply Hf; by left|auto with writes|]. apply IH. intros y Hy. apply Hf. by right.
Qed.

Lemma writes_getClient P : writes_only P getConfigDbClient.
Proof. apply writes_bind; auto with writes. Qed.

(** ** The key space of the allowed tables *)

Definition allowed_key (k : string) : Prop := ∃ t key, t ∈ AllowedTables ∧ k = t +:+ "|" +:+ key.

Lemma writes_entry t key fields :
  t ∈ AllowedTables → writes_only allowed_key (write_entry (t +:+ "|" +:+ key) fields).
Proof.
  intros Ht. apply writes_bind; [|auto with writes]. apply writes_HSetFields. by exists t, key.
Qed.

Lemma writes_apply_one prefix u :
  allowed (extractTable prefix (upd_path u)) = true → writes_only allowed_key (apply_one prefix u).
Proof.
  rewrite extractTable_parsePath. unfold apply_one.
  destruct (parsePath prefix (upd_path u)) as [[t key] fld]. intros Ht%allowed_spec. simpl in Ht.
  repeat case_match; try apply writes_ret; try by apply writes_entry.
  apply writes_run_all. intros [ek ef] _. by apply writes_entry.
Qed.

Lemma writes_delete_one prefix path :
  allowed (extractTable prefix path) = true → writes_only allowed_key (delete_one prefix path).
Proof.
  rewrite extractTable_parsePath. unfold delete_one.
  destruct (parsePath prefix path) as [[t key] fld]. intros Ht%allowed_spec. simpl in Ht.
  case_match; [apply writes_ret|]. apply writes_bind; [|auto with writes].
  apply writes_Del. by exists t, key.
Qed.

Lemma writes_Apply prefix updates :
  checkAllowedTables prefix updates = true → writes_only allowed_key (Apply prefix updates).
Proof.
  intros Hc. apply writes_try; [apply writes_getClient|auto with writes|]. apply writes_run_all.
  intros u Hu. apply writes_apply_one. unfold checkAllowedTables in Hc.
  rewrite forallb_forall in Hc. apply Hc. by apply list_elem_of_In.
Qed.

Lemma writes_Delete prefix deletes :
  checkAllowedDeletePaths prefix deletes = true → writes_only allowed_key (Delete prefix deletes).
Proof.
  intros Hc. apply writes_try; [apply writes_getClient|auto with writes|]. apply writes_run_all.
  intros u Hu. apply writes_delete_one. unfold checkAllowedDeletePaths in Hc.
  rewrite forallb_forall in Hc. apply Hc. by apply list_elem_of_In.
Qed.

(** ** The conditions *)

(** The device the database describes is one of the allowed ones. *)
Definition sku_allowed (d : redis) : Prop :=
  ∃ hwsku, hget d "DEVICE_METADATA|localhost" "hwsku" = Some hwsku ∧
    existsb (HasPrefix hwsku) AllowedSKUPrefixes = true.

Lemma checkSKU_run w w' b : checkSKU w = (w', b) → db w' = db w ∧ (b = true → sku_allowed (db w)).
Proof.
  unfold checkSKU, try_, getConfigDbClient, HGet, mbind, ST_bind. cbn.
  destruct (next_fault w) as [w1 f1] eqn:H1. apply next_fault_db in H1.
  destruct f1; cbn; [|by intros [= <- <-]..].
  destruct (next_fault w1) as [w2 f2] eqn:H2. apply next_fault_db in H2.
  destruct f2; cbn; [|intros [= <- <-]; split; congruence..].
  intros [= <- <-]. rewrite H2, H1. split; [done|].
  destruct (hget (db w) _ _) as [sku|] eqn:Hs; simpl; [|done]. by exists sku.
Qed.

Lemma ShouldBypass_run ctx prefix updates w w' b :
  ShouldBypass ctx prefix updates w = (w', b) →
  db w' = db w ∧ (b = true → hasBypassHeader ctx = true ∧ sku_allowed (db w) ∧
                             checkAllowedTables prefix updates = true).
Proof.
  unfold ShouldBypass. destruct (hasBypassHeader ctx); simpl; [|by intros [= <- <-]].
  unfold mbind, ST_bind. destruct (checkSKU w) as [w1 b1] eqn:H1. apply checkSKU_run in H1 as [Hd Hb].
  intros [= <- <-]. split; [done|]. destruct b1; [|done]. intros. auto.
Qed.

Lemma ShouldBypassDelete_run ctx prefix deletes w w' b :
  ShouldBypassDelete ctx prefix deletes w = (w', b) →
  db w' = db w ∧ (b = true → hasBypassHeader ctx = true ∧ sku_allowed (db w) ∧
                             checkAllowedDeletePaths prefix deletes = true).
Proof.
  unfold ShouldBypassDelete. destruct (hasBypassHeader ctx); simpl; [|by intros [= <- <-]].
  unfold mbind, ST_bind. destruct (checkSKU w) as [w1 b1] eqn:H1. apply checkSKU_run in H1 as [Hd Hb].
  intros [= <- <-]. split; [done|]. destruct b1; [|done]. intros. auto.
Qed.

(** The writes of [TrySet], once it is decided to make them. *)
Definition set_body (prefix : option Path) (deletes : list (option Path)) (updates : list Update)
  : IO try_result :=
  try_ (if bool_decide (length deletes = 0) then mret None else Delete prefix deletes)
       (λ e, mret (UsedFailed e))
  (try_ (if bool_decide (length updates = 0) then mret None else Apply prefix updates)
       (λ e, mret (UsedFailed e))
  (mret (Used (prefix, ((λ d, (d, DELETE)) <$> deletes) ++ ((λ u, (upd_path u, UPDATE)) <$> updates))))).

Lemma set_body_used prefix deletes updates w w' r : set_body prefix deletes updates w = (w', r) → r ≠ NotUsed.
Proof.
  unfold set_body, try_, mbind, ST_bind.
  set (del := if bool_decide (length deletes = 0) then _ else _).
  set (upd := if bool_decide (length updates = 0) then _ else _).
  destruct (del w) as [w1 [e1|]]; [by intros [= <- <-]|].
  destruct (upd w1) as [w2 [e2|]]; by intros [= <- <-].
Qed.

Lemma TrySet_run ctx prefix deletes updates w w' r :
  TrySet ctx prefix deletes updates w = (w', r) →
  (r = NotUsed ∧ db w' = db w) ∨
  (hasBypassHeader ctx = true ∧ sku_allowed (db w) ∧ checkAllowedTables prefix updates = true ∧
   checkAllowedDeletePaths prefix deletes = true ∧ r ≠ NotUsed ∧
   ∃ w1, db w1 = db w ∧ set_body prefix deletes updates w1 = (w', r)).
Proof.
  unfold TrySet. destruct (_ && _) eqn:Hb; [intros [= <- <-]; by left|].
  assert (length updates ≠ 0 ∨ length deletes ≠ 0) as Hempty.
  { apply andb_false_iff in Hb as [?%bool_decide_eq_false|?%bool_decide_eq_false]; auto. }
  clear Hb.
  unfold mbind at 1, ST_bind at 1.
  assert (∃ w1 ok, (if bool_decide (length updates = 0) then mret true else ShouldBypass ctx prefix updates) w
      = (w1, ok) ∧ db w1 = db w ∧ (ok = true → checkAllowedTables prefix updates = true ∧
        (length updates ≠ 0 → hasBypassHeader ctx = true ∧ sku_allowed (db w)))) as (w1 & ok & -> & Hw1 & Hok).
  { case_bool_decide as Hl.
    - eexists _, _. split; [done|]. split; [done|]. destruct updates; [|simpl in Hl; lia]. by split.
    - destruct (ShouldBypass _ _ _ _) as [w1 b] eqn:H1. apply ShouldBypass_run in H1 as [Hd Hb].
      eexists _, _. split; [done|]. split; [done|]. intros Hb'. destruct (Hb Hb') as (? & ? & ?). auto. }
  destruct ok; [|intros [= <- <-]; left; split; [done|congruence]]. destruct (Hok eq_refl) as [Ht Hu]. clear Hok. simpl.
  unfold mbind at 1, ST_bind at 1.
  assert (∃ w2 ok, (if bool_decide (length deletes = 0) then mret true
        else ShouldBypassDelete ctx prefix deletes) w1 = (w2, ok) ∧ db w2 = db w ∧
      (ok = true → checkAllowedDeletePaths prefix deletes = true ∧
        (length deletes ≠ 0 → hasBypassHeader ctx = true ∧ sku_allowed (db w)))) as (w2 & ok & -> & Hw2 & Hok).
  { case_bool_decide as Hl.
    - exists w1, true. split; [reflexivity|]. split; [congruence|]. destruct deletes; [|simpl in Hl; lia]. by split.
    - destruct (ShouldBypassDelete _ _ _ _) as [w2 b] eqn:H2. apply ShouldBypassDelete_run in H2 as [Hd Hb].
      exists w2, b. split; [reflexivity|]. rewrite Hw1 in *. split; [done|].
      intros Hb'. destruct (Hb Hb') as (? & ? & ?). auto. }
  destruct ok; [|intros [= <- <-]; left; split; [done|congruence]]. destruct (Hok eq_refl) as [Htd Hd]. clear Hok. simpl.
  intros Hrun. right. fold (set_body prefix deletes updates) in Hrun.
  assert (hasBypassHeader ctx = true ∧ sku_allowed (db w)) as [Hh Hsku].
  { destruct Hempty; auto. }
  split_and!; [done..|by eapply set_body_used|]. by exists w2.
Qed.

Lemma writes_set_body prefix deletes updates :
  checkAllowedTables prefix updates = true → checkAllowedDeletePaths prefix deletes = true →
  writes_only allowed_key (set_body prefix deletes updates).
Proof.
  intros Ht Htd.
  apply writes_try; [case_bool_decide; [apply writes_ret|by apply writes_Delete]|auto with writes|].
  apply writes_try; [case_bool_decide; [apply writes_ret|by apply writes_Apply]|auto with writes|].
  apply writes_ret.
Qed.

(** C3. Safety of the fast path: a Set that is not taken by it leaves the
    database as it was; one that is taken carries the bypass header, runs on
    an allowed device, and changes no field of any key outside the allowed
    tables, however many of its commands fail and in whatever order the
    entries of a bulk update are written. *)
Theorem tryset_safe ctx prefix deletes updates w w' r :
  TrySet ctx prefix deletes updates w = (w', r) →
  (r = NotUsed → db w' = db w) ∧
  (r ≠ NotUsed → hasBypassHeader ctx = true ∧ sku_allowed (db w) ∧
     ∀ k f, ¬ allowed_key k → hget (db w') k f = hget (db w) k f).
Proof.
  intros [[-> Hd]|(Hh & Hs & Ht & Htd & Hr & w1 & Hw1 & Hrun)]%TrySet_run; [done|].
  split; [done|]. intros _. split_and!; [done..|]. rewrite <- Hw1.
  by apply (writes_set_body prefix deletes updates Ht Htd) in Hrun.
Qed.

(** ** The files *)

(** The fast path works on the database alone. *)
Definition files_kept {A} (m : IO A) : Prop := ∀ w, fs (m w).1 = fs w.

Lemma files_kept_ret {A} (a : A) : files_kept (mret a).
Proof. by intros w. Qed.
Lemma files_kept_bind {A B} (m : IO A) (k : A → IO B) :
  files_kept m → (∀ a, files_kept (k a)) → files_kept (m ≫= k).
Proof.
  intros Hm Hk w. unfold mbind, ST_bind. specialize (Hm w). destruct (m w) as [w1 a]. by rewrite Hk.
Qed.
Lemma files_kept_fault : files_kept next_fault.
Proof. intros w. unfold next_fault. by destruct (faults w). Qed.
Lemma files_kept_db g : files_kept (modify (set_db g)).
Proof. by intros w. Qed.
Lemma files_kept_gets {A} (g : World → A) : files_kept (gets g).
Proof. by intros w. Qed.

Local Hint Resolve files_kept_ret files_kept_fault files_kept_db files_kept_gets : writes.

Ltac files_step :=
  first [ solve [auto with writes] | apply files_kept_bind; [|intros ?] | case_match ].

Lemma files_kept_run_all {A} (f : A → IO (option bp_error)) l :
  (∀ x, files_kept (f x)) → files_kept (run_all f l).
Proof. intros Hf. induction l as [|x l IH]; simpl; unfold try_; repeat (files_step || auto). Qed.

Lemma files_kept_entry k l : files_kept (write_entry k l).
Proof. unfold write_entry, HSetFields. repeat files_step. Qed.
Lemma files_kept_Apply prefix updates : files_kept (Apply prefix updates).
Proof.
  pose proof files_kept_entry. unfold Apply, try_, getConfigDbClient. repeat files_step.
  apply files_kept_run_all. intros u. unfold apply_one. repeat (files_step || auto).
  apply files_kept_run_all. intros []. auto.
Qed.
Lemma files_kept_Delete prefix deletes : files_kept (Delete prefix deletes).
Proof.
  unfold Delete, try_, getConfigDbClient. repeat files_step.
  apply files_kept_run_all. intros d. unfold delete_one, Del. repeat files_step.
Qed.

Lemma files_kept_TrySet ctx prefix deletes updates : files_kept (TrySet ctx prefix deletes updates).
Proof.
  pose proof files_kept_Apply. pose proof files_kept_Delete.
  unfold TrySet, ShouldBypass, ShouldBypassDelete, checkSKU, try_, getConfigDbClient, HGet.
  repeat (files_step || auto).
Qed.

(** ** What a successful write leaves *)

Lemma assoc_last_NoDup f v (l : list (string * string)) :
  NoDup l.*1 → (f, v) ∈ l → assoc_last f l = Some v.
Proof.
  induction l as [|[f' v'] l IH]; [by intros _ ?%not_elem_of_nil|]. simpl.
  intros [Hn Hd]%NoDup_cons [Heq|Hin]%elem_of_cons.
  - injection Heq as -> ->. assert (assoc_last f' l = None) as ->.
    { destruct (assoc_last f' l) as [x|] eqn:Hx; [|done]. exfalso. apply Hn. clear -Hx.
      induction l as [|[g y] l IH]; [done|]. simpl in *.
      destruct (assoc_last f' l); [right; auto|]. case_bool_decide; [subst; left|done]. }
    by rewrite bool_decide_true.
  - by rewrite IH.
Qed.

Lemma assoc_last_None f (l : list (string * string)) : f ∉ l.*1 → assoc_last f l = None.
Proof.
  induction l as [|[f' v'] l IH]; [done|]. simpl. rewrite not_elem_of_cons. intros [Hne Hn].
  rewrite IH by done. by rewrite bool_decide_false.
Qed.

(** Writing all entries of a map in any order. *)
Lemma assoc_last_range (m : gmap string string) f : assoc_last f (map_range m) = m !! f.
Proof.
  destruct (m !! f) as [v|] eqn:Hm.
  - apply assoc_last_NoDup; [apply NoDup_map_range_fst|by apply elem_of_map_range].
  - apply assoc_last_None. intros ([f' v] & -> & Hv%elem_of_map_range)%list_elem_of_fmap.
    simpl in Hm. congruence.
Qed.

Lemma HSetFields_ok key fields w w' :
  HSetFields key fields w = (w', None) → db w' = hset (db w) key fields.
Proof.
  unfold HSetFields, mbind, ST_bind. destruct (next_fault w) as [w1 f] eqn:Hn. apply next_fault_db in Hn.
  destruct f; cbn; [|done..]. intros [= <-]. simpl. by rewrite Hn.
Qed.

Lemma write_entry_ok key fields w w' :
  write_entry key fields w = (w', None) → db w' = hset (db w) key fields.
Proof.
  unfold write_entry, mbind, ST_bind. destruct (HSetFields key fields w) as [w1 [e|]] eqn:H1; [done|].
  intros [= <-]. by apply HSetFields_ok.
Qed.

Lemma Del_ok key w w' : Del key w = (w', None) → db w' = del (db w) key.
Proof.
  unfold Del, mbind, ST_bind. destruct (next_fault w) as [w1 f] eqn:Hn. apply next_fault_db in Hn.
  destruct f; cbn; [|done..]. intros [= <-]. simpl. by rewrite Hn.
Qed.

(** A run over one element that goes well. *)
Lemma run_one_ok {A} (f : A → IO (option bp_error)) x w w' :
  try_ getConfigDbClient (λ _, mret (Some NoClient)) (run_all f [x]) w = (w', None) →
  ∃ w1, db w1 = db w ∧ f x w1 = (w', None).
Proof.
  unfold try_, getConfigDbClient, mbind, ST_bind. cbn.
  destruct (next_fault w) as [w1 g] eqn:Hn. apply next_fault_db in Hn. destruct g; cbn; [|done..].
  unfold try_, mbind, ST_bind. destruct (f x w1) as [w2 [e|]] eqn:Hf; [done|].
  intros [= <-]. by exists w1.
Qed.

Lemma delete_one_ok prefix path t k fld w w' :
  parsePath prefix path = (t, k, fld) → delete_one prefix path w = (w', None) →
  db w' = del (db w) (t +:+ "|" +:+ k).
Proof.
  intros Hp. unfold delete_one. rewrite Hp. case_match; [done|]. unfold mbind, ST_bind.
  destruct (Del _ w) as [w1 [e|]] eqn:Hd; [done|]. intros [= <-]. by apply Del_ok.
Qed.

(** The fields of an entry as they are stored. *)
Definition stored_fields (data : gmap string json) : gmap string string :=
  let fields := convertToRedisFields data in
  if bool_decide (fields = ∅) then <["NULL" := "NULL"]> fields else fields.

Lemma apply_entry_ok prefix u t k fld data w w' :
  parsePath prefix (upd_path u) = (t, k, fld) → k ≠ "" → GetJsonIetfVal (upd_val u) ≠ "" →
  Unmarshal (GetJsonIetfVal (upd_val u)) = Some (JObj data) → apply_one prefix u w = (w', None) →
  ∀ f, hget (db w') (t +:+ "|" +:+ k) f =
       match stored_fields data !! f with Some v => Some v | None => hget (db w) (t +:+ "|" +:+ k) f end.
Proof.
  intros Hp Hk Hj Hu. unfold apply_one. rewrite Hp. case_match; [done|].
  rewrite (bool_decide_false (k = "")), (bool_decide_true (_ ≠ "")), Hu by done. cbn.
  intros Hw f. apply write_entry_ok in Hw. rewrite Hw, hget_hset, decide_True by done.
  unfold entry_fields. by rewrite assoc_last_range.
Qed.

(** Replacing an entry: when the fast path takes a request that deletes
    an entry and updates it with a JSON object, the entry then has exactly the
    fields of the object (lists joined under their name with an at sign, the
    place holder for an empty object) and no field it had before. *)
Theorem tryset_replaces ctx prefix path u t k fld data w w' resp :
  parsePath prefix path = (t, k, fld) → upd_path u = path → k ≠ "" →
  GetJsonIetfVal (upd_val u) ≠ "" → Unmarshal (GetJsonIetfVal (upd_val u)) = Some (JObj data) →
  TrySet ctx prefix [path] [u] w = (w', Used resp) →
  ∀ f, hget (db w') (t +:+ "|" +:+ k) f = stored_fields data !! f.
Proof.
  intros Hp Hu Hk Hj Hd [[? _]|(_ & _ & _ & _ & _ & w1 & _ & Hrun)]%TrySet_run f; [done|].
  unfold set_body in Hrun. rewrite !bool_decide_false in Hrun by done.
  unfold try_ in Hrun at 1. unfold mbind at 1, ST_bind at 1 in Hrun.
  destruct (Delete prefix [path] w1) as [w2 [e|]] eqn:H1; [done|].
  unfold try_, mbind, ST_bind in Hrun. destruct (Apply prefix [u] w2) as [w3 [e|]] eqn:H2; [done|].
  injection Hrun as <- _.
  apply run_one_ok in H1 as (w1' & _ & H1). eapply delete_one_ok in H1; [|done].
  apply run_one_ok in H2 as (w2' & Hw2 & H2). subst path.
  eapply apply_entry_ok in H2; [|done..]. rewrite H2, Hw2, H1, hget_del_eq.
  by destruct (stored_fields data !! f).
Qed.

(** A scalar zero is lost: an update of one field with the integer zero
    (or the unsigned one, or an empty string) stores the empty string. *)
Theorem zero_stored_as_empty prefix u t k fld w w' :
  parsePath prefix (upd_path u) = (t, k, fld) → k ≠ "" → fld ≠ "" →
  (upd_val u = Some (IntVal 0) ∨ upd_val u = Some (UintVal 0)) →
  Apply prefix [u] w = (w', None) → hget (db w') (t +:+ "|" +:+ k) fld = Some "".
Proof.
  intros Hp Hk Hf Hv Hrun. apply run_one_ok in Hrun as (w1 & _ & Hrun).
  unfold apply_one in Hrun. rewrite Hp in Hrun. case_match; [done|].
  rewrite (bool_decide_false (k = "")) in Hrun by done.
  assert (GetJsonIetfVal (upd_val u) = "" ∧ scalar_text (upd_val u) = "") as [Hj Hs]
    by (by destruct Hv as [-> | ->]).
  rewrite Hj, Hs, (bool_decide_true (fld ≠ "")) in Hrun by done. cbn in Hrun.
  apply write_entry_ok in Hrun. rewrite Hrun. apply hget_hset_eq.
Qed.

(** The delete of one field removes the whole entry. *)
Theorem field_delete_drops_entry prefix path t k fld w w' :
  parsePath prefix path = (t, k, fld) → fld ≠ "" → Delete prefix [path] w = (w', None) →
  ∀ f, hget (db w') (t +:+ "|" +:+ k) f = None.
Proof.
  intros Hp _ Hrun f. apply run_one_ok in Hrun as (w1 & _ & Hrun).
  eapply delete_one_ok in Hrun; [|done]. rewrite Hrun. apply hget_del_eq.
Qed.
End facts.

(** ** Instances at a concrete request *)
Module BypassExample.
#[local] Instance server_db : Redis := map_redis.
#[local] Instance range : MapRange := canonical_range.
#[local] Instance go_fmt : GoFmt := {| fmt_number := Itoa; fmt_composite _ := "?" |}.
(** A decoder that knows one document. *)
Definition doc : gmap string json :=
  {[ "priority" := JStr "10"; "ports" := JArr [JStr "a"; JStr "b"] ]}.
#[local] Instance codec : JsonCodec := {|
  Unmarshal s := if bool_decide (s = "{doc}") then Some (JObj doc) else None;
  Marshal _ := None |}.

Definition header : Context_ := Some {[ MetadataKeyBypassValidation := ["true"] ]}.
Definition db0 : gmap string (gmap string string) :=
  {[ "DEVICE_METADATA|localhost" := {[ "hwsku" := "Cisco-8102-C64" ]};
     "ACL_RULE|r/1" := {[ "old" := "x" ]}; "PORT|e0" := {[ "mtu" := "1" ]} ]}.
Definition world0 : World := {| fs := ∅; db := (db0 : redis); faults := [] |}.
Definition rule_path : option Path := Some (path_of ["CONFIG_DB"; "localhost"; "ACL_RULE"; "r~11"]).
Definition rule_update : Update := {| upd_path := rule_path; upd_val := Some (JsonIetfVal "{doc}") |}.
Definition run0 : World * try_result := TrySet header None [rule_path] [rule_update] world0.

Lemma tryset_safe_witness :
  (run0.2 = NotUsed → db run0.1 = db world0) ∧
  (run0.2 ≠ NotUsed → hasBypassHeader header = true ∧ sku_allowed (db world0) ∧
     ∀ k f, ¬ allowed_key k → hget (db run0.1) k f = hget (db world0) k f).
Proof. apply (tryset_safe header None [rule_path] [rule_update]). apply surjective_pairing. Defined.

Lemma tryset_replaces_witness :
  hget (db run0.1) "ACL_RULE|r/1" "ports@" = stored_fields doc !! "ports@".
Proof.
  apply (tryset_replaces header None rule_path rule_update "ACL_RULE" "r/1" "" doc world0 run0.1
    (None, [(rule_path, DELETE); (rule_path, UPDATE)])).
  - vm_compute. reflexivity.
  - reflexivity.
  - discriminate.
  - discriminate.
  - vm_compute. reflexivity.
  - apply (pair_snd_eq run0). vm_compute. reflexivity.
Defined.

Definition zero_update : Update :=
  {| upd_path := Some (path_of ["VNET"; "v1"; "vni"]); upd_val := Some (IntVal 0) |}.

Lemma zero_stored_as_empty_witness :
  hget (db (Apply None [zero_update] world0).1) "VNET|v1" "vni" = Some "".
Proof.
  apply (zero_stored_as_empty None zero_update "VNET" "v1" "vni" world0).
  - vm_compute. reflexivity.
  - discriminate.
  - discriminate.
  - by left.
  - apply pair_snd_eq. vm_compute. reflexivity.
Defined.
End BypassExample.
