(* ===== verification/Trie.v ===== *)
(** * The path trie (src/sonic_data_client/trie.go)

    The data clients dispatch a path to a translator (virtual_db.go) or to a
    SHOW command (show_client.go) through a trie whose edges are path
    elements.  An edge that ends in ["*"] also matches every element that
    starts with what precedes the star; an exact edge wins, and among several
    matching stars the iteration order of a Go map decides.

    A node is a value here: the parent pointers of the source are the position
    in the tree, and a key of [wildcards] stands for the pointer that
    [children] holds under the same key (the two maps are only ever written
    together, by [NewChild] and [RemoveChild]).

    [populated_find] is the specification: on a trie filled from a table of
    patterns, [Find] returns what the table gives the pattern that the greedy
    reading of the path resolves to, whatever the order of map iteration. *)
From stdpp Require Import base gmap sets list strings.
From S2P Require Import Prelude GoStrings.

Section trie.
Context {MR : MapRange} {M : Type}.

Inductive Node : Type := mkNode {
  val : string;
  depth : Z;
  term : bool;
  wildcards : gmap string ();
  children : gmap string Node;
  meta : option M
}.

Record Trie := { root : Node; size : Z }.

Definition NewTrie : Trie := {|
  root := mkNode "" 0 false ∅ ∅ None;
  size := 0
|}.

(** The node [NewChild] allocates under a node of the given depth. *)
Definition new_node (d : Z) (v : string) (m : option M) (t : bool) : Node :=
  mkNode v (d + 1) t ∅ ∅ m.

(** [n.children[val] = node], and the star of [wildcards] with it. *)
Definition set_child (n : Node) (v : string) (c : Node) : Node :=
  mkNode (val n) (depth n) (term n)
    (if HasSuffix v "*" then <[v := ()]> (wildcards n) else wildcards n)
    (<[v := c]> (children n)) (meta n).

Definition NewChild (n : Node) (v : string) (m : option M) (t : bool) : Node :=
  set_child n v (new_node (depth n) v m t).

Definition RemoveChild (n : Node) (r : string) : Node :=
  mkNode (val n) (depth n) (term n) (delete r (wildcards n)) (delete r (children n)) (meta n).

(** The loop of [Add] from one node: an existing child is followed, a missing
    one made, and the terminal child replaced. *)
Fixpoint add_from (n : Node) (keys : list string) (m : M) : Node :=
  match keys with
  | [] => NewChild n "" (Some m) true
  | k :: keys =>
      let c := default (new_node (depth n) k None false) (children n !! k) in
      set_child n k (add_from c keys m)
  end.

Definition Add (t : Trie) (keys : list string) (m : M) : Trie :=
  {| root := add_from (root t) keys m; size := size t + 1 |}.

(** [strings.HasPrefix(key, val[:len(val)-1])] *)
Definition stem (w : string) : string := str_take (String.length w - 1) w.

Fixpoint first_wildcard (ws : list (string * ())) (key : string) : option string :=
  match ws with
  | [] => None
  | (w, _) :: ws => if HasPrefix key (stem w) then Some w else first_wildcard ws key
  end.

(** The edge that [findNode] follows for a key. *)
Definition step_edge (n : Node) (key : string) : option string :=
  match children n !! key with
  | Some _ => Some key
  | None => first_wildcard (map_range (wildcards n)) key
  end.

Fixpoint findNode (n : Node) (keys : list string) : option Node :=
  match keys with
  | [] => Some n
  | k :: keys => e ← step_edge n k; c ← children n !! e; findNode c keys
  end.

Definition Find (t : Trie) (keys : list string) : option Node :=
  n ← findNode (root t) keys;
  c ← children n !! "";
  if term c then Some c else None.

(** [for i := len(keys); i >= 2; i--] *)
Fixpoint longest_from (t : Trie) (keys : list string) (i : nat) : option Node :=
  match i with
  | S (S _ as i') =>
      match Find t (take i keys) with
      | Some n => Some n
      | None => longest_from t keys i'
      end
  | _ => None
  end.

Definition FindLongestPrefix (t : Trie) (keys : list string) : option Node :=
  if bool_decide (length keys < 2) then None else longest_from t keys (length keys).

(** [Remove] walks up from the node it found to the first ancestor with more
    than one child and removes there the child named by the key, not the edge
    that was followed.  [None] is the dereference of a nil node. *)
Fixpoint remove_from (n : Node) (keys : list string) : option (Node * bool) :=
  match keys with
  | [] => Some (n, false)
  | k :: keys =>
      e ← step_edge n k;
      c ← children n !! e;
      '(c', removed) ← remove_from c keys;
      if (removed : bool) then Some (set_child n e c', true)
      else if bool_decide (1 < Z.of_nat (base.size (children n)))%Z then Some (RemoveChild n k, true)
      else Some (n, false)
  end.

Definition Remove (t : Trie) (keys : list string) : option Trie :=
  '(r, _) ← remove_from (root t) keys;
  Some {| root := r; size := size t - 1 |}.

(** ** Well-formed tries *)

(** What [NewChild] and [RemoveChild] keep: the stars are the children whose
    key ends in one, a child carries its key and its depth, and a child under
    the empty key is a terminal leaf with data. *)
Inductive wf : Node → Prop :=
| wf_node n :
    (∀ k, is_Some (wildcards n !! k) ↔ is_Some (children n !! k) ∧ HasSuffix k "*" = true) →
    (∀ k c, children n !! k = Some c → val c = k ∧ depth c = (depth n + 1)%Z) →
    (∀ c, children n !! "" = Some c → children c = ∅ ∧ term c = true ∧ is_Some (meta c)) →
    (∀ k c, children n !! k = Some c → wf c) →
    wf n.

Lemma wf_new d v m t : wf (new_node d v m t).
Proof. split; simpl; intros *; rewrite ?lookup_empty; [|done..]. split; [by intros [? [=]]|by intros [[? [=]] _]]. Qed.

Lemma wf_set_child n k c :
  wf n → wf c → val c = k → depth c = (depth n + 1)%Z →
  (k = "" → children c = ∅ ∧ term c = true ∧ is_Some (meta c)) →
  wf (set_child n k c).
Proof.
  intros Hn Hc Hv Hd Hleaf. inversion Hn as [? Hw Hk He Hs]; subst. split; simpl.
  - intros j. destruct (HasSuffix (val c) "*") eqn:Hstar; rewrite !lookup_insert_is_Some, Hw || rewrite lookup_insert_is_Some, Hw.
    + destruct (decide (val c = j)) as [<-|]; naive_solver.
    + destruct (decide (val c = j)) as [<-|]; [|naive_solver]. rewrite Hstar. naive_solver.
  - intros j c' [[<- <-]|[_ ?]]%lookup_insert_Some; eauto.
  - intros c' [[? <-]|[_ ?]]%lookup_insert_Some; eauto.
  - intros j c' [[<- <-]|[_ ?]]%lookup_insert_Some; eauto.
Qed.

Lemma val_add_from n keys m : val (add_from n keys m) = val n ∧ depth (add_from n keys m) = depth n.
Proof. by destruct keys. Qed.

(** The child [Add] goes into. *)
Lemma add_child n k :
  wf n →
  wf (default (new_node (depth n) k None false) (children n !! k)) ∧
  val (default (new_node (depth n) k None false) (children n !! k)) = k ∧
  depth (default (new_node (depth n) k None false) (children n !! k)) = (depth n + 1)%Z.
Proof.
  inversion 1 as [? _ Hk _ Hs]; subst. destruct (children n !! k) eqn:E; simpl.
  - destruct (Hk _ _ E). eauto.
  - split; [apply wf_new|done].
Qed.

Lemma wf_add_from n keys m : "" ∉ keys → wf n → wf (add_from n keys m).
Proof.
  revert n. induction keys as [|k keys IH]; intros n Hne Hn; simpl.
  - apply wf_set_child; [done|apply wf_new|done..|by eauto].
  - apply not_elem_of_cons in Hne as [Hk Hne]. destruct (add_child n k Hn) as (Hw & Hv & Hd).
    destruct (val_add_from (default (new_node (depth n) k None false) (children n !! k)) keys m) as [Hv' Hd'].
    apply wf_set_child; [done|by apply IH|congruence..].
Qed.

(** ** The nodes of a trie by position *)

Fixpoint walk (n : Node) (p : list string) : option Node :=
  match p with
  | [] => Some n
  | k :: p => c ← children n !! k; walk c p
  end.

Lemma walk_app n p q : walk n (p ++ q) = (walk n p ≫= λ c, walk c q).
Proof. revert n. induction p as [|k p IH]; intros n; simpl; [done|]. destruct (children n !! k); simpl; auto. Qed.

Lemma walk_wf n p c : wf n → walk n p = Some c → wf c.
Proof.
  revert n. induction p as [|k p IH]; intros n Hn; simpl; [by intros [= <-]|].
  intros (c' & Hc' & Hw)%bind_Some. inversion Hn; subst. eauto.
Qed.

Lemma walk_new d v m t p : walk (new_node d v m t) p = if decide (p = []) then Some (new_node d v m t) else None.
Proof. destruct p; simpl; rewrite ?lookup_empty; reflexivity. Qed.

Lemma walk_add_shape n keys m p :
  "" ∉ keys → wf n →
  is_Some (walk (add_from n keys m) p) ↔ is_Some (walk n p) ∨ p `prefix_of` keys ++ [""].
Proof.
  intros Hne Hn. revert n p Hne Hn. induction keys as [|k keys IH]; intros n [|k' p] Hne Hn; simpl.
  - split; [|by eauto]. intros _. right. apply prefix_nil.
  - destruct (decide (k' = "")) as [->|Hk'].
    + rewrite lookup_insert_eq. simpl. inversion Hn as [? _ _ He _]; subst.
      rewrite walk_new. split.
      * case_decide; [|by intros [? [=]]]. subst. intros _. right. done.
      * intros [[c Hc]|Hp].
        -- apply bind_Some in Hc as (c' & Hc' & Hw). destruct (He _ Hc') as [Hl _].
           destruct p as [|k p]; [by case_decide|]. simpl in Hw. by rewrite Hl, lookup_empty in Hw.
        -- apply prefix_cons_inv_2 in Hp. apply prefix_nil_inv in Hp as ->. by case_decide.
    + rewrite lookup_insert_ne by done. split; [by left|]. intros [?|Hp]; [done|].
      by apply prefix_cons_inv_1 in Hp.
  - split; [|by eauto]. intros _. right. apply prefix_nil.
  - apply not_elem_of_cons in Hne as [Hk Hne]. destruct (add_child n k Hn) as (Hw & _ & _).
    destruct (decide (k' = k)) as [->|Hk'].
    + rewrite lookup_insert_eq. simpl. rewrite IH by done.
      destruct (children n !! k) as [c|] eqn:E; simpl.
      * split; intros [?|Hp]; eauto; right; [by apply prefix_cons|by apply prefix_cons_inv_2 in Hp].
      * rewrite walk_new. split.
        -- intros [H'|Hp]; right; [|by apply prefix_cons]. case_decide; [|by destruct H']. subst.
           apply prefix_cons, prefix_nil.
        -- intros [[? [=]]|Hp]. right. by apply prefix_cons_inv_2 in Hp.
    + rewrite lookup_insert_ne by done. split; [by left|]. intros [?|Hp]; [done|].
      by apply prefix_cons_inv_1 in Hp.
Qed.

(** The meta data registered under a pattern. *)
Definition registered (n : Node) (p : list string) : option M :=
  c ← walk n (p ++ [""]); if term c then meta c else None.

Lemma registered_cons n k p : registered n (k :: p) = (children n !! k ≫= λ c, registered c p).
Proof. unfold registered. simpl. by destruct (children n !! k). Qed.

Lemma registered_new d v m t p : registered (new_node d v m t) p = None.
Proof. unfold registered. rewrite walk_new. by destruct p. Qed.

(** Below a terminal leaf nothing is registered. *)
Lemma registered_leaf (n c : Node) p : wf n → children n !! "" = Some c → registered c p = None.
Proof.
  inversion 1 as [? _ _ He _]; subst. intros [Hc _]%He. unfold registered.
  destruct p; simpl; by rewrite Hc, lookup_empty.
Qed.

Lemma registered_add n keys m p :
  "" ∉ keys → wf n →
  registered (add_from n keys m) p = if decide (p = keys) then Some m else registered n p.
Proof.
  intros Hne Hn. revert n p Hne Hn. induction keys as [|k keys IH]; intros n [|k' p] Hne Hn.
  - unfold registered. simpl. by rewrite lookup_insert_eq.
  - rewrite decide_False by done. rewrite !registered_cons. simpl.
    destruct (decide (k' = "")) as [->|Hk'].
    + rewrite lookup_insert_eq. simpl. rewrite registered_new.
      destruct (children n !! "") as [c|] eqn:E; [|done]. simpl. symmetry. by eapply registered_leaf.
    + by rewrite lookup_insert_ne.
  - rewrite decide_False by done. unfold registered. simpl. rewrite lookup_insert_ne; [done|].
    intros ->. apply Hne. left.
  - apply not_elem_of_cons in Hne as [Hk Hne]. destruct (add_child n k Hn) as (Hw & _ & _).
    rewrite !registered_cons. simpl. destruct (decide (k' = k)) as [->|Hk'].
    + rewrite lookup_insert_eq. simpl. rewrite IH by done.
      destruct (decide (p = keys)) as [->|Hp]; [by rewrite decide_True|].
      rewrite decide_False by congruence. destruct (children n !! k); simpl; [done|].
      by rewrite registered_new.
    + rewrite lookup_insert_ne by done. rewrite decide_False by congruence. done.
Qed.

(** ** The table a trie stands for *)

Notation table := (list (list string * M)).

Definition populate (tbl : table) : Trie := foldl (λ t '(p, m), Add t p m) NewTrie tbl.

(** The last entry of the table for a pattern. *)
Fixpoint table_get (tbl : table) (p : list string) : option M :=
  match tbl with
  | [] => None
  | (q, m) :: tbl =>
      match table_get tbl p with
      | Some m' => Some m'
      | None => if decide (p = q) then Some m else None
      end
  end.

(** [p] is a position of the trie: a pattern, or a prefix of one, or the
    terminal child of one. *)
Definition live (tbl : table) (p : list string) : Prop :=
  ∃ q, q ∈ tbl.*1 ∧ p `prefix_of` q ++ [""].

Definition star (w : string) : bool := HasSuffix w "*".

(** The greedy reading of a path: an element that is an edge is followed; only
    where there is none a star that matches. *)
Inductive resolves (tbl : table) : list string → list string → list string → Prop :=
| resolves_nil p : resolves tbl p [] p
| resolves_exact p k keys q :
    live tbl (p ++ [k]) → resolves tbl (p ++ [k]) keys q → resolves tbl p (k :: keys) q
| resolves_star p k w keys q :
    ¬ live tbl (p ++ [k]) → live tbl (p ++ [w]) → star w = true → HasPrefix k (stem w) = true →
    resolves tbl (p ++ [w]) keys q → resolves tbl p (k :: keys) q.

(** Two patterns that part at stars of which one's stem extends the other's. *)
Fixpoint clash (q1 q2 : list string) : bool :=
  match q1, q2 with
  | v :: q1, w :: q2 =>
      if decide (v = w) then clash q1 q2
      else star v && star w && (HasPrefix (stem v) (stem w) || HasPrefix (stem w) (stem v))
  | _, _ => false
  end.

Definition unambiguous (tbl : table) : bool :=
  forallb (λ '(q1, _), forallb (λ '(q2, _), negb (clash q1 q2)) tbl) tbl.

Definition no_empty (tbl : table) : bool :=
  forallb (λ '(q, _), bool_decide ("" ∉ q)) tbl.

Lemma no_empty_spec tbl q : no_empty tbl = true → q ∈ tbl.*1 → "" ∉ q.
Proof.
  intros Hf ([q' m] & -> & Hq)%list_elem_of_fmap. apply list_elem_of_In in Hq.
  apply (proj1 (forallb_forall _ _) Hf) in Hq. by apply bool_decide_eq_true_1 in Hq.
Qed.

(** The trie of a table: its positions, what is registered, its invariant. *)
Definition represents (tbl : table) (n : Node) : Prop :=
  wf n ∧ (∀ p, is_Some (walk n p) ↔ p = [] ∨ live tbl p) ∧ (∀ p, registered n p = table_get tbl p).

Lemma table_get_snoc tbl q m p :
  table_get (tbl ++ [(q, m)]) p = if decide (p = q) then Some m else table_get tbl p.
Proof.
  induction tbl as [|[q' m'] tbl IH]; simpl; [done|]. rewrite IH. by destruct (decide (p = q)).
Qed.

Lemma live_snoc tbl q m p : live (tbl ++ [(q, m)]) p ↔ live tbl p ∨ p `prefix_of` q ++ [""].
Proof. unfold live. rewrite fmap_app. setoid_rewrite elem_of_app. setoid_rewrite list_elem_of_singleton. naive_solver. Qed.

Lemma represents_populate tbl : no_empty tbl = true → represents tbl (root (populate tbl)).
Proof.
  induction tbl as [|[q m] tbl IH] using rev_ind.
  - intros _. split; [|split]; [apply (wf_new (-1))| |intros p; apply (registered_new (-1))].
    intros p. change (root (populate [])) with (new_node (-1) "" None false). rewrite walk_new.
    case_decide as Hp; [naive_solver|]. split; [by intros [? [=]]|].
    intros [?|(? & Hin & _)]; [done|by apply elem_of_nil in Hin].
  - unfold no_empty. rewrite forallb_app. intros [Ht Hq]%andb_true_iff.
    destruct (IH Ht) as (Hw & Hs & Hr). simpl in Hq. rewrite andb_true_r in Hq.
    apply bool_decide_eq_true_1 in Hq. unfold populate. rewrite foldl_app. simpl. fold (populate tbl).
    split; [|split].
    + by apply wf_add_from.
    + intros p. rewrite walk_add_shape, Hs, live_snoc by done. naive_solver.
    + intros p. by rewrite registered_add, table_get_snoc, Hr by done.
Qed.

(** ** Searching *)

Lemma first_wildcard_Some ws key w :
  first_wildcard ws key = Some w → w ∈ ws.*1 ∧ HasPrefix key (stem w) = true.
Proof.
  induction ws as [|[v []] ws IH]; simpl; [done|]. destruct (HasPrefix key (stem v)) eqn:E.
  - intros [= <-]. split; [left|done].
  - intros [? ?]%IH. split; [by right|done].
Qed.

Lemma first_wildcard_None ws key w :
  first_wildcard ws key = None → w ∈ ws.*1 → HasPrefix key (stem w) = false.
Proof.
  induction ws as [|[v []] ws IH]; simpl; [by intros _ ?%elem_of_nil|].
  destruct (HasPrefix key (stem v)) eqn:E; [done|]. intros ? [->|?]%elem_of_cons; auto.
Qed.

Lemma elem_of_stars n w : w ∈ (map_range (wildcards n)).*1 ↔ is_Some (wildcards n !! w).
Proof.
  rewrite list_elem_of_fmap. split.
  - intros ([w' u] & -> & ?%elem_of_map_range). eauto.
  - intros [[] ?]. exists (w, ()). by rewrite elem_of_map_range.
Qed.

(** One step of [findNode] at a position of a represented trie. *)
Lemma step_edge_exact tbl r p n k :
  represents tbl r → walk r p = Some n → live tbl (p ++ [k]) → step_edge n k = Some k.
Proof.
  intros (_ & Hs & _) Hp Hl. unfold step_edge.
  assert (is_Some (walk r (p ++ [k]))) as Hw by (apply Hs; by right).
  rewrite walk_app, Hp in Hw. simpl in Hw. by destruct (children n !! k); [|destruct Hw].
Qed.

Lemma child_live tbl r p n k :
  represents tbl r → walk r p = Some n → is_Some (children n !! k) ↔ live tbl (p ++ [k]).
Proof.
  intros (_ & Hs & _) Hp. transitivity (is_Some (walk r (p ++ [k]))).
  - rewrite walk_app, Hp. simpl. by destruct (children n !! k).
  - rewrite Hs. split; [|by right]. intros [?%app_nil|?]; naive_solver.
Qed.

Lemma star_live tbl r p n w :
  represents tbl r → walk r p = Some n →
  is_Some (wildcards n !! w) ↔ live tbl (p ++ [w]) ∧ star w = true.
Proof.
  intros Hr Hp. rewrite <- (child_live tbl r p n w) by done.
  destruct Hr as (Hw & _). by destruct (walk_wf _ _ _ Hw Hp).
Qed.

Lemma clash_prefix p q1 q2 v w :
  (p ++ [v]) `prefix_of` q1 → (p ++ [w]) `prefix_of` q2 → v ≠ w → star v = true → star w = true →
  HasPrefix (stem v) (stem w) || HasPrefix (stem w) (stem v) = true → clash q1 q2 = true.
Proof.
  intros [r1 ->] [r2 ->] Hvw Hv Hw Hc. rewrite <- !app_assoc. simpl.
  induction p as [|k p IH]; simpl; [by rewrite decide_False, Hv, Hw|by rewrite decide_True].
Qed.

Lemma HasPrefix_comparable k a b :
  HasPrefix k a = true → HasPrefix k b = true → HasPrefix a b || HasPrefix b a = true.
Proof.
  revert a b. induction k as [|c k IH]; intros [|x a] [|y b]; simpl; try done.
  rewrite !andb_true_iff, !bool_decide_eq_true. intros [-> Ha] [-> Hb].
  rewrite bool_decide_eq_true_2 by done. simpl. auto.
Qed.

Lemma prefix_snoc_cases {A} (l q : list A) x :
  l `prefix_of` q ++ [x] → l = q ++ [x] ∨ l `prefix_of` q.
Proof.
  intros [r Hr]. destruct r as [|y r _] using rev_ind; [left; by rewrite app_nil_r in Hr|right].
  rewrite app_assoc in Hr. apply app_inj_tail in Hr as [-> _]. by exists r.
Qed.

(** A star of a live position is an edge of a pattern. *)
Lemma star_prefix tbl p w :
  live tbl (p ++ [w]) → star w = true → ∃ q, q ∈ tbl.*1 ∧ (p ++ [w]) `prefix_of` q.
Proof.
  intros (q & Hq & Hp) Hw. exists q. split; [done|].
  destruct (prefix_snoc_cases _ _ _ Hp) as [Heq|?]; [|done].
  apply app_inj_tail in Heq as [_ ->]. done.
Qed.

Lemma unambiguous_stars tbl p k v w :
  unambiguous tbl = true → live tbl (p ++ [v]) → live tbl (p ++ [w]) →
  star v = true → star w = true → HasPrefix k (stem v) = true → HasPrefix k (stem w) = true → v = w.
Proof.
  intros Hu Hv Hw Hsv Hsw Hkv Hkw. destruct (decide (v = w)) as [|Hne]; [done|]. exfalso.
  destruct (star_prefix _ _ _ Hv Hsv) as (q1 & ([q1' m1] & -> & Hq1)%list_elem_of_fmap & Hp1).
  destruct (star_prefix _ _ _ Hw Hsw) as (q2 & ([q2' m2] & -> & Hq2)%list_elem_of_fmap & Hp2).
  apply list_elem_of_In in Hq1, Hq2. unfold unambiguous in Hu. rewrite forallb_forall in Hu.
  apply Hu in Hq1. rewrite forallb_forall in Hq1. apply Hq1 in Hq2. simpl in *.
  by rewrite (clash_prefix _ _ _ _ _ Hp1 Hp2 Hne Hsv Hsw (HasPrefix_comparable _ _ _ Hkv Hkw)) in Hq2.
Qed.

Lemma walk_child r p n e c :
  walk r p = Some n → children n !! e = Some c → walk r (p ++ [e]) = Some c.
Proof. intros Hp Hc. rewrite walk_app, Hp. simpl. by rewrite Hc. Qed.

(** What [findNode] returns is the node of a greedy reading. *)
Lemma findNode_resolves tbl r p n keys c :
  represents tbl r → walk r p = Some n → findNode n keys = Some c →
  ∃ q, resolves tbl p keys q ∧ walk r q = Some c.
Proof.
  intros Hr. revert p n. induction keys as [|k keys IH]; intros p n Hp; simpl.
  - intros [= <-]. exists p. split; [constructor|done].
  - intros (e & He & (c' & Hc' & Hf)%bind_Some)%bind_Some.
    destruct (IH _ _ (walk_child _ _ _ _ _ Hp Hc') Hf) as (q & Hq & Hwq). exists q. split; [|done].
    unfold step_edge in He. destruct (children n !! k) eqn:Ek; simplify_eq.
    + apply resolves_exact; [|done]. apply (child_live tbl r p n); eauto.
    + apply first_wildcard_Some in He as [Hin%elem_of_stars Hpre].
      rewrite (star_live tbl r p) in Hin by done. destruct Hin as [Hl Hs].
      apply resolves_star with e; [|done..]. rewrite <- (child_live tbl r p n), Ek by done.
      by intros [? [=]].
Qed.

(** Every greedy reading is what [findNode] returns, when no two stars compete. *)
Lemma resolves_findNode tbl r p n keys q :
  represents tbl r → unambiguous tbl = true → walk r p = Some n → resolves tbl p keys q →
  ∃ c, findNode n keys = Some c ∧ walk r q = Some c.
Proof.
  intros Hr Hu Hp Hres. revert n Hp. induction Hres as [p|p k keys q Hl _ IH|p k w keys q Hnl Hl Hs Hpre _ IH];
    intros n Hp; simpl; [by eauto| |].
  - rewrite (step_edge_exact tbl r p) by done. simpl.
    destruct (proj2 (child_live _ _ _ _ _ Hr Hp) Hl) as [c Hc]. rewrite Hc. simpl.
    apply IH. by eapply walk_child.
  - assert (children n !! k = None) as Hk.
    { apply eq_None_not_Some. by rewrite (child_live _ _ _ _ _ Hr Hp). }
    assert (step_edge n k = Some w) as ->.
    { unfold step_edge. rewrite Hk. destruct (first_wildcard _ k) as [v|] eqn:E.
      - apply first_wildcard_Some in E as [Hin%elem_of_stars Hpv].
        rewrite (star_live tbl r p) in Hin by done. destruct Hin as [Hv Hsv].
        f_equal. by eapply unambiguous_stars.
      - rewrite (first_wildcard_None _ _ w E) in Hpre; [done|].
        by apply elem_of_stars, (star_live tbl r p). }
    destruct (proj2 (child_live _ _ _ _ _ Hr Hp) Hl) as [c Hc]. simpl. rewrite Hc. simpl.
    apply IH. by eapply walk_child.
Qed.

Lemma Find_registered t keys :
  Find t keys ≫= meta =
  (findNode (root t) keys ≫= λ n, registered n []).
Proof.
  unfold Find, registered. simpl. destruct (findNode (root t) keys) as [n|]; simpl; [|done].
  destruct (children n !! "") as [c|]; simpl; [|done]. by destruct (term c).
Qed.

Lemma registered_walk r p n : walk r p = Some n → registered n [] = registered r p.
Proof. intros Hp. unfold registered. rewrite (walk_app r p), Hp. done. Qed.

Lemma findNode_wf n keys c : wf n → findNode n keys = Some c → wf c.
Proof.
  revert n. induction keys as [|k keys IH]; intros n Hn; simpl; [by intros [= <-]|].
  intros (e & _ & (c' & Hc' & Hf)%bind_Some)%bind_Some. inversion Hn; subst. eauto.
Qed.

(** What [Find] returns carries data: the callers' type assertion holds. *)
Lemma Find_meta t keys n : wf (root t) → Find t keys = Some n → is_Some (meta n).
Proof.
  intros Hw (c & Hc & (x & Hx & Ht)%bind_Some)%bind_Some.
  apply findNode_wf in Hc; [|done]. inversion Hc as [? _ _ He _]; subst.
  apply He in Hx as (_ & Hterm & ?). rewrite Hterm in Ht. by simplify_eq.
Qed.

Lemma populated_resolves tbl keys m :
  no_empty tbl = true → unambiguous tbl = true →
  Find (populate tbl) keys ≫= meta = Some m ↔
  ∃ p, resolves tbl [] keys p ∧ table_get tbl p = Some m.
Proof.
  intros Hne Hu. pose proof (represents_populate _ Hne) as Hr. rewrite Find_registered. split.
  - intros (n & Hn & Hm)%bind_Some.
    destruct (findNode_resolves tbl _ [] _ _ _ Hr eq_refl Hn) as (p & Hp & Hw). exists p.
    split; [done|]. destruct Hr as (_ & _ & <-). by rewrite <- Hm, (registered_walk _ p _ Hw).
  - intros (p & Hp & Hm).
    destruct (resolves_findNode tbl _ [] _ _ _ Hr Hu eq_refl Hp) as (n & -> & Hw). simpl.
    rewrite (registered_walk _ p) by done. by destruct Hr as (_ & _ & ->).
Qed.

(** ** The reference: reading the path against the flat table *)

(** The elements that may follow [p], by a scan of the table. *)
Fixpoint after (p q : list string) : option string :=
  match p, q with
  | [], [] => None
  | [], k :: _ => Some k
  | _ :: _, [] => None
  | x :: p, y :: q => if decide (x = y) then after p q else None
  end.

Definition next (tbl : table) (p : list string) : list string :=
  omap (λ '(q, _), after p (q ++ [""])) tbl.

Fixpoint first_star (starts : string → bool) (ws : list string) : option string :=
  match ws with
  | [] => None
  | w :: ws => if star w && starts (stem w) then Some w else first_star starts ws
  end.

Definition step (tbl : table) (p : list string) (k : string) : option string :=
  if bool_decide (k ∈ next tbl p) then Some k else first_star (HasPrefix k) (next tbl p).

Fixpoint resolve_path (tbl : table) (p keys : list string) : option (list string) :=
  match keys with
  | [] => Some p
  | k :: keys => e ← step tbl p k; resolve_path tbl (p ++ [e]) keys
  end.

Lemma after_spec p q k : after p q = Some k ↔ (p ++ [k]) `prefix_of` q.
Proof.
  revert q. induction p as [|x p IH]; intros [|y q]; simpl.
  - split; [done|]. by intros ?%prefix_nil_not.
  - split; [intros [= ->]; apply prefix_cons, prefix_nil|]. by intros ->%prefix_cons_inv_1.
  - split; [done|]. by intros ?%prefix_nil_not.
  - case_decide as Hxy.
    + subst. rewrite IH. split; [apply prefix_cons|apply prefix_cons_inv_2].
    + split; [done|]. by intros ?%prefix_cons_inv_1.
Qed.

Lemma next_live tbl p k : k ∈ next tbl p ↔ live tbl (p ++ [k]).
Proof.
  unfold next, live. rewrite list_elem_of_omap. split.
  - intros ([q m] & Hin & Ha%after_spec). exists q. split; [|done]. by apply (list_elem_of_fmap_2 fst _ (q, m)).
  - intros (q & ([q' m] & -> & Hin)%list_elem_of_fmap & Hp). exists (q', m). split; [done|]. by apply after_spec.
Qed.

Lemma first_star_Some f ws w : first_star f ws = Some w → w ∈ ws ∧ star w = true ∧ f (stem w) = true.
Proof.
  induction ws as [|v ws IH]; simpl; [done|]. destruct (star v && f (stem v)) eqn:E.
  - intros [= <-]. apply andb_true_iff in E. split; [left|done].
  - intros [? ?]%IH. split; [by right|done].
Qed.

Lemma first_star_None f ws w : first_star f ws = None → w ∈ ws → star w && f (stem w) = false.
Proof.
  induction ws as [|v ws IH]; simpl; [by intros _ ?%elem_of_nil|].
  destruct (star v && f (stem v)) eqn:E; [done|]. intros ? [->|?]%elem_of_cons; auto.
Qed.

Lemma resolves_resolve tbl p keys q :
  unambiguous tbl = true → resolves tbl p keys q ↔ resolve_path tbl p keys = Some q.
Proof.
  intros Hu. split.
  - induction 1 as [p|p k keys q Hl _ IH|p k w keys q Hnl Hl Hs Hp _ IH]; simpl; [done| |].
    + unfold step. by rewrite bool_decide_true by (by apply next_live).
    + unfold step. rewrite bool_decide_false by (by rewrite next_live).
      destruct (first_star _ (next tbl p)) as [v|] eqn:Ef; simpl.
      * apply first_star_Some in Ef as (Hv%next_live & Hsv & Hpv).
        by rewrite (unambiguous_stars tbl p k v w).
      * apply (first_star_None _ _ w) in Ef; [|by apply next_live]. by rewrite Hs, Hp in Ef.
  - revert p. induction keys as [|k keys IH]; intros p; simpl; [intros [= ->]; constructor|].
    intros (e & He & Hr%IH)%bind_Some. unfold step in He. destruct (bool_decide_reflect (k ∈ next tbl p)) as [Hk|Hk].
    + simplify_eq. apply resolves_exact; [by apply next_live|done].
    + apply first_star_Some in He as (Hv%next_live & Hsv & Hpv).
      apply resolves_star with e; [by rewrite <- next_live|done..].
Qed.

Lemma resolve_path_length tbl p keys q :
  resolve_path tbl p keys = Some q → length q = length p + length keys.
Proof.
  revert p. induction keys as [|k keys IH]; intros p; simpl; [intros [= ->]; lia|].
  intros (e & _ & ->%IH)%bind_Some. rewrite length_app. simpl. lia.
Qed.

Lemma table_get_elem tbl p m : table_get tbl p = Some m → p ∈ tbl.*1.
Proof.
  induction tbl as [|[q m'] tbl IH]; simpl; [done|].
  destruct (table_get tbl p); [intros [= ->]; right; auto|]. destruct (decide (p = q)) as [->|]; [left|done].
Qed.

Lemma populated_scan tbl keys :
  no_empty tbl = true → unambiguous tbl = true →
  Find (populate tbl) keys ≫= meta = (resolve_path tbl [] keys ≫= table_get tbl).
Proof.
  intros Hne Hu. apply option_eq. intros m. rewrite populated_resolves by done.
  setoid_rewrite (resolves_resolve tbl) ; [|done]. by rewrite bind_Some.
Qed.

(** C22. On a trie filled from a table of patterns none of whose stars compete
    at a node, [Find] gives a path the entry that a scan of the flat table
    gives it: element by element the edge itself if the table has it, else the
    star that matches, and the last entry for the pattern so reached.  The
    order of map iteration does not matter: the right-hand side has none. *)
Theorem populated_find tbl keys m :
  no_empty tbl = true → unambiguous tbl = true →
  (∃ n, Find (populate tbl) keys = Some n ∧ meta n = Some m) ↔
  (∃ p, resolve_path tbl [] keys = Some p ∧ table_get tbl p = Some m).
Proof. intros Hne Hu. rewrite <- !bind_Some. by rewrite populated_scan. Qed.

(** A path that was added is found, with the data it was last added with. *)
Theorem add_find t keys m :
  "" ∉ keys → wf (root t) → Find (Add t keys m) keys ≫= meta = Some m.
Proof.
  intros Hne Hw. rewrite Find_registered. unfold Add. simpl.
  assert (∀ n, wf n → findNode (add_from n keys m) keys = walk (add_from n keys m) keys) as Hf.
  { clear t Hw. induction keys as [|k keys IH]; intros n Hn; simpl; [done|].
    apply not_elem_of_cons in Hne as [Hk Hne]. unfold step_edge. simpl. rewrite lookup_insert_eq. simpl.
    rewrite lookup_insert_eq. simpl. apply IH; [done|]. by apply add_child. }
  rewrite Hf by done. pose proof (registered_add (root t) keys m keys Hne Hw) as Hreg.
  rewrite decide_True in Hreg by done. unfold registered in Hreg. rewrite walk_app in Hreg.
  destruct (walk (add_from (root t) keys m) keys); [done|]. done.
Qed.

(** ** The longest registered prefix *)

Lemma longest_from_spec t keys i n :
  longest_from t keys i = Some n →
  ∃ j, 2 ≤ j ≤ i ∧ Find t (take j keys) = Some n ∧ ∀ l, j < l ≤ i → Find t (take l keys) = None.
Proof.
  induction i as [|[|i] IH]; simpl; [done..|].
  destruct (Find t (take (S (S i)) keys)) eqn:E.
  - intros [= <-]. exists (S (S i)). split; [lia|]. split; [done|]. intros l Hl. lia.
  - intros (j & Hj & Hf & Hl)%IH. exists j. split; [lia|]. split; [done|]. intros l Hl'.
    destruct (decide (l = S (S i))) as [->|]; [done|]. apply Hl. lia.
Qed.

Lemma longest_from_None t keys i j :
  longest_from t keys i = None → 2 ≤ j ≤ i → Find t (take j keys) = None.
Proof.
  induction i as [|[|i] IH]; simpl; [lia..|].
  destruct (Find t (take (S (S i)) keys)) eqn:E; [done|]. intros Hn Hj.
  destruct (decide (j = S (S i))) as [->|]; [done|]. apply IH; [done|lia].
Qed.

(** [FindLongestPrefix] returns what [Find] returns on the longest prefix
    of the path, of two elements at least, that [Find] knows; it fails exactly
    when [Find] knows no such prefix, so a path of one element never matches. *)
Theorem longest_prefix t keys :
  match FindLongestPrefix t keys with
  | Some n => ∃ i, 2 ≤ i ≤ length keys ∧ Find t (take i keys) = Some n ∧
                   ∀ j, i < j ≤ length keys → Find t (take j keys) = None
  | None => ∀ i, 2 ≤ i ≤ length keys → Find t (take i keys) = None
  end.
Proof.
  unfold FindLongestPrefix. case_bool_decide; [intros; lia|].
  destruct (longest_from t keys (length keys)) eqn:E.
  - by apply longest_from_spec.
  - intros i. by apply longest_from_None.
Qed.

End trie.
Arguments Node : clear implicits.
Arguments Trie : clear implicits.

(** ** A table with an exact edge beside a star *)
Module TrieExample.

Definition tbl : list (list string * nat) :=
  [(["DB"; "Ethernet*"], 1); (["DB"; "Ethernet*"; "*"], 2); (["DB"; "Ethernet*"; "Queues"], 3)].

Lemma populated_find_witness :
  ∃ n, Find (MR := reversed_range) (populate tbl) ["DB"; "Ethernet4"; "Queues"] = Some n ∧ meta n = Some 3.
Proof.
  apply (populated_find (MR := reversed_range) tbl ["DB"; "Ethernet4"; "Queues"] 3).
  - vm_compute. reflexivity.
  - vm_compute. reflexivity.
  - exists ["DB"; "Ethernet*"; "Queues"]. split; vm_compute; reflexivity.
Defined.

End TrieExample.
