(* ===== verification/DbConfig.v ===== *)
(** * The database configuration (src/sonic_db_config/db_config.go)

    The package wraps the SonicDBConfig class of swsscommon, a C++ library
    that reads the configuration files of the databases and may throw from any
    call; every wrapper catches the exception and returns it as an error next
    to the zero value of its result.  The library is a parameter: what it
    answers once it is initialised, and what initialising it does. *)
From stdpp Require Import base gmap list strings.
From S2P Require Import Prelude GoStrings World.

(** [swsscommon.SonicDBKey] *)
Record SonicDBKey := { Netns : string; ContainerName : string }.

Global Instance SonicDBKey_eq_dec : EqDecision SonicDBKey.
Proof. solve_decision. Defined.

(** A call of the library returns or throws. *)
Notation thrown := (res string).

Class Swss := {
  (* os.Stat finds the global configuration file *)
  GlobalConfigFile : bool;
  (* the library state before this process touched it, and its initialisers *)
  InitializeGlobalConfig : thrown ();
  Initialize : thrown ();
  SonicDBConfigReset : thrown ();
  GetNamespaces : thrown (list string);
  GetDbKeys : thrown (list SonicDBKey);
  GetDbListDefault : thrown (list string);
  GetDbListKey : SonicDBKey → thrown (list string);
  GetSeparator : string → string → thrown string;
  GetSeparatorKey : string → SonicDBKey → thrown string;
  GetId : string → string → thrown Z;
  GetIdKey : string → SonicDBKey → thrown Z;
  GetSock : string → string → thrown string;
  GetSockKey : string → SonicDBKey → thrown string;
  GetHostname : string → string → thrown string;
  GetHostnameKey : string → SonicDBKey → thrown string;
  GetPort : string → string → thrown Z;
  GetPortKey : string → SonicDBKey → thrown Z
}.

Definition SONIC_DEFAULT_NAMESPACE : string := "".
Definition SONIC_DEFAULT_CONTAINER : string := "".

Section config.
Context {Sw : Swss}.

(** The flag of the package and the two of the library. *)
Record Cfg := { sonic_db_init : bool; lib_global : bool; lib_local : bool }.

(** A Go function with results [(v, err)] over this state. *)
Notation CfgM A := (ST Cfg (A * option string)).

(** [defer CatchException(&err)]: the zero value stays in the named result. *)
Definition CatchException {A} (zero : A) (r : thrown A) : A * option string :=
  match r with Ok a => (a, None) | Err e => (zero, Some e) end.

Definition DbInit : ST Cfg (option string) := λ s,
  if sonic_db_init s then (s, None)
  else if GlobalConfigFile then
    if lib_global s then ({| sonic_db_init := true; lib_global := true; lib_local := lib_local s |}, None)
    else match InitializeGlobalConfig with
         | Ok _ => ({| sonic_db_init := true; lib_global := true; lib_local := lib_local s |}, None)
         | Err e => (s, Some e)
         end
  else
    if lib_local s then ({| sonic_db_init := true; lib_global := lib_global s; lib_local := true |}, None)
    else match Initialize with
         | Ok _ => ({| sonic_db_init := true; lib_global := lib_global s; lib_local := true |}, None)
         | Err e => (s, Some e)
         end.

(** [if !sonic_db_init { if err := DbInit(); err != nil { return onerr, err } }] *)
Definition with_init {A} (onerr : A) (k : CfgM A) : CfgM A :=
  e ← DbInit;
  match e with Some e => mret (onerr, Some e) | None => k end.

Definition GetDbDefaultNamespace : string := SONIC_DEFAULT_NAMESPACE.

Definition CheckDbMultiNamespace : CfgM bool :=
  with_init false
    (mret (CatchException false ((λ ns_vec, bool_decide (1 < length ns_vec)) <$> GetNamespaces))).

Definition GetDbNonDefaultNamespaces : CfgM (list string) :=
  with_init []
    (mret (CatchException [] (filter (λ ns, ns ≠ SONIC_DEFAULT_NAMESPACE) <$> GetNamespaces))).

Definition GetDbAllNamespaces : CfgM (list string) :=
  with_init [] (mret (CatchException [] GetNamespaces)).

(** Results [(ns, ret, err)]. *)
Definition GetDbNamespaceFromTarget (target : string) : ST Cfg ((string * bool) * option string) :=
  if bool_decide (target = GetDbDefaultNamespace) then mret ((target, true), None)
  else
    r ← GetDbNonDefaultNamespaces;
    match r with
    | (_, Some e) => mret (("", false), Some e)
    | (ns_list, None) =>
        if bool_decide (target ∈ ns_list) then mret ((target, true), None)
        else mret (("", false), None)
    end.

(** The namespace argument is not used. *)
Definition GetDbList (ns : string) : CfgM (list string) :=
  with_init [] (mret (CatchException [] GetDbListDefault)).

Definition GetDbSeparator (db_name ns : string) : CfgM string :=
  with_init "" (mret (CatchException "" (GetSeparator db_name ns))).

Definition GetDbId (db_name ns : string) : CfgM Z :=
  with_init (-1)%Z (mret (CatchException 0%Z (GetId db_name ns))).

Definition GetDbSock (db_name ns : string) : CfgM string :=
  with_init "" (mret (CatchException "" (GetSock db_name ns))).

Definition GetDbHostName (db_name ns : string) : CfgM string :=
  with_init "" (mret (CatchException "" (GetHostname db_name ns))).

Definition GetDbPort (db_name ns : string) : CfgM Z :=
  with_init (-1)%Z (mret (CatchException 0%Z (GetPort db_name ns))).

(** [hostname + ":" + strconv.Itoa(port)] *)
Definition tcp_addr (hostname : CfgM string) (port : CfgM Z) : CfgM string :=
  h ← hostname;
  match h with
  | (_, Some e) => mret ("", Some e)
  | (hostname, None) =>
      p ← port;
      match p with
      | (_, Some e) => mret ("", Some e)
      | (port, None) => mret (hostname +:+ ":" +:+ Itoa port, None)
      end
  end.

Definition GetDbTcpAddr (db_name ns : string) : CfgM string :=
  with_init "" (tcp_addr (GetDbHostName db_name ns) (GetDbPort db_name ns)).

Definition CheckDbMultiInstance : CfgM bool :=
  with_init false
    (mret (CatchException false ((λ dbkey_vec, bool_decide (1 < length dbkey_vec)) <$> GetDbKeys))).

Definition default_key : SonicDBKey :=
  {| Netns := SONIC_DEFAULT_NAMESPACE; ContainerName := SONIC_DEFAULT_CONTAINER |}.

Definition GetDbNonDefaultInstances : CfgM (list SonicDBKey) :=
  with_init []
    (mret (CatchException [] (filter (λ dbkey, dbkey ≠ default_key) <$> GetDbKeys))).

Definition GetDbAllInstances : CfgM (list SonicDBKey) :=
  with_init [] (mret (CatchException [] GetDbKeys)).

Definition GetDbListByDBKey (dbkey : SonicDBKey) : CfgM (list string) :=
  with_init [] (mret (CatchException [] (GetDbListKey dbkey))).

(** Results [(dbkey, ret)]; a nil key is [None]. *)
Definition GetDbInstanceFromTarget (ns container : string) : ST Cfg (option SonicDBKey * bool) :=
  let dbkey := {| Netns := ns; ContainerName := container |} in
  r ← GetDbListByDBKey dbkey;
  match r with
  | (_, Some _) => mret (None, false)
  | (_, None) => mret (Some dbkey, true)
  end.

Definition GetDbSeparatorByDBKey (db_name : string) (dbkey : SonicDBKey) : CfgM string :=
  with_init "" (mret (CatchException "" (GetSeparatorKey db_name dbkey))).

Definition GetDbIdByDBKey (db_name : string) (dbkey : SonicDBKey) : CfgM Z :=
  with_init (-1)%Z (mret (CatchException 0%Z (GetIdKey db_name dbkey))).

Definition GetDbSockByDBKey (db_name : string) (dbkey : SonicDBKey) : CfgM string :=
  with_init "" (mret (CatchException "" (GetSockKey db_name dbkey))).

Definition GetDbHostNameByDBKey (db_name : string) (dbkey : SonicDBKey) : CfgM string :=
  with_init "" (mret (CatchException "" (GetHostnameKey db_name dbkey))).

Definition GetDbPortByDBKey (db_name : string) (dbkey : SonicDBKey) : CfgM Z :=
  with_init (-1)%Z (mret (CatchException 0%Z (GetPortKey db_name dbkey))).

Definition GetDbTcpAddrByDBKey (db_name : string) (dbkey : SonicDBKey) : CfgM string :=
  with_init "" (tcp_addr (GetDbHostNameByDBKey db_name dbkey) (GetDbPortByDBKey db_name dbkey)).

(** [Init] forgets the configuration: the library's flags fall with it. *)
Definition Init : ST Cfg (option string) := λ s,
  match SonicDBConfigReset with
  | Ok _ => ({| sonic_db_init := false; lib_global := false; lib_local := false |}, None)
  | Err e => ({| sonic_db_init := false; lib_global := lib_global s; lib_local := lib_local s |}, Some e)
  end.

(** ** Facts *)

(** An initialised configuration stays as it is, and every reader answers
    from the library. *)
Lemma with_init_inited {A} (onerr : A) k s : sonic_db_init s = true → with_init onerr k s = k s.
Proof. intros Hs. unfold with_init, mbind, ST_bind, DbInit. by rewrite Hs. Qed.

Lemma DbInit_inited s s' : DbInit s = (s', None) → sonic_db_init s' = true.
Proof. unfold DbInit. repeat case_match; intros; by simplify_eq/=. Qed.

(** A failed initialisation leaves no trace, so the next call tries again. *)
Lemma DbInit_failed s s' e : DbInit s = (s', Some e) → s' = s.
Proof. unfold DbInit. repeat case_match; intros; by simplify_eq/=. Qed.

(** So the answers of a reader do not depend on which reader came first: a
    snapshot of the state can stand for the state of the whole call. *)
Lemma with_init_stable {A} (onerr : A) r s :
  (with_init onerr (mret r) (DbInit s).1).2 = (with_init onerr (mret r) s).2.
Proof.
  destruct (DbInit s) as [s' [e|]] eqn:E; simpl.
  - by apply DbInit_failed in E as ->.
  - rewrite with_init_inited by (by eapply DbInit_inited).
    unfold with_init, mbind, ST_bind. by rewrite E.
Qed.

End config.
