(* ===== verification/DbConn.v ===== *)
(** * Connections to the databases (src/sonic_data_client/db_client.go)

    The clients of the SONiC databases, one per namespace and database, and
    the functions that choose among them.  A client of go-redis is a record of
    the commands the sources send; [Serves] states what Redis documents of
    them against the contents of one database.  The contents do not change
    during a call that is modelled by one definition; a routine that runs over
    time is a step function that is given the connections at each step. *)
From Stdlib Require Import Ascii.
From stdpp Require Import base gmap list strings.
From S2P Require Import Prelude GoStrings Gnmi World DbConfig.

(** An error a function returns, or the panic of an index out of range.
    [redis.Nil] is how go-redis reports an absent field. *)
Inductive gerr := Errorf (msg : string) | RedisNil | Panicked.

Global Instance gerr_eq_dec : EqDecision gerr.
Proof. solve_decision. Defined.

(** [xs[i]] *)
Definition index {A} (xs : list A) (i : nat) : res gerr A := of_option Panicked (xs !! i).

(** [s[n:]] *)
Definition slice_from (s : string) (n : nat) : res gerr string :=
  if bool_decide (n ≤ String.length s) then Ok (str_drop n s) else Err Panicked.

(** ** Redis clients *)
Record Conn := {
  Ping : option gerr;
  Keys : string → res gerr (list string);
  HGetAll : string → res gerr (gmap string string);
  HGetF : string → string → res gerr string;
  Exists : string → res gerr Z;
  HExists : string → string → res gerr bool
}.

(** A string that a glob pattern reads literally. *)
Definition literal (p : string) : Prop :=
  Forall (λ c, c ∉ ["*"; "?"; "["; "]"; "\"; "^"]%char) (String.list_ascii_of_string p).

Lemma literal_app a b : literal a → literal b → literal (a +:+ b).
Proof.
  unfold literal. intros Ha Hb. induction a as [|c a IH]; [done|].
  rewrite app_cons_str. simpl in *. inversion Ha; subst. constructor; auto.
Qed.

(** A database is a map from keys to hashes, none of which is empty. *)
Notation contents := (gmap string (gmap string string)).

(** What the commands return on a server that answers. *)
Class Serves (c : Conn) (d : contents) : Prop := {
  serves_ping : Ping c = None;
  serves_keys p : literal p →
    ∃ l, Keys c (p +:+ "*") = Ok l ∧ NoDup l ∧ ∀ k, k ∈ l ↔ is_Some (d !! k) ∧ HasPrefix k p = true;
  serves_hgetall k : HGetAll c k = Ok (default ∅ (d !! k));
  serves_hget k f : HGetF c k f = of_option RedisNil (d !! k ≫= λ h, h !! f);
  serves_exists k : Exists c k = Ok (if d !! k then 1 else 0)%Z;
  serves_hexists k f : HExists c k f = Ok (bool_decide (is_Some (d !! k ≫= λ h, h !! f)))
}.

(** A client over known contents; the concrete examples run on it. *)
Definition conn_of (d : contents) : Conn := {|
  Ping := None;
  Keys := λ p,
    Ok (filter (λ k, HasPrefix k (str_take (String.length p - 1) p)) (map_to_list d).*1);
  HGetAll := λ k, Ok (default ∅ (d !! k));
  HGetF := λ k f, of_option RedisNil (d !! k ≫= λ h, h !! f);
  Exists := λ k, Ok (if d !! k then 1 else 0)%Z;
  HExists := λ k f, Ok (bool_decide (is_Some (d !! k ≫= λ h, h !! f)))
|}.

Lemma take_snoc_star p : str_take (String.length (p +:+ "*") - 1) (p +:+ "*") = p.
Proof. rewrite length_app_str. simpl. rewrite Nat.add_sub. apply str_take_app. Qed.

Global Instance conn_of_serves d : Serves (conn_of d) d.
Proof.
  split; [done| |done..]. intros p _. simpl. rewrite take_snoc_star. eexists. split; [done|]. split.
  - apply NoDup_filter, NoDup_fst_map_to_list.
  - intros k. rewrite list_elem_of_filter, list_elem_of_fmap. split.
    + intros [Hp ([k' h] & -> & Hin%elem_of_map_to_list)]. split; [by eauto|by apply Is_true_true].
    + intros [[h Hh] Hp]. split; [by apply Is_true_true|]. exists (k, h). by rewrite elem_of_map_to_list.
Qed.

(** ** Paths into a table *)
Record tablePath := {
  dbNamespace : string;
  dbName : string;
  tableName : string;
  tableKey : string;
  delimitor : string;
  field : string;
  jsonValue : string;
  protoValue : string;
  index_ : Z;
  operation : Z;
  jsonTableName : string;
  jsonTableKey : string;
  jsonDelimitor : string;
  jsonField : string
}.

Global Instance tablePath_eq_dec : EqDecision tablePath.
Proof. solve_decision. Defined.

(** Table paths are keys of a map in the stream routines. *)
Global Instance tablePath_countable : Countable tablePath.
Proof.
  refine (inj_countable'
    (λ t, (dbNamespace t, dbName t, tableName t, tableKey t, delimitor t, field t,
           (jsonValue t, protoValue t, index_ t, operation t),
           (jsonTableName t, jsonTableKey t, jsonDelimitor t, jsonField t)))
    (λ '(a, b, c, d, e, f, (g, h, i, j), (k, l, m, n)), Build_tablePath a b c d e f g h i j k l m n) _).
  by intros [].
Defined.

(** A composite literal that leaves the fields it does not name zero. *)
Definition buildTablePath (namespace db_name table_name table_key separator fld
    json_table_name json_table_key json_field : string) : tablePath := {|
  dbNamespace := namespace; dbName := db_name; tableName := table_name; tableKey := table_key;
  delimitor := separator; field := fld; jsonValue := ""; protoValue := ""; index_ := 0; operation := 0;
  jsonTableName := json_table_name; jsonTableKey := json_table_key; jsonDelimitor := "";
  jsonField := json_field
|}.

Definition CreateTablePath (db_name table_name delim table_key : string) : tablePath :=
  buildTablePath "" db_name table_name table_key delim "" "" "" "".

Definition countersDbHasTableKeys (table_name : string) : bool :=
  bool_decide (table_name = "COUNTERS") || bool_decide (table_name = "PORT_PHY_ATTR").

(** ** Targets *)

(** [spb.Target_value] *)
Definition Target_value : list (string * Z) :=
  [("APPL_DB", 0); ("ASIC_DB", 1); ("COUNTERS_DB", 2); ("CONFIG_DB", 4); ("PFC_WD_DB", 5);
   ("FLEX_COUNTER_DB", 5); ("STATE_DB", 6); ("CHASSIS_STATE_DB", 13); ("OTHERS", 100)]%Z.

Definition is_target (name : string) : bool := bool_decide (name ∈ Target_value.*1).

Section targets.
Context {Sw : Swss}.

Notation CfgM A := (ST Cfg (A * option string)).

Definition GetTableKeySeparator (target ns : string) : CfgM string :=
  if is_target target then GetDbSeparator target ns
  else mret ("", Some (target +:+ " not a valid path target")).

(** [Target2RedisDb]: a database without a client is absent. *)
Notation Clients := (gmap string (gmap string Conn)).

Definition client_of (t : Clients) (ns target : string) : option Conn :=
  t !! ns ≫= λ m, m !! target.

(** [redis_client_map[ns] = client] over a list of namespaces. *)
Definition clients_in (t : Clients) (target : string) (nss : list string) : gmap string Conn :=
  foldl (λ m ns, match client_of t ns target with Some c => <[ns := c]> m | None => m end) ∅ nss.

Definition GetRedisClientsForDb (t : Clients) (target : string) : CfgM (gmap string Conn) :=
  r ← CheckDbMultiNamespace;
  match r with
  | (_, Some e) => mret (∅, Some e)
  | (true, None) =>
      l ← GetDbNonDefaultNamespaces;
      match l with
      | (_, Some e) => mret (∅, Some e)
      | (ns_list, None) => mret (clients_in t target ns_list, None)
      end
  | (false, None) => mret (clients_in t target [GetDbDefaultNamespace], None)
  end.

(** Results [(dbName, valid, dbNamespace, namespace present)]. *)
Definition IsTargetDb (target : string) : ST Cfg (string * bool * string * bool) :=
  let targetname := Split target "/" in
  let db_name := default "" (targetname !! 0) in
  r ← CheckDbMultiNamespace;
  if bool_decide (2 < length targetname) then mret (db_name, false, GetDbDefaultNamespace, false)
  else
    let '(ns, ns_exist) :=
      if r.1 && bool_decide (1 < length targetname)
      then (default "" (targetname !! 1), true) else (GetDbDefaultNamespace, false) in
    mret (db_name, is_target db_name, ns, ns_exist).

(** The clients that [initRedisDbClients] dials, through a constructor of
    go-redis clients (network address, database number). *)
Section dial.
Context (NewClient : string → string → Z → Conn).

(** [for dbName, dbn := range spb.Target_value] in one namespace. *)
Fixpoint dial_dbs (network : string) (addr : string → string → CfgM string) (ns : string)
    (targets : list (string * Z)) (m : gmap string Conn) : ST Cfg (gmap string Conn) :=
  match targets with
  | [] => mret m
  | (db_name, dbn) :: targets =>
      if bool_decide (db_name = "OTHERS") then dial_dbs network addr ns targets m
      else
        a ← addr db_name ns;
        match a with
        | (_, Some _) => dial_dbs network addr ns targets m
        | (a, None) => dial_dbs network addr ns targets (<[db_name := NewClient network a dbn]> m)
        end
  end.

Fixpoint dial_all (network : string) (addr : string → string → CfgM string)
    (nss : list string) (t : Clients) : ST Cfg Clients :=
  match nss with
  | [] => mret t
  | ns :: nss =>
      m ← dial_dbs network addr ns Target_value ∅;
      dial_all network addr nss (<[ns := m]> t)
  end.

Definition initRedisDbClients (t : Clients) : ST Cfg Clients :=
  r ← GetDbAllNamespaces;
  match r with
  | (_, Some _) => mret t
  | (nss, None) => dial_all "unix" GetDbSock nss t
  end.

Definition useRedisTcpClient (UseRedisLocalTcpPort : bool) (t : Clients)
  : ST Cfg (Clients * option string) :=
  if negb UseRedisLocalTcpPort then mret (t, None)
  else
    r ← GetDbAllNamespaces;
    match r with
    | (_, Some e) => mret (t, Some e)
    | (nss, None) => t' ← dial_all "tcp" GetDbTcpAddr nss t; mret (t', None)
    end.

End dial.
End targets.

(** [gnmiFullPath]: the elements of the prefix and the path, when the path has
    any.  The deprecated [element] field, which it fills as well, is not read
    by its callers here. *)
Definition gnmiFullPath (prefix path : option Path) : Path := {|
  path_origin := GetOrigin path;
  path_target := "";
  path_elem := match GetElem path with [] => [] | l => GetElem prefix ++ l end
|}.
