(* ===== verification/VirtualDb.v ===== *)
(** * Virtual paths of COUNTERS_DB (src/sonic_data_client/virtual_db.go)

    Counters are stored under object ids; a client asks for them by port,
    queue, SID or ACL rule name.  The package keeps process-wide maps from
    names to ids, loaded from the databases at the first use, and a table of
    translators from virtual paths to real table paths, reached through a
    [Trie].

    [Maps] holds the package variables.  A [sync.Once] is a name in [fired];
    [once] runs its body at most one time and, like [Do], counts a body that
    failed as done.  A nil map reads like an empty one, and no variable that
    may become nil is written by index.  The read-write mutex serialises
    [ClearMappings] with the readers; each definition here is one critical
    section. *)
From stdpp Require Import base gmap sets list strings.
From S2P Require Import Prelude GoStrings World DbConfig DbConn Trie.

Record Maps := {
  countersPortNameMap : gmap string string;
  countersQueueNameMap : gmap string string;
  countersSidMap : gmap string string;
  countersAclRuleMap : gmap string string;
  countersPGNameMap : gmap string (gmap string string);
  alias2nameMap : gmap string string;
  name2aliasMap : gmap string string;
  port2namespaceMap : gmap string string;
  countersPfcwdNameMap : gmap string (gmap string string);
  countersFabricPortNameMap : gmap string string;
  countersDebugNameSwitchStatMap : gmap string string;
  fired : gset string
}.

Definition noMaps : Maps := {|
  countersPortNameMap := ∅; countersQueueNameMap := ∅; countersSidMap := ∅;
  countersAclRuleMap := ∅; countersPGNameMap := ∅; alias2nameMap := ∅; name2aliasMap := ∅;
  port2namespaceMap := ∅; countersPfcwdNameMap := ∅; countersFabricPortNameMap := ∅;
  countersDebugNameSwitchStatMap := ∅; fired := ∅
|}.

(** Assignments to the package variables. *)
Definition set_countersPortNameMap (x0 : gmap string string) (g : Maps) : Maps := {|
  countersPortNameMap := x0; countersQueueNameMap := countersQueueNameMap g; countersSidMap :=
  countersSidMap g; countersAclRuleMap := countersAclRuleMap g; countersPGNameMap :=
  countersPGNameMap g; alias2nameMap := alias2nameMap g; name2aliasMap := name2aliasMap g;
  port2namespaceMap := port2namespaceMap g; countersPfcwdNameMap := countersPfcwdNameMap g;
  countersFabricPortNameMap := countersFabricPortNameMap g; countersDebugNameSwitchStatMap :=
  countersDebugNameSwitchStatMap g; fired := fired g
|}.

Definition set_countersQueueNameMap (x0 : gmap string string) (g : Maps) : Maps := {|
  countersPortNameMap := countersPortNameMap g; countersQueueNameMap := x0; countersSidMap :=
  countersSidMap g; countersAclRuleMap := countersAclRuleMap g; countersPGNameMap :=
  countersPGNameMap g; alias2nameMap := alias2nameMap g; name2aliasMap := name2aliasMap g;
  port2namespaceMap := port2namespaceMap g; countersPfcwdNameMap := countersPfcwdNameMap g;
  countersFabricPortNameMap := countersFabricPortNameMap g; countersDebugNameSwitchStatMap :=
  countersDebugNameSwitchStatMap g; fired := fired g
|}.

Definition set_countersSidMap (x0 : gmap string string) (g : Maps) : Maps := {|
  countersPortNameMap := countersPortNameMap g; countersQueueNameMap := countersQueueNameMap g;
  countersSidMap := x0; countersAclRuleMap := countersAclRuleMap g; countersPGNameMap :=
  countersPGNameMap g; alias2nameMap := alias2nameMap g; name2aliasMap := name2aliasMap g;
  port2namespaceMap := port2namespaceMap g; countersPfcwdNameMap := countersPfcwdNameMap g;
  countersFabricPortNameMap := countersFabricPortNameMap g; countersDebugNameSwitchStatMap :=
  countersDebugNameSwitchStatMap g; fired := fired g
|}.

Definition set_countersAclRuleMap (x0 : gmap string string) (g : Maps) : Maps := {|
  countersPortNameMap := countersPortNameMap g; countersQueueNameMap := countersQueueNameMap g;
  countersSidMap := countersSidMap g; countersAclRuleMap := x0; countersPGNameMap :=
  countersPGNameMap g; alias2nameMap := alias2nameMap g; name2aliasMap := name2aliasMap g;
  port2namespaceMap := port2namespaceMap g; countersPfcwdNameMap := countersPfcwdNameMap g;
  countersFabricPortNameMap := countersFabricPortNameMap g; countersDebugNameSwitchStatMap :=
  countersDebugNameSwitchStatMap g; fired := fired g
|}.

Definition set_countersPGNameMap (x0 : gmap string (gmap string string)) (g : Maps) : Maps := {|
  countersPortNameMap := countersPortNameMap g; countersQueueNameMap := countersQueueNameMap g;
  countersSidMap := countersSidMap g; countersAclRuleMap := countersAclRuleMap g;
  countersPGNameMap := x0; alias2nameMap := alias2nameMap g; name2aliasMap := name2aliasMap g;
  port2namespaceMap := port2namespaceMap g; countersPfcwdNameMap := countersPfcwdNameMap g;
  countersFabricPortNameMap := countersFabricPortNameMap g; countersDebugNameSwitchStatMap :=
  countersDebugNameSwitchStatMap g; fired := fired g
|}.

Definition set_countersPfcwdNameMap (x0 : gmap string (gmap string string)) (g : Maps) : Maps := {|
  countersPortNameMap := countersPortNameMap g; countersQueueNameMap := countersQueueNameMap g;
  countersSidMap := countersSidMap g; countersAclRuleMap := countersAclRuleMap g;
  countersPGNameMap := countersPGNameMap g; alias2nameMap := alias2nameMap g; name2aliasMap :=
  name2aliasMap g; port2namespaceMap := port2namespaceMap g; countersPfcwdNameMap := x0;
  countersFabricPortNameMap := countersFabricPortNameMap g; countersDebugNameSwitchStatMap :=
  countersDebugNameSwitchStatMap g; fired := fired g
|}.

Definition set_countersFabricPortNameMap (x0 : gmap string string) (g : Maps) : Maps := {|
  countersPortNameMap := countersPortNameMap g; countersQueueNameMap := countersQueueNameMap g;
  countersSidMap := countersSidMap g; countersAclRuleMap := countersAclRuleMap g;
  countersPGNameMap := countersPGNameMap g; alias2nameMap := alias2nameMap g; name2aliasMap :=
  name2aliasMap g; port2namespaceMap := port2namespaceMap g; countersPfcwdNameMap :=
  countersPfcwdNameMap g; countersFabricPortNameMap := x0; countersDebugNameSwitchStatMap :=
  countersDebugNameSwitchStatMap g; fired := fired g
|}.

Definition set_countersDebugNameSwitchStatMap (x0 : gmap string string) (g : Maps) : Maps := {|
  countersPortNameMap := countersPortNameMap g; countersQueueNameMap := countersQueueNameMap g;
  countersSidMap := countersSidMap g; countersAclRuleMap := countersAclRuleMap g;
  countersPGNameMap := countersPGNameMap g; alias2nameMap := alias2nameMap g; name2aliasMap :=
  name2aliasMap g; port2namespaceMap := port2namespaceMap g; countersPfcwdNameMap :=
  countersPfcwdNameMap g; countersFabricPortNameMap := countersFabricPortNameMap g;
  countersDebugNameSwitchStatMap := x0; fired := fired g
|}.

Definition set_fired (x0 : gset string) (g : Maps) : Maps := {|
  countersPortNameMap := countersPortNameMap g; countersQueueNameMap := countersQueueNameMap g;
  countersSidMap := countersSidMap g; countersAclRuleMap := countersAclRuleMap g;
  countersPGNameMap := countersPGNameMap g; alias2nameMap := alias2nameMap g; name2aliasMap :=
  name2aliasMap g; port2namespaceMap := port2namespaceMap g; countersPfcwdNameMap :=
  countersPfcwdNameMap g; countersFabricPortNameMap := countersFabricPortNameMap g;
  countersDebugNameSwitchStatMap := countersDebugNameSwitchStatMap g; fired := x0
|}.

Definition set_aliases (x0 : gmap string string) (x1 : gmap string string) (x2 : gmap string string) (g : Maps) : Maps := {|
  countersPortNameMap := countersPortNameMap g; countersQueueNameMap := countersQueueNameMap g;
  countersSidMap := countersSidMap g; countersAclRuleMap := countersAclRuleMap g;
  countersPGNameMap := countersPGNameMap g; alias2nameMap := x0; name2aliasMap := x1;
  port2namespaceMap := x2; countersPfcwdNameMap := countersPfcwdNameMap g;
  countersFabricPortNameMap := countersFabricPortNameMap g; countersDebugNameSwitchStatMap :=
  countersDebugNameSwitchStatMap g; fired := fired g
|}.

(** [Once.Do] around a body that reports through a captured error variable. *)
Definition once (name : string) (body : Maps → Maps * option gerr) (g : Maps) : Maps * option gerr :=
  if bool_decide (name ∈ fired g) then (g, None)
  else let '(g', e) := body g in (set_fired ({[name]} ∪ fired g') g', e).

Section vdb.
Context {Sw : Swss} {MR : MapRange}.

(** What a call sees of the outside: the configuration, the clients and the
    UNIT_TEST variable of the environment. *)
Record Env := {
  env_cfg : Cfg;
  Target2RedisDb : gmap string (gmap string Conn);
  UNIT_TEST : string
}.

(** [separator, _ := GetTableKeySeparator(db, ns)] *)
Definition separator_of (E : Env) (db ns : string) : string :=
  (GetTableKeySeparator db ns (env_cfg E)).2.1.

Definition clients_for (E : Env) (db : string) : res gerr (gmap string Conn) :=
  match (GetRedisClientsForDb (Target2RedisDb E) db (env_cfg E)).2 with
  | (m, None) => Ok m
  | (_, Some e) => Err (Errorf e)
  end.

(** ** Loading the maps *)

Definition addmap (a b : gmap string string) : gmap string string :=
  foldl (λ a '(k, v), <[k := v]> a) a (map_range b).

Definition GetCountersMap (E : Env) (table_name : string) : res gerr (gmap string string) :=
  clients ← clients_for E "COUNTERS_DB";
  foldM (λ counter_map '(_, redisDb), fv ← HGetAll redisDb table_name; Ok (addmap counter_map fv))
    ∅ (map_range clients).

(** Keys made unique by the namespace: [PORT0-asic0]. *)
Definition namespaceFv (namespace : string) (fv : gmap string string) : gmap string string :=
  foldl (λ m '(k, v), <[k +:+ (if bool_decide (namespace = "") then "" else "-" +:+ namespace) := v]> m)
    ∅ (map_range fv).

Definition GetFabricCountersMap (E : Env) (table_name : string) : res gerr (gmap string string) :=
  clients ← clients_for E "COUNTERS_DB";
  foldM (λ counter_map '(namespace, redisDb),
           fv ← HGetAll redisDb table_name; Ok (addmap counter_map (namespaceFv namespace fv)))
    ∅ (map_range clients).

Definition getSwitchStatMap (E : Env) (table_name : string) : res gerr (gmap string string) :=
  clients ← clients_for E "COUNTERS_DB";
  foldM (λ counter_map '(namespace, redisDb),
           fv ← HGetAll redisDb table_name; Ok (addmap counter_map (namespaceFv namespace fv)))
    ∅ (map_range clients).

(** The three maps of [GetAliasMap]. *)
Definition aliases : Type := gmap string string * gmap string string * gmap string string.

Definition alias_key (redisDb : Conn) (namespace : string) (m : aliases) (key : string) : res gerr aliases :=
  let '(alias2name, name2alias, port2namespace) := m in
  alias ← HGetF redisDb key "alias";
  name ← slice_from key 5;
  Ok (<[alias := name]> alias2name, <[name := alias]> name2alias, <[name := namespace]> port2namespace).

Definition alias_namespace (E : Env) (m : aliases) (c : string * Conn) : res gerr aliases :=
  let '(namespace, redisDb) := c in
  let separator := separator_of E "CONFIG_DB" namespace in
  match Ping redisDb with
  | Some e => Err e
  | None =>
      resp ← Keys redisDb ("PORT" +:+ separator +:+ "*");
      foldM (alias_key redisDb namespace) m resp
  end.

Definition GetAliasMap (E : Env) : res gerr aliases :=
  clients ← clients_for E "CONFIG_DB";
  foldM (alias_namespace E) (∅, ∅, ∅) (map_range clients).

(** [GetPfcwdMap] also leaves with a nil map and a nil error: [Err None]. *)
Notation early A := (res (option gerr) A).

Definition lift {A} (r : res gerr A) : early A :=
  match r with Ok a => Ok a | Err e => Err (Some e) end.

Definition is_global (key : string) : bool := Contains key "GLOBAL" || Contains key "global".

(** [pfcwdName_map[name] = make(map[string]string)] for the ports of PFC_WD. *)
Definition pfcwd_ports (prefix_len : nat) (m : gmap string (gmap string string)) (keys : list string)
  : res gerr (gmap string (gmap string string)) :=
  foldM (λ m key, if is_global key then Ok m
                  else name ← slice_from key prefix_len; Ok (<[name := ∅]> m)) m keys.

Definition first_qos (keys : list string) : string :=
  default "" (head (filter (λ k, negb (is_global k)) keys)).

Definition pfc_indices (priorities : string) (pfc_queue_map : gmap string string) : list string :=
  omap (λ p, pfc_queue_map !! p) (Split priorities ",").

(** The queues of one port. *)
Definition pfcwd_queues (queues : gmap string string) (separator : string) (indices : list string)
    (port : string) (m : gmap string (gmap string string)) : res gerr (gmap string (gmap string string)) :=
  foldM (λ m indice,
    let queue_key := port +:+ separator +:+ indice in
    match queues !! queue_key with
    | None => Err (Errorf ("key " +:+ queue_key +:+ " not exists in COUNTERS_QUEUE_NAME_MAP"))
    | Some oid => Ok (<[port := <[queue_key := oid]> (default ∅ (m !! port))]> m)
    end) m indices.

Definition pfcwd_namespace (E : Env) (g : Maps) (m : gmap string (gmap string string))
    (c : string * Conn) : early (gmap string (gmap string string)) :=
  let '(namespace, redisDb) := c in
  let separator := separator_of E "CONFIG_DB" namespace in
  match Ping redisDb with
  | Some e => Err (Some e)
  | None =>
      let keyName := "PFC_WD" +:+ separator +:+ "*" in
      resp ← lift (Keys redisDb keyName);
      if bool_decide (resp = []) then Err None else
      m ← lift (pfcwd_ports (String.length keyName - 1) m resp);
      resp ← lift (Keys redisDb "PORT_QOS_MAP*");
      if bool_decide (resp = []) then Err None else
      priorities ← lift (HGetF redisDb (first_qos resp) "pfc_enable");
      pfc_queue_map ← lift (HGetAll redisDb ("MAP_PFC_PRIORITY_TO_QUEUE" +:+ separator +:+ "AZURE"));
      let indices := pfc_indices priorities pfc_queue_map in
      if bool_decide (countersQueueNameMap g = ∅) then Err None else
      let queue_separator := separator_of E "COUNTERS_DB" namespace in
      lift (foldM (λ m '(port, _), pfcwd_queues (countersQueueNameMap g) queue_separator indices port m)
              m (map_range m))
  end.

Definition GetPfcwdMap (E : Env) (g : Maps) : res gerr (gmap string (gmap string string)) :=
  clients ← clients_for E "CONFIG_DB";
  match foldM (pfcwd_namespace E g) ∅ (map_range clients) with
  | Ok m => Ok m
  | Err None => Ok ∅
  | Err (Some e) => Err e
  end.

(** ** The initialisers *)

(** [m, err = f()]: the variable is assigned, nil on an error. *)
Definition assign {A} `{Empty A} (set : A → Maps → Maps) (r : res gerr A) (g : Maps) : Maps * option gerr :=
  match r with Ok m => (set m g, None) | Err e => (set ∅ g, Some e) end.

Definition initCountersQueueNameMap (E : Env) : Maps → Maps * option gerr :=
  once "initCountersQueueNameMapOnce"
    (assign set_countersQueueNameMap (GetCountersMap E "COUNTERS_QUEUE_NAME_MAP")).

(** The loop of [initCountersPGNameMap]; what it wrote before a bad name stays. *)
Fixpoint pg_entries (l : list (string * string)) (m : gmap string (gmap string string))
  : gmap string (gmap string string) * option gerr :=
  match l with
  | [] => (m, None)
  | (pg, oid) :: l =>
      match Split pg ":" with
      | [port; idx] => pg_entries l (<[port := <[idx := oid]> (default ∅ (m !! port))]> m)
      | _ => (m, Some (Errorf ("invalid pg name " +:+ pg)))
      end
  end.

Definition initCountersPGNameMap (E : Env) : Maps → Maps * option gerr :=
  once "initCountersPGNameMapOnce" (λ g,
    match GetCountersMap E "COUNTERS_PG_NAME_MAP" with
    | Err e => (g, Some e)
    | Ok pgOidMap =>
        let '(m, e) := pg_entries (map_range pgOidMap) (countersPGNameMap g) in
        (set_countersPGNameMap m g, e)
    end).

Definition initCountersPortNameMap (E : Env) : Maps → Maps * option gerr :=
  once "initCountersPortNameMapOnce"
    (assign set_countersPortNameMap (GetCountersMap E "COUNTERS_PORT_NAME_MAP")).

Definition initCountersSidMap (E : Env) : Maps → Maps * option gerr :=
  once "initCountersSidMapOnce"
    (assign set_countersSidMap (GetCountersMap E "COUNTERS_SRV6_NAME_MAP")).

Definition initCountersAclRuleMap (E : Env) : Maps → Maps * option gerr :=
  once "initCountersAclRuleMapOnce"
    (assign set_countersAclRuleMap (GetCountersMap E "ACL_COUNTER_RULE_MAP")).

Definition initAliasMap (E : Env) : Maps → Maps * option gerr :=
  once "initAliasMapOnce" (λ g,
    match GetAliasMap E with
    | Ok (alias2name, name2alias, port2namespace) =>
        (set_aliases alias2name name2alias port2namespace g, None)
    | Err e => (set_aliases ∅ ∅ ∅ g, Some e)
    end).

Definition initCountersPfcwdNameMap (E : Env) : Maps → Maps * option gerr :=
  once "initCountersPfcwdNameMapOnce"
    (λ g, assign set_countersPfcwdNameMap (GetPfcwdMap E g) g).

Definition initCountersFabricPortNameMap (E : Env) : Maps → Maps * option gerr :=
  once "initCountersFabricPortNameMapOnce"
    (assign set_countersFabricPortNameMap (GetFabricCountersMap E "COUNTERS_FABRIC_PORT_NAME_MAP")).

(** Not guarded by a [sync.Once]: it loads again while the map is empty. *)
Definition initDebugNameSwitchStatMap (E : Env) (g : Maps) : Maps * option gerr :=
  if bool_decide (countersDebugNameSwitchStatMap g = ∅) || bool_decide (UNIT_TEST E = "1") then
    assign set_countersDebugNameSwitchStatMap
      (getSwitchStatMap E "COUNTERS_DEBUG_NAME_SWITCH_STAT_MAP") g
  else (g, None).

Definition queue_type (qtype : string) : string :=
  if bool_decide (qtype = "SAI_QUEUE_TYPE_UNICAST") then "UC"
  else if bool_decide (qtype = "SAI_QUEUE_TYPE_MULTICAST") then "MC" else "Unknown".

Definition GetCountersQueueTypeMap (E : Env) (g : Maps) : Maps * res gerr (gmap string string) :=
  match GetCountersMap E "COUNTERS_QUEUE_TYPE_MAP" with
  | Err e => (g, Err e)
  | Ok oidTypeMap =>
      let '(g, e) := if bool_decide (countersQueueNameMap g = ∅)
                     then initCountersQueueNameMap E g else (g, None) in
      match e with
      | Some e => (g, Err e)
      | None => (g, Ok (omap (λ oid, queue_type <$> oidTypeMap !! oid) (countersQueueNameMap g)))
      end
  end.

(** Reset for unit tests: five of the maps, all of the [sync.Once]s. *)
Definition ClearMappings (E : Env) (g : Maps) : Maps :=
  if bool_decide (UNIT_TEST E ≠ "1") then g
  else {|
    countersPortNameMap := ∅; countersQueueNameMap := ∅; countersSidMap := countersSidMap g;
    countersAclRuleMap := ∅; countersPGNameMap := countersPGNameMap g; alias2nameMap := ∅;
    name2aliasMap := name2aliasMap g; port2namespaceMap := port2namespaceMap g;
    countersPfcwdNameMap := countersPfcwdNameMap g; countersFabricPortNameMap := ∅;
    countersDebugNameSwitchStatMap := countersDebugNameSwitchStatMap g; fired := ∅
  |}.

Definition AliasToPortNameMap (E : Env) (g : Maps) : Maps * gmap string string :=
  let g := (initAliasMap E g).1 in (g, alias2nameMap g).

Definition PortToAliasNameMap (E : Env) (g : Maps) : Maps * gmap string string :=
  let g := (initAliasMap E g).1 in (g, name2aliasMap g).

End vdb.
