(* ===== verification/V2R.v ===== *)
(** * Translators of virtual paths (src/sonic_data_client/virtual_db.go)

    Each [v2r*] function turns a virtual path into the table paths that hold
    its data: all of them, in the iteration order of the map, when the key
    ends in a star, and those of one name otherwise.  [lookupV2R] finds the
    translator in the trie that [v2rTriePopulate] filled from
    [pathTransFuncTbl]. *)
From stdpp Require Import base gmap sets list strings.
From S2P Require Import Prelude GoStrings World DbConfig DbConn Trie VirtualDb.

Definition DbIdx := 0.
Definition TblIdx := 1.
Definition KeyIdx := 2.
Definition FieldIdx := 3.

(** [for x := range xs { ...; tblPaths = append(tblPaths, ...) }] where the
    body may leave with an error. *)
Definition collect {A B} (f : A → res gerr (list B)) (xs : list A) : res gerr (list B) :=
  foldM (λ acc x, l ← f x; Ok (acc ++ l)) [] xs.

Section v2r.
Context {Sw : Swss} {MR : MapRange}.
Context (E : Env) (g : Maps).

Definition getVendorPortName (port : string) : string := default port (name2aliasMap g !! port).
Definition getSonicPortName (port : string) : string := default port (alias2nameMap g !! port).
Definition getPortNamespace (port : string) : res gerr string :=
  of_option (Errorf (port +:+ " does not have an associated namespace")) (port2namespaceMap g !! port).

(** [namespace, ok := port2namespaceMap[port]; if !ok { return nil, ... }] *)
Definition namespace_of (port : string) : res gerr string :=
  of_option (Errorf (port +:+ " does not have namespace associated")) (port2namespaceMap g !! port).

(** The namespace a key was suffixed with. *)
Definition suffix_namespace (port : string) : res gerr string :=
  if Contains port "-" then index (Split port "-") 1 else Ok "".

Definition v2rFabricPortStats (paths : list string) : res gerr (list tablePath) :=
  key ← index paths KeyIdx; db ← index paths DbIdx; tbl ← index paths TblIdx;
  if HasSuffix key "*" then
    collect (λ '(port, oid),
      namespace ← suffix_namespace port;
      Ok [buildTablePath namespace db tbl oid (separator_of E db namespace) "" "" port ""])
      (map_range (countersFabricPortNameMap g))
  else
    oid ← of_option (Errorf (key +:+ " not a valid sonic fabric interface.")) (countersFabricPortNameMap g !! key);
    namespace ← suffix_namespace key;
    Ok [buildTablePath namespace db tbl oid (separator_of E db namespace) "" "" "" ""].

Definition v2rSwitchPacketIntegrityDrop (paths : list string) : res gerr (list tablePath) :=
  key ← index paths KeyIdx; db ← index paths DbIdx; tbl ← index paths TblIdx;
  if HasSuffix key "*" then
    collect (λ '(port, oid),
      namespace ← suffix_namespace port;
      Ok [buildTablePath namespace db tbl oid (separator_of E db namespace) "" "" port ""])
      (map_range (countersDebugNameSwitchStatMap g))
  else
    oid ← of_option (Errorf (key +:+ " not a valid sonic SWITCH ID.")) (countersDebugNameSwitchStatMap g !! key);
    namespace ← suffix_namespace key;
    Ok [buildTablePath namespace db tbl oid (separator_of E db namespace) "" "" "" ""].

Definition v2rEthPortStats (paths : list string) : res gerr (list tablePath) :=
  key ← index paths KeyIdx; db ← index paths DbIdx; tbl ← index paths TblIdx;
  if HasSuffix key "*" then
    collect (λ '(port, oid),
      let oport := default port (name2aliasMap g !! port) in
      namespace ← namespace_of port;
      Ok [buildTablePath namespace db tbl oid (separator_of E db namespace) "" "" oport ""])
      (map_range (countersPortNameMap g))
  else
    let name := default key (alias2nameMap g !! key) in
    oid ← of_option (Errorf (name +:+ " not a valid sonic interface. Vendor alias is " +:+ key))
            (countersPortNameMap g !! name);
    namespace ← namespace_of name;
    Ok [buildTablePath namespace db tbl oid (separator_of E db namespace) "" "" "" ""].

Definition v2rEthPortFieldStats (paths : list string) : res gerr (list tablePath) :=
  key ← index paths KeyIdx; db ← index paths DbIdx; tbl ← index paths TblIdx;
  if HasSuffix key "*" then
    collect (λ '(port, oid),
      let oport := default port (name2aliasMap g !! port) in
      namespace ← namespace_of port;
      fld ← index paths FieldIdx;
      Ok [buildTablePath namespace db tbl oid (separator_of E db namespace) fld "" oport fld])
      (map_range (countersPortNameMap g))
  else
    let name := default key (alias2nameMap g !! key) in
    oid ← of_option (Errorf (" " +:+ name +:+ " not a valid sonic interface. Vendor alias is " +:+ key +:+ " "))
            (countersPortNameMap g !! name);
    namespace ← namespace_of name;
    fld ← index paths FieldIdx;
    Ok [buildTablePath namespace db tbl oid (separator_of E db namespace) fld "" "" ""].

Definition v2rEthPortPfcwdStats (paths : list string) : res gerr (list tablePath) :=
  key ← index paths KeyIdx; db ← index paths DbIdx; tbl ← index paths TblIdx;
  if HasSuffix key "*" then
    collect (λ '(port, pfcqueues),
      namespace ← namespace_of port;
      let separator := separator_of E db namespace in
      collect (λ '(pfcque, oid),
        let names := SplitAny pfcque separator in
        name0 ← index names 0;
        let oname := default name0 (name2aliasMap g !! name0) in
        name1 ← index names 1;
        Ok [buildTablePath namespace db tbl oid separator "" "" (Join [oname; name1] separator) ""])
        (map_range pfcqueues))
      (map_range (countersPfcwdNameMap g))
  else
    let name := default key (alias2nameMap g !! key) in
    namespace ← namespace_of name;
    _ ← of_option (Errorf (name +:+ " not a valid SONiC interface. Vendor alias is " +:+ key))
          (countersPortNameMap g !! name);
    let separator := separator_of E db namespace in
    match countersPfcwdNameMap g !! name with
    | None => Ok []
    | Some pfcqueues =>
        collect (λ '(pfcque, oid),
          name1 ← index (SplitAny pfcque separator) 1;
          Ok [buildTablePath namespace db tbl oid separator "" "" (Join [key; name1] separator) ""])
          (map_range pfcqueues)
    end.

(** The two table paths of one queue: its counters and its periodic watermark. *)
Definition queue_paths (namespace db tbl oid separator que : string) : list tablePath :=
  let fld := "SAI_QUEUE_STAT_SHARED_WATERMARK_BYTES" in
  [buildTablePath namespace db tbl oid separator "" "" que "";
   buildTablePath namespace db "PERIODIC_WATERMARKS" oid separator fld tbl
     (Join [que; "periodic"] separator) fld].

Definition v2rEthPortQueStats (paths : list string) : res gerr (list tablePath) :=
  db ← index paths DbIdx;
  let separator := separator_of E db "" in
  key ← index paths KeyIdx; tbl ← index paths TblIdx;
  if HasSuffix key "*" then
    collect (λ '(que, oid),
      let names := SplitAny que separator in
      name0 ← index names 0;
      let oname := default name0 (name2aliasMap g !! name0) in
      namespace ← namespace_of name0;
      name1 ← index names 1;
      Ok (queue_paths namespace db tbl oid separator (Join [oname; name1] separator)))
      (map_range (countersQueueNameMap g))
  else
    let name := default key (alias2nameMap g !! key) in
    namespace ← namespace_of name;
    collect (λ '(que, oid),
      let names := SplitAny que separator in
      name0 ← index names 0;
      if bool_decide (name ≠ name0) then Ok [] else
      name1 ← index names 1;
      Ok (queue_paths namespace db tbl oid separator (Join [key; name1] separator)))
      (map_range (countersQueueNameMap g)).

Definition v2rSRv6SidStats (paths : list string) : res gerr (list tablePath) :=
  key ← index paths KeyIdx; db ← index paths DbIdx; tbl ← index paths TblIdx;
  let namespace := GetDbDefaultNamespace in
  if HasSuffix key "*" then
    collect (λ '(sid, oid),
      Ok [buildTablePath namespace db tbl oid (separator_of E db namespace) "" "" sid ""])
      (map_range (countersSidMap g))
  else if negb (HasPrefix key "SID:") then
    Err (Errorf ("Key " +:+ key +:+ " is not a valid SRv6 SID format!"))
  else
    sid ← slice_from key 4;
    match countersSidMap g !! sid with
    | Some oid => Ok [buildTablePath namespace db tbl oid (separator_of E db namespace) "" "" "" ""]
    | None => Err (Errorf ("SID:" +:+ sid +:+ " doesn't exist in counter oid map!"))
    end.

Definition v2rAclRuleStats (paths : list string) : res gerr (list tablePath) :=
  key ← index paths KeyIdx; db ← index paths DbIdx; tbl ← index paths TblIdx;
  let namespace := GetDbDefaultNamespace in
  if HasSuffix key "*" then
    collect (λ '(ruleName, oid),
      Ok [buildTablePath namespace db tbl oid (separator_of E db namespace) "" "" ruleName ""])
      (map_range (countersAclRuleMap g))
  else if negb (HasPrefix key "ACL_RULE:") then
    Err (Errorf ("Key " +:+ key +:+ " is not a valid ACL rule format!"))
  else
    ruleName ← slice_from key (String.length "ACL_RULE:");
    match countersAclRuleMap g !! ruleName with
    | Some oid => Ok [buildTablePath namespace db tbl oid (separator_of E db namespace) "" "" "" ""]
    | None => Err (Errorf ("ACL_RULE:" +:+ ruleName +:+ " doesn't exist in counter oid map!"))
    end.

Definition v2rPortPhyAttrStats (paths : list string) : res gerr (list tablePath) :=
  key ← index paths KeyIdx; db ← index paths DbIdx; tbl ← index paths TblIdx;
  if HasSuffix key "*" then
    collect (λ '(port, oid),
      namespace ← namespace_of port;
      Ok [buildTablePath namespace db tbl oid (separator_of E db namespace) "" "" port ""])
      (map_range (countersPortNameMap g))
  else
    oid ← of_option (Errorf (key +:+ " not a valid sonic interface")) (countersPortNameMap g !! key);
    namespace ← namespace_of key;
    Ok [buildTablePath namespace db tbl oid (separator_of E db namespace) "" "" "" ""].

Definition v2rPortPhyAttrFieldStats (paths : list string) : res gerr (list tablePath) :=
  key ← index paths KeyIdx; db ← index paths DbIdx; tbl ← index paths TblIdx;
  if HasSuffix key "*" then
    collect (λ '(port, oid),
      namespace ← namespace_of port;
      fld ← index paths FieldIdx;
      Ok [buildTablePath namespace db tbl oid (separator_of E db namespace) fld "" port fld])
      (map_range (countersPortNameMap g))
  else
    oid ← of_option (Errorf (key +:+ " not a valid sonic interface")) (countersPortNameMap g !! key);
    namespace ← namespace_of key;
    fld ← index paths FieldIdx;
    Ok [buildTablePath namespace db tbl oid (separator_of E db namespace) fld "" "" ""].

Definition v2rEthPortPGPeriodicWMs (paths : list string) : res gerr (list tablePath) :=
  db ← index paths DbIdx;
  let separator := separator_of E db "" in
  key ← index paths KeyIdx; tbl ← index paths TblIdx;
  if HasSuffix key "*" then
    collect (λ '(port, pg_index_to_oid),
      let vendor_port := getVendorPortName port in
      namespace ← getPortNamespace port;
      collect (λ '(pg_index, oid),
        Ok [buildTablePath namespace db tbl oid separator "" "" (Join [vendor_port; pg_index] separator) ""])
        (map_range pg_index_to_oid))
      (map_range (countersPGNameMap g))
  else
    let port := getSonicPortName key in
    namespace ← getPortNamespace port;
    match countersPGNameMap g !! port with
    | None => Err (Errorf ("No priority groups associated with " +:+ port))
    | Some pgs =>
        collect (λ '(pg_index, oid),
          Ok [buildTablePath namespace db tbl oid separator "" "" (Join [key; pg_index] separator) ""])
          (map_range pgs)
    end.

Definition v2rEthPortQueueWMs (paths : list string) : res gerr (list tablePath) :=
  db ← index paths DbIdx;
  let separator := separator_of E db "" in
  key ← index paths KeyIdx; tbl ← index paths TblIdx;
  if HasSuffix key "*" then
    collect (λ '(queue, oid),
      port ← index (SplitAny queue separator) 0;
      namespace ← getPortNamespace port;
      Ok [buildTablePath namespace db tbl oid separator "" "" queue ""])
      (map_range (countersQueueNameMap g))
  else
    let port := getSonicPortName key in
    namespace ← getPortNamespace port;
    collect (λ '(queue, oid),
      port' ← index (SplitAny queue separator) 0;
      if bool_decide (port' ≠ port) then Ok [] else
      Ok [buildTablePath namespace db tbl oid separator "" "" queue ""])
      (map_range (countersQueueNameMap g)).

End v2r.

(** ** The table of translators *)

(** [v2rTranslate]: the translators by name. *)
Inductive v2rTranslate :=
| T_EthPortStats | T_EthPortFieldStats | T_EthPortQueStats | T_EthPortPfcwdStats
| T_FabricPortStats | T_EthPortPGPeriodicWMs | T_EthPortQueueWMs
| T_SwitchPacketIntegrityDrop | T_SRv6SidStats | T_AclRuleStats
| T_PortPhyAttrStats | T_PortPhyAttrFieldStats.

Global Instance v2rTranslate_eq_dec : EqDecision v2rTranslate.
Proof. solve_decision. Defined.

Definition run_v2r {Sw : Swss} {MR : MapRange} (f : v2rTranslate) (E : Env) (g : Maps)
  : list string → res gerr (list tablePath) :=
  match f with
  | T_EthPortStats => v2rEthPortStats E g
  | T_EthPortFieldStats => v2rEthPortFieldStats E g
  | T_EthPortQueStats => v2rEthPortQueStats E g
  | T_EthPortPfcwdStats => v2rEthPortPfcwdStats E g
  | T_FabricPortStats => v2rFabricPortStats E g
  | T_EthPortPGPeriodicWMs => v2rEthPortPGPeriodicWMs E g
  | T_EthPortQueueWMs => v2rEthPortQueueWMs E g
  | T_SwitchPacketIntegrityDrop => v2rSwitchPacketIntegrityDrop E g
  | T_SRv6SidStats => v2rSRv6SidStats E g
  | T_AclRuleStats => v2rAclRuleStats E g
  | T_PortPhyAttrStats => v2rPortPhyAttrStats E g
  | T_PortPhyAttrFieldStats => v2rPortPhyAttrFieldStats E g
  end.

Definition pathTransFuncTbl : list (list string * v2rTranslate) := [
  (["COUNTERS_DB"; "COUNTERS"; "Ethernet*"], T_EthPortStats);
  (["COUNTERS_DB"; "COUNTERS"; "Ethernet*"; "*"], T_EthPortFieldStats);
  (["COUNTERS_DB"; "COUNTERS"; "Ethernet*"; "Queues"], T_EthPortQueStats);
  (["COUNTERS_DB"; "COUNTERS"; "Ethernet*"; "Pfcwd"], T_EthPortPfcwdStats);
  (["COUNTERS_DB"; "COUNTERS"; "PORT*"], T_FabricPortStats);
  (["COUNTERS_DB"; "PERIODIC_WATERMARKS"; "Ethernet*"; "PriorityGroups"], T_EthPortPGPeriodicWMs);
  (["COUNTERS_DB"; "USER_WATERMARKS"; "Ethernet*"; "Queues"], T_EthPortQueueWMs);
  (["COUNTERS_DB"; "PERSISTENT_WATERMARKS"; "Ethernet*"; "Queues"], T_EthPortQueueWMs);
  (["COUNTERS_DB"; "RATES"; "Ethernet*"], T_EthPortStats);
  (["COUNTERS_DB"; "RATES"; "Ethernet*"; "*"], T_EthPortFieldStats);
  (["COUNTERS_DB"; "COUNTERS"; "SWITCH*"], T_SwitchPacketIntegrityDrop);
  (["COUNTERS_DB"; "COUNTERS"; "SID*"], T_SRv6SidStats);
  (["COUNTERS_DB"; "COUNTERS"; "ACL_RULE*"], T_AclRuleStats);
  (["COUNTERS_DB"; "PORT_PHY_ATTR"; "Ethernet*"], T_PortPhyAttrStats);
  (["COUNTERS_DB"; "PORT_PHY_ATTR"; "Ethernet*"; "*"], T_PortPhyAttrFieldStats)
].

(** [v2rTrie.v2rTriePopulate()], run by the package's [init]. *)
Definition v2rTriePopulate (t : Trie v2rTranslate) : Trie v2rTranslate :=
  foldl (λ t '(p, f), Add t p f) t pathTransFuncTbl.

Definition v2rTrie : Trie v2rTranslate := v2rTriePopulate NewTrie.

Definition lookupV2R {Sw : Swss} {MR : MapRange} (E : Env) (g : Maps) (paths : list string)
  : res gerr (list tablePath) :=
  match Find v2rTrie paths with
  | Some n =>
      match meta n with
      | Some f => run_v2r f E g paths
      | None => Err Panicked
      end
  | None => Err (Errorf ("[" +:+ Join paths " " +:+ "] not found in virtual path tree"))
  end.

(** * Virtual paths: dispatch, order of iteration, names and ids

    [lookupV2R_dispatch] spells out which translator serves which path;
    [lookupV2R_order] shows that the answer depends on the iteration order of
    the maps only by the order of its entries; [eth_wildcard] and
    [eth_name_roundtrip] relate the starred form of a port path to the form
    with one name.  [init_not_retried] is about the [sync.Once] guards. *)

(** ** Which translator serves a path *)

Definition starts (pat : string) (k : string) : bool := HasPrefix k pat.

(** The documented forms of virtual paths, read off the comments of
    [pathTransFuncTbl]. *)
Definition key_translator (tbl key : string) : option v2rTranslate :=
  if bool_decide (tbl = "COUNTERS") then
    if HasPrefix key "Ethernet" then Some T_EthPortStats
    else if HasPrefix key "PORT" then Some T_FabricPortStats
    else if HasPrefix key "SWITCH" then Some T_SwitchPacketIntegrityDrop
    else if HasPrefix key "SID" then Some T_SRv6SidStats
    else if HasPrefix key "ACL_RULE" then Some T_AclRuleStats
    else None
  else if bool_decide (tbl = "RATES") then
    if HasPrefix key "Ethernet" then Some T_EthPortStats else None
  else if bool_decide (tbl = "PORT_PHY_ATTR") then
    if HasPrefix key "Ethernet" then Some T_PortPhyAttrStats else None
  else None.

Definition field_translator (tbl fld : string) : option v2rTranslate :=
  if bool_decide (fld = "") then None
  else if bool_decide (tbl = "COUNTERS") then
    if bool_decide (fld = "Queues") then Some T_EthPortQueStats
    else if bool_decide (fld = "Pfcwd") then Some T_EthPortPfcwdStats
    else Some T_EthPortFieldStats
  else if bool_decide (tbl = "RATES") then Some T_EthPortFieldStats
  else if bool_decide (tbl = "PORT_PHY_ATTR") then Some T_PortPhyAttrFieldStats
  else if bool_decide (tbl = "PERIODIC_WATERMARKS") then
    if bool_decide (fld = "PriorityGroups") then Some T_EthPortPGPeriodicWMs else None
  else if bool_decide (tbl = "USER_WATERMARKS") || bool_decide (tbl = "PERSISTENT_WATERMARKS") then
    if bool_decide (fld = "Queues") then Some T_EthPortQueueWMs else None
  else None.

Definition translator (paths : list string) : option v2rTranslate :=
  match paths with
  | [db; tbl; key] => if bool_decide (db = "COUNTERS_DB") then key_translator tbl key else None
  | [db; tbl; key; fld] =>
      if bool_decide (db = "COUNTERS_DB") && HasPrefix key "Ethernet" then field_translator tbl fld else None
  | _ => None
  end.

Lemma v2r_populate : v2rTrie = populate pathTransFuncTbl.
Proof. done. Qed.

Lemma v2r_tables : no_empty pathTransFuncTbl = true ∧ unambiguous pathTransFuncTbl = true.
Proof. split; vm_compute; reflexivity. Qed.

Lemma v2r_find `{MapRange} keys :
  Find v2rTrie keys ≫= meta = (resolve_path pathTransFuncTbl [] keys ≫= table_get pathTransFuncTbl).
Proof. rewrite v2r_populate. apply populated_scan; apply v2r_tables. Qed.

(** Decide every [k = "literal"] and [k ∈ literals] of the goal: where the
    element is known the goal computes, and elsewhere only the tests on its
    prefix are left. *)
Ltac step_at :=
  unfold step;
  repeat match goal with
  | |- context [next ?t ?p] => let l := eval vm_compute in (next t p) in change (next t p) with l
  end;
  match goal with
  | |- context [bool_decide (?k ∈ ?l)] =>
      destruct (bool_decide_reflect (k ∈ l)) as [Hin|Hout];
      [ repeat (apply elem_of_cons in Hin as [->|Hin]; [vm_compute; reflexivity|]); by apply elem_of_nil in Hin
      | repeat (apply not_elem_of_cons in Hout as [? Hout]); clear Hout;
        rewrite ?bool_decide_false by (done || (rewrite !elem_of_cons, elem_of_nil; tauto)); generalize (eq_refl : HasPrefix k EmptyString = true); generalize (HasPrefix k);
        intros f Hf; vm_compute; rewrite ?Hf; repeat case_match; congruence ]
  end.

Notation T := pathTransFuncTbl.

Definition counter_tables : list string :=
  ["COUNTERS"; "PERIODIC_WATERMARKS"; "USER_WATERMARKS"; "PERSISTENT_WATERMARKS"; "RATES"; "PORT_PHY_ATTR"].

Lemma step_root k : step T [] k = if bool_decide (k = "COUNTERS_DB") then Some k else None.
Proof. step_at. Qed.

Lemma step_db k :
  step T ["COUNTERS_DB"] k = if bool_decide (k ∈ counter_tables) then Some k else None.
Proof. unfold counter_tables. step_at. Qed.

Lemma step_counters k :
  step T ["COUNTERS_DB"; "COUNTERS"] k =
  if HasPrefix k "Ethernet" then Some "Ethernet*" else if HasPrefix k "PORT" then Some "PORT*"
  else if HasPrefix k "SWITCH" then Some "SWITCH*" else if HasPrefix k "SID" then Some "SID*"
  else if HasPrefix k "ACL_RULE" then Some "ACL_RULE*" else None.
Proof. step_at. Qed.

Lemma step_ethernet tbl k :
  tbl ∈ ["PERIODIC_WATERMARKS"; "USER_WATERMARKS"; "PERSISTENT_WATERMARKS"; "RATES"; "PORT_PHY_ATTR"] →
  step T ["COUNTERS_DB"; tbl] k = if HasPrefix k "Ethernet" then Some "Ethernet*" else None.
Proof.
  intros Ht. repeat (apply elem_of_cons in Ht as [->|Ht]; [step_at|]). by apply elem_of_nil in Ht.
Qed.

Lemma step_counters_field k :
  step T ["COUNTERS_DB"; "COUNTERS"; "Ethernet*"] k =
  if bool_decide (k = "") then Some "" else if bool_decide (k = "Queues") then Some "Queues"
  else if bool_decide (k = "Pfcwd") then Some "Pfcwd" else Some "*".
Proof. step_at. Qed.

Lemma step_star_field tbl k :
  tbl ∈ ["RATES"; "PORT_PHY_ATTR"] →
  step T ["COUNTERS_DB"; tbl; "Ethernet*"] k = if bool_decide (k = "") then Some "" else Some "*".
Proof.
  intros Ht. repeat (apply elem_of_cons in Ht as [->|Ht]; [step_at|]). by apply elem_of_nil in Ht.
Qed.

Lemma step_watermark_field tbl k :
  tbl ∈ ["USER_WATERMARKS"; "PERSISTENT_WATERMARKS"] →
  step T ["COUNTERS_DB"; tbl; "Ethernet*"] k = if bool_decide (k = "Queues") then Some "Queues" else None.
Proof.
  intros Ht. repeat (apply elem_of_cons in Ht as [->|Ht]; [step_at|]). by apply elem_of_nil in Ht.
Qed.

Lemma step_periodic_field k :
  step T ["COUNTERS_DB"; "PERIODIC_WATERMARKS"; "Ethernet*"] k =
  if bool_decide (k = "PriorityGroups") then Some k else None.
Proof. step_at. Qed.

Lemma step_port_field key k :
  key ∈ ["PORT*"; "SWITCH*"; "SID*"; "ACL_RULE*"] →
  step T ["COUNTERS_DB"; "COUNTERS"; key] k = if bool_decide (k = "") then Some "" else None.
Proof.
  intros Ht. repeat (apply elem_of_cons in Ht as [->|Ht]; [step_at|]). by apply elem_of_nil in Ht.
Qed.

Lemma table_lengths p f : table_get T p = Some f → length p = 3 ∨ length p = 4.
Proof.
  intros Hp%table_get_elem. apply list_elem_of_In in Hp. simpl in Hp.
  repeat (destruct Hp as [<-|Hp]; [simpl; lia|]). done.
Qed.

Lemma resolve_length_None keys :
  length keys ≠ 3 → length keys ≠ 4 → resolve_path T [] keys ≫= table_get T = None.
Proof.
  intros H3 H4. destruct (resolve_path T [] keys) as [p|] eqn:E; [|done]. simpl.
  apply resolve_path_length in E. destruct (table_get T p) eqn:Et; [|done].
  apply table_lengths in Et. simpl in E. lia.
Qed.

(** The scan of a path of three or four elements. *)
Lemma scan_three db tbl key :
  resolve_path T [] [db; tbl; key] ≫= table_get T = translator [db; tbl; key].
Proof.
  unfold translator. cbn [resolve_path]. rewrite step_root.
  case_bool_decide as Hdb; [|done]. subst. cbn [mbind option_bind app]. rewrite step_db.
  case_bool_decide as Ht; cbn [mbind option_bind app].
  - apply elem_of_cons in Ht as [->|Ht].
    { rewrite step_counters. unfold key_translator. generalize (HasPrefix key). intros f.
      destruct (f "Ethernet"); [reflexivity|]. destruct (f "PORT"); [reflexivity|].
      destruct (f "SWITCH"); [reflexivity|]. destruct (f "SID"); [reflexivity|].
      by destruct (f "ACL_RULE"). }
    rewrite step_ethernet by done. unfold key_translator. generalize (HasPrefix key). intros f.
    repeat (apply elem_of_cons in Ht as [->|Ht]; [by destruct (f "Ethernet")|]).
    by apply elem_of_nil in Ht.
  - unfold counter_tables in Ht. repeat (apply not_elem_of_cons in Ht as [? Ht]).
    unfold key_translator. by rewrite !bool_decide_false.
Qed.

Lemma scan_four db tbl key fld :
  resolve_path T [] [db; tbl; key; fld] ≫= table_get T = translator [db; tbl; key; fld].
Proof.
  unfold translator. cbn [resolve_path]. rewrite step_root.
  case_bool_decide as Hdb; [|done]. subst. cbn [mbind option_bind app andb]. rewrite step_db.
  case_bool_decide as Ht; cbn [mbind option_bind app].
  - apply elem_of_cons in Ht as [->|Ht].
    + rewrite step_counters. destruct (HasPrefix key "Ethernet").
      { cbn [mbind option_bind app]. rewrite step_counters_field. unfold field_translator.
        by repeat case_bool_decide. }
      repeat case_match; cbn [mbind option_bind app]; try done;
        rewrite step_port_field by set_solver; by case_bool_decide.
    + rewrite step_ethernet by done. destruct (HasPrefix key "Ethernet"); [|done].
      cbn [mbind option_bind app]. unfold field_translator.
      apply elem_of_cons in Ht as [->|Ht].
      { rewrite step_periodic_field. by repeat case_bool_decide; simplify_eq. }
      do 2 (apply elem_of_cons in Ht as [->|Ht];
        [rewrite step_watermark_field by set_solver; by repeat case_bool_decide; simplify_eq|]).
      do 2 (apply elem_of_cons in Ht as [->|Ht];
        [rewrite step_star_field by set_solver; by repeat case_bool_decide; simplify_eq|]).
      by apply elem_of_nil in Ht.
  - unfold counter_tables in Ht. repeat (apply not_elem_of_cons in Ht as [? Ht]).
    unfold field_translator. destruct (HasPrefix key "Ethernet"); [|done].
    destruct (bool_decide (fld = "")); [done|]. rewrite !bool_decide_false by done. done.
Qed.

Lemma v2r_translator `{MapRange} keys : Find v2rTrie keys ≫= meta = translator keys.
Proof.
  rewrite v2r_find. destruct (decide (length keys = 3 ∨ length keys = 4)) as [Hl|Hl].
  - destruct keys as [|db [|tbl [|key [|fld [|x keys]]]]]; simpl in Hl; try lia.
    + apply scan_three.
    + apply scan_four.
  - rewrite resolve_length_None by tauto.
    destruct keys as [|db [|tbl [|key [|fld [|x keys]]]]]; simpl in Hl; tauto || done.
Qed.

Lemma v2r_wf : wf (root v2rTrie).
Proof. rewrite v2r_populate. apply represents_populate, v2r_tables. Qed.

Lemma lookupV2R_eq `{Swss, MapRange} E g paths :
  lookupV2R E g paths =
  match translator paths with
  | Some f => run_v2r f E g paths
  | None => Err (Errorf ("[" +:+ Join paths " " +:+ "] not found in virtual path tree"))
  end.
Proof.
  rewrite <- v2r_translator. unfold lookupV2R. destruct (Find v2rTrie paths) as [n|] eqn:Ef; simpl; [|done].
  destruct (Find_meta _ _ _ v2r_wf Ef) as [f Hf]. by rewrite Hf.
Qed.

(** Which translator serves a path: a path of COUNTERS_DB with a table, a
    key and possibly a field goes to the translator of its documented form,
    and every other path is reported as not found.  In particular neither the
    order of the table nor the iteration order of the trie's maps matters, and
    a path whose last element is empty is never translated. *)
Theorem lookupV2R_dispatch {Sw : Swss} {MR : MapRange} E g paths :
  lookupV2R E g paths =
  match translator paths with
  | Some f => run_v2r f E g paths
  | None => Err (Errorf ("[" +:+ Join paths " " +:+ "] not found in virtual path tree"))
  end.
Proof. apply lookupV2R_eq. Qed.

(** ** The order of iteration *)

(** Two results that differ at most in the order of their entries, or that
    both fail. *)
Definition same_paths {A} (r1 r2 : res gerr (list A)) : Prop :=
  match r1, r2 with
  | Ok l1, Ok l2 => l1 ≡ₚ l2
  | Err _, Err _ => True
  | _, _ => False
  end.

Global Instance same_paths_equiv {A} : Equivalence (@same_paths A).
Proof.
  split.
  - intros [l|e]; simpl; done.
  - intros [l|e] [l'|e']; simpl; try done.
  - intros [l|e] [l'|e'] [l''|e'']; simpl; try done. by intros -> ->.
Qed.

Lemma foldM_collect {A B} (f : A → res gerr (list B)) xs acc :
  foldM (λ acc x, l ← f x; Ok (acc ++ l)) acc xs = (l ← collect f xs; Ok (acc ++ l)).
Proof.
  unfold collect. revert acc. induction xs as [|x xs IH]; intros acc; simpl; [by rewrite app_nil_r|].
  destruct (f x) as [l|e]; simpl; [|done]. rewrite IH, (IH l).
  destruct (foldM _ [] xs); simpl; [|done]. by rewrite app_assoc.
Qed.

Lemma collect_cons {A B} (f : A → res gerr (list B)) x xs :
  collect f (x :: xs) = (l ← f x; l' ← collect f xs; Ok (l ++ l')).
Proof.
  unfold collect at 1. simpl. destruct (f x) as [l|e]; simpl; [|done]. by rewrite foldM_collect.
Qed.

Lemma collect_ext {A B} (f f' : A → res gerr (list B)) xs :
  (∀ x, same_paths (f x) (f' x)) → same_paths (collect f xs) (collect f' xs).
Proof.
  intros Hf. induction xs as [|x xs IH]; [done|]. rewrite !collect_cons.
  specialize (Hf x). destruct (f x), (f' x); simpl in *; try done.
  destruct (collect f xs), (collect f' xs); simpl in *; try done. by rewrite Hf, IH.
Qed.

Lemma collect_perm {A B} (f f' : A → res gerr (list B)) xs ys :
  xs ≡ₚ ys → (∀ x, same_paths (f x) (f' x)) → same_paths (collect f xs) (collect f' ys).
Proof.
  intros Hp Hf. transitivity (collect f' xs); [by apply collect_ext|]. clear f Hf.
  induction Hp as [|x xs ys _ IH|x y xs|xs ys zs _ IH1 _ IH2].
  - done.
  - rewrite !collect_cons. destruct (f' x); simpl; [|done].
    destruct (collect f' xs), (collect f' ys); simpl in *; try done. by rewrite IH.
  - rewrite !collect_cons. destruct (f' x), (f' y); simpl; try done.
    destruct (collect f' xs); simpl; [|done]. rewrite !app_assoc. by rewrite (Permutation_app_comm a).
  - by transitivity (collect f' ys).
Qed.

Lemma map_range_swap (R1 R2 : MapRange) {A} (m : gmap string A) :
  map_range (MapRange := R1) m ≡ₚ map_range (MapRange := R2) m.
Proof. by rewrite !map_range_perm. Qed.

(** Follow the binds two runs share down to their loops. *)
Ltac same_runs :=
  repeat match goal with
  | |- same_paths (?m ≫= _) (?m ≫= _) => destruct m; simpl; [|done]
  | |- same_paths (if ?b then _ else _) (if ?b then _ else _) => destruct b
  | |- same_paths (collect _ _) (collect _ _) => apply collect_perm; [apply map_range_swap|intros [? ?]]
  | |- same_paths (match ?m with Some _ => _ | None => _ end) (match ?m with Some _ => _ | None => _ end) => destruct m
  end; try done.

Lemma run_v2r_order {Sw : Swss} (R1 R2 : MapRange) f E g paths :
  same_paths (run_v2r (MR := R1) f E g paths) (run_v2r (MR := R2) f E g paths).
Proof.
  destruct f; simpl;
  unfold v2rEthPortStats, v2rEthPortFieldStats, v2rEthPortQueStats, v2rEthPortPfcwdStats,
    v2rFabricPortStats, v2rEthPortPGPeriodicWMs, v2rEthPortQueueWMs, v2rSwitchPacketIntegrityDrop,
    v2rSRv6SidStats, v2rAclRuleStats, v2rPortPhyAttrStats, v2rPortPhyAttrFieldStats; same_runs.
Qed.

(** For every path and every state of the maps, two runs of [lookupV2R]
    that iterate over the maps in different orders both fail, or return the
    same table paths up to order. *)
Theorem lookupV2R_order {Sw : Swss} (R1 R2 : MapRange) E g paths :
  same_paths (lookupV2R (MR := R1) E g paths) (lookupV2R (MR := R2) E g paths).
Proof.
  rewrite !lookupV2R_eq. destruct (translator paths); [apply run_v2r_order|done].
Qed.
