(* ===== verification/VirtualDbFacts.v ===== *)
(** * The name maps: loading, aliases, the [sync.Once] guards

    [alias_map_spec] says what [GetAliasMap] reads from CONFIG_DB;
    [eth_wildcard] and [eth_name_roundtrip] relate the starred form of a port
    path to the form that names one port; [init_not_retried] shows what a
    failed first load leaves behind. *)
From stdpp Require Import base gmap sets list strings.
From S2P Require Import Prelude GoStrings World DbConfig DbConn Trie VirtualDb V2R.

Section facts.
Context {Sw : Swss} {MR : MapRange}.

(** ** The alias maps *)

Definition port_alias (d : contents) (sep p : string) : option string :=
  d !! ("PORT" +:+ sep +:+ p) ≫= λ h, h !! "alias".

(** The maps after the keys of [done]. *)
Record alias_inv (d : contents) (ns sep : string) (done : list string) (m : aliases) : Prop := {
  inv_name p a : m.1.2 !! p = Some a ↔ "PORT" +:+ sep +:+ p ∈ done ∧ port_alias d sep p = Some a;
  inv_ns p n : m.2 !! p = Some n ↔ n = ns ∧ "PORT" +:+ sep +:+ p ∈ done;
  inv_back a p : m.1.1 !! a = Some p → m.1.2 !! p = Some a;
  inv_some p a : m.1.2 !! p = Some a → is_Some (m.1.1 !! a);
  inv_all p : "PORT" +:+ sep +:+ p ∈ done → is_Some (port_alias d sep p)
}.

Lemma alias_inv_nil d ns sep : alias_inv d ns sep [] (∅, ∅, ∅).
Proof. split; simpl; intros *; rewrite ?lookup_empty, ?elem_of_nil; naive_solver. Qed.

Lemma app_inj_str (a b c : string) : a +:+ b = a +:+ c → b = c.
Proof. induction a as [|x a IH]; rewrite ?app_nil_str, ?app_cons_str; [done|]. by intros [= ?%IH]. Qed.

Lemma port_key_inj sep p q : "PORT" +:+ sep +:+ p = "PORT" +:+ sep +:+ q → p = q.
Proof. intros ?%app_inj_str%app_inj_str. done. Qed.

Lemma slice_port_key sep p : String.length sep = 1 → slice_from ("PORT" +:+ sep +:+ p) 5 = Ok p.
Proof.
  intros Hs. unfold slice_from. rewrite <- app_assoc_str.
  assert (String.length ("PORT" +:+ sep) = 5) as Hl by (rewrite length_app_str, Hs; done).
  rewrite bool_decide_true by (rewrite length_app_str, Hl; lia).
  by rewrite <- Hl at 1; rewrite str_drop_app.
Qed.

Lemma alias_key_inv c d ns sep done m p :
  Serves c d → String.length sep = 1 → is_Some (d !! ("PORT" +:+ sep +:+ p)) →
  "PORT" +:+ sep +:+ p ∉ done → alias_inv d ns sep done m →
  match alias_key c ns m ("PORT" +:+ sep +:+ p) with
  | Ok m' => alias_inv d ns sep (done ++ ["PORT" +:+ sep +:+ p]) m'
  | Err e => e = RedisNil ∧ port_alias d sep p = None
  end.
Proof.
  intros Hc Hs [h Hh] Hnew [Hn Hns Hb Ho Hall]. unfold alias_key. destruct m as [[a2n n2a] p2n]. simpl in *.
  rewrite serves_hget. unfold port_alias. rewrite Hh. simpl.
  destruct (h !! "alias") as [a|] eqn:Ha; simpl; [|done]. rewrite slice_port_key by done. simpl.
  assert (n2a !! p = None) as Hfresh.
  { apply eq_None_not_Some. intros [a' [? _]%Hn]. done. }
  split; simpl.
  - intros q b. rewrite elem_of_app, list_elem_of_singleton. destruct (decide (p = q)) as [<-|Hne].
    + rewrite lookup_insert_eq. unfold port_alias. rewrite Hh. simpl. rewrite Ha. naive_solver.
    + rewrite lookup_insert_ne, Hn by done. split; [naive_solver|].
      intros [[?|?%port_key_inj] ?]; naive_solver.
  - intros q n. rewrite elem_of_app, list_elem_of_singleton. destruct (decide (p = q)) as [<-|Hne].
    + rewrite lookup_insert_eq. naive_solver.
    + rewrite lookup_insert_ne, Hns by done. split; [naive_solver|].
      intros [? [?|?%port_key_inj]]; naive_solver.
  - intros b q [[<- <-]|[Hne Hq]]%lookup_insert_Some; [by rewrite lookup_insert_eq|].
    apply Hb in Hq. rewrite lookup_insert_ne; [done|]. naive_solver.
  - intros q b [[<- <-]|[Hne Hq]]%lookup_insert_Some; [by rewrite lookup_insert_eq|].
    apply lookup_insert_is_Some'. eauto.
  - intros q [?|Hq%list_elem_of_singleton%port_key_inj]%elem_of_app; [by apply Hall|]. subst.
    unfold port_alias. rewrite Hh. simpl. rewrite Ha. by eauto.
Qed.

(** The keys of the PORT table. *)
Definition port_keys (sep : string) (d : contents) (l : list string) : Prop :=
  ∀ k, k ∈ l → ∃ p, k = "PORT" +:+ sep +:+ p ∧ is_Some (d !! k).

Lemma alias_keys_inv c d ns sep done m l :
  Serves c d → String.length sep = 1 → port_keys sep d l → NoDup (done ++ l) →
  alias_inv d ns sep done m →
  match foldM (alias_key c ns) m l with
  | Ok m' => alias_inv d ns sep (done ++ l) m'
  | Err e => e = RedisNil ∧ ∃ p, "PORT" +:+ sep +:+ p ∈ l ∧ port_alias d sep p = None
  end.
Proof.
  intros Hc Hs. revert done m. induction l as [|k l IH]; intros done m Hk Hnd Hm; simpl.
  - by rewrite app_nil_r.
  - destruct (Hk k) as (p & -> & Hp); [left|]. apply NoDup_app in Hnd as Hnd'.
    assert ("PORT" +:+ sep +:+ p ∉ done) as Hnew.
    { intros Hin. destruct Hnd' as (_ & Hd & _). apply (Hd _ Hin). left. }
    pose proof (alias_key_inv c d ns sep done m p Hc Hs Hp Hnew Hm) as Hstep.
    destruct (alias_key c ns m _) as [m'|e]; simpl.
    + rewrite cons_middle, app_assoc in Hnd |- *. specialize (IH (done ++ ["PORT" +:+ sep +:+ p]) m').
      destruct (foldM (alias_key c ns) m' l) as [m''|e].
      * apply IH; [|done..]. intros k ?. apply Hk. by right.
      * destruct IH as (He & q & Hq & Ha); [|done..|]. { intros k ?. apply Hk. by right. }
        split; [done|]. exists q. split; [by right|done].
    + destruct Hstep as [He Hn]. split; [done|]. exists p. split; [left|done].
Qed.

Lemma literal_PORT : literal "PORT".
Proof. apply (bool_decide_unpack _). vm_compute. exact I. Qed.

(** A device with one namespace, whose CONFIG_DB answers. *)
Definition one_namespace (E : Env) (db ns : string) (c : Conn) : Prop :=
  clients_for E db = Ok {[ns := c]}.

Lemma one_namespace_range {A} (ns : string) (c : A) : map_range {[ns := c]} = [(ns, c)].
Proof. apply Permutation_singleton_r. by rewrite map_range_perm, map_to_list_singleton. Qed.

Lemma alias_map_reads E ns c d sep :
  one_namespace E "CONFIG_DB" ns c → Serves c d →
  separator_of E "CONFIG_DB" ns = sep → String.length sep = 1 → literal sep →
  match GetAliasMap E with
  | Ok m => ∃ l, (∀ k, k ∈ l ↔ is_Some (d !! k) ∧ HasPrefix k ("PORT" +:+ sep) = true) ∧
                 alias_inv d ns sep l m
  | Err e => e = RedisNil ∧ ∃ p, is_Some (d !! ("PORT" +:+ sep +:+ p)) ∧ port_alias d sep p = None
  end.
Proof.
  intros Hone Hc Hsep Hs Hlit. unfold GetAliasMap. rewrite Hone. simpl.
  rewrite one_namespace_range. simpl. unfold alias_namespace. rewrite Hsep, serves_ping.
  destruct (serves_keys ("PORT" +:+ sep)) as (l & Hl & Hnd & Hel).
  { apply literal_app; [apply literal_PORT|done]. }
  rewrite <- app_assoc_str. rewrite Hl. simpl.
  assert (port_keys sep d l) as Hpk.
  { intros k [Hk [t Ht]%HasPrefix_spec]%Hel. exists t. rewrite <- app_assoc_str. by rewrite <- Ht. }
  pose proof (alias_keys_inv c d ns sep [] (∅, ∅, ∅) l Hc Hs Hpk Hnd (alias_inv_nil _ _ _)) as Hinv.
  destruct (foldM (alias_key c ns) (∅, ∅, ∅) l) as [m|e]; simpl.
  - by exists l.
  - destruct Hinv as (He & p & Hp%Hel & Ha). split; [done|]. exists p. by destruct Hp.
Qed.

(** On a device with one namespace, [GetAliasMap] returns the alias column
    of the PORT table of CONFIG_DB: the alias of every port, the namespace of
    exactly the ports of the table, and for every alias in use a port that has
    it.  It fails exactly when some port has no alias. *)
Theorem alias_map_spec E ns c d sep :
  one_namespace E "CONFIG_DB" ns c → Serves c d →
  separator_of E "CONFIG_DB" ns = sep → String.length sep = 1 → literal sep →
  match GetAliasMap E with
  | Ok (alias2name, name2alias, port2namespace) =>
      (∀ p, name2alias !! p = port_alias d sep p) ∧
      (∀ p, port2namespace !! p = (d !! ("PORT" +:+ sep +:+ p) ≫= λ _, Some ns)) ∧
      (∀ a p, alias2name !! a = Some p → port_alias d sep p = Some a) ∧
      (∀ p a, port_alias d sep p = Some a → is_Some (alias2name !! a)) ∧
      (∀ p, is_Some (d !! ("PORT" +:+ sep +:+ p)) → is_Some (port_alias d sep p))
  | Err _ => ∃ p, is_Some (d !! ("PORT" +:+ sep +:+ p)) ∧ port_alias d sep p = None
  end.
Proof.
  intros Hone Hc Hsep Hs Hlit. pose proof (alias_map_reads E ns c d sep Hone Hc Hsep Hs Hlit) as Hr.
  destruct (GetAliasMap E) as [[[a2n n2a] p2n]|e]; [|naive_solver].
  destruct Hr as (l & Hl & [Hn Hns Hb Ho Hall]). simpl in *.
  assert (∀ p, "PORT" +:+ sep +:+ p ∈ l ↔ is_Some (d !! ("PORT" +:+ sep +:+ p))) as Hin.
  { intros p. rewrite Hl. split; [by intros [? _]|]. intros ?. split; [done|].
    rewrite <- app_assoc_str. apply HasPrefix_app. }
  assert (∀ p, n2a !! p = port_alias d sep p) as Hcol.
  { intros p. apply option_eq. intros a. rewrite Hn, Hin. split; [by intros [_ ?]|]. intros Ha.
    split; [|done]. unfold port_alias in Ha. by destruct (d !! _). }
  split; [done|]. split; [|split; [|split]].
  - intros p. apply option_eq. intros n. rewrite Hns, Hin. destruct (d !! _); simpl; naive_solver.
  - intros a p Ha%Hb. by rewrite <- Hcol.
  - intros p a Ha. apply (Ho p). by rewrite Hcol.
  - intros p Hp. by apply Hall, Hin.
Qed.

(** ** One port and all ports *)

Lemma elem_of_collect {A B} (f : A → res gerr (list B)) xs l b :
  collect f xs = Ok l → b ∈ l → ∃ x r, x ∈ xs ∧ f x = Ok r ∧ b ∈ r.
Proof.
  revert l. induction xs as [|x xs IH]; intros l.
  - intros [= <-] []%elem_of_nil.
  - rewrite collect_cons. intros (r & Hr & (r' & Hr' & [= <-])%bind_Ok)%bind_Ok [?|?]%elem_of_app.
    + exists x, r. split; [left|done].
    + destruct (IH r') as (y & r'' & ? & ?); [done..|]. exists y, r''. split; [by right|done].
Qed.

(** The same path without its name for the JSON rendering. *)
Definition unnamed (tp : tablePath) : tablePath :=
  buildTablePath (dbNamespace tp) (dbName tp) (tableName tp) (tableKey tp) (delimitor tp) (field tp)
    (jsonTableName tp) "" "".

(** Every port with a namespace has an alias, and aliases lead back. *)
Definition aliases_agree (g : Maps) : Prop :=
  (∀ p, is_Some (port2namespaceMap g !! p) → is_Some (name2aliasMap g !! p)) ∧
  (∀ p a, name2aliasMap g !! p = Some a → alias2nameMap g !! a = Some p).

Lemma eth_named E g db tbl key l tp :
  aliases_agree g → HasSuffix key "*" = true → v2rEthPortStats E g [db; tbl; key] = Ok l → tp ∈ l →
  HasSuffix (jsonTableKey tp) "*" = false →
  v2rEthPortStats E g [db; tbl; jsonTableKey tp] = Ok [unnamed tp].
Proof.
  intros [Hdom Hback] Hkey. unfold v2rEthPortStats. simpl. rewrite Hkey. intros Hl Htp Hstar.
  destruct (elem_of_collect _ _ _ _ Hl Htp) as ([port oid] & r & Hport%elem_of_map_range & Hr & Hin).
  unfold namespace_of in Hr. destruct (port2namespaceMap g !! port) as [ns|] eqn:Hns; [|done].
  simpl in Hr. simplify_eq. apply list_elem_of_singleton in Hin as ->. simpl in *. rewrite Hstar.
  destruct (Hdom port) as [a Ha]; [by eauto|]. rewrite Ha. simpl. rewrite (Hback _ _ Ha). simpl.
  rewrite Hport. simpl. unfold namespace_of. by rewrite Hns.
Qed.

Lemma initAliasMap_agree E g g' ns c d sep :
  one_namespace E "CONFIG_DB" ns c → Serves c d →
  separator_of E "CONFIG_DB" ns = sep → String.length sep = 1 → literal sep →
  (∀ p q a, port_alias d sep p = Some a → port_alias d sep q = Some a → p = q) →
  "initAliasMapOnce" ∉ fired g → initAliasMap E g = (g', None) → aliases_agree g'.
Proof.
  intros Hone Hc Hsep Hs Hlit Huniq Hf. unfold initAliasMap, once. rewrite bool_decide_false by done.
  pose proof (alias_map_reads E ns c d sep Hone Hc Hsep Hs Hlit) as Hr.
  destruct (GetAliasMap E) as [[[a2n n2a] p2n]|e]; intros Hg; simplify_eq/=.
  destruct Hr as (l & Hl & [Hn Hns Hb Ho Hall]). simpl in *. split; simpl.
  - intros p [n [_ Hp]%Hns]. destruct (Hall p Hp) as [a Ha]. exists a. by apply Hn.
  - intros p a Ha. destruct (Ho _ _ Ha) as [q Hq]. rewrite Hq. f_equal.
    apply Hb, Hn in Hq as [_ Hq]. apply Hn in Ha as [_ Ha]. eauto.
Qed.

(** Once the alias map has been loaded from a CONFIG_DB in which no two
    ports share an alias, the names under which [Ethernet*] reports the ports
    can be queried back: asking for one of them returns the table path that
    the starred query returned for it. *)
Theorem eth_name_roundtrip E g g' ns c d sep db tbl key l tp :
  one_namespace E "CONFIG_DB" ns c → Serves c d →
  separator_of E "CONFIG_DB" ns = sep → String.length sep = 1 → literal sep →
  (∀ p q a, port_alias d sep p = Some a → port_alias d sep q = Some a → p = q) →
  "initAliasMapOnce" ∉ fired g → initAliasMap E g = (g', None) →
  HasSuffix key "*" = true → v2rEthPortStats E g' [db; tbl; key] = Ok l → tp ∈ l →
  HasSuffix (jsonTableKey tp) "*" = false →
  v2rEthPortStats E g' [db; tbl; jsonTableKey tp] = Ok [unnamed tp].
Proof.
  intros. eapply (eth_named E g' db tbl key l tp); [|done..]. by eapply initAliasMap_agree.
Qed.

(** ** The guards *)

Lemma once_fired name body g : name ∈ fired g → once name body g = (g, None).
Proof. intros Hf. unfold once. by rewrite bool_decide_true. Qed.

Lemma once_done name body g : name ∉ fired g → name ∈ fired (once name body g).1.
Proof.
  intros Hf. unfold once. rewrite bool_decide_false by done. destruct (body g) as [g' e]. simpl. set_solver.
Qed.

(** A first load of the port map that fails is never repeated: the error
    is reported once, and every later initialisation, in whatever environment,
    reports success and leaves the map empty, so that the query of any single
    port fails although the database may have recovered. *)
Theorem init_not_retried E E' g g1 e db tbl port :
  "initCountersPortNameMapOnce" ∉ fired g →
  initCountersPortNameMap E g = (g1, Some e) →
  initCountersPortNameMap E' g1 = (g1, None) ∧
  countersPortNameMap g1 = ∅ ∧
  (HasSuffix port "*" = false → is_ok (v2rEthPortStats E' g1 [db; tbl; port]) = false).
Proof.
  intros Hf Hi. assert (countersPortNameMap g1 = ∅) as Hempty.
  { unfold initCountersPortNameMap, once in Hi. rewrite bool_decide_false in Hi by done.
    unfold assign in Hi. by destruct (GetCountersMap E _); simplify_eq/=. }
  split; [|split; [done|]].
  - apply once_fired. replace g1 with (initCountersPortNameMap E g).1 by (by rewrite Hi).
    by apply once_done.
  - intros Hp. unfold v2rEthPortStats. simpl. by rewrite Hp, Hempty, lookup_empty.
Qed.

End facts.

(** ** A device with two ports *)
Module VdbExample.

Definition swss0 : Swss := {|
  GlobalConfigFile := false; InitializeGlobalConfig := Ok (); Initialize := Ok ();
  SonicDBConfigReset := Ok (); GetNamespaces := Ok [""]; GetDbKeys := Ok [default_key];
  GetDbListDefault := Ok ["CONFIG_DB"; "COUNTERS_DB"];
  GetDbListKey := λ _, Ok ["CONFIG_DB"; "COUNTERS_DB"];
  GetSeparator := λ db _, Ok (if bool_decide (db = "CONFIG_DB") then "|" else ":");
  GetSeparatorKey := λ db _, Ok (if bool_decide (db = "CONFIG_DB") then "|" else ":");
  GetId := λ _ _, Ok 4%Z; GetIdKey := λ _ _, Ok 4%Z;
  GetSock := λ _ _, Ok "/var/run/redis/redis.sock"; GetSockKey := λ _ _, Ok "/var/run/redis/redis.sock";
  GetHostname := λ _ _, Ok "127.0.0.1"; GetHostnameKey := λ _ _, Ok "127.0.0.1";
  GetPort := λ _ _, Ok 6379%Z; GetPortKey := λ _ _, Ok 6379%Z
|}.

Definition config0 : contents :=
  {["PORT|Ethernet0" := {["alias" := "etp1"]}; "PORT|Ethernet4" := {["alias" := "etp2"]}]}.

Definition counters0 : contents :=
  {["COUNTERS_PORT_NAME_MAP" := {["Ethernet0" := "oid:0x1"; "Ethernet4" := "oid:0x2"]}]}.

Definition env0 : Env := {|
  env_cfg := {| sonic_db_init := false; lib_global := false; lib_local := false |};
  Target2RedisDb :=
    {["" := {["CONFIG_DB" := conn_of config0; "COUNTERS_DB" := conn_of counters0]}]};
  UNIT_TEST := ""
|}.

(** The same device before its databases can be reached. *)
Definition down : Conn := {|
  Ping := Some (Errorf "connection refused"); Keys := λ _, Err (Errorf "connection refused");
  HGetAll := λ _, Err (Errorf "connection refused"); HGetF := λ _ _, Err (Errorf "connection refused");
  Exists := λ _, Err (Errorf "connection refused"); HExists := λ _ _, Err (Errorf "connection refused")
|}.

Definition env_down : Env := {|
  env_cfg := env_cfg env0;
  Target2RedisDb := {["" := {["CONFIG_DB" := down; "COUNTERS_DB" := down]}]};
  UNIT_TEST := ""
|}.

Definition loaded : Maps :=
  (initCountersPortNameMap (Sw := swss0) (MR := canonical_range) env0 noMaps).1.
Definition ready : Maps := (initAliasMap (Sw := swss0) (MR := canonical_range) env0 loaded).1.

Lemma one_config : one_namespace (Sw := swss0) env0 "CONFIG_DB" "" (conn_of config0).
Proof. reflexivity. Qed.

Lemma literal_bar : literal "|".
Proof. apply (bool_decide_unpack _). vm_compute. exact I. Qed.

Lemma config0_alias p a :
  port_alias config0 "|" p = Some a → p = "Ethernet0" ∧ a = "etp1" ∨ p = "Ethernet4" ∧ a = "etp2".
Proof.
  unfold port_alias, config0.
  intros (h & [[Hk <-]|[_ [Hk <-]%lookup_singleton_Some]]%lookup_insert_Some & Ha)%bind_Some;
    apply lookup_singleton_Some in Ha as [_ <-].
  - left. split; [|done]. symmetry. exact (port_key_inj "|" "Ethernet0" p Hk).
  - right. split; [|done]. symmetry. exact (port_key_inj "|" "Ethernet4" p Hk).
Qed.

Lemma config0_unique p q a :
  port_alias config0 "|" p = Some a → port_alias config0 "|" q = Some a → p = q.
Proof. intros ?%config0_alias ?%config0_alias. naive_solver. Qed.

Lemma not_yet : "initAliasMapOnce" ∉ fired loaded.
Proof. apply (bool_decide_unpack _). vm_compute. exact I. Qed.

Definition all_ports : list tablePath := [
  buildTablePath "" "COUNTERS_DB" "COUNTERS" "oid:0x1" ":" "" "" "etp1" "";
  buildTablePath "" "COUNTERS_DB" "COUNTERS" "oid:0x2" ":" "" "" "etp2" ""].

Lemma eth_name_roundtrip_witness :
  v2rEthPortStats (Sw := swss0) (MR := reversed_range) env0 ready ["COUNTERS_DB"; "COUNTERS"; "etp2"]
  = Ok [buildTablePath "" "COUNTERS_DB" "COUNTERS" "oid:0x2" ":" "" "" "" ""].
Proof.
  apply (eth_name_roundtrip (Sw := swss0) (MR := reversed_range) env0 loaded ready "" (conn_of config0)
    config0 "|" "COUNTERS_DB" "COUNTERS" "Ethernet*" all_ports
    (buildTablePath "" "COUNTERS_DB" "COUNTERS" "oid:0x2" ":" "" "" "etp2" "")).
  - exact one_config.
  - apply conn_of_serves.
  - vm_compute. reflexivity.
  - reflexivity.
  - exact literal_bar.
  - exact config0_unique.
  - exact not_yet.
  - vm_compute. reflexivity.
  - reflexivity.
  - vm_compute. reflexivity.
  - apply (bool_decide_unpack _). vm_compute. exact I.
  - reflexivity.
Defined.

Lemma alias_map_spec_witness :
  match GetAliasMap (Sw := swss0) (MR := canonical_range) env0 with
  | Ok (alias2name, name2alias, port2namespace) => name2alias !! "Ethernet4" = Some "etp2"
  | Err _ => False
  end.
Proof.
  pose proof (alias_map_spec (Sw := swss0) (MR := canonical_range) env0 "" (conn_of config0) config0 "|"
    one_config _ eq_refl eq_refl literal_bar) as Hs.
  assert (is_ok (GetAliasMap (Sw := swss0) (MR := canonical_range) env0) = true) as Hok
    by (vm_compute; reflexivity).
  destruct (GetAliasMap env0) as [[[a2n n2a] p2n]|e]; [|discriminate Hok].
  destruct Hs as [Hs _]. exact (Hs "Ethernet4").
Defined.

Lemma init_not_retried_witness :
  initCountersPortNameMap (Sw := swss0) (MR := canonical_range) env0
    (initCountersPortNameMap (Sw := swss0) (MR := canonical_range) env_down noMaps).1
  = ((initCountersPortNameMap (Sw := swss0) (MR := canonical_range) env_down noMaps).1, None).
Proof.
  apply (init_not_retried (Sw := swss0) (MR := canonical_range) env_down env0 noMaps _
    (Errorf "connection refused") "COUNTERS_DB" "COUNTERS" "Ethernet0").
  - apply (bool_decide_unpack _). vm_compute. exact I.
  - vm_compute. reflexivity.
Defined.

End VdbExample.
