(* ===== verification/DbClient.v ===== *)
(** * The client of the databases (src/sonic_data_client/db_client.go)

    [DbClient] serves gNMI requests from the Redis databases.  A request's
    paths are resolved to table paths when the client is made
    ([populateDbtablePath]); [Get], the poll loops and the stream routines
    read the tables and put [Value]s in the queue of the session.

    [pathG2S], a map keyed by the pointers of the request's paths, is a list
    of entries; a function that ranges over it takes the entries in the order
    of the range.  A routine that runs until the session ends is a step
    function on its local state, run over the events it waits for: each event
    carries the time, the clients of the databases at that time, and whether
    the queue still accepts values.  Wait groups and logging are left out. *)
From stdpp Require Import base gmap sets list strings.
From S2P Require Import Prelude GoStrings Gnmi Json World DbConfig DbConn Trie VirtualDb V2R.

(** ** Values in the queue *)

Record Notification := {
  n_timestamp : Z;
  n_prefix : option Path;
  n_update : list Update;
  n_delete : list Path
}.

(** [spb.Value] *)
Record Value := {
  v_timestamp : Z;
  v_prefix : option Path;
  v_path : option Path;
  v_sync_response : bool;
  v_fatal : string;
  v_val : option TypedValue;
  v_delete : list Path;
  v_notification : option Notification
}.

Definition GetTimestamp (v : Value) : Z :=
  match v_notification v with Some n => n_timestamp n | None => v_timestamp v end.

Definition Compare (v o : Value) : Z :=
  if bool_decide (GetTimestamp v > GetTimestamp o)%Z then 1
  else if bool_decide (GetTimestamp v = GetTimestamp o) then 0 else -1.

Inductive SubscribeResponse := SyncResponse (b : bool) | UpdateResponse (n : Notification).

Definition ValToResp (val : Value) : res gerr SubscribeResponse :=
  if v_sync_response val then Ok (SyncResponse true)
  else if bool_decide (v_fatal val ≠ "") then Err (Errorf (v_fatal val))
  else match v_notification val with
  | Some n => Ok (UpdateResponse n)
  | None =>
      match v_delete val with
      | [] => Ok (UpdateResponse {| n_timestamp := GetTimestamp val; n_prefix := v_prefix val;
                 n_update := [{| upd_path := v_path val; upd_val := v_val val |}]; n_delete := [] |})
      | deleted => Ok (UpdateResponse {| n_timestamp := GetTimestamp val; n_prefix := v_prefix val;
                 n_update := []; n_delete := deleted |})
      end
  end.

Definition zero_value : Value := {|
  v_timestamp := 0; v_prefix := None; v_path := None; v_sync_response := false; v_fatal := "";
  v_val := None; v_delete := []; v_notification := None
|}.

Definition data_value (now : Z) (prefix path : option Path) (tv : TypedValue) : Value := {|
  v_timestamp := now; v_prefix := prefix; v_path := path; v_sync_response := false; v_fatal := "";
  v_val := Some tv; v_delete := []; v_notification := None
|}.

Definition sync_value (now : Z) : Value := {|
  v_timestamp := now; v_prefix := None; v_path := None; v_sync_response := true; v_fatal := "";
  v_val := None; v_delete := []; v_notification := None
|}.

(** [putFatalMsg] *)
Definition putFatalMsg (now : Z) (msg : string) : Value := {|
  v_timestamp := now; v_prefix := None; v_path := None; v_sync_response := false; v_fatal := msg;
  v_val := None; v_delete := []; v_notification := None
|}.

(** What the client reports as deleted, with an empty string as value. *)
Definition delete_value (now : Z) (prefix : option Path) (path : Path) : Value := {|
  v_timestamp := now; v_prefix := prefix; v_path := None; v_sync_response := false; v_fatal := "";
  v_val := Some (StringVal ""); v_delete := [path]; v_notification := None
|}.

(** ** Sampling intervals *)

Definition MinSampleInterval : Z := 1000000000.

(** [time.Duration(u)] of a uint64: two's complement. *)
Definition to_int64 (u : Z) : Z := ((u + 2 ^ 63) mod 2 ^ 64 - 2 ^ 63)%Z.

Definition validateSampleInterval (sample_interval : Z) : res gerr Z :=
  let requestedInterval := to_int64 sample_interval in
  if bool_decide (requestedInterval = 0%Z) then Ok MinSampleInterval
  else if bool_decide (requestedInterval < MinSampleInterval)%Z then
    Err (Errorf ("invalid interval: " +:+ Itoa requestedInterval))
  else Ok requestedInterval.

(** ** Rendering table data *)

Notation msi_t := (gmap string json).

Definition fields_json (mfv : gmap string string) : json := JObj (JStr <$> mfv).

(** The fields of [mfv] are written over those of [msi] when neither a key nor
    an operation names a layer for them. *)
Definition makeJSON_redis (msi : msi_t) (key op : option string) (mfv : gmap string string) : msi_t :=
  match key, op with
  | None, None => (JStr <$> mfv) ∪ msi
  | None, Some op => <[op := fields_json mfv]> msi
  | Some key, None => <[key := fields_json mfv]> msi
  | Some key, Some op => <[key := JObj {[op := fields_json mfv]}]> msi
  end.

Section client.
Context {Sw : Swss} {MR : MapRange} {JCo : JsonCodec}.

Notation Clients := (gmap string (gmap string Conn)).

Definition emitJSON (msi : msi_t) : res gerr string :=
  of_option (Errorf "JSON marshalling error") (Marshal (JObj msi)).

Definition Msi2TypedValue (msi : msi_t) : res gerr TypedValue :=
  match emitJSON msi with
  | Ok jv => Ok (JsonIetfVal jv)
  | Err e => Err (Errorf "emitJSON err")
  end.

(** [Target2RedisDb[ns][db]]; a command on a nil client panics. *)
Definition client_for (t : Clients) (tp : tablePath) : res gerr Conn :=
  of_option Panicked (client_of t (dbNamespace tp) (dbName tp)).

(** The Redis key of a table path. *)
Definition full_key (tp : tablePath) : string := tableName tp +:+ delimitor tp +:+ tableKey tp.
Definition field_key (tp : tablePath) : string :=
  if bool_decide (tableKey tp ≠ "") then full_key tp else tableName tp.

(** The key of an entry inside its table. *)
Definition entry_key (dbkey delim : string) : res gerr string :=
  match SplitN2Any dbkey delim with
  | _ :: key :: _ => Ok key
  | _ => Err (Errorf ("dbkey: " +:+ dbkey +:+ ", failed split from delimitor " +:+ delim))
  end.

(** One iteration of the loop over [dbkeys]. *)
Definition render_key (c : Conn) (tp : tablePath) (useKey : bool) (op : option string)
    (msi : msi_t) (dbkey : string) : res gerr msi_t :=
  fv ← HGetAll c dbkey;
  if bool_decide (jsonTableKey tp ≠ "") then Ok (makeJSON_redis msi (Some (jsonTableKey tp)) op fv)
  else if (bool_decide (tableKey tp ≠ "") && negb useKey) || bool_decide (tableName tp = dbkey) then
    Ok (makeJSON_redis msi None op fv)
  else key ← entry_key dbkey (delimitor tp); Ok (makeJSON_redis msi (Some key) op fv).

Definition table_pattern (tp : tablePath) : string :=
  if bool_decide (dbName tp = "COUNTERS_DB") && negb (countersDbHasTableKeys (tableName tp))
  then tableName tp else tableName tp +:+ delimitor tp +:+ "*".

Definition TableData2Msi (t : Clients) (tp : tablePath) (useKey : bool) (op : option string) (msi : msi_t)
  : res gerr msi_t :=
  c ← client_for t tp;
  dbkeys ← (if bool_decide (tableKey tp = "") then
              match Keys c (table_pattern tp) with
              | Ok l => Ok l
              | Err _ => Err (Errorf ("redis Keys failed for pattern " +:+ table_pattern tp))
              end
            else Ok [full_key tp]);
  if bool_decide (jsonField tp ≠ "") && bool_decide (jsonTableKey tp ≠ "") then
    dbkey ← index dbkeys 0;
    match HGetF c dbkey (field tp) with
    | Err _ => Ok msi
    | Ok val => Ok (makeJSON_redis msi (Some (jsonTableKey tp)) op {[jsonField tp := val]})
    end
  else foldM (render_key c tp useKey op) msi dbkeys.

(** The variant for APPL_DB skips keys without data. *)
Definition app_render_key (c : Conn) (tp : tablePath) (useKey : bool) (op : option string)
    (msi : msi_t) (dbkey : string) : res gerr msi_t :=
  fv ← HGetAll c dbkey;
  if bool_decide (fv = ∅) then Ok msi
  else if (bool_decide (tableKey tp ≠ "") && negb useKey) || bool_decide (tableName tp = dbkey) then
    Ok (makeJSON_redis msi None op fv)
  else key ← entry_key dbkey (delimitor tp); Ok (makeJSON_redis msi (Some key) op fv).

Definition AppDBTableData2Msi (t : Clients) (tp : tablePath) (useKey : bool) (op : option string) (msi : msi_t)
  : res gerr msi_t :=
  c ← client_for t tp;
  dbkeys ← (if bool_decide (tableKey tp = "") then
              match Keys c (tableName tp +:+ delimitor tp +:+ "*") with
              | Ok l => Ok l
              | Err _ => Err (Errorf "redis Keys failed")
              end
            else Ok [full_key tp]);
  foldM (app_render_key c tp useKey op) msi dbkeys.

(** The loop of [tableData2TypedValue]: the first path that names a field
    alone decides the whole value. *)
Fixpoint table_data (t : Clients) (tps : list tablePath) (msi : msi_t) : res gerr TypedValue :=
  match tps with
  | [] => Msi2TypedValue msi
  | tp :: tps =>
      if bool_decide (jsonField tp = "") && bool_decide (field tp ≠ "") then
        c ← client_for t tp;
        val ← HGetF c (field_key tp) (field tp);
        Ok (StringVal val)
      else msi ← TableData2Msi t tp false None msi; table_data t tps msi
  end.

Definition tableData2TypedValue (t : Clients) (tps : list tablePath) : res gerr TypedValue :=
  table_data t tps ∅.

(** Results [(val, err, updateReceived)]: [None] when nothing was received. *)
Fixpoint app_table_data (t : Clients) (tps : list tablePath) (msi : msi_t) (updateReceived : bool)
  : option (res gerr TypedValue) :=
  match tps with
  | [] => if updateReceived then Some (Msi2TypedValue msi) else None
  | tp :: tps =>
      if bool_decide (jsonField tp = "") && bool_decide (field tp ≠ "") then
        match client_for t tp with
        | Err e => Some (Err e)
        | Ok c =>
            match HGetF c (field_key tp) (field tp) with
            | Err _ => app_table_data t tps msi updateReceived
            | Ok val => Some (Ok (StringVal val))
            end
        end
      else
        match AppDBTableData2Msi t tp false None msi with
        | Err e => Some (Err e)
        | Ok msi => app_table_data t tps msi (updateReceived || bool_decide (msi ≠ ∅))
        end
  end.

Definition AppDBTableData2TypedValue (t : Clients) (tps : list tablePath) : option (res gerr TypedValue) :=
  app_table_data t tps ∅ false.

(** ** Resolving the paths of a request *)

(** [if err := f(); err != nil { return err }] on the maps. *)
Definition init_hard (f : Maps → Maps * option gerr) (k : Maps → Maps * option gerr) (g : Maps)
  : Maps * option gerr :=
  let '(g, e) := f g in match e with Some e => (g, Some e) | None => k g end.

(** The same with an error that is only logged; a panic is not caught. *)
Definition init_soft (f : Maps → Maps * option gerr) (k : Maps → Maps * option gerr) (g : Maps)
  : Maps * option gerr :=
  let '(g, e) := f g in
  match e with Some Panicked => (g, Some Panicked) | _ => k g end.

(** The loads a request for COUNTERS_DB triggers. *)
Definition init_counters (E : Env) : Maps → Maps * option gerr :=
  init_hard (initCountersPortNameMap E) (init_hard (initCountersQueueNameMap E)
  (init_hard (initCountersPGNameMap E) (init_hard (initAliasMap E)
  (init_soft (initCountersPfcwdNameMap E) (init_soft (initCountersFabricPortNameMap E)
  (init_soft (initDebugNameSwitchStatMap E) (init_soft (initCountersSidMap E)
  (init_soft (initCountersAclRuleMap E) (λ g, (g, None)))))))))).

(** An error of a command becomes a formatted one. *)
Definition redis_op {A} (msg : string) (r : res gerr A) : res gerr A :=
  match r with Ok a => Ok a | Err _ => Err (Errorf msg) end.

Definition real_path (ns db sep tbl key fld : string) : tablePath :=
  buildTablePath ns db tbl key sep fld "" "" "".

(** The [switch len(stringSlice)]: which elements name the table, the key and
    the field. *)
Definition split_slice (c : Conn) (ns db sep : string) (slice : list string) : res gerr tablePath :=
  match slice with
  | [_; tbl] =>
      _ ← redis_op "redis Keys op failed" (Keys c (tbl +:+ "*"));
      Ok (real_path ns db sep tbl "" "")
  | [_; tbl; k] =>
      if bool_decide (db = "APPL_DB") then
        keyExists ← redis_op "redis Exists op failed" (Exists c (tbl +:+ sep +:+ k));
        if bool_decide (keyExists = 1%Z) then Ok (real_path ns db sep tbl k "")
        else
          fieldExists ← redis_op "redis HExists op failed" (HExists c tbl k);
          if fieldExists : bool then Ok (real_path ns db sep tbl "" k)
          else Ok (real_path ns db sep tbl k "")
      else
        n ← redis_op "redis Exists op failed" (Exists c (tbl +:+ sep +:+ k));
        if bool_decide (n = 1%Z) then Ok (real_path ns db sep tbl k "")
        else Ok (real_path ns db sep tbl "" k)
  | [_; tbl; k; x] =>
      n ← redis_op "redis Exists op failed" (Exists c (tbl +:+ sep +:+ k +:+ sep +:+ x));
      if bool_decide (n = 1%Z) then Ok (real_path ns db sep tbl (k +:+ sep +:+ x) "")
      else Ok (real_path ns db sep tbl k x)
  | [_; tbl; k; x; f] => Ok (real_path ns db sep tbl (k +:+ sep +:+ x) f)
  | _ => Err (Errorf "Invalid db table Path")
  end.

(** Outside APPL_DB an entry that is named must exist. *)
Definition check_entry (c : Conn) (db : string) (tp : tablePath) : res gerr tablePath :=
  if bool_decide (db ≠ "APPL_DB") && bool_decide (tableKey tp ≠ "") then
    match Exists c (full_key tp) with
    | Ok 1%Z => Ok tp
    | _ => Err (Errorf ("No valid entry found with key " +:+ full_key tp))
    end
  else Ok tp.

(** The path of names: the database and the elements of the full path. *)
Definition string_slice (db : string) (prefix path : option Path) : list string :=
  db :: (elem_name <$> match prefix with
                       | Some _ => path_elem (gnmiFullPath prefix path)
                       | None => GetElem path
                       end).

(** What [populateDbtablePath] does with a path whose target is checked. *)
Definition populate_slice (E : Env) (g : Maps) (db ns : string) (ns_exist : bool) (slice : list string)
  : res gerr (list tablePath) :=
  match lookupV2R E g slice with
  | Ok tblPaths =>
      if ns_exist then Err (Errorf ("Target having " +:+ ns +:+ " namespace is not supported for V2R Dataset"))
      else Ok tblPaths
  | Err Panicked => Err Panicked
  | Err _ =>
      c ← of_option (Errorf ("Redis Client not present for dbName " +:+ db)) (client_of (Target2RedisDb E) ns db);
      tp ← split_slice c ns db (separator_of E db ns) slice;
      tp ← check_entry c db tp;
      Ok [tp]
  end.

(** The entry of [pathG2S] for one path, and the maps as they are loaded. *)
Definition populateDbtablePath (E : Env) (prefix path : option Path) (g : Maps)
  : Maps * res gerr (list tablePath) :=
  let '(db, valid, target_ns, ns_exist) := (IsTargetDb (GetTarget prefix) (env_cfg E)).2 in
  if negb valid then (g, Err (Errorf ("Invalid target dbName " +:+ db))) else
  match (GetDbNamespaceFromTarget target_ns (env_cfg E)).2 with
  | (_, Some e) => (g, Err (Errorf ("Failed to get namespace " +:+ e)))
  | ((_, false), None) => (g, Err (Errorf ("Invalid target dbNameSpace " +:+ target_ns)))
  | ((ns, true), None) =>
      let '(g, e) := if bool_decide (db = "COUNTERS_DB") then init_counters E g else (g, None) in
      match e with
      | Some e => (g, Err e)
      | None => (g, populate_slice E g db ns ns_exist (string_slice db prefix path))
      end
  end.

(** [pathG2S] *)
Notation G2S := (list (Path * list tablePath)).

Fixpoint populateAllDbtablePath (E : Env) (prefix : option Path) (paths : list Path) (g : Maps)
  : Maps * res gerr G2S :=
  match paths with
  | [] => (g, Ok [])
  | p :: paths =>
      match populateDbtablePath E prefix (Some p) g with
      | (g, Err e) => (g, Err e)
      | (g, Ok tps) =>
          let '(g, r) := populateAllDbtablePath E prefix paths g in
          (g, rest ← r; Ok ((p, tps) :: rest))
      end
  end.

Record DbClient := { prefix : option Path; pathG2S : G2S }.

(** The switch of a testing program to local TCP clients is left out: it
    replaces the clients before anything else happens. *)
Definition NewDbClient (E : Env) (paths : list Path) (pfx : option Path) (g : Maps)
  : Maps * res gerr DbClient :=
  let '(g, r) := populateAllDbtablePath E pfx paths g in
  (g, m ← r; Ok {| prefix := pfx; pathG2S := m |}).

(** [Get] over the entries in the order of the range. *)
Fixpoint Get (t : Clients) (now : Z) (pfx : option Path) (entries : G2S) : res gerr (list Value) :=
  match entries with
  | [] => Ok []
  | (path, tps) :: entries =>
      val ← tableData2TypedValue t tps;
      values ← Get t now pfx entries;
      Ok (data_value now pfx (Some path) val :: values)
  end.

End client.
