(* ===== verification/Show.v ===== *)
(** * SHOW commands: registration, dispatch and validation
    (src/sonic_data_client/show_client.go, show_client_helpers.go,
    show_client_types.go)

    A SHOW command is registered under a path of the trie [showTrie] with the
    function that computes its reply, its options and the number of arguments
    it takes.  A Get whose target is SHOW looks up the longest registered
    prefix of each path, reads the elements after it as arguments and the keys
    from the last registered element on as options, checks both against the
    registration and calls the function.

    A map keyed by the pointers of the request's paths is a list of its
    entries in the order of the range.  A data getter is a function of the
    arguments and the options; what it reads of the system is fixed during
    one call. *)
From stdpp Require Import base gmap list strings.
From S2P Require Import Prelude GoStrings Gnmi Json DbConn DbClient Trie.

(** An error with a gRPC status, or one of [fmt.Errorf]. *)
Inductive show_err := StatusErr (c : Code) (msg : string) | PlainErr (msg : string).

Global Instance show_err_eq_dec : EqDecision show_err.
Proof. solve_decision. Defined.

(** ** Options *)

(** [ValueType] and [OptionType] are integers; every value that is not one of
    these constants is possible. *)
Module ValueType.
Definition StringValue : Z := 0.
Definition StringSliceValue : Z := 1.
Definition BoolValue : Z := 2.
Definition IntValue : Z := 3.
Definition EnumValue : Z := 4.
End ValueType.

Module OptionType.
Definition Required : Z := 0.
Definition Optional : Z := 1.
Definition Unimplemented : Z := -1.
End OptionType.

Record ShowCmdOption := {
  optName : string;
  optType : Z;
  opt_description : string;
  valueType : Z;
  enumValues : list string;
  hidden : bool
}.

(** [OptionValue]: the dynamic types its [interface{}] takes; [NoValue] is
    nil, the value of an option that is absent. *)
Inductive OptionValue :=
| NoValue
| VString (s : string)
| VStrings (ss : list string)
| VBool (b : bool)
| VInt (i : Z).

Notation CmdArgs := (list string).
Notation OptionMap := (gmap string OptionValue).

(** The comma-ok accessors. *)
Definition ov_String (v : OptionValue) : option string := match v with VString s => Some s | _ => None end.
Definition ov_Strings (v : OptionValue) : option (list string) := match v with VStrings l => Some l | _ => None end.
Definition ov_Bool (v : OptionValue) : option bool := match v with VBool b => Some b | _ => None end.
Definition ov_Int (v : OptionValue) : option Z := match v with VInt i => Some i | _ => None end.

(** [options[name]], the zero value when it is absent. *)
Definition opt_get (m : OptionMap) (name : string) : OptionValue := default NoValue (m !! name).

(** [args.At(index)] for a constant index. *)
Definition args_At (args : CmdArgs) (i : nat) : string := default "" (args !! i).

Definition NewShowCmdOption (name desc : string) (valType : Z) (enumVals : list string) : ShowCmdOption := {|
  optName := name; optType := OptionType.Optional; opt_description := desc;
  valueType := valType; enumValues := enumVals; hidden := false
|}.
Definition RequiredOption (o : ShowCmdOption) : ShowCmdOption := {|
  optName := optName o; optType := OptionType.Required; opt_description := opt_description o;
  valueType := valueType o; enumValues := enumValues o; hidden := hidden o
|}.
Definition UnimplementedOption (o : ShowCmdOption) : ShowCmdOption := {|
  optName := optName o; optType := OptionType.Unimplemented; opt_description := opt_description o;
  valueType := valueType o; enumValues := enumValues o; hidden := hidden o
|}.
Definition HiddenOption (o : ShowCmdOption) : ShowCmdOption := {|
  optName := optName o; optType := optType o; opt_description := "(hidden)";
  valueType := valueType o; enumValues := enumValues o; hidden := true
|}.

Definition showCmdOptionHelpDesc : string := "[help=true]Show this message".
Definition showCmdOptionHelp := NewShowCmdOption "help" showCmdOptionHelpDesc ValueType.BoolValue [].
Definition showCmdOptionRedact := HiddenOption (NewShowCmdOption "redact" "" ValueType.BoolValue []).

(** Options every command has. *)
Definition registeredGlobalOptions : list ShowCmdOption := [showCmdOptionHelp; showCmdOptionRedact].

Definition constructOptions (options : list ShowCmdOption) : gmap string ShowCmdOption :=
  foldl (λ m o, <[optName o := o]> m) (foldl (λ m o, <[optName o := o]> m) ∅ registeredGlobalOptions) options.

(** ** Registration *)

(** [description]: a nil inner map, as a command without subcommands has, is
    [None]. *)
Notation Description := (gmap string (option (gmap string string))).

Record ShowPathConfig := {
  dataGetter : CmdArgs → OptionMap → res show_err string;
  sp_options : gmap string ShowCmdOption;
  description : Description;
  minArgs : Z;
  maxArgs : Z;
  regLen : Z
}.

(** The type of [showTrie]. *)
Notation showTrie := (Trie ShowPathConfig).

Definition validateRegisteredArgs (config : ShowPathConfig) : option show_err :=
  if bool_decide (maxArgs config < -1)%Z then Some (StatusErr Internal "invalid number of max args")
  else if bool_decide (minArgs config < 0)%Z then Some (StatusErr Internal "invalid number of min args")
  else if bool_decide (-1 < maxArgs config ∧ maxArgs config < minArgs config)%Z
  then Some (StatusErr Internal "invalid number of min/max args")
  else if bool_decide (regLen config < 2)%Z then Some (StatusErr Internal "invalid config")
  else None.

Section show.
Context {MR : MapRange} {JCo : JsonCodec}.

(** The line of the help for one option. *)
Definition option_help (o : ShowCmdOption) : string :=
  if bool_decide (valueType o = ValueType.EnumValue ∧ enumValues o ≠ [])
  then opt_description o +:+ " (Allowed values: " +:+ Join (enumValues o) ", " +:+ ")"
  else opt_description o.

Definition constructDescription (usage : string) (subcommandDesc : option (gmap string string))
    (options : gmap string ShowCmdOption) : Description :=
  let opts := insert_all (λ '(_, o), if hidden o : bool then None else Some (optName o, option_help o))
                ∅ (map_range options) in
  <["usage" := Some {["desc" := usage]}]> (<["subcommands" := subcommandDesc]> {["options" := Some opts]}).

(** What [RegisterCliPath] stores. *)
Definition path_config (path : list string) (getter : CmdArgs → OptionMap → res show_err string)
    (usageDesc : string) (min max : Z) (subcommandDesc : option (gmap string string))
    (options : list ShowCmdOption) : ShowPathConfig :=
  let pathOptions := constructOptions options in {|
    dataGetter := getter; sp_options := pathOptions;
    description := constructDescription usageDesc subcommandDesc pathOptions;
    minArgs := min; maxArgs := max; regLen := Z.of_nat (length path)
  |}.

(** A registration whose bounds are invalid is logged and dropped. *)
Definition RegisterCliPath (t : showTrie) (path : list string)
    (getter : CmdArgs → OptionMap → res show_err string) (usageDesc : string) (min max : Z)
    (subcommandDesc : option (gmap string string)) (options : list ShowCmdOption) : showTrie :=
  let config := path_config path getter usageDesc min max subcommandDesc options in
  match validateRegisteredArgs config with
  | Some _ => t
  | None => Add t path config
  end.

(** ** Dispatch *)

(** [None] is the type assertion on a node without data. *)
Definition lookupPathConfig (t : showTrie) (prefix path : option Path) : handled (res show_err ShowPathConfig) :=
  let stringSlice := GetTarget prefix :: (elem_name <$> path_elem (gnmiFullPath prefix path)) in
  match FindLongestPrefix t stringSlice with
  | Some n => match meta n with Some config => Returns (Ok config) | None => Panics end
  | None => Returns (Err (PlainErr "not found in clientTrie tree"))
  end.

Record ShowClient := { sc_prefix : option Path; path2Config : list (Path * ShowPathConfig) }.

Fixpoint lookup_all (t : showTrie) (prefix : option Path) (paths : list Path)
  : handled (res show_err (list (Path * ShowPathConfig))) :=
  match paths with
  | [] => Returns (Ok [])
  | p :: paths =>
      match lookupPathConfig t prefix (Some p) with
      | Panics => Panics
      | Returns (Err e) => Returns (Err e)
      | Returns (Ok c) =>
          match lookup_all t prefix paths with
          | Returns (Ok l) => Returns (Ok ((p, c) :: l))
          | r => r
          end
      end
  end.

Definition NewShowClient (t : showTrie) (paths : list Path) (prefix : option Path)
  : handled (res show_err ShowClient) :=
  match lookup_all t prefix paths with
  | Returns (Ok l) => Returns (Ok {| sc_prefix := prefix; path2Config := l |})
  | Returns (Err e) => Returns (Err e)
  | Panics => Panics
  end.

(** ** Arguments and options of a path *)

Definition pathToArr (prefix path : option Path) : list string :=
  match prefix, path with
  | Some pr, Some p => path_target pr :: (elem_name <$> path_elem p)
  | _, _ => []
  end.

Definition ParseArgs (spcfg : ShowPathConfig) (prefix path : option Path) : res show_err CmdArgs :=
  let pathArr := pathToArr prefix path in
  let argStartIndex := regLen spcfg in
  if bool_decide (argStartIndex < 0 ∨ Z.of_nat (length pathArr) < argStartIndex)%Z
  then Err (StatusErr InvalidArgument "invalid path")
  else
    let numArgs := (Z.of_nat (length pathArr) - argStartIndex)%Z in
    if bool_decide (0 ≤ maxArgs spcfg ∧ maxArgs spcfg < numArgs)%Z
    then Err (StatusErr InvalidArgument "invalid number of arguments provided")
    else if bool_decide (numArgs < minArgs spcfg)%Z
    then Err (StatusErr InvalidArgument "required number of arguments")
    else Ok (drop (Z.to_nat argStartIndex) pathArr).

(** One key of an element, and all of them. *)
Definition check_key (options : gmap string ShowCmdOption) (passed : gmap string string)
    (entry : string * string) : res show_err (gmap string string) :=
  let '(key, val) := entry in
  match options !! key with
  | None => Err (StatusErr InvalidArgument "is not a valid option")
  | Some _ => Ok (<[key := val]> passed)
  end.
Definition check_elem (options : gmap string ShowCmdOption) (passed : gmap string string) (e : PathElem)
  : res show_err (gmap string string) :=
  foldM (check_key options) passed (map_range (elem_key e)).

Definition checkOptionsInPath (path : option Path) (options : gmap string ShowCmdOption) (reg_len : Z)
  : res show_err (gmap string string) :=
  match path with
  | None => Err (StatusErr Internal "no path passed")
  | Some p =>
      let elems := path_elem p in
      let optionsIndex := (reg_len - 2)%Z in
      if bool_decide (optionsIndex < 0 ∨ Z.of_nat (length elems) ≤ optionsIndex)%Z
      then Err (StatusErr Internal "invalid number of registered length tokens")
      else foldM (check_elem options) ∅ (drop (Z.to_nat optionsIndex) elems)
  end.

(** The [switch] on the type of an option. *)
Definition option_value (o : ShowCmdOption) (s : string) : res show_err OptionValue :=
  let bad msg := Err (StatusErr InvalidArgument msg) in
  if bool_decide (valueType o = ValueType.StringValue) then Ok (VString s)
  else if bool_decide (valueType o = ValueType.StringSliceValue) then Ok (VStrings (TrimSpace <$> Split s ","))
  else if bool_decide (valueType o = ValueType.BoolValue) then
    match ParseBool s with Some b => Ok (VBool b) | None => bad "expects a bool" end
  else if bool_decide (valueType o = ValueType.IntValue) then
    match Atoi s with Some i => Ok (VInt i) | None => bad "expects an int" end
  else if bool_decide (valueType o = ValueType.EnumValue) then
    if bool_decide (s ∈ enumValues o) then Ok (VString s) else bad "expects one of"
  else bad "unsupported ValueType".

Definition validate_option (passed : gmap string string) (m : OptionMap) (entry : string * ShowCmdOption)
  : res show_err OptionMap :=
  let '(name, cfg) := entry in
  match passed !! name with
  | None =>
      if bool_decide (optType cfg = OptionType.Required)
      then Err (StatusErr InvalidArgument "is required") else Ok m
  | Some s =>
      if bool_decide (optType cfg = OptionType.Unimplemented)
      then Err (StatusErr Unimplemented "is unimplemented")
      else v ← option_value cfg s; Ok (<[name := v]> m)
  end.

Definition validateOptions (passed : gmap string string) (options : gmap string ShowCmdOption)
  : res show_err OptionMap :=
  foldM (validate_option passed) ∅ (map_range options).

Definition ParseOptions (spcfg : ShowPathConfig) (path : option Path) : res show_err OptionMap :=
  passed ← checkOptionsInPath path (sp_options spcfg) (regLen spcfg);
  validateOptions passed (sp_options spcfg).

(** ** Get *)

Definition description_json (d : Description) : json :=
  JObj ((λ m, match m with Some m => JObj (JStr <$> m) | None => JNull end) <$> d).

Definition showHelp (now : Z) (prefix path : option Path) (d : Description) : res show_err (list Value) :=
  match Marshal (description_json d) with
  | Some helpData => Ok [data_value now prefix path (JsonIetfVal helpData)]
  | None => Err (PlainErr "json: marshal")
  end.

(** The entries in the order of the range; [acc] is [values]. *)
Fixpoint get_entries (now : Z) (prefix : option Path) (acc : list Value)
    (entries : list (Path * ShowPathConfig)) : res show_err (list Value) :=
  match entries with
  | [] => Ok acc
  | (path, config) :: entries =>
      args ← ParseArgs config prefix (Some path);
      opts ← ParseOptions config (Some path);
      match ov_Bool (opt_get opts "help") with
      | Some true => showHelp now prefix (Some path) (description config)
      | _ =>
          v ← dataGetter config args opts;
          get_entries now prefix (acc ++ [data_value now prefix (Some path) (JsonIetfVal v)]) entries
      end
  end.

Definition show_Get (now : Z) (c : ShowClient) : res show_err (list Value) :=
  get_entries now (sc_prefix c) [] (path2Config c).

(** [Msi2Bytes] *)
Definition Msi2Bytes (msi : gmap string json) : res show_err string :=
  match emitJSON msi with
  | Ok jv => Ok jv
  | Err _ => Err (PlainErr "emitJSON err")
  end.
End show.
