(* ===== verification/ShowPaths.v ===== *)
(** * The SHOW commands that are registered
    (src/show_client/show_paths.go, show_opts.go)

    The table [init] registers, command by command in the order of the source:
    the path, the name of the Go function that answers, the usage text, the
    bounds on the number of arguments, the subcommands and the options.  The
    functions themselves are a parameter of [init], given by name. *)
From stdpp Require Import base gmap list strings.
From S2P Require Import Prelude GoStrings Gnmi Json Trie Show.

(** ** The options of the commands *)

Definition showCmdOptionUnimplementedDesc : string := "UNIMPLEMENTED".
Definition showCmdOptionDisplayDesc : string := "[display=all] No-op since no-multi-asic support".
Definition showCmdOptionVerboseDesc : string := "[verbose=true] Enable verbose output".
Definition showCmdOptionQueueInterfacesDesc : string := "[interfaces=TEXT] Filter by interfaces name".
Definition showCmdOptionInterfacesDesc : string := "[interface=TEXT] Filter by interfaces name".
Definition showCmdOptionInterfaceDesc : string := "[interface=TEXT] Filter by single interface name".
Definition showCmdOptionPortDesc : string := "[port=TEXT] Filter by single port name".
Definition showCmdOptionVlanDesc : string := "[vlan=INTEGER] Filter by VLAN ID".
Definition showCmdOptionAddressDesc : string := "[address=TEXT] Filter by MAC address".
Definition showCmdOptionTypeDesc : string := "[type=TEXT] Filter by MAC type (static/dynamic)".
Definition showCmdOptionCountDesc : string := "[count=true] Only show the count of MAC addresses".
Definition showCmdOptionDomDesc : string := "[dom=false] Also display Digital Optical Monitoring (DOM) data".
Definition showCmdOptionPeriodDesc : string := "[period=INTEGER] Display statistics over a specified period (in seconds)".
Definition showCmdOptionJsonDesc : string := "[json=true] No-op since response is in json format".
Definition showCmdOptionSidDesc : string := "[sid=TEXT] Filter by SRv6 SID".
Definition showCmdOptionNonzeroDesc : string := "[nonzero=true] Display only non-zero values".
Definition showCmdOptionTrimDesc : string := "[trim=true] Display only trim counters".
Definition showCmdOptionGroupDesc : string := "[group=TEXT] Filter by logical counter group (eg RX_DROPS, TX_ERR)".
Definition showCmdOptionCounterTypeDesc : string := "[counter_type=TEXT] Filter by counter type (eg PORT_INGRESS_DROPS, SWITCH_EGRESS_DROPS)".
Definition showCmdOptionIPAddressDesc : string := "[ipaddress=TEXT] Filter by single IP address".
Definition showCmdOptionIPV6AddressDesc : string := "[ipaddress=TEXT] Filter by IPv6 address".
Definition showCmdOptionInfoTypeDesc : string := "[info_type=TEXT] Filter by information type".
Definition showCmdOptionSonicCliIfaceModeDesc : string := "[SONIC_CLI_IFACE_MODE=TEXT] Filter by sonic interface naming mode (eg alias/default)".
Definition showCmdOptionPrintAllDesc : string := "[printall=true] Show all counters".
Definition showCmdOptionAllDesc : string := "[all=true] No-op since all queue counters are shown by default".
Definition showCmdOptionIfaceDesc : string := "[iface=TEXT] Filter by interface name".
Definition showCmdOptionLinesDesc : string := "[lines=INTEGER] Number of lines to show (default: 10)".
Definition showCmdOptionPsuIndexDesc : string := "[index=INTEGER] Display a specific PSU by index".
Definition OptionKeyVerbose : string := "verbose".
Definition SonicCliIfaceMode : string := "SONIC_CLI_IFACE_MODE".
Definition OptionKeyPsuIndex : string := "index".

Definition showCmdOptionVerbose := NewShowCmdOption OptionKeyVerbose showCmdOptionVerboseDesc ValueType.BoolValue [].
Definition showCmdOptionNamespace := NewShowCmdOption "namespace" showCmdOptionUnimplementedDesc ValueType.StringValue [].
Definition showCmdOptionDisplay := NewShowCmdOption "display" showCmdOptionDisplayDesc ValueType.StringValue [].
Definition showCmdOptionQueueInterfaces := NewShowCmdOption "interfaces" showCmdOptionQueueInterfacesDesc ValueType.StringSliceValue [].
Definition showCmdOptionInterfaces := NewShowCmdOption "interface" showCmdOptionInterfacesDesc ValueType.StringSliceValue [].
Definition showCmdOptionPeriod := NewShowCmdOption "period" showCmdOptionPeriodDesc ValueType.IntValue [].
Definition showCmdOptionJson := NewShowCmdOption "json" showCmdOptionJsonDesc ValueType.BoolValue [].
Definition showCmdOptionInterface := NewShowCmdOption "interface" showCmdOptionInterfaceDesc ValueType.StringValue [].
Definition showCmdOptionPort := NewShowCmdOption "port" showCmdOptionPortDesc ValueType.StringValue [].
Definition showCmdOptionVlan := NewShowCmdOption "vlan" showCmdOptionVlanDesc ValueType.IntValue [].
Definition showCmdOptionAddress := NewShowCmdOption "address" showCmdOptionAddressDesc ValueType.StringValue [].
Definition showCmdOptionType := NewShowCmdOption "type" showCmdOptionTypeDesc ValueType.StringValue [].
Definition showCmdOptionCount := NewShowCmdOption "count" showCmdOptionCountDesc ValueType.BoolValue [].
Definition showCmdOptionDom := NewShowCmdOption "dom" showCmdOptionDomDesc ValueType.BoolValue [].
Definition showCmdOptionFetchFromHW := NewShowCmdOption "fetch-from-hardware" showCmdOptionUnimplementedDesc ValueType.StringValue [].
Definition showCmdOptionSid := NewShowCmdOption "sid" showCmdOptionSidDesc ValueType.StringValue [].
Definition showCmdOptionNonzero := NewShowCmdOption "nonzero" showCmdOptionNonzeroDesc ValueType.BoolValue [].
Definition showCmdOptionTrim := NewShowCmdOption "trim" showCmdOptionTrimDesc ValueType.BoolValue [].
Definition showCmdOptionGroup := NewShowCmdOption "group" showCmdOptionGroupDesc ValueType.StringValue [].
Definition showCmdOptionCounterType := NewShowCmdOption "counter_type" showCmdOptionCounterTypeDesc ValueType.StringValue [].
Definition showCmdOptionIPAddress := NewShowCmdOption "ipaddress" showCmdOptionIPAddressDesc ValueType.StringValue [].
Definition showCmdOptionInfoTypeForBgpNetwork := NewShowCmdOption "info_type" showCmdOptionInfoTypeDesc ValueType.StringValue [].
Definition showCmdOptionSonicCliIfaceMode := NewShowCmdOption SonicCliIfaceMode showCmdOptionSonicCliIfaceModeDesc ValueType.EnumValue ["default"; "alias"].
Definition showCmdOptionPrintAll := NewShowCmdOption "printall" showCmdOptionPrintAllDesc ValueType.BoolValue [].
Definition showCmdOptionAll := NewShowCmdOption "all" showCmdOptionAllDesc ValueType.BoolValue [].
Definition showCmdOptionVoq := NewShowCmdOption "voq" showCmdOptionUnimplementedDesc ValueType.BoolValue [].
Definition showCmdOptionIface := NewShowCmdOption "iface" showCmdOptionIfaceDesc ValueType.StringValue [].
Definition showCmdOptionLines := NewShowCmdOption "lines" showCmdOptionLinesDesc ValueType.IntValue [].
Definition showCmdOptionPsuIndex := NewShowCmdOption "index" showCmdOptionPsuIndexDesc ValueType.IntValue [].
Definition showCmdOptionDpu := NewShowCmdOption "dpu" "[dpu=TEXT] Filter by DPU module name" ValueType.StringValue [].

(** ** The table *)

(** The arguments of one call of [RegisterCliPath]. *)
Record Registration := {
  reg_path : list string;
  reg_getter : string;
  reg_usage : string;
  reg_min : Z;
  reg_max : Z;
  reg_sub : option (gmap string string);
  reg_options : list ShowCmdOption
}.

(** Registered: buffer_pool/persistent-watermark, buffer_pool/watermark, chassis/modules/status, chassis/modules/midplane-status, clock, clock/timezones. *)
Definition show_buffer_pool : list Registration := [
  {| reg_path := ["SHOW"; "buffer_pool"; "persistent-watermark"];
     reg_getter := "getBufferPoolPersistentWatermark";
     reg_usage := "SHOW/buffer_pool/persistent-watermark[OPTIONS]: Show persistent WM for buffer pools";
     reg_min := 0; reg_max := 0; reg_sub := None;
     reg_options := [UnimplementedOption showCmdOptionNamespace] |};
  {| reg_path := ["SHOW"; "buffer_pool"; "watermark"];
     reg_getter := "getBufferPoolWatermark";
     reg_usage := "SHOW/buffer_pool/watermark[OPTIONS]: Show user WM for buffer pools";
     reg_min := 0; reg_max := 0; reg_sub := None;
     reg_options := [UnimplementedOption showCmdOptionNamespace] |};
  {| reg_path := ["SHOW"; "chassis"; "modules"; "status"];
     reg_getter := "getChassisModuleStatus";
     reg_usage := "SHOW/chassis/modules/status[OPTIONS]: Show chassis module status";
     reg_min := 0; reg_max := 0; reg_sub := None;
     reg_options := [showCmdOptionDpu] |};
  {| reg_path := ["SHOW"; "chassis"; "modules"; "midplane-status"];
     reg_getter := "getChassisModuleMidplaneStatus";
     reg_usage := "SHOW/chassis/modules/midplane-status[OPTIONS]: Show chassis module midplane status";
     reg_min := 0; reg_max := 0; reg_sub := None;
     reg_options := [showCmdOptionDpu] |};
  {| reg_path := ["SHOW"; "clock"];
     reg_getter := "getDate";
     reg_usage := "SHOW/clock[OPTIONS]: Show date and time";
     reg_min := 0; reg_max := 0; reg_sub := Some (list_to_map [("timezones", "show/clock/timezones: List of available timezones")]);
     reg_options := [showCmdOptionVerbose] |};
  {| reg_path := ["SHOW"; "clock"; "timezones"];
     reg_getter := "getDateTimezone";
     reg_usage := "SHOW/clock/timezones[OPTIONS]: List of available timezones";
     reg_min := 0; reg_max := 0; reg_sub := None;
     reg_options := [showCmdOptionVerbose] |}
].

(** Registered: dropcounters/capabilities, dropcounters/configuration, dropcounters/counts, headroom-pool/persistent-watermark, headroom-pool/watermark. *)
Definition show_dropcounters : list Registration := [
  {| reg_path := ["SHOW"; "dropcounters"; "capabilities"];
     reg_getter := "getDropcountersCapabilities";
     reg_usage := "SHOW/dropcounters/capabilities[OPTIONS]: Show device drop counters capabilities";
     reg_min := 0; reg_max := 0; reg_sub := None;
     reg_options := [showCmdOptionVerbose] |};
  {| reg_path := ["SHOW"; "dropcounters"; "configuration"];
     reg_getter := "getDropCountersConfiguration";
     reg_usage := "SHOW/dropcounters/configuration[OPTIONS]: Show current drop counter configuration";
     reg_min := 0; reg_max := 0; reg_sub := None;
     reg_options := [UnimplementedOption showCmdOptionNamespace; showCmdOptionGroup] |};
  {| reg_path := ["SHOW"; "dropcounters"; "counts"];
     reg_getter := "getDropCounters";
     reg_usage := "SHOW/dropcounters/counts[OPTIONS]: Show drop counts";
     reg_min := 0; reg_max := 0; reg_sub := None;
     reg_options := [showCmdOptionGroup; showCmdOptionCounterType; UnimplementedOption showCmdOptionNamespace; showCmdOptionVerbose] |};
  {| reg_path := ["SHOW"; "headroom-pool"; "persistent-watermark"];
     reg_getter := "getHeadroomPoolPersistentWatermark";
     reg_usage := "SHOW/headroom-pool/persistent-watermark[OPTIONS]: Show persistent WM for headroom pool";
     reg_min := 0; reg_max := 0; reg_sub := None;
     reg_options := [UnimplementedOption showCmdOptionNamespace] |};
  {| reg_path := ["SHOW"; "headroom-pool"; "watermark"];
     reg_getter := "getHeadroomPoolWatermark";
     reg_usage := "SHOW/headroom-pool/watermark[OPTIONS]: Show user WM for headroom pool";
     reg_min := 0; reg_max := 0; reg_sub := None;
     reg_options := [UnimplementedOption showCmdOptionNamespace] |}
].

(** Registered: interfaces/alias, interfaces/counters, interfaces/counters/detailed, interfaces/counters/errors, interfaces/counters/fec-histogram, interfaces/counters/fec-stats, interfaces/counters/rates, interfaces/counters/rif, interfaces/counters/trim, interfaces/description, interfaces/errors, interfaces/fec/status. *)
Definition show_interfaces : list Registration := [
  {| reg_path := ["SHOW"; "interfaces"; "alias"];
     reg_getter := "getInterfaceAlias";
     reg_usage := "SHOW/interfaces/alias/{INTERFACENAME}[OPTIONS]: Show Interface Name/Alias Mapping";
     reg_min := 0; reg_max := 1; reg_sub := None;
     reg_options := [showCmdOptionSonicCliIfaceMode; UnimplementedOption showCmdOptionNamespace; showCmdOptionDisplay] |};
  {| reg_path := ["SHOW"; "interfaces"; "counters"];
     reg_getter := "getInterfaceCounters";
     reg_usage := "SHOW/interfaces/counters[OPTIONS]: Show interface counters";
     reg_min := 0; reg_max := 0; reg_sub := Some (list_to_map [("detailed", "show/interfaces/counters/detailed: Show interface counters detailed"); ("errors", "show/interfaces/counters/errors: Show interface counters errors"); ("fec-histogram", "show/interfaces/counters/fec-histogram: Show interface counters fec-histogram"); ("fec-stats", "show/interfaces/counters/fec-stats: Show interface counters rates"); ("rates", "show/interfaces/counters/rates: Show interface counters rates"); ("rif", "show/interfaces/counters/rif: Show interface counters rif"); ("trim", "show/interfaces/counters/trim: Show interface counters trim")]);
     reg_options := [UnimplementedOption showCmdOptionNamespace; showCmdOptionPrintAll; showCmdOptionDisplay; showCmdOptionInterfaces; showCmdOptionPeriod; showCmdOptionJson; showCmdOptionVerbose] |};
  {| reg_path := ["SHOW"; "interfaces"; "counters"; "detailed"];
     reg_getter := "getInterfaceCountersDetailed";
     reg_usage := "SHOW/interfaces/counters/detailed/INTERFACE_NAME[OPTIONS]: Show interface counters detailed";
     reg_min := 1; reg_max := 1; reg_sub := None;
     reg_options := [showCmdOptionPeriod; showCmdOptionVerbose] |};
  {| reg_path := ["SHOW"; "interfaces"; "counters"; "errors"];
     reg_getter := "getInterfaceCountersErrors";
     reg_usage := "SHOW/interfaces/counters/errors[OPTIONS]: Show interface counters errors";
     reg_min := 0; reg_max := 0; reg_sub := None;
     reg_options := [UnimplementedOption showCmdOptionNamespace; showCmdOptionDisplay; showCmdOptionPeriod; showCmdOptionJson; showCmdOptionVerbose] |};
  {| reg_path := ["SHOW"; "interfaces"; "counters"; "fec-histogram"];
     reg_getter := "getInterfaceCountersFecHistogram";
     reg_usage := "SHOW/interfaces/counters/fec-histogram/INTERFACE_NAME[OPTIONS]: Show interface counters fec-histogram";
     reg_min := 1; reg_max := 1; reg_sub := None;
     reg_options := [UnimplementedOption showCmdOptionNamespace; showCmdOptionDisplay] |};
  {| reg_path := ["SHOW"; "interfaces"; "counters"; "fec-stats"];
     reg_getter := "getInterfaceCountersFecStats";
     reg_usage := "SHOW/interfaces/counters/fec-stats[OPTIONS]: Show interface counters fec-stats";
     reg_min := 0; reg_max := 0; reg_sub := None;
     reg_options := [UnimplementedOption showCmdOptionNamespace; showCmdOptionDisplay; showCmdOptionPeriod; showCmdOptionJson; showCmdOptionVerbose] |};
  {| reg_path := ["SHOW"; "interfaces"; "counters"; "rates"];
     reg_getter := "getInterfaceCountersRates";
     reg_usage := "SHOW/interfaces/counters/rates[OPTIONS]: Show interface counters rates";
     reg_min := 0; reg_max := 0; reg_sub := None;
     reg_options := [UnimplementedOption showCmdOptionNamespace; showCmdOptionDisplay; showCmdOptionPeriod; showCmdOptionJson; showCmdOptionVerbose] |};
  {| reg_path := ["SHOW"; "interfaces"; "counters"; "rif"];
     reg_getter := "getInterfaceRifCounters";
     reg_usage := "SHOW/interfaces/counters/rif/{INTERFACENAME}[OPTIONS]";
     reg_min := 0; reg_max := 1; reg_sub := None;
     reg_options := [showCmdOptionPeriod; showCmdOptionJson; showCmdOptionVerbose] |};
  {| reg_path := ["SHOW"; "interfaces"; "counters"; "trim"];
     reg_getter := "getInterfaceCountersTrim";
     reg_usage := "SHOW/interfaces/counters/trim/{INTERFACE_NAME}[OPTIONS]: Show interface counters trim";
     reg_min := 0; reg_max := 1; reg_sub := None;
     reg_options := [showCmdOptionPeriod; showCmdOptionJson; showCmdOptionVerbose] |};
  {| reg_path := ["SHOW"; "interfaces"; "description"];
     reg_getter := "getInterfacesDescription";
     reg_usage := "SHOW/interfaces/description/{INTERFACENAME}[OPTIONS]: Show interface status, protocol and description";
     reg_min := 0; reg_max := 1; reg_sub := None;
     reg_options := [UnimplementedOption showCmdOptionNamespace; UnimplementedOption showCmdOptionDisplay; showCmdOptionInterface; showCmdOptionVerbose] |};
  {| reg_path := ["SHOW"; "interfaces"; "errors"];
     reg_getter := "getInterfaceErrors";
     reg_usage := "SHOW/interfaces/errors/{INTERFACENAME}[OPTIONS]: Show Interface Errors <interfacename>";
     reg_min := 1; reg_max := 1; reg_sub := None;
     reg_options := [] |};
  {| reg_path := ["SHOW"; "interfaces"; "fec"; "status"];
     reg_getter := "getInterfaceFecStatus";
     reg_usage := "SHOW/interfaces/fec/status/{INTERFACENAME}[OPTIONS]: Show interface fec status";
     reg_min := 0; reg_max := 1; reg_sub := None;
     reg_options := [UnimplementedOption showCmdOptionNamespace; showCmdOptionDisplay] |}
].

(** Registered: interfaces/flap, interfaces/neighbor/expected, interfaces/naming_mode, interfaces/status, interfaces/switchport/config, interfaces/switchport/status, interfaces/transceiver/error-status, interfaces/transceiver/presence, interfaces/transceiver/lpmode, interfaces/transceiver/pm, interfaces/transceiver/status. *)
Definition show_interfaces_4 : list Registration := [
  {| reg_path := ["SHOW"; "interfaces"; "flap"];
     reg_getter := "getInterfaceFlap";
     reg_usage := "SHOW/interfaces/flap/{INTERFACENAME}[OPTIONS]: Show Interface Flap Information";
     reg_min := 0; reg_max := 1; reg_sub := None;
     reg_options := [showCmdOptionSonicCliIfaceMode] |};
  {| reg_path := ["SHOW"; "interfaces"; "neighbor"; "expected"];
     reg_getter := "getInterfaceNeighborExpected";
     reg_usage := "SHOW/interfaces/neighbor/expected/{INTERFACENAME}[OPTIONS]: Show expected neighbor information by interfaces";
     reg_min := 0; reg_max := 1; reg_sub := None;
     reg_options := [showCmdOptionSonicCliIfaceMode] |};
  {| reg_path := ["SHOW"; "interfaces"; "naming_mode"];
     reg_getter := "getInterfaceNamingMode";
     reg_usage := "SHOW/interfaces/naming_mode[OPTIONS]: Show interface naming_mode status";
     reg_min := 0; reg_max := 0; reg_sub := None;
     reg_options := [showCmdOptionVerbose; showCmdOptionSonicCliIfaceMode] |};
  {| reg_path := ["SHOW"; "interfaces"; "status"];
     reg_getter := "getInterfaceStatus";
     reg_usage := "SHOW/interfaces/status/{INTERFACENAME}[OPTIONS]: Show Interface status information";
     reg_min := 0; reg_max := 1; reg_sub := None;
     reg_options := [UnimplementedOption showCmdOptionNamespace; showCmdOptionDisplay; showCmdOptionVerbose] |};
  {| reg_path := ["SHOW"; "interfaces"; "switchport"; "config"];
     reg_getter := "getInterfaceSwitchportConfig";
     reg_usage := "SHOW/interfaces/switchport/config[OPTIONS]: Show interface switchport config information";
     reg_min := 0; reg_max := 0; reg_sub := None;
     reg_options := [showCmdOptionSonicCliIfaceMode] |};
  {| reg_path := ["SHOW"; "interfaces"; "switchport"; "status"];
     reg_getter := "getInterfaceSwitchportStatus";
     reg_usage := "SHOW/interfaces/switchport/status[OPTIONS]: Show interface switchport status information";
     reg_min := 0; reg_max := 0; reg_sub := None;
     reg_options := [showCmdOptionSonicCliIfaceMode] |};
  {| reg_path := ["SHOW"; "interfaces"; "transceiver"; "error-status"];
     reg_getter := "getTransceiverErrorStatus";
     reg_usage := "SHOW/interfaces/transceiver/error-status/{INTERFACENAME}[OPTIONS]: Show transceiver error-status";
     reg_min := 0; reg_max := 1; reg_sub := None;
     reg_options := [showCmdOptionVerbose; UnimplementedOption showCmdOptionNamespace; UnimplementedOption showCmdOptionFetchFromHW] |};
  {| reg_path := ["SHOW"; "interfaces"; "transceiver"; "presence"];
     reg_getter := "getInterfaceTransceiverPresence";
     reg_usage := "SHOW/interfaces/transceiver/presence/{INTERFACENAME}[OPTIONS]: Show interface transceiver presence";
     reg_min := 0; reg_max := 1; reg_sub := None;
     reg_options := [showCmdOptionVerbose; UnimplementedOption showCmdOptionNamespace] |};
  {| reg_path := ["SHOW"; "interfaces"; "transceiver"; "lpmode"];
     reg_getter := "getInterfaceTransceiverLpMode";
     reg_usage := "SHOW/interfaces/transceiver/lpmode/{INTERFACENAME}[OPTIONS]: Show interface transceiver low-power mode";
     reg_min := 0; reg_max := 1; reg_sub := None;
     reg_options := [showCmdOptionVerbose] |};
  {| reg_path := ["SHOW"; "interfaces"; "transceiver"; "pm"];
     reg_getter := "getInterfaceTransceiverPM";
     reg_usage := "SHOW/interfaces/transceiver/pm/{INTERFACENAME}[OPTIONS]: Show interface transceiver performance monitoring";
     reg_min := 0; reg_max := 1; reg_sub := None;
     reg_options := [UnimplementedOption showCmdOptionNamespace] |};
  {| reg_path := ["SHOW"; "interfaces"; "transceiver"; "status"];
     reg_getter := "getInterfaceTransceiverStatus";
     reg_usage := "SHOW/interfaces/transceiver/status/{INTERFACENAME}[OPTIONS]: Show interface transceiver status";
     reg_min := 0; reg_max := 1; reg_sub := None;
     reg_options := [showCmdOptionSonicCliIfaceMode; UnimplementedOption showCmdOptionNamespace; showCmdOptionVerbose] |}
].

(** Registered: ipv6/bgp/neighbors, ipv6/bgp/network, ipv6/bgp/summary, ipv6/fib, ipv6/interfaces, ipv6/link-local-mode, ipv6/protocol, ipv6/route, lldp/neighbors, lldp/table. *)
Definition show_ipv6 : list Registration := [
  {| reg_path := ["SHOW"; "ipv6"; "bgp"; "neighbors"];
     reg_getter := "getIPv6BGPNeighborsHandler";
     reg_usage := "SHOW/ipv6/bgp/neighbors/{IPADDRESS}/{routes|advertised-routes|received-routes}[OPTIONS]: Show IPv6 BGP neighbors";
     reg_min := 0; reg_max := 2; reg_sub := None;
     reg_options := [UnimplementedOption showCmdOptionNamespace] |};
  {| reg_path := ["SHOW"; "ipv6"; "bgp"; "network"];
     reg_getter := "getIPv6BGPNetwork";
     reg_usage := "SHOW/ipv6/bgp/network/{ipv6-address|ipv6-prefix}/{bestpath|json|longer-prefixes|multipath}[OPTIONS]: Show BGP ipv6 network";
     reg_min := 0; reg_max := 2; reg_sub := None;
     reg_options := [UnimplementedOption showCmdOptionNamespace] |};
  {| reg_path := ["SHOW"; "ipv6"; "bgp"; "summary"];
     reg_getter := "getIPv6BGPSummary";
     reg_usage := "SHOW/ipv6/bgp/summary[OPTIONS]: Show summarized information of IPv6 BGP state";
     reg_min := 0; reg_max := 0; reg_sub := None;
     reg_options := [UnimplementedOption showCmdOptionNamespace; showCmdOptionDisplay] |};
  {| reg_path := ["SHOW"; "ipv6"; "fib"];
     reg_getter := "getIPv6Fib";
     reg_usage := "SHOW/ipv6/fib/{IPADDRESS}[OPTIONS]: Show IP FIB table";
     reg_min := 0; reg_max := 1; reg_sub := None;
     reg_options := [showCmdOptionVerbose] |};
  {| reg_path := ["SHOW"; "ipv6"; "interfaces"];
     reg_getter := "getIPv6Interfaces";
     reg_usage := "SHOW/ipv6/interfaces[OPTIONS]: Show ipv6 interfaces";
     reg_min := 0; reg_max := 0; reg_sub := None;
     reg_options := [UnimplementedOption showCmdOptionNamespace; showCmdOptionDisplay] |};
  {| reg_path := ["SHOW"; "ipv6"; "link-local-mode"];
     reg_getter := "getPortsIpv6LinkLocalMode";
     reg_usage := "SHOW/ipv6/link-local-mode[OPTIONS]: Show ipv6 link-local-mode";
     reg_min := 0; reg_max := 0; reg_sub := None;
     reg_options := [] |};
  {| reg_path := ["SHOW"; "ipv6"; "protocol"];
     reg_getter := "getIPv6Protocol";
     reg_usage := "SHOW/ipv6/protocol[OPTIONS]: Show IPv6 protocol information";
     reg_min := 0; reg_max := 0; reg_sub := None;
     reg_options := [showCmdOptionVerbose] |};
  {| reg_path := ["SHOW"; "ipv6"; "route"];
     reg_getter := "getIPv6Route";
     reg_usage := "SHOW/ipv6/route/{IPADDRESS}/{VRF NAME}{...}[OPTIONS]: Show IPv6 routing table";
     reg_min := 0; reg_max := -1; reg_sub := None;
     reg_options := [UnimplementedOption showCmdOptionNamespace; showCmdOptionDisplay] |};
  {| reg_path := ["SHOW"; "lldp"; "neighbors"];
     reg_getter := "getLLDPNeighbors";
     reg_usage := "SHOW/lldp/neighbors/{INTERFACENAME}[OPTIONS]: Show LLDP neighbors";
     reg_min := 0; reg_max := 1; reg_sub := None;
     reg_options := [showCmdOptionVerbose; showCmdOptionSonicCliIfaceMode] |};
  {| reg_path := ["SHOW"; "lldp"; "table"];
     reg_getter := "getLLDPTable";
     reg_usage := "SHOW/lldp/table[OPTIONS]: Show LLDP neighbors in a tabular format";
     reg_min := 0; reg_max := 0; reg_sub := None;
     reg_options := [showCmdOptionVerbose; showCmdOptionSonicCliIfaceMode] |}
].

(** Registered: mac, mac/aging-time, mmu, ndp. *)
Definition show_mac : list Registration := [
  {| reg_path := ["SHOW"; "mac"];
     reg_getter := "getMacTable";
     reg_usage := "SHOW/mac[OPTIONS]: Show MAC (FDB) entries";
     reg_min := 0; reg_max := 0; reg_sub := Some (list_to_map [("aging-time", "show/mac/aging-time")]);
     reg_options := [showCmdOptionVlan; showCmdOptionPort; showCmdOptionAddress; showCmdOptionType; showCmdOptionCount; showCmdOptionVerbose] |};
  {| reg_path := ["SHOW"; "mac"; "aging-time"];
     reg_getter := "getMacAgingTime";
     reg_usage := "SHOW/mac/aging-time[OPTIONS]: Show mac aging-time";
     reg_min := 0; reg_max := 0; reg_sub := None;
     reg_options := [] |};
  {| reg_path := ["SHOW"; "mmu"];
     reg_getter := "getMmuConfig";
     reg_usage := "SHOW/mmu[OPTIONS]: Show mmu configuration";
     reg_min := 0; reg_max := 0; reg_sub := None;
     reg_options := [UnimplementedOption showCmdOptionNamespace; showCmdOptionVerbose] |};
  {| reg_path := ["SHOW"; "ndp"];
     reg_getter := "getNDP";
     reg_usage := "SHOW/ndp/{IP6ADDRESS}[OPTIONS]: Show IPv6 Neighbour table";
     reg_min := 0; reg_max := 1; reg_sub := None;
     reg_options := [showCmdOptionIface; showCmdOptionVerbose] |}
].

(** Registered: processes, processes/memory, processes/summary, processes/cpu. *)
Definition show_processes : list Registration := [
  {| reg_path := ["SHOW"; "processes"];
     reg_getter := "getProcessesRoot";
     reg_usage := "SHOW/processes/COMMAND[OPTIONS]: Show process information";
     reg_min := 0; reg_max := 0; reg_sub := Some (list_to_map [("summary", "show/processes/summary: Show processses info"); ("cpu", "show/processes/cpu: Show processes CPU info"); ("memory", "show/processes/memory: Show processes information sorted by memory usage")]);
     reg_options := [] |};
  {| reg_path := ["SHOW"; "processes"; "memory"];
     reg_getter := "getTopMemoryUsage";
     reg_usage := "SHOW/processes/memory[OPTIONS]: Show processes information sorted by memory usage";
     reg_min := 0; reg_max := 0; reg_sub := None;
     reg_options := [showCmdOptionVerbose] |};
  {| reg_path := ["SHOW"; "processes"; "summary"];
     reg_getter := "getProcessesSummary";
     reg_usage := "SHOW/processes/summary[OPTIONS]: Show processes info";
     reg_min := 0; reg_max := 0; reg_sub := None;
     reg_options := [showCmdOptionVerbose] |};
  {| reg_path := ["SHOW"; "processes"; "cpu"];
     reg_getter := "getProcessesCPU";
     reg_usage := "SHOW/processes/cpu[OPTIONS]: Show processes information sorted by cpu usage";
     reg_min := 0; reg_max := 0; reg_sub := None;
     reg_options := [showCmdOptionVerbose] |}
].

(** Registered: queue/counters, queue/wredcounters, queue/watermark, queue/watermark/all, queue/watermark/unicast, queue/watermark/multicast, queue/persistent-watermark, queue/persistent-watermark/all, queue/persistent-watermark/unicast, queue/persistent-watermark/multicast. *)
Definition show_queue : list Registration := [
  {| reg_path := ["SHOW"; "queue"; "counters"];
     reg_getter := "getQueueCounters";
     reg_usage := "SHOW/queue/counters/{INTERFACENAME}[OPTIONS]: Show queue counters";
     reg_min := 0; reg_max := 1; reg_sub := None;
     reg_options := [showCmdOptionQueueInterfaces; showCmdOptionDisplay; showCmdOptionNonzero; showCmdOptionAll; showCmdOptionTrim; UnimplementedOption showCmdOptionVoq; UnimplementedOption showCmdOptionNamespace; showCmdOptionVerbose; showCmdOptionJson] |};
  {| reg_path := ["SHOW"; "queue"; "wredcounters"];
     reg_getter := "getQueueWredCounters";
     reg_usage := "SHOW/queue/wredcounters/{INTERFACENAME}[OPTIONS]: Show queue WRED counters";
     reg_min := 0; reg_max := 1; reg_sub := None;
     reg_options := [showCmdOptionQueueInterfaces; showCmdOptionDisplay; showCmdOptionNonzero; UnimplementedOption showCmdOptionVoq; UnimplementedOption showCmdOptionNamespace; showCmdOptionVerbose; showCmdOptionJson] |};
  {| reg_path := ["SHOW"; "queue"; "watermark"];
     reg_getter := "getQueueUserWatermarks";
     reg_usage := "SHOW/queue/watermark/COMMAND[OPTIONS]: Show user WM for queues";
     reg_min := 0; reg_max := 0; reg_sub := Some (list_to_map [("all", "show/queue/watermark/all"); ("unicast", "show/queue/watermark/unicast"); ("multicast", "show/queue/watermark/multicast")]);
     reg_options := [] |};
  {| reg_path := ["SHOW"; "queue"; "watermark"; "all"];
     reg_getter := "getQueueUserWatermarksAll";
     reg_usage := "SHOW/queue/watermark/all[OPTIONS]: Show user WM for unicast and multicast queues";
     reg_min := 0; reg_max := 0; reg_sub := None;
     reg_options := [showCmdOptionQueueInterfaces; UnimplementedOption showCmdOptionNamespace; showCmdOptionJson] |};
  {| reg_path := ["SHOW"; "queue"; "watermark"; "unicast"];
     reg_getter := "getQueueUserWatermarksUnicast";
     reg_usage := "SHOW/queue/watermark/unicast[OPTIONS]: Show user WM for unicast queues";
     reg_min := 0; reg_max := 0; reg_sub := None;
     reg_options := [showCmdOptionQueueInterfaces; UnimplementedOption showCmdOptionNamespace; showCmdOptionJson] |};
  {| reg_path := ["SHOW"; "queue"; "watermark"; "multicast"];
     reg_getter := "getQueueUserWatermarksMulticast";
     reg_usage := "SHOW/queue/watermark/multicast[OPTIONS]: Show user WM for multicast queues";
     reg_min := 0; reg_max := 0; reg_sub := None;
     reg_options := [showCmdOptionQueueInterfaces; UnimplementedOption showCmdOptionNamespace; showCmdOptionJson] |};
  {| reg_path := ["SHOW"; "queue"; "persistent-watermark"];
     reg_getter := "getQueuePersistentWatermarks";
     reg_usage := "SHOW/queue/persistent-watermark/COMMAND[OPTIONS]: Show persistent WM for queues";
     reg_min := 0; reg_max := 0; reg_sub := Some (list_to_map [("all", "show/queue/persistent-watermark/all"); ("unicast", "show/queue/persistent-watermark/unicast"); ("multicast", "show/queue/persistent-watermark/multicast")]);
     reg_options := [] |};
  {| reg_path := ["SHOW"; "queue"; "persistent-watermark"; "all"];
     reg_getter := "getQueuePersistentWatermarksAll";
     reg_usage := "SHOW/queue/persistent-watermark/all[OPTIONS]: Show persistent WM for unicast and multicast queues";
     reg_min := 0; reg_max := 0; reg_sub := None;
     reg_options := [showCmdOptionQueueInterfaces; UnimplementedOption showCmdOptionNamespace; showCmdOptionJson] |};
  {| reg_path := ["SHOW"; "queue"; "persistent-watermark"; "unicast"];
     reg_getter := "getQueuePersistentWatermarksUnicast";
     reg_usage := "SHOW/queue/persistent-watermark/unicast[OPTIONS]: Show persistent WM for unicast queues";
     reg_min := 0; reg_max := 0; reg_sub := None;
     reg_options := [showCmdOptionQueueInterfaces; UnimplementedOption showCmdOptionNamespace; showCmdOptionJson] |};
  {| reg_path := ["SHOW"; "queue"; "persistent-watermark"; "multicast"];
     reg_getter := "getQueuePersistentWatermarksMulticast";
     reg_usage := "SHOW/queue/persistent-watermark/multicast[OPTIONS]: Show persistent WM for multicast queues";
     reg_min := 0; reg_max := 0; reg_sub := None;
     reg_options := [showCmdOptionQueueInterfaces; UnimplementedOption showCmdOptionNamespace; showCmdOptionJson] |}
].

(** Registered: ipv6/prefix-list, reboot-cause, reboot-cause/history, services. *)
Definition show_ipv6_9 : list Registration := [
  {| reg_path := ["SHOW"; "ipv6"; "prefix-list"];
     reg_getter := "getIPv6PrefixList";
     reg_usage := "SHOW/ipv6/prefix-list/{prefix_list_name}[OPTIONS]: Show IPv6 prefix-lists";
     reg_min := 0; reg_max := 1; reg_sub := None;
     reg_options := [showCmdOptionVerbose] |};
  {| reg_path := ["SHOW"; "reboot-cause"];
     reg_getter := "getPreviousRebootCause";
     reg_usage := "SHOW/reboot-cause[OPTIONS]: Show cause of most recent reboot";
     reg_min := 0; reg_max := 0; reg_sub := Some (list_to_map [("history", "show/reboot-cause/history: Show history of reboot-cause")]);
     reg_options := [] |};
  {| reg_path := ["SHOW"; "reboot-cause"; "history"];
     reg_getter := "getRebootCauseHistory";
     reg_usage := "SHOW/reboot-cause/history[OPTIONS]: Show history of reboot-cause";
     reg_min := 0; reg_max := 0; reg_sub := None;
     reg_options := [] |};
  {| reg_path := ["SHOW"; "services"];
     reg_getter := "getServices";
     reg_usage := "SHOW/services[OPTIONS]: Show all daemon services";
     reg_min := 0; reg_max := 0; reg_sub := None;
     reg_options := [] |}
].

(** Registered: srv6/stats, system-health/dpu, system-memory. *)
Definition show_srv6 : list Registration := [
  {| reg_path := ["SHOW"; "srv6"; "stats"];
     reg_getter := "getSRv6Stats";
     reg_usage := "SHOW/srv6/stats/{SID}[OPTIONS]: Show SRv6 counters statistics";
     reg_min := 0; reg_max := 1; reg_sub := None;
     reg_options := [showCmdOptionVerbose] |};
  {| reg_path := ["SHOW"; "system-health"; "dpu"];
     reg_getter := "getSystemHealthDpu";
     reg_usage := "SHOW/system-health/dpu[OPTIONS]: Show system health DPU status";
     reg_min := 0; reg_max := 0; reg_sub := None;
     reg_options := [showCmdOptionDpu] |};
  {| reg_path := ["SHOW"; "system-memory"];
     reg_getter := "getSystemMemory";
     reg_usage := "SHOW/system-memory[OPTIONS]: Show memory information";
     reg_min := 0; reg_max := 0; reg_sub := None;
     reg_options := [showCmdOptionVerbose] |}
].

(** Registered: uptime, version, vlan/brief. *)
Definition show_uptime : list Registration := [
  {| reg_path := ["SHOW"; "uptime"];
     reg_getter := "getUptime";
     reg_usage := "SHOW/uptime[OPTIONS]: Show system uptime";
     reg_min := 0; reg_max := 0; reg_sub := None;
     reg_options := [showCmdOptionVerbose] |};
  {| reg_path := ["SHOW"; "version"];
     reg_getter := "getVersion";
     reg_usage := "SHOW/version[OPTIONS]: Show version information";
     reg_min := 0; reg_max := 0; reg_sub := None;
     reg_options := [showCmdOptionVerbose] |};
  {| reg_path := ["SHOW"; "vlan"; "brief"];
     reg_getter := "getVlanBrief";
     reg_usage := "SHOW/vlan/brief[OPTIONS]: Show all bridge information";
     reg_min := 0; reg_max := 0; reg_sub := None;
     reg_options := [showCmdOptionVerbose] |}
].

(** Registered: interfaces/transceiver/eeprom, interfaces/transceiver/info, watermark/telemetry/interval, interfaces/portchannel. *)
Definition show_interfaces_12 : list Registration := [
  {| reg_path := ["SHOW"; "interfaces"; "transceiver"; "eeprom"];
     reg_getter := "getTransceiverInfo";
     reg_usage := "SHOW/interfaces/transceiver/eeprom[OPTIONS]: Show interface transceiver EEPROM information";
     reg_min := 0; reg_max := 1; reg_sub := None;
     reg_options := [showCmdOptionDom; UnimplementedOption showCmdOptionNamespace; showCmdOptionVerbose] |};
  {| reg_path := ["SHOW"; "interfaces"; "transceiver"; "info"];
     reg_getter := "getTransceiverInfo";
     reg_usage := "SHOW/interfaces/transceiver/info[OPTIONS]: Show interface transceiver information";
     reg_min := 0; reg_max := 1; reg_sub := None;
     reg_options := [showCmdOptionVerbose; UnimplementedOption showCmdOptionNamespace] |};
  {| reg_path := ["SHOW"; "watermark"; "telemetry"; "interval"];
     reg_getter := "getWatermarkTelemetryInterval";
     reg_usage := "SHOW/watermark/telemetry/interval[OPTIONS]: Show telemetry interval";
     reg_min := 0; reg_max := 0; reg_sub := None;
     reg_options := [] |};
  {| reg_path := ["SHOW"; "interfaces"; "portchannel"];
     reg_getter := "getInterfacePortchannel";
     reg_usage := "SHOW/interfaces/portchannel[OPTIONS]: Show interface portchannel";
     reg_min := 0; reg_max := 0; reg_sub := None;
     reg_options := [showCmdOptionVerbose; showCmdOptionSonicCliIfaceMode] |}
].

(** Registered: ecn, switch-trimming/global, arp. *)
Definition show_ecn : list Registration := [
  {| reg_path := ["SHOW"; "ecn"];
     reg_getter := "getEcnProfiles";
     reg_usage := "SHOW/ecn[OPTIONS]: Show ECN profiles";
     reg_min := 0; reg_max := 0; reg_sub := None;
     reg_options := [showCmdOptionVerbose] |};
  {| reg_path := ["SHOW"; "switch-trimming"; "global"];
     reg_getter := "getSwitchTrimmingGlobalConfig";
     reg_usage := "SHOW/switch-trimming/global[OPTIONS]: Show switch-trimming global config";
     reg_min := 0; reg_max := 0; reg_sub := None;
     reg_options := [showCmdOptionVerbose] |};
  {| reg_path := ["SHOW"; "arp"];
     reg_getter := "getARP";
     reg_usage := "SHOW/arp/{ipaddress}[OPTIONS]: Show IP ARP table";
     reg_min := 0; reg_max := 2; reg_sub := None;
     reg_options := [showCmdOptionSonicCliIfaceMode; showCmdOptionIface] |}
].

(** Registered: feature/config, feature/status, feature/autorestart, buffer/configuration, buffer/information, bgp/device-global. *)
Definition show_feature : list Registration := [
  {| reg_path := ["SHOW"; "feature"; "config"];
     reg_getter := "getFeatureConfig";
     reg_usage := "SHOW/feature/config/{FEATURE_NAME}[OPTIONS]: Show feature configuration";
     reg_min := 0; reg_max := 1; reg_sub := None;
     reg_options := [] |};
  {| reg_path := ["SHOW"; "feature"; "status"];
     reg_getter := "getFeatureStatus";
     reg_usage := "SHOW/feature/status/{FEATURE_NAME}[OPTIONS]: Show feature status";
     reg_min := 0; reg_max := 1; reg_sub := None;
     reg_options := [] |};
  {| reg_path := ["SHOW"; "feature"; "autorestart"];
     reg_getter := "getFeatureAutoRestart";
     reg_usage := "SHOW/feature/autorestart/{FEATURE_NAME}[OPTIONS]: Show feature autorestart data";
     reg_min := 0; reg_max := 1; reg_sub := None;
     reg_options := [] |};
  {| reg_path := ["SHOW"; "buffer"; "configuration"];
     reg_getter := "getBufferConfig";
     reg_usage := "SHOW/buffer/configuration[OPTIONS]: Show buffer configuration";
     reg_min := 0; reg_max := 0; reg_sub := None;
     reg_options := [UnimplementedOption showCmdOptionNamespace; showCmdOptionVerbose] |};
  {| reg_path := ["SHOW"; "buffer"; "information"];
     reg_getter := "getBufferInfo";
     reg_usage := "SHOW/buffer/information[OPTIONS]: Show buffer information";
     reg_min := 0; reg_max := 0; reg_sub := None;
     reg_options := [UnimplementedOption showCmdOptionNamespace; showCmdOptionVerbose] |};
  {| reg_path := ["SHOW"; "bgp"; "device-global"];
     reg_getter := "getBGPDeviceGlobal";
     reg_usage := "SHOW/bgp/device-global[OPTIONS]: Show BGP device global configuration";
     reg_min := 0; reg_max := 0; reg_sub := None;
     reg_options := [showCmdOptionJson] |}
].

(** Registered: kdump/config, kdump/files, kdump/logging, environment, mirror_session. *)
Definition show_kdump : list Registration := [
  {| reg_path := ["SHOW"; "kdump"; "config"];
     reg_getter := "getKdumpConfig";
     reg_usage := "SHOW/kdump/config[OPTIONS]: Show kdump configuration";
     reg_min := 0; reg_max := 0; reg_sub := None;
     reg_options := [] |};
  {| reg_path := ["SHOW"; "kdump"; "files"];
     reg_getter := "getKdumpFiles";
     reg_usage := "SHOW/kdump/files[OPTIONS]: Show kernel core dump and dmesg files";
     reg_min := 0; reg_max := 0; reg_sub := None;
     reg_options := [] |};
  {| reg_path := ["SHOW"; "kdump"; "logging"];
     reg_getter := "getKdumpLogging";
     reg_usage := "SHOW/kdump/logging/{FILENAME}[OPTIONS]: Show last lines of kernel dmesg file";
     reg_min := 0; reg_max := 1; reg_sub := None;
     reg_options := [showCmdOptionLines] |};
  {| reg_path := ["SHOW"; "environment"];
     reg_getter := "getEnvironment";
     reg_usage := "SHOW/environment[OPTIONS]: Show environmentals (voltages, fans, temps)";
     reg_min := 0; reg_max := 0; reg_sub := None;
     reg_options := [showCmdOptionVerbose] |};
  {| reg_path := ["SHOW"; "mirror_session"];
     reg_getter := "getMirrorSession";
     reg_usage := "SHOW/mirror_session/{SESSION_NAME}[OPTIONS]: Show mirror session configuration";
     reg_min := 0; reg_max := 1; reg_sub := None;
     reg_options := [showCmdOptionVerbose] |}
].

(** Registered: platform/summary, platform/psustatus. *)
Definition show_platform : list Registration := [
  {| reg_path := ["SHOW"; "platform"; "summary"];
     reg_getter := "getPlatformSummary";
     reg_usage := "SHOW/platform/summary[OPTIONS]: Show hardware platform information";
     reg_min := 0; reg_max := 0; reg_sub := None;
     reg_options := [showCmdOptionJson] |};
  {| reg_path := ["SHOW"; "platform"; "psustatus"];
     reg_getter := "getPlatformPsustatus";
     reg_usage := "SHOW/platform/psustatus[OPTIONS]: Show platform psu status";
     reg_min := 0; reg_max := 0; reg_sub := None;
     reg_options := [showCmdOptionJson; showCmdOptionVerbose; showCmdOptionPsuIndex] |}
].

Definition show_commands : list Registration :=
  show_buffer_pool ++ show_dropcounters ++ show_interfaces ++ show_interfaces_4 ++ show_ipv6 ++
  show_mac ++ show_processes ++ show_queue ++ show_ipv6_9 ++ show_srv6 ++ show_uptime ++
  show_interfaces_12 ++ show_ecn ++ show_feature ++ show_kdump ++ show_platform.

(** ** Registration at start-up *)
Section init.
Context {MR : MapRange} (getters : string → list string → gmap string OptionValue → res show_err string).

Definition register (t : Trie ShowPathConfig) (r : Registration) : Trie ShowPathConfig :=
  RegisterCliPath t (reg_path r) (getters (reg_getter r)) (reg_usage r) (reg_min r) (reg_max r)
    (reg_sub r) (reg_options r).

Definition init : Trie ShowPathConfig := foldl register NewTrie show_commands.
End init.
