(* ===== verification/ShowFacts.v ===== *)
(** * What SHOW commands promise

    Registration, dispatch and validation of Show over the table of ShowPaths.
    [show_dispatch] is the specification of the dispatch: a path is answered
    by the registration with the longest path that is a prefix of it, whatever
    the order of map iteration.  [options_validated] says which options reach
    a command, and [show_values] what one Get computes. *)
From stdpp Require Import base gmap list strings.
From S2P Require Import Prelude GoStrings Gnmi Json DbConn DbClient Trie Show ShowPaths.

(** ** Tables without stars *)
Section star_free.
Context {MR : MapRange} {M : Type}.
Implicit Types tbl : list (list string * M).

Definition star_free tbl : bool := forallb (λ '(q, _), forallb (λ k, negb (star k)) q) tbl.

Lemma star_free_spec tbl q k : star_free tbl = true → q ∈ tbl.*1 → k ∈ q → star k = false.
Proof.
  intros Hf ([q' m] & -> & Hin)%list_elem_of_fmap Hk. apply list_elem_of_In in Hin, Hk.
  apply (proj1 (forallb_forall _ _) Hf) in Hin. rewrite forallb_forall in Hin.
  by apply Hin, negb_true_iff in Hk.
Qed.

Lemma star_free_edge tbl p w : star_free tbl = true → live tbl (p ++ [w]) → star w = false.
Proof.
  intros Hf Hl. destruct (star w) eqn:Hs; [|done].
  destruct (star_prefix _ _ _ Hl Hs) as (q & Hq & r & ->).
  rewrite <- Hs. eapply star_free_spec; [done..|]. set_solver.
Qed.

Lemma star_free_clash q1 q2 : (∀ k, k ∈ q1 → star k = false) → clash q1 q2 = false.
Proof.
  revert q2. induction q1 as [|k q1 IH]; intros [|w q2] Hq; simpl; [done..|].
  case_decide; [apply IH; set_solver|]. by rewrite (Hq k) by set_solver.
Qed.

Lemma star_free_unambiguous tbl : star_free tbl = true → unambiguous tbl = true.
Proof.
  intros Hf. apply forallb_forall. intros [q1 m1] H1. apply forallb_forall. intros [q2 m2] _.
  apply negb_true_iff, star_free_clash. intros k. apply (star_free_spec tbl); [done|].
  apply (list_elem_of_fmap_2 fst _ (q1, m1)), list_elem_of_In, H1.
Qed.

(** The greedy reading follows the elements themselves. *)
Lemma star_free_resolves tbl p keys q : star_free tbl = true → resolves tbl p keys q → q = p ++ keys.
Proof.
  intros Hf. induction 1 as [p|p k keys q Hl _ ->|p k w keys q _ Hl Hs].
  - by rewrite app_nil_r.
  - by rewrite <- app_assoc.
  - by rewrite (star_free_edge tbl p w) in Hs.
Qed.

Lemma table_get_key tbl p m : table_get tbl p = Some m → (p, m) ∈ tbl.
Proof.
  induction tbl as [|[q m'] tbl IH]; simpl; [done|]. destruct (table_get tbl p).
  - intros [= <-]. right. by apply IH.
  - case_decide; [|done]. intros [= <-]. subst. left.
Qed.

Lemma prefix_resolves tbl p keys :
  (p ++ keys) ∈ tbl.*1 → resolves tbl p keys (p ++ keys).
Proof.
  intros Hin. revert p Hin. induction keys as [|k keys IH]; intros p Hin.
  - rewrite app_nil_r. constructor.
  - rewrite cons_middle, app_assoc in *. apply resolves_exact; [|by apply IH].
    eexists. split; [done|]. rewrite <- app_assoc. by apply prefix_app_r.
Qed.

(** On a table without stars [Find] is a lookup. *)
Lemma star_free_find tbl keys :
  no_empty tbl = true → star_free tbl = true → Find (populate tbl) keys ≫= meta = table_get tbl keys.
Proof.
  intros Hne Hf. apply option_eq. intros m. rewrite populated_resolves by eauto using star_free_unambiguous.
  split.
  - intros (p & Hp%star_free_resolves & Hm); [|done]. by subst.
  - intros Hm. exists keys. split; [|done]. apply (prefix_resolves tbl []).
    apply (list_elem_of_fmap_2 fst _ (keys, m)), table_get_key, Hm.
Qed.

(** The entry of the longest pattern, of at least two elements, that is a
    prefix of the path. *)
Definition longest_entry tbl (keys : list string) (m : M) : Prop :=
  ∃ q, (q, m) ∈ tbl ∧ 2 ≤ length q ∧ q `prefix_of` keys ∧
  ∀ q', q' ∈ tbl.*1 → 2 ≤ length q' → q' `prefix_of` keys → length q' ≤ length q.

Lemma table_get_None tbl p : table_get tbl p = None ↔ p ∉ tbl.*1.
Proof.
  induction tbl as [|[q m] tbl IH]; simpl; [split; [by intros _ ?%elem_of_nil|done]|].
  rewrite not_elem_of_cons. destruct (table_get tbl p); [|case_decide]; naive_solver.
Qed.

Lemma take_prefix_of {A} i (l : list A) : take i l `prefix_of` l.
Proof. exists (drop i l). by rewrite take_drop. Qed.

Lemma prefix_take {A} (q l : list A) : q `prefix_of` l → q = take (length q) l.
Proof. intros [r ->]. by rewrite take_app_length. Qed.

Lemma longest_from_S (t : Trie M) keys i :
  longest_from t keys (S (S i)) =
  match Find t (take (S (S i)) keys) with Some n => Some n | None => longest_from t keys (S i) end.
Proof. done. Qed.

(** What the search from length [i] down returns. *)
Lemma show_longest_from_spec tbl keys i :
  no_empty tbl = true → star_free tbl = true → i ≤ length keys →
  match longest_from (populate tbl) keys i with
  | Some n => ∃ q m, meta n = Some m ∧ (q, m) ∈ tbl ∧ 2 ≤ length q ∧ q `prefix_of` keys ∧
      ∀ q', q' ∈ tbl.*1 → length q' ≤ i → q' `prefix_of` keys → length q' ≤ length q
  | None => ∀ q', q' ∈ tbl.*1 → 2 ≤ length q' → length q' ≤ i → q' `prefix_of` keys → False
  end.
Proof.
  intros Hne Hf. induction i as [|[|i] IH]; intros Hi; [simpl; lia..|].
  rewrite longest_from_S. pose proof (star_free_find tbl (take (S (S i)) keys) Hne Hf) as Hfind.
  destruct (Find _ _) as [n|] eqn:En.
  - destruct (Find_meta _ _ _ (proj1 (represents_populate _ Hne)) En) as [m Hm].
    simpl in Hfind. rewrite Hm in Hfind. symmetry in Hfind. apply table_get_key in Hfind.
    exists (take (S (S i)) keys), m. rewrite length_take_le by done.
    repeat split; [done..|lia|apply take_prefix_of|]. intros; lia.
  - simpl in Hfind. symmetry in Hfind. rewrite table_get_None in Hfind.
    assert (∀ q', q' ∈ tbl.*1 → q' `prefix_of` keys → length q' ≠ S (S i)) as Hno.
    { intros q' Hq' Hp Hl. apply Hfind. by rewrite <- Hl, <- prefix_take. }
    specialize (IH ltac:(lia)). destruct (longest_from _ _ (S i)) as [n|].
    + destruct IH as (q & m & Hm & Hin & H2 & Hp & Hmax). exists q, m. repeat split; [done..|].
      intros q' Hq' Hl Hp'. apply Hmax; [done| |done]. specialize (Hno q' Hq' Hp'). lia.
    + intros q' Hq' H2 Hl Hp'. specialize (Hno q' Hq' Hp'). apply (IH q'); [done..|lia|done].
Qed.

(** The longest prefix that [FindLongestPrefix] finds. *)
Lemma find_longest tbl keys :
  no_empty tbl = true → star_free tbl = true →
  match FindLongestPrefix (populate tbl) keys with
  | Some n => ∃ m, meta n = Some m ∧ longest_entry tbl keys m
  | None => ∀ q, q ∈ tbl.*1 → 2 ≤ length q → ¬ q `prefix_of` keys
  end.
Proof.
  intros Hne Hf. unfold FindLongestPrefix. case_bool_decide as Hl.
  - intros q _ H2 Hp. apply prefix_length in Hp. lia.
  - pose proof (show_longest_from_spec tbl keys (length keys) Hne Hf (le_n _)) as H.
    destruct (longest_from _ _ _) as [n|].
    + destruct H as (q & m & Hm & Hin & H2 & Hp & Hmax). exists m. split; [done|].
      exists q. repeat split; [done..|]. intros q' Hq' _ Hp'. apply Hmax; [done|by apply prefix_length|done].
    + intros q Hq H2 Hp. apply (H q); [done..|by apply prefix_length|done].
Qed.
End star_free.

(** ** The registered table *)
Section table.
Context {MR : MapRange} (getters : string → list string → gmap string OptionValue → res show_err string).

Definition reg_config (r : Registration) : ShowPathConfig :=
  path_config (reg_path r) (getters (reg_getter r)) (reg_usage r) (reg_min r) (reg_max r)
    (reg_sub r) (reg_options r).

Definition show_table : list (list string * ShowPathConfig) :=
  (λ r, (reg_path r, reg_config r)) <$> show_commands.

(** What the table has to satisfy, on the arguments alone. *)
Definition reg_valid (r : Registration) : bool :=
  bool_decide (-1 ≤ reg_max r)%Z && bool_decide (0 ≤ reg_min r)%Z &&
  bool_decide (-1 < reg_max r → reg_min r ≤ reg_max r)%Z && bool_decide (2 ≤ length (reg_path r)) &&
  bool_decide ("" ∉ reg_path r) && forallb (λ k, negb (star k)) (reg_path r).

Lemma all_valid : forallb reg_valid show_commands = true.
Proof. vm_compute. reflexivity. Qed.

Lemma paths_distinct : NoDup (reg_path <$> show_commands).
Proof. apply (bool_decide_eq_true_1 _). vm_compute. reflexivity. Qed.

Lemma command_valid r : r ∈ show_commands → reg_valid r = true.
Proof. intros Hr%list_elem_of_In. exact (proj1 (forallb_forall _ _) all_valid r Hr). Qed.

Lemma valid_registered r : reg_valid r = true → validateRegisteredArgs (reg_config r) = None.
Proof.
  unfold reg_valid, validateRegisteredArgs. rewrite !andb_true_iff, !bool_decide_eq_true. simpl.
  intros [[[[[H1 H2] H3] H4] _] _]. rewrite !bool_decide_false by lia. done.
Qed.

(** No registration is dropped: start-up builds the trie of the whole table. *)
Lemma init_populated : init getters = populate show_table.
Proof.
  unfold init, populate, show_table. generalize (@NewTrie ShowPathConfig).
  assert (∀ r, r ∈ show_commands → reg_valid r = true) as Hv by exact command_valid.
  induction show_commands as [|r rs IH]; intros t; simpl; [done|]. rewrite <- IH by (intros; apply Hv; by right).
  f_equal. unfold register, RegisterCliPath. fold (reg_config r).
  by rewrite valid_registered by (apply Hv; left).
Qed.

Lemma table_entry q m : (q, m) ∈ show_table ↔ ∃ r, q = reg_path r ∧ m = reg_config r ∧ r ∈ show_commands.
Proof. unfold show_table. rewrite list_elem_of_fmap. naive_solver. Qed.

Lemma table_path r : r ∈ show_commands → reg_path r ∈ show_table.*1 ∧ 2 ≤ length (reg_path r).
Proof.
  intros Hr. split.
  - apply (list_elem_of_fmap_2 fst _ (reg_path r, reg_config r)), table_entry. eauto.
  - apply command_valid in Hr. unfold reg_valid in Hr. rewrite !andb_true_iff, !bool_decide_eq_true in Hr. naive_solver.
Qed.

Lemma table_no_empty : no_empty show_table = true.
Proof.
  apply forallb_forall. intros [q m] Hin. apply list_elem_of_In, table_entry in Hin as (r & -> & _ & Hr).
  apply command_valid in Hr. unfold reg_valid in Hr. rewrite !andb_true_iff in Hr. naive_solver.
Qed.

Lemma table_star_free : star_free show_table = true.
Proof.
  apply forallb_forall. intros [q m] Hin. apply list_elem_of_In, table_entry in Hin as (r & -> & _ & Hr).
  apply command_valid in Hr. unfold reg_valid in Hr. rewrite !andb_true_iff in Hr. naive_solver.
Qed.

(** The registration whose path is the longest prefix of the elements. *)
Definition answers (names : list string) (r : Registration) : Prop :=
  r ∈ show_commands ∧ reg_path r `prefix_of` names ∧
  ∀ r', r' ∈ show_commands → reg_path r' `prefix_of` names → length (reg_path r') ≤ length (reg_path r).

Lemma longest_answers names m :
  longest_entry show_table names m → ∃ r, m = reg_config r ∧ answers names r.
Proof.
  intros (q & (r & -> & -> & Hr)%table_entry & H2 & Hp & Hmax). exists r. split; [done|].
  split; [done|]. split; [done|]. intros r' Hr' Hp'. destruct (table_path r' Hr'). by apply Hmax.
Qed.

Definition full_names (prefix path : option Path) : list string :=
  GetTarget prefix :: (elem_name <$> path_elem (gnmiFullPath prefix path)).

Lemma lookup_cases prefix path :
  (∃ r, answers (full_names prefix path) r ∧
     lookupPathConfig (init getters) prefix path = Returns (Ok (reg_config r))) ∨
  ((∀ r, r ∈ show_commands → ¬ reg_path r `prefix_of` full_names prefix path) ∧
     lookupPathConfig (init getters) prefix path = Returns (Err (PlainErr "not found in clientTrie tree"))).
Proof.
  rewrite init_populated. unfold lookupPathConfig. fold (full_names prefix path).
  pose proof (find_longest show_table (full_names prefix path) table_no_empty table_star_free) as H.
  destruct (FindLongestPrefix _ _) as [n|].
  - left. destruct H as (m & Hm & (r & -> & Hr)%longest_answers). exists r. by rewrite Hm.
  - right. split; [|done]. intros r Hr. destruct (table_path r Hr). by apply H.
Qed.

(** C29. A path is answered by the registered command with the longest path that
    is a prefix of it, and refused when there is none: no registration of the
    table is dropped or shadowed, and the lookup never panics. *)
Theorem show_dispatch prefix path :
  (∃ r, answers (full_names prefix path) r ∧
     lookupPathConfig (init getters) prefix path = Returns (Ok (reg_config r))) ∨
  ((∀ r, r ∈ show_commands → ¬ reg_path r `prefix_of` full_names prefix path) ∧
     lookupPathConfig (init getters) prefix path = Returns (Err (PlainErr "not found in clientTrie tree"))).
Proof. apply lookup_cases. Qed.
End table.

(** ** Validation *)
Section validation.
Context {MR : MapRange}.

(** The options written from the last element of the command on; of two
    elements with the same key the later one counts. *)
Definition passed_options (elems : list PathElem) : gmap string string :=
  foldl (λ m e, elem_key e ∪ m) ∅ elems.

Lemma check_entries (options : gmap string ShowCmdOption) l m0 m :
  foldM (check_key options) m0 l = Ok m ↔
  (∀ k, k ∈ l.*1 → is_Some (options !! k)) ∧ m = insert_all Some m0 l.
Proof.
  revert m0. induction l as [|[k v] l IH]; intros m0; simpl.
  - split; [intros [= <-]; split; [by intros ? ?%elem_of_nil|done]|by intros [_ ->]].
  - setoid_rewrite elem_of_cons. destruct (options !! k) eqn:E; simpl.
    + rewrite IH. unfold insert_all. naive_solver.
    + split; [done|]. intros [H _]. destruct (H k); [by left|congruence].
Qed.

Lemma omap_Some_id {A} (l : list A) : omap Some l = l.
Proof. induction l as [|x l IH]; [done|]. simpl. by f_equal. Qed.

Lemma check_elem_Ok options passed e m :
  check_elem options passed e = Ok m ↔
  (∀ k, is_Some (elem_key e !! k) → is_Some (options !! k)) ∧ m = elem_key e ∪ passed.
Proof.
  unfold check_elem. rewrite check_entries, insert_all_nodup.
  - rewrite omap_Some_id, (list_to_map_proper (map_range (elem_key e)) (map_to_list (elem_key e)));
      [|apply NoDup_map_range_fst|apply map_range_perm].
    rewrite list_to_map_to_list. setoid_rewrite list_elem_of_fmap.
    split; intros [H ->]; (split; [|done]); intros k.
    + intros [v Hv]. apply H. exists (k, v). by rewrite elem_of_map_range.
    + intros ([k' v] & -> & ?%elem_of_map_range). apply H. eauto.
  - rewrite omap_Some_id. apply NoDup_map_range_fst.
Qed.

Lemma check_elems_Ok options passed elems m :
  foldM (check_elem options) passed elems = Ok m ↔
  (∀ e k, e ∈ elems → is_Some (elem_key e !! k) → is_Some (options !! k)) ∧
  m = foldl (λ m e, elem_key e ∪ m) passed elems.
Proof.
  revert passed. induction elems as [|e elems IH]; intros passed; simpl.
  - split; [intros [= <-]; split; [by intros ?? ?%elem_of_nil|done]|by intros [_ ->]].
  - rewrite bind_Ok. setoid_rewrite check_elem_Ok. setoid_rewrite IH. setoid_rewrite elem_of_cons. naive_solver.
Qed.

(** What one registered option asks of the options that were passed. *)
Definition admissible (passed : gmap string string) (name : string) (o : ShowCmdOption) : Prop :=
  match passed !! name with
  | None => optType o ≠ OptionType.Required
  | Some s => optType o ≠ OptionType.Unimplemented ∧ is_ok (option_value o s) = true
  end.

Definition typed_entry (passed : gmap string string) (entry : string * ShowCmdOption) : option (string * OptionValue) :=
  s ← passed !! entry.1;
  match option_value entry.2 s with Ok v => Some (entry.1, v) | Err _ => None end.

Lemma validate_entries passed l m0 m :
  foldM (validate_option passed) m0 l = Ok m ↔
  (∀ name o, (name, o) ∈ l → admissible passed name o) ∧ m = insert_all (typed_entry passed) m0 l.
Proof.
  revert m0. induction l as [|[name o] l IH]; intros m0.
  - simpl. split; [intros [= <-]; split; [by intros ?? ?%elem_of_nil|done]|by intros [_ ->]].
  - assert (admissible passed name o → validate_option passed m0 (name, o) = Ok (insert_all (typed_entry passed) m0 [(name, o)])) as Hok.
    { unfold admissible, validate_option, insert_all, typed_entry. simpl. destruct (passed !! name) as [s|]; simpl.
      - intros [Hu Hv]. rewrite bool_decide_false by done. by destruct (option_value o s).
      - intros Hr. by rewrite bool_decide_false. }
    assert (∀ m1, validate_option passed m0 (name, o) = Ok m1 → admissible passed name o) as Hadm.
    { unfold admissible, validate_option. intros m1. destruct (passed !! name) as [s|]; case_bool_decide; try done.
      destruct (option_value o s); simpl; naive_solver. }
    cbn [foldM]. rewrite bind_Ok. setoid_rewrite IH. setoid_rewrite elem_of_cons. split.
    + intros (m1 & Hm1 & Hl & ->). pose proof (Hadm _ Hm1) as Ha. rewrite (Hok Ha) in Hm1. injection Hm1 as <-.
      split; [naive_solver|done].
    + intros [Hl ->]. eexists. split; [apply Hok; naive_solver|]. split; [naive_solver|done].
Qed.

Lemma typed_entry_nodup passed (options : gmap string ShowCmdOption) :
  NoDup (omap (typed_entry passed) (map_range options)).*1.
Proof.
  pose proof (NoDup_map_range_fst options) as Hn. induction (map_range options) as [|[name o] l IH]; simpl; [constructor|].
  apply NoDup_cons in Hn as [Hin Hn]. destruct (typed_entry passed (name, o)) as [[n v]|] eqn:E; [|by apply IH].
  simpl. apply NoDup_cons. split; [|by apply IH].
  assert (∀ e n v, typed_entry passed e = Some (n, v) → n = e.1) as Hk.
  { intros e n' v' (s & _ & H)%bind_Some. by destruct (option_value e.2 s); simplify_eq. }
  apply Hk in E as ->. intros ([n' v'] & Hn' & (e & He & He')%list_elem_of_omap)%list_elem_of_fmap.
  simpl in *. subst n'.
  apply Hin, list_elem_of_fmap. exists e. split; [by apply Hk in He'|done].
Qed.

Lemma options_parsed (cfg : ShowPathConfig) (path : Path) om :
  let passed := passed_options (drop (Z.to_nat (regLen cfg - 2)) (path_elem path)) in
  ParseOptions cfg (Some path) = Ok om ↔
  (0 ≤ regLen cfg - 2 < Z.of_nat (length (path_elem path)))%Z ∧
  (∀ e k, e ∈ drop (Z.to_nat (regLen cfg - 2)) (path_elem path) → is_Some (elem_key e !! k) →
     is_Some (sp_options cfg !! k)) ∧
  (∀ name o, sp_options cfg !! name = Some o → admissible passed name o) ∧
  (∀ name v, om !! name = Some v ↔
     ∃ o s, sp_options cfg !! name = Some o ∧ passed !! name = Some s ∧ option_value o s = Ok v).
Proof.
  intros passed. unfold ParseOptions, checkOptionsInPath, validateOptions. case_bool_decide as Hb.
  { split; [done|]. intros [? _]. lia. }
  rewrite bind_Ok. setoid_rewrite check_elems_Ok. fold passed. setoid_rewrite validate_entries.
  assert (∀ name v, insert_all (typed_entry passed) ∅ (map_range (sp_options cfg)) !! name = Some v ↔
    ∃ o s, sp_options cfg !! name = Some o ∧ passed !! name = Some s ∧ option_value o s = Ok v) as Hlk.
  { intros name v. rewrite insert_all_lookup by apply typed_entry_nodup. unfold typed_entry. split.
    - intros ([n o] & Hin%elem_of_map_range & (s & Hs & H)%bind_Some). simpl in *.
      destruct (option_value o s) eqn:E; naive_solver.
    - intros (o & s & Ho & Hs & Hv). exists (name, o). split; [by apply elem_of_map_range|].
      simpl. rewrite Hs. simpl. by rewrite Hv. }
  setoid_rewrite elem_of_map_range. split.
  - intros (p & [He ->] & Ha & ->). split; [lia|]. by split_and!.
  - intros (_ & He & Ha & Hm). exists passed. split; [done|]. split; [done|].
    apply map_eq. intros name. apply option_eq. intros v. rewrite Hm. symmetry. apply Hlk.
Qed.
(** Validation of options accepts exactly the requests in which every option
    written from the last element of the command on is registered, no required
    option is missing, none is unimplemented and each value reads as the type
    of its option; and a command then sees exactly the options that were
    written, with their values, whatever the order of map iteration. *)
Theorem options_validated (cfg : ShowPathConfig) (path : Path) om :
  let passed := passed_options (drop (Z.to_nat (regLen cfg - 2)) (path_elem path)) in
  ParseOptions cfg (Some path) = Ok om ↔
  (0 ≤ regLen cfg - 2 < Z.of_nat (length (path_elem path)))%Z ∧
  (∀ e k, e ∈ drop (Z.to_nat (regLen cfg - 2)) (path_elem path) → is_Some (elem_key e !! k) →
     is_Some (sp_options cfg !! k)) ∧
  (∀ name o, sp_options cfg !! name = Some o → admissible passed name o) ∧
  (∀ name v, om !! name = Some v ↔
     ∃ o s, sp_options cfg !! name = Some o ∧ passed !! name = Some s ∧ option_value o s = Ok v).
Proof. apply options_parsed. Qed.

(** The Go type a command may assert of the value of an option. *)
Definition has_type (o : ShowCmdOption) (v : OptionValue) : Prop :=
  (valueType o = ValueType.StringValue ∧ ∃ s, ov_String v = Some s) ∨
  (valueType o = ValueType.StringSliceValue ∧ ∃ l, ov_Strings v = Some l ∧ l ≠ []) ∨
  (valueType o = ValueType.BoolValue ∧ ∃ b, ov_Bool v = Some b) ∨
  (valueType o = ValueType.IntValue ∧ ∃ i, ov_Int v = Some i ∧ (min_int64 ≤ i ≤ max_int64)%Z) ∨
  (valueType o = ValueType.EnumValue ∧ ∃ s, ov_String v = Some s ∧ s ∈ enumValues o).

Lemma split_go_ne sep s acc skip : split_go sep s acc skip ≠ [].
Proof. revert acc skip. induction s as [|c s IH]; intros acc [|skip]; simpl; [done..| |by apply IH]. case_match; [done|by apply IH]. Qed.

Lemma option_value_typed o s v : option_value o s = Ok v → has_type o v.
Proof.
  unfold option_value, has_type. repeat case_bool_decide; try done.
  - intros [= <-]. simpl. eauto.
  - intros [= <-]. right; left. split; [done|]. eexists. split; [reflexivity|].
    intros ?%fmap_nil_inv. by eapply split_go_ne.
  - destruct (ParseBool s); [|done]. intros [= <-]. simpl. naive_solver.
  - destruct (Atoi s) eqn:Ha; [|done]. intros [= <-]. simpl. apply Atoi_bounds in Ha. naive_solver.
  - intros [= <-]. simpl. naive_solver.
Qed.

(** C30. Every option a command is given is one it registered and implements,
    with a value of the Go type it registered (an int fits 64 bits, an
    enumerated value is one of the allowed ones), and every option it requires
    is there. *)
Theorem options_typed (cfg : ShowPathConfig) (path : Path) om :
  ParseOptions cfg (Some path) = Ok om →
  (∀ name v, om !! name = Some v → ∃ o, sp_options cfg !! name = Some o ∧
     optType o ≠ OptionType.Unimplemented ∧ has_type o v) ∧
  (∀ name o, sp_options cfg !! name = Some o → optType o = OptionType.Required → is_Some (om !! name)).
Proof.
  intros (_ & _ & Ha & Hm)%options_parsed. split.
  - intros name v (o & s & Hopt & Hs & Hv)%Hm. exists o. split; [done|].
    specialize (Ha _ _ Hopt). unfold admissible in Ha. rewrite Hs in Ha.
    split; [by apply Ha|by eapply option_value_typed].
  - intros name o Hopt Hr. specialize (Ha _ _ Hopt). unfold admissible in Ha.
    destruct (passed_options _ !! name) as [s|] eqn:Hs; [|done].
    destruct (option_value o s) as [v|] eqn:Hv; [|naive_solver]. exists v. apply Hm. eauto.
Qed.

(** Arguments: the elements after the command, as many as it takes. *)
Lemma args_parsed (cfg : ShowPathConfig) (pr path : Path) args :
  let names := path_target pr :: (elem_name <$> path_elem path) in
  ParseArgs cfg (Some pr) (Some path) = Ok args ↔
  (0 ≤ regLen cfg ≤ Z.of_nat (length names))%Z ∧ args = drop (Z.to_nat (regLen cfg)) names ∧
  (minArgs cfg ≤ Z.of_nat (length args))%Z ∧ (maxArgs cfg < 0 ∨ Z.of_nat (length args) ≤ maxArgs cfg)%Z.
Proof.
  intros names. unfold ParseArgs, pathToArr. fold names.
  case_bool_decide; [split; [done|lia]|].
  assert (Z.of_nat (length (drop (Z.to_nat (regLen cfg)) names)) = Z.of_nat (length names) - regLen cfg)%Z as Hl.
  { rewrite length_drop. lia. }
  case_bool_decide; [split; [done|]; intros (_ & -> & ?); lia|].
  case_bool_decide; (split; [try done|]).
  - intros (_ & -> & ?); lia.
  - intros [= <-]. split; [lia|]. split; [done|]. lia.
  - intros (_ & -> & _). done.
Qed.
End validation.

(** ** One Get *)
Section get.
Context {MR : MapRange} {JCo : JsonCodec}
  (getters : string → list string → gmap string OptionValue → res show_err string).

(** The value a command computes for one path. *)
Definition answered (now : Z) (pr path : Path) (v : Value) : Prop :=
  ∃ r args opts bytes,
    answers (path_target pr :: (elem_name <$> path_elem path)) r ∧
    path_target pr :: (elem_name <$> path_elem path) = reg_path r ++ args ∧
    (reg_min r ≤ Z.of_nat (length args))%Z ∧ (reg_max r < 0 ∨ Z.of_nat (length args) ≤ reg_max r)%Z ∧
    ParseOptions (reg_config getters r) (Some path) = Ok opts ∧
    getters (reg_getter r) args opts = Ok bytes ∧
    v = data_value now (Some pr) (Some path) (JsonIetfVal bytes).

(** The reply to a path with [help=true]. *)
Definition helped (now : Z) (pr path : Path) (v : Value) : Prop :=
  ∃ r opts help,
    answers (path_target pr :: (elem_name <$> path_elem path)) r ∧
    ParseOptions (reg_config getters r) (Some path) = Ok opts ∧ opts !! "help" = Some (VBool true) ∧
    Marshal (description_json (description (reg_config getters r))) = Some help ∧
    v = data_value now (Some pr) (Some path) (JsonIetfVal help).

Lemma lookup_all_answers pr paths :
  path_elem pr = [] →
  match lookup_all (init getters) (Some pr) paths with
  | Returns (Ok l) => Forall2 (λ p e, e.1 = p ∧ ∃ r, e.2 = reg_config getters r ∧
      answers (path_target pr :: (elem_name <$> path_elem p)) r) paths l
  | Returns (Err e) => e = PlainErr "not found in clientTrie tree"
  | Panics => False
  end.
Proof.
  intros Hpr. induction paths as [|p paths IH]; simpl; [constructor|].
  assert (full_names (Some pr) (Some p) = path_target pr :: (elem_name <$> path_elem p)) as Hn.
  { unfold full_names. simpl. rewrite Hpr. by destruct (path_elem p). }
  destruct (lookup_cases getters (Some pr) (Some p)) as [(r & Hr & ->)|[_ ->]]; [|done].
  destruct (lookup_all _ _ paths) as [[l|e]|]; [|done..].
  constructor; [|done]. split; [done|]. exists r. by rewrite <- Hn.
Qed.

Lemma get_entries_values now pr paths entries acc values :
  Forall2 (λ p e, e.1 = p ∧ ∃ r, e.2 = reg_config getters r ∧
    answers (path_target pr :: (elem_name <$> path_elem p)) r) paths entries →
  get_entries now (Some pr) acc entries = Ok values →
  (∃ vs, values = acc ++ vs ∧ Forall2 (answered now pr) paths vs) ∨
  (∃ p v, p ∈ paths ∧ values = [v] ∧ helped now pr p v).
Proof.
  intros Hf. revert acc. induction Hf as [|p [p' c] paths entries [Hp (r & Hc & Hr)] Hf IH]; intros acc; simpl.
  - intros [= <-]. left. exists []. by rewrite app_nil_r.
  - simpl in Hp, Hc. subst p' c. intros (args & Hargs & (opts & Hopts & Hget)%bind_Ok)%bind_Ok.
    destruct (ov_Bool (opt_get opts "help")) as [[]|] eqn:Hh.
    { right. unfold showHelp in Hget. destruct (Marshal _) as [help|] eqn:Hm; [|done]. injection Hget as <-.
      exists p, (data_value now (Some pr) (Some p) (JsonIetfVal help)). split; [left|]. split; [done|].
      exists r, opts, help. unfold opt_get in Hh. by destruct (opts !! "help") as [[]|]; simplify_eq/=. }
    all: apply bind_Ok in Hget as (bytes & Hb & Hrest).
    all: apply args_parsed in Hargs as (Hlen & -> & Hmin & Hmax); simpl in Hlen, Hmin, Hmax, Hb, Hrest.
    all: apply IH in Hrest as [(vs & -> & Hvs)|(q & v & Hq & -> & Hh')];
      [left|right; exists q, v; split; [by right|done]].
    all: eexists (_ :: vs); rewrite <- app_assoc; split; [done|]; constructor; [|done].
    all: exists r, (drop (length (reg_path r)) (path_target pr :: (elem_name <$> path_elem p))), opts, bytes.
    all: rewrite Nat2Z.id in *; split; [done|]; split; [|done].
    all: destruct Hr as (_ & [rest Hrest] & _); rewrite Hrest; by rewrite drop_app_length.
Qed.

(** A SHOW request never panics, and what it returns is either one value per
    path, each the output of the command with the longest registered prefix of
    the path on exactly the elements after that prefix as arguments (as many
    as the command takes) and the validated options; or, when a path asks for
    help, the help of that command alone. *)
Theorem show_values now (pr : Path) paths :
  path_elem pr = [] →
  match NewShowClient (init getters) paths (Some pr) with
  | Panics => False
  | Returns (Err e) => e = PlainErr "not found in clientTrie tree"
  | Returns (Ok c) => ∀ entries values,
      entries ≡ₚ path2Config c →
      show_Get now {| sc_prefix := sc_prefix c; path2Config := entries |} = Ok values →
      (∃ ps, ps ≡ₚ paths ∧ Forall2 (answered now pr) ps values) ∨
      (∃ p v, p ∈ paths ∧ values = [v] ∧ helped now pr p v)
  end.
Proof.
  intros Hpr. pose proof (lookup_all_answers pr paths Hpr) as H. unfold NewShowClient.
  destruct (lookup_all _ _ paths) as [[l|e]|]; [|done..]. simpl. intros entries values Hperm Hget.
  apply Forall2_flip in H. destruct (Permutation_Forall2 (Permutation_sym Hperm) H) as (ps & Hps & Hf).
  apply Forall2_flip in Hf.
  destruct (get_entries_values _ _ _ _ _ _ Hf Hget) as [(vs & -> & Hvs)|(p & v & Hp & -> & Hh)].
  - left. by exists ps.
  - right. exists p, v. by rewrite Hps.
Qed.

(** Elements in the prefix are part of the lookup of a command and not of its
    arguments: under a prefix with [k] elements a command is called without
    its first [k] arguments. *)
Theorem prefix_elements_lost (pr path : Path) r given args :
  path_elem path ≠ [] →
  answers (full_names (Some pr) (Some path)) r → full_names (Some pr) (Some path) = reg_path r ++ given →
  ParseArgs (reg_config getters r) (Some pr) (Some path) = Ok args →
  args = drop (length (path_elem pr)) given.
Proof.
  intros Hne Hr Hg (Hlen & -> & _)%args_parsed. simpl in *. rewrite Nat2Z.id.
  destruct Hr as (Hin & _). destruct (table_path getters r Hin) as [_ H2].
  unfold full_names in Hg. simpl in Hg.
  assert (given = drop (length (reg_path r)) (path_target pr :: (elem_name <$> path_elem pr ++ path_elem path))) as ->.
  { destruct (path_elem path) as [|x l]; [done|]. rewrite Hg. by rewrite drop_app_length. }
  destruct (length (reg_path r)) as [|n]; [lia|]. simpl. rewrite drop_drop, fmap_app.
  replace (length (path_elem pr)) with (length (elem_name <$> path_elem pr)) by apply length_fmap.
  rewrite Nat.add_comm. by rewrite drop_app_add.
Qed.
End get.

(** ** Concrete requests *)
Module ShowExample.
Definition range0 : MapRange := canonical_range.
Definition codec0 : JsonCodec := {| Unmarshal := λ _, None; Marshal := λ _, Some "{}" |}.
Definition getters0 (f : string) (args : list string) (opts : gmap string OptionValue) : res show_err string :=
  Ok (f +:+ "(" +:+ Join args "," +:+ ")").
Definition trie0 : Trie ShowPathConfig := @init range0 getters0.

Definition show_prefix (elems : list PathElem) : Path := {| path_origin := ""; path_target := "SHOW"; path_elem := elems |}.

(** SHOW/interfaces/counters/detailed[period=5]/Ethernet0 *)
Definition detailed : Path := {|
  path_origin := ""; path_target := "";
  path_elem := [elem "interfaces"; elem "counters";
                {| elem_name := "detailed"; elem_key := {["period" := "5"]} |}; elem "Ethernet0"]
|}.
Definition detailed_reg : Registration := {|
  reg_path := ["SHOW"; "interfaces"; "counters"; "detailed"];
  reg_getter := "getInterfaceCountersDetailed";
  reg_usage := "SHOW/interfaces/counters/detailed/INTERFACE_NAME[OPTIONS]: Show interface counters detailed";
  reg_min := 1; reg_max := 1; reg_sub := None;
  reg_options := [showCmdOptionPeriod; showCmdOptionVerbose]
|}.
Definition detailed_cfg : ShowPathConfig := @reg_config range0 getters0 detailed_reg.

Definition run (pr : Path) (paths : list Path) : handled (res show_err (list Value)) :=
  match @NewShowClient range0 trie0 paths (Some pr) with
  | Returns (Ok c) => Returns (@show_Get range0 codec0 7 c)
  | Returns (Err e) => Returns (Err e)
  | Panics => Panics
  end.

Example detailed_runs :
  run (show_prefix []) [detailed] =
  Returns (Ok [data_value 7 (Some (show_prefix [])) (Some detailed)
                 (JsonIetfVal "getInterfaceCountersDetailed(Ethernet0)")]).
Proof. vm_compute. reflexivity. Qed.

(** The same command is refused when part of its path is in the prefix. *)
Example prefix_refused :
  run (show_prefix [elem "interfaces"])
    [{| path_origin := ""; path_target := ""; path_elem := drop 1 (path_elem detailed) |}] =
  Returns (Err (StatusErr InvalidArgument "required number of arguments")).
Proof. vm_compute. reflexivity. Qed.

Lemma options_typed_witness :
  ∃ om, @ParseOptions range0 detailed_cfg (Some detailed) = Ok om ∧ om !! "period" = Some (VInt 5) ∧
  (∀ name v, om !! name = Some v → ∃ o, sp_options detailed_cfg !! name = Some o ∧
     optType o ≠ OptionType.Unimplemented ∧ has_type o v) ∧
  (∀ name o, sp_options detailed_cfg !! name = Some o → optType o = OptionType.Required → is_Some (om !! name)).
Proof.
  exists {["period" := VInt 5]}.
  assert (@ParseOptions range0 detailed_cfg (Some detailed) = Ok {["period" := VInt 5]}) as H
    by (vm_compute; reflexivity).
  split; [exact H|]. split; [reflexivity|]. exact (@options_typed range0 detailed_cfg detailed _ H).
Defined.

Lemma show_values_witness :
  path_elem (show_prefix []) = [] ∧
  match @NewShowClient range0 trie0 [detailed] (Some (show_prefix [])) with
  | Panics => False
  | Returns (Err e) => e = PlainErr "not found in clientTrie tree"
  | Returns (Ok c) => ∀ entries values,
      entries ≡ₚ path2Config c →
      @show_Get range0 codec0 7 {| sc_prefix := sc_prefix c; path2Config := entries |} = Ok values →
      (∃ ps, ps ≡ₚ [detailed] ∧
         Forall2 (@answered range0 getters0 7 (show_prefix [])) ps values) ∨
      (∃ p v, p ∈ [detailed] ∧ values = [v] ∧ @helped range0 codec0 getters0 7 (show_prefix []) p v)
  end.
Proof. split; [reflexivity|]. exact (@show_values range0 codec0 getters0 7 (show_prefix []) [detailed] eq_refl). Defined.

(** SHOW/ipv6 as the prefix of route/2001:db8::1/vrf: the address is lost. *)
Definition route_reg : Registration := {|
  reg_path := ["SHOW"; "ipv6"; "route"];
  reg_getter := "getIPv6Route";
  reg_usage := "SHOW/ipv6/route/{IPADDRESS}/{VRF NAME}{...}[OPTIONS]: Show IPv6 routing table";
  reg_min := 0; reg_max := -1; reg_sub := None;
  reg_options := [UnimplementedOption showCmdOptionNamespace; showCmdOptionDisplay]
|}.
Definition route : Path := path_of ["route"; "2001:db8::1"; "vrf"].
Definition route_names : list string := ["SHOW"; "ipv6"; "route"; "2001:db8::1"; "vrf"].

Lemma route_answers : answers route_names route_reg.
Proof.
  assert (Forall (λ r, reg_path r `prefix_of` route_names → length (reg_path r) ≤ 3) show_commands) as H.
  { apply (bool_decide_eq_true_1 _). vm_compute. reflexivity. }
  split; [|split].
  - apply list_elem_of_lookup. exists 41. reflexivity.
  - exists ["2001:db8::1"; "vrf"]. reflexivity.
  - rewrite Forall_forall in H. exact H.
Qed.

Lemma prefix_elements_lost_witness :
  @ParseArgs (@reg_config range0 getters0 route_reg) (Some (show_prefix [elem "ipv6"])) (Some route) = Ok ["vrf"] ∧
  ["vrf"] = drop (length (path_elem (show_prefix [elem "ipv6"]))) ["2001:db8::1"; "vrf"].
Proof.
  split; [reflexivity|].
  exact (@prefix_elements_lost range0 getters0 (show_prefix [elem "ipv6"]) route route_reg
    ["2001:db8::1"; "vrf"] ["vrf"] ltac:(discriminate) route_answers eq_refl eq_refl).
Defined.
End ShowExample.
