(* ===== verification/Events.v ===== *)
(** * The event client (src/sonic_data_client/events_client.go)

    A stream subscription to EVENTS runs three goroutines: [get_events] takes
    events from the event daemon and puts them on the session's queue as long
    as it holds fewer than [pq_max], [update_stats] writes the counters to
    COUNTERS_DB every second, and [StreamRun] waits for the end of the
    session.  The session sends the values and reports each to [SentOne] or
    [FailedSend].

    The C library of the event daemon is not part of the model: what
    [event_receive] returns is an input of [get_events], and the options it is
    given are outputs of [NewEventClient].  One iteration of a loop is one
    step; steps of the goroutines and of the session interleave.  The locks
    inside an iteration are modelled apart, in [Locks]. *)
From stdpp Require Import base gmap list strings pretty.
From S2P Require Import Prelude GoStrings Gnmi Json DbConn DbClient.

Definition LATENCY_LIST_SIZE : nat := 10.
Definition PQ_DEF_SIZE : Z := 10240.
Definition PQ_MIN_SIZE : Z := 1024.
Definition PQ_MAX_SIZE : Z := 102400.
Definition HEARTBEAT_MAX : Z := 600.

Definition MISSED : string := "COUNTERS_EVENTS:missed_internal".
Definition DROPPED : string := "COUNTERS_EVENTS:missed_by_slow_receiver".
Definition LATENCY : string := "COUNTERS_EVENTS:latency_in_ms".
Definition STATS_CUMULATIVE_KEYS : list string := [MISSED; DROPPED].
Definition STATS_ABSOLUTE_KEYS : list string := [LATENCY].
Definition STATS_FIELD_NAME : string := "value".

Definition quote : string := String (Ascii.ascii_of_nat 34) "".
Definition TEST_EVENT : string := "{" +:+ quote +:+ "sonic-host:device-test-event".

Definition PARAM_HEARTBEAT : string := "heartbeat".
Definition PARAM_QSIZE : string := "qsize".
Definition PARAM_USE_CACHE : string := "usecache".

(** Arithmetic of uint64. *)
Definition u64 (z : Z) : Z := (z mod 2 ^ 64)%Z.

(** ** State *)

Record EventClient := {
  ev_prefix : option Path;
  ev_path : option Path;
  pq_max : Z;
  stopped : bool;
  counters : gmap string Z;
  last_latencies : list Z;
  last_latency_index : nat;
  last_latency_full : bool;
  last_errors : Z
}.

Definition set_counters (m : gmap string Z) (e : EventClient) : EventClient := {|
  ev_prefix := ev_prefix e; ev_path := ev_path e; pq_max := pq_max e; stopped := stopped e;
  counters := m; last_latencies := last_latencies e; last_latency_index := last_latency_index e;
  last_latency_full := last_latency_full e; last_errors := last_errors e
|}.
Definition set_stopped (e : EventClient) : EventClient := {|
  ev_prefix := ev_prefix e; ev_path := ev_path e; pq_max := pq_max e; stopped := true;
  counters := counters e; last_latencies := last_latencies e; last_latency_index := last_latency_index e;
  last_latency_full := last_latency_full e; last_errors := last_errors e
|}.

(** [m[k]] of a counter map. *)
Definition count (m : gmap string Z) (k : string) : Z := default 0%Z (m !! k).

(** ** NewEventClient *)

(** What the parameters of the path set: the intervals handed to
    [Set_heartbeat] in order, the size of the queue, the use of the cache. *)
Record Params := { p_heartbeats : list Z; p_qsize : Z; p_use_cache : bool }.

Definition clamp_qsize (val : Z) : Z :=
  if bool_decide (val < PQ_MIN_SIZE)%Z then PQ_MIN_SIZE
  else if bool_decide (PQ_MAX_SIZE < val)%Z then PQ_MAX_SIZE else val.

Definition clamp_heartbeat (val : Z) : Z :=
  if bool_decide (HEARTBEAT_MAX < val)%Z then HEARTBEAT_MAX else val.

Definition param_step (p : Params) (kv : string * string) : Params :=
  let '(k, v) := kv in
  if bool_decide (k = PARAM_HEARTBEAT) then
    match Atoi v with
    | Some val => {| p_heartbeats := p_heartbeats p ++ [clamp_heartbeat val];
                     p_qsize := p_qsize p; p_use_cache := p_use_cache p |}
    | None => p
    end
  else if bool_decide (k = PARAM_QSIZE) then
    match Atoi v with
    | Some val => {| p_heartbeats := p_heartbeats p; p_qsize := clamp_qsize val; p_use_cache := p_use_cache p |}
    | None => p
    end
  else if bool_decide (k = PARAM_USE_CACHE) && bool_decide (ToLower v = "false") then
    {| p_heartbeats := p_heartbeats p; p_qsize := p_qsize p; p_use_cache := false |}
  else p.

Definition event_params `{MapRange} (path : option Path) : Params :=
  foldl (λ p e, foldl param_step p (map_range (elem_key e)))
    {| p_heartbeats := []; p_qsize := PQ_DEF_SIZE; p_use_cache := true |} (GetElem path).

(** The last path of the request counts. *)
Definition NewEventClient `{MapRange} (paths : list Path) (prefix : option Path) : EventClient * Params :=
  let path := last paths in
  let p := event_params path in
  ({| ev_prefix := prefix; ev_path := path; pq_max := p_qsize p; stopped := false;
      counters := list_to_map ((λ k, (k, 0%Z)) <$> STATS_CUMULATIVE_KEYS ++ STATS_ABSOLUTE_KEYS);
      last_latencies := replicate LATENCY_LIST_SIZE 0%Z; last_latency_index := 0;
      last_latency_full := false; last_errors := 0 |}, p).

(** ** Latencies *)

(** [SentOne]: the difference to the time of the event, as a uint64, goes into
    a ring. *)
Definition SentOne (now : Z) (val : Value) (c : EventClient) : EventClient :=
  let udiff := u64 (now - GetTimestamp val) in
  let i := S (last_latency_index c) in
  let wraps := bool_decide (length (last_latencies c) ≤ i) in
  {| ev_prefix := ev_prefix c; ev_path := ev_path c; pq_max := pq_max c; stopped := stopped c;
     counters := counters c;
     last_latencies := <[last_latency_index c := udiff]> (last_latencies c);
     last_latency_index := if wraps then 0 else i;
     last_latency_full := if wraps then true else last_latency_full c;
     last_errors := last_errors c |}.

Definition FailedSend (c : EventClient) : EventClient := {|
  ev_prefix := ev_prefix c; ev_path := ev_path c; pq_max := pq_max c; stopped := stopped c;
  counters := counters c; last_latencies := last_latencies c; last_latency_index := last_latency_index c;
  last_latency_full := last_latency_full c; last_errors := u64 (last_errors c + 1)
|}.

Definition latency_total (l : list Z) : Z :=
  foldl (λ total v, if bool_decide (0 < v)%Z then u64 (total + v) else total) 0%Z l.

Definition compute_latency (e : EventClient) : EventClient :=
  if last_latency_full e
  then set_counters (<[LATENCY := (latency_total (last_latencies e) / Z.of_nat LATENCY_LIST_SIZE / 1000 / 1000)%Z]>
                       (counters e)) e
  else e.

(** ** Receiving events *)

Record Evt_rcvd := { Event_str : string; Missed_cnt : Z; Publish_epoch_ms : Z }.

(** What became of a received event. *)
Inductive outcome := Ignored | Queued (v : Value) | DroppedEvt | NotJson | Refused.

Section events.
Context {MR : MapRange} {JCo : JsonCodec}.

(** [json.Unmarshal] into a map: the map stays nil unless the string is an
    object; its error is not looked at. *)
Definition event_json (s : string) : json :=
  match Unmarshal s with Some (JObj m) => JObj m | _ => JNull end.

Definition event_value (e : EventClient) (tv : TypedValue) (timestamp : Z) : Value :=
  data_value timestamp (ev_prefix e) (ev_path e) tv.

(** [send_event] on the queue of the session. *)
Definition send_event (disposed : bool) (q : list Value) (v : Value) : option (list Value) :=
  if disposed then None else Some (v :: q).

(** One iteration of [get_events]: the client, the queue, whether the loop
    goes on, and what became of the event. *)
Definition get_events_step (e : EventClient) (disposed : bool) (q : list Value) (rc : Z) (evt : Evt_rcvd)
  : EventClient * list Value * bool * option outcome :=
  if bool_decide (rc ≠ 0)%Z then (e, q, negb (stopped e), None)
  else
    let e := set_counters (<[MISSED := u64 (count (counters e) MISSED + Missed_cnt evt)]> (counters e)) e in
    if HasPrefix (Event_str evt) TEST_EVENT then (e, q, negb (stopped e), Some Ignored)
    else if bool_decide (Z.of_nat (length q) < pq_max e)%Z then
      match Marshal (event_json (Event_str evt)) with
      | None => (e, q, negb (stopped e), Some NotJson)
      | Some jv =>
          let v := event_value e (JsonIetfVal jv) (Publish_epoch_ms evt) in
          match send_event disposed q v with
          | Some q' => (e, q', negb (stopped e), Some (Queued v))
          | None => (e, q, false, Some Refused)
          end
      end
    else
      let e := set_counters (<[DROPPED := u64 (count (counters e) DROPPED + 1)]> (counters e)) e in
      (e, q, negb (stopped e), Some DroppedEvt).

(** ** Writing the counters *)

(** The goroutine of [update_stats]: it waits for a counter that is not zero,
    then holds the counters it read from the database and those it wrote
    last. *)
Inductive stats_pc :=
| StatsWait
| StatsRun (db : gmap string Z) (wr : option (gmap string Z))
| StatsEnd.

Definition some_counter (e : EventClient) : bool :=
  existsb (λ '(_, val), bool_decide (val ≠ 0)%Z) (map_range (counters e)).

(** The counters that are loaded from the database before the main loop.  On an
    error the map of fields is empty. *)
Definition load_key (c : Conn) (db : gmap string Z) (key : string) : gmap string Z :=
  let '(fv, failed) := match HGetAll c key with Ok fv => (fv, false) | Err _ => (∅, true) end in
  if (failed : bool) then
    match ParseUint (default "" (fv !! STATS_FIELD_NAME)) with
    | Some number => <[key := number]> db
    | None => db
    end
  else db.
Definition load_counters (c : Conn) : gmap string Z :=
  foldl (λ db key, <[key := 0%Z]> db) (foldl (load_key c) ∅ STATS_CUMULATIVE_KEYS) STATS_ABSOLUTE_KEYS.

(** One turn before the main loop; [conn] is [None] when the configuration has
    no COUNTERS_DB. *)
Definition stats_wait_step (e : EventClient) (conn : option Conn) : EventClient * stats_pc :=
  let e := compute_latency e in
  if some_counter e then
    match conn with Some c => (e, StatsRun (load_counters c) None) | None => (e, StatsEnd) end
  else (e, StatsWait).

(** What the main loop writes. *)
Definition stats_values (e : EventClient) (db : gmap string Z) : gmap string Z :=
  let tmp := map_imap (λ key val, Some (u64 (val + count db key))) (counters e) in
  <[DROPPED := u64 (count tmp DROPPED + last_errors e)]> tmp.

(** The commands [HSET key value n] of one turn of the main loop. *)
Definition stats_writes (tmp : gmap string Z) : list (string * string) :=
  (λ '(key, val), (key, Itoa val)) <$> map_range tmp.

Definition stats_run_step (e : EventClient) (db : gmap string Z) (wr : option (gmap string Z))
  : EventClient * option (gmap string Z) * list (string * string) :=
  let e := compute_latency e in
  let tmp := stats_values e db in
  if bool_decide (wr = Some tmp) then (e, wr, []) else (e, Some tmp, stats_writes tmp).

(** ** The goroutines and the session *)

Record Sys := {
  s_client : EventClient;
  s_q : list Value;
  s_disposed : bool;
  s_getting : bool;
  s_stats : stats_pc;
  (* history: the events that were received, what became of each, the values
     that the session took from the queue, the latencies that were reported
     and the counters that were written *)
  s_rcvd : list Evt_rcvd;
  s_log : list (Evt_rcvd * outcome);
  s_taken : list Value;
  s_sent : list Z;
  s_written : list (string * string)
}.

Definition started (e : EventClient) : Sys := {|
  s_client := e; s_q := []; s_disposed := false; s_getting := true; s_stats := StatsWait;
  s_rcvd := []; s_log := []; s_taken := []; s_sent := []; s_written := []
|}.

Inductive ev_step : Sys → Sys → Prop :=
(** One iteration of [get_events]; a loop that ends sets [stopped]. *)
| ev_get s rc evt e q more o :
    s_getting s = true →
    get_events_step (s_client s) (s_disposed s) (s_q s) rc evt = (e, q, more, o) →
    ev_step s {| s_client := if more : bool then e else set_stopped e; s_q := q; s_disposed := s_disposed s;
      s_getting := more; s_stats := s_stats s;
      s_rcvd := s_rcvd s ++ (if bool_decide (rc = 0)%Z then [evt] else []);
      s_log := s_log s ++ match o with Some o => [(evt, o)] | None => [] end;
      s_taken := s_taken s; s_sent := s_sent s; s_written := s_written s |}
(** [update_stats]: it looks at [stopped] before each turn. *)
| ev_stats_stop s :
    stopped (s_client s) = true →
    ev_step s {| s_client := s_client s; s_q := s_q s; s_disposed := s_disposed s; s_getting := s_getting s;
      s_stats := StatsEnd; s_rcvd := s_rcvd s; s_log := s_log s; s_taken := s_taken s; s_sent := s_sent s; s_written := s_written s |}
| ev_stats_wait s conn e pc :
    stopped (s_client s) = false → s_stats s = StatsWait →
    stats_wait_step (s_client s) conn = (e, pc) →
    ev_step s {| s_client := e; s_q := s_q s; s_disposed := s_disposed s; s_getting := s_getting s;
      s_stats := pc; s_rcvd := s_rcvd s; s_log := s_log s; s_taken := s_taken s; s_sent := s_sent s; s_written := s_written s |}
| ev_stats_run s db wr e wr' ws :
    stopped (s_client s) = false → s_stats s = StatsRun db wr →
    stats_run_step (s_client s) db wr = (e, wr', ws) →
    ev_step s {| s_client := e; s_q := s_q s; s_disposed := s_disposed s; s_getting := s_getting s;
      s_stats := StatsRun db wr'; s_rcvd := s_rcvd s; s_log := s_log s; s_taken := s_taken s; s_sent := s_sent s; s_written := s_written s ++ ws |}
(** [StreamRun]: the channel of the session is closed. *)
| ev_stop s :
    ev_step s {| s_client := set_stopped (s_client s); s_q := s_q s; s_disposed := s_disposed s;
      s_getting := s_getting s; s_stats := s_stats s; s_rcvd := s_rcvd s; s_log := s_log s; s_taken := s_taken s; s_sent := s_sent s;
      s_written := s_written s |}
(** The session takes a value of the queue and sends it. *)
| ev_sent s q1 v q2 now :
    s_q s = q1 ++ v :: q2 →
    ev_step s {| s_client := SentOne now v (s_client s); s_q := q1 ++ q2; s_disposed := s_disposed s;
      s_getting := s_getting s; s_stats := s_stats s; s_rcvd := s_rcvd s; s_log := s_log s; s_taken := s_taken s ++ [v];
      s_sent := s_sent s ++ [u64 (now - GetTimestamp v)]; s_written := s_written s |}
| ev_failed s q1 v q2 :
    s_q s = q1 ++ v :: q2 →
    ev_step s {| s_client := FailedSend (s_client s); s_q := q1 ++ q2; s_disposed := s_disposed s;
      s_getting := s_getting s; s_stats := s_stats s; s_rcvd := s_rcvd s; s_log := s_log s; s_taken := s_taken s ++ [v]; s_sent := s_sent s;
      s_written := s_written s |}
(** The session disposes of the queue. *)
| ev_dispose s :
    ev_step s {| s_client := s_client s; s_q := []; s_disposed := true; s_getting := s_getting s;
      s_stats := s_stats s; s_rcvd := s_rcvd s; s_log := s_log s; s_taken := s_taken s; s_sent := s_sent s; s_written := s_written s |}.

Definition ev_reach (e : EventClient) : Sys → Prop := rtc ev_step (started e).
End events.

(** ** The lock of the counters

    The accesses to the map [counters] inside an iteration, with the calls of
    [countersMutex] around them.  Go ends the process when a goroutine writes
    a map while another writes or iterates over it. *)
Module Locks.
Inductive action := Lock | Unlock | RLock | RUnlock | WriteBegin | WriteEnd | ReadBegin | ReadEnd.

(** [get_events] for an event: it reads and writes MISSED, for a dropped one
    DROPPED as well in the same way. *)
Definition count_missed : list action :=
  [Lock; ReadBegin; ReadEnd; Unlock; RLock; WriteBegin; WriteEnd; RUnlock].
(** [compute_latency] once the ring is full. *)
Definition count_latency : list action := [RLock; WriteBegin; WriteEnd; RUnlock].
(** The main loop of [update_stats]: the map itself, not a copy, is taken under
    the lock and iterated over after it. *)
Definition read_counters : list action := [Lock; Unlock; ReadBegin; ReadEnd].

Record RWMutex := { readers : nat; writer : bool }.
Record locks := { mutex : RWMutex; writing : nat; reading : nat; get_pc : list action; stats_pc : list action }.

(** What one action does, when it does not block. *)
Definition act (a : action) (m : RWMutex) (w r : nat) : option (RWMutex * nat * nat) :=
  match a with
  | Lock => if writer m || negb (bool_decide (readers m = 0)) then None
            else Some ({| readers := 0; writer := true |}, w, r)
  | Unlock => Some ({| readers := readers m; writer := false |}, w, r)
  | RLock => if writer m then None else Some ({| readers := S (readers m); writer := false |}, w, r)
  | RUnlock => Some ({| readers := pred (readers m); writer := writer m |}, w, r)
  | WriteBegin => Some (m, S w, r)
  | WriteEnd => Some (m, pred w, r)
  | ReadBegin => Some (m, w, S r)
  | ReadEnd => Some (m, w, pred r)
  end.

Inductive lstep : locks → locks → Prop :=
| l_get s a rest m w r :
    get_pc s = a :: rest → act a (mutex s) (writing s) (reading s) = Some (m, w, r) →
    lstep s {| mutex := m; writing := w; reading := r; get_pc := rest; stats_pc := stats_pc s |}
| l_stats s a rest m w r :
    stats_pc s = a :: rest → act a (mutex s) (writing s) (reading s) = Some (m, w, r) →
    lstep s {| mutex := m; writing := w; reading := r; get_pc := get_pc s; stats_pc := rest |}.

(** The accesses at which the run-time system ends the process. *)
Definition fatal (s : locks) : Prop := 2 ≤ writing s ∨ (1 ≤ writing s ∧ 1 ≤ reading s).
End Locks.
