(* ===== verification/EventsFacts.v ===== *)
(** * What the event client promises

    [event_params_bounded]: the parameters of a subscription stay within their
    limits.  [events_accounted]: in every interleaving of the goroutines and
    the session each received event is queued, counted as dropped, ignored as
    a test, or the one at which the routine ends; what was queued is what the
    session took and what is still in the queue; and the counters say how
    many.  [latency_average]: the latency that is reported is the average of
    the last ten that were measured.  [counters_not_loaded] and
    [counters_map_fatal] state two defects. *)
From stdpp Require Import base gmap list strings pretty.
From S2P Require Import Prelude GoStrings Gnmi Json DbConn DbClient Events.

(** ** Parameters *)

Definition params_ok (p : Params) : Prop :=
  (PQ_MIN_SIZE ≤ p_qsize p ≤ PQ_MAX_SIZE)%Z ∧ Forall (λ h, h ≤ HEARTBEAT_MAX)%Z (p_heartbeats p).

Lemma param_step_ok p kv : params_ok p → params_ok (param_step p kv).
Proof.
  destruct kv as [k v]. intros [Hq Hh]. unfold param_step, params_ok, clamp_qsize, clamp_heartbeat, PQ_MIN_SIZE, PQ_MAX_SIZE in *.
  repeat case_bool_decide; destruct (Atoi v); repeat case_bool_decide; simpl; try (split; [lia|done]);
    rewrite Forall_app, Forall_singleton; unfold HEARTBEAT_MAX in *; (split; [lia|split; [done|lia]]).
Qed.

Lemma foldl_inv {A B} (P : A → Prop) (f : A → B → A) a l :
  (∀ a b, P a → P (f a b)) → P a → P (foldl f a l).
Proof. intros Hf. revert a. induction l as [|b l IH]; intros a Ha; simpl; auto. Qed.

Lemma event_params_ok `{MapRange} path : params_ok (event_params path).
Proof.
  unfold event_params. apply foldl_inv; [|split; [vm_compute; intuition discriminate|constructor]].
  intros p e Hp. apply foldl_inv; [|done]. apply param_step_ok.
Qed.

(** Whatever the request asks for, the queue of an event subscription holds
    between 1024 and 102400 events, every heartbeat interval handed to the
    event library is at most 600 seconds, and the client starts with all its
    counters at zero. *)
Theorem event_params_bounded `{MapRange} paths prefix :
  let '(e, p) := NewEventClient paths prefix in
  (PQ_MIN_SIZE ≤ pq_max e ≤ PQ_MAX_SIZE)%Z ∧
  Forall (λ h, h ≤ HEARTBEAT_MAX)%Z (p_heartbeats p) ∧
  dom (counters e) = {[MISSED; DROPPED; LATENCY]} ∧ (∀ k, count (counters e) k = 0%Z).
Proof.
  unfold NewEventClient. destruct (event_params_ok (last paths)) as [Hq Hh]. split; [done|]. split; [done|].
  split; [vm_compute; reflexivity|]. intros k. unfold count. simpl.
  destruct (decide (k = MISSED)) as [->|]; [reflexivity|].
  destruct (decide (k = DROPPED)) as [->|]; [reflexivity|].
  destruct (decide (k = LATENCY)) as [->|]; [reflexivity|].
  by rewrite !lookup_insert_ne, lookup_empty.
Qed.

(** ** Accounting *)
Section accounting.
Context {MR : MapRange} {JCo : JsonCodec}.

Definition missed_total (log : list (Evt_rcvd * outcome)) : Z :=
  foldr (λ '(evt, _) n, Missed_cnt evt + n)%Z 0%Z log.

Definition is_dropped (o : outcome) : bool := match o with DroppedEvt => true | _ => false end.
Definition dropped_total (log : list (Evt_rcvd * outcome)) : Z :=
  foldr (λ '(_, o) n, (if is_dropped o then 1 else 0) + n)%Z 0%Z log.

Definition queued_of (o : outcome) : option Value := match o with Queued v => Some v | _ => None end.
Definition queued (log : list (Evt_rcvd * outcome)) : list Value := omap (λ '(_, o), queued_of o) log.

(** What the log may say of an event. *)
Definition outcome_ok (e0 : EventClient) (x : Evt_rcvd * outcome) : Prop :=
  let '(evt, o) := x in
  match o with
  | Ignored => HasPrefix (Event_str evt) TEST_EVENT = true
  | Queued v => HasPrefix (Event_str evt) TEST_EVENT = false ∧
      ∃ jv, Marshal (event_json (Event_str evt)) = Some jv ∧
        v = data_value (Publish_epoch_ms evt) (ev_prefix e0) (ev_path e0) (JsonIetfVal jv)
  | DroppedEvt | Refused => HasPrefix (Event_str evt) TEST_EVENT = false
  | NotJson => HasPrefix (Event_str evt) TEST_EVENT = false ∧ Marshal (event_json (Event_str evt)) = None
  end.

(** What stays as it was made. *)
Definition same_setup (e0 e : EventClient) : Prop :=
  ev_prefix e = ev_prefix e0 ∧ ev_path e = ev_path e0 ∧ pq_max e = pq_max e0.

Definition accounted (e0 : EventClient) (s : Sys) : Prop :=
  same_setup e0 (s_client s) ∧
  (Z.of_nat (length (s_q s)) ≤ pq_max e0)%Z ∧
  count (counters (s_client s)) MISSED = u64 (missed_total (s_log s)) ∧
  count (counters (s_client s)) DROPPED = u64 (dropped_total (s_log s)) ∧
  Forall (outcome_ok e0) (s_log s) ∧
  (s_log s).*1 = s_rcvd s ∧
  (s_taken s ++ s_q s ⊆+ queued (s_log s) ∧
   (s_disposed s = false → s_taken s ++ s_q s ≡ₚ queued (s_log s))) ∧
  (Refused ∈ (s_log s).*2 → s_getting s = false).

Lemma u64_add a b : u64 (u64 a + b) = u64 (a + b).
Proof. unfold u64. apply Z.add_mod_idemp_l. done. Qed.

Lemma missed_total_app l1 l2 : missed_total (l1 ++ l2) = (missed_total l1 + missed_total l2)%Z.
Proof. induction l1 as [|[evt o] l1 IH]; simpl; [done|]. rewrite IH. lia. Qed.

Lemma dropped_total_app l1 l2 : dropped_total (l1 ++ l2) = (dropped_total l1 + dropped_total l2)%Z.
Proof. induction l1 as [|[evt o] l1 IH]; simpl; [done|]. rewrite IH. lia. Qed.

Lemma count_insert m k k' v : count (<[k := v]> m) k' = if decide (k = k') then v else count m k'.
Proof. unfold count. case_decide; subst; by rewrite ?lookup_insert_eq, ?lookup_insert_ne. Qed.

(** One iteration of [get_events]. *)
Lemma get_events_step_cases e disposed q rc evt e' q' more o :
  get_events_step e disposed q rc evt = (e', q', more, o) →
  same_setup e e' ∧ (is_Some o ↔ rc = 0%Z) ∧
  match o with
  | None => e' = e ∧ q' = q
  | Some o =>
      outcome_ok e (evt, o) ∧
      count (counters e') MISSED = u64 (count (counters e) MISSED + Missed_cnt evt) ∧
      count (counters e') DROPPED =
        (if is_dropped o then u64 (count (counters e) DROPPED + 1) else count (counters e) DROPPED) ∧
      (o = Refused → more = false ∧ disposed = true) ∧
      match o with
      | Queued v => q' = v :: q ∧ disposed = false ∧ (Z.of_nat (length q) < pq_max e)%Z
      | _ => q' = q
      end
  end.
Proof.
  assert (∀ (x : outcome), rc = 0%Z → (is_Some (Some x) ↔ rc = 0%Z)) as Hrc by done.
  unfold get_events_step. destruct (bool_decide_reflect (rc ≠ 0)%Z) as [Hne|H0%dec_stable].
  { intros [= <- <- <- <-]. split; [done|]. split; [|done]. split; [by intros []|done]. }
  destruct (HasPrefix (Event_str evt) TEST_EVENT) eqn:Ht.
  { intros [= <- <- <- <-]. simpl. by rewrite !count_insert. }
  case_bool_decide as Hl; simpl in Hl.
  - destruct (Marshal _) as [jv|] eqn:Hm.
    + destruct disposed; simpl; intros [= <- <- <- <-]; simpl; rewrite !count_insert.
      * done.
      * split; [done|]. split; [by apply Hrc|]. split; [|done]. split; [done|]. by exists jv.
    + intros [= <- <- <- <-]. simpl. by rewrite !count_insert.
  - intros [= <- <- <- <-]. simpl. by rewrite !count_insert.
Qed.

Lemma compute_latency_counts e :
  same_setup e (compute_latency e) ∧
  count (counters (compute_latency e)) MISSED = count (counters e) MISSED ∧
  count (counters (compute_latency e)) DROPPED = count (counters e) DROPPED.
Proof. unfold compute_latency. destruct (last_latency_full e); [|done]. simpl. by rewrite !count_insert. Qed.

Lemma stats_wait_client e conn e' pc : stats_wait_step e conn = (e', pc) → e' = compute_latency e.
Proof. unfold stats_wait_step. repeat case_match; by intros [= <- _]. Qed.

Lemma stats_run_client e db wr e' wr' ws : stats_run_step e db wr = (e', wr', ws) → e' = compute_latency e.
Proof. unfold stats_run_step. case_bool_decide; by intros [= <- _ _]. Qed.

Lemma accounted_client e0 s e pc ws :
  accounted e0 s → same_setup (s_client s) e →
  count (counters e) MISSED = count (counters (s_client s)) MISSED →
  count (counters e) DROPPED = count (counters (s_client s)) DROPPED →
  accounted e0 {| s_client := e; s_q := s_q s; s_disposed := s_disposed s; s_getting := s_getting s;
    s_stats := pc; s_rcvd := s_rcvd s; s_log := s_log s; s_taken := s_taken s; s_sent := s_sent s; s_written := ws |}.
Proof.
  intros ((? & ? & ?) & Hq & Hm & Hd & Hf & Hl & Hin & Hr) (? & ? & ?) Hm' Hd'.
  split; [split_and!; simpl; congruence|]. simpl.
  split; [done|]. split; [congruence|]. split; [congruence|]. done.
Qed.

Lemma accounted_take e0 s q1 v q2 e pc sent ws :
  accounted e0 s → s_q s = q1 ++ v :: q2 → same_setup (s_client s) e → counters e = counters (s_client s) →
  accounted e0 {| s_client := e; s_q := q1 ++ q2; s_disposed := s_disposed s; s_getting := s_getting s;
    s_stats := pc; s_rcvd := s_rcvd s; s_log := s_log s; s_taken := s_taken s ++ [v]; s_sent := sent; s_written := ws |}.
Proof.
  intros ((? & ? & ?) & Hq & Hm & Hd & Hf & Hl & Hin & Hr) Heq (? & ? & ?) Hc.
  split; [split_and!; simpl; congruence|]. simpl. rewrite Hc. rewrite Heq in Hq, Hin.
  split; [rewrite length_app in *; simpl in *; lia|]. do 4 (split; [done|]). split; [|done].
  by rewrite <- app_assoc, (Permutation_middle q1 q2 v : [v] ++ q1 ++ q2 ≡ₚ _).
Qed.

Lemma accounted_get e0 s rc evt e q more o :
  accounted e0 s → s_getting s = true →
  get_events_step (s_client s) (s_disposed s) (s_q s) rc evt = (e, q, more, o) →
  accounted e0 {| s_client := if more : bool then e else set_stopped e; s_q := q; s_disposed := s_disposed s;
      s_getting := more; s_stats := s_stats s;
      s_rcvd := s_rcvd s ++ (if bool_decide (rc = 0)%Z then [evt] else []);
      s_log := s_log s ++ match o with Some o => [(evt, o)] | None => [] end;
      s_taken := s_taken s; s_sent := s_sent s; s_written := s_written s |}.
Proof.
  intros ((Hp & Ha & Hx) & Hq & Hm & Hd & Hf & Hl & Hin & Hr) Hg Hs.
  apply get_events_step_cases in Hs as [(Hp' & Ha' & Hx') [Hrc Ho]]. rewrite Hp in Hp'. rewrite Ha in Ha'. rewrite Hx in Hx'.
  assert (Refused ∉ (s_log s).*2) as Hnr by (intros ?%Hr; congruence).
  assert (∀ P : EventClient → Prop, P e → P (set_stopped e) → P (if more then e else set_stopped e)) as Hif
    by (by destruct more).
  split; [apply Hif; by split_and!|]. simpl. destruct o as [o|].
  - destruct Ho as (Hok & HM & HD & Href & Hqo). rewrite missed_total_app, dropped_total_app. simpl.
    assert (outcome_ok e0 (evt, o)) as Hok' by (destruct o; simpl in *; rewrite ?Hp, ?Ha in Hok; done).
    rewrite bool_decide_true by (by apply Hrc).
    split; [|split; [|split; [|split; [|split; [|split]]]]].
    + destruct o; subst; try done. destruct Hqo as (-> & _ & ?). simpl. lia.
    + apply Hif; simpl; rewrite HM, Hm, u64_add; f_equal; lia.
    + apply Hif; simpl; rewrite HD; destruct (is_dropped o); rewrite Hd, ?u64_add; f_equal; lia.
    + apply Forall_app. split; [done|]. by constructor.
    + by rewrite fmap_app, Hl.
    + unfold queued. rewrite omap_app. simpl.
      destruct o; simpl; rewrite ?app_nil_r; subst; try done. destruct Hqo as (-> & Hdis & _).
      rewrite Hdis in *. destruct Hin as [_ Hin]. specialize (Hin eq_refl).
      assert (s_taken s ++ v :: s_q s ≡ₚ queued (s_log s) ++ [v]) as Hperm.
      { rewrite <- Hin. rewrite <- Permutation_middle. by rewrite <- Permutation_cons_append. }
      split; [by rewrite Hperm|done].
    + rewrite fmap_app. intros [?|Hex]%elem_of_app; [done|]. apply list_elem_of_singleton in Hex. by apply Href.
  - destruct Ho as [-> ->]. rewrite bool_decide_false by (by intros []%Hrc). rewrite !app_nil_r.
    split; [done|]. split; [by apply Hif|]. split; [by apply Hif|]. split; [exact Hf|]. split; [exact Hl|]. split; [exact Hin|].
    intros ?%Hr. congruence.
Qed.

Lemma accounted_step e0 s s' : accounted e0 s → ev_step s s' → accounted e0 s'.
Proof.
  intros Hs. destruct 1 as [s rc evt e q more o Hg Hst|s _|s conn e pc _ _ Hst|s db wr e wr' ws _ _ Hst|s|
    s q1 v q2 now Heq|s q1 v q2 Heq|s].
  - by eapply accounted_get.
  - by apply accounted_client.
  - apply stats_wait_client in Hst as ->. destruct (compute_latency_counts (s_client s)) as (? & ? & ?).
    by apply accounted_client.
  - apply stats_run_client in Hst as ->. destruct (compute_latency_counts (s_client s)) as (? & ? & ?).
    by apply accounted_client.
  - by apply accounted_client.
  - by eapply accounted_take.
  - by eapply accounted_take.
  - destruct Hs as (Hse & Hq & Hm & Hd & Hf & Hl & [Hin _] & Hr). split; [done|]. simpl.
    split; [pose proof (Nat2Z.is_nonneg (length (s_q s))); lia|]. do 4 (split; [done|]). split; [|done]. split; [|done].
    rewrite app_nil_r. etrans; [|exact Hin]. by apply submseteq_inserts_r.
Qed.

Lemma accounted_start paths prefix : accounted (NewEventClient paths prefix).1 (started (NewEventClient paths prefix).1).
Proof.
  destruct (event_params_ok (last paths)) as [[Hq _] _]. unfold PQ_MIN_SIZE in Hq.
  split; [done|]. simpl. split; [lia|]. do 2 (split; [reflexivity|]). split; [constructor|]. do 2 (split; [done|]). by intros ?%elem_of_nil.
Qed.

Lemma reach_accounted e0 s : accounted e0 (started e0) → ev_reach e0 s → accounted e0 s.
Proof. intros H0 Hr. eapply (rtc_ind_r (accounted e0)); [done| |done]. intros; by eapply accounted_step. Qed.

(** C32. In every interleaving of the goroutines of an event subscription with
    the session: the queue never holds more than its limit.  Each event that
    was received, in order, is a test event and ignored, or queued as the JSON
    of the event, or counted as dropped, or the one at which the routine ends
    because the queue is disposed; there is no other outcome, since encoding
    a decoded event does not fail.  What was queued is, with multiplicity, what
    the session has taken from the queue and what is still in it, until the
    session disposes of the queue.  The counters of missed and dropped events
    are their totals modulo 2^64. *)
Theorem events_accounted paths prefix s :
  let e0 := (NewEventClient paths prefix).1 in
  (∀ text, is_Some (Marshal (event_json text))) →
  ev_reach e0 s →
  (Z.of_nat (length (s_q s)) ≤ pq_max e0)%Z ∧
  count (counters (s_client s)) MISSED = u64 (missed_total (s_log s)) ∧
  count (counters (s_client s)) DROPPED = u64 (dropped_total (s_log s)) ∧
  (s_log s).*1 = s_rcvd s ∧
  Forall (outcome_ok e0) (s_log s) ∧ NotJson ∉ (s_log s).*2 ∧
  s_taken s ++ s_q s ⊆+ queued (s_log s) ∧
  (s_disposed s = false → s_taken s ++ s_q s ≡ₚ queued (s_log s)) ∧
  (Refused ∈ (s_log s).*2 → s_getting s = false).
Proof.
  intros e0 Hmarshal Hr.
  destruct (reach_accounted e0 s (accounted_start paths prefix) Hr) as (_ & Hq & Hm & Hd & Hf & Hl & [Hin Hopen] & Hrf).
  split_and!; try done. intros ([evt o] & Ho & Hin')%list_elem_of_fmap. simpl in Ho. subst o.
  rewrite Forall_forall in Hf. destruct (Hf _ Hin') as [_ Hn]. destruct (Hmarshal (Event_str evt)) as [? Hsome]. congruence.
Qed.
End accounting.

(** ** The ring of latencies *)
Section latencies.
Context {MR : MapRange} {JCo : JsonCodec}.

(** The ring after the latencies [sent]: until it is full they lie at its
    start; then it holds the last ten, the oldest at the index. *)
Definition ring (sent : list Z) (e : EventClient) : Prop :=
  length (last_latencies e) = LATENCY_LIST_SIZE ∧ last_latency_index e < LATENCY_LIST_SIZE ∧
  if last_latency_full e
  then LATENCY_LIST_SIZE ≤ length sent ∧
       drop (last_latency_index e) (last_latencies e) ++ take (last_latency_index e) (last_latencies e)
       = drop (length sent - LATENCY_LIST_SIZE) sent
  else last_latency_index e = length sent ∧
       last_latencies e = sent ++ replicate (LATENCY_LIST_SIZE - length sent) 0%Z.

Lemma rotate_insert (l : list Z) i x a rest :
  i < length l → drop i l ++ take i l = a :: rest →
  drop (S i) (<[i := x]> l) ++ take (S i) (<[i := x]> l) = rest ++ [x].
Proof.
  intros Hi Hrot. destruct (lookup_lt_is_Some_2 l i Hi) as [b Hb].
  rewrite (drop_S l b i Hb) in Hrot. injection Hrot as _ <-.
  rewrite drop_insert_lt, (take_S_r _ _ x), take_insert_ge by (lia || by apply list_lookup_insert_eq).
  by rewrite app_assoc.
Qed.

Lemma rotate_wrap (l : list Z) n : length l = n → drop 0 l ++ take 0 l = drop n l ++ take n l.
Proof. intros <-. by rewrite drop_all, firstn_all, app_nil_r. Qed.

Lemma ring_sent sent now v e :
  ring sent e → ring (sent ++ [u64 (now - GetTimestamp v)]) (SentOne now v e).
Proof.
  unfold ring, SentOne. intros (Hl & Hi & Hr). simpl. set (x := u64 _). rewrite length_insert, length_app, Hl. simpl.
  assert (∀ rest a, drop (last_latency_index e) (last_latencies e) ++ take (last_latency_index e) (last_latencies e) = a :: rest →
    drop (S (last_latency_index e)) (<[last_latency_index e := x]> (last_latencies e)) ++
    take (S (last_latency_index e)) (<[last_latency_index e := x]> (last_latencies e)) = rest ++ [x]) as Hrot.
  { intros rest a. apply rotate_insert. lia. }
  assert (last_latency_full e = true → ∃ a rest,
    drop (last_latency_index e) (last_latencies e) ++ take (last_latency_index e) (last_latencies e) = a :: rest ∧
    rest ++ [x] = drop (length sent + 1 - LATENCY_LIST_SIZE) (sent ++ [x])) as Hfull.
  { intros Hf. rewrite Hf in Hr. destruct Hr as [Hn Hr]. unfold LATENCY_LIST_SIZE in *.
    destruct (drop (length sent - 10) sent) as [|a rest] eqn:Ed.
    { apply (f_equal length) in Ed. rewrite length_drop in Ed. simpl in Ed. lia. }
    exists a, rest. split; [done|]. replace (length sent + 1 - 10) with (S (length sent - 10)) by lia.
    rewrite drop_app_le by lia. rewrite <- Nat.add_1_r, <- drop_drop, Ed. done. }
  split; [done|]. case_bool_decide as Hw.
  - split; [unfold LATENCY_LIST_SIZE; lia|]. unfold LATENCY_LIST_SIZE in *.
    assert (last_latency_index e = 9) as Hi9 by lia. rewrite Hi9 in *. destruct (last_latency_full e) eqn:Hf.
    + destruct (Hfull eq_refl) as (a & rest & Ha & <-). rewrite <- (Hrot _ _ Ha).
      split; [destruct Hr; lia|]. apply rotate_wrap. by rewrite length_insert.
    + destruct Hr as [Hn Hr]. split; [lia|]. rewrite <- Hn. simpl. rewrite app_nil_r, Hr, <- Hn. simpl.
      rewrite insert_app_r_alt by lia. by rewrite <- Hn.
  - split; [lia|]. destruct (last_latency_full e) eqn:Hf.
    + destruct (Hfull eq_refl) as (a & rest & Ha & <-). split; [destruct Hr as [Hn _]; lia|by eapply Hrot].
    + destruct Hr as [Hn Hr]. split; [lia|]. rewrite Hr, Hn, insert_app_r_alt by lia.
      rewrite Nat.sub_diag, <- app_assoc. f_equal. unfold LATENCY_LIST_SIZE in *.
      destruct (10 - length sent) as [|k] eqn:Ek; [lia|]. simpl. f_equal. f_equal. lia.
Qed.

(** Only [SentOne] touches the ring. *)
Definition same_ring (e e' : EventClient) : Prop :=
  last_latencies e' = last_latencies e ∧ last_latency_index e' = last_latency_index e ∧
  last_latency_full e' = last_latency_full e.

Lemma ring_same sent e e' : same_ring e e' → ring sent e → ring sent e'.
Proof. intros (H1 & H2 & H3). unfold ring. by rewrite H1, H2, H3. Qed.

Lemma get_events_ring e disposed q rc evt e' q' more o :
  get_events_step e disposed q rc evt = (e', q', more, o) → same_ring e e'.
Proof. unfold get_events_step. repeat case_match; by intros [= <- _ _ _]. Qed.

Lemma compute_latency_ring e : same_ring e (compute_latency e).
Proof. unfold compute_latency. by case_match. Qed.

Lemma ring_step s s' : ev_step s s' → ring (s_sent s) (s_client s) → ring (s_sent s') (s_client s').
Proof.
  destruct 1 as [s rc evt e q more o _ Hst|s _|s conn e pc _ _ Hst|s db wr e wr' ws _ _ Hst|s|
    s q1 v q2 now _|s q1 v q2 _|s]; simpl; try (by apply ring_same).
  - apply get_events_ring in Hst. by destruct more; apply ring_same.
  - apply stats_wait_client in Hst as ->. apply ring_same, compute_latency_ring.
  - apply stats_run_client in Hst as ->. apply ring_same, compute_latency_ring.
  - apply ring_sent.
Qed.

Lemma reach_ring paths prefix s :
  ev_reach (NewEventClient paths prefix).1 s → ring (s_sent s) (s_client s).
Proof.
  intros Hr. eapply (rtc_ind_r (λ s, ring (s_sent s) (s_client s)));
    [|by intros; eapply ring_step|exact Hr].
  split_and!; [done|unfold LATENCY_LIST_SIZE; simpl; lia|done].
Qed.

Definition sum (l : list Z) : Z := foldr Z.add 0%Z l.

Lemma sum_app l1 l2 : sum (l1 ++ l2) = (sum l1 + sum l2)%Z.
Proof. unfold sum. induction l1 as [|x l1 IH]; simpl; [done|]. rewrite IH. lia. Qed.

Lemma latency_total_sum l : Forall (λ v, 0 ≤ v)%Z l → latency_total l = u64 (sum l).
Proof.
  unfold latency_total. rewrite <- (reverse_involutive l). generalize (reverse l). clear l. intros l.
  induction l as [|v l IH]; [done|]. rewrite reverse_cons, Forall_app, Forall_singleton, foldl_app. intros [Hl Hv].
  simpl. rewrite IH by done. rewrite sum_app. simpl. case_bool_decide.
  - rewrite u64_add. f_equal. lia.
  - f_equal. lia.
Qed.

Lemma sent_nonneg e0 s : ev_reach e0 s → Forall (λ v, 0 ≤ v)%Z (s_sent s).
Proof.
  intros Hr. apply (rtc_ind_r (R := ev_step) (λ s, Forall (λ v, 0 ≤ v)%Z (s_sent s)) (started e0)); [constructor| |exact Hr].
  intros s1 s2 _ [] Hf; simpl; try done. apply Forall_app. split; [done|]. constructor; [|constructor].
  unfold u64. by apply Z.mod_pos_bound.
Qed.

(** In every interleaving, once ten values have been sent the latency that
    [update_stats] computes is the average of the last ten, in milliseconds;
    before that it is not touched. *)
Theorem latency_average paths prefix s :
  let e0 := (NewEventClient paths prefix).1 in
  let n := length (s_sent s) in
  ev_reach e0 s →
  compute_latency (s_client s) =
  if bool_decide (LATENCY_LIST_SIZE ≤ n)
  then set_counters (<[LATENCY := (u64 (sum (drop (n - LATENCY_LIST_SIZE) (s_sent s))) / 10 / 1000 / 1000)%Z]>
                       (counters (s_client s))) (s_client s)
  else s_client s.
Proof.
  intros e0 n Hr. pose proof (sent_nonneg e0 s Hr) as Hn. destruct (reach_ring paths prefix s Hr) as (Hl & Hi & Hring).
  unfold compute_latency. destruct (last_latency_full (s_client s)).
  - destruct Hring as [Hlen Hrot]. rewrite bool_decide_true by done. do 2 f_equal. unfold n. rewrite <- Hrot.
    assert (Forall (λ v, 0 ≤ v)%Z (drop (last_latency_index (s_client s)) (last_latencies (s_client s)) ++
      take (last_latency_index (s_client s)) (last_latencies (s_client s)))) as Hp by (rewrite Hrot; by apply Forall_drop).
    rewrite Permutation_app_comm, take_drop in Hp. rewrite latency_total_sum by done.
    rewrite sum_app, Z.add_comm, <- sum_app, take_drop. done.
  - destruct Hring as [Hidx _]. by rewrite bool_decide_false by lia.
Qed.

(** ** The cumulative counters *)

Lemma load_counters_empty c : load_counters c = {[LATENCY := 0%Z]}.
Proof.
  assert (∀ db key, load_key c db key = db) as Hk.
  { intros db key. unfold load_key. by destruct (HGetAll c key). }
  unfold load_counters, STATS_CUMULATIVE_KEYS. simpl. by rewrite !Hk.
Qed.

Lemma reach_db e0 s db wr : ev_reach e0 s → s_stats s = StatsRun db wr → db = {[LATENCY := 0%Z]}.
Proof.
  intros Hr. revert db wr. apply (rtc_ind_r (R := ev_step) (λ s, ∀ db wr, s_stats s = StatsRun db wr → db = {[LATENCY := 0%Z]}) (started e0));
    [done| |exact Hr]. clear s Hr. intros s1 s2 _ Hst IH db wr. destruct Hst; simpl; eauto; try done.
  - intros Hpc. subst pc. match goal with H : stats_wait_step _ _ = _ |- _ => unfold stats_wait_step in H end.
    repeat case_match; simplify_eq. apply load_counters_empty.
  - intros [= <- <-]. eauto.
Qed.

(** The counters that COUNTERS_DB holds from earlier subscriptions are never
    added: in every interleaving, whatever the database answers, what
    [update_stats] writes for the missed events is the count of this client
    alone. *)
Theorem counters_not_loaded paths prefix s db wr :
  ev_reach (NewEventClient paths prefix).1 s → s_stats s = StatsRun db wr →
  count (stats_values (s_client s) db) MISSED = u64 (missed_total (s_log s)).
Proof.
  intros Hr Hs. rewrite (reach_db _ _ _ _ Hr Hs).
  destruct (reach_accounted _ s (accounted_start paths prefix) Hr) as (_ & _ & Hm & _).
  unfold stats_values. rewrite count_insert. simpl. rewrite <- Hm. unfold count. rewrite map_lookup_imap.
  unfold count in Hm. destruct (counters (s_client s) !! MISSED) as [n|]; simpl in *; [|done].
  rewrite Hm. unfold u64. rewrite Z.add_0_r. by apply Z.mod_mod.
Qed.
End latencies.

(** ** The lock of the counters *)
Module LocksFacts.
Import Locks.

Definition begin_locks (g st : list action) : locks :=
  {| mutex := {| readers := 0; writer := false |}; writing := 0; reading := 0; get_pc := g; stats_pc := st |}.

Ltac run_lock c := eapply rtc_l; [eapply c; reflexivity|]; cbn [get_pc stats_pc mutex writing reading readers writer].

(** The map of counters is written under the read side of its lock and
    iterated over without it: [get_events] and [compute_latency] can be inside
    a write of the map at once, and [get_events] can write it while
    [update_stats] iterates over it; Go ends the process in either case. *)
Theorem counters_map_fatal :
  (∃ s, rtc lstep (begin_locks count_missed count_latency) s ∧ 2 ≤ writing s ∧ fatal s) ∧
  (∃ s, rtc lstep (begin_locks count_missed read_counters) s ∧ 1 ≤ writing s ∧ 1 ≤ reading s ∧ fatal s).
Proof.
  split; eexists; split.
  - do 4 run_lock l_get. run_lock l_get. run_lock l_stats. run_lock l_get. run_lock l_stats. apply rtc_refl.
  - unfold fatal. simpl. lia.
  - do 4 run_lock l_get. run_lock l_stats. run_lock l_stats. run_lock l_get. run_lock l_get. run_lock l_stats. apply rtc_refl.
  - unfold fatal. simpl. lia.
Qed.
End LocksFacts.

(** ** Concrete runs *)
Module EventsExample.
Definition range0 : MapRange := canonical_range.
Definition codec0 : JsonCodec := {| Unmarshal := λ _, Some (JObj ∅); Marshal := λ _, Some "{}" |}.
Local Existing Instance range0.
Local Existing Instance codec0.

(** EVENTS with [qsize=1] in the path: the queue gets the least size. *)
Definition path0 : Path := {| path_origin := ""; path_target := "";
  path_elem := [{| elem_name := "all"; elem_key := {["qsize" := "1"; "heartbeat" := "3600"]} |}] |}.
Definition client0 : EventClient := (NewEventClient [path0] None).1.

Example params0 : pq_max client0 = 1024%Z ∧ p_heartbeats (NewEventClient [path0] None).2 = [600%Z].
Proof. split; reflexivity. Qed.

Definition evt0 : Evt_rcvd := {| Event_str := "{}"; Missed_cnt := 3; Publish_epoch_ms := 1000 |}.

(** A server that holds a count of 41 for every key. *)
Definition conn0 : Conn := {|
  Ping := None; Keys := λ _, Ok []; HGetAll := λ _, Ok {["value" := "41"]};
  HGetF := λ _ _, Ok "41"; Exists := λ _, Ok 1%Z; HExists := λ _ _, Ok true
|}.

(** An event is received and sent, [n] times. *)
Lemma rounds n : ∃ s, ev_reach client0 s ∧ s_q s = [] ∧ s_getting s = true ∧ s_disposed s = false ∧
  stopped (s_client s) = false ∧ pq_max (s_client s) = 1024%Z ∧ length (s_sent s) = n.
Proof.
  induction n as [|n (s & Hr & Hq & Hg & Hd & Hst & Hmax & Hl)]; [exists (started client0); by split_and!; try apply rtc_refl|].
  destruct (get_events_step (s_client s) (s_disposed s) (s_q s) 0 evt0) as [[[e q] more] o] eqn:Hget.
  pose proof Hget as Hget'. unfold get_events_step in Hget. rewrite Hq, Hd in Hget. simpl in Hget.
  rewrite Hmax in Hget. simpl in Hget. injection Hget as <- <- Hmore <-. rewrite Hst in Hmore. simpl in Hmore. subst more.
  eexists. split; [eapply rtc_r; [eapply rtc_r; [exact Hr|]|]|].
  - eapply (ev_get s 0 evt0); [exact Hg|exact Hget'].
  - eapply (ev_sent _ [] _ [] 9000000). reflexivity.
  - simpl. split_and!; [done..|]. rewrite length_app, Hl. simpl. lia.
Qed.

Definition step0 (s : Sys) : Sys :=
  let '(e, q, more, o) := get_events_step (s_client s) (s_disposed s) (s_q s) 0 evt0 in
  {| s_client := if more : bool then e else set_stopped e; s_q := q; s_disposed := s_disposed s;
     s_getting := more; s_stats := s_stats s;
     s_rcvd := s_rcvd s ++ [evt0];
     s_log := s_log s ++ match o with Some o => [(evt0, o)] | None => [] end;
     s_taken := s_taken s; s_sent := s_sent s; s_written := s_written s |}.
Definition s1 : Sys := step0 (started client0).
Definition s2 : Sys := {|
  s_client := compute_latency (s_client s1); s_q := s_q s1; s_disposed := false; s_getting := true;
  s_stats := StatsRun (load_counters conn0) None; s_rcvd := s_rcvd s1; s_log := s_log s1; s_taken := [];
  s_sent := []; s_written := [] |}.

Lemma reach_s1 : ev_reach client0 s1.
Proof. apply rtc_once. eapply (ev_get (started client0) 0 evt0); reflexivity. Qed.
Lemma reach_s2 : ev_reach client0 s2.
Proof. eapply rtc_r; [apply reach_s1|]. eapply (ev_stats_wait s1 (Some conn0)); reflexivity. Qed.

Lemma events_accounted_witness :
  length (s_log s1) = 1 ∧
  (Z.of_nat (length (s_q s1)) ≤ pq_max client0)%Z ∧
  count (counters (s_client s1)) MISSED = u64 (missed_total (s_log s1)) ∧
  count (counters (s_client s1)) DROPPED = u64 (dropped_total (s_log s1)) ∧
  (s_log s1).*1 = s_rcvd s1 ∧
  Forall (outcome_ok client0) (s_log s1) ∧ NotJson ∉ (s_log s1).*2 ∧
  s_taken s1 ++ s_q s1 ⊆+ queued (s_log s1) ∧
  (s_disposed s1 = false → s_taken s1 ++ s_q s1 ≡ₚ queued (s_log s1)) ∧
  (Refused ∈ (s_log s1).*2 → s_getting s1 = false).
Proof.
  split; [reflexivity|]. apply (events_accounted [path0] None s1); [|exact reach_s1]. intros text. by eexists.
Defined.

Lemma latency_average_witness :
  ∃ s, length (s_sent s) = 12 ∧
  compute_latency (s_client s) =
  set_counters (<[LATENCY := (u64 (sum (drop 2 (s_sent s))) / 10 / 1000 / 1000)%Z]>
                  (counters (s_client s))) (s_client s).
Proof.
  destruct (rounds 12) as (s & Hr & _ & _ & _ & _ & _ & Hl). exists s. split; [exact Hl|].
  pose proof (latency_average [path0] None s Hr) as H. cbn zeta in H. rewrite Hl in H. exact H.
Defined.

Lemma counters_not_loaded_witness :
  HGetAll conn0 MISSED = Ok {["value" := "41"]} ∧
  count (stats_values (s_client s2) (load_counters conn0)) MISSED = u64 (missed_total (s_log s2)) ∧
  u64 (missed_total (s_log s2)) = 3%Z.
Proof.
  split; [reflexivity|]. split; [|reflexivity].
  exact (counters_not_loaded [path0] None s2 (load_counters conn0) None reach_s2 eq_refl).
Defined.
End EventsExample.
