(* ===== verification/Debug.v ===== *)
(** * Commands of the Debug service (src/pkg/gnoi/debug)

    A Debug request is a shell command.  It is parsed into the syntax tree of
    mvdan.cc/sh, which [ValidateCommand] walks: the tree is rejected when it
    holds a dangerous node anywhere, and its statements have to be pipelines of
    simple calls of commands on a whitelist.  The parser and the execution of
    commands are parameters; the tree has the node types the source looks at,
    and [NOther] for the rest with its children. *)
From stdpp Require Import base list strings sets.
From S2P Require Import Prelude GoStrings Gnmi.

(** ** Syntax trees *)

Inductive BinOp := Pipe | AndStmt | OrStmt | PipeAll.

Global Instance BinOp_eq_dec : EqDecision BinOp.
Proof. solve_decision. Defined.

Inductive node :=
| NStmt (negated background coprocess semicolon : bool) (cmd : option node) (redirs : list node)
| NCall (assigns : list node) (args : list (list node))     (* each argument by its parts *)
| NBinary (op : BinOp) (x y : node)
| NWord (parts : list node)
| NLit (value : string)
| NSglQuoted (value : string)
| NDblQuoted (parts : list node)
| NSubshell (children : list node)
| NCmdSubst (children : list node)
| NArithmExp (children : list node)
| NRedirect (children : list node)
| NParamExp (children : list node)
| NExtGlob (children : list node)
| NOther (children : list node).

(** [syntax.File]: its statements. *)
Notation File := (list node).

(** ** Dangerous nodes *)

Definition dangerousCharSet : string := "~$`&;<>(){}[]*?".

(** [strings.ContainsAny] *)
Definition ContainsAny (s chars : string) : bool :=
  existsb (λ c, bool_decide (c ∈ String.list_ascii_of_string chars)) (String.list_ascii_of_string s).

(** [syntax.Walk] with the function of [walkForDangerousNodeTypes]: children of
    a node that is unsafe are not visited, and nothing resets the flag. *)
Fixpoint walk_unsafe (n : node) : bool :=
  match n with
  | NSubshell _ | NCmdSubst _ | NArithmExp _ | NRedirect _ | NParamExp _ | NExtGlob _ => true
  | NBinary op x y => if bool_decide (op = Pipe) then walk_unsafe x || walk_unsafe y else true
  | NLit value => ContainsAny value dangerousCharSet
  | NSglQuoted _ => false
  | NStmt _ _ _ _ cmd redirs =>
      match cmd with Some c => walk_unsafe c | None => false end || existsb walk_unsafe redirs
  | NCall assigns args => existsb walk_unsafe assigns || existsb (existsb walk_unsafe) args
  | NWord parts | NDblQuoted parts | NOther parts => existsb walk_unsafe parts
  end.
Definition walkForDangerousNodeTypes (f : File) : bool := existsb walk_unsafe f.

(** ** Statements *)

(** [validateWordParts] on one part, and on all. *)
Fixpoint valid_part (part : node) : option string :=
  match part with
  | NLit _ | NSglQuoted _ => None
  | NDblQuoted parts =>
      (fix go l := match l with
                   | [] => None
                   | p :: l => match valid_part p with Some e => Some e | None => go l end
                   end) parts
  | _ => Some "is invalid type"
  end.
Fixpoint validateWordParts (parts : list node) : option string :=
  match parts with
  | [] => None
  | p :: parts => match valid_part p with Some e => Some e | None => validateWordParts parts end
  end.

Fixpoint validate_words (args : list (list node)) : option string :=
  match args with
  | [] => None
  | w :: args => match validateWordParts w with Some e => Some e | None => validate_words args end
  end.

(** [Word.Lit]: the text of a word that is made of literals only, else the
    empty string. *)
Fixpoint all_lits (parts : list node) : option string :=
  match parts with
  | [] => Some ""
  | NLit v :: parts => s ← all_lits parts; Some (v +:+ s)
  | _ :: _ => None
  end.
Definition word_Lit (w : list node) : string := default "" (all_lits w).

Definition sliceContains (slice : list string) (str : string) : bool := bool_decide (str ∈ slice).

Fixpoint validateStatement (statement : node) (whitelist : list string) : option string :=
  match statement with
  | NStmt negated background coprocess semicolon cmd redirs =>
      if negated then Some "negation '!' not allowed"
      else if background then Some "background '&' not allowed"
      else if coprocess then Some "coprocess '|&' not allowed"
      else if semicolon then Some "multiple/terminated commands not allowed"
      else if bool_decide (redirs ≠ []) then Some "redirects not allowed"
      else match cmd with
      | Some (NCall assigns args) =>
          if bool_decide (assigns ≠ []) then Some "inline assignments not allowed"
          else match args with
          | [] => Some "empty call"
          | name :: _ =>
              match validate_words args with
              | Some e => Some e
              | None => if sliceContains whitelist (word_Lit name) then None else Some "is not whitelisted"
              end
          end
      | Some (NBinary op x y) =>
          if bool_decide (op ≠ Pipe) then Some "only simple commands and pipelines allowed"
          else match validateStatement x whitelist with
               | Some e => Some e
               | None => validateStatement y whitelist
               end
      | _ => Some "only simple commands and pipelines allowed"
      end
  | _ => Some "only simple commands and pipelines allowed"
  end.

Fixpoint validate_statements (stmts : list node) (whitelist : list string) : option string :=
  match stmts with
  | [] => None
  | s :: stmts => match validateStatement s whitelist with Some e => Some e | None => validate_statements stmts whitelist end
  end.

(** ** Whitelists *)

Definition readCommands : list string :=
  ["ls"; "cat"; "echo"; "ping"; "grep"; "dmesg"; "zgrep"; "tail"; "teamshow"; "ps"; "uptime"; "awk"; "show"; "TSC"].
Definition writeCommands : list string :=
  ["docker"; "reboot"; "mv"; "systemctl"; "ip"; "ifconfig"; "TSA"; "TSB"; "sonic-installer"; "sonic_installer";
   "config"; "tcpdump"; "acl-loader"; "counterpoll"; "bcmcmd"; "redis-cli"; "sonic-db-cli"; "sonic-clear"; "wc";
   "portstat"; "pfcwd"; "lspci"; "pcieutil"; "include"; "vtysh"].
Definition defaultWhitelists : list string * list string := (readCommands, writeCommands ++ readCommands).

(** The file, decoded: a key that is missing is [None]. *)
Record WhitelistFile := { ReadWhitelist : option (list string); WriteWhitelist : option (list string) }.

(** [file] is [None] when the file cannot be read or decoded. *)
Definition ConstructWhitelists (file : option WhitelistFile) : list string * list string :=
  match file with
  | Some f =>
      match ReadWhitelist f, WriteWhitelist f with
      | Some r, Some w => (r, w ++ r)
      | _, _ => defaultWhitelists
      end
  | None => defaultWhitelists
  end.

Section debug.
Context (Parse : string → option File).

Definition ValidateCommand (input : string) (whitelist : list string) : option string :=
  match Parse input with
  | None => Some "parse error"
  | Some ast =>
      if walkForDangerousNodeTypes ast then Some "contains unsafe statements"
      else if bool_decide (ast = []) then Some "no statements found"
      else validate_statements ast whitelist
  end.

(** ** The request *)

Inductive DebugMode := MODE_UNSPECIFIED | MODE_SHELL | MODE_CLI | MODE_OTHER.

Record DebugRequest := {
  dr_command : option string;
  dr_mode : DebugMode;
  dr_byte_limit : Z;
  dr_role_account : string;
  dr_timeout : Z
}.

Inductive DebugResponse := RespRequest (r : DebugRequest) | RespData (s : string) | RespStatus (code : Z).

(** A run of the command on the host: the chunks it writes and its exit code,
    or the error that it could not be run; [send_ok] is whether the first
    message could be sent. *)
Record CommandRun := { run_output : list string; run_exit : res string Z }.
Context (runCommand : string → Z → string → CommandRun).

(** The responses of a request and its error.  What the two channels carry is
    sent as it comes: [run_output] is one interleaving of it. *)
Definition HandleCommandRequest (req : option DebugRequest) (send_ok : bool) (whitelist : list string)
  : list DebugResponse * option (Code * string) :=
  match req with
  | None => ([], Some (InvalidArgument, "request cannot be nil"))
  | Some req =>
      match dr_command req with
      | None => ([], Some (InvalidArgument, "command cannot be nil"))
      | Some command =>
          match ValidateCommand command whitelist with
          | Some e => ([], Some (PermissionDenied, "command failed validation"))
          | None =>
              match dr_mode req with
              | MODE_CLI =>
                  if send_ok then
                    let run := runCommand (dr_role_account req) (dr_byte_limit req) command in
                    let data := RespData <$> run_output run in
                    match run_exit run with
                    | Err e => (RespRequest req :: data, Some (FailedPrecondition, "Failed to run command"))
                    | Ok code => (RespRequest req :: data ++ [RespStatus code], None)
                    end
                  else ([], Some (FailedPrecondition, "Failed to run command"))
              | MODE_SHELL => ([], Some (Unimplemented, "mode SHELL is currently unimplemented"))
              | MODE_UNSPECIFIED => ([], Some (InvalidArgument, "mode cannot be UNSPECIFIED"))
              | MODE_OTHER => ([], None)
              end
          end
      end
  end.
End debug.

(** ** Running a command (src/internal/exec/command.go)

    The command is one argument of a shell that systemd runs as the account of
    the role, in the namespaces of the host.  What the two goroutines read from
    the pipes is put in the channels piece by piece; both channels are closed
    when [RunCommand] returns, however it does. *)

Definition NSENTER_ARGS : list string := ["--target"; "1"; "--mount"; "--uts"; "--ipc"; "--net"; "--pid"].
Definition SYSTEMD_RUN_ARGS : list string :=
  ["systemd-run"; "-p"; "ProtectSystem=strict"; "-p"; "PrivateDevices=true"; "-Pq"].
Definition SHELL_ARGS : list string := ["sh"; "-c"].
Definition DEFAULT_ACC : string := "admin".
Definition FAILED_TO_RUN : Z := -1.

Definition full_args (roleAccount cmd : string) : list string :=
  let account := if bool_decide (roleAccount = "") then DEFAULT_ACC else roleAccount in
  NSENTER_ARGS ++ SYSTEMD_RUN_ARGS ++ ["--uid=" +:+ account] ++ SHELL_ARGS ++ [cmd].

(** How the process ends: [Wait] succeeds, reports a code, or fails. *)
Inductive WaitResult := WaitOk | WaitExit (code : Z) | WaitFailed (e : string).

(** What a process does: whether its pipes can be made and it starts, what is
    read from them, and its end. *)
Record Process := {
  pr_stdout : option string; pr_stderr : option string; pr_start : option string;
  pr_out : list string; pr_err : list string; pr_wait : WaitResult
}.

Record RunResult := { rr_out : list string; rr_err : list string; rr_code : Z; rr_error : option string }.

Definition not_run (e : string) : RunResult := {| rr_out := []; rr_err := []; rr_code := FAILED_TO_RUN; rr_error := Some e |}.

Definition RunCommand (execCommand : list string → Process) (roleAccount cmd : string) : RunResult :=
  let p := execCommand ("nsenter" :: full_args roleAccount cmd) in
  match pr_stdout p, pr_stderr p, pr_start p with
  | Some e, _, _ | None, Some e, _ | None, None, Some e => not_run e
  | None, None, None =>
      let '(code, err) := match pr_wait p with
                          | WaitOk => (0%Z, None)
                          | WaitExit code => (code, None)
                          | WaitFailed e => (FAILED_TO_RUN, Some e)
                          end in
      {| rr_out := pr_out p; rr_err := pr_err p; rr_code := code; rr_error := err |}
  end.

(** A run as the handler sees it: the pieces of both channels in some order. *)
Definition observed (r : RunResult) (run : CommandRun) : Prop :=
  run_output run ≡ₚ rr_out r ++ rr_err r ∧
  run_exit run = match rr_error r with Some e => Err e | None => Ok (rr_code r) end.

(** ** What an accepted command is *)

(** A word whose text the shell takes as it stands: literals free of dangerous
    characters, single quotes, and double quotes around such parts. *)
Inductive plain_part : node → Prop :=
| plain_lit v : ContainsAny v dangerousCharSet = false → plain_part (NLit v)
| plain_sgl v : plain_part (NSglQuoted v)
| plain_dbl parts : Forall plain_part parts → plain_part (NDblQuoted parts).

(** A pipeline of simple calls of whitelisted commands. *)
Inductive pipeline (whitelist : list string) : node → Prop :=
| pipe_call name args :
    word_Lit name ∈ whitelist → Forall (Forall plain_part) (name :: args) →
    pipeline whitelist (NStmt false false false false (Some (NCall [] (name :: args))) [])
| pipe_pipe x y :
    pipeline whitelist x → pipeline whitelist y →
    pipeline whitelist (NStmt false false false false (Some (NBinary Pipe x y)) []).

(** ** Induction over syntax trees *)
Section node_ind.
Context (P : node → Prop).
Context (Hstmt : ∀ a b c d cmd redirs, (∀ n, cmd = Some n → P n) → Forall P redirs → P (NStmt a b c d cmd redirs)).
Context (Hcall : ∀ assigns args, Forall P assigns → Forall (Forall P) args → P (NCall assigns args)).
Context (Hbin : ∀ op x y, P x → P y → P (NBinary op x y)).
Context (Hword : ∀ l, Forall P l → P (NWord l)).
Context (Hlit : ∀ v, P (NLit v)) (Hsgl : ∀ v, P (NSglQuoted v)).
Context (Hdbl : ∀ l, Forall P l → P (NDblQuoted l)).
Context (Hsub : ∀ l, P (NSubshell l)) (Hsubst : ∀ l, P (NCmdSubst l)) (Harith : ∀ l, P (NArithmExp l)).
Context (Hred : ∀ l, P (NRedirect l)) (Hpar : ∀ l, P (NParamExp l)) (Hext : ∀ l, P (NExtGlob l)).
Context (Hoth : ∀ l, Forall P l → P (NOther l)).

Fixpoint node_tree_ind (n : node) : P n :=
  let fix all l : Forall P l :=
    match l with [] => @List.Forall_nil node P | x :: l => @List.Forall_cons node P x l (node_tree_ind x) (all l) end in
  let fix all2 ls : Forall (Forall P) ls :=
    match ls with [] => @List.Forall_nil _ (Forall P) | l :: ls => @List.Forall_cons _ (Forall P) l ls (all l) (all2 ls) end in
  match n with
  | NStmt a b c d cmd redirs =>
      Hstmt a b c d cmd redirs
        (match cmd return ∀ n, cmd = Some n → P n with
         | Some m => λ n e, eq_rect m P (node_tree_ind m) n (f_equal (default m) e)
         | None => λ n e, False_ind _ (eq_ind None (λ o, match o with None => True | Some _ => False end) I _ e)
         end) (all redirs)
  | NCall assigns args => Hcall assigns args (all assigns) (all2 args)
  | NBinary op x y => Hbin op x y (node_tree_ind x) (node_tree_ind y)
  | NWord l => Hword l (all l)
  | NLit v => Hlit v
  | NSglQuoted v => Hsgl v
  | NDblQuoted l => Hdbl l (all l)
  | NSubshell l => Hsub l
  | NCmdSubst l => Hsubst l
  | NArithmExp l => Harith l
  | NRedirect l => Hred l
  | NParamExp l => Hpar l
  | NExtGlob l => Hext l
  | NOther l => Hoth l (all l)
  end.
End node_ind.

(** A part of a word passes both checks exactly when it is plain. *)
Lemma valid_parts_go parts :
  (fix go l := match l with
               | [] => None
               | p :: l => match valid_part p with Some e => Some e | None => go l end
               end) parts = validateWordParts parts.
Proof. induction parts as [|p parts IH]; simpl; [done|]. by rewrite IH. Qed.

Lemma plain_part_spec n : plain_part n ↔ walk_unsafe n = false ∧ valid_part n = None.
Proof.
  induction n as [a b c d cmd redirs _ _|assigns args _ _|op x y _ _|l _|v|v|l IH|l|l|l|l|l|l|l _] using node_tree_ind;
    try (split; [by inversion 1|by intros [_ [=]]]).
  - split; [by inversion 1|]. intros [? _]. by constructor.
  - split; [done|by constructor].
  - simpl. rewrite valid_parts_go. transitivity (Forall plain_part l); [split; [by inversion 1|by constructor]|].
    induction IH as [|p l Hp Hl IHl]; simpl; [done|]. rewrite Forall_cons, orb_false_iff, IHl, Hp.
    destruct (valid_part p); naive_solver.
Qed.

Lemma plain_word_spec l : Forall plain_part l ↔ existsb walk_unsafe l = false ∧ validateWordParts l = None.
Proof.
  induction l as [|p l IH]; simpl; [done|]. rewrite Forall_cons, orb_false_iff, IH, plain_part_spec.
  destruct (valid_part p); naive_solver.
Qed.

Lemma plain_words_spec args :
  Forall (Forall plain_part) args ↔ existsb (existsb walk_unsafe) args = false ∧ validate_words args = None.
Proof.
  induction args as [|w args IH]; simpl; [done|]. rewrite Forall_cons, orb_false_iff, IH, plain_word_spec.
  destruct (validateWordParts w); naive_solver.
Qed.

Lemma pipeline_spec wl n : pipeline wl n ↔ walk_unsafe n = false ∧ validateStatement n wl = None.
Proof.
  split.
  - induction 1 as [name args Hin Hf|x y _ [Hx Hx'] _ [Hy Hy']].
    + apply plain_words_spec in Hf as [Hs Hv]. simpl in *. rewrite orb_false_r, Hs, Hv. split; [done|].
      unfold sliceContains. by rewrite bool_decide_true.
    + simpl. rewrite Hx, Hy, Hx', Hy'. done.
  - revert n. assert (∀ n, let ok n := walk_unsafe n = false ∧ validateStatement n wl = None → pipeline wl n in
      ok n ∧ match n with NBinary _ x y => ok x ∧ ok y | _ => True end) as H; [|intros n; apply H].
    induction n as [a b c d cmd redirs IH _|assigns args _ _|op x y [Hx _] [Hy _]|l _|v|v|l _|l|l|l|l|l|l|l _] using node_tree_ind;
      (split; [try (by intros [_ [=]])|try done]).
    simpl. destruct a, b, c, d; try (by intros [_ [=]]). case_bool_decide as Hr; [by intros [_ [=]]|].
    subst redirs. destruct cmd as [n|]; [|by intros [_ [=]]]. destruct (IH n eq_refl) as [_ IHn].
    destruct n as [| assigns args|op x y| | | | | | | | | | |]; try (by intros [_ [=]]).
    + case_bool_decide as Ha; [by intros [_ [=]]|]. subst assigns.
      destruct args as [|name args]; [by intros [_ [=]]|]. destruct (validate_words (name :: args)) eqn:Hw; [by intros [_ [=]]|].
      destruct (sliceContains wl (word_Lit name)) eqn:Hin; [|by intros [_ [=]]]. intros [Hs _].
      apply pipe_call; [by apply bool_decide_eq_true_1 in Hin|]. apply plain_words_spec. split; [|done].
      by rewrite orb_false_r in Hs.
    + case_bool_decide as Hop; [by intros [_ [=]]|]. subst op. simpl. destruct IHn as [Hx Hy].
      rewrite orb_false_r. intros [[Hsx Hsy]%orb_false_iff Hv]. destruct (validateStatement x wl) eqn:Ex; [done|].
      apply pipe_pipe; auto.
Qed.

Lemma pipelines_spec wl ast :
  Forall (pipeline wl) ast ↔ walkForDangerousNodeTypes ast = false ∧ validate_statements ast wl = None.
Proof.
  unfold walkForDangerousNodeTypes. induction ast as [|n ast IH]; simpl; [done|].
  rewrite Forall_cons, orb_false_iff, IH, pipeline_spec. destruct (validateStatement n wl); naive_solver.
Qed.

Section debug_facts.
Context (Parse : string → option File).

Lemma validated_spec input wl :
  ValidateCommand Parse input wl = None ↔
  ∃ ast, Parse input = Some ast ∧ ast ≠ [] ∧ Forall (pipeline wl) ast.
Proof.
  unfold ValidateCommand. destruct (Parse input) as [ast|]; [|split; [done|by intros (? & [=] & _)]].
  setoid_rewrite pipelines_spec. destruct (walkForDangerousNodeTypes ast) eqn:Hw.
  - split; [done|]. intros (? & [= <-] & _ & ? & _). congruence.
  - case_bool_decide as Hn; [|naive_solver]. split; [done|]. intros (? & [= <-] & ? & _). done.
Qed.

(** C35. A command of the Debug service passes validation exactly when it parses
    to one or more statements each of which is a pipeline of simple calls,
    whose command names are on the whitelist and whose words are literals
    without special characters or quoted text: no expansion, redirection,
    background job, assignment or control structure is ever run. *)
Theorem command_accepted_iff input wl :
  ValidateCommand Parse input wl = None ↔
  ∃ ast, Parse input = Some ast ∧ ast ≠ [] ∧ Forall (pipeline wl) ast.
Proof. apply validated_spec. Qed.

(** The Debug handler runs nothing but such commands: whatever it does not
    answer with an error before the first response is a validated command
    line, and its responses are the request, the output and at the end the
    exit status. *)
Theorem debug_runs_validated (runCommand : string → Z → string → CommandRun) req send_ok wl responses e :
  HandleCommandRequest Parse runCommand req send_ok wl = (responses, e) → responses ≠ [] →
  ∃ r command ast, req = Some r ∧ dr_command r = Some command ∧ dr_mode r = MODE_CLI ∧
    Parse command = Some ast ∧ ast ≠ [] ∧ Forall (pipeline wl) ast ∧
    let run := runCommand (dr_role_account r) (dr_byte_limit r) command in
    responses = RespRequest r :: (RespData <$> run_output run) ++
                match run_exit run with Ok code => [RespStatus code] | Err _ => [] end ∧
    (e = None ↔ is_ok (run_exit run) = true).
Proof.
  unfold HandleCommandRequest. destruct req as [r|]; [|by intros [= <- _]].
  destruct (dr_command r) as [command|] eqn:Hc; [|by intros [= <- _]].
  destruct (ValidateCommand Parse command wl) eqn:Hv; [by intros [= <- _]|].
  apply validated_spec in Hv as (ast & Hp & Hne & Hf).
  destruct (dr_mode r) eqn:Hm; try (by intros [= <- _]). destruct send_ok; [|by intros [= <- _]].
  intros H _. exists r, command, ast. do 6 (split; [done|]). cbv zeta.
  destruct (run_exit _) as [code|err]; injection H as <- <-; [done|]. by rewrite app_nil_r.
Qed.

(** Text in single quotes is not looked at: with the default whitelists a
    user who may only read can run any awk program, and so any command. *)
Theorem awk_program_unchecked input program :
  Parse input = Some [NStmt false false false false (Some (NCall [] [[NLit "awk"]; [NSglQuoted program]])) []] →
  ValidateCommand Parse input (ConstructWhitelists None).1 = None.
Proof.
  intros Hp. apply validated_spec. eexists. split; [exact Hp|]. split; [done|]. apply Forall_singleton, pipe_call.
  - simpl. set_solver.
  - repeat constructor.
Qed.

(** The output of a command is answered whole: whatever the order in which the
    channels are read, the data that is sent are the pieces that were read from
    the process, and the status is its exit code. *)
Theorem debug_answers_process execCommand (runCommand : string → Z → string → CommandRun) r command wl responses :
  (∀ acc limit cmd, observed (RunCommand execCommand acc cmd) (runCommand acc limit cmd)) →
  dr_command r = Some command →
  HandleCommandRequest Parse runCommand (Some r) true wl = (responses, None) → responses ≠ [] →
  let p := execCommand ("nsenter" :: full_args (dr_role_account r) command) in
  ∃ data code, responses = RespRequest r :: (RespData <$> data) ++ [RespStatus code] ∧
    data ≡ₚ pr_out p ++ pr_err p ∧
    pr_wait p = match code with 0%Z => pr_wait p | _ => WaitExit code end ∧ pr_start p = None.
Proof.
  intros Hobs Hc Hh Hne p.
  assert (∃ run, run = runCommand (dr_role_account r) (dr_byte_limit r) command) as [run Hrun] by eauto.
  unfold HandleCommandRequest in Hh. rewrite Hc in Hh.
  destruct (ValidateCommand Parse command wl); [done|]. destruct (dr_mode r); try done; [|by injection Hh as <-].
  rewrite <- Hrun in Hh. destruct (Hobs (dr_role_account r) (dr_byte_limit r) command) as [Hout Hexit].
  rewrite <- Hrun in Hout, Hexit. rewrite Hexit in Hh. unfold RunCommand in *. fold p in Hout, Hexit, Hh.
  destruct (pr_stdout p), (pr_stderr p), (pr_start p); try done.
  destruct (pr_wait p) as [|code|e]; simpl in *; [| |done]; injection Hh as <-.
  - exists (run_output run), 0%Z. done.
  - exists (run_output run), code. split; [done|]. split; [done|]. by destruct code.
Qed.
End debug_facts.

(** Who may write may run whatever who may only read may run, for every
    whitelist file. *)
Theorem whitelists_nested file : (ConstructWhitelists file).1 ⊆ (ConstructWhitelists file).2.
Proof.
  assert (∀ l1 l2 : list string, l1 ⊆ l2 ++ l1) as H by set_solver.
  destruct file as [[[r|] [w|]]|]; apply H.
Qed.

(** ** Concrete commands *)
Module DebugExample.
(** [ls /tmp | grep x] *)
Definition call (words : list string) : node :=
  NStmt false false false false (Some (NCall [] ((λ w, [NLit w]) <$> words))) [].
Definition ls_grep : node := NStmt false false false false (Some (NBinary Pipe (call ["ls"; "/tmp"]) (call ["grep"; "x"]))) [].
Definition reboot_program : string := "BEGIN{system(1)}".
Definition parse0 (s : string) : option File :=
  if bool_decide (s = "ls /tmp | grep x") then Some [ls_grep]
  else if bool_decide (s = "awk") then
    Some [NStmt false false false false (Some (NCall [] [[NLit "awk"]; [NSglQuoted reboot_program]])) []]
  else None.
Definition run0 (role : string) (limit : Z) (cmd : string) : CommandRun := {| run_output := ["x"]; run_exit := Ok 0%Z |}.
Definition req0 : DebugRequest := {| dr_command := Some "ls /tmp | grep x"; dr_mode := MODE_CLI; dr_byte_limit := 0;
  dr_role_account := ""; dr_timeout := 0 |}.

Lemma debug_runs_validated_witness :
  ∃ r command ast, Some req0 = Some r ∧ dr_command r = Some command ∧ dr_mode r = MODE_CLI ∧
    parse0 command = Some ast ∧ ast ≠ [] ∧ Forall (pipeline readCommands) ast ∧
    let run := run0 (dr_role_account r) (dr_byte_limit r) command in
    [RespRequest req0; RespData "x"; RespStatus 0] = RespRequest r :: (RespData <$> run_output run) ++
                match run_exit run with Ok code => [RespStatus code] | Err _ => [] end ∧
    (@None (Code * string) = None ↔ is_ok (run_exit run) = true).
Proof.
  refine (debug_runs_validated parse0 run0 (Some req0) true readCommands _ None _ _); [reflexivity|discriminate].
Defined.

Lemma awk_program_unchecked_witness : ValidateCommand parse0 "awk" (ConstructWhitelists None).1 = None.
Proof. apply (awk_program_unchecked parse0 "awk" reboot_program). reflexivity. Defined.

(** Without the quotes the program is rejected. *)
Example awk_unquoted :
  walkForDangerousNodeTypes [call ["awk"; reboot_program]] = true.
Proof. reflexivity. Qed.

(** Two statements, as separated by a newline, pass one by one. *)
Example two_statements : validate_statements [call ["ls"]; call ["uptime"]] readCommands = None.
Proof. reflexivity. Qed.
End DebugExample.
