(* ===== verification/Dialout.v ===== *)
(** * Dial-out telemetry (src/dialout/dialout_client/dialout_client.go)

    The dial-out client reads TELEMETRY_CLIENT of CONFIG_DB, groups of
    destinations and subscriptions that name a group, and keeps a goroutine
    [publishRun] per subscription that connects to the destinations of the
    group in turn and sends what a data client reads.  A change of a row stops
    the routines it concerns and starts new ones.

    A subscription lives behind a pointer: routines, the map by name and
    copies share channels and contexts.  [D] therefore has a heap of
    subscriptions, the channels that were closed and the contexts that were
    cancelled; addresses of all of them are drawn from one counter.  The queue
    of a subscription is disposed of whenever its channel is closed and is not
    kept apart.  A nil dereference, an index out of range and the close of a
    closed channel panic, which ends the process.

    A change of the configuration, which holds a mutex, is one step; the
    routines take theirs between such changes.

    The data clients, Redis, the path parser of ygot and the collectors are
    parameters or inputs: a step may assume either outcome of a connection. *)
From stdpp Require Import base gmap list strings.
From S2P Require Import Prelude GoStrings Gnmi World DbConn DbClient.

(** ** Data *)

Inductive reportType := RtUnknown | RtOnce | RtPeriodic | RtStream.

Definition typeConst : gmap string reportType :=
  {["unknown" := RtUnknown; "once" := RtOnce; "periodic" := RtPeriodic; "stream" := RtStream]}.
Definition NewReportType (s : string) : reportType := default RtUnknown (typeConst !! s).

(** A [Destination] is its address. *)
Definition Validate (addr : string) : option string :=
  if bool_decide (addr = "") then Some "Destination.Addrs is empty" else None.

Record ClientConfig := {
  SrcIp : string;
  RetryInterval : Z;              (* nanoseconds *)
  cc_Encoding : Encoding;
  Unidirectional : bool
}.

Record clientSubscription := {
  cs_name : string;
  destGroupName : string;
  cs_prefix : option Path;
  cs_paths : list Path;
  cs_reportType : reportType;
  cs_interval : Z;                (* nanoseconds *)
  cs_client : bool;               (* [client != nil] *)
  cs_stop : option nat;           (* the channel [stop] *)
  cs_opened : bool;
  cs_cancel : nat;                (* the context that [cancel] cancels *)
  conTryCnt : Z
}.

Definition set_run (client : bool) (stop : option nat) (opened : bool) (tries : Z) (c : clientSubscription)
  : clientSubscription := {|
  cs_name := cs_name c; destGroupName := destGroupName c; cs_prefix := cs_prefix c; cs_paths := cs_paths c;
  cs_reportType := cs_reportType c; cs_interval := cs_interval c; cs_client := client; cs_stop := stop;
  cs_opened := opened; cs_cancel := cs_cancel c; conTryCnt := tries
|}.

(** Where a [publishRun] is. *)
Inductive run_pc :=
| AtRestart
| Dialing (dest : string)
| Publishing (dest : string)
| InPeriodic
| AtStream
| Sending.

Record Run := {
  r_ctx : nat;
  r_sub : nat;
  r_dests : list string;
  r_idx : nat;
  r_pc : run_pc;
  r_tried : list string           (* the destinations dialed so far *)
}.

Record D := {
  clientCfg : ClientConfig;
  destGrpNameMap : gmap string (list string);
  ClientSubscriptionNameMap : gmap string nat;
  DestGrp2ClientSubMap : gmap string (list string);
  heap : gmap nat clientSubscription;
  closed : gset nat;
  cancelled : gset nat;
  fresh : nat;
  runs : gmap nat Run
}.

Definition with_cfg (x : ClientConfig) (d : D) : D := {| clientCfg := x; destGrpNameMap := destGrpNameMap d; ClientSubscriptionNameMap := ClientSubscriptionNameMap d; DestGrp2ClientSubMap := DestGrp2ClientSubMap d; heap := heap d; closed := closed d; cancelled := cancelled d; fresh := fresh d; runs := runs d |}.
Definition with_groups x (d : D) : D := {| clientCfg := clientCfg d; destGrpNameMap := x; ClientSubscriptionNameMap := ClientSubscriptionNameMap d; DestGrp2ClientSubMap := DestGrp2ClientSubMap d; heap := heap d; closed := closed d; cancelled := cancelled d; fresh := fresh d; runs := runs d |}.
Definition with_names x (d : D) : D := {| clientCfg := clientCfg d; destGrpNameMap := destGrpNameMap d; ClientSubscriptionNameMap := x; DestGrp2ClientSubMap := DestGrp2ClientSubMap d; heap := heap d; closed := closed d; cancelled := cancelled d; fresh := fresh d; runs := runs d |}.
Definition with_users x (d : D) : D := {| clientCfg := clientCfg d; destGrpNameMap := destGrpNameMap d; ClientSubscriptionNameMap := ClientSubscriptionNameMap d; DestGrp2ClientSubMap := x; heap := heap d; closed := closed d; cancelled := cancelled d; fresh := fresh d; runs := runs d |}.
Definition with_heap x (d : D) : D := {| clientCfg := clientCfg d; destGrpNameMap := destGrpNameMap d; ClientSubscriptionNameMap := ClientSubscriptionNameMap d; DestGrp2ClientSubMap := DestGrp2ClientSubMap d; heap := x; closed := closed d; cancelled := cancelled d; fresh := fresh d; runs := runs d |}.
Definition with_closed x (d : D) : D := {| clientCfg := clientCfg d; destGrpNameMap := destGrpNameMap d; ClientSubscriptionNameMap := ClientSubscriptionNameMap d; DestGrp2ClientSubMap := DestGrp2ClientSubMap d; heap := heap d; closed := x; cancelled := cancelled d; fresh := fresh d; runs := runs d |}.
Definition with_cancelled x (d : D) : D := {| clientCfg := clientCfg d; destGrpNameMap := destGrpNameMap d; ClientSubscriptionNameMap := ClientSubscriptionNameMap d; DestGrp2ClientSubMap := DestGrp2ClientSubMap d; heap := heap d; closed := closed d; cancelled := x; fresh := fresh d; runs := runs d |}.
Definition with_fresh x (d : D) : D := {| clientCfg := clientCfg d; destGrpNameMap := destGrpNameMap d; ClientSubscriptionNameMap := ClientSubscriptionNameMap d; DestGrp2ClientSubMap := DestGrp2ClientSubMap d; heap := heap d; closed := closed d; cancelled := cancelled d; fresh := x; runs := runs d |}.
Definition with_runs x (d : D) : D := {| clientCfg := clientCfg d; destGrpNameMap := destGrpNameMap d; ClientSubscriptionNameMap := ClientSubscriptionNameMap d; DestGrp2ClientSubMap := DestGrp2ClientSubMap d; heap := heap d; closed := closed d; cancelled := cancelled d; fresh := fresh d; runs := x |}.

(** Programs over [D] that may panic. *)
Definition PM (A : Type) : Type := D → handled (D * A).
Global Instance PM_ret : MRet PM := λ A a d, Returns (d, a).
Global Instance PM_bind : MBind PM := λ A B f m d,
  match m d with Returns (d', a) => f a d' | Panics => Panics end.
Definition panic {A} : PM A := λ _, Panics.
Definition get {A} (f : D → A) : PM A := λ d, Returns (d, f d).
Definition upd (f : D → D) : PM () := λ d, Returns (f d, ()).

(** [for _, x := range xs { f(x) }] *)
Fixpoint each {A} (f : A → PM ()) (xs : list A) : PM () :=
  match xs with [] => mret () | x :: xs => _ ← f x; each f xs end.

Definition alloc : PM nat := λ d, Returns (with_fresh (S (fresh d)) d, fresh d).

(** The subscription behind a pointer. *)
Definition deref (p : option nat) : PM (nat * clientSubscription) := λ d,
  match p with
  | Some p => match heap d !! p with Some c => Returns (d, (p, c)) | None => Panics end
  | None => Panics
  end.
Definition store (p : nat) (c : clientSubscription) : PM () := upd (λ d, with_heap (<[p := c]> (heap d)) d).

(** [Close] *)
Definition close_chan (ch : nat) : PM () := λ d,
  if bool_decide (ch ∈ closed d) then Panics else Returns (with_closed ({[ch]} ∪ closed d) d, ()).
Definition Close (p : nat) : PM () :=
  '(_, c) ← deref (Some p);
  if cs_opened c then
    _ ← match cs_stop c with Some ch => close_chan ch | None => mret () end;
    store p (set_run (cs_client c) (cs_stop c) false (conTryCnt c) c)
  else mret ().

Definition cancel (ctx : nat) : PM () := upd (λ d, with_cancelled ({[ctx]} ∪ cancelled d) d).

(** ** New instances *)

Inductive dc_kind := NonDbKind | TranslKind | DbKind.

Section dialout.
Context {MR : MapRange}.
(** An error of the constructor of a data client, and the parser of paths. *)
Context (new_dc : dc_kind → list Path → option Path → option string).
Context (StringToPath : string → option Path).

Definition dc_kind_of (target : string) : dc_kind :=
  if bool_decide (target = "OTHERS") then NonDbKind
  else if bool_decide (target = "OC_YANG") then TranslKind else DbKind.

Definition NewInstance (ctx p : nat) : PM (option string) :=
  '(_, c) ← deref (Some p);
  if bool_decide (destGroupName c = "") then mret (Some "Destination group is not set")
  else
    groups ← get destGrpNameMap;
    match groups !! destGroupName c with
    | None => mret (Some "Destination group doesn't exist")
    | Some dests =>
        let target := GetTarget (cs_prefix c) in
        if bool_decide (target = "") then mret (Some "Empty target data not supported yet")
        else match new_dc (dc_kind_of target) (cs_paths c) (cs_prefix c) with
             | Some e => mret (Some "Connection to DB failed")
             | None =>
                 id ← alloc;
                 _ ← upd (λ d, with_runs (<[id := {| r_ctx := ctx; r_sub := p; r_dests := dests; r_idx := 0;
                                                     r_pc := AtRestart; r_tried := [] |}]> (runs d)) d);
                 mret None
             end
    end.

(** [closeDestGroupClient] and [setupDestGroupClients] *)
Definition close_named (name : string) : PM () :=
  names ← get ClientSubscriptionNameMap;
  '(p, c) ← deref (names !! name);
  _ ← Close p;
  cancel (cs_cancel c).
Definition closeDestGroupClient (group : string) : PM () :=
  users ← get DestGrp2ClientSubMap;
  match users !! group with Some names => each close_named names | None => mret () end.

(** A copy of the subscription gets the new instance. *)
Definition setup_named (ctx : nat) (name : string) : PM () :=
  names ← get ClientSubscriptionNameMap;
  '(_, c) ← deref (names !! name);
  p ← alloc;
  _ ← store p c;
  _ ← NewInstance ctx p;
  upd (λ d, with_names (<[name := p]> (ClientSubscriptionNameMap d)) d).
Definition setupDestGroupClients (ctx : nat) (group : string) : PM () :=
  users ← get DestGrp2ClientSubMap;
  match users !! group with Some names => each (setup_named ctx) names | None => mret () end.

(** ** Rows of TELEMETRY_CLIENT *)

Definition second : Z := 1000000000.
Definition millisecond : Z := 1000000.

(** One field of the row Global. *)
Definition global_field (c : ClientConfig) (fv : string * string) : ClientConfig :=
  let '(field, value) := fv in
  if bool_decide (field = "src_ip") then
    {| SrcIp := value; RetryInterval := RetryInterval c; cc_Encoding := cc_Encoding c; Unidirectional := Unidirectional c |}
  else if bool_decide (field = "retry_interval") then
    match ParseUint value with
    | Some itvl => {| SrcIp := SrcIp c; RetryInterval := to_int64 (second * to_int64 itvl);
                      cc_Encoding := cc_Encoding c; Unidirectional := Unidirectional c |}
    | None => c
    end
  else if bool_decide (field = "encoding") then
    {| SrcIp := SrcIp c; RetryInterval := RetryInterval c; cc_Encoding := JSON_IETF; Unidirectional := Unidirectional c |}
  else if bool_decide (field = "unidirectional") then
    {| SrcIp := SrcIp c; RetryInterval := RetryInterval c; cc_Encoding := cc_Encoding c; Unidirectional := true |}
  else c.

(** One field of a destination group. *)
Definition group_addr (dests : list string) (addr : string) : res string (list string) :=
  match Validate addr with
  | Some _ => Err "Invalid destination address"
  | None => Ok (dests ++ [addr])
  end.
Definition group_field (dests : list string) (fv : string * string) : res string (list string) :=
  let '(field, value) := fv in
  if bool_decide (field = "dst_addr") then foldM group_addr dests (Split value ",")
  else Err "Invalid DestinationGroup value".

(** One field of a subscription. *)
Definition parse_paths (ps : list string) : res string (list Path) :=
  foldM (λ l p, match StringToPath p with Some pp => Ok (l ++ [pp]) | None => Err "Invalid paths" end) [] ps.

Definition sub_field (c : clientSubscription) (fv : string * string) : res string clientSubscription :=
  let '(field, value) := fv in
  let mk group prefix paths rt itvl := {|
    cs_name := cs_name c; destGroupName := group; cs_prefix := prefix; cs_paths := paths;
    cs_reportType := rt; cs_interval := itvl; cs_client := cs_client c; cs_stop := cs_stop c;
    cs_opened := cs_opened c; cs_cancel := cs_cancel c; conTryCnt := conTryCnt c |} in
  if bool_decide (field = "dst_group")
  then Ok (mk value (cs_prefix c) (cs_paths c) (cs_reportType c) (cs_interval c))
  else if bool_decide (field = "report_type")
  then Ok (mk (destGroupName c) (cs_prefix c) (cs_paths c) (NewReportType value) (cs_interval c))
  else if bool_decide (field = "report_interval") then
    match ParseUint value with
    | Some intvl => Ok (mk (destGroupName c) (cs_prefix c) (cs_paths c) (cs_reportType c)
                          (to_int64 (to_int64 intvl * millisecond)))
    | None => Ok c
    end
  else if bool_decide (field = "path_target")
  then Ok (mk (destGroupName c) (Some {| path_origin := ""; path_target := value; path_elem := [] |})
             (cs_paths c) (cs_reportType c) (cs_interval c))
  else if bool_decide (field = "paths") then
    ps ← parse_paths (Split value ",");
    Ok (mk (destGroupName c) (cs_prefix c) ps (cs_reportType c) (cs_interval c))
  else Err "Invalid field".

Definition new_subscription (name : string) (ctx : nat) : clientSubscription := {|
  cs_name := name; destGroupName := ""; cs_prefix := None; cs_paths := []; cs_reportType := RtUnknown;
  cs_interval := 5000; cs_client := false; cs_stop := None; cs_opened := false; cs_cancel := ctx; conTryCnt := 0
|}.

(** The first occurrence of a name. *)
Fixpoint remove_first (name : string) (l : list string) : list string :=
  match l with
  | [] => []
  | x :: l => if bool_decide (name = x) then l else x :: remove_first name l
  end.

Definition process_global (ctx : nat) (op : string) (fv : gmap string string) : PM (option string) :=
  if bool_decide (op = "hdel") then mret (Some "Invalid delete operation")
  else
    _ ← upd (λ d, with_cfg (foldl global_field (clientCfg d) (map_range fv)) d);
    groups ← get destGrpNameMap;
    _ ← each (λ g, _ ← closeDestGroupClient g; setupDestGroupClients ctx g) (map_range groups).*1;
    mret None.

Definition process_group (ctx : nat) (group op : string) (fv : gmap string string) : PM (option string) :=
  if bool_decide (group = "") then mret (Some "Empty  Destination Group name")
  else
    _ ← closeDestGroupClient group;
    if bool_decide (op = "hdel") then
      users ← get DestGrp2ClientSubMap;
      match users !! group with
      | Some _ => mret (Some "is being used")
      | None => _ ← upd (λ d, with_groups (delete group (destGrpNameMap d)) d); mret None
      end
    else
      match foldM group_field [] (map_range fv) with
      | Err e => mret (Some e)
      | Ok dests =>
          _ ← upd (λ d, with_groups (<[group := dests]> (destGrpNameMap d)) d);
          _ ← setupDestGroupClients ctx group;
          mret None
      end.

Definition delete_subscription (name : string) : PM (option string) :=
  names ← get ClientSubscriptionNameMap;
  '(_, c) ← deref (names !! name);
  _ ← upd (λ d, with_users (<[destGroupName c :=
        remove_first name (default [] (DestGrp2ClientSubMap d !! destGroupName c))]> (DestGrp2ClientSubMap d)) d);
  _ ← upd (λ d, with_names (delete name (ClientSubscriptionNameMap d)) d);
  mret None.

Definition add_user (name group : string) : PM () :=
  users ← get DestGrp2ClientSubMap;
  let l := default [] (users !! group) in
  if bool_decide (name ∈ l) then mret () else upd (with_users (<[group := l ++ [name]]> users)).

Definition process_subscription (ctx : nat) (name op : string) (fv : gmap string string) : PM (option string) :=
  if bool_decide (name = "") then mret (Some "Empty Subscription_ name")
  else
    names ← get ClientSubscriptionNameMap;
    _ ← match names !! name with Some _ => close_named name | None => mret () end;
    if bool_decide (op = "hdel") then delete_subscription name
    else
      match foldM sub_field (new_subscription name ctx) (map_range fv) with
      | Err e => mret (Some e)
      | Ok c =>
          if bool_decide (destGroupName c = "") then mret None
          else
            _ ← add_user name (destGroupName c);
            p ← alloc;
            _ ← store p c;
            _ ← upd (λ d, with_names (<[name := p]> (ClientSubscriptionNameMap d)) d);
            _ ← NewInstance ctx p;
            mret None
      end.

(** [separator] is what the configuration gives for CONFIG_DB, [conn] the client
    of CONFIG_DB. *)
Definition processTelemetryClientConfig (separator : res string string) (conn : Conn) (key op : string)
  : PM (option string) :=
  match separator with
  | Err e => mret (Some e)
  | Ok sep =>
      match HGetAll conn ("TELEMETRY_CLIENT" +:+ sep +:+ key) with
      | Err _ => mret (Some "redis HGetAll failed")
      | Ok fv =>
          ctx ← alloc;
          if bool_decide (key = "Global") then process_global ctx op fv
          else if HasPrefix key "DestinationGroup_" then
            process_group ctx (TrimPrefix key "DestinationGroup_") op fv
          else if HasPrefix key "Subscription_" then
            process_subscription ctx (TrimPrefix key "Subscription_") op fv
          else mret None
      end
  end.

(** ** publishRun *)

(** A context is done when it or its parent, the context of the program, is
    cancelled. *)
Definition root_ctx : nat := 0.
Definition ctx_done (d : D) (ctx : nat) : bool := bool_decide (ctx ∈ cancelled d ∨ root_ctx ∈ cancelled d).

Definition set_pc (pc : run_pc) (r : Run) : Run :=
  {| r_ctx := r_ctx r; r_sub := r_sub r; r_dests := r_dests r; r_idx := r_idx r; r_pc := pc; r_tried := r_tried r |}.
Definition put_run (id : nat) (r : Run) : PM () := upd (λ d, with_runs (<[id := r]> (runs d)) d).
Definition end_run (id : nat) : PM () := upd (λ d, with_runs (delete id (runs d)) d).

(** [restart]: a new channel and queue, and the next destination. *)
Definition run_restart (id : nat) (r : Run) : PM () :=
  '(p, c) ← deref (Some (r_sub r));
  ch ← alloc;
  _ ← store p (set_run false (Some ch) true (conTryCnt c + 1) c);
  match r_dests r !! r_idx r with
  | None => panic
  | Some dest => put_run id {|
      r_ctx := r_ctx r; r_sub := r_sub r; r_dests := r_dests r;
      r_idx := S (r_idx r) mod length (r_dests r);
      r_pc := Dialing dest; r_tried := r_tried r ++ [dest] |}
  end.

(** After [newClient]. *)
Definition run_dialed (id : nat) (r : Run) (dest : string) (ok : bool) : PM () :=
  over ← get (λ d, ctx_done d (r_ctx r));
  if over : bool then _ ← Close (r_sub r); end_run id
  else put_run id (set_pc (if ok then Publishing dest else AtRestart) r).

(** After [Publish]. *)
Definition run_published (id : nat) (r : Run) (ok : bool) : PM () :=
  if ok then
    '(p, c) ← deref (Some (r_sub r));
    if cs_client c then end_run id
    else
      _ ← store p (set_run true (cs_stop c) (cs_opened c) (conTryCnt c) c);
      match cs_reportType c with
      | RtPeriodic => put_run id (set_pc InPeriodic r)
      | RtStream => put_run id (set_pc AtStream r)
      | _ => end_run id
      end
  else _ ← Close (r_sub r); put_run id (set_pc AtRestart r).

(** The channel [stop] of a subscription is closed. *)
Definition told_to_stop (d : D) (c : clientSubscription) : bool :=
  match cs_stop c with Some ch => bool_decide (ch ∈ closed d) | None => false end.

(** What a periodic report sends: one notification with the values that were
    read, at the time of the last. *)
Definition periodic_response (prefix : option Path) (values : list Value) : SubscribeResponse :=
  UpdateResponse {|
    n_timestamp := default 0%Z (GetTimestamp <$> last values); n_prefix := prefix;
    n_update := (λ v, {| upd_path := v_path v; upd_val := v_val v |}) <$> values; n_delete := []
  |}.

(** One turn of the periodic loop.  A failed read is tried again at once. *)
Definition run_periodic (id : nat) (r : Run) (values : option (list Value)) (sent : bool)
  : PM (option SubscribeResponse) :=
  '(p, c) ← deref (Some (r_sub r));
  stop ← get (λ d, told_to_stop d c);
  if stop : bool then _ ← end_run id; mret None
  else match values with
  | None => mret None
  | Some vs =>
      if sent then mret (Some (periodic_response (cs_prefix c) vs))
      else _ ← Close p; _ ← put_run id (set_pc AtRestart r); mret None
  end.

(** A stream report starts unless it is told to stop; once sending has failed
    the routine is restarted, also when it failed because the subscription was
    closed. *)
Definition run_stream_start (id : nat) (r : Run) : PM () :=
  '(_, c) ← deref (Some (r_sub r));
  stop ← get (λ d, told_to_stop d c);
  if stop : bool then end_run id else put_run id (set_pc Sending r).
Definition run_stream_failed (id : nat) (r : Run) : PM () :=
  _ ← Close (r_sub r); put_run id (set_pc AtRestart r).

(** ** send *)

(** An item of the queue, and whether [stream.Send] takes it: the responses that
    were sent and the error that ended the loop. *)
Fixpoint dial_send (items : list (Value * bool)) : list SubscribeResponse * option string :=
  match items with
  | [] => ([], None)
  | (v, ok) :: items =>
      match ValToResp v with
      | Err _ => ([], Some "ValToResp")
      | Ok resp => if ok then let '(l, e) := dial_send items in (resp :: l, e) else ([], Some "send")
      end
  end.

(** ** DialOutRun *)

(** Rows that exist at the start. *)
Definition load_keys (separator : res string string) (conn : Conn) (dbkeys : list string) (prefix_len : nat) : PM () :=
  each (λ dbkey, _ ← processTelemetryClientConfig separator conn (str_drop prefix_len dbkey) "hset"; mret ()) dbkeys.

(** A keyspace notification: what it makes of the payload. *)
Definition op_of_payload (payload : string) : option string :=
  if bool_decide (payload = "del" ∨ payload = "hdel") then Some "hdel"
  else if bool_decide (payload = "hset") then Some "hset" else None.

Definition dial_message (separator : res string string) (conn : Conn) (dbkey payload : string) : PM () :=
  match op_of_payload payload with
  | Some op => _ ← processTelemetryClientConfig separator conn dbkey op; mret ()
  | None => mret ()
  end.

(** ** Everything together *)
Definition outcome_of {A} (r : handled (D * A)) : handled D :=
  match r with Returns (d, _) => Returns d | Panics => Panics end.

Inductive dial_step : D → handled D → Prop :=
| dial_config d separator conn key payload :
    dial_step d (outcome_of (dial_message separator conn key payload d))
| dial_restart d id r :
    runs d !! id = Some r → r_pc r = AtRestart → dial_step d (outcome_of (run_restart id r d))
| dial_dialed d id r dest ok :
    runs d !! id = Some r → r_pc r = Dialing dest → dial_step d (outcome_of (run_dialed id r dest ok d))
| dial_published d id r dest ok :
    runs d !! id = Some r → r_pc r = Publishing dest → dial_step d (outcome_of (run_published id r ok d))
| dial_periodic d id r values sent :
    runs d !! id = Some r → r_pc r = InPeriodic → dial_step d (outcome_of (run_periodic id r values sent d))
| dial_stream_start d id r :
    runs d !! id = Some r → r_pc r = AtStream → dial_step d (outcome_of (run_stream_start id r d))
| dial_stream_failed d id r :
    runs d !! id = Some r → r_pc r = Sending → dial_step d (outcome_of (run_stream_failed id r d)).

(** The state [DialOutRun] starts in: the counter starts after the context of
    the program. *)
Definition dial_start (cfg : ClientConfig) : D := {|
  clientCfg := cfg; destGrpNameMap := ∅; ClientSubscriptionNameMap := ∅; DestGrp2ClientSubMap := ∅;
  heap := ∅; closed := ∅; cancelled := ∅; fresh := 1; runs := ∅
|}.

Inductive dial_reach (cfg : ClientConfig) : handled D → Prop :=
| dial_reach_start : dial_reach cfg (Returns (dial_start cfg))
| dial_reach_step d r : dial_reach cfg (Returns d) → dial_step d r → dial_reach cfg r.
End dialout.
