(* ===== verification/DialoutFacts.v ===== *)
(** * What dial-out telemetry promises

    [dial_panics_only] is the safety of the client: in every interleaving of
    configuration changes and routines it panics in three situations only,
    each of which has a run of its own below.  [dial_rotation]: a routine
    tries the destinations of its group in turn.  [regrouped_not_cancellable]
    and [refused_delete_stops] state two defects of how groups change. *)
From stdpp Require Import base gmap list strings.
From S2P Require Import Prelude GoStrings Gnmi World DbConn DbClient Dialout.

(** ** Reasoning about programs that may panic *)

(** [m] run from [d] ends with [Q], or panics in a situation [P]. *)
Definition wp {A} (P : Prop) (m : PM A) (d : D) (Q : D → A → Prop) : Prop :=
  match m d with Returns (d', a) => Q d' a | Panics => P end.

Lemma wp_ret {A} P (a : A) d Q : Q d a → wp P (mret a) d Q.
Proof. done. Qed.

Lemma wp_bind {A B} P (m : PM A) (f : A → PM B) d Q :
  wp P m d (λ d' a, wp P (f a) d' Q) → wp P (m ≫= f) d Q.
Proof. unfold wp, mbind, PM_bind. by destruct (m d) as [[d' a]|]. Qed.

Lemma wp_mono {A} P (m : PM A) d Q Q' : wp P m d Q → (∀ d' a, Q d' a → Q' d' a) → wp P m d Q'.
Proof. unfold wp. destruct (m d) as [[d' a]|]; eauto. Qed.

Lemma wp_each {A} P (f : A → PM ()) (I : D → Prop) xs d :
  (∀ x d, x ∈ xs → I d → wp P (f x) d (λ d' _, I d')) → I d → wp P (each f xs) d (λ d' _, I d').
Proof.
  revert d. induction xs as [|x xs IH]; intros d Hf HI; [done|]. simpl. apply wp_bind.
  eapply wp_mono; [apply Hf; [left|done]|]. intros d' a HI'. apply IH; [|done]. intros y d2 Hy. apply Hf. by right.
Qed.

Lemma wp_deref P p d Q :
  (∀ q c, p = Some q → heap d !! q = Some c → Q d (q, c)) →
  (p = None ∨ (∃ q, p = Some q ∧ heap d !! q = None) → P) → wp P (deref p) d Q.
Proof.
  intros HQ HP. unfold wp, deref. destruct p as [q|]; [|by apply HP; left].
  destruct (heap d !! q) as [c|] eqn:E; [by apply HQ|]. apply HP. right. eauto.
Qed.

(** ** The invariant *)

(** The destinations a routine has dialed are those of its list in turn. *)
Definition rotates (r : Run) : Prop :=
  (∀ i x, r_tried r !! i = Some x → r_dests r !! (i mod length (r_dests r)) = Some x) ∧
  (r_dests r = [] → r_tried r = [] ∧ r_idx r = 0) ∧
  (r_dests r ≠ [] → r_idx r = length (r_tried r) mod length (r_dests r)).

Record dial_inv (d : D) : Prop := {
  inv_names name p : ClientSubscriptionNameMap d !! name = Some p →
    ∃ c, heap d !! p = Some c ∧ cs_name c = name ∧ destGroupName c ≠ "" ∧
    ∃ l, DestGrp2ClientSubMap d !! destGroupName c = Some l ∧ name ∈ l;
  inv_users g l : DestGrp2ClientSubMap d !! g = Some l → NoDup l;
  inv_groups g l : destGrpNameMap d !! g = Some l → g ≠ "" ∧ Forall (λ a, a ≠ "") l;
  inv_heap p c : heap d !! p = Some c →
    p < fresh d ∧ (∀ ch, cs_stop c = Some ch → ch < fresh d) ∧
    (cs_opened c = true → ∃ ch, cs_stop c = Some ch ∧ ch ∉ closed d);
  inv_chan p q c c' : heap d !! p = Some c → heap d !! q = Some c' → p ≠ q →
    cs_opened c = true → cs_opened c' = true → cs_stop c ≠ cs_stop c';
  inv_closed ch : ch ∈ closed d → ch < fresh d;
  inv_runs id r : runs d !! id = Some r → id < fresh d ∧ is_Some (heap d !! r_sub r) ∧ rotates r
}.

(** What the configuration steps may change of the maps. *)
Definition same_config (d d' : D) : Prop :=
  DestGrp2ClientSubMap d' = DestGrp2ClientSubMap d ∧ destGrpNameMap d' = destGrpNameMap d ∧
  (∀ n, is_Some (ClientSubscriptionNameMap d' !! n) ↔ is_Some (ClientSubscriptionNameMap d !! n)).

Lemma dial_inv_start cfg : dial_inv (dial_start cfg).
Proof. split; simpl; intros *; rewrite ?lookup_empty; set_solver. Qed.

(** ** Steps that keep the invariant *)

Lemma inv_alloc d : dial_inv d → dial_inv (with_fresh (S (fresh d)) d).
Proof.
  intros [Hn Hu Hg Hh Hc Hcl Hr]. split; simpl; try done.
  - intros p c Hp. destruct (Hh p c Hp) as (H1 & H2 & H3). split; [lia|]. split; [|done]. intros ch Hch. specialize (H2 ch Hch). lia.
  - intros ch Hch. specialize (Hcl ch Hch). lia.
  - intros id r Hid. destruct (Hr id r Hid) as (H1 & H2). split; [lia|done].
Qed.

(** The subscription at [p] becomes [c'], which belongs to the same row. *)
Lemma inv_store d p c c' :
  dial_inv d → heap d !! p = Some c → cs_name c' = cs_name c → destGroupName c' = destGroupName c →
  (∀ ch, cs_stop c' = Some ch → ch < fresh d) →
  (cs_opened c' = true → ∃ ch, cs_stop c' = Some ch ∧ ch ∉ closed d ∧
     ∀ q c2, q ≠ p → heap d !! q = Some c2 → cs_opened c2 = true → cs_stop c2 ≠ Some ch) →
  dial_inv (with_heap (<[p := c']> (heap d)) d).
Proof.
  intros [Hn Hu Hg Hh Hc Hcl Hr] Hp Hname Hgrp Hst Hop. split; simpl; try done.
  - intros name q Hq. destruct (Hn name q Hq) as (c0 & H0 & H1 & H2 & H3).
    destruct (decide (p = q)) as [<-|Hne].
    + exists c'. rewrite lookup_insert_eq. split; [done|]. simplify_eq. rewrite Hname, Hgrp. done.
    + exists c0. by rewrite lookup_insert_ne.
  - intros q c0 [[<- <-]|[Hne Hq]]%lookup_insert_Some; [|by apply Hh].
    split; [by destruct (Hh p c Hp)|]. split; [done|]. intros (ch & H1 & H2 & _)%Hop. eauto.
  - intros q1 q2 c1 c2 [[<- <-]|[Hne1 Hq1]]%lookup_insert_Some [[<- <-]|[Hne2 Hq2]]%lookup_insert_Some Hne Ho1 Ho2; try done.
    + destruct (Hop Ho1) as (ch & -> & _ & Hch). intros Heq. by apply (Hch q2 c2).
    + destruct (Hop Ho2) as (ch & -> & _ & Hch). by apply (Hch q1 c1).
    + by eapply Hc.
  - intros id r Hid. destruct (Hr id r Hid) as (H1 & H2 & H3). split; [done|]. split; [|done].
    apply lookup_insert_is_Some. destruct (decide (p = r_sub r)); [by left|by right].
Qed.

(** A new subscription that is not opened. *)
Lemma inv_new d p c :
  dial_inv d → heap d !! p = None → p < fresh d → cs_opened c = false →
  (∀ ch, cs_stop c = Some ch → ch < fresh d) → dial_inv (with_heap (<[p := c]> (heap d)) d).
Proof.
  intros [Hn Hu Hg Hh Hc Hcl Hr] Hp Hlt Hop Hst. split; simpl; try done.
  - intros name q Hq. destruct (Hn name q Hq) as (c0 & H0 & H1). exists c0.
    rewrite lookup_insert_ne by congruence. done.
  - intros q c0 [[<- <-]|[Hne Hq]]%lookup_insert_Some; [|by apply Hh]. split; [done|]. split; [done|congruence].
  - intros q1 q2 c1 c2 [[<- <-]|[Hne1 Hq1]]%lookup_insert_Some [[<- <-]|[Hne2 Hq2]]%lookup_insert_Some Hne Ho1 Ho2;
      try congruence. by eapply Hc.
  - intros id r Hid. destruct (Hr id r Hid) as (H1 & H2 & H3). split; [done|]. split; [|done].
    apply lookup_insert_is_Some. destruct (decide (p = r_sub r)); [by left|by right].
Qed.

Lemma inv_run d id r :
  dial_inv d → id < fresh d → is_Some (heap d !! r_sub r) → rotates r →
  dial_inv (with_runs (<[id := r]> (runs d)) d).
Proof.
  intros [Hn Hu Hg Hh Hc Hcl Hr] Hid Hs Hrot. split; simpl; try done.
  intros i r0 [[<- <-]|[Hne Hi]]%lookup_insert_Some; [done|by apply Hr].
Qed.

Lemma inv_end d id : dial_inv d → dial_inv (with_runs (delete id (runs d)) d).
Proof.
  intros [Hn Hu Hg Hh Hc Hcl Hr]. split; simpl; try done.
  intros i r0 [_ Hi]%lookup_delete_Some. by apply Hr.
Qed.

(** What a step on one subscription leaves as it is. *)
Definition frame (d d' : D) : Prop :=
  DestGrp2ClientSubMap d' = DestGrp2ClientSubMap d ∧ destGrpNameMap d' = destGrpNameMap d ∧
  ClientSubscriptionNameMap d' = ClientSubscriptionNameMap d ∧ fresh d ≤ fresh d' ∧
  (∀ q, is_Some (heap d !! q) → is_Some (heap d' !! q)) ∧
  (∀ q c', heap d' !! q = Some c' → ∃ c, heap d !! q = Some c ∧ cs_cancel c' = cs_cancel c ∧
     (cs_opened c = false → cs_opened c' = false)).

(** [Close] never closes a channel twice. *)
Lemma close_inv P d p :
  dial_inv d → is_Some (heap d !! p) →
  wp P (Close p) d (λ d' _, dial_inv d' ∧ frame d d' ∧ cancelled d' = cancelled d ∧ runs d' = runs d ∧
    ∃ c', heap d' !! p = Some c' ∧ cs_opened c' = false).
Proof.
  intros Hinv [c0 Hc0]. unfold Close. apply wp_bind, wp_deref; [|intros [?|(? & ? & ?)]; simplify_eq].
  intros q c [= <-] Hp. assert (c0 = c) as -> by congruence. destruct (cs_opened c) eqn:Ho.
  - destruct (inv_heap d Hinv p c Hp) as (Hlt & Hst & Hopen). destruct (Hopen Ho) as (ch & Hch & Hncl).
    rewrite Hch. apply wp_bind. unfold wp, close_chan. rewrite bool_decide_false by done. simpl.
    set (c' := set_run (cs_client c) (Some ch) false (conTryCnt c) c). split.
    + assert (dial_inv (with_heap (<[p := c']> (heap d)) d)) as Hinv' by (by eapply inv_store; [..|naive_solver|done]).
      destruct Hinv' as [Hn Hu Hg Hh Hc Hcl Hr]. split; simpl in *; try done.
      * intros q c2 Hq. destruct (Hh q c2 Hq) as (H1 & H2 & H3). split; [done|]. split; [done|].
        intros Ho2. destruct (H3 Ho2) as (ch2 & Hch2 & Hn2). exists ch2. split; [done|].
        apply lookup_insert_Some in Hq as [[<- <-]|[Hne Hq]]; [done|].
        rewrite elem_of_union, elem_of_singleton. intros [->|?]; [|done].
        apply (inv_chan d Hinv p q c c2); [done..|congruence].
      * intros ch2. rewrite elem_of_union, elem_of_singleton. intros [->|?]; [|by apply Hcl]. by apply Hst.
    + split; [|split; [done|split; [done|]]].
      * split_and!; [done..|simpl; lia| |].
        -- intros q Hq. apply lookup_insert_is_Some. destruct (decide (p = q)); [by left|by right].
        -- intros q c2 Hq. simpl in Hq. apply lookup_insert_Some in Hq as [[<- <-]|[Hne Hq]]; eauto.
      * exists c'. simpl. by rewrite lookup_insert_eq.
  - apply wp_ret. split; [done|]. split; [split_and!; by eauto|]. by eauto 6.
Qed.

Lemma inv_cancelled d x : dial_inv d → dial_inv (with_cancelled x d).
Proof. by intros []. Qed.

Lemma frame_refl d : frame d d.
Proof. split_and!; by eauto. Qed.
Lemma frame_config d d' : frame d d' → same_config d d'.
Proof. intros (H1 & H2 & H3 & _). unfold same_config. rewrite H3. done. Qed.
Lemma same_config_refl d : same_config d d.
Proof. done. Qed.
Lemma same_config_trans d1 d2 d3 : same_config d1 d2 → same_config d2 d3 → same_config d1 d3.
Proof.
  intros (H1 & H2 & H3) (H4 & H5 & H6). split_and!; [congruence..|]. intros n. by rewrite H6, H3.
Qed.

Lemma rotates_new ctx p dests :
  rotates {| r_ctx := ctx; r_sub := p; r_dests := dests; r_idx := 0; r_pc := AtRestart; r_tried := [] |}.
Proof. split; [done|]. split; [done|]. simpl. intros Hne. destruct dests; [done|]. simpl. by rewrite Nat.sub_diag || done. Qed.

Section programs.
Context {MR : MapRange} (new_dc : dc_kind → list Path → option Path → option string)
  (StringToPath : string → option Path).

Lemma new_instance_inv P ctx d p :
  dial_inv d → is_Some (heap d !! p) →
  wp P (NewInstance new_dc ctx p) d (λ d' _, dial_inv d' ∧ frame d d' ∧ heap d' = heap d ∧ cancelled d' = cancelled d).
Proof.
  intros Hinv Hp. unfold NewInstance. apply wp_bind, wp_deref.
  2: { intros [?|(q & ? & Hq)]; simplify_eq. rewrite Hq in Hp. by destruct Hp. }
  intros q c [= <-] Hc. destruct (bool_decide _); [apply wp_ret; by eauto using frame_refl|].
  apply wp_bind. unfold wp at 1, get. destruct (destGrpNameMap d !! _) as [dests|]; [|apply wp_ret; by eauto using frame_refl].
  destruct (bool_decide _); [apply wp_ret; by eauto using frame_refl|].
  destruct (new_dc _ _ _); [apply wp_ret; by eauto using frame_refl|].
  unfold wp, alloc, upd, mbind, PM_bind. simpl. split; [|split; [split_and!; simpl; eauto; lia|done]].
  apply (inv_run (with_fresh (S (fresh d)) d) (fresh d)); [by apply inv_alloc|simpl; lia|exact Hp|apply rotates_new].
Qed.

(** The named subscription is closed and its context cancelled. *)
Definition stopped_sub (d : D) (name : string) : Prop :=
  ∀ p c, ClientSubscriptionNameMap d !! name = Some p → heap d !! p = Some c →
  cs_opened c = false ∧ cs_cancel c ∈ cancelled d.

Lemma close_named_inv (P : Prop) d name :
  dial_inv d → (ClientSubscriptionNameMap d !! name = None → P) →
  wp P (close_named name) d (λ d' _, dial_inv d' ∧ frame d d' ∧ cancelled d ⊆ cancelled d' ∧ runs d' = runs d ∧
    stopped_sub d' name ∧
    ∃ p c, ClientSubscriptionNameMap d !! name = Some p ∧ heap d !! p = Some c ∧
      cancelled d' = {[cs_cancel c]} ∪ cancelled d).
Proof.
  intros Hinv HP. unfold close_named. apply wp_bind. unfold wp at 1, get. apply wp_bind, wp_deref.
  2: { intros [?|(q & Hn & Hq)]; [by apply HP|]. destruct (inv_names d Hinv name q Hn) as (c & ? & _). congruence. }
  intros p c Hn Hc. apply wp_bind. eapply wp_mono; [apply (close_inv P d p); by eauto|].
  intros d' [] (Hinv' & Hf & Hcan & Hruns & c' & Hc' & Ho'). unfold wp, cancel, upd. simpl.
  split; [by apply inv_cancelled|]. split; [done|]. rewrite Hcan. split; [set_solver|]. split; [done|].
  split; [|by exists p, c]. destruct Hf as (_ & _ & Hnm & _ & _ & Hk).
  intros p0 c0 Hp0 Hc0. simpl in *. rewrite Hnm, Hn in Hp0. injection Hp0 as <-.
  destruct (Hk p c0 Hc0) as (c1 & Hc1 & -> & _). assert (c1 = c) as -> by congruence.
  split; [congruence|set_solver].
Qed.

(** Closing another subscription keeps one stopped. *)
Lemma frame_stopped d d' name :
  frame d d' → cancelled d ⊆ cancelled d' → stopped_sub d name → stopped_sub d' name.
Proof.
  intros (_ & _ & Hnm & _ & _ & Hk) Hcan Hs p c' Hp Hc'. rewrite Hnm in Hp.
  destruct (Hk p c' Hc') as (c & Hc & -> & Ho). destruct (Hs p c Hp Hc). auto.
Qed.

(** A group lists a subscription that is gone. *)
Definition stale_user (d : D) : Prop :=
  ∃ g l name, DestGrp2ClientSubMap d !! g = Some l ∧ name ∈ l ∧ ClientSubscriptionNameMap d !! name = None.

Definition group_users (d : D) (g : string) : list string := default [] (DestGrp2ClientSubMap d !! g).

(** Elements of a loop that are done stay done. *)
Lemma wp_each_done {A} P (f : A → PM ()) (I : D → Prop) (R : A → D → Prop) xs d :
  (∀ x d, x ∈ xs → I d → wp P (f x) d (λ d' _, I d' ∧ R x d' ∧ ∀ y, R y d → R y d')) →
  I d → wp P (each f xs) d (λ d' _, I d' ∧ (∀ x, x ∈ xs → R x d') ∧ ∀ y, R y d → R y d').
Proof.
  revert d. induction xs as [|x xs IH]; intros d Hf HI.
  { apply wp_ret. split; [done|]. split; [by intros ? ?%elem_of_nil|done]. }
  simpl. apply wp_bind. eapply wp_mono; [apply Hf; [left|done]|]. intros d1 a (HI1 & Hx & Hk).
  eapply wp_mono; [apply IH; [intros y d2 Hy; apply Hf; by right|done]|]. intros d2 b (HI2 & Hall & Hk2).
  split; [done|]. split; [|naive_solver]. intros y [->|Hy]%elem_of_cons; auto.
Qed.

Lemma close_group_inv d g :
  dial_inv d →
  wp (stale_user d) (closeDestGroupClient g) d (λ d' _, dial_inv d' ∧ same_config d d' ∧ cancelled d ⊆ cancelled d' ∧
    ∀ name, name ∈ group_users d g → stopped_sub d' name).
Proof.
  intros Hinv. unfold closeDestGroupClient, group_users. apply wp_bind. unfold wp at 1, get.
  destruct (DestGrp2ClientSubMap d !! g) as [names|] eqn:Hg.
  2: { apply wp_ret. split; [done|]. split; [done|]. split; [done|]. by intros ? ?%elem_of_nil. }
  eapply wp_mono; [apply (wp_each_done _ _ (λ d1, dial_inv d1 ∧ same_config d d1 ∧ cancelled d ⊆ cancelled d1)
    (λ name d1, stopped_sub d1 name)); [|done]|by intros d1 a ((? & ? & ?) & ? & _)].
  intros name d1 Hin (Hinv1 & Hsame & Hsub).
  eapply wp_mono; [apply (close_named_inv (stale_user d) d1 name Hinv1)|].
  - intros Hnone. exists g, names, name. split; [done|]. split; [done|]. apply eq_None_not_Some. intros Hs.
    apply Hsame in Hs as [p Hp]. congruence.
  - intros d2 a (Hinv2 & Hf & Hcan & _ & Hst & _). split_and!; [done|eapply same_config_trans; [done|by apply frame_config]|set_solver|done|].
    intros y. by apply frame_stopped.
Qed.

Lemma inv_rename d name p c :
  dial_inv d → heap d !! p = Some c → cs_name c = name → destGroupName c ≠ "" →
  (∃ l, DestGrp2ClientSubMap d !! destGroupName c = Some l ∧ name ∈ l) →
  dial_inv (with_names (<[name := p]> (ClientSubscriptionNameMap d)) d).
Proof.
  intros [Hn Hu Hg Hh Hc Hcl Hr] Hp Hname Hgrp Hl. split; simpl; try done.
  intros n q [[<- <-]|[Hne Hq]]%lookup_insert_Some; [eauto|by apply Hn].
Qed.

Lemma setup_named_inv (P : Prop) ctx d name :
  dial_inv d → (ClientSubscriptionNameMap d !! name = None → P) →
  (∀ p c, ClientSubscriptionNameMap d !! name = Some p → heap d !! p = Some c → cs_opened c = false) →
  wp P (setup_named new_dc ctx name) d (λ d' _, dial_inv d' ∧ same_config d d' ∧ cancelled d' = cancelled d ∧
    (∀ q c, heap d !! q = Some c → heap d' !! q = Some c) ∧
    (∀ n, n ≠ name → ClientSubscriptionNameMap d' !! n = ClientSubscriptionNameMap d !! n) ∧
    ∃ p q c, ClientSubscriptionNameMap d !! name = Some p ∧ heap d !! p = Some c ∧
      ClientSubscriptionNameMap d' !! name = Some q ∧ heap d' !! q = Some c).
Proof.
  intros Hinv HP Hop. unfold setup_named. apply wp_bind. unfold wp at 1, get. apply wp_bind, wp_deref.
  2: { intros [?|(q & Hn & Hq)]; [by apply HP|]. destruct (inv_names d Hinv name q Hn) as (c & ? & _). congruence. }
  intros p c Hn Hc. apply wp_bind. unfold wp at 1, alloc. apply wp_bind. unfold wp at 1, store, upd. simpl.
  destruct (inv_names d Hinv name p Hn) as (c0 & Hc0 & Hname & Hgrp & Hl). simplify_eq.
  assert (heap d !! fresh d = None) as Hfree.
  { apply eq_None_not_Some. intros [c1 Hc1]. destruct (inv_heap d Hinv _ _ Hc1). lia. }
  assert (dial_inv (with_heap (<[fresh d := c]> (heap d)) (with_fresh (S (fresh d)) d))) as Hinv2.
  { apply (inv_new (with_fresh (S (fresh d)) d)); [by apply inv_alloc|done|simpl; lia|by eapply Hop|].
    intros ch Hch. destruct (inv_heap d Hinv _ _ Hc) as (_ & Hst & _). specialize (Hst ch Hch). simpl. lia. }
  apply wp_bind. eapply wp_mono.
  { apply (new_instance_inv P ctx _ (fresh d) Hinv2). simpl. rewrite lookup_insert_eq. eauto. }
  intros d3 a (Hinv3 & Hf & Hheap & Hcan). unfold wp, upd. simpl. destruct Hf as (Hu & Hg & Hnm & _).
  simpl in Hu, Hg, Hnm, Hheap, Hcan. rewrite Hnm, Hheap. split_and!.
  - rewrite <- Hnm. apply (inv_rename _ _ _ c); [done|by rewrite Hheap, lookup_insert_eq|done..|by rewrite Hu].
  - split_and!; [done..|]. simpl. intros n. rewrite lookup_insert_is_Some.
    destruct (decide (cs_name c = n)) as [<-|]; naive_solver.
  - done.
  - intros q c1 Hq. rewrite lookup_insert_ne; [done|]. intros <-. congruence.
  - intros n Hne. by rewrite lookup_insert_ne.
  - exists p, (fresh d), c. rewrite !lookup_insert_eq. done.
Qed.

Lemma setup_group_inv d g ctx :
  dial_inv d → (∀ name, name ∈ group_users d g → stopped_sub d name) →
  wp (stale_user d) (setupDestGroupClients new_dc ctx g) d (λ d' _, dial_inv d' ∧ same_config d d' ∧
    cancelled d' = cancelled d ∧ ∀ name, name ∈ group_users d g → stopped_sub d' name).
Proof.
  intros Hinv Hst. unfold setupDestGroupClients, group_users in *. apply wp_bind. unfold wp at 1, get.
  destruct (DestGrp2ClientSubMap d !! g) as [names|] eqn:Hg; [|by apply wp_ret]. simpl in Hst.
  eapply wp_mono; [apply (wp_each _ _ (λ d1, dial_inv d1 ∧ same_config d d1 ∧ cancelled d1 = cancelled d ∧
    ∀ name, name ∈ names → stopped_sub d1 name)); [|done]|done].
  intros name d1 Hin (Hinv1 & Hsame & Hcan & Hall).
  eapply wp_mono; [apply (setup_named_inv (stale_user d) ctx d1 name Hinv1)|].
  - intros Hnone. exists g, names, name. split; [done|]. split; [done|]. apply eq_None_not_Some. intros Hs.
    apply Hsame in Hs as [p Hp]. congruence.
  - intros p c Hp Hc. by destruct (Hall name Hin p c Hp Hc).
  - intros d2 a (Hinv2 & Hsame2 & Hcan2 & Hheap & Hoth & p & q & c & Hp & Hc & Hq & Hc2).
    split; [done|]. split; [by eapply same_config_trans|]. split; [congruence|]. intros n Hn p' c' Hp' Hc'. rewrite Hcan2.
    destruct (decide (n = name)) as [->|Hne].
    + simplify_eq. by apply (Hall name Hin p c).
    + rewrite Hoth in Hp' by done. destruct (inv_names d1 Hinv1 n p' Hp') as (c1 & Hc1 & _).
      apply Hheap in Hc1 as Hc1'. simplify_eq. by apply (Hall n Hn p' c').
Qed.

Lemma stale_same d d' : same_config d d' → stale_user d' → stale_user d.
Proof.
  intros (Hu & _ & Hn) (g & l & name & Hg & Hl & Hnone). exists g, l, name. rewrite <- Hu. split; [done|]. split; [done|].
  apply eq_None_not_Some. intros Hs. apply Hn in Hs as [? ?]. congruence.
Qed.

Lemma wp_weaken {A} (P P' : Prop) (m : PM A) d Q : wp P m d Q → (P → P') → wp P' m d Q.
Proof. unfold wp. destruct (m d) as [[]|]; auto. Qed.

Lemma same_users d d' g : same_config d d' → group_users d' g = group_users d g.
Proof. intros (Hu & _). unfold group_users. by rewrite Hu. Qed.

(** Closing and setting up a group: its subscriptions are left with a context
    that is cancelled already. *)
Lemma regroup_inv d g ctx :
  dial_inv d →
  wp (stale_user d) (_ ← closeDestGroupClient g; setupDestGroupClients new_dc ctx g) d (λ d' _,
    dial_inv d' ∧ same_config d d' ∧ ∀ name, name ∈ group_users d g → stopped_sub d' name).
Proof.
  intros Hinv. apply wp_bind. eapply wp_mono; [by apply close_group_inv|]. intros d1 a (Hinv1 & Hsame & _ & Hst).
  eapply wp_weaken; [eapply wp_mono; [apply setup_group_inv; [done|by rewrite (same_users d)]|]|by apply stale_same].
  intros d2 b (Hinv2 & Hsame2 & _ & Hst2). split; [done|]. split; [by eapply same_config_trans|].
  by rewrite (same_users d) in Hst2.
Qed.

Lemma inv_config d x : dial_inv d → dial_inv (with_cfg x d).
Proof. by intros []. Qed.

Lemma global_inv d ctx op fv : dial_inv d → wp (stale_user d) (process_global new_dc ctx op fv) d (λ d' _, dial_inv d').
Proof.
  intros Hinv. unfold process_global. destruct (bool_decide _); [by apply wp_ret|].
  apply wp_bind. unfold wp at 1, upd. apply wp_bind. unfold wp at 1, get. apply wp_bind.
  set (d0 := with_cfg _ d). assert (dial_inv d0) as Hinv0 by (by apply inv_config).
  eapply wp_mono; [apply (wp_each (stale_user d) _ (λ d1, dial_inv d1 ∧ same_config d0 d1)); [|done]|by intros d1 a [? _]].
  intros g d1 _ [Hinv1 Hsame]. eapply wp_weaken; [eapply wp_mono; [by apply regroup_inv|]|].
  - intros d2 a (Hinv2 & Hsame2 & _). split; [done|by eapply same_config_trans].
  - intros Hs. by apply (stale_same _ _ Hsame) in Hs.
Qed.

(** The addresses of a group that is accepted are not empty. *)
Lemma group_field_ok fv dests :
  foldM group_field [] (map_range fv) = Ok dests → Forall (λ a, a ≠ "") dests.
Proof.
  intros H. eapply (foldM_inv (Forall (λ a, a ≠ ""))); [|constructor|done].
  intros l [field value] l' _ Hl. unfold group_field. case_bool_decide; [|done]. intros H'.
  eapply (foldM_inv (Forall (λ a, a ≠ ""))); [|done..].
  intros l1 a l2 _ Hl1. unfold group_addr, Validate. case_bool_decide; [done|]. intros [= <-].
  apply Forall_app. split; [done|by constructor].
Qed.

Lemma inv_group d g dests :
  dial_inv d → g ≠ "" → Forall (λ a, a ≠ "") dests → dial_inv (with_groups (<[g := dests]> (destGrpNameMap d)) d).
Proof.
  intros [Hn Hu Hg Hh Hc Hcl Hr] Hne Hf. split; simpl; try done.
  intros g' l [[<- <-]|[_ Hl]]%lookup_insert_Some; [done|by apply Hg].
Qed.

Lemma inv_group_delete d g : dial_inv d → dial_inv (with_groups (delete g (destGrpNameMap d)) d).
Proof.
  intros [Hn Hu Hg Hh Hc Hcl Hr]. split; simpl; try done. intros g' l [_ Hl]%lookup_delete_Some. by apply Hg.
Qed.

Lemma group_inv d ctx g op fv :
  dial_inv d →
  wp (stale_user d) (process_group new_dc ctx g op fv) d (λ d' e, dial_inv d' ∧
    (g ≠ "" → op ≠ "hdel" → e = None → ∀ name, name ∈ group_users d g → stopped_sub d' name)).
Proof.
  intros Hinv. unfold process_group. case_bool_decide as Hne; [by apply wp_ret|]. apply wp_bind.
  eapply wp_mono; [by apply close_group_inv|]. intros d1 a (Hinv1 & Hsame & _ & Hst).
  case_bool_decide as Hop.
  - apply wp_bind. unfold wp at 1, get. destruct (DestGrp2ClientSubMap d1 !! g); [by apply wp_ret|].
    apply wp_bind. unfold wp, upd. simpl. split; [by apply inv_group_delete|done].
  - destruct (foldM group_field [] (map_range fv)) as [dests|e] eqn:Hf; [|by apply wp_ret].
    apply wp_bind. unfold wp at 1, upd. apply wp_bind. set (d2 := with_groups _ d1).
    assert (dial_inv d2) as Hinv2 by (apply inv_group; [done|done|by eapply group_field_ok]).
    eapply wp_weaken; [eapply wp_mono; [apply (setup_group_inv d2 g ctx Hinv2)|]|].
    + change (group_users d2 g) with (group_users d1 g). by rewrite (same_users d).
    + intros d3 b (Hinv3 & _ & _ & Hst3). apply wp_ret. split; [done|]. intros _ _ _.
      change (group_users d2 g) with (group_users d1 g) in Hst3. by rewrite (same_users d) in Hst3.
    + intros Hs. by apply (stale_same _ _ Hsame) in Hs.
Qed.

Lemma elem_of_remove_first n name l : n ≠ name → n ∈ l → n ∈ remove_first name l.
Proof.
  intros Hne. induction l as [|x l IH]; simpl; [done|]. rewrite elem_of_cons. case_bool_decide; [naive_solver|].
  rewrite elem_of_cons. naive_solver.
Qed.

Lemma NoDup_remove_first name l : NoDup l → NoDup (remove_first name l).
Proof.
  assert (∀ n l, n ∈ remove_first name l → n ∈ l) as Hsub.
  { intros n l'. induction l' as [|x l' IH]; simpl; [done|]. case_bool_decide; [by right|].
    rewrite !elem_of_cons. naive_solver. }
  induction l as [|x l IH]; simpl; [done|]. intros [Hx Hl]%NoDup_cons. case_bool_decide; [done|].
  apply NoDup_cons. split; [by intros ?%Hsub|by apply IH].
Qed.

Lemma inv_remove d name c :
  dial_inv d → (∃ p, ClientSubscriptionNameMap d !! name = Some p ∧ heap d !! p = Some c) →
  dial_inv (with_names (delete name (ClientSubscriptionNameMap d))
    (with_users (<[destGroupName c := remove_first name (default [] (DestGrp2ClientSubMap d !! destGroupName c))]>
      (DestGrp2ClientSubMap d)) d)).
Proof.
  intros [Hn Hu Hg Hh Hc Hcl Hr] (p & Hp & Hpc). split; simpl; try done.
  - intros n q [Hne Hq]%lookup_delete_Some. destruct (Hn n q Hq) as (c1 & H1 & H2 & H3 & l & Hl & Hin).
    exists c1. split; [done|]. split; [done|]. split; [done|].
    destruct (decide (destGroupName c = destGroupName c1)) as [He|Hne2].
    + rewrite He, lookup_insert_eq, Hl. eexists. split; [done|]. by apply elem_of_remove_first.
    + rewrite lookup_insert_ne by done. eauto.
  - intros g l [[<- <-]|[_ Hl]]%lookup_insert_Some; [|by eapply Hu]. apply NoDup_remove_first.
    destruct (DestGrp2ClientSubMap d !! destGroupName c) eqn:E; simpl; [by eapply Hu|constructor].
Qed.

Lemma inv_add_user P d name g :
  dial_inv d → wp P (add_user name g) d (λ d' _, dial_inv d' ∧ heap d' = heap d ∧ fresh d' = fresh d ∧
    (∃ l, DestGrp2ClientSubMap d' !! g = Some l ∧ name ∈ l)).
Proof.
  intros Hinv. unfold add_user. apply wp_bind. unfold wp at 1, get.
  destruct (DestGrp2ClientSubMap d !! g) as [l|] eqn:Hg; [change (default [] (Some l)) with l; case_bool_decide as Hin|].
  - apply wp_ret. eauto 6.
  - unfold wp, upd. split; [|split_and!; [done..|]].
    + destruct Hinv as [Hn Hu Hgr Hh Hc Hcl Hr]. split; simpl; try done.
      * intros n q Hq. destruct (Hn n q Hq) as (c1 & H1 & H2 & H3 & l1 & Hl1 & Hin1). exists c1. split_and!; [done..|].
        destruct (decide (g = destGroupName c1)) as [->|]; [|rewrite lookup_insert_ne by done; by eauto].
        rewrite lookup_insert_eq. eexists. split; [done|]. simplify_eq. set_solver.
      * intros g1 l1 [[<- <-]|[_ Hl1]]%lookup_insert_Some; [|by eapply Hu].
        apply NoDup_app. split_and!; [by eapply Hu|set_solver|apply NoDup_singleton].
    + simpl. rewrite lookup_insert_eq. eexists. split; [done|]. set_solver.
  - unfold wp. simpl. split; [|split_and!; [done..|]].
    + destruct Hinv as [Hn Hu Hgr Hh Hc Hcl Hr]. split; simpl; try done.
      * intros n q Hq. destruct (Hn n q Hq) as (c1 & H1 & H2 & H3 & l1 & Hl1 & Hin1). exists c1. split_and!; [done..|].
        rewrite lookup_insert_ne by congruence. eauto.
      * intros g1 l1 [[<- <-]|[_ Hl1]]%lookup_insert_Some; [apply NoDup_singleton|by eapply Hu].
    + simpl. rewrite lookup_insert_eq. eexists. split; [done|]. set_solver.
Qed.

(** What the fields of a row do not touch. *)
Lemma sub_field_static name ctx fv c :
  foldM (sub_field StringToPath) (new_subscription name ctx) (map_range fv) = Ok c →
  cs_name c = name ∧ cs_stop c = None ∧ cs_opened c = false ∧ cs_client c = false ∧ cs_cancel c = ctx.
Proof.
  intros H. eapply (foldM_inv (λ c, cs_name c = name ∧ cs_stop c = None ∧ cs_opened c = false ∧ cs_client c = false ∧
    cs_cancel c = ctx)); [| |exact H]; [|by split_and!].
  intros c1 [field value] c2 _ Hc1. unfold sub_field. repeat case_bool_decide; try done; try (by intros [= <-]).
  - destruct (ParseUint value); by intros [= <-].
  - intros (ps & _ & [= <-])%bind_Ok. done.
Qed.

Lemma delete_inv d name :
  dial_inv d → wp (ClientSubscriptionNameMap d !! name = None) (delete_subscription name) d (λ d' _, dial_inv d').
Proof.
  intros Hinv. unfold delete_subscription. apply wp_bind. unfold wp at 1, get. apply wp_bind, wp_deref.
  - intros p c Hn Hc. unfold wp, upd, mbind, PM_bind. simpl. apply inv_remove; [done|]. eauto.
  - intros [?|(q & Hn & Hq)]; [done|]. destruct (inv_names d Hinv name q Hn) as (c & ? & _). congruence.
Qed.

Lemma subscription_inv d ctx name op fv :
  dial_inv d →
  wp (op = "hdel" ∧ ClientSubscriptionNameMap d !! name = None)
     (process_subscription new_dc StringToPath ctx name op fv) d (λ d' _, dial_inv d').
Proof.
  intros Hinv. unfold process_subscription. case_bool_decide as Hne; [by apply wp_ret|].
  apply wp_bind. unfold wp at 1, get. apply wp_bind. apply wp_mono with (Q := λ d1 _, dial_inv d1 ∧
    ClientSubscriptionNameMap d1 = ClientSubscriptionNameMap d).
  { destruct (ClientSubscriptionNameMap d !! name) as [p|] eqn:Hn; [|by apply wp_ret].
    eapply wp_mono; [apply (close_named_inv _ d name Hinv); congruence|].
    intros d1 a (Hinv1 & (_ & _ & Hnm & _) & _). done. }
  intros d1 a [Hinv1 Hnm]. case_bool_decide as Hop.
  { eapply wp_weaken; [by apply delete_inv|]. by rewrite Hnm. }
  destruct (foldM _ _ _) as [c|e] eqn:Hc; [|by apply wp_ret]. apply sub_field_static in Hc as (Hname & Hst & Ho & _ & _).
  case_bool_decide as Hgrp; [by apply wp_ret|].
  apply wp_bind. eapply wp_mono; [by apply inv_add_user|]. intros d2 b (Hinv2 & Hheap & Hfresh & l & Hl & Hin).
  apply wp_bind. unfold wp at 1, alloc. apply wp_bind. unfold wp at 1, store, upd. apply wp_bind. unfold wp at 1. simpl.
  set (d3 := with_names _ _). assert (dial_inv d3) as Hinv3.
  { apply (inv_rename (with_heap (<[fresh d2 := c]> (heap d2)) (with_fresh (S (fresh d2)) d2)) _ _ c);
      [|by simpl; rewrite lookup_insert_eq|done..|by eauto].
    apply (inv_new (with_fresh (S (fresh d2)) d2)); [by apply inv_alloc| |simpl; lia|done|].
    - simpl. apply eq_None_not_Some. intros [c1 Hc1]. destruct (inv_heap d2 Hinv2 _ _ Hc1). lia.
    - intros ch. by rewrite Hst. }
  apply wp_bind. eapply wp_mono; [apply new_instance_inv; [done|simpl; rewrite lookup_insert_eq; by eauto]|].
  intros d4 e (Hinv4 & _). by apply wp_ret.
Qed.

(** A message asks for the deletion of a subscription that is not there. *)
Definition deletes_unknown (d : D) (key payload : string) : Prop :=
  op_of_payload payload = Some "hdel" ∧
  ∃ name, key = "Subscription_" +:+ name ∧ ClientSubscriptionNameMap d !! name = None.

Lemma message_inv d separator conn key payload :
  dial_inv d →
  wp (stale_user d ∨ deletes_unknown d key payload)
     (dial_message new_dc StringToPath separator conn key payload) d (λ d' _, dial_inv d').
Proof.
  intros Hinv. unfold dial_message. destruct (op_of_payload payload) as [op|] eqn:Hop; [|by apply wp_ret].
  apply wp_bind. eapply wp_mono; [|intros d' e H; apply wp_ret; exact H].
  unfold processTelemetryClientConfig. destruct separator as [sep|]; [|by apply wp_ret].
  destruct (HGetAll _ _) as [fv|]; [|by apply wp_ret]. apply wp_bind. unfold wp at 1, alloc.
  set (d1 := with_fresh _ d). assert (dial_inv d1) as Hinv1 by (by apply inv_alloc).
  case_bool_decide; [eapply wp_weaken; [by apply global_inv|by left]|].
  destruct (HasPrefix key "DestinationGroup_").
  { eapply wp_weaken; [eapply wp_mono; [by apply group_inv|by intros d' e [? _]]|by left]. }
  destruct (HasPrefix key "Subscription_") eqn:Hp; [|by apply wp_ret].
  eapply wp_weaken; [by apply subscription_inv|]. intros [-> Hnone]. right. split; [done|].
  apply HasPrefix_spec in Hp as [name ->]. exists name. rewrite TrimPrefix_app in Hnone. done.
Qed.

(** ** The routines *)

Lemma rotates_pc pc r : rotates r → rotates (set_pc pc r).
Proof. done. Qed.

Lemma rotates_next ctx p dests idx pc tried dest :
  rotates {| r_ctx := ctx; r_sub := p; r_dests := dests; r_idx := idx; r_pc := pc; r_tried := tried |} →
  dests !! idx = Some dest →
  rotates {| r_ctx := ctx; r_sub := p; r_dests := dests; r_idx := S idx mod length dests;
             r_pc := Dialing dest; r_tried := tried ++ [dest] |}.
Proof.
  intros (Ht & _ & Hi) Hd. simpl in *. assert (dests ≠ []) as Hne by (by intros ->).
  specialize (Hi Hne). split; [|split; [done|]]; simpl.
  - intros i x [Hx|[Hge Hx]]%lookup_app_Some; [by apply Ht|]. apply list_lookup_singleton_Some in Hx as [H0 <-].
    replace i with (length tried) by lia. by rewrite <- Hi.
  - intros _. rewrite length_app. simpl. rewrite Hi. rewrite <- (Nat.Div0.add_mod_idemp_l (length tried)).
    by rewrite Nat.add_comm.
Qed.

Lemma put_run_inv P d id r :
  dial_inv d → id < fresh d → is_Some (heap d !! r_sub r) → rotates r → wp P (put_run id r) d (λ d' _, dial_inv d').
Proof. intros. unfold wp, put_run, upd. by apply inv_run. Qed.

Lemma restart_inv d id r :
  dial_inv d → runs d !! id = Some r → wp (r_dests r = []) (run_restart id r) d (λ d' _, dial_inv d').
Proof.
  intros Hinv Hr. destruct (inv_runs d Hinv id r Hr) as (Hid & [c Hc] & Hrot).
  unfold run_restart. apply wp_bind, wp_deref; [|intros [?|(q & ? & Hq)]; simplify_eq].
  intros p c0 [= <-] Hc0. simplify_eq. apply wp_bind. unfold wp at 1, alloc. apply wp_bind. unfold wp at 1, store, upd.
  destruct (r_dests r !! r_idx r) as [dest|] eqn:Hd.
  - set (d1 := with_heap _ _). assert (dial_inv d1) as Hinv1.
    { apply (inv_store (with_fresh (S (fresh d)) d) (r_sub r) c); [by apply inv_alloc|done..| |]; simpl.
      - intros ch [= <-]. lia.
      - intros _. exists (fresh d). split; [done|]. split; [intros ?%(inv_closed d Hinv); lia|].
        intros q c2 _ Hq _ Hst. destruct (inv_heap d Hinv q c2 Hq) as (_ & Hlt & _). specialize (Hlt _ Hst). lia. }
    apply put_run_inv; [done|simpl; lia|simpl; rewrite lookup_insert_eq; by eauto|].
    destruct r. eapply rotates_next; [exact Hrot|exact Hd].
  - unfold wp, panic. destruct Hrot as (_ & _ & Hi). destruct (decide (r_dests r = [])) as [|Hne]; [done|].
    specialize (Hi Hne). apply lookup_ge_None in Hd. rewrite Hi in Hd.
    pose proof (Nat.mod_upper_bound (length (r_tried r)) (length (r_dests r))). destruct (r_dests r); simpl in *; [done|lia].
Qed.

(** Closing the subscription of a routine and going on. *)
Lemma close_then_inv P d p (k : PM ()) :
  dial_inv d → is_Some (heap d !! p) →
  (∀ d', dial_inv d' → runs d' = runs d → fresh d ≤ fresh d' → (∀ q, is_Some (heap d !! q) → is_Some (heap d' !! q)) →
    wp P k d' (λ d'' _, dial_inv d'')) →
  wp P (_ ← Close p; k) d (λ d' _, dial_inv d').
Proof.
  intros Hinv Hp Hk. apply wp_bind. eapply wp_mono; [by apply close_inv|].
  intros d' a (Hinv' & (_ & _ & _ & Hfr & Hq & _) & _ & Hruns & _). by apply Hk.
Qed.

Lemma end_run_inv P d id : dial_inv d → wp P (end_run id) d (λ d' _, dial_inv d').
Proof. intros. by apply inv_end. Qed.

Lemma dialed_inv d id r dest ok :
  dial_inv d → runs d !! id = Some r → wp False (run_dialed id r dest ok) d (λ d' _, dial_inv d').
Proof.
  intros Hinv Hr. destruct (inv_runs d Hinv id r Hr) as (Hid & Hc & Hrot).
  unfold run_dialed. apply wp_bind. unfold wp at 1, get. destruct (ctx_done d (r_ctx r)).
  - apply close_then_inv; [done..|]. intros d' Hd' _ _ _. by apply end_run_inv.
  - by apply put_run_inv.
Qed.

Lemma failed_inv d id r :
  dial_inv d → runs d !! id = Some r → wp False (run_stream_failed id r) d (λ d' _, dial_inv d').
Proof.
  intros Hinv Hr. destruct (inv_runs d Hinv id r Hr) as (Hid & Hc & Hrot). unfold run_stream_failed.
  apply close_then_inv; [done..|]. intros d' Hd' _ Hf Hq. apply put_run_inv; [done|lia|by apply Hq|done].
Qed.

Lemma published_inv d id r ok :
  dial_inv d → runs d !! id = Some r → wp False (run_published id r ok) d (λ d' _, dial_inv d').
Proof.
  intros Hinv Hr. destruct (inv_runs d Hinv id r Hr) as (Hid & Hc & Hrot).
  unfold run_published. destruct ok; [|by apply failed_inv].
  apply wp_bind, wp_deref; [|intros [?|(q & ? & Hq)]; simplify_eq; rewrite Hq in Hc; by destruct Hc].
  intros p c [= <-] Hc0. destruct (cs_client c); [by apply end_run_inv|]. apply wp_bind. unfold wp at 1, store, upd.
  set (d1 := with_heap _ d). assert (dial_inv d1) as Hinv1.
  { destruct (inv_heap d Hinv _ _ Hc0) as (_ & Hlt & Hop).
    apply (inv_store d (r_sub r) c); [done..|]. simpl. intros Ho. destruct (Hop Ho) as (ch & Hch & Hncl).
    exists ch. split; [done|]. split; [done|]. intros q c2 Hne Hq Ho2.
    rewrite <- Hch. by apply (inv_chan d Hinv q (r_sub r)). }
  destruct (cs_reportType c); [by apply end_run_inv..| |];
    (apply put_run_inv; [done..|simpl; rewrite lookup_insert_eq; by eauto|done]).
Qed.

Lemma periodic_inv d id r values sent :
  dial_inv d → runs d !! id = Some r → wp False (run_periodic id r values sent) d (λ d' _, dial_inv d').
Proof.
  intros Hinv Hr. destruct (inv_runs d Hinv id r Hr) as (Hid & Hc & Hrot).
  unfold run_periodic. apply wp_bind, wp_deref; [|intros [?|(q & ? & Hq)]; simplify_eq; rewrite Hq in Hc; by destruct Hc].
  intros p c [= <-] Hc0. apply wp_bind. unfold wp at 1, get. destruct (told_to_stop d c).
  { apply wp_bind. eapply wp_mono; [by apply end_run_inv|]. intros d' a H. exact H. }
  destruct values as [vs|]; [|by apply wp_ret]. destruct sent; [by apply wp_ret|].
  apply wp_bind. eapply wp_mono; [by apply close_inv|]. intros d1 a (Hinv1 & (_ & _ & _ & Hf & Hq & _) & _).
  apply wp_bind. eapply wp_mono; [apply (put_run_inv False d1); [done|lia|by apply Hq|done]|]. intros d' b H. exact H.
Qed.

Lemma stream_start_inv d id r :
  dial_inv d → runs d !! id = Some r → wp False (run_stream_start id r) d (λ d' _, dial_inv d').
Proof.
  intros Hinv Hr. destruct (inv_runs d Hinv id r Hr) as (Hid & Hc & Hrot).
  unfold run_stream_start. apply wp_bind, wp_deref; [|intros [?|(q & ? & Hq)]; simplify_eq; rewrite Hq in Hc; by destruct Hc].
  intros p c [= <-] Hc0. apply wp_bind. unfold wp at 1, get. destruct (told_to_stop d c); [by apply end_run_inv|by apply put_run_inv].
Qed.

(** ** Every interleaving *)

Lemma wp_outcome {A} P (m : PM A) d d' :
  wp P m d (λ d' _, dial_inv d') → outcome_of (m d) = Returns d' → dial_inv d'.
Proof. unfold wp. destruct (m d) as [[d1 a]|]; simpl; [|done]. by intros ? [= <-]. Qed.

Lemma step_inv d d' : dial_inv d → dial_step new_dc StringToPath d (Returns d') → dial_inv d'.
Proof.
  intros Hinv Hs. remember (Returns d') as x eqn:Hx. destruct Hs.
  - eapply wp_outcome; [by apply message_inv|done].
  - eapply wp_outcome; [by apply restart_inv|done].
  - eapply wp_outcome; [by eapply dialed_inv|done].
  - eapply wp_outcome; [by eapply published_inv|done].
  - eapply wp_outcome; [by eapply periodic_inv|done].
  - eapply wp_outcome; [by eapply stream_start_inv|done].
  - eapply wp_outcome; [by eapply failed_inv|done].
Qed.

Lemma reach_inv cfg d : dial_reach new_dc StringToPath cfg (Returns d) → dial_inv d.
Proof.
  intros Hr. remember (Returns d) as x eqn:Hx. revert d Hx. induction Hr as [|d0 r Hr IH Hs]; intros d Hx.
  - injection Hx as <-. apply dial_inv_start.
  - subst r. eapply step_inv; [by apply IH|done].
Qed.

Lemma wp_panics {A} P (m : PM A) d Q : wp P m d Q → m d = Panics → P.
Proof. unfold wp. intros H Hp. by rewrite Hp in H. Qed.

(** In every interleaving of configuration changes and publishing routines
    the dial-out client panics in three situations only: a row of a
    subscription is deleted that it does not know, a group lists a
    subscription that is gone, or a routine starts on a group without
    addresses.  In particular no channel is closed twice and a routine never
    loses its subscription. *)
Theorem dial_panics_only cfg d :
  dial_reach new_dc StringToPath cfg (Returns d) →
  (∀ separator conn key payload, dial_message new_dc StringToPath separator conn key payload d = Panics →
     stale_user d ∨ deletes_unknown d key payload) ∧
  (∀ id r, runs d !! id = Some r →
     (run_restart id r d = Panics → r_dests r = []) ∧
     (∀ dest ok, run_dialed id r dest ok d ≠ Panics) ∧ (∀ ok, run_published id r ok d ≠ Panics) ∧
     (∀ values sent, run_periodic id r values sent d ≠ Panics) ∧
     run_stream_start id r d ≠ Panics ∧ run_stream_failed id r d ≠ Panics).
Proof.
  intros Hinv%reach_inv. split.
  - intros separator conn key payload. eapply wp_panics. by apply message_inv.
  - intros id r Hr. split_and!.
    + eapply wp_panics. by apply restart_inv.
    + intros dest ok. refine (wp_panics False _ _ _ _). by eapply dialed_inv.
    + intros ok. refine (wp_panics False _ _ _ _). by eapply published_inv.
    + intros values sent. refine (wp_panics False _ _ _ _). by eapply periodic_inv.
    + refine (wp_panics False _ _ _ _). by eapply stream_start_inv.
    + refine (wp_panics False _ _ _ _). by eapply failed_inv.
Qed.

(** A publishing routine dials the destinations of its group in turn: the
    attempt number i goes to the address at i modulo their number. *)
Theorem dial_rotation cfg d id r i dest :
  dial_reach new_dc StringToPath cfg (Returns d) → runs d !! id = Some r → r_tried r !! i = Some dest →
  r_dests r !! (i mod length (r_dests r)) = Some dest.
Proof. intros Hinv%reach_inv Hr. destruct (inv_runs d Hinv id r Hr) as (_ & _ & Ht & _). apply Ht. Qed.

(** After the addresses of a group have changed, the cancel function of each
    of its subscriptions is the one that was called for the change: stopping
    such a subscription later cancels nothing, and the routine that was
    started for it goes on unless the closed channel happens to be looked
    at. *)
Theorem regrouped_not_cancellable cfg d ctx g op fv d' name d2 :
  dial_reach new_dc StringToPath cfg (Returns d) → g ≠ "" → op ≠ "hdel" →
  process_group new_dc ctx g op fv d = Returns (d', None) → name ∈ group_users d g →
  close_named name d' = Returns (d2, ()) → cancelled d2 = cancelled d' ∧ runs d2 = runs d'.
Proof.
  intros Hinv%reach_inv Hg Hop Hp Hin Hc. pose proof (group_inv d ctx g op fv Hinv) as H.
  unfold wp in H. rewrite Hp in H. destruct H as [Hinv' Hst]. specialize (Hst Hg Hop eq_refl name Hin).
  pose proof (close_named_inv True d' name Hinv' (λ _, I)) as H. unfold wp in H. rewrite Hc in H.
  destruct H as (_ & _ & _ & Hruns & _ & p & c & Hn & Hpc & Hcan). split; [|done].
  rewrite Hcan. destruct (Hst p c Hn Hpc). set_solver.
Qed.

(** A group that is or was in use cannot be deleted, and the attempt stops
    its subscriptions all the same. *)
Theorem refused_delete_stops cfg d ctx g fv d' e l :
  dial_reach new_dc StringToPath cfg (Returns d) → g ≠ "" → DestGrp2ClientSubMap d !! g = Some l →
  process_group new_dc ctx g "hdel" fv d = Returns (d', e) →
  e = Some "is being used" ∧ destGrpNameMap d' = destGrpNameMap d ∧
  ∀ name, name ∈ l → stopped_sub d' name.
Proof.
  intros Hinv%reach_inv Hg Hl. unfold process_group. rewrite bool_decide_false by done.
  pose proof (close_group_inv d g Hinv) as H. unfold wp in H. unfold mbind, PM_bind at 1.
  destruct (closeDestGroupClient g d) as [[d1 a]|]; [|done]. destruct H as (_ & (Hu & Hgr & _) & _ & Hst).
  rewrite bool_decide_true by done. unfold mbind, PM_bind, get. simpl. rewrite Hu, Hl. intros [= <- <-]. split; [done|]. split; [done|].
  intros name Hin. apply Hst. unfold group_users. by rewrite Hl.
Qed.

(** ** Runs given by their steps *)

Inductive action :=
| Msg (conn : Conn) (key payload : string)
| DoRestart (id : nat)
| DoDialed (id : nat) (ok : bool)
| DoPublished (id : nat) (ok : bool)
| DoStreamStart (id : nat).

(** An action that does not apply leaves the state. *)
Definition perform (a : action) (d : D) : handled D :=
  match a with
  | Msg conn key payload => outcome_of (dial_message new_dc StringToPath (Ok "|") conn key payload d)
  | DoRestart id =>
      match runs d !! id with
      | Some r => match r_pc r with AtRestart => outcome_of (run_restart id r d) | _ => Returns d end
      | None => Returns d
      end
  | DoDialed id ok =>
      match runs d !! id with
      | Some r => match r_pc r with Dialing dest => outcome_of (run_dialed id r dest ok d) | _ => Returns d end
      | None => Returns d
      end
  | DoPublished id ok =>
      match runs d !! id with
      | Some r => match r_pc r with Publishing dest => outcome_of (run_published id r ok d) | _ => Returns d end
      | None => Returns d
      end
  | DoStreamStart id =>
      match runs d !! id with
      | Some r => match r_pc r with AtStream => outcome_of (run_stream_start id r d) | _ => Returns d end
      | None => Returns d
      end
  end.

Fixpoint perform_all (l : list action) (d : D) : handled D :=
  match l with
  | [] => Returns d
  | a :: l => match perform a d with Returns d' => perform_all l d' | Panics => Panics end
  end.

Lemma perform_reach cfg a d : dial_reach new_dc StringToPath cfg (Returns d) → dial_reach new_dc StringToPath cfg (perform a d).
Proof.
  intros Hr. destruct a as [conn key payload|id|id ok|id ok|id]; simpl.
  - eapply dial_reach_step; [done|]. apply dial_config.
  - destruct (runs d !! id) as [r|] eqn:E; [|done]. destruct (r_pc r) eqn:Ep; try done.
    eapply dial_reach_step; [done|]. by apply dial_restart.
  - destruct (runs d !! id) as [r|] eqn:E; [|done]. destruct (r_pc r) eqn:Ep; try done.
    eapply dial_reach_step; [done|]. by eapply dial_dialed.
  - destruct (runs d !! id) as [r|] eqn:E; [|done]. destruct (r_pc r) eqn:Ep; try done.
    eapply dial_reach_step; [done|]. by eapply dial_published.
  - destruct (runs d !! id) as [r|] eqn:E; [|done]. destruct (r_pc r) eqn:Ep; try done.
    eapply dial_reach_step; [done|]. by apply dial_stream_start.
Qed.

Lemma perform_all_reach cfg l d :
  dial_reach new_dc StringToPath cfg (Returns d) → dial_reach new_dc StringToPath cfg (perform_all l d).
Proof.
  revert d. induction l as [|a l IH]; intros d Hd; simpl; [done|].
  pose proof (perform_reach cfg a d Hd) as Ha. destruct (perform a d); [by apply IH|done].
Qed.

(** The deletion of a subscription that the client does not know, as one
    without a group, which it never stores, ends the process. *)
Theorem unknown_delete_panics sep conn name fv d payload :
  name ≠ "" → ClientSubscriptionNameMap d !! name = None → op_of_payload payload = Some "hdel" →
  HGetAll conn ("TELEMETRY_CLIENT" +:+ sep +:+ "Subscription_" +:+ name) = Ok fv →
  dial_message new_dc StringToPath (Ok sep) conn ("Subscription_" +:+ name) payload d = Panics.
Proof.
  intros Hne Hn Hop Hget. unfold dial_message. rewrite Hop. unfold mbind at 1, PM_bind at 1.
  unfold processTelemetryClientConfig. rewrite Hget. unfold mbind at 1, PM_bind at 1, alloc.
  rewrite (bool_decide_false (_ = "Global")) by (by destruct name). simpl (HasPrefix _ "DestinationGroup_").
  cbn iota. rewrite HasPrefix_app, TrimPrefix_app. unfold process_subscription. rewrite bool_decide_false by done.
  unfold mbind, PM_bind, get. simpl. rewrite Hn. simpl. unfold delete_subscription, mbind, PM_bind, get, deref. simpl. by rewrite ?Hn.
Qed.
End programs.

(** ** Concrete runs *)
Module DialoutExample.
Definition range0 : MapRange := canonical_range.
Local Existing Instance range0.
Definition no_error (k : dc_kind) (ps : list Path) (p : option Path) : option string := None.
Definition parse0 (s : string) : option Path := Some (path_of [s]).
Definition cfg0 : ClientConfig := {| SrcIp := ""; RetryInterval := second; cc_Encoding := JSON_IETF; Unidirectional := true |}.

Definition conn_of (db : gmap string (gmap string string)) : Conn := {|
  Ping := None; Keys := λ _, Ok []; HGetAll := λ k, Ok (default ∅ (db !! k));
  HGetF := λ _ _, Err RedisNil; Exists := λ _, Ok 0%Z; HExists := λ _ _, Ok false
|}.

Definition hset (key : string) (fv : gmap string string) : action :=
  Msg (conn_of {["TELEMETRY_CLIENT|" +:+ key := fv]}) key "hset".
Definition del (key : string) : action := Msg (conn_of ∅) key "del".

Definition sub_in (g : string) : gmap string string :=
  {["dst_group" := g; "report_type" := "stream"; "path_target" := "COUNTERS_DB"; "paths" := "COUNTERS/Ethernet0"]}.

Definition play (l : list action) : handled D := perform_all no_error parse0 l (dial_start cfg0).

Lemma play_reach l : dial_reach no_error parse0 cfg0 (play l).
Proof. apply perform_all_reach, dial_reach_start. Qed.

(** A subscription that moves to another group stays in the list of the first;
    once it is deleted a change of the first group panics. *)
Example moved_then_deleted :
  play [hset "DestinationGroup_A" {["dst_addr" := "10.0.0.1:80"]};
        hset "DestinationGroup_B" {["dst_addr" := "10.0.0.2:80"]};
        hset "Subscription_s" (sub_in "A"); hset "Subscription_s" (sub_in "B"); del "Subscription_s";
        hset "DestinationGroup_A" {["dst_addr" := "10.0.0.3:80"]}] = Panics.
Proof. vm_compute. reflexivity. Qed.

(** A group whose row is gone when it is read has no addresses. *)
Example empty_group_panics :
  play [hset "DestinationGroup_A" ∅; hset "Subscription_s" (sub_in "A"); DoRestart 4] = Panics.
Proof. vm_compute. reflexivity. Qed.

Definition before_group : list action :=
  [hset "DestinationGroup_A" {["dst_addr" := "10.0.0.1:80,10.0.0.2:80"]}; hset "Subscription_s" (sub_in "A")].

Definition d1 : D := match play before_group with Returns d => d | Panics => dial_start cfg0 end.
Lemma reach_d1 : dial_reach no_error parse0 cfg0 (Returns d1).
Proof. assert (Returns d1 = play before_group) as -> by (vm_compute; reflexivity). apply play_reach. Qed.

(** Its first routine dials both addresses and starts over. *)
Definition d2 : D :=
  match play (before_group ++ [DoRestart 4; DoDialed 4 false; DoRestart 4; DoDialed 4 false; DoRestart 4])
  with Returns d => d | Panics => dial_start cfg0 end.
Lemma reach_d2 : dial_reach no_error parse0 cfg0 (Returns d2).
Proof.
  assert (Returns d2 = play (before_group ++ [DoRestart 4; DoDialed 4 false; DoRestart 4; DoDialed 4 false; DoRestart 4])) as ->
    by (vm_compute; reflexivity). apply play_reach.
Qed.

Definition zombie : list action :=
  before_group ++ [hset "DestinationGroup_A" {["dst_addr" := "10.0.0.9:80"]}; del "Subscription_s";
                   DoRestart 7; DoDialed 7 true; DoPublished 7 true; DoStreamStart 7].
Definition d3 : D := match play zombie with Returns d => d | Panics => dial_start cfg0 end.
Lemma reach_d3 : dial_reach no_error parse0 cfg0 (Returns d3).
Proof. assert (Returns d3 = play zombie) as -> by (vm_compute; reflexivity). apply play_reach. Qed.

(** A subscription whose group has changed goes on publishing after it was
    deleted: there is a run in which the client has no subscription left and
    a routine is sending a stream under a context that is not cancelled. *)
Theorem deleted_subscription_publishes :
  ∃ d id r, dial_reach no_error parse0 cfg0 (Returns d) ∧ ClientSubscriptionNameMap d = ∅ ∧
    runs d !! id = Some r ∧ r_pc r = Sending ∧ ctx_done d (r_ctx r) = false.
Proof.
  exists d3, 7, {| r_ctx := 5; r_sub := 6; r_dests := ["10.0.0.9:80"]; r_idx := 0; r_pc := Sending;
                   r_tried := ["10.0.0.9:80"] |}.
  split; [exact reach_d3|]. vm_compute. auto.
Qed.

Definition r2 : Run := {| r_ctx := 2; r_sub := 3; r_dests := ["10.0.0.1:80"; "10.0.0.2:80"]; r_idx := 1;
  r_pc := Dialing "10.0.0.1:80"; r_tried := ["10.0.0.1:80"; "10.0.0.2:80"; "10.0.0.1:80"] |}.

Lemma dial_rotation_witness : r_dests r2 !! (2 mod 2) = Some "10.0.0.1:80".
Proof.
  refine (dial_rotation no_error parse0 cfg0 d2 4 r2 2 "10.0.0.1:80" reach_d2 _ eq_refl). vm_compute. reflexivity.
Defined.

Lemma dial_panics_only_witness :
  (∀ separator conn key payload, dial_message no_error parse0 separator conn key payload d1 = Panics →
     stale_user d1 ∨ deletes_unknown d1 key payload) ∧
  (∀ id r, runs d1 !! id = Some r →
     (run_restart id r d1 = Panics → r_dests r = []) ∧
     (∀ dest ok, run_dialed id r dest ok d1 ≠ Panics) ∧ (∀ ok, run_published id r ok d1 ≠ Panics) ∧
     (∀ values sent, run_periodic id r values sent d1 ≠ Panics) ∧
     run_stream_start id r d1 ≠ Panics ∧ run_stream_failed id r d1 ≠ Panics).
Proof. exact (dial_panics_only no_error parse0 cfg0 d1 reach_d1). Defined.

Definition addr9 : gmap string string := {["dst_addr" := "10.0.0.9:80"]}.
Definition d4 : D := match process_group no_error 5 "A" "hset" addr9 d1 with Returns (d, _) => d | Panics => d1 end.
Definition d5 : D := match close_named "s" d4 with Returns (d, _) => d | Panics => d4 end.

Lemma regrouped_not_cancellable_witness : cancelled d5 = cancelled d4 ∧ runs d5 = runs d4.
Proof.
  refine (regrouped_not_cancellable no_error parse0 cfg0 d1 5 "A" "hset" addr9 d4 "s" d5 reach_d1 _ _ _ _ _).
  - discriminate.
  - discriminate.
  - vm_compute. reflexivity.
  - assert (group_users d1 "A" = ["s"]) as -> by (vm_compute; reflexivity). apply list_elem_of_singleton. reflexivity.
  - vm_compute. reflexivity.
Defined.

Definition d6 : D := match process_group no_error 5 "A" "hdel" ∅ d1 with Returns (d, _) => d | Panics => d1 end.

Lemma refused_delete_stops_witness :
  Some "is being used" = Some "is being used" ∧ destGrpNameMap d6 = destGrpNameMap d1 ∧
  ∀ name, name ∈ ["s"] → stopped_sub d6 name.
Proof.
  refine (refused_delete_stops no_error parse0 cfg0 d1 5 "A" ∅ d6 (Some "is being used") ["s"] reach_d1 _ _ _).
  - discriminate.
  - vm_compute. reflexivity.
  - vm_compute. reflexivity.
Defined.

Lemma unknown_delete_panics_witness :
  dial_message no_error parse0 (Ok "|") (conn_of ∅) "Subscription_x" "del" (dial_start cfg0) = Panics.
Proof.
  refine (unknown_delete_panics no_error parse0 "|" (conn_of ∅) "x" ∅ (dial_start cfg0) "del" _ _ _ _);
    first discriminate; vm_compute; reflexivity.
Defined.
End DialoutExample.
