(* ===== verification/DbStream.v ===== *)
(** * Poll and stream routines of the client
      (src/sonic_data_client/db_client.go)

    Each routine is a step function on its local variables; [run_events] runs
    it over the events it receives until it returns.  A routine's output is
    the list of values it put in the queue. *)
From stdpp Require Import base gmap sets list strings.
From S2P Require Import Prelude GoStrings Gnmi Json World DbConfig DbConn VirtualDb DbClient.

Notation Clients := (gmap string (gmap string Conn)).
Notation G2S := (list (Path * list tablePath)).

(** A moment at which a routine acts. *)
Record Event := {
  ev_now : Z;
  ev_clients : Clients;
  ev_put : bool
}.

(** [c.q.Put(v)]: a queue that was disposed takes nothing. *)
Definition put (ev : Event) (v : Value) : list Value := if ev_put ev then [v] else [].

Fixpoint run_events {S X} (step : S → X → list Value * option S) (s : S) (evs : list X) : list Value :=
  match evs with
  | [] => []
  | ev :: evs =>
      let '(out, next) := step s ev in
      out ++ match next with Some s => run_events step s evs | None => [] end
  end.

Section stream.
Context {JCo : JsonCodec}.
Context (pfx : option Path).

(** ** Polling *)

(** The entries of one poll, in the order of the range; [false] when a read
    failed and the routine returns. *)
Fixpoint poll_entries (ev : Event) (entries : G2S) : list Value * bool :=
  match entries with
  | [] => ([], true)
  | (path, tps) :: entries =>
      match tableData2TypedValue (ev_clients ev) tps with
      | Err _ => ([], false)
      | Ok val =>
          let '(out, ok) := poll_entries ev entries in
          (put ev (data_value (ev_now ev) pfx (Some path) val) ++ out, ok)
      end
  end.

Definition poll_once (_ : ()) (p : Event * G2S) : list Value * option () :=
  let '(ev, entries) := p in
  let '(out, ok) := poll_entries ev entries in
  if ok then (out ++ put ev (sync_value (ev_now ev)), Some ()) else (out, None).

Definition PollRun (polls : list (Event * G2S)) : list Value := run_events poll_once () polls.

(** [fmt.Sprintf("%v", gnmiPath)] of the protobuf library. *)
Context (path_text : Path → string).

(** One path of a poll of APPL_DB; [None] when the routine returns. *)
Definition app_poll_entry (ev : Event) (prevUpdates : gmap string bool) (e : Path * list tablePath)
  : list Value * option (gmap string bool) :=
  let '(path, tps) := e in
  let pathKey := path_text path in
  match AppDBTableData2TypedValue (ev_clients ev) tps with
  | None =>
      if bool_decide (prevUpdates !! pathKey = Some true) then
        (put ev (delete_value (ev_now ev) pfx path), Some (<[pathKey := false]> prevUpdates))
      else ([], Some prevUpdates)
  | Some (Err _) => ([], None)
  | Some (Ok val) =>
      (put ev (data_value (ev_now ev) pfx (Some path) val), Some (<[pathKey := true]> prevUpdates))
  end.

Fixpoint app_poll_entries (ev : Event) (prevUpdates : gmap string bool) (entries : G2S)
  : list Value * option (gmap string bool) :=
  match entries with
  | [] => ([], Some prevUpdates)
  | e :: entries =>
      let '(out, next) := app_poll_entry ev prevUpdates e in
      match next with
      | None => (out, None)
      | Some prevUpdates =>
          let '(out', next) := app_poll_entries ev prevUpdates entries in (out ++ out', next)
      end
  end.

Definition app_poll_once (prevUpdates : gmap string bool) (p : Event * G2S)
  : list Value * option (gmap string bool) :=
  let '(ev, entries) := p in
  let '(out, next) := app_poll_entries ev prevUpdates entries in
  match next with
  | Some prevUpdates => (out ++ put ev (sync_value (ev_now ev)), Some prevUpdates)
  | None => (out, None)
  end.

Definition AppDBPollRun (polls : list (Event * G2S)) : list Value := run_events app_poll_once ∅ polls.

(** ** Choosing the routine of a subscription *)

Inductive SubscriptionMode := TARGET_DEFINED | ON_CHANGE | SAMPLE | OTHER_MODE (n : Z).

Record Subscription := {
  sub_mode : SubscriptionMode;
  sub_sample_interval : Z
}.

(** The routine started, with its parameters. *)
Inductive routine :=
| FieldMultiSubscribe (onChange : bool) (interval : Z) (updateOnly : bool)
| FieldSubscribe (onChange : bool) (interval : Z)
| TableKeySubscribe (interval : Z) (updateOnly : bool).

Definition streamOnChangeSubscription (tps : list tablePath) : res gerr routine :=
  tp ← index tps 0;
  if bool_decide (field tp ≠ "") then
    if bool_decide (1 < length tps) then Ok (FieldMultiSubscribe true 200000000 false)
    else Ok (FieldSubscribe true 200000000)
  else Ok (TableKeySubscribe 0 true).

(** An invalid interval is reported in the queue: [Err (Errorf msg)]. *)
Definition streamSampleSubscription (sub : Subscription) (tps : list tablePath) (updateOnly : bool)
  : res gerr routine :=
  samplingInterval ← validateSampleInterval (sub_sample_interval sub);
  tp ← index tps 0;
  if bool_decide (field tp ≠ "") then
    if bool_decide (1 < length tps) then Ok (FieldMultiSubscribe false samplingInterval updateOnly)
    else Ok (FieldSubscribe false samplingInterval)
  else Ok (TableKeySubscribe samplingInterval updateOnly).

(** The goroutines [StreamRun] starts for the subscriptions, each next to the
    table paths of its path, up to the first with an unsupported mode. *)
Fixpoint start_subscriptions (updates_only : bool) (subs : list (Subscription * list tablePath))
  : list (res gerr routine) * option string :=
  match subs with
  | [] => ([], None)
  | (sub, tps) :: subs =>
      let go r := let '(rs, fatal) := start_subscriptions updates_only subs in (r :: rs, fatal) in
      match sub_mode sub with
      | SAMPLE => go (streamSampleSubscription sub tps updates_only)
      | ON_CHANGE => go (streamOnChangeSubscription tps)
      | _ => ([], Some "unsupported subscription mode")
      end
  end.

(** Without subscriptions every path of the client is streamed on change. *)
Definition StreamRun (updates_only : bool) (entries : G2S) (subs : list (Subscription * list tablePath))
  : list (res gerr routine) * option string :=
  match subs with
  | [] => ((λ '(_, tps), streamOnChangeSubscription tps) <$> entries, None)
  | _ => start_subscriptions updates_only subs
  end.

(** ** One field *)

Definition field_read (c : Conn) (tp : tablePath) : string :=
  match HGetF c (field_key tp) (field tp) with Ok v => v | Err _ => "" end.

(** A tick of [dbFieldSubscribe]; [val] is the value sent last. *)
Definition field_tick (onChange : bool) (path : Path) (tp : tablePath) (val : string) (ev : Event)
  : list Value * option string :=
  match client_for (ev_clients ev) tp with
  | Err _ => ([], None)
  | Ok c =>
      let newVal := field_read c tp in
      if negb onChange || bool_decide (newVal ≠ val) then
        (put ev (data_value (ev_now ev) pfx (Some path) (StringVal newVal)),
         if ev_put ev then Some newVal else None)
      else ([], Some val)
  end.

(** The first event is the start of the routine, the others its ticks. *)
Definition dbFieldSubscribe (onChange : bool) (path : Path) (tp : tablePath) (evs : list Event) : list Value :=
  match evs with
  | [] => []
  | ev :: evs =>
      match client_for (ev_clients ev) tp with
      | Err _ => []
      | Ok c =>
          let val := field_read c tp in
          put ev (data_value (ev_now ev) pfx (Some path) (StringVal val)) ++
          if ev_put ev then run_events (field_tick onChange path tp) val evs else []
      end
  end.

(** ** One field of several tables *)

Notation values := (gmap tablePath string).

(** The value of one table path; [None] for an absent field of a virtual path. *)
Definition multi_field (c : Conn) (tp : tablePath) : option string :=
  match HGetF c (field_key tp) (field tp) with
  | Ok v => Some v
  | Err RedisNil => if bool_decide (jsonField tp ≠ "") then None else Some ""
  | Err _ => Some ""
  end.

Definition multi_read_one (changes_only : bool) (t : Clients) (s : values * gmap string json)
    (tp : tablePath) : res gerr (values * gmap string json) :=
  let '(path2Value, msi) := s in
  c ← client_for t tp;
  match multi_field c tp with
  | None => Ok (path2Value, msi)
  | Some val =>
      if changes_only && bool_decide (path2Value !! tp = Some val) then Ok (path2Value, msi)
      else Ok (<[tp := val]> path2Value, <[jsonTableKey tp := JObj {[jsonField tp := JStr val]}]> msi)
  end.

(** [readVal] *)
Definition multi_read (changes_only : bool) (t : Clients) (tps : list tablePath) (path2Value : values)
  : res gerr (values * gmap string json) :=
  foldM (multi_read_one changes_only t) (path2Value, ∅) tps.

(** [sendVal]: the values put, and whether the routine goes on. *)
Definition multi_send (ev : Event) (path : Path) (msi : gmap string json) : list Value * bool :=
  match Msi2TypedValue msi with
  | Err _ => (put ev (putFatalMsg (ev_now ev) "emitJSON err"), false)
  | Ok tv => (put ev (data_value (ev_now ev) pfx (Some path) tv), ev_put ev)
  end.

Definition multi_tick (onChange updateOnly : bool) (path : Path) (tps : list tablePath)
    (path2Value : values) (ev : Event) : list Value * option values :=
  match multi_read (onChange || updateOnly) (ev_clients ev) tps path2Value with
  | Err _ => ([], None)
  | Ok (path2Value, msi) =>
      if negb onChange || bool_decide (msi ≠ ∅) then
        let '(out, go) := multi_send ev path msi in (out, if go then Some path2Value else None)
      else ([], Some path2Value)
  end.

Definition dbFieldMultiSubscribe (onChange updateOnly : bool) (path : Path) (tps : list tablePath)
    (evs : list Event) : list Value :=
  match evs with
  | [] => []
  | ev :: evs =>
      match multi_read (onChange || updateOnly) (ev_clients ev) tps ∅ with
      | Err _ => []
      | Ok (path2Value, msi) =>
          let '(out, go) := multi_send ev path msi in
          out ++ if go then run_events (multi_tick onChange updateOnly path tps) path2Value evs else []
      end
  end.

(** ** Whole entries *)

(** The pattern of the keyspace notifications of a table path, and the length
    of what precedes the entry's key in a channel. *)
Definition keyspace_pattern (tp : tablePath) : string * nat :=
  let db_number := default 0%Z ((list_to_map Target_value : gmap string Z) !! dbName tp) in
  let pattern := "__keyspace@" +:+ Itoa db_number +:+ "__:" +:+ tableName tp in
  let pattern :=
    if bool_decide (dbName tp = "COUNTERS_DB") && negb (countersDbHasTableKeys (tableName tp))
    then pattern else pattern +:+ delimitor tp in
  if bool_decide (tableKey tp ≠ "") then
    let pattern := pattern +:+ tableKey tp in (pattern, String.length pattern)
  else (pattern +:+ "*", String.length pattern).

Record redisSubData := { rsd_tblPath : tablePath; rsd_prefixLen : nat }.

(** A notification, with the clients at the time it is handled. *)
Record Message := { msg_channel : string; msg_payload : string; msg_clients : Clients }.

Definition set_tableKey (tp : tablePath) (key : string) : tablePath := {|
  dbNamespace := dbNamespace tp; dbName := dbName tp; tableName := tableName tp; tableKey := key;
  delimitor := delimitor tp; field := field tp; jsonValue := jsonValue tp; protoValue := protoValue tp;
  index_ := index_ tp; operation := operation tp; jsonTableName := jsonTableName tp;
  jsonTableKey := jsonTableKey tp; jsonDelimitor := jsonDelimitor tp; jsonField := jsonField tp
|}.

(** One message of [dbSingleTableKeySubscribe]: the data remembered, and what
    is sent on the update channel; an error is fatal. *)
Definition table_message (rsd : redisSubData) (msi : gmap string json) (m : Message)
  : res gerr (gmap string json * option (gmap string json)) :=
  let tp := rsd_tblPath rsd in
  if bool_decide (msg_payload m = "del") || bool_decide (msg_payload m = "hdel") then
    if bool_decide (tableKey tp ≠ "") then Ok (msi, None)
    else if bool_decide (String.length (msg_channel m) < rsd_prefixLen rsd) then Ok (msi, None)
    else Ok (msi, Some {[str_drop (rsd_prefixLen rsd) (msg_channel m) := JObj ∅]})
  else if bool_decide (msg_payload m = "hset") then
    let changed newMsi :=
      if bool_decide (newMsi = msi) then Ok (msi, None)
      else Ok (newMsi, if bool_decide (newMsi = ∅) then None else Some newMsi) in
    if bool_decide (tableKey tp ≠ "") then
      newMsi ← TableData2Msi (msg_clients m) tp false None ∅; changed newMsi
    else if bool_decide (String.length (msg_channel m) < rsd_prefixLen rsd) then Ok (msi, None)
    else
      newMsi ← TableData2Msi (msg_clients m) (set_tableKey tp (str_drop (rsd_prefixLen rsd) (msg_channel m)))
                 true None ∅;
      changed newMsi
  else Ok (msi, None).

(** [dbSingleTableKeySubscribe]: what the messages make it send on the update
    channel, and whether it stopped with a fatal message. *)
Fixpoint dbSingleTableKeySubscribe (rsd : redisSubData) (msi : gmap string json) (ms : list Message)
  : list (gmap string json) * bool :=
  match ms with
  | [] => ([], false)
  | m :: ms =>
      match table_message rsd msi m with
      | Err _ => ([], true)
      | Ok (msi, upd) =>
          let '(out, fatal) := dbSingleTableKeySubscribe rsd msi ms in
          (match upd with Some u => u :: out | None => out end, fatal)
      end
  end.

(** The first part of [dbTableKeySubscribe]: a subscription and a read per
    table path.  [confirm] is the channel the server confirms, if it does. *)
Definition table_setup_one (confirm : string → option string) (t : Clients)
    (s : gmap string json * list redisSubData) (tp : tablePath)
  : res gerr (gmap string json * list redisSubData) :=
  let '(msiAll, rsdList) := s in
  let '(pattern, prefixLen) := keyspace_pattern tp in
  if bool_decide (confirm pattern ≠ Some pattern) then
    Err (Errorf ("psubscribe to " +:+ pattern +:+ " failed"))
  else
    msiAll ← TableData2Msi t tp false None msiAll;
    Ok (msiAll, rsdList ++ [{| rsd_tblPath := tp; rsd_prefixLen := prefixLen |}]).

Definition table_setup (confirm : string → option string) (t : Clients) (tps : list tablePath)
  : res gerr (gmap string json * list redisSubData) :=
  foldM (table_setup_one confirm t) (∅, []) tps.

(** [sendMsiData] *)
Definition send_msi (ev : Event) (path : Path) (msi : gmap string json) : list Value * bool :=
  match Msi2TypedValue msi with
  | Err _ => (put ev (putFatalMsg (ev_now ev) "emitJSON err"), false)
  | Ok tv => (put ev (data_value (ev_now ev) pfx (Some path) tv), ev_put ev)
  end.

(** What the loop waits for: an update of one table or the ticker. *)
Inductive table_event := Updated (ev : Event) (msi : gmap string json) | Ticked (ev : Event).

Definition table_step (interval : Z) (updateOnly : bool) (path : Path) (msiAll : gmap string json)
    (e : table_event) : list Value * option (gmap string json) :=
  match e with
  | Updated ev updatedTable =>
      if bool_decide (interval = 0%Z) then
        let '(out, go) := send_msi ev path updatedTable in (out, if go then Some msiAll else None)
      else ([], Some (updatedTable ∪ msiAll))
  | Ticked ev =>
      let '(out, go) := send_msi ev path msiAll in
      (out, if go then Some (if updateOnly then ∅ else msiAll) else None)
  end.

Definition dbTableKeySubscribe (confirm : string → option string) (interval : Z) (updateOnly : bool)
    (path : Path) (tps : list tablePath) (start : Event) (evs : list table_event) : list Value :=
  match table_setup confirm (ev_clients start) tps with
  | Err (Errorf msg) => put start (putFatalMsg (ev_now start) msg)
  | Err _ => []
  | Ok (msiAll, _) =>
      let '(out, go) := send_msi start path msiAll in
      out ++ if go then run_events (table_step interval updateOnly path) (if updateOnly then ∅ else msiAll) evs
             else []
  end.

End stream.
