(* ===== verification/MixedDb.v ===== *)
(** * The client of native paths: targets, paths and reads
      (src/sonic_data_client/mixed_db_client.go)

    [MixedDbClient] serves requests with origin [sonic-db].  The first element
    of a path names the database and the second the namespace or container
    (a DPU); the rest is a table, a key, a field and an index into a list.

    Redis clients are kept for the process, by namespace, container and
    database; ZMQ clients by address.  Both maps are part of [Globals].  The
    configuration of the databases is read through a snapshot of its state.
    A repeated field of a message is nil exactly when it is empty, but the
    elements that are left of a path after its first two are not nil when
    there are none: [gnmiFullPath] returns an option for that. *)
From stdpp Require Import base gmap list strings.
From S2P Require Import Prelude GoStrings Gnmi Json JsonClient World DbConfig DbConn DbClient.

Definition DPU_APPL_DB_NAME : string := "DPU_APPL_DB".
Definition APPL_DB_NAME : string := "APPL_DB".
Definition LOCAL_ADDRESS : string := "127.0.0.1".
Definition HOSTNAME : string := "localhost".
Definition GNMI_WORK_PATH : string := "/tmp".
Definition opAdd : Z := 0.
Definition opRemove : Z := 1.

Record ZmqClient := { zmq_address : string; zmq_vrf : string }.

Global Instance ZmqClient_eq_dec : EqDecision ZmqClient.
Proof. solve_decision. Defined.

(** What the process keeps between requests. *)
Record Globals := {
  RedisDbMap : gmap string Conn;
  DbInstNum : nat;
  zmqClientMap : gmap string ZmqClient
}.

(** The fields the operations of one client read. *)
Record MixedDbClient := {
  mc_prefix : option Path;
  mc_paths : list (option Path);
  mc_encoding : Encoding;
  mc_target : string;
  mc_origin : string;
  mc_workPath : string;
  mc_zmqClient : option ZmqClient;
  mc_dbkey : option SonicDBKey;
  mc_mapkey : string;
  namespace_cnt : nat;
  container_cnt : nat
}.

Section mixed.
Context {Sw : Swss} {MR : MapRange} {JCo : JsonCodec}.

(** [redis.NewClient] of a socket and a database number, the entries of
    CONFIG_DB as the connector of swsscommon reads them, and the state of the
    configuration of the databases. *)
Context (redis_NewClient : string → Z → Conn).
Context (Get_entry : string → string → thrown (gmap string string)).
Context (cfg : Cfg).

(** ** ZMQ *)

(** An exception of the connector is not caught here. *)
Definition Hget (table key fld : string) : res gerr string :=
  match Get_entry table key with
  | Err _ => Err Panicked
  | Ok fieldValuePairs =>
      of_option (Errorf ("Can't read " +:+ key +:+ ":" +:+ fld +:+ " from " +:+ table +:+ " table"))
                (fieldValuePairs !! fld)
  end.

Definition getDpuAddress (dpuId : string) : res gerr string :=
  bridgePlane ← Hget "MID_PLANE_BRIDGE" "GLOBAL" "bridge";
  dpuInterface ← Hget "DPUS" dpuId "midplane_interface";
  dpuAddresses ← Hget "DHCP_SERVER_IPV4_PORT" (bridgePlane +:+ "|" +:+ dpuInterface) "ips@";
  match Split dpuAddresses "," with
  | [] => Err (Errorf ("Can't find address of dpu:'" +:+ dpuId +:+ "' from DHCP_SERVER_IPV4_PORT table"))
  | a :: _ => Ok a
  end.

(** [fmt.Errorf("...: %v", err)]: a panic is not an error. *)
Definition wrap_err {A} (msg : string) (r : res gerr A) : res gerr A :=
  match r with
  | Err (Errorf e) => Err (Errorf (msg +:+ e))
  | Err RedisNil => Err (Errorf (msg +:+ "redis: nil"))
  | _ => r
  end.

Definition getZmqAddress (container zmqPort : string) : res gerr string :=
  if bool_decide (zmqPort = "") then Err (Errorf "ZMQ port is empty.")
  else
    dpuAddress ← wrap_err "Get DPU address failed: " (getDpuAddress container);
    Ok ("tcp://" +:+ dpuAddress +:+ ":" +:+ zmqPort).

Definition set_zmq (m : gmap string ZmqClient) (g : Globals) : Globals :=
  {| RedisDbMap := RedisDbMap g; DbInstNum := DbInstNum g; zmqClientMap := m |}.

Definition getZmqClientByAddress (zmqAddress vrf : string) : ST Globals ZmqClient := λ g,
  match zmqClientMap g !! zmqAddress with
  | Some client => (g, client)
  | None =>
      let client := {| zmq_address := zmqAddress; zmq_vrf := vrf |} in
      (set_zmq (<[zmqAddress := client]> (zmqClientMap g)) g, client)
  end.

(** The first address in the order of the range that has this client. *)
Definition removeZmqClient (client : ZmqClient) : ST Globals (option gerr) := λ g,
  match list_find (λ e : string * ZmqClient, e.2 = client) (map_range (zmqClientMap g)) with
  | Some (_, (address, _)) => (set_zmq (delete address (zmqClientMap g)) g, None)
  | None => (g, Some (Errorf "Can't find ZMQ client in zmqClientMap"))
  end.

Definition getZmqClient (dpuId zmqPort vrf : string) : ST Globals (res gerr (option ZmqClient)) :=
  if bool_decide (zmqPort = "") then mret (Ok None)
  else if bool_decide (dpuId = SONIC_DEFAULT_CONTAINER) then
    client ← getZmqClientByAddress ("tcp://" +:+ LOCAL_ADDRESS +:+ ":" +:+ zmqPort) vrf;
    mret (Ok (Some client))
  else
    match wrap_err "Get ZMQ address failed: " (getZmqAddress dpuId zmqPort) with
    | Err e => mret (Err e)
    | Ok zmqAddress => client ← getZmqClientByAddress zmqAddress vrf; mret (Ok (Some client))
    end.

(** ** Targets *)

Definition IsTargetDbByDBKey (dbName : string) (dbkey : SonicDBKey) : bool :=
  let '(_, ok) := (GetDbInstanceFromTarget (Netns dbkey) (ContainerName dbkey) cfg).2 in
  if negb ok then false
  else match (GetDbListByDBKey dbkey cfg).2 with
       | (_, Some _) => false
       | (dbList, None) => bool_decide (dbName ∈ dbList)
       end.

Definition GetTableKeySeparatorByDBKey (target : string) (dbkey : SonicDBKey) : string * option string :=
  (GetDbSeparatorByDBKey target dbkey cfg).2.

(** The variables of the loop of [ParseDatabase]. *)
Record parsed := { p_target : string; p_namespace : string; p_container : string; p_instance : string }.

Definition with_instance (ns container : string) (p : parsed) : parsed :=
  {| p_target := p_target p; p_namespace := ns; p_container := container; p_instance := p_instance p |}.

(** Which part of the switch the second element of a path names. *)
Definition instance_of (ns_cnt container_cnt : nat) (elem_name : string) (p : parsed) : res gerr parsed :=
  if bool_decide (1 < ns_cnt) && bool_decide (1 < container_cnt) then
    if bool_decide (elem_name = HOSTNAME) then Ok p
    else if (GetDbInstanceFromTarget elem_name SONIC_DEFAULT_CONTAINER cfg).2.2 then
      Ok (with_instance elem_name (p_container p) p)
    else if (GetDbInstanceFromTarget SONIC_DEFAULT_NAMESPACE elem_name cfg).2.2 then
      Ok (with_instance (p_namespace p) elem_name p)
    else Err (Errorf ("Unsupported namespace/container " +:+ elem_name))
  else if bool_decide (1 < ns_cnt) then Ok (with_instance elem_name (p_container p) p)
  else if bool_decide (1 < container_cnt) then Ok (with_instance (p_namespace p) elem_name p)
  else Ok p.

(** One path; [elem_name] is also checked against that of the path before. *)
Definition parse_path (ns_cnt container_cnt : nat) (prefix : option Path) (p : parsed) (path : option Path)
  : res gerr parsed :=
  match GetElem path with
  | [] => Ok p
  | elems =>
      match GetElem prefix ++ elems with
      | e0 :: e1 :: _ =>
          if bool_decide (p_target p ≠ "") && bool_decide (p_target p ≠ elem_name e0) then
            Err (Errorf "Target conflict in path")
          else if bool_decide (p_instance p ≠ "") && bool_decide (p_instance p ≠ elem_name e1) then
            Err (Errorf "Namespace/container conflict in path")
          else
            instance_of ns_cnt container_cnt (elem_name e1)
              {| p_target := if bool_decide (p_target p = "") then elem_name e0 else p_target p;
                 p_namespace := p_namespace p; p_container := p_container p;
                 p_instance := if bool_decide (p_instance p = "") then elem_name e1 else p_instance p |}
      | _ => Err (Errorf "Invalid elem length")
      end
  end.

(** [localhost] is the default namespace or container. *)
Definition host_default (s : string) : string := if bool_decide (s = HOSTNAME) then "" else s.

Definition ParseDatabase (ns_cnt container_cnt : nat) (prefix : option Path) (paths : list (option Path))
  : res gerr (string * SonicDBKey) :=
  if bool_decide (paths = []) then Err (Errorf "No valid path") else
  p ← foldM (parse_path ns_cnt container_cnt prefix)
        {| p_target := ""; p_namespace := SONIC_DEFAULT_NAMESPACE;
           p_container := SONIC_DEFAULT_CONTAINER; p_instance := "" |} paths;
  if bool_decide (p_target p = "") then Err (Errorf "No target specified in path")
  else Ok (p_target p, {| Netns := host_default (p_namespace p);
                          ContainerName := host_default (p_container p) |}).

(** The keys of [RedisDbMap]. *)
Definition map_key (dbkey : SonicDBKey) : string := Netns dbkey +:+ ":" +:+ ContainerName dbkey.
Definition redis_key (mapkey db : string) : string := mapkey +:+ ":" +:+ db.

(** The databases of one instance; [false] when a call of the library failed
    and [initRedisDbMap] returns. *)
Fixpoint fill_dbs (dbkey : SonicDBKey) (dbList : list string) (m : gmap string Conn) : gmap string Conn * bool :=
  match dbList with
  | [] => (m, true)
  | dbName :: dbList =>
      match (GetDbSockByDBKey dbName dbkey cfg).2, (GetDbIdByDBKey dbName dbkey cfg).2 with
      | (addr, None), (dbn, None) =>
          fill_dbs dbkey dbList (<[redis_key (map_key dbkey) dbName := redis_NewClient addr dbn]> m)
      | _, _ => (m, false)
      end
  end.

Fixpoint fill_instances (dbkeys : list SonicDBKey) (m : gmap string Conn) : gmap string Conn :=
  match dbkeys with
  | [] => m
  | dbkey :: dbkeys =>
      match (GetDbListByDBKey dbkey cfg).2 with
      | (_, Some _) => m
      | (dbList, None) =>
          let '(m, ok) := fill_dbs dbkey dbList m in
          if ok then fill_instances dbkeys m else m
      end
  end.

(** The clients are made again when the number of instances has changed; the
    number is remembered before they are made. *)
Definition initRedisDbMap (g : Globals) : Globals :=
  match (GetDbAllInstances cfg).2 with
  | (_, Some _) => g
  | (dbkeys, None) =>
      if bool_decide (length dbkeys = DbInstNum g) then g
      else {| RedisDbMap := fill_instances dbkeys ∅; DbInstNum := length dbkeys;
              zmqClientMap := zmqClientMap g |}
  end.

(** A client for a request without paths, which only [Capabilities] asks for
    on purpose. *)
Definition bare_client (prefix : option Path) (origin : string) (encoding : Encoding) : MixedDbClient :=
  let dbkey_list := (GetDbAllInstances cfg).2.1 in
  {| mc_prefix := prefix; mc_paths := []; mc_encoding := encoding;
     mc_target := match GetElem prefix with e :: _ => elem_name e | [] => "" end;
     mc_origin := origin; mc_workPath := ""; mc_zmqClient := None; mc_dbkey := None; mc_mapkey := "";
     namespace_cnt := S (length (filter (λ k, Netns k ≠ SONIC_DEFAULT_NAMESPACE) dbkey_list));
     container_cnt := S (length (filter (λ k, ContainerName k ≠ SONIC_DEFAULT_CONTAINER) dbkey_list)) |}.

(** The client, and the name of the database for the check of the roles.  The
    connector to APPL_DB is made here; the tables it serves are those of the
    file MixedSet. *)
Definition NewMixedDbClient (paths : list (option Path)) (prefix : option Path) (origin : string)
    (encoding : Encoding) (zmqPort vrf : string) : ST Globals (res gerr (MixedDbClient * string)) :=
  _ ← modify initRedisDbMap;
  let c := bare_client prefix origin encoding in
  if bool_decide (paths = []) then mret (Ok (c, "")) else
  match ParseDatabase (namespace_cnt c) (container_cnt c) prefix paths with
  | Err e => mret (Err e)
  | Ok (target, dbkey) =>
      if negb (IsTargetDbByDBKey target dbkey) then
        mret (Err (Errorf ("Invalid target: ns " +:+ Netns dbkey +:+ ", container " +:+ ContainerName dbkey)))
      else
        z ← getZmqClient (ContainerName dbkey) zmqPort vrf;
        mret (zmqClient ← wrap_err "Get ZMQ client failed: " z;
              Ok ({| mc_prefix := prefix; mc_paths := paths; mc_encoding := encoding; mc_target := target;
                     mc_origin := origin; mc_workPath := GNMI_WORK_PATH; mc_zmqClient := zmqClient;
                     mc_dbkey := Some dbkey; mc_mapkey := map_key dbkey;
                     namespace_cnt := namespace_cnt c; container_cnt := container_cnt c |}, target))
  end.

(** ** Paths *)

(** The elements of a full path after the first two; [None] is a nil list.
    The origin is read from the path when the prefix has none. *)
Definition gnmiFullPath (prefix path : option Path) : res gerr (option (list PathElem)) :=
  if bool_decide (GetOrigin prefix = "") && bool_decide (path = None) then Err Panicked
  else match GetElem path with
       | [] => Ok None
       | elems =>
           match GetElem prefix ++ elems with
           | _ :: _ :: rest => Ok (Some rest)
           | l => Err (Errorf ("Invalid gnmi path: length " +:+ Itoa (Z.of_nat (length l))))
           end
       end.

(** The names of the elements; the value of a key named [key] counts as an
    element of its own. *)
Definition slice_of (e : PathElem) : list string :=
  elem_name e :: match elem_key e !! "key" with Some value => [value] | None => [] end.

(** Tables of COUNTERS_DB without entries get an empty key. *)
Definition insert_key (db : string) (slice : list string) : list string :=
  match slice with
  | d :: tbl :: rest =>
      if bool_decide (db = "COUNTERS_DB") && negb (countersDbHasTableKeys tbl) then d :: tbl :: "" :: rest
      else slice
  | _ => slice
  end.

(** The value of an update: JSON, or bytes for the tables of DASH. *)
Definition value_of (value : option TypedValue) : res gerr (Z * string * string) :=
  match value with
  | None => Ok (opRemove, "", "")
  | Some (JsonIetfVal jv) => Ok (opAdd, jv, "")
  | Some (ProtoBytes pv) => Ok (opAdd, "", pv)
  | Some _ => Err (Errorf "Unsupported TypedValue")
  end.

Definition native_path (ns db sep tbl key fld : string) (idx : Z) (v : Z * string * string) : tablePath := {|
  dbNamespace := ns; dbName := db; tableName := tbl; tableKey := key; delimitor := sep; field := fld;
  jsonValue := v.1.2; protoValue := v.2; index_ := idx; operation := v.1.1;
  jsonTableName := ""; jsonTableKey := ""; jsonDelimitor := ""; jsonField := ""
|}.

(** The check of an entry that is read or deleted: only that Redis answers. *)
Definition exists_op (c : Conn) (op : Z) (tbl sep key : string) : res gerr () :=
  if bool_decide (op = opRemove) then
    _ ← redis_op "redis Exists op failed" (Exists c (tbl +:+ sep +:+ key)); Ok ()
  else Ok ().

(** The [switch len(stringSlice)]. *)
Definition split_path (c : Conn) (ns db sep : string) (v : Z * string * string) (slice : list string)
  : res gerr tablePath :=
  let mk := native_path ns db sep in
  match slice with
  | [_] => Ok (mk "" "" "" (-1)%Z v)
  | [_; tbl] =>
      if bool_decide (v.1.1 = opRemove) then
        match Keys c (tbl +:+ "*") with
        | Ok (_ :: _) => Ok (mk tbl "" "" (-1)%Z v)
        | _ => Err (Errorf ("Failed to find " +:+ db +:+ " " +:+ tbl))
        end
      else Ok (mk tbl "" "" (-1)%Z v)
  | [_; tbl; key] => _ ← exists_op c v.1.1 tbl sep key; Ok (mk tbl key "" (-1)%Z v)
  | [_; tbl; key; fld] => _ ← exists_op c v.1.1 tbl sep key; Ok (mk tbl key fld (-1)%Z v)
  | [_; tbl; key; fld; i] =>
      _ ← exists_op c v.1.1 tbl sep key;
      index ← of_option (Errorf ("Invalid index " +:+ i)) (Atoi i);
      Ok (mk tbl key fld index v)
  | _ => Err (Errorf "Invalid db table Path")
  end.

Definition redis_of (g : Globals) (c : MixedDbClient) (db : string) : res gerr Conn :=
  of_option (Errorf ("Redis Client not present for dbName " +:+ db +:+ " mapkey " +:+ mc_mapkey c))
            (RedisDbMap g !! redis_key (mc_mapkey c) db).

Definition getDbtablePath (g : Globals) (c : MixedDbClient) (path : option Path) (value : option TypedValue)
  : res gerr (list tablePath) :=
  elems ← gnmiFullPath (mc_prefix c) path;
  dbkey ← of_option Panicked (mc_dbkey c);
  let separator := (GetTableKeySeparatorByDBKey (mc_target c) dbkey).1 in
  let slice := insert_key (mc_target c) (mc_target c :: mjoin (slice_of <$> default [] elems)) in
  v ← value_of value;
  redisDb ← redis_of g c (mc_target c);
  tblPath ← split_path redisDb (Netns dbkey) (mc_target c) separator v slice;
  Ok [tblPath].

Definition getAllDbtablePath (g : Globals) (c : MixedDbClient) (paths : list (option Path))
  : res gerr (list (list tablePath)) :=
  foldM (λ pathList path, tblPaths ← getDbtablePath g c path None; Ok (pathList ++ [tblPaths])) [] paths.

(** ** Rendering *)

(** The JSON of a field: one whose name ends in [@] is a list, and the field
    [NULL] of an empty entry is left out. *)
Definition field_entry (e : string * string) : option (string * json) :=
  let '(f, v) := e in
  if bool_decide (f = "NULL") then None
  else if HasSuffix f "@" then Some (TrimSuffix f "@", JArr (JStr <$> Split v ","))
  else Some (f, JStr v).

(** The fields are written over those of [msi] in the order of the range. *)
Definition add_fields (mfv : gmap string string) (msi : msi_t) : msi_t :=
  insert_all field_entry msi (map_range mfv).

Definition makeJSON_redis (msi : msi_t) (key op : option string) (mfv : gmap string string) : msi_t :=
  match key, op with
  | None, None => add_fields mfv msi
  | None, Some op => <[op := JObj (add_fields mfv ∅)]> msi
  | Some key, None => <[key := JObj (add_fields mfv ∅)]> msi
  | Some key, Some op => <[key := JObj {[op := JObj (add_fields mfv ∅)]}]> msi
  end.

(** A [map[string]interface{}] whose entry [pb] may hold bytes, in [m_pb]; the
    JSON under the same key is then not there. *)
Record Msi := { m_json : msi_t; m_pb : option string }.

Definition empty_msi : Msi := {| m_json := ∅; m_pb := None |}.

(** A write of JSON replaces bytes under the same key. *)
Definition put_json (f : msi_t → msi_t) (m : Msi) : Msi :=
  let j := f (match m_pb m with Some _ => delete "pb" (m_json m) | None => m_json m end) in
  {| m_json := j; m_pb := if j !! "pb" then None else m_pb m |}.

(** The map of the table [tableName] in [msi], or a new one. *)
Definition table_msi (msi : msi_t) (tableName : string) : msi_t :=
  match msi !! tableName with Some (JObj t) => t | _ => ∅ end.

(** One iteration of the loop over [dbkeys]. *)
Definition render_key (c : MixedDbClient) (redisDb : Conn) (tp : tablePath) (useKey : bool) (op : option string)
    (msi : Msi) (dbkey : string) : res gerr Msi :=
  fv ← HGetAll redisDb dbkey;
  if bool_decide (tableName tp = "") then
    match SplitN2Any dbkey (delimitor tp) with
    | tableName :: key :: _ =>
        Ok (put_json (λ m, <[tableName := JObj (makeJSON_redis (table_msi m tableName) (Some key) op fv)]> m) msi)
    | _ => Err Panicked
    end
  else if (bool_decide (tableKey tp ≠ "") && negb useKey) || bool_decide (tableName tp = dbkey) then
    match mc_encoding c with
    | JSON_IETF => Ok (put_json (λ m, makeJSON_redis m None op fv) msi)
    | PROTO =>
        match fv !! "pb" with
        | Some value => Ok {| m_json := m_json msi; m_pb := Some value |}
        | None => Err (Errorf "No proto bytes found in redis")
        end
    | _ => Ok msi
    end
  else
    match SplitN2Any dbkey (delimitor tp) with
    | _ :: key :: _ => Ok (put_json (λ m, makeJSON_redis m (Some key) op fv) msi)
    | _ => Err Panicked
    end.

(** The keys of the entries to read. *)
Definition data_keys (redisDb : Conn) (tp : tablePath) : res gerr (list string) :=
  if bool_decide (tableName tp = "") then
    if bool_decide (dbName tp = "COUNTERS_DB") then Err (Errorf "Can not read all tables in COUNTERS_DB")
    else redis_op "redis Keys failed" (Keys redisDb ("*" +:+ delimitor tp +:+ "*"))
  else if bool_decide (tableKey tp = "") then redis_op "redis Keys failed" (Keys redisDb (table_pattern tp))
  else Ok [full_key tp].

Definition tableData2Msi (g : Globals) (c : MixedDbClient) (tp : tablePath) (useKey : bool) (op : option string)
    (msi : Msi) : res gerr Msi :=
  redisDb ← redis_of g c (dbName tp);
  dbkeys ← data_keys redisDb tp;
  foldM (render_key c redisDb tp useKey op) msi dbkeys.

Definition msi2TypedValue (c : MixedDbClient) (msi : Msi) : res gerr TypedValue :=
  match mc_encoding c with
  | JSON_IETF =>
      match Marshal (JObj (m_json msi)) with
      | Some jv => Ok (JsonIetfVal jv)
      | None => Err (Errorf "emitJSON err")
      end
  | PROTO =>
      match m_pb msi with
      | Some value => Ok (ProtoBytes value)
      | None => if m_json msi !! "pb" then Err Panicked else Err (Errorf "No proto bytes found in msi")
      end
  | _ => Err (Errorf "Unknown encoding")
  end.

(** A path that names a field: an item of a list, a string, or a whole list.
    The text of a string goes between quotes as it is. *)
Definition read_field (redisDb : Conn) (tp : tablePath) : res gerr TypedValue :=
  let key := field_key tp in
  if bool_decide (0 <= index_ tp)%Z then
    val ← HGetF redisDb key (field tp +:+ "@");
    item ← of_option (Errorf "Invalid index") (Split val "," !! Z.to_nat (index_ tp));
    Ok (JsonIetfVal (quote item))
  else
    match HGetF redisDb key (field tp) with
    | Ok val => Ok (JsonIetfVal (quote val))
    | Err _ =>
        val ← HGetF redisDb key (field tp +:+ "@");
        output ← of_option (Errorf "json: unsupported value") (Marshal (JArr (JStr <$> Split val ",")));
        Ok (JsonIetfVal output)
    end.

Fixpoint table_data (g : Globals) (c : MixedDbClient) (tps : list tablePath) (msi : Msi) : res gerr TypedValue :=
  match tps with
  | [] => msi2TypedValue c msi
  | tp :: tps =>
      redisDb ← redis_of g c (dbName tp);
      if bool_decide (jsonField tp = "") && bool_decide (field tp ≠ "") then read_field redisDb tp
      else msi ← tableData2Msi g c tp false None msi; table_data g c tps msi
  end.

Definition tableData2TypedValue (g : Globals) (c : MixedDbClient) (tps : list tablePath) : res gerr TypedValue :=
  table_data g c tps empty_msi.

(** ** Get *)

(** The names of a path below its table, without the values of keys. *)
Definition names_of (elems : list PathElem) : list string := elem_name <$> elems.

Fixpoint checkpoint_values (now : Z) (c : MixedDbClient) (jClient : JsonClient) (paths : list (option Path))
  : res gerr (list Value) :=
  match paths with
  | [] => Ok []
  | path :: paths =>
      elems ← gnmiFullPath (mc_prefix c) path;
      match elems with
      | None => checkpoint_values now c jClient paths
      | Some elems =>
          match JsonClient.Get jClient (names_of elems) with
          | Err _ => Err (Errorf "checkpoint")
          | Ok jv =>
              values ← checkpoint_values now c jClient paths;
              Ok (data_value now (mc_prefix c) path (JsonIetfVal jv) :: values)
          end
      end
  end.

(** [content] is what reading the checkpoint file gives.  The namespace is
    computed into a variable of an inner block: the outer one stays empty. *)
Definition GetCheckPoint (now : Z) (content : option string) (c : MixedDbClient) : res gerr (list Value) :=
  match (CheckDbMultiNamespace cfg).2 with
  | (_, Some e) => Err (Errorf e)
  | (multiNs, None) =>
      _ ← (if multiNs then of_option Panicked (mc_dbkey c) else Ok default_key);
      match NewJsonClient content "" with
      | Err _ => Err (Errorf "There's no check point")
      | Ok jClient => checkpoint_values now c jClient (mc_paths c)
      end
  end.

Fixpoint get_values (now : Z) (g : Globals) (c : MixedDbClient) (paths : list (option Path))
  : res gerr (list Value) :=
  match paths with
  | [] => Ok []
  | path :: paths =>
      tblPaths ← getDbtablePath g c path None;
      val ← tableData2TypedValue g c tblPaths;
      values ← get_values now g c paths;
      Ok (data_value now (mc_prefix c) path val :: values)
  end.

(** The configuration is read from a checkpoint when there is one, else from
    the database. *)
Definition Get (now : Z) (content : option string) (g : Globals) (c : MixedDbClient) : res gerr (list Value) :=
  if bool_decide (mc_target c = "CONFIG_DB") then
    match GetCheckPoint now content c with
    | Ok ret => Ok ret
    | Err Panicked => Err Panicked
    | Err _ => get_values now g c (mc_paths c)
    end
  else get_values now g c (mc_paths c).

End mixed.
