(* ===== verification/MixedSet.v ===== *)
(** * The client of native paths: writes
      (src/sonic_data_client/mixed_db_client.go)

    A Set on APPL_DB or DPU_APPL_DB writes tables through swsscommon, each
    operation as it comes.  A Set on CONFIG_DB is collected into a JSON patch:
    the host service makes a checkpoint of the configuration, every operation
    is tried on a copy of it ([JsonClient]), and the patch of the operations
    that had an effect is given to the host service to apply.

    The tables of swsscommon, the host behind the bus with its files, and the
    validation by a Python program are parameters. *)
From stdpp Require Import base gmap list strings.
From S2P Require Import Prelude GoStrings Gnmi Json JsonClient World Dbus DbConfig DbConn DbClient MixedDb.

Definition DASH_TABLE_PREFIX : string := "DASH_".
Definition DASH_HA_TABLE_PREFIX : string := "DASH_HA_".
Definition MAX_RETRY_COUNT : nat := 5.
Definition RETRY_DELAY_MILLISECOND : Z := 100.
Definition RETRY_DELAY_FACTOR : Z := 2.
Definition CHECK_POINT_PATH : string := "/etc/sonic".

(** Which class of swsscommon serves a table. *)
Inductive kind := PlainTable | ZmqTable | ProducerTable.

Global Instance kind_eq_dec : EqDecision kind.
Proof. solve_decision. Defined.

(** An exception of the library is the text in the second component. *)
Class Tables := {
  TabT : Type;
  NewTable : kind → string → TabT → TabT * option string;
  TableSet : kind → string → string → list (string * string) → TabT → TabT * option string;
  TableDel : kind → string → string → TabT → TabT * option string;
  ZmqConnect : TabT → TabT * option string;
  Sleep : Z → TabT → TabT                      (* milliseconds *)
}.

(** The files of the host.  [RunPyCode] runs the Python program that validates
    the configuration in a file against the YANG models. *)
Class Host := {
  host_bus :: Bus;
  os_ReadFile : string → BusT → option string;
  os_WriteFile : string → string → BusT → BusT * option string;
  os_Remove : string → BusT → BusT;
  RunPyCode : string → BusT → BusT * option string
}.

Section set.
Context {Sw : Swss} {MR : MapRange} {JCo : JsonCodec} {Ta : Tables} {Ho : Host}.
Context (cfg : Cfg).

(** The host, the tables this client has opened, and what is behind them. *)
Record SetState := { ss_host : DState; ss_tables : gmap string kind; ss_out : TabT }.

Notation SM A := (ST SetState A).

Definition on_out {X} (f : TabT → TabT * X) : SM X := λ s,
  let '(t, x) := f (ss_out s) in
  ({| ss_host := ss_host s; ss_tables := ss_tables s; ss_out := t |}, x).

Definition on_host {X} (m : ST DState X) : SM X := λ s,
  let '(h, x) := m (ss_host s) in
  ({| ss_host := h; ss_tables := ss_tables s; ss_out := ss_out s |}, x).

(** ** Tables *)

(** The class of a table that was not opened yet. *)
Definition kind_of (zmq : option ZmqClient) (table : string) : kind :=
  if HasPrefix table DASH_HA_TABLE_PREFIX then PlainTable
  else if HasPrefix table DASH_TABLE_PREFIX && bool_decide (zmq ≠ None) then ZmqTable
  else ProducerTable.

(** The three maps of the client are one map to classes: a table is in at most
    one of them.  [nil], for a plain table, is its class. *)
Definition GetTable (c : MixedDbClient) (table : string) : SM (res gerr kind) := λ s,
  match ss_tables s !! table with
  | Some k => (s, Ok k)
  | None =>
      let k := kind_of (mc_zmqClient c) table in
      let '(t, e) := NewTable k table (ss_out s) in
      match e with
      | Some _ => ({| ss_host := ss_host s; ss_tables := ss_tables s; ss_out := t |}, Err Panicked)
      | None => ({| ss_host := ss_host s; ss_tables := <[table := k]> (ss_tables s); ss_out := t |}, Ok k)
      end
  end.

Definition connection_error (e : string) : bool :=
  Contains e "zmq connection break" || Contains e "Resource temporarily unavailable".

(** [more] counts the retries that are left: [retry <= MAX_RETRY_COUNT].  A
    method of a nil ZMQ client panics. *)
Fixpoint retry_loop (zmq : option ZmqClient) (action : SM (option string)) (more : nat) (delay : Z)
  : SM (option gerr) :=
  err ← action;
  match err, more with
  | Some e, S more =>
      if connection_error e then
        match zmq with
        | None => mret (Some Panicked)
        | Some _ =>
            e ← on_out ZmqConnect;
            match e with
            | Some _ => mret (Some Panicked)
            | None =>
                _ ← on_out (λ t, (Sleep delay t, ()));
                retry_loop zmq action more (delay * RETRY_DELAY_FACTOR)
            end
        end
      else mret (Some (Errorf e))
  | Some e, O => mret (Some (Errorf e))
  | None, _ => mret None
  end.

Definition RetryHelper (zmq : option ZmqClient) (action : SM (option string)) : SM (option gerr) :=
  retry_loop zmq action (S MAX_RETRY_COUNT) RETRY_DELAY_MILLISECOND.

(** A write to a table of class [k]; a plain one is not retried. *)
Definition run_table (c : MixedDbClient) (k : kind) (action : SM (option string)) : SM (option gerr) :=
  match k with
  | PlainTable => e ← action; mret (Errorf <$> e)
  | _ => RetryHelper (mc_zmqClient c) action
  end.

Definition DbSetTable (c : MixedDbClient) (table key : string) (values : gmap string string)
  : SM (option gerr) :=
  k ← GetTable c table;
  match k with
  | Err e => mret (Some e)
  | Ok k => run_table c k (on_out (TableSet k table key (map_range values)))
  end.

Definition DbDelTable (c : MixedDbClient) (table key : string) : SM (option gerr) :=
  k ← GetTable c table;
  match k with
  | Err e => mret (Some e)
  | Ok k => run_table c k (on_out (TableDel k table key))
  end.

(** The strings of a list; other items are skipped. *)
Definition strings_of (l : list json) : list string := omap as_string l.

(** A value that is neither a string nor a list is dropped. *)
Definition redis_field (e : string * json) : option (string * string) :=
  match e.2 with
  | JStr s => Some (e.1, s)
  | JArr l => Some (e.1 +:+ "@", Join (strings_of l) ",")
  | _ => None
  end.

Definition ConvertDbEntry (inputData : gmap string json) : gmap string string :=
  insert_all redis_field ∅ (map_range inputData).

(** [for ... { err = f(x); if err != nil { return err } }] *)
Fixpoint each {X} (f : X → SM (option gerr)) (xs : list X) : SM (option gerr) :=
  match xs with
  | [] => mret None
  | x :: xs => e ← f x; match e with Some e => mret (Some e) | None => each f xs end
  end.

(** The entries of a table that a delete names. *)
Definition delete_keys (redisDb : Conn) (tp : tablePath) : res gerr (list string) :=
  if bool_decide (tableKey tp = "") then redis_op "redis Keys failed" (Keys redisDb (table_pattern tp))
  else Ok [full_key tp].

Definition remove_entries (c : MixedDbClient) (redisDb : Conn) (tp : tablePath) : SM (option gerr) :=
  match delete_keys redisDb tp with
  | Err e => mret (Some e)
  | Ok dbkeys =>
      each (λ dbkey, DbDelTable c (tableName tp) (TrimPrefix dbkey (tableName tp +:+ delimitor tp))) dbkeys
  end.

(** One entry of a table given as JSON. *)
Definition set_entry (c : MixedDbClient) (table : string) (e : string * json) : SM (option gerr) :=
  match as_map e.2 with
  | Some vt => DbSetTable c table e.1 (ConvertDbEntry vt)
  | None => mret (Some (Errorf ("Key " +:+ e.1 +:+ ": Unsupported value")))
  end.

Definition parse_json (text : string) : res gerr json :=
  of_option (Errorf "JSON unmarshalling error") (Unmarshal text).

Definition add_entries (c : MixedDbClient) (tp : tablePath) : SM (option gerr) :=
  if bool_decide (tableKey tp ≠ "") then
    if bool_decide (jsonValue tp ≠ "") then
      match parse_json (jsonValue tp) with
      | Err e => mret (Some e)
      | Ok res => set_entry c (tableName tp) (tableKey tp, res)
      end
    else DbSetTable c (tableName tp) (tableKey tp) (ConvertDbEntry {["pb" := JStr (protoValue tp)]})
  else if bool_decide (jsonValue tp = "") then mret (Some (Errorf "No valid value"))
  else
    match parse_json (jsonValue tp) with
    | Err e => mret (Some e)
    | Ok (JObj vtable) => each (set_entry c (tableName tp)) (map_range vtable)
    | Ok _ => mret (Some (Errorf "Unsupported value"))
    end.

Definition handleTableData (g : Globals) (c : MixedDbClient) (tblPaths : list tablePath) : SM (option gerr) :=
  each (λ tp,
    match redis_of g c (dbName tp) with
    | Err e => mret (Some e)
    | Ok redisDb =>
        if bool_decide (jsonField tp = "") && bool_decide (field tp ≠ "") then
          mret (Some (Errorf "Unsupported path, can't update field"))
        else if bool_decide (operation tp = opRemove) then remove_entries c redisDb tp
        else if bool_decide (operation tp = opAdd) then add_entries c tp
        else mret (Some (Errorf "Unsupported operation"))
    end) tblPaths.

Definition set_item (g : Globals) (c : MixedDbClient) (item : Update) : SM (option gerr) :=
  match getDbtablePath cfg g c (upd_path item) (upd_val item) with
  | Err e => mret (Some e)
  | Ok tblPaths => handleTableData g c tblPaths
  end.

(** All deletes are resolved before the first is carried out. *)
Definition SetDB (g : Globals) (c : MixedDbClient) (delete : list (option Path)) (replace update : list Update)
  : SM (option gerr) :=
  match getAllDbtablePath cfg g c delete with
  | Err e => mret (Some e)
  | Ok deletePathList =>
      e ← each (handleTableData g c) deletePathList;
      match e with
      | Some e => mret (Some e)
      | None => each (set_item g c) (replace ++ update)
      end
  end.

(** ** The configuration *)

(** An operation of a JSON patch. *)
Notation patch := (gmap string json).

(** The text of the keys of an element, in the order of the range. *)
Definition keys_text (m : gmap string string) : string :=
  foldr (λ '(k, v) s, "[" +:+ k +:+ "=" +:+ v +:+ "]" +:+ s) "" (map_range m).

Definition json_path (elems : list PathElem) : string :=
  TrimSuffix (foldl (λ p e, p +:+ elem_name e +:+ keys_text (elem_key e) +:+ "/") "/" elems) "/".

Definition ConvertToJsonPatch (prefix path : option Path) (t : option TypedValue) (operation : string)
  : res gerr patch :=
  if bool_decide (t ≠ None) && bool_decide (GetJsonIetfVal t = "") then
    Err (Errorf "Value encoding is not IETF JSON")
  else
    elems ← gnmiFullPath prefix path;
    let output : patch := {["op" := JStr operation; "path" := JStr (json_path (default [] elems))]} in
    match t with
    | None => Ok output
    | Some _ => val ← parse_json (GetJsonIetfVal t); Ok (<["value" := val]> output)
    end.

(** [curr["path"] = "/" + namespace + curr["path"].(string)] *)
Definition in_namespace (multiNs : bool) (namespace : string) (curr : patch) : patch :=
  if multiNs then
    <["path" := JStr ("/" +:+ namespace +:+ match curr !! "path" with Some (JStr p) => p | _ => "" end)]> curr
  else curr.

Definition jc_fail : jc_error → gerr := λ _, Errorf "json client".

(** What an operation does to the checkpoint: it goes on with the store it
    leaves, it is skipped, or it fails. *)
Inductive tried := Tried (jc : JsonClient) | Skipped (jc : JsonClient) | Refused (e : gerr).

Definition try_remove (jc : JsonClient) (names : list string) : tried :=
  match Remove jc names with
  | (jc, None) => Tried jc
  | (jc, Some _) => Skipped jc
  end.

Definition try_write (r : JsonClient * option jc_error) : tried :=
  match r with
  | (jc, None) => Tried jc
  | (_, Some e) => Refused (jc_fail e)
  end.

Definition try_delete (jc : JsonClient) (elems : option (list PathElem)) : tried :=
  match elems with None => Tried jc | Some elems => try_remove jc (names_of elems) end.

Definition try_replace (t : option TypedValue) (jc : JsonClient) (elems : option (list PathElem)) : tried :=
  match elems, t with
  | None, _ => Tried jc
  | Some elems, None => try_remove jc (names_of elems)
  | Some elems, Some _ => try_write (Replace jc (names_of elems) (GetJsonIetfVal t))
  end.

Definition try_update (t : option TypedValue) (jc : JsonClient) (elems : option (list PathElem)) : tried :=
  match elems, t with
  | None, _ => Tried jc
  | Some _, None => Refused (Errorf "Invalid update")
  | Some elems, Some _ => try_write (Add jc (names_of elems) (GetJsonIetfVal t))
  end.

(** One operation of the request, with the name it has in a patch. *)
Record config_op := {
  co_path : option Path;
  co_val : option TypedValue;
  co_name : string;
  co_try : JsonClient → option (list PathElem) → tried
}.

Definition delete_op (p : option Path) : config_op :=
  {| co_path := p; co_val := None; co_name := "remove"; co_try := try_delete |}.
Definition replace_op (u : Update) : config_op :=
  {| co_path := upd_path u; co_val := upd_val u; co_name := "replace"; co_try := try_replace (upd_val u) |}.
Definition update_op (u : Update) : config_op :=
  {| co_path := upd_path u; co_val := upd_val u; co_name := "add"; co_try := try_update (upd_val u) |}.

Definition config_ops (delete : list (option Path)) (replace update : list Update) : list config_op :=
  (delete_op <$> delete) ++ (replace_op <$> replace) ++ (update_op <$> update).

(** The body of the three loops: the store and the patch list. *)
Definition config_step (c : MixedDbClient) (multiNs : bool) (namespace : string)
    (s : JsonClient * list patch) (o : config_op) : res gerr (JsonClient * list patch) :=
  let '(jc, patchList) := s in
  elems ← gnmiFullPath (mc_prefix c) (co_path o);
  match co_try o jc elems with
  | Refused e => Err e
  | Skipped jc => Ok (jc, patchList)
  | Tried jc =>
      curr ← ConvertToJsonPatch (mc_prefix c) (co_path o) (co_val o) (co_name o);
      Ok (jc, patchList ++ [in_namespace multiNs namespace curr])
  end.

Definition build_patch (c : MixedDbClient) (multiNs : bool) (namespace : string) (jc : JsonClient)
    (ops : list config_op) : res gerr (JsonClient * list patch) :=
  foldM (config_step c multiNs namespace) (jc, []) ops.

(** The namespace the host service knows; [localhost] is the default one. *)
Definition gcu_namespace (c : MixedDbClient) (multiNs : bool) : res gerr string :=
  if multiNs then
    dbkey ← of_option Panicked (mc_dbkey c);
    Ok (if bool_decide (Netns dbkey = SONIC_DEFAULT_NAMESPACE) then HOSTNAME else Netns dbkey)
  else Ok "".

Definition host_read (f : string) : ST DState (option string) := gets (λ s, os_ReadFile f (ds_bus s)).

Definition host_run {X} (f : BusT → BusT * X) : ST DState X := λ s,
  let '(b, x) := f (ds_bus s) in ({| ds_bus := b; ds_counters := ds_counters s |}, x).

(** [if err == nil { err = sc.ConfigSave(...) }] *)
Definition then_save (e : option string) : ST DState (option gerr) :=
  match e with
  | Some e => mret (Some (Errorf e))
  | None => e ← ConfigSave NewDbusClient "/etc/sonic/config_db.json"; mret (Errorf <$> e)
  end.

Definition apply_patches (c : MixedDbClient) (patchList : list patch) : ST DState (option gerr) :=
  match Marshal (JArr (JObj <$> patchList)) with
  | None => mret (Some (Errorf "json: unsupported value"))
  | Some text =>
      e ← host_run (os_WriteFile (mc_workPath c +:+ "/gcu.patch") text);
      match e with
      | Some e => mret (Some (Errorf e))
      | None =>
          e ← (if bool_decide (mc_origin c = "sonic-db") then ApplyPatchDb NewDbusClient text else mret None);
          then_save e
      end
  end.

(** With the checkpoint in place. *)
Definition with_checkpoint (c : MixedDbClient) (multiNs : bool) (namespace : string) (ops : list config_op)
  : ST DState (option gerr) :=
  content ← host_read (CHECK_POINT_PATH +:+ "/config.cp.json");
  match NewJsonClient content namespace with
  | Err e => mret (Some (jc_fail e))
  | Ok jc =>
      match build_patch c multiNs namespace jc ops with
      | Err e => mret (Some e)
      | Ok (_, []) => mret None
      | Ok (_, patchList) => apply_patches c patchList
      end
  end.

Definition SetIncrementalConfig (c : MixedDbClient) (delete : list (option Path)) (replace update : list Update)
  : ST DState (option gerr) :=
  match (CheckDbMultiNamespace cfg).2 with
  | (_, Some e) => mret (Some (Errorf e))
  | (multiNs, None) =>
      match gcu_namespace c multiNs with
      | Err e => mret (Some e)
      | Ok namespace =>
          e ← CreateCheckPoint NewDbusClient (CHECK_POINT_PATH +:+ "/config");
          match e with
          | Some e => mret (Some (Errorf e))
          | None =>
              r ← with_checkpoint c multiNs namespace (config_ops delete replace update);
              _ ← DeleteCheckPoint NewDbusClient (CHECK_POINT_PATH +:+ "/config");
              mret r
          end
      end
  end.

(** The whole configuration in one update: written to a file and validated. *)
Definition SetFullConfig (c : MixedDbClient) (update : Update) : ST DState (option gerr) :=
  let content := GetJsonIetfVal (upd_val update) in
  if bool_decide (content = "") then mret (Some (Errorf "Value encoding is not IETF JSON"))
  else
    let fileName := mc_workPath c +:+ "/config_db.json.tmp" in
    e ← host_run (os_WriteFile fileName content);
    match e with
    | Some e => mret (Some (Errorf e))
    | None =>
        e ← host_run (RunPyCode fileName);
        mret (match e with Some _ => Some (Errorf "Yang validation failed!") | None => None end)
    end.

Definition ReplaceFullConfig (replace : Update) : ST DState (option gerr) :=
  let content := GetJsonIetfVal (upd_val replace) in
  if bool_decide (content = "") then mret (Some (Errorf "Value encoding is not IETF JSON"))
  else e ← ConfigReplace NewDbusClient content; then_save e.

(** A path that names the database and the instance and nothing below. *)
Definition is_root (c : MixedDbClient) (path : option Path) : res gerr bool :=
  elems ← gnmiFullPath (mc_prefix c) path;
  Ok (bool_decide (default [] elems = [])).

Definition SetConfigDB (c : MixedDbClient) (delete : list (option Path)) (replace update : list Update)
  : ST DState (option gerr) :=
  _ ← host_run (λ b, (os_Remove (mc_workPath c +:+ "/config_db.json.tmp") b, ()));
  match delete, replace, update with
  | [d], [], [u] =>
      match is_root c d with
      | Err e => mret (Some e)
      | Ok d_root =>
          match is_root c (upd_path u) with
          | Err e => mret (Some e)
          | Ok u_root =>
              if d_root && u_root then SetFullConfig c u else SetIncrementalConfig c delete replace update
          end
      end
  | [], [r], [] =>
      match is_root c (upd_path r) with
      | Err e => mret (Some e)
      | Ok r_root => if r_root : bool then ReplaceFullConfig r else SetIncrementalConfig c delete replace update
      end
  | _, _, _ => SetIncrementalConfig c delete replace update
  end.

Definition Set_ (g : Globals) (c : MixedDbClient) (delete : list (option Path)) (replace update : list Update)
  : SM (option gerr) :=
  if bool_decide (mc_target c = "CONFIG_DB") then on_host (SetConfigDB c delete replace update)
  else if bool_decide (mc_target c = DPU_APPL_DB_NAME) || bool_decide (mc_target c = APPL_DB_NAME) then
    SetDB g c delete replace update
  else mret (Some (Errorf ("Set RPC does not support " +:+ mc_target c))).

End set.
