(* ===== verification/MixedStream.v ===== *)
(** * Polls and streams of native paths
      (src/sonic_data_client/mixed_db_client.go)

    Each routine is a step function on its local variables, run over the
    events it waits for, as in DbStream.  A routine of one field keeps the
    Redis client it found at its start; a routine of a table looks the client
    up at every read.  [OnceRun] and [AppDBPollRun] return at once. *)
From stdpp Require Import base gmap list strings.
From S2P Require Import Prelude GoStrings Gnmi Json World DbConfig DbConn DbClient DbStream MixedDb.

(** A moment at which a routine acts: the time, the maps of the process, what
    the client that the routine keeps answers, and whether the queue accepts
    values. *)
Record MEvent := { mev_now : Z; mev_globals : Globals; mev_conn : Conn; mev_put : bool }.

Definition mput (ev : MEvent) (v : Value) : list Value := if mev_put ev then [v] else [].
Definition mfatal (ev : MEvent) (msg : string) : list Value := mput ev (putFatalMsg (mev_now ev) msg).

Section stream.
Context {Sw : Swss} {MR : MapRange} {JCo : JsonCodec}.
Context (cfg : Cfg) (c : MixedDbClient).

(** The text of an error in a fatal message; [None] for a panic. *)
Definition err_text (e : gerr) : option string :=
  match e with Errorf m => Some m | RedisNil => Some "redis: nil" | Panicked => None end.

(** What a routine puts in the queue when it ends with an error. *)
Definition report (ev : MEvent) (e : gerr) : list Value :=
  match err_text e with Some m => mfatal ev m | None => [] end.

(** ** Polls *)

(** The paths of one poll; the routine ends silently at the first error. *)
Fixpoint poll_paths (ev : MEvent) (paths : list (option Path)) : list Value * bool :=
  match paths with
  | [] => ([], true)
  | path :: paths =>
      match (tblPaths ← getDbtablePath cfg (mev_globals ev) c path None;
             tableData2TypedValue (mev_globals ev) c tblPaths) with
      | Err _ => ([], false)
      | Ok val =>
          let '(out, ok) := poll_paths ev paths in
          (mput ev (data_value (mev_now ev) (mc_prefix c) path val) ++ out, ok)
      end
  end.

Definition poll_once (_ : ()) (ev : MEvent) : list Value * option () :=
  let '(out, ok) := poll_paths ev (mc_paths c) in
  if ok then (out ++ mput ev (sync_value (mev_now ev)), Some ()) else (out, None).

(** One event per poll; the channel is closed after the last. *)
Definition PollRun (polls : list MEvent) : list Value := run_events poll_once () polls.

(** ** Choosing the routine of a subscription *)

Record MSubscription := { msub_path : option Path; msub_mode : SubscriptionMode; msub_interval : Z }.

(** The routine that was started, or the error it reported. *)
Definition streamOnChangeSubscription (g : Globals) (path : option Path) : res gerr routine :=
  tblPaths ← getDbtablePath cfg g c path None;
  tp ← index tblPaths 0;
  Ok (if bool_decide (field tp ≠ "") then FieldSubscribe true 200000000 else TableKeySubscribe 0 true).

Definition streamSampleSubscription (g : Globals) (sub : MSubscription) (updateOnly : bool) : res gerr routine :=
  samplingInterval ← validateSampleInterval (msub_interval sub);
  tblPaths ← getDbtablePath cfg g c (msub_path sub) None;
  tp ← index tblPaths 0;
  Ok (if bool_decide (field tp ≠ "") then FieldSubscribe false samplingInterval
      else TableKeySubscribe samplingInterval updateOnly).

(** The routines up to the first subscription with a mode that is not
    supported. *)
Fixpoint start_subscriptions (g : Globals) (updates_only : bool) (subs : list MSubscription)
  : list (res gerr routine) * option string :=
  match subs with
  | [] => ([], None)
  | sub :: subs =>
      let go r := let '(rs, fatal) := start_subscriptions g updates_only subs in (r :: rs, fatal) in
      match msub_mode sub with
      | SAMPLE => go (streamSampleSubscription g sub updates_only)
      | ON_CHANGE => go (streamOnChangeSubscription g (msub_path sub))
      | _ => ([], Some "unsupported subscription mode")
      end
  end.

Definition StreamRun (g : Globals) (updates_only : bool) (subs : list MSubscription)
  : list (res gerr routine) * option string :=
  match subs with
  | [] => (streamOnChangeSubscription g <$> mc_paths c, None)
  | _ => start_subscriptions g updates_only subs
  end.

(** ** One field *)

(** [readVal]: an absent field and an error read as the empty string. *)
Definition read_val (redisDb : Conn) (tp : tablePath) : string :=
  match HGetF redisDb (field_key tp) (field tp) with Ok v => v | Err _ => "" end.

Definition send_val (ev : MEvent) (path : option Path) (v : string) : list Value :=
  mput ev (data_value (mev_now ev) (mc_prefix c) path (StringVal v)).

Definition field_tick (onChange : bool) (path : option Path) (tp : tablePath) (val : string) (ev : MEvent)
  : list Value * option string :=
  let newVal := read_val (mev_conn ev) tp in
  if negb onChange || bool_decide (newVal ≠ val) then
    (send_val ev path newVal, if mev_put ev then Some newVal else None)
  else ([], Some val).

(** The path is resolved again; [start] is the first reading. *)
Definition dbFieldSubscribe (onChange : bool) (path : option Path) (start : MEvent) (evs : list MEvent)
  : list Value :=
  match (tblPaths ← getDbtablePath cfg (mev_globals start) c path None;
         tp ← index tblPaths 0;
         _ ← of_option (Errorf ("RedisDbMap not exist:  " +:+ redis_key (mc_mapkey c) (dbName tp)))
               (RedisDbMap (mev_globals start) !! redis_key (mc_mapkey c) (dbName tp));
         Ok tp) with
  | Err e => report start e
  | Ok tp =>
      let val := read_val (mev_conn start) tp in
      send_val start path val ++
      if mev_put start then run_events (field_tick onChange path tp) val evs else []
  end.

(** ** Whole entries *)

(** A notification and the maps at the time it is handled. *)
Record MMessage := { mmsg_channel : string; mmsg_payload : string; mmsg_globals : Globals }.

(** One message: the data remembered and what is sent on the update channel.
    Bytes have no equality of their own in the map: [Msi] compares them too. *)
Definition Msi_eqb (a b : Msi) : bool :=
  bool_decide (m_pb a = m_pb b) &&
  bool_decide (match m_pb a with Some _ => delete "pb" (m_json a) | None => m_json a end
               = match m_pb b with Some _ => delete "pb" (m_json b) | None => m_json b end).

Definition Msi_empty (a : Msi) : bool :=
  bool_decide (m_pb a = None) && bool_decide (m_json a = ∅).

Definition table_message (rsd : redisSubData) (msi : Msi) (m : MMessage) : res gerr (Msi * option Msi) :=
  let tp := rsd_tblPath rsd in
  let short := bool_decide (String.length (mmsg_channel m) < rsd_prefixLen rsd) in
  let key := str_drop (rsd_prefixLen rsd) (mmsg_channel m) in
  if bool_decide (mmsg_payload m = "del") || bool_decide (mmsg_payload m = "hdel") then
    if bool_decide (tableKey tp ≠ "") || short then Ok (msi, None)
    else Ok (msi, Some {| m_json := <["delete" := JStr "null_value"]> {[key := JObj ∅]}; m_pb := None |})
  else if bool_decide (mmsg_payload m = "hset") then
    let changed newMsi :=
      if Msi_eqb newMsi msi then Ok (msi, None)
      else Ok (newMsi, if Msi_empty newMsi then None else Some newMsi) in
    if bool_decide (tableKey tp ≠ "") then
      newMsi ← tableData2Msi (mmsg_globals m) c tp false None empty_msi; changed newMsi
    else if short then Ok (msi, None)
    else
      newMsi ← tableData2Msi (mmsg_globals m) c (set_tableKey tp key) true None empty_msi; changed newMsi
  else Ok (msi, None).

(** What the messages make it send, and whether it stopped with an error. *)
Fixpoint dbSingleTableKeySubscribe (rsd : redisSubData) (msi : Msi) (ms : list MMessage)
  : list Msi * option gerr :=
  match ms with
  | [] => ([], None)
  | m :: ms =>
      match table_message rsd msi m with
      | Err e => ([], Some e)
      | Ok (msi, upd) =>
          let '(out, fatal) := dbSingleTableKeySubscribe rsd msi ms in
          (match upd with Some u => u :: out | None => out end, fatal)
      end
  end.

(** [confirm] is the channel the server confirms, if it does. *)
Definition table_setup_one (confirm : string → option string) (g : Globals)
    (s : Msi * list redisSubData) (tp : tablePath) : res gerr (Msi * list redisSubData) :=
  let '(msiAll, rsdList) := s in
  let '(pattern, prefixLen) := keyspace_pattern tp in
  _ ← of_option (Errorf ("RedisDbMap not exist:  " +:+ redis_key (mc_mapkey c) (dbName tp)))
        (RedisDbMap g !! redis_key (mc_mapkey c) (dbName tp));
  if bool_decide (confirm pattern ≠ Some pattern) then
    Err (Errorf ("psubscribe to " +:+ pattern +:+ " failed"))
  else
    msiAll ← tableData2Msi g c tp false None msiAll;
    Ok (msiAll, rsdList ++ [{| rsd_tblPath := tp; rsd_prefixLen := prefixLen |}]).

(** [sendMsiData]: the values put, and whether the routine goes on. *)
Definition send_msi (ev : MEvent) (path : option Path) (msi : Msi) : list Value * bool :=
  match msi2TypedValue c msi with
  | Err e => (report ev e, false)
  | Ok tv => (mput ev (data_value (mev_now ev) (mc_prefix c) path tv), mev_put ev)
  end.

(** The entries of [new] over those of [old]. *)
Definition merge (new old : Msi) : Msi := {|
  m_json := match m_pb new with Some _ => delete "pb" (m_json new) | None => m_json new end
            ∪ match m_pb old with Some _ => delete "pb" (m_json old) | None => m_json old end;
  m_pb := match m_pb new with
          | Some v => Some v
          | None => if m_json new !! "pb" then None else m_pb old
          end
|}.

Inductive mtable_event := MUpdated (ev : MEvent) (msi : Msi) | MTicked (ev : MEvent).

Definition table_step (interval : Z) (updateOnly : bool) (path : option Path) (msiAll : Msi) (e : mtable_event)
  : list Value * option Msi :=
  match e with
  | MUpdated ev updatedTable =>
      if bool_decide (interval = 0%Z) then
        let '(out, go) := send_msi ev path updatedTable in (out, if go then Some msiAll else None)
      else ([], Some (merge updatedTable msiAll))
  | MTicked ev =>
      let '(out, go) := send_msi ev path msiAll in
      (out, if go then Some (if updateOnly then empty_msi else msiAll) else None)
  end.

Definition dbTableKeySubscribe (confirm : string → option string) (interval : Z) (updateOnly : bool)
    (path : option Path) (start : MEvent) (evs : list mtable_event) : list Value :=
  match getDbtablePath cfg (mev_globals start) c path None with
  | Err e => match err_text e with Some m => mfatal start ("Path error:  " +:+ m) | None => [] end
  | Ok tblPaths =>
      match foldM (table_setup_one confirm (mev_globals start)) (empty_msi, []) tblPaths with
      | Err e => report start e
      | Ok (msiAll, _) =>
          let '(out, go) := send_msi start path msiAll in
          out ++ if go then run_events (table_step interval updateOnly path)
                              (if updateOnly then empty_msi else msiAll) evs
                 else []
      end
  end.

End stream.
