(* ===== verification/DbClientFacts.v ===== *)
(** * What a client of the databases reads

    [get_native_path] and [get_native_table] give the answer to a Get of a
    real path in terms of the contents of the database;
    [sample_interval_bounds] bounds the interval of a stream. *)
From Stdlib Require Import Ascii.
From stdpp Require Import base gmap sets list strings.
From S2P Require Import Prelude GoStrings Gnmi Json World DbConfig DbConn Trie VirtualDb V2R VirtualDbFacts DbClient.

(** ** Sampling intervals *)

(** The interval of a SAMPLE subscription: the minimum for zero, the
    requested number of nanoseconds when it is a second or more and fits a
    signed 64-bit duration, and an error for everything else; a request of
    2^63 or more wraps to a negative duration and is refused as well. *)
Theorem sample_interval_bounds u :
  (0 ≤ u < 2 ^ 64)%Z →
  match validateSampleInterval u with
  | Ok i => (MinSampleInterval ≤ i ≤ max_int64)%Z ∧ (i = u ∨ u = 0 ∧ i = MinSampleInterval)%Z
  | Err _ => (0 < u < MinSampleInterval ∨ 2 ^ 63 ≤ u)%Z
  end.
Proof.
  intros Hu. unfold validateSampleInterval, MinSampleInterval, max_int64.
  assert (to_int64 u = if bool_decide (u < 2 ^ 63)%Z then u else u - 2 ^ 64)%Z as ->.
  { unfold to_int64. case_bool_decide.
    - rewrite Z.mod_small by lia. lia.
    - rewrite (Z.mod_eq _ (2 ^ 64)) by lia.
      assert ((u + 2 ^ 63) / 2 ^ 64 = 1)%Z as -> by (symmetry; apply Z.div_unique with (u - 2 ^ 63)%Z; lia).
      lia. }
  repeat case_bool_decide; lia.
Qed.

Section native.
Context {Sw : Swss} {MR : MapRange} {JCo : JsonCodec}.

(** ** Real paths *)

Lemma translator_other db names : db ≠ "COUNTERS_DB" → translator (db :: names) = None.
Proof.
  intros Hdb. destruct names as [|a [|b [|x [|y l]]]]; simpl; by rewrite ?bool_decide_false.
Qed.

Lemma target_plain db s :
  is_target db = true → (IsTargetDb db s).2 = (db, true, "", false).
Proof.
  intros Ht. unfold IsTargetDb, mbind, ST_bind.
  assert (Split db "/" = [db]) as ->.
  { unfold is_target in Ht. apply bool_decide_eq_true_1 in Ht. simpl in Ht.
    repeat (apply elem_of_cons in Ht as [->|Ht]; [vm_compute; reflexivity|]). by apply elem_of_nil in Ht. }
  simpl. destruct (CheckDbMultiNamespace s) as [s' [b e]]. simpl. rewrite andb_false_r. by rewrite Ht.
Qed.

Lemma default_namespace s : (GetDbNamespaceFromTarget "" s).2 = (("", true), None).
Proof. done. Qed.

Definition target_prefix (db : string) : option Path :=
  Some {| path_origin := ""; path_target := db; path_elem := [] |}.

Lemma elem_names_id (l : list string) : (elem_name ∘ elem) <$> l = l.
Proof. induction l; simpl; by f_equal. Qed.

Lemma slice_target target db names :
  names ≠ [] → string_slice db (target_prefix target) (Some (path_of names)) = db :: names.
Proof.
  intros Hn. unfold string_slice, target_prefix. simpl. f_equal.
  destruct names as [|x names]; [done|]. simpl. f_equal.
  rewrite <- list_fmap_compose. apply elem_names_id.
Qed.

Lemma slice_names db names :
  names ≠ [] → string_slice db (target_prefix db) (Some (path_of names)) = db :: names.
Proof. apply slice_target. Qed.

(** A Get of one path: resolve it, read it. *)
Definition get_one (E : Env) (g : Maps) (prefix path : option Path) : res gerr TypedValue :=
  tps ← (populateDbtablePath E prefix path g).2; tableData2TypedValue (Target2RedisDb E) tps.

(** The target of a Get names the database [db] of the namespace [ns], which
    has a connection [c] with the contents [d]; a path of COUNTERS_DB is not a
    virtual one. *)
Record reads (E : Env) (g : Maps) (target db ns : string) (c : Conn) (d : contents) (names : list string)
  : Prop := {
  rd_target : ∃ tns ex, (IsTargetDb target (env_cfg E)).2 = (db, true, tns, ex) ∧
                        (GetDbNamespaceFromTarget tns (env_cfg E)).2 = ((ns, true), None);
  rd_real : db = "COUNTERS_DB" →
    ∃ g' e, init_counters E g = (g', None) ∧ lookupV2R E g' (db :: names) = Err e ∧ e ≠ Panicked;
  rd_client : client_of (Target2RedisDb E) ns db = Some c;
  rd_serves : Serves c d
}.

Lemma populate_reads E g target db ns c d names :
  reads E g target db ns c d names → names ≠ [] →
  (populateDbtablePath E (target_prefix target) (Some (path_of names)) g).2 =
  (tp ← split_slice c ns db (separator_of E db ns) (db :: names); tp ← check_entry c db tp; Ok [tp]).
Proof.
  intros [(tns & ex & Ht & Hns) Hreal Hcl _] Hn. unfold populateDbtablePath. simpl. rewrite Ht. simpl.
  rewrite Hns. destruct (decide (db = "COUNTERS_DB")) as [Hc|Hc].
  - rewrite bool_decide_true by done. destruct (Hreal Hc) as (g' & e & -> & Hl & He). simpl.
    rewrite slice_target by done. unfold populate_slice. rewrite Hl. destruct e; (done || by rewrite Hcl).
  - rewrite bool_decide_false by done. simpl. rewrite slice_target by done. unfold populate_slice.
    rewrite lookupV2R_eq, translator_other by done. by rewrite Hcl.
Qed.

(** A database other than COUNTERS_DB in the default namespace. *)
Record native (E : Env) (db : string) (c : Conn) (d : contents) : Prop := {
  native_target : is_target db = true;
  native_counters : db ≠ "COUNTERS_DB";
  native_client : client_of (Target2RedisDb E) "" db = Some c;
  native_serves : Serves c d
}.

Lemma native_reads E g db c d names : native E db c d → reads E g db db "" c d names.
Proof. intros [Ht Hc Hcl Hs]. split; [|done..]. exists "", false. by rewrite target_plain. Qed.

(** The answer for one entry, and for one field of an entry. *)
Definition entry_value (h : gmap string string) : res gerr TypedValue := Msi2TypedValue (JStr <$> h).

Definition field_value (d : contents) (k f : string) : res gerr TypedValue :=
  match d !! k ≫= λ h, h !! f with Some v => Ok (StringVal v) | None => Err RedisNil end.

Lemma read_field T ns db c d tbl key fld sep :
  client_of T ns db = Some c → Serves c d → fld ≠ "" →
  tableData2TypedValue T [real_path ns db sep tbl key fld] =
  field_value d (if bool_decide (key = "") then tbl else tbl +:+ sep +:+ key) fld.
Proof.
  intros Hcl Hs Hf. unfold tableData2TypedValue, table_data. simpl.
  rewrite bool_decide_true by done. simpl. unfold client_for. simpl. rewrite Hcl. simpl.
  rewrite serves_hget. unfold field_key, full_key, field_value. simpl.
  destruct (decide (key = "")) as [->|Hk].
  - rewrite bool_decide_false by (by intros []). rewrite bool_decide_true by done.
    by destruct (d !! tbl ≫= _).
  - rewrite bool_decide_true, bool_decide_false by done. by destruct (d !! _ ≫= _).
Qed.

Lemma read_entry T ns db c d tbl key sep :
  client_of T ns db = Some c → Serves c d → key ≠ "" →
  tableData2TypedValue T [real_path ns db sep tbl key ""] =
  entry_value (default ∅ (d !! (tbl +:+ sep +:+ key))).
Proof.
  intros Hcl Hs Hk. unfold tableData2TypedValue, table_data. simpl.
  unfold TableData2Msi, client_for. simpl. rewrite Hcl. simpl. rewrite bool_decide_false by done. simpl.
  unfold render_key, full_key. simpl. rewrite serves_hgetall. simpl.
  rewrite bool_decide_true by done. simpl. unfold entry_value. by rewrite map_union_empty.
Qed.

(** What a path stands for in the contents of the database: an entry if the
    elements after the table name one, else a field of the entry that all but
    the last name, where a table that is itself an entry has no key.  APPL_DB
    is not asked whether the entry is there: a second element that is neither
    a key nor a field is read as an entry without fields. *)
Definition no_entry (k : string) : res gerr TypedValue :=
  Err (Errorf ("No valid entry found with key " +:+ k)).

Definition field_of (appl : bool) (d : contents) (k f : string) : res gerr TypedValue :=
  if appl || bool_decide (is_Some (d !! k)) then field_value d k f else no_entry k.

Definition native_answer (appl : bool) (d : contents) (sep : string) (names : list string)
  : res gerr TypedValue :=
  match names with
  | [tbl; k] =>
      match d !! (tbl +:+ sep +:+ k) with
      | Some h => entry_value h
      | None => if appl && bool_decide ((d !! tbl ≫= λ h, h !! k) = None) then entry_value ∅
                else field_value d tbl k
      end
  | [tbl; k; x] =>
      match d !! (tbl +:+ sep +:+ k +:+ sep +:+ x) with
      | Some h => entry_value h
      | None => field_of appl d (tbl +:+ sep +:+ k) x
      end
  | [tbl; k; x; f] => field_of appl d (tbl +:+ sep +:+ k +:+ sep +:+ x) f
  | _ => Err (Errorf "Invalid db table Path")
  end.

Lemma check_native ns db c d tbl key fld sep :
  Serves c d → key ≠ "" →
  check_entry c db (real_path ns db sep tbl key fld) =
  if bool_decide (db = "APPL_DB") || bool_decide (is_Some (d !! (tbl +:+ sep +:+ key)))
  then Ok (real_path ns db sep tbl key fld)
  else Err (Errorf ("No valid entry found with key " +:+ tbl +:+ sep +:+ key)).
Proof.
  intros Hs Hk. unfold check_entry. rewrite (bool_decide_true (tableKey _ ≠ "")) by done.
  unfold full_key. simpl. rewrite serves_exists, andb_true_r, bool_decide_not.
  destruct (bool_decide (db = "APPL_DB")); [done|]. simpl. by destruct (d !! _).
Qed.

(** Reading a field of a key. *)
Lemma read_field_of T ns db c d tbl key fld sep :
  client_of T ns db = Some c → Serves c d → key ≠ "" → fld ≠ "" →
  (tp ← check_entry c db (real_path ns db sep tbl key fld); tableData2TypedValue T [tp]) =
  field_of (bool_decide (db = "APPL_DB")) d (tbl +:+ sep +:+ key) fld.
Proof.
  intros Hcl Hs Hk Hf. rewrite (check_native ns db c d) by done. unfold field_of.
  destruct (_ || _); [|done]. simpl. rewrite (read_field T ns db c d) by done. by rewrite bool_decide_false.
Qed.

(** Reading an entry that is there. *)
Lemma read_entry_of T ns db c d tbl key sep h :
  client_of T ns db = Some c → Serves c d → key ≠ "" → d !! (tbl +:+ sep +:+ key) = Some h →
  (tp ← check_entry c db (real_path ns db sep tbl key ""); tableData2TypedValue T [tp]) = entry_value h.
Proof.
  intros Hcl Hs Hk Hd. rewrite (check_native ns db c d), Hd by done.
  rewrite (bool_decide_true (is_Some _)), orb_true_r by done. simpl.
  rewrite (read_entry T ns db c d) by done. by rewrite Hd.
Qed.

Lemma check_table c ns db tbl fld sep :
  check_entry c db (real_path ns db sep tbl "" fld) = Ok (real_path ns db sep tbl "" fld).
Proof. unfold check_entry. simpl. by rewrite andb_false_r. Qed.

Lemma app_nonempty (a b : string) : a ≠ "" → a +:+ b ≠ "".
Proof. destruct a; [done|]. intros _. by rewrite app_cons_str. Qed.


(** ** Whole tables *)

Lemma SplitN2_first (a : string) c b :
  Contains a (String c "") = false →
  SplitN2 (a +:+ String c b) (String c "") = [a; b].
Proof.
  induction a as [|x a IH]; intros Hc.
  - rewrite app_nil_str. simpl. by rewrite bool_decide_true.
  - simpl in Hc. apply orb_false_iff in Hc as [Hx Hc]. rewrite andb_true_r in Hx.
    rewrite app_cons_str. simpl. rewrite andb_true_r, Hx. by rewrite IH.
Qed.

Lemma entry_key_split (tbl : string) sepc k :
  Contains tbl (String sepc "") = false →
  entry_key (tbl +:+ String sepc "" +:+ k) (String sepc "") = Ok k.
Proof.
  intros Hc. unfold entry_key, SplitN2Any. rewrite bool_decide_false by done.
  rewrite app_cons_str, app_nil_str. by rewrite SplitN2_first.
Qed.

Lemma length_key (tbl : string) sepc k : tbl ≠ tbl +:+ String sepc "" +:+ k.
Proof.
  intros H%(f_equal String.length). rewrite !length_app_str in H. simpl in H. lia.
Qed.

Definition table_tp (db tbl sep : string) : tablePath := real_path "" db sep tbl "" "".

Lemma render_native c d db tbl sepc k msi :
  Serves c d → Contains tbl (String sepc "") = false →
  render_key c (table_tp db tbl (String sepc "")) false None msi (tbl +:+ String sepc "" +:+ k) =
  Ok (<[k := fields_json (default ∅ (d !! (tbl +:+ String sepc "" +:+ k)))]> msi).
Proof.
  intros Hs Hc. unfold render_key. rewrite serves_hgetall. simpl.
  rewrite bool_decide_false by apply length_key. by rewrite entry_key_split.
Qed.

Lemma key_inj (tbl sep k k' : string) : tbl +:+ sep +:+ k = tbl +:+ sep +:+ k' → k = k'.
Proof. by intros ?%app_inj_str%app_inj_str. Qed.

Lemma render_table c d db tbl sepc l msi :
  Serves c d → Contains tbl (String sepc "") = false →
  (∀ dbkey, dbkey ∈ l → ∃ k, dbkey = tbl +:+ String sepc "" +:+ k) →
  ∃ m, foldM (render_key c (table_tp db tbl (String sepc "")) false None) msi l = Ok m ∧
       ∀ k, m !! k = if decide (tbl +:+ String sepc "" +:+ k ∈ l)
                     then Some (fields_json (default ∅ (d !! (tbl +:+ String sepc "" +:+ k))))
                     else msi !! k.
Proof.
  intros Hs Hc. revert msi. induction l as [|dbkey l IH]; intros msi Hl.
  - exists msi. split; [done|]. intros k. by rewrite decide_False by apply not_elem_of_nil.
  - destruct (Hl dbkey) as [k0 ->]; [left|]. simpl. rewrite (render_native c d) by done. simpl.
    destruct (IH (<[k0 := fields_json (default ∅ (d !! (tbl +:+ String sepc "" +:+ k0)))]> msi))
      as (m & Hm & Hlook); [intros ? ?; apply Hl; by right|].
    exists m. split; [done|]. intros k. rewrite Hlook.
    destruct (decide (tbl +:+ String sepc "" +:+ k ∈ l)) as [Hin|Hout].
    + by rewrite decide_True by (by right).
    + destruct (decide (k0 = k)) as [->|Hne].
      * rewrite lookup_insert_eq, decide_True by left. done.
      * rewrite lookup_insert_ne by done. rewrite decide_False; [done|].
        intros [?%key_inj|?]%elem_of_cons; congruence.
Qed.

(** A Get of a table of such a database returns the JSON object of its
    entries: under every key the fields of the entry with that key, and
    nothing else. *)
Theorem get_native_table E g db c d tbl sepc :
  native E db c d → separator_of E db "" = String sepc "" →
  Contains tbl (String sepc "") = false → literal tbl → literal (String sepc "") →
  ∃ m, get_one E g (target_prefix db) (Some (path_of [tbl])) = Msi2TypedValue m ∧
       ∀ k, m !! k = fields_json <$> d !! (tbl +:+ String sepc "" +:+ k).
Proof.
  intros Hn Hsep Hc Hlt Hls. unfold get_one.
  rewrite (populate_reads E g db db "" c d) by (done || by apply native_reads). rewrite Hsep.
  pose proof (native_serves _ _ _ _ Hn) as Hs. unfold split_slice.
  destruct (serves_keys tbl Hlt) as (l0 & -> & _). simpl. rewrite check_table. simpl.
  destruct (serves_keys (tbl +:+ String sepc "")) as (l & Hl & _ & Hel); [by apply literal_app|].
  destruct (render_table c d db tbl sepc l ∅ Hs Hc) as (m & Hm & Hlook).
  { intros dbkey [_ [k ->]%HasPrefix_spec]%Hel. exists k. by rewrite app_assoc_str. }
  exists m. split.
  - unfold tableData2TypedValue, table_data. simpl. unfold TableData2Msi, client_for. simpl.
    rewrite (native_client _ _ _ _ Hn). simpl. unfold table_pattern. simpl.
    rewrite bool_decide_false by (apply (native_counters _ _ _ _ Hn)). simpl.
    rewrite <- app_assoc_str, Hl. simpl. unfold table_tp in Hm. by rewrite Hm.
  - intros k. rewrite Hlook. case_decide as Hin.
    + apply Hel in Hin as [[h Hh] _]. by rewrite Hh.
    + rewrite lookup_empty. destruct (d !! _) as [h|] eqn:Ed; [|done]. exfalso. apply Hin, Hel.
      split; [by eauto|]. rewrite <- app_assoc_str. apply HasPrefix_app.
Qed.

End native.

(** ** The two ports of the example device *)
Module DbClientExample.
Import VdbExample.

(** A codec for the examples: it only tells objects by their size. *)
Definition size_codec : JsonCodec := {|
  Unmarshal := λ _, None;
  Marshal := λ j, match j with JObj m => Some (Itoa (Z.of_nat (base.size m))) | _ => None end
|}.

Lemma native0 : native env0 "CONFIG_DB" (conn_of config0) config0.
Proof. split; [reflexivity|done|reflexivity|apply conn_of_serves]. Qed.

Lemma sample_interval_bounds_witness :
  (0 ≤ 5000000000 < 2 ^ 64)%Z ∧ (MinSampleInterval ≤ 5000000000 ≤ max_int64)%Z ∧
  validateSampleInterval 5000000000 = Ok 5000000000%Z.
Proof.
  assert (0 ≤ 5000000000 < 2 ^ 64)%Z as Hu by (split; vm_compute; congruence).
  pose proof (sample_interval_bounds 5000000000 Hu) as Hs.
  assert (validateSampleInterval 5000000000 = Ok 5000000000%Z) as Hv by (vm_compute; reflexivity).
  rewrite Hv in Hs. exact (conj Hu (conj (proj1 Hs) Hv)).
Defined.


Lemma get_native_table_witness :
  ∃ m, get_one (Sw := swss0) (MR := canonical_range) (JCo := size_codec) env0 noMaps
         (target_prefix "CONFIG_DB") (Some (path_of ["PORT"])) = Msi2TypedValue (JCo := size_codec) m ∧
       m !! "Ethernet4" = Some (JObj {["alias" := JStr "etp2"]}).
Proof.
  destruct (get_native_table (Sw := swss0) (MR := canonical_range) (JCo := size_codec) env0 noMaps
    "CONFIG_DB" (conn_of config0) config0 "PORT" "|"%char) as (m & Hm & Hk).
  - exact native0.
  - reflexivity.
  - reflexivity.
  - exact literal_PORT.
  - exact literal_bar.
  - exists m. split; [exact Hm|]. rewrite Hk. vm_compute. reflexivity.
Defined.

End DbClientExample.
