(* ===== verification/DbStreamFacts.v ===== *)
(** * What the poll and stream routines send

    [field_stream] compares [dbFieldSubscribe] with the sequence of values the
    database went through; [app_poll_deletes] does so for the deletions a poll
    of APPL_DB reports; [multi_view] shows that the deltas of a stream of many
    fields add up to the latest readings.  [readd_suppressed] and
    [empty_stream_panics] are about behaviour that was not meant. *)
From stdpp Require Import base gmap sets list strings.
From S2P Require Import Prelude GoStrings Gnmi Json World DbConfig DbConn Trie VirtualDb V2R VirtualDbFacts DbClient DbClientFacts DbStream.

(** ** One field *)

(** The values that differ from the one before. *)
Fixpoint changes (last : string) (l : list string) : list string :=
  match l with
  | [] => []
  | x :: l => if bool_decide (x = last) then changes last l else x :: changes x l
  end.

(** What a subscriber to [l] is to receive. *)
Definition expected (onChange : bool) (l : list string) : list string :=
  match l with
  | [] => []
  | x :: l => x :: if onChange then changes x l else l
  end.

Section field.
Context (pfx : option Path) (path : Path) (tp : tablePath).

(** The field at the time of an event. *)
Definition reading (ev : Event) : string :=
  match client_of (ev_clients ev) (dbNamespace tp) (dbName tp) with
  | Some c => field_read c tp
  | None => ""
  end.

(** The queue is open and the database has a client. *)
Definition live_event (ev : Event) : Prop :=
  ev_put ev = true ∧ is_Some (client_of (ev_clients ev) (dbNamespace tp) (dbName tp)).

Definition sent (v : Value) : string := GetStringVal (v_val v).

Lemma field_ticks onChange val evs :
  Forall live_event evs →
  sent <$> run_events (field_tick pfx onChange path tp) val evs =
  if onChange then changes val (reading <$> evs) else reading <$> evs.
Proof.
  revert val. induction evs as [|ev evs IH]; intros val Hl; simpl; [by destruct onChange|].
  inversion_clear Hl as [|?? [Hput [c Hc]] Hl'].
  assert (reading ev = field_read c tp) as Hr by (unfold reading; by rewrite Hc).
  unfold field_tick at 1. unfold client_for. rewrite Hc. simpl. unfold put. rewrite Hput, Hr.
  destruct onChange; simpl.
  - destruct (bool_decide_reflect (field_read c tp = val)) as [->|Hne].
    + rewrite bool_decide_false by naive_solver. simpl. by rewrite IH.
    + rewrite bool_decide_true by done. simpl. unfold sent at 1. simpl. by rewrite IH.
  - unfold sent at 1. simpl. by rewrite IH.
Qed.

(** C21. As long as the session is open, a stream of one field sends the first
    reading and then, on change, exactly the readings that differ from the one
    before and, sampling, every reading, in order. *)
Theorem field_stream onChange evs :
  Forall live_event evs →
  sent <$> dbFieldSubscribe pfx onChange path tp evs = expected onChange (reading <$> evs).
Proof.
  destruct evs as [|ev evs]; [done|]. intros Hl. inversion_clear Hl as [|?? [Hput [c Hc]] Hl'].
  assert (reading ev = field_read c tp) as Hr by (unfold reading; by rewrite Hc).
  simpl. unfold client_for. rewrite Hc. simpl. unfold put. rewrite Hput, Hr. simpl.
  rewrite field_ticks by done. done.
Qed.

End field.

(** ** Polls of APPL_DB *)

Section app.
Context {JCo : JsonCodec}.
Context (pfx : option Path) (path_text : Path → string) (path : Path) (tps : list tablePath).

(** What a client with one path receives at the polls: the data, or a deletion
    at the first poll that finds none after one that did. *)
Fixpoint app_expected (present : bool) (evs : list Event) : list Value :=
  match evs with
  | [] => []
  | ev :: evs =>
      match AppDBTableData2TypedValue (ev_clients ev) tps with
      | Some (Ok val) =>
          data_value (ev_now ev) pfx (Some path) val :: sync_value (ev_now ev) :: app_expected true evs
      | None =>
          (if present then [delete_value (ev_now ev) pfx path] else []) ++
          sync_value (ev_now ev) :: app_expected false evs
      | Some (Err _) => []
      end
  end.

Lemma app_polls prev evs :
  Forall (λ ev, ev_put ev = true) evs →
  run_events (app_poll_once pfx path_text) prev ((λ ev, (ev, [(path, tps)])) <$> evs) =
  app_expected (bool_decide (prev !! path_text path = Some true)) evs.
Proof.
  revert prev. induction evs as [|ev evs IH]; intros prev Hl; [done|].
  inversion_clear Hl as [|?? Hput Hl']. simpl. unfold put.
  destruct (AppDBTableData2TypedValue (ev_clients ev) tps) as [[val|e]|]; rewrite ?Hput; simpl.
  - rewrite IH by done. by rewrite lookup_insert_eq, bool_decide_true.
  - done.
  - destruct (bool_decide (prev !! path_text path = Some true)) eqn:Hp; simpl; rewrite IH by done.
    + by rewrite lookup_insert_eq, bool_decide_false.
    + by rewrite Hp.
Qed.

(** Over any sequence of polls, a poll client of one path of APPL_DB
    receives the data at every poll that finds some, a deletion exactly at the
    first poll without data after one with data, and a sync response after
    each poll; it stops at the first read that fails. *)
Theorem app_poll_deletes evs :
  Forall (λ ev, ev_put ev = true) evs →
  AppDBPollRun pfx path_text ((λ ev, (ev, [(path, tps)])) <$> evs) = app_expected false evs.
Proof. intros Hl. unfold AppDBPollRun. rewrite app_polls by done. by rewrite lookup_empty. Qed.

End app.

(** ** Entries that come back *)

Definition hset_of (key : string) (prefix : string) (t : Clients) : Message :=
  {| msg_channel := prefix +:+ key; msg_payload := "hset"; msg_clients := t |}.
Definition del_of (key : string) (prefix : string) (t : Clients) : Message :=
  {| msg_channel := prefix +:+ key; msg_payload := "del"; msg_clients := t |}.

Section readd.

Lemma hset_message rsd prefix key t msi data :
  tableKey (rsd_tblPath rsd) = "" → rsd_prefixLen rsd = String.length prefix →
  TableData2Msi t (set_tableKey (rsd_tblPath rsd) key) true None ∅ = Ok data →
  table_message rsd msi (hset_of key prefix t) =
  if bool_decide (data = msi) then Ok (msi, None)
  else Ok (data, if bool_decide (data = ∅) then None else Some data).
Proof.
  intros Hk Hl Hd. unfold table_message. simpl.
  rewrite (bool_decide_false (tableKey _ ≠ "")) by (by rewrite Hk; intros []).
  rewrite bool_decide_false by (rewrite length_app_str, Hl; lia). by rewrite Hl, str_drop_app, Hd.
Qed.

Lemma del_message rsd prefix key t msi :
  tableKey (rsd_tblPath rsd) = "" → rsd_prefixLen rsd = String.length prefix →
  table_message rsd msi (del_of key prefix t) = Ok (msi, Some {[key := JObj ∅]}).
Proof.
  intros Hk Hl. unfold table_message. simpl.
  rewrite (bool_decide_false (tableKey _ ≠ "")) by (by rewrite Hk; intros []).
  rewrite bool_decide_false by (rewrite length_app_str, Hl; lia). by rewrite Hl, str_drop_app.
Qed.

(** A subscriber to a table is not told that an entry came back: when an
    entry is set, deleted and set again to the same fields, the second set is
    taken for a repetition of the first, and the last update sent says that
    the entry is empty although the database holds its fields. *)
Theorem readd_suppressed rsd prefix key t1 t2 t3 data :
  tableKey (rsd_tblPath rsd) = "" → rsd_prefixLen rsd = String.length prefix →
  TableData2Msi t1 (set_tableKey (rsd_tblPath rsd) key) true None ∅ = Ok data →
  TableData2Msi t3 (set_tableKey (rsd_tblPath rsd) key) true None ∅ = Ok data →
  data ≠ ∅ →
  dbSingleTableKeySubscribe rsd ∅ [hset_of key prefix t1; del_of key prefix t2; hset_of key prefix t3]
  = ([data; {[key := JObj ∅]}], false).
Proof.
  intros Hk Hl H1 H3 Hd. cbn [dbSingleTableKeySubscribe].
  rewrite (hset_message _ _ _ _ _ _ Hk Hl H1), !bool_decide_false by done.
  rewrite (del_message _ _ _ _ _ Hk Hl), (hset_message _ _ _ _ _ _ Hk Hl H3).
  by rewrite bool_decide_true.
Qed.

End readd.

(** ** A starred path without ports *)

Section empty.
Context {Sw : Swss} {MR : MapRange}.

(** When the port map is empty, which a failed first load makes it for
    good, the path [COUNTERS/Ethernet*] of COUNTERS_DB resolves to no table
    path at all, and the goroutine that is to stream it panics. *)
Theorem empty_stream_panics E g g' p updates_only :
  p = path_of ["COUNTERS"; "Ethernet*"] →
  init_counters E g = (g', None) → countersPortNameMap g' = ∅ →
  populateDbtablePath E (target_prefix "COUNTERS_DB") (Some p) g = (g', Ok []) ∧
  StreamRun updates_only [(p, [])] [] = ([Err Panicked], None).
Proof.
  intros -> Hi He. split; [|done]. unfold populateDbtablePath.
  change (GetTarget (target_prefix "COUNTERS_DB")) with "COUNTERS_DB".
  rewrite target_plain by done. cbn [negb]. rewrite default_namespace.
  rewrite bool_decide_true by done. rewrite Hi. f_equal.
  rewrite slice_names by done. unfold populate_slice. rewrite lookupV2R_eq. simpl.
  unfold v2rEthPortStats. simpl. by rewrite He, map_range_empty.
Qed.

End empty.

(** ** Deltas of many fields *)

Section multi.
Context {JCo : JsonCodec} (tps : list tablePath).

(** The reading of one table path, when there is one. *)
Definition reading_at (t : Clients) (tp : tablePath) : option string :=
  client_of t (dbNamespace tp) (dbName tp) ≫= λ c, multi_field c tp.

Definition cell (tp : tablePath) (v : string) : json := JObj {[jsonField tp := JStr v]}.

(** The readings so far and what a subscriber has merged from the deltas. *)
Fixpoint multi_run (ts : list Clients) (path2Value : gmap tablePath string) (view : gmap string json)
  : res gerr (gmap string json) :=
  match ts with
  | [] => Ok view
  | t :: ts => '(path2Value, msi) ← multi_read true t tps path2Value; multi_run ts path2Value (msi ∪ view)
  end.

Definition newer (old new : option string) : option string :=
  match new with Some v => Some v | None => old end.

Definition latest (ts : list Clients) (tp : tablePath) : option string :=
  foldl (λ old t, newer old (reading_at t tp)) None ts.

Lemma multi_one t p2v msi tp s' :
  multi_read_one true t (p2v, msi) tp = Ok s' →
  s'.1 !! tp = newer (p2v !! tp) (reading_at t tp) ∧
  (∀ tp', tp' ≠ tp → s'.1 !! tp' = p2v !! tp') ∧
  s'.2 !! jsonTableKey tp =
    (if bool_decide (newer (p2v !! tp) (reading_at t tp) = p2v !! tp) then msi !! jsonTableKey tp
     else cell tp <$> newer (p2v !! tp) (reading_at t tp)) ∧
  (∀ k, k ≠ jsonTableKey tp → s'.2 !! k = msi !! k).
Proof.
  unfold multi_read_one, reading_at, client_for.
  destruct (client_of t _ _) as [c|]; simpl; [|done]. destruct (multi_field c tp) as [v|]; simpl.
  - destruct (bool_decide_reflect (p2v !! tp = Some v)) as [Hv|Hv]; intros [= <-]; simpl.
    + rewrite Hv, bool_decide_true by done. done.
    + rewrite !lookup_insert_eq, bool_decide_false by congruence.
      split; [done|]. split; [|split; [done|]]; intros; by rewrite lookup_insert_ne.
  - intros [= <-]. simpl. by rewrite bool_decide_true.
Qed.

(** One read: every reading is recorded, and exactly the changes are sent. *)
Lemma multi_reads t l p2v msi s' :
  NoDup (jsonTableKey <$> l) → foldM (multi_read_one true t) (p2v, msi) l = Ok s' →
  (∀ tp, tp ∈ l → s'.1 !! tp = newer (p2v !! tp) (reading_at t tp)) ∧
  (∀ tp, tp ∈ l → s'.2 !! jsonTableKey tp =
     (if bool_decide (newer (p2v !! tp) (reading_at t tp) = p2v !! tp) then msi !! jsonTableKey tp
      else cell tp <$> newer (p2v !! tp) (reading_at t tp))) ∧
  (∀ tp, tp ∉ l → s'.1 !! tp = p2v !! tp) ∧
  (∀ k, k ∉ jsonTableKey <$> l → s'.2 !! k = msi !! k).
Proof.
  revert p2v msi. induction l as [|tp l IH]; intros p2v msi Hnd; simpl.
  - intros [= <-]. repeat split; try done; by intros ? ?%elem_of_nil.
  - intros ([p2v1 msi1] & H1 & H2)%bind_Ok. simpl in Hnd. inversion_clear Hnd as [|?? Hk Hnd'].
    destruct (multi_one _ _ _ _ _ H1) as (Ho1 & Ho2 & Ho3 & Ho4).
    destruct (IH _ _ Hnd' H2) as (Hi1 & Hi2 & Hi3 & Hi4). simpl in *.
    assert (∀ x, x ∈ l → x ≠ tp) as Hne.
    { intros x Hx ->. apply Hk. by apply list_elem_of_fmap_2. }
    assert (∀ x, x ∈ l → jsonTableKey x ≠ jsonTableKey tp) as Hke.
    { intros x Hx Hx'. apply Hk. rewrite <- Hx'. by apply list_elem_of_fmap_2. }
    assert (tp ∉ l) as Hout by (intros Hx; by apply (Hne _ Hx)).
    repeat split.
    + intros x [->|Hx]%elem_of_cons; [by rewrite Hi3|]. rewrite Hi1, Ho2 by auto. done.
    + intros x [->|Hx]%elem_of_cons; [by rewrite Hi4|]. rewrite Hi2, Ho2, Ho4 by auto. done.
    + intros x [Hx Hx']%not_elem_of_cons. by rewrite Hi3, Ho2.
    + intros k [Hx Hx']%not_elem_of_cons. by rewrite Hi4, Ho4.
Qed.

Lemma multi_run_view ts p2v view final tp :
  NoDup (jsonTableKey <$> tps) → tp ∈ tps →
  view !! jsonTableKey tp = cell tp <$> p2v !! tp →
  multi_run ts p2v view = Ok final →
  final !! jsonTableKey tp = cell tp <$> foldl (λ old t, newer old (reading_at t tp)) (p2v !! tp) ts.
Proof.
  intros Hnd Htp. revert p2v view. induction ts as [|t ts IH]; intros p2v view Hv; simpl.
  - by intros [= <-].
  - intros ([p2v1 msi] & Hr & Hrun)%bind_Ok.
    destruct (multi_reads t tps p2v ∅ _ Hnd Hr) as (Hr1 & Hr2 & _ & _). simpl in *.
    specialize (IH p2v1 (msi ∪ view)). rewrite <- Hr1 by done. apply IH; [|done].
    rewrite lookup_union, Hr2, Hr1 by done. destruct (bool_decide_reflect
      (newer (p2v !! tp) (reading_at t tp) = p2v !! tp)) as [Heq|Hne].
    + rewrite lookup_empty, (left_id_L None _), Hv. by rewrite Heq.
    + destruct (newer (p2v !! tp) (reading_at t tp)) as [v|] eqn:Hn; simpl.
      * by destruct (view !! _).
      * unfold newer in Hn. destruct (reading_at t tp); [done|]. by rewrite Hn in Hne.
Qed.

(** A subscriber that merges the updates of an on-change (or updates-only)
    stream of many fields holds the latest reading of every one of them: no
    update is lost by sending only the fields that changed. *)
Theorem multi_view ts final tp :
  NoDup (jsonTableKey <$> tps) → tp ∈ tps →
  multi_run ts ∅ ∅ = Ok final →
  final !! jsonTableKey tp = cell tp <$> latest ts tp.
Proof.
  intros Hnd Htp Hrun. rewrite (multi_run_view ts ∅ ∅ final tp) by (done || by rewrite !lookup_empty).
  by rewrite lookup_empty.
Qed.

End multi.

(** ** Streams of the example device *)
Module DbStreamExample.
Import VdbExample DbClientExample.

Definition t0 : Clients := Target2RedisDb env0.

(** The same device after an alias changed, and without its second port. *)
Definition config1 : contents := <["PORT|Ethernet4" := {["alias" := "etp9"]}]> config0.
Definition config2 : contents := delete "PORT|Ethernet4" config0.
Definition with_config (d : contents) : Clients := {["" := {["CONFIG_DB" := conn_of d]}]}.

Definition at_time (now : Z) (d : contents) : Event :=
  {| ev_now := now; ev_clients := with_config d; ev_put := true |}.

Definition alias_tp : tablePath := real_path "" "CONFIG_DB" "|" "PORT" "Ethernet4" "alias".
Definition days : list Event := [at_time 1 config0; at_time 2 config0; at_time 3 config1; at_time 4 config0].

Lemma days_live : Forall (live_event alias_tp) days.
Proof. repeat constructor; eexists; reflexivity. Qed.

Lemma field_stream_witness :
  sent <$> dbFieldSubscribe None true (path_of []) alias_tp days = ["etp2"; "etp9"; "etp2"].
Proof. rewrite (field_stream None (path_of []) alias_tp true days days_live). vm_compute. reflexivity. Defined.

Definition port_tp : tablePath := real_path "" "CONFIG_DB" "|" "PORT" "Ethernet4" "".
Definition polls : list Event := [at_time 1 config0; at_time 2 config2; at_time 3 config2].

Lemma app_poll_deletes_witness :
  AppDBPollRun (JCo := size_codec) None (λ _, "p") ((λ ev, (ev, [(path_of ["p"], [port_tp])])) <$> polls) =
  [data_value 1 None (Some (path_of ["p"])) (JsonIetfVal "1"); sync_value 1;
   delete_value 2 None (path_of ["p"]); sync_value 2; sync_value 3].
Proof.
  rewrite (app_poll_deletes (JCo := size_codec) None (λ _, "p") (path_of ["p"]) [port_tp] polls).
  - vm_compute. reflexivity.
  - repeat constructor.
Defined.

Definition table_rsd : redisSubData := {|
  rsd_tblPath := table_tp "CONFIG_DB" "PORT" "|";
  rsd_prefixLen := String.length "__keyspace@4__:PORT|"
|}.
Definition ethernet4 : gmap string json := {["Ethernet4" := JObj {["alias" := JStr "etp2"]}]}.

Lemma readd_suppressed_witness :
  dbSingleTableKeySubscribe table_rsd ∅
    [hset_of "Ethernet4" "__keyspace@4__:PORT|" (with_config config0);
     del_of "Ethernet4" "__keyspace@4__:PORT|" (with_config config2);
     hset_of "Ethernet4" "__keyspace@4__:PORT|" (with_config config0)]
  = ([ethernet4; {["Ethernet4" := JObj ∅]}], false).
Proof.
  apply readd_suppressed.
  - reflexivity.
  - reflexivity.
  - vm_compute. reflexivity.
  - vm_compute. reflexivity.
  - discriminate.
Defined.

(** A chassis without ports. *)
Definition bare : Env := {|
  env_cfg := env_cfg env0;
  Target2RedisDb := {["" := {["CONFIG_DB" := conn_of ∅; "COUNTERS_DB" := conn_of ∅]}]};
  UNIT_TEST := ""
|}.

Definition bare_maps : Maps := (init_counters (Sw := swss0) (MR := canonical_range) bare noMaps).1.

Lemma empty_stream_panics_witness :
  StreamRun false [(path_of ["COUNTERS"; "Ethernet*"], [])] [] = ([Err Panicked], None).
Proof.
  apply (empty_stream_panics (Sw := swss0) (MR := canonical_range) bare noMaps bare_maps
    (path_of ["COUNTERS"; "Ethernet*"]) false).
  - reflexivity.
  - vm_compute. reflexivity.
  - vm_compute. reflexivity.
Defined.

Definition multi_tps : list tablePath := [
  buildTablePath "" "CONFIG_DB" "PORT" "Ethernet0" "|" "alias" "" "Ethernet0" "alias";
  buildTablePath "" "CONFIG_DB" "PORT" "Ethernet4" "|" "alias" "" "Ethernet4" "alias"].

Lemma multi_view_witness :
  ∃ final, multi_run multi_tps [with_config config0; with_config config1; with_config config2] ∅ ∅ = Ok final ∧
           final !! "Ethernet4" = Some (JObj {["alias" := JStr "etp9"]}).
Proof.
  eexists. split; [vm_compute; reflexivity|].
  rewrite (multi_view multi_tps [with_config config0; with_config config1; with_config config2] _
    (buildTablePath "" "CONFIG_DB" "PORT" "Ethernet4" "|" "alias" "" "Ethernet4" "alias")).
  - vm_compute. reflexivity.
  - apply (bool_decide_unpack _). vm_compute. exact I.
  - right. left.
  - vm_compute. reflexivity.
Defined.

End DbStreamExample.
