(* ===== verification/Connections.v ===== *)
(** * Subscriptions and their limit (src/gnmi_server/connection_manager.go)

    The server keeps one entry per running Subscribe call in memory and in a
    hash of STATE_DB and refuses a call when a threshold is reached.  [Add]
    tests the size under a read lock and inserts under a write lock taken
    afterwards, so two calls can pass the test one after the other: the
    goroutines of the calls are the workers of a step relation whose steps are
    the critical sections.

    [connections_bound] bounds the table by the threshold and the number of
    calls that are inside [Add] at once; [one_by_one_bound] is the bound when calls do not overlap, and
    [same_second_unlimited] shows that sessions with equal keys escape both. *)
From Stdlib Require Import Ascii.
From stdpp Require Import base gmap sets list strings.
From S2P Require Import Prelude GoStrings.

(** ** Keys *)

(** [[a-zA-Z0-9-_*]] *)
Definition key_char (c : ascii) : bool :=
  let n := nat_of_ascii c in
  ((97 <=? n) && (n <=? 122)) || ((65 <=? n) && (n <=? 90)) || ((48 <=? n) && (n <=? 57)) ||
  (n =? 45) || (n =? 95) || (n =? 42).

(** The characters of the class, and what follows them. *)
Fixpoint span_key (s : string) : string * string :=
  match s with
  | EmptyString => ("", "")
  | String c s' => if key_char c then let '(a, b) := span_key s' in (String c a, b) else ("", s)
  end.

(** The group of a match of the expression at the start of [s], and the length
    of the match.  The class does not hold the quote, so the star is greedy
    without a choice. *)
Definition quote : ascii := ascii_of_nat 34.

Definition match_here (s : string) : option (string * nat) :=
  let after_label l :=
    if HasPrefix s (l +:+ ":" +:+ String quote "") then
      let n := String.length l + 2 in
      let '(a, b) := span_key (str_drop n s) in
      match b with
      | String c _ => if bool_decide (c = quote) then Some (a, n + String.length a + 1) else None
      | EmptyString => None
      end
    else None in
  match after_label "target" with Some r => Some r | None => after_label "element" end.

(** [regex.FindAllStringSubmatch(query, -1)]: the groups, left to right, of
    matches that do not overlap; [skip] counts what is left of a match. *)
Fixpoint find_all (s : string) (skip : nat) : list string :=
  match s with
  | EmptyString => []
  | String _ s' =>
      match skip with
      | S k => find_all s' k
      | 0 => match match_here s with
             | Some (g, n) => g :: find_all s' (n - 1)
             | None => find_all s' 0
             end
      end
  end.

(** [now] is the time in RFC 3339, to the second. *)
Definition createKey (addr query now : string) : string :=
  foldl (λ k g, k +:+ g +:+ "|") (addr +:+ "|") (find_all query 0) +:+ now.

(** ** The manager *)

Record ConnectionManager := {
  connections : gset string;
  threshold : Z;
  (* the package's Redis client is there *)
  rclient : bool;
  (* the fields of TELEMETRY_CONNECTIONS *)
  stored : gset string
}.

Definition GetThreshold (cm : ConnectionManager) : Z := threshold cm.

(** [len(cm.connections) >= cm.threshold && cm.threshold != 0] *)
Definition at_limit (cm : ConnectionManager) : bool :=
  bool_decide (threshold cm ≤ Z.of_nat (size (connections cm)))%Z && bool_decide (threshold cm ≠ 0%Z).

(** Commands on the table; [ok] is whether the command succeeds, a failure is
    only logged. *)
Definition storeKeyRedis (ok : bool) (key : string) (cm : ConnectionManager) : gset string :=
  if rclient cm && ok then {[key]} ∪ stored cm else stored cm.
Definition deleteKeyRedis (ok : bool) (key : string) (cm : ConnectionManager) : gset string :=
  if rclient cm && ok then stored cm ∖ {[key]} else stored cm.

(** The second half of [Add]. *)
Definition insert_key (ok : bool) (key : string) (cm : ConnectionManager) : ConnectionManager := {|
  connections := {[key]} ∪ connections cm;
  threshold := threshold cm;
  rclient := rclient cm;
  stored := storeKeyRedis ok key cm
|}.

Definition Add (ok : bool) (key : string) (cm : ConnectionManager) : ConnectionManager * bool :=
  if at_limit cm then (cm, false) else (insert_key ok key cm, true).

Definition Remove (ok : bool) (key : string) (cm : ConnectionManager) : ConnectionManager * bool :=
  ({| connections := connections cm ∖ {[key]}; threshold := threshold cm; rclient := rclient cm;
      stored := deleteKeyRedis ok key cm |},
   bool_decide (key ∈ connections cm)).

(** What [PrepareRedis] meets: the database is configured, its table can be
    read, and which of the fields cannot be deleted. *)
Record Prepare := { configured : bool; readable : bool; undeleted : gset string }.

(** [PrepareRedis] dials and empties the table of an earlier run. *)
Definition PrepareRedis (e : Prepare) (cm : ConnectionManager) : ConnectionManager :=
  if configured e then {|
    connections := connections cm; threshold := threshold cm; rclient := true;
    stored := if readable e then stored cm ∩ undeleted e else stored cm |}
  else cm.

(** [setConnectionManager]: a new manager, unless the threshold is the same.
    Without a manager yet, [stored0] is what is in the table. *)
Definition setConnectionManager (e : Prepare) (t : Z) (stored0 : gset string) (old : option ConnectionManager)
  : ConnectionManager :=
  let fresh := PrepareRedis e
    {| connections := ∅; threshold := t; rclient := default false (rclient <$> old);
       stored := default stored0 (stored <$> old) |} in
  match old with
  | Some cm => if bool_decide (t = GetThreshold cm) then cm else fresh
  | None => fresh
  end.

(** ** Calls that overlap *)

(** A worker serves one call after the other. *)
Inductive worker := Idle | Checked (key : string) | Running (key : string).

Definition is_checked (w : worker) : bool := match w with Checked _ => true | _ => false end.

Definition system : Type := ConnectionManager * list worker.

(** The critical sections: the test of [Add] passes or fails, [Add] inserts,
    [Remove] deletes. *)
Inductive step : system → system → Prop :=
| step_refused cm ws i :
    ws !! i = Some Idle → at_limit cm = true → step (cm, ws) (cm, ws)
| step_checked cm ws i addr query now :
    ws !! i = Some Idle → at_limit cm = false →
    step (cm, ws) (cm, <[i := Checked (createKey addr query now)]> ws)
| step_inserted cm ws i ok key :
    ws !! i = Some (Checked key) → step (cm, ws) (insert_key ok key cm, <[i := Running key]> ws)
| step_removed cm ws i ok key :
    ws !! i = Some (Running key) → step (cm, ws) ((Remove ok key cm).1, <[i := Idle]> ws).

(** The calls that have passed the test and not inserted yet. *)
Definition checked (ws : list worker) : nat := length (filter is_checked ws).

(** What [n] workers can reach, any number of them with a running session,
    when never more than [k] calls are between the test and the insertion. *)
Definition reachable (n k : nat) (t : Z) (s : system) : Prop :=
  ∃ r tbl, rtc (λ s s', step s s' ∧ checked s'.2 ≤ k)
             ({| connections := ∅; threshold := t; rclient := r; stored := tbl |}, replicate n Idle) s.

(** ** The bound *)

Lemma checked_insert ws i w w' :
  ws !! i = Some w →
  checked (<[i := w']> ws) + (if is_checked w then 1 else 0) =
  checked ws + (if is_checked w' then 1 else 0).
Proof.
  intros Hi. pose proof (lookup_lt_Some _ _ _ Hi) as Hlt. unfold checked.
  rewrite insert_take_drop by done. rewrite <- (take_drop_middle ws i w Hi) at 3.
  rewrite !filter_app, !length_app, !filter_cons.
  destruct (is_checked w), (is_checked w'); simpl; lia.
Qed.

Lemma elem_of_insert_other (ws : list worker) i w w' x :
  ws !! i = Some w → x ≠ w → x ∈ ws → x ∈ <[i := w']> ws.
Proof.
  intros Hi Hne [j Hj]%list_elem_of_lookup. apply list_elem_of_lookup. exists j.
  rewrite list_lookup_insert_ne; [done|]. intros ->. congruence.
Qed.

Lemma size_union_le (X Y : gset string) : size (X ∪ Y) ≤ size X + size Y.
Proof. rewrite size_union_alt. assert (size (Y ∖ X) ≤ size Y) by (apply subseteq_size; set_solver). lia. Qed.

Lemma checked_idle n : checked (replicate n Idle) = 0.
Proof. induction n as [|n IH]; [done|]. exact IH. Qed.

(** The invariant: the table and the calls that passed the test fit together
    below the threshold and the number of calls that may be in between, and an
    entry has a running call. *)
Record bounded (k : nat) (t : Z) (s : system) : Prop := {
  bounded_threshold : threshold s.1 = t;
  bounded_size : (Z.of_nat (size (connections s.1)) + Z.of_nat (checked s.2) ≤ t - 1 + Z.of_nat k)%Z;
  bounded_owner key : key ∈ connections s.1 → Running key ∈ s.2
}.

Lemma bounded_step k t s s' : (0 < t)%Z → step s s' → checked s'.2 ≤ k → bounded k t s → bounded k t s'.
Proof.
  intros Ht Hstep Hk [Hth Hsize Hown]. destruct Hstep as
    [cm ws i Hi Hlim|cm ws i addr query now Hi Hlim|cm ws i ok key Hi|cm ws i ok key Hi]; simpl in *.
  - done.
  - split; simpl; [done| |].
    + unfold at_limit in Hlim. rewrite Hth, (bool_decide_true (t ≠ 0%Z)) in Hlim by lia.
      rewrite andb_true_r in Hlim. apply bool_decide_eq_false_1 in Hlim. lia.
    + intros key Hkey. apply elem_of_insert_other with (Idle); [done|done|by apply Hown].
  - pose proof (checked_insert ws i _ (Running key) Hi) as Hc. simpl in Hc.
    split; simpl; [done| |].
    + pose proof (size_union_le {[key]} (connections cm)) as Hu. rewrite size_singleton in Hu. lia.
    + intros key' [->%elem_of_singleton|Hkey]%elem_of_union.
      * apply list_elem_of_insert. by eapply lookup_lt_Some.
      * apply elem_of_insert_other with (Checked key); [done|done|by apply Hown].
  - pose proof (checked_insert ws i _ Idle Hi) as Hc. simpl in Hc.
    split; simpl; [done| |].
    + assert (size (connections cm ∖ {[key]}) ≤ size (connections cm)) by (apply subseteq_size; set_solver).
      lia.
    + intros key' [Hkey Hne]%elem_of_difference. apply elem_of_insert_other with (Running key); [done| |by apply Hown].
      intros [= ->]. by apply Hne, elem_of_singleton.
Qed.

Lemma bounded_reachable n k t s : (0 < t)%Z → reachable n k t s → bounded k t s.
Proof.
  intros Ht (r & tbl & Hr). revert s Hr. apply (rtc_ind_r (bounded k t)).
  - split; [done| |set_solver]. cbn [fst snd connections]. rewrite checked_idle, size_empty. lia.
  - intros s s' _ [Hstep Hk] Hb. by eapply bounded_step.
Qed.

(** C37. The limit of connections.  With a threshold [t], when at most [k]
    calls at a time are between the test and the insertion of [Add], the table
    of connections holds at most [t - 1 + k] entries, each of a running call,
    in every interleaving of any number of calls and sessions.  So the
    threshold is kept when calls come one by one ([k = 1]), and exceeded by no
    more than the other calls that were let in at the same moment. *)
Theorem connections_bound n k t s :
  (0 < t)%Z → reachable n k t s →
  (Z.of_nat (size (connections s.1)) ≤ t - 1 + Z.of_nat k)%Z ∧
  (∀ key, key ∈ connections s.1 → Running key ∈ s.2).
Proof. intros Ht Hr. destruct (bounded_reachable n k t s Ht Hr) as [_ Hs Ho]. split; [lia|done]. Qed.

(** ** Calls one by one *)

Inductive call := CallAdd (ok : bool) (key : string) | CallRemove (ok : bool) (key : string).

Definition serve (cm : ConnectionManager) (c : call) : ConnectionManager :=
  match c with CallAdd ok key => (Add ok key cm).1 | CallRemove ok key => (Remove ok key cm).1 end.

Lemma serve_bound cm c :
  (0 < threshold cm)%Z → (Z.of_nat (size (connections cm)) ≤ threshold cm)%Z →
  threshold (serve cm c) = threshold cm ∧
  (Z.of_nat (size (connections (serve cm c))) ≤ threshold cm)%Z.
Proof.
  intros Ht Hs. destruct c as [ok key|ok key]; simpl.
  - unfold Add. destruct (at_limit cm) eqn:E; simpl; [done|]. split; [done|].
    unfold at_limit in E. rewrite (bool_decide_true (threshold cm ≠ 0%Z)), andb_true_r in E by lia.
    apply bool_decide_eq_false_1 in E.
    pose proof (size_union_le {[key]} (connections cm)) as Hu. rewrite size_singleton in Hu. lia.
  - split; [done|].
    assert (size (connections cm ∖ {[key]}) ≤ size (connections cm)) by (apply subseteq_size; set_solver). lia.
Qed.

Lemma one_by_one_bound cm cs :
  (0 < threshold cm)%Z → (Z.of_nat (size (connections cm)) ≤ threshold cm)%Z →
  (Z.of_nat (size (connections (foldl serve cm cs))) ≤ threshold cm)%Z.
Proof.
  intros Ht. revert cm Ht. induction cs as [|c cs IH]; intros cm Ht Hs; simpl; [done|].
  destruct (serve_bound cm c Ht Hs) as [He Hb]. rewrite <- He. apply IH; by rewrite He.
Qed.

(** ** Equal keys *)

(** Whether each of [n] calls with the same key is admitted. *)
Fixpoint adds (n : nat) (key : string) (cm : ConnectionManager) : list bool :=
  match n with
  | 0 => []
  | S n => let '(cm, ok) := Add true key cm in ok :: adds n key cm
  end.

(** Calls with the same address and query within one second have one key, so
    any number of them is admitted while the table has room for two. *)
Lemma same_second_unlimited n key cm :
  (2 ≤ threshold cm)%Z → connections cm ⊆ {[key]} → adds n key cm = replicate n true.
Proof.
  revert cm. induction n as [|n IH]; intros cm Ht Hk; simpl; [done|].
  unfold Add, at_limit. pose proof (subseteq_size _ _ Hk) as Hs. rewrite size_singleton in Hs.
  rewrite (bool_decide_false (threshold cm ≤ _)%Z) by lia. simpl. f_equal. apply IH; simpl; [done|set_solver].
Qed.

(** ** Two calls, a threshold of one *)
Module ConnectionsExample.

Definition q : string := "subscribe:{prefix:{target:" +:+ String quote "" +:+ "OTHERS" +:+ String quote "}}".
Definition k1 : string := createKey "10.0.0.1:5000" q "2024-05-01T00:00:00Z".
Definition k2 : string := createKey "10.0.0.2:5000" q "2024-05-01T00:00:00Z".

Example k1_text : k1 = "10.0.0.1:5000|OTHERS|2024-05-01T00:00:00Z".
Proof. vm_compute. reflexivity. Qed.

Definition cm0 : ConnectionManager := {| connections := ∅; threshold := 1; rclient := true; stored := ∅ |}.
Definition overshoot : system := (insert_key true k2 (insert_key false k1 cm0), [Running k1; Running k2]).

Lemma overshoot_reachable : reachable 2 2 1 overshoot.
Proof.
  exists true, ∅.
  eapply rtc_l; [split; [apply (step_checked _ _ 0 "10.0.0.1:5000" q "2024-05-01T00:00:00Z"); vm_compute; reflexivity|]|].
  { vm_compute. lia. }
  eapply rtc_l; [split; [apply (step_checked _ _ 1 "10.0.0.2:5000" q "2024-05-01T00:00:00Z"); vm_compute; reflexivity|]|].
  { vm_compute. lia. }
  eapply rtc_l; [split; [apply (step_inserted _ _ 0 false k1); reflexivity|]|].
  { vm_compute. lia. }
  eapply rtc_l; [split; [apply (step_inserted _ _ 1 true k2); reflexivity|]|].
  { vm_compute. lia. }
  apply rtc_refl.
Qed.

(** The bound is reached: two entries with a threshold of one. *)
Lemma connections_bound_witness :
  Z.of_nat (size (connections overshoot.1)) = 2%Z ∧
  (Z.of_nat (size (connections overshoot.1)) ≤ 1 - 1 + Z.of_nat 2)%Z.
Proof.
  split; [vm_compute; reflexivity|].
  apply (connections_bound 2 2 1 overshoot); [lia|exact overshoot_reachable].
Defined.

End ConnectionsExample.
