(* ===== verification/Auth.v ===== *)
(** * Authentication (src/gnmi_server/server.go, basicAuth.go, jwtAuth.go,
      pamAuth.go, clientCertAuth.go)

    A request is authenticated by the enabled methods in turn: password, JSON
    web token, client certificate.  They share the [AuthInfo] of the request's
    context, which is why it is threaded as state here.  The operating
    system's user database, PAM, the token library, CONFIG_DB and the check of
    revocation lists are parameters ([AuthEnv]). *)
From stdpp Require Import base gmap sets list strings.
From S2P Require Import Prelude GoStrings Gnmi World.

(** [status.Error(code, msg)]; [fmt.Errorf] errors have the code Unknown. *)
Notation status_res := (res (Code * string)).

(** ** The methods that are enabled *)

Notation AuthTypes := (gmap string bool).

Definition at_ (i : AuthTypes) (k : string) : bool := default false (i !! k).

Definition Any (i : AuthTypes) : bool :=
  if at_ i "none" then false else existsb id (map_to_list i).*2.

Definition Enabled (i : AuthTypes) (mode : string) : bool :=
  if at_ i "none" then false else at_ i mode.

(** [AuthTypes.Set]: modes are enabled one by one; [none] or an empty mode
    ends the list and disables them all. *)
Fixpoint set_modes (i : AuthTypes) (modes : list string) : AuthTypes * option string :=
  match modes with
  | [] => (i, None)
  | m :: modes =>
      let m := trim_spaces m in
      if bool_decide (m = "none") || bool_decide (m = "") then (<["none" := true]> i, None)
      else match i !! m with
           | None => (i, Some "Expecting one or more of 'cert', 'password' or 'jwt'")
           | Some _ => set_modes (<[m := true]> i) modes
           end
  end.
Definition AuthTypes_Set (i : AuthTypes) (mode : string) : AuthTypes * option string :=
  set_modes i (Split mode ",").

Fixpoint unset_modes (i : AuthTypes) (modes : list string) : AuthTypes * option string :=
  match modes with
  | [] => (i, None)
  | m :: modes =>
      let m := trim_spaces m in
      match i !! m with
      | None => (i, Some "Expecting one or more of 'cert', 'password' or 'jwt'")
      | Some _ => unset_modes (<[m := false]> i) modes
      end
  end.
Definition AuthTypes_Unset (i : AuthTypes) (mode : string) : AuthTypes * option string :=
  unset_modes i (Split mode ",").

(** ** The request *)

Record AuthInfo := { User : string; AuthEnabled : bool; Roles : list string }.

Record Cert := { CommonName : string; CRLDistributionPoints : list string }.

Record TLSInfo := { SPIFFE_path : option string; VerifiedChains : list (list Cert) }.

(** [peer.Peer]: whether the address is that of a Unix socket, and the TLS
    information when the transport is TLS. *)
Record Peer := { peer_unix : bool; peer_tls : option TLSInfo }.

Record Request := {
  req_peer : option Peer;
  req_md : option (gmap string (list string))
}.

(** [getUsername]: what follows the last slash of the SPIFFE path. *)
Fixpoint last_segment (s acc : string) (seen : bool) : option string :=
  match s with
  | EmptyString => if seen then Some acc else None
  | String c s' =>
      if bool_decide (c = Ascii.ascii_of_nat 47) then last_segment s' "" true
      else last_segment s' (acc +:+ String c "") seen
  end.

Definition getUsername (r : Request) : status_res string :=
  match req_peer r with
  | None => Err (Unauthenticated, "failed to get peer from ctx")
  | Some p =>
      match peer_tls p with
      | None => Err (Unauthenticated, "no tls info was found")
      | Some t =>
          match SPIFFE_path t with
          | None => Err (Unauthenticated, "failed to get SPIFFE ID")
          | Some path =>
              of_option (Unauthenticated, "failed to get username from SPIFFE ID") (last_segment path "" false)
          end
      end
  end.

(** ** What the methods ask *)

Record AuthEnv := {
  (* user.Lookup and the names of the user's groups *)
  lookup_roles : string → option (list string);
  (* PAM, or ssh to the host, accepts the password *)
  UserPwAuth : string → string → bool;
  (* a valid token's user name and roles *)
  parse_token : string → option (string * list string);
  (* the entry of a certificate name in the service's table of CONFIG_DB *)
  Get_entry : string → string → gmap string string;
  (* the chain is not revoked by these lists *)
  CheckChainRevocation : list (list Cert) → list string → bool;
  (* http.Get of a revocation list *)
  fetch : string → option string
}.

(** ** Revocation lists in memory *)

Record Crl := { thisUpdate : Z; nextUpdate : Z; crl_bytes : string }.

(** The state of a request's authentication: the information gathered so far
    and the cache of revocation lists. *)
Record AuthState := { info : AuthInfo; CrlCache : gmap string Crl }.

(** [GetContext] on the context of a new request, which carries no
    [RequestContext] yet. *)
Definition new_info : AuthInfo := {| User := ""; AuthEnabled := false; Roles := [] |}.
Definition GetContext : ST AuthState () := modify (λ s, {| info := new_info; CrlCache := CrlCache s |}).

Definition DEFAULT_CRL_EXPIRE_DURATION : Z := 24 * 60 * 60 * 1000000000.

Definition AppendCrlToCache (now : Z) (url raw : string) (c : gmap string Crl) : gmap string Crl :=
  <[url := {| thisUpdate := now; nextUpdate := now; crl_bytes := raw |}]> c.

Definition CrlExpired (now : Z) (c : Crl) : bool :=
  bool_decide (thisUpdate c + DEFAULT_CRL_EXPIRE_DURATION < now)%Z.
Definition CrlNeedUpdate (now : Z) (c : Crl) : bool := bool_decide (nextUpdate c < now)%Z.

Definition RemoveExpiredCrl (now : Z) (c : gmap string Crl) : gmap string Crl :=
  filter (λ '(_, x), CrlExpired now x = false) c.

(** A list that has expired or is due is dropped from the cache. *)
Definition SearchCrlCache (now : Z) (url : string) (c : gmap string Crl) : gmap string Crl * option Crl :=
  match c !! url with
  | None => (c, None)
  | Some x =>
      if CrlExpired now x || CrlNeedUpdate now x then (delete url c, None) else (c, Some x)
  end.

Section auth.
Context (A : AuthEnv) (now : Z).

Definition TryDownload (url : string) (c : gmap string Crl) : gmap string Crl * bool :=
  match fetch A url with
  | Some raw => (AppendCrlToCache now url raw c, true)
  | None => (c, false)
  end.

Fixpoint DownloadNotCachedCrl (urls : list string) (c : gmap string Crl) : gmap string Crl * bool :=
  match urls with
  | [] => (c, false)
  | url :: urls =>
      let '(c, found) := SearchCrlCache now url c in
      let '(c, ok) := match found with Some _ => (c, true) | None => TryDownload url c end in
      let '(c, rest) := DownloadNotCachedCrl urls c in
      (c, ok || rest)
  end.

(** The lists of the cache; the slice is made with one empty element. *)
Definition CreateStaticCRLProvider (c : gmap string Crl) : gmap string Crl * list string :=
  let c := RemoveExpiredCrl now c in (c, "" :: (crl_bytes <$> (map_to_list c).*2)).

Definition VerifyCertCrl (chains : list (list Cert)) (cert : Cert) (c : gmap string Crl)
  : gmap string Crl * status_res () :=
  match CRLDistributionPoints cert with
  | [] => (c, Ok ())
  | urls =>
      let '(c, available) := DownloadNotCachedCrl urls c in
      if negb available then (c, Err (Unauthenticated, "Can't download CRL and verify cert"))
      else
        let '(c, lists) := CreateStaticCRLProvider c in
        if CheckChainRevocation A chains lists then (c, Ok ())
        else (c, Err (Unauthenticated, "Peer certificate revoked"))
  end.

(** ** The methods *)

Notation AuthM X := (ST AuthState X).

Definition set_info (f : AuthInfo → AuthInfo) : AuthM () :=
  modify (λ s, {| info := f (info s); CrlCache := CrlCache s |}).
Definition with_roles (roles : list string) (i : AuthInfo) : AuthInfo :=
  {| User := User i; AuthEnabled := AuthEnabled i; Roles := roles |}.
Definition with_user (user : string) (i : AuthInfo) : AuthInfo :=
  {| User := user; AuthEnabled := AuthEnabled i; Roles := Roles i |}.
Definition with_enabled (b : bool) (i : AuthInfo) : AuthInfo :=
  {| User := User i; AuthEnabled := b; Roles := Roles i |}.

Definition PopulateAuthStruct (username : string) (r : list string) : AuthM (option string) :=
  match r with
  | [] =>
      match lookup_roles A username with
      | None => mret (Some "unknown user")
      | Some roles => _ ← set_info (λ i, with_user username (with_roles roles i)); mret None
      end
  | _ => _ ← set_info (λ i, with_user username (with_roles r i)); mret None
  end.

(** The first value of a metadata key; an empty list would panic in the
    source, which gRPC does not produce. *)
Definition md_first (r : Request) (k : string) : option string :=
  req_md r ≫= λ md, md !! k ≫= head.

(** The user is looked up, and the request's information filled in, before
    the password is checked. *)
Definition BasicAuthenAndAuthor (r : Request) : AuthM (status_res ()) :=
  match req_md r with
  | None => mret (Err (Unknown, "Invalid context"))
  | Some _ =>
      match md_first r "username", md_first r "password" with
      | None, _ => mret (Err (Unauthenticated, "No Username Provided"))
      | Some _, None => mret (Err (Unauthenticated, "No Password Provided"))
      | Some username, Some passwd =>
          e ← PopulateAuthStruct username [];
          match e with
          | Some _ => mret (Err (Unauthenticated, ""))
          | None => if UserPwAuth A username passwd then mret (Ok ())
                    else mret (Err (PermissionDenied, "Invalid Password"))
          end
      end
  end.

Definition JwtAuthenAndAuthor (r : Request) : AuthM (status_res ()) :=
  match req_md r with
  | None => mret (Err (Unknown, "Invalid context"))
  | Some _ =>
      match md_first r "access_token" with
      | None => mret (Err (Unauthenticated, "No JWT Token Provided"))
      | Some token =>
          match parse_token A token with
          | None => mret (Err (Unauthenticated, "Invalid JWT Token"))
          | Some (username, roles) =>
              e ← PopulateAuthStruct username roles;
              match e with
              | Some _ => mret (Err (Unauthenticated, ""))
              | None => mret (Ok ())
              end
          end
      end
  end.

(** The roles of a certificate name; roles that are already there stay when
    the name has none. *)
Definition PopulateAuthStructByCommonName (name tbl : string) : AuthM (status_res ()) :=
  if bool_decide (tbl = "") then
    mret (Err (Unauthenticated, "Service config table name should not be empty"))
  else
    let fv := Get_entry A tbl name in
    _ ← (match fv !! "role@", fv !! "role" with
         | Some role, _ => set_info (with_roles (Split role ","))
         | None, Some role => set_info (with_roles [role])
         | None, None => mret ()
         end);
    i ← gets info;
    if bool_decide (Roles i = []) then
      mret (Err (Unauthenticated, "not a trusted cert common name"))
    else mret (Ok ()).

(** The information a certificate name gives. *)
Definition cert_info (name tbl : string) : AuthM (status_res ()) :=
  if bool_decide (tbl ≠ "") then PopulateAuthStructByCommonName name tbl
  else
    x ← PopulateAuthStruct name [];
    mret match x with Some _ => Err (Unauthenticated, "") | None => Ok () end.

Definition cert_crl (enableCrl : bool) (chains : list (list Cert)) (cert : Cert) : AuthM (status_res ()) :=
  if enableCrl then λ s,
    let '(c, e) := VerifyCertCrl chains cert (CrlCache s) in ({| info := info s; CrlCache := c |}, e)
  else mret (Ok ()).

Definition ClientCertAuthenAndAuthor (r : Request) (tbl : string) (enableCrl : bool)
  : AuthM (status_res ()) :=
  match req_peer r with
  | None => mret (Err (Unauthenticated, "no peer found"))
  | Some p =>
      match peer_tls p with
      | None => mret (Err (Unauthenticated, "unexpected peer transport credentials"))
      | Some t =>
          match VerifiedChains t with
          | (cert :: _) :: _ =>
              if bool_decide (CommonName cert = "") then
                mret (Err (Unauthenticated, "invalid username in certificate common name."))
              else
                e ← cert_info (CommonName cert) tbl;
                match e with
                | Err e => mret (Err e)
                | Ok _ => cert_crl enableCrl (VerifiedChains t) cert
                end
          | _ => mret (Err (Unauthenticated, "could not verify peer certificate"))
          end
      end
  end.

(** ** [authenticate] *)

Record AuthConfig := { UserAuth : AuthTypes; ConfigTableName : string; EnableCrl : bool }.

(** The loop over the roles: the first that names the target and a mode
    decides; [None] when there is none. *)
Inductive access := NoAccess | ReadOnly | ReadWrite.

Definition role_access (target role : string) : option access :=
  if HasPrefix role target then
    let postfix := TrimPrefix (TrimPrefix role target) "_" in
    if bool_decide (postfix = "noaccess") then Some NoAccess
    else if bool_decide (postfix = "readonly") then Some ReadOnly
    else if bool_decide (postfix = "readwrite") then Some ReadWrite
    else None
  else None.

Definition roles_access (target : string) (roles : list string) : option access :=
  head (omap (λ role, role_access target (TrimSpace role)) roles).

Definition check_roles (target : string) (writeAccess : bool) (roles : list string) : status_res () :=
  match roles_access (ToLower target) roles with
  | Some NoAccess => Err (Unknown, "does not have access")
  | Some ReadOnly => if writeAccess then Err (Unknown, "does not have access") else Ok ()
  | Some ReadWrite => Ok ()
  | None => if writeAccess then Err (Unknown, "does not have write access") else Ok ()
  end.

(** A method that is tried when the ones before did not succeed. *)
Definition try_method (enabled success : bool) (m : AuthM (status_res ())) : AuthM bool :=
  if enabled && negb success then r ← m; mret (is_ok r) else mret success.

Definition authenticate (cfg : AuthConfig) (r : Request) (target : string) (writeAccess : bool)
  : AuthM (status_res ()) :=
  if default false (peer_unix <$> req_peer r) then
    _ ← set_info (with_enabled false); mret (Ok ())
  else if negb (Any (UserAuth cfg)) then
    _ ← set_info (with_enabled false); mret (Ok ())
  else
    _ ← set_info (with_enabled true);
    success ← try_method (Enabled (UserAuth cfg) "password") false (BasicAuthenAndAuthor r);
    success ← try_method (Enabled (UserAuth cfg) "jwt") success (JwtAuthenAndAuthor r);
    if negb success && Enabled (UserAuth cfg) "cert" then
      e ← ClientCertAuthenAndAuthor r (ConfigTableName cfg) (EnableCrl cfg);
      i ← gets info;
      match e with
      | Err _ => mret (Err (Unauthenticated, "Unauthenticated"))
      | Ok _ =>
          if bool_decide (ConfigTableName cfg ≠ "") then mret (check_roles target writeAccess (Roles i))
          else mret (Ok ())
      end
    else if success then mret (Ok ())
    else mret (Err (Unauthenticated, "Unauthenticated")).

End auth.
