(* ===== verification/Gnoi.v ===== *)
(** * What the gNOI services share

    Every RPC authenticates first ([authed]); streams deliver messages or end
    ([recv]); metadata can direct an RPC to a DPU (metadata.go); and files are
    written through a descriptor, which is the path that opening it led to. *)
From stdpp Require Import base gmap list strings.
From S2P Require Import Prelude GoStrings Gnmi Redis World Auth.

(** ** Streams *)

Inductive recv (M : Type) :=
| RMsg (m : M)
| REOF
| RCanceled
| RErr (e : string).
Arguments RMsg {M}.
Arguments REOF {M}.
Arguments RCanceled {M}.
Arguments RErr {M}.

(** ** Authentication *)

(** Each request has a context of its own. *)
Definition check_request (A : AuthEnv) (now : Z) (cfg : AuthConfig) (r : Request) (writeAccess : bool)
  : ST AuthState (status_res ()) := _ ← GetContext; authenticate A now cfg r "gnoi" writeAccess.

(** [_, err := authenticate(...); if err != nil { return err }] before a
    handler. *)
Definition authed {S X} (A : AuthEnv) (now : Z) (cfg : AuthConfig) (r : Request) (writeAccess : bool)
    (m : ST S (status_res X)) : ST (AuthState * S) (status_res X) := λ s,
  let '(a, e) := check_request A now cfg r writeAccess s.1 in
  match e with
  | Err err => ((a, s.2), Err err)
  | Ok _ => let '(s', x) := m s.2 in ((a, s'), x)
  end.

(** Whether a request passes. *)
Definition passes (A : AuthEnv) (now : Z) (cfg : AuthConfig) (r : Request) (writeAccess : bool) (a : AuthState) : bool :=
  is_ok (check_request A now cfg r writeAccess a).2.

(** A handler runs when the request passes, and leaves its state alone when it
    does not. *)
Lemma authed_spec {S X} A now cfg r wa (m : ST S (status_res X)) a s :
  (authed A now cfg r wa m (a, s)).1.2 = (if passes A now cfg r wa a then (m s).1 else s) ∧
  (passes A now cfg r wa a = true → (authed A now cfg r wa m (a, s)).2 = (m s).2) ∧
  (passes A now cfg r wa a = false → is_ok (authed A now cfg r wa m (a, s)).2 = false).
Proof.
  unfold authed, passes. simpl. destruct (check_request A now cfg r wa a) as [a' [[]|e]]; simpl; [|done].
  destruct (m s) as [s' x]. done.
Qed.

(** ** Routing metadata *)

Definition MetadataKeyTargetType : string := "x-sonic-ss-target-type".
Definition MetadataKeyTargetIndex : string := "x-sonic-ss-target-index".
Definition TargetTypeDPU : string := "dpu".

Record TargetMetadata := { TargetType : string; TargetIndex : string; HasMetadata : bool }.

Definition md_Get (r : Request) (k : string) : string :=
  match req_md r with
  | Some md => default "" (md !! k ≫= head)
  | None => ""
  end.

Definition ExtractTargetMetadata (r : Request) : TargetMetadata :=
  let targetType := md_Get r MetadataKeyTargetType in
  let targetIndex := md_Get r MetadataKeyTargetIndex in
  {| TargetType := targetType; TargetIndex := targetIndex;
     HasMetadata := bool_decide (targetType ≠ "") || bool_decide (targetIndex ≠ "") |}.

Definition IsDPUTarget (tm : TargetMetadata) : bool :=
  HasMetadata tm && bool_decide (TargetType tm = TargetTypeDPU).

(** ** Open files *)

Section files.
Context {Rd : Redis}.

(** [os.Create], and [os.OpenFile] with O_CREATE and O_TRUNC: through a link;
    the descriptor is what it leads to. *)
Definition os_Create (p : string) : IO (res os_error string) :=
  f ← next_fault;
  m ← gets fs;
  match resolve 40 m p, f with
  | Err e, _ => mret (Err e)
  | Ok q, NoFault => _ ← modify (set_fs <[q := Reg ""]>); mret (Ok q)
  | Ok q, _ => mret (Err OsFault)
  end.

(** [os.OpenFile] with O_CREATE and O_APPEND. *)
Definition os_OpenAppend (p : string) : IO (res os_error string) :=
  f ← next_fault;
  m ← gets fs;
  match resolve 40 m p, f with
  | Err e, _ => mret (Err e)
  | Ok q, NoFault =>
      _ ← modify (set_fs (λ m, match m !! q with Some _ => m | None => <[q := Reg ""]> m end)); mret (Ok q)
  | Ok q, _ => mret (Err OsFault)
  end.

(** [File.Write] at the end of the file. *)
Definition append_to (data : string) (n : inode) : inode :=
  match n with Reg d => Reg (d +:+ data) | n => n end.
Definition FileAppend (fd data : string) : IO (option os_error) :=
  f ← next_fault;
  match f with
  | NoFault => _ ← modify (set_fs (alter (append_to data) fd)); mret None
  | Partial d => _ ← modify (set_fs (alter (append_to d) fd)); mret (Some OsFault)
  | Fault => mret (Some OsFault)
  end.

(** [os.MkdirAll]: directories are not kept. *)
Definition MkdirAll (dir : string) : IO (option os_error) :=
  f ← next_fault;
  mret (match f with NoFault => None | _ => Some OsFault end).

(** ** What the calls do to the files *)

(** A call that only consumes a fault. *)
Lemma next_fault_fs w : fs (next_fault w).1 = fs w.
Proof. unfold next_fault. by destruct (faults w). Qed.

Lemma FileClose_fs w : fs (FileClose w).1 = fs w.
Proof. unfold FileClose, mbind, ST_bind. pose proof (next_fault_fs w). by destruct (next_fault w). Qed.

Lemma Chmod_fs p w : fs (Chmod p w).1 = fs w.
Proof. unfold Chmod, mbind, ST_bind. pose proof (next_fault_fs w). by destruct (next_fault w). Qed.

Lemma MkdirAll_fs p w : fs (MkdirAll p w).1 = fs w.
Proof. unfold MkdirAll, mbind, ST_bind. pose proof (next_fault_fs w). by destruct (next_fault w). Qed.

Lemma Stat_fs p w : fs (Stat p w).1 = fs w.
Proof.
  unfold Stat, mbind, ST_bind. pose proof (next_fault_fs w). destruct (next_fault w) as [w' f]. by destruct f.
Qed.

Lemma Lstat_fs p w : fs (Lstat p w).1 = fs w.
Proof.
  unfold Lstat, mbind, ST_bind. pose proof (next_fault_fs w). destruct (next_fault w) as [w' f]. by destruct f.
Qed.

Lemma ReadFile_fs p w : fs (ReadFile p w).1 = fs w.
Proof.
  unfold ReadFile, mbind, ST_bind. pose proof (next_fault_fs w). destruct (next_fault w) as [w' f]. by destruct f.
Qed.

(** What is at a path is not a link. *)
Definition no_link (m : gmap string inode) (p : string) : Prop := ∀ t, m !! p ≠ Some (Lnk t).

Lemma resolve_no_link n m p : no_link m p → resolve n m p = Ok p.
Proof.
  intros H. destruct n; unfold resolve; destruct (m !! p) as [[d|t]|] eqn:E; try done; by destruct (H t).
Qed.

Lemma os_Create_spec p w :
  no_link (fs w) p →
  let '(w', r) := os_Create p w in
  (r = Ok p ∧ fs w' = <[p := Reg ""]> (fs w)) ∨ (is_ok r = false ∧ fs w' = fs w).
Proof.
  intros Hl. unfold os_Create, mbind, ST_bind, gets, modify, mret, ST_ret. pose proof (next_fault_fs w) as Hf.
  destruct (next_fault w) as [w1 f]. simpl in *. rewrite Hf, resolve_no_link by done.
  destruct f; simpl; rewrite ?Hf; auto.
Qed.

Lemma FileAppend_spec p data d w :
  fs w !! p = Some (Reg d) →
  let '(w', r) := FileAppend p data w in
  ∃ d', fs w' = <[p := Reg d']> (fs w) ∧ (r = None → d' = d +:+ data).
Proof.
  intros Hp. unfold FileAppend, mbind, ST_bind, modify, mret, ST_ret. pose proof (next_fault_fs w) as Hf.
  destruct (next_fault w) as [w1 f]. simpl in *.
  assert (∀ x, alter (append_to x) p (fs w) = <[p := Reg (d +:+ x)]> (fs w)) as Ha.
  { intros x. apply map_eq. intros i. destruct (decide (i = p)) as [->|?].
    - by rewrite lookup_alter_eq, lookup_insert_eq, Hp.
    - by rewrite lookup_alter_ne, lookup_insert_ne. }
  destruct f; simpl; rewrite ?Hf.
  - exists (d +:+ data). by rewrite Ha.
  - exists d. split; [|done]. by rewrite insert_id.
  - exists (d +:+ data0). by rewrite Ha.
Qed.

Lemma os_Remove_spec p w :
  let '(w', r) := os_Remove p w in
  (r = None ∧ fs w' = delete p (fs w)) ∨ (is_Some r ∧ fs w' = fs w).
Proof.
  unfold os_Remove, mbind, ST_bind, gets, modify, mret, ST_ret. pose proof (next_fault_fs w) as Hf.
  destruct (next_fault w) as [w1 f]. simpl in *. rewrite Hf.
  destruct (fs w !! p); [destruct f|]; simpl; rewrite ?Hf; eauto.
Qed.

Lemma Rename_spec p q n w :
  fs w !! p = Some n →
  let '(w', r) := Rename p q w in
  (r = None ∧ fs w' = <[q := n]> (delete p (fs w))) ∨ (is_Some r ∧ fs w' = fs w).
Proof.
  intros Hp. unfold Rename, mbind, ST_bind, gets, modify, mret, ST_ret. pose proof (next_fault_fs w) as Hf.
  destruct (next_fault w) as [w1 f]. simpl in *. rewrite Hf, Hp.
  destruct f; simpl; rewrite ?Hf; eauto.
Qed.
End files.

(** ** Status codes of the switch (src/gnmi_server/swss_util.go)

    [None] is [codes.OK]. *)
Definition SwssToErrorCode (statusStr : string) : option Code :=
  if bool_decide (statusStr = "SWSS_RC_SUCCESS") then None
  else if bool_decide (statusStr = "SWSS_RC_UNKNOWN") then Some Unknown
  else if bool_decide (statusStr ∈ ["SWSS_RC_IN_USE"; "SWSS_RC_INVALID_PARAM"]) then Some InvalidArgument
  else if bool_decide (statusStr = "SWSS_RC_DEADLINE_EXCEEDED") then Some DeadlineExceeded
  else if bool_decide (statusStr = "SWSS_RC_NOT_FOUND") then Some NotFound
  else if bool_decide (statusStr = "SWSS_RC_EXISTS") then Some AlreadyExists
  else if bool_decide (statusStr = "SWSS_RC_PERMISSION_DENIED") then Some PermissionDenied
  else if bool_decide (statusStr ∈ ["SWSS_RC_FULL"; "SWSS_RC_NO_MEMORY"]) then Some ResourceExhausted
  else if bool_decide (statusStr = "SWSS_RC_UNIMPLEMENTED") then Some Unimplemented
  else if bool_decide (statusStr = "SWSS_RC_INTERNAL") then Some Internal
  else if bool_decide (statusStr ∈ ["SWSS_RC_NOT_EXECUTED"; "SWSS_RC_FAILED_PRECONDITION"]) then Some FailedPrecondition
  else if bool_decide (statusStr = "SWSS_RC_UNAVAIL") then Some Unavailable
  else Some Internal.

Definition ErrorCodeToSwss (errCode : option Code) : string :=
  match errCode with
  | None => "SWSS_RC_SUCCESS"
  | Some Unknown => "SWSS_RC_UNKNOWN"
  | Some InvalidArgument => "SWSS_RC_INVALID_PARAM"
  | Some DeadlineExceeded => "SWSS_RC_DEADLINE_EXCEEDED"
  | Some NotFound => "SWSS_RC_NOT_FOUND"
  | Some AlreadyExists => "SWSS_RC_EXISTS"
  | Some PermissionDenied => "SWSS_RC_PERMISSION_DENIED"
  | Some ResourceExhausted => "SWSS_RC_FULL"
  | Some Unimplemented => "SWSS_RC_UNIMPLEMENTED"
  | Some Internal => "SWSS_RC_INTERNAL"
  | Some FailedPrecondition => "SWSS_RC_FAILED_PRECONDITION"
  | Some Unavailable => "SWSS_RC_UNAVAIL"
  | _ => ""
  end.

(** Every code the switch can answer is written and read back unchanged; a code
    that has no name reads as internal. *)
Lemma swss_roundtrip c :
  SwssToErrorCode (ErrorCodeToSwss c) = if bool_decide (ErrorCodeToSwss c = "") then Some Internal else c.
Proof. destruct c as [[]|]; reflexivity. Qed.
