(* ===== verification/GnoiFile.v ===== *)
(** * Files (src/pkg/gnoi/file/file.go, src/internal/download, src/internal/hash,
      src/gnmi_server/gnoi_file.go)

    Put, Remove and TransferToRemote change files of the host, which the
    container sees under /mnt/host.  MD5 and the web are parameters; whether
    /mnt/host is there is one too, since the file system of [World] keeps no
    directories. *)
From stdpp Require Import base gmap list strings.
From S2P Require Import Prelude GoStrings Gnmi Redis World Dbus Auth Gnoi.

(** ** Paths *)

Definition allowedPrefixes : list string := ["/tmp/"; "/var/tmp/"].

Definition validatePath (path : string) : option string :=
  let cleanPath := Clean path in
  if negb (HasPrefix cleanPath "/") then Some "path must be absolute"
  else if Contains cleanPath ".." then Some "path traversal not allowed"
  else if existsb (HasPrefix cleanPath) allowedPrefixes then None
  else Some "path must be under /tmp/ or /var/tmp/".

(** [container]: os.Stat finds /mnt/host. *)
Definition translatePathForContainer (container : bool) (path : string) : string :=
  let cleanPath := Clean path in
  if container then "/mnt/host" +:+ cleanPath else cleanPath.

(** ** Messages *)

Record PutDetails := { remote_file : string; permissions : Z }.

Inductive PutRequest :=
| PutOpen (o : PutDetails)
| PutContents (data : string)
| PutHash (hash : string)
| PutNone.

Inductive Protocol := HTTP | HTTPS | SCP | SFTP | OtherProtocol.

Global Instance Protocol_eq_dec : EqDecision Protocol.
Proof. solve_decision. Defined.

Record RemoteDownload := { rd_path : string; rd_protocol : Protocol }.
Record TransferRequest := { local_path : string; remote_download : option RemoteDownload }.

(** ** The web *)

(** What reading a body gives, call by call; the end of the list is the end of
    the body. *)
Inductive ReadEv := Chunk (data : string) | ReadError (e : string).

Record HttpResponse := { StatusCode : Z; ContentLength : Z; body : list ReadEv }.

Definition maxFileSize : Z := 4 * 1024 * 1024 * 1024.

Fixpoint take_Z (n : Z) (s : string) : string :=
  match s with
  | EmptyString => EmptyString
  | String c s' => if bool_decide (n ≤ 0)%Z then EmptyString else String c (take_Z (n - 1) s')
  end.

Definition len (s : string) : Z := Z.of_nat (String.length s).

(** [io.LimitReader]: at most [n] bytes, then the end. *)
Fixpoint LimitReader (n : Z) (l : list ReadEv) : list ReadEv :=
  if bool_decide (n ≤ 0)%Z then []
  else match l with
       | [] => []
       | Chunk s :: l => Chunk (take_Z n s) :: LimitReader (n - len (take_Z n s)) l
       | ReadError e :: _ => [ReadError e]
       end.

(** [io.Copy] from a body: what was read, and the error that ended it. *)
Fixpoint read_all (l : list ReadEv) : string * option string :=
  match l with
  | [] => ("", None)
  | Chunk s :: l => let '(d, e) := read_all l in (s +:+ d, e)
  | ReadError e :: _ => ("", Some e)
  end.

(** [limitedReadCloser]: an error once more than [maxSize] bytes were read,
    beside the last chunk. *)
Fixpoint limitedReadCloser (maxSize read : Z) (l : list ReadEv) : list (string * option string) :=
  match l with
  | [] => []
  | Chunk s :: l =>
      let read := (read + len s)%Z in
      if bool_decide (0 < maxSize)%Z && bool_decide (maxSize < read)%Z
      then [(s, Some "downloaded file size exceeds maximum allowed size")]
      else (s, None) :: limitedReadCloser maxSize read l
  | ReadError e :: _ => [("", Some e)]
  end.

Section gnoi_file.
Context {Rd : Redis} (MD5 : string → string).

(** A GET: an error, or a response. *)
Context (http_Do : string → res string HttpResponse).

Definition failed (s : string) : option string := Some s.

(** [DownloadHTTP] *)
Definition download_body (localPath : string) (maxSize : Z) (resp : HttpResponse) : IO (option string) :=
  fd ← os_Create localPath;
  match fd with
  | Err _ => mret (failed "failed to create output file")
  | Ok outFile =>
      let '(data, rerr) := read_all (if bool_decide (0 < maxSize)%Z then LimitReader (maxSize + 1) (body resp) else body resp) in
      werr ← FileAppend outFile data;
      match werr, rerr with
      | None, None =>
          if bool_decide (0 < maxSize)%Z && bool_decide (maxSize < len data)%Z then
            _ ← os_Remove localPath; mret (failed "downloaded file size exceeds maximum allowed size")
          else mret None
      | _, _ => _ ← os_Remove localPath; mret (failed "failed to write file")
      end
  end.

Definition check_response (maxSize : Z) (r : res string HttpResponse) : res string HttpResponse :=
  match r with
  | Err _ => Err "HTTP request failed"
  | Ok resp =>
      if bool_decide (StatusCode resp < 200)%Z || bool_decide (300 ≤ StatusCode resp)%Z then Err "HTTP error"
      else if bool_decide (0 < maxSize)%Z && bool_decide (maxSize < ContentLength resp)%Z
      then Err "file size exceeds maximum allowed size"
      else Ok resp
  end.

Definition DownloadHTTP (url localPath : string) (maxSize : Z) : IO (option string) :=
  try_ (MkdirAll (path_Dir localPath)) (λ _, mret (failed "failed to create output directory"))
    match check_response maxSize (http_Do url) with
    | Err e => mret (failed e)
    | Ok resp => download_body localPath maxSize resp
    end.

(** The reads of the stream, each with what it returned and its error. *)
Definition DownloadHTTPStreaming (url : string) (maxSize : Z) : res string (list (string * option string)) :=
  resp ← check_response maxSize (http_Do url);
  if bool_decide (0 < maxSize)%Z then Ok (limitedReadCloser maxSize 0 (LimitReader (maxSize + 1) (body resp)))
  else Ok ((λ ev, match ev with Chunk s => (s, None) | ReadError e => ("", Some e) end) <$> body resp).

Definition CalculateMD5 (filePath : string) : IO (res os_error string) :=
  r ← ReadFile filePath; mret (match r with Ok d => Ok (MD5 d) | Err e => Err e end).

(** ** TransferToRemote *)

Definition check_transfer (validate : bool) (req : option TransferRequest) : status_res (string * string) :=
  match req with
  | None => Err (InvalidArgument, "request cannot be nil")
  | Some req =>
      match remote_download req with
      | None => Err (InvalidArgument, "remote_download cannot be nil")
      | Some rd =>
          if bool_decide (local_path req = "") then Err (InvalidArgument, "local_path cannot be empty")
          else match (if validate then validatePath (local_path req) else None) with
          | Some _ => Err (InvalidArgument, "invalid local_path")
          | None =>
              if bool_decide (rd_protocol rd ≠ HTTP) then Err (Unimplemented, "only HTTP protocol is supported")
              else if bool_decide (rd_path rd = "") then
                Err (InvalidArgument, "remote download path (URL) cannot be empty")
              else Ok (local_path req, rd_path rd)
          end
      end
  end.

(** The response is the hash. *)
Definition handleTransferToRemoteLocal (container : bool) (req : option TransferRequest) : IO (status_res string) :=
  match check_transfer true req with
  | Err e => mret (Err e)
  | Ok (localPath, url) =>
      let translatedPath := translatePathForContainer container localPath in
      try_ (DownloadHTTP url translatedPath maxFileSize) (λ _, mret (Err (Internal, "download failed")))
        (h ← CalculateMD5 translatedPath;
         match h with
         | Err _ => _ ← os_Remove translatedPath; mret (Err (Internal, "hash calculation failed"))
         | Ok hashBytes => mret (Ok hashBytes)
         end)
  end.

(** ** A DPU *)

(** The other end: whether a connection and a Put stream can be had, how many
    messages can be sent before a send fails, the iteration at which the
    deadline is found to have passed, and whether the DPU accepted the file. *)
Record DpuConn := {
  dpu_connect : option string;
  dpu_put : option string;
  dpu_sends : nat;
  dpu_deadline : option nat;
  dpu_close : option string
}.

Definition sent_error : Code * string := (Internal, "failed to send content chunk").

(** The loop over the body: the messages sent so far, what was hashed, and
    whether to go on. *)
Fixpoint stream_chunks (d : DpuConn) (i : nat) (reads : list (string * option string)) (sent : list PutRequest) (hashed : string)
  : list PutRequest * status_res string :=
  if bool_decide (dpu_deadline d = Some i) then (sent, Err (DeadlineExceeded, "streaming operation timed out"))
  else match reads with
  | [] => (sent, Ok hashed)
  | (s, e) :: reads =>
      let hashed := hashed +:+ s in
      if bool_decide (s ≠ "") && bool_decide (dpu_sends d ≤ length sent) then (sent, Err sent_error)
      else
        let sent := if bool_decide (s ≠ "") then sent ++ [PutContents s] else sent in
        match e with
        | Some _ => (sent, Err (Internal, "failed to read from HTTP stream"))
        | None => stream_chunks d (S i) reads sent hashed
        end
  end.

Definition HandleTransferToRemoteForDPUStreaming (d : DpuConn) (req : option TransferRequest) (dpuIndex : string)
  : list PutRequest * status_res string :=
  match req with
  | None => ([], Err (InvalidArgument, "request cannot be nil"))
  | Some _ =>
    if bool_decide (dpuIndex = "") then ([], Err (InvalidArgument, "dpuIndex cannot be empty"))
    else match check_transfer false req with
    | Err e => ([], Err e)
    | Ok (localPath, url) =>
        match DownloadHTTPStreaming url maxFileSize with
        | Err _ => ([], Err (Internal, "failed to create HTTP stream"))
        | Ok reads =>
            match dpu_connect d, dpu_put d with
            | Some _, _ => ([], Err (Internal, "failed to get DPU connection"))
            | None, Some _ => ([], Err (Internal, "failed to create Put client"))
            | None, None =>
                if bool_decide (dpu_sends d = 0) then ([], Err (Internal, "failed to send open request"))
                else match stream_chunks d 0 reads [PutOpen {| remote_file := localPath; permissions := 420 |}] "" with
                | (sent, Err e) => (sent, Err e)
                | (sent, Ok hashed) =>
                    if bool_decide (dpu_sends d ≤ length sent) then (sent, Err (Internal, "failed to send hash"))
                    else
                      let sent := sent ++ [PutHash (MD5 hashed)] in
                      match dpu_close d with
                      | Some _ => (sent, Err (Internal, "failed to complete Put to DPU"))
                      | None => (sent, Ok (MD5 hashed))
                      end
                end
            end
        end
    end
  end.

(** [HandleTransferToRemote]: what goes to a DPU, and the answer. *)
Definition HandleTransferToRemote (container : bool) (d : DpuConn) (r : Request) (req : option TransferRequest)
  : IO (list PutRequest * status_res string) :=
  let targetType := md_Get r MetadataKeyTargetType in
  let targetIndex := md_Get r MetadataKeyTargetIndex in
  if bool_decide (targetType = "dpu") && bool_decide (targetIndex ≠ "")
  then mret (HandleTransferToRemoteForDPUStreaming d req targetIndex)
  else x ← handleTransferToRemoteLocal container req; mret ([], x).

(** ** Put *)

(** The deferred function: close, and remove the temporary file when it is
    still there. *)
Definition put_cleanup (tempPath : string) : IO () :=
  _ ← FileClose;
  st ← Stat tempPath;
  if is_ok st then _ ← os_Remove tempPath; mret () else mret ().

(** Chunks until the hash; [None] when the hash is right. *)
Fixpoint put_chunks (fd : string) (msgs : list (recv PutRequest)) (hashed : string) : IO (option (Code * string)) :=
  match msgs with
  | [] | REOF :: _ => mret (Some (InvalidArgument, "unexpected end of stream before hash"))
  | RCanceled :: _ => mret (Some (Canceled, "stream canceled"))
  | RErr e :: _ => mret (Some (Internal, "failed to receive chunk"))
  | RMsg (PutContents contents) :: msgs =>
      try_ (FileAppend fd contents) (λ _, mret (Some (Internal, "failed to write chunk")))
        (put_chunks fd msgs (hashed +:+ contents))
  | RMsg (PutHash receivedHash) :: msgs =>
      if bool_decide (MD5 hashed = receivedHash) then mret None
      else mret (Some (DataLoss, "hash mismatch: file corrupted during transfer"))
  | RMsg _ :: _ => mret (Some (InvalidArgument, "message must contain contents or hash"))
  end.

(** Steps 5 to 10. *)
Definition put_body (fd tempPath translatedPath : string) (send_ok : bool) (msgs : list (recv PutRequest))
  : IO (option (Code * string)) :=
  try_ (put_chunks fd msgs "") (λ e, mret (Some e))
    (try_ FileClose (λ _, mret (Some (Internal, "failed to close temp file")))
      (try_ (Chmod tempPath) (λ _, mret (Some (Internal, "failed to set permissions")))
        (try_ (Rename tempPath translatedPath) (λ _, mret (Some (Internal, "failed to rename file")))
          (mret (if send_ok then None else Some (Unknown, "SendAndClose")))))).

(** [send_ok]: the response could be sent. *)
Definition HandlePut (container : bool) (msgs : list (recv PutRequest)) (send_ok : bool) : IO (option (Code * string)) :=
  match msgs with
  | [] | REOF :: _ | RCanceled :: _ | RErr _ :: _ => mret (Some (Internal, "failed to receive first message"))
  | RMsg (PutOpen openMsg) :: msgs =>
      let remotePath := remote_file openMsg in
      if bool_decide (remotePath = "") then mret (Some (InvalidArgument, "remote_file cannot be empty"))
      else match validatePath remotePath with
      | Some _ => mret (Some (InvalidArgument, "invalid remote_file"))
      | None =>
          let translatedPath := translatePathForContainer container remotePath in
          let tempPath := translatedPath +:+ ".tmp" in
          f ← os_Create tempPath;
          match f with
          | Err _ => mret (Some (Internal, "failed to create temp file"))
          | Ok fd =>
              r ← put_body fd tempPath translatedPath send_ok msgs;
              _ ← put_cleanup tempPath;
              mret r
          end
      end
  | RMsg _ :: _ => mret (Some (InvalidArgument, "first message must be Open"))
  end.

(** ** Remove *)

(** [permission]: whether an error of the call, when it is not that the file is
    missing, is one of permissions. *)
Definition HandleFileRemove (container permission : bool) (req : option string) : IO (option (Code * string)) :=
  match req with
  | None => mret (Some (InvalidArgument, "Invalid nil request."))
  | Some remoteFile =>
      if bool_decide (remoteFile = "") then mret (Some (InvalidArgument, "Invalid request: remote_file field is empty."))
      else match validatePath remoteFile with
      | Some _ => mret (Some (PermissionDenied, "only files in /tmp/ or /var/tmp/ can be removed"))
      | None =>
          e ← os_Remove (translatePathForContainer container remoteFile);
          mret (match e with
                | None => None
                | Some NotExist => Some (NotFound, "")
                | Some _ => Some (if permission then PermissionDenied else Internal, "")
                end)
      end
  end.

End gnoi_file.

(** ** The server *)

Definition as_status (e : option (Code * string)) : status_res () :=
  match e with None => Ok () | Some e => Err e end.

Section file_server.
Context {Rd : Redis} {Bu : Bus} (MD5 : string → string) (http_Do : string → res string HttpResponse).
Context (A : AuthEnv) (now : Z) (cfg : AuthConfig).

Definition file_Put (container : bool) (r : Request) (msgs : list (recv PutRequest)) (send_ok : bool)
  : ST (AuthState * World) (status_res ()) :=
  authed A now cfg r false (e ← HandlePut MD5 container msgs send_ok; mret (as_status e)).

Definition file_Remove (container permission : bool) (r : Request) (req : option string)
  : ST (AuthState * World) (status_res ()) :=
  match req with
  | None => mret (Err (InvalidArgument, "Invalid nil request."))
  | Some _ => authed A now cfg r false (e ← HandleFileRemove container permission req; mret (as_status e))
  end.

Definition file_TransferToRemote (container : bool) (d : DpuConn) (r : Request) (req : option TransferRequest)
  : ST (AuthState * World) (status_res (list PutRequest * string)) :=
  authed A now cfg r false
    (x ← HandleTransferToRemote MD5 http_Do container d r req;
     mret (match x.2 with Ok h => Ok (x.1, h) | Err e => Err e end)).

Definition file_Get (r : Request) : ST (AuthState * World) (status_res ()) :=
  authed A now cfg r false (mret (Err (Unimplemented, "Method file.Get is unimplemented."))).

(** ** Stat *)

Record StatInfo := { si_path : string; LastModified : Z; Permissions : Z; Size : Z; Umask : Z }.

(** [strconv.ParseUint(s, 8, 32)] *)
Fixpoint octal_go (acc : Z) (s : string) : option Z :=
  match s with
  | EmptyString => Some acc
  | String c s' =>
      d ← digit_val c; if bool_decide (d < 8)%Z then octal_go (acc * 8 + d)%Z s' else None
  end.
Definition ParseOctal32 (s : string) : option Z :=
  if bool_decide (s = "") then None
  else n ← octal_go 0 s; if bool_decide (n < 2 ^ 32)%Z then Some n else None.

Definition readFileStat (path : string) : ST DState (status_res StatInfo) :=
  x ← GetFileStat NewDbusClient path;
  mret (match x with
        | Err e => Err (Unknown, e)
        | Ok data =>
            let fld k := default "" (data !! k) in
            lastModified ← of_option (Unknown, "last_modified") (ParseUint (fld "last_modified"));
            permissions ← of_option (Unknown, "permissions") (ParseOctal32 (fld "permissions"));
            size ← of_option (Unknown, "size") (ParseUint (fld "size"));
            let umaskStr := if HasPrefix (fld "umask") "o" then str_drop 1 (fld "umask") else fld "umask" in
            umask ← of_option (Unknown, "umask") (ParseOctal32 umaskStr);
            Ok {| si_path := fld "path"; LastModified := lastModified; Permissions := permissions;
                  Size := size; Umask := umask |}
        end).

Definition file_Stat (r : Request) (path : string) : ST (AuthState * DState) (status_res (list StatInfo)) :=
  authed A now cfg r false (x ← readFileStat path; mret (match x with Ok i => Ok [i] | Err e => Err e end)).
End file_server.
