(* ===== verification/GnoiFileFacts.v ===== *)
(** * Facts about files

    Put is atomic whatever fails: either nothing but its temporary file
    changes, or the file holds exactly what was sent under the hash that was
    sent.  The names that change lie below /tmp or /var/tmp, unless a link is
    in the place of the temporary file.  A download returns the
    hash of exactly the body, within the size limit, and a file streamed to a
    DPU arrives there whole. *)
From stdpp Require Import base gmap list strings sets.
From S2P Require Import Prelude GoStrings Paths Gnmi Redis World Dbus GnsiUtil Auth Gnoi GnoiFile.

(** ** Allowed paths *)

Definition allowed_dirs : list string := ["/tmp"; "/var/tmp"].

Lemma validatePath_under p :
  validatePath p = None → ∃ dir, dir ∈ allowed_dirs ∧ under dir (Clean p).
Proof.
  unfold validatePath. destruct (HasPrefix (Clean p) "/") eqn:Habs; [|done].
  cbn [negb existsb allowedPrefixes]. destruct (Contains (Clean p) ".."); [done|]. apply Clean_absolute in Habs as (cs & Hc & Hcs). rewrite Hc.
  destruct (HasPrefix ("/" +:+ Join cs "/") "/tmp/") eqn:H1; [|destruct (HasPrefix ("/" +:+ Join cs "/") "/var/tmp/") eqn:H2; [|done]].
  - intros _. apply HasPrefix_spec in H1 as [t Ht]. destruct (clean_under cs "tmp" t) as (rest & -> & Hne & ->).
    { done. } { free_name. } { done. }
    exists "/tmp". split; [by left|]. exists rest. apply Forall_cons in Hcs as [_ Hcs]. by rewrite Ht.
  - intros _. clear H1. apply HasPrefix_spec in H2 as [t Ht]. destruct (clean_under cs "var" ("tmp/" +:+ t)) as (rest & -> & Hne & Hr).
    { done. } { free_name. } { done. }
    apply Forall_cons in Hcs as [_ Hcs]. destruct (clean_under rest "tmp" t) as (rest' & -> & Hne' & ->).
    { done. } { free_name. } { by rewrite <- Hr. }
    exists "/var/tmp". split; [right; left|]. exists rest'. apply Forall_cons in Hcs as [_ Hcs]. by rewrite Ht.
Qed.

Lemma length_neq_app (a b : string) : b ≠ "" → a ≠ a +:+ b.
Proof.
  intros Hb Heq. apply (f_equal String.length) in Heq. rewrite length_app_str in Heq.
  destruct b; [done|]. simpl in Heq. lia.
Qed.

(** A suffix on the last name keeps a path in its directory. *)
Lemma under_suffix dir p : under dir p → under dir (p +:+ ".tmp").
Proof.
  intros (cs & Hne & Hcs & ->). destruct cs as [|x l _] using rev_ind; [done|].
  exists (l ++ [x +:+ ".tmp"]). split; [by destruct l|]. split.
  - apply Forall_app in Hcs as [Hl Hx]. apply Forall_app. split; [done|]. apply Forall_cons in Hx as [Hx _]. apply Forall_singleton.
    destruct Hx as [H1 H2 H3 H4]. assert (∀ s, s ∈ [""; "."; ".."] → x +:+ ".tmp" ≠ s) as H.
    { intros s Hs Heq. apply (f_equal String.length) in Heq. rewrite length_app_str in Heq.
      simpl in Heq. repeat (apply elem_of_cons in Hs as [->|Hs]; [simpl in Heq; lia|]). by apply elem_of_nil in Hs. }
    constructor; [apply H; set_solver..|]. apply free_of_app. split; [done|]. free_name.
  - rewrite !app_assoc_str. do 2 f_equal. by rewrite Join_snoc.
Qed.

(** A prefix before the directory. *)
Lemma under_prefix pre dir p : under dir p → under (pre +:+ dir) (pre +:+ p).
Proof. intros (cs & ? & ? & ->). exists cs. by rewrite app_assoc_str. Qed.

Definition host_root (container : bool) : string := if container then "/mnt/host" else "".

Lemma translate_under container p :
  validatePath p = None →
  ∃ dir, dir ∈ allowed_dirs ∧ under (host_root container +:+ dir) (translatePathForContainer container p).
Proof.
  intros (dir & Hd & Hu)%validatePath_under. exists dir. split; [done|]. unfold translatePathForContainer.
  destruct container; [by apply under_prefix|done].
Qed.

(** ** Calls that meet no fault *)

Section quiet_calls.
Context {Rd : Redis}.

Lemma next_fault_quiet w : quiet w → next_fault w = (w, NoFault).
Proof. unfold quiet, next_fault. by intros ->. Qed.

Lemma FileAppend_quiet fd data w :
  quiet w → FileAppend fd data w = (set_fs (alter (append_to data) fd) w, None).
Proof. intros Hq. unfold FileAppend, mbind, ST_bind. by rewrite next_fault_quiet. Qed.
Lemma FileClose_quiet w : quiet w → FileClose w = (w, None).
Proof. intros Hq. unfold FileClose, mbind, ST_bind. by rewrite next_fault_quiet. Qed.
Lemma Chmod_quiet p w : quiet w → Chmod p w = (w, None).
Proof. intros Hq. unfold Chmod, mbind, ST_bind. by rewrite next_fault_quiet. Qed.
Lemma os_Remove_quiet p n w : quiet w → fs w !! p = Some n → os_Remove p w = (set_fs (delete p) w, None).
Proof. intros Hq Hp. unfold os_Remove, mbind, ST_bind, gets. rewrite next_fault_quiet by done. simpl. by rewrite Hp. Qed.
Lemma Rename_quiet p q n w :
  quiet w → fs w !! p = Some n → Rename p q w = (set_fs (λ m, <[q := n]> (delete p m)) w, None).
Proof. intros Hq Hp. unfold Rename, mbind, ST_bind, gets. rewrite next_fault_quiet by done. simpl. by rewrite Hp. Qed.
Lemma os_Create_quiet p w : quiet w → no_link (fs w) p → os_Create p w = (set_fs <[p := Reg ""]> w, Ok p).
Proof.
  intros Hq Hl. unfold os_Create, mbind, ST_bind, gets. rewrite next_fault_quiet by done. simpl.
  by rewrite resolve_no_link.
Qed.
Lemma Stat_quiet p d w : quiet w → fs w !! p = Some (Reg d) → Stat p w = (w, Ok (Reg d)).
Proof.
  intros Hq Hp. unfold Stat, mbind, ST_bind, gets. rewrite next_fault_quiet by done. simpl.
  rewrite resolve_no_link by (intros t; congruence). simpl. by rewrite Hp.
Qed.
Lemma Stat_missing p w : fs w !! p = None → is_ok (Stat p w).2 = false.
Proof.
  intros Hp. unfold Stat, mbind, ST_bind, gets. pose proof (next_fault_fs w) as Hf. destruct (next_fault w) as [w' f].
  destruct f; [|done..]. simpl in *. rewrite Hf, resolve_no_link by (intros t; congruence). simpl. by rewrite Hp.
Qed.
End quiet_calls.

(** ** Put *)
Section put_facts.
Context {Rd : Redis} (MD5 : string → string).

(** What a stream sends before its hash, and the hash. *)
Fixpoint put_data (msgs : list (recv PutRequest)) : option (string * string) :=
  match msgs with
  | RMsg (PutContents s) :: msgs => '(d, h) ← put_data msgs; Some (s +:+ d, h)
  | RMsg (PutHash h) :: _ => Some ("", h)
  | _ => None
  end.

(** Only the descriptor's file changes; at the right hash it holds the data. *)
Lemma put_chunks_spec fd msgs d hashed w :
  fs w !! fd = Some (Reg d) →
  let '(w', r) := put_chunks MD5 fd msgs hashed w in
  ∃ d', fs w' = <[fd := Reg d']> (fs w) ∧
        (r = None → ∃ data, put_data msgs = Some (data, MD5 (hashed +:+ data)) ∧ d' = d +:+ data).
Proof.
  revert d hashed w. induction msgs as [|[[o|s|h|]| | |e] msgs IH]; intros d hashed w Hd; simpl;
    try (exists d; rewrite insert_id by done; done).
  - pose proof (FileAppend_spec fd s d w Hd) as Hs. unfold try_, mbind, ST_bind.
    destruct (FileAppend fd s w) as [w1 [e|]]; destruct Hs as (d1 & Hfs & Hd1).
    + exists d1. done.
    + specialize (Hd1 eq_refl) as ->. pose proof (IH (d +:+ s) (hashed +:+ s) w1) as H.
      rewrite Hfs, lookup_insert_eq in H. specialize (H eq_refl). destruct (put_chunks MD5 fd msgs (hashed +:+ s) w1) as [w2 r].
      destruct H as (d2 & Hfs2 & Hr). exists d2. rewrite Hfs2, insert_insert_eq. split; [done|].
      intros Hn. destruct (Hr Hn) as (data & Hdata & ->). exists (s +:+ data). rewrite Hdata. simpl. by rewrite !app_assoc_str.
  - case_bool_decide as Hh; exists d; rewrite insert_id by done; (split; [done|]); [|done]. intros _.
    exists "". by rewrite !app_empty_r, Hh.
Qed.

(** Where a Put ends up before its cleanup. *)
Lemma put_body_spec temp final send_ok msgs w :
  fs w !! temp = Some (Reg "") → final ≠ temp →
  let '(w', r) := put_body MD5 temp temp final send_ok msgs w in
  (is_Some r ∧ ∃ d, fs w' = <[temp := Reg d]> (fs w)) ∨
  (∃ data, put_data msgs = Some (data, MD5 data) ∧ fs w' = <[final := Reg data]> (delete temp (fs w)) ∧
           r = if send_ok then None else Some (Unknown, "SendAndClose")).
Proof.
  intros Ht Hne. unfold put_body, try_, mbind, ST_bind. pose proof (put_chunks_spec temp msgs "" "" w Ht) as Hc.
  destruct (put_chunks MD5 temp msgs "" w) as [w1 [e|]]; destruct Hc as (d & Hfs & Hr); [left; eauto|].
  destruct (Hr eq_refl) as (data & Hdata & ->). rewrite !app_nil_str in *.
  pose proof (FileClose_fs w1) as Hc. destruct (FileClose w1) as [w2 [e|]]; simpl in Hc; [left; rewrite Hc; eauto|].
  pose proof (Chmod_fs temp w2) as Hm. destruct (Chmod temp w2) as [w3 [e|]]; simpl in Hm; [left; rewrite Hm, Hc; eauto|].
  assert (fs w3 = <[temp := Reg data]> (fs w)) as H3 by congruence.
  pose proof (Rename_spec temp final (Reg data) w3) as Hn. rewrite H3, lookup_insert_eq in Hn. specialize (Hn eq_refl).
  destruct (Rename temp final w3) as [w4 e]. destruct Hn as [[-> Hfs4]|[[e' ->] Hfs4]].
  - right. exists data. rewrite delete_insert_eq in Hfs4. done.
  - left. eauto.
Qed.

(** The cleanup touches the temporary file only, and leaves a missing one
    alone. *)
Lemma put_cleanup_spec temp w :
  let w' := (put_cleanup temp w).1 in
  (fs w' = fs w ∨ fs w' = delete temp (fs w)) ∧ (fs w !! temp = None → fs w' = fs w).
Proof.
  unfold put_cleanup, mbind, ST_bind. pose proof (FileClose_fs w) as Hc. destruct (FileClose w) as [w1 ?].
  pose proof (Stat_fs temp w1) as Hs. pose proof (Stat_missing temp w1) as Hmiss. destruct (Stat temp w1) as [w2 st]. simpl in *.
  destruct (is_ok st).
  - pose proof (os_Remove_spec temp w2) as Hr. destruct (os_Remove temp w2) as [w3 ?]. simpl.
    rewrite Hs, Hc in *. split; [naive_solver|]. intros Hn. by specialize (Hmiss Hn).
  - simpl. rewrite Hs, Hc. auto.
Qed.

(** The paths of a Put. *)
Definition put_final (container : bool) (o : PutDetails) : string := translatePathForContainer container (remote_file o).
Definition put_temp (container : bool) (o : PutDetails) : string := put_final container o +:+ ".tmp".

Lemma put_spec container o msgs send_ok w :
  no_link (fs w) (put_temp container o) →
  let '(w', r) := HandlePut MD5 container (RMsg (PutOpen o) :: msgs) send_ok w in
  (is_Some r ∧ (fs w' = fs w ∨ validatePath (remote_file o) = None ∧ ∀ p, p ≠ put_temp container o → fs w' !! p = fs w !! p)) ∨
  (∃ data, put_data msgs = Some (data, MD5 data) ∧ validatePath (remote_file o) = None ∧
           fs w' = <[put_final container o := Reg data]> (delete (put_temp container o) (fs w)) ∧
           r = if send_ok then None else Some (Unknown, "SendAndClose")).
Proof.
  intros Hl. unfold HandlePut. case_bool_decide; [left; eauto|].
  destruct (validatePath (remote_file o)) eqn:Hv; [left; eauto|]. fold (put_final container o).
  fold (put_temp container o). set (temp := put_temp container o) in *. set (final := put_final container o).
  assert (final ≠ temp) as Hne by (by apply length_neq_app).
  unfold mbind, ST_bind. pose proof (os_Create_spec temp w Hl) as Hc.
  destruct (os_Create temp w) as [w1 f]. destruct Hc as [[-> Hfs]|[Hf Hfs]]; [|destruct f; [done|left; eauto]].
  pose proof (put_body_spec temp final send_ok msgs w1) as Hb. rewrite Hfs, lookup_insert_eq in Hb.
  specialize (Hb eq_refl Hne).
  destruct (put_body MD5 temp temp final send_ok msgs w1) as [w2 r]. pose proof (put_cleanup_spec temp w2) as Hcl.
  destruct (put_cleanup temp w2) as [w3 []]. simpl in *. destruct Hcl as [Hcl Hmiss].
  destruct Hb as [[Hr (d & Hd)]|(data & Hdata & Hd & ->)].
  - left. split; [done|]. right. split; [done|]. intros p Hp.
    destruct Hcl as [->| ->]; rewrite Hd, ?lookup_delete_ne, !lookup_insert_ne by done; done.
  - right. exists data. split; [done|]. split; [done|]. split; [|done].
    rewrite delete_insert_eq in Hd. rewrite Hmiss; [done|]. by rewrite Hd, lookup_insert_ne, lookup_delete_eq.
Qed.

(** Without faults a stream with the right hash is written whole. *)
Lemma put_chunks_quiet fd msgs d hashed data w :
  quiet w → fs w !! fd = Some (Reg d) → put_data msgs = Some (data, MD5 (hashed +:+ data)) →
  ∃ w', put_chunks MD5 fd msgs hashed w = (w', None) ∧ quiet w' ∧ fs w' = <[fd := Reg (d +:+ data)]> (fs w).
Proof.
  revert d hashed data w. induction msgs as [|[[o|s|h|]| | |e] msgs IH]; intros d hashed data w Hq Hd Hp; try done.
  - simpl in Hp. destruct (put_data msgs) as [[d' h']|] eqn:Hm; [|done]. injection Hp as <- ->.
    cbn [put_chunks]. unfold try_, mbind, ST_bind. rewrite FileAppend_quiet by done.
    assert (fs (set_fs (alter (append_to s) fd) w) = <[fd := Reg (d +:+ s)]> (fs w)) as Hw.
    { pose proof (FileAppend_spec fd s d w Hd) as Ha. rewrite FileAppend_quiet in Ha by done.
      destruct Ha as (d1 & -> & Hd1). by rewrite Hd1. }
    destruct (IH (d +:+ s) (hashed +:+ s) d' (set_fs (alter (append_to s) fd) w)) as (w' & Hc & Hq' & Hfs).
    { done. } { by rewrite Hw, lookup_insert_eq. } { by rewrite app_assoc_str. }
    exists w'. split; [exact Hc|]. split; [done|]. rewrite Hfs, Hw, insert_insert_eq. by rewrite app_assoc_str.
  - injection Hp as <- ->. cbn [put_chunks]. rewrite bool_decide_true by (by rewrite app_empty_r).
    exists w. split; [done|]. split; [done|]. by rewrite app_empty_r, insert_id.
Qed.

Lemma validated_nonempty p : validatePath p = None → p ≠ "".
Proof. by intros H ->. Qed.

Lemma put_delivered container o msgs data w :
  quiet w → no_link (fs w) (put_temp container o) → validatePath (remote_file o) = None →
  put_data msgs = Some (data, MD5 data) →
  let '(w', r) := HandlePut MD5 container (RMsg (PutOpen o) :: msgs) true w in
  r = None ∧ fs w' = <[put_final container o := Reg data]> (delete (put_temp container o) (fs w)).
Proof.
  intros Hq Hl Hv Hd. pose proof (put_spec container o msgs true w Hl) as Hs.
  assert ((HandlePut MD5 container (RMsg (PutOpen o) :: msgs) true w).2 = None) as Hr.
  { unfold HandlePut. rewrite bool_decide_false by (by apply validated_nonempty). rewrite Hv.
    fold (put_final container o). fold (put_temp container o). set (temp := put_temp container o) in *.
    unfold mbind, ST_bind. rewrite os_Create_quiet by done.
    destruct (put_chunks_quiet temp msgs "" "" data (set_fs <[temp := Reg ""]> w)) as (w1 & Hc & Hq1 & Hfs); [done|..|done|].
    { simpl. by rewrite lookup_insert_eq. }
    unfold put_body, try_, mbind, ST_bind. rewrite Hc, FileClose_quiet, Chmod_quiet by done.
    rewrite (Rename_quiet temp _ (Reg data)) by (done || by rewrite Hfs, lookup_insert_eq).
    cbv beta iota delta [mret ST_ret]. match goal with |- context [put_cleanup temp ?x] => by destruct (put_cleanup temp x) end. }
  destruct (HandlePut _ _ _ _ _) as [w' r]. simpl in Hr. subst r.
  destruct Hs as [[[? [=]] _]|(data' & Hd' & _ & Hfs & _)]. split; [done|]. congruence.
Qed.

(** C24. Put is atomic however its calls fail: when its temporary file is not a
    link, either it answers an error and no other file has changed, or the
    stream sent [data] and its MD5, the path is an allowed one, the file holds
    exactly [data] and the temporary file is gone. *)
Theorem put_atomic container o msgs send_ok w :
  no_link (fs w) (put_temp container o) →
  let '(w', r) := HandlePut MD5 container (RMsg (PutOpen o) :: msgs) send_ok w in
  (is_Some r ∧ ∀ p, p ≠ put_temp container o → fs w' !! p = fs w !! p) ∨
  (∃ data, put_data msgs = Some (data, MD5 data) ∧ validatePath (remote_file o) = None ∧
           fs w' = <[put_final container o := Reg data]> (delete (put_temp container o) (fs w)) ∧
           r = if send_ok then None else Some (Unknown, "SendAndClose")).
Proof.
  intros Hl. pose proof (put_spec container o msgs send_ok w Hl) as Hs. destruct (HandlePut _ _ _ _ _) as [w' r].
  destruct Hs as [[Hr [->|[_ H]]]|H]; auto.
Qed.

(** Without faults Put delivers: a stream to an allowed path that ends with
    the MD5 of its contents succeeds and the file holds the contents. *)
Theorem put_delivers container o msgs data w :
  quiet w → no_link (fs w) (put_temp container o) → validatePath (remote_file o) = None →
  put_data msgs = Some (data, MD5 data) →
  let '(w', r) := HandlePut MD5 container (RMsg (PutOpen o) :: msgs) true w in
  r = None ∧ fs w' = <[put_final container o := Reg data]> (delete (put_temp container o) (fs w)).
Proof. apply put_delivered. Qed.

(** Which messages a Put starts with. *)
Definition put_open (msgs : list (recv PutRequest)) : option PutDetails :=
  match msgs with RMsg (PutOpen o) :: _ => Some o | _ => None end.

(** Where no link is in the place of the temporary file, the names that Put and
    Remove change are below /tmp or /var/tmp, without dots.  It says nothing of
    directories that are links, which [World] does not have;
    [put_through_link] is what happens without the condition. *)
Theorem files_confined container permission msgs send_ok req w p :
  (∀ o, put_open msgs = Some o → no_link (fs w) (put_temp container o)) →
  fs (HandlePut MD5 container msgs send_ok w).1 !! p ≠ fs w !! p ∨
  fs (HandleFileRemove container permission req w).1 !! p ≠ fs w !! p →
  ∃ dir, dir ∈ allowed_dirs ∧ under (host_root container +:+ dir) p.
Proof.
  intros Hl [Hp|Hp].
  - destruct msgs as [|[[o|s|h|]| | |e] msgs]; try done. specialize (Hl o eq_refl).
    pose proof (put_spec container o msgs send_ok w Hl) as Hs. destruct (HandlePut _ _ _ _ _) as [w' r]. simpl in Hp.
    destruct Hs as [[_ [Heq|[Hv Heq]]]|(data & _ & Hv & Heq & _)]; [by rewrite Heq in Hp|..];
      destruct (translate_under container (remote_file o) Hv) as (dir & Hd & Hu); exists dir; (split; [done|]);
      pose proof (under_suffix _ _ Hu) as Hu'.
    + destruct (decide (p = put_temp container o)) as [->|Hne]; [done|]. by rewrite Heq in Hp.
    + destruct (decide (p = put_temp container o)) as [->|Hne]; [done|].
      destruct (decide (p = put_final container o)) as [->|Hne']; [done|].
      rewrite Heq, lookup_insert_ne, lookup_delete_ne in Hp by done. done.
  - unfold HandleFileRemove in Hp. destruct req as [f|]; [|done]. case_bool_decide; [done|].
    destruct (validatePath f) eqn:Hv; [done|]. destruct (translate_under container f Hv) as (dir & Hd & Hu). exists dir.
    split; [done|]. unfold mbind, ST_bind in Hp. pose proof (os_Remove_spec (translatePathForContainer container f) w) as Hr.
    destruct (os_Remove _ w) as [w' e]. simpl in Hp. destruct Hr as [[_ Hr]|[_ Hr]]; rewrite Hr in Hp; [|done].
    destruct (decide (p = translatePathForContainer container f)) as [->|Hne]; [done|]. by rewrite lookup_delete_ne in Hp.
Qed.
End put_facts.

(** ** Downloads *)

Lemma take_Z_short n s : (len (take_Z n s) < n)%Z → take_Z n s = s.
Proof.
  unfold len. revert n. induction s as [|c s IH]; intros n; simpl; [done|]. case_bool_decide; simpl; [lia|]. intros Hn. f_equal. apply IH. lia.
Qed.

Lemma len_app a b : len (a +:+ b) = (len a + len b)%Z.
Proof. unfold len. rewrite length_app_str. lia. Qed.
Lemma len_nonneg a : (0 ≤ len a)%Z.
Proof. unfold len. lia. Qed.

(** A limit that was not reached cut nothing. *)
Lemma LimitReader_all n l d :
  read_all (LimitReader n l) = (d, None) → (len d < n)%Z → read_all l = (d, None).
Proof.
  revert n d. induction l as [|[s|e] l IH]; intros n d; cbn [LimitReader]; case_bool_decide as Hn.
  - by intros [= <-].
  - by intros [= <-].
  - intros [= <-]. change (len "") with 0%Z. lia.
  - cbn [read_all]. destruct (read_all (LimitReader _ l)) as [d' e'] eqn:Hr. intros [= <- ->]. rewrite len_app. intros Hlen.
    pose proof (len_nonneg d'). assert (take_Z n s = s) as Ht by (apply take_Z_short; lia). rewrite Ht in *.
    rewrite (IH _ d' Hr) by lia. done.
  - intros [= <-]. change (len "") with 0%Z. lia.
  - done.
Qed.

(** A stream that never reports an error read everything, within the limit. *)
Definition reads_data (reads : list (string * option string)) : string := Join reads.*1 "".

Lemma reads_data_cons s e reads : reads_data ((s, e) :: reads) = s +:+ reads_data reads.
Proof. unfold reads_data. destruct reads; [by rewrite app_empty_r|]. done. Qed.

Lemma limitedReadCloser_all maxSize read l :
  (0 < maxSize)%Z → (read ≤ maxSize)%Z → Forall (λ x, x.2 = None) (limitedReadCloser maxSize read l) →
  read_all l = (reads_data (limitedReadCloser maxSize read l), None) ∧
  (read + len (reads_data (limitedReadCloser maxSize read l)) ≤ maxSize)%Z.
Proof.
  intros Hmax. revert read. induction l as [|[s|e] l IH]; intros read Hread; cbn [limitedReadCloser].
  - intros _. split; [done|]. change (len (reads_data [])) with 0%Z. lia.
  - rewrite bool_decide_true by done. simpl. case_bool_decide as Hlt; intros [Hs Hf]%Forall_cons; [done|].
    destruct (IH (read + len s)%Z) as [Hr Hlen]; [lia|done|]. rewrite reads_data_cons, Hr, len_app. split; [done|lia].
  - intros [[=] _]%Forall_cons.
Qed.

Lemma stream_chunks_ok d i reads sent hashed sent' h :
  stream_chunks d i reads sent hashed = (sent', Ok h) →
  Forall (λ x, x.2 = None) reads ∧ h = hashed +:+ reads_data reads ∧
  ∃ l, sent' = sent ++ (PutContents <$> l) ∧ Join l "" = reads_data reads.
Proof.
  revert i sent hashed. induction reads as [|[s e] reads IH]; intros i sent hashed; cbn [stream_chunks]; case_bool_decide; try done.
  - intros [= <- <-]. split; [constructor|]. split; [by rewrite app_empty_r|]. exists []. by rewrite app_nil_r.
  - destruct (_ && _); [done|]. destruct e; [done|]. intros (Hf & -> & l & -> & Hl)%IH. split; [by constructor|].
    rewrite reads_data_cons, app_assoc_str. split; [done|]. case_bool_decide as Hs.
    + exists (s :: l). split; [by rewrite <- app_assoc|]. rewrite <- Hl. destruct l; [by rewrite app_empty_r|done].
    + exists l. split; [done|]. destruct (decide (s = "")) as [->|]; done.
Qed.

(** What a sender of chunks sends is what a receiver of them puts together. *)
Lemma put_data_chunks l h :
  put_data ((RMsg <$> (PutContents <$> l)) ++ [RMsg (PutHash h)]) = Some (Join l "", h).
Proof.
  induction l as [|s l IH]; [done|]. cbn. rewrite IH. simpl. destruct l; [by rewrite app_empty_r|done].
Qed.

Section transfer_facts.
Context {Rd : Redis} (MD5 : string → string) (http_Do : string → res string HttpResponse).

(** The body a URL serves whole. *)
Definition serves (url data : string) : Prop :=
  ∃ resp, http_Do url = Ok resp ∧ (200 ≤ StatusCode resp < 300)%Z ∧ read_all (body resp) = (data, None).

Lemma check_response_ok maxSize url resp :
  check_response maxSize (http_Do url) = Ok resp → http_Do url = Ok resp ∧ (200 ≤ StatusCode resp < 300)%Z.
Proof.
  unfold check_response. destruct (http_Do url) as [r|]; [|done]. repeat case_bool_decide; simpl; try done; intros [= ->]; split; (done || lia).
Qed.

Lemma check_transfer_ok v req path url :
  check_transfer v req = Ok (path, url) →
  ∃ r rd, req = Some r ∧ remote_download r = Some rd ∧ path = local_path r ∧ url = rd_path rd ∧
          (v = true → validatePath path = None).
Proof.
  unfold check_transfer. destruct req as [r|]; [|done]. destruct (remote_download r) as [rd|] eqn:Hrd; [|done].
  case_bool_decide; [done|]. destruct (if v then _ else _) eqn:Hv; [done|]. do 2 (case_bool_decide; [done|]).
  intros [= <- <-]. exists r, rd. do 4 (split; [done|]). by intros ->.
Qed.

Lemma streamed_body url d i reads sent hashed sent' h :
  DownloadHTTPStreaming http_Do url maxFileSize = Ok reads →
  stream_chunks d i reads sent hashed = (sent', Ok h) →
  serves url (reads_data reads) ∧ (len (reads_data reads) ≤ maxFileSize)%Z.
Proof.
  unfold DownloadHTTPStreaming. destruct (check_response maxFileSize (http_Do url)) as [resp|] eqn:Hr; [|done].
  apply check_response_ok in Hr as [Hr Hst]. simpl. intros [= <-] (Hf & _ & _)%stream_chunks_ok.
  apply limitedReadCloser_all in Hf as [Hall Hlen]; [|done..]. rewrite Z.add_0_l in Hlen. split; [|done].
  exists resp. split; [done|]. split; [done|]. eapply LimitReader_all; [exact Hall|lia].
Qed.

(** C26. A transfer to a DPU arrives whole: when the switch answers a hash, the
    messages it sent make the DPU's own Put, to an allowed path and without
    faults there, store exactly the body that the URL serves, whose MD5 the
    hash is and whose size is within the limit. *)
Theorem dpu_transfer_delivers d req dpuIndex sent h container w :
  HandleTransferToRemoteForDPUStreaming MD5 http_Do d req dpuIndex = (sent, Ok h) →
  ∃ r rd data o, req = Some r ∧ remote_download r = Some rd ∧ remote_file o = local_path r ∧
    serves (rd_path rd) data ∧ (len data ≤ maxFileSize)%Z ∧ h = MD5 data ∧
    (quiet w → no_link (fs w) (put_temp container o) → validatePath (local_path r) = None →
     let '(w', e) := HandlePut MD5 container (RMsg <$> sent) true w in
     e = None ∧ fs w' = <[put_final container o := Reg data]> (delete (put_temp container o) (fs w))).
Proof.
  unfold HandleTransferToRemoteForDPUStreaming. destruct req as [r|]; [|done]. case_bool_decide; [done|].
  destruct (check_transfer false (Some r)) as [[path url]|] eqn:Hc; [|done].
  apply check_transfer_ok in Hc as (r' & rd & [= <-] & Hrd & -> & -> & _).
  destruct (DownloadHTTPStreaming http_Do (rd_path rd) maxFileSize) as [reads|] eqn:Hd; [|done].
  destruct (dpu_connect d); [done|]. destruct (dpu_put d); [done|]. case_bool_decide; [done|].
  set (o := {| remote_file := local_path r; permissions := 420 |}).
  destruct (stream_chunks d 0 reads [PutOpen o] "") as [sent1 [hashed|]] eqn:Hs; [|done].
  case_bool_decide; [done|]. destruct (dpu_close d); [done|]. intros [= <- <-].
  pose proof (streamed_body _ _ _ _ _ _ _ _ Hd Hs) as [Hserve Hlen]. apply stream_chunks_ok in Hs as (_ & -> & l & -> & Hl).
  rewrite app_nil_str. exists r, rd, (reads_data reads), o. do 6 (split; [done|]). intros Hq Hnl Hv.
  rewrite !fmap_app. cbn [fmap list_fmap app].
  apply (put_delivered MD5 container o _ (reads_data reads) w Hq Hnl Hv). rewrite <- Hl. apply put_data_chunks.
Qed.

(** A download that succeeds stored the whole body. *)
Lemma DownloadHTTP_spec url p w :
  no_link (fs w) p →
  let '(w', e) := DownloadHTTP http_Do url p maxFileSize w in
  (∀ q, q ≠ p → fs w' !! q = fs w !! q) ∧
  (e = None → ∃ data, fs w' !! p = Some (Reg data) ∧ serves url data ∧ (len data ≤ maxFileSize)%Z).
Proof.
  intros Hl. unfold DownloadHTTP, try_, mbind, ST_bind. pose proof (MkdirAll_fs (path_Dir p) w) as Hm.
  destruct (MkdirAll (path_Dir p) w) as [w1 [e|]]; simpl in Hm; [split; [by rewrite Hm|done]|].
  destruct (check_response maxFileSize (http_Do url)) as [resp|] eqn:Hr; [|split; [by rewrite <- Hm|done]].
  apply check_response_ok in Hr as [Hr Hst]. unfold download_body, mbind, ST_bind. rewrite <- Hm in Hl.
  pose proof (os_Create_spec p w1 Hl) as Hc. destruct (os_Create p w1) as [w2 f].
  destruct Hc as [[-> Hfs]|[Hf Hfs]]; [|destruct f; [done|]; split; [by rewrite Hfs, Hm|done]].
  rewrite bool_decide_true by done. destruct (read_all (LimitReader (maxFileSize + 1) (body resp))) as [data rerr] eqn:Hread.
  assert (fs w2 !! p = Some (Reg "")) as H2 by (by rewrite Hfs, lookup_insert_eq).
  pose proof (FileAppend_spec p data "" w2 H2) as Ha. destruct (FileAppend p data w2) as [w3 werr].
  destruct Ha as (d' & Hfs3 & Hd').
  assert (∀ q, q ≠ p → fs w3 !! q = fs w !! q) as Hother.
  { intros q Hq. by rewrite Hfs3, Hfs, !lookup_insert_ne, Hm. }
  assert (∀ msg, let '(w', e) := (os_Remove p ≫= λ _, mret (failed msg) : IO (option string)) w3 in
    (∀ q, q ≠ p → fs w' !! q = fs w !! q) ∧ (e = None → ∃ data, fs w' !! p = Some (Reg data) ∧ serves url data ∧ (len data ≤ maxFileSize)%Z)) as Hfail.
  { intros msg. unfold mbind, ST_bind. pose proof (os_Remove_spec p w3) as Hrm. destruct (os_Remove p w3) as [w4 ?]. split; [|done]. intros q Hq.
    destruct Hrm as [[_ ->]|[_ ->]]; rewrite ?lookup_delete_ne by done; auto. }
  destruct werr; [by apply Hfail|]. destruct rerr; [by apply Hfail|].
  simpl. case_bool_decide as Hlt; [by apply Hfail|]. split; [done|]. intros _. exists data.
  rewrite Hfs3, lookup_insert_eq, Hd' by done. split; [done|]. split; [|lia]. exists resp. split; [done|]. split; [done|].
  eapply LimitReader_all; [exact Hread|lia].
Qed.

(** A transfer to the switch itself that answers a hash stored exactly the
    body the URL serves, within the size limit, and the hash is its MD5; in
    every case no other file changes, and the file is below /tmp or
    /var/tmp. *)
Theorem local_transfer_stores container req w :
  (∀ r, req = Some r → no_link (fs w) (translatePathForContainer container (local_path r))) →
  let '(w', x) := handleTransferToRemoteLocal MD5 http_Do container req w in
  (∀ q, fs w' !! q ≠ fs w !! q → ∃ r dir, req = Some r ∧ q = translatePathForContainer container (local_path r) ∧
     dir ∈ allowed_dirs ∧ under (host_root container +:+ dir) q) ∧
  (∀ h, x = Ok h → ∃ r rd data, req = Some r ∧ remote_download r = Some rd ∧ serves (rd_path rd) data ∧
     (len data ≤ maxFileSize)%Z ∧ h = MD5 data ∧
     fs w' !! translatePathForContainer container (local_path r) = Some (Reg data)).
Proof.
  intros Hl. unfold handleTransferToRemoteLocal. destruct (check_transfer true req) as [[path url]|] eqn:Hc; [|done].
  apply check_transfer_ok in Hc as (r & rd & -> & Hrd & -> & -> & Hv). specialize (Hv eq_refl). specialize (Hl r eq_refl).
  set (p := translatePathForContainer container (local_path r)) in *. unfold try_, mbind, ST_bind.
  pose proof (DownloadHTTP_spec (rd_path rd) p w Hl) as Hd. destruct (DownloadHTTP _ _ _ _ w) as [w1 e]. destruct Hd as [Hother Hok].
  assert (∀ w', (∀ q, q ≠ p → fs w' !! q = fs w1 !! q) → ∀ q, fs w' !! q ≠ fs w !! q →
    ∃ r' dir, Some r = Some r' ∧ q = translatePathForContainer container (local_path r') ∧
     dir ∈ allowed_dirs ∧ under (host_root container +:+ dir) q) as Hch.
  { intros w' Hw' q Hq. destruct (decide (q = p)) as [->|Hne]; [|by rewrite Hw', Hother in Hq].
    destruct (translate_under container _ Hv) as (dir & ? & ?). by exists r, dir. }
  destruct e; [split; [by apply Hch|done]|]. destruct (Hok eq_refl) as (data & Hp & Hs & Hlen).
  unfold CalculateMD5, mbind, ST_bind. pose proof (ReadFile_fs p w1) as Hrf.
  assert (∀ d, (ReadFile p w1).2 = Ok d → d = data) as Hrd'.
  { unfold ReadFile, mbind, ST_bind, gets. pose proof (next_fault_fs w1) as Hnf. destruct (next_fault w1) as [w2 f]. simpl in Hnf.
    destruct f; [|done..]. simpl. rewrite Hnf, resolve_no_link by (intros t; congruence). simpl. rewrite Hp. by intros ? [= <-]. }
  destruct (ReadFile p w1) as [w2 [d|err]]; simpl in *.
  - split; [apply Hch; by rewrite Hrf|]. intros h [= <-]. rewrite (Hrd' d eq_refl). exists r, rd, data. rewrite Hrf. done.
  - pose proof (os_Remove_spec p w2) as Hrm. destruct (os_Remove p w2) as [w3 ?]. split; [|done]. apply Hch. intros q Hq.
    destruct Hrm as [[_ ->]|[_ ->]]; rewrite ?lookup_delete_ne, Hrf; done.
Qed.
End transfer_facts.

(** ** Concrete transfers *)
Module FileExample.
#[local] Instance host_db : Redis := map_redis.

Definition w0 : World := {| fs := {[ "/tmp/a" := Reg "old"; "/etc/passwd" := Reg "root" ]}; db := (∅ : gmap string (gmap string string)); faults := [] |}.
(** Any function will do for MD5. *)
Definition md5 (s : string) : string := "md5:" +:+ s.
Definition open_a : PutDetails := {| remote_file := "/tmp/x/../a"; permissions := 0 |}.
Definition chunks : list (recv PutRequest) := [RMsg (PutContents "ne"); RMsg (PutContents "w"); RMsg (PutHash "md5:new")].

Lemma no_link_w0 p : no_link (fs w0) p.
Proof.
  intros t. simpl. rewrite lookup_insert. case_decide; [done|]. rewrite lookup_singleton. by case_decide.
Qed.

(** A stream that breaks off leaves the old file. *)
Example broken_put :
  let '(w, r) := HandlePut md5 false [RMsg (PutOpen open_a); RMsg (PutContents "ne"); RErr "reset"] true w0 in
  fs w = fs w0 ∧ r = Some (Internal, "failed to receive chunk").
Proof. vm_compute. done. Qed.

Lemma put_atomic_witness :
  no_link (fs w0) (put_temp false open_a) ∧
  let '(w', r) := HandlePut md5 false (RMsg (PutOpen open_a) :: chunks) true w0 in
  (is_Some r ∧ ∀ p, p ≠ put_temp false open_a → fs w' !! p = fs w0 !! p) ∨
  (∃ data, put_data chunks = Some (data, md5 data) ∧ validatePath (remote_file open_a) = None ∧
           fs w' = <[put_final false open_a := Reg data]> (delete (put_temp false open_a) (fs w0)) ∧
           r = if true then None else Some (Unknown, "SendAndClose")).
Proof. split; [apply no_link_w0|]. apply (put_atomic md5 false open_a chunks true w0). apply no_link_w0. Defined.

Lemma put_delivers_witness :
  let '(w', r) := HandlePut md5 true (RMsg (PutOpen open_a) :: chunks) true w0 in
  r = None ∧ fs w' = <[put_final true open_a := Reg "new"]> (delete (put_temp true open_a) (fs w0)).
Proof. apply (put_delivers md5 true open_a chunks "new" w0); [reflexivity|apply no_link_w0|vm_compute; reflexivity..]. Defined.

Lemma files_confined_witness :
  ∃ dir, dir ∈ allowed_dirs ∧ under (host_root false +:+ dir) "/tmp/a".
Proof.
  apply (files_confined md5 false false (RMsg (PutOpen open_a) :: chunks) true None w0); [intros o _; apply no_link_w0|].
  left. vm_compute. discriminate.
Defined.

(** A server on the web. *)
Definition web (url : string) : res string HttpResponse :=
  if bool_decide (url = "http://img") then Ok {| StatusCode := 200; ContentLength := -1; body := [Chunk "im"; Chunk "age"] |}
  else Err "no such host".
Definition transfer : TransferRequest :=
  {| local_path := "/tmp/img"; remote_download := Some {| rd_path := "http://img"; rd_protocol := HTTP |} |}.
Definition dpu0 : DpuConn := {| dpu_connect := None; dpu_put := None; dpu_sends := 10; dpu_deadline := None; dpu_close := None |}.
Definition sent0 : list PutRequest :=
  [PutOpen {| remote_file := "/tmp/img"; permissions := 420 |}; PutContents "im"; PutContents "age"; PutHash "md5:image"].

Lemma dpu_transfer_delivers_witness :
  ∃ r rd data o, Some transfer = Some r ∧ remote_download r = Some rd ∧ remote_file o = local_path r ∧
    serves web (rd_path rd) data ∧ (len data ≤ maxFileSize)%Z ∧ "md5:image" = md5 data ∧
    (quiet w0 → no_link (fs w0) (put_temp false o) → validatePath (local_path r) = None →
     let '(w', e) := HandlePut md5 false (RMsg <$> sent0) true w0 in
     e = None ∧ fs w' = <[put_final false o := Reg data]> (delete (put_temp false o) (fs w0))).
Proof. apply (dpu_transfer_delivers md5 web dpu0 (Some transfer) "0" sent0 "md5:image" false w0). vm_compute. reflexivity. Defined.

Lemma local_transfer_stores_witness :
  let '(w', x) := handleTransferToRemoteLocal md5 web false (Some transfer) w0 in
  (∀ q, fs w' !! q ≠ fs w0 !! q → ∃ r dir, Some transfer = Some r ∧ q = translatePathForContainer false (local_path r) ∧
     dir ∈ allowed_dirs ∧ under (host_root false +:+ dir) q) ∧
  (∀ h, x = Ok h → ∃ r rd data, Some transfer = Some r ∧ remote_download r = Some rd ∧ serves web (rd_path rd) data ∧
     (len data ≤ maxFileSize)%Z ∧ h = md5 data ∧
     fs w' !! translatePathForContainer false (local_path r) = Some (Reg data)).
Proof. apply (local_transfer_stores md5 web false (Some transfer) w0). intros r _. apply no_link_w0. Defined.

(** A download that fails has replaced the file it was for; a Put has not. *)
Example failed_transfer_destroys :
  let broken url := Ok {| StatusCode := 200; ContentLength := 9; body := [Chunk "im"; ReadError "reset"] |} in
  let req := {| local_path := "/tmp/a"; remote_download := Some {| rd_path := "u"; rd_protocol := HTTP |} |} in
  let '(w, r) := handleTransferToRemoteLocal md5 broken false (Some req) w0 in
  fs w !! "/tmp/a" = None ∧ r = Err (Internal, "download failed").
Proof. vm_compute. done. Qed.

(** Through a link at the name of the temporary file a Put writes elsewhere. *)
Example put_through_link :
  let w := set_fs <["/tmp/a.tmp" := Lnk "/etc/passwd"]> w0 in
  fs (HandlePut md5 false (RMsg (PutOpen open_a) :: chunks) true w).1 !! "/etc/passwd" = Some (Reg "new").
Proof. vm_compute. reflexivity. Qed.

(** A user of the certificate table whose role may only read. *)
Definition users : AuthEnv := {|
  lookup_roles _ := None; UserPwAuth _ _ := false; parse_token _ := None;
  Get_entry tbl name := {[ "role@" := "gnoi_readonly" ]};
  CheckChainRevocation _ _ := true; fetch _ := None |}.
Definition cert_cfg : AuthConfig := {| UserAuth := {[ "cert" := true ]}; ConfigTableName := "GNMI_CLIENT_CERT"; EnableCrl := false |}.
Definition reader : Request := {|
  req_peer := Some {| peer_unix := false; peer_tls := Some {| SPIFFE_path := None;
    VerifiedChains := [[{| CommonName := "reader"; CRLDistributionPoints := [] |}]] |} |};
  req_md := None |}.
Definition a0 : AuthState := {| info := new_info; CrlCache := ∅ |}.

(** He may not write, and puts and removes files. *)
Example reader_writes_files :
  passes users 0 cert_cfg reader true a0 = false ∧
  fs (file_Put md5 users 0 cert_cfg false reader (RMsg (PutOpen open_a) :: chunks) true (a0, w0)).1.2 !! "/tmp/a" = Some (Reg "new") ∧
  fs (file_Remove users 0 cert_cfg false false reader (Some "/tmp/a") (a0, w0)).1.2 !! "/tmp/a" = None.
Proof. vm_compute. done. Qed.
End FileExample.
