(* ===== verification/HostExec.v ===== *)
(** * Commands on the host (src/pkg/exec/command.go)

    The server runs in a container and reaches the host's namespaces through
    nsenter.  What running a program gives is a parameter. *)
From Stdlib Require Import Ascii.
From stdpp Require Import base list strings sets.
From S2P Require Import Prelude GoStrings Paths World.

(** A program that ended with an exit code, or could not be run (it is missing,
    or its time was up). *)
Inductive Outcome := Exited (code : Z) (stdout stderr : string) | NotRun (e stdout stderr : string).

Record HostResult := { hr_exit : Z; hr_stdout : string; hr_stderr : string; hr_failed : bool }.

Record Options := { Timeout : Z; Namespaces : list string; WorkingDir : string; Environment : list string }.
Definition no_options : Options := {| Timeout := 0; Namespaces := []; WorkingDir := ""; Environment := [] |}.

Definition hostPID : string := "1".
Definition defaultTimeout : Z := 30 * 1000000000.

Definition namespaces (opts : Options) : list string :=
  if bool_decide (Namespaces opts ≠ []) then Namespaces opts else ["pid"; "mount"; "uts"; "ipc"; "net"].

Definition buildNsenterArgs (opts : Options) (command : string) (args : list string) : list string :=
  ["--target"; hostPID] ++ ((λ ns, "--" +:+ ns) <$> namespaces opts) ++ ["--"] ++ [command] ++ args.

(** One run of a program: its time limit, directory, environment and
    arguments. *)
Record Exec := { ex_timeout : Z; ex_dir : string; ex_env : list string; ex_argv : list string }.

Section exec.
(** The host's state, and what a program does to it. *)
Context {H : Type} (exec_Run : Exec → H → H * Outcome).

Definition RunHostCommand (command : string) (args : list string) (opts : option Options) : ST H (res string HostResult) := λ h,
  if bool_decide (command = "") then (h, Err "command cannot be empty")
  else
    let opts := default no_options opts in
    let timeout := if bool_decide (Timeout opts = 0%Z) then defaultTimeout else Timeout opts in
    let '(h, out) := exec_Run {| ex_timeout := timeout; ex_dir := WorkingDir opts; ex_env := Environment opts;
                                 ex_argv := "nsenter" :: buildNsenterArgs opts command args |} h in
    (h, Ok (match out with
            | Exited code o e => {| hr_exit := code; hr_stdout := o; hr_stderr := e; hr_failed := bool_decide (code ≠ 0%Z) |}
            | NotRun _ o e => {| hr_exit := 0; hr_stdout := o; hr_stderr := e; hr_failed := true |}
            end)).

Definition RunHostCommandSimple (command : string) (args : list string) : ST H (res string string) :=
  r ← RunHostCommand command args None;
  mret (match r with
        | Err e => Err e
        | Ok r => if hr_failed r then Err "command failed" else Ok (hr_stdout r)
        end).
End exec.

(** ** Command lines *)

(** The parser's state: the words so far, the one being read, and the open
    quote with the character read last. *)
Record pstate := { parts : list string; current : string; quote : option ascii; last : option ascii }.

Definition is_quote (r : ascii) : bool := bool_decide (r = ascii_of_nat 34) || bool_decide (r = ascii_of_nat 39).
Definition is_space (r : ascii) : bool := let n := nat_of_ascii r in (n =? 32) || ((9 <=? n) && (n <=? 13)).
Definition backslash : ascii := ascii_of_nat 92.

Definition flush (parts : list string) (current : string) : list string :=
  if bool_decide (current ≠ "") then parts ++ [current] else parts.

Definition parse_rune (s : pstate) (r : ascii) : pstate :=
  let keep := {| parts := parts s; current := current s +:+ String r ""; quote := quote s; last := Some r |} in
  match quote s with
  | None =>
      if is_quote r then {| parts := parts s; current := current s; quote := Some r; last := Some r |}
      else if is_space r then {| parts := flush (parts s) (current s); current := ""; quote := None; last := Some r |}
      else keep
  | Some q =>
      if bool_decide (r = q) then
        if bool_decide (last s = Some backslash) then keep
        else {| parts := parts s; current := current s; quote := None; last := Some r |}
      else keep
  end.

Definition ParseCommand (cmdStr : string) : res string (string * list string) :=
  let cmdStr := TrimSpace cmdStr in
  if bool_decide (cmdStr = "") then Err "command string is empty"
  else
    let s := foldl parse_rune {| parts := []; current := ""; quote := None; last := None |} (String.list_ascii_of_string cmdStr) in
    let ps := flush (parts s) (current s) in
    if quote s then Err "unclosed quote in command string"
    else match ps with
         | [] => Err "no command found"
         | c :: args => Ok (c, args)
         end.

(** ** Facts *)

(** What follows the separator is the command and its arguments as they are:
    none of them is an option of nsenter. *)
Lemma nsenter_separator opts command args :
  ∃ flags, buildNsenterArgs opts command args = flags ++ "--" :: command :: args ∧
           Forall (λ f, f = hostPID ∨ HasPrefix f "--" = true ∧ (f = "--" → "" ∈ Namespaces opts)) flags.
Proof.
  unfold buildNsenterArgs. exists (["--target"; hostPID] ++ ((λ ns, "--" +:+ ns) <$> namespaces opts)).
  split; [by rewrite <- !app_assoc|]. apply Forall_app. split.
  - apply Forall_cons. split; [right; by split|]. apply Forall_singleton. by left.
  - apply Forall_fmap, Forall_forall. intros n Hn. right. split; [apply HasPrefix_app|]. intros Heq.
    assert (n = "") as -> by (by injection Heq). unfold namespaces in Hn. case_bool_decide; [done|].
    exfalso. repeat (apply elem_of_cons in Hn as [Hn|Hn]; [done|]). by apply elem_of_nil in Hn.
Qed.

(** A word that needs no quotes. *)
Definition plain_word (w : string) : Prop :=
  w ≠ "" ∧ Forall (λ c, is_quote c = false ∧ is_space c = false) (String.list_ascii_of_string w).

Lemma parse_plain w s :
  quote s = None → Forall (λ c, is_quote c = false ∧ is_space c = false) (String.list_ascii_of_string w) →
  ∃ l, foldl parse_rune s (String.list_ascii_of_string w) =
       {| parts := parts s; current := current s +:+ w; quote := None; last := l |}.
Proof.
  revert s. induction w as [|c w IH]; intros s Hq Hf; simpl.
  - exists (last s). destruct s as [p cu q l]. simpl in *. rewrite app_empty_r. congruence.
  - simpl in Hf. apply Forall_cons in Hf as [[Hc1 Hc2] Hf]. unfold parse_rune at 2. rewrite Hq, Hc1, Hc2.
    destruct (IH {| parts := parts s; current := current s +:+ String c ""; quote := None; last := Some c |} eq_refl Hf) as [l Hl].
    exists l. rewrite Hl. simpl. by rewrite app_assoc_str.
Qed.

Lemma parse_words w ws s :
  quote s = None → current s = "" → Forall plain_word (w :: ws) →
  ∃ s', foldl parse_rune s (String.list_ascii_of_string (Join (w :: ws) " ")) = s' ∧ quote s' = None ∧
        flush (parts s') (current s') = parts s ++ w :: ws.
Proof.
  revert w s. induction ws as [|w' ws IH]; intros w s Hq Hc [[Hne Hw] Hws]%Forall_cons.
  - destruct (parse_plain w s Hq Hw) as [l Hl]. eexists. split; [simpl; exact Hl|]. split; [done|]. simpl.
    rewrite Hc, app_nil_str. unfold flush. by rewrite bool_decide_true.
  - change (Join (w :: w' :: ws) " ") with (w +:+ String " "%char (Join (w' :: ws) " ")). rewrite list_ascii_app, foldl_app. destruct (parse_plain w s Hq Hw) as [l ->]. rewrite Hc, app_nil_str.
    assert (parse_rune {| parts := parts s; current := w; quote := None; last := l |} " "%char =
            {| parts := parts s ++ [w]; current := ""; quote := None; last := Some " "%char |}) as Hsp.
    { unfold parse_rune. simpl. unfold flush. by rewrite bool_decide_true. }
    cbn [String.list_ascii_of_string foldl]. rewrite Hsp.
    edestruct (IH w') as (s' & Hs' & Hq' & Hf'); [..|exists s'; split; [exact Hs'|]]; [done|done|done|].
    split; [done|]. rewrite Hf'. simpl. by rewrite <- app_assoc.
Qed.

(** The ends of a word without white space are not trimmed. *)
Lemma word_ends w :
  Forall (λ c, is_quote c = false ∧ is_space c = false) (String.list_ascii_of_string w) →
  trim_left is_space w = w ∧ trim_left is_space (rev_str w) = rev_str w.
Proof.
  assert (∀ x, Forall (λ c, is_quote c = false ∧ is_space c = false) (String.list_ascii_of_string x) → trim_left is_space x = x) as H.
  { intros [|c x]; [done|]. simpl. intros [[_ ->] _]%Forall_cons. done. }
  intros Hw. split; [by apply H|]. apply H. unfold rev_str. rewrite String.list_ascii_of_string_of_list_ascii.
  by apply Forall_reverse.
Qed.

(** Words without quotes or white space, joined by blanks, are parsed back to
    the same command and arguments. *)
Theorem parse_command_roundtrip c args :
  Forall plain_word (c :: args) → ParseCommand (Join (c :: args) " ") = Ok (c, args).
Proof.
  intros Hf. assert (TrimSpace (Join (c :: args) " ") = Join (c :: args) " ") as Ht.
  { assert (c ≠ "" ∧ trim_left is_space c = c) as [Hc0 Hc1].
    { apply Forall_cons in Hf as [[? Hc] _]. split; [done|]. by apply word_ends. }
    apply (trim_by_id is_space).
    - assert (∃ t, Join (c :: args) " " = c +:+ t) as [t ->].
      { destruct args as [|a args]; [exists ""; by rewrite app_empty_r|by eexists]. }
      by apply trim_left_app.
    - destruct (c :: args) as [|x l _] eqn:E using rev_ind; [done|].
      apply Forall_app in Hf as [_ [[Hx0 Hx] _]%Forall_cons]. apply word_ends in Hx as [_ Hx].
      assert (∃ t, Join (l ++ [x]) " " = t +:+ x) as [t ->].
      { exists (Join (l ++ [""]) " "). by rewrite Join_snoc. }
      rewrite rev_str_app. apply trim_left_app; [|done]. intros Hr. apply Hx0. by rewrite <- (rev_str_involutive x), Hr. }
  unfold ParseCommand. rewrite Ht. rewrite bool_decide_false.
  2: { apply Forall_cons in Hf as [[Hc _] _]. destruct c; [done|]. by destruct args. }
  destruct (parse_words c args {| parts := []; current := ""; quote := None; last := None |} eq_refl eq_refl Hf) as (s' & -> & Hq & ->).
  by rewrite Hq.
Qed.

Lemma parse_command_roundtrip_witness :
  ParseCommand "show ip route" = Ok ("show", ["ip"; "route"]).
Proof.
  apply (parse_command_roundtrip "show" ["ip"; "route"]).
  repeat (apply Forall_cons; split; [split; [discriminate|repeat (apply Forall_cons; split; [by split|]); by apply Forall_nil]|]).
  by apply Forall_nil.
Defined.
