(* ===== verification/GnoiOs.v ===== *)
(** * Images of the operating system (src/gnmi_server/gnoi_os.go, src/pkg/gnoi/os/os.go)

    Install is a dialogue: a request to transfer, chunks, the end.  A session is
    a state machine that advances with each message; the lock admits one
    session at a time, and several sessions interleave.  The host service is
    reached over D-Bus; the JSON form of messages is a parameter.

    The image is written to a cleaned path and looked up by the path as it was
    built; the kernel resolves dots as [Clean] does where no directory on the
    way is a link, so both are the cleaned path here. *)
From Stdlib Require Import Ascii.
From stdpp Require Import base gmap list strings.
From S2P Require Import Prelude GoStrings Paths Gnmi Redis World Dbus GnsiUtil Auth HostExec Gnoi.

(** ** Messages *)

Inductive InstallErrorType := UNSPECIFIED | INCOMPATIBLE | TOO_LARGE | PARSE_FAIL | INTEGRITY_FAIL | INSTALL_RUN_PACKAGE | INSTALL_IN_PROGRESS.

Inductive InstallRequest :=
| TransferRequest (version : string)
| TransferContent (data : string)
| TransferEnd
| RequestNone.

Inductive InstallResponse :=
| TransferReady
| TransferProgress (bytes_received : Z)
| SyncProgress (percentage : Z)
| Validated (version : string)
| InstallError (type : InstallErrorType) (detail : string)
| ResponseNone.

Definition is_InstallError (r : InstallResponse) : bool := match r with InstallError _ _ => true | _ => false end.

(** Where a session is: waiting for the request, in the transfer with the path
    of its image and whether a chunk was written, or over with its status. *)
Inductive phase :=
| WaitRequest
| Transfer (imgPath : string) (imgTransferInitiated : bool)
| Over (status : option (Code * string)).

Section os_server.
Context {Rd : Redis} {Bu : Bus}.

Class OsCodec := {
  marshal : InstallRequest → res string string;
  unmarshal : string → option InstallResponse
}.
Context {OC : OsCodec} (ImgDir : string).

Record OsState := {
  os_world : World;
  os_bus : DState;
  totalBytesReceived : gmap string Z;
  sem : bool
}.
Notation OM A := (ST OsState A).

Definition lift_files {A} (m : IO A) : OM A := λ s,
  let '(w, a) := m (os_world s) in
  ({| os_world := w; os_bus := os_bus s; totalBytesReceived := totalBytesReceived s; sem := sem s |}, a).
Definition lift_bus {A} (m : ST DState A) : OM A := λ s,
  let '(b, a) := m (os_bus s) in
  ({| os_world := os_world s; os_bus := b; totalBytesReceived := totalBytesReceived s; sem := sem s |}, a).
Definition set_total (f : gmap string Z → gmap string Z) : OM () := modify (λ s,
  {| os_world := os_world s; os_bus := os_bus s; totalBytesReceived := f (totalBytesReceived s); sem := sem s |}).
Definition set_sem (b : bool) : OM () := modify (λ s,
  {| os_world := os_world s; os_bus := os_bus s; totalBytesReceived := totalBytesReceived s; sem := b |}).

Definition plain_error (detail : string) : InstallResponse := InstallError UNSPECIFIED detail.

(** ** Steps of a transfer *)

(** [None]: the host has no such service. *)
Definition processTransferReq (req : InstallRequest) : OM (option InstallResponse) :=
  let version := match req with TransferRequest v => v | _ => "" end in
  if bool_decide (version = "") then
    mret (Some (InstallError PARSE_FAIL "TransferRequest must contain a valid OS version."))
  else match marshal req with
  | Err _ => mret (Some (plain_error "Failed to marshal TransferReady JSON"))
  | Ok reqStr =>
      r ← lift_bus (InstallOS NewDbusClient reqStr);
      mret (match r with
            | Err (Some Unimplemented, _) => None
            | Err _ => Some (plain_error "Error in TransferReady response")
            | Ok respStr => Some (default (plain_error "Failed to unmarshal TransferReady JSON") (unmarshal respStr))
            end)
  end.

Definition processTransferEnd (req : InstallRequest) : OM InstallResponse :=
  match marshal req with
  | Err _ => mret (plain_error "Failed to marshal TransferEnd JSON")
  | Ok reqStr =>
      r ← lift_bus (InstallOS NewDbusClient reqStr);
      mret (match r with
            | Err _ => plain_error "Error in TransferEnd response"
            | Ok respStr => default (plain_error "Failed to unmarshal TransferEnd JSON") (unmarshal respStr)
            end)
  end.

Definition safe_path (imgPath : string) : string :=
  let cleanPath := Clean imgPath in
  if HasPrefix cleanPath "/" then cleanPath else path_Join ImgDir cleanPath.

(** The total is a uint64. *)
Definition add_bytes (safePath : string) (n : Z) : OM Z :=
  t ← gets totalBytesReceived;
  let total := ((default 0 (t !! safePath) + n) mod 2 ^ 64)%Z in
  _ ← set_total <[safePath := total]>;
  mret total.

Definition processTransferContent (transferContent imgPath : string) : OM InstallResponse :=
  let safePath := safe_path imgPath in
  if negb (HasPrefix safePath ImgDir) then mret (plain_error "Invalid image path")
  else
    d ← lift_files (MkdirAll (path_Dir safePath));
    match d with
    | Some _ => mret (plain_error "Failed to create directory for file")
    | None =>
        f ← lift_files (os_OpenAppend safePath);
        match f with
        | Err _ => mret (plain_error "Failed to open file")
        | Ok fd =>
            e ← lift_files (FileAppend fd transferContent);
            match e with
            | Some _ => _ ← lift_files FileClose; mret (plain_error "Failed to write to file")
            | None =>
                e ← lift_files FileClose;
                match e with
                | Some _ => mret (plain_error "Failed to close file after writing")
                | None =>
                    total ← add_bytes safePath (Z.of_nat (String.length transferContent));
                    mret (TransferProgress total)
                end
            end
        end
    end.

Definition getVersionPath (version : string) : string := ImgDir +:+ "/" +:+ version.

Definition imageExists (path : string) : OM bool :=
  r ← lift_files (Lstat (Clean path)); mret (is_ok r).

Definition removeIncompleteTransfer (imgPath : string) : OM () :=
  e ← imageExists imgPath;
  if (e : bool) then _ ← lift_files (os_Remove (Clean imgPath)); mret () else mret ().

(** ** A session *)

(** The deferred calls, in their order: the image, then the lock. *)
Definition finish (p : phase) (st : option (Code * string)) : OM phase :=
  _ ← (match p with
       | Transfer imgPath true => removeIncompleteTransfer imgPath
       | _ => mret ()
       end : OM ());
  _ ← set_sem false;
  mret (Over st).

(** Before the first message; [authenticated] is the outcome of
    [authenticate], [send_ok] whether a message can be sent. *)
Definition Install_start (authenticated : status_res ()) (send_ok : bool) : OM (phase * list InstallResponse) :=
  match authenticated with
  | Err e => mret (Over (Some e), [])
  | Ok _ =>
      locked ← gets sem;
      if (locked : bool) then
        mret (Over (Some (Aborted, "Concurrent Install RPCs are not allowed.")),
              if send_ok then [InstallError INSTALL_IN_PROGRESS "Concurrent Install RPCs are not allowed."] else [])
      else _ ← set_sem true; mret (WaitRequest, [])
  end.

Definition stop (p : phase) (st : option (Code * string)) (resps : list InstallResponse)
  : OM (phase * list InstallResponse) := p' ← finish p st; mret (p', resps).

(** An explicit removal before the deferred one. *)
Definition remove_stop (imgPath : string) (p : phase) (st : Code * string) (resps : list InstallResponse)
  : OM (phase * list InstallResponse) := _ ← removeIncompleteTransfer imgPath; stop p (Some st) resps.

(** A chunk: its file is written and the progress sent. *)
Definition transfer_chunk (imgPath data : string) (send_ok : bool) : OM (phase * list InstallResponse) :=
  resp ← processTransferContent data imgPath;
  if negb send_ok then remove_stop imgPath (Transfer imgPath true) (Aborted, "send") []
  else if is_InstallError resp then
    remove_stop imgPath (Transfer imgPath true) (Aborted, "Failed to process TransferContent.") [resp]
  else mret (Transfer imgPath true, [resp]).

(** The first chunk finds out whether the image exists. *)
Definition first_chunk (imgPath data : string) (initiated send_ok : bool) : OM (phase * list InstallResponse) :=
  if initiated then transfer_chunk imgPath data send_ok
  else
    e ← imageExists imgPath;
    if (e : bool) then stop (Transfer imgPath false) (Some (Aborted, "Image already exists")) []
    else transfer_chunk imgPath data send_ok.

Definition Install_recv (p : phase) (msg : recv InstallRequest) (send_ok : bool) : OM (phase * list InstallResponse) :=
  match p with
  | Over _ => mret (p, [])
  | WaitRequest =>
      match msg with
      | REOF => stop p None []
      | RCanceled | RErr _ => stop p (Some (Aborted, "recv")) []
      | RMsg (TransferRequest version) =>
          r ← processTransferReq (TransferRequest version);
          match r with
          | None => stop p (Some (Unimplemented, "OS Install not supported")) []
          | Some resp =>
              if negb send_ok then stop p (Some (Aborted, "send")) []
              else if is_InstallError resp then stop p (Some (Aborted, "Failed to process TransferRequest.")) [resp]
              else mret (Transfer (getVersionPath version) false, [resp])
          end
      | RMsg _ => stop p (Some (InvalidArgument, "Expected TransferRequest.")) []
      end
  | Transfer imgPath initiated =>
      match msg with
      | REOF => stop p (Some (Aborted, "Stream closed prematurely during transfer.")) []
      | RCanceled | RErr _ => stop p (Some (Aborted, "recv")) []
      | RMsg (TransferRequest _) => stop p (Some (InvalidArgument, "Expected TransferContent, or TransferEnd.")) []
      | RMsg TransferEnd =>
          resp ← processTransferEnd TransferEnd;
          if negb send_ok then remove_stop imgPath p (Aborted, "send") []
          else if is_InstallError resp then remove_stop imgPath p (Aborted, "Failed to process TransferEnd.") [resp]
          else stop p None [resp]
      | RMsg (TransferContent d) => first_chunk imgPath d initiated send_ok
      | RMsg RequestNone => first_chunk imgPath "" initiated send_ok
      end
  end.

(** The messages of a session, each with whether the answer could be sent. *)
Fixpoint Install_run (p : phase) (msgs : list (recv InstallRequest * bool)) : OM (phase * list InstallResponse) :=
  match msgs with
  | [] => mret (p, [])
  | (msg, send_ok) :: msgs =>
      x ← Install_recv p msg send_ok;
      y ← Install_run x.1 msgs;
      mret (y.1, x.2 ++ y.2)
  end.

(** ** Several sessions *)

Inductive os_event :=
| Begin (pid : nat) (authenticated : status_res ()) (send_ok : bool)
| Receive (pid : nat) (msg : recv InstallRequest) (send_ok : bool).

Record OsSys := { os_state : OsState; sessions : gmap nat phase }.

Definition os_step (s : OsSys) (e : os_event) : OsSys :=
  match e with
  | Begin pid a send_ok =>
      match sessions s !! pid with
      | Some _ => s
      | None =>
          let '(st, (p, _)) := Install_start a send_ok (os_state s) in
          {| os_state := st; sessions := <[pid := p]> (sessions s) |}
      end
  | Receive pid msg send_ok =>
      match sessions s !! pid with
      | None => s
      | Some p =>
          let '(st, (p', _)) := Install_recv p msg send_ok (os_state s) in
          {| os_state := st; sessions := <[pid := p']> (sessions s) |}
      end
  end.

(** ** Activate and Verify *)

Inductive ActivateError := NON_EXISTENT_VERSION | ACTIVATE_UNSPECIFIED.
Inductive ActivateResponse := ActivateOk | ActivateErr (type : ActivateError) (detail : string).

Definition os_Activate (image : string) : ST DState (status_res ActivateResponse) :=
  e ← ActivateImage NewDbusClient image;
  mret (Ok (match e with
            | None => ActivateOk
            | Some err =>
                if Contains (ToLower err) "not" && Contains (ToLower err) "exist"
                then ActivateErr NON_EXISTENT_VERSION err
                else ActivateErr ACTIVATE_UNSPECIFIED err
            end)).

(** [parse_images]: the JSON object of images, each a string or something
    else. *)
Definition os_Verify (parse_images : string → option (gmap string (option string))) : ST DState (status_res string) :=
  r ← ListImages NewDbusClient;
  mret (match r with
        | Err e => Err (Unknown, e)
        | Ok image_json =>
            match parse_images image_json with
            | None => Err (Unknown, "unmarshal")
            | Some images =>
                match images !! "current" with
                | None => Err (Internal, "Key 'current' not found in images")
                | Some None => Err (Internal, "Failed to assert current image as string")
                | Some (Some current_image) => Ok current_image
                end
            end
        end).

Definition Activate_rpc (A : AuthEnv) (now : Z) (cfg : AuthConfig) (r : Request) (image : string) :=
  authed A now cfg r true (os_Activate image).
Definition Verify_rpc (A : AuthEnv) (now : Z) (cfg : AuthConfig) (r : Request) parse_images :=
  authed A now cfg r false (os_Verify parse_images).
End os_server.

(** ** The handler of the package (src/pkg/gnoi/os/os.go) *)

Definition newline : string := String (ascii_of_nat 10) "".

Definition current_of (line : string) : option string :=
  let line := TrimSpace line in
  if HasPrefix line "Current:" then
    match SplitN2 line ":" with
    | [_; v] => let version := TrimSpace v in if bool_decide (version ≠ "") then Some version else None
    | _ => None
    end
  else None.

Definition parseCurrentVersion (output : string) : res string string :=
  of_option "could not find 'Current:' line in sonic-installer output" (head (omap current_of (Split output newline))).

Definition verify_result (run : res string HostResult) : status_res string :=
  match run with
  | Err _ => Err (Internal, "failed to execute sonic-installer")
  | Ok r =>
      if hr_failed r then Err (Internal, "sonic-installer failed")
      else match parseCurrentVersion (hr_stdout r) with
           | Err _ => Err (Internal, "failed to parse version information")
           | Ok v => Ok v
           end
  end.

Definition HandleVerify {H} (exec_Run : Exec → H → H * Outcome) : ST H (status_res string) :=
  run ← RunHostCommand exec_Run "sonic-installer" ["list"] None;
  mret (verify_result run).

(** * Facts about the installation of images

    During a transfer the image is exactly what was sent so far, no other file
    changes, and nothing is left when the session is over; one session at a
    time holds the lock. *)

(** ** Calls on one file *)

(** Opens a call at a world [w]: its fault is [f] and the rest of the list [l]. *)
Ltac open_call w l f Hq := destruct (next_fault_eq w) as (l & f & -> & Hq); cbn.

Section one_file.
Context {Rd : Redis} (img : string).

(** Only [img] may change, and calls that met no fault meet none later. *)
Record touches (w w' : World) : Prop := {
  tc_keep : ∀ q, q ≠ img → fs w' !! q = fs w !! q;
  tc_quiet : quiet w → quiet w';
  tc_link : no_link (fs w) img → no_link (fs w') img
}.

Global Instance touches_refl : Reflexive touches.
Proof. by split. Qed.
Global Instance touches_trans : Transitive touches.
Proof. intros w1 w2 w3 [] []. split; [|auto|auto]. intros q Hq. by rewrite tc_keep1, tc_keep0. Qed.

Lemma touches_fault w : touches w (next_fault w).1.
Proof. unfold next_fault, quiet. destruct w as [m d [|f l]]; split; simpl; done. Qed.

Lemma touches_same w w' : fs w' = fs w → (quiet w → quiet w') → touches w w'.
Proof. intros H ?. split; [by rewrite H|done|by rewrite H]. Qed.

Lemma MkdirAll_touches p w : touches w (MkdirAll p w).1 ∧ fs (MkdirAll p w).1 = fs w.
Proof. split; [|apply MkdirAll_fs]. unfold MkdirAll, mbind, ST_bind. pose proof (touches_fault w). by destruct (next_fault w). Qed.
Lemma FileClose_touches w : touches w (FileClose w).1 ∧ fs (FileClose w).1 = fs w.
Proof. split; [|apply FileClose_fs]. unfold FileClose, mbind, ST_bind. pose proof (touches_fault w). by destruct (next_fault w). Qed.
Lemma Lstat_touches p w : touches w (Lstat p w).1 ∧ fs (Lstat p w).1 = fs w.
Proof.
  split; [|apply Lstat_fs]. unfold Lstat, mbind, ST_bind. pose proof (touches_fault w). destruct (next_fault w) as [w' f].
  by destruct f.
Qed.
Lemma Lstat_quiet p w : quiet w → is_ok (Lstat p w).2 = bool_decide (is_Some (fs w !! p)).
Proof.
  unfold quiet, Lstat, mbind, ST_bind, next_fault. intros ->. simpl. by destruct (fs w !! p).
Qed.

Definition file_data (o : option inode) : string := match o with Some (Reg d) => d | _ => "" end.

Lemma touches_insert w l d : (quiet w → l = []) → touches w {| fs := <[img := Reg d]> (fs w); db := db w; faults := l |}.
Proof.
  intros Hl. split; simpl; [|done|].
  - intros q Hq. by rewrite lookup_insert_ne.
  - intros _ t. simpl. by rewrite lookup_insert_eq.
Qed.

Lemma OpenAppend_touches w :
  no_link (fs w) img →
  let '(w', r) := os_OpenAppend img w in
  touches w w' ∧ match r with
                 | Ok fd => fd = img ∧ fs w' !! img = Some (Reg (file_data (fs w !! img)))
                 | Err _ => True
                 end.
Proof.
  intros Hl. unfold os_OpenAppend, mbind, ST_bind, gets, modify, mret, ST_ret. open_call w l f Hq. rewrite resolve_no_link by done.
  assert (∀ b, touches w {| fs := fs w; db := b; faults := l |}) as Hs by (intros b; apply touches_same; [done|naive_solver]).
  destruct f; simpl; [|split; [apply Hs|done]..]. destruct (fs w !! img) as [[d|t]|] eqn:Hi; [|by destruct (Hl t)|].
  - unfold set_fs. simpl. rewrite Hi. split; [apply Hs|]. done.
  - unfold set_fs. simpl. rewrite Hi, lookup_insert_eq. split; [|done]. apply touches_insert. naive_solver.
Qed.

Lemma FileAppend_touches data d w :
  fs w !! img = Some (Reg d) →
  let '(w', r) := FileAppend img data w in
  touches w w' ∧ (r = None → fs w' !! img = Some (Reg (d +:+ data))).
Proof.
  intros Hd. pose proof (FileAppend_spec img data d w Hd) as Hs.
  assert (quiet w → quiet (FileAppend img data w).1) as Hq.
  { unfold FileAppend, mbind, ST_bind. open_call w l f Hq. intros H. destruct (Hq H) as [-> ->]. done. }
  destruct (FileAppend img data w) as [w' r]. destruct Hs as (d' & Hfs & Hr). split.
  - split; [..|done|].
    + intros q Hne. by rewrite Hfs, lookup_insert_ne.
    + intros _ t. by rewrite Hfs, lookup_insert_eq.
  - intros Hn. by rewrite Hfs, lookup_insert_eq, Hr.
Qed.

Lemma os_Remove_touches w :
  let '(w', e) := os_Remove img w in
  touches w w' ∧ (quiet w → fs w' = delete img (fs w)).
Proof.
  destruct (os_Remove img w) as [w' e] eqn:E. pose proof (Remove_run w img w' e E) as (Hev & Hok & Hq).
  destruct Hev as [_ Hquiet _ Hkeep]. split; [split; [..|done|]|].
  - intros q Hne. apply Hkeep. by intros ->%list_elem_of_singleton.
  - intros Hl t. pose proof (os_Remove_spec img w) as Hs. rewrite E in Hs. destruct Hs as [[_ ->]|[_ ->]]; [|apply Hl].
    by rewrite lookup_delete_eq.
  - intros Hqt. pose proof (os_Remove_spec img w) as Hs. rewrite E in Hs. destruct Hs as [[_ ->]|[[x Hx] Hs]]; [done|].
    rewrite Hs. destruct (fs w !! img) eqn:Hi; [|by rewrite delete_id]. rewrite Hq in Hx; done.
Qed.
End one_file.
Arguments touches_trans {_} _.

(** ** Steps of a session *)
Section os_facts.
Context {Rd : Redis} {Bu : Bus} {OC : OsCodec} (ImgDir : string).

(** What a step of the server does beside the bus and the totals. *)
Record steps (img : string) (s s' : OsState) : Prop := {
  st_files : touches img (os_world s) (os_world s');
  st_sem : sem s' = sem s
}.

#[local] Instance steps_trans img : Transitive (steps img).
Proof. intros s1 s2 s3 [H1 ?] [H2 ?]. split; [by etransitivity|congruence]. Qed.

Lemma steps_refl img s : steps img s s.
Proof. by split. Qed.

(** Calls on files, and on the bus. *)
Lemma lift_files_steps {A} img (m : IO A) s :
  touches img (os_world s) (m (os_world s)).1 → steps img s (lift_files m s).1.
Proof. unfold lift_files. destruct (m (os_world s)). by split. Qed.

Lemma lift_files_out {A} (m : IO A) s :
  os_world (lift_files m s).1 = (m (os_world s)).1 ∧ (lift_files m s).2 = (m (os_world s)).2.
Proof. unfold lift_files. by destruct (m (os_world s)). Qed.

Lemma lift_bus_world {A} (m : ST DState A) s : os_world (lift_bus m s).1 = os_world s ∧ sem (lift_bus m s).1 = sem s.
Proof. unfold lift_bus. by destruct (m (os_bus s)). Qed.

Lemma lift_bus_steps {A} img (m : ST DState A) s : steps img s (lift_bus m s).1.
Proof. destruct (lift_bus_world m s) as [H1 H2]. split; [by rewrite H1|done]. Qed.

Lemma processTransferReq_world img r s :
  steps img s (processTransferReq r s).1 ∧ os_world (processTransferReq r s).1 = os_world s.
Proof.
  unfold processTransferReq. case_bool_decide; [done|]. destruct (marshal r) as [q|]; [|done]. unfold mbind, ST_bind.
  pose proof (lift_bus_steps img (InstallOS NewDbusClient q) s). pose proof (lift_bus_world (InstallOS NewDbusClient q) s) as [? _].
  by destruct (lift_bus _ s) as [s' x].
Qed.

Lemma processTransferEnd_world img r s :
  steps img s (processTransferEnd r s).1 ∧ os_world (processTransferEnd r s).1 = os_world s.
Proof.
  unfold processTransferEnd. destruct (marshal r) as [q|]; [|done]. unfold mbind, ST_bind.
  pose proof (lift_bus_steps img (InstallOS NewDbusClient q) s). pose proof (lift_bus_world (InstallOS NewDbusClient q) s) as [? _].
  by destruct (lift_bus _ s) as [s' x].
Qed.

Lemma processTransferContent_spec data ip s :
  no_link (fs (os_world s)) (safe_path ImgDir ip) →
  let img := safe_path ImgDir ip in
  let '(s', r) := processTransferContent ImgDir data ip s in
  steps img s s' ∧
  (is_InstallError r = false →
   HasPrefix img ImgDir = true ∧ fs (os_world s') !! img = Some (Reg (file_data (fs (os_world s) !! img) +:+ data))).
Proof.
  cbv zeta. intros Hl. unfold processTransferContent. set (img := safe_path ImgDir ip) in *.
  destruct (HasPrefix img ImgDir) eqn:Hpre; [|done]. simpl. unfold mbind, ST_bind.
  pose proof (MkdirAll_touches img (path_Dir img) (os_world s)) as [Ht1 Hf1].
  pose proof (lift_files_steps img _ s Ht1) as Hs1. destruct (lift_files_out (MkdirAll (path_Dir img)) s) as [Hw1 _].
  destruct (lift_files (MkdirAll _) s) as [s1 [e|]]; simpl in *; [done|]. rewrite <- Hw1 in Hf1.
  rewrite <- Hf1 in Hl. pose proof (OpenAppend_touches img (os_world s1) Hl) as Ho.
  destruct (lift_files_out (os_OpenAppend img) s1) as [Hw2 Hr2]. pose proof (lift_files_steps img (os_OpenAppend img) s1) as Hs2.
  destruct (os_OpenAppend img (os_world s1)) as [w2 r2]. destruct Ho as [Ht2 Ho]. specialize (Hs2 Ht2).
  destruct (lift_files (os_OpenAppend img) s1) as [s2 r2']; simpl in *; subst r2'.
  assert (steps img s s2) as Hs02 by (by etransitivity). destruct r2 as [fd|]; [|done]. destruct Ho as [-> Ho]. rewrite Hf1, <- Hw2 in Ho.
  pose proof (FileAppend_touches img data _ _ Ho) as Ha.
  destruct (lift_files_out (FileAppend img data) s2) as [Hw3 Hr3]. pose proof (lift_files_steps img (FileAppend img data) s2) as Hs3.
  destruct (FileAppend img data (os_world s2)) as [w3 r3]. destruct Ha as [Ht3 Ha]. specialize (Hs3 Ht3).
  destruct (lift_files (FileAppend img data) s2) as [s3 r3']; simpl in *; subst r3'. assert (steps img s s3) as Hs03 by (by etransitivity).
  pose proof (FileClose_touches img (os_world s3)) as [Ht4 Hf4]. pose proof (lift_files_steps img _ s3 Ht4) as Hs4.
  destruct (lift_files_out FileClose s3) as [Hw4 _].
  destruct r3 as [e|]; [destruct (lift_files FileClose s3) as [s4 ?]; split; [by etransitivity|done]|].
  destruct (lift_files FileClose s3) as [s4 [e|]]; simpl in *; [split; [by etransitivity|done]|].
  split; [destruct Hs4; split; [by etransitivity; [apply Hs03|]|simpl; rewrite st_sem0; apply Hs03]|].
  intros _. split; [done|]. by rewrite Hw4, Hf4, Hw3, Ha.
Qed.

Lemma imageExists_spec ip s :
  let '(s', b) := imageExists ip s in
  steps (Clean ip) s s' ∧ fs (os_world s') = fs (os_world s) ∧
  (quiet (os_world s) → b = bool_decide (is_Some (fs (os_world s) !! Clean ip))).
Proof.
  unfold imageExists, mbind, ST_bind. pose proof (Lstat_touches (Clean ip) (Clean ip) (os_world s)) as [Ht Hf].
  pose proof (lift_files_steps _ _ s Ht) as Hs. destruct (lift_files_out (Lstat (Clean ip)) s) as [Hw Hr].
  pose proof (Lstat_quiet (Clean ip) (os_world s)) as Hq.
  destruct (lift_files (Lstat (Clean ip)) s) as [s' r]. simpl in *. subst r. rewrite Hw. auto.
Qed.

Lemma removeIncompleteTransfer_spec ip s :
  let s' := (removeIncompleteTransfer ip s).1 in
  steps (Clean ip) s s' ∧ (quiet (os_world s) → fs (os_world s') = delete (Clean ip) (fs (os_world s))).
Proof.
  cbv zeta. unfold removeIncompleteTransfer, mbind, ST_bind. pose proof (imageExists_spec ip s) as He.
  destruct (imageExists ip s) as [s1 b]. destruct He as (Hs1 & Hf1 & Hb). destruct b.
  - pose proof (os_Remove_touches (Clean ip) (os_world s1)) as Hr. destruct (lift_files_out (os_Remove (Clean ip)) s1) as [Hw _].
    pose proof (lift_files_steps (Clean ip) (os_Remove (Clean ip)) s1) as Hs2. destruct (os_Remove (Clean ip) (os_world s1)) as [w2 e].
    destruct Hr as [Ht Hd]. specialize (Hs2 Ht). destruct (lift_files (os_Remove (Clean ip)) s1) as [s2 ?]. simpl in *.
    split; [by etransitivity|]. intros Hq. rewrite Hw, Hd by (by apply Hs1). by rewrite Hf1.
  - split; [done|]. intros Hq. simpl. rewrite Hf1. specialize (Hb Hq). symmetry in Hb. apply bool_decide_eq_false in Hb.
    rewrite delete_id; [done|]. by apply eq_None_not_Some.
Qed.

(** The end of a session: its image is gone, whether or not it was removed
    before. *)
Lemma finish_transfer ip b st s :
  let '(s', p) := finish (Transfer ip b) st s in
  p = Over st ∧ sem s' = false ∧ touches (Clean ip) (os_world s) (os_world s') ∧
  (quiet (os_world s) → fs (os_world s') = if b then delete (Clean ip) (fs (os_world s)) else fs (os_world s)).
Proof.
  unfold finish, mbind, ST_bind. destruct b; [|done]. pose proof (removeIncompleteTransfer_spec ip s) as [Hs Hf].
  destruct (removeIncompleteTransfer ip s) as [s1 []]. simpl in *. destruct Hs. done.
Qed.

(** [finish] after an earlier removal. *)
Lemma remove_finish ip b st s :
  let s1 := (removeIncompleteTransfer ip s).1 in
  let '(s', p) := finish (Transfer ip b) st s1 in
  p = Over st ∧ sem s' = false ∧ touches (Clean ip) (os_world s) (os_world s') ∧
  (quiet (os_world s) → fs (os_world s') = delete (Clean ip) (fs (os_world s))).
Proof.
  cbv zeta. pose proof (removeIncompleteTransfer_spec ip s) as [Hs Hf]. pose proof (finish_transfer ip b st (removeIncompleteTransfer ip s).1) as H.
  destruct (removeIncompleteTransfer ip s) as [s1 []]. simpl in *. destruct (finish (Transfer ip b) st s1) as [s2 p].
  destruct H as (-> & Hsem & Ht & Hfs). split; [done|]. split; [done|]. destruct Hs as [Ht1 _]. split; [by etransitivity|]. intros Hq.
  rewrite Hfs by (by apply Ht1). rewrite Hf by done. destruct b; [|done]. by rewrite (delete_id (delete _ _)) by apply lookup_delete_eq.
Qed.

(** *** One message of a transfer *)

(** The image of a transfer that began on the files [m0], after [data].  Where
    no call fails ([Q]) it begins only if there was no image. *)
Definition transferring (m0 : gmap string inode) (img : string) (Q : Prop) (b : bool) (data : string) (s : OsState)
  : Prop :=
  (∀ q, q ≠ img → fs (os_world s) !! q = m0 !! q) ∧ no_link m0 img ∧
  if b then fs (os_world s) !! img = Some (Reg (file_data (m0 !! img) +:+ data)) ∧ HasPrefix img ImgDir = true ∧
            (Q → m0 !! img = None)
  else fs (os_world s) !! img = m0 !! img ∧ data = "".

(** Over: every other file is as it was, and without faults so is the image,
    unless it was removed for the reason [R]. *)
Definition restored (m0 : gmap string inode) (img : string) (Q R : Prop) (s : OsState) : Prop :=
  (∀ q, q ≠ img → fs (os_world s) !! q = m0 !! q) ∧
  (Q → fs (os_world s) = m0 ∨ R ∧ fs (os_world s) = delete img m0).

Lemma touched_restored m0 img b data s s' (Q R : Prop) :
  transferring m0 img Q b data s → touches img (os_world s) (os_world s') →
  (Q → quiet (os_world s)) → (quiet (os_world s) → fs (os_world s') = if b then delete img (fs (os_world s)) else fs (os_world s)) →
  restored m0 img Q R s'.
Proof.
  intros (Hk & Hm & Hb) Ht Hq Hf. split; [intros q Hne; rewrite (tc_keep _ _ _ Ht) by done; auto|].
  intros HQ. left. rewrite Hf by auto. apply map_eq. intros q. destruct (decide (q = img)) as [->|Hne].
  - destruct b; [|apply Hb]. destruct Hb as (_ & _ & Hn). by rewrite lookup_delete_eq, Hn.
  - destruct b; rewrite ?lookup_delete_ne by done; auto.
Qed.

(** A chunk leaves the lock alone. *)
Lemma content_sem ip d s : sem (processTransferContent ImgDir d ip s).1 = sem s.
Proof.
  assert (∀ A (m : IO A) s1, sem (lift_files m s1).1 = sem s1) as Hl by (intros A m s1; unfold lift_files; by destruct (m (os_world s1))).
  unfold processTransferContent. destruct (negb _); [done|]. rewrite bind_ST.
  match goal with |- context [lift_files ?m s] => pose proof (Hl _ m s); destruct (lift_files m s) as [s1 [|]] end; [done|]. rewrite bind_ST.
  match goal with |- context [lift_files ?m s1] => pose proof (Hl _ m s1); destruct (lift_files m s1) as [s2 [fd|]] end; [|simpl in *; congruence].
  rewrite bind_ST. pose proof (Hl _ (FileAppend fd d) s2). destruct (lift_files (FileAppend fd d) s2) as [s3 [|]]; rewrite bind_ST;
    pose proof (Hl _ FileClose s3); destruct (lift_files FileClose s3) as [s4 [|]]; simpl in *; congruence.
Qed.

Definition content_of (m : recv InstallRequest) : string := match m with RMsg (TransferContent d) => d | _ => "" end.

Lemma deleted_restored m0 img b data s s2 s' (Q R : Prop) :
  transferring m0 img Q b data s → touches img (os_world s) (os_world s2) → touches img (os_world s2) (os_world s') →
  (Q → quiet (os_world s)) → (quiet (os_world s2) → fs (os_world s') = delete img (fs (os_world s2))) →
  (Q → m0 !! img = None ∨ R) → restored m0 img Q R s'.
Proof.
  intros (Hk & Hm & _) H1 H2 Hq Hf HR.
  assert (∀ q, q ≠ img → fs (os_world s2) !! q = m0 !! q) as Hk2 by (intros q Hne; rewrite (tc_keep _ _ _ H1) by done; auto).
  split; [intros q Hne; rewrite (tc_keep _ _ _ H2) by done; auto|].
  intros HQ. assert (fs (os_world s') = delete img m0) as ->.
  { rewrite Hf by (apply H1; auto). apply map_eq. intros q. destruct (decide (q = img)) as [->|Hne].
    - by rewrite !lookup_delete_eq.
    - rewrite !lookup_delete_ne by done. auto. }
  destruct (HR HQ) as [Hn|?]; [left; by rewrite delete_id|by right].
Qed.

Section session.
Context (ip : string) (Hsafe : safe_path ImgDir ip = Clean ip) (m0 : gmap string inode) (Q : Prop).

(** The outcome of a message: the transfer goes on with more data, or ends with
    the files restored and the lock free. *)
Definition outcome (R : Prop) (data : string) (s : OsState) (x : OsState * (phase * list InstallResponse)) : Prop :=
  (x.2.1 = Transfer ip true ∧ transferring m0 (Clean ip) Q true data x.1 ∧ (Q → quiet (os_world x.1)) ∧ sem x.1 = sem s) ∨
  (∃ st, x.2.1 = Over st ∧ restored m0 (Clean ip) Q R x.1 ∧ sem x.1 = false).

Lemma stop_outcome R b data data' st resps s :
  transferring m0 (Clean ip) Q b data s → (Q → quiet (os_world s)) →
  outcome R data' s (stop (Transfer ip b) st resps s).
Proof.
  intros Ht Hq. right. unfold stop, mbind, ST_bind. pose proof (finish_transfer ip b st s) as H.
  destruct (finish (Transfer ip b) st s) as [s' p]. destruct H as (-> & Hsem & Htc & Hf). exists st. simpl.
  split; [done|]. split; [|done]. by eapply touched_restored.
Qed.

(** A removal before the end, in a state [s2] reached from a transfer. *)
Lemma removed_outcome R b b' data data' st resps s s2 :
  transferring m0 (Clean ip) Q b data s → (Q → quiet (os_world s)) → steps (Clean ip) s s2 →
  (Q → m0 !! Clean ip = None ∨ R) →
  outcome R data' s (remove_stop ip (Transfer ip b') st resps s2).
Proof.
  intros Ht Hq Hs HR. right. unfold remove_stop, stop, mbind, ST_bind. pose proof (remove_finish ip b' (Some st) s2) as H. cbv zeta in H.
  destruct (removeIncompleteTransfer ip s2) as [s3 []]. simpl in H. destruct (finish (Transfer ip b') (Some st) s3) as [s' p].
  destruct H as (-> & Hsem & Htc & Hf). exists (Some st). simpl. split; [done|]. split; [|done].
  eapply deleted_restored; [exact Ht|apply Hs|exact Htc|done|done|done].
Qed.

Lemma content_outcome R b data d ok s :
  transferring m0 (Clean ip) Q b data s → (Q → quiet (os_world s)) → (Q → m0 !! Clean ip = None) →
  outcome R (data +:+ d) s (transfer_chunk ImgDir ip d ok s).
Proof.
  intros Ht Hq Hnew. pose proof (processTransferContent_spec d ip s) as Hp. rewrite Hsafe in Hp.
  assert (no_link (fs (os_world s)) (Clean ip)) as Hl.
  { destruct Ht as (_ & Hn & Hb). destruct b; intros t; destruct Hb as [-> _]; [done|apply Hn]. }
  specialize (Hp Hl). cbv zeta in Hp. unfold transfer_chunk. rewrite bind_ST. destruct (processTransferContent ImgDir d ip s) as [s2 resp].
  destruct Hp as [Hs Hok]. destruct ok; simpl; [|by apply (removed_outcome R b true data); auto].
  destruct (is_InstallError resp); [by apply (removed_outcome R b true data); auto|]. destruct (Hok eq_refl) as [Hpre Hfile].
  left. simpl. split; [done|]. split; [|split; [intros HQ; apply Hs; auto|apply Hs]].
  destruct Ht as (Hk & Hm & Hb). split; [intros q Hne; rewrite (tc_keep _ _ _ (st_files _ _ _ Hs)) by done; auto|]. split; [done|].
  split; [|done]. rewrite Hfile. destruct b; destruct Hb as [-> Hb]; simpl; [by rewrite app_assoc_str|]. by rewrite Hb, app_nil_str.
Qed.

(** Why an image that was there before may be gone: the first message ends the
    transfer, and the answer is an error or cannot be sent. *)
Definition end_fails (b : bool) (msg : recv InstallRequest) (ok : bool) (s : OsState) : Prop :=
  b = false ∧ msg = RMsg TransferEnd ∧ (ok = false ∨ is_InstallError (processTransferEnd TransferEnd s).2 = true).

Lemma recv_outcome b data msg ok s :
  transferring m0 (Clean ip) Q b data s → (Q → quiet (os_world s)) →
  outcome (end_fails b msg ok s) (data +:+ content_of msg) s (Install_recv ImgDir (Transfer ip b) msg ok s).
Proof.
  intros Ht Hq. set (R := end_fails b msg ok s). unfold Install_recv.
  assert (∀ d, outcome R (data +:+ d) s (first_chunk ImgDir ip d b ok s)) as Hcontent.
  { intros d. unfold first_chunk. destruct b; [apply (content_outcome R true); [done..|]; by destruct Ht as (_ & _ & _ & _ & ?)|].
    rewrite bind_ST. pose proof (imageExists_spec ip s) as He. destruct (imageExists ip s) as [s1 e]. destruct He as (Hs & Hf & Hex).
    assert (transferring m0 (Clean ip) Q false data s1) as Ht1 by (unfold transferring in *; by rewrite Hf).
    assert (Q → quiet (os_world s1)) as Hq1 by (intros HQ; apply Hs; auto).
    assert (∀ x, outcome R (data +:+ d) s1 x → outcome R (data +:+ d) s x) as Hweak.
    { intros x [(? & ? & ? & Hsem)|?]; [left|by right]. rewrite Hsem, (st_sem _ _ _ Hs). done. }
    apply Hweak. destruct e; [by apply (stop_outcome R false data)|]. apply (content_outcome R false); [done..|].
    intros HQ. destruct Ht as (_ & _ & Himg & _). rewrite <- Himg. specialize (Hex (Hq HQ)). symmetry in Hex.
    apply bool_decide_eq_false in Hex. by apply eq_None_not_Some. }
  destruct msg as [[v|d| |]| | |e]; try apply Hcontent; try by apply (stop_outcome R b data).
  assert (ok = false ∨ is_InstallError (processTransferEnd TransferEnd s).2 = true → Q → m0 !! Clean ip = None ∨ R) as HR.
  { intros Hfail HQ. destruct b; [left; destruct Ht as (_ & _ & _ & _ & Hn); auto|by right]. }
  rewrite bind_ST. pose proof (processTransferEnd_world (Clean ip) TransferEnd s) as [Hs Hw].
  destruct (processTransferEnd TransferEnd s) as [s1 resp] eqn:Hend. simpl in Hs, Hw, HR.
  destruct ok; simpl; [|apply (removed_outcome R b b data); auto].
  destruct (is_InstallError resp); [apply (removed_outcome R b b data); auto|].
  assert (transferring m0 (Clean ip) Q b data s1) as Ht1 by (unfold transferring in *; by rewrite Hw).
  destruct (stop_outcome R b data (data +:+ "") None [resp] s1 Ht1) as [(? & ? & ? & Hsem)|?]; [by rewrite Hw| |by right].
  left. rewrite Hsem, (st_sem _ _ _ Hs). done.
Qed.
End session.

(** *** A whole session *)

(** What the messages of a session carry. *)
Definition contents (msgs : list (recv InstallRequest * bool)) : string := Join ((λ m, content_of m.1) <$> msgs) "".

Lemma contents_cons m ok msgs : contents ((m, ok) :: msgs) = content_of m +:+ contents msgs.
Proof. unfold contents. destruct msgs; [by rewrite app_empty_r|done]. Qed.

Lemma run_over st msgs s : ∃ resps, Install_run ImgDir (Over st) msgs s = (s, (Over st, resps)).
Proof.
  induction msgs as [|[m ok] msgs [resps IH]]; [by eexists|].
  exists resps. cbn [Install_run]. unfold mbind, ST_bind. cbn. by rewrite IH.
Qed.

(** The reason above for the first message of a session. *)
Definition end_failed (b : bool) (msgs : list (recv InstallRequest * bool)) (s : OsState) : Prop :=
  match msgs with [] => False | (m, ok) :: _ => end_fails b m ok s end.

Lemma run_outcome ip m0 Q b data msgs s :
  safe_path ImgDir ip = Clean ip → transferring m0 (Clean ip) Q b data s → (Q → quiet (os_world s)) →
  let '(s', (p, _)) := Install_run ImgDir (Transfer ip b) msgs s in
  (p = Transfer ip (b || bool_decide (msgs ≠ [])) ∧
   transferring m0 (Clean ip) Q (b || bool_decide (msgs ≠ [])) (data +:+ contents msgs) s' ∧ sem s' = sem s) ∨
  (∃ st, p = Over st ∧ restored m0 (Clean ip) Q (end_failed b msgs s) s' ∧ sem s' = false).
Proof.
  intros Hsafe. revert b data s. induction msgs as [|[m ok] msgs IH]; intros b data s Ht Hq.
  - simpl. left. rewrite app_empty_r, orb_false_r. done.
  - cbn [Install_run]. unfold mbind, ST_bind. pose proof (recv_outcome ip Hsafe m0 Q b data m ok s Ht Hq) as Ho.
    destruct (Install_recv ImgDir (Transfer ip b) m ok s) as [s1 [p1 r1]]. simpl.
    destruct Ho as [(Hp & Ht1 & Hq1 & Hsem)|(st & Hp & Hr & Hsem)]; simpl in *; subst p1.
    + specialize (IH true (data +:+ content_of m) s1 Ht1 Hq1). destruct (Install_run ImgDir (Transfer ip true) msgs s1) as [s2 [p2 r2]].
      simpl in *. rewrite contents_cons, orb_true_r, <- app_assoc_str. rewrite <- Hsem.
      destruct IH as [IH|(st & ? & [Hk Hr] & ?)]; [by left|right]. exists st. split_and!; try done. split; [done|].
      intros HQ. destruct (Hr HQ) as [?|[HR _]]; [by left|]. destruct msgs as [|[]]; [done|by destruct HR].
    + destruct (run_over st msgs s1) as [resps ->]. simpl. right. eauto.
Qed.

Lemma getVersionPath_safe version : HasPrefix ImgDir "/" = true → safe_path ImgDir (getVersionPath ImgDir version) = Clean (getVersionPath ImgDir version).
Proof.
  intros [t ->]%HasPrefix_spec. unfold safe_path, getVersionPath. rewrite !app_assoc_str.
  assert (HasPrefix (Clean ("/" +:+ t +:+ "/" +:+ version)) "/" = true) as ->; [|done].
  unfold Clean. rewrite bool_decide_false by done. rewrite HasPrefix_app. apply HasPrefix_app.
Qed.

(** C27. While an image is transferred its file lies under the prefix of the
    image directory and holds exactly what was sent so far, after what a file
    at its path held before; where no call fails there was no such file.
    Whatever fails, no other file changes.  Once the session is over the lock
    is free and, where no call fails, every file is as it was before the
    transfer, with one exception: an image that was there before is removed
    when the first message is the end of the transfer and the host answers it
    with an error or the answer cannot be sent.  The path of the image is not
    a symbolic link. *)
Theorem install_content version msgs s0 :
  let ip := getVersionPath ImgDir version in
  HasPrefix ImgDir "/" = true → no_link (fs (os_world s0)) (Clean ip) →
  let '(s, (p, _)) := Install_run ImgDir (Transfer ip false) msgs s0 in
  (∀ q, q ≠ Clean ip → fs (os_world s) !! q = fs (os_world s0) !! q) ∧
  match p with
  | Transfer ip' b => ip' = ip ∧ b = bool_decide (msgs ≠ []) ∧ sem s = sem s0 ∧
      (b = true → HasPrefix (Clean ip) ImgDir = true ∧
         fs (os_world s) !! Clean ip = Some (Reg (file_data (fs (os_world s0) !! Clean ip) +:+ contents msgs)) ∧
         (quiet (os_world s0) → fs (os_world s0) !! Clean ip = None))
  | Over _ => sem s = false ∧
      (quiet (os_world s0) →
         fs (os_world s) = fs (os_world s0) ∨
         fs (os_world s) = delete (Clean ip) (fs (os_world s0)) ∧
         ∃ ok msgs', msgs = (RMsg TransferEnd, ok) :: msgs' ∧
           (ok = false ∨ is_InstallError (processTransferEnd TransferEnd s0).2 = true))
  | WaitRequest => False
  end.
Proof.
  cbv zeta. intros Habs Hnone. set (ip := getVersionPath ImgDir version) in *.
  assert (transferring (fs (os_world s0)) (Clean ip) (quiet (os_world s0)) false "" s0) as Ht by (split; [done|]; by split).
  pose proof (run_outcome ip (fs (os_world s0)) (quiet (os_world s0)) false "" msgs s0 (getVersionPath_safe version Habs) Ht (λ H, H)) as H.
  destruct (Install_run ImgDir (Transfer ip false) msgs s0) as [s [p r]]. rewrite app_nil_str in H. simpl in H.
  destruct H as [(-> & (Hk & _ & Hb) & Hsem)|(st & -> & [Hk Hq] & Hsem)]; (split; [done|]).
  - split_and!; [done..|]. intros Hm. rewrite Hm in Hb. by destruct Hb as (? & ? & ?).
  - split; [done|]. intros Hquiet. destruct (Hq Hquiet) as [?|[HR ?]]; [by left|right]. split; [done|].
    destruct msgs as [|[m ok] msgs]; [done|]. destruct HR as (_ & -> & HR). by eauto.
Qed.

(** *** The lock *)

Definition active (p : phase) : bool := match p with Over _ => false | _ => true end.

(** The lock is held exactly when one session is under way, and then by it
    alone. *)
Definition exclusive (s : OsSys) : Prop :=
  (∀ pid pid' p p', sessions s !! pid = Some p → sessions s !! pid' = Some p' → active p = true → active p' = true → pid = pid') ∧
  (sem (os_state s) = true ↔ ∃ pid p, sessions s !! pid = Some p ∧ active p = true).

(** A message keeps the lock while its session goes on and frees it at the
    end. *)
Lemma recv_lock p msg ok s :
  active p = true → sem s = true →
  let '(s', (p', _)) := Install_recv ImgDir p msg ok s in sem s' = active p'.
Proof.
  intros Hp Hs.
  assert (∀ q st resps s1, active q = true → let '(s', (p', _)) := stop q st resps s1 in sem s' = active p') as Hstop.
  { intros q st resps s1 _. unfold stop, finish, mbind, ST_bind. destruct q as [|ip []|]; try done.
    by destruct (removeIncompleteTransfer ip s1). }
  assert (∀ ip q st resps s1, active q = true → let '(s', (p', _)) := remove_stop ip q st resps s1 in sem s' = active p') as Hrm.
  { intros ip q st resps s1 Hq. unfold remove_stop, mbind, ST_bind. destruct (removeIncompleteTransfer ip s1) as [s2 []]. by apply Hstop. }
  assert (∀ ip d s1, sem s1 = true → let '(s', (p', _)) := transfer_chunk ImgDir ip d ok s1 in sem s' = active p') as Hchunk.
  { intros ip d s1 Hs1. unfold transfer_chunk. rewrite bind_ST. pose proof (content_sem ip d s1) as Hc.
    destruct (processTransferContent ImgDir d ip s1) as [s2 resp]. simpl in Hc. destruct ok; simpl; [|by apply Hrm].
    destruct (is_InstallError resp); [by apply Hrm|]. simpl. congruence. }
  destruct p as [|ip b|st]; [..|done].
  - unfold Install_recv. destruct msg as [[v|d| |]| | |e]; try by apply Hstop. rewrite bind_ST.
    pose proof (processTransferReq_world "" (TransferRequest v) s) as [[_ Hsem] _].
    destruct (processTransferReq (TransferRequest v) s) as [s1 [resp|]]; [|by apply Hstop]. simpl in Hsem.
    destruct ok; cbn [negb]; [|by apply Hstop]. destruct (is_InstallError resp); [by apply Hstop|]. simpl. congruence.
  - assert (∀ d, let '(s', (p', _)) := first_chunk ImgDir ip d b ok s in sem s' = active p') as Hfirst.
    { intros d. unfold first_chunk. destruct b; [by apply Hchunk|]. rewrite bind_ST. pose proof (imageExists_spec ip s) as He.
      destruct (imageExists ip s) as [s1 e]. destruct He as ([_ Hsem] & _). destruct e; [by apply Hstop|]. apply Hchunk. congruence. }
    unfold Install_recv. destruct msg as [[v|d| |]| | |e]; try apply Hfirst; try by apply Hstop. rewrite bind_ST.
    destruct (processTransferEnd TransferEnd s) as [s1 resp]. destruct ok; simpl; [|by apply Hrm].
    destruct (is_InstallError resp); [by apply Hrm|by apply Hstop].
Qed.

(** A session that another one keeps out, or that is over, changes nothing. *)
Lemma exclusive_insert_active pid p s st :
  exclusive s →
  sem (os_state s) = false ∨ (∃ q, sessions s !! pid = Some q ∧ active q = true) →
  sem st = active p → exclusive {| os_state := st; sessions := <[pid := p]> (sessions s) |}.
Proof.
  intros [Huniq Hlock] Hfree Hsem.
  assert (∀ pid' p', pid' ≠ pid → sessions s !! pid' = Some p' → active p' = false) as Hothers.
  { intros pid' p' Hne Hp'. destruct (active p') eqn:Ha; [|done]. destruct Hfree as [Hf|(q & Hq & Hqa)].
    - assert (sem (os_state s) = true) by (apply Hlock; eauto). congruence.
    - by destruct (Hne (Huniq _ _ _ _ Hp' Hq Ha Hqa)). }
  split; simpl.
  - intros pid1 pid2 p1 p2 H1 H2 Ha1 Ha2. destruct (decide (pid1 = pid)) as [->|Hne1].
    + destruct (decide (pid2 = pid)) as [->|Hne2]; [done|]. rewrite lookup_insert_ne in H2 by done.
      by rewrite (Hothers _ _ Hne2 H2) in Ha2.
    + rewrite lookup_insert_ne in H1 by done. by rewrite (Hothers _ _ Hne1 H1) in Ha1.
  - rewrite Hsem. split.
    + intros Ha. exists pid, p. by rewrite lookup_insert_eq.
    + intros (pid' & p' & Hp' & Ha'). destruct (decide (pid' = pid)) as [->|Hne].
      * rewrite lookup_insert_eq in Hp'. by injection Hp' as ->.
      * rewrite lookup_insert_ne in Hp' by done. by rewrite (Hothers _ _ Hne Hp') in Ha'.
Qed.

Lemma exclusive_insert_over pid o s :
  exclusive s → (∀ q, sessions s !! pid = Some q → active q = false) →
  exclusive {| os_state := os_state s; sessions := <[pid := Over o]> (sessions s) |}.
Proof.
  intros [Huniq Hlock] Hpid.
  assert (∀ pid' p', <[pid := Over o]> (sessions s) !! pid' = Some p' → active p' = true → sessions s !! pid' = Some p') as Hold.
  { intros pid' p'. destruct (decide (pid' = pid)) as [->|Hne]; [rewrite lookup_insert_eq; by intros [= <-]|by rewrite lookup_insert_ne]. }
  split; simpl.
  - intros pid1 pid2 p1 p2 H1 H2 Ha1 Ha2. eauto.
  - rewrite Hlock. split; intros (pid' & p' & Hp' & Ha'); exists pid', p'; (split; [|done]); [|by apply Hold].
    rewrite lookup_insert_ne; [done|]. intros <-. by rewrite (Hpid _ Hp') in Ha'.
Qed.

Lemma os_step_exclusive s e : exclusive s → exclusive (os_step ImgDir s e).
Proof.
  intros Hex. destruct e as [pid a ok|pid msg ok]; simpl; destruct (sessions s !! pid) as [p|] eqn:Hpid; try done.
  - unfold Install_start. destruct a as [[]|e]; simpl.
    + unfold mbind, ST_bind, gets. simpl. destruct (sem (os_state s)) eqn:Hs; simpl.
      * apply exclusive_insert_over; [done|]. intros q. congruence.
      * by apply exclusive_insert_active; [|left|].
    + apply exclusive_insert_over; [done|]. intros q. congruence.
  - destruct (active p) eqn:Ha.
    + assert (sem (os_state s) = true) as Hs by (apply Hex; eauto). pose proof (recv_lock p msg ok (os_state s) Ha Hs) as Hl.
      destruct (Install_recv ImgDir p msg ok (os_state s)) as [st [p' r]]. apply exclusive_insert_active; eauto.
    + destruct p; try done. simpl. apply exclusive_insert_over; [done|]. intros q. rewrite Hpid. by intros [= <-].
Qed.

(** However Install RPCs interleave, at most one session is under way, and
    the lock is held exactly while one is: a session that ends, in whatever
    way, frees it. *)
Theorem install_exclusive s0 evs :
  sessions s0 = ∅ → sem (os_state s0) = false → exclusive (foldl (os_step ImgDir) s0 evs).
Proof.
  intros Hn Hs. assert (exclusive s0) as H0.
  { split; rewrite Hn; [done|]. rewrite Hs. split; [done|]. by intros (? & ? & ? & _). }
  clear Hn Hs. revert s0 H0. induction evs as [|e evs IH]; intros s0 H0; [done|]. simpl. by apply IH, os_step_exclusive.
Qed.
End os_facts.

(** ** The version of the running image *)

(** Verify reports the version that sonic-installer prints: on output whose
    first line is [Current: v], for a [v] without line breaks or white space
    at its ends, the answer is [v]. *)
Theorem verify_reports_current {H} (exec_Run : Exec → H → H * Outcome) v rest err h h' :
  v ≠ "" → TrimSpace v = v → free_of (ascii_of_nat 10) v →
  (∀ e, ex_argv e = "nsenter" :: buildNsenterArgs no_options "sonic-installer" ["list"] →
        exec_Run e h = (h', Exited 0 ("Current: " +:+ v +:+ newline +:+ rest) err)) →
  HandleVerify exec_Run h = (h', Ok v).
Proof.
  intros Hne Ht Hf Hrun. unfold HandleVerify, RunHostCommand, mbind, ST_bind. rewrite bool_decide_false by done. cbn.
  rewrite Hrun by done. unfold mret, ST_ret, verify_result, parseCurrentVersion. cbn [hr_failed hr_stdout]. rewrite bool_decide_false by auto.
  assert (free_of (ascii_of_nat 10) ("Current: " +:+ v)) as Hfree.
  { apply free_of_app. split; [|done]. free_name. }
  replace ("Current: " +:+ v +:+ newline +:+ rest) with (("Current: " +:+ v) +:+ String (ascii_of_nat 10) rest) by done.
  unfold newline. rewrite Split_app by done. cbn [omap list_omap].
  assert (current_of ("Current: " +:+ v) = Some v) as ->; [|done].
  unfold current_of. assert (TrimSpace ("Current: " +:+ v) = "Current: " +:+ v) as -> by (unfold TrimSpace; by rewrite trim_by_prefix).
  change (HasPrefix ("Current: " +:+ v) "Current:") with true. cbv iota.
  assert (SplitN2 ("Current: " +:+ v) ":" = ["Current"; " " +:+ v]) as -> by done.
  assert (TrimSpace (" " +:+ v) = v) as ->; [|by rewrite bool_decide_true].
  unfold TrimSpace. rewrite trim_by_prefix by done. done.
Qed.

(** ** Concrete sessions *)
Module OsExample.
#[local] Instance host_db : Redis := map_redis.
(** A host that is ready for every transfer. *)
#[local] Instance host_bus : Bus := {|
  BusT := unit; SystemBus _ := None; Call _ _ _ _ _ b := (b, Body [DInt32 0; DStr "ready"]); FmtMessage s := s |}.
#[local] Instance codec : OsCodec := {|
  marshal _ := Ok "json"; unmarshal s := if bool_decide (s = "ready") then Some TransferReady else None |}.

Definition s0 : OsState := {|
  os_world := {| fs := {[ "/etc/x" := Reg "x" ]}; db := (∅ : gmap string (gmap string string)); faults := [] |};
  os_bus := {| ds_bus := tt; ds_counters := λ _, 0%Z |}; totalBytesReceived := ∅; sem := true |}.
Definition chunks : list (recv InstallRequest * bool) := [(RMsg (TransferContent "im"), true); (RMsg (TransferContent "age"), true)].

Lemma install_content_witness :
  let ip := getVersionPath "/tmp" "v1" in
  let '(s, (p, _)) := Install_run "/tmp" (Transfer ip false) chunks s0 in
  (∀ q, q ≠ Clean ip → fs (os_world s) !! q = fs (os_world s0) !! q) ∧
  match p with
  | Transfer ip' b => ip' = ip ∧ b = bool_decide (chunks ≠ []) ∧ sem s = sem s0 ∧
      (b = true → HasPrefix (Clean ip) "/tmp" = true ∧
         fs (os_world s) !! Clean ip = Some (Reg (file_data (fs (os_world s0) !! Clean ip) +:+ contents chunks)) ∧
         (quiet (os_world s0) → fs (os_world s0) !! Clean ip = None))
  | Over _ => sem s = false ∧
      (quiet (os_world s0) →
         fs (os_world s) = fs (os_world s0) ∨
         fs (os_world s) = delete (Clean ip) (fs (os_world s0)) ∧
         ∃ ok msgs', chunks = (RMsg TransferEnd, ok) :: msgs' ∧
           (ok = false ∨ is_InstallError (processTransferEnd TransferEnd s0).2 = true))
  | WaitRequest => False
  end.
Proof. apply (install_content "/tmp" "v1" chunks s0); [reflexivity|]. intros t. vm_compute. discriminate. Defined.

(** After the first chunks the image is there. *)
Example image_so_far :
  let '(s, (p, resps)) := Install_run "/tmp" (Transfer "/tmp/v1" false) chunks s0 in
  p = Transfer "/tmp/v1" true ∧ fs (os_world s) !! "/tmp/v1" = Some (Reg "image") ∧ resps = [TransferProgress 2; TransferProgress 5].
Proof. vm_compute. done. Qed.

(** A version with dots leaves the directory, whose name the check takes for a
    mere prefix. *)
Example escapes_directory :
  let '(s, (p, _)) := Install_run "/tmp" (Transfer (getVersionPath "/tmp" "../tmpfiles.d/x") false) chunks s0 in
  active p = true ∧ fs (os_world s) !! "/tmpfiles.d/x" = Some (Reg "image").
Proof. vm_compute. done. Qed.

(** The progress of a second transfer to the same path counts on from the
    first. *)
Example progress_counts_on :
  let '(s1, _) := Install_run "/tmp" (Transfer "/tmp/v1" false) (chunks ++ [(REOF, true)]) s0 in
  let '(_, (_, resps)) := Install_run "/tmp" (Transfer "/tmp/v1" false) chunks s1 in
  fs (os_world s1) = fs (os_world s0) ∧ resps = [TransferProgress 7; TransferProgress 10].
Proof. vm_compute. done. Qed.

(** The host says that it has the image already, the client closes the stream
    as the protocol has it, and the RPC fails. *)
Example validated_then_aborted :
  let known : OsCodec := {| marshal _ := Ok "json"; unmarshal _ := Some (Validated "v1") |} in
  let '(_, (p, resps)) := Install_run (OC := known) "/tmp" WaitRequest [(RMsg (TransferRequest "v1"), true); (REOF, true)] s0 in
  p = Over (Some (Aborted, "Stream closed prematurely during transfer.")) ∧ resps = [Validated "v1"].
Proof. vm_compute. done. Qed.

Definition sys0 : OsSys := {| os_state := (set_sem false s0).1; sessions := ∅ |}.
Lemma install_exclusive_witness :
  exclusive (foldl (os_step "/tmp") sys0 [Begin 0 (Ok ()) true; Begin 1 (Ok ()) true; Receive 0 (RMsg (TransferRequest "v1")) true]).
Proof. apply (install_exclusive "/tmp" sys0); reflexivity. Defined.

Definition installer (e : Exec) (h : nat) : nat * Outcome := (S h, Exited 0 ("Current: SONiC-OS-1" +:+ newline +:+ "Next: x") "").
Lemma verify_reports_current_witness : HandleVerify installer 0 = (1, Ok "SONiC-OS-1").
Proof.
  apply (verify_reports_current installer "SONiC-OS-1" "Next: x" "" 0 1); [discriminate|vm_compute; reflexivity|free_name|reflexivity].
Defined.
End OsExample.
