(* ===== verification/Transl.v ===== *)
(** * The client of the translation library
      (src/sonic_data_client/transl_data_client.go, src/transl_utils/transl_utils.go)

    [TranslClient] serves gNMI requests on YANG paths: it turns paths into
    URIs and calls translib, a module that is not part of the repository and a
    parameter here ([Translib]).  A Go context is modelled by the
    [RequestContext] it carries, if any: [context.WithValue] returns a new
    context and leaves the old one as it was, so a client that was given a
    context before the server authenticated the request does not see what
    authentication found.

    The deprecated field [Element] of a path is left out, as are the audit
    messages to syslog. *)
From stdpp Require Import base gmap sets list strings.
From S2P Require Import Prelude GoStrings Gnmi World Auth DbClient.

(** ** Errors *)

(** The types of [tlerr] that the sources tell apart, each with its text. *)
Inductive tl_error :=
| TranslibSyntaxValidationError (s : string)
| TranslibUnsupportedClientVersion (s : string)
| InvalidArgsError (s : string)
| NotSupportedError (s : string)
| InternalError (s : string)
| NotFoundError (s : string)
| AlreadyExistsError (s : string)
| TranslibCVLFailure (constraint s : string)
| TranslibTransactionFail (s : string)
| TranslibRedisClientEntryNotExist (s : string)
| AuthorizationError (s : string)
| GrpcError (c : Code) (s : string)
| PlainError (s : string).

Definition Error (e : tl_error) : string :=
  match e with
  | TranslibSyntaxValidationError s | TranslibUnsupportedClientVersion s | InvalidArgsError s
  | NotSupportedError s | InternalError s | NotFoundError s | AlreadyExistsError s
  | TranslibCVLFailure _ s | TranslibTransactionFail s | TranslibRedisClientEntryNotExist s
  | AuthorizationError s | GrpcError _ s | PlainError s => s
  end.

(** [ToStatus]; an error of no known type has the code Unknown
    ([status.FromContextError], the errors of contexts aside). *)
Definition ToStatus (e : tl_error) : Code * string :=
  match e with
  | TranslibSyntaxValidationError s | TranslibUnsupportedClientVersion s | InvalidArgsError s
  | NotSupportedError s => (InvalidArgument, s)
  | InternalError s => (Internal, s)
  | NotFoundError s => (NotFound, s)
  | AlreadyExistsError s => (AlreadyExists, s)
  | TranslibCVLFailure c _ => (InvalidArgument, if bool_decide (c = "") then "Validation failed" else c)
  | TranslibTransactionFail _ => (Aborted, "Transaction failed. Please try again")
  | TranslibRedisClientEntryNotExist _ => (NotFound, "Resource not found")
  | AuthorizationError s => (PermissionDenied, s)
  | GrpcError c s => (c, s)
  | PlainError s => (Unknown, s)
  end.

Definition isTranslibSuccess (e : option tl_error) : bool :=
  match e with Some e => bool_decide (Error e = "Success") | None => true end.

(** ** Contexts *)

Record RequestContext := { Auth_ : AuthInfo; BundleVersion : option string }.

(** [GetContext] *)
Definition get_context (ctx : option RequestContext) : RequestContext :=
  default {| Auth_ := new_info; BundleVersion := None |} ctx.

(** ** translib *)

Record UserRoles := { ur_name : string; ur_roles : list string }.

Inductive operation := DELETE_ | REPLACE_ | UPDATE_.

Section requests.
Context {Version : Type}.

(** [GetRequest], [SetRequest] and [ActionRequest]; [payload] is nil in the
    first. *)
Record TlRequest := {
  tr_path : string;
  tr_payload : option string;
  tr_user : UserRoles;
  tr_auth : bool;
  tr_version : option Version
}.

Record BulkRequest := {
  br_entries : list (operation * string * option string);
  br_user : UserRoles;
  br_auth : bool;
  br_version : option Version
}.
End requests.
Arguments TlRequest : clear implicits.
Arguments BulkRequest : clear implicits.

(** What the sources call.  [tl_Bulk] returns the errors of the entries and
    the global one.  [Validate] checks a path and completes its element names
    with their modules (and its lists with wildcard keys), in place. *)
Class Translib := {
  TL : Type;
  Version : Type;
  NewVersion : string → res tl_error Version;
  tl_Get : TlRequest Version → ST TL (string * option tl_error);
  tl_Delete : TlRequest Version → ST TL (option tl_error);
  tl_Replace : TlRequest Version → ST TL (option tl_error);
  tl_Update : TlRequest Version → ST TL (option tl_error);
  tl_Bulk : BulkRequest Version → ST TL (list (option tl_error) * option tl_error);
  tl_Action : TlRequest Version → ST TL (res tl_error string);
  tl_models : list (string * string * string);
  Validate : bool → option Path → res tl_error (option Path);
  PathToString : option Path → res tl_error string;
  (* json.Compact *)
  Compact : string → string
}.

Section transl.
Context {T : Translib}.

(** A call that can fail: an error, or a nil dereference. *)
Inductive failure := Fail (e : tl_error) | Crash.

Notation M A := (ST TL (res failure A)).

(** ** Paths *)

(** [GnmiTranslFullPath]: the elements are only set when [path] has some. *)
Definition GnmiTranslFullPath (prefix path : option Path) : res failure (option Path) :=
  match path with
  | None => Err Crash
  | Some p => Ok (Some {|
      path_origin := path_origin p;
      path_target := "";
      path_elem := match path_elem p with [] => [] | es => GetElem prefix ++ es end |})
  end.

Definition of_tl {A} (r : res tl_error A) : res failure A :=
  match r with Ok a => Ok a | Err e => Err (Fail e) end.

Definition ConvertToURI (wildcards : bool) (prefix path : option Path) : res failure string :=
  fullPath ← (match prefix with Some _ => GnmiTranslFullPath prefix path | None => Ok path end);
  checked ← of_tl (Validate wildcards fullPath);
  of_tl (PathToString checked).

(** [path2URI], in the order in which it is filled. *)
Fixpoint PopulateClientPaths (prefix : option Path) (paths : list Path) (wildcards : bool)
  : res failure (list (Path * string)) :=
  match paths with
  | [] => Ok []
  | p :: paths =>
      uri ← ConvertToURI wildcards prefix (Some p);
      rest ← PopulateClientPaths prefix paths wildcards;
      Ok ((p, uri) :: rest)
  end.

(** ** The calls of translib *)

(** The version of the request's bundle. *)
Definition client_version (rc : RequestContext) : res failure (option Version) :=
  match BundleVersion rc with
  | None => Ok None
  | Some v => nver ← of_tl (NewVersion v); Ok (Some nver)
  end.

Definition user_of (rc : RequestContext) : UserRoles :=
  {| ur_name := User (Auth_ rc); ur_roles := Roles (Auth_ rc) |}.

Definition make_request (rc : RequestContext) (uri : string) (payload : option string)
  : res failure (TlRequest Version) :=
  v ← client_version rc;
  Ok {| tr_path := uri; tr_payload := payload; tr_user := user_of rc;
        tr_auth := AuthEnabled (Auth_ rc); tr_version := v |}.

Definition TranslProcessGet (uri : string) (ctx : option RequestContext) : M TypedValue :=
  match make_request (get_context ctx) uri None with
  | Err e => mret (Err e)
  | Ok req =>
      r ← tl_Get req;
      mret match r with
           | (data, None) => Ok (JsonIetfVal (Compact data))
           | (data, Some e) => if isTranslibSuccess (Some e) then Ok (JsonIetfVal (Compact data)) else Err (Fail e)
           end
  end.

(** A Set of one path: the request, or why it cannot be made.  A value of
    another type than JSON_IETF gives an empty payload. *)
Definition one_request (ctx : option RequestContext) (prefix path : option Path) (payload : option string)
  : res failure (TlRequest Version) :=
  uri ← ConvertToURI false prefix path;
  make_request (get_context ctx) uri payload.

(** [entry.GetVal().GetJsonIetfVal()] *)
Definition json_payload (u : Update) : option string :=
  match upd_val u with Some (JsonIetfVal s) => Some s | _ => None end.

Definition of_call (e : option tl_error) : option failure := Fail <$> e.

Definition TranslProcessDelete (prefix path : option Path) (ctx : option RequestContext)
  : ST TL (option failure) :=
  match one_request ctx prefix path None with
  | Err e => mret (Some e)
  | Ok req => e ← tl_Delete req; mret (of_call e)
  end.

Definition TranslProcessReplace (prefix : option Path) (u : Update) (ctx : option RequestContext)
  : ST TL (option failure) :=
  match one_request ctx prefix (upd_path u) (json_payload u) with
  | Err e => mret (Some e)
  | Ok req => e ← tl_Replace req; mret (of_call e)
  end.

(** An update of an object that does not exist is made by a replace. *)
Definition TranslProcessUpdate (prefix : option Path) (u : Update) (ctx : option RequestContext)
  : ST TL (option failure) :=
  match one_request ctx prefix (upd_path u) (json_payload u) with
  | Err e => mret (Some e)
  | Ok req =>
      e ← tl_Update req;
      match e with
      | Some (NotFoundError _) => e ← tl_Replace req; mret (of_call e)
      | _ => mret (of_call e)
      end
  end.

(** The entries of a bulk request: deletes, then replaces, then updates. *)
Fixpoint bulk_deletes (prefix : option Path) (ds : list (option Path))
  : res failure (list (operation * string * option string)) :=
  match ds with
  | [] => Ok []
  | d :: ds =>
      fullPath ← GnmiTranslFullPath prefix d;
      uri ← ConvertToURI false None fullPath;
      rest ← bulk_deletes prefix ds;
      Ok ((DELETE_, uri, None) :: rest)
  end.

Fixpoint bulk_updates (op : operation) (prefix : option Path) (us : list Update)
  : res failure (list (operation * string * option string)) :=
  match us with
  | [] => Ok []
  | u :: us =>
      uri ← ConvertToURI false prefix (upd_path u);
      match upd_val u with
      | Some (JsonIetfVal s) =>
          rest ← bulk_updates op prefix us;
          Ok ((op, uri, Some s) :: rest)
      | _ => Err (Fail (GrpcError InvalidArgument "unsupported value type"))
      end
  end.

Definition bulk_request (delete : list (option Path)) (replace update : list Update) (prefix : option Path)
    (ctx : option RequestContext) : res failure (BulkRequest Version) :=
  let rc := get_context ctx in
  v ← client_version rc;
  ds ← bulk_deletes prefix delete;
  rs ← bulk_updates REPLACE_ prefix replace;
  us ← bulk_updates UPDATE_ prefix update;
  Ok {| br_entries := ds ++ rs ++ us; br_user := user_of rc;
        br_auth := AuthEnabled (Auth_ rc); br_version := v |}.

(** The texts of the errors; the global one counts when no entry has one. *)
Definition bulk_errors (es : list (option tl_error)) (global : option tl_error) : list string :=
  match Error <$> omap id es, global with
  | [], Some e => [Error e]
  | errors, _ => errors
  end.

Definition TranslProcessBulk (delete : list (option Path)) (replace update : list Update)
    (prefix : option Path) (ctx : option RequestContext) : ST TL (option failure) :=
  match bulk_request delete replace update prefix ctx with
  | Err e => mret (Some e)
  | Ok req =>
      r ← tl_Bulk req;
      mret match bulk_errors r.1 r.2 with
           | [] => None
           | errors => Some (Fail (PlainError ("SET failed: " +:+ Join errors "; ")))
           end
  end.

Definition TranslProcessAction (uri : string) (payload : option string) (ctx : option RequestContext) : M string :=
  match make_request (get_context ctx) uri payload with
  | Err e => mret (Err e)
  | Ok req => r ← tl_Action req; mret (of_tl r)
  end.

Definition GetModels : list (string * string * string) := tl_models.

(** ** The client *)

Definition BUNDLE_VERSION_EXT : Z := 700.

Fixpoint getBundleVersion (exts : list Extension) : option string :=
  match exts with
  | [] => None
  | RegisteredExt id v :: exts => if bool_decide (id = BUNDLE_VERSION_EXT) then Some v else getBundleVersion exts
  | _ :: exts => getBundleVersion exts
  end.

Record TranslClient := {
  tc_prefix : option Path;
  tc_path2URI : list (Path * string);
  tc_ctx : option RequestContext;
  tc_extensions : list Extension
}.

Definition NewTranslClient (prefix : option Path) (getpaths : option (list Path)) (ctx : option RequestContext)
    (extensions : list Extension) (wildcards : bool) : res failure TranslClient :=
  m ← (match getpaths with
       | Some paths => PopulateClientPaths prefix paths wildcards
       | None => Ok []
       end);
  Ok {| tc_prefix := prefix; tc_path2URI := m; tc_ctx := ctx; tc_extensions := extensions |}.

(** The context of the client with the version of its extensions. *)
Definition versioned (c : TranslClient) : RequestContext :=
  let rc := get_context (tc_ctx c) in
  match getBundleVersion (tc_extensions c) with
  | Some v => {| Auth_ := Auth_ rc; BundleVersion := Some v |}
  | None => rc
  end.

(** The loop of [Get], over the entries in the order of the range. *)
Fixpoint get_loop (now : Z) (prefix : option Path) (rc : RequestContext) (entries : list (Path * string))
  : M (list (option Value)) :=
  match entries with
  | [] => mret (Ok [])
  | (p, uri) :: entries =>
      r ← TranslProcessGet uri (Some rc);
      match r with
      | Err e => mret (Err e)
      | Ok val =>
          rest ← get_loop now prefix rc entries;
          mret (values ← rest;
                Ok (Some {| v_timestamp := now; v_prefix := prefix; v_path := Some p;
                            v_sync_response := false; v_fatal := ""; v_val := Some val;
                            v_delete := []; v_notification := None |} :: values))
      end
  end.

Definition Get (now : Z) (c : TranslClient) : M (list (option Value)) :=
  get_loop now (tc_prefix c) (versioned c) (tc_path2URI c).

Definition Set_ (delete : list (option Path)) (replace update : list Update) (c : TranslClient)
  : ST TL (option failure) :=
  let ctx := Some (versioned c) in
  if bool_decide (1 < length delete + length replace + length update) then
    TranslProcessBulk delete replace update (tc_prefix c) ctx
  else
    match delete, replace, update with
    | [d], _, _ => TranslProcessDelete (tc_prefix c) d ctx
    | _, [r], _ => TranslProcessReplace (tc_prefix c) r ctx
    | _, _, [u] => TranslProcessUpdate (tc_prefix c) u ctx
    | _, _, _ => mret None
    end.

End transl.
