(* ===== verification/TranslStream.v ===== *)
(** * Subscriptions through the translation library
      (src/sonic_data_client/transl_data_client.go, transl_subscriber.go)

    A stream subscription asks translib which of its paths can be watched,
    starts timers for the sampled ones and keeps, per sampled path, a cache of
    what it last sent; a sample is turned into a notification by comparing it
    with the cache.

    ygot is a parameter ([Ygot]), and so is the comparison of two ygot objects
    (ygot_diff.go walks them by reflection).  translib puts its responses in a
    queue that a goroutine reads: [tl_Stream] and [tl_Subscribe] give what the
    goroutine reads, in order.  A panic is recovered and put in the client's
    queue as a fatal message ([recoverSubscribe]). *)
From stdpp Require Import base gmap sets list strings.
From S2P Require Import Prelude GoStrings Gnmi World Auth DbClient Transl.

(** ** Responses *)

Section types.
Context {G : Type}.

(** [translib.SubscribeResponse]; a nil [Update] is [None]. *)
Record SubscribeResponse := {
  sr_path : string;
  sr_update : option G;
  sr_delete : list string;
  sr_timestamp : Z;
  sr_sync : bool;
  sr_terminated : bool
}.

(** What a read of the queue gives. *)
Inductive queue_item :=
| Item (r : SubscribeResponse)
| UnknownItem
| Disposed
| QueueError (msg : string).
End types.
Arguments SubscribeResponse : clear implicits.
Arguments queue_item : clear implicits.

(** The answer of [translib.IsSubscribeSupported] for a path. *)
Inductive NotificationType := TargetDefined | OnChange | Sample.
Global Instance NotificationType_eq_dec : EqDecision NotificationType.
Proof. solve_decision. Defined.

Record SubInfo := {
  si_id : nat;
  si_path : string;
  si_onchange : bool;
  si_preferred : NotificationType;
  si_min : Z;
  si_subpath : bool;
  si_wildcard : bool
}.

(** A path with its position and mode, as [IsSubscribeSupported] is asked. *)
Record SubPath := { sp_id : Z; sp_path : string; sp_mode : NotificationType }.

(** Streaming calls of translib on top of [Translib], and ygot. *)
Class Ygot {T : Translib} := {
  G : Type;
  StringToStructuredPath : string → res string Path;
  TogNMINotifications : G → res string (list (Path * option TypedValue));
  Diff : option G → option G → bool → res string (list Update * list Path);
  MinSubscribeInterval : Z;
  IsSubscribeSupported : list SubPath → UserRoles → option Version → ST TL (res tl_error (list SubInfo));
  tl_Stream : string → option Version → ST TL (list (queue_item G) * option tl_error);
  tl_Subscribe : list string → option Version → ST TL (list (queue_item G) * option tl_error)
}.

Section stream.
Context {T : Translib} {Y : Ygot} {MR : MapRange}.

(** The client's prefix, as [toPrefix] reads it. *)
Context (pfx : option Path).

(** An error that is returned, or a panic. *)
Inductive bfail := BErr (e : string) | BPanic.

(** ** Building notifications *)

(** [ygotCache] *)
Record ygotCache := { yc_values : gmap string (option G); yc_pattern : option Path }.

Definition newYgotCache (pattern : option Path) : ygotCache := {| yc_values := ∅; yc_pattern := pattern |}.

Record translSubscriber := {
  ts_cache : option ygotCache;
  ts_filterMsgs : bool;
  ts_filterDups : bool;
  ts_stopOnSync : bool;
  ts_rcvd : gset string
}.

Definition set_elem (es : list PathElem) (p : Path) : Path :=
  {| path_origin := path_origin p; path_target := path_target p; path_elem := es |}.

(** [toPrefix]; the nil path of an error is dereferenced. *)
Definition toPrefix (path : string) : res bfail Path :=
  match StringToStructuredPath path with
  | Ok p => Ok {| path_origin := GetOrigin pfx; path_target := GetTarget pfx; path_elem := path_elem p |}
  | Err _ => Err BPanic
  end.

Definition insertFirstPathElem (p : Path) (e : option PathElem) : Path :=
  match e with Some e => set_elem (e :: path_elem p) p | None => p end.

(** The path without its last element, and the element. *)
Definition removeLastPathElem (p : Path) : Path * option PathElem :=
  match last (path_elem p) with
  | None => (p, None)
  | Some e => (set_elem (take (length (path_elem p) - 1) (path_elem p)) p, Some e)
  end.

Definition strSliceContains (ss : list string) (v : string) : bool := bool_decide (v ∈ ss).

Definition ygotToScalarValues (e : option PathElem) (obj : G) : res bfail (list Update) :=
  match TogNMINotifications obj with
  | Err m => Err (BErr m)
  | Ok us => Ok ((λ '(p, v), {| upd_path := Some (insertFirstPathElem p e); upd_val := v |}) <$> us)
  end.

Fixpoint delete_paths (e : option PathElem) (dels : list string) : res bfail (list Path) :=
  match dels with
  | [] => Ok []
  | del :: dels =>
      match StringToStructuredPath del with
      | Err m => Err (BErr m)
      | Ok p => rest ← delete_paths e dels; Ok (insertFirstPathElem p e :: rest)
      end
  end.

Definition defaultMsgBuilder (v : option (SubscribeResponse G)) (ts : translSubscriber)
  : res bfail (option Notification) :=
  match v with
  | None => Ok None
  | Some v =>
      if ts_filterMsgs ts then Ok None
      else
        p ← toPrefix (sr_path v);
        let '(p, extra) := if strSliceContains (sr_delete v) "" then removeLastPathElem p else (p, None) in
        us ← (match sr_update v with Some obj => ygotToScalarValues extra obj | None => Ok [] end);
        ds ← delete_paths extra (sr_delete v);
        Ok (Some {| n_timestamp := sr_timestamp v; n_prefix := Some p; n_update := us; n_delete := ds |})
  end.

(** [toDeletePath]: the path of a cache entry, completed to the length of the
    subscription's; a nil path or pattern is dereferenced. *)
Definition toDeletePath (c : ygotCache) (path : string) : res bfail Path :=
  match StringToStructuredPath path, yc_pattern c with
  | Ok p, Some pat =>
      let n := length (path_elem p) in
      Ok (if bool_decide (n < length (path_elem pat))
          then set_elem (path_elem p ++ drop n (path_elem pat)) p else p)
  | _, _ => Err BPanic
  end.

(** The loop of [deleteMsgBuilder], over the entries in the order of the
    range: what is left of the cache and the paths. *)
Fixpoint delete_loop (c : ygotCache) (rcvd : gset string) (entries : list (string * option G))
  : ygotCache * res bfail (list Path) :=
  match entries with
  | [] => (c, Ok [])
  | (path, _) :: entries =>
      if bool_decide (path ∈ rcvd) then delete_loop c rcvd entries
      else
        match toDeletePath c path with
        | Err e => (c, Err e)
        | Ok p =>
            let c := {| yc_values := delete path (yc_values c); yc_pattern := yc_pattern c |} in
            let '(c, r) := delete_loop c rcvd entries in
            (c, rest ← r; Ok (p :: rest))
        end
  end.

Definition deleteMsgBuilder (now : Z) (c : ygotCache) (ts : translSubscriber)
  : ygotCache * res bfail (option Notification) :=
  if ts_filterMsgs ts then (c, Ok None)
  else
    let '(c, r) := delete_loop c (ts_rcvd ts) (map_range (yc_values c)) in
    (c, ds ← r;
        match ds with
        | [] => Ok None
        | _ => p ← toPrefix "/";
               Ok (Some {| n_timestamp := now; n_prefix := Some p; n_update := []; n_delete := ds |})
        end).

(** [ygotCache.msgBuilder] *)
Definition msgBuilder (now : Z) (c : ygotCache) (v : option (SubscribeResponse G)) (ts : translSubscriber)
  : ygotCache * gset string * res bfail (option Notification) :=
  match v with
  | None => let '(c, r) := deleteMsgBuilder now c ts in (c, ts_rcvd ts, r)
  | Some v =>
      let old := default None (yc_values c !! sr_path v) in
      let c := {| yc_values := <[sr_path v := sr_update v]> (yc_values c); yc_pattern := yc_pattern c |} in
      let rcvd := {[sr_path v]} ∪ ts_rcvd ts in
      (c, rcvd,
       if ts_filterMsgs ts then Ok None
       else
         match Diff old (sr_update v) (negb (ts_filterDups ts)) with
         | Err m => Err (BErr m)
         | Ok (us, ds) =>
             p ← toPrefix (sr_path v);
             Ok (Some {| n_timestamp := sr_timestamp v; n_prefix := Some p; n_update := us; n_delete := ds |})
         end)
  end.

(** The builder a subscriber has: that of its cache, else the default. *)
Definition build (now : Z) (v : option (SubscribeResponse G)) (ts : translSubscriber)
  : translSubscriber * res bfail (option Notification) :=
  match ts_cache ts with
  | None => (ts, defaultMsgBuilder v ts)
  | Some c =>
      let '(c, rcvd, r) := msgBuilder now c v ts in
      ({| ts_cache := Some c; ts_filterMsgs := ts_filterMsgs ts; ts_filterDups := ts_filterDups ts;
          ts_stopOnSync := ts_stopOnSync ts; ts_rcvd := rcvd |}, r)
  end.

Definition notification_value (n : Notification) : Value := {|
  v_timestamp := 0; v_prefix := None; v_path := None; v_sync_response := false; v_fatal := "";
  v_val := None; v_delete := []; v_notification := Some n
|}.

(** [notify]: what is put in the queue. *)
Definition notify (now : Z) (v : option (SubscribeResponse G)) (ts : translSubscriber)
  : translSubscriber * res bfail (list Value) :=
  let '(ts, r) := build now v ts in
  (ts, n ← r;
       match n with
       | Some n => match n_update n, n_delete n with [], [] => Ok [] | _, _ => Ok [notification_value n] end
       | None => Ok []
       end).

(** ** Reading responses *)

(** [recoverSubscribe] and the other fatal messages. *)
Definition fatal (now : Z) (msg : string) : list Value := [putFatalMsg now msg].
Definition recovered (now : Z) : list Value := fatal now "Subscribe operation failed with error =Internal".

(** Whether the goroutine has returned, or waits for more. *)
Inductive presult := Returned | Waiting.

Definition synced (ts : translSubscriber) : translSubscriber :=
  {| ts_cache := ts_cache ts; ts_filterMsgs := false; ts_filterDups := ts_filterDups ts;
     ts_stopOnSync := ts_stopOnSync ts; ts_rcvd := ts_rcvd ts |}.

(** What the goroutine has put, its subscriber, whether the client's channel
    is closed and how it ended.  A response that says the session is
    terminated makes it close the channel; closing it again panics. *)
Record processed := { pr_out : list Value; pr_ts : translSubscriber; pr_closed : bool; pr_end : presult }.

Definition after (out : list Value) (p : processed) : processed :=
  {| pr_out := out ++ pr_out p; pr_ts := pr_ts p; pr_closed := pr_closed p; pr_end := pr_end p |}.

Fixpoint processResponses (now : Z) (items : list (queue_item G)) (closed : bool) (ts : translSubscriber)
  : processed :=
  let stop out ts := {| pr_out := out; pr_ts := ts; pr_closed := closed; pr_end := Returned |} in
  match items with
  | [] => {| pr_out := []; pr_ts := ts; pr_closed := closed; pr_end := Waiting |}
  | Disposed :: _ => stop [] ts
  | QueueError m :: _ => stop (fatal now ("Subscribe operation failed with error =" +:+ m)) ts
  | UnknownItem :: items => processResponses now items closed ts
  | Item v :: items =>
      if sr_terminated v then
        {| pr_out := fatal now "DB Connection Error" ++ (if closed then recovered now else []);
           pr_ts := ts; pr_closed := true; pr_end := Returned |}
      else if sr_sync v then
        if ts_stopOnSync ts then
          let '(ts, r) := notify now None ts in
          stop match r with Ok out => out | Err (BErr _) => [] | Err BPanic => recovered now end ts
        else after [sync_value now] (processResponses now items closed (synced ts))
      else
        let '(ts, r) := notify now (Some v) ts in
        match r with
        | Err (BErr _) => stop (fatal now "Internal error") ts
        | Err BPanic => stop (recovered now) ts
        | Ok out => after out (processResponses now items closed ts)
        end
  end.

(** The subscriber of a sample. *)
Definition for_sample (ts : translSubscriber) : translSubscriber :=
  {| ts_cache := ts_cache ts; ts_filterMsgs := ts_filterMsgs ts; ts_filterDups := ts_filterDups ts;
     ts_stopOnSync := true; ts_rcvd := ∅ |}.

(** What is read from a queue that is disposed when the call fails. *)
Definition until_disposed (items : list (queue_item G)) (err : option tl_error) : list (queue_item G) :=
  match err with Some _ => items ++ [Disposed] | None => items end.

Definition call_failed (now : Z) (msg : string) (err : option tl_error) : list Value :=
  match err with Some e => fatal now (msg +:+ Error e) | None => [] end.

(** [doSample]; [None] when it waits for a sync that does not come. *)
Definition doSample (now : Z) (version : option Version) (path : string) (closed : bool) (ts : translSubscriber)
  : ST TL (option processed) :=
  r ← tl_Stream path version;
  let '(items, err) := r in
  let p := processResponses now (until_disposed items err) closed (for_sample ts) in
  mret match pr_end p with
       | Waiting => None
       | Returned =>
           Some {| pr_out := pr_out p ++ call_failed now "Subscribe operation failed with error = " err;
                   pr_ts := pr_ts p; pr_closed := pr_closed p; pr_end := Returned |}
       end.

(** A sync among the items that were read. *)
Definition has_sync (items : list (queue_item G)) : bool :=
  existsb (λ i, match i with Item v => sr_sync v | _ => false end) items.

(** [doOnChange]: it returns after the sync or when the goroutine has
    returned; the goroutine then waits for changes. *)
Definition doOnChange (now : Z) (version : option Version) (paths : list string) (closed updatesOnly : bool)
  : ST TL (option processed) :=
  r ← tl_Subscribe paths version;
  let '(items, err) := r in
  let ts := {| ts_cache := None; ts_filterMsgs := updatesOnly; ts_filterDups := false;
               ts_stopOnSync := false; ts_rcvd := ∅ |} in
  let items := until_disposed items err in
  let p := processResponses now items closed ts in
  mret match pr_end p, has_sync items with
       | Waiting, false => None
       | e, _ =>
           Some {| pr_out := pr_out p ++ call_failed now "Subscribe operation failed with error: " err;
                   pr_ts := pr_ts p; pr_closed := pr_closed p; pr_end := e |}
       end.

(** ** The session *)

Inductive SubscriptionMode := TARGET_DEFINED | ON_CHANGE | SAMPLE | OTHER_MODE (n : Z).

(** [gnmipb.Subscription] without its path; the intervals are uint64. *)
Record Subscription := {
  sub_mode : SubscriptionMode;
  sub_sample : Z;
  sub_heartbeat : Z;
  sub_suppress : bool
}.

Definition getTranslNotificationType (m : SubscriptionMode) : NotificationType :=
  match m with ON_CHANGE => OnChange | SAMPLE => Sample | _ => TargetDefined end.

(** [parseVersion]: the version of the client, or an error. *)
Definition parseVersion (exts : list Extension) : res string (option Version) :=
  match getBundleVersion exts with
  | None => Ok None
  | Some bv =>
      match NewVersion bv with
      | Err _ => Ok None
      | Ok _ => Err ("Invalid bundle version: " +:+ bv)
      end
  end.

(** [ticker_info], with its interval in nanoseconds. *)
Record Ticker := { tk_interval : Z; tk_suppress : bool; tk_path : string; tk_heartbeat : bool }.

(** [addTimer]; [time.NewTicker] panics unless the interval is positive, and a
    ticker of the same interval is reused. *)
Definition addTimer (tickers : list Ticker) (t : Ticker) : res bfail (list Ticker) :=
  if bool_decide (tk_interval t ≤ 0)%Z then Err BPanic else Ok (tickers ++ [t]).

(** The variables of the routine: the caches of the sampled paths, the
    tickers, the paths to watch, the goroutine that watches them, whether the
    client's channel is closed, and what was put in the queue. *)
Record session := {
  ss_caches : gmap string ygotCache;
  ss_tickers : list Ticker;
  ss_onchange : list string;
  ss_watch : option translSubscriber;
  ss_closed : bool;
  ss_out : list Value
}.

Definition put (vs : list Value) (s : session) : session :=
  {| ss_caches := ss_caches s; ss_tickers := ss_tickers s; ss_onchange := ss_onchange s;
     ss_watch := ss_watch s; ss_closed := ss_closed s; ss_out := ss_out s ++ vs |}.

Definition new_session : session :=
  {| ss_caches := ∅; ss_tickers := []; ss_onchange := []; ss_watch := None; ss_closed := false; ss_out := [] |}.

(** The session after a sample of [path] whose cache, if any, is kept. *)
Definition sampled (path : string) (p : processed) (s : session) : session := {|
  ss_caches := match ts_cache (pr_ts p) with Some c => <[path := c]> (ss_caches s) | None => ss_caches s end;
  ss_tickers := ss_tickers s; ss_onchange := ss_onchange s; ss_watch := ss_watch s;
  ss_closed := pr_closed p; ss_out := ss_out s ++ pr_out p
|}.

(** How a part of the routine ends: it goes on, the routine has returned, or
    it is blocked. *)
Inductive flow := Go (s : session) | Return (s : session) | Blocked (s : session).

Definition with_timer (now : Z) (t : Ticker) (s : session) (k : session → ST TL flow) : ST TL flow :=
  match addTimer (ss_tickers s) t with
  | Err _ => mret (Return (put (recovered now) s))
  | Ok ts => k {| ss_caches := ss_caches s; ss_tickers := ts; ss_onchange := ss_onchange s;
                  ss_watch := ss_watch s; ss_closed := ss_closed s; ss_out := ss_out s |}
  end.

(** The mode a subscription runs in, or the fatal message. *)
Definition effective_mode (sub : Subscription) (p : SubInfo) : res string SubscriptionMode :=
  match sub_mode sub with
  | TARGET_DEFINED =>
      Ok (if si_onchange p && bool_decide (si_preferred p = OnChange) then ON_CHANGE else SAMPLE)
  | ON_CHANGE =>
      if si_onchange p then Ok ON_CHANGE else Err ("ON_CHANGE Streaming mode invalid for " +:+ si_path p)
  | SAMPLE => Ok SAMPLE
  | OTHER_MODE n => Err ("Invalid Subscription Mode " +:+ Itoa n)
  end.

Definition second : Z := 1000000000.

Definition min_of (p : SubInfo) : Z :=
  if bool_decide (si_min p ≤ 0)%Z then MinSubscribeInterval else si_min p.

(** [hb > 0 && hb < uint64(pInfo.MinInterval)*uint64(time.Second)] *)
Definition bad_heartbeat (sub : Subscription) (min : Z) : bool :=
  bool_decide (0 < sub_heartbeat sub)%Z &&
  bool_decide (sub_heartbeat sub < (min * second) mod 2 ^ 64)%Z.

(** The interval of a sampled path, an [int]. *)
Definition sample_interval (sub : Subscription) (min : Z) : option Z :=
  let interval := to_int64 (sub_sample sub) in
  let minInterval := to_int64 (min * second) in
  if bool_decide (interval = 0%Z) then Some minInterval
  else if bool_decide (interval < minInterval)%Z then None else Some interval.

Definition start_sample (now : Z) (version : option Version) (updatesOnly : bool) (sub : Subscription)
    (p : SubInfo) (s : session) : ST TL flow :=
  match sample_interval sub (min_of p) with
  | None => mret (Return (put (fatal now "Invalid SampleInterval") s))
  | Some interval =>
      let pattern := match StringToStructuredPath (si_path p) with Ok q => Some q | Err _ => None end in
      let ts := {| ts_cache := Some (newYgotCache pattern); ts_filterMsgs := updatesOnly || si_subpath p;
                   ts_filterDups := false; ts_stopOnSync := false; ts_rcvd := ∅ |} in
      r ← doSample now version (si_path p) (ss_closed s) ts;
      match r with
      | None => mret (Blocked s)
      | Some pr =>
          let s := sampled (si_path p) pr s in
          let tick i hb := {| tk_interval := i; tk_suppress := sub_suppress sub; tk_path := si_path p;
                              tk_heartbeat := hb |} in
          with_timer now (tick interval false) s (λ s,
            if sub_suppress sub && bool_decide (0 < sub_heartbeat sub)%Z
            then with_timer now (tick (to_int64 (sub_heartbeat sub)) true) s (λ s, mret (Go s))
            else mret (Go s))
      end
  end.

Definition start_onchange (now : Z) (sub : Subscription) (p : SubInfo) (s : session) : ST TL flow :=
  let s := {| ss_caches := ss_caches s; ss_tickers := ss_tickers s;
              ss_onchange := ss_onchange s ++ [si_path p]; ss_watch := ss_watch s; ss_closed := ss_closed s;
              ss_out := ss_out s |} in
  if bool_decide (0 < sub_heartbeat sub)%Z then
    with_timer now {| tk_interval := to_int64 (sub_heartbeat sub); tk_suppress := sub_suppress sub;
                      tk_path := si_path p; tk_heartbeat := true |} s (λ s, mret (Go s))
  else mret (Go s).

(** One path of the answer of translib. *)
Definition start_one (now : Z) (version : option Version) (updatesOnly : bool) (subs : list Subscription)
    (p : SubInfo) (s : session) : ST TL flow :=
  match subs !! si_id p with
  | None => mret (Return (put (recovered now) s))
  | Some sub =>
      match effective_mode sub p with
      | Err m => mret (Return (put (fatal now m) s))
      | Ok mode =>
          if bad_heartbeat sub (min_of p) then mret (Return (put (fatal now "Invalid Heartbeat Interval") s))
          else
            match mode with
            | SAMPLE => start_sample now version updatesOnly sub p s
            | ON_CHANGE => start_onchange now sub p s
            | _ => mret (Go s)
            end
      end
  end.

Fixpoint start_all (now : Z) (version : option Version) (updatesOnly : bool) (subs : list Subscription)
    (infos : list SubInfo) (s : session) : ST TL flow :=
  match infos with
  | [] => mret (Go s)
  | p :: infos =>
      f ← start_one now version updatesOnly subs p s;
      match f with
      | Go s => start_all now version updatesOnly subs infos s
      | f => mret f
      end
  end.

(** A tick of a timer: the tickers of its interval are sampled in turn. *)
Fixpoint tick_all (now : Z) (version : option Version) (ticks : list Ticker) (s : session) : ST TL flow :=
  match ticks with
  | [] => mret (Go s)
  | t :: ticks =>
      let ts := {| ts_cache := ss_caches s !! tk_path t; ts_filterMsgs := false;
                   ts_filterDups := negb (tk_heartbeat t) && tk_suppress t;
                   ts_stopOnSync := false; ts_rcvd := ∅ |} in
      r ← doSample now version (tk_path t) (ss_closed s) ts;
      match r with
      | None => mret (Blocked s)
      | Some pr => tick_all now version ticks (sampled (tk_path t) pr s)
      end
  end.

Definition tick (now : Z) (version : option Version) (interval : Z) (s : session) : ST TL flow :=
  tick_all now version (filter (λ t, bool_decide (tk_interval t = interval) = true) (ss_tickers s)) s.

(** The watching goroutine reads an item. *)
Definition change (now : Z) (i : queue_item G) (s : session) : session :=
  match ss_watch s with
  | None => s
  | Some ts =>
      let p := processResponses now [i] (ss_closed s) ts in
      {| ss_caches := ss_caches s; ss_tickers := ss_tickers s; ss_onchange := ss_onchange s;
         ss_watch := match pr_end p with Waiting => Some (pr_ts p) | Returned => None end;
         ss_closed := pr_closed p; ss_out := ss_out s ++ pr_out p |}
  end.

(** What happens to a session, each event with its time. *)
Inductive event := Tick (now interval : Z) | Change (now : Z) (i : queue_item G).

(** The loop of [StreamRun]; it returns when the channel is closed, by the
    server or by a goroutine. *)
Fixpoint stream_loop (version : option Version) (evs : list event) (s : session) : ST TL flow :=
  if ss_closed s then mret (Return s)
  else
    match evs with
    | [] => mret (Return s)
    | Tick now interval :: evs =>
        f ← tick now version interval s;
        match f with Go s => stream_loop version evs s | f => mret f end
    | Change now i :: evs => stream_loop version evs (change now i s)
    end.

(** The paths as translib is asked about them.  [path2URI] is keyed by the
    pointers of the subscriptions' paths and filled in their order; a path
    that is not in it gives the empty string. *)
Definition sub_paths (uris : list (Path * string)) (subs : list Subscription) : list SubPath :=
  imap (λ i sub, {| sp_id := Z.of_nat i;
                    sp_path := default "" (snd <$> uris !! i);
                    sp_mode := getTranslNotificationType (sub_mode sub) |}) subs.

Definition watch (now : Z) (version : option Version) (updatesOnly : bool) (s : session) : ST TL flow :=
  match ss_onchange s with
  | [] => mret (Go (put [sync_value now] s))
  | paths =>
      r ← doOnChange now version paths (ss_closed s) updatesOnly;
      mret match r with
           | None => Blocked s
           | Some p => Go {| ss_caches := ss_caches s; ss_tickers := ss_tickers s; ss_onchange := ss_onchange s;
                             ss_watch := match pr_end p with Waiting => Some (pr_ts p) | Returned => None end;
                             ss_closed := pr_closed p; ss_out := ss_out s ++ pr_out p |}
           end
  end.

Definition StreamRun (now : Z) (c : TranslClient) (updatesOnly : bool) (subs : list Subscription)
    (evs : list event) : ST TL flow :=
  match parseVersion (tc_extensions c) with
  | Err m => mret (Return (put (fatal now m) new_session))
  | Ok version =>
      r ← IsSubscribeSupported (sub_paths (tc_path2URI c) subs) (user_of (get_context (tc_ctx c))) version;
      match r with
      | Err e => mret (Return (put (fatal now ("Subscribe operation failed with error =" +:+ Error e)) new_session))
      | Ok infos =>
          f ← start_all now version updatesOnly subs infos new_session;
          match f with
          | Go s =>
              f ← watch now version updatesOnly s;
              match f with Go s => stream_loop version evs s | f => mret f end
          | f => mret f
          end
      end
  end.

(** *** Polls *)

(** The samples of a poll, over the URIs in the order of the range. *)
Fixpoint sample_all (now : Z) (version : option Version) (uris : list string) (s : session) : ST TL flow :=
  match uris with
  | [] => mret (Go s)
  | uri :: uris =>
      r ← doSample now version uri (ss_closed s)
            {| ts_cache := None; ts_filterMsgs := false; ts_filterDups := false; ts_stopOnSync := false;
               ts_rcvd := ∅ |};
      match r with
      | None => mret (Blocked s)
      | Some p => sample_all now version uris (sampled uri p s)
      end
  end.

(** The polls until the channel is closed, each with its time. *)
Fixpoint poll_loop (version : option Version) (uris : list string) (updatesOnly first : bool) (polls : list Z)
    (closed_at : Z) (s : session) : ST TL flow :=
  if ss_closed s then mret (Return (put (fatal closed_at "") s))
  else
    match polls with
    | [] => mret (Return (put (fatal closed_at "") s))
    | now :: polls =>
        f ← (if first && updatesOnly then mret (Go s) else sample_all now version uris s);
        match f with
        | Go s => poll_loop version uris updatesOnly false polls closed_at (put [sync_value now] s)
        | f => mret f
        end
    end.

Definition PollRun (now : Z) (c : TranslClient) (updatesOnly : bool) (polls : list Z) (closed_at : Z)
  : ST TL flow :=
  match parseVersion (tc_extensions c) with
  | Err m => mret (Return (put (fatal now m) new_session))
  | Ok version => poll_loop version (tc_path2URI c).*2 updatesOnly true polls closed_at new_session
  end.

Definition OnceRun (now : Z) (c : TranslClient) (once : option Z) : ST TL flow :=
  match parseVersion (tc_extensions c) with
  | Err m => mret (Return (put (fatal now m) new_session))
  | Ok version =>
      match once with
      | None => mret (Return (put (fatal now "") new_session))
      | Some now =>
          f ← sample_all now version (tc_path2URI c).*2 new_session;
          mret match f with Go s => Return (put [sync_value now] s) | f => f end
      end
  end.

End stream.

(** ** Preferences of subscriptions (src/gnmi_server/debug.go)

    The debug service tells a client how it should subscribe to paths.
    [path.New] and the sort, which leaves the order of equal entries open, are
    parameters; [sends] is how many messages can be sent before the stream
    fails. *)
Record SubscribePreference := {
  pref_Path : Path;
  WildcardSupported : bool;
  OnChangeSupported : bool;
  TargetDefinedMode : SubscriptionMode;
  MinSampleInterval : Z
}.

Section preferences.
Context {T : Translib} {Y : Ygot} (A : AuthEnv) (now : Z) (cfg : AuthConfig).
Context (path_New : string → res string Path) (sort_infos : list SubInfo → list SubInfo).

Definition hasOnChangeDisabledSubpath (id : nat) (allPrefs : list SubInfo) : bool :=
  existsb (λ p, bool_decide (si_id p = id) && si_subpath p && negb (si_onchange p)) allPrefs.

Definition preference (all : list SubInfo) (r : SubInfo) (p : Path) : SubscribePreference := {|
  pref_Path := p;
  WildcardSupported := si_wildcard r;
  OnChangeSupported := if negb (si_subpath r) && hasOnChangeDisabledSubpath (si_id r) all then false else si_onchange r;
  TargetDefinedMode := if si_onchange r && bool_decide (si_preferred r = OnChange) then ON_CHANGE else SAMPLE;
  MinSampleInterval := (si_min r * second) mod 2 ^ 64
|}.

Fixpoint send_preferences (all rest : list SubInfo) (sends : nat) : list SubscribePreference * status_res () :=
  match rest with
  | [] => ([], Ok ())
  | r :: rest =>
      match path_New (si_path r) with
      | Err e => ([], Err (Internal, e))
      | Ok p =>
          match sends with
          | 0 => ([], Err (Unknown, "send"))
          | S sends => let '(sent, x) := send_preferences all rest sends in (preference all r p :: sent, x)
          end
      end
  end.

Fixpoint preference_uris (i : nat) (paths : list Path) : res failure (list SubPath) :=
  match paths with
  | [] => Ok []
  | p :: paths =>
      uri ← ConvertToURI true None (Some p);
      rest ← preference_uris (S i) paths;
      Ok ({| sp_id := Z.of_nat i; sp_path := uri; sp_mode := TargetDefined |} :: rest)
  end.

Definition GetSubscribePreferences (r : Request) (paths : list Path) (sends : nat)
  : ST (AuthState * TL) (list SubscribePreference * status_res ()) := λ s,
  let '(a, e) := authenticate A now cfg r "gnmi" false s.1 in
  match e with
  | Err e => ((a, s.2), ([], Err e))
  | Ok _ =>
      match preference_uris 0 paths with
      | Err _ => ((a, s.2), ([], Err (InvalidArgument, "Unknown path")))
      | Ok translPaths =>
          let '(t, x) := IsSubscribeSupported translPaths
            {| ur_name := User (info a); ur_roles := Roles (info a) |} None s.2 in
          match x with
          | Err e => ((a, t), ([], Err (InvalidArgument, Error e)))
          | Ok trResp => let all := sort_infos trResp in ((a, t), send_preferences all all sends)
          end
      end
  end.
End preferences.
