(* ===== verification/TranslStreamFacts.v ===== *)
(** * What sampled subscriptions send

    [sample_follows]: after a sample the cache of a subscription holds exactly
    what the sample reported, and what it held before and the sample did not
    report is reported as deleted.  [timers_bounded] bounds the timers of a
    stream from below by the minimum translib asks for.
    [version_check_inverted] is about the check of the bundle version. *)
From stdpp Require Import base gmap sets list strings.
From S2P Require Import Prelude GoStrings Gnmi World Auth DbClient Transl TranslStream.

(** ** Bundle versions *)

Section version.
Context {T : Translib} {Y : Ygot} {MR : MapRange}.

(** The check of the bundle version is inverted: a stream, poll or once
    subscription whose version translib can parse is refused with a fatal
    message before anything is asked of translib, and one with a version that
    cannot be parsed runs as if it had none. *)
Theorem version_check_inverted pfx now c bv s :
  getBundleVersion (tc_extensions c) = Some bv →
  (∀ v, NewVersion bv = Ok v →
     let refused := Return (put (fatal now ("Invalid bundle version: " +:+ bv)) new_session) in
     (∀ upd subs evs, StreamRun pfx now c upd subs evs s = (s, refused)) ∧
     (∀ upd polls at_, PollRun pfx now c upd polls at_ s = (s, refused)) ∧
     (∀ once, OnceRun pfx now c once s = (s, refused))) ∧
  (∀ e, NewVersion bv = Err e → parseVersion (tc_extensions c) = parseVersion []).
Proof.
  intros Hbv. unfold StreamRun, PollRun, OnceRun, parseVersion. rewrite Hbv.
  split; [intros v Hv|intros e He].
  - by rewrite Hv.
  - by rewrite He.
Qed.

End version.

(** ** One sample *)

Section sample.
Context {T : Translib} {Y : Ygot} {MR : MapRange} (pfx : option Path).

(** ygot parses the path. *)
Definition parses (path : string) : Prop := is_ok (StringToStructuredPath path) = true.

(** A response with data. *)
Definition plain (v : SubscribeResponse G) : Prop := sr_sync v = false ∧ sr_terminated v = false.

(** A response from which a notification can be made. *)
Definition sendable (dups : bool) (v : SubscribeResponse G) : Prop :=
  parses (sr_path v) ∧ ∀ old, is_ok (Diff old (sr_update v) (negb dups)) = true.

Definition cache_after (c : ygotCache) (vs : list (SubscribeResponse G)) : ygotCache :=
  foldl (λ c v, {| yc_values := <[sr_path v := sr_update v]> (yc_values c); yc_pattern := yc_pattern c |}) c vs.

Definition with_cache (ts : translSubscriber) (c : ygotCache) (rcvd : gset string) : translSubscriber :=
  {| ts_cache := Some c; ts_filterMsgs := ts_filterMsgs ts; ts_filterDups := ts_filterDups ts;
     ts_stopOnSync := ts_stopOnSync ts; ts_rcvd := rcvd |}.

Definition paths_of (vs : list (SubscribeResponse G)) : gset string := list_to_set (sr_path <$> vs).

Lemma after_app out out' p : after out (after out' p) = after (out ++ out') p.
Proof. unfold after. simpl. by rewrite app_assoc. Qed.

Lemma toPrefix_ok path : parses path → ∃ p, toPrefix pfx path = Ok p.
Proof. unfold parses, toPrefix. destruct (StringToStructuredPath path); [|done]. eauto. Qed.

Lemma notify_update now v ts c :
  ts_cache ts = Some c → ts_filterMsgs ts = false → sendable (ts_filterDups ts) v →
  ∃ out, notify pfx now (Some v) ts =
    (with_cache ts (cache_after c [v]) ({[sr_path v]} ∪ ts_rcvd ts), Ok out).
Proof.
  intros Hc Hf [Hp Hd]. unfold notify, build. rewrite Hc. simpl. rewrite Hf.
  destruct (toPrefix_ok _ Hp) as [p Hpp].
  specialize (Hd (default None (yc_values c !! sr_path v))).
  destruct (Diff _ _ _) as [[us ds]|]; [|done]. rewrite Hpp. simpl.
  unfold with_cache, cache_after. simpl. rewrite Hf. destruct us; [destruct ds|]; eauto.
Qed.

Lemma process_updates now vs rest closed ts c :
  ts_cache ts = Some c → ts_filterMsgs ts = false →
  Forall plain vs → Forall (sendable (ts_filterDups ts)) vs →
  ∃ out, processResponses pfx now ((Item <$> vs) ++ rest) closed ts =
    after out (processResponses pfx now rest closed (with_cache ts (cache_after c vs) (paths_of vs ∪ ts_rcvd ts))).
Proof.
  revert ts c. induction vs as [|v vs IH]; intros ts c Hc Hf Hp Hs.
  - exists []. unfold after, cache_after. simpl. assert (with_cache ts c (paths_of [] ∪ ts_rcvd ts) = ts) as ->.
    { destruct ts. simpl in *. unfold with_cache, paths_of. simpl. f_equal; [done|set_solver]. }
    by destruct (processResponses _ _ _ _ _).
  - apply Forall_cons in Hp as [[Hsy Hte] Hp], Hs as [Hv Hs].
    rewrite fmap_cons, <- app_comm_cons. cbn [processResponses]. rewrite Hte, Hsy.
    destruct (notify_update now v ts c Hc Hf Hv) as [out1 ->].
    destruct (IH (with_cache ts (cache_after c [v]) ({[sr_path v]} ∪ ts_rcvd ts)) (cache_after c [v]))
      as [out2 ->]; [done..|].
    exists (out1 ++ out2). rewrite after_app. unfold with_cache. cbn [ts_rcvd].
    assert (paths_of vs ∪ ({[sr_path v]} ∪ ts_rcvd ts) = paths_of (v :: vs) ∪ ts_rcvd ts) as ->; [|done].
    apply set_eq. intros x. unfold paths_of. rewrite fmap_cons, list_to_set_cons. set_solver.
Qed.

(** *** What is gone *)

(** The path reported for a cache entry that is gone. *)
Definition delete_path (c : ygotCache) (path : string) : Path :=
  match toDeletePath c path with Ok p => p | Err _ => path_of [] end.

Lemma toDeletePath_ok c path : is_Some (yc_pattern c) → parses path → toDeletePath c path = Ok (delete_path c path).
Proof.
  intros [pat Hpat] Hp. unfold delete_path, toDeletePath, parses in *. rewrite Hpat.
  by destruct (StringToStructuredPath path).
Qed.

Definition gone (rcvd : gset string) (keys : list string) : list string := filter (λ k, k ∉ rcvd) keys.

Lemma delete_loop_run rcvd entries c :
  is_Some (yc_pattern c) → Forall parses entries.*1 →
  delete_loop c rcvd entries =
    ({| yc_values := foldl (λ m k, delete k m) (yc_values c) (gone rcvd entries.*1); yc_pattern := yc_pattern c |},
     Ok (delete_path c <$> gone rcvd entries.*1)).
Proof.
  revert c. induction entries as [|[k x] entries IH]; intros c Hpat Hp; simpl.
  - by destruct c.
  - apply Forall_cons in Hp as [Hk Hp]. unfold gone in *. rewrite filter_cons. case_bool_decide as Hin.
    + rewrite decide_False by (intros H; by apply H). by apply IH.
    + rewrite decide_True by done. rewrite toDeletePath_ok by done. rewrite IH by done. done.
Qed.

Lemma delete_keys_lookup (m : gmap string (option G)) ks k :
  foldl (λ m k, delete k m) m ks !! k = if bool_decide (k ∈ ks) then None else m !! k.
Proof.
  revert m. induction ks as [|k' ks IH]; intros m; simpl; [done|]. rewrite IH.
  destruct (decide (k = k')) as [->|Hne].
  - rewrite (bool_decide_true (k' ∈ k' :: ks)) by set_solver. case_bool_decide; [done|]. apply lookup_delete_eq.
  - rewrite lookup_delete_ne by done. by rewrite (bool_decide_ext (k ∈ k' :: ks) (k ∈ ks)) by set_solver.
Qed.

Lemma elem_of_gone rcvd (m : gmap string (option G)) k :
  k ∈ gone rcvd (map_range m).*1 ↔ k ∈ dom m ∧ k ∉ rcvd.
Proof.
  unfold gone. rewrite list_elem_of_filter. rewrite map_range_perm, elem_of_dom.
  rewrite list_elem_of_fmap. split.
  - intros [Hr [[k' x] [-> Hin]]]. apply elem_of_map_to_list in Hin. split; [by eexists|done].
  - intros [[x Hx] Hr]. split; [done|]. exists (k, x). by rewrite elem_of_map_to_list.
Qed.

Lemma cache_after_lookup c vs k :
  yc_values (cache_after c vs) !! k =
    match last (filter (λ v, sr_path v = k) vs) with Some v => Some (sr_update v) | None => yc_values c !! k end.
Proof.
  induction vs as [|v vs IH] using rev_ind; [done|]. unfold cache_after in *. rewrite foldl_app. simpl.
  rewrite filter_app, filter_cons, filter_nil. case_decide as Hk; [subst k|].
  - by rewrite lookup_insert_eq, last_snoc.
  - rewrite lookup_insert_ne by done. rewrite IH. by rewrite app_nil_r.
Qed.

Lemma cache_after_pattern c vs : yc_pattern (cache_after c vs) = yc_pattern c.
Proof. induction vs as [|v vs IH] using rev_ind; [done|]. unfold cache_after in *. by rewrite foldl_app. Qed.

Lemma cache_after_dom c vs : dom (yc_values (cache_after c vs)) = dom (yc_values c) ∪ paths_of vs.
Proof.
  induction vs as [|v vs IH] using rev_ind.
  - unfold paths_of. simpl. set_solver.
  - unfold cache_after in *. rewrite foldl_app. simpl. rewrite dom_insert_L, IH. unfold paths_of.
    rewrite fmap_app, list_to_set_app_L. simpl. set_solver.
Qed.

Lemma delete_path_pattern c c' (ks : list string) :
  yc_pattern c = yc_pattern c' → delete_path c <$> ks = delete_path c' <$> ks.
Proof. intros Hp. apply list_fmap_ext. intros i k _. unfold delete_path, toDeletePath. by rewrite Hp. Qed.

Lemma last_update c vs1 v vs2 :
  sr_path v ∉ paths_of vs2 → yc_values (cache_after c (vs1 ++ v :: vs2)) !! sr_path v = Some (sr_update v).
Proof.
  intros Hv. rewrite cache_after_lookup, filter_app, filter_cons, decide_True by done.
  assert (filter (λ v', sr_path v' = sr_path v) vs2 = []) as ->; [|by rewrite last_snoc].
  destruct (filter _ vs2) as [|v' vs'] eqn:Hf; [done|].
  assert (v' ∈ filter (λ v', sr_path v' = sr_path v) vs2) as [He Hin]%list_elem_of_filter by (rewrite Hf; set_solver).
  destruct Hv. rewrite <- He. unfold paths_of. rewrite elem_of_list_to_set. by apply list_elem_of_fmap_2.
Qed.

(** The subscriber of a sample with a cache and without filters. *)
Definition sampling (c : ygotCache) (dups : bool) : translSubscriber :=
  {| ts_cache := Some c; ts_filterMsgs := false; ts_filterDups := dups; ts_stopOnSync := true; ts_rcvd := ∅ |}.

(** The notification of deletions, if there are any. *)
Definition deletions (now : Z) (prefix : Path) (ds : list Path) : list Value :=
  match ds with
  | [] => []
  | _ => [notification_value {| n_timestamp := now; n_prefix := Some prefix; n_update := []; n_delete := ds |}]
  end.

Lemma notify_end now ts c prefix :
  ts_cache ts = Some c → ts_filterMsgs ts = false → toPrefix pfx "/" = Ok prefix →
  is_Some (yc_pattern c) → (∀ k, k ∈ dom (yc_values c) → parses k) →
  let dead := gone (ts_rcvd ts) (map_range (yc_values c)).*1 in
  notify pfx now None ts =
    (with_cache ts {| yc_values := foldl (λ m k, delete k m) (yc_values c) dead; yc_pattern := yc_pattern c |}
       (ts_rcvd ts),
     Ok (deletions now prefix (delete_path c <$> dead))).
Proof.
  intros Hc Hf Hpre Hpat Hp dead. unfold notify, build. rewrite Hc. simpl. unfold deleteMsgBuilder. rewrite Hf.
  rewrite delete_loop_run; [|done|].
  - fold dead. simpl. unfold with_cache. rewrite Hf. unfold deletions.
    destruct (delete_path c <$> dead); simpl; [done|]. by rewrite Hpre.
  - apply Forall_forall. intros k Hk. apply Hp. rewrite map_range_perm, list_elem_of_fmap in Hk.
    destruct Hk as ([k' x] & -> & Hin). apply elem_of_map_to_list in Hin. by apply elem_of_dom_2 in Hin.
Qed.

(** A sample leaves in the cache of a subscription exactly what it
    reported, each path with its last value; what the cache held before and
    the sample did not report is reported as deleted, once each, in the last
    message, and nothing else is. *)
Theorem sample_follows now vs sync closed dups c prefix :
  Forall plain vs → Forall (sendable dups) vs → sr_sync sync = true → sr_terminated sync = false →
  is_Some (yc_pattern c) → (∀ k, k ∈ dom (yc_values c) → parses k) → toPrefix pfx "/" = Ok prefix →
  ∃ out dead c',
    let p := processResponses pfx now ((Item <$> vs) ++ [Item sync]) closed (sampling c dups) in
    pr_end p = Returned ∧ pr_closed p = closed ∧ ts_cache (pr_ts p) = Some c' ∧
    dom (yc_values c') = paths_of vs ∧
    (∀ v vs1 vs2, vs = vs1 ++ v :: vs2 → sr_path v ∉ paths_of vs2 →
       yc_values c' !! sr_path v = Some (sr_update v)) ∧
    pr_out p = out ++ deletions now prefix (delete_path c <$> dead) ∧
    NoDup dead ∧ ∀ k, k ∈ dead ↔ k ∈ dom (yc_values c) ∧ k ∉ paths_of vs.
Proof.
  intros Hpl Hs Hsy Hte Hpat Hpar Hpre.
  destruct (process_updates now vs [Item sync] closed (sampling c dups) c eq_refl eq_refl Hpl Hs) as [out Hrun].
  set (c1 := cache_after c vs) in *. set (ts := with_cache _ _ _) in *.
  assert (ts_rcvd ts = paths_of vs) as Hrcvd by (apply (right_id_L ∅ (∪))).
  pose proof (cache_after_pattern c vs : yc_pattern c1 = _) as Hpat1.
  pose proof (cache_after_dom c vs : dom (yc_values c1) = _) as Hdom1.
  set (dead := gone (ts_rcvd ts) (map_range (yc_values c1)).*1).
  assert (∀ k, k ∈ dead ↔ k ∈ dom (yc_values c) ∧ k ∉ paths_of vs) as Hdead.
  { intros k. unfold dead. rewrite elem_of_gone, Hdom1, Hrcvd. set_solver. }
  exists out, dead, {| yc_values := foldl (λ m k, delete k m) (yc_values c1) dead; yc_pattern := yc_pattern c1 |}.
  rewrite Hrun. cbn [processResponses]. rewrite Hte, Hsy. cbn [ts_stopOnSync ts with_cache sampling].
  rewrite (notify_end now ts c1 prefix); [|done..| |]; [|by rewrite Hpat1| ].
  - fold dead. cbn. rewrite (delete_path_pattern c1 c) by done.
    split_and!; [done|done|done| | |done| |done]; [| |apply NoDup_filter, NoDup_map_range_fst].
    + apply set_eq. intros k. rewrite elem_of_dom, delete_keys_lookup. case_bool_decide as Hk.
      * rewrite Hdead in Hk. split; [by intros []|tauto].
      * rewrite <- elem_of_dom, Hdom1, elem_of_union. rewrite Hdead in Hk.
        destruct (decide (k ∈ paths_of vs)); tauto.
    + intros v vs1 vs2 -> Hv. rewrite delete_keys_lookup, bool_decide_false.
      * by apply last_update.
      * rewrite Hdead. intros [_ []]. unfold paths_of. rewrite fmap_app, fmap_cons. set_solver.
  - intros k. rewrite Hdom1, elem_of_union. intros [?|Hk]; [by apply Hpar|].
    unfold paths_of in Hk. rewrite elem_of_list_to_set, list_elem_of_fmap in Hk. destruct Hk as (v & -> & Hv).
    rewrite Forall_forall in Hs. by apply Hs.
Qed.
End sample.

(** ** Timers *)

Section timers.
Context {T : Translib} {Y : Ygot} {MR : MapRange} (pfx : option Path).

(** The session of a flow. *)
Definition session_of (f : flow) : session :=
  match f with Go s | Return s | Blocked s => s end.

(** The minimum of a path fits an [int] of nanoseconds. *)
Definition sane_min (p : SubInfo) : Prop := (0 < min_of p * second < 2 ^ 63)%Z.

Definition uint64 (z : Z) : Prop := (0 <= z < 2 ^ 64)%Z.

Definition sane_sub (sub : Subscription) : Prop := uint64 (sub_sample sub) ∧ uint64 (sub_heartbeat sub).

(** A ticker of one of the paths, not faster than the path allows. *)
Definition slow_enough (infos : list SubInfo) (t : Ticker) : Prop :=
  ∃ p, p ∈ infos ∧ tk_path t = si_path p ∧ (min_of p * second <= tk_interval t < 2 ^ 63)%Z.

Lemma to_int64_range z : (- 2 ^ 63 <= to_int64 z < 2 ^ 63)%Z.
Proof. unfold to_int64. pose proof (Z.mod_pos_bound (z + 2 ^ 63) (2 ^ 64)). lia. Qed.

Lemma to_int64_id z : (- 2 ^ 63 <= z < 2 ^ 63)%Z → to_int64 z = z.
Proof. intros Hz. unfold to_int64. rewrite Z.mod_small; lia. Qed.

Lemma to_int64_pos z : uint64 z → (0 < to_int64 z)%Z → to_int64 z = z.
Proof.
  unfold uint64. intros Hz Hpos. destruct (decide (z < 2 ^ 63)%Z) as [?|Hge]; [apply to_int64_id; lia|].
  exfalso. unfold to_int64 in Hpos. assert ((z + 2 ^ 63) mod 2 ^ 64 = z - 2 ^ 63)%Z as Hm; [|lia].
  symmetry. apply (Z.mod_unique _ _ 1); lia.
Qed.

Lemma sample_interval_slow sub p i :
  sane_min p → sample_interval sub (min_of p) = Some i → (min_of p * second <= i < 2 ^ 63)%Z.
Proof.
  unfold sane_min, sample_interval. intros Hm. rewrite (to_int64_id (min_of p * second)) by lia.
  case_bool_decide; [intros [= <-]; lia|]. case_bool_decide; [done|]. intros [= <-].
  pose proof (to_int64_range (sub_sample sub)). lia.
Qed.

Lemma heartbeat_slow sub p :
  sane_min p → sane_sub sub → bad_heartbeat sub (min_of p) = false → (0 < sub_heartbeat sub)%Z →
  (0 < to_int64 (sub_heartbeat sub))%Z →
  (min_of p * second <= to_int64 (sub_heartbeat sub) < 2 ^ 63)%Z.
Proof.
  unfold sane_min. intros Hm [_ Hh] Hbad Hpos Hint. pose proof (to_int64_range (sub_heartbeat sub)).
  unfold bad_heartbeat in Hbad. rewrite bool_decide_true in Hbad by done. simpl in Hbad.
  apply bool_decide_eq_false_1 in Hbad. rewrite Z.mod_small in Hbad by lia.
  rewrite to_int64_pos in * by done. lia.
Qed.

(** A step of the set-up keeps a property of the tickers when every ticker it
    adds has it. *)
Lemma with_timer_all (P : Ticker → Prop) now t s k tl :
  Forall P (ss_tickers s) → ((0 < tk_interval t)%Z → P t) →
  (∀ s', ss_tickers s' = ss_tickers s ++ [t] → Forall P (ss_tickers s') →
     Forall P (ss_tickers (session_of (k s' tl).2))) →
  Forall P (ss_tickers (session_of (with_timer now t s k tl).2)).
Proof.
  intros Hs Ht Hk. unfold with_timer, addTimer. case_bool_decide as Hpos; simpl; [done|].
  apply Hk; [done|]. simpl. apply Forall_app. split; [done|]. constructor; [|done]. apply Ht. lia.
Qed.

Lemma start_one_slow infos now version upd subs p s tl :
  p ∈ infos → sane_min p → Forall sane_sub subs → Forall (slow_enough infos) (ss_tickers s) →
  Forall (slow_enough infos) (ss_tickers (session_of (start_one pfx now version upd subs p s tl).2)).
Proof.
  intros Hp Hm Hsubs Hs. unfold start_one. destruct (subs !! si_id p) as [sub|] eqn:Hsub; [|done].
  assert (sane_sub sub) as Hsane by (by eapply Forall_lookup_1).
  destruct (effective_mode sub p) as [mode|]; [|done].
  destruct (bad_heartbeat sub (min_of p)) eqn:Hbad; [done|].
  assert (∀ t, tk_path t = si_path p → tk_interval t = to_int64 (sub_heartbeat sub) →
            (0 < sub_heartbeat sub)%Z → (0 < tk_interval t)%Z → slow_enough infos t) as Hhb.
  { intros t Hpath Hi Hh Hpos. exists p. split; [done|]. split; [done|]. rewrite Hi in *. by apply heartbeat_slow. }
  destruct mode; [done| | |done].
  - unfold start_onchange. case_bool_decide as Hh; [|done]. apply with_timer_all; [done|by apply Hhb|done].
  - unfold start_sample. destruct (sample_interval sub (min_of p)) as [i|] eqn:Hi; [|done].
    unfold mbind at 1, ST_bind at 1.
    destruct (doSample _ _ _ _ _ _ tl) as [tl' [pr|]]; [|done].
    apply with_timer_all; [done| |].
    + intros _. exists p. split; [done|]. split; [done|]. simpl. by eapply sample_interval_slow.
    + intros s' _ Hs'. destruct (sub_suppress sub); simpl; [|done]. case_bool_decide as Hh; [|done].
      apply with_timer_all; [done|by apply Hhb|done].
Qed.

(** No timer of a stream is faster than translib allows: when the loop of
    a stream begins, every sample or heartbeat timer belongs to a path that
    translib accepted, fires at intervals of at least the minimum of that
    path, and its interval is a positive 64-bit number, whatever the client
    asked for. *)
Theorem timers_bounded now version upd subs infos tl :
  Forall sane_sub subs → Forall sane_min infos →
  Forall (slow_enough infos)
    (ss_tickers (session_of (start_all pfx now version upd subs infos new_session tl).2)).
Proof.
  intros Hsubs Hmin. assert (∀ l s tl, l ⊆ infos → Forall (slow_enough infos) (ss_tickers s) →
    Forall (slow_enough infos) (ss_tickers (session_of (start_all pfx now version upd subs l s tl).2))) as H.
  { rewrite Forall_forall in Hmin.
    induction l as [|p l IH]; intros s tl' Hl Hs; simpl; [done|].
    unfold mbind, ST_bind. pose proof (start_one_slow infos now version upd subs p s tl') as Hone.
    destruct (start_one pfx now version upd subs p s tl') as [tl1 f].
    assert (Forall (slow_enough infos) (ss_tickers (session_of f))) as Hf.
    { apply Hone; [set_solver|apply Hmin; set_solver|done|done]. }
    destruct f; [apply IH; [set_solver|done]|done|done]. }
  apply H; [done|constructor].
Qed.
End timers.

(** ** Preferences of subscriptions *)
Section preference_facts.
Context {T : Translib} {Y : Ygot} (path_New : string → res string Path).

Lemma send_preferences_spec all rest sends sent x :
  send_preferences path_New all rest sends = (sent, x) →
  (∀ i pref, sent !! i = Some pref → ∃ r p, rest !! i = Some r ∧ path_New (si_path r) = Ok p ∧ pref = preference all r p) ∧
  (is_ok x = true ↔ length sent = length rest).
Proof.
  revert sends sent x. induction rest as [|r rest IH]; intros sends sent x; simpl.
  { intros [= <- <-]. split; [|done]. by intros i pref. }
  destruct (path_New (si_path r)) as [p|e] eqn:Hp; [|intros [= <- <-]; split; [by intros i pref|done]].
  destruct sends as [|sends]; [intros [= <- <-]; split; [by intros i pref|done]|].
  destruct (send_preferences path_New all rest sends) as [sent' x'] eqn:Hs. intros [= <- <-].
  destruct (IH _ _ _ Hs) as [H1 H2]. split.
  - intros [|i] pref; simpl; [intros [= <-]; eauto|apply H1].
  - rewrite H2. simpl. lia.
Qed.

(** The preferences that are sent are those of the paths in order, all of
    them unless the stream ends with an error; on-change is offered for a path
    exactly when translib supports it there and, unless the entry is itself a
    part of a larger path, on all its parts. *)
Theorem preferences_sent all sends sent x :
  send_preferences path_New all all sends = (sent, x) →
  (is_ok x = true ↔ length sent = length all) ∧
  ∀ i pref, sent !! i = Some pref → ∃ r, all !! i = Some r ∧
    (OnChangeSupported pref = true ↔
     si_onchange r = true ∧
     (si_subpath r = true ∨ ∀ q, q ∈ all → si_id q = si_id r → si_subpath q = true → si_onchange q = true)) ∧
    (0 ≤ MinSampleInterval pref < 2 ^ 64)%Z.
Proof.
  intros [Hs Hx]%send_preferences_spec. split; [done|]. intros i pref Hi.
  destruct (Hs _ _ Hi) as (r & p & Hr & _ & ->). exists r. split; [done|]. split; [|apply Z.mod_pos_bound; lia]. simpl.
  assert (hasOnChangeDisabledSubpath (si_id r) all = false ↔
    ∀ q, q ∈ all → si_id q = si_id r → si_subpath q = true → si_onchange q = true) as Hd.
  { unfold hasOnChangeDisabledSubpath. split.
    - intros Hf q Hq Hid Hsub. destruct (si_onchange q) eqn:Hon; [done|].
      assert (existsb (λ p, bool_decide (si_id p = si_id r) && si_subpath p && negb (si_onchange p)) all = true) as Ht;
        [|congruence].
      apply existsb_exists. exists q. split; [by apply list_elem_of_In|]. by rewrite bool_decide_true, Hsub, Hon.
    - intros Hall. apply not_true_iff_false. intros (q & Hq%list_elem_of_In & Hc)%existsb_exists.
      rewrite !andb_true_iff in Hc. destruct Hc as [[Hid%bool_decide_eq_true Hsub] Hon].
      rewrite (Hall q Hq Hid Hsub) in Hon. done. }
  destruct (si_subpath r); simpl; [split; [by auto|by intros [? _]]|].
  destruct (hasOnChangeDisabledSubpath (si_id r) all) eqn:Hh.
  - split; [done|]. intros [_ [?|Ha]]; [done|]. apply Hd in Ha. done.
  - split; [|by intros [? _]]. intros ?. split; [done|]. right. by apply Hd.
Qed.

(** A path whose parts do not all support on-change is announced as not
    supporting it and, in the same message, as on-change when the target
    chooses. *)
Theorem preference_contradicts all r q p :
  q ∈ all → si_id q = si_id r → si_subpath q = true → si_onchange q = false →
  si_subpath r = false → si_onchange r = true → si_preferred r = OnChange →
  OnChangeSupported (preference all r p) = false ∧ TargetDefinedMode (preference all r p) = ON_CHANGE.
Proof.
  intros Hq Hid Hsub Hoff Hr Hon Hpref. unfold preference. simpl. rewrite Hr, Hon, Hpref. split; [|done].
  assert (hasOnChangeDisabledSubpath (si_id r) all = true) as ->; [|done].
  apply existsb_exists. exists q. split; [by apply list_elem_of_In|]. by rewrite bool_decide_true, Hsub, Hoff.
Qed.
End preference_facts.


(** ** Instances at concrete sessions *)
Module TranslStreamExample.

(** A library whose samples are given by its state; objects are strings. *)
#[local] Instance lib : Translib := {|
  TL := nat;
  Version := string;
  NewVersion v := if bool_decide (v = "1.0.0") then Ok v else Err (InvalidArgsError v);
  tl_Get _ s := (s, ("", None));
  tl_Delete _ s := (s, None);
  tl_Replace _ s := (s, None);
  tl_Update _ s := (s, None);
  tl_Bulk _ s := (s, ([], None));
  tl_Action _ s := (s, Ok "");
  tl_models := [];
  Validate _ p := Ok p;
  PathToString _ := Ok "";
  Compact d := d
|}.
Definition sync0 : SubscribeResponse string :=
  {| sr_path := ""; sr_update := None; sr_delete := []; sr_timestamp := 0; sr_sync := true; sr_terminated := false |}.
#[local] Instance ygot : Ygot := {|
  G := string;
  StringToStructuredPath s := Ok (path_of [s]);
  TogNMINotifications g := Ok [(path_of ["leaf"], Some (StringVal g))];
  Diff _ g all := Ok ([], []);
  MinSubscribeInterval := 20;
  IsSubscribeSupported _ _ _ s := (s, Ok []);
  tl_Stream _ _ s := (S s, ([Item sync0], None));
  tl_Subscribe _ _ s := (S s, ([Item sync0], None))
|}.
#[local] Instance order : MapRange := canonical_range.

Definition tl0 : @TL lib := 0.

Definition versioned_client : TranslClient :=
  {| tc_prefix := None; tc_path2URI := []; tc_ctx := None; tc_extensions := [RegisteredExt 700 "1.0.0"] |}.

Lemma version_check_inverted_witness :
  StreamRun None 5 versioned_client false [] [] tl0 =
    (tl0, Return (put (fatal 5 "Invalid bundle version: 1.0.0") new_session)).
Proof. apply (version_check_inverted None 5 versioned_client "1.0.0" tl0 eq_refl) with (v := "1.0.0"). reflexivity. Defined.

Definition data (path g : string) : SubscribeResponse string :=
  {| sr_path := path; sr_update := Some g; sr_delete := []; sr_timestamp := 1; sr_sync := false;
     sr_terminated := false |}.
Definition vs0 : list (SubscribeResponse G) := [data "/a" "1"; data "/c" "3"].
Definition end0 : SubscribeResponse G := sync0.
Definition cache0 : ygotCache :=
  {| yc_values := {[ "/a" := Some "1"; "/b" := Some "2" ]}; yc_pattern := Some (path_of ["x"; "y"]) |}.

(** [/b] disappears, [/c] is new. *)
Lemma sample_follows_witness :
  ∃ out dead c',
    let p := processResponses None 7 ((Item <$> vs0) ++ [Item end0]) false
               (sampling cache0 false) in
    pr_end p = Returned ∧ pr_closed p = false ∧ ts_cache (pr_ts p) = Some c' ∧
    dom (yc_values c') = paths_of vs0 ∧
    (∀ v vs1 vs2, vs0 = vs1 ++ v :: vs2 → sr_path v ∉ paths_of vs2 →
       yc_values c' !! sr_path v = Some (sr_update v)) ∧
    pr_out p = out ++ deletions 7 (path_of ["/"]) (delete_path cache0 <$> dead) ∧
    NoDup dead ∧ ∀ k, k ∈ dead ↔ k ∈ dom (yc_values cache0) ∧ k ∉ paths_of vs0.
Proof.
  apply (sample_follows None 7 vs0 end0 false false cache0 (path_of ["/"])).
  - repeat constructor.
  - repeat constructor.
  - reflexivity.
  - reflexivity.
  - by eexists.
  - intros k _. reflexivity.
  - reflexivity.
Defined.

Definition info0 : SubInfo :=
  {| si_id := 0; si_path := "/a"; si_onchange := true; si_preferred := Sample; si_min := 30; si_subpath := false;
     si_wildcard := true |}.
Definition sub0 : Subscription :=
  {| sub_mode := SAMPLE; sub_sample := 0; sub_heartbeat := 60 * second; sub_suppress := true |}.

Lemma timers_bounded_witness :
  Forall (slow_enough [info0])
    (ss_tickers (session_of (start_all None 5 None false [sub0] [info0] new_session tl0).2)) ∧
  length (ss_tickers (session_of (start_all None 5 None false [sub0] [info0] new_session tl0).2)) = 2.
Proof.
  split; [|reflexivity].
  apply (timers_bounded None 5 None false [sub0] [info0] tl0).
  - repeat constructor; vm_compute; congruence.
  - constructor; [|constructor]. unfold sane_min. vm_compute. done.
Defined.
End TranslStreamExample.
