(* ===== verification/Server.v ===== *)
(** * The gNMI server: Get and Set (src/gnmi_server/server.go)

    The handlers check the request (master arbitration, write mode, path
    policy, encoding), choose a data client from the target and the origin,
    authenticate and call the client.  The constructors of the clients that
    are not modelled are parameters ([Backend]); the fast path of Set is
    [Bypass.TrySet], the path policy the processor of [Pathz], authentication
    [Auth.authenticate].  The fast path and the clients act on the same
    world, files and databases, beside which the clients may have a state of
    their own. *)
From stdpp Require Import base gmap sets list strings.
From S2P Require Import Prelude GoStrings Gnmi Json Pathz Redis World Dbus DbConfig DbConn Bypass Auth DbClient.

(** ** Master arbitration *)

Definition zero128 : uint128 := {| High := 0; Low := 0 |}.

(** [Compare]; a nil argument counts as zero. *)
Definition uint128_Compare (lh : uint128) (rh : option uint128) : Z :=
  let rh := default zero128 rh in
  if bool_decide (High lh > High rh)%Z then 1
  else if bool_decide (High lh < High rh)%Z then -1
  else if bool_decide (Low lh > Low rh)%Z then 1
  else if bool_decide (Low lh < Low rh)%Z then -1
  else 0.

(** The loop over the extensions: the last election id, if there is one. *)
Fixpoint request_eid (exts : list Extension) (eid : option uint128)
  : status_res (option uint128) :=
  match exts with
  | [] => Ok eid
  | MasterArbitrationExt ma :: exts =>
      match ElectionId ma with
      | None => Err (InvalidArgument, "MA: ElectionId missing")
      | Some id => if has_role ma then Err (Unimplemented, "MA: Role is not implemented")
                   else request_eid exts (Some id)
      end
  | _ :: exts => request_eid exts eid
  end.

Definition ReqFromMasterEnabledMA (exts : list Extension) (master : uint128)
  : uint128 * status_res () :=
  match request_eid exts None with
  | Err e => (master, Err e)
  | Ok None => (master, Ok ())
  | Ok (Some reqEID) =>
      let c := uint128_Compare master (Some reqEID) in
      if bool_decide (c = 1%Z) then
        (master, Err (PermissionDenied, "Election ID is smaller than the current master. Rejected."))
      else if bool_decide (c = -1)%Z then (reqEID, Ok ())
      else (master, Ok ())
  end.

Definition ReqFromMasterDisabledMA (exts : list Extension) (master : uint128)
  : uint128 * status_res () := (master, Ok ()).

(** ** Origins *)

(** The loop of [ParseOrigin] after the first path; [path.Origin] of a nil
    path panics. *)
Fixpoint same_origin (origin : string) (paths : list (option Path)) : handled (status_res string) :=
  match paths with
  | [] => Returns (Ok origin)
  | None :: _ => Panics
  | Some p :: paths =>
      if bool_decide (origin = path_origin p) then same_origin origin paths
      else Returns (Err (Unimplemented, "Origin conflict in path"))
  end.

Definition ParseOrigin (paths : list (option Path)) : handled (status_res string) :=
  match paths with
  | [] => Returns (Ok "")
  | None :: _ => Panics
  | Some p :: paths => same_origin (path_origin p) paths
  end.

Definition IsNativeOrigin (origin : string) : bool := bool_decide (origin = "sonic-db").

(** ** The server *)

Record Config := {
  cfg_auth : AuthConfig;
  PathzPolicy : bool;
  EnableTranslibWrite : bool;
  EnableNativeWrite : bool;
  MasterArbitrationEnabled : bool
}.

Definition supportedEncodings : list Encoding := [JSON; JSON_IETF; PROTO].

Definition checkEncodingAndModel (encoding : Encoding) : option string :=
  if bool_decide (encoding ∈ supportedEncodings) then None else Some "unsupported encoding".

(** The error of a client: its gRPC status, if it has one, and its text. *)
Notation client_error := (option Code * string)%type.

Section server.
Context {Rd : Redis} {Sw : Swss} {Fmt : GoFmt} {MR : MapRange} {JC : JsonCodec}.

(** What the handlers change: the world (the databases and the files), which
    the fast path and the clients write alike, the state of the request's
    authentication, the election id, the counters, and the [backend] state:
    what else the clients that are parameters keep. *)
Context {BS : Type}.

Record State := {
  st_world : World;
  st_auth : AuthState;
  st_master : uint128;
  st_counters : CounterType → Z;
  st_backend : BS
}.

Notation SrvM X := (ST State X).

Definition lift_world {X} (m : ST World X) : SrvM X := λ s,
  let '(w, x) := m (st_world s) in
  ({| st_world := w; st_auth := st_auth s; st_master := st_master s;
      st_counters := st_counters s; st_backend := st_backend s |}, x).
Definition lift_auth {X} (m : ST AuthState X) : SrvM X := λ s,
  let '(a, x) := m (st_auth s) in
  ({| st_world := st_world s; st_auth := a; st_master := st_master s;
      st_counters := st_counters s; st_backend := st_backend s |}, x).

(** What a client works on: the world of the fast path and its own state. *)
Notation ClientM X := (ST (World * BS) X).

Definition lift_client {X} (m : ClientM X) : SrvM X := λ s,
  let '((w, b), x) := m (st_world s, st_backend s) in
  ({| st_world := w; st_auth := st_auth s; st_master := st_master s;
      st_counters := st_counters s; st_backend := b |}, x).

(** An operation of a client that leaves the world alone. *)
Definition on_backend {X} (m : ST BS X) : ClientM X := λ '(w, b),
  let '(b, x) := m b in ((w, b), x).

Definition lift_master {X} (m : uint128 → uint128 * X) : SrvM X := λ s,
  let '(e, x) := m (st_master s) in
  ({| st_world := st_world s; st_auth := st_auth s; st_master := e;
      st_counters := st_counters s; st_backend := st_backend s |}, x).

(** The authentication of one request: each has a context of its own, the
    cache of revocation lists is shared. *)
Definition authenticate_request (A : AuthEnv) (now : Z) (c : AuthConfig) (r : Request) (target : string)
    (writeAccess : bool) : SrvM (status_res ()) :=
  lift_auth (_ ← GetContext; authenticate A now c r target writeAccess).

(** [common_utils.IncCounter] on a uint64. *)
Definition IncCounter (c : CounterType) : SrvM () := λ s,
  ({| st_world := st_world s; st_auth := st_auth s; st_master := st_master s;
      st_counters := inc c (st_counters s);
      st_backend := st_backend s |}, ()).

(** A data client: how it reads and how it writes.  A value may be nil. *)
Record DataClient := {
  dc_get : ClientM (handled (res client_error (list (option Value))));
  dc_set : list (option Path) → list Update → list Update → ClientM (handled (option client_error))
}.

(** The constructors.  The client of native paths also reports the database
    its target names. *)
Record Backend := {
  NewNonDbClient : list Path → option Path → res string DataClient;
  NewShowClient : list Path → option Path → res string DataClient;
  NewDbClient_ : list Path → option Path → res string DataClient;
  NewMixedDbClient : list (option Path) → option Path → string → Encoding → res string DataClient * string;
  NewTranslClient : option Path → list Path → list Extension → res string DataClient;
  NewOperationalHandler : list Path → option Path → res string (ClientM (status_res (list Value)));
  SaveStartupConfig : ClientM ()
}.

Context (B : Backend) (A : AuthEnv) (now : Z) (cfg : Config) (processor : GnmiAuthzProcessor)
        (cfg_state : Cfg).

(** ** Set *)

Record SetRequest := {
  set_prefix : option Path;
  set_delete : list (option Path);
  set_replace : list Update;
  set_update : list Update;
  set_extension : list Extension
}.

Inductive SetOp := OpDelete | OpReplace | OpUpdate.
Definition results : Type := list (option Path * SetOp).

(** The decisions of the path policy are computed and dropped: [permitted] is
    never cleared. *)
Definition authorize_set (user : string) (req : SetRequest) : bool :=
  let ask path := AuthorizeWithPrefix processor user (set_prefix req) path MODE_WRITE in
  let _ := ask <$> set_delete req in
  let _ := (λ u, ask (upd_path u)) <$> set_replace req in
  let _ := (λ u, ask (upd_path u)) <$> set_update req in
  true.

Definition policy_set (r : Request) (req : SetRequest) : status_res () :=
  if PathzPolicy cfg then
    user ← getUsername r;
    if authorize_set user req then Ok ()
    else Err (PermissionDenied, "Unauthorized request. Rejected by pathz policy.")
  else Ok ().

Definition set_results (req : SetRequest) : results :=
  ((λ p, (p, OpDelete)) <$> set_delete req) ++
  ((λ u, (upd_path u, OpReplace)) <$> set_replace req) ++
  ((λ u, (upd_path u, OpUpdate)) <$> set_update req).

(** The answer of the fast path in the terms of the server. *)
Definition bypass_results (rs : list (option Path * Op)) : results :=
  (λ '(p, op), (p, match op with DELETE => OpDelete | UPDATE => OpUpdate end)) <$> rs.

(** The response and the error, as the handler returns both. *)
Definition set_answer : Type := handled (option results * option (Code * string)).

Definition refuse (c : CounterType) (e : Code * string) : SrvM set_answer :=
  _ ← IncCounter c; mret (Returns (None, Some e)).

(** From the data client on: authenticate, write, save. *)
Definition set_with (dc : res string DataClient) (authTarget : string) (r : Request) (req : SetRequest)
  : SrvM set_answer :=
  match dc with
  | Err e => refuse GNMI_SET_FAIL (NotFound, e)
  | Ok dc =>
      a ← authenticate_request A now (cfg_auth cfg) r authTarget true;
      match a with
      | Err e => refuse GNMI_SET_FAIL e
      | Ok _ =>
          e ← lift_client (dc_set dc (set_delete req) (set_replace req) (set_update req));
          match e with
          | Panics => mret Panics
          | Returns e =>
              _ ← (match e with
                   | Some _ => IncCounter GNMI_SET_FAIL
                   | None => lift_client (SaveStartupConfig B)
                   end);
              mret (Returns (Some (set_results req), (λ '(c, m), (default Unknown c, m)) <$> e))
          end
      end
  end.

Definition set_paths (req : SetRequest) : list (option Path) :=
  set_delete req ++ (upd_path <$> set_replace req) ++ (upd_path <$> set_update req).

(** The paths of a request are decoded from the wire: the elements of
    [Delete] are there, the path of an update may be missing. *)
Definition set_origin (req : SetRequest) : handled (status_res string) :=
  let origin := GetOrigin (set_prefix req) in
  if bool_decide (origin = "") then ParseOrigin (set_paths req) else Returns (Ok origin).

(** A write to the databases: the fast path first, before the request is
    authenticated. *)
Definition set_native (origin : string) (r : Request) (req : SetRequest) : SrvM set_answer :=
  if negb (EnableNativeWrite cfg) then
    refuse GNMI_SET_FAIL (Unimplemented, "GNMI native write is disabled")
  else
    t ← lift_world (TrySet (req_md r) (set_prefix req) (set_delete req) (set_replace req ++ set_update req));
    match t with
    | UsedFailed _ => refuse GNMI_SET_FAIL (Internal, "fast path")
    | Used (_, rs) => _ ← IncCounter GNMI_SET_BYPASS; mret (Returns (Some (bypass_results rs), None))
    | NotUsed =>
        let '(dc, db) := NewMixedDbClient B (set_paths req) (set_prefix req) origin JSON_IETF in
        set_with dc ("gnmi_" +:+ db) r req
    end.

(** What follows the check of the election id. *)
Definition set_admitted (r : Request) (req : SetRequest) : SrvM set_answer :=
  _ ← IncCounter GNMI_SET;
  if negb (EnableTranslibWrite cfg) && negb (EnableNativeWrite cfg) then
    refuse GNMI_SET_FAIL (Unimplemented, "GNMI is in read-only mode")
  else
    match policy_set r req with
    | Err e => mret (Returns (None, Some e))
    | Ok _ =>
        match set_origin req with
        | Panics => mret Panics
        | Returns (Err e) => mret (Returns (None, Some e))
        | Returns (Ok origin) =>
            if IsNativeOrigin origin then set_native origin r req
            else if negb (EnableTranslibWrite cfg) then
              refuse GNMI_SET_FAIL (Unimplemented, "Translib write is disabled")
            else set_with (NewTranslClient B (set_prefix req) [] (set_extension req)) "gnmi" r req
        end
    end.

Definition Set_ (r : Request) (req : SetRequest) : SrvM set_answer :=
  e ← lift_master (if MasterArbitrationEnabled cfg then ReqFromMasterEnabledMA (set_extension req)
                   else ReqFromMasterDisabledMA (set_extension req));
  match e with
  | Err e => mret (Returns (None, Some e))
  | Ok _ => set_admitted r req
  end.

(** ** Get *)

Record GetRequest := {
  get_all : bool;
  get_prefix : option Path;
  get_paths : list Path;
  get_encoding : Encoding;
  get_extension : list Extension
}.

Definition get_answer : Type := handled (status_res (list Notification)).

Definition get_refuse (e : Code * string) : SrvM get_answer := _ ← IncCounter GNMI_GET_FAIL; mret (Returns (Err e)).

(** The paths the policy lets through: the loop never adds one. *)
Definition authorize_get (user : string) (req : GetRequest) : list Path :=
  let _ := (λ p, AuthorizeWithPrefix processor user (get_prefix req) (Some p) MODE_READ) <$> get_paths req in
  [].

Definition policy_get (r : Request) (req : GetRequest) : status_res (list Path) :=
  if PathzPolicy cfg && bool_decide (get_paths req ≠ []) then
    user ← getUsername r;
    let newPaths := authorize_get user req in
    if bool_decide (newPaths = []) then
      Err (PermissionDenied, "Unauthorized request. Rejected by pathz policy.")
    else Ok newPaths
  else Ok (get_paths req).

(** The client and the name it is authorised under. *)
Definition choose_client (prefix : option Path) (paths : list Path) (encoding : Encoding)
    (extensions : list Extension)
  : handled (status_res (res string DataClient * string)) :=
  let target := GetTarget prefix in
  let '(db, is_db, _, _) := (IsTargetDb target cfg_state).2 in
  if bool_decide (target = "OTHERS") then Returns (Ok (NewNonDbClient B paths prefix, "gnmi_other"))
  else if bool_decide (target = "SHOW") then Returns (Ok (NewShowClient B paths prefix, "gnmi_show"))
  else if is_db then Returns (Ok (NewDbClient_ B paths prefix, "gnmi_" +:+ db))
  else
    match (if bool_decide (GetOrigin prefix = "") then ParseOrigin (Some <$> paths)
           else Returns (Ok (GetOrigin prefix))) with
    | Panics => Panics
    | Returns (Err e) => Returns (Err e)
    | Returns (Ok origin) =>
        if IsNativeOrigin origin then
          let '(dc, db) := NewMixedDbClient B (Some <$> paths) prefix origin encoding in
          Returns (Ok (dc, "gnmi_" +:+ db))
        else Returns (Ok (NewTranslClient B prefix paths extensions, "gnmi"))
    end.

Definition to_notification (prefix : option Path) (v : Value) : Notification := {|
  n_timestamp := v_timestamp v;
  n_prefix := prefix;
  n_update := [{| upd_path := v_path v; upd_val := v_val v |}];
  n_delete := []
|}.

Definition handleOperationalGet (r : Request) (req : GetRequest) (paths : list Path) : SrvM get_answer :=
  a ← authenticate_request A now (cfg_auth cfg) r "gnoi" false;
  match a with
  | Err e => get_refuse e
  | Ok _ =>
      match NewOperationalHandler B paths (get_prefix req) with
      | Err e => get_refuse (NotFound, e)
      | Ok handler =>
          v ← lift_client handler;
          match v with
          | Err e => get_refuse e
          | Ok values => mret (Returns (Ok (to_notification (get_prefix req) <$> values)))
          end
      end
  end.

Definition get_with (dc : res string DataClient) (authTarget : string) (r : Request) (req : GetRequest)
  : SrvM get_answer :=
  match dc with
  | Err e => get_refuse (NotFound, e)
  | Ok dc =>
      a ← authenticate_request A now (cfg_auth cfg) r authTarget false;
      match a with
      | Err e => get_refuse e
      | Ok _ =>
          v ← lift_client (dc_get dc);
          match v with
          | Panics => mret Panics
          | Returns (Err (Some code, m)) => get_refuse (code, m)
          | Returns (Err (None, m)) => get_refuse (NotFound, m)
          | Returns (Ok values) => mret (Returns (Ok (to_notification (get_prefix req) <$> omap id values)))
          end
      end
  end.

Definition Get_ (r : Request) (req : GetRequest) : SrvM get_answer :=
  _ ← IncCounter GNMI_GET;
  if negb (get_all req) then get_refuse (Unimplemented, "unsupported request type") else
  match policy_get r req with
  | Err e => mret (Returns (Err e))
  | Ok paths =>
      match checkEncodingAndModel (get_encoding req) with
      | Some e => get_refuse (Unimplemented, e)
      | None =>
          if bool_decide (GetTarget (get_prefix req) = "OPERATIONAL") then handleOperationalGet r req paths
          else
            match choose_client (get_prefix req) paths (get_encoding req) (get_extension req) with
            | Panics => mret Panics
            | Returns (Err e) => mret (Returns (Err e))
            | Returns (Ok (dc, authTarget)) => get_with dc authTarget r req
            end
      end
  end.

End server.
