(* ===== verification/ServerFacts.v ===== *)
(** * Who may read and write

    [cert_access_iff] is the guarantee of certificate authentication and
    [set_authenticated] that of Set; [master_fenced] is about master
    arbitration.  [stale_roles_accepted], [policy_decisions_dropped],
    [fast_path_unauthenticated] and [missing_path_panics] are what the checks
    leave out. *)
From stdpp Require Import base gmap sets list strings.
From S2P Require Import Prelude GoStrings Gnmi Json Pathz Redis World Dbus DbConfig DbConn Bypass BypassFacts Auth DbClient VirtualDbFacts Server.

(** ** Certificate names and their roles *)

Lemma bind_run {S A B} (m : ST S A) (k : A → ST S B) s :
  (m ≫= k) s = k (m s).2 (m s).1.
Proof. unfold mbind, ST_bind. by destruct (m s). Qed.

Lemma split_go_nonempty sep t acc n : split_go sep t acc n ≠ [].
Proof. revert acc n. induction t as [|c t IH]; intros acc [|n]; simpl; [done..| |apply IH]. case_match; [done|apply IH]. Qed.

Lemma Split_nonempty t sep : Split t sep ≠ [].
Proof. apply split_go_nonempty. Qed.

(** The roles CONFIG_DB gives a certificate name. *)
Definition table_roles (A : AuthEnv) (tbl name : string) : list string :=
  let fv := Get_entry A tbl name in
  match fv !! "role@", fv !! "role" with
  | Some role, _ => Split role ","
  | None, Some role => [role]
  | None, None => []
  end.

(** The name of the certificate a request came with. *)
Definition cert_name (r : Request) : option string :=
  p ← req_peer r; t ← peer_tls p;
  match VerifiedChains t with (cert :: _) :: _ => Some (CommonName cert) | _ => None end.

Lemma cert_crl_info A now crl chains cert s : info (cert_crl A now crl chains cert s).1 = info s.
Proof. unfold cert_crl. destruct crl; [|done]. by destruct (VerifyCertCrl _ _ _ _ _). Qed.

(** The roles of a certificate name replace those that are there, if it has
    any. *)
Lemma by_common_name A name tbl s :
  tbl ≠ "" →
  let roles := match table_roles A tbl name with [] => Roles (info s) | l => l end in
  (PopulateAuthStructByCommonName A name tbl s).1 =
    {| info := with_roles roles (info s); CrlCache := CrlCache s |} ∧
  is_ok (PopulateAuthStructByCommonName A name tbl s).2 = bool_decide (roles ≠ []).
Proof.
  intros Ht. unfold PopulateAuthStructByCommonName, table_roles. rewrite bool_decide_false by done.
  rewrite !bind_run. destruct (Get_entry A tbl name !! "role@") as [role|]; simpl.
  - pose proof (Split_nonempty role ",") as Hs. destruct (Split role ",") as [|x l]; [done|].
    by split.
  - destruct (Get_entry A tbl name !! "role") as [role|]; simpl.
    + by split.
    + destruct s as [[u b rs] c]. simpl. split; [by destruct (bool_decide (rs = []))|].
      by destruct rs.
Qed.

(** Certificate authentication with a table of names. *)
Lemma cert_run A now r tbl crl s name :
  tbl ≠ "" → cert_name r = Some name →
  let roles := match table_roles A tbl name with [] => Roles (info s) | l => l end in
  (is_ok (ClientCertAuthenAndAuthor A now r tbl crl s).2 = true → name ≠ "" ∧ roles ≠ [] ∧
     info (ClientCertAuthenAndAuthor A now r tbl crl s).1 = with_roles roles (info s)) ∧
  (name ≠ "" → roles ≠ [] → crl = false →
     ClientCertAuthenAndAuthor A now r tbl crl s =
     ({| info := with_roles roles (info s); CrlCache := CrlCache s |}, Ok ())).
Proof.
  intros Ht. unfold ClientCertAuthenAndAuthor, cert_name.
  destruct (req_peer r) as [p|]; simpl; [|done]. destruct (peer_tls p) as [t|]; simpl; [|done].
  destruct (VerifiedChains t) as [|[|cert certs] chains]; [done..|]. intros [= ->].
  destruct (bool_decide_reflect (name = "")) as [->|Hn]; [done|].
  rewrite bind_run. unfold cert_info. rewrite bool_decide_true by done.
  destruct (by_common_name A name tbl s Ht) as [H1 H2]. rewrite H1.
  set (roles := match table_roles A tbl name with [] => Roles (info s) | l => l end) in *.
  destruct (PopulateAuthStructByCommonName A name tbl s).2 as [u|e]; simpl in *.
  - symmetry in H2. apply bool_decide_eq_true_1 in H2. split.
    + intros _. split; [done|]. split; [done|]. by rewrite cert_crl_info.
    + intros _ _ ->. by destruct u.
  - symmetry in H2. apply bool_decide_eq_false_1 in H2. split; [done|]. intros. tauto.
Qed.

(** *** What a role says *)

(** A role says [mode] about a target: their names, with or without an
    underscore between them. *)
Definition says (target mode role : string) : Prop :=
  TrimSpace role = target +:+ mode ∨ TrimSpace role = target +:+ "_" +:+ mode.
Definition silent (target role : string) : Prop :=
  ¬ says target "noaccess" role ∧ ¬ says target "readonly" role ∧ ¬ says target "readwrite" role.
#[global] Instance says_dec t m r : Decision (says t m r) := ltac:(unfold says; apply _).
#[global] Instance silent_dec t r : Decision (silent t r) := ltac:(unfold silent; apply _).

Definition mode_name (a : access) : string :=
  match a with NoAccess => "noaccess" | ReadOnly => "readonly" | ReadWrite => "readwrite" end.

Lemma trim_underscore (t : string) a :
  TrimPrefix t "_" = mode_name a ↔ t = mode_name a ∨ t = "_" +:+ mode_name a.
Proof.
  split.
  - destruct (HasPrefix t "_") eqn:Ht.
    + apply HasPrefix_spec in Ht as [t' ->]. rewrite TrimPrefix_app. intros ->. by right.
    + unfold TrimPrefix. rewrite Ht. by left.
  - intros [->| ->]; [by destruct a|apply TrimPrefix_app].
Qed.

Lemma role_access_spec t role a : role_access t (TrimSpace role) = Some a ↔ says t (mode_name a) role.
Proof.
  unfold says. generalize (TrimSpace role) as x. intros x. unfold role_access.
  destruct (HasPrefix x t) eqn:Hx.
  - apply HasPrefix_spec in Hx as [y ->]. rewrite TrimPrefix_app.
    transitivity (TrimPrefix y "_" = mode_name a).
    + repeat case_bool_decide; destruct a; simpl in *; split; intros; simplify_eq; congruence.
    + rewrite trim_underscore. split; intros [H|H]; [left|right|left|right];
        solve [by rewrite H|by apply (inj (String.append t)) in H].
  - split; [done|]. intros [->| ->]; by rewrite HasPrefix_app in Hx.
Qed.

Lemma role_silent t role : role_access t (TrimSpace role) = None ↔ silent t role.
Proof.
  unfold silent. pose proof (role_access_spec t role) as H.
  pose proof (H NoAccess). pose proof (H ReadOnly). pose proof (H ReadWrite). simpl in *.
  destruct (role_access t (TrimSpace role)) as [[]|]; naive_solver.
Qed.

(** The first role that is not silent decides. *)
Lemma roles_access_some t roles a :
  roles_access t roles = Some a ↔
  ∃ before role after, roles = before ++ role :: after ∧ Forall (silent t) before ∧ says t (mode_name a) role.
Proof.
  unfold roles_access. induction roles as [|x l IH]; simpl.
  - split; [done|]. by intros ([] & ? & ? & [=] & _).
  - destruct (role_access t (TrimSpace x)) as [b|] eqn:Hx; simpl.
    + split.
      * intros [= ->]. exists [], x, l. split_and!; [done|constructor|by apply role_access_spec].
      * intros ([|y before] & role & after & [= -> ->] & Hb & Hr); [apply role_access_spec in Hr; congruence|].
        apply Forall_cons in Hb as [Hy _]. apply role_silent in Hy. congruence.
    + rewrite IH. pose proof (proj1 (role_silent t x) Hx) as Hs. split.
      * intros (before & role & after & -> & Hb & Hr). exists (x :: before), role, after. split; [done|]. by split; [constructor|].
      * intros ([|y before] & role & after & [= -> ->] & Hb & Hr); [apply role_access_spec in Hr; congruence|].
        apply Forall_cons in Hb as [_ Hb]. by exists before, role, after.
Qed.

Lemma roles_access_none t roles : roles_access t roles = None ↔ Forall (silent t) roles.
Proof.
  unfold roles_access. induction roles as [|x l IH]; simpl; [by split; [constructor|]|].
  rewrite Forall_cons, <- role_silent. destruct (role_access t (TrimSpace x)); simpl; [naive_solver|].
  rewrite IH. naive_solver.
Qed.

Lemma check_roles_iff target (write : bool) roles :
  is_ok (check_roles target write roles) = true ↔
  (∃ before role after, roles = before ++ role :: after ∧ Forall (silent (ToLower target)) before ∧
     (says (ToLower target) "readwrite" role ∨ write = false ∧ says (ToLower target) "readonly" role)) ∨
  write = false ∧ Forall (silent (ToLower target)) roles.
Proof.
  rewrite <- roles_access_none.
  transitivity (roles_access (ToLower target) roles = Some ReadWrite ∨
    (write = false ∧ roles_access (ToLower target) roles = Some ReadOnly) ∨
    write = false ∧ roles_access (ToLower target) roles = None).
  - unfold check_roles. destruct (roles_access _ roles) as [[]|], write; simpl; naive_solver.
  - rewrite !roles_access_some. simpl. naive_solver.
Qed.

(** *** The certificate of a request *)

(** The certificate a request came with, and the verified chains. *)
Definition peer_cert (r : Request) : option (list (list Cert) * Cert) :=
  p ← req_peer r; t ← peer_tls p;
  match VerifiedChains t with (cert :: _) :: _ => Some (VerifiedChains t, cert) | _ => None end.

Lemma no_cert A now r tbl crl s :
  peer_cert r = None → ∃ s' e, ClientCertAuthenAndAuthor A now r tbl crl s = (s', Err e).
Proof.
  unfold ClientCertAuthenAndAuthor, peer_cert. destruct (req_peer r) as [p|]; simpl; [|by eauto].
  destruct (peer_tls p) as [t|]; simpl; [|by eauto]. destruct (VerifiedChains t) as [|[|cert certs] chains]; [by eauto..|done].
Qed.

(** Certificate authentication of a request that has no roles yet. *)
Lemma cert_outcome A now r tbl crl s chains cert :
  tbl ≠ "" → peer_cert r = Some (chains, cert) → Roles (info s) = [] →
  ClientCertAuthenAndAuthor A now r tbl crl s =
  if bool_decide (CommonName cert = "") then
    (s, Err (Unauthenticated, "invalid username in certificate common name."))
  else if bool_decide (table_roles A tbl (CommonName cert) = []) then
    (s, Err (Unauthenticated, "not a trusted cert common name"))
  else cert_crl A now crl chains cert
         {| info := with_roles (table_roles A tbl (CommonName cert)) (info s); CrlCache := CrlCache s |}.
Proof.
  intros Ht Hp Hr. unfold ClientCertAuthenAndAuthor, peer_cert in *.
  destruct (req_peer r) as [p|]; simpl in *; [|done]. destruct (peer_tls p) as [t|]; simpl in *; [|done].
  destruct (VerifiedChains t) as [|[|cert' certs] chains']; [done..|]. injection Hp as <- ->.
  case_bool_decide; [done|]. rewrite bind_run. unfold cert_info. rewrite bool_decide_true by done.
  unfold PopulateAuthStructByCommonName, table_roles. rewrite bool_decide_false by done. rewrite !bind_run.
  destruct (Get_entry A tbl (CommonName cert) !! "role@") as [role|]; simpl.
  - pose proof (Split_nonempty role ",") as Hs. by rewrite !(bool_decide_false (Split role "," = [])) by done.
  - destruct (Get_entry A tbl (CommonName cert) !! "role") as [role|]; simpl; [done|].
    rewrite Hr. done.
Qed.

Section auth.
Context (A : AuthEnv) (now : Z) (cfg : AuthConfig) (r : Request) (target : string).

(** A TLS request to a server that asks for certificates of known names. *)
Record asks_cert : Prop := {
  ask_tls : default false (peer_unix <$> req_peer r) = false;
  ask_any : Any (UserAuth cfg) = true;
  ask_cert : Enabled (UserAuth cfg) "cert" = true;
  ask_jwt : Enabled (UserAuth cfg) "jwt" = false;
  ask_table : ConfigTableName cfg ≠ ""
}.

(** C25. A TLS request to a server that accepts certificates only, with a table
    of names: it is accepted exactly when the peer's verified certificate has a
    name, the certificate is not refused by the CRL check where that is on, the
    table of CONFIG_DB has roles for the name, and among these the first that
    is the target followed by an access mode says [readwrite] or, for a read,
    [readonly].  A read also passes when no role says anything about the
    target; a write never does. *)
Theorem cert_access_iff (write : bool) s :
  asks_cert → Enabled (UserAuth cfg) "password" = false → Roles (info s) = [] →
  is_ok (authenticate A now cfg r target write s).2 = true ↔
  ∃ chains cert, peer_cert r = Some (chains, cert) ∧ CommonName cert ≠ "" ∧
    (EnableCrl cfg = true → (VerifyCertCrl A now chains cert (CrlCache s)).2 = Ok ()) ∧
    let roles := table_roles A (ConfigTableName cfg) (CommonName cert) in
    roles ≠ [] ∧
    ((∃ before role after, roles = before ++ role :: after ∧ Forall (silent (ToLower target)) before ∧
        (says (ToLower target) "readwrite" role ∨ write = false ∧ says (ToLower target) "readonly" role)) ∨
     write = false ∧ Forall (silent (ToLower target)) roles).
Proof.
  intros [Htls Hany Hcert Hjwt Htbl] Hpw Hr. unfold authenticate. rewrite Htls, Hany, Hcert, Hjwt, Hpw.
  cbn [negb]. unfold try_method. cbn [andb]. rewrite !bind_run.
  cbn -[ClientCertAuthenAndAuthor check_roles]. rewrite !bind_run. cbn -[ClientCertAuthenAndAuthor check_roles].
  set (s0 := {| info := with_enabled true (info s); CrlCache := CrlCache s |}).
  destruct (peer_cert r) as [[chains cert]|] eqn:Hp.
  - rewrite (cert_outcome A now r _ (EnableCrl cfg) s0 chains cert Htbl Hp Hr).
    set (roles := table_roles A (ConfigTableName cfg) (CommonName cert)).
    transitivity (CommonName cert ≠ "" ∧ (EnableCrl cfg = true → (VerifyCertCrl A now chains cert (CrlCache s)).2 = Ok ()) ∧
      roles ≠ [] ∧ is_ok (check_roles target write roles) = true); [|rewrite check_roles_iff; naive_solver].
    destruct (bool_decide_reflect (CommonName cert = "")); [naive_solver|].
    destruct (bool_decide_reflect (roles = [])); [naive_solver|]. unfold cert_crl. destruct (EnableCrl cfg).
    + cbn [CrlCache s0]. destruct (VerifyCertCrl A now chains cert (CrlCache s)) as [c [[]|e]]; simpl; [|naive_solver].
      rewrite bool_decide_true by done. naive_solver.
    + simpl. rewrite bool_decide_true by done. naive_solver.
  - destruct (no_cert A now r (ConfigTableName cfg) (EnableCrl cfg) s0 Hp) as [s' [e ->]]. naive_solver.
Qed.

(** With passwords enabled beside certificates, the roles that a failed
    password attempt left in the request stand in for those of a certificate
    whose name is in no table: the request is accepted for reading, under the
    name of the user whose password was wrong. *)
Theorem stale_roles_accepted s user passwd roles name :
  asks_cert → Enabled (UserAuth cfg) "password" = true → EnableCrl cfg = false →
  md_first r "username" = Some user → md_first r "password" = Some passwd →
  lookup_roles A user = Some roles → roles ≠ [] → UserPwAuth A user passwd = false →
  cert_name r = Some name → name ≠ "" → table_roles A (ConfigTableName cfg) name = [] →
  roles_access (ToLower target) roles ≠ Some NoAccess →
  ∃ s', authenticate A now cfg r target false s = (s', Ok ()) ∧ User (info s') = user.
Proof.
  intros [Htls Hany Hcert Hjwt Htbl] Hpw Hcrl Hu Hp Hroles Hne Hbad Hname Hnn Hnone Hacc.
  assert (is_Some (req_md r)) as [md Hmd] by (unfold md_first in Hu; by destruct (req_md r)).
  unfold authenticate. rewrite Htls, Hany, Hcert, Hjwt, Hpw. cbn [negb].
  unfold try_method. cbn [andb negb]. rewrite !bind_run. unfold BasicAuthenAndAuthor.
  rewrite Hmd, Hu, Hp, !bind_run. unfold PopulateAuthStruct. rewrite Hroles, !bind_run. simpl. rewrite Hbad.
  simpl. rewrite !bind_run.
  match goal with |- context [ClientCertAuthenAndAuthor A now r _ _ ?st] => set (s1 := st) end.
  destruct (cert_run A now r (ConfigTableName cfg) (EnableCrl cfg) s1 name Htbl Hname) as [_ Hrun].
  rewrite Hnone in Hrun. rewrite (Hrun Hnn Hne Hcrl). simpl. rewrite bool_decide_true by done.
  eexists (Build_AuthState _ _). split.
  - unfold check_roles. by destruct (roles_access _ _) as [[]|].
  - done.
Qed.

End auth.

(** ** The handlers *)

Create HintDb keeps.

Section handlers.
Context {Rd : Redis} {Sw : Swss} {Fmt : GoFmt} {MR : MapRange} {JC : JsonCodec} {BS : Type}.
Context (B : Backend (BS := BS)) (A : AuthEnv) (now : Z) (cfg : Config) (processor : GnmiAuthzProcessor)
        (cfg_state : Cfg).

Notation Set_ := (Set_ B A now cfg processor).
Notation Get_ := (Get_ B A now cfg processor cfg_state).
Notation State := (State (BS := BS)).

(** The projection [f] of the state is the same after [m]. *)
Definition keeps {X Y} (f : State → Y) (m : ST State X) : Prop := ∀ s, f (m s).1 = f s.

Lemma state_keeps_ret {X Y} (f : State → Y) (x : X) : keeps f (mret x).
Proof. by intros s. Qed.

Lemma state_keeps_bind {X X' Y} (f : State → Y) (m : ST State X) (k : X → ST State X') :
  keeps f m → (∀ x, keeps f (k x)) → keeps f (m ≫= k).
Proof. intros Hm Hk s. rewrite bind_run, Hk. apply Hm. Qed.

Lemma keeps_IncCounter_master c : keeps st_master (IncCounter c).
Proof. by intros s. Qed.
Lemma keeps_IncCounter_backend c : keeps st_backend (IncCounter c).
Proof. by intros s. Qed.
Lemma keeps_IncCounter_auth c : keeps st_auth (IncCounter c).
Proof. by intros s. Qed.
Lemma keeps_world_master {X} (m : ST World X) : keeps st_master (lift_world m).
Proof. intros s. unfold lift_world. by destruct (m _). Qed.
Lemma keeps_world_backend {X} (m : ST World X) : keeps st_backend (lift_world m).
Proof. intros s. unfold lift_world. by destruct (m _). Qed.
Lemma keeps_world_auth {X} (m : ST World X) : keeps st_auth (lift_world m).
Proof. intros s. unfold lift_world. by destruct (m _). Qed.
Lemma keeps_auth_master {X} (m : ST AuthState X) : keeps st_master (lift_auth m).
Proof. intros s. unfold lift_auth. by destruct (m _). Qed.
Lemma keeps_auth_backend {X} (m : ST AuthState X) : keeps st_backend (lift_auth m).
Proof. intros s. unfold lift_auth. by destruct (m _). Qed.
Lemma keeps_client_master {X} (m : ST (World * BS) X) : keeps st_master (lift_client m).
Proof. intros s. unfold lift_client. by destruct (m _) as [[]]. Qed.
Lemma keeps_master_backend {X} (m : uint128 → uint128 * X) : keeps st_backend (lift_master m).
Proof. intros s. unfold lift_master. by destruct (m _). Qed.
Lemma keeps_master_auth {X} (m : uint128 → uint128 * X) : keeps st_auth (lift_master m).
Proof. intros s. unfold lift_master. by destruct (m _). Qed.
Lemma keeps_refuse_backend c e : keeps st_backend (refuse c e).
Proof. by intros s. Qed.
Lemma keeps_refuse_master c e : keeps st_master (refuse c e).
Proof. by intros s. Qed.

Local Hint Resolve state_keeps_ret keeps_IncCounter_master keeps_IncCounter_backend keeps_IncCounter_auth
  keeps_world_master keeps_world_backend keeps_world_auth keeps_auth_master keeps_auth_backend
  keeps_client_master keeps_master_backend keeps_master_auth keeps_refuse_backend
  keeps_refuse_master : keeps.

Ltac keeps_step :=
  first [ solve [auto with keeps] | apply state_keeps_bind; [|intros ?] | case_match ].

(** *** The election id *)

(** The order of election ids. *)
Definition eid_lt (a b : uint128) : Prop := (High a < High b ∨ High a = High b ∧ Low a < Low b)%Z.

Lemma Compare_spec a b :
  (uint128_Compare a (Some b) = 1%Z ∧ eid_lt b a) ∨
  (uint128_Compare a (Some b) = (-1)%Z ∧ eid_lt a b) ∨
  (uint128_Compare a (Some b) = 0%Z ∧ a = b).
Proof.
  destruct a as [h l], b as [h' l']. unfold uint128_Compare, eid_lt. simpl.
  repeat case_bool_decide; try (left; lia); try (right; left; lia).
  do 2 right. split; [done|]. f_equal; lia.
Qed.

(** Arbitration: smaller ids are refused, and the id of the master is the
    largest so far. *)
Lemma arbitration exts master :
  (ReqFromMasterEnabledMA exts master).1 = master ∨
  eid_lt master (ReqFromMasterEnabledMA exts master).1.
Proof.
  unfold ReqFromMasterEnabledMA. destruct (request_eid exts None) as [[id|]|]; [|by left..].
  destruct (Compare_spec master id) as [[-> ?]|[[-> ?]|[-> ?]]]; simpl; auto.
Qed.

Lemma arbitration_id exts master id :
  request_eid exts None = Ok (Some id) →
  (eid_lt id master ∧ ∃ m, ReqFromMasterEnabledMA exts master = (master, Err (PermissionDenied, m))) ∨
  (ReqFromMasterEnabledMA exts master = (id, Ok ())).
Proof.
  intros Hid. unfold ReqFromMasterEnabledMA. rewrite Hid.
  destruct (Compare_spec master id) as [[-> ?]|[[-> ?]|[-> ->]]]; simpl; eauto.
Qed.

Lemma set_with_master dc target r req : keeps st_master (set_with B A now cfg dc target r req).
Proof. unfold set_with, authenticate_request. repeat keeps_step. Qed.

Lemma set_admitted_master r req : keeps st_master (set_admitted B A now cfg processor r req).
Proof.
  pose proof set_with_master. unfold set_admitted, set_native. repeat (keeps_step || auto).
Qed.

Lemma Set_master r req s :
  MasterArbitrationEnabled cfg = true →
  st_master (Set_ r req s).1 = (ReqFromMasterEnabledMA (set_extension req) (st_master s)).1.
Proof.
  intros Hm. unfold Server.Set_. rewrite Hm, bind_run. unfold lift_master.
  destruct (ReqFromMasterEnabledMA _ _) as [e [u|er]]; simpl; [|done]. by rewrite set_admitted_master.
Qed.

(** A sequence of Set requests. *)
Fixpoint run_sets (reqs : list (Request * SetRequest)) (s : State) : State :=
  match reqs with
  | [] => s
  | (r, req) :: reqs => run_sets reqs (Set_ r req s).1
  end.

Definition eid_le (a b : uint128) : Prop := a = b ∨ eid_lt a b.

Lemma eid_le_trans a b c : eid_le a b → eid_le b c → eid_le a c.
Proof. unfold eid_le, eid_lt. intros [->|?] [->|?]; auto. right. lia. Qed.

Lemma run_sets_master reqs s :
  MasterArbitrationEnabled cfg = true → eid_le (st_master s) (st_master (run_sets reqs s)).
Proof.
  intros Hm. revert s. induction reqs as [|[r req] reqs IH]; intros s; simpl; [by left|].
  eapply eid_le_trans; [|apply IH]. rewrite Set_master by done. unfold eid_le.
  destruct (arbitration (set_extension req) (st_master s)) as [->|]; auto.
Qed.

(** C12. Fencing by election id: once a Set with an election id has been
    admitted, a later Set with a smaller one is refused and changes nothing,
    whatever requests come in between. *)
Theorem master_fenced reqs r req r' req' s id id' :
  MasterArbitrationEnabled cfg = true →
  request_eid (set_extension req) None = Ok (Some id) → ¬ eid_lt id (st_master s) →
  request_eid (set_extension req') None = Ok (Some id') → eid_lt id' id →
  let s' := run_sets reqs (Set_ r req s).1 in
  eid_le id (st_master s') ∧
  ∃ m, Set_ r' req' s' = (s', Returns (None, Some (PermissionDenied, m))).
Proof.
  intros Hm Hid Hge Hid' Hlt s'.
  assert (eid_le id (st_master s')) as Hle.
  { pose proof (run_sets_master reqs (Set_ r req s).1 Hm) as H. rewrite Set_master in H by done.
    destruct (arbitration_id _ (st_master s) _ Hid) as [[? _]|Hok]; [done|]. by rewrite Hok in H. }
  split; [done|]. unfold Server.Set_. rewrite Hm, bind_run. unfold lift_master.
  destruct (arbitration_id _ (st_master s') _ Hid') as [[_ [m ->]]|Hok].
  - exists m. simpl. by destruct s'.
  - exfalso. pose proof (arbitration (set_extension req') (st_master s')) as H.
    rewrite Hok in H. simpl in H.
    assert (eid_le id id') as [->|?]; [|unfold eid_lt in *; lia..].
    eapply eid_le_trans; [done|]. destruct H as [H|H]; [by left|by right].
Qed.

(** *** Authentication *)

(** What the clients and the fast path write: the databases, the files and
    what else the clients keep. *)
Definition device (s : State) : gmap string inode * redis * BS :=
  (fs (st_world s), db (st_world s), st_backend s).

(** The name under which a Set is authorised: that of the database the client
    of native paths reports, or the one of YANG paths. *)
Definition set_target (req : SetRequest) (origin : string) : string :=
  if IsNativeOrigin origin
  then "gnmi_" +:+ (NewMixedDbClient B (set_paths req) (set_prefix req) origin JSON_IETF).2
  else "gnmi".

(** The request is accepted for writing under that name. *)
Definition accepted_write (r : Request) (req : SetRequest) (a : AuthState) : Prop :=
  ∃ origin, set_origin req = Returns (Ok origin) ∧
    is_ok (authenticate A now (cfg_auth cfg) r (set_target req origin) true (GetContext a).1).2 = true.

(** The conditions and the effect of the fast path. *)
Definition fast_path (r : Request) (req : SetRequest) (s s' : State) : Prop :=
  EnableNativeWrite cfg = true ∧ set_origin req = Returns (Ok "sonic-db") ∧
  hasBypassHeader (req_md r) = true ∧ sku_allowed (db (st_world s)) ∧
  fs (st_world s') = fs (st_world s) ∧ st_backend s' = st_backend s ∧
  ∀ k f, ¬ allowed_key k → hget (db (st_world s')) k f = hget (db (st_world s)) k f.

(** [m] changes the device only for an accepted request or by the fast path. *)
Definition guarded {X} (r : Request) (req : SetRequest) (m : ST State X) : Prop :=
  ∀ s, device (m s).1 = device s ∨ accepted_write r req (st_auth s) ∨ fast_path r req s (m s).1.

Lemma guarded_keeps {X} r req (m : ST State X) : keeps device m → guarded r req m.
Proof. intros Hk s. left. apply Hk. Qed.

Lemma guarded_bind {X X'} r req (m : ST State X) (k : X → ST State X') :
  keeps device m → keeps st_auth m → (∀ x, guarded r req (k x)) → guarded r req (m ≫= k).
Proof.
  intros Hd Ha Hk s. rewrite bind_run. specialize (Hd s).
  destruct (Hk (m s).2 (m s).1) as [H|[H|H]].
  - left. by rewrite H.
  - right; left. by rewrite Ha in H.
  - right; right. unfold device in Hd. injection Hd as Hf Hdb Hb. unfold fast_path in *.
    by rewrite Hf, Hdb, Hb in H.
Qed.

Lemma set_with_guarded dc target r req s :
  device (set_with B A now cfg dc target r req s).1 = device s ∨
  is_ok (authenticate A now (cfg_auth cfg) r target true (GetContext (st_auth s)).1).2 = true.
Proof.
  unfold set_with. destruct dc as [dc|e]; [|by left].
  rewrite bind_run. unfold authenticate_request, lift_auth. rewrite bind_run.
  destruct (authenticate A now (cfg_auth cfg) r target true _) as [a [u|e]]; [by right|by left].
Qed.

Lemma keeps_device_IncCounter c : keeps device (IncCounter c).
Proof. by intros s. Qed.
Lemma keeps_device_refuse c e : keeps device (refuse c e).
Proof. by intros s. Qed.
Lemma keeps_device_master {X} (m : uint128 → uint128 * X) : keeps device (lift_master m).
Proof. intros s. unfold lift_master. by destruct (m _). Qed.

Local Hint Resolve keeps_device_IncCounter keeps_device_refuse keeps_device_master : keeps.

(** The native branch: the fast path comes first, the client only when it was
    not taken and the device is still as it was. *)
Lemma set_native_guarded r req :
  set_origin req = Returns (Ok "sonic-db") → guarded r req (set_native B A now cfg "sonic-db" r req).
Proof.
  intros Ho s. unfold set_native. destruct (EnableNativeWrite cfg) eqn:Hw; simpl; [|by left].
  rewrite bind_run. unfold lift_world.
  destruct (TrySet _ _ _ _ (st_world s)) as [w' t] eqn:Ht.
  pose proof (files_kept_TrySet (req_md r) (set_prefix req) (set_delete req)
                (set_replace req ++ set_update req) (st_world s)) as Hf. rewrite Ht in Hf. simpl in Hf.
  apply TrySet_run in Ht as [[-> Hd]|(Hh & Hs & Hu & Hdel & Hr & w1 & Hw1 & Hrun)]; simpl.
  - pose proof (eq_refl (set_target req "sonic-db")) as Htgt. unfold set_target at 2 in Htgt. simpl in Htgt.
    destruct (NewMixedDbClient _ _ _ _ _) as [dc db]. simpl in Htgt.
    match goal with |- context [set_with _ _ _ _ _ _ _ _ ?st] =>
      destruct (set_with_guarded dc ("gnmi_" +:+ db) r req st) as [H|H] end.
    + left. rewrite H. unfold device. simpl. by rewrite Hf, Hd.
    + right; left. exists "sonic-db". split; [done|]. by rewrite Htgt.
  - right; right. apply (writes_set_body _ _ _ Hu Hdel) in Hrun.
    destruct t as [|[o rs]|e]; [done|..]; (unfold fast_path; simpl; split_and!; [done..|]);
      intros k f Hk; by rewrite Hrun, Hw1.
Qed.

Lemma set_admitted_guarded r req : guarded r req (set_admitted B A now cfg processor r req).
Proof.
  apply guarded_bind; [auto with keeps..|intros _].
  destruct (_ && _); [apply guarded_keeps; auto with keeps|].
  destruct (policy_set _ _ _ _); [|apply guarded_keeps; auto with keeps].
  destruct (set_origin req) as [[origin|e]|] eqn:Ho; [|apply guarded_keeps; auto with keeps..].
  destruct (IsNativeOrigin origin) eqn:Hn.
  - apply bool_decide_eq_true_1 in Hn as ->. by apply set_native_guarded.
  - destruct (negb _); [apply guarded_keeps; auto with keeps|]. intros s.
    destruct (set_with_guarded (NewTranslClient B (set_prefix req) [] (set_extension req)) "gnmi" r req s)
      as [H|H]; [by left|]. right; left. exists origin. split; [done|]. unfold set_target. by rewrite Hn.
Qed.


(** Get answers an authenticated request: notifications are returned only if
    the request was accepted for reading under some name. *)
Lemma get_authenticated r req s ns :
  (Get_ r req s).2 = Returns (Ok ns) →
  ∃ target, is_ok (authenticate A now (cfg_auth cfg) r target false (GetContext (st_auth s)).1).2 = true.
Proof.
  unfold Server.Get_. rewrite bind_run. destruct (negb _); [done|].
  destruct (policy_get _ _ _ _) as [paths|e]; [|done].
  destruct (checkEncodingAndModel _); [done|]. destruct (bool_decide _).
  - unfold handleOperationalGet, authenticate_request, lift_auth. rewrite !bind_run. simpl. exists "gnoi".
    by destruct (authenticate _ _ _ _ _ _ _) as [a [u|e]].
  - destruct (choose_client _ _ _ _ _ _) as [[[[dc|e] target]|e]|]; [|done..].
    unfold get_with, authenticate_request, lift_auth. rewrite !bind_run. simpl. exists target.
    by destruct (authenticate _ _ _ _ _ _ _) as [a [u|e]].
Qed.

(** *** What the checks leave out *)

Definition with_policy (b : bool) : Config := {|
  cfg_auth := cfg_auth cfg;
  PathzPolicy := b;
  EnableTranslibWrite := EnableTranslibWrite cfg;
  EnableNativeWrite := EnableNativeWrite cfg;
  MasterArbitrationEnabled := MasterArbitrationEnabled cfg
|}.

(** The decisions of the path policy are not used.  For a user with a
    name, Set under the policy does what it does without one, whichever paths
    the processor denies; Get under the policy refuses every request that has
    paths, whichever it permits, and reads nothing. *)
Theorem policy_decisions_dropped r user set_req get_req s :
  PathzPolicy cfg = true → getUsername r = Ok user →
  get_all get_req = true → get_paths get_req ≠ [] →
  Set_ r set_req s = Server.Set_ B A now (with_policy false) processor r set_req s ∧
  (Get_ r get_req s).2 = Returns (Err (PermissionDenied, "Unauthorized request. Rejected by pathz policy.")) ∧
  device (Get_ r get_req s).1 = device s.
Proof.
  intros Hp Hu Hall Hne. split.
  - unfold Server.Set_, set_admitted, set_native, set_with, policy_set. by rewrite Hp, Hu.
  - unfold Server.Get_. rewrite bind_run, Hall. unfold policy_get.
    by rewrite Hp, bool_decide_true, Hu by done.
Qed.

(** A Set on the native databases that passes the checks before the client is
    chosen: no arbitration, writes enabled, no policy. *)
Record reaches_native : Prop := {
  rn_arbitration : MasterArbitrationEnabled cfg = false;
  rn_write : EnableNativeWrite cfg = true;
  rn_policy : PathzPolicy cfg = false
}.

Lemma Set_native_run r req s :
  reaches_native →
  Set_ r req s =
    let s1 := (IncCounter GNMI_SET s).1 in
    match set_origin req with
    | Panics => (s1, Panics)
    | Returns (Err e) => (s1, Returns (None, Some e))
    | Returns (Ok origin) =>
        (if IsNativeOrigin origin then set_native B A now cfg origin r req
         else if negb (EnableTranslibWrite cfg) then
                refuse GNMI_SET_FAIL (Unimplemented, "Translib write is disabled")
         else set_with B A now cfg (NewTranslClient B (set_prefix req) [] (set_extension req)) "gnmi" r req) s1
    end.
Proof.
  intros [Hm Hw Hp]. unfold Server.Set_. rewrite Hm. destruct s as [w a e c b].
  rewrite bind_run. unfold lift_master, ReqFromMasterDisabledMA. simpl.
  unfold set_admitted, policy_set. rewrite bind_run, Hw, Hp, andb_false_r. simpl.
  by destruct (set_origin req) as [[origin|e']|].
Qed.

(** The fast path is not authenticated: a native Set that [TrySet] takes is
    carried out and answered whatever the methods of authentication and their
    configuration say, and the request's authentication is never started. *)
Theorem fast_path_unauthenticated r req s w' resp :
  reaches_native → set_origin req = Returns (Ok "sonic-db") →
  TrySet (req_md r) (set_prefix req) (set_delete req) (set_replace req ++ set_update req) (st_world s) =
    (w', Used resp) →
  ∃ s', Set_ r req s = (s', Returns (Some (bypass_results resp.2), None)) ∧
        st_world s' = w' ∧ st_auth s' = st_auth s ∧ st_backend s' = st_backend s.
Proof.
  intros Hn Ho Ht. rewrite Set_native_run, Ho by done. simpl. unfold set_native.
  destruct Hn as [_ Hw _]. rewrite Hw. simpl. rewrite bind_run. unfold lift_world. simpl. rewrite Ht.
  destruct resp as [o rs]. simpl. by eexists (Build_State _ _ _ _ _).
Qed.

Lemma ParseOrigin_missing o before rest :
  Forall (λ p, path_origin p = o) before → ParseOrigin ((Some <$> before) ++ None :: rest) = Panics.
Proof.
  destruct 1 as [|p ps Hp Hb]; simpl; [done|]. rewrite Hp. clear p Hp.
  induction Hb as [|p ps Hp _ IH]; simpl; [done|]. by rewrite Hp, bool_decide_true.
Qed.

(** An update without a path ends the server before anyone is
    authenticated: a Set whose prefix names no origin panics at the first
    missing path, when the paths before it agree on theirs. *)
Theorem missing_path_panics r req s o before rest :
  reaches_native → GetOrigin (set_prefix req) = "" →
  Forall (λ p, path_origin p = o) before → set_paths req = (Some <$> before) ++ None :: rest →
  (Set_ r req s).2 = Panics.
Proof.
  intros Hn Ho Hb Hp. rewrite Set_native_run by done. unfold set_origin.
  by rewrite Ho, Hp, (ParseOrigin_missing o).
Qed.

End handlers.

(** ** Instances at concrete requests *)
Module ServerExample.

Definition tls_peer (name : string) : Peer := {|
  peer_unix := false;
  peer_tls := Some {| SPIFFE_path := Some "/sa/reader";
                      VerifiedChains := [[ {| CommonName := name; CRLDistributionPoints := [] |} ]] |}
|}.
Definition request (name : string) : Request := {|
  req_peer := Some (tls_peer name);
  req_md := Some {[ "username" := ["admin"]; "password" := ["wrong"];
                    MetadataKeyBypassValidation := ["true"] ]}
|}.

(** Two certificate names are known, one may write. *)
Definition auth_env : AuthEnv := {|
  lookup_roles user := if bool_decide (user = "admin") then Some ["sudo"] else None;
  UserPwAuth _ _ := false;
  parse_token _ := None;
  Get_entry tbl name :=
    if bool_decide (name = "writer") then {[ "role@" := "gnoi_readonly,gnmi_readwrite" ]}
    else if bool_decide (name = "reader") then {[ "role" := "gnmi_readonly" ]} else ∅;
  CheckChainRevocation _ _ := true;
  fetch _ := None
|}.

Definition modes (password : bool) : AuthTypes :=
  {[ "password" := password; "jwt" := false; "cert" := true ]}.
Definition auth_config (password : bool) : AuthConfig :=
  {| UserAuth := modes password; ConfigTableName := "GNMI_CLIENT_CERT"; EnableCrl := false |}.
Definition auth0 : AuthState :=
  {| info := {| User := ""; AuthEnabled := false; Roles := [] |}; CrlCache := ∅ |}.

Lemma asks_certificate password name : asks_cert (auth_config password) (request name).
Proof. split; [..|done]; by destruct password. Qed.

(** The writer may write; the reader may read and not write. *)
Lemma cert_access_iff_witness :
  is_ok (authenticate auth_env 0 (auth_config false) (request "writer") "gnmi" true auth0).2 = true ∧
  is_ok (authenticate auth_env 0 (auth_config false) (request "reader") "gnmi" false auth0).2 = true ∧
  (∃ chains cert, peer_cert (request "writer") = Some (chains, cert) ∧ CommonName cert = "writer").
Proof.
  split_and!.
  - apply (cert_access_iff auth_env 0 (auth_config false) (request "writer") "gnmi" true auth0);
      [apply asks_certificate|reflexivity..|]. eexists _, _. split; [reflexivity|]. split; [done|]. split; [done|].
    split; [done|]. left. exists ["gnoi_readonly"], "gnmi_readwrite", []. split; [reflexivity|].
    split; [apply (bool_decide_unpack _); vm_compute; exact I|]. left. right. reflexivity.
  - apply (cert_access_iff auth_env 0 (auth_config false) (request "reader") "gnmi" false auth0);
      [apply asks_certificate|reflexivity..|]. eexists _, _. split; [reflexivity|]. split; [done|]. split; [done|].
    split; [done|]. left. exists [], "gnmi_readonly", []. split; [reflexivity|].
    split; [constructor|]. right. split; [done|]. right. reflexivity.
  - eexists _, _. by split.
Defined.

Lemma stale_roles_accepted_witness :
  ∃ s', authenticate auth_env 0 (auth_config true) (request "nobody") "gnmi" false auth0 = (s', Ok ()) ∧
        User (info s') = "admin".
Proof.
  apply (stale_roles_accepted auth_env 0 (auth_config true) (request "nobody") "gnmi" auth0
           "admin" "wrong" ["sudo"] "nobody"); try reflexivity; [apply asks_certificate|done..].
Defined.

Import VdbExample BypassExample.
#[local] Existing Instances server_db range go_fmt codec swss0.

(** Clients that count their writes. *)
Definition client : DataClient (BS := nat) := {|
  dc_get b := (b, Returns (Ok []));
  dc_set _ _ _ := on_backend (λ b, (S b, Returns None))
|}.
Definition backend : Backend (BS := nat) := {|
  NewNonDbClient _ _ := Ok client;
  NewShowClient _ _ := Ok client;
  NewDbClient_ _ _ := Ok client;
  NewMixedDbClient _ _ _ _ := (Ok client, "config_db");
  NewTranslClient _ _ _ := Ok client;
  NewOperationalHandler _ _ := Ok (λ b, (b, Ok []));
  SaveStartupConfig b := (b, ())
|}.
Definition config (policy arbitration : bool) : Config := {|
  cfg_auth := auth_config false; PathzPolicy := policy;
  EnableTranslibWrite := true; EnableNativeWrite := true; MasterArbitrationEnabled := arbitration
|}.
Definition state0 : State (BS := nat) := {|
  st_world := world0; st_auth := auth0; st_master := zero128; st_counters _ := 0%Z; st_backend := 0
|}.

Definition elect (n : Z) : list Extension :=
  [OtherExt; MasterArbitrationExt {| ElectionId := Some {| High := 0; Low := n |}; has_role := false |}].
Definition set_of (path : option Path) (ext : list Extension) : SetRequest := {|
  set_prefix := None; set_delete := [];
  set_replace := []; set_update := [{| upd_path := path; upd_val := Some (JsonIetfVal "{doc}") |}];
  set_extension := ext
|}.
Definition native_path : option Path :=
  Some {| path_origin := "sonic-db"; path_target := ""; path_elem := GetElem rule_path |}.
Definition yang_path : option Path := Some {| path_origin := ""; path_target := ""; path_elem := [] |}.

Notation set_at cfg := (Server.Set_ backend auth_env 0 cfg new_processor).

Lemma master_fenced_witness :
  let s' := run_sets backend auth_env 0 (config false true) new_processor
              [(request "writer", set_of yang_path []); (request "writer", set_of yang_path (elect 9))]
              (set_at (config false true) (request "writer") (set_of yang_path (elect 5)) state0).1 in
  eid_le {| High := 0; Low := 5 |} (st_master s') ∧
  ∃ m, set_at (config false true) (request "writer") (set_of yang_path (elect 3)) s' =
         (s', Returns (None, Some (PermissionDenied, m))).
Proof.
  eapply (master_fenced backend auth_env 0 (config false true) new_processor).
  - reflexivity.
  - reflexivity.
  - unfold eid_lt. simpl. lia.
  - reflexivity.
  - unfold eid_lt. simpl. lia.
Defined.

Definition get_of (p : Path) : GetRequest :=
  {| get_all := true; get_prefix := None; get_paths := [p]; get_encoding := JSON_IETF; get_extension := [] |}.

Definition cfg_state0 : Cfg := {| sonic_db_init := false; lib_global := false; lib_local := false |}.

Lemma policy_decisions_dropped_witness :
  set_at (config true false) (request "writer") (set_of yang_path []) state0 =
    set_at (with_policy (config true false) false) (request "writer") (set_of yang_path []) state0 ∧
  (Server.Get_ backend auth_env 0 (config true false) new_processor cfg_state0 (request "writer")
     (get_of (path_of ["a"])) state0).2 =
    Returns (Err (PermissionDenied, "Unauthorized request. Rejected by pathz policy.")).
Proof.
  destruct (policy_decisions_dropped backend auth_env 0 (config true false) new_processor cfg_state0
              (request "writer") "reader" (set_of yang_path []) (get_of (path_of ["a"])) state0)
    as (H1 & H2 & _); [done..|]. by split.
Defined.

Lemma native_config : reaches_native (config false false).
Proof. by split. Qed.

Definition world1 : World :=
  (TrySet (req_md (request "nobody")) None [] (set_update (set_of native_path [])) world0).1.

Lemma fast_path_unauthenticated_witness :
  ∃ s', set_at (config false false) (request "nobody") (set_of native_path []) state0 =
          (s', Returns (Some [(native_path, OpUpdate)], None)) ∧
        st_auth s' = auth0.
Proof.
  destruct (fast_path_unauthenticated backend auth_env 0 (config false false) new_processor
     (request "nobody") (set_of native_path []) state0 world1 (None, [(native_path, UPDATE)]) native_config)
    as (s' & H1 & _ & H2 & _).
  - reflexivity.
  - apply pair_snd_eq. vm_compute. reflexivity.
  - by exists s'.
Defined.

Lemma missing_path_panics_witness :
  (set_at (config false false) (request "nobody") (set_of None []) state0).2 = Panics.
Proof.
  eapply (missing_path_panics backend auth_env 0 (config false false) new_processor _ _ _ "" [] []).
  - apply native_config.
  - reflexivity.
  - constructor.
  - reflexivity.
Defined.

End ServerExample.
