(* ===== verification/TranslFacts.v ===== *)
(** * What reaches the translation library

    [bulk_all_or_nothing]: a Set of several operations makes one call of
    translib with all of them in order, or none.  [transl_anonymous] composes
    the client with the server: translib is never told who asks.
    [empty_path_drops_prefix] and [single_value_unchecked] are about what a
    Set of one operation sends. *)
From stdpp Require Import base gmap sets list strings.
From S2P Require Import Prelude GoStrings Gnmi Json Pathz Redis World Dbus DbConfig DbConn Bypass BypassFacts Auth Transl DbClient VirtualDbFacts Server ServerFacts.

Section facts.
Context {T : Translib}.

(** ** Bulk requests *)

Notation entry := (operation * string * option string)%type.
Notation item := (operation * option Path * option string)%type.

(** The operations of a Set in the order of the specification, with the JSON
    text of their values. *)
Definition set_items (delete : list (option Path)) (replace update : list Update) : list item :=
  ((λ d, (DELETE_, d, None)) <$> delete) ++
  ((λ u, (REPLACE_, upd_path u, json_payload u)) <$> replace) ++
  ((λ u, (UPDATE_, upd_path u, json_payload u)) <$> update).

(** The path translib is asked about: the elements of the prefix before those
    of the path, if it has any; without a prefix, the path of an update as it
    came. *)
Definition asked_path (prefix : option Path) (op : operation) (p : Path) : Path :=
  match op, prefix with
  | REPLACE_, None | UPDATE_, None => p
  | _, _ => {| path_origin := path_origin p; path_target := "";
               path_elem := match path_elem p with [] => [] | es => GetElem prefix ++ es end |}
  end.

(** The entry of a bulk request for an operation: its kind, the URI of its
    path as translib prints it once it is found valid, and its value, which
    only a delete may lack. *)
Definition translates (prefix : option Path) (i : item) (e : entry) : Prop :=
  let '(op, path, payload) := i in
  (op ≠ DELETE_ → is_Some payload) ∧
  ∃ fp q uri, Validate false fp = Ok q ∧ PathToString q = Ok uri ∧ e = (op, uri, payload) ∧
    match path with
    | Some p => fp = Some (asked_path prefix op p)
    | None => op ≠ DELETE_ ∧ prefix = None ∧ fp = None
    end.

(** What a loop over operations gives: an entry for each, or a refusal of one
    that has none. *)
Definition loop_spec (prefix : option Path) (its : list item) (r : res failure (list entry)) : Prop :=
  match r with
  | Ok es => Forall2 (translates prefix) its es
  | Err _ => ∃ i, i ∈ its ∧ ∀ e, ¬ translates prefix i e
  end.

Lemma loop_spec_cons prefix i its (first : res failure entry) rest :
  (match first with Ok e => translates prefix i e | Err _ => ∀ e, ¬ translates prefix i e end) →
  loop_spec prefix its rest → loop_spec prefix (i :: its) (e ← first; es ← rest; Ok (e :: es)).
Proof.
  intros H1 Hr. destruct first as [e|f]; simpl.
  - destruct rest as [es|f]; simpl in *; [by constructor|].
    destruct Hr as (j & Hj & Hn). exists j. split; [by right|done].
  - exists i. split; [by left|done].
Qed.

(** The URI of an operation. *)
Lemma ConvertToURI_delete prefix d payload :
  match (fullPath ← GnmiTranslFullPath prefix d; ConvertToURI false None fullPath) with
  | Ok uri => translates prefix (DELETE_, d, payload) (DELETE_, uri, payload)
  | Err _ => ∀ e, ¬ translates prefix (DELETE_, d, payload) e
  end.
Proof.
  unfold GnmiTranslFullPath, ConvertToURI, translates. destruct d as [p|]; simpl.
  - match goal with |- context [Validate false ?x] => set (fp := x) end.
    destruct (Validate false fp) as [q|] eqn:Hv; simpl.
    + destruct (PathToString q) as [uri|] eqn:Hs; simpl.
      * split; [done|]. by exists fp, q, uri.
      * intros x (_ & ? & q' & uri & Hv' & Hs' & _ & ->). congruence.
    + intros x (_ & ? & q' & uri & Hv' & _ & _ & ->). congruence.
  - intros x (_ & fp & q & uri & _ & _ & _ & H & _). done.
Qed.

Lemma ConvertToURI_update prefix op path payload :
  op ≠ DELETE_ → is_Some payload →
  match ConvertToURI false prefix path with
  | Ok uri => translates prefix (op, path, payload) (op, uri, payload)
  | Err _ => ∀ e, ¬ translates prefix (op, path, payload) e
  end.
Proof.
  intros Hop Hpay. unfold ConvertToURI, translates.
  set (full := match prefix with Some _ => GnmiTranslFullPath prefix path | None => Ok path end).
  assert (match full with
          | Ok fp => match path with Some p => fp = Some (asked_path prefix op p)
                                   | None => op ≠ DELETE_ ∧ prefix = None ∧ fp = None end
          | Err _ => path = None ∧ prefix ≠ None end) as Hfull.
  { unfold full, GnmiTranslFullPath, asked_path. destruct prefix as [pr|], path as [p|], op; done. }
  destruct full as [fp|f]; simpl.
  - assert (∀ fp', match path with Some p => fp' = Some (asked_path prefix op p)
                                 | None => op ≠ DELETE_ ∧ prefix = None ∧ fp' = None end → fp' = fp) as Huniq.
    { intros fp'. destruct path; naive_solver congruence. }
    destruct (Validate false fp) as [q|] eqn:Hv; simpl.
    + destruct (PathToString q) as [uri|] eqn:Hs; simpl.
      * split; [done|]. by exists fp, q, uri.
      * intros x (_ & fp' & q' & uri & Hv' & Hs' & _ & ->%Huniq). congruence.
    + intros x (_ & fp' & q' & uri & Hv' & _ & _ & ->%Huniq). congruence.
  - destruct Hfull as [-> Hpr]. by intros x (_ & fp' & q & uri & _ & _ & _ & _ & ? & _).
Qed.

Lemma bulk_deletes_spec prefix ds :
  loop_spec prefix ((λ d, (DELETE_, d, None)) <$> ds) (bulk_deletes prefix ds).
Proof.
  induction ds as [|d ds IH]; [constructor|]. rewrite fmap_cons. simpl.
  pose proof (loop_spec_cons prefix (DELETE_, d, None) ((λ d, (DELETE_, d, None)) <$> ds)
    (uri ← (fullPath ← GnmiTranslFullPath prefix d; ConvertToURI false None fullPath); Ok (DELETE_, uri, None)) (bulk_deletes prefix ds)) as H.
  pose proof (ConvertToURI_delete prefix d None) as Hd.
  destruct (GnmiTranslFullPath prefix d) as [fp|]; simpl in *; [|by apply H].
  destruct (ConvertToURI false None fp) as [uri|]; simpl in *; [|by apply H]. by apply H.
Qed.

Lemma bulk_updates_spec op prefix us :
  op ≠ DELETE_ →
  loop_spec prefix ((λ u, (op, upd_path u, json_payload u)) <$> us) (bulk_updates op prefix us).
Proof.
  intros Hop. induction us as [|u us IH]; [constructor|]. rewrite fmap_cons. simpl.
  destruct (json_payload u) as [text|] eqn:Hp.
  - pose proof (ConvertToURI_update prefix op (upd_path u) (Some text) Hop ltac:(by eexists)) as Hu.
    assert (upd_val u = Some (JsonIetfVal text)) as ->.
    { unfold json_payload in Hp. destruct (upd_val u) as [[]|]; try done. by injection Hp as ->. }
    pose proof (loop_spec_cons prefix (op, upd_path u, Some text) ((λ u, (op, upd_path u, json_payload u)) <$> us)
      (uri ← ConvertToURI false prefix (upd_path u); Ok (op, uri, Some text)) (bulk_updates op prefix us)) as H.
    destruct (ConvertToURI false prefix (upd_path u)) as [uri|]; simpl in *; by apply H.
  - assert (∀ e, ¬ translates prefix (op, upd_path u, None) e) as Hn.
    { intros x [Hpay _]. by destruct (Hpay Hop). }
    destruct (ConvertToURI false prefix (upd_path u)) as [uri|]; simpl; [|by exists (op, upd_path u, None); split; [left|]].
    unfold json_payload in Hp.
    destruct (upd_val u) as [[]|]; try discriminate Hp; (exists (op, upd_path u, None); split; [left|exact Hn]).
Qed.

Lemma loop_spec_app prefix its its' r r' :
  loop_spec prefix its r → loop_spec prefix its' r' →
  loop_spec prefix (its ++ its') (es ← r; es' ← r'; Ok (es ++ es')).
Proof.
  intros H H'. destruct r as [es|f]; simpl in *.
  - destruct r' as [es'|f]; simpl in *; [by apply Forall2_app|].
    destruct H' as (i & Hi & Hn). exists i. split; [set_solver|done].
  - destruct H as (i & Hi & Hn). exists i. split; [set_solver|done].
Qed.

Lemma bulk_request_spec delete replace update prefix ctx :
  match bulk_request delete replace update prefix ctx with
  | Ok req =>
      Forall2 (translates prefix) (set_items delete replace update) (br_entries req) ∧
      br_user req = user_of (get_context ctx) ∧ br_auth req = AuthEnabled (Auth_ (get_context ctx)) ∧
      client_version (get_context ctx) = Ok (br_version req)
  | Err _ =>
      (∃ e, client_version (get_context ctx) = Err e) ∨
      ∃ i, i ∈ set_items delete replace update ∧ ∀ e, ¬ translates prefix i e
  end.
Proof.
  unfold bulk_request. destruct (client_version _) as [v|e]; simpl; [|left; by eexists].
  pose proof (loop_spec_app _ _ _ _ _ (bulk_deletes_spec prefix delete)
    (loop_spec_app _ _ _ _ _ (bulk_updates_spec REPLACE_ prefix replace ltac:(done))
       (bulk_updates_spec UPDATE_ prefix update ltac:(done)))) as H.
  unfold set_items.
  destruct (bulk_deletes prefix delete) as [ds|]; simpl in *; [|by right].
  destruct (bulk_updates REPLACE_ prefix replace) as [rs|]; simpl in *; [|by right].
  destruct (bulk_updates UPDATE_ prefix update) as [us|]; simpl in *; [done|by right].
Qed.

Lemma bulk_errors_nil es global :
  bulk_errors es global = [] ↔ Forall (.= None) es ∧ global = None.
Proof.
  unfold bulk_errors.
  assert (Error <$> omap id es = [] ↔ Forall (.= None) es) as Hes.
  { induction es as [|[e|] es IH]; simpl; [done| |].
    - split; [done|]. by inversion_clear 1.
    - rewrite Forall_cons. tauto. }
  destruct (Error <$> omap id es) as [|m ms]; destruct global as [e|]; naive_solver.
Qed.


(** ** One operation *)

(** A delete under a prefix, of a path without elements, asks translib to
    delete what the path without the prefix names: the prefix is dropped. *)
Theorem empty_path_drops_prefix prefix p ctx :
  path_elem p = [] →
  TranslProcessDelete (Some prefix) (Some p) ctx =
  TranslProcessDelete None (Some {| path_origin := path_origin p; path_target := ""; path_elem := [] |}) ctx.
Proof. intros Hp. unfold TranslProcessDelete, one_request, ConvertToURI, GnmiTranslFullPath. simpl. by rewrite Hp. Qed.

(** A value that is not JSON is refused in a Set of several operations; alone,
    it reaches translib as an empty payload. *)
Theorem single_value_unchecked prefix u v ctx req s :
  json_payload u = None → one_request ctx prefix (upd_path u) None = Ok req →
  TranslProcessReplace prefix u ctx s = ((tl_Replace req s).1, of_call (tl_Replace req s).2) ∧
  tr_payload req = None ∧
  ∃ e, TranslProcessBulk [] [u; v] [] prefix ctx s = (s, Some e).
Proof.
  intros Hp Hreq. unfold TranslProcessReplace. rewrite Hp, Hreq, bind_run. split_and!; [done| |].
  - unfold one_request, make_request in Hreq. destruct (ConvertToURI _ _ _); simpl in Hreq; [|done].
    destruct (client_version _); simpl in Hreq; [|done]. by injection Hreq as <-.
  - unfold TranslProcessBulk, bulk_request. destruct (client_version _) as [ver|e]; simpl; [|by eexists].
    destruct (ConvertToURI false prefix (upd_path u)); simpl; [|by eexists].
    unfold json_payload in Hp. by destruct (upd_val u) as [[]|]; try discriminate Hp; eexists.
Qed.

(** ** Who asks *)

(** A request that names no user and is not marked as authenticated. *)
Definition anonymous (u : UserRoles) (auth : bool) : Prop :=
  u = {| ur_name := ""; ur_roles := [] |} ∧ auth = false.

(** [P] is kept by every anonymous write of translib. *)
Record kept_by_anonymous (P : TL → Prop) : Prop := {
  kept_one req s : anonymous (tr_user req) (tr_auth req) → P s →
    P (tl_Delete req s).1 ∧ P (tl_Replace req s).1 ∧ P (tl_Update req s).1;
  kept_bulk req s : anonymous (br_user req) (br_auth req) → P s → P (tl_Bulk req s).1
}.

Lemma one_request_anonymous c prefix path payload req :
  tc_ctx c = None → one_request (Some (versioned c)) prefix path payload = Ok req →
  anonymous (tr_user req) (tr_auth req).
Proof.
  intros Hc. unfold one_request, make_request. destruct (ConvertToURI _ _ _); simpl; [|done].
  destruct (client_version _); simpl; [|done]. intros [= <-]. simpl.
  unfold versioned. rewrite Hc. by destruct (getBundleVersion _).
Qed.

Lemma bulk_request_anonymous c delete replace update prefix req :
  tc_ctx c = None → bulk_request delete replace update prefix (Some (versioned c)) = Ok req →
  anonymous (br_user req) (br_auth req).
Proof.
  intros Hc. unfold bulk_request. destruct (client_version _); simpl; [|done].
  destruct (bulk_deletes _ _); simpl; [|done]. destruct (bulk_updates REPLACE_ _ _); simpl; [|done].
  destruct (bulk_updates UPDATE_ _ _); simpl; [|done]. intros [= <-]. simpl.
  unfold versioned. rewrite Hc. by destruct (getBundleVersion _).
Qed.

Lemma Set_anonymous P c delete replace update s :
  kept_by_anonymous P → tc_ctx c = None → P s → P (Transl.Set_ delete replace update c s).1.
Proof.
  intros [H1 Hb] Hc Hs. unfold Transl.Set_. destruct (bool_decide _).
  - unfold TranslProcessBulk. destruct (bulk_request _ _ _ _ _) as [req|e] eqn:Hreq; [|done].
    rewrite bind_run. apply Hb; [|done]. by eapply bulk_request_anonymous.
  - pose proof (one_request_anonymous c) as Hone.
    assert (∀ path payload (k : TlRequest Version → ST TL (option failure)), (∀ req, anonymous (tr_user req) (tr_auth req) → P (k req s).1) →
      P (match one_request (Some (versioned c)) (tc_prefix c) path payload with
         | Ok req => k req | Err e => mret (Some e) end s).1) as Hcall.
    { intros path payload k Hk. destruct (one_request _ _ _ _) as [req|e] eqn:Hreq; [|done]. eauto. }
    repeat case_match; try done; apply Hcall; intros req Ha; rewrite bind_run;
      destruct (H1 req s Ha Hs) as (Hd & Hr & Hu); try done.
    all: destruct (tl_Update req s).2 as [[]|]; try done; rewrite bind_run; by apply H1.
Qed.
End facts.

(** ** The server over the client *)

Section server.
Context {Rd : Redis} {Sw : Swss} {Fmt : GoFmt} {MR : MapRange} {JC : JsonCodec} {T : Translib}.

Definition status_of (e : tl_error) : client_error :=
  (match e with GrpcError c _ => Some c | _ => None end, Error e).

(** The client as the server sees it. *)
Definition transl_client (now : Z) (c : TranslClient) : DataClient (BS := TL) := {|
  dc_get := on_backend (
    r ← Transl.Get now c;
    mret match r with
         | Ok values => Returns (Ok values)
         | Err (Fail e) => Returns (Err (status_of e))
         | Err Crash => Panics
         end);
  dc_set delete replace update := on_backend (
    r ← Transl.Set_ delete replace update c;
    mret match r with
         | None => Returns None
         | Some (Fail e) => Returns (Some (status_of e))
         | Some Crash => Panics
         end)
|}.

(** [NewTranslClient] as Get and Set call it: with the context of the request,
    which carries no [RequestContext] before [authenticate] makes one. *)
Definition new_transl_client (now : Z) (prefix : option Path) (paths : list Path) (exts : list Extension)
  : res string (DataClient (BS := TL)) :=
  match Transl.NewTranslClient prefix (Some paths) None exts false with
  | Ok c => Ok (transl_client now c)
  | Err (Fail e) => Err (Error e)
  | Err Crash => Err ""
  end.

Lemma NewTranslClient_ctx prefix paths ctx exts w c :
  Transl.NewTranslClient prefix paths ctx exts w = Ok c → tc_ctx c = ctx.
Proof.
  unfold Transl.NewTranslClient. destruct paths as [paths|]; simpl; [|by intros [= <-]].
  destruct (PopulateClientPaths _ _ _); simpl; [|done]. by intros [= <-].
Qed.

(** The paths of a request are there, so the constructor does not panic. *)
Lemma PopulateClientPaths_no_crash prefix paths w : PopulateClientPaths prefix paths w ≠ Err Crash.
Proof.
  induction paths as [|p paths IH]; simpl; [done|]. unfold ConvertToURI.
  destruct prefix; simpl; (destruct (Validate w _) as [q|]; simpl; [|done];
    destruct (PathToString q); simpl; [|done]; by destruct (PopulateClientPaths _ _ _)).
Qed.

Context (B : Backend (BS := TL)) (A : AuthEnv) (now : Z) (cfg : Config) (processor : GnmiAuthzProcessor).

(** translib is never told who asks.  A Set on YANG paths, however it was
    authenticated, makes only requests without user, without roles and not
    marked as authenticated: whatever such requests keep of the state of
    translib, the Set keeps. *)
Theorem transl_anonymous P r req s origin :
  kept_by_anonymous P →
  Server.NewTranslClient B = new_transl_client now → (∀ d, P d.2 → P (SaveStartupConfig B d).1.2) →
  set_origin req = Returns (Ok origin) → IsNativeOrigin origin = false →
  P (st_backend s) → P (st_backend (Server.Set_ B A now cfg processor r req s).1).
Proof.
  intros HP HB Hsave Ho Hnat Hs. unfold Server.Set_. rewrite bind_run.
  set (s1 := (lift_master _ s).1). assert (P (st_backend s1)) as H1.
  { unfold s1. by rewrite keeps_master_backend. }
  clearbody s1. destruct ((lift_master _ s).2); [|done].
  unfold set_admitted. rewrite bind_run. set (s2 := (IncCounter GNMI_SET s1).1).
  assert (P (st_backend s2)) as H2 by done. clearbody s2.
  destruct (_ && _); [done|]. destruct (policy_set _ _ _ _); [|done]. rewrite Ho, Hnat.
  destruct (negb _); [done|]. rewrite HB. unfold new_transl_client.
  destruct (Transl.NewTranslClient _ _ _ _ _) as [c|[]] eqn:Hc; [|done..].
  apply NewTranslClient_ctx in Hc. unfold set_with. rewrite bind_run.
  set (s3 := (authenticate_request _ _ _ _ _ _ s2).1). assert (P (st_backend s3)) as H3.
  { unfold s3. unfold authenticate_request. by rewrite keeps_auth_backend. }
  clearbody s3. destruct ((authenticate_request _ _ _ _ _ _ s2).2); [|done].
  rewrite bind_run. set (s4 := (lift_client _ s3).1). assert (P (st_backend s4)) as H4.
  { unfold s4, lift_client. simpl. rewrite bind_run. simpl.
    pose proof (Set_anonymous P c (set_delete req) (set_replace req) (set_update req) _ HP Hc H3) as H.
    by destruct (Transl.Set_ _ _ _ _ _) as [b x]. }
  clearbody s4. destruct ((lift_client _ s3).2) as [[e|]|]; [done| |done].
  rewrite bind_run. simpl. unfold lift_client. pose proof (Hsave (st_world s4, st_backend s4) H4) as H.
  by destruct (SaveStartupConfig B _) as [[]].
Qed.
End server.

(** ** Instances at concrete requests *)
Module TranslExample.
Import VdbExample BypassExample ServerExample.
#[local] Existing Instances server_db range go_fmt codec swss0.

Definition slashes (es : list PathElem) : string := foldl (λ s e, s +:+ "/" +:+ elem_name e) "" es.

(** A library that logs who asked for what and refuses entries at [/bad]. *)
#[local] Instance logging : Translib := {|
  TL := list (UserRoles * bool * string);
  Version := string;
  NewVersion v := if bool_decide (v = "1.0.0") then Ok v else Err (InvalidArgsError v);
  tl_Get req s := ((tr_user req, tr_auth req, tr_path req) :: s, ("{}", None));
  tl_Delete req s := ((tr_user req, tr_auth req, tr_path req) :: s, None);
  tl_Replace req s := ((tr_user req, tr_auth req, tr_path req) :: s, None);
  tl_Update req s := ((tr_user req, tr_auth req, tr_path req) :: s, None);
  tl_Bulk req s :=
    (((λ e, (br_user req, br_auth req, e.1.2)) <$> br_entries req) ++ s,
     ((λ e, if bool_decide (e.1.2 = "/bad") then Some (NotFoundError "bad") else None) <$> br_entries req, None));
  tl_Action req s := ((tr_user req, tr_auth req, tr_path req) :: s, Ok "");
  tl_models := [];
  Validate _ p := Ok p;
  PathToString p := Ok (slashes (GetElem p));
  Compact d := d
|}.

Definition update_of (name : string) (v : option TypedValue) : Update :=
  {| upd_path := Some (path_of [name]); upd_val := v |}.
Definition json_update (name : string) : Update := update_of name (Some (JsonIetfVal "{}")).

Definition client0 : TranslClient :=
  {| tc_prefix := Some (path_of ["top"]); tc_path2URI := []; tc_ctx := None; tc_extensions := [] |}.

Definition log0 : @TL logging := [].
Notation bulk_run := (Transl.Set_ [Some (path_of ["a"])] [json_update "b"] [] client0 log0).


Definition anonymous_log (s : list (UserRoles * bool * string)) : Prop :=
  Forall (λ x, anonymous x.1.1 x.1.2) s.

Lemma log_kept : kept_by_anonymous anonymous_log.
Proof.
  split.
  - intros req s Ha Hs. by split_and!; constructor.
  - intros req s Ha Hs. unfold anonymous_log. simpl. apply Forall_app. split; [|done].
    apply Forall_fmap. by apply Forall_true.
Qed.

Definition yang_backend : Backend (BS := TL) := {|
  NewNonDbClient _ _ := Err "";
  NewShowClient _ _ := Err "";
  NewDbClient_ _ _ := Err "";
  NewMixedDbClient _ _ _ _ := (Err "", "");
  Server.NewTranslClient := new_transl_client 0;
  NewOperationalHandler _ _ := Err "";
  SaveStartupConfig b := (b, ())
|}.
Definition yang_state : State (BS := TL) := {|
  st_world := world0; st_auth := auth0; st_master := zero128; st_counters _ := 0%Z; st_backend := []
|}.
Definition yang_run : State (BS := TL) :=
  (Server.Set_ yang_backend auth_env 0 (config false false) new_processor (request "writer")
     (set_of yang_path []) yang_state).1.

(** The request of [writer] is authenticated and reaches translib unnamed. *)
Lemma transl_anonymous_witness : anonymous_log (st_backend yang_run) ∧ length (st_backend yang_run) = 1.
Proof.
  split; [|reflexivity].
  apply (transl_anonymous yang_backend auth_env 0 (config false false) new_processor anonymous_log
           (request "writer") (set_of yang_path []) yang_state "").
  - exact log_kept.
  - reflexivity.
  - intros b Hb. exact Hb.
  - reflexivity.
  - reflexivity.
  - constructor.
Defined.
End TranslExample.
