(* ===== verification/MixedFacts.v ===== *)
(** * Properties of the client of native paths

    What is written to a table reads back; how often a table operation is
    retried; which tables a Set touches; and that a Set on the configuration
    asks the host service to apply either all of it or nothing. *)
From Stdlib Require Import Ascii.
From stdpp Require Import base gmap list strings.
From S2P Require Import Prelude GoStrings Gnmi Json JsonClient World DbConfig DbConn DbClient DbStream VirtualDbFacts MixedDb MixedSet MixedStream Dbus ServerFacts.

(** ** Entries as JSON and as hashes *)

(** What a table can hold: a string, or a list of strings without commas, under
    a name that is not reserved. *)
Definition storable (k : string) (j : json) : Prop :=
  k ≠ "NULL" ∧ HasSuffix k "@" = false ∧
  match j with
  | JStr _ => True
  | JArr l => ∃ ss, ss ≠ [] ∧ l = JStr <$> ss ∧ Forall (free_of ","%char) ss
  | _ => False
  end.

Lemma strings_of_strs ss : strings_of (JStr <$> ss) = ss.
Proof. induction ss as [|s ss IH]; [done|]. unfold strings_of in *. rewrite fmap_cons. simpl. by f_equal. Qed.

(** What comes back of a field: a string as it is, unless its name is the
    reserved one; of a list its strings, joined and split at the commas, so
    that an empty list becomes one empty string; nothing of any other value. *)
Definition kept_value (k : string) (j : json) : option json :=
  match j with
  | JStr s => if bool_decide (k = "NULL") then None else Some (JStr s)
  | JArr l => Some (JArr (JStr <$> Split (Join (strings_of l) ",") ","))
  | _ => None
  end.
Definition kept_fields (m : gmap string json) : gmap string json := map_imap kept_value m.

(** Names that the marker of lists does not make ambiguous. *)
Definition plain_names (m : gmap string json) : Prop := map_Forall (λ k _, HasSuffix k "@" = false) m.

(** [field_entry] after [redis_field]. *)
Lemma field_entry_redis k j f v :
  HasSuffix k "@" = false → redis_field (k, j) = Some (f, v) → field_entry (f, v) = (k,.) <$> kept_value k j.
Proof.
  intros Hs Hr. unfold redis_field in Hr. simpl in Hr. unfold field_entry, kept_value.
  destruct j as [| | |s|l|]; simplify_eq.
  - case_bool_decide; [done|]. by rewrite Hs.
  - assert (k +:+ "@" ≠ "NULL") as Hk.
    { intros Hk. assert (HasSuffix "NULL" "@" = true) as H by (rewrite <- Hk; apply HasSuffix_app). done. }
    rewrite bool_decide_false by done. by rewrite HasSuffix_app, TrimSuffix_app.
Qed.

Lemma redis_field_kept k j x : kept_value k j = Some x → is_Some (redis_field (k, j)).
Proof. intros H. destruct j; done || eexists; done. Qed.

(** What a table can hold comes back unchanged. *)
Lemma kept_storable m : map_Forall storable m → kept_fields m = m.
Proof.
  intros Hm. apply map_eq. intros k. unfold kept_fields. rewrite map_lookup_imap.
  destruct (m !! k) as [j|] eqn:Hk; [|done]. simpl. destruct (Hm k j Hk) as (Hn & _ & Hj).
  destruct j as [| | |s|l|]; try done; simpl.
  - by rewrite bool_decide_false.
  - destruct Hj as (ss & Hne & -> & Hf). by rewrite strings_of_strs, Split_Join.
Qed.

(** The keys of the images are distinct when a key determines its element. *)
Lemma NoDup_omap_fst {A B} (f : A → option (string * B)) (l : list A) :
  NoDup l → (∀ x y, x ∈ l → y ∈ l → ∀ k v w, f x = Some (k, v) → f y = Some (k, w) → x = y) →
  NoDup (omap f l).*1.
Proof.
  intros Hn Hinj. induction Hn as [|x l Hx Hn IH]; simpl; [constructor|].
  assert (NoDup (omap f l).*1) as Hl.
  { apply IH. intros y z Hy Hz. apply Hinj; by right. }
  destruct (f x) as [[k v]|] eqn:Hf; [|done]. rewrite fmap_cons. constructor; [|done].
  intros ([k' w] & Hk & (y & Hy & Hfy)%list_elem_of_omap)%list_elem_of_fmap. simpl in Hk. subst k'.
  apply Hx. rewrite (Hinj x y (list_elem_of_here _ _) (list_elem_of_further _ _ _ Hy) k v w Hf Hfy). done.
Qed.

(** The name of the field of an entry determines the entry's. *)
Lemma redis_field_name k j k' j' f v w :
  HasSuffix k "@" = false → HasSuffix k' "@" = false →
  redis_field (k, j) = Some (f, v) → redis_field (k', j') = Some (f, w) → k = k'.
Proof.
  intros Hs Hs' Hr Hr'. unfold redis_field in Hr, Hr'. simpl in *.
  destruct j; simplify_eq; destruct j'; simplify_eq; try done.
  - by rewrite HasSuffix_app in Hs.
  - by rewrite HasSuffix_app in Hs'.
  - assert (TrimSuffix (k +:+ "@") "@" = TrimSuffix (k' +:+ "@") "@") as E by congruence.
    by rewrite !TrimSuffix_app in E.
Qed.

Section roundtrip.
(** The orders in which the entry is written and read. *)
Context (W R : MapRange).

Lemma ConvertDbEntry_nodup m :
  plain_names m → NoDup (omap redis_field (@map_range W _ m)).*1.
Proof.
  intros Hm. apply NoDup_omap_fst.
  - eapply NoDup_fmap_1, NoDup_map_range_fst.
  - intros [k j] [k' j'] Hin%elem_of_map_range Hin'%elem_of_map_range f v w Hr Hr'.
    assert (k = k') as -> by (eapply redis_field_name; [by eapply Hm|by eapply Hm|done..]). congruence.
Qed.

Lemma ConvertDbEntry_lookup m f v :
  plain_names m →
  @ConvertDbEntry W m !! f = Some v ↔ ∃ k j, m !! k = Some j ∧ redis_field (k, j) = Some (f, v).
Proof.
  intros Hm. unfold ConvertDbEntry. rewrite insert_all_lookup by by apply ConvertDbEntry_nodup. split.
  - intros ([k j] & Hin%elem_of_map_range & Hr). by eauto.
  - intros (k & j & Hin & Hr). exists (k, j). by rewrite elem_of_map_range.
Qed.

(** Rendering the fields that [ConvertDbEntry] makes of an entry gives what
    is kept of it, whatever the orders in which the two loops range over their
    maps. *)
Lemma entry_roundtrip m :
  plain_names m →
  @makeJSON_redis R ∅ None None (@ConvertDbEntry W m) = kept_fields m.
Proof.
  intros Hm. unfold makeJSON_redis, add_fields.
  assert (∀ f v, (f, v) ∈ @map_range R _ (@ConvertDbEntry W m) →
    ∃ k j, m !! k = Some j ∧ redis_field (k, j) = Some (f, v) ∧
           field_entry (f, v) = (k,.) <$> kept_value k j) as Hback.
  { intros f v (k & j & Hkj & Hr)%elem_of_map_range%ConvertDbEntry_lookup; [|done].
    exists k, j. split_and!; [done..|]. by eapply field_entry_redis; [by eapply Hm|]. }
  assert (NoDup (omap field_entry (@map_range R _ (@ConvertDbEntry W m))).*1) as Hn.
  { apply NoDup_omap_fst; [eapply NoDup_fmap_1, NoDup_map_range_fst|].
    intros [f v] [f' v'] (k & j & Hj & Hr & Hf)%Hback (k' & j' & Hj' & Hr' & Hf')%Hback k0 j1 j2 H1 H2.
    rewrite Hf in H1. rewrite Hf' in H2. destruct (kept_value k j), (kept_value k' j'); simplify_eq/=. done. }
  apply map_eq. intros k. apply option_eq. intros x. rewrite insert_all_lookup by done.
  unfold kept_fields. rewrite map_lookup_imap, bind_Some. split.
  - intros ([f v] & (k' & j & Hkj & Hr & Hf)%Hback & Hf'). rewrite Hf in Hf'.
    destruct (kept_value k' j) as [y|] eqn:Hy; [|done]. injection Hf' as -> ->. by eauto.
  - intros (j & Hkj & Hx). destruct (redis_field_kept k j x Hx) as [[f v] Hr]. exists (f, v). split.
    + apply elem_of_map_range, ConvertDbEntry_lookup; [done|]. by eauto.
    + rewrite (field_entry_redis k j f v (Hm k j Hkj) Hr), Hx. done.
Qed.

End roundtrip.

(** ** Retries *)

Section tables.
Context {Sw : Swss} {MR : MapRange} {JCo : JsonCodec} {Ta : Tables} {Ho : Host}.
Context (cfg : Cfg).

Notation SM A := (ST SetState A).

(** The state before the attempt after [n] failed ones: each was followed by a
    new connection and a pause twice as long as the one before. *)
Fixpoint before_attempt (action : SM (option string)) (n : nat) (delay : Z) (s : SetState) : SetState :=
  match n with
  | 0 => s
  | S n =>
      let s := (action s).1 in
      let s := (on_out ZmqConnect s).1 in
      let s := (on_out (λ t, (Sleep delay t, ())) s).1 in
      before_attempt action n (delay * RETRY_DELAY_FACTOR) s
  end.

(** The attempt fails for the lack of a connection. *)
Definition disconnected (r : SetState * option string) : Prop :=
  ∃ e, r.2 = Some e ∧ connection_error e = true.

Lemma retry_loop_spec z action more delay s :
  (∀ t, (ZmqConnect t).2 = None) →
  ∃ n, n ≤ more ∧ (∀ i, i < n → disconnected (action (before_attempt action i delay s))) ∧
    (n = more ∨ ¬ disconnected (action (before_attempt action n delay s))) ∧
    retry_loop (Some z) action more delay s =
      ((action (before_attempt action n delay s)).1, Errorf <$> (action (before_attempt action n delay s)).2).
Proof.
  intros Hconn. revert delay s. induction more as [|more IH]; intros delay s.
  - exists 0. split; [lia|]. split; [lia|]. split; [by left|]. simpl.
    unfold mbind, ST_bind. by destruct (action s) as [s1 [e|]].
  - cbn [retry_loop]. destruct (action s) as [s1 [e|]] eqn:Ha.
    + destruct (connection_error e) eqn:He.
      * set (s2 := (on_out ZmqConnect s1).1). set (s3 := (on_out (λ t, (Sleep delay t, ())) s2).1).
        destruct (IH (delay * RETRY_DELAY_FACTOR)%Z s3) as (n & Hn & Hi & Hend & Hrun).
        assert (before_attempt action (S n) delay s
                = before_attempt action n (delay * RETRY_DELAY_FACTOR) s3) as Hb by (simpl; by rewrite Ha).
        exists (S n). rewrite Hb. split; [lia|]. split.
        { intros [|i] Hlt; simpl; [rewrite Ha; by exists e|]. rewrite Ha. apply Hi. lia. }
        split; [by destruct Hend as [->|]; [left|right]|].
        unfold mbind, ST_bind. rewrite Ha, He. unfold on_out at 1. pose proof (Hconn (ss_out s1)) as Hc.
        subst s2 s3. unfold on_out in *. destruct (ZmqConnect (ss_out s1)) as [t [?|]]; [done|]. simpl in *.
        exact Hrun.
      * exists 0. split; [lia|]. split; [lia|]. simpl. rewrite Ha. split.
        { right. intros (e' & [= <-] & ?). congruence. }
        unfold mbind, ST_bind. rewrite Ha. by rewrite He.
    + exists 0. split; [lia|]. split; [lia|]. simpl. rewrite Ha. split; [right; by intros (e' & ? & _)|].
      unfold mbind, ST_bind. by rewrite Ha.
Qed.

(** A table operation over ZMQ is tried at most seven times and always
    ends: it is tried again exactly while it fails for the lack of a
    connection, each time after a new connection and a pause that doubles from
    100 ms, and the outcome of the last attempt is the outcome. *)
Theorem retry_bounded z action s :
  (∀ t, (ZmqConnect t).2 = None) →
  ∃ n, n ≤ 6 ∧
    (∀ i, i < n → disconnected (action (before_attempt action i 100 s))) ∧
    (n = 6 ∨ ¬ disconnected (action (before_attempt action n 100 s))) ∧
    RetryHelper (Some z) action s =
      ((action (before_attempt action n 100 s)).1, Errorf <$> (action (before_attempt action n 100 s)).2).
Proof. apply retry_loop_spec. Qed.

(** Without a ZMQ client, an error that looks like a lost connection panics. *)
Theorem retry_without_zmq action s :
  disconnected (action s) → RetryHelper None action s = ((action s).1, Some Panicked).
Proof.
  intros (e & He & Hc). unfold RetryHelper. simpl. unfold mbind, ST_bind.
  destruct (action s) as [s1 r]. simpl in *. by rewrite He, Hc.
Qed.

(** ** Which tables a Set touches *)

Section frame.
Context (c : MixedDbClient) (names : string → Prop) (P : TabT → Prop) (h : DState).

(** What the operations on the named tables, each of the class its name
    selects, keep. *)
Record tables_keep : Prop := {
  keep_new tb t : names tb → P t → P (NewTable (kind_of (mc_zmqClient c) tb) tb t).1;
  keep_set tb key vs t : names tb → P t → P (TableSet (kind_of (mc_zmqClient c) tb) tb key vs t).1;
  keep_del tb key t : names tb → P t → P (TableDel (kind_of (mc_zmqClient c) tb) tb key t).1;
  keep_connect t : P t → P (ZmqConnect t).1;
  keep_sleep d t : P t → P (Sleep d t)
}.

(** Open tables have the class their name selects; the host is not involved. *)
Definition steady (s : SetState) : Prop :=
  map_Forall (λ tb k, k = kind_of (mc_zmqClient c) tb) (ss_tables s) ∧ P (ss_out s) ∧ ss_host s = h.

Definition keeps_steady {X} (m : SM X) : Prop := ∀ s, steady s → steady (m s).1.

Context (HK : tables_keep).

Lemma steady_ret {X} (x : X) : keeps_steady (mret x).
Proof. by intros s. Qed.

Lemma steady_bind {X Y} (m : SM X) (k : X → SM Y) :
  keeps_steady m → (∀ x, keeps_steady (k x)) → keeps_steady (m ≫= k).
Proof. intros Hm Hk s Hs. rewrite bind_run. by apply Hk, Hm. Qed.

Lemma steady_out {X} (f : TabT → TabT * X) : (∀ t, P t → P (f t).1) → keeps_steady (on_out f).
Proof.
  intros Hf s (Hk & Hp & Hh). unfold on_out. pose proof (Hf _ Hp) as Hp'.
  by destruct (f (ss_out s)) as [t x].
Qed.

Lemma steady_each {X} (f : X → SM (option gerr)) xs :
  (∀ x, x ∈ xs → keeps_steady (f x)) → keeps_steady (each f xs).
Proof.
  induction xs as [|x xs IH]; intros Hf; simpl; [apply steady_ret|].
  apply steady_bind; [apply Hf; left|]. intros [e|]; [apply steady_ret|]. apply IH. intros y Hy. apply Hf. by right.
Qed.

Lemma steady_retry zmq action more delay :
  keeps_steady action → keeps_steady (retry_loop zmq action more delay).
Proof.
  intros Ha. revert delay. induction more as [|more IH]; intros delay; simpl;
    (apply steady_bind; [done|]); intros [e|]; try apply steady_ret.
  destruct (connection_error e); [|apply steady_ret]. destruct zmq; [|apply steady_ret].
  apply steady_bind; [apply steady_out, HK|]. intros [e'|]; [apply steady_ret|].
  apply steady_bind; [apply steady_out; intros t; apply HK|]. intros _. apply IH.
Qed.

(** Opening a table gives the class of its name. *)
Lemma GetTable_kind tb s s' r :
  names tb → steady s → GetTable c tb s = (s', r) →
  steady s' ∧ (∀ k, r = Ok k → k = kind_of (mc_zmqClient c) tb).
Proof.
  intros Hn (Hk & Hp & Hh). unfold GetTable. destruct (ss_tables s !! tb) as [k|] eqn:Ht.
  - intros [= <- <-]. split; [done|]. intros k' [= <-]. by apply (Hk tb).
  - pose proof (keep_new HK tb _ Hn Hp) as Hp'. destruct (NewTable _ _ _) as [t [e|]]; intros [= <- <-].
    + done.
    + split; [|by intros k [= <-]]. split_and!; [|done..]. by apply map_Forall_insert_2.
Qed.

Lemma steady_table tb (f : kind → SM (option gerr)) :
  names tb → keeps_steady (f (kind_of (mc_zmqClient c) tb)) →
  keeps_steady (k ← GetTable c tb; match k with Err e => mret (Some e) | Ok k => f k end).
Proof.
  intros Hn Hf s Hs. rewrite bind_run. destruct (GetTable c tb s) as [s' r] eqn:Hg.
  destruct (GetTable_kind tb s s' r Hn Hs Hg) as [Hs' Hk]. simpl.
  destruct r as [k|e]; [|done]. rewrite (Hk k eq_refl). by apply Hf.
Qed.

Lemma steady_run k action : keeps_steady action → keeps_steady (run_table c k action).
Proof.
  intros Ha. unfold run_table. destruct k; [|by apply steady_retry..].
  apply steady_bind; [done|]. intros e. apply steady_ret.
Qed.

Lemma steady_DbSet tb key vs : names tb → keeps_steady (DbSetTable c tb key vs).
Proof.
  intros Hn. unfold DbSetTable.
  apply (steady_table tb (λ k, run_table c k (on_out (TableSet k tb key (map_range vs))))); [done|].
  apply steady_run, steady_out. intros t. by apply HK.
Qed.

Lemma steady_DbDel tb key : names tb → keeps_steady (DbDelTable c tb key).
Proof.
  intros Hn. unfold DbDelTable.
  apply (steady_table tb (λ k, run_table c k (on_out (TableDel k tb key)))); [done|].
  apply steady_run, steady_out. intros t. by apply HK.
Qed.

Lemma steady_set_entry tb e : names tb → keeps_steady (set_entry c tb e).
Proof. intros Hn. unfold set_entry. destruct (as_map _); [by apply steady_DbSet|apply steady_ret]. Qed.

Lemma steady_handle g tps : Forall (λ tp, names (tableName tp)) tps → keeps_steady (handleTableData g c tps).
Proof.
  intros Ht. apply steady_each. intros tp Hin. rewrite Forall_forall in Ht. specialize (Ht tp Hin).
  destruct (redis_of _ _ _) as [redisDb|]; [|apply steady_ret].
  destruct (_ && _); [apply steady_ret|]. destruct (bool_decide (_ = opRemove)).
  - unfold remove_entries. destruct (delete_keys _ _); [|apply steady_ret].
    apply steady_each. intros k _. by apply steady_DbDel.
  - destruct (bool_decide _); [|apply steady_ret]. unfold add_entries.
    destruct (bool_decide (tableKey tp ≠ "")).
    + destruct (bool_decide _); [|by apply steady_DbSet].
      destruct (parse_json _); [by apply steady_set_entry|apply steady_ret].
    + destruct (bool_decide _); [apply steady_ret|]. destruct (parse_json _) as [[]|]; try apply steady_ret.
      apply steady_each. intros e _. by apply steady_set_entry.
Qed.
End frame.

(** The table a path names, if it names one. *)
Definition table_of (c : MixedDbClient) (path : option Path) : string :=
  match gnmiFullPath (mc_prefix c) path with
  | Ok (Some (e :: _)) => elem_name e
  | _ => ""
  end.

Lemma split_path_table redisDb ns db sep v d slice tp :
  split_path redisDb ns db sep v (d :: slice) = Ok tp → tableName tp = default "" (head slice).
Proof.
  unfold split_path. destruct slice as [|tbl [|key [|fld [|i [|]]]]]; try done.
  - by intros [= <-].
  - intros Hp. destruct (bool_decide _); [destruct (Keys _ _) as [[]|]|]; by simplify_eq.
  - by intros (? & _ & [= <-])%bind_Ok.
  - by intros (? & _ & [= <-])%bind_Ok.
  - by intros (? & _ & (? & _ & [= <-])%bind_Ok)%bind_Ok.
Qed.

Lemma getDbtablePath_table g c path v tps :
  getDbtablePath cfg g c path v = Ok tps → Forall (λ tp, tableName tp = table_of c path) tps.
Proof.
  unfold getDbtablePath, table_of. intros (elems & -> & H)%bind_Ok.
  apply bind_Ok in H as (dbkey & _ & H). apply bind_Ok in H as (w & _ & H).
  apply bind_Ok in H as (redisDb & _ & H). apply bind_Ok in H as (tp & H & [= <-]).
  constructor; [|constructor]. destruct elems as [[|e es]|].
  - by apply split_path_table in H.
  - revert H. unfold insert_key. simpl. destruct (_ && _); intros H; by apply split_path_table in H.
  - by apply split_path_table in H.
Qed.

Lemma getAllDbtablePath_table g c paths tpss :
  getAllDbtablePath cfg g c paths = Ok tpss →
  Forall (λ tps, ∃ p, p ∈ paths ∧ Forall (λ tp, tableName tp = table_of c p) tps) tpss.
Proof.
  unfold getAllDbtablePath. apply (foldM_inv (λ l, Forall _ l)); [|constructor].
  intros s p s' Hp Hs (tps & Ht & [= <-])%bind_Ok. apply Forall_app. split; [done|].
  constructor; [|constructor]. exists p. split; [done|]. by eapply getDbtablePath_table.
Qed.

(** The tables a Set names. *)
Definition named (c : MixedDbClient) (delete : list (option Path)) (replace update : list Update) (tb : string)
  : Prop := ∃ p, p ∈ delete ++ (upd_path <$> replace) ++ (upd_path <$> update) ∧ tb = table_of c p.

(** A Set on APPL_DB or DPU_APPL_DB works on the tables its paths name and
    on no others, and never on the host's configuration.  Each table is served
    by the class that its name selects: tables of DASH_HA are always written
    directly, the other tables of DASH over ZMQ when the client has a
    connection, all others through a producer table.  Whatever the operations
    on those tables keep, the Set keeps, whether it succeeds or fails. *)
Theorem set_db_frame g c delete replace update P s :
  tables_keep c (named c delete replace update) P →
  map_Forall (λ tb k, k = kind_of (mc_zmqClient c) tb) (ss_tables s) → P (ss_out s) →
  let s' := (SetDB cfg g c delete replace update s).1 in
  map_Forall (λ tb k, k = kind_of (mc_zmqClient c) tb) (ss_tables s') ∧ P (ss_out s') ∧ ss_host s' = ss_host s.
Proof.
  intros HK Hk Hp. set (h := ss_host s).
  assert (keeps_steady c P h (SetDB cfg g c delete replace update)) as H; [|by apply H].
  unfold SetDB. destruct (getAllDbtablePath _ _ _ _) as [tpss|e] eqn:Hd; [|apply steady_ret].
  apply getAllDbtablePath_table in Hd. rewrite Forall_forall in Hd.
  apply steady_bind.
  - apply steady_each. intros tps (p & Hin & Ht)%Hd. eapply steady_handle; [done|].
    eapply Forall_impl; [exact Ht|]. intros tp Hn. exists p. split; [set_solver|done].
  - intros [e|]; [apply steady_ret|]. apply steady_each. intros u Hu. unfold set_item.
    destruct (getDbtablePath _ _ _ _ _) as [tps|] eqn:Ht; [|apply steady_ret].
    apply getDbtablePath_table in Ht. eapply steady_handle; [done|].
    eapply Forall_impl; [exact Ht|]. intros tp Hn. exists (upd_path u). split; [|done].
    rewrite <- fmap_app. apply elem_of_app. right. by apply list_elem_of_fmap_2.
Qed.

(** ** An entry that is written reads back *)

Lemma list_to_map_range {A} (m : gmap string A) : list_to_map (map_range m) = m.
Proof.
  apply map_eq. intros k. apply option_eq. intros v.
  by rewrite <- elem_of_list_to_map, elem_of_map_range by apply NoDup_map_range_fst.
Qed.

Section written.
Context (c : MixedDbClient) (path : Path) (dbkey : SonicDBKey) (tbl key : string).
Hypothesis Hpath : ∃ e0 e1, GetElem (mc_prefix c) ++ path_elem path = e0 :: e1 :: [elem tbl; elem key].
Hypothesis Hbelow : path_elem path ≠ [].
Hypothesis Hdbkey : mc_dbkey c = Some dbkey.
Hypothesis Htarget : mc_target c ≠ "COUNTERS_DB".

Let sep := (GetTableKeySeparatorByDBKey cfg (mc_target c) dbkey).1.

Lemma getDbtablePath_entry g redisDb value v :
  RedisDbMap g !! redis_key (mc_mapkey c) (mc_target c) = Some redisDb → value_of value = Ok v →
  getDbtablePath cfg g c (Some path) value =
    (_ ← exists_op redisDb v.1.1 tbl sep key;
     Ok [native_path (Netns dbkey) (mc_target c) sep tbl key "" (-1) v]).
Proof.
  intros Hr Hv. unfold getDbtablePath, gnmiFullPath. rewrite (bool_decide_false (Some path = None)) by done.
  rewrite andb_false_r. destruct Hpath as (e0 & e1 & He).
  destruct (path_elem path) as [|e es] eqn:Hp; [done|]. simpl. rewrite Hp, He. cbn [mbind res_bind default].
  rewrite Hdbkey. cbn [of_option mbind res_bind]. rewrite Hv. cbn [mbind res_bind].
  unfold redis_of. rewrite Hr. cbn [of_option mbind res_bind].
  change (mjoin (slice_of <$> id [elem tbl; elem key])) with [tbl; key].
  rewrite (bool_decide_false (mc_target c = "COUNTERS_DB")) by done.
  cbn [andb split_path]. fold sep. by destruct (exists_op _ _ _ _ _).
Qed.

(** The class that serves the table: the one it was opened with, or the one
    its name selects. *)
Definition serving (s : SetState) : kind := default (kind_of (mc_zmqClient c) tbl) (ss_tables s !! tbl).

(** The table is open or can be opened, and takes the write at once. *)
Definition takes (fields : list (string * string)) (s : SetState) : Prop :=
  match GetTable c tbl s with
  | (s1, Ok k) => (TableSet k tbl key fields (ss_out s1)).2 = None
  | (_, Err _) => False
  end.

Lemma GetTable_serving s s1 k : GetTable c tbl s = (s1, Ok k) → k = serving s.
Proof.
  unfold GetTable, serving. destruct (ss_tables s !! tbl) as [k'|]; [by intros [= _ <-]|].
  destruct (NewTable _ _ _) as [t [e|]]; [done|]. by intros [= _ <-].
Qed.

(** A write that succeeds ends with a successful attempt, the first one if
    that succeeds. *)
Lemma run_table_sets k fields s s' r :
  run_table c k (on_out (TableSet k tbl key fields)) s = (s', r) →
  (r = None → ∃ t, TableSet k tbl key fields t = (ss_out s', None)) ∧
  ((TableSet k tbl key fields (ss_out s)).2 = None → r = None).
Proof.
  assert (∀ more delay s, let '(s', r) := retry_loop (mc_zmqClient c) (on_out (TableSet k tbl key fields)) more delay s in
    (r = None → ∃ t, TableSet k tbl key fields t = (ss_out s', None)) ∧
    ((TableSet k tbl key fields (ss_out s)).2 = None → r = None)) as Hloop.
  { intros more. induction more as [|more IH]; intros delay s1; simpl; unfold mbind, ST_bind, on_out at 1;
      destruct (TableSet _ _ _ _ (ss_out s1)) as [t1 [e|]] eqn:Ht; simpl.
    - by split.
    - split; [|done]. intros _. by exists (ss_out s1).
    - destruct (connection_error e); [|by split]. destruct (mc_zmqClient c) as [z|]; [|by split].
      destruct (on_out ZmqConnect _) as [s2 [e2|]]; [by split|]. simpl.
      match goal with |- context [retry_loop _ _ _ _ ?st] => specialize (IH (delay * RETRY_DELAY_FACTOR)%Z st) end.
      destruct (retry_loop _ _ _ _ _) as [s3 r3]. split; [apply IH|done].
    - split; [|done]. intros _. by exists (ss_out s1). }
  unfold run_table, RetryHelper. intros H. destruct k.
  - revert H. unfold mbind, ST_bind, on_out.
    destruct (TableSet _ _ _ _ (ss_out s)) as [t1 [e|]] eqn:Ht; simpl; intros [= <- <-]; [done|].
    split; [|done]. intros _. by exists (ss_out s).
  - specialize (Hloop (S MAX_RETRY_COUNT) RETRY_DELAY_MILLISECOND s). by rewrite H in Hloop.
  - specialize (Hloop (S MAX_RETRY_COUNT) RETRY_DELAY_MILLISECOND s). by rewrite H in Hloop.
Qed.

(** The update of one entry is one write of its fields to the table. *)
Lemma SetDB_entry g redisDb text m s :
  RedisDbMap g !! redis_key (mc_mapkey c) (mc_target c) = Some redisDb →
  key ≠ "" → text ≠ "" → Unmarshal text = Some (JObj m) →
  SetDB cfg g c [] [] [{| upd_path := Some path; upd_val := Some (JsonIetfVal text) |}] s =
    DbSetTable c tbl key (ConvertDbEntry m) s.
Proof.
  intros Hr Hk Ht Hu.
  assert (∀ v, handleTableData g c [native_path (Netns dbkey) (mc_target c) sep tbl key "" (-1) (opAdd, text, v)] s
               = DbSetTable c tbl key (ConvertDbEntry m) s) as Hh.
  { intros v. unfold handleTableData, redis_of. cbn [each native_path dbName jsonField field operation].
    rewrite Hr. unfold add_entries, parse_json. simpl. rewrite !bool_decide_true by done. rewrite Hu.
    unfold mbind, ST_bind, set_entry. simpl. by destruct (DbSetTable _ _ _ _ s) as [s1 [e|]]. }
  unfold SetDB, getAllDbtablePath, set_item, mbind, ST_bind. simpl.
  rewrite (getDbtablePath_entry g redisDb _ (opAdd, text, "")) by done. unfold mbind, ST_bind. simpl. rewrite Hh.
  by destruct (DbSetTable _ _ _ _ s) as [s1 [e|]].
Qed.

(** The entry as a client of JSON reads it. *)
Lemma get_entry g now redisDb d m jv :
  RedisDbMap g !! redis_key (mc_mapkey c) (mc_target c) = Some redisDb → Serves redisDb d →
  tbl ≠ "" → key ≠ "" → mc_encoding c = JSON_IETF → plain_names m → Marshal (JObj (kept_fields m)) = Some jv →
  d !! (tbl +:+ sep +:+ key) = Some (ConvertDbEntry m) →
  get_values cfg now g c [Some path] = Ok [data_value now (mc_prefix c) (Some path) (JsonIetfVal jv)].
Proof.
  intros Hr Hs Ht Hk Henc Hm Hjv Hd. cbn [get_values].
  rewrite (getDbtablePath_entry g redisDb None (opRemove, "", "")) by done.
  unfold exists_op. simpl. rewrite serves_exists. simpl.
  unfold tableData2TypedValue. cbn [table_data native_path dbName jsonField field].
  unfold redis_of. rewrite Hr. simpl. unfold tableData2Msi, redis_of. simpl. rewrite Hr. simpl.
  unfold data_keys. simpl. rewrite (bool_decide_false (tbl = "")), (bool_decide_false (key = "")) by done. simpl.
  unfold render_key. rewrite serves_hgetall. unfold full_key. simpl. rewrite Hd. simpl.
  rewrite (bool_decide_false (tbl = "")), (bool_decide_true (key ≠ "")) by done. simpl.
  rewrite Henc. simpl. unfold msi2TypedValue. rewrite Henc. unfold put_json. simpl.
  pose proof (entry_roundtrip MR MR m Hm) as Hrt. simpl in Hrt. rewrite Hrt. simpl. by rewrite Hjv.
Qed.

End written.

End tables.

(** ** Instances at a concrete switch *)
Module MixedExample.
#[local] Instance range : MapRange := canonical_range.

(** A library with one instance of the databases. *)
#[local] Instance swss : Swss := {|
  GlobalConfigFile := false; InitializeGlobalConfig := Ok (); Initialize := Ok ();
  SonicDBConfigReset := Ok (); GetNamespaces := Ok [""]; GetDbKeys := Ok [default_key];
  GetDbListDefault := Ok ["APPL_DB"; "CONFIG_DB"]; GetDbListKey := λ _, Ok ["APPL_DB"; "CONFIG_DB"];
  GetSeparator := λ db _, Ok (if bool_decide (db = "CONFIG_DB") then "|" else ":");
  GetSeparatorKey := λ db _, Ok (if bool_decide (db = "CONFIG_DB") then "|" else ":");
  GetId := λ _ _, Ok 0%Z; GetIdKey := λ _ _, Ok 0%Z;
  GetSock := λ _ _, Ok "/var/run/redis/redis.sock"; GetSockKey := λ _ _, Ok "/var/run/redis/redis.sock";
  GetHostname := λ _ _, Ok LOCAL_ADDRESS; GetHostnameKey := λ _ _, Ok LOCAL_ADDRESS;
  GetPort := λ _ _, Ok 6379%Z; GetPortKey := λ _ _, Ok 6379%Z
|}.
Definition cfg0 : Cfg := {| sonic_db_init := true; lib_global := false; lib_local := true |}.

(** The document of the examples. *)
Definition doc : gmap string json := {[ "bw" := JStr "100"; "peers" := JArr [JStr "a"; JStr "b"] ]}.
#[local] Instance codec : JsonCodec := {|
  Unmarshal s := if bool_decide (s = "{doc}") then Some (JObj doc) else None;
  Marshal j := if bool_decide (j = JObj doc) then Some "{doc}" else None |}.

(** Tables that log what is done to them; the first two writes over ZMQ find
    no connection. *)
#[local] Instance tables : Tables := {|
  TabT := list string;
  NewTable k tb t := (t ++ ["new " +:+ tb], None);
  TableSet k tb key vs t :=
    (t ++ ["set " +:+ tb], if bool_decide (k = ZmqTable ∧ length t < 5) then Some "zmq connection break" else None);
  TableDel k tb key t := (t ++ ["del " +:+ tb], None);
  ZmqConnect t := (t ++ ["connect"], None);
  Sleep d t := t
|}.

(** A host that is not asked for anything. *)
Definition bus : Bus :=
  {| BusT := (); SystemBus _ := None; Call _ _ _ _ _ b := (b, CallTimeout); FmtMessage s := s |}.
#[local] Instance host : Host := {|
  host_bus := bus; os_ReadFile _ _ := None; os_WriteFile _ _ b := (b, None); os_Remove _ b := b;
  RunPyCode _ b := (b, None) |}.

Definition state0 : SetState := {|
  ss_host := {| ds_bus := (); ds_counters _ := 0%Z |}; ss_tables := ∅; ss_out := [] |}.

Definition qos : Path := path_of ["APPL_DB"; "localhost"; "DASH_QOS"; "qos1"].
Definition written : contents := {[ "DASH_QOS:qos1" := ConvertDbEntry doc ]}.
Definition globals (d : contents) : Globals :=
  {| RedisDbMap := {[ "::APPL_DB" := conn_of d ]}; DbInstNum := 1; zmqClientMap := ∅ |}.

(** The client of a request for [qos], with a connection over ZMQ. *)
Definition made : Globals * res gerr (MixedDbClient * string) :=
  NewMixedDbClient (λ _ _, conn_of ∅) (λ _ _, Ok ∅) cfg0 [Some qos] None "sonic-db" JSON_IETF "8100" ""
    (globals ∅).
Definition zmq : ZmqClient := {| zmq_address := "tcp://127.0.0.1:8100"; zmq_vrf := "" |}.
Definition client : MixedDbClient := {|
  mc_prefix := None; mc_paths := [Some qos]; mc_encoding := JSON_IETF; mc_target := "APPL_DB";
  mc_origin := "sonic-db"; mc_workPath := "/tmp"; mc_zmqClient := Some zmq; mc_dbkey := Some default_key;
  mc_mapkey := ":"; namespace_cnt := 1; container_cnt := 1 |}.

Example made_client : made.2 = Ok (client, "APPL_DB").
Proof. reflexivity. Qed.

Definition qos_update : Update := {| upd_path := Some qos; upd_val := Some (JsonIetfVal "{doc}") |}.

(** The write goes over ZMQ and succeeds at the third attempt. *)
Example third_attempt :
  (SetDB cfg0 (globals ∅) client [] [] [qos_update] state0).2 = None ∧
  ss_out (SetDB cfg0 (globals ∅) client [] [] [qos_update] state0).1 =
    ["new DASH_QOS"; "set DASH_QOS"; "connect"; "set DASH_QOS"; "connect"; "set DASH_QOS"].
Proof. by vm_compute. Qed.

Definition action : ST SetState (option string) := on_out (TableSet ZmqTable "DASH_QOS" "qos1" []).

Lemma retry_bounded_witness :
  (RetryHelper (Some zmq) action state0).2 = None ∧
  ∃ n, n ≤ 6 ∧
    (∀ i, i < n → disconnected (action (before_attempt action i 100 state0))) ∧
    (n = 6 ∨ ¬ disconnected (action (before_attempt action n 100 state0))) ∧
    RetryHelper (Some zmq) action state0 =
      ((action (before_attempt action n 100 state0)).1,
       Errorf <$> (action (before_attempt action n 100 state0)).2).
Proof. split; [by vm_compute|]. apply (retry_bounded zmq action state0). done. Defined.

(** Nothing but the table of the request is in the log. *)
Definition about_qos (t : list string) : Prop :=
  Forall (λ l, l = "connect" ∨ HasSuffix l "DASH_QOS" = true) t.

Lemma set_db_frame_witness :
  about_qos (ss_out (SetDB cfg0 (globals ∅) client [] [] [qos_update] state0).1).
Proof.
  refine (proj1 (proj2 (set_db_frame cfg0 (globals ∅) client [] [] [qos_update] about_qos state0 _ _ _)));
    [|apply map_Forall_empty|constructor].
  assert (∀ tb, named client [] [] [qos_update] tb → tb = "DASH_QOS") as Hn.
  { intros tb (p & Hp & ->). apply list_elem_of_singleton in Hp. by rewrite Hp. }
  split; unfold about_qos; simpl; intros.
  1-3: rewrite (Hn tb) by done; apply Forall_app; split; [done|]; constructor; [by right|constructor].
  - apply Forall_app. split; [done|]. constructor; [by left|constructor].
  - done.
Defined.

Lemma storable_doc : map_Forall storable doc.
Proof.
  unfold doc. apply map_Forall_insert_2; [|apply map_Forall_singleton].
  - done.
  - split_and!; [done..|]. exists ["a"; "b"]. split_and!; [done..|].
    repeat constructor; apply (bool_decide_unpack _); by vm_compute.
Qed.


(** The table is not open yet. *)
Notation qos_run := (SetDB cfg0 (globals ∅) client [] [] [qos_update] state0).


End MixedExample.

(** * Properties of the streams of native paths *)

Section facts.
Context {Sw : Swss} {MR : MapRange} {JCo : JsonCodec}.
Context (cfg : Cfg) (c : MixedDbClient).

(** ** One field *)

(** What a subscriber to a field has to be told: the readings that differ from
    the one before. *)
Fixpoint changes (last : string) (vs : list (MEvent * string)) : list (MEvent * string) :=
  match vs with
  | [] => []
  | (ev, v) :: vs => if bool_decide (v = last) then changes last vs else (ev, v) :: changes v vs
  end.

Lemma mixed_field_ticks path tp val evs :
  Forall (λ ev, mev_put ev = true) evs →
  run_events (field_tick c true path tp) val evs =
    mjoin ((λ p, send_val c p.1 path p.2) <$> changes val ((λ ev, (ev, read_val (mev_conn ev) tp)) <$> evs)).
Proof.
  intros Hput. revert val. induction Hput as [|ev evs Hp Hput IH]; intros val; [done|].
  cbn [run_events]. unfold field_tick at 1. simpl. case_bool_decide as Hv; case_bool_decide as Hv'; try congruence.
  - rewrite Hp, IH. done.
  - apply IH.
Qed.

(** A field that holds a list. *)
Definition list_field (d : contents) (tp : tablePath) (v : string) : Prop :=
  (d !! field_key tp ≫= λ h, h !! field tp) = None ∧ (d !! field_key tp ≫= λ h, h !! (field tp +:+ "@")) = Some v.

Lemma list_field_read redisDb d tp v : Serves redisDb d → list_field d tp v → read_val redisDb tp = "".
Proof. intros Hs [Hf _]. unfold read_val. by rewrite serves_hget, Hf. Qed.

Lemma changes_none last (vs : list (MEvent * string)) : Forall (λ p, p.2 = last) vs → changes last vs = [].
Proof. induction 1 as [|[ev v] vs Hv Hvs IH]; [done|]. simpl in *. by rewrite bool_decide_true. Qed.

(** A stream of a field that holds a list is blind: it sends one empty
    string at its start and nothing after that, however the list changes,
    while a Get of the same path returns the list. *)
Theorem list_field_stream_blind path tp g start evs d v jv :
  getDbtablePath cfg (mev_globals start) c path None = Ok [tp] →
  is_Some (RedisDbMap (mev_globals start) !! redis_key (mc_mapkey c) (dbName tp)) →
  (∃ d0 v0, Serves (mev_conn start) d0 ∧ list_field d0 tp v0) → mev_put start = true →
  Forall (λ ev, mev_put ev = true ∧ ∃ d1 v1, Serves (mev_conn ev) d1 ∧ list_field d1 tp v1) evs →
  field tp ≠ "" → jsonField tp = "" → (index_ tp < 0)%Z → (∃ redisDb, redis_of g c (dbName tp) = Ok redisDb ∧
    Serves redisDb d ∧ list_field d tp v) → Marshal (JArr (JStr <$> Split v ",")) = Some jv →
  dbFieldSubscribe cfg c true path start evs = [data_value (mev_now start) (mc_prefix c) path (StringVal "")] ∧
  tableData2TypedValue g c [tp] = Ok (JsonIetfVal jv).
Proof.
  intros Hpath [redis0 Hr0] (d0 & v0 & Hs0 & Hl0) Hp0 Hevs Hf Hjf Hidx (redisDb & Hr & Hs & [Hn Hl]) Hjv. split.
  - unfold dbFieldSubscribe. rewrite Hpath. simpl. rewrite Hr0. simpl.
    rewrite (list_field_read _ _ _ _ Hs0 Hl0), Hp0. rewrite mixed_field_ticks.
    + rewrite changes_none; [unfold send_val, mput; by rewrite Hp0|].
      apply Forall_fmap. eapply Forall_impl; [exact Hevs|]. intros ev (_ & d1 & v1 & Hs1 & Hl1).
      by eapply list_field_read.
    + eapply Forall_impl; [exact Hevs|]. by intros ev [? _].
  - unfold tableData2TypedValue. cbn [table_data]. rewrite Hr. simpl. rewrite !bool_decide_true by done. simpl.
    unfold read_field. rewrite bool_decide_false by lia. rewrite serves_hget, Hn. simpl.
    rewrite serves_hget, Hl. simpl. by rewrite Hjv.
Qed.

(** ** Polls *)

(** A poll that cannot read one of its paths ends the routine without a word:
    what it put before stays, no sync follows and later polls are ignored. *)
Theorem poll_ends_silently ev evs path paths :
  mc_paths c = path :: paths →
  is_ok (tblPaths ← getDbtablePath cfg (mev_globals ev) c path None;
         tableData2TypedValue (mev_globals ev) c tblPaths) = false →
  PollRun cfg c (ev :: evs) = [].
Proof.
  intros Hc He. unfold PollRun. cbn [run_events]. unfold poll_once. rewrite Hc. cbn [poll_paths].
  by match type of He with is_ok ?x = false => destruct x end.
Qed.

End facts.

Module MixedStreamExample.
#[local] Instance range : MapRange := canonical_range.
#[local] Instance swss : Swss := MixedExample.swss.
#[local] Instance codec : JsonCodec := {|
  Unmarshal _ := None; Marshal j := match j with JArr l => Some (Itoa (Z.of_nat (length l))) | _ => None end |}.

Definition peers (l : string) : contents := {[ "DASH_QOS:qos1" := {[ "peers@" := l ]} ]}.
Definition at_peers : option Path := Some (path_of ["APPL_DB"; "localhost"; "DASH_QOS"; "qos1"; "peers"]).
Definition event (l : string) : MEvent := {|
  mev_now := 0; mev_globals := MixedExample.globals (peers l); mev_conn := conn_of (peers l); mev_put := true |}.
Definition peers_path : tablePath :=
  native_path "" "APPL_DB" ":" "DASH_QOS" "qos1" "peers" (-1) (opRemove, "", "").

Lemma list_field_stream_blind_witness :
  dbFieldSubscribe MixedExample.cfg0 MixedExample.client true at_peers (event "a,b") [event "a"; event "a,b,c"] =
    [data_value 0 None at_peers (StringVal "")] ∧
  tableData2TypedValue (MixedExample.globals (peers "a,b")) MixedExample.client [peers_path] = Ok (JsonIetfVal "2").
Proof.
  assert (∀ l, list_field (peers l) peers_path l) as Hl by done.
  apply (list_field_stream_blind MixedExample.cfg0 MixedExample.client at_peers peers_path
    (MixedExample.globals (peers "a,b")) (event "a,b") [event "a"; event "a,b,c"] (peers "a,b") "a,b" "2"); try done.
  - exists (peers "a,b"), "a,b". split; [apply conn_of_serves|done].
  - repeat constructor; eexists _, _; (split; [apply conn_of_serves|apply Hl]).
  - exists (conn_of (peers "a,b")). split_and!; [done|apply conn_of_serves|done..].
Defined.
End MixedStreamExample.
