(* ===== verification/MixedConfigFacts.v ===== *)
(** * Writes of the configuration by the client of native paths

    The patch of a Set on CONFIG_DB, and what the host service is asked. *)
From stdpp Require Import base gmap list strings.
From S2P Require Import Prelude GoStrings Gnmi Json JsonClient World Dbus DbConfig DbConn DbClient VirtualDbFacts MixedDb MixedSet ServerFacts.

Notation patch := (gmap string json).

Section config.
Context {Sw : Swss} {MR : MapRange} {JCo : JsonCodec} {Ta : Tables} {Ho : Host}.
Context (cfg : Cfg) (c : MixedDbClient).

(** ** The patch *)

(** What a document has at a path: a table or an entry is an object, a field
    is a string or a list, and an item is a string of a list. *)
Definition configured (d : gmap string json) (path : list string) : Prop :=
  match path with
  | [t] => ∃ vt, d !! t = Some (JObj vt)
  | [t; k] => ∃ vt ve, d !! t = Some (JObj vt) ∧ vt !! k = Some (JObj ve)
  | [t; k; f] =>
      ∃ vt ve v, d !! t = Some (JObj vt) ∧ vt !! k = Some (JObj ve) ∧ ve !! f = Some v ∧
        ((∃ x, v = JStr x) ∨ ∃ l, v = JArr l)
  | [t; k; f; i] =>
      ∃ vt ve l n x, d !! t = Some (JObj vt) ∧ vt !! k = Some (JObj ve) ∧ ve !! f = Some (JArr l) ∧
        Atoi i = Some n ∧ (0 ≤ n)%Z ∧ l !! Z.to_nat n = Some (JStr x)
  | _ => False
  end.

(** The operations that a checkpoint takes, in order.  A removal is kept
    exactly when the checkpoint, with the operations before it carried out,
    has something at its path; nothing but a removal is left out. *)
Inductive accepts : JsonClient → list config_op → list config_op → JsonClient → Prop :=
| accepts_nil jc : accepts jc [] [] jc
| accepts_keep jc o elems jc1 ops kept jc2 :
    gnmiFullPath (mc_prefix c) (co_path o) = Ok elems → co_try o jc elems = Tried jc1 →
    (∀ el, elems = Some el → co_val o = None → configured (jsonData jc) (FixPath (names_of el))) →
    accepts jc1 ops kept jc2 → accepts jc (o :: ops) (o :: kept) jc2
| accepts_skip jc o elems ops kept jc2 :
    gnmiFullPath (mc_prefix c) (co_path o) = Ok (Some elems) → co_val o = None →
    ¬ configured (jsonData jc) (FixPath (names_of elems)) →
    accepts jc ops kept jc2 → accepts jc (o :: ops) kept jc2.

(** The operation of a patch for an operation of the request. *)
Definition renders (prefix : string) (o : config_op) (p : patch) : Prop :=
  ∃ elems, gnmiFullPath (mc_prefix c) (co_path o) = Ok elems ∧
    p !! "op" = Some (JStr (co_name o)) ∧
    p !! "path" = Some (JStr (prefix +:+ json_path (default [] elems))) ∧
    p !! "value" = (co_val o ≫= λ t, Unmarshal (GetJsonIetfVal (Some t))) ∧
    (is_Some (co_val o) → is_Some (p !! "value")).

Definition ns_prefix (multiNs : bool) (namespace : string) : string :=
  if multiNs then "/" +:+ namespace else "".

Lemma ConvertToJsonPatch_renders multiNs ns o curr :
  ConvertToJsonPatch (mc_prefix c) (co_path o) (co_val o) (co_name o) = Ok curr →
  renders (ns_prefix multiNs ns) o (in_namespace multiNs ns curr).
Proof.
  unfold ConvertToJsonPatch. destruct (_ && _); [done|]. intros (elems & Hel & H)%bind_Ok.
  exists elems. split; [done|].
  assert (curr !! "op" = Some (JStr (co_name o)) ∧ curr !! "path" = Some (JStr (json_path (default [] elems))) ∧
          curr !! "value" = (co_val o ≫= λ t, Unmarshal (GetJsonIetfVal (Some t))) ∧
          (is_Some (co_val o) → is_Some (curr !! "value"))) as (Hop & Hpa & Hva & Hvs).
  { destruct (co_val o) as [t|] eqn:Ht.
    - apply bind_Ok in H as (val & Hval & [= <-]). unfold parse_json, of_option in Hval.
      destruct (Unmarshal _) as [j|] eqn:Hu; [injection Hval as <-|done].
      rewrite lookup_insert_eq, !lookup_insert_ne by done.
      split_and!; [done|done|done|by intros _; eexists].
    - injection H as <-. split_and!; [done..|]. by intros []. }
  destruct multiNs; [|done]. unfold in_namespace. rewrite Hpa.
  rewrite lookup_insert_eq, !lookup_insert_ne by done. split_and!; try done.
Qed.

Lemma DecodeJsonTable_iff d t vt : DecodeJsonTable d t = Ok vt ↔ d !! t = Some (JObj vt).
Proof. unfold DecodeJsonTable, of_option. destruct (d !! t) as [[]|]; simpl; naive_solver. Qed.
Lemma DecodeJsonEntry_iff vt k ve : DecodeJsonEntry vt k = Ok ve ↔ vt !! k = Some (JObj ve).
Proof. unfold DecodeJsonEntry, of_option. destruct (vt !! k) as [[]|]; simpl; naive_solver. Qed.
Lemma DecodeJsonField_iff ve f v :
  DecodeJsonField ve f = Ok v ↔ ve !! f = Some (match v with inl x => JStr x | inr l => JArr l end).
Proof.
  unfold DecodeJsonField. destruct (ve !! f) as [[]|]; destruct v; simpl; naive_solver.
Qed.
Lemma DecodeJsonListItem_iff l i x :
  DecodeJsonListItem l i = Ok x ↔ ∃ n, Atoi i = Some n ∧ (0 ≤ n)%Z ∧ l !! Z.to_nat n = Some (JStr x).
Proof.
  unfold DecodeJsonListItem. destruct (Atoi i) as [n|]; [|naive_solver].
  destruct (bool_decide_reflect (n < 0)%Z); simpl; [naive_solver lia|].
  destruct (bool_decide_reflect (n >= Z.of_nat (length l))%Z) as [Hge|Hlt].
  - split; [done|]. intros (m & [= <-] & _ & Hl). apply lookup_lt_Some in Hl. lia.
  - destruct (l !! Z.to_nat n) as [y|] eqn:Hl; simpl.
    + split.
      * destruct y; intros [= <-]. exists n. split_and!; [done|lia|done].
      * intros (m & [= <-] & _ & Hy). rewrite Hl in Hy. by injection Hy as ->.
    + naive_solver.
Qed.

(** [Remove] succeeds on what is there, and on nothing else; else the data is
    as it was. *)
Lemma Remove_iff jc names :
  ((Remove jc names).2 = None ↔ configured (jsonData jc) (FixPath names)) ∧
  ((Remove jc names).2 ≠ None → (Remove jc names).1 = jc).
Proof.
  assert (∀ r : res jc_error (gmap string json),
    let x := match r with Ok d => ({| jsonData := d |}, None) | Err e => (jc, Some e) end in
    (x.2 = None ↔ ∃ d, r = Ok d) ∧ (x.2 ≠ None → x.1 = jc)) as Hret.
  { intros [d|e]; simpl; split; try done; split; try done; eauto. by intros []. }
  unfold Remove, configured. destruct (FixPath names) as [|t [|k [|f [|i [|]]]]]; [done|..|done];
    (split; [etransitivity; [apply Hret|]|apply Hret]).
  - split.
    + intros [d (vt & Ht%DecodeJsonTable_iff & _)%bind_Ok]. eauto.
    + intros (vt & ->%DecodeJsonTable_iff). simpl. by eexists.
  - split.
    + intros [d (vt & Ht%DecodeJsonTable_iff & (ve & He%DecodeJsonEntry_iff & _)%bind_Ok)%bind_Ok]. eauto.
    + intros (vt & ve & ->%DecodeJsonTable_iff & He%DecodeJsonEntry_iff). simpl. rewrite He. by eexists.
  - split.
    + intros [d (vt & Ht%DecodeJsonTable_iff & (ve & He%DecodeJsonEntry_iff &
        (v & Hf%DecodeJsonField_iff & _)%bind_Ok)%bind_Ok)%bind_Ok].
      exists vt, ve. eexists. split_and!; [done..|]. destruct v; eauto.
    + intros (vt & ve & v & ->%DecodeJsonTable_iff & He%DecodeJsonEntry_iff & Hf & Hv). simpl. rewrite He. simpl.
      destruct Hv as [[x ->]|[l ->]].
      * rewrite (proj2 (DecodeJsonField_iff ve f (inl x)) Hf). by eexists.
      * rewrite (proj2 (DecodeJsonField_iff ve f (inr l)) Hf). by eexists.
  - split.
    + intros [d (n & Hn & (vt & Ht%DecodeJsonTable_iff & (ve & He%DecodeJsonEntry_iff &
        (v & Hf%DecodeJsonField_iff & (x & Hx%DecodeJsonListItem_iff & _)%bind_Ok)%bind_Ok)%bind_Ok)%bind_Ok)%bind_Ok].
      destruct Hx as (m & Hm & H0 & Hx). destruct v as [y|l]; [done|].
      by exists vt, ve, l, m, x.
    + intros (vt & ve & l & n & x & ->%DecodeJsonTable_iff & He%DecodeJsonEntry_iff & Hf & Hn & H0 & Hx).
      rewrite Hn. simpl. rewrite He. simpl. rewrite (proj2 (DecodeJsonField_iff ve f (inr l)) Hf). simpl.
      rewrite (proj2 (DecodeJsonListItem_iff l i x)) by eauto. by eexists.
Qed.

Lemma try_remove_spec jc names :
  match try_remove jc names with
  | Tried _ => configured (jsonData jc) (FixPath names)
  | Skipped jc1 => jc1 = jc ∧ ¬ configured (jsonData jc) (FixPath names)
  | _ => False
  end.
Proof.
  unfold try_remove. destruct (Remove_iff jc names) as [Hiff Hkeep].
  destruct (Remove jc names) as [jc1 [e|]]; simpl in *; [|by apply Hiff].
  split; [by apply Hkeep|]. rewrite <- Hiff. done.
Qed.

(** Removals are kept when there is something to remove and skipped when
    not; other operations are never skipped. *)
Lemma config_ops_try o delete replace update jc elems :
  o ∈ config_ops delete replace update →
  match co_try o jc elems with
  | Tried _ => ∀ el, elems = Some el → co_val o = None → configured (jsonData jc) (FixPath (names_of el))
  | Skipped jc1 => jc1 = jc ∧ co_val o = None ∧
                   ∃ el, elems = Some el ∧ ¬ configured (jsonData jc) (FixPath (names_of el))
  | _ => True
  end.
Proof.
  assert (∀ el, match try_remove jc (names_of el) with
                | Tried _ => ∀ el', Some el = Some el' → configured (jsonData jc) (FixPath (names_of el'))
                | Skipped jc1 => jc1 = jc ∧ ∃ el', Some el = Some el' ∧ ¬ configured (jsonData jc) (FixPath (names_of el'))
                | _ => True end) as Hrem.
  { intros el. pose proof (try_remove_spec jc (names_of el)) as H.
    destruct (try_remove jc (names_of el)); [by intros ? [= <-]|destruct H; by eauto|done]. }
  assert (∀ r, match try_write r with Skipped _ => False | _ => True end) as Hwr by (by intros [? []]).
  unfold config_ops. rewrite !elem_of_app, !list_elem_of_fmap.
  intros [(p & -> & _)|[(u & -> & _)|(u & -> & _)]]; simpl.
  - destruct elems as [el|]; [|done]. specialize (Hrem el).
    simpl. destruct (try_remove _ _); [by intros ? ? _; apply Hrem|destruct Hrem; by split_and!|done].
  - unfold try_replace. destruct elems as [el|]; [|done]. simpl. destruct (upd_val u) as [t|].
    + match goal with |- context [try_write ?r] => specialize (Hwr r); by destruct (try_write r) end.
    + specialize (Hrem el). destruct (try_remove _ _); [by intros ? ? _; apply Hrem|destruct Hrem; by split_and!|done].
  - unfold try_update. destruct elems as [el|]; [|done]. destruct (upd_val u) as [t|]; [|done].
    match goal with |- context [try_write ?r] => specialize (Hwr r); by destruct (try_write r) end.
Qed.

Lemma build_steps delete replace update multiNs ns ops jc ps jc' ps' :
  ops ⊆ config_ops delete replace update →
  foldM (config_step c multiNs ns) (jc, ps) ops = Ok (jc', ps') →
  ∃ kept new, ps' = ps ++ new ∧ accepts jc ops kept jc' ∧ Forall2 (renders (ns_prefix multiNs ns)) kept new.
Proof.
  revert jc ps. induction ops as [|o ops IH]; intros jc ps Hsub; simpl.
  - intros [= <- <-]. exists [], []. split_and!; [by rewrite app_nil_r|constructor..].
  - intros ([jc1 ps1] & Hstep & Hrest)%bind_Ok. apply bind_Ok in Hstep as (elems & Hel & Hstep).
    assert (ops ⊆ config_ops delete replace update) as Hsub' by set_solver.
    destruct (IH _ _ Hsub' Hrest) as (kept & new & -> & Hacc & Hren).
    assert (o ∈ config_ops delete replace update) as Horig by set_solver.
    pose proof (config_ops_try _ _ _ _ jc elems Horig) as Hspec.
    destruct (co_try o jc elems) as [jc2|jc2|e] eqn:Ht; [| |done].
    + apply bind_Ok in Hstep as (curr & Hcurr & [= <- <-]).
      exists (o :: kept), (in_namespace multiNs ns curr :: new). split_and!.
      * by rewrite <- app_assoc.
      * by econstructor.
      * constructor; [by apply ConvertToJsonPatch_renders|done].
    + injection Hstep as <- <-. exists kept, new. split_and!; [done| |done].
      destruct Hspec as (-> & Hv & el & -> & Hn). by econstructor.
Qed.


(** The path of an operation is a JSON pointer to the names of its elements. *)
Definition pointer (names : list string) : string := foldr (λ n s, "/" +:+ n +:+ s) "" names.

Lemma json_path_pointer elems :
  Forall (λ e, elem_key e = ∅) elems → json_path elems = pointer (names_of elems).
Proof.
  intros Hk. unfold json_path.
  assert (∀ acc, foldl (λ p e, p +:+ elem_name e +:+ keys_text (elem_key e) +:+ "/") (acc +:+ "/") elems
                 = (acc +:+ pointer (names_of elems)) +:+ "/") as H.
  { induction Hk as [|e elems He Hk IH]; intros acc; simpl; [by rewrite app_empty_r|].
    rewrite He. unfold keys_text. rewrite map_range_empty. simpl. rewrite app_nil_str.
    rewrite <- !app_assoc_str, IH. by rewrite !app_assoc_str. }
  specialize (H ""). rewrite !app_nil_str in H. rewrite H. apply TrimSuffix_app.
Qed.

(** A delete of an empty path removes the whole configuration: whatever
    the prefix of the request names below the instance, and without a look at
    the checkpoint, the patch begins with the removal of the root. *)
Theorem empty_delete_is_root p jc delete replace update jc' ps :
  path_elem p = [] →
  build_patch c false "" jc (config_ops (Some p :: delete) replace update) = Ok (jc', ps) →
  head ps = Some {["op" := JStr "remove"; "path" := JStr ""]}.
Proof.
  intros Hp. unfold build_patch, config_ops. rewrite fmap_cons. simpl.
  assert (gnmiFullPath (mc_prefix c) (Some p) = Ok None) as Hf.
  { unfold gnmiFullPath. rewrite (bool_decide_false (Some p = None)), andb_false_r by done. simpl. by rewrite Hp. }
  rewrite Hf. simpl. unfold ConvertToJsonPatch. rewrite Hf. simpl.
  intros H. eapply (build_steps delete replace update) in H as (kept & new & -> & _ & _); [done|].
  unfold config_ops. done.
Qed.

(** ** What the host is asked *)

Definition host_method (modName method : string) (timeout : Z) (arg : string) : BusT → BusT :=
  bus_call NewDbusClient modName method timeout [arg].

Definition created : BusT → BusT := host_method "gcu" "create_checkpoint" 60 "/etc/sonic/config".
Definition deleted : BusT → BusT := host_method "gcu" "delete_checkpoint" 60 "/etc/sonic/config".
Definition applied (text : string) : BusT → BusT := host_method "gcu" "apply_patch_db" 600 text.
Definition saved : BusT → BusT := host_method "config" "save" 60 "/etc/sonic/config_db.json".
Definition noted (text : string) (b : BusT) : BusT := (os_WriteFile (mc_workPath c +:+ "/gcu.patch") text b).1.

(** The outcome of a patch that is not empty, from host state [b]. *)
Definition patch_outcome (ps : list patch) (b b' : BusT) (r : option gerr) : Prop :=
  match Marshal (JArr (JObj <$> ps)) with
  | None => b' = b ∧ r ≠ None
  | Some text =>
      match (os_WriteFile (mc_workPath c +:+ "/gcu.patch") text b).2 with
      | Some e => b' = noted text b ∧ r = Some (Errorf e)
      | None =>
          match bus_error NewDbusClient "gcu" "apply_patch_db" 600 [text] (noted text b) with
          | Some e => b' = applied text (noted text b) ∧ r = Some (Errorf e)
          | None => b' = saved (applied text (noted text b)) ∧
                    r = Errorf <$> bus_error NewDbusClient "config" "save" 60 ["/etc/sonic/config_db.json"]
                                     (applied text (noted text b))
          end
      end
  end.

(** The outcome of the part that has the checkpoint, from host state [b]. *)
Definition checkpoint_outcome (multiNs : bool) (ns : string) (ops : list config_op) (b b' : BusT)
    (r : option gerr) : Prop :=
  match NewJsonClient (os_ReadFile "/etc/sonic/config.cp.json" b) ns with
  | Err e => b' = b ∧ r = Some (jc_fail e)
  | Ok jc =>
      match build_patch c multiNs ns jc ops with
      | Err e => b' = b ∧ r = Some e
      | Ok (_, []) => b' = b ∧ r = None
      | Ok (_, ps) => patch_outcome ps b b' r
      end
  end.

Lemma then_save_outcome e s :
  let '(s', r) := then_save e s in
  match e with
  | Some e => s' = s ∧ r = Some (Errorf e)
  | None => ds_bus s' = saved (ds_bus s) ∧
            r = Errorf <$> bus_error NewDbusClient "config" "save" 60 ["/etc/sonic/config_db.json"] (ds_bus s)
  end.
Proof.
  unfold then_save. destruct e as [e|]; [done|]. unfold mbind, ST_bind, ConfigSave.
  rewrite <- (only_err_error NewDbusClient DBUS_CONFIG_SAVE "config" "save" 60).
  pose proof (only_err_bus NewDbusClient DBUS_CONFIG_SAVE "config" "save" 60
    ["/etc/sonic/config_db.json"] s) as H.
  destruct (only_err _ s) as [s1 r1]. done.
Qed.

Lemma apply_patches_outcome ps s :
  mc_origin c = "sonic-db" →
  let '(s', r) := apply_patches c ps s in patch_outcome ps (ds_bus s) (ds_bus s') r.
Proof.
  intros Horig. unfold apply_patches, patch_outcome. destruct (Marshal _) as [text|]; [|done].
  unfold mbind, ST_bind, host_run.
  assert (noted text (ds_bus s) = (os_WriteFile (mc_workPath c +:+ "/gcu.patch") text (ds_bus s)).1) as Hn by done.
  destruct (os_WriteFile _ _ _) as [b1 [e|]]; simpl in *; rewrite Hn; [done|].
  rewrite bool_decide_true by done. unfold ApplyPatchDb. set (s1 := Build_DState _ _).
  pose proof (only_err_bus NewDbusClient DBUS_APPLY_PATCH_DB "gcu" "apply_patch_db" 600 [text] s1) as Ha.
  pose proof (only_err_error NewDbusClient DBUS_APPLY_PATCH_DB "gcu" "apply_patch_db" 600 [text] s1) as He.
  destruct (only_err _ s1) as [s2 e2]. simpl in *. rewrite <- He.
  pose proof (then_save_outcome e2 s2) as Hs. destruct (then_save e2 s2) as [s3 r].
  change (applied text b1) with (bus_call NewDbusClient "gcu" "apply_patch_db" 600 [text] b1). rewrite <- Ha.
  destruct e2 as [e|]; [by destruct Hs as [-> ->]|done].
Qed.

Lemma with_checkpoint_outcome multiNs ns ops s :
  mc_origin c = "sonic-db" →
  let '(s', r) := with_checkpoint c multiNs ns ops s in
  checkpoint_outcome multiNs ns ops (ds_bus s) (ds_bus s') r.
Proof.
  intros Horig. unfold with_checkpoint, checkpoint_outcome, host_read, gets, mbind, ST_bind. simpl.
  change (CHECK_POINT_PATH +:+ "/config.cp.json") with "/etc/sonic/config.cp.json".
  destruct (NewJsonClient _ _) as [jc|e]; [|done].
  destruct (build_patch _ _ _ _ _) as [[jc' [|p ps]]|e]; [done| |done].
  by apply apply_patches_outcome.
Qed.

(** C14. An incremental Set on the configuration is applied as a whole or not
    at all.  When the namespace is refused the host is asked nothing; else it
    is asked for a checkpoint.  If that fails, nothing else is asked and the
    error is returned; if not, the last thing the host is asked, whatever
    happens in between, is to delete the checkpoint.  In between, nothing is
    asked when the checkpoint cannot be read, an operation is refused on it
    or none has an effect; else the one patch of all operations is written to
    a file, applied when that succeeds, and saved when it was applied, and the
    error of the call that failed is the answer. *)
Theorem set_config_atomic delete replace update s s' r :
  mc_origin c = "sonic-db" →
  SetIncrementalConfig cfg c delete replace update s = (s', r) →
  match (CheckDbMultiNamespace cfg).2 with
  | (_, Some _) => r ≠ None ∧ s' = s
  | (multiNs, None) =>
      match gcu_namespace c multiNs with
      | Err e => r = Some e ∧ s' = s
      | Ok ns =>
          match bus_error NewDbusClient "gcu" "create_checkpoint" 60 ["/etc/sonic/config"] (ds_bus s) with
          | Some e => r = Some (Errorf e) ∧ ds_bus s' = created (ds_bus s)
          | None => ∃ b', ds_bus s' = deleted b' ∧
                      checkpoint_outcome multiNs ns (config_ops delete replace update) (created (ds_bus s)) b' r
          end
      end
  end.
Proof.
  intros Horig. unfold SetIncrementalConfig. destruct ((CheckDbMultiNamespace cfg).2) as [multiNs [e|]].
  { by intros [= <- <-]. }
  destruct (gcu_namespace c multiNs) as [ns|e]; [|by intros [= <- <-]].
  rewrite bind_run. unfold CreateCheckPoint.
  rewrite <- (only_err_error NewDbusClient DBUS_CREATE_CHECKPOINT "gcu" "create_checkpoint" 60).
  pose proof (only_err_bus NewDbusClient DBUS_CREATE_CHECKPOINT "gcu" "create_checkpoint" 60
    [CHECK_POINT_PATH +:+ "/config"] s) as Hc.
  change (CHECK_POINT_PATH +:+ "/config") with "/etc/sonic/config" in *.
  destruct (only_err _ s) as [s1 [e|]]; simpl in *; [by intros [= <- <-]|].
  rewrite bind_run. pose proof (with_checkpoint_outcome multiNs ns (config_ops delete replace update) s1 Horig) as Hw.
  destruct (with_checkpoint _ _ _ _ s1) as [s2 r2]. simpl. rewrite bind_run. unfold DeleteCheckPoint.
  pose proof (only_err_bus NewDbusClient DBUS_DELETE_CHECKPOINT "gcu" "delete_checkpoint" 60
    [CHECK_POINT_PATH +:+ "/config"] s2) as Hd.
  destruct (only_err _ s2) as [s3 e3]. simpl in *. intros [= <- <-]. exists (ds_bus s2).
  split; [exact Hd|]. rewrite Hc in Hw. exact Hw.
Qed.

End config.

(** ** Instances at a concrete switch *)
Module ConfigExample.
#[local] Instance range : MapRange := canonical_range.
#[local] Instance swss : Swss := VdbExample.swss0.
Definition cfg0 : Cfg := {| sonic_db_init := true; lib_global := false; lib_local := true |}.

(** The configuration of the checkpoint, a value, and a short rendering of
    patches. *)
Definition port (mtu : string) : json := JObj {[ "mtu" := JStr mtu ]}.
Definition checkpoint : gmap string json := {[ "PORT" := JObj {[ "e0" := port "1500"; "e4" := port "1500" ]} ]}.
Definition patch_text (j : json) : string :=
  match j with
  | JObj p =>
      match p !! "op", p !! "path" with
      | Some (JStr op), Some (JStr path) => op +:+ " " +:+ path +:+ ";"
      | _, _ => "?"
      end
  | _ => "?"
  end.
#[local] Instance codec : JsonCodec := {|
  Unmarshal s := if bool_decide (s = "{cp}") then Some (JObj checkpoint)
                 else if bool_decide (s = "{port}") then Some (port "9100") else None;
  Marshal j := match j with JArr l => Some (foldr (λ p s, patch_text p +:+ s) "" l) | _ => None end |}.

(** A host that logs the calls and answers them. *)
Definition bus : Bus := {|
  BusT := list string; SystemBus _ := None;
  Call _ _ m _ args b := (b ++ [m +:+ " " +:+ Join args ","], Body [DInt32 0; DStr ""]);
  FmtMessage s := s |}.
#[local] Instance host : Host := {|
  host_bus := bus; os_ReadFile f _ := if bool_decide (f = "/etc/sonic/config.cp.json") then Some "{cp}" else None;
  os_WriteFile f _ (b : list string) := (b ++ ["write " +:+ f], None); os_Remove _ b := b; RunPyCode _ b := (b, None) |}.

Definition client (prefix : option Path) : MixedDbClient := {|
  mc_prefix := prefix; mc_paths := []; mc_encoding := JSON_IETF; mc_target := "CONFIG_DB";
  mc_origin := "sonic-db"; mc_workPath := "/tmp"; mc_zmqClient := None; mc_dbkey := Some default_key;
  mc_mapkey := ":"; namespace_cnt := 1; container_cnt := 1 |}.
Definition at_port (e : string) : option Path := Some (path_of ["CONFIG_DB"; "localhost"; "PORT"; e]).
Definition set_port (e : string) : Update := {| upd_path := at_port e; upd_val := Some (JsonIetfVal "{port}") |}.
Definition host0 : DState := {| ds_bus := []; ds_counters _ := 0%Z |}.

(** A delete of a port that is not there, a replace and an update. *)
Notation run0 :=
  (SetIncrementalConfig cfg0 (client None) [at_port "e9"] [set_port "e0"] [set_port "e8"] host0).

Lemma set_config_atomic_witness :
  ds_bus run0.1 =
    ["org.SONiC.HostService.gcu.create_checkpoint /etc/sonic/config"; "write /tmp/gcu.patch";
     "org.SONiC.HostService.gcu.apply_patch_db replace /PORT/e0;add /PORT/e8;";
     "org.SONiC.HostService.config.save /etc/sonic/config_db.json";
     "org.SONiC.HostService.gcu.delete_checkpoint /etc/sonic/config"] ∧
  ∃ b', ds_bus run0.1 = deleted b' ∧
    checkpoint_outcome (client None) false "" (config_ops [at_port "e9"] [set_port "e0"] [set_port "e8"])
      (created (ds_bus host0)) b' run0.2.
Proof.
  split; [by vm_compute|].
  exact (set_config_atomic cfg0 (client None) [at_port "e9"] [set_port "e0"] [set_port "e8"] host0 _ _
           eq_refl (surjective_pairing run0)).
Defined.

Definition store0 : JsonClient := {| jsonData := checkpoint |}.
Notation built := (build_patch (client None) false "" store0
  (config_ops [at_port "e9"] [set_port "e0"] [set_port "e8"])).

Definition built_value : JsonClient * list (gmap string json) :=
  match built with Ok r => r | Err _ => (store0, []) end.


(** The prefix names a table, and the delete under it names nothing. *)
Definition in_table : option Path := Some (path_of ["CONFIG_DB"; "localhost"; "PORT"]).
Definition nothing : Path := path_of [].

Lemma empty_delete_is_root_witness :
  match build_patch (client in_table) false "" store0 (config_ops [Some nothing] [] []) with
  | Ok (_, ps) => head ps = Some {["op" := JStr "remove"; "path" := JStr ""]}
  | Err _ => False
  end.
Proof.
  apply (empty_delete_is_root (client in_table) nothing store0 [] [] [] store0
    [{["op" := JStr "remove"; "path" := JStr ""]}]); [done|by vm_compute].
Defined.

(** Such a request gets past the constructor when another path names the
    database, and the host is asked to remove everything. *)
Example root_removed :
  ds_bus (SetConfigDB cfg0 (client None) [Some nothing; at_port "e0"] [] [] host0).1 !! 2 =
    Some "org.SONiC.HostService.gcu.apply_patch_db remove ;remove /PORT/e0;".
Proof. by vm_compute. Qed.

End ConfigExample.
