(* ===== verification/Subscribe.v ===== *)
(** * Subscribe sessions (src/gnmi_server/client_subscribe.go, server.go)

    A session has three goroutines: [Run] itself, which sends what is in the
    queue ([send]), [recv], which reads the client's messages, and the routine
    of the data client, which fills the queue and is told to stop, poll or
    start through a channel.  [Close] may be called by the first two and by a
    later session of the same address.  The steps of the goroutines between
    two points where they can be interrupted are the steps of a relation; a
    panic of [send], [recv] or [Close] ends the process.

    [setup] is what [Run] does before it starts the goroutines. *)
From stdpp Require Import base gmap sets list strings.
From S2P Require Import Prelude GoStrings Gnmi Json Pathz Redis World DbConfig DbConn Bypass Connections Auth DbClient Server.

(** ** The state *)

Inductive Mode := STREAM | POLL | ONCE.
Global Instance Mode_eq_dec : EqDecision Mode.
Proof. solve_decision. Defined.

(** The channel of the mode ([stop], [polled] or [once]), with room for one
    token. *)
Record Chan := { ch_closed : bool; ch_tokens : nat }.

(** Where [Run] is: in [send], about to call [Close], waiting for the routine,
    returned. *)
Inductive run_pc := RunSend | RunClose | RunWait | RunDone.

(** Where [recv] is: reading the stream, about to send on [polled], waiting
    for the end of the connection, about to call [Close], returned. *)
Inductive recv_pc := RecvRead | RecvPoll | RecvDoneWait | RecvClose | RecvEnd.

Record Client := {
  c_mode : Mode;
  c_q : list Value;
  c_disposed : bool;
  c_chan : Chan;
  c_run : run_pc;
  c_recv : recv_pc;
  c_routine : bool;               (* the routine is running *)
  c_put : list Value;             (* what was put in the queue *)
  c_sent : list SubscribeResponse;
  c_taken : list Value            (* what was taken from it *)
}.

(** [Run] when its goroutines are started: a poll or once session has a
    token. *)
Definition started (mode : Mode) : Client := {|
  c_mode := mode; c_q := []; c_disposed := false;
  c_chan := {| ch_closed := false; ch_tokens := if bool_decide (mode = STREAM) then 0 else 1 |};
  c_run := RunSend; c_recv := RecvRead; c_routine := true; c_put := []; c_sent := []; c_taken := []
|}.

(** ** Updates *)

Definition set_run (pc : run_pc) (c : Client) : Client :=
  {| c_mode := c_mode c; c_q := c_q c; c_disposed := c_disposed c; c_chan := c_chan c; c_run := pc;
     c_recv := c_recv c; c_routine := c_routine c; c_put := c_put c; c_sent := c_sent c; c_taken := c_taken c |}.
Definition set_recv (pc : recv_pc) (c : Client) : Client :=
  {| c_mode := c_mode c; c_q := c_q c; c_disposed := c_disposed c; c_chan := c_chan c; c_run := c_run c;
     c_recv := pc; c_routine := c_routine c; c_put := c_put c; c_sent := c_sent c; c_taken := c_taken c |}.
Definition set_chan (ch : Chan) (c : Client) : Client :=
  {| c_mode := c_mode c; c_q := c_q c; c_disposed := c_disposed c; c_chan := ch; c_run := c_run c;
     c_recv := c_recv c; c_routine := c_routine c; c_put := c_put c; c_sent := c_sent c; c_taken := c_taken c |}.

(** [q.Put]; a disposed queue takes nothing. *)
Definition put (v : Value) (c : Client) : Client :=
  if c_disposed c then c
  else {| c_mode := c_mode c; c_q := v :: c_q c; c_disposed := false; c_chan := c_chan c; c_run := c_run c;
          c_recv := c_recv c; c_routine := c_routine c; c_put := v :: c_put c; c_sent := c_sent c;
          c_taken := c_taken c |}.

(** One turn of [send] with the value [v], the rest [q] of the queue, and
    whether [stream.Send] succeeds. *)
Definition send_one (v : Value) (q : list Value) (ok : bool) (c : Client) : Client :=
  let sent := match ValToResp v with Ok r => if ok then [r] else [] | Err _ => [] end in
  {| c_mode := c_mode c; c_q := q; c_disposed := c_disposed c; c_chan := c_chan c;
     c_run := match sent with [] => RunClose | _ => RunSend end; c_recv := c_recv c;
     c_routine := c_routine c; c_put := c_put c; c_sent := c_sent c ++ sent; c_taken := c_taken c ++ [v] |}.

(** [Close], under the client's mutex; closing a closed channel panics. *)
Definition Close (c : Client) : handled Client :=
  if c_disposed c then Returns c
  else if ch_closed (c_chan c) then Panics
  else Returns
    {| c_mode := c_mode c; c_q := []; c_disposed := true;
       c_chan := {| ch_closed := true; ch_tokens := ch_tokens (c_chan c) |}; c_run := c_run c;
       c_recv := c_recv c; c_routine := c_routine c; c_put := c_put c; c_sent := c_sent c;
       c_taken := c_taken c |}.

Definition after_close (k : Client → Client) (r : handled Client) : handled Client :=
  match r with Returns c => Returns (k c) | Panics => Panics end.

(** What [stream.Recv] returns. *)
Inductive message := PollMessage | OtherMessage | EndOfStream | StreamError.

(** One turn of the loop of [recv]. *)
Definition recv_one (m : message) (c : Client) : Client :=
  match m with
  | StreamError => set_recv RecvClose c
  | EndOfStream => set_recv (if bool_decide (c_mode c = STREAM) then RecvDoneWait else RecvClose) c
  | PollMessage => if bool_decide (c_mode c = POLL) then set_recv RecvPoll c else c
  | OtherMessage => if bool_decide (c_mode c = POLL) then set_recv RecvClose c else c
  end.

(** [c.polled <- struct{}{}]: a send on a closed channel panics, a full one
    blocks. *)
Definition send_poll (c : Client) : option (handled Client) :=
  if ch_closed (c_chan c) then Some Panics
  else if bool_decide (ch_tokens (c_chan c) = 0) then
    Some (Returns (set_recv RecvRead (set_chan {| ch_closed := false; ch_tokens := 1 |} c)))
  else None.

(** ** The routines of the data clients *)

(** The data clients of a subscription. *)
Inductive sub_client := TranslSub | MixedSub | NonDbSub | EventSub | DbSub.

(** A routine that does not run returns at once, without a word to the wait
    group.  One that runs may close the channel itself, as those of the
    translation library do when a session is terminated. *)
Record Routine := { rt_runs : bool; rt_closes : bool }.

(** Which method serves a mode: [appl] is whether a poll session has a target
    that starts with APPL_DB. *)
Definition routine_of (which : sub_client) (mode : Mode) (appl : bool) : Routine :=
  match which, mode with
  | TranslSub, POLL => {| rt_runs := negb appl; rt_closes := negb appl |}
  | TranslSub, _ => {| rt_runs := true; rt_closes := true |}
  | DbSub, (STREAM | POLL) => {| rt_runs := true; rt_closes := false |}
  | (MixedSub | NonDbSub), STREAM => {| rt_runs := true; rt_closes := false |}
  | (MixedSub | NonDbSub), POLL => {| rt_runs := negb appl; rt_closes := false |}
  | EventSub, STREAM => {| rt_runs := true; rt_closes := false |}
  | _, _ => {| rt_runs := false; rt_closes := false |}
  end.

(** ** The steps *)

(** The routine returns: [c.w.Done()]. *)
Definition routine_done (c : Client) : Client :=
  {| c_mode := c_mode c; c_q := c_q c; c_disposed := c_disposed c; c_chan := c_chan c;
     c_run := c_run c; c_recv := c_recv c; c_routine := false; c_put := c_put c;
     c_sent := c_sent c; c_taken := c_taken c |}.

(** What the goroutines do when they are left to themselves.  The routine takes
    the tokens of its channel, and returns when it finds it closed and empty;
    [send] takes the values of the queue and fails on a disposed one; [Run] and
    [recv] call [Close], and [Run] waits for the routine. *)
Inductive advance (rt : Routine) : Client → handled Client → Prop :=
| step_token c n :
    rt_runs rt = true → c_routine c = true → ch_tokens (c_chan c) = S n →
    advance rt c (Returns (set_chan {| ch_closed := ch_closed (c_chan c); ch_tokens := n |} c))
| step_stopped c :
    rt_runs rt = true → c_routine c = true → ch_closed (c_chan c) = true → ch_tokens (c_chan c) = 0 →
    advance rt c (Returns (routine_done c))
| step_send c q1 v q2 ok :
    c_run c = RunSend → c_disposed c = false → c_q c = q1 ++ v :: q2 →
    Forall (λ w, Compare v w ≤ 0)%Z (q1 ++ q2) → advance rt c (Returns (send_one v (q1 ++ q2) ok c))
| step_send_disposed c :
    c_run c = RunSend → c_disposed c = true → advance rt c (Returns (set_run RunClose c))
| step_run_close c :
    c_run c = RunClose → advance rt c (after_close (set_run RunWait) (Close c))
| step_run_wait c :
    c_run c = RunWait → c_routine c = false → advance rt c (Returns (set_run RunDone c))
| step_recv_close c :
    c_recv c = RecvClose → advance rt c (after_close (set_recv RecvEnd) (Close c)).

(** All that can happen: the routine also puts values, may return by itself
    (an error, nothing left to do) and may close the channel; the client sends
    messages and goes away; a later session of the same address closes this
    one. *)
Inductive step (rt : Routine) : Client → handled Client → Prop :=
| step_advance c r :
    advance rt c r → step rt c r
| step_put c v :
    rt_runs rt = true → c_routine c = true → step rt c (Returns (put v c))
| step_quit c :
    rt_runs rt = true → c_routine c = true → step rt c (Returns (routine_done c))
| step_close_chan c :
    rt_runs rt = true → rt_closes rt = true → c_routine c = true → ch_closed (c_chan c) = false →
    step rt c (Returns (set_chan {| ch_closed := true; ch_tokens := ch_tokens (c_chan c) |} c))
| step_recv c m :
    c_recv c = RecvRead → step rt c (Returns (recv_one m c))
| step_poll c r :
    c_recv c = RecvPoll → send_poll c = Some r → step rt c r
| step_connection_done c :
    c_recv c = RecvDoneWait → step rt c (Returns (set_recv RecvClose c))
| step_replaced c :
    step rt c (Close c).

(** What can happen to a session of a mode. *)
Inductive reach (rt : Routine) (mode : Mode) : handled Client → Prop :=
| reach_start : reach rt mode (Returns (started mode))
| reach_step c r : reach rt mode (Returns c) → step rt c r → reach rt mode r.

(** ** Before the goroutines start *)

Record SubscriptionList := {
  sl_prefix : option Path;
  sl_paths : list (option Path);
  sl_mode : option Mode          (* [None] for a mode that is not known *)
}.

(** The first message of the stream. *)
Inductive first_message :=
| FirstEOF
| FirstError (c : Code)
| First (sub : option SubscriptionList) (text : string).

Section setup.
Context {Sw : Swss}.

(** A constructor: the name of the database, or an error. *)
Context (make : sub_client → list (option Path) → option Path → res string string).
Context (A : AuthEnv) (now : Z) (cfg : AuthConfig) (cfg_state : Cfg).

(** The origin of the prefix and the paths. *)
Definition sub_origin (prefix : option Path) (paths : list (option Path)) : handled (status_res string) :=
  match ParseOrigin paths with
  | Panics => Panics
  | Returns (Err e) => Returns (Err e)
  | Returns (Ok o) =>
      let origin := GetOrigin prefix in
      if bool_decide (origin = "") then Returns (Ok o)
      else if bool_decide (o ≠ "") && bool_decide (o ≠ origin) then
        Returns (Err (InvalidArgument, "Origin conflict between prefix and paths"))
      else Returns (Ok origin)
  end.

(** The client and the name it is authorised under. *)
Definition choose_sub (origin target : string) (mode : option Mode) (prefix : option Path)
    (paths : list (option Path)) : status_res (sub_client * res string string * string) :=
  let is_db := (IsTargetDb target cfg_state).2 in
  if bool_decide (origin = "openconfig") then Ok (TranslSub, make TranslSub paths prefix, "gnmi")
  else if IsNativeOrigin origin then
    let dc := make MixedSub paths prefix in
    Ok (MixedSub, dc, "gnmi_" +:+ match dc with Ok db => db | Err _ => "" end)
  else if bool_decide (origin ≠ "") then Err (Unimplemented, "Unsupported origin")
  else if bool_decide (target = "") then Err (Unimplemented, "Empty target data not supported")
  else if bool_decide (target = "OTHERS") then Ok (NonDbSub, make NonDbSub paths prefix, "gnmi_others")
  else if bool_decide (target = "SHOW") then Err (Unimplemented, "SHOW does not support subscribe operations")
  else if bool_decide (target = "EVENTS") && bool_decide (mode = Some STREAM) then
    Ok (EventSub, make EventSub paths prefix, "gnmi_events")
  else if is_db.1.1.2 then Ok (DbSub, make DbSub paths prefix, "gnmi_" +:+ is_db.1.1.1)
  else Ok (TranslSub, make TranslSub paths prefix, "gnmi").

(** From the client on; the mode is looked at last. *)
Definition sub_with (r : Request) (mode : option Mode) (dc : sub_client * res string string * string)
  : ST AuthState (status_res (sub_client * Mode)) :=
  let '(which, made, authTarget) := dc in
  match made with
  | Err e => mret (Err (NotFound, e))
  | Ok _ =>
      a ← (_ ← GetContext; authenticate A now cfg r authTarget false);
      mret (_ ← a; of_option (InvalidArgument, "Unkown subscription mode") ((λ m, (which, m)) <$> mode))
  end.

(** What [Run] needs: the manager of the connections and the state of
    authentication.  The entry of a call that is admitted is removed when [Run]
    returns; the result of a session that starts carries its key. *)
Record RunState := { rs_cm : ConnectionManager; rs_auth : AuthState }.

Definition with_cm (cm : ConnectionManager) (s : RunState) : RunState :=
  {| rs_cm := cm; rs_auth := rs_auth s |}.

(** [addr] and [time] make the key; the commands on the table of connections
    succeed when [ok] says so. *)
Definition setup (addr time : string) (ok : bool) (r : Request) (m : first_message)
  : ST RunState (handled (status_res (sub_client * Mode * string))) := λ s,
  match m with
  | FirstEOF => (s, Returns (Err (Aborted, "stream EOF received before init")))
  | FirstError c => (s, Returns (Err (c, "received error from client")))
  | First None _ => (s, Returns (Err (InvalidArgument, "first message must be SubscriptionList")))
  | First (Some l) text =>
      if bool_decide (sl_paths l = []) then
        (s, Returns (Err (NotFound, "Invalid subscription path: No Subscription")))
      else
        match sub_origin (sl_prefix l) (sl_paths l) with
        | Panics => (s, Panics)
        | Returns (Err e) => (s, Returns (Err e))
        | Returns (Ok origin) =>
            let key := createKey addr text time in
            let '(cm, valid) := Add ok key (rs_cm s) in
            let s := with_cm cm s in
            if negb valid then (s, Returns (Err (Unavailable, "Server connections are at capacity.")))
            else
              let removed s := with_cm (Remove ok key (rs_cm s)).1 s in
              match choose_sub origin (GetTarget (sl_prefix l)) (sl_mode l) (sl_prefix l) (sl_paths l) with
              | Err e => (removed s, Returns (Err e))
              | Ok dc =>
                  let '(a, res) := sub_with r (sl_mode l) dc (rs_auth s) in
                  let s := {| rs_cm := rs_cm s; rs_auth := a |} in
                  match res with
                  | Err e => (removed s, Returns (Err e))
                  | Ok started => (s, Returns (Ok (started, key)))
                  end
              end
        end
  end.
End setup.
