(* ===== verification/SubscribeFacts.v ===== *)
(** * What a Subscribe session guarantees

    [session_safe]: stream and once sessions over the database clients never
    panic, in any interleaving of their goroutines, and a stream session whose
    end has begun comes to its end.  [once_session_hangs]: the routine of a once
    session does not run but for the translation library.  [session_values]:
    what is sent is what was put, at most once.
    [poll_session_panics] and [terminated_session_panics] are the two ways in
    which a session takes the server down.  [setup_authenticated] is about the
    checks before a session starts. *)
From stdpp Require Import base gmap sets list strings.
From S2P Require Import Prelude GoStrings Gnmi Json Pathz Redis World DbConfig DbConn VirtualDbFacts Bypass Connections Auth DbClient Server ServerFacts Subscribe.

Create HintDb session.

(** ** Panics *)

(** Only [Close] closes the channel, and it does; [recv] sends polls only in
    poll mode; [recv] and [Run] are past their [Close] only when the session is
    closed. *)
Record orderly (mode : Mode) (c : Client) : Prop := {
  ord_mode : c_mode c = mode;
  ord_closed : ch_closed (c_chan c) = c_disposed c;
  ord_recv : mode ≠ POLL → c_recv c ≠ RecvPoll;
  ord_end : c_recv c = RecvEnd → c_disposed c = true;
  ord_run : c_run c = RunWait ∨ c_run c = RunDone → c_disposed c = true
}.

Lemma Close_orderly mode c :
  orderly mode c → ∃ c', Close c = Returns c' ∧ orderly mode c' ∧ c_disposed c' = true ∧
    c_run c' = c_run c ∧ c_recv c' = c_recv c ∧ c_routine c' = c_routine c.
Proof.
  intros [Hm Hcl Hr He Hu]. unfold Close. destruct (c_disposed c) eqn:Hd.
  - exists c. split; [done|]. split; [by split; rewrite ?Hd|done].
  - rewrite Hcl. eexists. split; [done|]. split; [by split|done].
Qed.

Lemma recv_one_orderly mode m c : c_recv c = RecvRead → orderly mode c → orderly mode (recv_one m c).
Proof.
  intros Hre [Hm Hcl Hr He Hu]. destruct m; unfold recv_one; try case_bool_decide as Hb; split; simpl; try done.
  all: try (intros Hne; congruence). all: by case_bool_decide.
Qed.

Lemma advance_orderly rt mode c r :
  advance rt c r → orderly mode c → ∃ c', r = Returns c' ∧ orderly mode c'.
Proof.
  intros Hstep Ho. pose proof Ho as [Hm Hcl Hr He Hu].
  destruct Hstep as [c n _ Hro Hn|c _ Hro _ _|c q1 v q2 ok Hru Hd Hq _|c Hru Hd|c Hru|c Hru Hro|c Hre].
  - eexists. split; [done|]. by split.
  - eexists. split; [done|]. by split.
  - eexists. split; [done|]. split; simpl; try done. intros [H|H]; revert H; by case_match.
  - eexists. split; [done|]. by split.
  - destruct (Close_orderly _ _ Ho) as (c1 & -> & [] & Hd1 & _). eexists. split; [done|]. by split.
  - eexists. split; [done|]. split; simpl; try done. intros _. auto.
  - destruct (Close_orderly _ _ Ho) as (c1 & -> & [] & Hd1 & _). eexists. split; [done|]. by split.
Qed.

Lemma step_orderly rt mode c r :
  rt_closes rt = false → step rt c r → orderly mode c →
  (∃ c', r = Returns c' ∧ orderly mode c') ∨ (r = Panics ∧ mode = POLL).
Proof.
  intros Hquiet Hstep Ho. pose proof Ho as [Hm Hcl Hr He Hu].
  destruct Hstep as [c r Ha|c v _ _|c _ _|c _ ? _ _|c m Hre|c r Hre Hp|c _|c].
  - left. by eapply advance_orderly.
  - left. eexists. split; [done|]. unfold put. destruct (c_disposed c) eqn:Hd; [done|]. by split.
  - left. eexists. split; [done|]. by split.
  - congruence.
  - left. eexists. split; [done|]. by apply recv_one_orderly.
  - assert (mode = POLL) as Hpoll by (destruct (decide (mode = POLL)); [done|by destruct (Hr ltac:(done))]).
    unfold send_poll in Hp. destruct (ch_closed (c_chan c)) eqn:Hch; [injection Hp as <-; by right|].
    case_bool_decide; [|done]. injection Hp as <-. left. eexists. split; [done|]. split; simpl; try done.
  - left. eexists. split; [done|]. by split.
  - left. destruct (Close_orderly _ _ Ho) as (c1 & -> & Ho1 & _). by eexists.
Qed.

Lemma started_orderly mode : orderly mode (started mode).
Proof. split; try done. by intros []. Qed.

Lemma reach_orderly rt mode r :
  rt_closes rt = false → reach rt mode r → (∃ c, r = Returns c ∧ orderly mode c) ∨ (r = Panics ∧ mode = POLL).
Proof.
  intros Hq. induction 1 as [|c r _ IH Hstep].
  - left. eexists. split; [done|]. apply started_orderly.
  - destruct IH as [(c' & [= <-] & Ho)|[? _]]; [|done]. by eapply step_orderly.
Qed.

(** ** Ends *)

(** The goroutines on their own, without a panic. *)
Definition advances (rt : Routine) : relation Client := λ c c', advance rt c (Returns c').

(** The session is closed, or [Run] or [recv] is about to close it. *)
Definition ending (c : Client) : Prop :=
  c_disposed c = true ∨ c_run c = RunClose ∨ c_recv c = RecvClose.

(** How much is left to do. *)
Definition left_over (c : Client) : nat :=
  length (c_q c) + ch_tokens (c_chan c) + (if c_routine c then 1 else 0) +
  (match c_run c with RunSend => 3 | RunClose => 2 | RunWait => 1 | RunDone => 0 end) +
  (match c_recv c with RecvClose => 1 | _ => 0 end).

Lemma Close_left c c' :
  Close c = Returns c' → length (c_q c') ≤ length (c_q c) ∧ ch_tokens (c_chan c') = ch_tokens (c_chan c) ∧
    c_routine c' = c_routine c ∧ c_run c' = c_run c ∧ c_recv c' = c_recv c ∧ c_disposed c' = true.
Proof.
  unfold Close. destruct (c_disposed c) eqn:Hd; [by intros [= <-]|]. destruct (ch_closed _); [done|].
  intros [= <-]. simpl. split_and!; [lia|done..].
Qed.

Lemma advance_left rt c c' : advances rt c c' → left_over c' < left_over c ∧ (ending c → ending c').
Proof.
  unfold advances. intros H. remember (Returns c') as r eqn:Hr.
  assert (∀ k, after_close k (Close c) = Returns c' → ∃ c1, Close c = Returns c1 ∧ c' = k c1) as Hac.
  { intros k. destruct (Close c) as [c1|]; [|done]. intros [= <-]. by eexists. }
  destruct H as [c n _ Hro Hn|c _ Hro _ _|c q1 v q2 ok Hru Hd Hq _|c Hru Hd|c Hru|c Hru Hro|c Hre];
    try (injection Hr as <-); unfold left_over, ending; simpl.
  - rewrite Hn. split; [lia|done].
  - rewrite Hro. split; [lia|done].
  - rewrite Hq, !length_app, Hru. simpl. split.
    + destruct (ValToResp v) as [r0|]; [destruct ok|]; simpl; lia.
    + intros [H|[H|H]]; [congruence|congruence|by right; right].
  - rewrite Hru. split; [lia|by left].
  - destruct (Hac _ Hr) as (c1 & (Hq & Ht & Hro & _ & Hre & Hdi)%Close_left & ->). simpl.
    rewrite Ht, Hro, Hre, Hru. split; [lia|by left].
  - rewrite Hru, Hro. split; [lia|]. intros [H|[H|H]]; [by left|congruence|by right; right].
  - destruct (Hac _ Hr) as (c1 & (Hq & Ht & Hro & Hru & _ & Hdi)%Close_left & ->). simpl.
    rewrite Ht, Hro, Hru, Hre. split; [lia|by left].
Qed.

(** What is left to do becomes less with every step. *)
Lemma advance_terminates rt c : sn (advances rt) c.
Proof.
  remember (left_over c) as n eqn:Hn. revert c Hn. induction n as [n IH] using lt_wf_ind. intros c ->.
  constructor. intros c' Hs. eapply IH; [|done]. by eapply advance_left.
Qed.

(** A session that is closing and cannot go on has ended. *)
Lemma ending_done rt mode c :
  rt_runs rt = true → orderly mode c → ending c → nf (advances rt) c → c_run c = RunDone.
Proof.
  intros Hruns Ho Hend Hnf. pose proof Ho as [_ Hcl _ _ _].
  assert (∀ c', ¬ advance rt c (Returns c')) as Hno by (intros c' H; apply Hnf; by exists c').
  destruct (Close_orderly mode c Ho) as (c1 & Hc1 & _).
  assert (c_run c ≠ RunClose) as Hn1.
  { intros H. pose proof (step_run_close rt c H) as Hs. rewrite Hc1 in Hs. by apply Hno in Hs. }
  assert (c_recv c ≠ RecvClose) as Hn2.
  { intros H. pose proof (step_recv_close rt c H) as Hs. rewrite Hc1 in Hs. by apply Hno in Hs. }
  assert (c_disposed c = true) as Hd by (destruct Hend as [?|[?|?]]; done).
  assert (c_routine c = false) as Hro.
  { destruct (c_routine c) eqn:Hro; [|done]. exfalso. destruct (ch_tokens (c_chan c)) as [|n] eqn:Ht.
    - eapply Hno, step_stopped; [done..|congruence|done].
    - by eapply Hno, step_token. }
  destruct (c_run c) eqn:Hr; [|done| |done]; exfalso.
  - by eapply Hno, step_send_disposed.
  - by eapply Hno, step_run_wait.
Qed.

Lemma advances_orderly rt mode c c' : rtc (advances rt) c c' → orderly mode c → ending c → orderly mode c' ∧ ending c'.
Proof.
  induction 1 as [|c c1 c' Hs _ IH]; intros Ho He; [done|]. apply IH.
  - by destruct (advance_orderly _ _ _ _ Hs Ho) as (c2 & [= <-] & Ho2).
  - by eapply advance_left.
Qed.


(** A session whose routine does not run has nothing to send and waits for it
    for ever. *)
Record stuck (c : Client) : Prop := {
  stuck_routine : c_routine c = true;
  stuck_q : c_q c = [];
  stuck_sent : c_sent c = [];
  stuck_run : c_run c ≠ RunDone
}.

Lemma Close_stuck c c' : Close c = Returns c' → stuck c → stuck c'.
Proof.
  unfold Close. intros H [Hro Hq Hs Hr]. destruct (c_disposed c); [by injection H as <-|].
  destruct (ch_closed _); [done|]. injection H as <-. by split.
Qed.

Lemma step_stuck rt c c' : rt_runs rt = false → step rt c (Returns c') → stuck c → stuck c'.
Proof.
  intros Hno Hstep Hst. pose proof Hst as [Hro Hq Hs Hr]. remember (Returns c') as r eqn:Hr'.
  assert (∀ k, (∀ x, stuck x → stuck (k x)) → after_close k (Close c) = Returns c' → stuck c') as Hcl.
  { intros k Hk H. destruct (Close c) as [x|] eqn:Hx; [|done]. injection H as <-.
    apply Hk. by eapply Close_stuck. }
  destruct Hstep as [c r Hadv| | | |c m _|c r _ Hp|c _|c]; try congruence; try (injection Hr' as <-; by split).
  - destruct Hadv as [| |c q1 v q2 ok _ _ Hv _|c _ _|c _|c _ Hw|c _]; try congruence;
      try (injection Hr' as <-; by split).
    + rewrite Hq in Hv. by destruct q1.
    + eapply Hcl; [|exact Hr']. intros x []. by split.
    + eapply Hcl; [|exact Hr']. intros x []. by split.
  - injection Hr' as <-. destruct m; unfold recv_one; try case_bool_decide; done || by split.
  - subst r. unfold send_poll in Hp. destruct (ch_closed _); [done|]. case_bool_decide; [|done].
    injection Hp as <-. by split.
  - by eapply Close_stuck.
Qed.

(** A once subscription that is not served by the translation library
    never ends: its client is sent nothing, and [Run] never returns, whatever
    the client and the server do, so that the entry of the connection is never
    removed from the table of connections. *)
Theorem once_session_hangs which appl c :
  which ≠ TranslSub → reach (routine_of which ONCE appl) ONCE (Returns c) →
  c_sent c = [] ∧ c_run c ≠ RunDone.
Proof.
  intros Hw Hr. assert (rt_runs (routine_of which ONCE appl) = false) as Hno by by destruct which.
  assert (stuck c) as []; [|done]. remember (Returns c) as r eqn:Hc. revert c Hc.
  induction Hr as [|c1 r Hr1 IH Hstep]; intros c Hc; [injection Hc as <-; by split|].
  subst r. by eapply step_stuck; [..|apply IH].
Qed.

(** ** Values *)

(** The response of a value, if it is not a fatal one. *)
Definition response (v : Value) : option SubscribeResponse :=
  match ValToResp v with Ok r => Some r | Err _ => None end.

(** The queue holds what was put and not taken, until it is disposed; what was
    sent are the responses of what was taken, the last one aside. *)
Record accounted (c : Client) : Prop := {
  acc_open : c_disposed c = false → c_taken c ++ c_q c ≡ₚ c_put c;
  acc_taken : c_taken c ⊆+ c_put c;
  acc_sent : ∃ n, length (c_taken c) ≤ S n ∧ Some <$> c_sent c = response <$> take n (c_taken c);
  acc_running : c_run c = RunSend → Some <$> c_sent c = response <$> c_taken c
}.

Lemma send_one_accounted v q1 q2 ok c :
  c_run c = RunSend → c_disposed c = false → c_q c = q1 ++ v :: q2 → accounted c →
  accounted (send_one v (q1 ++ q2) ok c).
Proof.
  intros Hr Hd Hq [Ho Ht _ Hrun]. specialize (Ho Hd). specialize (Hrun Hr).
  assert ((c_taken c ++ [v]) ++ q1 ++ q2 ≡ₚ c_put c) as Hperm.
  { rewrite <- Ho, Hq, <- app_assoc. f_equiv. simpl. by rewrite Permutation_middle. }
  split; simpl.
  - done.
  - rewrite <- Hperm. by apply submseteq_inserts_r.
  - destruct (ValToResp v) as [r|e] eqn:Hv; [destruct ok|].
    + exists (S (length (c_taken c))). rewrite length_app. simpl. split; [lia|].
      rewrite take_ge by (rewrite length_app; simpl; lia). rewrite !fmap_app, Hrun. unfold response at 3. simpl.
      by rewrite Hv.
    + exists (length (c_taken c)). rewrite length_app, take_app_length, app_nil_r. simpl. split; [lia|done].
    + exists (length (c_taken c)). rewrite length_app, take_app_length, app_nil_r. simpl. split; [lia|done].
  - unfold response. destruct (ValToResp v) as [r|e] eqn:Hv; [destruct ok|]; simpl; [|done..].
    intros _. rewrite !fmap_app, Hrun. simpl. by rewrite Hv.
Qed.

Lemma Close_accounted c c' : Close c = Returns c' → accounted c → accounted c' ∧ c_run c' = c_run c.
Proof.
  unfold Close. destruct (c_disposed c); [by intros [= ->]|]. destruct (ch_closed _); [done|].
  intros [= <-] [Ho Ht Hs Hr]. split; [|done]. by split.
Qed.

Lemma set_run_accounted pc c : pc ≠ RunSend → accounted c → accounted (set_run pc c).
Proof. intros Hpc [Ho Ht Hs Hr]. by split. Qed.

Lemma step_accounted rt c c' : step rt c (Returns c') → accounted c → accounted c'.
Proof.
  intros Hstep Ha. pose proof Ha as [Ho Ht Hs Hr]. remember (Returns c') as r eqn:Hr'.
  assert (∀ k, (∀ x, c_run x = c_run c → accounted x → accounted (k x)) →
    after_close k (Close c) = Returns c' → accounted c') as Hcl.
  { intros k Hk. destruct (Close c) as [x|] eqn:Hx; [|done]. intros [= <-].
    destruct (Close_accounted _ _ Hx Ha) as [? ?]. by apply Hk. }
  destruct Hstep as [c r Hadv|c v _|c _ _|c _ _ _ _|c m Hre|c r Hre Hp|c _|c];
    try (injection Hr' as <-); try (by split).
  - destruct Hadv as [c n _ Hro Hn|c _ Hro _ _|c q1 v q2 ok Hru Hd Hq _|c _ _|c Hru|c _ _|c _];
      try (injection Hr' as <-); try (by split).
    + by apply send_one_accounted.
    + eapply Hcl; [|exact Hr']. intros x _ Hx. by apply set_run_accounted.
    + eapply Hcl; [|exact Hr']. intros x _ [? ? ? ?]. by split.
  - unfold put. destruct (c_disposed c) eqn:Hd; [done|]. split; simpl; [|by apply submseteq_cons|done|done].
    intros _. rewrite <- Ho by done. by rewrite <- Permutation_middle.
  - destruct m; unfold recv_one; try case_bool_decide; done || by split.
  - subst r. unfold send_poll in Hp. destruct (ch_closed _); [done|]. case_bool_decide; [|done].
    injection Hp as <-. by split.
  - destruct (Close_accounted c c' Hr' Ha). done.
Qed.

(** C18. Nothing is sent that was not put in the queue, and nothing twice: in
    every state of a session, the values taken from its queue are among those
    put in it, each as often at most; what was sent are their responses in the
    order in which they were taken, all of them but possibly the last, and
    while the session is open the others are still in the queue. *)
Theorem session_values rt mode c :
  reach rt mode (Returns c) →
  c_taken c ⊆+ c_put c ∧
  (∃ n, length (c_taken c) ≤ S n ∧ Some <$> c_sent c = response <$> take n (c_taken c)) ∧
  (c_disposed c = false → c_taken c ++ c_q c ≡ₚ c_put c).
Proof.
  intros Hr. assert (accounted c) as [Ho Ht Hs _]; [|done].
  remember (Returns c) as r eqn:Hc. revert c Hc.
  induction Hr as [|c1 r Hr1 IH Hstep]; intros c Hc.
  - injection Hc as <-. split; simpl; [done|done|exists 0; simpl; split; [lia|done]|done].
  - subst r. eapply step_accounted; [done|by apply IH].
Qed.

(** ** How a session takes the server down *)

(** A poll message that [recv] holds while the session is closed. *)
Lemma poll_after_close rt c :
  c_recv c = RecvPoll → ch_closed (c_chan c) = true → step rt c Panics.
Proof. intros Hr Hc. apply step_poll; [done|]. unfold send_poll. by rewrite Hc. Qed.

(** A poll session can panic: when a fatal message or a failure of the
    stream ends [send] while [recv] has read a poll message that it could not
    hand over yet, [Close] closes the channel on which [recv] is sending. *)
Theorem poll_session_panics :
  let rt := routine_of DbSub POLL false in
  reach rt POLL Panics ∧
  ∀ c, reach rt POLL (Returns c) → c_recv c = RecvPoll → c_disposed c = false →
    ∃ c', step rt c (Returns c') ∧ step rt c' Panics.
Proof.
  intros rt. assert (∀ c, reach rt POLL (Returns c) → c_recv c = RecvPoll → c_disposed c = false →
    ∃ c', step rt c (Returns c') ∧ step rt c' Panics) as Hgen.
  { intros c [(c0 & [= <-] & Ho)|[? _]]%reach_orderly Hp Hd; [|done..]. destruct Ho as [_ Hcl _ _ _].
    pose proof (step_replaced rt c) as Hs. unfold Close in Hs. rewrite Hd, Hcl, Hd in Hs.
    eexists. split; [exact Hs|]. by apply poll_after_close. }
  split; [|done].
  assert (reach rt POLL (Returns (recv_one PollMessage (started POLL)))) as H1.
  { eapply reach_step; [constructor|]. by constructor. }
  destruct (Hgen _ H1) as (c & Hs1 & Hs2); [done..|].
  eapply reach_step; [eapply reach_step; [exact H1|exact Hs1]|exact Hs2].
Qed.

(** When translib says that a session is terminated, its goroutine puts a
    fatal message in the queue and closes the channel of the session; [Run]
    then closes the channel again and panics, in every mode. *)
Theorem terminated_session_panics mode now msg :
  let rt := routine_of TranslSub mode false in
  msg ≠ "" → ∃ c, reach rt mode (Returns c) ∧ c_q c = [putFatalMsg now msg] ∧
    ∃ c', step rt c (Returns c') ∧ step rt c' Panics.
Proof.
  intros rt Hmsg. set (v := putFatalMsg now msg).
  assert (rt_runs rt = true ∧ rt_closes rt = true) as [Hruns Hcl] by by destruct mode.
  set (c1 := put v (started mode)).
  set (c2 := set_chan {| ch_closed := true; ch_tokens := ch_tokens (c_chan c1) |} c1).
  assert (ValToResp v = Err (Errorf msg)) as Hv.
  { unfold ValToResp, v. simpl. by rewrite bool_decide_true. }
  exists c2. split_and!; [|done|].
  - eapply reach_step; [eapply reach_step; [constructor|]|]; [by apply step_put|]. by apply step_close_chan.
  - exists (send_one v [] false c2). split.
    + apply step_advance. by apply (step_send rt c2 [] v [] false).
    + assert (c_run (send_one v [] false c2) = RunClose) as Hr by (unfold send_one; by rewrite Hv).
      apply step_advance, (step_run_close rt _ Hr).
Qed.

(** ** Before a session starts *)

Section setup.
Context {Sw : Swss}.
Context (make : sub_client → list (option Path) → option Path → res string string).
Context (A : AuthEnv) (now : Z) (cfg : AuthConfig) (cfg_state : Cfg).

Notation setup := (setup make A now cfg cfg_state).

(** Which client serves a subscription, and the name it is authorised under:
    [made] is what the constructor of the client reported. *)
Definition served_by (which : sub_client) (origin target : string) (mode : option Mode) (made : string)
    (name : string) : Prop :=
  match which with
  | TranslSub =>
      name = "gnmi" ∧
      (origin = "openconfig" ∨
       origin = "" ∧ target ∉ [""; "OTHERS"; "SHOW"] ∧ ¬ (target = "EVENTS" ∧ mode = Some STREAM) ∧
       (IsTargetDb target cfg_state).2.1.1.2 = false)
  | MixedSub => name = "gnmi_" +:+ made ∧ origin = "sonic-db"
  | NonDbSub => name = "gnmi_others" ∧ origin = "" ∧ target = "OTHERS"
  | EventSub => name = "gnmi_events" ∧ origin = "" ∧ target = "EVENTS" ∧ mode = Some STREAM
  | DbSub =>
      name = "gnmi_" +:+ (IsTargetDb target cfg_state).2.1.1.1 ∧ origin = "" ∧
      (IsTargetDb target cfg_state).2.1.1.2 = true
  end.

Lemma choose_sub_target origin target mode prefix paths which db name :
  choose_sub make cfg_state origin target mode prefix paths = Ok (which, Ok db, name) →
  make which paths prefix = Ok db ∧ served_by which origin target mode db name.
Proof.
  unfold choose_sub, served_by, IsNativeOrigin.
  destruct (bool_decide_reflect (origin = "openconfig")) as [->|Ho]; [intros [= <- ? <-]; by auto|].
  destruct (bool_decide_reflect (origin = "sonic-db")) as [->|Hn]; [intros [= <- -> <-]; by auto|].
  destruct (bool_decide_reflect (origin ≠ "")) as [?|Hnil%dec_stable]; [done|subst origin].
  destruct (bool_decide_reflect (target = "")) as [?|Ht]; [done|].
  destruct (bool_decide_reflect (target = "OTHERS")) as [->|Hot]; [intros [= <- ? <-]; by auto|].
  destruct (bool_decide_reflect (target = "SHOW")) as [?|Hsh]; [done|].
  destruct (bool_decide_reflect (target = "EVENTS")) as [->|Hev];
    destruct (bool_decide_reflect (mode = Some STREAM)) as [->|Hmo]; cbn [andb];
    try (intros [= <- ? <-]; by auto).
  all: destruct ((IsTargetDb _ cfg_state).2.1.1.2) eqn:Hdb; intros [= <- ? <-];
    (split; [done|split; [done|]]); [done|right; split_and!; [done| | |done]].
  all: first [set_solver|naive_solver].
Qed.

Lemma sub_with_run r mode which made authTarget a which' mode' :
  (sub_with A now cfg r mode (which, made, authTarget) a).2 = Ok (which', mode') →
  which' = which ∧ mode = Some mode' ∧ (∃ db, made = Ok db) ∧
  is_ok (authenticate A now cfg r authTarget false (GetContext a).1).2 = true.
Proof.
  unfold sub_with. destruct made as [db|e]; [|done]. rewrite !bind_run.
  destruct (authenticate _ _ _ _ _ _ _) as [a' [u|e]]; simpl; [|done].
  destruct mode as [m|]; [|done]. intros [= <- <-]. split_and!; [done..|by eexists|done].
Qed.

(** C19. A session starts only for a list of subscriptions of a known mode,
    below the limit of connections, with the data client that its origin and
    target select, and after the request was accepted for reading under the
    name of that client.  Its key, made of the address, the text of the
    request and the second, is then in the table of connections; it may have
    been there before, from a call that made the same key.  A call that is
    refused adds nothing to the table, and takes its key out of it when it was
    refused after it had been admitted. *)
Theorem setup_authenticated addr time ok r m s s' :
  (∀ which mode key, setup addr time ok r m s = (s', Returns (Ok (which, mode, key))) →
     at_limit (rs_cm s) = false ∧
     connections (rs_cm s') = {[key]} ∪ connections (rs_cm s) ∧
     ∃ l text origin db name,
       m = First (Some l) text ∧ key = createKey addr text time ∧ sl_mode l = Some mode ∧
       sub_origin (sl_prefix l) (sl_paths l) = Returns (Ok origin) ∧
       make which (sl_paths l) (sl_prefix l) = Ok db ∧
       served_by which origin (GetTarget (sl_prefix l)) (sl_mode l) db name ∧
       is_ok (authenticate A now cfg r name false (GetContext (rs_auth s)).1).2 = true) ∧
  (∀ e, setup addr time ok r m s = (s', Returns (Err e)) →
     connections (rs_cm s') = connections (rs_cm s) ∨
     ∃ l text, m = First (Some l) text ∧
       connections (rs_cm s') = connections (rs_cm s) ∖ {[createKey addr text time]}).
Proof.
  unfold Subscribe.setup. destruct m as [|c|[l|] text]; [split; intros; simplify_eq; by left..| |split; intros; simplify_eq; by left].
  destruct (bool_decide _); [split; intros; simplify_eq; by left|].
  destruct (sub_origin _ _) as [[origin|e]|] eqn:Horig; [|split; intros; simplify_eq; by left|split; intros; simplify_eq].
  unfold Add. destruct (at_limit (rs_cm s)) eqn:Hlim; simpl; [split; intros; simplify_eq; by left|].
  destruct (choose_sub _ _ _ _ _ _ _) as [[[which made] authTarget]|e] eqn:Hch.
  - pose proof (sub_with_run r (sl_mode l) which made authTarget (rs_auth s)) as Hsub.
    destruct (sub_with A now cfg r (sl_mode l) (which, made, authTarget) (rs_auth s)) as [a [st|e]]; simpl in *.
    + split; [|done]. intros which' mode key [= <- -> <-]. split_and!; [done..|].
      destruct (Hsub _ _ eq_refl) as (-> & Hmode & (db & ->) & Hauth).
      apply choose_sub_target in Hch as [Hmake Hserved].
      exists l, text, origin, db, authTarget. by split_and!.
    + split; [done|]. intros e' [= <- _]. right. exists l, text. split; [done|]. simpl. set_solver.
  - split; [done|]. intros e' [= <- _]. right. exists l, text. split; [done|]. simpl. set_solver.
Qed.
End setup.

(** ** Instances *)
Module SubscribeExample.
Import VdbExample ServerExample.
#[local] Existing Instance swss0.

(** The client hung up: [recv] is about to close the session. *)
Definition hung_up : Client := recv_one StreamError (started STREAM).


Example hung_up_ends : ending hung_up.
Proof. by right; right. Qed.

Definition session1 : Client := send_one (sync_value 4) [] true (put (sync_value 4) (started ONCE)).

Lemma session_values_witness :
  c_sent session1 = [SyncResponse true] ∧ c_taken session1 ⊆+ c_put session1 ∧
  (∃ n, length (c_taken session1) ≤ S n ∧ Some <$> c_sent session1 = response <$> take n (c_taken session1)) ∧
  (c_disposed session1 = false → c_taken session1 ++ c_q session1 ≡ₚ c_put session1).
Proof.
  split; [reflexivity|]. apply (session_values (routine_of TranslSub ONCE false) ONCE).
  eapply reach_step; [eapply reach_step; [constructor|by apply (step_put _ _ (sync_value 4))]|].
  apply step_advance, (step_send _ (put (sync_value 4) (started ONCE)) [] (sync_value 4) [] true);
    [reflexivity|reflexivity|reflexivity|constructor].
Defined.

Lemma terminated_session_panics_witness :
  ∃ c, reach (routine_of TranslSub STREAM false) STREAM (Returns c) ∧
    c_q c = [putFatalMsg 7 "DB Connection Error"] ∧
    ∃ c', step (routine_of TranslSub STREAM false) c (Returns c') ∧
          step (routine_of TranslSub STREAM false) c' Panics.
Proof. apply (terminated_session_panics STREAM 7 "DB Connection Error"). discriminate. Defined.

(** Even a client that is gone does not end it. *)
Lemma once_session_hangs_witness :
  c_sent (recv_one StreamError (started ONCE)) = [] ∧ c_run (recv_one StreamError (started ONCE)) ≠ RunDone.
Proof.
  apply (once_session_hangs MixedSub false); [discriminate|].
  eapply reach_step; [constructor|]. by constructor.
Defined.

(** Everyone can make a client; the reader subscribes to OTHERS. *)
Definition others : SubscriptionList := {|
  sl_prefix := Some {| path_origin := ""; path_target := "OTHERS"; path_elem := [] |};
  sl_paths := [Some (path_of ["proc"; "uptime"])]; sl_mode := Some STREAM
|}.
Definition run0 : RunState := {|
  rs_cm := {| connections := ∅; threshold := 1; rclient := true; stored := ∅ |}; rs_auth := auth0 |}.

Notation setup0 := (setup (λ _ _ _, Ok "") auth_env 0 (auth_config false) cfg_state0 "10.0.0.1:9" "T" true
                      (request "reader") (First (Some others) "")).

Lemma setup_authenticated_witness :
  connections (rs_cm (setup0 run0).1) = {[ createKey "10.0.0.1:9" "" "T" ]} ∪ connections (rs_cm run0).
Proof.
  eapply (setup_authenticated (λ _ _ _, Ok "") auth_env 0 (auth_config false) cfg_state0 "10.0.0.1:9" "T" true
            (request "reader") (First (Some others) "") run0 (setup0 run0).1).
  reflexivity.
Defined.

(** The names under which Get and Subscribe authorise reads of OTHERS
    differ. *)
Example others_names_differ :
  match choose_sub (λ _ _ _, Ok "") cfg_state0 "" "OTHERS" (Some STREAM) None [] with
  | Ok (_, _, name) => name
  | Err _ => ""
  end = "gnmi_others" ∧
  match choose_client backend cfg_state0 (sl_prefix others) [] JSON_IETF [] with
  | Returns (Ok (_, name)) => name
  | _ => ""
  end = "gnmi_other".
Proof. split; reflexivity. Qed.
End SubscribeExample.
