(* ===== verification/GnoiHealthz.v ===== *)
(** * The Healthz and Debug services of the server (src/gnmi_server/gnoi_healthz.go,
      gnoi_debug.go)

    Healthz asks the host to collect a dump, waits until it is there and serves
    its file in segments.  SHA256 is a parameter, as are how often the wait can
    poll before its time is up, and how many messages can be sent before a send
    fails. *)
From stdpp Require Import base gmap list strings.
From S2P Require Import Prelude GoStrings Paths Gnmi Redis World Dbus Auth Gnoi GnsiUtil Debug.

Definition ddComponentKey : string := "component".
Definition ddComponentAll : string := "all".
Definition ddLogLvlKey : string := "level".
Definition ddLogLvlAlert : string := "alert".
Definition ddLogLvlCritical : string := "critical".
Definition ddLogLvlAll : string := "all".
Definition ddLogLvlSuf : string := "-info".
Definition ddFileSegSize : nat := 4096.
Definition allowedDir : string := "/tmp/dump".

(** ** Paths *)

Definition bare (e : PathElem) (names : list string) : bool :=
  bool_decide (elem_name e ∈ names) && bool_decide (elem_key e = ∅).

Definition isDebugData (p : option Path) : bool :=
  match p with
  | None => false
  | Some p =>
      match path_elem p with
      | [e0; e1; e2; e3] =>
          bare e0 ["components"] &&
          (bool_decide (elem_name e1 = "component") && bool_decide (size (elem_key e1) = 1) &&
           bool_decide (is_Some (elem_key e1 !! "name"))) &&
          bare e2 ["healthz"] &&
          bare e3 [ddLogLvlAlert +:+ ddLogLvlSuf; ddLogLvlCritical +:+ ddLogLvlSuf; ddLogLvlAll +:+ ddLogLvlSuf]
      | _ => false
      end
  end.

(** The component and level a path asks for. *)
Definition debug_request (p : Path) : string * string :=
  match path_elem p with
  | [e0; e1; e2; e3] => (default "" (elem_key e1 !! "name"), TrimSuffix (elem_name e3) ddLogLvlSuf)
  | _ => (ddComponentAll, ddLogLvlAlert)
  end.

(** ** Artifacts *)

Inductive HealthStatus := STATUS_UNSPECIFIED | STATUS_HEALTHY | STATUS_UNHEALTHY.

Record FileArtifact := { fa_name : string; fa_size : nat; fa_hash : string }.

Inductive ArtifactResponse := Header (f : FileArtifact) | Bytes (data : string) | Trailer.

Section healthz.
Context {Rd : Redis} {Bu : Bus} (SHA256 : string → string).

Record HState := { hs_bus : DState; hs_world : World }.
Notation HM A := (ST HState A).
Definition lift_bus {A} (m : ST DState A) : HM A := λ s,
  let '(b, a) := m (hs_bus s) in ({| hs_bus := b; hs_world := hs_world s |}, a).
Definition lift_world {A} (m : IO A) : HM A := λ s,
  let '(w, a) := m (hs_world s) in ({| hs_bus := hs_bus s; hs_world := w |}, a).

(** [polls]: how often the timer fires before the context is done. *)
Fixpoint waitForArtifact (polls : nat) (file : string) : ST DState (res string string) :=
  r ← HealthzCheck NewDbusClient file;
  match r with
  | Ok result => mret (Ok result)
  | Err _ =>
      match polls with
      | 0 => mret (Err "artifact collection timeout")
      | S polls => waitForArtifact polls file
      end
  end.

Definition health_of (result : string) : HealthStatus :=
  if bool_decide (result = "Artifact ready") then STATUS_HEALTHY
  else if bool_decide (result = "Artifact not ready") then STATUS_UNHEALTHY
  else STATUS_UNSPECIFIED.

(** The file of an artifact in the container, when the check lets it pass. *)
Definition artifact_path (id : string) : option string :=
  let cleanPath := Clean id in
  if HasPrefix cleanPath allowedDir then Some (path_Join "/mnt/host" cleanPath) else None.

Definition describe (id data : string) : FileArtifact :=
  {| fa_name := id; fa_size := String.length data; fa_hash := SHA256 data |}.

(** [reqStr]: the JSON of the request for a component and a level. *)
Definition getDebugData (marshal : string * string → option string) (polls : nat) (p : Path)
  : HM (status_res (string * HealthStatus * FileArtifact)) :=
  match marshal (debug_request p) with
  | None => mret (Err (Unknown, "json"))
  | Some b =>
      r ← lift_bus (HealthzCollect NewDbusClient b);
      match r with
      | Err e => mret (Err (Internal, "Host service error"))
      | Ok s =>
          x ← lift_bus (waitForArtifact polls s);
          match x with
          | Err e => mret (Err (Unknown, e))
          | Ok result =>
              match artifact_path s with
              | None => mret (Err (InvalidArgument, "Invalid artifact path"))
              | Some file_path =>
                  d ← lift_world (ReadFile file_path);
                  mret (match d with
                        | Err _ => Err (Internal, "Error")
                        | Ok data => Ok (s, health_of result, describe s data)
                        end)
              end
          end
      end
  end.

Definition healthz_Get (marshal : string * string → option string) (polls : nat) (path : option Path)
  : HM (status_res (string * HealthStatus * FileArtifact)) :=
  match path with
  | None => mret (Err (InvalidArgument, "Healthz.Get received nil request or path"))
  | Some p =>
      if isDebugData (Some p) then getDebugData marshal polls p
      else mret (Err (Unimplemented, "Healthz.Get is unimplemented for component"))
  end.

(** The segments of a file as successive reads return them. *)
Fixpoint segments (fuel : nat) (data : string) : list string :=
  match fuel with
  | 0 => []
  | S fuel =>
      if bool_decide (data = "") then []
      else str_take ddFileSegSize data :: segments fuel (str_drop ddFileSegSize data)
  end.

(** [sends]: the messages that can be sent; [read_fail]: the read that fails,
    if one does; [seek_ok]: whether the file could be rewound. *)
Definition send_all (sends : nat) (msgs : list ArtifactResponse) : list ArtifactResponse * bool :=
  (take sends msgs, bool_decide (length msgs ≤ sends)).

Definition Artifact (sends : nat) (read_fail : option nat) (seek_ok : bool) (file : string)
  : IO (list ArtifactResponse * option (Code * string)) :=
  match artifact_path file with
  | None => mret ([], Some (InvalidArgument, "Invalid artifact path"))
  | Some file_path =>
      d ← ReadFile file_path;
      match d with
      | Err NotExist => mret ([], Some (NotFound, "File not found"))
      | Err _ => mret ([], Some (Internal, "Failed to open file"))
      | Ok data =>
          if negb seek_ok then mret ([], Some (Internal, "Failed to reset file pointer"))
          else
            let segs := Bytes <$> segments (String.length data) data in
            let msgs := Header (describe file data) ::
              match read_fail with
              | Some i => if bool_decide (i ≤ length segs) then take i segs else segs ++ [Trailer]
              | None => segs ++ [Trailer]
              end in
            let '(out, ok) := send_all sends msgs in
            mret (out,
              if negb ok then Some (Unknown, "send")
              else match read_fail with
                   | Some i => if bool_decide (i ≤ length segs) then Some (Internal, "File read error") else None
                   | None => None
                   end)
      end
  end.

Definition Acknowledge (id : string) : ST DState (status_res ()) :=
  r ← HealthzAck NewDbusClient id;
  mret (match r with Err e => Err (Internal, "Host service error") | Ok _ => Ok () end).

(** ** The RPCs: Artifact is the one that does not authenticate. *)
Section rpcs.
Context (A : AuthEnv) (now : Z) (cfg : AuthConfig).
Definition Get_rpc (r : Request) marshal polls path := authed A now cfg r false (healthz_Get marshal polls path).
Definition Acknowledge_rpc (r : Request) (id : string) := authed A now cfg r false (Acknowledge id).
Definition List_rpc : status_res () := Err (Unimplemented, "gNOI Healthz List not implemented").
Definition Check_rpc : status_res () := Err (Unimplemented, "gNOI Healthz Check not implemented").
End rpcs.
End healthz.

(** ** Debug *)
Section debug_rpc.
Context (A : AuthEnv) (now : Z) (cfg : AuthConfig).
Context (Parse : string → option File) (runCommand : string → Z → string → CommandRun).

(** The two authentications decide which whitelist applies. *)
Definition Debug_rpc (whitelists : list string * list string) (r : Request) (req : option DebugRequest) (send_ok : bool)
  : ST AuthState (list DebugResponse * option (Code * string)) :=
  e ← check_request A now cfg r false;
  match e with
  | Err e => mret ([], Some e)
  | Ok _ =>
      e ← check_request A now cfg r true;
      mret (HandleCommandRequest Parse runCommand req send_ok (if is_ok e then whitelists.2 else whitelists.1))
  end.
End debug_rpc.

(** ** Facts *)

Lemma segments_join fuel data : String.length data ≤ fuel → Join (segments fuel data) "" = data.
Proof.
  revert data. induction fuel as [|fuel IH]; intros data Hl; [destruct data; simpl in *; [done|lia]|]. cbn [segments].
  case_bool_decide as Hd; [by subst|].
  assert (String.length (str_drop ddFileSegSize data) ≤ fuel) as Hdrop.
  { pose proof (f_equal String.length (str_take_drop ddFileSegSize data)) as Ht. rewrite length_app_str in Ht.
    destruct data as [|c data]; [done|]. unfold ddFileSegSize in *. change 4096 with (S 4095) in *. cbn [str_take str_drop String.length] in *. lia. }
  assert (∀ x l, Join (x :: l) "" = x +:+ Join l "") as Hj by (intros x [|y l]; [by rewrite app_empty_r|done]).
  rewrite Hj, IH by done. apply str_take_drop.
Qed.

Lemma length_str_take n s : String.length (str_take n s) ≤ n.
Proof. revert s. induction n as [|n IH]; intros [|c s]; simpl; try lia. specialize (IH s). lia. Qed.

Lemma segments_size fuel data : Forall (λ x, x ≠ "" ∧ String.length x ≤ ddFileSegSize) (segments fuel data).
Proof.
  revert data. induction fuel as [|fuel IH]; intros data; cbn [segments]; [constructor|].
  case_bool_decide as Hd; [constructor|]. constructor; [|done]. split; [|apply length_str_take].
  destruct data as [|c data]; [done|]. unfold ddFileSegSize. change 4096 with (S 4095). done.
Qed.

Section healthz_facts.
Context {Rd : Redis} (SHA256 : string → string).

(** An artifact that is served whole is the file: the header carries its
    size and hash, the segments are its content, none empty and none above the
    segment size, and the trailer ends them.  Only files whose cleaned name
    starts with /tmp/dump are served, in whole or in part, and serving changes
    no file. *)
Theorem artifact_served sends read_fail seek_ok file w :
  let '(w', (out, e)) := Artifact SHA256 sends read_fail seek_ok file w in
  fs w' = fs w ∧
  (out ≠ [] → HasPrefix (Clean file) allowedDir = true) ∧
  (e = None → ∃ data segs, (ReadFile (path_Join "/mnt/host" (Clean file)) w).2 = Ok data ∧
     out = Header (describe SHA256 file data) :: (Bytes <$> segs) ++ [Trailer] ∧
     Join segs "" = data ∧ Forall (λ x, x ≠ "" ∧ String.length x ≤ ddFileSegSize) segs).
Proof.
  unfold Artifact, artifact_path. destruct (HasPrefix (Clean file) allowedDir) eqn:Hp; [|done]. unfold mbind, ST_bind.
  pose proof (ReadFile_fs (path_Join "/mnt/host" (Clean file)) w) as Hf.
  destruct (ReadFile (path_Join "/mnt/host" (Clean file)) w) as [w' [data|err]]; [|by destruct err]. simpl in Hf.
  destruct seek_ok; [|done]. cbn [negb]. unfold send_all.
  set (segs := segments (String.length data) data).
  assert (Join segs "" = data) as Hj by (by apply segments_join).
  assert (Forall (λ x, x ≠ "" ∧ String.length x ≤ ddFileSegSize) segs) as Hs by apply segments_size.
  case_bool_decide as Hlen; cbn [negb]; (split; [done|]; split; [done|]); [|done].
  intros He. exists data, segs. split; [done|]. split; [|done]. rewrite take_ge by lia.
  destruct read_fail as [i|]; [|done]. case_bool_decide; done.
Qed.
End healthz_facts.

Section debug_rpc_facts.
Context (A : AuthEnv) (now : Z) (cfg : AuthConfig).
Context (Parse : string → option File) (runCommand : string → Z → string → CommandRun).

(** The Debug RPC runs a command only for a request that passes, and for
    one without write access only pipelines of commands on the read
    whitelist. *)
Theorem debug_by_role whitelists r req send_ok a a' out e :
  Debug_rpc A now cfg Parse runCommand whitelists r req send_ok a = (a', (out, e)) → out ≠ [] →
  passes A now cfg r false a = true ∧
  ∃ dr command ast, req = Some dr ∧ dr_command dr = Some command ∧ Parse command = Some ast ∧ ast ≠ [] ∧
    Forall (pipeline (if passes A now cfg r true (check_request A now cfg r false a).1 then whitelists.2 else whitelists.1)) ast.
Proof.
  unfold Debug_rpc, passes, mbind, ST_bind. destruct (check_request A now cfg r false a) as [a1 [[]|e1]]; [|by intros [= <- <- <-]].
  cbn [fst snd]. destruct (check_request A now cfg r true a1) as [a2 e2]. cbn [snd]. intros [= <- Hh] Hne. split; [done|].
  unfold HandleCommandRequest in Hh. destruct req as [dr|]; [|by injection Hh as <- _].
  destruct (dr_command dr) as [command|] eqn:Hc; [|by injection Hh as <- _].
  destruct (ValidateCommand Parse command _) eqn:Hv; [by injection Hh as <- _|].
  apply validated_spec in Hv as (ast & Hp & Hast & Hf). by exists dr, command, ast.
Qed.
End debug_rpc_facts.

(** ** Concrete requests *)
Module HealthzExample.
#[local] Instance host_db : Redis := map_redis.
Definition w0 : World := {| fs := {[ "/mnt/host/tmp/dump/a" := Reg "data"; "/mnt/host/tmp/dumpling" := Reg "x" ]};
  db := (∅ : gmap string (gmap string string)); faults := [] |}.
Definition sha (s : string) : string := "sha:" +:+ s.

(** Nobody is asked who he is, and the directory is checked as a prefix. *)
Example artifact_to_anyone :
  (Artifact sha 9 None true "/tmp/dump/a" w0).2 = ([Header (describe sha "/tmp/dump/a" "data"); Bytes "data"; Trailer], None) ∧
  (Artifact sha 9 None true "/tmp/x/../dumpling" w0).2.2 = None.
Proof. vm_compute. done. Qed.

Definition parse0 (s : string) : option File := Some [DebugExample.call ["ls"]].
Definition run0 (role : string) (limit : Z) (cmd : string) : CommandRun := {| run_output := []; run_exit := Ok 0%Z |}.
Definition anyone : AuthEnv := {| lookup_roles _ := None; UserPwAuth _ _ := false; parse_token _ := None;
  Get_entry _ _ := ∅; CheckChainRevocation _ _ := true; fetch _ := None |}.
Definition open_cfg : AuthConfig := {| UserAuth := ∅; ConfigTableName := ""; EnableCrl := false |}.
Definition req0 : Request := {| req_peer := None; req_md := None |}.
Definition a0 : AuthState := {| info := new_info; CrlCache := ∅ |}.

Lemma debug_by_role_witness :
  passes anyone 0 open_cfg req0 false a0 = true ∧
  ∃ dr command ast, Some DebugExample.req0 = Some dr ∧ dr_command dr = Some command ∧ parse0 command = Some ast ∧ ast ≠ [] ∧
    Forall (pipeline (if passes anyone 0 open_cfg req0 true (check_request anyone 0 open_cfg req0 false a0).1
                      then (ConstructWhitelists None).2 else (ConstructWhitelists None).1)) ast.
Proof.
  eapply (debug_by_role anyone 0 open_cfg parse0 run0 (ConstructWhitelists None) req0 (Some DebugExample.req0) true a0).
  - vm_compute. reflexivity.
  - discriminate.
Defined.
End HealthzExample.
