(* ===== verification/GnoiSystem.v ===== *)
(** * The System, reset, containerz and SONiC services of gNOI

    src/gnmi_server/gnoi_system.go, gnoi_reset.go, gnoi_containerz.go, gnoi.go,
    src/pkg/gnoi/system/system.go and src/common_utils/notification_producer.go.

    Reboots go to the reboot backend of the switch as a notification that is
    answered by another; packages are installed by commands on the host;
    containers, resets and processes go through D-Bus; the SONiC actions through
    translib. *)
From stdpp Require Import base gmap list strings.
From S2P Require Import Prelude GoStrings Gnmi World Dbus Auth HostExec Gnoi Transl.

(** ** Notifications *)

Section notifications.
Context {MR : MapRange}.

(** The list [Send] publishes: the fields in the order the map is iterated. *)
Definition notification (op data : string) (kvs : gmap string string) : list string :=
  [op; data] ++ flat_map (λ kv, [kv.1; kv.2]) (map_range kvs).

(** Field-value pairs of a payload, a later one replacing an earlier. *)
Fixpoint field_values (l : list string) : gmap string string → gmap string string :=
  match l with
  | k :: v :: l => λ m, field_values l (<[k := v]> m)
  | _ => λ m, m
  end.

(** [payload]: the decoded JSON list, or the error of decoding. *)
Definition processMsgPayload (payload : option (list string)) : res string (string * string * gmap string string) :=
  match payload with
  | None => Err "json"
  | Some payload =>
      match payload with
      | op :: data :: rest =>
          if Nat.even (length payload) then Ok (op, data, field_values rest ∅) else Err "Payload is malformed"
      | _ => Err "Payload is malformed"
      end
  end.
End notifications.

(** ** Reboot *)

Inductive RebootMethod := UNKNOWN | COLD | POWERDOWN | HALT | WARM | NSF | POWERUP.

Global Instance RebootMethod_eq_dec : EqDecision RebootMethod.
Proof. solve_decision. Defined.

Record RebootRequest := { rb_method : RebootMethod; rb_delay : Z; rb_subcomponents : nat }.

Definition ValidateRebootRequest (req : RebootRequest) : option string :=
  if bool_decide (rb_method req = UNKNOWN) || bool_decide (rb_method req = POWERUP)
  then Some "Invalid request: reboot method is not supported."
  else if bool_decide (0 < rb_delay req)%Z then Some "Invalid request: reboot is not immediate."
  else None.

Definition rebootKey : string := "Reboot".
Definition rebootStatusKey : string := "RebootStatus".
Definition rebootCancelKey : string := "CancelReboot".
Definition dataMsgFld : string := "MESSAGE".

(** The channel to the backend as one request finds it: errors of the steps
    that set it up and of the publication, and the payloads that arrive before
    the time is up. *)
Record Backend := {
  bk_redis : option string;
  bk_producer : option string;
  bk_subscribe : option string;
  bk_send : option string;
  bk_replies : list (option (list string))
}.

(** The wait for the answer: [tErr] is what the time-out will report. *)
Fixpoint wait_reply (key : string) (tErr : option (Code * string)) (replies : list (option (list string)))
  : status_res string :=
  match replies with
  | [] => Err (default (Internal, "Response Notification timeout from Reboot Backend!") tErr)
  | pload :: replies =>
      match processMsgPayload pload with
      | Err e => Err (Internal, "Error while receiving Response Notification")
      | Ok (op, data, fvs) =>
          if bool_decide (op ≠ key) then wait_reply key (Some (Internal, "Op doesn't match")) replies
          else
            let msgDataStr := default "" (fvs !! dataMsgFld) in
            match SwssToErrorCode data with
            | Some c => Err (c, "Response Notification returned SWSS Error code")
            | None => Ok msgDataStr
            end
      end
  end.

(** What is published, and the message of the answer. *)
Definition sendRebootReqOnNotifCh {MR : MapRange} (b : Backend) (reqStr : option string) (key : string)
  : list (list string) * status_res string :=
  match bk_producer b, bk_subscribe b with
  | Some e, _ => ([], Err (Internal, e))
  | None, Some e => ([], Err (Internal, e))
  | None, None =>
      match reqStr with
      | None => ([], Err (Internal, "json"))
      | Some reqStr =>
          match bk_send b with
          | Some e => ([], Err (Internal, e))
          | None => ([notification key "" {[ dataMsgFld := reqStr ]}], wait_reply key None (bk_replies b))
          end
      end
  end.

Section system.
Context {MR : MapRange} {Bu : Bus}.
Context {H : Type} (exec_Run : Exec → H → H * Outcome).

(** [HandleDPUReboot]: whatever the command's outcome. *)
Definition HandleDPUReboot (dpuIndex : string) : ST H (status_res ()) :=
  r ← RunHostCommand exec_Run "reboot" ["-d"; "DPU" +:+ dpuIndex] None;
  mret (match r with
        | Err e => Err (Unknown, "failed to execute DPU reboot command")
        | Ok _ => Ok ()
        end).

Definition HandleReboot (r : Request) : ST H (status_res ()) :=
  let tm := ExtractTargetMetadata r in
  if IsDPUTarget tm then HandleDPUReboot (TargetIndex tm)
  else mret (Err (Unimplemented, "local reboot should be handled in server wrapper")).

(** The notifications that were published, and the answer. *)
Definition Reboot (b : Backend) (reqStr : option string) (r : Request) (req : RebootRequest)
  : ST H (list (list string) * status_res ()) :=
  match ValidateRebootRequest req with
  | Some e => mret ([], Err (InvalidArgument, e))
  | None =>
      resp ← HandleReboot r;
      match resp with
      | Ok _ => mret ([], Ok ())
      | Err e =>
          if bool_decide (e.1 ≠ Unimplemented) then mret ([], Err e)
          else match bk_redis b with
          | Some e => mret ([], Err (Internal, e))
          | None =>
              if bool_decide (0 < rb_subcomponents req) then mret ([], Ok ())
              else
                let '(published, x) := sendRebootReqOnNotifCh b reqStr rebootKey in
                mret (published, match x with Ok _ => Ok () | Err e => Err e end)
          end
      end
  end.

(** The message decodes to a response, or does not. *)
Definition RebootStatus {X} (b : Backend) (reqStr : option string) (unmarshal : string → option X)
  : list (list string) * status_res X :=
  match bk_redis b with
  | Some e => ([], Err (Internal, e))
  | None =>
      let '(published, x) := sendRebootReqOnNotifCh b reqStr rebootStatusKey in
      (published, match x with
                  | Err e => Err (Internal, e.2)
                  | Ok msgData =>
                      if bool_decide (msgData = "") then Err (Internal, "Received empty RebootStatusResponse")
                      else of_option (Internal, "Cannot unmarshal the response") (unmarshal msgData)
                  end)
  end.

Definition CancelReboot (b : Backend) (reqStr : option string) : list (list string) * status_res () :=
  match bk_redis b with
  | Some e => ([], Err (Internal, e))
  | None =>
      let '(published, x) := sendRebootReqOnNotifCh b reqStr rebootCancelKey in
      (published, match x with Err e => Err (Internal, e.2) | Ok _ => Ok () end)
  end.

(** ** Packages *)

Record Package := { Filename : string; pkg_version : string; Activate : bool; pkg_remote : bool }.

Definition installer (args : list string) (timeout : Z) (what : string) : ST H (option string) :=
  r ← RunHostCommand exec_Run "sonic-installer" args (Some {| Timeout := timeout; Namespaces := []; WorkingDir := ""; Environment := [] |});
  mret (match r with
        | Err e => Some ("failed to run sonic-installer " +:+ what)
        | Ok r => if hr_failed r then Some ("sonic-installer " +:+ what +:+ " failed") else None
        end).
Definition installPackage (filename : string) : ST H (option string) :=
  installer ["install"; "-y"; filename] (10 * 60 * 1000000000) "install".
Definition activatePackage (version : string) : ST H (option string) :=
  installer ["set-default"; version] (2 * 60 * 1000000000) "set-default".

(** [None]: a message of another kind. *)
Definition HandleSetPackage (req : option Package) : ST H (status_res ()) :=
  match req with
  | None => mret (Err (InvalidArgument, "invalid request type"))
  | Some pkg =>
      if bool_decide (Filename pkg = "") then mret (Err (InvalidArgument, "filename is missing in package request"))
      else if bool_decide (pkg_version pkg = "") then mret (Err (InvalidArgument, "version is missing in package request"))
      else if pkg_remote pkg then mret (Err (InvalidArgument, "remote download is not supported, image must be local"))
      else if negb (HasPrefix (Filename pkg) "/") then mret (Err (InvalidArgument, "filename must be an absolute path"))
      else
        try_ (installPackage (Filename pkg)) (λ _, mret (Err (Internal, "failed to install package")))
          (if Activate pkg then
             try_ (activatePackage (pkg_version pkg)) (λ _, mret (Err (Internal, "failed to activate package"))) (mret (Ok ()))
           else mret (Ok ()))
  end.

Definition HandleSetPackageStream (msg : recv (option Package)) (send_ok : bool) : ST H (status_res ()) :=
  match msg with
  | RMsg req =>
      r ← HandleSetPackage req;
      mret (match r with Err e => Err e | Ok _ => if send_ok then Ok () else Err (Unknown, "SendAndClose") end)
  | _ => mret (Err (Unknown, "recv"))
  end.

(** ** Processes, resets and containers, over D-Bus *)

Inductive KillSignal := SIGNAL_UNSPECIFIED | SIGNAL_TERM | SIGNAL_KILL | SIGNAL_HUP | SIGNAL_ABRT.
Global Instance KillSignal_eq_dec : EqDecision KillSignal.
Proof. solve_decision. Defined.

Definition KillOrRestartProcess (restart : bool) (serviceName : string) : ST DState (option string) :=
  if restart then RestartService NewDbusClient serviceName else StopService NewDbusClient serviceName.

Definition KillProcess (name : string) (restart : bool) (pid : Z) (signal : KillSignal) : ST DState (status_res ()) :=
  if bool_decide (pid ≠ 0%Z) then mret (Err (Unimplemented, "Pid option is not implemented"))
  else if bool_decide (signal ≠ SIGNAL_TERM) then mret (Err (Unimplemented, "KillProcess only supports SIGNAL_TERM"))
  else
    e ← KillOrRestartProcess restart name;
    mret (match e with Some e => Err (Unknown, e) | None => Ok () end).

Definition reset_Start {X} (reqStr : option string) (unmarshal : string → option X) : ST DState (status_res X) :=
  match reqStr with
  | None => mret (Err (Internal, "Cannot marshal the StartRequest"))
  | Some reqStr =>
      r ← FactoryReset NewDbusClient reqStr;
      mret (match r with
            | Err e => Err (Internal, "Backend error")
            | Ok respStr => of_option (Internal, "Cannot unmarshal backend response") (unmarshal respStr)
            end)
  end.

Record Remote := { rm_path : string; rm_protocol : string; rm_user : string; rm_password : string }.
Record ImageTransfer := { it_name : string; it_tag : string; it_remote : option Remote }.

Inductive DeployRequest := ImageTransferReq (t : ImageTransfer) | DeployOther.

(** Host, path, user, password and protocol of a download; all empty without
    one. *)
Definition download_of (t : ImageTransfer) : status_res (string * string * string * string * string) :=
  match it_remote t with
  | None => Ok ("", "", "", "", "")
  | Some rd =>
      match SplitN2 (rm_path rd) ":" with
      | [hostname; remotePath] => Ok (hostname, remotePath, rm_user rd, rm_password rd, rm_protocol rd)
      | _ => Err (InvalidArgument, "invalid remote download path")
      end
  end.

Definition deploy_path (t : ImageTransfer) (randomSuffix : string) : string :=
  "/tmp/" +:+ it_name t +:+ "-" +:+ randomSuffix +:+ ".tar".

(** [randomSuffix]: six random bytes in hexadecimal, when they could be had. *)
Definition Deploy (msg : recv DeployRequest) (randomSuffix : option string) (send_ok : bool) : ST DState (status_res ()) :=
  match msg with
  | RMsg (ImageTransferReq t) =>
      match download_of t with
      | Err e => mret (Err e)
      | Ok (hostname, remotePath, username, password, protocol) =>
          match randomSuffix with
          | None => mret (Err (Internal, "failed to generate random suffix"))
          | Some suffix =>
              let localPath := deploy_path t suffix in
              try_ (DownloadFile NewDbusClient hostname username password remotePath localPath protocol)
                (λ _, mret (Err (Internal, "failed to download file")))
                (try_ (LoadDockerImage NewDbusClient localPath)
                  (λ _, mret (Err (Internal, "failed to load docker image")))
                  (try_ (RemoveFile NewDbusClient localPath)
                    (λ _, mret (Err (Internal, "failed to remove local file")))
                    (mret (if send_ok then Ok () else Err (Internal, "failed to send DeployResponse")))))
          end
      end
  | RMsg _ => mret (Err (InvalidArgument, "first DeployRequest must be ImageTransfer"))
  | _ => mret (Err (InvalidArgument, "failed to receive DeployRequest"))
  end.

(** ** The RPCs *)
Section rpcs.
Context (A : AuthEnv) (now : Z) (cfg : AuthConfig).

(** Each answer with what the handler published. *)
Definition with_answer {X} (x : list (list string) * status_res X) : status_res (list (list string) * X) :=
  match x.2 with Ok v => Ok (x.1, v) | Err e => Err e end.

Definition Reboot_rpc (b : Backend) (reqStr : option string) (r : Request) (req : RebootRequest)
  : ST (AuthState * H) (status_res (list (list string) * ())) :=
  authed A now cfg r true (x ← Reboot b reqStr r req; mret (with_answer x)).
Definition RebootStatus_rpc {X} (b : Backend) (reqStr : option string) (unmarshal : string → option X) (r : Request)
  : ST (AuthState * H) (status_res (list (list string) * X)) :=
  authed A now cfg r true (mret (with_answer (RebootStatus b reqStr unmarshal))).
Definition CancelReboot_rpc (b : Backend) (reqStr : option string) (r : Request)
  : ST (AuthState * H) (status_res (list (list string) * ())) :=
  authed A now cfg r true (mret (with_answer (CancelReboot b reqStr))).
(** The status of a failed authentication is replaced. *)
Definition SetPackage_rpc (r : Request) (msg : recv (option Package)) (send_ok : bool)
  : ST (AuthState * H) (status_res ()) := λ s,
  let '(a, e) := check_request A now cfg r true s.1 in
  match e with
  | Err _ => ((a, s.2), Err (PermissionDenied, "authentication failed"))
  | Ok _ => let '(h, x) := HandleSetPackageStream msg send_ok s.2 in ((a, h), x)
  end.
Definition KillProcess_rpc (r : Request) (name : string) (restart : bool) (pid : Z) (signal : KillSignal) :=
  authed A now cfg r true (KillProcess name restart pid signal).
Definition Start_rpc {X} (r : Request) (reqStr : option string) (unmarshal : string → option X) :=
  authed A now cfg r false (reset_Start reqStr unmarshal).
Definition Deploy_rpc (r : Request) (msg : recv DeployRequest) (randomSuffix : option string) (send_ok : bool) :=
  authed A now cfg r true (Deploy msg randomSuffix send_ok).
Definition Ping_rpc (r : Request) : ST (AuthState * H) (status_res ()) :=
  authed A now cfg r true (mret (Err (Unimplemented, "Method system.Ping is unimplemented."))).
Definition Traceroute_rpc (r : Request) : ST (AuthState * H) (status_res ()) :=
  authed A now cfg r true (mret (Err (Unimplemented, "Method system.Traceroute is unimplemented."))).
Definition SwitchControlProcessor_rpc (r : Request) : ST (AuthState * H) (status_res ()) :=
  authed A now cfg r true (mret (Ok ())).
Definition Time_rpc (r : Request) : ST (AuthState * H) (status_res Z) :=
  authed A now cfg r false (mret (Ok (now mod 2 ^ 64)%Z)).
End rpcs.
End system.

(** ** Actions of translib (src/gnmi_server/gnoi.go) *)
Section actions.
Context {T : Translib} (A : AuthEnv) (now : Z) (cfg : AuthConfig).

(** The handlers differ in the action and the access they ask for.  [reqstr]
    is the JSON of the request, [decode] reads the answer.  The context that
    [authenticate] returned goes on to translib. *)
Definition action {X} (writeAccess : bool) (uri : string) (r : Request) (reqstr : option string) (decode : string → option X)
  : ST (AuthState * TL) (status_res X) := λ s,
  let '(a, e) := check_request A now cfg r writeAccess s.1 in
  match e with
  | Err e => ((a, s.2), Err e)
  | Ok _ =>
      match reqstr with
      | None => ((a, s.2), Err (Unknown, "json"))
      | Some reqstr =>
          let '(t, x) := TranslProcessAction uri (Some reqstr) (Some {| Auth_ := info a; BundleVersion := None |}) s.2 in
          ((a, t), match x with
                   | Err _ => Err (Unknown, "action")
                   | Ok jsresp => of_option (Unknown, "json") (decode jsresp)
                   end)
      end
  end.

Definition ClearNeighbors {X} := action (X := X) true "/sonic-neighbor:clear-neighbors".
Definition CopyConfig {X} := action (X := X) true "/sonic-config-mgmt:copy".
Definition ShowTechsupport {X} := action (X := X) false "/sonic-show-techsupport:sonic-show-techsupport-info".
Definition ImageInstall {X} := action (X := X) true "/sonic-image-management:image-install".
Definition ImageRemove {X} := action (X := X) true "/sonic-image-management:image-remove".
Definition ImageDefault {X} := action (X := X) true "/sonic-image-management:image-default".
End actions.

(** ** Tokens (gnoi.go, jwtAuth.go) *)

Record JwtToken := { AccessToken : string; Type_ : string; ExpiresIn : Z }.

Section tokens.
Context (A : AuthEnv) (now : Z) (cfg : AuthConfig).
(** A signed token for a user, his roles and a time of expiry in seconds, and
    the time of expiry a token carries. *)
Context (generateJWT : string → list string → Z → string) (token_expiry : string → Z).
Context (JwtValidInt JwtRefreshInt : Z).

Definition second : Z := 1000000000.

Definition tokenResp (username : string) (roles : list string) : JwtToken :=
  {| AccessToken := generateJWT username roles ((now + JwtValidInt) / second)%Z; Type_ := "Bearer";
     ExpiresIn := Z.quot JwtValidInt second |}.

Definition Authenticate (username password : string) : status_res JwtToken :=
  if negb (Enabled (UserAuth cfg) "jwt") then Err (Unimplemented, "")
  else if UserPwAuth A username password then
    match lookup_roles A username with
    | Some roles => Ok (tokenResp username roles)
    | None => Err (PermissionDenied, "Invalid Username or Password")
    end
  else Err (PermissionDenied, "Invalid Username or Password").

Definition Refresh (r : Request) : ST AuthState (status_res JwtToken) :=
  e ← check_request A now cfg r true;
  match e with
  | Err e => mret (Err e)
  | Ok _ =>
      if negb (Enabled (UserAuth cfg) "jwt") then mret (Err (Unimplemented, ""))
      else
        e ← JwtAuthenAndAuthor A r;
        match e with
        | Err e => mret (Err e)
        | Ok _ =>
            let token := default "" (md_first r "access_token") in
            if bool_decide (JwtRefreshInt < token_expiry token * second - now)%Z then
              mret (Err (InvalidArgument, "Invalid JWT Token"))
            else mret (match parse_token A token with
                       | Some (username, roles) => Ok (tokenResp username roles)
                       | None => Ok (tokenResp "" [])
                       end)
        end
  end.
End tokens.
