(* ===== verification/GnoiSystemFacts.v ===== *)
(** * Facts about the System, reset, containerz and SONiC services

    Notifications survive their encoding; a reboot is answered by the first
    reply that concerns it; packages are activated after their installation
    only; requests without write access change nothing; tokens that were handed
    out authenticate their user. *)
From stdpp Require Import base gmap list strings.
From S2P Require Import Prelude GoStrings Gnmi World Dbus Auth HostExec Gnoi Transl GnoiSystem.

(** ** Notifications *)

Lemma field_values_pairs l (m : gmap string string) :
  NoDup l.*1 → (∀ k v, (k, v) ∈ l → m !! k = None) →
  ∀ k, field_values (flat_map (λ kv : string * string, [kv.1; kv.2]) l) m !! k =
       match (list_to_map l : gmap string string) !! k with Some v => Some v | None => m !! k end.
Proof.
  revert m. induction l as [|[k0 v0] l IH]; intros m Hnd Hm k; [done|]. simpl in *. apply NoDup_cons in Hnd as [Hk0 Hnd].
  rewrite IH; [|done|].
  - destruct (decide (k = k0)) as [->|Hne].
    + rewrite !lookup_insert_eq. assert ((list_to_map l : gmap string string) !! k0 = None) as ->; [by apply not_elem_of_list_to_map_1|done].
    + by rewrite !lookup_insert_ne.
  - intros k1 v1 H1. rewrite lookup_insert_ne; [eapply Hm; right; eauto|]. intros ->. apply Hk0. apply list_elem_of_fmap. by exists (k1, v1).
Qed.

Lemma notification_fields `{MapRange} (kvs : gmap string string) :
  field_values (flat_map (λ kv : string * string, [kv.1; kv.2]) (map_range kvs)) ∅ = kvs.
Proof.
  apply map_eq. intros k. rewrite field_values_pairs; [|apply NoDup_map_range_fst|done]. rewrite lookup_empty.
  destruct (kvs !! k) as [v|] eqn:Hk.
  - apply elem_of_map_range in Hk. apply (elem_of_list_to_map_1 (M := gmap string)) in Hk; [by rewrite Hk|apply NoDup_map_range_fst].
  - assert ((list_to_map (map_range kvs) : gmap string string) !! k = None) as ->; [|done].
    apply not_elem_of_list_to_map_1. intros ((k' & v) & -> & Hv)%list_elem_of_fmap. apply elem_of_map_range in Hv. simpl in Hk. congruence.
Qed.

Lemma even_pairs (l : list (string * string)) : Nat.even (length (flat_map (λ kv, [kv.1; kv.2]) l)) = true.
Proof. induction l as [|kv l IH]; [done|]. exact IH. Qed.

(** A notification that a producer sends is read back as it was: the same
    operation, data and fields, in whatever order the producer's map was
    iterated. *)
Theorem notification_roundtrip `{MapRange} op data kvs :
  processMsgPayload (Some (notification op data kvs)) = Ok (op, data, kvs).
Proof.
  unfold processMsgPayload, notification. cbn [app]. rewrite notification_fields.
  cbn [length Nat.even]. by rewrite even_pairs.
Qed.

(** ** Reboots *)

(** A reply ends the wait when it concerns the request or cannot be read. *)
Definition decisive (key : string) (p : option (list string)) : bool :=
  match processMsgPayload p with Ok (op, _, _) => bool_decide (op = key) | Err _ => true end.

Definition answer_of (p : option (list string)) : status_res string :=
  match processMsgPayload p with
  | Err _ => Err (Internal, "Error while receiving Response Notification")
  | Ok (_, data, fvs) =>
      match SwssToErrorCode data with
      | Some c => Err (c, "Response Notification returned SWSS Error code")
      | None => Ok (default "" (fvs !! dataMsgFld))
      end
  end.

Lemma wait_reply_spec key t replies :
  wait_reply key t replies =
  match List.find (decisive key) replies with
  | Some p => answer_of p
  | None => Err (if bool_decide (replies = []) then default (Internal, "Response Notification timeout from Reboot Backend!") t
                 else (Internal, "Op doesn't match"))
  end.
Proof.
  revert t. induction replies as [|p replies IH]; intros t; [done|]. cbn [wait_reply List.find]. unfold decisive at 1.
  destruct (processMsgPayload p) as [[[op data] fvs]|e] eqn:Hp.
  - destruct (decide (op = key)) as [->|Hop].
    + rewrite bool_decide_false, bool_decide_true by auto. unfold answer_of. by rewrite Hp.
    + rewrite bool_decide_true, (bool_decide_false (op = key)) by done. rewrite IH.
      destruct (List.find _ replies); [done|]. by destruct replies.
  - unfold answer_of. by rewrite Hp.
Qed.

Section system_facts.
Context {MR : MapRange} {Bu : Bus} {H : Type} (exec_Run : Exec → H → H * Outcome).

(** A local reboot is published once and answered by the first reply that
    concerns it: replies to other operations are passed over, the status of
    the switch becomes the status of the RPC, and silence is an error. *)
Theorem reboot_answered b reqStr r req h :
  ValidateRebootRequest req = None → IsDPUTarget (ExtractTargetMetadata r) = false →
  bk_redis b = None → bk_producer b = None → bk_subscribe b = None → bk_send b = None → rb_subcomponents req = 0 →
  Reboot exec_Run b (Some reqStr) r req h =
  (h, ([notification rebootKey "" {[ dataMsgFld := reqStr ]}],
       match List.find (decisive rebootKey) (bk_replies b) with
       | Some p => match answer_of p with Ok _ => Ok () | Err e => Err e end
       | None => Err (Internal, if bool_decide (bk_replies b = []) then "Response Notification timeout from Reboot Backend!" else "Op doesn't match")
       end)).
Proof.
  intros Hv Ht H1 H2 H3 H4 H5. unfold Reboot, HandleReboot, sendRebootReqOnNotifCh. rewrite Hv, Ht, H1, H2, H3, H4, H5.
  unfold mbind, ST_bind, mret, ST_ret. rewrite bool_decide_false by auto. rewrite bool_decide_false by lia.
  rewrite wait_reply_spec. by destruct (List.find _ _), (bool_decide (bk_replies b = [])).
Qed.

(** *** Packages *)

(** The runs of sonic-installer. *)
Definition installer_run (args : list string) (timeout : Z) : Exec :=
  {| ex_timeout := timeout; ex_dir := ""; ex_env := [];
     ex_argv := "nsenter" :: buildNsenterArgs no_options "sonic-installer" args |}.
Definition install_run (p : Package) : Exec := installer_run ["install"; "-y"; Filename p] (10 * 60 * 1000000000).
Definition activate_run (p : Package) : Exec := installer_run ["set-default"; pkg_version p] (2 * 60 * 1000000000).

Definition succeeded (o : Outcome) : bool := match o with Exited c _ _ => bool_decide (c = 0%Z) | NotRun _ _ _ => false end.

Lemma installer_spec args timeout what h :
  (0 < timeout)%Z →
  installer exec_Run args timeout what h =
  let '(h', o) := exec_Run (installer_run args timeout) h in
  (h', if succeeded o then None else Some ("sonic-installer " +:+ what +:+ " failed")).
Proof.
  intros Ht. unfold installer, RunHostCommand, mbind, ST_bind. rewrite bool_decide_false by done. cbn [default from_option id Timeout WorkingDir Environment].
  rewrite bool_decide_false by lia. unfold installer_run.
  destruct (exec_Run _ h) as [h' [c o e|? o e]]; cbn; [|done]. destruct (decide (c = 0%Z)) as [->|Hc]; [done|].
  rewrite bool_decide_true, bool_decide_false by done. done.
Qed.

Definition package_ok (p : Package) : Prop :=
  Filename p ≠ "" ∧ pkg_version p ≠ "" ∧ pkg_remote p = false ∧ HasPrefix (Filename p) "/" = true.

(** SetPackage runs commands for a well-formed local package only: first the
    installation, and when it succeeded and activation is asked for, the
    choice of the next boot image; it answers success exactly when the
    commands that were to run succeeded. *)
Theorem package_installed req h :
  HandleSetPackage exec_Run req h =
  match req with
  | Some p =>
      if bool_decide (Filename p = "") then (h, Err (InvalidArgument, "filename is missing in package request"))
      else if bool_decide (pkg_version p = "") then (h, Err (InvalidArgument, "version is missing in package request"))
      else if pkg_remote p then (h, Err (InvalidArgument, "remote download is not supported, image must be local"))
      else if HasPrefix (Filename p) "/" then
        let '(h1, o1) := exec_Run (install_run p) h in
        if negb (succeeded o1) then (h1, Err (Internal, "failed to install package"))
        else if negb (Activate p) then (h1, Ok ())
        else let '(h2, o2) := exec_Run (activate_run p) h1 in
             (h2, if succeeded o2 then Ok () else Err (Internal, "failed to activate package"))
      else (h, Err (InvalidArgument, "filename must be an absolute path"))
  | None => (h, Err (InvalidArgument, "invalid request type"))
  end.
Proof.
  destruct req as [p|]; [|done]. unfold HandleSetPackage. do 2 (case_bool_decide; [done|]). destruct (pkg_remote p); [done|].
  destruct (HasPrefix (Filename p) "/"); [|done]. cbn [negb]. unfold try_, mbind, ST_bind, installPackage.
  rewrite installer_spec by done. fold (install_run p). destruct (exec_Run (install_run p) h) as [h1 o1].
  destruct (succeeded o1); [|done]. cbn [negb]. destruct (Activate p); [|done]. cbn [negb]. unfold activatePackage.
  rewrite installer_spec by done. fold (activate_run p). destruct (exec_Run (activate_run p) h1) as [h2 o2]. by destruct (succeeded o2).
Qed.

(** *** Access *)
Context (A : AuthEnv) (now : Z) (cfg : AuthConfig) {T : Translib}.

(** A request without write access changes nothing: none of the RPCs that
    reboot, install, kill, deploy or act through translib runs a command, calls
    the host service or the library for it, and each answers an error. *)
Theorem write_access_needed {X} r a (h : H) (ds : DState) (t : TL) b reqStr req msg send_ok name restart pid signal dmsg suffix
    uri (decode : string → option X) :
  passes A now cfg r true a = false →
  let unchanged {S Y} (s : S) (x : (AuthState * S) * status_res Y) := x.1.2 = s ∧ is_ok x.2 = false in
  unchanged h (Reboot_rpc exec_Run A now cfg b reqStr r req (a, h)) ∧
  unchanged h (SetPackage_rpc exec_Run A now cfg r msg send_ok (a, h)) ∧
  unchanged ds (KillProcess_rpc A now cfg r name restart pid signal (a, ds)) ∧
  unchanged ds (Deploy_rpc A now cfg r dmsg suffix send_ok (a, ds)) ∧
  unchanged t (action A now cfg true uri r reqStr decode (a, t)).
Proof.
  intros Hp. cbv zeta.
  assert (∀ S Y (m : ST S (status_res Y)) s, (authed A now cfg r true m (a, s)).1.2 = s ∧ is_ok (authed A now cfg r true m (a, s)).2 = false) as Ha.
  { intros S Y m s. destruct (authed_spec A now cfg r true m a s) as (H1 & _ & H3). rewrite Hp in H1. auto. }
  unfold Reboot_rpc, KillProcess_rpc, Deploy_rpc, SetPackage_rpc, action, passes in *. cbn [fst snd].
  split_and!; try apply Ha; by destruct (check_request A now cfg r true a) as [a' [[]|e]].
Qed.

(** What the SONiC actions ask of translib they ask in the name of the
    authenticated user: when an action reaches the library the request has
    passed, and the call carries the user, his roles and whether he was
    authenticated, with the payload of the request. *)
Theorem action_in_users_name {X} wa uri r payload (decode : string → option X) a (t : TL) :
  passes A now cfg r wa a = true →
  let '((a', t'), _) := action A now cfg wa uri r (Some payload) decode (a, t) in
  a' = (check_request A now cfg r wa a).1 ∧
  t' = (tl_Action {| tr_path := uri; tr_payload := Some payload;
                     tr_user := {| ur_name := User (info a'); ur_roles := Roles (info a') |};
                     tr_auth := AuthEnabled (info a'); tr_version := None |} t).1.
Proof.
  unfold passes, action. cbn [fst snd]. destruct (check_request A now cfg r wa a) as [a' [[]|e]]; cbn; [|done]. intros _.
  unfold mbind, ST_bind, user_of. cbn. match goal with |- context [tl_Action ?q t] => destruct (tl_Action q t) as [t' x] eqn:E end.
  cbn. by rewrite E.
Qed.
End system_facts.

(** ** Tokens *)
Section token_facts.
Context (A : AuthEnv) (now : Z) (cfg : AuthConfig) (generateJWT : string → list string → Z → string) (JwtValidInt : Z).

(** The library accepts a token that it signed for a user until it expires, with
    the claims it was made of. *)
Definition signs_and_parses : Prop :=
  ∀ u roles exp, lookup_roles A u = Some roles → (now < exp * second)%Z → parse_token A (generateJWT u roles exp) = Some (u, roles).

(** A token that Authenticate hands out authenticates its user: while it is
    valid, a request that carries it passes the token method and acts as that
    user with the roles of his account. *)
Theorem token_authenticates u pw tok r md s :
  signs_and_parses → (2 * second ≤ JwtValidInt)%Z →
  Authenticate A now cfg generateJWT JwtValidInt u pw = Ok tok →
  req_md r = Some md → md !! "access_token" = Some [AccessToken tok] →
  ∃ roles s', lookup_roles A u = Some roles ∧ JwtAuthenAndAuthor A r s = (s', Ok ()) ∧
              User (info s') = u ∧ Roles (info s') = roles.
Proof.
  intros Hlaw Hvalid. unfold Authenticate. destruct (negb _); [done|]. destruct (UserPwAuth A u pw); [|done].
  destruct (lookup_roles A u) as [roles|] eqn:Hl; [|done]. intros [= <-] Hmd Htok.
  unfold JwtAuthenAndAuthor, md_first. rewrite Hmd. simpl. rewrite Htok. simpl. rewrite (Hlaw u roles).
  2: { done. }
  2: { unfold second in *. pose proof (Z.div_mod (now + JwtValidInt) 1000000000). pose proof (Z.mod_pos_bound (now + JwtValidInt) 1000000000). lia. }
  unfold PopulateAuthStruct, set_info, modify, mbind, ST_bind, mret, ST_ret.
  exists roles. destruct roles as [|x roles]; [rewrite Hl|]; eexists; (split; [done|]); split; [reflexivity|done|reflexivity|done].
Qed.
End token_facts.

(** ** Concrete requests *)
Module SystemExample.
#[local] Existing Instance canonical_range.

(** A user of the certificate table whose role may only read. *)
Definition users : AuthEnv := {|
  lookup_roles u := Some ["admin"]; UserPwAuth u pw := bool_decide (pw = "secret");
  parse_token tok := None;
  Get_entry tbl name := {[ "role@" := "gnoi_readonly" ]};
  CheckChainRevocation _ _ := true; fetch _ := None |}.
Definition cert_cfg : AuthConfig := {| UserAuth := {[ "cert" := true; "jwt" := true ]}; ConfigTableName := "GNMI_CLIENT_CERT"; EnableCrl := false |}.
Definition reader : Request := {|
  req_peer := Some {| peer_unix := false; peer_tls := Some {| SPIFFE_path := None;
    VerifiedChains := [[{| CommonName := "reader"; CRLDistributionPoints := [] |}]] |} |};
  req_md := None |}.
Definition a0 : AuthState := {| info := new_info; CrlCache := ∅ |}.

(** A host where programs fail to start, and the number of runs. *)
Definition broken_host (e : Exec) (h : nat) : nat * Outcome := (S h, NotRun "nsenter: not found" "" "").

Definition backend0 : Backend := {|
  bk_redis := None; bk_producer := None; bk_subscribe := None; bk_send := None;
  bk_replies := [Some ["CancelReboot"; "SWSS_RC_SUCCESS"]; Some ["Reboot"; "SWSS_RC_IN_USE"; "MESSAGE"; "busy"]] |}.
Definition cold : RebootRequest := {| rb_method := COLD; rb_delay := 0; rb_subcomponents := 0 |}.

Lemma reboot_answered_witness :
  Reboot broken_host backend0 (Some "{}") reader cold 0 =
  (0, ([notification rebootKey "" {[ dataMsgFld := "{}" ]}],
       match List.find (decisive rebootKey) (bk_replies backend0) with
       | Some p => match answer_of p with Ok _ => Ok () | Err e => Err e end
       | None => Err (Internal, if bool_decide (bk_replies backend0 = []) then "Response Notification timeout from Reboot Backend!" else "Op doesn't match")
       end)).
Proof. apply (reboot_answered broken_host backend0 "{}" reader cold 0); reflexivity. Defined.

Example reboot_in_use :
  (Reboot broken_host backend0 (Some "{}") reader cold 0).2.2 = Err (InvalidArgument, "Response Notification returned SWSS Error code").
Proof. vm_compute. reflexivity. Qed.

(** A reboot of a DPU that could not be started is reported as done. *)
Example dpu_reboot_not_run :
  HandleReboot broken_host {| req_peer := None; req_md := Some {[ MetadataKeyTargetType := ["dpu"]; MetadataKeyTargetIndex := ["0"] ]} |} 0
  = (1, Ok ()).
Proof. vm_compute. reflexivity. Qed.

#[local] Instance host_bus : Bus := {|
  BusT := list string; SystemBus _ := None;
  Call _ _ intName _ args b := (b ++ [intName +:+ " " +:+ Join args ","], Body [DInt32 (if Contains intName "docker" then 1 else 0); DStr "r"]);
  FmtMessage s := s |}.
Definition bus0 : DState := {| ds_bus := []; ds_counters := λ _, 0%Z |}.

(** The reader resets the device to factory settings. *)
Example reader_resets :
  passes users 0 cert_cfg reader true a0 = false ∧
  ds_bus (Start_rpc users 0 cert_cfg reader (Some "{}") (λ s, Some s) (a0, bus0)).1.2 = ["org.SONiC.HostService.gnoi_reset.issue_reset {}"].
Proof. vm_compute. done. Qed.

(** The name of an image is part of a path as it is, and the file stays when the
    image cannot be loaded. *)
Example deploy_path_unchecked :
  let t := {| it_name := "../etc/cron.d/x"; it_tag := ""; it_remote := Some {| rm_path := "h:/p"; rm_protocol := "SCP"; rm_user := "u"; rm_password := "p" |} |} in
  let '(s, x) := Deploy (RMsg (ImageTransferReq t)) (Some "00") true bus0 in
  ds_bus s = ["org.SONiC.HostService.file.download h,u,p,/p,/tmp/../etc/cron.d/x-00.tar,SCP";
              "org.SONiC.HostService.docker_service.load /tmp/../etc/cron.d/x-00.tar"] ∧
  x = Err (Internal, "failed to load docker image").
Proof. vm_compute. done. Qed.

#[local] Instance lib : Translib := {|
  TL := list string; Version := unit; NewVersion _ := Ok tt;
  tl_Get _ t := (t, ("", None)); tl_Delete _ t := (t, None); tl_Replace _ t := (t, None); tl_Update _ t := (t, None);
  tl_Bulk _ t := (t, ([], None)); tl_Action q t := (t ++ [ur_name (tr_user q)], Ok "{}");
  tl_models := []; Validate _ p := Ok p; PathToString _ := Ok ""; Compact s := s |}.

Lemma write_access_needed_witness :
  let unchanged {S Y} (s : S) (x : (AuthState * S) * status_res Y) := x.1.2 = s ∧ is_ok x.2 = false in
  unchanged 0 (Reboot_rpc broken_host users 0 cert_cfg backend0 (Some "{}") reader cold (a0, 0)) ∧
  unchanged 0 (SetPackage_rpc broken_host users 0 cert_cfg reader REOF true (a0, 0)) ∧
  unchanged bus0 (KillProcess_rpc users 0 cert_cfg reader "bgp" true 0 SIGNAL_TERM (a0, bus0)) ∧
  unchanged bus0 (Deploy_rpc users 0 cert_cfg reader REOF None true (a0, bus0)) ∧
  unchanged ([] : list string) (action users 0 cert_cfg true "/x" reader (Some "{}") Some (a0, [])).
Proof.
  apply (write_access_needed (T := lib) broken_host users 0 cert_cfg reader a0 0 bus0 ([] : list string) backend0 (Some "{}") cold REOF true "bgp" true 0 SIGNAL_TERM REOF None "/x" Some).
  vm_compute. reflexivity.
Defined.

Lemma action_in_users_name_witness :
  let '((a', t'), _) := action users 0 cert_cfg false "/x" reader (Some "{}") Some (a0, [] : list string) in
  a' = (check_request users 0 cert_cfg reader false a0).1 ∧
  t' = (tl_Action {| tr_path := "/x"; tr_payload := Some "{}";
                     tr_user := {| ur_name := User (info a'); ur_roles := Roles (info a') |};
                     tr_auth := AuthEnabled (info a'); tr_version := None |} ([] : list string)).1.
Proof. apply (action_in_users_name (T := lib) users 0 cert_cfg false "/x" reader "{}" Some a0 ([] : list string)). vm_compute. reflexivity. Defined.

(** One user, and a library that signs for him. *)
Definition only_bob : AuthEnv := {|
  lookup_roles u := if bool_decide (u = "bob") then Some ["admin"] else None; UserPwAuth u pw := bool_decide (pw = "secret");
  parse_token tok := if bool_decide (tok = "token-bob") then Some ("bob", ["admin"]) else None;
  Get_entry tbl name := ∅; CheckChainRevocation _ _ := true; fetch _ := None |}.
Definition sign (u : string) (roles : list string) (exp : Z) : string := "token-" +:+ u.

Lemma signs_bob : signs_and_parses only_bob 0 sign.
Proof. intros u roles exp. simpl. case_bool_decide; [|done]. subst u. intros [= <-] _. done. Qed.

Definition with_token : Request := {| req_peer := None; req_md := Some {[ "access_token" := ["token-bob"] ]} |}.

Lemma token_authenticates_witness :
  ∃ roles s', lookup_roles only_bob "bob" = Some roles ∧ JwtAuthenAndAuthor only_bob with_token a0 = (s', Ok ()) ∧
              User (info s') = "bob" ∧ Roles (info s') = roles.
Proof.
  apply (token_authenticates only_bob 0 cert_cfg sign (3600 * second) "bob" "secret"
           {| AccessToken := "token-bob"; Type_ := "Bearer"; ExpiresIn := 3600 |} with_token {[ "access_token" := ["token-bob"] ]} a0).
  - apply signs_bob.
  - vm_compute. discriminate.
  - vm_compute. reflexivity.
  - reflexivity.
  - reflexivity.
Defined.
End SystemExample.
