(* ===== verification/NonDb.v ===== *)
(** * The client of data outside the databases
      (src/sonic_data_client/non_db_client.go)

    Eight paths under the target OTHERS are served by functions of the process:
    the utilization of the processors, five files of /proc, the uptime and the
    version of the image.  A goroutine ([PollStats]) records /proc/stat every
    100 ms in a ring of 3000 slots; the utilization is computed from slots at
    fixed distances behind the one to be written next.

    The readers of /proc are the library goprocinfo: what a reader returns is
    a value with a JSON form, or nil, and an error.  The YAML library is the
    parameter [Yaml]: the fields of [SonicVersionInfo] that a document sets and
    the error of decoding it.  A pointer to a path is a number with the path it
    points to. *)
From stdpp Require Import base gmap sets list strings pretty.
From S2P Require Import Prelude GoStrings Gnmi Json Trie DbConn DbClient DbStream.

Definition statsRingCap : Z := 3000.
Definition SonicVersionFilePath : string := "/etc/sonic/sonic_version.yml".

(** uint64 *)
Definition wrap64 (z : Z) : Z := (z mod 2 ^ 64)%Z.

(** ** Statistics of the processors *)

(** [linuxproc.CPUStat], as far as it is read: uint64 counters. *)
Record CPUStat := {
  cpu_Id : string;
  User : Z; Nice : Z; System : Z; Idle : Z; IOWait : Z; IRQ : Z; SoftIRQ : Z; Steal : Z
}.

Record Stat := { CPUStatAll : CPUStat; CPUStats : list CPUStat }.

Record statsRing := {
  writeIdx : Z;
  buff : list (option Stat)
}.

(** What [init] allocates. *)
Definition empty_ring : statsRing := {|
  writeIdx := 0;
  buff := replicate (Z.to_nat statsRingCap) None
|}.

Definition WriteStatsToBuffer (stat : Stat) (r : statsRing) : statsRing := {|
  writeIdx := wrap64 (writeIdx r + 1) mod statsRingCap;
  buff := <[Z.to_nat (writeIdx r) := Some stat]> (buff r)
|}.

(** One turn of [PollStats]: what the reader of /proc/stat returned, and
    whether the loop sleeps before the next turn. *)
Definition PollStats_turn (read : option Stat) (r : statsRing) : statsRing * bool :=
  match read with
  | None => (r, false)
  | Some stat => (WriteStatsToBuffer stat r, true)
  end.

Record cpuUtil := {
  Id : string;
  CpuUtil_100ms : Z;
  CpuUtil_1s : Z;
  CpuUtil_5s : Z;
  CpuUtil_1min : Z;
  CpuUtil_5min : Z
}.

Record cpuStat := { CpuUsageAll : cpuUtil; CpuUsage : list cpuUtil }.

Definition zero_util : cpuUtil := {|
  Id := ""; CpuUtil_100ms := 0; CpuUtil_1s := 0; CpuUtil_5s := 0; CpuUtil_1min := 0; CpuUtil_5min := 0
|}.
Definition zero_cpuStat : cpuStat := {| CpuUsageAll := zero_util; CpuUsage := [] |}.

(** Assignments to the fields. *)
Definition set_100ms (id : string) (v : Z) : cpuUtil :=
  {| Id := id; CpuUtil_100ms := v; CpuUtil_1s := 0; CpuUtil_5s := 0; CpuUtil_1min := 0; CpuUtil_5min := 0 |}.
Definition set_1s (v : Z) (u : cpuUtil) : cpuUtil :=
  {| Id := Id u; CpuUtil_100ms := CpuUtil_100ms u; CpuUtil_1s := v; CpuUtil_5s := CpuUtil_5s u;
     CpuUtil_1min := CpuUtil_1min u; CpuUtil_5min := CpuUtil_5min u |}.
Definition set_5s (v : Z) (u : cpuUtil) : cpuUtil :=
  {| Id := Id u; CpuUtil_100ms := CpuUtil_100ms u; CpuUtil_1s := CpuUtil_1s u; CpuUtil_5s := v;
     CpuUtil_1min := CpuUtil_1min u; CpuUtil_5min := CpuUtil_5min u |}.
Definition set_1min (v : Z) (u : cpuUtil) : cpuUtil :=
  {| Id := Id u; CpuUtil_100ms := CpuUtil_100ms u; CpuUtil_1s := CpuUtil_1s u; CpuUtil_5s := CpuUtil_5s u;
     CpuUtil_1min := v; CpuUtil_5min := CpuUtil_5min u |}.
Definition set_5min (v : Z) (u : cpuUtil) : cpuUtil :=
  {| Id := Id u; CpuUtil_100ms := CpuUtil_100ms u; CpuUtil_1s := CpuUtil_1s u; CpuUtil_5s := CpuUtil_5s u;
     CpuUtil_1min := CpuUtil_1min u; CpuUtil_5min := v |}.

(** Sums wrap; a wrapped partial sum and a sum wrapped at the end agree. *)
Definition cpu_total (c : CPUStat) : Z :=
  wrap64 (User c + Nice c + System c + Idle c + IOWait c + IRQ c + SoftIRQ c + Steal c).

Definition getCpuUtilPercents (cur last : CPUStat) : Z :=
  let idleTicks := wrap64 (Idle cur - Idle last) in
  let totalTicks := wrap64 (cpu_total cur - cpu_total last) in
  if bool_decide (totalTicks = 0%Z) then 0%Z
  else (wrap64 (100 * wrap64 (totalTicks - idleTicks)) / totalTicks)%Z.

(** [(statsR.writeIdx + statsRingCap - back) % statsRingCap] *)
Definition slot (r : statsRing) (back : Z) : Z :=
  (wrap64 (wrap64 (writeIdx r + statsRingCap) - back) mod statsRingCap)%Z.

(** [statsR.buff[slot]]: an index below the capacity. *)
Definition slot_stat (r : statsRing) (back : Z) : option Stat := mjoin (buff r !! Z.to_nat (slot r back)).

(** The loop of the first window: [None] is an index past the current CPUs. *)
Fixpoint usage_new (cur : list CPUStat) (i : nat) (last : list CPUStat) : option (list cpuUtil) :=
  match last with
  | [] => Some []
  | cStat :: last =>
      c ← cur !! i;
      us ← usage_new cur (S i) last;
      Some (set_100ms (cpu_Id cStat) (getCpuUtilPercents c cStat) :: us)
  end.

(** The loop of a later window: it also indexes [stat.CpuUsage]. *)
Fixpoint usage_set (set : Z → cpuUtil → cpuUtil) (cur : list CPUStat) (i : nat) (last : list CPUStat)
    (us : list cpuUtil) : option (list cpuUtil) :=
  match last with
  | [] => Some us
  | cStat :: last =>
      c ← cur !! i;
      u ← us !! i;
      usage_set set cur (S i) last (<[i := set (getCpuUtilPercents c cStat) u]> us)
  end.

(** A later window and those after it. *)
Fixpoint windows (r : statsRing) (cur : Stat) (ws : list (Z * (Z → cpuUtil → cpuUtil))) (stat : cpuStat)
  : option cpuStat :=
  match ws with
  | [] => Some stat
  | (back, set) :: ws =>
      match slot_stat r back with
      | None => Some stat
      | Some last =>
          us ← usage_set set (CPUStats cur) 0 (CPUStats last) (CpuUsage stat);
          windows r cur ws
            {| CpuUsageAll := set (getCpuUtilPercents (CPUStatAll cur) (CPUStatAll last)) (CpuUsageAll stat);
               CpuUsage := us |}
      end
  end.

Definition getCpuUtilStat (r : statsRing) : handled cpuStat :=
  match slot_stat r 2 with
  | None => Returns zero_cpuStat
  | Some last =>
      match
        (cur ← slot_stat r 1;
         us ← usage_new (CPUStats cur) 0 (CPUStats last);
         windows r cur [(10%Z, set_1s); (50%Z, set_5s); (600%Z, set_1min); (30000%Z, set_5min)]
           {| CpuUsageAll := set_100ms (cpu_Id (CPUStatAll cur))
                               (getCpuUtilPercents (CPUStatAll cur) (CPUStatAll last));
              CpuUsage := us |})
      with
      | Some stat => Returns stat
      | None => Panics
      end
  end.

(** ** The version file *)

Record SonicVersionInfo := { BuildVersion : string; Error : string }.

(** What [yaml.Unmarshal] does to a [SonicVersionInfo]: the values it assigns
    to the two fields (the second is decoded under its lower-case name) and
    its error. *)
Record YamlDoc := {
  y_build_version : option string;
  y_error : option string;
  y_err : option string
}.

(** The body of [once.Do], given what [ImplIoutilReadFile] returns. *)
Definition load_version (Yaml : string → YamlDoc) (file : res string string) : SonicVersionInfo :=
  match file with
  | Err e => {| BuildVersion := "sonic.NA"; Error := e |}
  | Ok content =>
      let doc := Yaml content in
      let version := default "sonic.NA" (y_build_version doc) in
      match y_err doc with
      | Some e => {| BuildVersion := version; Error := e |}
      | None =>
          {| BuildVersion := if bool_decide (version ≠ "sonic.NA") then "SONiC." +:+ version else version;
             Error := default "" (y_error doc) |}
      end
  end.

(** [versionFileStash]: nothing before the first use. *)
Notation Stash := (option SonicVersionInfo).
Definition InvalidateVersionFileStash (_ : Stash) : Stash := None.

(** ** JSON of the structures *)

Section nondb.
Context {MR : MapRange}.
(** The encoder of strings of encoding/json; the JSON of a structure of
    goprocinfo; the YAML library. *)
Context (json_string : string → string).
Context {P : Type} (proc_json : P → res string string).
Context (Yaml : string → YamlDoc).

Definition cpuUtil_json (u : cpuUtil) : string := json_object [
  ("id", json_string (Id u));
  ("100ms", Itoa (CpuUtil_100ms u));
  ("1s", Itoa (CpuUtil_1s u));
  ("5s", Itoa (CpuUtil_5s u));
  ("1min", Itoa (CpuUtil_1min u));
  ("5min", Itoa (CpuUtil_5min u))
].

Definition cpuStat_json (s : cpuStat) : string := json_object [
  ("cpu_all", cpuUtil_json (CpuUsageAll s));
  ("cpus", match CpuUsage s with [] => "null" | us => json_array (cpuUtil_json <$> us) end)
].

Definition version_json (v : SonicVersionInfo) : string := json_object [
  ("build_version", json_string (BuildVersion v));
  ("error", json_string (Error v))
].

(** ** The getters *)

(** What the getters read: the ring at that moment, the files of /proc through
    goprocinfo, and the version file. *)
Record Host := {
  h_ring : statsRing;
  h_proc : string → option P * option string;
  h_version : res string string
}.

Definition dataGetFunc : Type := Host → Stash → Stash * handled (res string string).

Definition getCpuUtil : dataGetFunc := λ h st,
  (st, match getCpuUtilStat (h_ring h) with
       | Returns stat => Returns (Ok (cpuStat_json stat))
       | Panics => Panics
       end).

(** The readers' errors are dropped; a nil result has the JSON [null]. *)
Definition marshal_proc (v : option P) : res string string :=
  match v with Some p => proc_json p | None => Ok "null" end.

Definition proc_getter (file : string) : dataGetFunc := λ h st,
  (st, let '(v, _) := h_proc h file in Returns (marshal_proc v)).

Definition getProcMeminfo : dataGetFunc := proc_getter "/proc/meminfo".
Definition getProcDiskstats : dataGetFunc := proc_getter "/proc/diskstats".
Definition getProcLoadavg : dataGetFunc := proc_getter "/proc/loadavg".
Definition getProcVmstat : dataGetFunc := proc_getter "/proc/vmstat".
Definition getProcStat : dataGetFunc := proc_getter "/proc/stat".
Definition getSysUptime : dataGetFunc := proc_getter "/proc/uptime".

Definition getBuildVersion : dataGetFunc := λ h st,
  let info := default (load_version Yaml (h_version h)) st in
  (Some info, Returns (Ok (version_json info))).

Definition path2DataFuncTbl : list (list string * dataGetFunc) := [
  (["OTHERS"; "platform"; "cpu"], getCpuUtil);
  (["OTHERS"; "proc"; "uptime"], getSysUptime);
  (["OTHERS"; "proc"; "meminfo"], getProcMeminfo);
  (["OTHERS"; "proc"; "diskstats"], getProcDiskstats);
  (["OTHERS"; "proc"; "loadavg"], getProcLoadavg);
  (["OTHERS"; "proc"; "vmstat"], getProcVmstat);
  (["OTHERS"; "proc"; "stat"], getProcStat);
  (["OTHERS"; "osversion"; "build"], getBuildVersion)
].

(** [clientTriePopulate] on a new trie. *)
Definition clientTrie : Trie dataGetFunc := foldl (λ t '(path, getFunc), Add t path getFunc) NewTrie path2DataFuncTbl.

Definition lookupGetFunc (prefix path : option Path) : res string dataGetFunc :=
  let stringSlice := GetTarget prefix :: (elem_name <$> path_elem (gnmiFullPath prefix path)) in
  match Find clientTrie stringSlice ≫= meta with
  | Some getter => Ok getter
  | None => Err ("[" +:+ Join stringSlice " " +:+ "] not found in clientTrie tree")
  end.

(** ** The client *)

(** A pointer to a path. *)
Record PathPtr := { ptr : nat; pointee : option Path }.

(** [path2Getter] has pointers as keys. *)
Record NonDbClient := {
  nd_prefix : option Path;
  path2Getter : gmap nat (option Path * dataGetFunc)
}.

Fixpoint add_getters (prefix : option Path) (paths : list PathPtr) (m : gmap nat (option Path * dataGetFunc))
  : res string (gmap nat (option Path * dataGetFunc)) :=
  match paths with
  | [] => Ok m
  | p :: paths =>
      getter ← lookupGetFunc prefix (pointee p);
      add_getters prefix paths (<[ptr p := (pointee p, getter)]> m)
  end.

Definition NewNonDbClient (paths : list PathPtr) (prefix : option Path) : res string NonDbClient :=
  m ← add_getters prefix paths ∅;
  Ok {| nd_prefix := prefix; path2Getter := m |}.

(** A moment at which a routine of the client acts. *)
Record Moment := { at_time : Z; at_host : Host; at_put : bool }.

(** A routine that may panic, with the values it put in the queue. *)
Definition Out : Type := Stash * handled (list Value).

Definition runGetterAndSend (c : NonDbClient) (ev : Moment) (path : option Path) (getter : dataGetFunc)
    (st : Stash) : Out :=
  let '(st, r) := getter (at_host ev) st in
  (st, match r with
       | Panics => Panics
       | Returns v =>
           let bytes := match v with Ok b => b | Err _ => "" end in
           Returns (if at_put ev
                    then [data_value (at_time ev) (nd_prefix c) path (JsonIetfVal bytes)] else [])
       end).

(** [m] and then [k], with the values of both. *)
Definition andthen (m : Stash → Out) (k : Stash → Out) (st : Stash) : Out :=
  match m st with
  | (st, Panics) => (st, Panics)
  | (st, Returns vs) => let '(st, r) := k st in
      (st, match r with Returns vs' => Returns (vs ++ vs') | Panics => Panics end)
  end.

Definition emit (vs : list Value) (st : Stash) : Out := (st, Returns vs).

Definition put_sync (ev : Moment) : Stash → Out :=
  emit (if at_put ev then [sync_value (at_time ev)] else []).

(** A range over getters, each run at its moment. *)
Fixpoint run_getters (c : NonDbClient) (l : list (Moment * (option Path * dataGetFunc))) (st : Stash) : Out :=
  match l with
  | [] => (st, Returns [])
  | (ev, (path, getter)) :: l => andthen (runGetterAndSend c ev path getter) (run_getters c l) st
  end.

(** One poll: the entries in the order of the range, and the sync. *)
Definition poll_turn (c : NonDbClient) (p : list (Moment * (option Path * dataGetFunc)) * Moment)
  : Stash → Out := andthen (run_getters c p.1) (put_sync p.2).

Fixpoint PollRun (c : NonDbClient) (polls : list (list (Moment * (option Path * dataGetFunc)) * Moment))
    (st : Stash) : Out :=
  match polls with
  | [] => (st, Returns [])
  | p :: polls => andthen (poll_turn c p) (PollRun c polls) st
  end.

(** ** Stream subscriptions *)

Record NSub := { ns_mode : SubscriptionMode; ns_interval : Z; ns_path : PathPtr }.

(** [fmt.Sprintf("%v", subMode)] *)
Definition mode_name (m : SubscriptionMode) : string :=
  match m with
  | TARGET_DEFINED => "TARGET_DEFINED" | ON_CHANGE => "ON_CHANGE" | SAMPLE => "SAMPLE"
  | OTHER_MODE n => Itoa n
  end.

(** The loop that validates the subscriptions: the getters and intervals of
    those whose path has a getter, or the message the session ends with. *)
Fixpoint validate_subs (c : NonDbClient) (subs : list NSub)
  : res string (list ((option Path * dataGetFunc) * Z)) :=
  match subs with
  | [] => Ok []
  | sub :: subs =>
      match ns_mode sub with
      | SAMPLE =>
          match validateSampleInterval (ns_interval sub) with
          | Err e => Err (match e with Errorf m => m | _ => "" end)
          | Ok interval =>
              vs ← validate_subs c subs;
              match path2Getter c !! ptr (ns_path sub) with
              | None => Ok vs
              | Some (_, getter) => Ok (((pointee (ns_path sub), getter), interval) :: vs)
              end
          end
      | m => Err ("Unsupported subscription mode: " +:+ mode_name m +:+ ".")
      end
  end.

(** One tick of [streamSample] of the [i]-th validated subscription. *)
Record Tick := { tick_sub : nat; tick_at : Moment }.

Fixpoint samples (c : NonDbClient) (vs : list ((option Path * dataGetFunc) * Z)) (ticks : list Tick)
    (st : Stash) : Out :=
  match ticks with
  | [] => (st, Returns [])
  | t :: ticks =>
      match vs !! tick_sub t with
      | None => samples c vs ticks st
      | Some ((path, getter), _) =>
          andthen (runGetterAndSend c (tick_at t) path getter) (samples c vs ticks) st
      end
  end.

(** [StreamRun] until [stop] is closed: the first values, each at its moment
    and in the order [first] of the range, the sync, and the ticks that came
    before. *)
Definition StreamRun (c : NonDbClient) (now : Moment) (subs : list NSub)
    (first : list ((option Path * dataGetFunc) * Z) → list (Moment * (option Path * dataGetFunc)))
    (synced : Moment) (ticks : list Tick) : Stash → Out :=
  match validate_subs c subs with
  | Err msg => emit (if at_put now then [putFatalMsg (at_time now) msg] else [])
  | Ok [] => emit []
  | Ok vs => andthen (run_getters c (first vs)) (andthen (put_sync synced) (samples c vs ticks))
  end.

(** ** Get *)

(** The range of [Get], in some order; it stops at the first error. *)
Fixpoint get_values (c : NonDbClient) (now : Z) (l : list (Host * (option Path * dataGetFunc))) (st : Stash)
  : Stash * handled (res string (list Value)) :=
  match l with
  | [] => (st, Returns (Ok []))
  | (h, (path, getter)) :: l =>
      let '(st, r) := getter h st in
      match r with
      | Panics => (st, Panics)
      | Returns (Err e) => (st, Returns (Err e))
      | Returns (Ok v) =>
          let '(st, rest) := get_values c now l st in
          (st, match rest with
               | Returns (Ok vs) => Returns (Ok (data_value now (nd_prefix c) path (JsonIetfVal v) :: vs))
               | r => r
               end)
      end
  end.

(** [order] is the range over [path2Getter], with the host when each getter is
    called. *)
Definition Get (c : NonDbClient) (now : Z)
    (order : gmap nat (option Path * dataGetFunc) → list (Host * (option Path * dataGetFunc)))
  : Stash → Stash * handled (res string (list Value)) :=
  get_values c now (order (path2Getter c)).

(** [AppDBPollRun], [OnceRun] and [Set] do nothing. *)
Definition AppDBPollRun (_ : NonDbClient) : Stash → Out := emit [].
Definition OnceRun (_ : NonDbClient) : Stash → Out := emit [].
Definition Set_ (_ : NonDbClient) (_ : list Path) (_ _ : list Update) : option string := None.

End nondb.

(** * What the client of other data reports

    [cpu_windows] is the specification of the utilization: after any number of
    samples, however often the ring has wrapped, it is computed from the last
    sample and those 2, 10, 50, 600 and 2384 places from the end.  The rest of
    the file is about the paths that are served, [Get], the streams and the
    version that is read once. *)

(** ** The ring *)

(** The sample [k] places from the end of the samples taken so far. *)
Definition ago (h : list Stat) (k : nat) : option Stat :=
  if bool_decide (k ≤ length h) then h !! (length h - k) else None.

(** The ring after the samples [h]. *)
Definition sampled (h : list Stat) : statsRing := foldl (λ r s, WriteStatsToBuffer s r) empty_ring h.

Lemma ago_snoc_1 h s : ago (h ++ [s]) 1 = Some s.
Proof.
  unfold ago. rewrite length_app. simpl. rewrite bool_decide_true by lia.
  replace (length h + 1 - 1) with (length h) by lia. by rewrite lookup_app_r, Nat.sub_diag by lia.
Qed.

Lemma ago_snoc_S h s k : 1 ≤ k → ago (h ++ [s]) (S k) = ago h k.
Proof.
  intros Hk. unfold ago. rewrite length_app. simpl.
  destruct (decide (k ≤ length h)).
  - rewrite !bool_decide_true by lia. rewrite lookup_app_l by lia. f_equal. lia.
  - by rewrite !bool_decide_false by lia.
Qed.

Lemma ago_mono h j k : j ≤ k → 1 ≤ j → is_Some (ago h k) → is_Some (ago h j).
Proof.
  unfold ago. intros Hjk Hj. case_bool_decide; [|by intros [? [=]]]. intros _.
  rewrite bool_decide_true by lia. apply lookup_lt_is_Some. lia.
Qed.

(** The slot of the sample [k] places from the end. *)
Definition place (n k : nat) : nat := Z.to_nat ((Z.of_nat n - Z.of_nat k) mod 3000).

Definition ring_holds (h : list Stat) (r : statsRing) : Prop :=
  writeIdx r = (Z.of_nat (length h) mod 3000)%Z ∧ length (buff r) = 3000 ∧
  ∀ k, 1 ≤ k ≤ 3000 → buff r !! place (length h) k = Some (ago h k).

Lemma place_ne n k : 1 ≤ k < 3000 → place n k ≠ Z.to_nat (Z.of_nat n mod 3000).
Proof. unfold place. intros Hk Heq%Z2Nat.inj; Z.div_mod_to_equations; lia. Qed.

Lemma place_S n k : place (n + 1) (S k) = place n k.
Proof. unfold place. do 2 f_equal. lia. Qed.

Lemma ring_holds_empty : ring_holds [] empty_ring.
Proof.
  split; [done|split; [apply length_replicate|]]. intros k Hk. unfold place, ago.
  rewrite bool_decide_false by (cbn [length]; lia). unfold empty_ring. cbn [buff length].
  apply lookup_replicate_2. unfold statsRingCap. Z.div_mod_to_equations; lia.
Qed.

Lemma ring_holds_write h s r : ring_holds h r → ring_holds (h ++ [s]) (WriteStatsToBuffer s r).
Proof.
  intros (Hw & Hl & Hb). split; [|split]; simpl.
  - rewrite Hw, length_app. simpl. unfold wrap64, statsRingCap. Z.div_mod_to_equations; lia.
  - by rewrite length_insert.
  - intros k Hk. rewrite length_app, Hw. simpl. destruct k as [|k]; [lia|]. rewrite place_S.
    destruct k as [|k].
    + rewrite ago_snoc_1. unfold place. rewrite Z.sub_0_r. apply list_lookup_insert_eq.
      rewrite Hl. Z.div_mod_to_equations; lia.
    + rewrite list_lookup_insert_ne by (apply not_eq_sym, place_ne; lia).
      rewrite ago_snoc_S by lia. apply Hb. lia.
Qed.

Lemma ring_holds_sampled h : ring_holds h (sampled h).
Proof.
  induction h as [|s h IH] using rev_ind; [apply ring_holds_empty|].
  unfold sampled. rewrite foldl_app. by apply ring_holds_write.
Qed.

(** The distance that the index arithmetic of a window gives. *)
Lemma slot_back h r k : ring_holds h r → 1 ≤ k ≤ 3000 → slot_stat r (Z.of_nat k) = ago h k.
Proof.
  intros (Hw & Hl & Hb) Hk. unfold slot_stat. replace (Z.to_nat (slot r (Z.of_nat k))) with (place (length h) k).
  - by rewrite Hb.
  - unfold slot, place, wrap64, statsRingCap. rewrite Hw. f_equal. Z.div_mod_to_equations; lia.
Qed.

(** [writeIdx + 3000 - 30000] is negative, and 2^64 is 616 modulo 3000. *)
Lemma slot_5min h r : ring_holds h r → slot_stat r 30000 = ago h 2384.
Proof.
  intros (Hw & Hl & Hb). unfold slot_stat. replace (Z.to_nat (slot r 30000)) with (place (length h) 2384).
  - by rewrite Hb by lia.
  - unfold slot, place, wrap64, statsRingCap. rewrite Hw. f_equal. Z.div_mod_to_equations; lia.
Qed.

(** ** The utilization, from the samples *)

(** The share between the last sample and the one [k] places from the end, for
    the CPU that [sel] selects; 0 when there is no such sample. *)
Definition share (h : list Stat) (k : nat) (sel : Stat → option CPUStat) : Z :=
  match ago h 1 ≫= sel, ago h k ≫= sel with
  | Some cur, Some last => getCpuUtilPercents cur last
  | _, _ => 0%Z
  end.

Definition all_cpus (s : Stat) : option CPUStat := Some (CPUStatAll s).
Definition cpu (i : nat) (s : Stat) : option CPUStat := CPUStats s !! i.

Definition util_spec (h : list Stat) (id : string) (sel : Stat → option CPUStat) : cpuUtil := {|
  Id := id;
  CpuUtil_100ms := share h 2 sel;
  CpuUtil_1s := share h 10 sel;
  CpuUtil_5s := share h 50 sel;
  CpuUtil_1min := share h 600 sel;
  CpuUtil_5min := share h 2384 sel
|}.

Definition cpu_spec (h : list Stat) : cpuStat :=
  match ago h 1, ago h 2 with
  | Some cur, Some last => {|
      CpuUsageAll := util_spec h (cpu_Id (CPUStatAll cur)) all_cpus;
      CpuUsage := imap (λ i s, util_spec h (cpu_Id s) (cpu i)) (CPUStats last) |}
  | _, _ => zero_cpuStat
  end.

(** Every sample has [n] CPUs. *)
Definition cpus_fixed (n : nat) (h : list Stat) : Prop := Forall (λ s, length (CPUStats s) = n) h.

Lemma ago_cpus n h k s : cpus_fixed n h → ago h k = Some s → length (CPUStats s) = n.
Proof.
  unfold ago, cpus_fixed. rewrite Forall_lookup. intros Hf. case_bool_decide; [|done]. apply Hf.
Qed.

Lemma usage_new_spec cur i last :
  length cur = i + length last →
  usage_new cur i last =
  Some (imap (λ j s, set_100ms (cpu_Id s) (default 0%Z ((λ c, getCpuUtilPercents c s) <$> cur !! (i + j)))) last).
Proof.
  revert i. induction last as [|s last IH]; intros i Hl; simpl in *; [done|].
  destruct (lookup_lt_is_Some_2 cur i) as [c Hc]; [lia|]. rewrite Hc. simpl.
  rewrite IH by lia. simpl. do 2 f_equal.
  - by rewrite Nat.add_0_r, Hc.
  - apply imap_ext. intros j x _. simpl. by rewrite Nat.add_succ_r.
Qed.

Lemma usage_set_spec set cur i last us :
  length cur = i + length last → length us = i + length last →
  usage_set set cur i last us =
  Some (imap (λ j u, match cur !! j, (if bool_decide (i ≤ j) then last !! (j - i) else None) with
                     | Some c, Some s => set (getCpuUtilPercents c s) u
                     | _, _ => u
                     end) us).
Proof.
  revert i us. induction last as [|s last IH]; intros i us Hc Hu; simpl in *.
  - f_equal. apply list_eq. intros j. rewrite list_lookup_imap. destruct (us !! j); simpl; [|done].
    destruct (cur !! j); [|done]. by case_bool_decide; simpl.
  - destruct (lookup_lt_is_Some_2 cur i) as [c Hci]; [lia|].
    destruct (lookup_lt_is_Some_2 us i) as [u Hui]; [lia|]. rewrite Hci, Hui. simpl.
    rewrite IH by (rewrite ?length_insert; lia). f_equal. apply list_eq. intros j. rewrite !list_lookup_imap.
    destruct (decide (j = i)) as [->|Hne].
    + rewrite list_lookup_insert_eq by lia. rewrite Hui, Hci. simpl.
      rewrite bool_decide_false by lia. rewrite bool_decide_true by lia. by rewrite Nat.sub_diag.
    + rewrite list_lookup_insert_ne by done. destruct (us !! j) as [u'|]; simpl; [|done].
      destruct (cur !! j); [|done]. destruct (decide (S i ≤ j)).
      * rewrite !bool_decide_true by lia. replace (j - i) with (S (j - S i)) by lia. done.
      * rewrite bool_decide_false by lia. by case_bool_decide; [lia|].
Qed.

(** One window, on what the earlier ones produced. *)
Definition apply_window (h : list Stat) (k : nat) (set : Z → cpuUtil → cpuUtil) (stat : cpuStat) : cpuStat := {|
  CpuUsageAll := set (share h k all_cpus) (CpuUsageAll stat);
  CpuUsage := imap (λ i, set (share h k (cpu i))) (CpuUsage stat)
|}.

Lemma windows_step n h r cur k back set ws stat :
  cpus_fixed n h → ago h 1 = Some cur → slot_stat r back = ago h k → length (CpuUsage stat) = n →
  windows r cur ((back, set) :: ws) stat =
  if bool_decide (is_Some (ago h k)) then windows r cur ws (apply_window h k set stat) else Some stat.
Proof.
  intros Hn Hcur Hslot Hlen. simpl. rewrite Hslot. destruct (ago h k) as [last|] eqn:Hk.
  - rewrite bool_decide_true by eauto.
    rewrite usage_set_spec by (rewrite (ago_cpus n h k last Hn Hk), ?Hlen, ?(ago_cpus n h 1 cur Hn Hcur); lia).
    simpl. unfold apply_window, share. rewrite Hcur, Hk. simpl. do 2 f_equal. apply imap_ext.
    intros i u Hi. rewrite Nat.sub_0_r. unfold cpu.
    apply lookup_lt_Some in Hi. rewrite Hlen in Hi.
    destruct (lookup_lt_is_Some_2 (CPUStats cur) i) as [c ->]; [by rewrite (ago_cpus n h 1 cur)|].
    destruct (lookup_lt_is_Some_2 (CPUStats last) i) as [l ->]; [by rewrite (ago_cpus n h k last)|]. done.
  - rewrite bool_decide_false; [done|]. by intros [? [=]].
Qed.

Lemma share_none h k sel : ago h k = None → share h k sel = 0%Z.
Proof. unfold share. intros ->. by destruct (ago h 1 ≫= sel). Qed.

Lemma ago_none_mono h j k : j ≤ k → 1 ≤ j → ago h j = None → ago h k = None.
Proof.
  intros Hjk Hj Hn. apply eq_None_not_Some. intros Hs. apply (ago_mono h j k) in Hs; [|done..].
  rewrite Hn in Hs. by destruct Hs.
Qed.

(** The first window. *)
Lemma first_window n h cur last :
  cpus_fixed n h → ago h 1 = Some cur → ago h 2 = Some last →
  usage_new (CPUStats cur) 0 (CPUStats last) =
  Some (imap (λ i s, set_100ms (cpu_Id s) (share h 2 (cpu i))) (CPUStats last)).
Proof.
  intros Hn Hcur Hlast. rewrite usage_new_spec by (by rewrite (ago_cpus n h 1 cur), (ago_cpus n h 2 last)).
  f_equal. apply imap_ext. intros i s Hs. simpl. unfold share. rewrite Hcur, Hlast. simpl. unfold cpu.
  rewrite Hs. by destruct (CPUStats cur !! i).
Qed.

(** The specification, as the five windows in turn. *)
Definition window_stages (h : list Stat) (cur last : Stat) : list cpuStat :=
  let s1 := {| CpuUsageAll := set_100ms (cpu_Id (CPUStatAll cur)) (share h 2 all_cpus);
               CpuUsage := imap (λ i s, set_100ms (cpu_Id s) (share h 2 (cpu i))) (CPUStats last) |} in
  let s2 := apply_window h 10 set_1s s1 in
  let s3 := apply_window h 50 set_5s s2 in
  let s4 := apply_window h 600 set_1min s3 in
  [s1; s2; s3; s4; apply_window h 2384 set_5min s4].

Lemma imap_twice {A B C} (f : nat → B → C) (g : nat → A → B) (l : list A) :
  imap f (imap g l) = imap (λ i x, f i (g i x)) l.
Proof. apply list_eq. intros i. rewrite !list_lookup_imap. by destruct (l !! i). Qed.

(** The stage at which the windows stop is the specification: the shares of
    the windows that are missing are 0. *)
Lemma stage_spec h cur last (j : nat) s :
  ago h 1 = Some cur → ago h 2 = Some last → window_stages h cur last !! j = Some s →
  match j with 0 => ago h 10 | 1 => ago h 50 | 2 => ago h 600 | 3 => ago h 2384 | _ => None end = None →
  s = cpu_spec h.
Proof.
  intros Hcur Hlast Hs Hnone. unfold cpu_spec. rewrite Hcur, Hlast. unfold util_spec.
  assert (j = 0 ∨ j = 1 ∨ j = 2 ∨ j = 3 ∨ j = 4) as Hj by (apply lookup_lt_Some in Hs; simpl in Hs; lia).
  destruct Hj as [->|[->|[->|[->| ->]]]]; simpl in Hs; simplify_eq; unfold apply_window; cbn [CpuUsageAll CpuUsage];
    rewrite ?imap_twice; unfold set_100ms, set_1s, set_5s, set_1min, set_5min; simpl.
  1: assert (ago h 50 = None) by (apply (ago_none_mono h 10); [lia..|done]).
  1,2: assert (ago h 600 = None) by (apply (ago_none_mono h 50); [lia..|done]).
  1,2,3: assert (ago h 2384 = None) by (apply (ago_none_mono h 600); [lia..|done]).
  5: reflexivity.
  all: f_equal; [f_equal; symmetry; by apply share_none|apply imap_ext; intros i x _; simpl; f_equal; symmetry; by apply share_none].
Qed.

Lemma getCpuUtilStat_spec (n : nat) (h : list Stat) :
  cpus_fixed n h → getCpuUtilStat (sampled h) = Returns (cpu_spec h).
Proof.
  intros Hn. pose proof (ring_holds_sampled h) as Hr. unfold getCpuUtilStat.
  assert (slot_stat (sampled h) 2 = ago h 2) as -> by (apply (slot_back h _ 2 Hr); lia).
  assert (slot_stat (sampled h) 1 = ago h 1) as -> by (apply (slot_back h _ 1 Hr); lia).
  destruct (ago h 2) as [last|] eqn:Hlast.
  2:{ unfold cpu_spec. rewrite Hlast. by destruct (ago h 1). }
  destruct (ago_mono h 1 2) as [cur Hcur]; [lia..|by rewrite Hlast|]. rewrite Hcur. cbn [mbind option_bind].
  rewrite (first_window n h cur last) by done. cbn [mbind option_bind].
  assert (∀ j s, window_stages h cur last !! j = Some s → length (CpuUsage s) = n) as Hlen.
  { intros j s Hj. rewrite <- (ago_cpus n h 2 last) by done.
    destruct j as [|[|[|[|[|j]]]]]; simpl in Hj; simplify_eq; unfold apply_window; cbn [CpuUsage];
      by rewrite !length_imap. }
  pose proof (stage_spec h cur last) as Hspec.
  replace (getCpuUtilPercents (CPUStatAll cur) (CPUStatAll last)) with (share h 2 all_cpus)
    by (unfold share; by rewrite Hcur, Hlast).
  rewrite (windows_step n h _ cur 10); [|done|done|apply (slot_back h _ 10 Hr); lia|by apply (Hlen 0)].
  case_bool_decide as H10; [|by rewrite (Hspec 0 _ Hcur Hlast eq_refl) by (by apply eq_None_not_Some)].
  rewrite (windows_step n h _ cur 50); [|done|done|apply (slot_back h _ 50 Hr); lia|by apply (Hlen 1)].
  case_bool_decide as H50; [|by rewrite (Hspec 1 _ Hcur Hlast eq_refl) by (by apply eq_None_not_Some)].
  rewrite (windows_step n h _ cur 600); [|done|done|apply (slot_back h _ 600 Hr); lia|by apply (Hlen 2)].
  case_bool_decide as H600; [|by rewrite (Hspec 2 _ Hcur Hlast eq_refl) by (by apply eq_None_not_Some)].
  rewrite (windows_step n h _ cur 2384); [|done|done|by apply slot_5min|by apply (Hlen 3)].
  case_bool_decide as H2384; [|by rewrite (Hspec 3 _ Hcur Hlast eq_refl) by (by apply eq_None_not_Some)].
  cbn [windows]. by rewrite (Hspec 4 _ Hcur Hlast eq_refl).
Qed.

(** C23. After any number of samples [getCpuUtilStat] computes the shares between
    the last sample and those 2, 10, 50, 600 and 2384 places from the end, for
    all CPUs together and for each, provided every sample had as many CPUs; a
    window that reaches before the first sample is 0.  So the windows called
    1s, 5s and 1min span 9, 49 and 599 intervals of 100 ms, and the window
    called 5min spans 2383, less than four minutes. *)
Theorem cpu_windows (n : nat) (h : list Stat) :
  cpus_fixed n h → getCpuUtilStat (sampled h) = Returns (cpu_spec h).
Proof. apply getCpuUtilStat_spec. Qed.

(** ** Percentages *)

(** The ticks a CPU was not idle, without wrap-around. *)
Definition busy (c : CPUStat) : Z :=
  (User c + Nice c + System c + IOWait c + IRQ c + SoftIRQ c + Steal c)%Z.

(** From [last] to [cur] neither count went back, and the sums fit. *)
Definition forward (last cur : CPUStat) : Prop :=
  (0 ≤ Idle last ≤ Idle cur ∧ 0 ≤ busy last ≤ busy cur ∧ 100 * (busy cur + Idle cur) < 2 ^ 64)%Z.

Lemma share_exact last cur :
  forward last cur →
  getCpuUtilPercents cur last =
  let total := (busy cur - busy last + (Idle cur - Idle last))%Z in
  if bool_decide (total = 0%Z) then 0%Z else (100 * (busy cur - busy last) / total)%Z.
Proof.
  unfold forward. intros (Hi & Hb & Hs). unfold getCpuUtilPercents, cpu_total, wrap64. fold (busy cur).
  replace (User cur + Nice cur + System cur + Idle cur + IOWait cur + IRQ cur + SoftIRQ cur + Steal cur)%Z
    with (busy cur + Idle cur)%Z by (unfold busy; lia).
  replace (User last + Nice last + System last + Idle last + IOWait last + IRQ last + SoftIRQ last + Steal last)%Z
    with (busy last + Idle last)%Z by (unfold busy; lia).
  rewrite !(Z.mod_small (busy _ + Idle _)) by lia.
  rewrite (Z.mod_small (Idle cur - Idle last)) by lia.
  replace (busy cur + Idle cur - (busy last + Idle last))%Z
    with (busy cur - busy last + (Idle cur - Idle last))%Z by lia.
  rewrite (Z.mod_small (busy cur - busy last + _)) by lia.
  replace (busy cur - busy last + (Idle cur - Idle last) - (Idle cur - Idle last))%Z
    with (busy cur - busy last)%Z by lia.
  rewrite (Z.mod_small (busy cur - busy last)), Z.mod_small by lia. done.
Qed.

Lemma share_bounded last cur : forward last cur → (0 ≤ getCpuUtilPercents cur last ≤ 100)%Z.
Proof.
  intros Hf. rewrite share_exact by done. destruct Hf as (Hi & Hb & _). cbn zeta.
  case_bool_decide; [lia|]. split; [apply Z.div_pos; lia|].
  apply Z.div_le_upper_bound; lia.
Qed.

(** The counters of one selection over the samples. *)
Definition all_forward (h : list Stat) (sel : Stat → option CPUStat) : Prop :=
  ∀ k cur last, ago h 1 ≫= sel = Some cur → ago h k ≫= sel = Some last → forward last cur.

Definition percent (z : Z) : Prop := (0 ≤ z ≤ 100)%Z.
Definition percents (u : cpuUtil) : Prop :=
  percent (CpuUtil_100ms u) ∧ percent (CpuUtil_1s u) ∧ percent (CpuUtil_5s u) ∧
  percent (CpuUtil_1min u) ∧ percent (CpuUtil_5min u).

Lemma share_percent h k sel : all_forward h sel → percent (share h k sel).
Proof.
  intros Hf. unfold share. destruct (ago h 1 ≫= sel) as [cur|] eqn:Hc; [|done].
  destruct (ago h k ≫= sel) as [last|] eqn:Hl; [|done]. by eapply share_bounded, Hf.
Qed.

(** Counters that never go back give percentages. *)
Theorem cpu_percentages (n : nat) (h : list Stat) :
  cpus_fixed n h → all_forward h all_cpus → (∀ i, all_forward h (cpu i)) →
  ∃ s, getCpuUtilStat (sampled h) = Returns s ∧ percents (CpuUsageAll s) ∧ Forall percents (CpuUsage s).
Proof.
  intros Hn Ha Hc. exists (cpu_spec h). split; [by apply (getCpuUtilStat_spec n)|].
  unfold cpu_spec. destruct (ago h 1), (ago h 2); [|by split; [split_and!|]..].
  split; [split_and!; by apply share_percent|]. apply Forall_lookup. intros i u. cbn [CpuUsage].
  rewrite list_lookup_imap. intros (x & _ & ->)%fmap_Some. split_and!; by apply share_percent.
Qed.

(** The kernel's count of IOWait may go back (proc(5)); the share wraps. *)
Lemma share_wraps :
  let last := {| cpu_Id := "cpu"; User := 0; Nice := 0; System := 0; Idle := 10; IOWait := 3; IRQ := 0;
                 SoftIRQ := 0; Steal := 0 |} in
  let cur := {| cpu_Id := "cpu"; User := 0; Nice := 0; System := 0; Idle := 15; IOWait := 0; IRQ := 0;
                SoftIRQ := 0; Steal := 0 |} in
  getCpuUtilPercents cur last = 9223372036854775658%Z.
Proof. reflexivity. Qed.

(** A CPU that goes offline between two samples makes the next request index
    past the current CPUs. *)
Lemma cpu_offline_panics c0 c1 a :
  getCpuUtilStat (sampled [{| CPUStatAll := a; CPUStats := [c0; c1] |}; {| CPUStatAll := a; CPUStats := [c0] |}])
  = Panics.
Proof. reflexivity. Qed.

(** ** The paths *)

Section tables.
Context {MR : MapRange} {M : Type}.
Implicit Types tbl : list (list string * M).

Definition no_stars tbl : bool := forallb (λ '(q, _), forallb (λ e, negb (star e)) q) tbl.

Lemma no_stars_live tbl p w : no_stars tbl = true → live tbl (p ++ [w]) → star w = false.
Proof.
  intros Hns (q & ([q' m] & -> & Hq)%list_elem_of_fmap & [k Hk]). simpl in Hk.
  assert (w ∈ q' ++ [""]) as Hw by (rewrite Hk; set_solver).
  apply elem_of_app in Hw as [Hw| ->%list_elem_of_singleton]; [|done].
  apply list_elem_of_In in Hq. pose proof (proj1 (forallb_forall _ _) Hns _ Hq) as Hf. simpl in Hf.
  apply list_elem_of_In in Hw. pose proof (proj1 (forallb_forall _ _) Hf _ Hw) as He.
  by apply negb_true_iff in He.
Qed.

(** Without stars a path only resolves to itself. *)
Lemma resolves_no_stars tbl p keys q : no_stars tbl = true → resolves tbl p keys q → q = p ++ keys.
Proof.
  intros Hns. induction 1 as [p|p k keys q Hl Hr IH|p k w keys q _ Hw Hs _ _ _].
  - by rewrite app_nil_r.
  - by rewrite IH, <- app_assoc.
  - by rewrite (no_stars_live tbl p w) in Hs.
Qed.

Lemma resolves_self tbl p keys : p ++ keys ∈ tbl.*1 → resolves tbl p keys (p ++ keys).
Proof.
  revert p. induction keys as [|k keys IH]; intros p Hin.
  - rewrite app_nil_r. constructor.
  - replace (p ++ k :: keys) with ((p ++ [k]) ++ keys) in * by (by rewrite <- app_assoc).
    apply resolves_exact; [|by apply IH]. exists ((p ++ [k]) ++ keys). split; [done|].
    rewrite <- app_assoc. by apply prefix_app_r.
Qed.

(** On such a table the trie is the flat table. *)
Lemma populated_no_stars tbl keys :
  no_empty tbl = true → unambiguous tbl = true → no_stars tbl = true →
  Find (populate tbl) keys ≫= meta = table_get tbl keys.
Proof.
  intros Hne Hu Hns. apply option_eq. intros m. rewrite populated_resolves by done. split.
  - intros (p & Hr & Hm). apply resolves_no_stars in Hr; [|done]. by subst.
  - intros Hm. exists keys. split; [|done]. apply (resolves_self tbl []). by eapply table_get_elem.
Qed.

End tables.

Section clients.
Context {MR : MapRange}.
Context (json_string : string → string).
Context {P : Type} (proc_json : P → res string string).
Context (Yaml : string → YamlDoc).

Notation tbl := (path2DataFuncTbl json_string proc_json Yaml).
Notation lookupGetFunc := (lookupGetFunc json_string proc_json Yaml).
Notation NewNonDbClient := (NewNonDbClient json_string proc_json Yaml).

(** The getter of a path is what the table has for the target and the names of
    the elements, keys ignored. *)
Lemma lookupGetFunc_table prefix path :
  let keys := GetTarget prefix :: (elem_name <$> path_elem (gnmiFullPath prefix path)) in
  lookupGetFunc prefix path =
  match table_get tbl keys with
  | Some getter => Ok getter
  | None => Err ("[" +:+ Join keys " " +:+ "] not found in clientTrie tree")
  end.
Proof.
  cbn zeta. unfold NonDb.lookupGetFunc. change (clientTrie json_string proc_json Yaml) with (populate tbl).
  by rewrite populated_no_stars by (vm_compute; reflexivity).
Qed.

(** ** Get *)

(** What the getters rely on: the samples in the ring have as many CPUs, and
    the structures the readers of /proc return have a JSON form. *)
Definition host_ok (h : Host) : Prop :=
  getCpuUtilStat (h_ring h) ≠ Panics ∧ ∀ f p e, h_proc h f = (Some p, e) → is_ok (proc_json p) = true.

Lemma proc_getter_ok file h st :
  host_ok h → ∃ b, proc_getter proc_json file h st = (st, Returns (Ok b)).
Proof.
  intros [_ Hp]. unfold proc_getter. destruct (h_proc h file) as [[p|] e] eqn:Hf; simpl; [|by eexists].
  specialize (Hp _ _ _ Hf). destruct (proc_json p); [by eexists|done].
Qed.

Lemma table_getter_ok path getter h st :
  (path, getter) ∈ tbl → host_ok h → ∃ st' b, getter h st = (st', Returns (Ok b)).
Proof.
  intros Hin Hok. unfold path2DataFuncTbl in Hin.
  repeat match goal with
    | H : _ ∈ _ :: _ |- _ => apply elem_of_cons in H as [[= -> ->]|H]
    | H : _ ∈ [] |- _ => by apply elem_of_nil in H
    end;
    try (exists st; by eapply proc_getter_ok).
  - unfold getCpuUtil. destruct Hok as [Hc _]. destruct (getCpuUtilStat (h_ring h)); [by eexists _, _|done].
  - unfold getBuildVersion. by eexists _, _.
Qed.

Lemma table_get_pair {M} (t : list (list string * M)) p m : table_get t p = Some m → (p, m) ∈ t.
Proof.
  induction t as [|[q m'] t IH]; simpl; [done|]. destruct (table_get t p).
  - intros Hm. right. by apply IH.
  - case_decide; [|done]. intros [= ->]. subst. left.
Qed.

Definition registered_getter (e : option Path * dataGetFunc) : Prop := ∃ path, (path, e.2) ∈ tbl.

Lemma add_getters_spec prefix paths m m' :
  add_getters json_string proc_json Yaml prefix paths m = Ok m' →
  (∀ i e, m !! i = Some e → registered_getter e) →
  (∀ i e, m' !! i = Some e → registered_getter e) ∧
  dom m' = dom m ∪ list_to_set (ptr <$> paths).
Proof.
  revert m. induction paths as [|p paths IH]; intros m; simpl.
  - intros [= <-] Hm. split; [done|]. set_solver.
  - rewrite lookupGetFunc_table. destruct (table_get _ _) as [getter|] eqn:Hg; [|done].
    cbn [mbind res_bind]. intros Ha Hm. apply IH in Ha as [Hr Hd].
    + split; [done|]. rewrite Hd, dom_insert_L. set_solver.
    + intros i e [[<- <-]|[_ ?]]%lookup_insert_Some; [|eauto]. eexists. by eapply table_get_pair.
Qed.

Lemma get_values_ok c now l st :
  Forall (λ e : Host * (option Path * dataGetFunc), registered_getter e.2 ∧ host_ok e.1) l →
  ∃ st' vs, get_values c now l st = (st', Returns (Ok vs)) ∧ v_path <$> vs = (λ e, e.2.1) <$> l.
Proof.
  revert st. induction l as [|[h [path getter]] l IH]; intros st; [by eexists _, _|].
  intros [[[q Hq] Hh] Hl]%Forall_cons. simpl in *.
  destruct (table_getter_ok q getter h st Hq Hh) as (st1 & b & ->).
  destruct (IH st1 Hl) as (st2 & vs & -> & Hvs). eexists _, _. split; [done|]. rewrite !fmap_cons. by f_equal.
Qed.

(** Get of paths under OTHERS: with CPUs that stay and structures that have
    a JSON form, a client that could be made returns one value for each path
    it was made for, whichever files of /proc or version file cannot be read:
    errors of the readers are never reported. *)
Theorem others_get paths prefix c now order st :
  NewNonDbClient paths prefix = Ok c →
  (order (path2Getter c)).*2 ≡ₚ (map_to_list (path2Getter c)).*2 →
  Forall host_ok (order (path2Getter c)).*1 →
  dom (path2Getter c) = list_to_set (ptr <$> paths) ∧
  ∃ st' vs, Get c now order st = (st', Returns (Ok vs)) ∧
    v_path <$> vs ≡ₚ (map_to_list (path2Getter c)).*2.*1.
Proof.
  unfold NonDb.NewNonDbClient. destruct (add_getters _ _ _ _ _ _) as [m|] eqn:Ha; [|done].
  cbn [mbind res_bind]. intros [= <-]. cbn [path2Getter]. intros Hord Hok.
  apply add_getters_spec in Ha as [Hreg Hdom]; [|intros ?? Hl; by rewrite lookup_empty in Hl].
  split; [by rewrite Hdom, dom_empty_L, (left_id_L ∅ _)|].
  destruct (get_values_ok {| nd_prefix := prefix; path2Getter := m |} now (order m) st) as (st' & vs & Hg & Hvs).
  { apply Forall_forall. intros [h e] Hin. split.
    - assert (e ∈ (map_to_list m).*2) as He.
      { rewrite <- Hord. by apply (list_elem_of_fmap_2' snd _ (h, e)). }
      apply list_elem_of_fmap in He as ([i e'] & -> & Hi%elem_of_map_to_list). eauto.
    - apply (proj1 (Forall_forall _ _) Hok). by apply (list_elem_of_fmap_2' fst _ (h, e)). }
  eexists _, _. split; [exact Hg|]. rewrite Hvs. rewrite <- Hord. by rewrite <- list_fmap_compose.
Qed.

(** ** The version *)

(** The requests for the version, in order, with the host at each. *)
Fixpoint versions (hs : list Host) (st : option SonicVersionInfo) : list (handled (res string string)) :=
  match hs with
  | [] => []
  | h :: hs => let '(st, r) := getBuildVersion (P := P) json_string Yaml h st in r :: versions hs st
  end.

(** Until it is invalidated the version is what the first request found, even
    a failure to read the file. *)
Lemma versions_stick h hs st :
  Forall (λ r, r = Returns (Ok (version_json json_string (default (load_version Yaml (h_version h)) st))))
    (versions (h :: hs) st).
Proof.
  revert h st. assert (∀ hs info, Forall (λ r, r = Returns (Ok (version_json json_string info)))
    (versions hs (Some info))) as Hs.
  { clear. induction hs as [|h hs IH]; intros info; [constructor|]. constructor; [done|apply IH]. }
  intros h st. constructor; [done|apply Hs].
Qed.

(** ** Streams *)

(** Every subscription of a stream that starts has the mode SAMPLE; those whose
    path has no getter are left out without a word. *)
Lemma validate_subs_sample c subs vs :
  validate_subs (P := P) c subs = Ok vs → Forall (λ s, ns_mode s = SAMPLE) subs ∧
  vs.*1.*1 = omap (λ s, path2Getter c !! ptr (ns_path s) ≫= λ _, Some (pointee (ns_path s))) subs.
Proof.
  revert vs. induction subs as [|s subs IH]; simpl; [by intros ? [= <-]|]. intros vs.
  destruct (ns_mode s) eqn:Hm; try done. destruct (validateSampleInterval _); [|done].
  destruct (validate_subs c subs) as [vs'|] eqn:Hv; [|done]. cbn [mbind res_bind].
  destruct (IH _ eq_refl) as [Hf He].
  destruct (path2Getter c !! ptr (ns_path s)) as [[path getter]|]; intros [= <-]; simpl;
    (split; [by constructor|]); [f_equal|]; exact He.
Qed.

End clients.

Module NonDbExample.

Definition ticks (id : string) (user idle : Z) : CPUStat := {|
  cpu_Id := id; User := user; Nice := 0; System := 0; Idle := idle; IOWait := 0; IRQ := 0; SoftIRQ := 0;
  Steal := 0
|}.

(** Twelve samples of one CPU that is busy a quarter of the time, and half of
    it before the last. *)
Definition sample (i : Z) : Stat :=
  {| CPUStatAll := ticks "cpu" (10 * i) (30 * i); CPUStats := [ticks "cpu0" (10 * i) (30 * i)] |}.
Definition history : list Stat :=
  (sample <$> [0; 1; 2; 3; 4; 5; 6; 7; 8; 9; 10]%Z) ++
  [{| CPUStatAll := ticks "cpu" 120 320; CPUStats := [ticks "cpu0" 120 320] |}].

Lemma cpu_windows_witness :
  cpus_fixed 1 history ∧
  getCpuUtilStat (sampled history) = Returns (cpu_spec history) ∧
  cpu_spec history = {|
    CpuUsageAll := {| Id := "cpu"; CpuUtil_100ms := 50; CpuUtil_1s := 27; CpuUtil_5s := 0; CpuUtil_1min := 0;
                      CpuUtil_5min := 0 |};
    CpuUsage := [{| Id := "cpu0"; CpuUtil_100ms := 50; CpuUtil_1s := 27; CpuUtil_5s := 0; CpuUtil_1min := 0;
                    CpuUtil_5min := 0 |}] |}.
Proof.
  assert (cpus_fixed 1 history) as Hf by (repeat constructor).
  split; [exact Hf|]. split; [exact (cpu_windows 1 history Hf)|reflexivity].
Defined.

(** A host whose files cannot be read. *)
Definition blind : Host (P := ()) := {|
  h_ring := sampled history;
  h_proc := λ _, (None, Some "no such file");
  h_version := Err "no such file"
|}.
Definition id_string (s : string) : string := dquote +:+ s +:+ dquote.
Definition unit_json (_ : ()) : res string string := Ok "{}".
Definition no_yaml (_ : string) : YamlDoc := {| y_build_version := None; y_error := None; y_err := None |}.

Definition prefix : option Path := Some {| path_origin := ""; path_target := "OTHERS"; path_elem := [] |}.
Definition cpu_ptr : PathPtr := {| ptr := 0; pointee := Some (path_of ["platform"; "cpu"]) |}.
Definition uptime_ptr : PathPtr := {| ptr := 1; pointee := Some (path_of ["proc"; "uptime"]) |}.
Definition getters : gmap nat (option Path * dataGetFunc (P := ())) :=
  <[1 := (pointee uptime_ptr, getSysUptime unit_json)]>
    {[0 := (pointee cpu_ptr, getCpuUtil id_string)]}.
Definition client : NonDbClient := {| nd_prefix := prefix; path2Getter := getters |}.
Definition order (m : gmap nat (option Path * dataGetFunc (P := ()))) :
  list (Host * (option Path * dataGetFunc)) := (λ e, (blind, e)) <$> (map_to_list m).*2.

Lemma others_get_witness :
  NewNonDbClient (MR := canonical_range) id_string unit_json no_yaml [cpu_ptr; uptime_ptr] prefix = Ok client ∧
  dom (path2Getter client) = list_to_set (ptr <$> [cpu_ptr; uptime_ptr]) ∧
  ∃ st' vs, Get client 7 order None = (st', Returns (Ok vs)) ∧
    v_path <$> vs ≡ₚ (map_to_list (path2Getter client)).*2.*1.
Proof.
  assert (NewNonDbClient (MR := canonical_range) id_string unit_json no_yaml [cpu_ptr; uptime_ptr] prefix
          = Ok client) as Hc by reflexivity.
  split; [exact Hc|].
  apply (others_get (MR := canonical_range) id_string unit_json no_yaml [cpu_ptr; uptime_ptr] prefix client 7
           order None Hc).
  - unfold order. by rewrite <- list_fmap_compose, list_fmap_id.
  - unfold order. rewrite <- list_fmap_compose. apply Forall_fmap, Forall_true. intros e. split; [|done].
    cbn [fst compose h_ring blind]. rewrite (getCpuUtilStat_spec 1 history); [done|]. repeat constructor.
Defined.

End NonDbExample.
