(* ===== verification/DpuProxy.v ===== *)
(** * The interceptors of the server and the proxy to DPUs
      (src/pkg/interceptors/: interceptor.go, setup.go, dpuproxy/proxy.go,
      resolver.go)

    Every RPC passes through a chain of interceptors before its handler.  The
    only one installed is the proxy: an RPC whose metadata names a DPU is
    rejected, handed on, or forwarded to the DPU, by its method.

    Databases and the network are parameters of one RPC: what the two databases
    answer, which addresses a client can be made for, how the test call to an
    address ends, and what a DPU does with a forwarded call.  The proxy's two
    maps are state; [getConnection] is two critical sections, whose
    interleavings are the relation [conn_step]. *)
From stdpp Require Import base gmap sets list strings.
From S2P Require Import Prelude GoStrings Gnmi Redis World Auth Gnoi.

(** ** Chains (interceptor.go) *)

Section chain.
Context {S Resp : Type}.

Notation Handler := (ST S (status_res Resp)).

(** An interceptor: the method, the request and what comes next. *)
Definition Interceptor (Req : Type) : Type := string → Req → (Req → Handler) → Handler.

(** The loop from the last interceptor to the first. *)
Fixpoint chained {Req} (interceptors : list (Interceptor Req)) (method : string) (handler : Req → Handler)
  : Req → Handler :=
  match interceptors with
  | [] => handler
  | i :: interceptors => λ req, i method req (chained interceptors method handler)
  end.

Definition Chain_UnaryInterceptor {Req} (c : list (Interceptor Req)) : Interceptor Req :=
  λ method req handler, chained c method handler req.

End chain.

(** ** Resolving a DPU (resolver.go) *)

Definition DefaultGNMIPort : string := "50052".
Definition ChassisMidplaneTablePrefix : string := "CHASSIS_MIDPLANE_TABLE|DPU".
Definition DPUConfigTablePrefix : string := "DPU|dpu".

Record DPUInfo := {
  Index : string;
  IPAddress : string;
  Reachable : bool;
  GNMIPort : string;
  GNMIPortsToTry : list string
}.

(** [HGetAll] of one database. *)
Notation RedisClient := (string → res string (gmap string string)).

Definition field_of (m : gmap string string) (k : string) : string := default "" (m !! k).

Definition ports_to_try (gnmiPort : string) : list string :=
  gnmiPort :: filter (λ p, p ≠ gnmiPort) ["8080"; "50052"].

Definition GetDPUInfo (state config : RedisClient) (dpuIndex : string) : res string DPUInfo :=
  match state (ChassisMidplaneTablePrefix +:+ dpuIndex) with
  | Err e => Err ("failed to query StateDB for DPU" +:+ dpuIndex +:+ ": " +:+ e)
  | Ok stateFields =>
      if bool_decide (stateFields = ∅) then Err ("DPU" +:+ dpuIndex +:+ " not found in StateDB")
      else if bool_decide (field_of stateFields "ip_address" = "") then
        Err ("DPU" +:+ dpuIndex +:+ " missing ip_address field in StateDB")
      else
        match config (DPUConfigTablePrefix +:+ dpuIndex) with
        | Err e => Err ("failed to query ConfigDB for DPU" +:+ dpuIndex +:+ ": " +:+ e)
        | Ok configFields =>
            let gnmiPort :=
              if bool_decide (field_of configFields "gnmi_port" = "") then DefaultGNMIPort
              else field_of configFields "gnmi_port" in
            Ok {| Index := dpuIndex;
                  IPAddress := field_of stateFields "ip_address";
                  Reachable := bool_decide (stateFields !! "access" = Some "True");
                  GNMIPort := gnmiPort;
                  GNMIPortsToTry := ports_to_try gnmiPort |}
        end
  end.

(** ** Methods *)

Inductive ForwardingMode := ForwardToDPU | HandleLocally.

Definition defaultForwardableMethods : list (string * ForwardingMode) := [
  ("/gnoi.system.System/Time", ForwardToDPU);
  ("/gnoi.file.File/Put", ForwardToDPU);
  ("/gnoi.file.File/TransferToRemote", HandleLocally);
  ("/gnoi.system.System/Reboot", HandleLocally);
  ("/gnoi.system.System/SetPackage", ForwardToDPU);
  ("/grpc.reflection.v1.ServerReflection/ServerReflectionInfo", HandleLocally);
  ("/grpc.reflection.v1alpha.ServerReflection/ServerReflectionInfo", HandleLocally)
].

Fixpoint find_method (method : string) (l : list (string * ForwardingMode)) : option ForwardingMode :=
  match l with
  | [] => None
  | (m, mode) :: l => if bool_decide (m = method) then Some mode else find_method method l
  end.

Definition getForwardingMode (method : string) : option ForwardingMode :=
  find_method method defaultForwardableMethods.

(** ** Connections *)

(** A connection: the address it was made for, told apart by a number. *)
Record ClientConn := { conn_id : nat; conn_target : string }.

(** The proxy's maps; [dialed] counts the clients made and [closed] lists those
    that were closed. *)
Record DPUProxy := {
  conns : gmap string ClientConn;
  connPorts : gmap string string;
  dialed : nat;
  closed : list nat
}.

Definition NewDPUProxy : DPUProxy := {| conns := ∅; connPorts := ∅; dialed := 0; closed := [] |}.

(** The network as [getConnection] sees it: the error of [grpc.NewClient] for an
    address, and the error with which the test call there ends ([None] for
    success). *)
Record Network := {
  net_new : string → option string;
  net_test : string → option (Code * string)
}.

(** [err == nil || status.Code(err) != codes.Unavailable] *)
Definition reached (e : option (Code * string)) : bool := bool_decide (fst <$> e ≠ Some Unavailable).

(** The loop over the ports, under the write lock. *)
Fixpoint try_ports (n : Network) (dpuIndex ipAddress : string) (all ports : list string) (lastErr : string)
  : ST DPUProxy (res string ClientConn) := λ p,
  match ports with
  | [] => (p, Err ("failed to connect to DPU" +:+ dpuIndex +:+ " on any port [" +:+ Join all " " +:+
                   "]: last error: " +:+ lastErr))
  | port :: ports =>
      let target := ipAddress +:+ ":" +:+ port in
      match net_new n target with
      | Some e => try_ports n dpuIndex ipAddress all ports e p
      | None =>
          let conn := {| conn_id := dialed p; conn_target := target |} in
          if reached (net_test n target) then
            ({| conns := <[dpuIndex := conn]> (conns p); connPorts := <[dpuIndex := port]> (connPorts p);
                dialed := dialed p + 1; closed := closed p |}, Ok conn)
          else
            try_ports n dpuIndex ipAddress all ports (default "" (snd <$> net_test n target))
              {| conns := conns p; connPorts := connPorts p; dialed := dialed p + 1;
                 closed := dialed p :: closed p |}
      end
  end.

(** The first critical section, under the read lock. *)
Definition conn_cached (p : DPUProxy) (dpuIndex : string) : option ClientConn := conns p !! dpuIndex.

(** The second, under the write lock. *)
Definition conn_dial (n : Network) (dpuIndex ipAddress : string) (portsToTry : list string)
  : ST DPUProxy (res string ClientConn) := λ p,
  match conns p !! dpuIndex with
  | Some conn => (p, Ok conn)
  | None => try_ports n dpuIndex ipAddress portsToTry portsToTry "" p
  end.

Definition getConnection (n : Network) (dpuIndex ipAddress : string) (portsToTry : list string)
  : ST DPUProxy (res string ClientConn) := λ p,
  match conn_cached p dpuIndex with
  | Some conn => (p, Ok conn)
  | None => conn_dial n dpuIndex ipAddress portsToTry p
  end.

(** [GetDPUConnection] of a proxy that has a resolver. *)
Definition GetDPUConnection (state config : RedisClient) (n : Network) (dpuIndex : string)
  : ST DPUProxy (res string ClientConn) := λ p,
  match GetDPUInfo state config dpuIndex with
  | Err e => (p, Err e)
  | Ok info =>
      if negb (Reachable info) then (p, Err ("DPU" +:+ dpuIndex +:+ " not reachable"))
      else getConnection n (Index info) (IPAddress info) (GNMIPortsToTry info) p
  end.

(** *** Concurrent callers *)

(** Where a caller of [getConnection] is. *)
Inductive conn_pc :=
| AtCache
| AtDial
| Got (r : res string ClientConn).

Record Caller := { caller_index : string; caller_ip : string; caller_ports : list string; caller_pc : conn_pc }.

Definition at_pc (c : Caller) (pc : conn_pc) : Caller :=
  {| caller_index := caller_index c; caller_ip := caller_ip c; caller_ports := caller_ports c; caller_pc := pc |}.

(** A step of one caller; the network may change between steps. *)
Inductive conn_step : DPUProxy * list Caller → DPUProxy * list Caller → Prop :=
| step_hit p cs i c conn :
    cs !! i = Some c → caller_pc c = AtCache → conn_cached p (caller_index c) = Some conn →
    conn_step (p, cs) (p, <[i := at_pc c (Got (Ok conn))]> cs)
| step_miss p cs i c :
    cs !! i = Some c → caller_pc c = AtCache → conn_cached p (caller_index c) = None →
    conn_step (p, cs) (p, <[i := at_pc c AtDial]> cs)
| step_dial n p cs i c p' r :
    cs !! i = Some c → caller_pc c = AtDial →
    conn_dial n (caller_index c) (caller_ip c) (caller_ports c) p = (p', r) →
    conn_step (p, cs) (p', <[i := at_pc c (Got r)]> cs).

(** ** Forwarding a stream *)

(** What [ss.RecvMsg] returns. *)
Inductive received (M : Type) := Request_ (m : M) | EndOfRequests | ReceiveError (e : Code * string).
Arguments Request_ {M}.
Arguments EndOfRequests {M}.
Arguments ReceiveError {M}.

(** The error of [clientStream.Send]: the end of the stream, when the DPU has
    ended it, or a status.  gRPC gives an error that is no status the code
    Unknown. *)
Inductive send_error := SendEOF | SendStatus (e : Code * string).
Definition as_status (e : send_error) : Code * string :=
  match e with SendEOF => (Unknown, "EOF") | SendStatus e => e end.

(** What the loop does until it reports on [forwardDone]: [sends] are the errors
    of the sends, in order.  The list of requests ends without an end of
    stream while the client is still sending. *)
Inductive forward_result :=
| Waiting
| Forwarded
| ForwardFailed (e : Code * string).

Fixpoint forward_requests {M} (reqs : list (received M)) (sends : list (option send_error)) (sent : list M)
  : list M * forward_result :=
  match reqs with
  | [] => (sent, Waiting)
  | EndOfRequests :: _ => (sent, Forwarded)
  | ReceiveError e :: _ => (sent, ForwardFailed e)
  | Request_ m :: reqs =>
      match sends with
      | Some e :: _ => (sent, ForwardFailed (as_status e))
      | None :: sends => forward_requests reqs sends (sent ++ [m])
      | [] => forward_requests reqs [] (sent ++ [m])
      end
  end.

(** A stream to the DPU: the error of opening it, of each send, what
    [CloseAndRecv] returns, and the error of answering the client. *)
Record DpuStream (R : Type) := {
  ds_open : option string;
  ds_sends : list (option send_error);
  ds_close : res string R;
  ds_answer : option string
}.
Arguments ds_open {R}.
Arguments ds_sends {R}.
Arguments ds_close {R}.
Arguments ds_answer {R}.

(** [forwardFilePutStream] and [forwardSetPackageStream], which differ in their
    message types and in [what], the word before "client stream" and "response"
    in the texts of their errors: what reached the DPU, and the answer ([None]
    while it waits). *)
Definition forwardClientStream {M R} (what : string) (d : DpuStream R) (reqs : list (received M))
  : list M * option (status_res R) :=
  match ds_open d with
  | Some e => ([], Some (Err (Internal, "failed to create " +:+ what +:+ "client stream to DPU: " +:+ e)))
  | None =>
      let '(sent, r) := forward_requests reqs (ds_sends d) [] in
      (sent,
       match r with
       | Waiting => None
       | ForwardFailed e => Some (Err e)
       | Forwarded =>
           Some match ds_close d with
           | Err e => Err (Internal, "error getting " +:+ what +:+ "response from DPU: " +:+ e)
           | Ok response =>
               match ds_answer d with
               | Some e => Err (Internal, "error sending " +:+ what +:+ "response to client: " +:+ e)
               | None => Ok response
               end
           end
       end)
  end.

Definition forwardFilePutStream {M R} := @forwardClientStream M R "".
Definition forwardSetPackageStream {M R} := @forwardClientStream M R "SetPackage ".

Definition forwardStream {M R} (method : string) (d : DpuStream R) (reqs : list (received M))
  : list M * option (status_res R) :=
  if bool_decide (method = "/gnoi.file.File/Put") then forwardFilePutStream d reqs
  else if bool_decide (method = "/gnoi.system.System/SetPackage") then forwardSetPackageStream d reqs
  else ([], Some (Err (Unimplemented, "stream forwarding for method " +:+ method +:+ " not implemented"))).

(** ** The interceptors *)

Section interceptors.
Context {S Msg Resp : Type}.

(** What an RPC meets outside the process. *)
Record Env := {
  env_state : RedisClient;
  env_config : RedisClient;
  env_net : Network;
  env_time : ClientConn → status_res Resp;
  env_stream : ClientConn → DpuStream Resp
}.

(** [p.resolver] may be nil. *)
Context (resolver : bool).

Inductive routed :=
| Rejected (e : Code * string)
| Handled
| ToDpu (conn : ClientConn).

(** What both interceptors do before they forward. *)
Definition route (env : Env) (method : string) (r : Request) : ST DPUProxy routed := λ p,
  let targetMeta := ExtractTargetMetadata r in
  if negb (IsDPUTarget targetMeta) then (p, Handled)
  else match getForwardingMode method with
  | None => (p, Rejected (Unimplemented, "method " +:+ method +:+
      " does not support DPU routing; remove x-sonic-ss-target-* metadata headers"))
  | Some HandleLocally => (p, Handled)
  | Some ForwardToDPU =>
      if negb resolver then (p, Handled)
      else match GetDPUInfo (env_state env) (env_config env) (TargetIndex targetMeta) with
      | Err e => (p, Rejected (NotFound, "DPU" +:+ TargetIndex targetMeta +:+ " not found or unreachable: " +:+ e))
      | Ok dpuInfo =>
          if negb (Reachable dpuInfo) then
            (p, Rejected (Unavailable, "DPU" +:+ Index dpuInfo +:+ " is not currently reachable"))
          else
            let '(p, c) := getConnection (env_net env) (Index dpuInfo) (IPAddress dpuInfo)
                             (GNMIPortsToTry dpuInfo) p in
            match c with
            | Err e => (p, Rejected (Internal, "failed to connect to DPU" +:+ Index dpuInfo +:+ ": " +:+ e))
            | Ok conn => (p, ToDpu conn)
            end
      end
  end.

(** A unary request: the context and whether it is a [*system.TimeRequest]. *)
Record UnaryReq := { u_ctx : Request; u_time : bool }.

Definition forwardTimeRequest (env : Env) (conn : ClientConn) (req : UnaryReq) : status_res Resp :=
  if negb (u_time req) then Err (Internal, "invalid request type for Time method")
  else env_time env conn.

(** The state of the proxy beside that of the handlers. *)
Definition on_handler {A} (m : ST S A) : ST (DPUProxy * S) A := λ s, let '(s', a) := m s.2 in ((s.1, s'), a).

Definition UnaryInterceptor (env : Env) (method : string) (req : UnaryReq) (handler : ST S (status_res Resp))
  : ST (DPUProxy * S) (status_res Resp) := λ s,
  let '(p, r) := route env method (u_ctx req) s.1 in
  match r with
  | Rejected e => ((p, s.2), Err e)
  | Handled => on_handler handler (p, s.2)
  | ToDpu conn =>
      ((p, s.2),
       if bool_decide (method = "/gnoi.system.System/Time") then forwardTimeRequest env conn req
       else Err (Unimplemented, "forwarding for method " +:+ method +:+ " not yet implemented"))
  end.

(** A stream: what reached the DPU beside the answer. *)
Definition StreamInterceptor (env : Env) (method : string) (r : Request) (reqs : list (received Msg))
    (handler : ST S (option (status_res Resp))) : ST (DPUProxy * S) (list Msg * option (status_res Resp)) := λ s,
  let '(p, x) := route env method r s.1 in
  match x with
  | Rejected e => ((p, s.2), ([], Some (Err e)))
  | Handled => let '(s', a) := on_handler handler (p, s.2) in (s', ([], a))
  | ToDpu conn => ((p, s.2), forwardStream method (env_stream env conn) reqs)
  end.

End interceptors.

(** ** Clean-up (setup.go) *)

(** [cleanup]: both clients are closed, the first error is returned. *)
Definition cleanup (close_state close_config : option string) : option string :=
  match close_state with Some e => Some e | None => close_config end.

(** * What the proxy to DPUs guarantees

    One connection per DPU in every interleaving of callers, none left open
    beside those in use; a forwarded stream arrives whole and in order; and
    who may reach a DPU. *)

(** ** Connections *)

(** The maps name the same DPUs; the connections made are those in use, one per
    DPU, and those closed. *)
Record proxy_ok (p : DPUProxy) : Prop := {
  ok_ports : ∀ i c, conns p !! i = Some c → ∃ ip port,
    connPorts p !! i = Some port ∧ conn_target c = ip +:+ ":" +:+ port;
  ok_open : ∀ i c, conns p !! i = Some c → conn_id c < dialed p ∧ conn_id c ∉ closed p;
  ok_own : ∀ i j c d, conns p !! i = Some c → conns p !! j = Some d → conn_id c = conn_id d → i = j;
  ok_made : ∀ id, id < dialed p → id ∈ closed p ∨ ∃ i c, conns p !! i = Some c ∧ conn_id c = id;
  ok_closed : ∀ id, id ∈ closed p → id < dialed p
}.

Lemma proxy_ok_new : proxy_ok NewDPUProxy.
Proof. split; simpl; try (intros *; rewrite lookup_empty; done); [lia|set_solver]. Qed.

(** A connection that failed its test. *)
Lemma proxy_ok_discard p :
  proxy_ok p →
  proxy_ok {| conns := conns p; connPorts := connPorts p; dialed := dialed p + 1; closed := dialed p :: closed p |}.
Proof.
  intros [Hp Ho Hw Hm Hc]. split; simpl; [done| |done| |].
  - intros i c [Hl Hn]%Ho. split; [lia|]. apply not_elem_of_cons. split; [lia|done].
  - intros id Hid. destruct (decide (id = dialed p)) as [->|]; [left; left|].
    destruct (Hm id) as [?|?]; [lia|left; by right|by right].
  - intros id [->|?%Hc]%elem_of_cons; lia.
Qed.

(** A connection that passed it. *)
Lemma proxy_ok_keep p i ip port :
  proxy_ok p → conns p !! i = None →
  proxy_ok {| conns := <[i := {| conn_id := dialed p; conn_target := ip +:+ ":" +:+ port |}]> (conns p);
              connPorts := <[i := port]> (connPorts p); dialed := dialed p + 1; closed := closed p |}.
Proof.
  intros [Hp Ho Hw Hm Hc] Hi. split; simpl.
  - intros j c [[<- <-]|[Hne Hj]]%lookup_insert_Some; [exists ip, port; by rewrite lookup_insert_eq|].
    destruct (Hp j c Hj) as (ip' & port' & ? & ?). exists ip', port'. by rewrite lookup_insert_ne.
  - intros j c [[<- <-]|[_ [? ?]%Ho]]%lookup_insert_Some; simpl; [|split; [lia|done]].
    split; [lia|]. intros ?%Hc. lia.
  - intros j k c d [[<- <-]|[_ Hj]]%lookup_insert_Some [[<- <-]|[_ Hk]]%lookup_insert_Some; simpl; intros Heq; eauto.
    + apply Ho in Hk. lia.
    + apply Ho in Hj. lia.
  - intros id Hid. destruct (decide (id = dialed p)) as [->|].
    + right. eexists i, _. by rewrite lookup_insert_eq.
    + destruct (Hm id) as [?|(j & c & Hj & <-)]; [lia|by left|]. right. exists j, c. split; [|done].
      rewrite lookup_insert_ne; [done|congruence].
  - intros id ?%Hc. lia.
Qed.

(** What the loop over the ports leaves. *)
Lemma try_ports_spec n i ip all ports e p :
  proxy_ok p → conns p !! i = None →
  let '(p', r) := try_ports n i ip all ports e p in
  proxy_ok p' ∧ (∀ j, j ≠ i → conns p' !! j = conns p !! j) ∧
  match r with Ok c => conns p' !! i = Some c | Err _ => conns p' !! i = None end.
Proof.
  revert e p. induction ports as [|port ports IH]; intros e p Hp Hi; simpl; [done|].
  destruct (net_new n _); [by apply IH|]. destruct (reached _).
  - split; [by apply proxy_ok_keep|]. simpl. split; [|by rewrite lookup_insert_eq].
    intros j Hj. by rewrite lookup_insert_ne.
  - match goal with |- context [try_ports _ _ _ _ _ ?e' ?p'] => specialize (IH e' p') end.
    destruct (try_ports _ _ _ _ _ _ _) as [p' r]. apply IH; [by apply proxy_ok_discard|done].
Qed.

Lemma conn_dial_spec n i ip ports p :
  proxy_ok p →
  let '(p', r) := conn_dial n i ip ports p in
  proxy_ok p' ∧ (∀ j c, conns p !! j = Some c → conns p' !! j = Some c) ∧
  (∀ c, r = Ok c → conns p' !! i = Some c).
Proof.
  intros Hp. unfold conn_dial. destruct (conns p !! i) as [c|] eqn:Hi; [naive_solver|].
  pose proof (try_ports_spec n i ip ports ports "" p Hp Hi) as Ht.
  destruct (try_ports _ _ _ _ _ _ _) as [p' r]. destruct Ht as (Hok & Hne & Hr). split; [done|]. split.
  - intros j c Hj. rewrite Hne; [done|]. congruence.
  - by intros c ->.
Qed.

(** ** Callers *)

Definition caller_ok (p : DPUProxy) (c : Caller) : Prop :=
  ∀ conn, caller_pc c = Got (Ok conn) → conns p !! caller_index c = Some conn.

Lemma caller_ok_mono p p' c :
  (∀ j d, conns p !! j = Some d → conns p' !! j = Some d) → caller_ok p c → caller_ok p' c.
Proof. intros Hm Hc conn Hg. by apply Hm, Hc. Qed.

Definition system_ok (s : DPUProxy * list Caller) : Prop := proxy_ok s.1 ∧ Forall (caller_ok s.1) s.2.

Lemma conn_step_ok s s' : conn_step s s' → system_ok s → system_ok s'.
Proof.
  unfold system_ok. destruct 1 as [p cs i c conn Hi Hpc Hh|p cs i c Hi Hpc Hm|n p cs i c p' r Hi Hpc Hd]; simpl;
    intros [Hp Hcs].
  - split; [done|]. apply Forall_insert; [done|]. by intros ? [= <-].
  - split; [done|]. apply Forall_insert; [done|]. by intros ? [=].
  - pose proof (conn_dial_spec n (caller_index c) (caller_ip c) (caller_ports c) p Hp) as Hs. rewrite Hd in Hs.
    destruct Hs as (Hp' & Hm & Hr). split; [done|]. apply Forall_insert.
    + eapply Forall_impl; [exact Hcs|]. intros c'. by apply caller_ok_mono.
    + intros conn [= ->]. by apply Hr.
Qed.

Lemma conn_steps_ok s s' : rtc conn_step s s' → system_ok s → system_ok s'.
Proof. induction 1; eauto using conn_step_ok. Qed.

(** C36. However calls of [getConnection] interleave and whatever the network does
    between them, callers for one DPU get one connection, callers for two DPUs
    get two, and every connection that was made is in use or closed. *)
Theorem one_connection (cs : list Caller) p cs' :
  Forall (λ c, caller_pc c = AtCache) cs →
  rtc conn_step (NewDPUProxy, cs) (p, cs') →
  (∀ c d x y, c ∈ cs' → d ∈ cs' → caller_pc c = Got (Ok x) → caller_pc d = Got (Ok y) →
     caller_index c = caller_index d ↔ x = y) ∧
  (∀ id, id < dialed p → id ∈ closed p ∨ ∃ i x, conns p !! i = Some x ∧ conn_id x = id) ∧
  (∀ c x, c ∈ cs' → caller_pc c = Got (Ok x) → conn_id x ∉ closed p).
Proof.
  intros Hcs Hr. apply conn_steps_ok in Hr as [Hp Hc].
  2:{ split; [apply proxy_ok_new|]. eapply Forall_impl; [exact Hcs|]. intros c Hpc conn Hg. simpl in *. congruence. }
  simpl in *. rewrite Forall_forall in Hc. split; [|split].
  - intros c d x y Hin Hin' Hx Hy. apply (Hc _ Hin) in Hx. apply (Hc _ Hin') in Hy. split.
    + intros Heq. rewrite Heq in Hx. congruence.
    + intros <-. by eapply (ok_own p Hp).
  - apply (ok_made p Hp).
  - intros c x Hin Hx%(Hc _ Hin). by apply (ok_open p Hp _ _ Hx).
Qed.

(** A connection is never replaced: a DPU that comes back under another address
    is still called at the first. *)
Theorem connection_sticks n i ip ports p c :
  conns p !! i = Some c → getConnection n i ip ports p = (p, Ok c).
Proof. unfold getConnection, conn_cached. by intros ->. Qed.

(** ** Ports *)

Lemma ports_to_try_spec port : head (ports_to_try port) = Some port ∧ NoDup (ports_to_try port).
Proof.
  split; [done|]. unfold ports_to_try. apply NoDup_cons. split.
  - rewrite list_elem_of_filter. naive_solver.
  - apply NoDup_filter. by apply (bool_decide_unpack _).
Qed.

(** ** Streams *)

Lemma forward_requests_spec {M} (reqs : list (received M)) sends sent0 sent r :
  forward_requests reqs sends sent0 = (sent, r) →
  ∃ ms rest, sent = sent0 ++ ms ∧ reqs = (Request_ <$> ms) ++ rest ∧
    match r with
    | Waiting => rest = []
    | Forwarded => ∃ rest', rest = EndOfRequests :: rest'
    | ForwardFailed _ => rest ≠ []
    end.
Proof.
  revert sends sent0. induction reqs as [|[m| |e] reqs IH]; intros sends sent0; simpl.
  - intros [= <- <-]. exists [], []. by rewrite app_nil_r.
  - assert (∀ sends', forward_requests reqs sends' (sent0 ++ [m]) = (sent, r) →
      ∃ ms rest, sent = sent0 ++ ms ∧ Request_ m :: reqs = (Request_ <$> ms) ++ rest ∧
        match r with
        | Waiting => rest = [] | Forwarded => ∃ rest', rest = EndOfRequests :: rest' | ForwardFailed _ => rest ≠ []
        end) as Hgo.
    { intros sends' (ms & rest & -> & -> & Hr)%IH. exists (m :: ms), rest. by rewrite <- app_assoc. }
    destruct sends as [|[e|] sends]; [apply Hgo| |apply Hgo].
    intros [= <- <-]. exists [], (Request_ m :: reqs). by rewrite app_nil_r.
  - intros [= <- <-]. exists [], (EndOfRequests :: reqs). rewrite app_nil_r. eauto.
  - intros [= <- <-]. exists [], (ReceiveError e :: reqs). by rewrite app_nil_r.
Qed.

(** C33. A stream that is forwarded to a DPU: what the DPU has received is at any
    time the first requests of the client, in order, and the client gets the
    DPU's response only after the DPU has received all of them. *)
Theorem forwarded_in_order {M R} (method : string) (d : DpuStream R) (reqs : list (received M)) sent ans :
  forwardStream method d reqs = (sent, ans) →
  ∃ rest, reqs = (Request_ <$> sent) ++ rest ∧
    (∀ r, ans = Some (Ok r) → ds_close d = Ok r ∧ ∃ rest', rest = EndOfRequests :: rest') ∧
    (ans = None → rest = []).
Proof.
  assert (∀ a : option (status_res R), ([], a) = (sent, ans) → (∀ r, a ≠ Some (Ok r)) → a ≠ None →
    ∃ rest, reqs = (Request_ <$> sent) ++ rest ∧
    (∀ r, ans = Some (Ok r) → ds_close d = Ok r ∧ ∃ rest', rest = EndOfRequests :: rest') ∧
    (ans = None → rest = [])) as Hnone.
  { intros a [= <- <-] Hok Hn. exists reqs. split; [done|]. naive_solver. }
  assert (∀ what, forwardClientStream what d reqs = (sent, ans) → ∃ rest, reqs = (Request_ <$> sent) ++ rest ∧
    (∀ r, ans = Some (Ok r) → ds_close d = Ok r ∧ ∃ rest', rest = EndOfRequests :: rest') ∧
    (ans = None → rest = [])) as Hc.
  { intros what. unfold forwardClientStream. destruct (ds_open d); [intros Heq; by apply (Hnone _ Heq)|].
    destruct (forward_requests reqs (ds_sends d) []) as [sent' r] eqn:Hf.
    apply forward_requests_spec in Hf as (ms & rest & -> & -> & Hr). intros [= <- <-].
    exists rest. split; [done|].
    destruct r; [naive_solver| |naive_solver]. split; [|done]. intros x [= Hx].
    destruct (ds_close d), (ds_answer d); simplify_eq. eauto. }
  unfold forwardStream, forwardFilePutStream, forwardSetPackageStream.
  repeat case_bool_decide; [apply Hc|apply Hc|]. intros Heq. by apply (Hnone _ Heq).
Qed.

(** ** Who reaches a DPU *)

(** An RPC that names no DPU goes to its handler, and the proxy is not touched. *)
Lemma route_local {Resp} res_ (env : Env (Resp := Resp)) method r p :
  IsDPUTarget (ExtractTargetMetadata r) = false → route res_ env method r p = (p, Handled).
Proof. unfold route. by intros ->. Qed.

(** Beyond the target, routing does not look at the request. *)
Lemma route_target {Resp} res_ (env : Env (Resp := Resp)) method r r' p :
  ExtractTargetMetadata r = ExtractTargetMetadata r' → route res_ env method r p = route res_ env method r' p.
Proof. unfold route. by intros ->. Qed.

(** A method that is forwarded is never handed to the switch's handler. *)
Lemma route_forwarded {Resp} (env : Env (Resp := Resp)) method r p :
  IsDPUTarget (ExtractTargetMetadata r) = true → getForwardingMode method = Some ForwardToDPU →
  (route true env method r p).2 ≠ Handled.
Proof.
  unfold route. intros -> ->. simpl. destruct (GetDPUInfo _ _ _) as [info|]; [|done].
  destruct (Reachable info); [|done]. simpl. by destruct (getConnection _ _ _ _ _) as [? []].
Qed.

(** Time, Put and SetPackage with a DPU in their metadata are answered
    without the switch's handler and so without its authentication: two
    requests that name the same target have the same effect and the same
    answer, whoever sends them and whatever the handlers would say, and leave
    the handlers' state alone. *)
Theorem forwarded_ignores_caller {S Msg Resp} (env : Env (Resp := Resp)) method r r' (reqs : list (received Msg))
    (h h' : ST S (option (status_res Resp))) p s :
  getForwardingMode method = Some ForwardToDPU →
  IsDPUTarget (ExtractTargetMetadata r) = true →
  ExtractTargetMetadata r = ExtractTargetMetadata r' →
  StreamInterceptor true env method r reqs h (p, s) = StreamInterceptor true env method r' reqs h' (p, s) ∧
  (StreamInterceptor true env method r reqs h (p, s)).1.2 = s.
Proof.
  intros Hm Ht Heq. pose proof (route_forwarded env method r p Ht Hm) as Hf.
  unfold StreamInterceptor. simpl. rewrite <- (route_target true env method r r' p Heq).
  destruct (route true env method r p) as [p' []]; simpl in *; done.
Qed.

(** ** Chains *)

(** Interceptors that call what comes next run in order around the handler; one
    that does not cuts off the rest. *)
Lemma chained_app {S Resp Req} (c1 c2 : list (Interceptor (S := S) (Resp := Resp) Req)) method handler :
  chained (c1 ++ c2) method handler = chained c1 method (chained c2 method handler).
Proof. induction c1 as [|i c1 IH]; simpl; [done|]. by rewrite IH. Qed.

Module DpuExample.

(** Two callers for DPU0 and one for DPU1; only port 50052 answers. *)
Definition net : Network := {|
  net_new _ := None;
  net_test t := if HasSuffix t ":8080" then Some (Unavailable, "connection refused") else None
|}.
Definition caller (i ip : string) (pc : conn_pc) : Caller :=
  {| caller_index := i; caller_ip := ip; caller_ports := ["8080"; "50052"]; caller_pc := pc |}.
Definition callers (a b c : conn_pc) : list Caller :=
  [caller "0" "169.254.200.1" a; caller "0" "169.254.200.1" b; caller "1" "169.254.200.2" c].
Definition c0 : ClientConn := {| conn_id := 1; conn_target := "169.254.200.1:50052" |}.
Definition c1 : ClientConn := {| conn_id := 3; conn_target := "169.254.200.2:50052" |}.
Definition proxy0 : DPUProxy := {| conns := {["0" := c0]}; connPorts := {["0" := "50052"]}; dialed := 2; closed := [0] |}.
Definition proxy1 : DPUProxy :=
  {| conns := <["1" := c1]> {["0" := c0]}; connPorts := <["1" := "50052"]> {["0" := "50052"]}; dialed := 4;
     closed := [2; 0] |}.

(** Both callers for DPU0 miss the cache before one of them dials. *)
Lemma race : rtc conn_step (NewDPUProxy, callers AtCache AtCache AtCache)
                           (proxy1, callers (Got (Ok c0)) (Got (Ok c0)) (Got (Ok c1))).
Proof.
  eapply rtc_l; [by eapply (step_miss _ _ 0)|]. simpl.
  eapply rtc_l; [by eapply (step_miss _ _ 1)|]. simpl.
  eapply rtc_l; [eapply (step_dial net _ _ 0); [done|done|vm_compute; reflexivity]|]. simpl.
  eapply rtc_l; [eapply (step_dial net _ _ 1); [done|done|vm_compute; reflexivity]|]. simpl.
  eapply rtc_l; [by eapply (step_miss _ _ 2)|]. simpl.
  eapply rtc_l; [eapply (step_dial net _ _ 2); [done|done|vm_compute; reflexivity]|]. apply rtc_refl.
Qed.

Lemma one_connection_witness :
  rtc conn_step (NewDPUProxy, callers AtCache AtCache AtCache)
                (proxy1, callers (Got (Ok c0)) (Got (Ok c0)) (Got (Ok c1))) ∧
  (∀ c d x y, c ∈ callers (Got (Ok c0)) (Got (Ok c0)) (Got (Ok c1)) →
     d ∈ callers (Got (Ok c0)) (Got (Ok c0)) (Got (Ok c1)) →
     caller_pc c = Got (Ok x) → caller_pc d = Got (Ok y) → caller_index c = caller_index d ↔ x = y) ∧
  (∀ id, id < dialed proxy1 → id ∈ closed proxy1 ∨ ∃ i x, conns proxy1 !! i = Some x ∧ conn_id x = id) ∧
  (∀ c x, c ∈ callers (Got (Ok c0)) (Got (Ok c0)) (Got (Ok c1)) → caller_pc c = Got (Ok x) →
     conn_id x ∉ closed proxy1).
Proof.
  split; [exact race|].
  apply (one_connection (callers AtCache AtCache AtCache)); [|exact race]. repeat constructor.
Defined.

Definition stream : DpuStream string := {| ds_open := None; ds_sends := []; ds_close := Ok "done"; ds_answer := None |}.

Lemma forwarded_in_order_witness :
  forwardStream "/gnoi.file.File/Put" stream [Request_ "open"; Request_ "chunk"; EndOfRequests] =
    (["open"; "chunk"], Some (Ok "done")) ∧
  ∃ rest, [Request_ "open"; Request_ "chunk"; EndOfRequests] = (Request_ <$> ["open"; "chunk"]) ++ rest ∧
    (∀ r, Some (Ok (E := Code * string) "done") = Some (Ok r) → ds_close stream = Ok r ∧
       ∃ rest', rest = EndOfRequests :: rest') ∧
    (Some (Ok (E := Code * string) "done") = None → rest = []).
Proof.
  assert (forwardStream "/gnoi.file.File/Put" stream [Request_ "open"; Request_ "chunk"; EndOfRequests] =
    (["open"; "chunk"], Some (Ok "done"))) as He by reflexivity.
  split; [exact He|]. exact (forwarded_in_order _ _ _ _ _ He).
Defined.

(** A caller without credentials puts a file on DPU0 of a switch that asks for
    a password. *)
Definition anyone : Request := {|
  req_peer := None;
  req_md := Some {["x-sonic-ss-target-type" := ["dpu"]; "x-sonic-ss-target-index" := ["0"]]}
|}.
Definition admin : Request := {|
  req_peer := None;
  req_md := Some (<["username" := ["admin"]]>
    {["x-sonic-ss-target-type" := ["dpu"]; "x-sonic-ss-target-index" := ["0"]]})
|}.
Definition env : Env (Resp := string) := {|
  env_state k := Ok (if bool_decide (k = "CHASSIS_MIDPLANE_TABLE|DPU0")
                     then {["ip_address" := "169.254.200.1"; "access" := "True"]} else ∅);
  env_config _ := Ok ∅;
  env_net := net;
  env_time _ := Ok "now";
  env_stream _ := stream
|}.
Definition refuse : ST () (option (status_res string)) := mret (Some (Err (Unauthenticated, "no credentials"))).

Lemma forwarded_ignores_caller_witness :
  getForwardingMode "/gnoi.file.File/Put" = Some ForwardToDPU ∧
  StreamInterceptor true env "/gnoi.file.File/Put" anyone [Request_ "open"; EndOfRequests] refuse (NewDPUProxy, ()) =
  StreamInterceptor true env "/gnoi.file.File/Put" admin [Request_ "open"; EndOfRequests] refuse (NewDPUProxy, ()) ∧
  (StreamInterceptor true env "/gnoi.file.File/Put" anyone [Request_ "open"; EndOfRequests] refuse
     (NewDPUProxy, ())).1.2 = () ∧
  (StreamInterceptor true env "/gnoi.file.File/Put" anyone [Request_ "open"; EndOfRequests] refuse
     (NewDPUProxy, ())).2 = (["open"], Some (Ok "done")).
Proof.
  destruct (forwarded_ignores_caller env "/gnoi.file.File/Put" anyone admin [Request_ "open"; EndOfRequests]
    refuse refuse NewDPUProxy ()) as [Hsame Hstate]; [vm_compute; reflexivity..|].
  split; [reflexivity|]. split; [exact Hsame|]. split; [exact Hstate|]. vm_compute. reflexivity.
Defined.

(** A DPU that refuses a file after the first chunk ends the stream; the client
    is told of an end of file, not why. *)
Lemma refusal_lost :
  forwardStream "/gnoi.file.File/Put"
    {| ds_open := None; ds_sends := [None; Some SendEOF]; ds_close := Err (A := string) "disk full"; ds_answer := None |}
    [Request_ "open"; Request_ "chunk"; EndOfRequests] = (["open"], Some (Err (Unknown, "EOF"))).
Proof. reflexivity. Qed.

End DpuExample.
