(* ===== verification/Operational.v ===== *)
(** * Operational paths (src/pkg/server/operational-handler/,
      src/internal/diskspace, src/internal/firmware)

    Get on the target OPERATIONAL answers two kinds of path: the space of a
    file system and the files under a directory.  The handler of a path is
    found by comparing its text with patterns, in the order of a map.

    The file system is a parameter: [Stat], [Statfs], the entries that
    [filepath.WalkDir] visits, with their paths relative to the root, and the
    MD5 sums that could be computed.  [filepath.Match] is modelled over bytes;
    the format of times and the JSON of strings are parameters. *)
From Stdlib Require Import Ascii.
From stdpp Require Import base gmap sets list strings pretty.
From S2P Require Import Prelude GoStrings Gnmi Auth Json.

(** ** The host *)

Inductive stat_result := StatOk | StatNotExist | StatErr (e : string).

Record Statfs_t := { Bsize : Z; Blocks : Z; Bavail : Z }.

Record DirInfo := { i_size : Z; i_mod_time : Z; i_is_dir : bool; i_mode : string }.

(** An entry of a walk: its path below the root (empty for the root), whether
    it could be read, what [d.Info] gives, and the sum of its contents. *)
Record WalkEntry := {
  w_rel : string;
  w_err : bool;
  w_info : option DirInfo;
  w_md5 : option string
}.

Record OsHost := {
  os_stat : string → stat_result;
  os_statfs : string → res string Statfs_t;
  os_walk : string → list WalkEntry
}.

(** ** Disk space (internal/diskspace) *)

Record Info := { info_Path : string; TotalMB : Z; AvailableMB : Z }.

Definition mod64 (z : Z) : Z := (z mod 2 ^ 64)%Z.

(** The path that is looked at: host paths are below /mnt/host in a container. *)
Definition host_path (h : OsHost) (path : string) : string :=
  let cleanPath := Clean path in
  if negb (HasPrefix cleanPath "/mnt/host") then
    match os_stat h "/mnt/host" with StatOk => "/mnt/host" +:+ cleanPath | _ => cleanPath end
  else cleanPath.

Definition to_mb (blocks bsize : Z) : Z := (mod64 (mod64 blocks * mod64 bsize) / (1024 * 1024))%Z.

Definition Monitor_Get (h : OsHost) (path : string) : res string Info :=
  if bool_decide (path = "") then Err "filesystem path cannot be empty"
  else
    match os_statfs h (host_path h path) with
    | Err e => Err ("failed to get filesystem stats for " +:+ host_path h path +:+ ": " +:+ e)
    | Ok stat => Ok {| info_Path := path; TotalMB := to_mb (Blocks stat) (Bsize stat);
                       AvailableMB := to_mb (Bavail stat) (Bsize stat) |}
    end.

Definition IsValidPath (h : OsHost) (path : string) : bool :=
  negb (bool_decide (path = "")) && is_ok (os_statfs h (host_path h path)).

(** Results and errors of [GetMultiple], in order. *)
Fixpoint get_each (h : OsHost) (paths : list string) : list Info * list string :=
  match paths with
  | [] => ([], [])
  | path :: paths =>
      let '(results, errors) := get_each h paths in
      match Monitor_Get h path with
      | Ok info => (info :: results, errors)
      | Err e => (results, ("path " +:+ path +:+ ": " +:+ e) :: errors)
      end
  end.

Definition GetMultiple (h : OsHost) (paths : list string) : list Info * option string :=
  let '(results, errors) := get_each h paths in
  (results, match errors with [] => None | _ => Some ("errors occurred: " +:+ Join errors "; ") end).

(** ** Files (internal/firmware) *)

Record FileInfo := {
  Name : string;
  Size : Z;
  ModTime : Z;
  IsDirectory : bool;
  Permissions : string;
  Type_ : string;
  MD5Sum : string
}.

(** [filepath.Ext]: from the last dot of the last element. *)
Fixpoint ext_go (s acc : string) (found : bool) : string :=
  match s with
  | EmptyString => if found then acc else ""
  | String c s =>
      if bool_decide (c = "/"%char) then ext_go s "" false
      else if bool_decide (c = "."%char) then ext_go s "." true
      else ext_go s (if found then acc +:+ String c "" else acc) found
  end.
Definition Ext (s : string) : string := ext_go s "" false.

(** [filepath.Base] of a relative path without trailing slashes. *)
Fixpoint base_go (s acc : string) : string :=
  match s with
  | EmptyString => acc
  | String c s => if bool_decide (c = "/"%char) then base_go s "" else base_go s (acc +:+ String c "")
  end.
Definition Base (s : string) : string := base_go s "".

Definition contains_any (s : string) (subs : list string) : bool := existsb (Contains s) subs.

Definition determineFirmwareType (filename : string) (isDir : bool) : string :=
  if isDir then "directory"
  else
    let lowername := ToLower filename in
    let ext := ToLower (Ext filename) in
    if negb (bool_decide (ext = ".bin")) && negb (bool_decide (ext = ".img")) then "other"
    else if bool_decide (ext = ".img") && Contains lowername "sonic" then "other"
    else if contains_any lowername ["bootloader"; "boot"] then "bootloader"
    else if contains_any lowername ["bios"; "uefi"] then "bios"
    else if contains_any lowername ["microcode"; "ucode"] then "microcode"
    else if contains_any lowername ["asic"; "fpga"] then "asic"
    else if contains_any lowername ["phy"; "serdes"] then "phy"
    else if Contains lowername "driver" then "driver"
    else "firmware".

Definition IsFirmwareFile (filename : string) : bool :=
  let ext := ToLower (Ext filename) in
  if bool_decide (ext = ".bin") then true
  else if bool_decide (ext = ".img") then negb (Contains (ToLower filename) "sonic")
  else false.

Definition resolveFilesystemPath (fsPath rootFS : string) : string :=
  if bool_decide (rootFS = "") || bool_decide (rootFS = "/") then fsPath
  else if HasPrefix fsPath rootFS then fsPath
  else if HasPrefix fsPath "/" then path_Join rootFS fsPath
  else fsPath.

(** The function [ListFiles] gives [WalkDir]: the entry it appends. *)
Definition walk_file (e : WalkEntry) : option FileInfo :=
  if w_err e then None
  else if bool_decide (w_rel e = "") then None
  else
    info ← w_info e;
    Some {| Name := w_rel e; Size := i_size info; ModTime := i_mod_time info; IsDirectory := i_is_dir info;
            Permissions := i_mode info; Type_ := determineFirmwareType (w_rel e) (i_is_dir info);
            MD5Sum := if i_is_dir info then "" else default "" (w_md5 e) |}.

Definition ListFiles (h : OsHost) (directory rootFS : string) : res string (list FileInfo) :=
  let resolvedPath := resolveFilesystemPath directory rootFS in
  match os_stat h resolvedPath with
  | StatNotExist => Err ("directory does not exist: " +:+ directory)
  | StatErr e => Err ("failed to access directory " +:+ directory +:+ ": " +:+ e)
  | StatOk => Ok (omap walk_file (os_walk h resolvedPath))
  end.

Definition GetFileCount (h : OsHost) (directory rootFS : string) : res string Z :=
  files ← ListFiles h directory rootFS; Ok (Z.of_nat (length files)).

Definition GetFileInfo (h : OsHost) (directory filename rootFS : string) : res string FileInfo :=
  files ← ListFiles h directory rootFS;
  of_option ("file not found: " +:+ filename) (list_find (λ f, Name f = filename) files ≫= λ p, Some p.2).

Definition GetFilesByType (h : OsHost) (directory rootFS fileType : string) : res string (list FileInfo) :=
  files ← ListFiles h directory rootFS;
  Ok (filter (λ f, Type_ f = fileType ∨ fileType = "all") files).

(** ** [filepath.Match] *)

Inductive glob_tok :=
| Star
| AnyChar
| Class (negated : bool) (ranges : list (Ascii.ascii * Ascii.ascii))
| Lit (c : Ascii.ascii).

Local Open Scope char_scope.

(** A character of a class, which may be escaped. *)
Definition get_esc (l : list Ascii.ascii) : option (Ascii.ascii * list Ascii.ascii) :=
  match l with
  | [] => None
  | "\" :: c :: l => Some (c, l)
  | ["\"] => None
  | ("-" | "]") :: _ => None
  | c :: l => Some (c, l)
  end.

(** The ranges of a class up to its bracket; [n] bounds their number. *)
Fixpoint parse_ranges (n : nat) (l : list Ascii.ascii) (acc : list (Ascii.ascii * Ascii.ascii))
  : option (list (Ascii.ascii * Ascii.ascii) * list Ascii.ascii) :=
  match n with
  | O => None
  | S n =>
      match l, acc with
      | "]" :: l, _ :: _ => Some (reverse acc, l)
      | _, _ =>
          '(lo, l) ← get_esc l;
          match l with
          | "-" :: l => '(hi, l) ← get_esc l; parse_ranges n l ((lo, hi) :: acc)
          | _ => parse_ranges n l ((lo, lo) :: acc)
          end
      end
  end.

(** A well-formed pattern as tokens; [n] bounds their number. *)
Fixpoint parse_glob (n : nat) (l : list Ascii.ascii) : option (list glob_tok) :=
  match n with
  | O => None
  | S n =>
      match l with
      | [] => Some []
      | "*" :: l => ts ← parse_glob n l; Some (Star :: ts)
      | "?" :: l => ts ← parse_glob n l; Some (AnyChar :: ts)
      | "[" :: l =>
          let '(neg, l) := match l with "^" :: l => (true, l) | _ => (false, l) end in
          '(rs, l) ← parse_ranges (S (length l)) l [];
          ts ← parse_glob n l; Some (Class neg rs :: ts)
      | "\" :: l => match l with c :: l => ts ← parse_glob n l; Some (Lit c :: ts) | [] => None end
      | c :: l => ts ← parse_glob n l; Some (Lit c :: ts)
      end
  end.

Definition in_range (c : Ascii.ascii) (r : Ascii.ascii * Ascii.ascii) : bool :=
  (Ascii.nat_of_ascii r.1 <=? Ascii.nat_of_ascii c)%nat && (Ascii.nat_of_ascii c <=? Ascii.nat_of_ascii r.2)%nat.

Definition tok_matches (t : glob_tok) (c : Ascii.ascii) : bool :=
  match t with
  | Star => false
  | AnyChar => negb (bool_decide (c = "/"))
  | Class neg rs => xorb neg (existsb (in_range c) rs)
  | Lit d => bool_decide (c = d)
  end.

Fixpoint glob_match (ts : list glob_tok) : list Ascii.ascii → bool :=
  match ts with
  | [] => λ s, bool_decide (s = [])
  | Star :: ts =>
      let rest := glob_match ts in
      fix go (s : list Ascii.ascii) : bool :=
        rest s || match s with
                  | [] => false
                  | c :: s => negb (bool_decide (c = "/")) && go s
                  end
  | t :: ts => λ s, match s with [] => false | c :: s => tok_matches t c && glob_match ts s end
  end.
Local Close Scope char_scope.

(** [filepath.Match(pattern, name)]; [None] is ErrBadPattern. *)
Definition Match (pattern name : string) : option bool :=
  let l := String.list_ascii_of_string pattern in
  ts ← parse_glob (S (length l)) l;
  Some (glob_match ts (String.list_ascii_of_string name)).

(** ** The handlers of paths *)

Definition diskspace_SupportedPaths : list string := ["filesystem/disk-space"].
Definition firmware_SupportedPaths : list string := ["filesystem/files"].

(** [extractFilesystemPath] *)
Fixpoint fs_path_of (elems : list PathElem) : res string string :=
  match elems with
  | [] => Err "no filesystem path found in gNMI path"
  | e :: elems =>
      if bool_decide (elem_name e = "filesystem") then
        match elem_key e !! "path" with
        | Some pathValue => if bool_decide (pathValue = "") then Err "filesystem path cannot be empty" else Ok pathValue
        | None => fs_path_of elems
        end
      else fs_path_of elems
  end.

Definition extractFilesystemPath (path : option Path) : res string string :=
  match path with
  | None => Err "path cannot be nil"
  | Some p => match path_elem p with [] => Err "path elements cannot be empty" | l => fs_path_of l end
  end.

(** The variables of [extractFilePathInfo]. *)
Record PathInfo := { pi_path : string; pi_pattern : string; pi_field : string }.

Fixpoint file_path_go (elems : list PathElem) (v : PathInfo) : res string PathInfo :=
  match elems with
  | [] => Ok v
  | e :: elems =>
      filesystemPath ←
        (if bool_decide (elem_name e = "filesystem") then
           match elem_key e !! "path" with
           | Some pathValue =>
               if bool_decide (pathValue = "") then Err "filesystem path cannot be empty" else Ok pathValue
           | None => Err "filesystem path not specified in path"
           end
         else Ok (pi_path v));
      file_path_go elems
        (if bool_decide (elem_name e = "files") then
           {| pi_path := filesystemPath; pi_pattern := default (pi_pattern v) (elem_key e !! "pattern");
              pi_field := match elems with next :: _ => elem_name next | [] => pi_field v end |}
         else {| pi_path := filesystemPath; pi_pattern := pi_pattern v; pi_field := pi_field v |})
  end.

Definition extractFilePathInfo (path : option Path) : res string PathInfo :=
  match path with
  | None => Err "path cannot be nil"
  | Some p =>
      match path_elem p with
      | [] => Err "path elements cannot be empty"
      | l =>
          v ← file_path_go l {| pi_path := ""; pi_pattern := "*"; pi_field := "list" |};
          if bool_decide (pi_path v = "") then Err "no filesystem path found in gNMI path" else Ok v
      end
  end.

(** The loop of [filterFilesByPattern]; [None] when a match reports a bad
    pattern. *)
Fixpoint filter_go (files : list FileInfo) (pattern : string) : option (list FileInfo) :=
  match files with
  | [] => Some []
  | f :: files =>
      matched ← Match pattern (Base (Name f));
      rest ← filter_go files pattern;
      Some (if (matched : bool) then f :: rest else rest)
  end.

Definition filterFilesByPattern (files : list FileInfo) (pattern : string) : list FileInfo :=
  if bool_decide (pattern = "*") || bool_decide (pattern = "") then files
  else default files (filter_go files pattern).

Section handlers.
Context {MR : MapRange}.
Context (json_string : string → string) (format_time : Z → string).

Definition diskSpace_json (i : Info) : string := json_object [
  ("path", json_string (info_Path i));
  ("total-mb", Itoa (TotalMB i));
  ("available-mb", Itoa (AvailableMB i))
].

Definition DiskSpace_HandleGet (h : OsHost) (path : option Path) : res string string :=
  match extractFilesystemPath path with
  | Err e => Err ("failed to extract filesystem path: " +:+ e)
  | Ok filesystemPath =>
      match Monitor_Get h filesystemPath with
      | Err e => Err ("failed to get disk space for path " +:+ filesystemPath +:+ ": " +:+ e)
      | Ok info => Ok (diskSpace_json info)
      end
  end.

(** [FirmwareFileInfo] of a file, as JSON; an empty sum is left out. *)
Definition file_json (f : FileInfo) : string := json_object
  ([("name", json_string (Name f));
    ("size", Itoa (Size f));
    ("mod_time", json_string (format_time (ModTime f)));
    ("is_directory", json_bool (IsDirectory f));
    ("permissions", json_string (Permissions f));
    ("type", json_string (Type_ f))] ++
   (if bool_decide (MD5Sum f = "") then [] else [("md5sum", json_string (MD5Sum f))])).

(** [typeGroups] *)
Definition group_by_type (files : list FileInfo) : gmap string (list FileInfo) :=
  foldl (λ m f, if IsDirectory f then m else <[Type_ f := default [] (m !! Type_ f) ++ [f]]> m) ∅ files.

(** The value of a request for a field of a directory. *)
Inductive FileValue :=
| VCount (n : Z)
| VList (path pattern : string) (files : list FileInfo)
| VTypes (path pattern : string) (groups : gmap string (list FileInfo))
| VFile (path : string) (file : FileInfo).

Definition file_value (h : OsHost) (v : PathInfo) : res string FileValue :=
  let dir := pi_path v in
  let list_or k :=
    match ListFiles h dir "" with
    | Err e => Err ("failed to list files for path " +:+ dir +:+ ": " +:+ e)
    | Ok files => Ok (k (filterFilesByPattern files (pi_pattern v)))
    end in
  if bool_decide (pi_field v = "count") then
    match ListFiles h dir "" with
    | Err e => Err ("failed to get file count for path " +:+ dir +:+ ": " +:+ e)
    | Ok files => Ok (VCount (Z.of_nat (length (filterFilesByPattern files (pi_pattern v)))))
    end
  else if bool_decide (pi_field v = "list") then list_or (VList dir (pi_pattern v))
  else if bool_decide (pi_field v = "types") then list_or (λ files, VTypes dir (pi_pattern v) (group_by_type files))
  else if bool_decide (pi_field v ≠ "") then
    match GetFileInfo h dir (pi_field v) "" with
    | Ok f => Ok (VFile dir f)
    | Err e =>
        if Contains e "file not found" && is_ok (ListFiles h dir "") then
          Err ("unsupported file field: " +:+ pi_field v)
        else Err ("failed to get file info for " +:+ pi_field v +:+ " in path " +:+ dir +:+ ": " +:+ e)
    end
  else Err ("unsupported file field: " +:+ pi_field v).

Definition value_json (v : FileValue) : string :=
  match v with
  | VCount n => Itoa n
  | VList path pattern files => json_object [
      ("file_count", Itoa (Z.of_nat (length files)));
      ("files", json_array (file_json <$> files));
      ("path", json_string path);
      ("pattern", json_string pattern)]
  | VTypes path pattern groups => json_object [
      ("path", json_string path);
      ("pattern", json_string pattern);
      ("types", json_object
        ((λ k, (k, json_array (file_json <$> default [] (groups !! k)))) <$> sorted_keys groups))]
  | VFile path f => json_object [("file", file_json f); ("path", json_string path)]
  end.

Definition Firmware_HandleGet (h : OsHost) (path : option Path) : res string string :=
  match extractFilePathInfo path with
  | Err e => Err ("failed to extract file path info: " +:+ e)
  | Ok v => value_json <$> file_value h v
  end.

(** ** The operational handler *)

Inductive PathHandler := DiskSpaceHandler | FirmwareHandler.

Definition HandleGet (h : OsHost) (ph : PathHandler) (path : option Path) : res string string :=
  match ph with DiskSpaceHandler => DiskSpace_HandleGet h path | FirmwareHandler => Firmware_HandleGet h path end.

Record OperationalHandler := {
  op_paths : list (option Path);
  pathHandlers : gmap string PathHandler
}.

(** The keys of an element in the order of the range. *)
Definition keys_text (m : gmap string string) : string :=
  if bool_decide (m = ∅) then ""
  else "[" +:+ Join ((λ '(k, v), k +:+ "=" +:+ v) <$> map_range m) "," +:+ "]".

Definition pathToString (path : option Path) : string :=
  Join ((λ e, elem_name e +:+ keys_text (elem_key e)) <$> GetElem path) "/".

Definition pathMatches (requestedPath supportedPath : string) : bool :=
  if bool_decide (supportedPath = "filesystem/disk-space") then
    bool_decide (requestedPath = "filesystem/disk-space") || HasSuffix requestedPath "/disk-space"
  else if bool_decide (supportedPath = "filesystem/files") then
    bool_decide (requestedPath = "filesystem/files") ||
    (Contains requestedPath "filesystem" && Contains requestedPath "/files")
  else if bool_decide (supportedPath = "firmware/files") then
    bool_decide (requestedPath = "firmware/files") ||
    (Contains requestedPath "firmware" && Contains requestedPath "/files")
  else bool_decide (requestedPath = supportedPath).

(** The condition under which the handler of files is registered. *)
Definition needs_files (pathStr : string) : bool :=
  Contains pathStr "/firmware/" || Contains pathStr "/firmware[" || HasSuffix pathStr "/firmware" ||
  Contains pathStr "/files/" || Contains pathStr "/files[" || HasSuffix pathStr "/files".

Definition register (ph : PathHandler) (paths : list string) (m : gmap string PathHandler) : gmap string PathHandler :=
  foldl (λ m p, <[p := ph]> m) m paths.

Definition handlers_for (paths : list (option Path)) : gmap string PathHandler :=
  let m := register DiskSpaceHandler diskspace_SupportedPaths ∅ in
  if existsb (λ p, needs_files (pathToString p)) paths
  then register FirmwareHandler firmware_SupportedPaths m else m.

(** The handler of a path: the exact one, or the first of the range that
    matches. *)
Fixpoint first_match (l : list (string * PathHandler)) (pathStr : string) : option PathHandler :=
  match l with
  | [] => None
  | (p, ph) :: l => if pathMatches pathStr p then Some ph else first_match l pathStr
  end.

Definition find_handler (m : gmap string PathHandler) (pathStr : string) : option PathHandler :=
  match m !! pathStr with
  | Some ph => Some ph
  | None => first_match (map_range m) pathStr
  end.

Definition isPathSupported (m : gmap string PathHandler) (pathStr : string) : bool :=
  match find_handler m pathStr with Some _ => true | None => false end.

Definition NewOperationalHandler (paths : list (option Path)) : status_res OperationalHandler :=
  let m := handlers_for paths in
  match list_find (λ p, isPathSupported m (pathToString p) = false) paths with
  | Some (_, p) => Err (Unimplemented, "unsupported path: " +:+ pathToString p)
  | None => Ok {| op_paths := paths; pathHandlers := m |}
  end.

(** The pairs [Get] builds under the lock. *)
Fixpoint pair_handlers (m : gmap string PathHandler) (paths : list (option Path))
  : status_res (list (option Path * PathHandler)) :=
  match paths with
  | [] => Ok []
  | p :: paths =>
      match find_handler m (pathToString p) with
      | None => Err (Unimplemented, "no handler found for path: " +:+ pathToString p)
      | Some ph => pairs ← pair_handlers m paths; Ok ((p, ph) :: pairs)
      end
  end.

Record OpValue := { ov_path : option Path; ov_json : string; ov_timestamp : Z }.

(** The reads after it. *)
Fixpoint read_pairs (h : OsHost) (ts : Z) (pairs : list (option Path * PathHandler)) : status_res (list OpValue) :=
  match pairs with
  | [] => Ok []
  | (p, ph) :: pairs =>
      match HandleGet h ph p with
      | Err e => Err (NotFound, "failed to get data for path " +:+ pathToString p +:+ ": " +:+ e)
      | Ok data =>
          values ← read_pairs h ts pairs;
          Ok ({| ov_path := p; ov_json := data; ov_timestamp := ts |} :: values)
      end
  end.

Definition op_Get (h : OsHost) (ts : Z) (o : OperationalHandler) : status_res (list OpValue) :=
  pairs ← pair_handlers (pathHandlers o) (op_paths o);
  read_pairs h ts pairs.

Definition op_Set (_ : OperationalHandler) : option string := Some "set operations not supported on operational paths".

End handlers.

(** * What operational paths answer

    Which handler serves a path and when that depends on the order of a map,
    the listings of a directory, and patterns against their meaning. *)

(** ** Patterns *)

(** A pattern matches a name that it splits: a star takes any characters but
    the separator. *)
Inductive matches : list glob_tok → list ascii → Prop :=
| matches_nil : matches [] []
| matches_star ts pre s : "/"%char ∉ pre → matches ts s → matches (Star :: ts) (pre ++ s)
| matches_tok t ts c s : t ≠ Star → tok_matches t c = true → matches ts s → matches (t :: ts) (c :: s).

Lemma glob_star_spec (rest : list ascii → bool) s :
  (fix go (s : list ascii) : bool :=
     rest s || match s with [] => false | c :: s => negb (bool_decide (c = "/"%char)) && go s end) s = true ↔
  ∃ pre s', s = pre ++ s' ∧ "/"%char ∉ pre ∧ rest s' = true.
Proof.
  induction s as [|c s IH].
  - rewrite orb_false_r. split.
    + intros Hr. exists [], []. split; [done|]. split; [by apply not_elem_of_nil|done].
    + intros (pre & s' & Heq & _ & Hr). symmetry in Heq. by apply app_nil in Heq as [-> ->].
  - rewrite orb_true_iff, andb_true_iff, negb_true_iff, bool_decide_eq_false, IH. split.
    + intros [Hr|[Hc (pre & s' & -> & Hp & Hr)]].
      * exists [], (c :: s). split; [done|]. split; [by apply not_elem_of_nil|done].
      * exists (c :: pre), s'. split; [done|]. split; [|done]. by apply not_elem_of_cons.
    + intros ([|d pre] & s' & Heq & Hp & Hr); simplify_eq/=; [by left|].
      right. apply not_elem_of_cons in Hp as [? ?]. eauto 10.
Qed.

Lemma glob_match_spec ts s : glob_match ts s = true ↔ matches ts s.
Proof.
  revert s. induction ts as [|t ts IH]; intros s.
  - simpl. rewrite bool_decide_eq_true. split; [intros ->; constructor|by inversion 1].
  - assert (t = Star ∨ t ≠ Star) as [->|Ht] by (destruct t; auto).
    { etransitivity; [apply glob_star_spec|]. split.
      - intros (pre & s' & -> & Hp & Hr). constructor; [done|by apply IH].
      - inversion 1; subst; [|done]. eexists _, _. split; [done|]. split; [done|]. by apply IH. }
    assert (glob_match (t :: ts) s = match s with [] => false | c :: s => tok_matches t c && glob_match ts s end)
      as -> by (by destruct t).
    destruct s as [|c s].
    + split; [done|]. inversion 1; subst. done.
    + rewrite andb_true_iff, IH. split; [intros [? ?]; by constructor|]. inversion 1; subst; done.
Qed.

Global Instance matches_dec ts s : Decision (matches ts s).
Proof.
  refine (match glob_match ts s as b return glob_match ts s = b → _ with
          | true => λ H, left (proj1 (glob_match_spec ts s) H)
          | false => λ H, right _
          end eq_refl).
  intros Hm. apply glob_match_spec in Hm. congruence.
Defined.

(** ** Listings *)

Lemma filter_go_spec files pattern ts :
  parse_glob (S (length (String.list_ascii_of_string pattern))) (String.list_ascii_of_string pattern) = Some ts →
  filter_go files pattern =
  Some (filter (λ f, matches ts (String.list_ascii_of_string (Base (Name f)))) files).
Proof.
  intros Hp. induction files as [|f files IH]; simpl; [done|].
  unfold Match at 1. rewrite Hp. cbn [mbind option_bind]. rewrite IH. cbn [mbind option_bind]. f_equal.
  rewrite filter_cons. destruct (glob_match ts _) eqn:Hg.
  - rewrite decide_True; [done|]. by apply glob_match_spec.
  - rewrite decide_False; [done|]. rewrite <- glob_match_spec. by rewrite Hg.
Qed.

(** What a pattern leaves of a listing: all when it is [*], empty or
    malformed. *)
Definition shown (files : list FileInfo) (pattern : string) : list FileInfo :=
  let l := String.list_ascii_of_string pattern in
  match parse_glob (S (length l)) l with
  | Some ts =>
      if bool_decide (pattern = "*") || bool_decide (pattern = "") then files
      else filter (λ f, matches ts (String.list_ascii_of_string (Base (Name f)))) files
  | None => files
  end.

Lemma filterFilesByPattern_shown files pattern : filterFilesByPattern files pattern = shown files pattern.
Proof.
  unfold filterFilesByPattern, shown. destruct (parse_glob _ _) as [ts|] eqn:Hp.
  - destruct (_ || _); [done|]. by rewrite (filter_go_spec _ _ _ Hp).
  - destruct (_ || _); [done|]. destruct files as [|f files]; [done|]. simpl. unfold Match. by rewrite Hp.
Qed.

Definition in_group (t : string) (f : FileInfo) : Prop := IsDirectory f = false ∧ Type_ f = t.
Global Instance in_group_dec t f : Decision (in_group t f) := _.

Lemma group_by_type_spec files t :
  group_by_type files !! t =
  match filter (in_group t) files with [] => None | l => Some l end.
Proof.
  induction files as [|f files IH] using rev_ind; [apply lookup_empty|].
  unfold group_by_type in *. rewrite foldl_app. simpl. rewrite filter_app, filter_cons, filter_nil.
  destruct (IsDirectory f) eqn:Hd.
  - rewrite decide_False by (by intros [? _]; congruence). by rewrite app_nil_r.
  - destruct (decide (Type_ f = t)) as [<-|Hne].
    + rewrite decide_True by done. rewrite lookup_insert_eq, IH.
      destruct (filter (in_group (Type_ f)) files); [done|]. done.
    + rewrite decide_False by (by intros [_ ?]). rewrite lookup_insert_ne by done. by rewrite app_nil_r.
Qed.

(** The three views of a directory agree: [list] has the files of the walk
    whose base name the pattern matches (all of them when the pattern is
    malformed), [count] their number, and [types] groups those that are not
    directories by their type, in the same order. *)
Theorem file_views (h : OsHost) (dir pattern : string) files :
  ListFiles h dir "" = Ok files →
  let view field := file_value h {| pi_path := dir; pi_pattern := pattern; pi_field := field |} in
  view "list" = Ok (VList dir pattern (shown files pattern)) ∧
  view "count" = Ok (VCount (Z.of_nat (length (shown files pattern)))) ∧
  ∃ groups, view "types" = Ok (VTypes dir pattern groups) ∧
    ∀ t, groups !! t = match filter (in_group t) (shown files pattern) with [] => None | l => Some l end.
Proof.
  intros Hl. cbn zeta. unfold file_value. cbn [pi_path pi_pattern pi_field]. rewrite Hl.
  rewrite !filterFilesByPattern_shown. split; [done|]. split; [done|].
  eexists. split; [done|]. apply group_by_type_spec.
Qed.

(** ** Disk space *)

Lemma to_mb_exact blocks bsize :
  (0 ≤ blocks)%Z → (0 ≤ bsize)%Z → (blocks * bsize < 2 ^ 64)%Z → (blocks < 2 ^ 64)%Z → (bsize < 2 ^ 64)%Z →
  to_mb blocks bsize = (blocks * bsize / (1024 * 1024))%Z.
Proof.
  intros. unfold to_mb, mod64. rewrite (Z.mod_small blocks), (Z.mod_small bsize) by lia.
  rewrite (Z.mod_small (blocks * bsize)); [done|]. split; [by apply Z.mul_nonneg_nonneg|done].
Qed.

(** ** Dispatch *)

(** The texts both handlers match. *)
Definition ambiguous (s : string) : bool :=
  HasSuffix s "/disk-space" && Contains s "filesystem" && Contains s "/files".

Lemma handlers_for_spec `{MapRange} paths k ph :
  handlers_for paths !! k = Some ph ↔
  (k = "filesystem/disk-space" ∧ ph = DiskSpaceHandler) ∨
  (k = "filesystem/files" ∧ ph = FirmwareHandler ∧ existsb (λ p, needs_files (pathToString p)) paths = true).
Proof.
  unfold handlers_for, register. simpl. destruct (existsb _ _).
  - rewrite lookup_insert_Some, lookup_insert_Some, lookup_empty. naive_solver.
  - rewrite lookup_insert_Some, lookup_empty. naive_solver.
Qed.

Lemma first_match_spec (l : list (string * PathHandler)) s :
  match first_match l s with
  | Some ph => ∃ k, (k, ph) ∈ l ∧ pathMatches s k = true
  | None => ∀ k ph, (k, ph) ∈ l → pathMatches s k = false
  end.
Proof.
  induction l as [|[k ph] l IH]; simpl; [by intros ?? ?%elem_of_nil|].
  destruct (pathMatches s k) eqn:Hm; [exists k; split; [left|done]|].
  destruct (first_match l s).
  - destruct IH as (k' & ? & ?). exists k'. split; [by right|done].
  - intros k' ph' [[= -> ->]|?]%elem_of_cons; eauto.
Qed.

Lemma pathMatches_both s :
  pathMatches s "filesystem/disk-space" = true → pathMatches s "filesystem/files" = true →
  ambiguous s = true.
Proof.
  unfold pathMatches, ambiguous. simpl. rewrite !orb_true_iff, !bool_decide_eq_true, !andb_true_iff.
  intros [->|Hd] [Hf|[Hc Hf]]; try done; subst; try done.
Qed.

(** Whether a path is served does not depend on the order of the map. *)
Lemma find_handler_served (MR MR' : MapRange) m s :
  is_Some (find_handler (MR := MR) m s) → is_Some (find_handler (MR := MR') m s).
Proof.
  unfold find_handler. destruct (m !! s); [done|].
  pose proof (first_match_spec (@map_range MR _ m) s) as H1.
  pose proof (first_match_spec (@map_range MR' _ m) s) as H2.
  destruct (first_match (@map_range MR _ m) s); [|by intros [? [=]]].
  destruct (first_match (@map_range MR' _ m) s); [done|]. destruct H1 as (k & Hk & Hm).
  rewrite elem_of_map_range, <- (@elem_of_map_range MR') in Hk. rewrite (H2 _ _ Hk) in Hm. done.
Qed.

(** Nor does the handler, for a text that is not ambiguous. *)
Lemma find_handler_order (MR MR' : MapRange) paths s :
  ambiguous s = false →
  find_handler (MR := MR) (handlers_for (MR := MR) paths) s =
  find_handler (MR := MR') (handlers_for (MR := MR) paths) s.
Proof.
  intros Ha. unfold find_handler. destruct (_ !! s) eqn:Hs; [done|]. set (m := handlers_for paths).
  pose proof (first_match_spec (@map_range MR _ m) s) as H1.
  pose proof (first_match_spec (@map_range MR' _ m) s) as H2.
  destruct (first_match (@map_range MR _ m) s) as [p1|], (first_match (@map_range MR' _ m) s) as [p2|];
    [|destruct H1 as (k & Hk & Hm)|destruct H2 as (k & Hk & Hm)|done].
  - destruct H1 as (k1 & [[-> ->]|(-> & -> & _)]%elem_of_map_range%handlers_for_spec & Hm1),
      H2 as (k2 & [[-> ->]|(-> & -> & _)]%elem_of_map_range%handlers_for_spec & Hm2); try done;
      rewrite (pathMatches_both s) in Ha; done.
  - rewrite elem_of_map_range, <- (@elem_of_map_range MR') in Hk. by rewrite (H2 _ _ Hk) in Hm.
  - rewrite elem_of_map_range, <- (@elem_of_map_range MR) in Hk. by rewrite (H1 _ _ Hk) in Hm.
Qed.

(** ** Get *)

Section get.
Context {MR : MapRange} (json_string : string → string) (format_time : Z → string).

Notation HandleGet := (HandleGet json_string format_time).
Notation op_Get := (op_Get json_string format_time).

Lemma pair_handlers_ok m paths :
  Forall (λ p, isPathSupported m (pathToString p) = true) paths →
  ∃ pairs, pair_handlers m paths = Ok pairs ∧ pairs.*1 = paths ∧
    Forall (λ '(p, ph), find_handler m (pathToString p) = Some ph) pairs.
Proof.
  induction 1 as [|p paths Hp _ (pairs & He & Hfst & Hf)]; simpl; [by exists []|].
  unfold isPathSupported in Hp. destruct (find_handler m (pathToString p)) as [ph|] eqn:Hh; [|done].
  rewrite He. exists ((p, ph) :: pairs). split; [done|]. split; [by rewrite fmap_cons, Hfst|by constructor].
Qed.

(** Every pair is read, in order, or the first that cannot be is reported. *)
Lemma read_pairs_spec h ts pairs :
  match read_pairs json_string format_time h ts pairs with
  | Ok vs => ov_path <$> vs = pairs.*1 ∧
      Forall2 (λ v '(p, ph), ov_path v = p ∧ HandleGet h ph p = Ok (ov_json v) ∧ ov_timestamp v = ts) vs pairs
  | Err (code, _) => code = NotFound ∧ ∃ p ph e, (p, ph) ∈ pairs ∧ HandleGet h ph p = Err e
  end.
Proof.
  induction pairs as [|[p ph] pairs IH]; simpl; [done|].
  destruct (HandleGet h ph p) as [data|e] eqn:Hg.
  - destruct (read_pairs _ _ h ts pairs) as [vs|[code msg]]; cbn [mbind res_bind].
    + destruct IH as [Hp Hf]. split; [by rewrite fmap_cons, Hp|]. by constructor.
    + destruct IH as (Hc & p' & ph' & e & Hin & He). split; [done|]. exists p', ph', e. split; [by right|done].
  - split; [done|]. exists p, ph, e. split; [left|done].
Qed.

(** Get on OPERATIONAL: a handler that could be made for the paths answers
    every one of them, in order and with one time stamp, each by the handler
    its text selects, or fails as a whole with NotFound because one of those
    handlers failed. *)
Theorem operational_get h ts paths o :
  NewOperationalHandler paths = Ok o →
  match op_Get h ts o with
  | Ok vs => ov_path <$> vs = paths ∧
      Forall (λ v, ov_timestamp v = ts ∧ ∃ ph,
        find_handler (handlers_for paths) (pathToString (ov_path v)) = Some ph ∧
        HandleGet h ph (ov_path v) = Ok (ov_json v)) vs
  | Err (code, _) => code = NotFound ∧ ∃ p ph e, p ∈ paths ∧
      find_handler (handlers_for paths) (pathToString p) = Some ph ∧ HandleGet h ph p = Err e
  end.
Proof.
  unfold NewOperationalHandler. destruct (list_find _ paths) as [[i p]|] eqn:Hf; [done|]. intros [= <-].
  unfold Operational.op_Get. simpl.
  destruct (pair_handlers_ok (handlers_for paths) paths) as (pairs & -> & Hfst & Hpairs).
  { apply list_find_None in Hf. eapply Forall_impl; [exact Hf|]. intros p Hp. by apply not_false_is_true. }
  cbn [mbind res_bind]. pose proof (read_pairs_spec h ts pairs) as Hr.
  destruct (read_pairs _ _ h ts pairs) as [vs|[code msg]].
  - destruct Hr as [Hp Hr]. split; [by rewrite Hp|]. clear Hf Hfst Hp.
    induction Hr as [|v [p ph] vs pairs (<- & Hv & Ht) _ IH]; [done|].
    apply Forall_cons in Hpairs as [Hph Hpairs]. constructor; [by eauto|by apply IH].
  - destruct Hr as (Hc & p & ph & e & Hin & He). split; [done|]. exists p, ph, e.
    rewrite Forall_forall in Hpairs. split; [|split; [by apply (Hpairs _ Hin)|done]].
    rewrite <- Hfst. by apply (list_elem_of_fmap_2' fst _ (p, ph)).
Qed.

End get.

Module OperationalExample.

Definition fs_elem (path : string) : PathElem := {| elem_name := "filesystem"; elem_key := {["path" := path]} |}.
Definition disk_path : Path := {| path_origin := ""; path_target := ""; path_elem := [fs_elem "/tmp"; elem "disk-space"] |}.
Definition files_path : Path :=
  {| path_origin := ""; path_target := ""; path_elem := [fs_elem "/tmp"; elem "files"; elem "count"] |}.

Definition dir : DirInfo := {| i_size := 4096; i_mod_time := 0; i_is_dir := true; i_mode := "drwxr-xr-x" |}.
Definition file : DirInfo := {| i_size := 7; i_mod_time := 0; i_is_dir := false; i_mode := "-rw-r--r--" |}.
Definition host : OsHost := {|
  os_stat p := if bool_decide (p = "/tmp") then StatOk else StatNotExist;
  os_statfs _ := Ok {| Bsize := 4096; Blocks := 1024; Bavail := 512 |};
  os_walk _ := [{| w_rel := ""; w_err := false; w_info := Some dir; w_md5 := None |};
                {| w_rel := "boot.bin"; w_err := false; w_info := Some file; w_md5 := Some "00" |};
                {| w_rel := "old"; w_err := false; w_info := Some dir; w_md5 := None |};
                {| w_rel := "old/notes.txt"; w_err := false; w_info := Some file; w_md5 := None |}]
|}.
Definition quoted (s : string) : string := dquote +:+ s +:+ dquote.
Definition no_time (_ : Z) : string := "".

Definition boot_bin : FileInfo :=
  {| Name := "boot.bin"; Size := 7; ModTime := 0; IsDirectory := false; Permissions := "-rw-r--r--";
     Type_ := "bootloader"; MD5Sum := "00" |}.
Definition old_dir : FileInfo :=
  {| Name := "old"; Size := 4096; ModTime := 0; IsDirectory := true; Permissions := "drwxr-xr-x";
     Type_ := "directory"; MD5Sum := "" |}.
Definition notes : FileInfo :=
  {| Name := "old/notes.txt"; Size := 7; ModTime := 0; IsDirectory := false; Permissions := "-rw-r--r--";
     Type_ := "other"; MD5Sum := "" |}.

Lemma file_views_witness :
  ListFiles host "/tmp" "" = Ok [boot_bin; old_dir; notes] ∧
  shown [boot_bin; old_dir; notes] "[!n]*.bin" = [] ∧ shown [boot_bin; old_dir; notes] "*.[^b]*" = [notes] ∧
  let view field := file_value host {| pi_path := "/tmp"; pi_pattern := "b*.bin"; pi_field := field |} in
  view "list" = Ok (VList "/tmp" "b*.bin" (shown [boot_bin; old_dir; notes] "b*.bin")) ∧
  view "count" = Ok (VCount (Z.of_nat (length (shown [boot_bin; old_dir; notes] "b*.bin")))) ∧
  ∃ groups, view "types" = Ok (VTypes "/tmp" "b*.bin" groups) ∧
    ∀ t, groups !! t =
      match filter (in_group t) (shown [boot_bin; old_dir; notes] "b*.bin") with [] => None | l => Some l end.
Proof.
  assert (ListFiles host "/tmp" "" = Ok [boot_bin; old_dir; notes]) as Hl by (vm_compute; reflexivity).
  split; [exact Hl|]. split; [vm_compute; reflexivity|]. split; [vm_compute; reflexivity|].
  exact (file_views host "/tmp" "b*.bin" _ Hl).
Defined.

Definition both : OperationalHandler := {|
  op_paths := [Some disk_path; Some files_path];
  pathHandlers := <["filesystem/files" := FirmwareHandler]> {["filesystem/disk-space" := DiskSpaceHandler]}
|}.

Lemma operational_get_witness :
  NewOperationalHandler (MR := canonical_range) [Some disk_path; Some files_path] = Ok both ∧
  match op_Get (MR := canonical_range) quoted no_time host 7 both with
  | Ok vs => ov_path <$> vs = [Some disk_path; Some files_path] ∧
      Forall (λ v, ov_timestamp v = 7%Z ∧ ∃ ph,
        find_handler (MR := canonical_range) (handlers_for (MR := canonical_range) [Some disk_path; Some files_path])
          (pathToString (MR := canonical_range) (ov_path v)) = Some ph ∧
        HandleGet (MR := canonical_range) quoted no_time host ph (ov_path v) = Ok (ov_json v)) vs
  | Err (code, _) => code = NotFound ∧ ∃ p ph e, p ∈ [Some disk_path; Some files_path] ∧
      find_handler (MR := canonical_range) (handlers_for (MR := canonical_range) [Some disk_path; Some files_path])
        (pathToString (MR := canonical_range) p) = Some ph ∧
      HandleGet (MR := canonical_range) quoted no_time host ph p = Err e
  end.
Proof.
  assert (NewOperationalHandler (MR := canonical_range) [Some disk_path; Some files_path] = Ok both) as Ho
    by (vm_compute; reflexivity).
  split; [exact Ho|].
  exact (operational_get (MR := canonical_range) quoted no_time host 7 [Some disk_path; Some files_path] both Ho).
Defined.

(** The text of a path below another element contains /files because of
    /filesystem: asked for together with a listing, the disk space of a file
    system is served by either handler. *)
Definition sub_disk : Path := {| path_origin := ""; path_target := ""; path_elem := [elem "system"; fs_elem "/"; elem "disk-space"] |}.
Definition sub_files : Path := {| path_origin := ""; path_target := ""; path_elem := [elem "system"; fs_elem "/tmp"; elem "files"] |}.

Lemma handler_depends_on_order :
  let m := handlers_for (MR := canonical_range) [Some sub_disk; Some sub_files] in
  let s := pathToString (MR := canonical_range) (Some sub_disk) in
  s = "system/filesystem[path=/]/disk-space" ∧
  ∃ a b, find_handler (MR := canonical_range) m s = Some a ∧ find_handler (MR := reversed_range) m s = Some b ∧ a ≠ b.
Proof.
  vm_compute. split; [reflexivity|]. eexists _, _. split; [reflexivity|]. split; [reflexivity|]. discriminate.
Qed.

End OperationalExample.
