(* ===== verification/Startup.v ===== *)
(** * Start and stop of the server, and its remaining RPCs
      (src/gnmi_server/server.go)

    [NewServer] opens a TCP listener with TLS and a listener on a Unix socket
    without, with the same services; [Serve], [Stop] and [ForceStop] run and
    end both.  [Capabilities] answers from the two configuration clients, and
    [Subscribe] keeps one session per peer address around the sessions of
    Subscribe.v.  [SrvAdvConfig] sets up the links through which a server could
    read rotated certificates.

    The results of the system calls are parameters of [NewServer]. *)
From stdpp Require Import base gmap sets list strings pretty.
From S2P Require Import Prelude GoStrings Gnmi Redis World Auth CertzServer.

(** ** Options *)

(** What the options of a gRPC server are. *)
Inductive ServerOption :=
| Creds                       (* TLS credentials *)
| KeepaliveParams (seconds : Z)
| ProxyInterceptor            (* the interceptor of the chain, grpc.UnaryInterceptor *)
| AuthzInterceptor.           (* grpc.ChainUnaryInterceptor of the policy *)

Global Instance ServerOption_eq_dec : EqDecision ServerOption.
Proof. solve_decision. Defined.

(** gRPC runs the interceptor set on its own before those that are chained. *)
Definition interceptor_order (opts : list ServerOption) : list ServerOption :=
  filter (λ o, o = ProxyInterceptor) opts ++ filter (λ o, o = AuthzInterceptor) opts.

(** ** Services *)

Record StartConfig := {
  sc_Port : Z;
  sc_UnixSocket : string;
  sc_TranslibWrite : bool;
  sc_NativeWrite : bool;
  sc_AuthzPolicy : bool;
  sc_AuthzPolicyFile : string
}.

(** [registerAllServices] *)
Definition registerAllServices (c : StartConfig) : list string :=
  ["gnmi.gNMI"; "gnoi.factory_reset.FactoryReset"; "gnsi.certz.v1.Certz"; "gnsi.authz.v1.Authz";
   "gnsi.pathz.v1.Pathz"; "gnoi.sonic_jwt.SonicJwtService"] ++
  (if sc_TranslibWrite c || sc_NativeWrite c
   then ["gnoi.system.System"; "gnoi.file.File"; "gnoi.os.OS"; "gnoi.containerz.Containerz"; "gnoi.debug.Debug";
         "gnoi.healthz.Healthz"]
   else []) ++
  (if sc_TranslibWrite c then ["gnoi.sonic.SonicService"] else []) ++
  ["gnoi.sonic.Debug"].

(** ** NewServer *)

(** A gRPC server with its options and services. *)
Record GrpcServer := { g_options : list ServerOption; g_services : list string }.

(** The sockets of the process. *)
Record Sockets := { tcp_open : bool; unix_open : bool; socket_file : bool }.

(** The errors of the calls [NewServer] makes. *)
Record Calls := {
  call_authz : option string;
  call_listen_tcp : option string;
  call_mkdir : option string;
  call_listen_unix : option string;
  call_chmod : option string
}.

Record Srv := {
  srv_config : StartConfig;
  srv_s : option GrpcServer;
  srv_lis : bool;
  srv_uds : option GrpcServer;
  srv_udsListener : bool
}.

Definition close_tcp (s : Sockets) : Sockets :=
  {| tcp_open := false; unix_open := unix_open s; socket_file := socket_file s |}.

(** The listener for TCP. *)
Definition listen_tcp (c : StartConfig) (tlsOpts commonOpts : list ServerOption) (calls : Calls)
  : ST Sockets (res string (option GrpcServer)) := λ s,
  if bool_decide (0 < sc_Port c)%Z then
    match call_listen_tcp calls with
    | Some e => (s, Err ("failed to open listener port " +:+ Itoa (sc_Port c) +:+ ": " +:+ e))
    | None =>
        ({| tcp_open := true; unix_open := unix_open s; socket_file := socket_file s |},
         Ok (Some {| g_options := tlsOpts ++ commonOpts; g_services := registerAllServices c |}))
    end
  else (s, Ok None).

(** The one for the Unix socket: a socket whose permissions cannot be set is
    closed again. *)
Definition listen_unix (c : StartConfig) (commonOpts : list ServerOption) (calls : Calls)
  : ST Sockets (res string (option GrpcServer)) := λ s,
  if bool_decide (sc_UnixSocket c = "") then (s, Ok None)
  else
    match call_mkdir calls with
    | Some e => (close_tcp s, Err ("failed to create socket directory " +:+ path_Dir (sc_UnixSocket c) +:+ ": " +:+ e))
    | None =>
        let s := {| tcp_open := tcp_open s; unix_open := unix_open s; socket_file := false |} in
        match call_listen_unix calls with
        | Some e => (close_tcp s, Err ("failed to listen on unix socket " +:+ sc_UnixSocket c +:+ ": " +:+ e))
        | None =>
            match call_chmod calls with
            | Some _ => ({| tcp_open := tcp_open s; unix_open := false; socket_file := false |}, Ok None)
            | None =>
                ({| tcp_open := tcp_open s; unix_open := true; socket_file := true |},
                 Ok (Some {| g_options := commonOpts; g_services := registerAllServices c |}))
            end
        end
    end.

Definition NewServer (config : option StartConfig) (tlsOpts commonOpts : list ServerOption) (calls : Calls)
  : ST Sockets (res string Srv) := λ s,
  match config with
  | None => (s, Err "config not provided")
  | Some c =>
      match (if sc_AuthzPolicy c then call_authz calls else None) with
      | Some e => (s, Err e)
      | None =>
          let commonOpts :=
            if sc_AuthzPolicy c then commonOpts ++ [AuthzInterceptor; AuthzInterceptor] else commonOpts in
          let '(s, t) := listen_tcp c tlsOpts commonOpts calls s in
          match t with
          | Err e => (s, Err e)
          | Ok tcp =>
              let '(s, u) := listen_unix c commonOpts calls s in
              match u with
              | Err e => (s, Err e)
              | Ok uds =>
                  match tcp, uds with
                  | None, None =>
                      (s, Err "no listener configured: port must be > 0 or unix_socket must be set")
                  | _, _ =>
                      (s, Ok {| srv_config := c; srv_s := tcp; srv_lis := bool_decide (is_Some tcp);
                                srv_uds := uds; srv_udsListener := bool_decide (is_Some uds) |})
                  end
              end
          end
      end
  end.

(** ** Serve and Stop *)

Inductive which := Tcp | Uds.
Global Instance which_eq_dec : EqDecision which.
Proof. solve_decision. Defined.

(** The goroutines [Serve] starts. *)
Definition serving (s : Srv) : list which :=
  (if bool_decide (is_Some (srv_s s)) && srv_lis s then [Tcp] else []) ++
  (if bool_decide (is_Some (srv_uds s)) && srv_udsListener s then [Uds] else []).

(** [Serve] over the ends of the two goroutines, in order: the first one that
    was started decides; [None] while all serve. *)
Definition Serve (s : Srv) (ends : list (which * option string)) : option (option string) :=
  match srv_s s, srv_uds s with
  | None, None => Some (Some "Serve() failed: not initialized")
  | _, _ =>
      match filter (λ e, e.1 ∈ serving s) ends with
      | [] => None
      | (Tcp, Some e) :: _ => Some (Some ("TCP server: " +:+ e))
      | (Uds, Some e) :: _ => Some (Some ("UDS server: " +:+ e))
      | (_, None) :: _ => Some None
      end
  end.

(** [Stop] and [ForceStop] differ in what happens to open connections. *)
Definition Stop (s : Srv) (k : Sockets) : Sockets := {|
  tcp_open := if srv_s s then false else tcp_open k;
  unix_open := if srv_uds s then false else unix_open k;
  socket_file := if bool_decide (sc_UnixSocket (srv_config s) = "") then socket_file k else false
|}.
Definition ForceStop (s : Srv) (k : Sockets) : Sockets := Stop s k.

(** The address of a listener as text; the first [[::]] of TCP's is replaced. *)
Definition Address (s : Srv) (tcp_addr uds_addr : string) : string :=
  Join ((if srv_lis s then [tcp_addr] else []) ++ (if srv_udsListener s then [uds_addr] else [])) ", ".

Definition Port (s : Srv) : Z := sc_Port (srv_config s).

(** [Cleanup] dereferences the TCP server. *)
Definition Cleanup (s : Srv) (k : Sockets) : handled Sockets :=
  match srv_s s with
  | None => Panics
  | Some _ => Returns {| tcp_open := false; unix_open := unix_open k; socket_file := socket_file k |}
  end.

(** ** Capabilities *)

Record ModelData := { model_name : string; model_organization : string; model_version : string }.

Definition mixed_models : list ModelData :=
  [{| model_name := "sonic-db"; model_organization := "SONiC"; model_version := "0.1.0" |}].

Definition SUPPORTED_VERSIONS_EXT : Z := 701.

Record CapabilityResponse := {
  SupportedModels : list ModelData;
  SupportedEncodings : list Encoding;
  GNMIVersion : string;
  versions_ext : Z * (string * string)
}.

(** [transl_models] are the models of the translation library, and the pair its
    bundle and base versions. *)
Definition Capabilities (A : AuthEnv) (now : Z) (cfg : AuthConfig) (r : Request) (transl_models : list ModelData)
    (bundle_versions : string * string) : ST AuthState (status_res CapabilityResponse) :=
  e ← (_ ← GetContext; authenticate A now cfg r "gnmi" false);
  mret (_ ← e;
        Ok {| SupportedModels := transl_models ++ mixed_models;
              SupportedEncodings := [JSON; JSON_IETF; PROTO];
              GNMIVersion := "0.7.0";
              versions_ext := (SUPPORTED_VERSIONS_EXT, bundle_versions) |}).

(** [SaveOnSetEnabled], over the results of making a client and of the call. *)
Definition SaveOnSetEnabled (new_client config_save : option string) : option string :=
  match new_client with Some e => Some e | None => config_save end.
Definition saveOnSetDisabled : option string := None.

(** ** Subscribe *)

(** The sessions of the process, by number: the address of the peer, whether
    [Close] was called on it and whether its RPC has returned.  [clients] is
    the server's map. *)
Record Session := { s_addr : string; s_closed : bool; s_done : bool }.
Record SubServer := { clients : gmap string nat; sessions : list Session }.

Definition close_session (s : Session) : Session :=
  {| s_addr := s_addr s; s_closed := true; s_done := s_done s |}.
Definition end_session (s : Session) : Session :=
  {| s_addr := s_addr s; s_closed := s_closed s; s_done := true |}.

(** The first critical section of [Subscribe]. *)
Definition sub_register (addr : string) (s : SubServer) : SubServer :=
  let old := clients s !! addr in
  let sessions' := match old with Some i => alter close_session i (sessions s) | None => sessions s end in
  {| clients := <[addr := length (sessions s)]> (clients s);
     sessions := sessions' ++ [{| s_addr := addr; s_closed := false; s_done := false |}] |}.

(** The second, after [Run] returned. *)
Definition sub_unregister (i : nat) (s : SubServer) : SubServer :=
  match sessions s !! i with
  | None => s
  | Some x => {| clients := delete (s_addr x) (clients s); sessions := alter end_session i (sessions s) |}
  end.

Inductive sub_step : SubServer → SubServer → Prop :=
| sub_start addr s : sub_step s (sub_register addr s)
| sub_end i x s : sessions s !! i = Some x → s_done x = false → sub_step s (sub_unregister i s).

Definition no_sessions : SubServer := {| clients := ∅; sessions := [] |}.

(** Sessions that are being served. *)
Definition live_session (x : Session) : Prop := s_closed x = false ∧ s_done x = false.

(** ** Certificates through links *)

(** How clients are verified. *)
Record TlsOptions := { t_require_client : bool; t_verify : bool; t_crl : option string }.

Section certs.
Context {Rd : Redis}.

(** The defaults of the three links. *)
Definition default_links (cfg : Config) : Config := {|
  SrvCertLnk := if bool_decide (SrvCertLnk cfg = "") then "/keys/server_cert.lnk" else SrvCertLnk cfg;
  SrvKeyLnk := if bool_decide (SrvKeyLnk cfg = "") then "/keys/server_key.lnk" else SrvKeyLnk cfg;
  CaCertLnk := if bool_decide (CaCertLnk cfg = "") then "/keys/ca_cert.lnk" else CaCertLnk cfg;
  SrvCertFile := SrvCertFile cfg; SrvKeyFile := SrvKeyFile cfg; CaCertFile := CaCertFile cfg;
  CertCRLConfig := CertCRLConfig cfg; FedPolicyFile := FedPolicyFile cfg; CertzMetaFile := CertzMetaFile cfg;
  cwd := cwd cfg
|}.

(** The link to the CA certificate is set when it leads nowhere; errors of
    setting it are not looked at. *)
Definition adv_ca (cfg : Config) : ST World (option string) :=
  if bool_decide (CaCertFile cfg = "") then mret None
  else
    st ← Stat (CaCertFile cfg);
    match st with
    | Err _ => mret (Some "CA certificate file not found")
    | Ok _ =>
        valid ← isSymlinkValid (CaCertLnk cfg);
        if (valid : bool) then mret None
        else _ ← atomicSetCACert cfg (CaCertFile cfg); mret None
    end.

Definition adv_server (cfg : Config) : ST World (option string) :=
  certOk ← isSymlinkValid (SrvCertLnk cfg);
  keyOk ← (if (certOk : bool) then isSymlinkValid (SrvKeyLnk cfg) else mret true);
  if certOk && keyOk then mret None
  else if bool_decide (SrvCertFile cfg = "") || bool_decide (SrvKeyFile cfg = "") then
    mret (Some "server certificate or key file path is empty")
  else
    st ← Stat (SrvCertFile cfg);
    match st with
    | Err _ => mret (Some "server certificate file stat error")
    | Ok _ =>
        st ← Stat (SrvKeyFile cfg);
        match st with
        | Err _ => mret (Some "server key file stat error")
        | Ok _ => _ ← atomicSetSrvCertKeyPair cfg (SrvCertFile cfg) (SrvKeyFile cfg); mret None
        end
    end.

(** [crl_dir] is the error of reading the directory of revocation lists or of
    watching it. *)
Definition SrvAdvConfig (cfg : Config) (crl_dir : option string) : ST World (res string TlsOptions) :=
  let cfg := default_links cfg in
  e ← adv_ca cfg;
  match e with
  | Some e => mret (Err e)
  | None =>
      e ← adv_server cfg;
      mret match e with
      | Some e => Err e
      | None =>
          if bool_decide (CaCertFile cfg = "") then
            Ok {| t_require_client := false; t_verify := false; t_crl := None |}
          else if bool_decide (CertCRLConfig cfg = "") then
            Ok {| t_require_client := true; t_verify := true; t_crl := None |}
          else match crl_dir with
          | Some e => Err e
          | None => Ok {| t_require_client := true; t_verify := true; t_crl := Some (path_Join (CertCRLConfig cfg) "crl") |}
          end
      end
  end.

End certs.

(** * What starting and stopping the server guarantees *)

(** ** Listeners *)

Definition all_closed : Sockets := {| tcp_open := false; unix_open := false; socket_file := false |}.

(** The options both servers share. *)
Definition common_opts (c : StartConfig) (commonOpts : list ServerOption) : list ServerOption :=
  if sc_AuthzPolicy c then commonOpts ++ [AuthzInterceptor; AuthzInterceptor] else commonOpts.

Lemma listen_tcp_spec c tls common calls s :
  match listen_tcp c tls common calls s with
  | (s', Err _) => s' = s
  | (s', Ok g) =>
      unix_open s' = unix_open s ∧ socket_file s' = socket_file s ∧
      ((g = None ∧ s' = s ∧ ¬ (0 < sc_Port c)%Z) ∨
       (g = Some {| g_options := tls ++ common; g_services := registerAllServices c |} ∧ tcp_open s' = true))
  end.
Proof. unfold listen_tcp. case_bool_decide; [|naive_solver]. destruct (call_listen_tcp calls); naive_solver. Qed.

Lemma listen_unix_spec c common calls s :
  unix_open s = false → socket_file s = false →
  match listen_unix c common calls s with
  | (s', Err _) => tcp_open s' = false ∧ unix_open s' = false
  | (s', Ok g) =>
      tcp_open s' = tcp_open s ∧
      ((g = None ∧ unix_open s' = false ∧ socket_file s' = false) ∨
       (g = Some {| g_options := common; g_services := registerAllServices c |} ∧ unix_open s' = true ∧
        socket_file s' = true ∧ sc_UnixSocket c ≠ ""))
  end.
Proof.
  intros Hu Hs. unfold listen_unix. case_bool_decide; [naive_solver|].
  destruct (call_mkdir calls); [done|]. destruct (call_listen_unix calls); [done|].
  destruct (call_chmod calls); naive_solver.
Qed.

(** C28. A server that was made has a listener, each open socket has a server and
    each server an open socket; the TCP server runs with the TLS options and
    the Unix socket without, both with the same interceptors and the same
    services.  A server that could not be made leaves no socket open. *)
Theorem new_server_listeners (c : StartConfig) (tls common : list ServerOption) (calls : Calls) :
  match NewServer (Some c) tls common calls all_closed with
  | (k, Err _) => tcp_open k = false ∧ unix_open k = false
  | (k, Ok s) =>
      serving s ≠ [] ∧
      (tcp_open k = true ↔ is_Some (srv_s s)) ∧ (unix_open k = true ↔ is_Some (srv_uds s)) ∧
      (∀ g, srv_s s = Some g → g = {| g_options := tls ++ common_opts c common; g_services := registerAllServices c |}) ∧
      (∀ g, srv_uds s = Some g → g = {| g_options := common_opts c common; g_services := registerAllServices c |}) ∧
      Stop s k = all_closed
  end.
Proof.
  unfold NewServer. destruct (if sc_AuthzPolicy c then call_authz calls else None); [done|].
  fold (common_opts c common). pose proof (listen_tcp_spec c tls (common_opts c common) calls all_closed) as Ht.
  destruct (listen_tcp _ _ _ _ _) as [k1 [g|]]; [|by subst].
  destruct Ht as (Hu & Hf & Ht). pose proof (listen_unix_spec c (common_opts c common) calls k1 Hu Hf) as Hx.
  destruct (listen_unix _ _ _ _) as [k2 [u|]]; [|done]. destruct Hx as (Htcp & Hx).
  destruct Ht as [(-> & -> & Hport)|[-> Hopen]], Hx as [(-> & Hun & Hsf)|(-> & Hun & Hsock & Hne)];
    [by rewrite Htcp|cbn [srv_s srv_uds]..]; rewrite ?Htcp, ?Hopen, ?Hun; split_and!; try naive_solver;
    unfold Stop, all_closed; cbn [srv_s srv_uds srv_config]; f_equal; try done;
    case_bool_decide; done.
Qed.

(** Calls are forwarded to DPUs before the policy is asked: the proxy is the
    first interceptor whatever else is installed. *)
Lemma proxy_first (opts : list ServerOption) :
  ProxyInterceptor ∈ opts → head (interceptor_order opts) = Some ProxyInterceptor.
Proof.
  intros Hin. unfold interceptor_order.
  assert (ProxyInterceptor ∈ filter (λ o, o = ProxyInterceptor) opts) as Hf by (by apply list_elem_of_filter).
  destruct (filter _ opts) as [|o l] eqn:He; [by apply elem_of_nil in Hf|].
  assert (o ∈ filter (λ o, o = ProxyInterceptor) opts) as Ho by (rewrite He; left).
  apply list_elem_of_filter in Ho as [-> _]. done.
Qed.

(** ** Sessions *)

(** What the map names are sessions of that address. *)
Definition clients_ok (s : SubServer) : Prop :=
  ∀ addr i, clients s !! addr = Some i → ∃ x, sessions s !! i = Some x ∧ s_addr x = addr.

Lemma lookup_alter_addr (f : Session → Session) i j (l : list Session) x :
  (∀ y, s_addr (f y) = s_addr y) → l !! j = Some x → ∃ y, alter f i l !! j = Some y ∧ s_addr y = s_addr x.
Proof.
  intros Hf Hj. destruct (decide (i = j)) as [->|].
  - rewrite list_lookup_alter_eq, Hj. eexists. split; [done|]. apply Hf.
  - rewrite list_lookup_alter_ne by done. eauto.
Qed.

Lemma clients_ok_register addr s : clients_ok s → clients_ok (sub_register addr s).
Proof.
  intros Hs a i. unfold sub_register. simpl.
  set (l := match clients s !! addr with Some i => _ | None => _ end).
  assert (length l = length (sessions s)) as Hlen by (unfold l; destruct (clients s !! addr); [apply length_alter|done]).
  intros [[<- <-]|[Hne Hi]]%lookup_insert_Some.
  - eexists. split; [by apply lookup_app_Some; right; rewrite Hlen, Nat.sub_diag; split; [lia|]|done].
  - destruct (Hs a i Hi) as (x & Hx & Ha).
    assert (∃ y, l !! i = Some y ∧ s_addr y = a) as (y & Hy & Hay).
    { unfold l. destruct (clients s !! addr); [|eauto].
      destruct (lookup_alter_addr close_session n i (sessions s) x) as (y & ? & ?); naive_solver. }
    exists y. split; [|done]. by apply lookup_app_l_Some.
Qed.

Lemma clients_ok_unregister i s : clients_ok s → clients_ok (sub_unregister i s).
Proof.
  intros Hs. unfold sub_unregister. destruct (sessions s !! i) as [x|]; [|done].
  intros a j. simpl. intros [Hne Hj]%lookup_delete_Some. destruct (Hs a j Hj) as (y & Hy & <-).
  by apply (lookup_alter_addr end_session i).
Qed.

Lemma sub_steps_ok s s' : rtc sub_step s s' → clients_ok s → clients_ok s'.
Proof.
  induction 1 as [|s1 s2 s3 Hst _ IH]; [done|]. intros Hs. apply IH.
  destruct Hst; auto using clients_ok_register, clients_ok_unregister.
Qed.

(** In every history of subscriptions a session is only closed by a later
    one from the same address: what starting a session for [addr] does to
    another session is to close it, and then it has that address. *)
Theorem closed_by_same_address s addr i x :
  rtc sub_step no_sessions s → sessions s !! i = Some x →
  ∃ y, sessions (sub_register addr s) !! i = Some y ∧ s_addr y = s_addr x ∧ s_done y = s_done x ∧
    (s_closed y = s_closed x ∨ (s_closed y = true ∧ s_addr x = addr ∧ clients s !! addr = Some i)).
Proof.
  intros Hr Hi. apply sub_steps_ok in Hr; [|by intros a j Ha; cbn in Ha; rewrite lookup_empty in Ha].
  unfold sub_register. simpl. destruct (clients s !! addr) as [j|] eqn:Hj.
  - destruct (decide (j = i)) as [->|Hne].
    + destruct (Hr addr i Hj) as (x' & Hx' & Ha). simplify_eq.
      exists (close_session x). split; [|by eauto 10].
      apply lookup_app_l_Some. by rewrite list_lookup_alter_eq, Hi.
    + exists x. split; [|by eauto]. apply lookup_app_l_Some. by rewrite list_lookup_alter_ne.
  - exists x. split; [|by eauto]. by apply lookup_app_l_Some.
Qed.

(** ** Examples *)

Module StartupExample.

(** Three subscriptions over one address: the second closes the first, whose
    end removes the entry of the second, so the third leaves it alone. *)
Lemma two_live_sessions :
  ∃ s, rtc sub_step no_sessions s ∧
    Forall live_session (drop 1 (sessions s)) ∧ s_addr <$> drop 1 (sessions s) = ["@"; "@"].
Proof.
  exists (sub_register "@" (sub_unregister 0 (sub_register "@" (sub_register "@" no_sessions)))). split; [|split].
  - eapply rtc_l; [apply (sub_start "@")|]. eapply rtc_l; [apply (sub_start "@")|].
    eapply rtc_l; [by eapply (sub_end 0)|]. eapply rtc_l; [apply (sub_start "@")|]. apply rtc_refl.
  - by repeat constructor.
  - done.
Qed.

Lemma closed_by_same_address_witness :
  rtc sub_step no_sessions (sub_register "@" no_sessions) ∧
  ∃ y, sessions (sub_register "@" (sub_register "@" no_sessions)) !! 0 = Some y ∧ s_addr y = "@" ∧ s_done y = false ∧
    (s_closed y = false ∨ (s_closed y = true ∧ "@" = "@" ∧ clients (sub_register "@" no_sessions) !! "@" = Some 0)).
Proof.
  assert (rtc sub_step no_sessions (sub_register "@" no_sessions)) as Hr.
  { eapply rtc_l; [apply (sub_start "@")|]. apply rtc_refl. }
  split; [exact Hr|].
  exact (closed_by_same_address (sub_register "@" no_sessions) "@" 0
           {| s_addr := "@"; s_closed := false; s_done := false |} Hr eq_refl).
Defined.

End StartupExample.
