(* ===== verification/Telemetry.v ===== *)
(** * The telemetry program (src/telemetry/telemetry.go)

    The program splits its arguments, checks them and makes the server's
    configuration; then one goroutine runs the server, one waits for signals
    and, per round of the server, one watches the directory of the certificate.
    They speak through a channel with room for one value.  The goroutines are
    a step relation; what reading a certificate gives and what the watcher sees
    is left open, and what was read is part of the state.

    The parser of flags is not part of the model: [Flags] is what it leaves,
    and [client_auth_passed] whether [client_auth] was among the arguments. *)
From stdpp Require Import base gmap sets list strings pretty.
From S2P Require Import Prelude GoStrings Gnmi Redis World Auth.

(** ** Arguments *)

Definition getGlogFlagsMap : list string :=
  ["-alsologtostderr"; "-log_backtrace_at"; "-log_dir"; "-log_link"; "-logbuflevel"; "-logtostderr";
   "-stderrthreshold"; "-v"; "-vmodule"].

(** The arguments after the first, as those for glog and those for the
    program. *)
Fixpoint split_args (args : list string) : list string * list string :=
  match args with
  | [] => ([], [])
  | arg :: args =>
      let '(glog, telemetry) := split_args args in
      if HasPrefix arg "-v" then (arg :: glog, arg :: telemetry)
      else if bool_decide (arg ∈ getGlogFlagsMap) then (arg :: glog, telemetry)
      else (glog, arg :: telemetry)
  end.

Definition parseOSArgs (prog : string) (args : list string) : list string * list string :=
  let '(glog, telemetry) := split_args args in (prog :: glog, prog :: telemetry).

(** ** Configuration *)

Record Flags := {
  f_UserAuth : gmap string bool;
  f_Port : Z;
  f_UnixSocket : string;
  f_LogLevel : Z;
  f_CaCert : string;
  f_ServerCert : string;
  f_ServerKey : string;
  f_ConfigTableName : string;
  f_ZmqAddress : string;
  f_ZmqPort : string;
  f_Insecure : bool;
  f_NoTLS : bool;
  f_AllowNoClientCert : bool;
  f_JwtRefInt : Z;
  f_JwtValInt : Z;
  f_GnmiTranslibWrite : bool;
  f_GnmiNativeWrite : bool;
  f_Threshold : Z;
  f_IdleConnDuration : Z;
  f_Vrf : string;
  f_EnableCrl : bool;
  f_CrlExpireDuration : Z;
  f_CaCertLnk : string;
  f_ServerCertLnk : string;
  f_ServerKeyLnk : string;
  f_CertCRLConfig : string;
  f_IntManFile : string;
  f_CertzMetaFile : string;
  f_ImgDirPath : string;
  f_AuthzMetaFile : string;
  f_AuthPolicyEnabled : bool;
  f_AuthzPolicyFile : string
}.

(** [gnmi.Config], as far as [setupFlags] sets it; [UserAuth] is set later. *)
Record GnmiConfig := {
  c_Port : Z;
  c_UnixSocket : string;
  c_EnableTranslibWrite : bool;
  c_EnableNativeWrite : bool;
  c_LogLevel : Z;
  c_Threshold : Z;
  c_IdleConnDuration : Z;
  c_ConfigTableName : string;
  c_Vrf : string;
  c_EnableCrl : bool;
  c_CaCertLnk : string;
  c_CaCertFile : string;
  c_SrvCertLnk : string;
  c_SrvCertFile : string;
  c_SrvKeyLnk : string;
  c_SrvKeyFile : string;
  c_CertCRLConfig : string;
  c_IntManFile : string;
  c_CertzMetaFile : string;
  c_ZmqPort : string;
  c_ImgDir : string;
  c_GetOptions : bool;
  c_AuthzMetaFile : string;
  c_AuthzPolicy : bool;
  c_AuthzPolicyFile : string;
  c_JwtRefreshInt : Z;          (* the variables of the package gnmi *)
  c_JwtValidInt : Z
}.

(** The modes when [client_auth] is not given. *)
Definition defUserAuth (translib_write : bool) : gmap string bool :=
  <["password" := translib_write]> (<["cert" := false]> {["jwt" := translib_write]}).

(** [time.Duration(n * uint64(time.Second))] *)
Definition seconds (n : Z) : Z :=
  (((n * 1000000000) mod 2 ^ 64 + 2 ^ 63) mod 2 ^ 64 - 2 ^ 63)%Z.

(** The checks in order. *)
Definition flag_error (f : Flags) : option string :=
  if bool_decide (f_Port f ≤ 0)%Z && bool_decide (f_UnixSocket f = "") then
    Some "port must be > 0 (or specify --unix_socket)."
  else if bool_decide (f_Threshold f < 0)%Z then Some "threshold must be >= 0."
  else if bool_decide (f_IdleConnDuration f < 0)%Z then Some "idle_conn_duration must be >= 0, 0 meaning inf"
  else if negb (f_NoTLS f) && negb (f_Insecure f) then
    if bool_decide (f_ServerCert f = "") then Some "serverCert must be set."
    else if bool_decide (f_ServerKey f = "") then Some "serverKey must be set." else None
  else None.

(** The port for ZMQ; [None] is an index out of range. *)
Definition zmq_port (f : Flags) : option string :=
  if bool_decide (f_ZmqPort f = "") && bool_decide (f_ZmqAddress f ≠ "")
  then Split (f_ZmqAddress f) ":" !! 2 else Some (f_ZmqPort f).

(** A link beside the file when the flag still has its default. *)
Definition link_beside (file lnk default_ name : string) : string :=
  if bool_decide (file ≠ "") && bool_decide (lnk = default_) then path_Join (path_Dir file) name else lnk.

(** The modes of authentication and the configuration. *)
Definition setupFlags (f : Flags) (client_auth_passed : bool)
  : handled (res string (gmap string bool * GnmiConfig)) :=
  let userAuth := if client_auth_passed then f_UserAuth f else defUserAuth (f_GnmiTranslibWrite f) in
  match flag_error f with
  | Some e => Returns (Err e)
  | None =>
      match zmq_port f with
      | None => Panics
      | Some zmqPort =>
          let userAuth :=
            if bool_decide (f_CaCert f = "") && Enabled userAuth "cert"
            then (AuthTypes_Unset userAuth "cert").1 else userAuth in
          Returns (Ok (userAuth, {|
            c_Port := f_Port f; c_UnixSocket := f_UnixSocket f;
            c_EnableTranslibWrite := f_GnmiTranslibWrite f; c_EnableNativeWrite := f_GnmiNativeWrite f;
            c_LogLevel := if bool_decide (f_LogLevel f < 0)%Z then 2 else f_LogLevel f;
            c_Threshold := f_Threshold f; c_IdleConnDuration := f_IdleConnDuration f;
            c_ConfigTableName := f_ConfigTableName f; c_Vrf := f_Vrf f; c_EnableCrl := f_EnableCrl f;
            c_CaCertLnk := link_beside (f_CaCert f) (f_CaCertLnk f) "/keys/ca_cert.lnk" "ca_cert.lnk";
            c_CaCertFile := f_CaCert f;
            c_SrvCertLnk := link_beside (f_ServerCert f) (f_ServerCertLnk f) "/keys/server_cert.lnk" "server_cert.lnk";
            c_SrvCertFile := f_ServerCert f;
            c_SrvKeyLnk := link_beside (f_ServerKey f) (f_ServerKeyLnk f) "/keys/server_key.lnk" "server_key.lnk";
            c_SrvKeyFile := f_ServerKey f;
            c_CertCRLConfig := f_CertCRLConfig f; c_IntManFile := f_IntManFile f;
            c_CertzMetaFile := if bool_decide (f_CertzMetaFile f = "") then "/keys/grpc-version.json" else f_CertzMetaFile f;
            c_ZmqPort := zmqPort; c_ImgDir := f_ImgDirPath f; c_GetOptions := negb (f_Insecure f);
            c_AuthzMetaFile := f_AuthzMetaFile f; c_AuthzPolicy := f_AuthPolicyEnabled f && negb (f_Insecure f);
            c_AuthzPolicyFile := f_AuthzPolicyFile f;
            c_JwtRefreshInt := seconds (f_JwtRefInt f); c_JwtValidInt := seconds (f_JwtValInt f) |}))
      end
  end.

(** [cfg.UserAuth] when the server is made: it is assigned with the TLS
    options only.  Without a CA certificate the mode cert is dropped again. *)
Definition server_auth (f : Flags) (userAuth : gmap string bool) : gmap string bool :=
  if f_NoTLS f then ∅
  else if bool_decide (f_CaCert f = "") && Enabled userAuth "cert"
       then (AuthTypes_Unset userAuth "cert").1 else userAuth.

(** ** The goroutines *)

Inductive ctl := ServerStop | ServerStart | ServerRestart.

(** The TLS options of a round, as far as they depend on what was read and on
    the flags: the certificate the server presents, whether clients must show
    one, the certificates they are verified against, and the idle time after
    which a connection is closed, if there is one. *)
Record TlsCfg := {
  tls_Certificate : string;
  tls_RequireClientCert : bool;
  tls_ClientCAs : option string;
  tls_MaxConnectionIdle : option Z
}.

Definition tls_cfg (f : Flags) (certificate : string) (pool : option string) : TlsCfg := {|
  tls_Certificate := certificate;
  tls_RequireClientCert := negb (f_AllowNoClientCert f);
  tls_ClientCAs := pool;
  tls_MaxConnectionIdle := if bool_decide (0 < f_IdleConnDuration f)%Z then Some (seconds (f_IdleConnDuration f)) else None
|}.

(** Where [startGNMIServer] is. *)
Inductive main_pc :=
| MLoop                           (* top of the loop *)
| MLoad                           (* about to get the key pair *)
| MCa (certificate : string)      (* about to read the CA certificate *)
| MMake                           (* about to make the server *)
| MWait                           (* waiting for certificates *)
| MServe                          (* serving, waiting for a control value *)
| MDone (told : bool).            (* returned; whether it sent on stopSignalHandler *)

(** The key pair, generated or read: without one a server that generates it
    gives up, another waits for one. *)
Definition on_key_pair (f : Flags) (pair : option string) : main_pc :=
  match pair with
  | Some certificate => MCa certificate
  | None => if f_Insecure f then MDone false else MWait
  end.

(** The CA certificate, [None] when it cannot be read or holds none; it is read
    only if there is a file for it. *)
Definition on_ca (f : Flags) (certificate : string) (ca : option string) : main_pc * option TlsCfg :=
  if bool_decide (f_CaCert f ≠ "") then
    match ca with
    | None => (MWait, None)
    | Some pool => (MMake, Some (tls_cfg f certificate (Some pool)))
    end
  else (MMake, Some (tls_cfg f certificate None)).

Inductive watch_pc :=
| WWatch
| WSend (v : ctl)
| WDone.

(** A watcher with the round whose [certLoaded] it reads. *)
Record Watcher := { w_round : nat; w_pc : watch_pc }.

Inductive sig_pc :=
| SigWait
| SigSend               (* a signal came *)
| SigSent               (* and was passed on *)
| SigStopped.           (* told by the server's goroutine *)

(** What [startGNMIServer] got: a key pair, a CA certificate. *)
Inductive material := KeyPair (certificate : string) | CA (pool : string).

Record Telemetry := {
  t_main : main_pc;
  t_chan : option ctl;
  t_sig : sig_pc;
  t_stop : bool;                       (* a value in stopSignalHandler *)
  t_watchers : list Watcher;
  t_round : nat;
  t_tlsOpts : option TlsCfg;           (* of this round *)
  t_loaded : gset nat;                 (* rounds whose certLoaded is 1 *)
  t_got : list (nat * material)        (* history: what each round got *)
}.

Definition telemetry_start : Telemetry := {|
  t_main := MLoop; t_chan := None; t_sig := SigWait; t_stop := false; t_watchers := []; t_round := 0;
  t_tlsOpts := None; t_loaded := ∅; t_got := []
|}.

(** What a control value does to a goroutine that waits for certificates, and
    to one that serves. *)
Definition on_wait (v : ctl) : main_pc :=
  match v with ServerStop => MDone false | ServerStart => MLoop | ServerRestart => MWait end.
Definition on_serve (v : ctl) : main_pc :=
  match v with ServerStop => MDone true | _ => MLoop end.

(** Where a watcher goes after sending: a removal ends it only when the
    certificates of its round were loaded. *)
Definition after_send (t : Telemetry) (w : Watcher) (v : ctl) : watch_pc :=
  match v with
  | ServerRestart => if bool_decide (w_round w ∈ t_loaded t) then WDone else WWatch
  | _ => WDone
  end.

Definition with_main (pc : main_pc) (t : Telemetry) : Telemetry :=
  {| t_main := pc; t_chan := t_chan t; t_sig := t_sig t; t_stop := t_stop t; t_watchers := t_watchers t;
     t_round := t_round t; t_tlsOpts := t_tlsOpts t; t_loaded := t_loaded t; t_got := t_got t |}.

(** The main goroutine takes the value of the channel. *)
Definition take_main (pc : main_pc) (stop : bool) (t : Telemetry) : Telemetry :=
  {| t_main := pc; t_chan := None; t_sig := t_sig t; t_stop := stop; t_watchers := t_watchers t;
     t_round := t_round t; t_tlsOpts := t_tlsOpts t; t_loaded := t_loaded t; t_got := t_got t |}.

Definition with_watcher (i : nat) (w : Watcher) (chan : option ctl) (t : Telemetry) : Telemetry :=
  {| t_main := t_main t; t_chan := chan; t_sig := t_sig t; t_stop := t_stop t;
     t_watchers := <[i := w]> (t_watchers t); t_round := t_round t; t_tlsOpts := t_tlsOpts t;
     t_loaded := t_loaded t; t_got := t_got t |}.

Definition with_sig (s : sig_pc) (chan : option ctl) (stop : bool) (t : Telemetry) : Telemetry :=
  {| t_main := t_main t; t_chan := chan; t_sig := s; t_stop := stop; t_watchers := t_watchers t;
     t_round := t_round t; t_tlsOpts := t_tlsOpts t; t_loaded := t_loaded t; t_got := t_got t |}.

(** The top of the loop: no TLS options, [certLoaded] 0, and a watcher when
    files are read, if it could be [made].  Without TLS the server is made at
    once. *)
Definition new_round (f : Flags) (made : bool) (t : Telemetry) : Telemetry :=
  let watches := negb (f_NoTLS f) && negb (f_Insecure f) && made in
  {| t_main := if f_NoTLS f then MMake else MLoad; t_chan := t_chan t; t_sig := t_sig t; t_stop := t_stop t;
     t_watchers := t_watchers t ++ (if watches then [{| w_round := S (t_round t); w_pc := WWatch |}] else []);
     t_round := S (t_round t); t_tlsOpts := None; t_loaded := t_loaded t; t_got := t_got t |}.

Definition got (t : Telemetry) (m : option material) : list (nat * material) :=
  match m with Some m => (t_round t, m) :: t_got t | None => t_got t end.

(** The key pair of the round. *)
Definition load_pair (f : Flags) (pair : option string) (t : Telemetry) : Telemetry :=
  {| t_main := on_key_pair f pair; t_chan := t_chan t; t_sig := t_sig t; t_stop := t_stop t;
     t_watchers := t_watchers t; t_round := t_round t; t_tlsOpts := t_tlsOpts t; t_loaded := t_loaded t;
     t_got := got t (KeyPair <$> pair) |}.

(** The CA certificate; [certLoaded] is set when the options are complete. *)
Definition load_ca (f : Flags) (certificate : string) (ca : option string) (t : Telemetry) : Telemetry :=
  let '(pc, opts) := on_ca f certificate ca in
  {| t_main := pc; t_chan := t_chan t; t_sig := t_sig t; t_stop := t_stop t; t_watchers := t_watchers t;
     t_round := t_round t; t_tlsOpts := opts;
     t_loaded := match opts with Some _ => {[t_round t]} ∪ t_loaded t | None => t_loaded t end;
     t_got := got t (if bool_decide (f_CaCert f ≠ "") then CA <$> ca else None) |}.

Inductive tstep (f : Flags) : Telemetry → Telemetry → Prop :=
(* startGNMIServer *)
| t_new_round made t : t_main t = MLoop → tstep f t (new_round f made t)
| t_key_pair pair t : t_main t = MLoad → tstep f t (load_pair f pair t)
| t_ca certificate ca t : t_main t = MCa certificate → tstep f t (load_ca f certificate ca t)
| t_serves t : t_main t = MMake → tstep f t (with_main MServe t)
| t_gives_up t : t_main t = MMake → tstep f t (with_main (MDone false) t)
| t_wait_recv v t : t_main t = MWait → t_chan t = Some v → tstep f t (take_main (on_wait v) (t_stop t) t)
| t_serve_recv v t :
    t_main t = MServe → t_chan t = Some v →
    tstep f t (take_main (on_serve v) (match v with ServerStop => true | _ => t_stop t end) t)
(* iNotifyCertMonitoring *)
| t_event i w v t :
    t_watchers t !! i = Some w → w_pc w = WWatch →
    tstep f t (with_watcher i {| w_round := w_round w; w_pc := WSend v |} (t_chan t) t)
| t_send i w v t :
    t_watchers t !! i = Some w → w_pc w = WSend v → t_chan t = None →
    tstep f t (with_watcher i {| w_round := w_round w; w_pc := after_send t w v |} (Some v) t)
(* signalHandler *)
| t_signal t : t_sig t = SigWait → tstep f t (with_sig SigSend (t_chan t) (t_stop t) t)
| t_pass_on t : t_sig t = SigSend → t_chan t = None → tstep f t (with_sig SigSent (Some ServerStop) (t_stop t) t)
| t_stopped t : t_sig t = SigWait → t_stop t = true → tstep f t (with_sig SigStopped (t_chan t) false t).

(** [runTelemetry] returns when both goroutines have. *)
Definition exited (t : Telemetry) : Prop :=
  (∃ told, t_main t = MDone told) ∧ (t_sig t = SigSent ∨ t_sig t = SigStopped).

(** * What the telemetry program guarantees *)

(** ** Configuration *)

Lemma flag_error_none f :
  flag_error f = None →
  ((0 < f_Port f)%Z ∨ f_UnixSocket f ≠ "") ∧ (0 ≤ f_Threshold f)%Z ∧ (0 ≤ f_IdleConnDuration f)%Z ∧
  (f_NoTLS f = false → f_Insecure f = false → f_ServerCert f ≠ "" ∧ f_ServerKey f ≠ "").
Proof.
  unfold flag_error. destruct (bool_decide_reflect (f_Port f ≤ 0)%Z), (bool_decide_reflect (f_UnixSocket f = ""));
    simpl; try done; (case_bool_decide; [done|]); (case_bool_decide; [done|]); intros Hc;
    (split; [auto with lia|]); (split; [lia|]); (split; [lia|]); intros Hn Hi; rewrite Hn, Hi in Hc; simpl in Hc;
    (case_bool_decide; [done|]); (case_bool_decide; [done|]); done.
Qed.

(** The default modes, after cert has been dropped if it has to be. *)
Lemma default_modes b : Enabled (defUserAuth b) "cert" = false ∧ Enabled (defUserAuth b) "password" = b ∧
  Enabled (defUserAuth b) "jwt" = b ∧ Any (defUserAuth b) = b.
Proof. by destruct b. Qed.

(** A configuration that is accepted has a listener, a bound that is not
    negative and, unless TLS is off or insecure, a certificate and a key; with
    write access of the translation library and no choice of modes it asks for
    a password or a token; the mode cert is never on without a CA
    certificate. *)
Theorem setup_checked (f : Flags) (passed : bool) userAuth cfg :
  setupFlags f passed = Returns (Ok (userAuth, cfg)) →
  ((0 < c_Port cfg)%Z ∨ c_UnixSocket cfg ≠ "") ∧
  (0 ≤ c_Threshold cfg)%Z ∧ (0 ≤ c_IdleConnDuration cfg)%Z ∧ (0 ≤ c_LogLevel cfg)%Z ∧
  (f_NoTLS f = false → f_Insecure f = false → c_SrvCertFile cfg ≠ "" ∧ c_SrvKeyFile cfg ≠ "") ∧
  (passed = false → f_GnmiTranslibWrite f = true →
     Enabled userAuth "password" = true ∧ Enabled userAuth "jwt" = true) ∧
  (c_CaCertFile cfg = "" → passed = false → Enabled userAuth "cert" = false).
Proof.
  unfold setupFlags. destruct (flag_error f) as [e|] eqn:He; [done|]. destruct (zmq_port f); [|done].
  intros [= Hu <-]. apply flag_error_none in He as (Hp & Ht & Hi & Hc).
  cbn [c_Port c_UnixSocket c_Threshold c_IdleConnDuration c_LogLevel c_SrvCertFile c_SrvKeyFile c_CaCertFile].
  destruct (default_modes (f_GnmiTranslibWrite f)) as (Hcert & Hpw & Hjwt & _).
  assert (passed = false → userAuth = defUserAuth (f_GnmiTranslibWrite f)) as Hdef.
  { intros ->. rewrite Hcert, andb_false_r in Hu. done. }
  split; [exact Hp|]. split; [exact Ht|]. split; [exact Hi|]. split; [destruct (bool_decide_reflect (f_LogLevel f < 0)%Z); lia|].
  split; [exact Hc|]. split.
  - intros Hf Hw. rewrite (Hdef Hf), Hpw, Hjwt. done.
  - intros _ Hf. by rewrite (Hdef Hf), Hcert.
Qed.

(** Native writes need no authentication by default: the modes are switched
    on by write access of the translation library only, so with native write
    access alone, or without TLS whatever modes were chosen, every request
    passes, with write access. *)
Theorem open_by_default (f : Flags) (passed : bool) userAuth cfg A now table crl r target st :
  setupFlags f passed = Returns (Ok (userAuth, cfg)) →
  (passed = false ∧ f_GnmiTranslibWrite f = false) ∨ f_NoTLS f = true →
  (authenticate A now {| UserAuth := server_auth f userAuth; ConfigTableName := table; EnableCrl := crl |}
     r target true st).2 = Ok ().
Proof.
  intros Hs Hopen. assert (Any (server_auth f userAuth) = false) as Hany.
  { unfold server_auth. destruct (f_NoTLS f) eqn:Hn; [done|]. destruct Hopen as [[Hp Hw]|]; [|done].
    unfold setupFlags in Hs. destruct (flag_error f); [done|]. destruct (zmq_port f); [|done].
    destruct (default_modes (f_GnmiTranslibWrite f)) as (Hcert & _ & _ & Ha).
    rewrite Hp, Hcert, andb_false_r in Hs. injection Hs as <- _. by rewrite Hcert, andb_false_r, Ha. }
  unfold authenticate. cbn [UserAuth]. rewrite Hany.
  destruct (default false (peer_unix <$> req_peer r)); done.
Qed.

(** ** The goroutines *)

(** The options a server is made with: none without TLS; else what this round
    got, the CA certificate if there is a file for it. *)
Definition secured (f : Flags) (t : Telemetry) : Prop :=
  if f_NoTLS f then t_tlsOpts t = None ∧ t_loaded t = ∅
  else t_round t ∈ t_loaded t ∧ ∃ o,
    t_tlsOpts t = Some o ∧ (t_round t, KeyPair (tls_Certificate o)) ∈ t_got t ∧
    tls_RequireClientCert o = negb (f_AllowNoClientCert f) ∧
    if bool_decide (f_CaCert f ≠ "")
    then ∃ pool, tls_ClientCAs o = Some pool ∧ (t_round t, CA pool) ∈ t_got t
    else tls_ClientCAs o = None.

Record telemetry_ok (f : Flags) (t : Telemetry) : Prop := {
  tel_stop : t_sig t = SigSent → t_chan t = Some ServerStop ∨ ∃ told, t_main t = MDone told;
  tel_secured : t_main t = MMake ∨ t_main t = MServe → secured f t;
  tel_tls : t_main t = MLoad ∨ (∃ c, t_main t = MCa c) → f_NoTLS f = false;
  tel_notls : f_NoTLS f = true → t_loaded t = ∅;
  tel_pair : ∀ c, t_main t = MCa c → (t_round t, KeyPair c) ∈ t_got t;
  tel_told : t_stop t = true ∨ t_sig t = SigStopped → t_main t = MDone true
}.

Lemma telemetry_ok_start f : telemetry_ok f telemetry_start.
Proof. split; simpl; naive_solver. Qed.

(** The main goroutine goes on by itself: nobody was told to stop. *)
Lemma ok_main f t t' :
  (∀ told, t_main t ≠ MDone told) → t_chan t' = t_chan t → t_sig t' = t_sig t → t_stop t' = t_stop t →
  (t_main t' = MMake ∨ t_main t' = MServe → secured f t') →
  (t_main t' = MLoad ∨ (∃ c, t_main t' = MCa c) → f_NoTLS f = false) →
  (f_NoTLS f = true → t_loaded t' = ∅) →
  (∀ c, t_main t' = MCa c → (t_round t', KeyPair c) ∈ t_got t') →
  telemetry_ok f t → telemetry_ok f t'.
Proof.
  intros Hnd Hc Hsig Hst Hsec Htls Hno Hpair [Hs _ _ _ _ Ht]. split; try done; rewrite ?Hc, ?Hsig, ?Hst.
  - intros H. destruct (Hs H) as [?|[told ?]]; [by left|by destruct (Hnd told)].
  - intros H. by destruct (Hnd true); apply Ht.
Qed.

Lemma ok_new_round f made t : t_main t = MLoop → telemetry_ok f t → telemetry_ok f (new_round f made t).
Proof.
  intros Hm Ho. pose proof Ho as [_ _ _ Hno _ _]. apply (ok_main f t); simpl; try done.
  - intros told. by rewrite Hm.
  - unfold secured. simpl. destruct (f_NoTLS f); [by auto|]. by intros [].
  - destruct (f_NoTLS f); [|done]. naive_solver.
  - by destruct (f_NoTLS f).
Qed.

Lemma ok_load_pair f pair t : t_main t = MLoad → telemetry_ok f t → telemetry_ok f (load_pair f pair t).
Proof.
  intros Hm Ho. pose proof Ho as [_ _ Htls Hno _ _]. specialize (Htls (or_introl Hm)).
  apply (ok_main f t); simpl; try done.
  - intros told. by rewrite Hm.
  - unfold on_key_pair. by destruct pair, (f_Insecure f); intros [].
  - intros c. unfold on_key_pair. destruct pair as [c'|]; [intros [= ->]; left|by destruct (f_Insecure f)].
Qed.

Lemma ok_load_ca f c ca t : t_main t = MCa c → telemetry_ok f t → telemetry_ok f (load_ca f c ca t).
Proof.
  intros Hm Ho. pose proof Ho as [_ _ Htls Hno Hpair _]. specialize (Htls (or_intror (ex_intro _ c Hm))).
  specialize (Hpair c Hm). unfold load_ca, on_ca. case_bool_decide as Hca; [destruct ca as [pool|]|];
    (apply (ok_main f t); simpl; [intros told; by rewrite Hm|done..| | |congruence| |done]); try naive_solver.
  - intros _. unfold secured. rewrite Htls. simpl. split; [set_solver|]. eexists. split; [done|]. simpl.
    rewrite (bool_decide_true (f_CaCert f ≠ "")) by done. split; [by right|]. split; [done|]. exists pool. split; [done|left].
  - intros _. unfold secured. rewrite Htls. simpl. split; [set_solver|]. eexists. split; [done|]. simpl.
    rewrite (bool_decide_false (f_CaCert f ≠ "")) by naive_solver. by split.
Qed.

(** It takes the value of the channel. *)
Lemma ok_take f pc v stop t :
  t_main t = MWait ∨ t_main t = MServe → t_chan t = Some v →
  (v = ServerStop → ∃ told, pc = MDone told) → pc = MWait ∨ pc = MLoop ∨ (∃ told, pc = MDone told) →
  (stop = true → pc = MDone true ∨ t_stop t = true) →
  telemetry_ok f t → telemetry_ok f (take_main pc stop t).
Proof.
  intros Hm Hc Hv Hpc Hst [Hs Hl Htls Hno Hp Ht].
  assert (t_stop t ≠ true ∧ t_sig t ≠ SigStopped) as [Hnst Hnt]
    by (split; intros ?; destruct Hm as [Hm|Hm]; rewrite Ht in Hm; auto; congruence).
  split; simpl.
  - intros Hsig. right. apply Hv. destruct (Hs Hsig) as [?|[told Hd]]; [congruence|]. destruct Hm; congruence.
  - destruct Hpc as [->|[->|[told ->]]]; by intros [].
  - destruct Hpc as [->|[->|[told ->]]]; by intros [|[]].
  - done.
  - destruct Hpc as [->|[->|[told ->]]]; done.
  - intros [Hstop|?]; [|done]. by destruct (Hst Hstop).
Qed.

Lemma tstep_ok f t t' : tstep f t t' → telemetry_ok f t → telemetry_ok f t'.
Proof.
  destruct 1 as [made t Hm|pair t Hm|c ca t Hm|t Hm|t Hm|v t Hm Hc|v t Hm Hc|i w v t Hw Hp|i w v t Hw Hp Hc|
    t Hsig|t Hsig Hc|t Hsig Hstop].
  - by apply ok_new_round.
  - by apply ok_load_pair.
  - by apply ok_load_ca.
  - intros Ho. pose proof Ho as [_ Hl _ Hno _ _]. apply (ok_main f t); simpl; try done; [by rewrite Hm|auto|naive_solver].
  - intros Ho. pose proof Ho as [_ Hl _ Hno _ _]. apply (ok_main f t); simpl; try done; [by rewrite Hm|naive_solver..].
  - apply (ok_take _ _ v); [auto|done|intros ->; simpl; eauto|destruct v; simpl; eauto|auto].
  - apply (ok_take _ _ v); [auto|done|intros ->; simpl; eauto|destruct v; simpl; eauto|destruct v; simpl; auto].
  - intros [Hs Hl Htls Hno Hpr Ht]. by split.
  - intros [Hs Hl Htls Hno Hpr Ht]. split; simpl; auto. intros Hsig. destruct (Hs Hsig); [congruence|auto].
  - intros [Hs Hl Htls Hno Hpr Ht]. split; simpl; auto; [done|]. intros [?|?]; [auto|done].
  - intros [Hs Hl Htls Hno Hpr Ht]. split; simpl; auto. intros [?|?]; [auto|done].
  - intros [Hs Hl Htls Hno Hpr Ht]. split; simpl; auto. done.
Qed.

Lemma tsteps_ok f t t' : rtc (tstep f) t t' → telemetry_ok f t → telemetry_ok f t'.
Proof. induction 1; eauto using tstep_ok. Qed.

(** C34. In every interleaving and whatever reading the certificates gives.
    With TLS the server serves only with options of its round: a certificate
    whose key pair this round got, the CA certificate this round read if there
    is a file for one, and client certificates required unless the flags say
    otherwise; and [certLoaded] of the round is set.  Without TLS it serves
    without any of them and [certLoaded] is never set.  A signal that was
    passed on is in the channel until the server's goroutine has returned, so
    no reload overwrites it; and the signal's goroutine is only told to stop
    by a server that was stopped while serving. *)
Theorem telemetry_control (f : Flags) (t : Telemetry) :
  rtc (tstep f) telemetry_start t →
  (t_main t = MServe →
     if f_NoTLS f then t_tlsOpts t = None ∧ t_loaded t = ∅
     else t_round t ∈ t_loaded t ∧ ∃ o,
       t_tlsOpts t = Some o ∧ (t_round t, KeyPair (tls_Certificate o)) ∈ t_got t ∧
       tls_RequireClientCert o = negb (f_AllowNoClientCert f) ∧
       if bool_decide (f_CaCert f ≠ "")
       then ∃ pool, tls_ClientCAs o = Some pool ∧ (t_round t, CA pool) ∈ t_got t
       else tls_ClientCAs o = None) ∧
  (t_sig t = SigSent → t_chan t = Some ServerStop ∨ ∃ told, t_main t = MDone told) ∧
  (t_sig t = SigStopped → t_main t = MDone true).
Proof.
  intros Hr. apply tsteps_ok in Hr as [Hs Hl _ _ _ Ht]; [|apply telemetry_ok_start].
  split_and!; [|done|auto]. intros Hm. apply Hl. by right.
Qed.

(** Once the server's goroutine has returned it stays so, and only a signal or
    its own message lets the program exit. *)
Lemma done_stays f t t' told : tstep f t t' → t_main t = MDone told → t_main t' = MDone told.
Proof. destruct 1; simpl; try congruence. Qed.

(** ** Arguments *)

(** Every argument reaches at least one of the two parsers, and the program's
    own are all there, in order. *)
Lemma split_args_spec args :
  (split_args args).2 = filter (λ a, HasPrefix a "-v" = true ∨ a ∉ getGlogFlagsMap) args ∧
  (split_args args).1 = filter (λ a, HasPrefix a "-v" = true ∨ a ∈ getGlogFlagsMap) args.
Proof.
  induction args as [|a args [IH1 IH2]]; [done|]. rewrite !filter_cons. cbn [split_args].
  destruct (split_args args) as [g t]. cbn [fst snd] in *. rewrite <- IH1, <- IH2.
  destruct (HasPrefix a "-v") eqn:Hv; [by rewrite !decide_True by auto|].
  case_bool_decide as Hin.
  - rewrite decide_False by naive_solver. by rewrite decide_True by auto.
  - rewrite decide_True by auto. by rewrite decide_False by naive_solver.
Qed.

Module TelemetryExample.

(** [-vrf mgmt] is given to glog, which has no such flag. *)
Lemma vrf_to_glog : parseOSArgs "telemetry" ["-vrf"; "mgmt"; "-port"; "8080"] =
  (["telemetry"; "-vrf"], ["telemetry"; "-vrf"; "mgmt"; "-port"; "8080"]).
Proof. reflexivity. Qed.

Definition flags : Flags := {|
  f_UserAuth := <["password" := false]> (<["cert" := false]> {["jwt" := false]}); f_Port := 8080; f_UnixSocket := "";
  f_LogLevel := 2; f_CaCert := "/keys/ca.crt"; f_ServerCert := "/keys/server.crt"; f_ServerKey := "/keys/server.key";
  f_ConfigTableName := ""; f_ZmqAddress := ""; f_ZmqPort := ""; f_Insecure := false; f_NoTLS := false;
  f_AllowNoClientCert := false; f_JwtRefInt := 900; f_JwtValInt := 3600; f_GnmiTranslibWrite := false;
  f_GnmiNativeWrite := true; f_Threshold := 100; f_IdleConnDuration := 5; f_Vrf := ""; f_EnableCrl := false;
  f_CrlExpireDuration := 86400; f_CaCertLnk := "/keys/ca_cert.lnk"; f_ServerCertLnk := "/keys/server_cert.lnk";
  f_ServerKeyLnk := "/keys/server_key.lnk"; f_CertCRLConfig := "/mtls/crl"; f_IntManFile := "";
  f_CertzMetaFile := "/keys/grpc-version.json"; f_ImgDirPath := "/tmp/host_tmp"; f_AuthzMetaFile := "";
  f_AuthPolicyEnabled := false; f_AuthzPolicyFile := ""
|}.

Definition modes : gmap string bool := defUserAuth false.
Definition config : GnmiConfig := {|
  c_Port := 8080; c_UnixSocket := ""; c_EnableTranslibWrite := false; c_EnableNativeWrite := true; c_LogLevel := 2;
  c_Threshold := 100; c_IdleConnDuration := 5; c_ConfigTableName := ""; c_Vrf := ""; c_EnableCrl := false;
  c_CaCertLnk := "/keys/ca_cert.lnk"; c_CaCertFile := "/keys/ca.crt"; c_SrvCertLnk := "/keys/server_cert.lnk";
  c_SrvCertFile := "/keys/server.crt"; c_SrvKeyLnk := "/keys/server_key.lnk"; c_SrvKeyFile := "/keys/server.key";
  c_CertCRLConfig := "/mtls/crl"; c_IntManFile := ""; c_CertzMetaFile := "/keys/grpc-version.json"; c_ZmqPort := "";
  c_ImgDir := "/tmp/host_tmp"; c_GetOptions := true; c_AuthzMetaFile := ""; c_AuthzPolicy := false;
  c_AuthzPolicyFile := ""; c_JwtRefreshInt := 900000000000; c_JwtValidInt := 3600000000000
|}.

Lemma flags_accepted : setupFlags flags false = Returns (Ok (modes, config)).
Proof. vm_compute. reflexivity. Qed.

Lemma setup_checked_witness :
  setupFlags flags false = Returns (Ok (modes, config)) ∧
  ((0 < c_Port config)%Z ∨ c_UnixSocket config ≠ "") ∧
  (0 ≤ c_Threshold config)%Z ∧ (0 ≤ c_IdleConnDuration config)%Z ∧ (0 ≤ c_LogLevel config)%Z ∧
  (f_NoTLS flags = false → f_Insecure flags = false → c_SrvCertFile config ≠ "" ∧ c_SrvKeyFile config ≠ "") ∧
  (false = false → f_GnmiTranslibWrite flags = true →
     Enabled modes "password" = true ∧ Enabled modes "jwt" = true) ∧
  (c_CaCertFile config = "" → false = false → Enabled modes "cert" = false).
Proof. split; [exact flags_accepted|]. exact (setup_checked flags false modes config flags_accepted). Defined.

(** A stranger, with native writes enabled. *)
Definition nobody : AuthEnv := {| lookup_roles _ := None; UserPwAuth _ _ := false; parse_token _ := None;
  Get_entry _ _ := ∅; CheckChainRevocation _ _ := false; fetch _ := None |}.
Definition stranger : Request := {| req_peer := None; req_md := None |}.

Lemma open_by_default_witness :
  c_EnableNativeWrite config = true ∧
  (authenticate nobody 0 {| UserAuth := server_auth flags modes; ConfigTableName := ""; EnableCrl := false |}
     stranger "gnmi_CONFIG_DB" true {| info := new_info; CrlCache := ∅ |}).2 = Ok ().
Proof.
  split; [reflexivity|].
  apply (open_by_default flags false modes config nobody 0 "" false stranger "gnmi_CONFIG_DB"); [exact flags_accepted|].
  left. split; reflexivity.
Defined.

(** A server that starts. *)
Definition serving : Telemetry := {|
  t_main := MServe; t_chan := None; t_sig := SigWait; t_stop := false;
  t_watchers := [{| w_round := 1; w_pc := WWatch |}]; t_round := 1;
  t_tlsOpts := Some (tls_cfg flags "server" (Some "ca")); t_loaded := {[1]} ∪ ∅;
  t_got := [(1, CA "ca"); (1, KeyPair "server")]
|}.

Lemma serving_reachable : rtc (tstep flags) telemetry_start serving.
Proof.
  eapply rtc_l; [by apply (t_new_round _ true)|]. eapply rtc_l; [by apply (t_key_pair _ (Some "server"))|].
  eapply rtc_l; [by apply (t_ca _ "server" (Some "ca"))|]. eapply rtc_l; [by apply t_serves|]. apply rtc_refl.
Qed.

Lemma telemetry_control_witness :
  t_round serving ∈ t_loaded serving ∧
  (∃ o, t_tlsOpts serving = Some o ∧ (t_round serving, KeyPair (tls_Certificate o)) ∈ t_got serving ∧
     tls_RequireClientCert o = true ∧ ∃ pool, tls_ClientCAs o = Some pool ∧ (t_round serving, CA pool) ∈ t_got serving) ∧
  (t_sig serving = SigSent → t_chan serving = Some ServerStop ∨ ∃ told, t_main serving = MDone told) ∧
  (t_sig serving = SigStopped → t_main serving = MDone true).
Proof.
  destruct (telemetry_control flags serving serving_reachable) as (H1 & H2 & H3).
  destruct (H1 eq_refl) as [Hl Ho]. exact (conj Hl (conj Ho (conj H2 H3))).
Defined.

(** It loses its certificate and gets a signal while it waits for another. *)
Definition stopped : Telemetry := {|
  t_main := MDone false; t_chan := None; t_sig := SigSent; t_stop := false;
  t_watchers := [{| w_round := 1; w_pc := WDone |}; {| w_round := 2; w_pc := WWatch |}]; t_round := 2;
  t_tlsOpts := None; t_loaded := {[1]} ∪ ∅; t_got := [(1, CA "ca"); (1, KeyPair "server")]
|}.

Lemma stopped_reachable : rtc (tstep flags) telemetry_start stopped ∧ exited stopped.
Proof.
  split; [|split; [by exists false|by left]]. etrans; [exact serving_reachable|].
  eapply rtc_l; [by apply (t_event _ 0 {| w_round := 1; w_pc := WWatch |} ServerRestart)|].
  eapply rtc_l; [by apply (t_send _ 0 {| w_round := 1; w_pc := WSend ServerRestart |} ServerRestart)|].
  eapply rtc_l; [by apply (t_serve_recv _ ServerRestart)|]. eapply rtc_l; [by apply (t_new_round _ true)|].
  eapply rtc_l; [by apply (t_key_pair _ None)|]. eapply rtc_l; [by apply t_signal|]. eapply rtc_l; [by apply t_pass_on|].
  eapply rtc_l; [by apply (t_wait_recv _ ServerStop)|]. apply rtc_refl.
Qed.

(** The watcher reports an error while the server waits for certificates: the
    server's goroutine returns without a word to the one that waits for
    signals, and the process stays without serving. *)
Lemma stuck_without_server :
  ∃ t, rtc (tstep flags) telemetry_start t ∧ t_main t = MDone false ∧ t_sig t = SigWait ∧ t_stop t = false ∧
    t_chan t = None ∧ Forall (λ w, w_pc w = WDone) (t_watchers t).
Proof.
  eexists. split.
  - eapply rtc_l; [by apply (t_new_round _ true)|]. eapply rtc_l; [by apply (t_key_pair _ None)|].
    eapply rtc_l; [by apply (t_event _ 0 {| w_round := 1; w_pc := WWatch |} ServerStop)|].
    eapply rtc_l; [by apply (t_send _ 0 {| w_round := 1; w_pc := WSend ServerStop |} ServerStop)|].
    eapply rtc_l; [by apply (t_wait_recv _ ServerStop)|]. apply rtc_refl.
  - repeat split. by constructor.
Qed.

(** A removal seen before [certLoaded] is set leaves its watcher running beside
    that of the next round. *)
Lemma two_watchers :
  ∃ t, rtc (tstep flags) telemetry_start t ∧
    t_watchers t = [{| w_round := 1; w_pc := WWatch |}; {| w_round := 2; w_pc := WWatch |}].
Proof.
  eexists. split.
  - eapply rtc_l; [by apply (t_new_round _ true)|].
    eapply rtc_l; [by apply (t_event _ 0 {| w_round := 1; w_pc := WWatch |} ServerRestart)|].
    eapply rtc_l; [by apply (t_send _ 0 {| w_round := 1; w_pc := WSend ServerRestart |} ServerRestart)|].
    eapply rtc_l; [by apply (t_key_pair _ (Some "server"))|]. eapply rtc_l; [by apply (t_ca _ "server" (Some "ca"))|].
    eapply rtc_l; [by apply t_serves|]. eapply rtc_l; [by apply (t_serve_recv _ ServerRestart)|].
    eapply rtc_l; [by apply (t_new_round _ true)|]. apply rtc_refl.
  - reflexivity.
Qed.

End TelemetryExample.
