(* ===== verification/ShowLib.v ===== *)
(** * Helpers of the SHOW commands
      (src/show_client/common/{db,util,interface}.go, src/show_client/show_common.go)

    A SHOW command reads tables as maps of decoded values, combines them and
    returns a document.  [Cmd] is the monad of these functions: it passes the
    variables of the process that commands share (the name maps of the virtual
    paths, the caches of the drop counters, the queue types, the separator
    and the platform that are looked up once) and may end with an error or a panic.

    What a command reads of the system is a [Sys]: the databases behind their
    clients and the files.  A command that sleeps is given the system before
    and after.  The order of [range] is [MapRange]; the natural order of
    interface names (github.com/maruel/natural) and the operations on floating
    point numbers are parameters.  A document is the decoded form of the text
    that [json.Marshal] writes. *)
From Stdlib Require Import Ascii.
From stdpp Require Import base gmap list strings sorting pretty.
From S2P Require Import Prelude GoStrings Gnmi Json World DbConfig DbConn VirtualDb V2R DbClient Bypass Show.

(** ** What commands share and how they end *)

Record ShowState := {
  name_maps : Maps;
  statLookupCache : gmap string (gmap string string);
  reverseStatLookupCache : gmap string (gmap string string);
  countersQueueTypeMap : gmap string string;
  countersOnce : bool;
  countersDBSeparator : string;
  hwInfoDict : option (gmap string json)
}.

Definition defaultCountersDBSeparator : string := ":".

Definition show_init : ShowState := {|
  name_maps := noMaps; statLookupCache := ∅; reverseStatLookupCache := ∅;
  countersQueueTypeMap := ∅; countersOnce := false; countersDBSeparator := defaultCountersDBSeparator;
  hwInfoDict := None
|}.

(** An error, or a panic, which nothing on the way to the server recovers. *)
Inductive cmd_err := Failed (e : show_err) | Crashed.

Global Instance cmd_err_eq_dec : EqDecision cmd_err.
Proof. solve_decision. Defined.

Definition Cmd (A : Type) : Type := ShowState → ShowState * res cmd_err A.

Global Instance Cmd_ret : MRet Cmd := λ A a s, (s, Ok a).
Global Instance Cmd_bind : MBind Cmd := λ A B f m s,
  let '(s, r) := m s in match r with Ok a => f a s | Err e => (s, Err e) end.
Global Instance Cmd_fmap : FMap Cmd := λ A B f m s,
  let '(s, r) := m s in (s, f <$> r).

Definition fail {A} (e : show_err) : Cmd A := λ s, (s, Err (Failed e)).
Definition crash {A} : Cmd A := λ s, (s, Err Crashed).

(** A call whose error the caller looks at; a panic goes on. *)
Definition try {A} (m : Cmd A) : Cmd (res show_err A) := λ s,
  let '(s, r) := m s in
  match r with
  | Ok a => (s, Ok (Ok a))
  | Err (Failed e) => (s, Ok (Err e))
  | Err Crashed => (s, Err Crashed)
  end.

(** Loops with state: over a list, and collecting one result per element. *)
Fixpoint for_each {A S} (f : S → A → Cmd S) (acc : S) (l : list A) : Cmd S :=
  match l with
  | [] => mret acc
  | x :: l => f acc x ≫= λ acc, for_each f acc l
  end.

Fixpoint mapC {A B} (f : A → Cmd B) (l : list A) : Cmd (list B) :=
  match l with
  | [] => mret []
  | x :: l => y ← f x; ys ← mapC f l; mret (y :: ys)
  end.

(** [return x, err] *)
Definition returns {A} (r : res show_err A) : Cmd A := match r with Ok a => mret a | Err e => fail e end.

(** [v.(T)] without the comma-ok form. *)
Definition must {A} (o : option A) : Cmd A := match o with Some a => mret a | None => crash end.

(** Assignments to the variables. *)
Definition set_maps (g : Maps) (s : ShowState) : ShowState := {|
  name_maps := g; statLookupCache := statLookupCache s; reverseStatLookupCache := reverseStatLookupCache s;
  countersQueueTypeMap := countersQueueTypeMap s; countersOnce := countersOnce s;
  countersDBSeparator := countersDBSeparator s; hwInfoDict := hwInfoDict s |}.
Definition set_caches (fwd rev : gmap string (gmap string string)) (s : ShowState) : ShowState := {|
  name_maps := name_maps s; statLookupCache := fwd; reverseStatLookupCache := rev;
  countersQueueTypeMap := countersQueueTypeMap s; countersOnce := countersOnce s;
  countersDBSeparator := countersDBSeparator s; hwInfoDict := hwInfoDict s |}.
Definition set_queue_types (m : gmap string string) (s : ShowState) : ShowState := {|
  name_maps := name_maps s; statLookupCache := statLookupCache s; reverseStatLookupCache := reverseStatLookupCache s;
  countersQueueTypeMap := m; countersOnce := countersOnce s;
  countersDBSeparator := countersDBSeparator s; hwInfoDict := hwInfoDict s |}.
Definition set_separator (sep : string) (s : ShowState) : ShowState := {|
  name_maps := name_maps s; statLookupCache := statLookupCache s; reverseStatLookupCache := reverseStatLookupCache s;
  countersQueueTypeMap := countersQueueTypeMap s; countersOnce := true; countersDBSeparator := sep;
  hwInfoDict := hwInfoDict s |}.
Definition set_hw (d : gmap string json) (s : ShowState) : ShowState := {|
  name_maps := name_maps s; statLookupCache := statLookupCache s; reverseStatLookupCache := reverseStatLookupCache s;
  countersQueueTypeMap := countersQueueTypeMap s; countersOnce := countersOnce s;
  countersDBSeparator := countersDBSeparator s; hwInfoDict := Some d |}.

(** The system a command runs on. *)
Record Sys := {
  sys_env : Env;
  read_file : string → option string
}.

(** The natural order of names: a sort, so it loses and adds nothing. *)
Class NatSort := {
  natsort : list string → list string;
  natsort_perm : ∀ l, natsort l ≡ₚ l
}.

(** ** Strings and numbers *)

(** [strconv.ParseInt(s, 10, 64)]: the value and whether the error is nil.  Out
    of range the value is the nearest integer, otherwise it is 0. *)
Definition ParseInt (s : string) : Z * bool :=
  let '(neg, body) :=
    match s with
    | String "-" s' => (true, s')
    | String "+" s' => (false, s')
    | _ => (false, s)
    end%char in
  match digits body with
  | None => (0, false)%Z
  | Some n =>
      let v := if neg : bool then (- n)%Z else n in
      if bool_decide (max_int64 < v)%Z then (max_int64, false)
      else if bool_decide (v < min_int64)%Z then (min_int64, false)
      else (v, true)
  end.

(** [strconv.FormatInt(v, 10)] *)
Definition FormatInt (v : Z) : string := Itoa v.

Definition to_upper (c : Ascii.ascii) : Ascii.ascii :=
  let n := Ascii.nat_of_ascii c in
  if bool_decide (97 ≤ n ≤ 122) then Ascii.ascii_of_nat (n - 32) else c.

(** [strings.ToUpper] of ASCII text *)
Fixpoint ToUpper (s : string) : string :=
  match s with EmptyString => EmptyString | String c s => String (to_upper c) (ToUpper s) end.

(** [strings.EqualFold] of ASCII text *)
Definition EqualFold (a b : string) : bool := bool_decide (ToLower a = ToLower b).

(** [strings.Cut(s, sep)] *)
Definition Cut (s sep : string) : string * string * bool :=
  if bool_decide (sep = "") then ("", s, true)
  else match SplitN2 s sep with
       | before :: after :: _ => (before, after, true)
       | _ => (s, "", false)
       end.

Definition DefaultMissingCounterValue : string := "N/A".
Definition MaxShowCommandPeriod : Z := 300.
Definition InternalPort : string := "Int".
Definition InbandPort : string := "Inb".
Definition RecircPort : string := "Rec".
Definition DpuConnectPort : string := "Dpc".

Section util.
Context {Fmt : GoFmt} {MR : MapRange}.
Notation msi := (gmap string json).

Definition GetValueOrDefault (values : msi) (key defaultValue : string) : string :=
  match values !! key with Some v => Sprintv v | None => defaultValue end.

Definition GetNonZeroValueOrEmpty (values : msi) (key : string) : string :=
  match values !! key with
  | Some v => let '(n, ok) := ParseInt (Sprintv v) in
              if ok && bool_decide (n ≠ 0%Z) then Sprintv v else ""
  | None => ""
  end.

Definition GetFieldValueString (data : msi) (key defaultValue field : string) : string :=
  match data !! key ≫= as_map with
  | None => defaultValue
  | Some entry => match entry !! field with Some v => Sprintv v | None => defaultValue end
  end.

(** [total += intValue] on int64; nothing in the body panics. *)
Fixpoint sum_fields (data : msi) (key defaultValue : string) (total : Z) (fields : list string) : string :=
  match fields with
  | [] => FormatInt total
  | f :: fields =>
      match ParseInt (GetFieldValueString data key defaultValue f) with
      | (_, false) => defaultValue
      | (v, true) => sum_fields data key defaultValue (to_int64 (total + v)) fields
      end
  end.

Definition GetSumFields (data : msi) (key defaultValue : string) (fields : list string) : string :=
  sum_fields data key defaultValue 0 fields.

Definition GetSortedKeys (m : msi) : list string := sort_Strings (map_range m).*1.

Definition GetOrDefault {T} (m : gmap string T) (key : string) (def : T) : T := default def (m !! key).

Definition ContainsString (l : list string) (target : string) : bool := bool_decide (target ∈ l).

Definition Capitalize (s : string) : string := ToUpper (str_take 1 s) +:+ ToLower (str_drop 1 s).

Definition ParseKey (key : json) (delimiter : string) : string * string :=
  match key with
  | JStr s => match Split s delimiter with a :: b :: _ => (a, b) | _ => ("", "") end
  | _ => ("", "")
  end.

Definition SplitCompositeKey (k : string) : string * string * bool :=
  match Split k "|" with
  | [a; b] => (a, b, true)
  | _ => match Split k ":" with [a; b] => (a, b, true) | _ => ("", "", false) end
  end.

(** [calculateDiffCounters] of show_common.go *)
Definition calculateDiffCounters (oldCounter newCounter defaultValue : string) : string :=
  if bool_decide (oldCounter = defaultValue) || bool_decide (newCounter = defaultValue) then defaultValue
  else match ParseInt oldCounter, ParseInt newCounter with
       | (o, true), (n, true) => FormatInt (to_int64 (n - o))
       | _, _ => defaultValue
       end.

(** ** Names of interfaces *)

Definition SonicInterfacePrefixes : list (string * string) :=
  [("Ethernet-FrontPanel", "Ethernet"); ("PortChannel", "PortChannel"); ("Vlan", "Vlan");
   ("Loopback", "Loopback"); ("Ethernet-Backplane", "Ethernet-BP"); ("Ethernet-Inband", "Ethernet-IB");
   ("Ethernet-Recirc", "Ethernet-Rec"); ("Ethernet-SubPort", "Eth"); ("PortChannel-SubPort", "Po")].

Definition interface_prefix (kind : string) : string :=
  default "" ((list_to_map SonicInterfacePrefixes : gmap string string) !! kind).

Definition IsRoleInternal (role : string) : bool :=
  negb (bool_decide (role = DefaultMissingCounterValue)) &&
  (bool_decide (role = InternalPort) || bool_decide (role = InbandPort) ||
   bool_decide (role = RecircPort) || bool_decide (role = DpuConnectPort)).

Definition IsFrontPanelPort (iface role : string) : bool :=
  if negb (HasPrefix iface (interface_prefix "Ethernet-FrontPanel")) then false
  else if HasPrefix iface (interface_prefix "Ethernet-Backplane") ||
          HasPrefix iface (interface_prefix "Ethernet-Inband") ||
          HasPrefix iface (interface_prefix "Ethernet-Recirc") then false
  else if Contains iface "." then false
  else negb (IsRoleInternal role).

Inductive InterfaceNamingMode := Default | Alias.

Global Instance InterfaceNamingMode_eq_dec : EqDecision InterfaceNamingMode.
Proof. solve_decision. Defined.

Definition mode_String (m : InterfaceNamingMode) : string :=
  match m with Default => "default" | Alias => "alias" end.

Definition ParseInterfaceNamingMode (s : string) : res show_err InterfaceNamingMode :=
  let s := ToLower (TrimSpace s) in
  if bool_decide (s = "") then Ok Default
  else if bool_decide (s = "default") then Ok Default
  else if bool_decide (s = "alias") then Ok Alias
  else Err (PlainErr ("invalid InterfaceNamingMode " +:+ s)).

(** The part of a name before the first dot, and the rest with the dot. *)
Definition split_dot (name : string) : string * string :=
  match SplitN2 name "." with
  | base :: vlan :: _ => (base, "." +:+ vlan)
  | _ => (name, "")
  end.

Definition MergeMaps (a b : gmap string string) : gmap string string := b ∪ a.
End util.

(** ** Reading tables *)
Section queries.
Context {Sw : Swss} {MR : MapRange} {JCo : JsonCodec} {Fmt : GoFmt} {NS : NatSort}.
Variable Y : Sys.
Notation msi := (gmap string json).

Definition gerr_msg (e : gerr) : string :=
  match e with Errorf m => m | RedisNil => "redis: nil" | Panicked => "" end.

Definition of_gerr {A} (r : res gerr A) : res cmd_err A :=
  match r with
  | Ok a => Ok a
  | Err Panicked => Err Crashed
  | Err e => Err (Failed (PlainErr (gerr_msg e)))
  end.

Definition PopulateTablePaths (prefix path : option Path) : Cmd (list tablePath) := λ s,
  let '(g, r) := populateDbtablePath (sys_env Y) prefix path (name_maps s) in (set_maps g s, of_gerr r).

Definition minQueryLength : nat := 2.
Definition maxQueryLength : nat := 5.

(** A query is valid when it names a database, a table and at most three more
    elements. *)
Definition query_paths (q : list string) : Cmd (list tablePath) :=
  match q with
  | dbTarget :: table :: rest =>
      if bool_decide (maxQueryLength < length q) then fail (PlainErr "invalid query")
      else λ s,
        let '(s, r) := PopulateTablePaths
          (Some {| path_origin := ""; path_target := dbTarget; path_elem := [] |})
          (Some (path_of (table :: rest))) s in
        (s, match r with Err (Failed _) => Err (Failed (PlainErr "query failed")) | _ => r end)
  | _ => fail (PlainErr "invalid query")
  end.

Definition CreateTablePathsFromQueries (queries : list (list string)) : Cmd (list tablePath) :=
  for_each (λ allPaths q, tablePaths ← query_paths q; mret (allPaths ++ tablePaths)) [] queries.

Definition GetMapFromQueries (queries : list (list string)) : Cmd msi :=
  tblPaths ← CreateTablePathsFromQueries queries;
  for_each (λ m tp s, (s, of_gerr (TableData2Msi (Target2RedisDb (sys_env Y)) tp false None m))) ∅ tblPaths.

Definition GetDataFromQueries (queries : list (list string)) : Cmd string :=
  m ← GetMapFromQueries queries;
  returns (Show.Msi2Bytes m).

Definition CountersDBSeparator : Cmd string := λ s,
  if countersOnce s then (s, Ok (countersDBSeparator s))
  else
    let sep := match (GetTableKeySeparator "COUNTERS_DB" "" (env_cfg (sys_env Y))).2 with
               | (sep, None) => sep
               | (_, Some _) => countersDBSeparator s
               end in
    (set_separator sep s, Ok sep).

Definition AliasToPort : Cmd (gmap string string) := λ s,
  let '(g, m) := AliasToPortNameMap (sys_env Y) (name_maps s) in (set_maps g s, Ok m).
Definition PortToAlias : Cmd (gmap string string) := λ s,
  let '(g, m) := PortToAliasNameMap (sys_env Y) (name_maps s) in (set_maps g s, Ok m).

(** The table under the names of the ports when one of its keys is an alias,
    and the table itself otherwise. *)
Definition remap (aliasMap : gmap string string) (portData : msi) : msi :=
  if existsb (λ '(k, _), bool_decide (is_Some (aliasMap !! k))) (map_range portData) then
    insert_all (λ '(alias, v), (λ portName, (portName, v)) <$> aliasMap !! alias) ∅ (map_range portData)
  else portData.

Definition RemapAliasToPortName (portData : msi) : Cmd msi :=
  aliasMap ← AliasToPort; mret (remap aliasMap portData).

Definition remap_queue (aliasMap : gmap string string) (sep : string) (e : string * json) : option (string * json) :=
  let '(key, val) := e in
  match Cut key sep with
  | (_, _, false) => None
  | (port, queueIdx, true) =>
      Some (match aliasMap !! port with
            | Some sonicPortName => (sonicPortName +:+ sep +:+ queueIdx, val)
            | None => (key, val)
            end)
  end.

Definition RemapAliasToPortNameForQueues (queueData : msi) : Cmd msi :=
  aliasMap ← AliasToPort;
  sep ← CountersDBSeparator;
  mret (insert_all (remap_queue aliasMap sep) ∅ (map_range queueData)).

Definition GetNameForInterfaceAlias (intfAlias : string) : Cmd string :=
  aliasMap ← AliasToPort; mret (default "" (aliasMap !! intfAlias)).

Definition GetInterfaceNameForDisplay (name : string) (mode : InterfaceNamingMode) : Cmd string :=
  if bool_decide (name = "") then mret name
  else if bool_decide (mode = Default) then mret name
  else
    nameToAlias ← PortToAlias;
    let '(base, suffix) := split_dot name in
    mret (match nameToAlias !! base with Some alias => alias +:+ suffix | None => name end).

Definition TryConvertInterfaceNameFromAlias (interfaceName : string) (mode : InterfaceNamingMode) : Cmd string :=
  if bool_decide (mode = Alias) then
    aliasMap ← AliasToPort;
    let name := default interfaceName (aliasMap !! interfaceName) in
    if bool_decide (name = "") || bool_decide (name = interfaceName) then
      fail (PlainErr ("Cannot find interface name for alias " +:+ interfaceName))
    else mret name
  else mret interfaceName.

Definition IsValidPhysicalPort (iface : string) : Cmd bool :=
  portTable ← GetMapFromQueries [["APPL_DB"; "PORT_TABLE"]];
  mret (IsFrontPanelPort iface (GetFieldValueString portTable iface DefaultMissingCounterValue "role")).

(** ** Physical ports *)

Record PortMappingRetriever := {
  logicalToPhysical : gmap string (list Z);
  physicalToLogic : gmap Z (list string);
  pmr_err : option show_err
}.

(** The index of a port: 1 unless its entry has a field [index] that is a
    number. *)
Definition port_index (entry : msi) : Z :=
  match entry !! "index" with
  | Some (JStr indexStr) => default 1%Z (Atoi indexStr)
  | _ => 1%Z
  end.

Definition add_port (portTable : msi) (m : gmap string (list Z) * gmap Z (list string)) (intfName : string)
  : gmap string (list Z) * gmap Z (list string) :=
  let '(l2p, p2l) := m in
  let '(l2p, fpPortIndex) :=
    match portTable !! intfName ≫= as_map with
    | Some v => (<[intfName := [port_index v]]> l2p, port_index v)
    | None => (l2p, 1%Z)
    end in
  (l2p, match p2l !! fpPortIndex with
        | None => <[fpPortIndex := [intfName]]> p2l
        | Some l => <[fpPortIndex := l ++ [intfName]]> p2l
        end).

Definition ReadPorttabMappings (pmr : PortMappingRetriever) : Cmd PortMappingRetriever :=
  r ← try (GetMapFromQueries [["CONFIG_DB"; "PORT"]]);
  match r with
  | Err e => mret {| logicalToPhysical := logicalToPhysical pmr; physicalToLogic := physicalToLogic pmr; pmr_err := Some e |}
  | Ok portTable =>
      let logical := natsort (filter
        (λ iface, IsFrontPanelPort iface (GetFieldValueString portTable iface DefaultMissingCounterValue "role") = true)
        (map_range portTable).*1) in
      let '(l2p, p2l) := foldl (add_port portTable) (∅, ∅) logical in
      mret {| logicalToPhysical := l2p; physicalToLogic := p2l; pmr_err := None |}
  end.

Definition GetLogicalToPhysical (pmr : PortMappingRetriever) (logicalPort : string) : list Z :=
  match pmr_err pmr with Some _ => [] | None => default [] (logicalToPhysical pmr !! logicalPort) end.

Definition GetPhysicalToLogic (pmr : PortMappingRetriever) (physicalPort : Z) : list string :=
  match pmr_err pmr with Some _ => [] | None => default [] (physicalToLogic pmr !! physicalPort) end.

Definition GetFirstSubPort (pmr : PortMappingRetriever) (logicalPort : string) : string :=
  match GetLogicalToPhysical pmr logicalPort with
  | p :: _ => match GetPhysicalToLogic pmr p with l :: _ => l | [] => "" end
  | [] => ""
  end.
End queries.
