(* ===== verification/ShowCounters.v ===== *)
(** * SHOW interface counters
      (src/show_client/interface_counters_helper.go, interface_counters_cli.go)

    A snapshot has one row per port, filled from the tables COUNTERS and RATES
    of COUNTERS_DB and the two tables PORT_TABLE.  If the cache that portstat
    keeps when an operator clears the counters is readable, the rows are the
    differences to it; with a period, the differences between two snapshots.

    The structures have over sixty strings each: a row is a map from the Go
    names of the fields, an absent one being the empty string, and what the
    code writes field by field are tables of names.  The rows of a response
    have no JSON tags, so their keys are the names of the fields. *)
From Stdlib Require Import Ascii.
From stdpp Require Import base gmap sets list strings pretty.
From S2P Require Import Prelude GoStrings Gnmi Json DbConfig DbConn VirtualDb VirtualDbFacts DbClient Bypass Show ShowLib.

(** The float64 operations and formats the commands use. *)
Class GoFloat := {
  float64 : Type;
  ParseFloat : string → option float64;
  flit : Z → float64;
  fgt : float64 → float64 → bool;
  fmul : float64 → float64 → float64;
  fdiv : float64 → float64 → float64;
  fround : float64 → Z;
  fmt_f : nat → float64 → string;
  fmt_e : nat → float64 → string
}.

Record FecErrCW := { BinIndex : string; Codewords : string }.

Record Snapshot := {
  sn_fields : gmap string string;
  FecErrCWs : list FecErrCW
}.

Definition fld (s : Snapshot) (f : string) : string := default "" (sn_fields s !! f).

(** A composite literal. *)
Definition struct_of (rows : list (string * string)) : gmap string string := list_to_map rows.

(** The strings of the structure [InterfaceCountersSnapshot], in its order. *)
Definition InterfaceCountersSnapshot : list string :=
  ["State"; "RxOk"; "RxErr"; "RxDrp"; "RxOvr"; "TxOk"; "TxErr"; "TxDrp"; "TxOvr"; "RxBps"; "RxPps"; "RxUtil";
   "TxBps"; "TxPps"; "TxUtil"; "FecCorr"; "FecUncorr"; "FecSymbolErr"; "FecPreBer"; "FecPostBer"; "TrimPkts";
   "TrimSent"; "TrimDrp"; "Rx64"; "Rx65_127"; "Rx128_255"; "Rx256_511"; "Rx512_1023"; "Rx1024_1518";
   "Rx1519_2047"; "Rx2048_4095"; "Rx4096_9216"; "Rx9217_16383"; "Tx64"; "Tx65_127"; "Tx128_255"; "Tx256_511";
   "Tx512_1023"; "Tx1024_1518"; "Tx1519_2047"; "Tx2048_4095"; "Tx4096_9216"; "Tx9217_16383"; "RxAll";
   "RxUnicast"; "RxMulticast"; "RxBroadcast"; "TxAll"; "TxUnicast"; "TxMulticast"; "TxBroadcast"; "RxJabbers";
   "RxFragments"; "RxUndersize"; "RxOverruns"; "TimestampClearedCounters"].

(** ** Where the fields come from *)

Inductive source := One (stat : string) | Sum (stats : list string).

Definition counter_sources : list (string * source) :=
  [("RxOk", Sum ["SAI_PORT_STAT_IF_IN_UCAST_PKTS"; "SAI_PORT_STAT_IF_IN_NON_UCAST_PKTS"]);
   ("RxErr", One "SAI_PORT_STAT_IF_IN_ERRORS");
   ("RxDrp", One "SAI_PORT_STAT_IF_IN_DISCARDS");
   ("RxOvr", One "SAI_PORT_STAT_ETHER_RX_OVERSIZE_PKTS");
   ("TxOk", Sum ["SAI_PORT_STAT_IF_OUT_UCAST_PKTS"; "SAI_PORT_STAT_IF_OUT_NON_UCAST_PKTS"]);
   ("TxErr", One "SAI_PORT_STAT_IF_OUT_ERRORS");
   ("TxDrp", One "SAI_PORT_STAT_IF_OUT_DISCARDS");
   ("TxOvr", One "SAI_PORT_STAT_ETHER_TX_OVERSIZE_PKTS");
   ("FecCorr", One "SAI_PORT_STAT_IF_IN_FEC_CORRECTABLE_FRAMES");
   ("FecUncorr", One "SAI_PORT_STAT_IF_IN_FEC_NOT_CORRECTABLE_FRAMES");
   ("FecSymbolErr", One "SAI_PORT_STAT_IF_IN_FEC_SYMBOL_ERRORS");
   ("TrimPkts", One "SAI_PORT_STAT_TRIM_PKTS");
   ("TrimSent", One "SAI_PORT_STAT_TX_TRIM_SENT_PKTS");
   ("TrimDrp", One "SAI_PORT_STAT_DROPPED_TRIM_PKTS");
   ("Rx64", One "SAI_PORT_STAT_ETHER_IN_PKTS_64_OCTETS");
   ("Rx65_127", One "SAI_PORT_STAT_ETHER_IN_PKTS_65_TO_127_OCTETS");
   ("Rx128_255", One "SAI_PORT_STAT_ETHER_IN_PKTS_128_TO_255_OCTETS");
   ("Rx256_511", One "SAI_PORT_STAT_ETHER_IN_PKTS_256_TO_511_OCTETS");
   ("Rx512_1023", One "SAI_PORT_STAT_ETHER_IN_PKTS_512_TO_1023_OCTETS");
   ("Rx1024_1518", One "SAI_PORT_STAT_ETHER_IN_PKTS_1024_TO_1518_OCTETS");
   ("Rx1519_2047", One "SAI_PORT_STAT_ETHER_IN_PKTS_1519_TO_2047_OCTETS");
   ("Rx2048_4095", One "SAI_PORT_STAT_ETHER_IN_PKTS_2048_TO_4095_OCTETS");
   ("Rx4096_9216", One "SAI_PORT_STAT_ETHER_IN_PKTS_4096_TO_9216_OCTETS");
   ("Rx9217_16383", One "SAI_PORT_STAT_ETHER_IN_PKTS_9217_TO_16383_OCTETS");
   ("Tx64", One "SAI_PORT_STAT_ETHER_OUT_PKTS_64_OCTETS");
   ("Tx65_127", One "SAI_PORT_STAT_ETHER_OUT_PKTS_65_TO_127_OCTETS");
   ("Tx128_255", One "SAI_PORT_STAT_ETHER_OUT_PKTS_128_TO_255_OCTETS");
   ("Tx256_511", One "SAI_PORT_STAT_ETHER_OUT_PKTS_256_TO_511_OCTETS");
   ("Tx512_1023", One "SAI_PORT_STAT_ETHER_OUT_PKTS_512_TO_1023_OCTETS");
   ("Tx1024_1518", One "SAI_PORT_STAT_ETHER_OUT_PKTS_1024_TO_1518_OCTETS");
   ("Tx1519_2047", One "SAI_PORT_STAT_ETHER_OUT_PKTS_1519_TO_2047_OCTETS");
   ("Tx2048_4095", One "SAI_PORT_STAT_ETHER_OUT_PKTS_2048_TO_4095_OCTETS");
   ("Tx4096_9216", One "SAI_PORT_STAT_ETHER_OUT_PKTS_4096_TO_9216_OCTETS");
   ("Tx9217_16383", One "SAI_PORT_STAT_ETHER_OUT_PKTS_9217_TO_16383_OCTETS");
   ("RxAll", Sum ["SAI_PORT_STAT_IF_IN_UCAST_PKTS"; "SAI_PORT_STAT_IF_IN_MULTICAST_PKTS"; "SAI_PORT_STAT_IF_IN_BROADCAST_PKTS"]);
   ("RxUnicast", One "SAI_PORT_STAT_IF_IN_UCAST_PKTS");
   ("RxMulticast", One "SAI_PORT_STAT_IF_IN_MULTICAST_PKTS");
   ("RxBroadcast", One "SAI_PORT_STAT_IF_IN_BROADCAST_PKTS");
   ("TxAll", Sum ["SAI_PORT_STAT_IF_OUT_UCAST_PKTS"; "SAI_PORT_STAT_IF_OUT_MULTICAST_PKTS"; "SAI_PORT_STAT_IF_OUT_BROADCAST_PKTS"]);
   ("TxUnicast", One "SAI_PORT_STAT_IF_OUT_UCAST_PKTS");
   ("TxMulticast", One "SAI_PORT_STAT_IF_OUT_MULTICAST_PKTS");
   ("TxBroadcast", One "SAI_PORT_STAT_IF_OUT_BROADCAST_PKTS");
   ("RxJabbers", One "SAI_PORT_STAT_ETHER_STATS_JABBERS");
   ("RxFragments", One "SAI_PORT_STAT_ETHER_STATS_FRAGMENTS");
   ("RxUndersize", One "SAI_PORT_STAT_ETHER_STATS_UNDERSIZE_PKTS");
   ("RxOverruns", One "SAI_PORT_STAT_IP_IN_RECEIVES")].

(** The fields that a difference of snapshots subtracts, with the flag [raw],
    and those it takes from the new one. *)
Definition diff_fields : list (string * bool) :=
  [("RxOk", false); ("RxErr", false); ("RxDrp", false); ("RxOvr", false); ("TxOk", false); ("TxErr", false);
   ("TxDrp", false); ("TxOvr", false); ("FecCorr", false); ("FecUncorr", false); ("FecSymbolErr", false);
   ("TrimPkts", false); ("TrimSent", false); ("TrimDrp", true); ("Rx64", false); ("Rx65_127", false);
   ("Rx128_255", false); ("Rx256_511", false); ("Rx512_1023", false); ("Rx1024_1518", false);
   ("Rx1519_2047", false); ("Rx2048_4095", false); ("Rx4096_9216", false); ("Rx9217_16383", false);
   ("Tx64", false); ("Tx65_127", false); ("Tx128_255", false); ("Tx256_511", false); ("Tx512_1023", false);
   ("Tx1024_1518", false); ("Tx1519_2047", false); ("Tx2048_4095", false); ("Tx4096_9216", false);
   ("Tx9217_16383", false); ("RxAll", false); ("RxUnicast", false); ("RxMulticast", false);
   ("RxBroadcast", false); ("TxAll", false); ("TxUnicast", false); ("TxMulticast", false);
   ("TxBroadcast", false); ("RxJabbers", false); ("RxFragments", false); ("RxUndersize", false);
   ("RxOverruns", false)].

Definition kept_fields : list string :=
  ["State"; "RxBps"; "RxPps"; "RxUtil"; "TxBps"; "TxPps"; "TxUtil"; "FecPreBer"; "FecPostBer"].

(** The JSON tags of the structure, for the cache of portstat. *)
Definition cache_tags : list (string * string) :=
  [("rx_ok", "RxOk"); ("rx_err", "RxErr"); ("rx_drop", "RxDrp"); ("rx_ovr", "RxOvr"); ("tx_ok", "TxOk");
   ("tx_err", "TxErr"); ("tx_drop", "TxDrp"); ("tx_ovr", "TxOvr"); ("fec_corr", "FecCorr");
   ("fec_uncorr", "FecUncorr"); ("fec_symbol_err", "FecSymbolErr"); ("trim", "TrimPkts"); ("rx_64", "Rx64");
   ("rx_65_127", "Rx65_127"); ("rx_128_255", "Rx128_255"); ("rx_256_511", "Rx256_511");
   ("rx_512_1023", "Rx512_1023"); ("rx_1024_1518", "Rx1024_1518"); ("rx_1519_2047", "Rx1519_2047");
   ("rx_2048_4095", "Rx2048_4095"); ("rx_4096_9216", "Rx4096_9216"); ("rx_9217_16383", "Rx9217_16383");
   ("tx_64", "Tx64"); ("tx_65_127", "Tx65_127"); ("tx_128_255", "Tx128_255"); ("tx_256_511", "Tx256_511");
   ("tx_512_1023", "Tx512_1023"); ("tx_1024_1518", "Tx1024_1518"); ("tx_1519_2047", "Tx1519_2047");
   ("tx_2048_4095", "Tx2048_4095"); ("tx_4096_9216", "Tx4096_9216"); ("tx_9217_16383", "Tx9217_16383");
   ("rx_all", "RxAll"); ("rx_uca", "RxUnicast"); ("rx_mca", "RxMulticast"); ("rx_bca", "RxBroadcast");
   ("tx_all", "TxAll"); ("tx_uca", "TxUnicast"); ("tx_mca", "TxMulticast"); ("tx_bca", "TxBroadcast");
   ("rx_jbr", "RxJabbers"); ("rx_frag", "RxFragments"); ("rx_usize", "RxUndersize");
   ("rx_ovrrun", "RxOverruns")].

Definition fecBinCount : nat := 16.
Definition defaultTimestamp : string := "None".
Definition portStatCachePath : string := "/tmp/cache/portstat/1000/portstat".

(** ** Arithmetic on counters *)

Definition calculateDiff (oldValue newValue : string) (raw : bool) : string :=
  if bool_decide (newValue = DefaultMissingCounterValue) then DefaultMissingCounterValue
  else
    let oldValue := if bool_decide (oldValue = DefaultMissingCounterValue) then "0" else oldValue in
    let diff := to_int64 ((ParseInt newValue).1 - (ParseInt oldValue).1) in
    if raw then FormatInt diff
    else FormatInt (if bool_decide (diff < 0)%Z then 0%Z else diff).

Definition validateAndGetIntValue (value : string) : string :=
  if (ParseInt value).2 then value else DefaultMissingCounterValue.

Definition validatePeriod (options : OptionMap) : res show_err (Z * bool) :=
  let '(period, takeDiffSnapshot) :=
    match ov_Int (opt_get options "period") with Some v => (v, true) | None => (0%Z, false) end in
  if bool_decide (MaxShowCommandPeriod < period)%Z || bool_decide (period < 0)%Z then
    Err (PlainErr ("period value must be <= " +:+ Itoa MaxShowCommandPeriod +:+ " and non negative"))
  else Ok (period, takeDiffSnapshot).

Definition getTimestampClearedCounters (oldTS newTS : string) : string :=
  if bool_decide (oldTS = defaultTimestamp) && bool_decide (newTS = defaultTimestamp) then defaultTimestamp
  else if bool_decide (newTS ≠ defaultTimestamp) then newTS
  else oldTS.

Definition diff_row (old new : Snapshot) : Snapshot := {|
  sn_fields := struct_of (
    ((λ '(f, raw), (f, calculateDiff (fld old f) (fld new f) raw)) <$> diff_fields) ++
    ((λ f, (f, fld new f)) <$> kept_fields) ++
    [("TimestampClearedCounters",
      getTimestampClearedCounters (fld old "TimestampClearedCounters") (fld new "TimestampClearedCounters"))]);
  FecErrCWs := FecErrCWs new
|}.

(** A row without a predecessor is shown as it is. *)
Definition calculateDiffSnapshot (oldSnapshot newSnapshot : gmap string Snapshot) : gmap string Snapshot :=
  map_imap (λ iface newResp,
    Some (match oldSnapshot !! iface with
          | None => newResp
          | Some oldResp => diff_row oldResp newResp
          end)) newSnapshot.

(** ** Rates *)
Section rates.
Context {FL : GoFloat} {Fmt : GoFmt}.

Definition with_rate (rate : string) (f : float64 → string) : string :=
  if bool_decide (rate = DefaultMissingCounterValue) then DefaultMissingCounterValue
  else match ParseFloat rate with
       | None => DefaultMissingCounterValue
       | Some v => f v
       end.

Definition calculateByteRate (rate : string) : string :=
  with_rate rate (λ v,
    (if fgt v (flit 10000000) then fmt_f 2 (fdiv v (flit 1000000)) +:+ " MB"
     else if fgt v (flit 10000) then fmt_f 2 (fdiv v (flit 1000)) +:+ " KB"
     else fmt_f 2 v +:+ " B") +:+ "/s").

Definition calculatePacketRate (rate : string) : string := with_rate rate (λ v, fmt_f 2 v +:+ "/s").
Definition calculateBerRate (rate : string) : string := with_rate rate (fmt_e 2).
Definition formatUtil (rate : string) : string := with_rate rate (λ v, fmt_f 2 v +:+ "%").

Definition calculateUtil (rate portSpeed : string) : string :=
  if bool_decide (rate = DefaultMissingCounterValue) || bool_decide (portSpeed = DefaultMissingCounterValue)
  then DefaultMissingCounterValue
  else match ParseFloat rate, ParseFloat portSpeed with
       | Some byteRate, Some portRate =>
           fmt_f 2 (fmul (fdiv byteRate (fdiv (fmul portRate (flit 1000000)) (flit 8))) (flit 100)) +:+ "%"
       | _, _ => DefaultMissingCounterValue
       end.

Definition computeUtil (utilRate byteRate portSpeed : string) : string :=
  if bool_decide (utilRate = DefaultMissingCounterValue) then calculateUtil byteRate portSpeed
  else formatUtil utilRate.

(** [fmt.Sprint(entry[field])] *)
Definition sprint_field (entry : gmap string json) (field : string) : string :=
  Sprintv (default JNull (entry !! field)).

Definition computeState (iface : string) (portTable : gmap string json) : string :=
  match portTable !! iface ≫= as_map with
  | None => "X"
  | Some entry =>
      let adminStatus := sprint_field entry "admin_status" in
      let operStatus := sprint_field entry "oper_status" in
      if bool_decide (adminStatus = "down") then "X"
      else if bool_decide (adminStatus = "up") && bool_decide (operStatus = "up") then "U"
      else if bool_decide (adminStatus = "up") && bool_decide (operStatus = "down") then "D"
      else "X"
  end.

Definition computeSpeed (iface : string) (statePortTable appPortTable : gmap string json) : string :=
  let speedFromState := GetFieldValueString statePortTable iface DefaultMissingCounterValue "speed" in
  let operStatus := GetFieldValueString appPortTable iface DefaultMissingCounterValue "oper_status" in
  if bool_decide (speedFromState = DefaultMissingCounterValue) || negb (bool_decide (operStatus = "up")) then
    GetFieldValueString appPortTable iface DefaultMissingCounterValue "speed"
  else speedFromState.

(** ** A snapshot *)

Definition source_value (portCounters : gmap string json) (iface : string) (src : source) : string :=
  match src with
  | One stat => GetFieldValueString portCounters iface DefaultMissingCounterValue stat
  | Sum stats => GetSumFields portCounters iface DefaultMissingCounterValue stats
  end.

Definition fec_bins (portCounters : gmap string json) (iface : string) : list FecErrCW :=
  (λ i, {| BinIndex := "BIN" +:+ pretty i;
           Codewords := GetFieldValueString portCounters iface "0"
                          ("SAI_PORT_STAT_IF_IN_FEC_CODEWORD_ERRORS_S" +:+ pretty i) |}) <$> seq 0 fecBinCount.

Definition snapshot_row (portCounters portRates portTable statePortTable : gmap string json) (iface : string)
  : Snapshot :=
  let rate f := GetFieldValueString portRates iface DefaultMissingCounterValue f in
  let portSpeed := computeSpeed iface statePortTable portTable in
  {| sn_fields := struct_of (
       [("State", computeState iface portTable);
        ("RxBps", calculateByteRate (rate "RX_BPS"));
        ("RxPps", calculatePacketRate (rate "RX_PPS"));
        ("RxUtil", computeUtil (rate "RX_UTIL") (rate "RX_BPS") portSpeed);
        ("TxBps", calculateByteRate (rate "TX_BPS"));
        ("TxPps", calculatePacketRate (rate "TX_PPS"));
        ("TxUtil", computeUtil (rate "TX_UTIL") (rate "TX_BPS") portSpeed);
        ("FecPreBer", calculateBerRate (rate "FEC_PRE_BER"));
        ("FecPostBer", calculateBerRate (rate "FEC_POST_BER"));
        ("TimestampClearedCounters", defaultTimestamp)] ++
       ((λ '(f, src), (f, source_value portCounters iface src)) <$> counter_sources));
     FecErrCWs := fec_bins portCounters iface |}.
End rates.

(** ** The cache of portstat *)
Section cache.
Context {JCo : JsonCodec} {MR : MapRange}.

(** The field a key of the document sets: the one with that tag, or else the
    first one whose tag differs in case only. *)
Definition field_of_key (k : string) : option string :=
  match list_find (λ '(t, _), t = k) cache_tags with
  | Some (_, (_, f)) => Some f
  | None => (λ '(_, (_, f)), f) <$> list_find (λ '(t, _), EqualFold t k = true) cache_tags
  end.

(** [json.Unmarshal(value, &snapshot)]: null sets nothing, a field that is set
    must be a string or null.  The keys are read in the order of the text,
    which is that of [map_range] here. *)
Definition decode_key (acc : option (gmap string string)) (e : string * json) : option (gmap string string) :=
  let '(k, v) := e in
  match field_of_key k, v with
  | None, _ => acc
  | Some _, JNull => acc
  | Some f, JStr s => (λ m, <[f := s]> m) <$> acc
  | Some _, _ => None
  end.

Definition decode_snapshot (v : json) : option (gmap string string) :=
  match v with
  | JNull => Some ∅
  | JObj m => foldl decode_key (Some ∅) (map_range m)
  | _ => None
  end.

Definition cache_timestamp (m : gmap string json) : string :=
  match m !! "time" with
  | Some (JStr ts) => if bool_decide (ts ≠ "") then ts else defaultTimestamp
  | _ => defaultTimestamp
  end.

(** [None]: the function returns false. *)
Definition getPortStatCacheSnapshot (Y : Sys) : option (gmap string Snapshot) :=
  match read_file Y portStatCachePath with
  | None => None
  | Some text =>
      if bool_decide (text = "") then None
      else match Unmarshal text ≫= decode_fields with
           | None => None
           | Some m =>
               let output := omap (λ v, (λ fields, {|
                 sn_fields := <["TimestampClearedCounters" := cache_timestamp m]> fields;
                 FecErrCWs := [] |}) <$> decode_snapshot v) (delete "time" m) in
               if bool_decide (output = ∅) then None else Some output
           end
  end.
End cache.

(** ** The commands *)
Section commands.
Context {Sw : Swss} {MR : MapRange} {JCo : JsonCodec} {Fmt : GoFmt} {FL : GoFloat}.

(** The interfaces of the snapshot: all, or the known ones of the request. *)
Definition validated (portCounters : gmap string json) (ifaces : list string) : list string :=
  match ifaces with
  | [] => (map_range portCounters).*1
  | _ => filter (λ i, is_Some (portCounters !! i)) ifaces
  end.

Definition getInterfaceCountersSnapshot (Y : Sys) (ifaces : list string) : Cmd (gmap string Snapshot) :=
  aliasCountersOutput ← GetMapFromQueries Y [["COUNTERS_DB"; "COUNTERS"; "Ethernet*"]];
  portCounters ← RemapAliasToPortName Y aliasCountersOutput;
  aliasRatesOutput ← GetMapFromQueries Y [["COUNTERS_DB"; "RATES"; "Ethernet*"]];
  portRates ← RemapAliasToPortName Y aliasRatesOutput;
  portTable ← GetMapFromQueries Y [["APPL_DB"; "PORT_TABLE"]];
  r ← try (GetMapFromQueries Y [["STATE_DB"; "PORT_TABLE"]]);
  let statePortTable := match r with Ok m => m | Err _ => ∅ end in
  let response := foldl
    (λ m iface, <[iface := snapshot_row portCounters portRates portTable statePortTable iface]> m)
    ∅ (validated portCounters ifaces) in
  mret (match getPortStatCacheSnapshot Y with
        | Some cacheSnapshot => calculateDiffSnapshot cacheSnapshot response
        | None => response
        end).

(** [Y] before the sleep, [Y'] after it. *)
Definition snapshotWithOptionalDiff (Y Y' : Sys) (ifaces : list string) (period : Z) (takeDiffSnapshot : bool)
  : Cmd (gmap string Snapshot) :=
  oldSnapshot ← getInterfaceCountersSnapshot Y ifaces;
  if takeDiffSnapshot && bool_decide (0 < period)%Z then
    newSnapshot ← getInterfaceCountersSnapshot Y' ifaces;
    mret (calculateDiffSnapshot oldSnapshot newSnapshot)
  else mret oldSnapshot.

Definition project (names : list string) (snapshot : gmap string Snapshot) : json :=
  JObj ((λ s, JObj (list_to_map ((λ f, (f, JStr (fld s f))) <$> names))) <$> snapshot).

Definition projectCounters : gmap string Snapshot → json := project
  ["State"; "RxOk"; "RxBps"; "RxUtil"; "RxErr"; "RxDrp"; "RxOvr"; "TxOk"; "TxBps"; "TxUtil"; "TxErr"; "TxDrp";
   "TxOvr"].
Definition projectAllCounters : gmap string Snapshot → json := project
  ["State"; "RxOk"; "RxBps"; "RxPps"; "RxUtil"; "RxErr"; "RxDrp"; "RxOvr"; "TxOk"; "TxBps"; "TxPps"; "TxUtil";
   "TxErr"; "TxDrp"; "TxOvr"; "TrimPkts"; "TrimSent"; "TrimDrp"].
Definition projectTrimCounters : gmap string Snapshot → json := project
  ["State"; "TrimPkts"; "TrimSent"; "TrimDrp"].
Definition projectRateCounters : gmap string Snapshot → json := project
  ["State"; "RxOk"; "RxBps"; "RxPps"; "RxUtil"; "TxOk"; "TxBps"; "TxPps"; "TxUtil"].
Definition projectErrorCounters : gmap string Snapshot → json := project
  ["State"; "RxErr"; "RxDrp"; "RxOvr"; "TxErr"; "TxDrp"; "TxOvr"].
Definition projectDetailedCounters : gmap string Snapshot → json := project
  ["TrimPkts"; "TrimSent"; "TrimDrp"; "Rx64"; "Rx65_127"; "Rx128_255"; "Rx256_511"; "Rx512_1023";
   "Rx1024_1518"; "Rx1519_2047"; "Rx2048_4095"; "Rx4096_9216"; "Rx9217_16383"; "Tx64"; "Tx65_127"; "Tx128_255";
   "Tx256_511"; "Tx512_1023"; "Tx1024_1518"; "Tx1519_2047"; "Tx2048_4095"; "Tx4096_9216"; "Tx9217_16383";
   "RxAll"; "RxUnicast"; "RxMulticast"; "RxBroadcast"; "TxAll"; "TxUnicast"; "TxMulticast"; "TxBroadcast";
   "RxJabbers"; "RxFragments"; "RxUndersize"; "RxOverruns"; "TimestampClearedCounters"].
Definition projectFecStatCounters : gmap string Snapshot → json := project
  ["State"; "FecCorr"; "FecUncorr"; "FecSymbolErr"; "FecPreBer"; "FecPostBer"].

(** The loop looks at the first entry of the range only; a nil slice is
    written as null. *)
Definition projectFecHistogramCounters (snapshot : gmap string Snapshot) : json :=
  match map_range snapshot with
  | (_, value) :: _ =>
      match FecErrCWs value with
      | [] => JNull
      | l => JArr ((λ e, JObj {["BinIndex" := JStr (BinIndex e); "Codewords" := JStr (Codewords e)]}) <$> l)
      end
  | [] => JNull
  end.

Definition counters_command (Y Y' : Sys) (ifaces : list string) (options : OptionMap)
    (projection : gmap string Snapshot → json) : Cmd json :=
  '(period, takeDiffSnapshot) ← returns (validatePeriod options);
  finalSnapshot ← snapshotWithOptionalDiff Y Y' ifaces period takeDiffSnapshot;
  mret (projection finalSnapshot).

Definition getInterfaceCounters (Y Y' : Sys) (args : CmdArgs) (options : OptionMap) : Cmd json :=
  let ifaces := default [] (ov_Strings (opt_get options "interface")) in
  let fetchAllCounters := default false (ov_Bool (opt_get options "printall")) in
  counters_command Y Y' ifaces options (if fetchAllCounters then projectAllCounters else projectCounters).

Definition getInterfaceCountersErrors (Y Y' : Sys) (args : CmdArgs) (options : OptionMap) : Cmd json :=
  counters_command Y Y' [] options projectErrorCounters.

Definition getInterfaceCountersTrim (Y Y' : Sys) (args : CmdArgs) (options : OptionMap) : Cmd json :=
  let intf := args_At args 0 in
  counters_command Y Y' (if bool_decide (intf ≠ "") then [intf] else []) options projectTrimCounters.

Definition getInterfaceCountersRates (Y Y' : Sys) (args : CmdArgs) (options : OptionMap) : Cmd json :=
  counters_command Y Y' [] options projectRateCounters.

Definition getInterfaceCountersFecStats (Y Y' : Sys) (args : CmdArgs) (options : OptionMap) : Cmd json :=
  counters_command Y Y' [] options projectFecStatCounters.

Definition getInterfaceCountersFecHistogram (Y : Sys) (args : CmdArgs) (options : OptionMap) : Cmd json :=
  let intf := args_At args 0 in
  if bool_decide (intf = "") then fail (StatusErr InvalidArgument "No interface name passed")
  else
    finalSnapshot ← getInterfaceCountersSnapshot Y [intf];
    mret (projectFecHistogramCounters finalSnapshot).

Definition getInterfaceCountersDetailed (Y Y' : Sys) (args : CmdArgs) (options : OptionMap) : Cmd json :=
  let intf := args_At args 0 in
  if bool_decide (intf = "") then fail (StatusErr InvalidArgument "No interface name passed")
  else counters_command Y Y' [intf] options projectDetailedCounters.

(** ** Router interfaces *)

(** The counters, which must be integers, and the rates, which are shown as
    they are. *)
Definition rif_counters : list (string * string) :=
  [("RxOkPackets", "SAI_ROUTER_INTERFACE_STAT_IN_PACKETS");
   ("RxErrPackets", "SAI_ROUTER_INTERFACE_STAT_IN_ERROR_PACKETS");
   ("TxOkPackets", "SAI_ROUTER_INTERFACE_STAT_OUT_PACKETS");
   ("TxErrPackets", "SAI_ROUTER_INTERFACE_STAT_OUT_ERROR_PACKETS");
   ("RxErrBits", "SAI_ROUTER_INTERFACE_STAT_IN_ERROR_OCTETS");
   ("TxErrBits", "SAI_ROUTER_INTERFACE_STAT_OUT_ERROR_OCTETS");
   ("RxOkBits", "SAI_ROUTER_INTERFACE_STAT_IN_OCTETS");
   ("TxOkBits", "SAI_ROUTER_INTERFACE_STAT_OUT_OCTETS")].

Definition rif_rates : list (string * string) :=
  [("RxBps", "RX_BPS"); ("RxPps", "RX_PPS"); ("TxBps", "TX_BPS"); ("TxPps", "TX_PPS")].

Notation rif_row := (gmap string string).

Definition rif_fld (r : rif_row) (f : string) : string := default "" (r !! f).

Definition getRifNameMapping (Y : Sys) : Cmd (gmap string json) :=
  r ← try (GetMapFromQueries Y [["COUNTERS_DB"; "COUNTERS_RIF_NAME_MAP"]]);
  match r with
  | Err _ => fail (PlainErr "Failed to get COUNTERS_RIF_NAME_MAP from COUNTERS_DB")
  | Ok m => if bool_decide (m = ∅) then fail (PlainErr "No COUNTERS_RIF_NAME_MAP in DB") else mret m
  end.

Definition rif_snapshot_row (rifCountersMap rifRatesMap : gmap string json) (oid : string) : rif_row :=
  struct_of (
    ((λ '(f, stat), (f, validateAndGetIntValue
        (GetFieldValueString rifCountersMap oid DefaultMissingCounterValue stat))) <$> rif_counters) ++
    ((λ '(f, r), (f, GetFieldValueString rifRatesMap oid DefaultMissingCounterValue r)) <$> rif_rates)).

(** The rows of the requested router interface, or of all; an identifier that
    is not a string or is empty is passed over. *)
Definition getInterfaceCountersRifSnapshot (Y : Sys) (interfaceName : string) : Cmd (gmap string rif_row) :=
  r ← try (getRifNameMapping Y);
  match r with
  | Err _ => fail (PlainErr "Failed to get COUNTERS_RIF_NAME_MAP")
  | Ok rifNameMap =>
      r ← try (GetMapFromQueries Y [["COUNTERS_DB"; "COUNTERS"]]);
      match r with
      | Err _ => fail (PlainErr "Unable to pull data for queries")
      | Ok rifCountersMap =>
          r ← try (GetMapFromQueries Y [["COUNTERS_DB"; "RATES:*"]]);
          match r with
          | Err _ => fail (PlainErr "Unable to pull data for queries")
          | Ok rifRatesMap =>
              mret (map_imap (λ rifName oid,
                if negb (bool_decide (interfaceName = "")) && negb (bool_decide (rifName = interfaceName)) then None
                else match oid with
                     | JStr oidStr =>
                         if bool_decide (oidStr = "") then None
                         else Some (rif_snapshot_row rifCountersMap rifRatesMap oidStr)
                     | _ => None
                     end) rifNameMap)
          end
      end
  end.

Definition rif_diff (old new : rif_row) : rif_row :=
  struct_of (
    ((λ '(f, _), (f, calculateDiff (rif_fld old f) (rif_fld new f) false)) <$> rif_counters) ++
    ((λ '(f, _), (f, rif_fld new f)) <$> rif_rates)).

Definition rif_document (m : gmap string rif_row) : json :=
  JObj ((λ r, JObj (JStr <$> r)) <$> m).

Definition getInterfaceRifCounters (Y Y' : Sys) (args : CmdArgs) (options : OptionMap) : Cmd json :=
  let interfaceName := args_At args 0 in
  '(period, takeDiffSnapshot) ← returns (validatePeriod options);
  r ← try (getRifNameMapping Y);
  match r with
  | Err _ => fail (PlainErr "Failed to get COUNTERS_RIF_NAME_MAP")
  | Ok rifNameMap =>
      if negb (bool_decide (interfaceName = "")) && negb (bool_decide (is_Some (rifNameMap !! interfaceName))) then
        fail (StatusErr InvalidArgument
          ("Interface " +:+ interfaceName +:+ " not found in COUNTERS_RIF_NAME_MAP, Make sure it exists"))
      else
        r ← try (getInterfaceCountersRifSnapshot Y interfaceName);
        match r with
        | Err _ => fail (PlainErr "Failed to get old interface RIF counters")
        | Ok oldMap =>
            if negb takeDiffSnapshot then mret (rif_document oldMap)
            else
              r ← try (getInterfaceCountersRifSnapshot Y' interfaceName);
              match r with
              | Err _ => fail (PlainErr "Failed to get new interface RIF counters")
              | Ok newMap =>
                  mret (rif_document (map_imap (λ name new,
                    Some (match oldMap !! name with None => new | Some old => rif_diff old new end)) newMap))
              end
        end
  end.
End commands.

(** * What SHOW interface counters show

    Differences of counters are what they should be as long as the counters
    fit an int64, the rows of a request are the rows of the full snapshot, and
    two of the trim counters are not cleared with the others. *)

(** ** Numbers *)

Lemma pretty_char_val n : (n < 10)%N → digit_val (pretty_N_char n) = Some (Z.of_N n).
Proof.
  intros Hn. assert (n ∈ [0; 1; 2; 3; 4; 5; 6; 7; 8; 9]%N) as Hin.
  { rewrite !elem_of_cons. lia. }
  rewrite !elem_of_cons, elem_of_nil in Hin. destruct_or!; subst; try done.
Qed.

Lemma digits_pretty_go x s : digits_go 0 (pretty_N_go x s) = digits_go (Z.of_N x) s.
Proof.
  revert s. induction (N.lt_wf_0 x) as [x _ IH]. intros s.
  destruct (decide (0 < x)%N) as [Hx|Hx].
  - rewrite pretty_N_go_step by done. rewrite IH by (apply N.div_lt; lia). simpl.
    rewrite pretty_char_val by (apply N.mod_lt; lia). simpl. f_equal.
    pose proof (N.div_mod x 10). lia.
  - assert (x = 0)%N as -> by lia. by rewrite pretty_N_go_0.
Qed.

Lemma pretty_N_digits x : digits (pretty x) = Some (Z.of_N x).
Proof.
  unfold pretty, pretty_N. case_decide as Hx; [subst; done|]. unfold digits.
  pose proof (digits_pretty_go x "") as Hd. simpl in Hd.
  destruct (pretty_N_go x "") eqn:E; [|done].
  exfalso. simpl in Hd. injection Hd. lia.
Qed.

(** The value [ParseInt] gives an integer: the nearest one of 64 bits. *)
Definition clamp64 (v : Z) : Z := Z.max min_int64 (Z.min v max_int64).

Definition fits64 (v : Z) : bool := bool_decide (min_int64 ≤ v ≤ max_int64)%Z.

Lemma ParseInt_digits s n :
  digits s = Some n → (0 ≤ n)%Z → ParseInt s = (clamp64 n, fits64 n).
Proof.
  intros Hd Hn. assert (ParseInt s = if bool_decide (max_int64 < n)%Z then (max_int64, false) else (n, true)) as ->.
  { destruct s as [|c s]; [done|]. unfold ParseInt.
    assert (digit_val c ≠ None) as Hc by (intros E; simpl in Hd; by rewrite E in Hd).
    assert (c ≠ "-"%char ∧ c ≠ "+"%char) as [H1 H2] by (split; intros ->; by apply Hc).
    assert (match String c s with String "-" s' => (true, s') | String "+" s' => (false, s')
            | _ => (false, String c s) end%char = (false, String c s)) as ->.
    { destruct c as [[] [] [] [] [] [] [] []]; done. }
    rewrite Hd. rewrite (bool_decide_false (n < min_int64)%Z) by (unfold min_int64; lia). done. }
  unfold clamp64, fits64. case_bool_decide.
  - rewrite bool_decide_false by lia. f_equal. unfold min_int64, max_int64 in *. lia.
  - rewrite bool_decide_true by (unfold min_int64; lia). f_equal. unfold min_int64, max_int64 in *. lia.
Qed.

Lemma pretty_Z_digits v : (0 ≤ v)%Z → digits (Itoa v) = Some v.
Proof.
  intros Hv. unfold Itoa. destruct v as [|p|p]; [done| |lia].
  change (digits (pretty (N.pos p)) = Some (Z.pos p)). by rewrite pretty_N_digits.
Qed.

Lemma ParseInt_minus body n :
  digits body = Some n → (0 ≤ n)%Z → ParseInt (String "-" body) = (clamp64 (- n), fits64 (- n)).
Proof.
  intros Hd Hn. unfold ParseInt. rewrite Hd. unfold clamp64, fits64.
  rewrite (bool_decide_false (max_int64 < - n)%Z) by (unfold max_int64; lia).
  case_bool_decide.
  - rewrite bool_decide_false by lia. f_equal. unfold min_int64, max_int64 in *. lia.
  - rewrite bool_decide_true by (unfold max_int64; lia). f_equal. unfold min_int64, max_int64 in *. lia.
Qed.

Lemma ParseInt_FormatInt v : ParseInt (FormatInt v) = (clamp64 v, fits64 v).
Proof.
  destruct (decide (0 ≤ v)%Z) as [Hv|Hv]; [by apply ParseInt_digits; [apply pretty_Z_digits|]|].
  destruct v as [|p|p]; [lia|lia|].
  by apply (ParseInt_minus (pretty (N.pos p)) (Z.pos p) (pretty_N_digits (N.pos p))).
Qed.

Lemma ParseInt_range s : (min_int64 ≤ (ParseInt s).1 ≤ max_int64)%Z.
Proof.
  unfold ParseInt. repeat case_match; simpl; unfold min_int64, max_int64 in *; try lia;
    repeat case_bool_decide; simpl; unfold min_int64, max_int64 in *; lia.
Qed.

Lemma int64_wrap_range z : (min_int64 ≤ to_int64 z ≤ max_int64)%Z.
Proof.
  unfold to_int64, min_int64, max_int64. pose proof (Z.mod_pos_bound (z + 2 ^ 63) (2 ^ 64)). lia.
Qed.

Lemma to_int64_small z : (min_int64 ≤ z ≤ max_int64)%Z → to_int64 z = z.
Proof. unfold to_int64, min_int64, max_int64. intros. rewrite Z.mod_small; lia. Qed.

Lemma ParseInt_missing : ParseInt DefaultMissingCounterValue = (0%Z, false).
Proof. vm_compute. reflexivity. Qed.

Lemma clamp64_zero v : clamp64 v = 0%Z → fits64 v = true.
Proof. unfold clamp64, fits64. intros. apply bool_decide_eq_true_2. unfold min_int64, max_int64 in *. lia. Qed.

Lemma FormatInt_not_missing v : FormatInt v ≠ DefaultMissingCounterValue.
Proof.
  intros H. pose proof (ParseInt_FormatInt v) as E. rewrite H, ParseInt_missing in E.
  apply pair_equal_spec in E as [Ec%eq_sym%clamp64_zero Ef]. congruence.
Qed.

(** ** Differences *)

(** What an operator expects of a difference: the growth of the counter, and 0
    if it went back. *)
Lemma calculateDiff_exact a b raw :
  (0 ≤ a ≤ max_int64)%Z → (0 ≤ b ≤ max_int64)%Z →
  calculateDiff (FormatInt a) (FormatInt b) raw = FormatInt (if raw then b - a else Z.max 0 (b - a)).
Proof.
  intros Ha Hb. unfold calculateDiff. rewrite !bool_decide_false by apply FormatInt_not_missing.
  rewrite !ParseInt_FormatInt. simpl. unfold clamp64.
  rewrite to_int64_small by (unfold min_int64, max_int64 in *; lia).
  assert (Z.max min_int64 (Z.min b max_int64) - Z.max min_int64 (Z.min a max_int64) = b - a)%Z as ->
    by (unfold min_int64, max_int64 in *; lia).
  destruct raw; [done|]. f_equal. case_bool_decide; lia.
Qed.

Lemma calculateDiff_missing o raw : calculateDiff o DefaultMissingCounterValue raw = DefaultMissingCounterValue.
Proof. done. Qed.

(** A counter shown without the flag is missing or not negative. *)
Lemma calculateDiff_nonneg o n :
  calculateDiff o n false = DefaultMissingCounterValue ∨
  ∃ v, (0 ≤ v ≤ max_int64)%Z ∧ calculateDiff o n false = FormatInt v.
Proof.
  unfold calculateDiff. case_bool_decide; [by left|]. right.
  generalize (if bool_decide (o = DefaultMissingCounterValue) then "0" else o) as o'. intros o'.
  pose proof (int64_wrap_range ((ParseInt n).1 - (ParseInt o').1)).
  case_bool_decide; eexists; (split; [|reflexivity]); unfold max_int64 in *; lia.
Qed.

(** Two readings of a counter above the int64 range differ by 0. *)
Lemma calculateDiff_saturates a b raw :
  (max_int64 < a)%Z → (max_int64 < b)%Z → calculateDiff (FormatInt a) (FormatInt b) raw = "0".
Proof.
  intros Ha Hb. unfold calculateDiff. rewrite !bool_decide_false by apply FormatInt_not_missing.
  rewrite !ParseInt_FormatInt. cbn [fst]. unfold clamp64. rewrite !Z.min_r by lia. by destruct raw.
Qed.

(** ** Rows *)

Lemma lookup_struct rows f v : NoDup rows.*1 → (f, v) ∈ rows → struct_of rows !! f = Some v.
Proof. apply elem_of_list_to_map_1. Qed.

Lemma diff_rows_nodup :
  NoDup ((fst <$> diff_fields) ++ kept_fields ++ ["TimestampClearedCounters"]).
Proof. apply (bool_decide_unpack _). vm_compute. exact I. Qed.

Lemma fields_fst {A B} (h : A → string) (g : A → B) (l : list A) :
  fst <$> ((λ x, (h x, g x)) <$> l) = h <$> l.
Proof. by rewrite <- list_fmap_compose. Qed.

Definition diff_entry (old new : Snapshot) (e : string * bool) : string * string :=
  (e.1, calculateDiff (fld old e.1) (fld new e.1) e.2).

Lemma diff_entries old new :
  ((λ '(f, raw), (f, calculateDiff (fld old f) (fld new f) raw)) <$> diff_fields) =
  (diff_entry old new <$> diff_fields).
Proof. apply list_fmap_ext. by intros ? [f raw] _. Qed.

Lemma diff_row_nodup old new ts :
  NoDup ((diff_entry old new <$> diff_fields) ++ ((λ f, (f, fld new f)) <$> kept_fields) ++
         [("TimestampClearedCounters", ts)]).*1.
Proof.
  rewrite !fmap_app. unfold diff_entry. rewrite !fields_fst. rewrite list_fmap_id. apply diff_rows_nodup.
Qed.

Lemma diff_row_counter old new f raw :
  (f, raw) ∈ diff_fields → fld (diff_row old new) f = calculateDiff (fld old f) (fld new f) raw.
Proof.
  intros Hf. unfold fld at 1. unfold diff_row. cbn [sn_fields]. rewrite diff_entries.
  rewrite (lookup_struct _ f (calculateDiff (fld old f) (fld new f) raw)); [done|apply diff_row_nodup|].
  apply elem_of_app. left. apply list_elem_of_fmap. by exists (f, raw).
Qed.

Lemma diff_row_kept old new f : f ∈ kept_fields → fld (diff_row old new) f = fld new f.
Proof.
  intros Hf. unfold fld at 1. unfold diff_row. cbn [sn_fields]. rewrite diff_entries.
  rewrite (lookup_struct _ f (fld new f)); [done|apply diff_row_nodup|].
  apply elem_of_app. right. apply elem_of_app. left. apply list_elem_of_fmap. by exists f.
Qed.

(** What the structure says is a counter: all its strings but the state of the
    port, the rates, the error rates of FEC and the time of the last clearing. *)
Definition not_counters : list string :=
  ["State"; "RxBps"; "RxPps"; "RxUtil"; "TxBps"; "TxPps"; "TxUtil"; "FecPreBer"; "FecPostBer";
   "TimestampClearedCounters"].
Definition counter (f : string) : Prop := f ∈ InterfaceCountersSnapshot ∧ f ∉ not_counters.
#[global] Instance counter_dec f : Decision (counter f) := ltac:(unfold counter; apply _).

(** The row of a difference, field by field: the dropped trimmed packets are
    the one counter whose difference may be negative. *)
Record row_difference (old new r : Snapshot) : Prop := {
  rd_fields : dom (sn_fields r) = list_to_set InterfaceCountersSnapshot;
  rd_counter f : counter f → fld r f = calculateDiff (fld old f) (fld new f) (bool_decide (f = "TrimDrp"));
  rd_kept f : f ∈ not_counters → f ≠ "TimestampClearedCounters" → fld r f = fld new f;
  rd_time : fld r "TimestampClearedCounters" =
    if bool_decide (fld new "TimestampClearedCounters" = "None") then fld old "TimestampClearedCounters"
    else fld new "TimestampClearedCounters";
  rd_bins : FecErrCWs r = FecErrCWs new
}.

(** Each counter of the structure is one that the difference subtracts. *)
Lemma counter_diff f : counter f → (f, bool_decide (f = "TrimDrp")) ∈ diff_fields.
Proof.
  intros [Hf Hn]. revert Hn. revert f Hf.
  refine (proj1 (Forall_forall (λ f, f ∉ not_counters → (f, bool_decide (f = "TrimDrp")) ∈ diff_fields) _) _).
  apply (bool_decide_unpack _). vm_compute. exact I.
Qed.

Lemma not_counter_kept f : f ∈ not_counters → f ≠ "TimestampClearedCounters" → f ∈ kept_fields.
Proof.
  revert f. refine (proj1 (Forall_forall (λ f, f ≠ "TimestampClearedCounters" → f ∈ kept_fields) _) _).
  apply (bool_decide_unpack _). vm_compute. exact I.
Qed.

Lemma diff_row_time old new :
  fld (diff_row old new) "TimestampClearedCounters" =
  getTimestampClearedCounters (fld old "TimestampClearedCounters") (fld new "TimestampClearedCounters").
Proof.
  unfold fld at 1. unfold diff_row. cbn [sn_fields]. rewrite diff_entries.
  erewrite lookup_struct; [done|apply diff_row_nodup|]. apply elem_of_app. right. apply elem_of_app. right.
  by apply list_elem_of_singleton.
Qed.

Lemma diff_row_dom old new : dom (sn_fields (diff_row old new)) = list_to_set InterfaceCountersSnapshot.
Proof.
  unfold diff_row, struct_of. cbn [sn_fields]. rewrite diff_entries, dom_list_to_map_L, !fmap_app.
  unfold diff_entry. rewrite !fields_fst, list_fmap_id. apply (bool_decide_unpack _). vm_compute. exact I.
Qed.

Lemma diff_row_difference old new : row_difference old new (diff_row old new).
Proof.
  split.
  - apply diff_row_dom.
  - intros f Hf. by apply diff_row_counter, counter_diff.
  - intros f Hf Ht. by apply diff_row_kept, not_counter_kept.
  - rewrite diff_row_time. unfold getTimestampClearedCounters, defaultTimestamp. repeat case_bool_decide; naive_solver congruence.
  - done.
Qed.

Lemma diff_lookup old new iface :
  calculateDiffSnapshot old new !! iface =
  (λ n, match old !! iface with None => n | Some o => diff_row o n end) <$> new !! iface.
Proof. unfold calculateDiffSnapshot. rewrite map_lookup_imap. by destruct (new !! iface). Qed.

(** Run the first call of a command in the goal. *)
Ltac cmd_call m :=
  let s := fresh "s" in let a := fresh "a" in let e := fresh "e" in
  destruct m as [s [a|e]]; [|try (intros; congruence)].

Section commands.
Context {Sw : Swss} {MR : MapRange} {JCo : JsonCodec} {Fmt : GoFmt} {FL : GoFloat}.

Lemma insert_rows_lookup {A} (row : string → A) (m : gmap string A) l i :
  foldl (λ m i, <[i := row i]> m) m l !! i = if decide (i ∈ l) then Some (row i) else m !! i.
Proof.
  revert m. induction l as [|x l IH]; intros m; [by rewrite decide_False by (by apply not_elem_of_nil)|].
  cbn [foldl]. rewrite IH. destruct (decide (i ∈ l)) as [Hi|Hi].
  - by rewrite decide_True by (by apply elem_of_cons; right).
  - destruct (decide (i = x)) as [->|Hx].
    + rewrite lookup_insert_eq. by rewrite decide_True by (by apply elem_of_cons; left).
    + rewrite lookup_insert_ne by done. rewrite decide_False; [done|]. by rewrite elem_of_cons; intros [].
Qed.

Lemma validated_all (m : gmap string json) i : i ∈ validated m [] ↔ is_Some (m !! i).
Proof.
  simpl. rewrite list_elem_of_fmap. split.
  - intros ([k v] & -> & Hin%elem_of_map_range). by eauto.
  - intros [v Hv]. exists (i, v). by rewrite elem_of_map_range.
Qed.

Lemma validated_some (m : gmap string json) l i : l ≠ [] → i ∈ validated m l ↔ i ∈ l ∧ is_Some (m !! i).
Proof.
  intros Hl. destruct l as [|x l]; [done|]. unfold validated. rewrite list_elem_of_filter. tauto.
Qed.

(** The rows of a snapshot before the cache is looked at. *)
Lemma rows_restrict {A} (row : string → A) (m : gmap string json) l :
  l ≠ [] →
  foldl (λ m i, <[i := row i]> m) (∅ : gmap string A) (validated m l) =
  filter (λ e, e.1 ∈ l) (foldl (λ m i, <[i := row i]> m) ∅ (validated m [])).
Proof.
  intros Hl. apply map_eq. intros i. rewrite insert_rows_lookup, lookup_empty.
  rewrite map_lookup_filter, insert_rows_lookup, lookup_empty.
  destruct (decide (i ∈ validated m l)) as [Hi|Hi].
  - pose proof Hi as [Hil Him]%validated_some; [|done]. rewrite decide_True by (by apply validated_all).
    cbn [mbind option_bind]. by rewrite option_guard_True.
  - destruct (decide (i ∈ validated m [])) as [Ha|Ha]; [|done].
    cbn [mbind option_bind]. rewrite option_guard_False; [done|]. intros Hil. apply Hi, validated_some; [done|].
    split; [done|by apply validated_all].
Qed.

Lemma diff_restrict old new (l : list string) :
  calculateDiffSnapshot old (filter (λ e, e.1 ∈ l) new) = filter (λ e, e.1 ∈ l) (calculateDiffSnapshot old new).
Proof.
  apply map_eq. intros i. rewrite diff_lookup, !map_lookup_filter, diff_lookup.
  destruct (new !! i); simpl; [|done]. by case_guard.
Qed.

(** C31. A request for some interfaces shows exactly the rows that the full
    snapshot has for them: an unknown interface is left out without an error,
    and the rows of the others are not affected by the selection. *)
Theorem counters_of_interfaces Y s s' all l :
  getInterfaceCountersSnapshot Y [] s = (s', Ok all) → l ≠ [] →
  getInterfaceCountersSnapshot Y l s = (s', Ok (filter (λ e, e.1 ∈ l) all)).
Proof.
  intros H Hl. revert H. unfold getInterfaceCountersSnapshot, mbind, Cmd_bind.
  cmd_call (GetMapFromQueries Y [["COUNTERS_DB"; "COUNTERS"; "Ethernet*"]] s).
  cmd_call (RemapAliasToPortName Y a s0).
  cmd_call (GetMapFromQueries Y [["COUNTERS_DB"; "RATES"; "Ethernet*"]] s1).
  cmd_call (RemapAliasToPortName Y a1 s2).
  cmd_call (GetMapFromQueries Y [["APPL_DB"; "PORT_TABLE"]] s3).
  cmd_call (try (GetMapFromQueries Y [["STATE_DB"; "PORT_TABLE"]]) s4).
  cbv zeta. unfold mret, Cmd_ret. intros [= <- <-]. f_equal. f_equal. rewrite (rows_restrict _ a0 l Hl).
  destruct (getPortStatCacheSnapshot Y); [apply diff_restrict|done].
Qed.

(** C39. With a period, the reply is computed from two snapshots, one before and
    one after it: a row of the second snapshot that has a predecessor has every
    field of the structure.  Each counter of the structure (each field but the
    state, the rates, the error rates and the time of clearing, by name) shows
    its growth, 0 if it went back, except the dropped trimmed packets, which may
    be negative; a missing counter is shown as missing, one that was missing
    before has grown from 0, and rates, state and FEC bins are those of the
    second snapshot.  For counters in the int64 range the growth is exact. *)
Theorem period_difference Y Y' ifaces period s s1 s2 old new :
  (0 < period)%Z →
  getInterfaceCountersSnapshot Y ifaces s = (s1, Ok old) →
  getInterfaceCountersSnapshot Y' ifaces s1 = (s2, Ok new) →
  ∃ m, snapshotWithOptionalDiff Y Y' ifaces period true s = (s2, Ok m) ∧
    dom m = dom new ∧
    (∀ i n, old !! i = None → new !! i = Some n → m !! i = Some n) ∧
    ∀ i o n, old !! i = Some o → new !! i = Some n →
      ∃ r, m !! i = Some r ∧ row_difference o n r ∧
        (∀ f, counter f → f ≠ "TrimDrp" →
           fld r f = DefaultMissingCounterValue ∨ ∃ v, (0 ≤ v ≤ max_int64)%Z ∧ fld r f = FormatInt v) ∧
        (∀ f, counter f → fld n f = "N/A" → fld r f = "N/A") ∧
        (∀ f a b, counter f → (fld o f = FormatInt a ∨ fld o f = "N/A" ∧ a = 0%Z) → fld n f = FormatInt b →
           (0 ≤ a ≤ max_int64)%Z → (0 ≤ b ≤ max_int64)%Z →
           fld r f = FormatInt (if decide (f = "TrimDrp") then (b - a)%Z else Z.max 0 (b - a))).
Proof.
  intros Hp Ho Hn. exists (calculateDiffSnapshot old new). split_and!.
  - unfold snapshotWithOptionalDiff, mbind, Cmd_bind. rewrite Ho. rewrite bool_decide_true by done.
    simpl. by rewrite Hn.
  - apply set_eq. intros i. rewrite !elem_of_dom, diff_lookup. by rewrite fmap_is_Some.
  - intros i n Hio Hin. by rewrite diff_lookup, Hin, Hio.
  - intros i o n Hio Hin. exists (diff_row o n). rewrite diff_lookup, Hin, Hio.
    pose proof (diff_row_difference o n) as Hd. split_and!; [done|exact Hd| | |].
    + intros f Hf Ht. rewrite (rd_counter _ _ _ Hd f Hf). rewrite bool_decide_false by done. apply calculateDiff_nonneg.
    + intros f Hf Hm. rewrite (rd_counter _ _ _ Hd f Hf), Hm. apply calculateDiff_missing.
    + intros f a b Hf Ha Hb Ra Rb. rewrite (rd_counter _ _ _ Hd f Hf), Hb.
      replace (calculateDiff (fld o f)) with (calculateDiff (FormatInt a)) by (by destruct Ha as [->|[-> ->]]).
      rewrite calculateDiff_exact by done. by repeat case_decide.
Qed.

(** The histogram is that of the one row a request for one interface has; an
    unknown interface gives null. *)
Lemma histogram_of_one (m : gmap string Snapshot) i :
  (∀ k, is_Some (m !! k) → k = i) →
  projectFecHistogramCounters m =
  match m !! i with
  | Some r => match FecErrCWs r with
              | [] => JNull
              | l => JArr ((λ e, JObj {["BinIndex" := JStr (BinIndex e); "Codewords" := JStr (Codewords e)]}) <$> l)
              end
  | None => JNull
  end.
Proof.
  intros Hm. unfold projectFecHistogramCounters. destruct (map_range m) as [|[k r] l] eqn:E.
  - apply map_range_nil in E. subst. by rewrite lookup_empty.
  - assert (m !! k = Some r) as Hk by (apply elem_of_map_range; rewrite E; left).
    assert (k = i) as -> by eauto. by rewrite Hk.
Qed.

(** The keys of the cache set no field outside the tags. *)
Lemma field_of_key_tagged k f : field_of_key k = Some f → f ∈ cache_tags.*2.
Proof.
  unfold field_of_key. destruct (list_find (λ '(t, _), t = k) cache_tags) as [[n [t g]]|] eqn:E.
  - intros [= <-]. apply list_find_Some in E as [Hn _]. apply list_elem_of_fmap. exists (t, g).
    split; [done|]. by eapply list_elem_of_lookup_2.
  - intros ([n [t g]] & Hg & ->)%fmap_Some. apply list_find_Some in Hg as [Hn _].
    apply list_elem_of_fmap. exists (t, g). split; [done|]. by eapply list_elem_of_lookup_2.
Qed.

Definition tagged (m : gmap string string) : Prop := ∀ f, is_Some (m !! f) → f ∈ cache_tags.*2.

Lemma decode_keys_tagged l acc m :
  (∀ m, acc = Some m → tagged m) → foldl decode_key acc l = Some m → tagged m.
Proof.
  revert acc. induction l as [|[k v] l IH]; intros acc Ha; [by eauto|]. cbn [foldl]. apply IH.
  intros m' Hm'. unfold decode_key in Hm'. destruct (field_of_key k) as [f|] eqn:Ef; [|by eauto].
  destruct v; try done; [by eauto|]. apply fmap_Some in Hm' as (m0 & -> & ->).
  intros g [w Hw]. destruct (decide (f = g)) as [<-|Hne]; [by eapply field_of_key_tagged|].
  rewrite lookup_insert_ne in Hw by done. by eapply Ha.
Qed.

Lemma decode_snapshot_tagged v m : decode_snapshot v = Some m → tagged m.
Proof.
  destruct v; try done; simpl.
  - intros [= <-] f [w Hw]. by rewrite lookup_empty in Hw.
  - apply decode_keys_tagged. intros m' [= <-] f [w Hw]. by rewrite lookup_empty in Hw.
Qed.

Lemma cache_untagged Y c i o f :
  getPortStatCacheSnapshot Y = Some c → c !! i = Some o →
  f ∉ cache_tags.*2 → f ≠ "TimestampClearedCounters" → fld o f = "".
Proof.
  unfold getPortStatCacheSnapshot. intros H Ho Hf Hts. destruct (read_file Y portStatCachePath) as [text|]; [|done].
  case_bool_decide; [done|]. destruct (Unmarshal text ≫= decode_fields) as [m|]; [|done].
  cbv zeta in H. case_bool_decide; [done|]. injection H as <-. rewrite lookup_omap in Ho.
  apply bind_Some in Ho as (v & _ & (fs & Hfs%decode_snapshot_tagged & ->)%fmap_Some).
  unfold fld. cbn [sn_fields]. rewrite lookup_insert_ne by done.
  destruct (fs !! f) eqn:E; [|done]. destruct Hf. apply Hfs. by eauto.
Qed.

(** After the counters were cleared, the commands show what was counted
    since then, except for the trimmed packets that were sent and that were
    dropped: those two have no place in the cache, so they show their totals,
    next to the trimmed packets, which are relative. *)
Theorem trim_totals_not_cleared Y c i o n :
  getPortStatCacheSnapshot Y = Some c → c !! i = Some o →
  fld (diff_row o n) "TrimPkts" = calculateDiff (fld o "TrimPkts") (fld n "TrimPkts") false ∧
  ∀ f raw v, (f, raw) ∈ [("TrimSent", false); ("TrimDrp", true)] →
    fld n f = FormatInt v → (0 ≤ v ≤ max_int64)%Z → fld (diff_row o n) f = FormatInt v.
Proof.
  intros Hc Ho. split; [apply diff_row_counter; apply (bool_decide_unpack _); vm_compute; exact I|].
  intros f raw v Hf Hv Hr.
  assert ((f, raw) ∈ diff_fields) as Hd.
  { rewrite !elem_of_cons, elem_of_nil in Hf. destruct_or!; simplify_eq;
      apply (bool_decide_unpack _); vm_compute; exact I. }
  rewrite (diff_row_counter _ _ _ _ Hd), Hv.
  assert (fld o f = "") as ->.
  { rewrite !elem_of_cons, elem_of_nil in Hf. destruct_or!; simplify_eq; (eapply cache_untagged; [done|done| |done]);
      apply (bool_decide_unpack _); vm_compute; exact I. }
  unfold calculateDiff. rewrite bool_decide_false by apply FormatInt_not_missing. cbn [bool_decide].
  rewrite ParseInt_FormatInt. cbn [fst].
  replace (ParseInt (if bool_decide ("" = DefaultMissingCounterValue) then "0" else "")) with (0%Z, false) by (vm_compute; reflexivity).
  cbn [fst]. rewrite Z.sub_0_r. unfold clamp64. rewrite Z.min_l, Z.max_r by (unfold min_int64; lia).
  rewrite to_int64_small by (unfold min_int64; lia). destruct raw; [done|]. by rewrite bool_decide_false by lia.
Qed.

(** A command with a period runs exactly when the option is absent or
    between 0 and 300; the period 0 reads one snapshot, as if it were absent. *)
Theorem period_accepted options :
  match ov_Int (opt_get options "period") with
  | None => validatePeriod options = Ok (0%Z, false)
  | Some p => if decide (0 ≤ p ≤ 300)%Z then validatePeriod options = Ok (p, true)
              else is_ok (validatePeriod options) = false
  end ∧
  (∀ Y Y' l s, snapshotWithOptionalDiff Y Y' l 0 true s = getInterfaceCountersSnapshot Y l s).
Proof.
  split.
  - unfold validatePeriod. destruct (ov_Int _) as [p|]; [|done]. unfold MaxShowCommandPeriod. case_decide.
    + rewrite !bool_decide_false by lia. done.
    + destruct (decide (300 < p)%Z); [by rewrite bool_decide_true|].
      rewrite bool_decide_false by done. by rewrite bool_decide_true by lia.
  - intros Y Y' l s. unfold snapshotWithOptionalDiff, mbind, Cmd_bind. simpl.
    by destruct (getInterfaceCountersSnapshot Y l s) as [s' []].
Qed.

End commands.

(** ** A device with two ports, read twice *)
Module ShowExample.
Import VdbExample.

Definition swss1 : Swss := {|
  GlobalConfigFile := false; InitializeGlobalConfig := Ok (); Initialize := Ok ();
  SonicDBConfigReset := Ok (); GetNamespaces := Ok [""]; GetDbKeys := Ok [default_key];
  GetDbListDefault := Ok ["APPL_DB"; "CONFIG_DB"; "COUNTERS_DB"; "STATE_DB"];
  GetDbListKey := λ _, Ok ["APPL_DB"; "CONFIG_DB"; "COUNTERS_DB"; "STATE_DB"];
  GetSeparator := λ db _, Ok (if bool_decide (db ∈ ["CONFIG_DB"; "STATE_DB"]) then "|" else ":");
  GetSeparatorKey := λ db _, Ok (if bool_decide (db ∈ ["CONFIG_DB"; "STATE_DB"]) then "|" else ":");
  GetId := λ _ _, Ok 4%Z; GetIdKey := λ _ _, Ok 4%Z;
  GetSock := λ _ _, Ok "/var/run/redis/redis.sock"; GetSockKey := λ _ _, Ok "/var/run/redis/redis.sock";
  GetHostname := λ _ _, Ok "127.0.0.1"; GetHostnameKey := λ _ _, Ok "127.0.0.1";
  GetPort := λ _ _, Ok 6379%Z; GetPortKey := λ _ _, Ok 6379%Z
|}.

Definition counters_at (rx err trim : string) : contents :=
  {["COUNTERS_PORT_NAME_MAP" := {["Ethernet0" := "oid:0x1"; "Ethernet4" := "oid:0x2"]};
    "COUNTERS:oid:0x1" := {["SAI_PORT_STAT_IF_IN_ERRORS" := err; "SAI_PORT_STAT_DROPPED_TRIM_PKTS" := trim;
      "SAI_PORT_STAT_IF_IN_UCAST_PKTS" := rx; "SAI_PORT_STAT_IF_IN_NON_UCAST_PKTS" := "1"]};
    "COUNTERS:oid:0x2" := {["SAI_PORT_STAT_IF_IN_ERRORS" := "7"]};
    "RATES:oid:0x1" := {["RX_BPS" := "12"]}; "RATES:oid:0x2" := {["RX_BPS" := "13"]}]}.

Definition appl : contents :=
  {["PORT_TABLE:Ethernet0" := {["admin_status" := "up"; "oper_status" := "up"; "speed" := "40000"]};
    "PORT_TABLE:Ethernet4" := {["admin_status" := "up"; "oper_status" := "down"]}]}.

Definition device (counters : contents) (file : option string) : Sys := {|
  sys_env := {|
    env_cfg := env_cfg env0;
    Target2RedisDb := {["" := {["CONFIG_DB" := conn_of config0; "COUNTERS_DB" := conn_of counters;
      "APPL_DB" := conn_of appl; "STATE_DB" := conn_of ∅]}]};
    UNIT_TEST := "" |};
  read_file := λ _, file
|}.

#[local] Instance sw : Swss := swss1.
#[local] Instance mr : MapRange := canonical_range.
#[local] Instance fmt : GoFmt := {| fmt_number := Itoa; fmt_composite _ := "?" |}.
#[local] Instance fl : GoFloat := {|
  float64 := Z; ParseFloat := Atoi; flit := id; fgt a b := bool_decide (b < a)%Z;
  fmul := Z.mul; fdiv := Z.div; fround := id; fmt_f _ := Itoa; fmt_e _ := Itoa |}.

(** A codec that reads one cached document. *)
#[local] Instance codec : JsonCodec := {|
  Unmarshal := λ _, Some (JObj {["time" := JStr "noon";
    "Ethernet0" := JObj {["rx_err" := JStr "2"; "RX_OK" := JStr "60"; "trim_drop" := JStr "4"]}]});
  Marshal := λ _, None |}.

Definition before : Sys := device (counters_at "100" "3" "9") None.
Definition after : Sys := device (counters_at "140" "2" "5") None.
Definition cleared : Sys := device (counters_at "140" "2" "5") (Some "{}").

Definition snap (Y : Sys) (l : list string) (s : ShowState) := getInterfaceCountersSnapshot Y l s.
Definition rows (r : ShowState * res cmd_err (gmap string Snapshot)) : gmap string Snapshot :=
  match r.2 with Ok m => m | Err _ => ∅ end.

Lemma run_ok (Y : Sys) (l : list string) s : is_ok (snap Y l s).2 = true → snap Y l s = ((snap Y l s).1, Ok (rows (snap Y l s))).
Proof. intros H. unfold rows. by destruct (snap Y l s) as [s' [m|e]]. Qed.

Definition shown (m : gmap string Snapshot) (i f : string) : string := default "?" ((λ r, fld r f) <$> m !! i).

Example before_rows :
  let m := rows (snap before [] show_init) in
  (shown m "Ethernet0" "RxOk", shown m "Ethernet0" "RxErr", shown m "Ethernet4" "RxErr", shown m "Ethernet4" "RxOk",
   shown m "Ethernet0" "State", shown m "Ethernet0" "RxBps", shown m "Ethernet0" "RxUtil")
  = ("101", "3", "7", "N/A", "U", "12 B/s", "0%").
Proof. vm_compute. reflexivity. Qed.

Lemma counters_of_interfaces_witness :
  is_ok (snap before [] show_init).2 = true ∧
  ∃ m, (snap before ["Ethernet4"; "Ethernet99"] show_init).2 = Ok m ∧
       dom m = {["Ethernet4"]} ∧ shown m "Ethernet4" "RxErr" = "7".
Proof.
  assert (is_ok (snap before [] show_init).2 = true) as H by (vm_compute; reflexivity).
  split; [exact H|]. eexists. split; [|split].
  - unfold snap. rewrite (counters_of_interfaces before show_init _ _ ["Ethernet4"; "Ethernet99"] (run_ok _ _ _ H)); [|done].
    reflexivity.
  - vm_compute. reflexivity.
  - vm_compute. reflexivity.
Defined.

Definition st1 : ShowState := (snap before [] show_init).1.

Definition st2 : ShowState := (snap after [] st1).1.
Definition rows0 : gmap string Snapshot := rows (snap before [] show_init).
Definition rows1 : gmap string Snapshot := rows (snap after [] st1).

Lemma run0 : getInterfaceCountersSnapshot before [] show_init = (st1, Ok rows0).
Proof. vm_compute. reflexivity. Qed.
Lemma run1 : getInterfaceCountersSnapshot after [] st1 = (st2, Ok rows1).
Proof. vm_compute. reflexivity. Qed.

Definition no_row : Snapshot := {| sn_fields := ∅; FecErrCWs := [] |}.
Definition row0 : Snapshot := default no_row (rows0 !! "Ethernet0").
Definition row1 : Snapshot := default no_row (rows1 !! "Ethernet0").

Lemma row0_at : rows0 !! "Ethernet0" = Some row0.
Proof. vm_compute. reflexivity. Qed.
Lemma row1_at : rows1 !! "Ethernet0" = Some row1.
Proof. vm_compute. reflexivity. Qed.
Lemma row_fields :
  (fld row0 "RxOk" = FormatInt 101 ∧ fld row0 "RxErr" = FormatInt 3 ∧ fld row0 "TrimDrp" = FormatInt 9) ∧
  (fld row1 "RxOk" = FormatInt 141 ∧ fld row1 "RxErr" = FormatInt 2 ∧ fld row1 "TrimDrp" = FormatInt 5).
Proof. vm_compute. split_and!; reflexivity. Qed.

(** Over the period the errors went back from 3 to 2, the packets grew by 40,
    and the dropped trimmed packets went back by 4. *)
Lemma period_difference_witness :
  (0 < 5)%Z ∧ ∃ m r,
    (snapshotWithOptionalDiff before after [] 5 true show_init).2 = Ok m ∧ m !! "Ethernet0" = Some r ∧
    fld r "RxOk" = FormatInt 40 ∧ fld r "RxErr" = "0" ∧ fld r "TrimDrp" = "-4".
Proof.
  assert (0 < 5)%Z as Hp by lia. split; [exact Hp|].
  destruct (period_difference before after [] 5 show_init st1 st2 rows0 rows1 Hp run0 run1)
    as (m & Hm & _ & _ & Hr).
  destruct (Hr "Ethernet0" row0 row1 row0_at row1_at) as (r & Hmr & _ & _ & _ & Hexact).
  exists m, r. split; [by rewrite Hm|]. split; [exact Hmr|].
  destruct row_fields as ((F1 & F2 & F3) & G1 & G2 & G3). split_and!.
  - rewrite (Hexact "RxOk" 101%Z 141%Z); [reflexivity| |left; exact F1|exact G1|vm_compute; split; congruence..].
    apply (bool_decide_unpack _). vm_compute. exact I.
  - rewrite (Hexact "RxErr" 3%Z 2%Z); [reflexivity| |left; exact F2|exact G2|vm_compute; split; congruence..].
    apply (bool_decide_unpack _). vm_compute. exact I.
  - rewrite (Hexact "TrimDrp" 9%Z 5%Z); [reflexivity| |left; exact F3|exact G3|vm_compute; split; congruence..].
    apply (bool_decide_unpack _). vm_compute. exact I.
Defined.

(** The cache has a key for the dropped packets, which no tag reads. *)
Lemma trim_totals_not_cleared_witness :
  ∃ c o, getPortStatCacheSnapshot cleared = Some c ∧ c !! "Ethernet0" = Some o ∧
    fld (diff_row o {| sn_fields := {["TrimDrp" := FormatInt 5]}; FecErrCWs := [] |}) "TrimDrp" = FormatInt 5.
Proof.
  set (c := default ∅ (getPortStatCacheSnapshot cleared)).
  set (o := default no_row (c !! "Ethernet0")).
  assert (getPortStatCacheSnapshot cleared = Some c) as Hc by (vm_compute; reflexivity).
  assert (c !! "Ethernet0" = Some o) as Ho by (vm_compute; reflexivity).
  exists c, o. split; [exact Hc|]. split; [exact Ho|].
  apply (proj2 (trim_totals_not_cleared cleared c "Ethernet0" o _ Hc Ho) "TrimDrp" true 5%Z).
  - apply (bool_decide_unpack _). vm_compute. exact I.
  - reflexivity.
  - vm_compute. split; congruence.
Defined.
End ShowExample.
