(* ===== verification/ShowIntf.v ===== *)
(** * SHOW interfaces (src/show_client/interface_cli.go)

    Status, descriptions, FEC, aliases, switchport modes, flaps and expected
    neighbours of interfaces.  A row of a reply is a map of strings; a type
    assertion without the comma-ok form that does not hold is a panic. *)
From stdpp Require Import base gmap sets list strings sorting pretty.
From S2P Require Import Prelude GoStrings Gnmi Json DbConfig DbConn VirtualDb VirtualDbFacts DbClient Bypass Show ShowLib ShowCounters.

Definition allPortErrors : list (string * string) :=
  [("oper_error_status", "oper_error_status_time");
   ("mac_local_fault_count", "mac_local_fault_time");
   ("mac_remote_fault_count", "mac_remote_fault_time");
   ("fec_sync_loss_count", "fec_sync_loss_time");
   ("fec_alignment_loss_count", "fec_alignment_loss_time");
   ("high_ser_error_count", "high_ser_error_time");
   ("high_ber_error_count", "high_ber_error_time");
   ("data_unit_crc_error_count", "data_unit_crc_error_time");
   ("data_unit_misalignment_error_count", "data_unit_misalignment_error_time");
   ("signal_local_error_count", "signal_local_error_time");
   ("crc_rate_count", "crc_rate_time");
   ("data_unit_size_count", "data_unit_size_time");
   ("code_group_error_count", "code_group_error_time");
   ("no_rx_reachability_count", "no_rx_reachability_time")].

(** A [map[string]string] literal, and a list of them. *)
Notation row := (gmap string string).
Definition row_of (l : list (string * string)) : row := list_to_map l.
Definition row_doc (r : row) : json := JObj (JStr <$> r).
Definition rows_doc (l : list row) : json := JArr (row_doc <$> l).

Section intf.
Context {Sw : Swss} {MR : MapRange} {JCo : JsonCodec} {Fmt : GoFmt} {FL : GoFloat} {NS : NatSort}.
Variable Y : Sys.
Notation msi := (gmap string json).

Definition SonicCliIfaceMode : string := "SONIC_CLI_IFACE_MODE".

(** The start of every command that knows naming modes. *)
Definition naming_mode (options : OptionMap) : Cmd InterfaceNamingMode :=
  let namingModeStr := default "" (ov_String (opt_get options SonicCliIfaceMode)) in
  match ParseInterfaceNamingMode namingModeStr with
  | Ok m => mret m
  | Err _ => fail (StatusErr InvalidArgument ("Invalid interface naming mode " +:+ namingModeStr))
  end.

(** ** Descriptions *)

(** One turn of the loop; [details[f].(string)] panics when the field is
    absent or is not a string. *)
Definition describe (interfaceConfig : msi) (interfaceName : string) (description : gmap string row)
    (e : string * json) : Cmd (gmap string row) :=
  let '(key, details) := e in
  let parsedKey := TrimSpace (default "" (SplitN2 key ":" !! 0)) in
  if negb (bool_decide (interfaceName = "")) && negb (bool_decide (parsedKey = interfaceName)) then mret description
  else if bool_decide (is_Some (interfaceConfig !! parsedKey)) then
    match as_map details with
    | None => mret description
    | Some m =>
        let str f := must (m !! f ≫= as_string) in
        oper ← str "oper_status"; admin ← str "admin_status"; alias ← str "alias"; desc ← str "description";
        mret (<[parsedKey := row_of [("Oper", oper); ("Admin", admin); ("Alias", alias); ("Description", desc)]]>
                description)
    end
  else mret description.

Definition loadDescriptionFromInterfaceDetails (interfaceConfig interfaceDetails : msi) (interfaceName : string)
  : Cmd (gmap string row) :=
  for_each (describe interfaceConfig interfaceName) ∅ (map_range interfaceDetails).

Definition getInterfacesDescription (args : CmdArgs) (options : OptionMap) : Cmd json :=
  let interfaceName := default "" (ov_String (opt_get options "interface")) in
  interfaceConfig ← GetMapFromQueries Y [["CONFIG_DB"; "PORT"]];
  interfaceDetails ← GetMapFromQueries Y [["APPL_DB"; "PORT_TABLE"]];
  interfaceDesc ← loadDescriptionFromInterfaceDetails interfaceConfig interfaceDetails interfaceName;
  mret (JObj (row_doc <$> interfaceDesc)).

(** ** Errors and FEC *)

Definition error_row (portErrorsTbl : msi) (e : string * string) : row :=
  row_of [("Port Errors", ReplaceAll (ReplaceAll e.1 "_" " ") " count" "");
          ("Count", GetValueOrDefault portErrorsTbl e.1 "0");
          ("Last timestamp(UTC)", GetValueOrDefault portErrorsTbl e.2 "Never")].

Definition getInterfaceErrors (args : CmdArgs) (options : OptionMap) : Cmd json :=
  let intf := args_At args 0 in
  if bool_decide (intf = "") then fail (StatusErr InvalidArgument "No interface name passed in as option")
  else
    r ← try (GetMapFromQueries Y [["STATE_DB"; "PORT_OPERR_TABLE"; intf]]);
    portErrorsTbl ← RemapAliasToPortName Y (match r with Ok m => m | Err _ => ∅ end);
    mret (rows_doc (error_row portErrorsTbl <$> allPortErrors)).

(** The keys of a table, or the one that is asked for if it is there. *)
Definition select_keys (table : msi) (intf : string) : list string :=
  if bool_decide (intf = "") then (map_range table).*1
  else if bool_decide (is_Some (table !! intf)) then [intf] else [].

Definition getIntfsFromConfigDB (intf : string) : Cmd (list string) :=
  portTable ← GetMapFromQueries Y [["CONFIG_DB"; "PORT"]]; mret (select_keys portTable intf).

Definition getPortchannelIntfsFromConfigDB (intf : string) : Cmd (list string) :=
  portTable ← GetMapFromQueries Y [["CONFIG_DB"; "PORTCHANNEL"]]; mret (select_keys portTable intf).

(** [if _, ok := data[f]; !ok { "N/A" } else { fmt.Sprint(data[f]) }] *)
Definition field_or_NA (data : msi) (f : string) : string := GetValueOrDefault data f "N/A".

Definition fec_row (port : string) : Cmd row :=
  appl ← GetMapFromQueries Y [["APPL_DB"; "PORT_TABLE"; port]];
  state ← GetMapFromQueries Y [["STATE_DB"; "PORT_TABLE"; port]];
  let operFecStatus := if bool_decide (field_or_NA appl "oper_status" = "up") then field_or_NA state "fec" else "N/A" in
  mret (row_of [("Interface", port); ("FEC Oper", operFecStatus); ("FEC Admin", field_or_NA appl "fec")]).

Definition getInterfaceFecStatus (args : CmdArgs) (options : OptionMap) : Cmd json :=
  ports ← getIntfsFromConfigDB (args_At args 0);
  portFecStatus ← mapC fec_row (natsort ports);
  mret (rows_doc portFecStatus).

(** ** Speeds *)

Definition getPortOptics (intf : string) : Cmd string :=
  r ← try (GetMapFromQueries Y [["STATE_DB"; "TRANSCEIVER_INFO"; intf]]);
  mret (match r with Ok data => field_or_NA data "type" | Err _ => "N/A" end).

Definition portSpeedFmt (inSpeed opticsType : string) : string :=
  match Atoi inSpeed with
  | None => "N/A"
  | Some speed =>
      if bool_decide (opticsType = "RJ45") && bool_decide (speed ≤ 1000)%Z then Itoa speed +:+ "M"
      else if bool_decide (speed < 1000)%Z then Itoa speed +:+ "M"
      else if bool_decide (100 ≤ Z.rem speed 1000)%Z then fmt_f 1 (fdiv (flit speed) (flit 1000)) +:+ "G"
      else fmt_f 0 (fdiv (flit speed) (flit 1000)) +:+ "G"
  end.

Definition portSpeedParse (speedStr : string) : Z :=
  let s := TrimSpace (ToUpper speedStr) in
  if bool_decide (s = "") || bool_decide (s = "N/A") then 0%Z
  else if HasSuffix s "G" then
    match ParseFloat (TrimSuffix s "G") with Some f => fround (fmul f (flit 1000)) | None => 0%Z end
  else if HasSuffix s "M" then
    match ParseFloat (TrimSuffix s "M") with Some f => fround f | None => 0%Z end
  else match ParseFloat s with Some f => fround f | None => 0%Z end.

Definition getPortOperSpeed (intf : string) : Cmd string :=
  r ← try (GetMapFromQueries Y [["STATE_DB"; "PORT_TABLE"; intf]]);
  match r with
  | Err _ => mret "N/A"
  | Ok stateData =>
      r ← try (GetMapFromQueries Y [["APPL_DB"; "PORT_TABLE"; intf]]);
      match r with
      | Err _ => mret "N/A"
      | Ok appData =>
          opticsType ← getPortOptics intf;
          mret (
            if bool_decide (Sprintv <$> appData !! "oper_status" = Some "up") then
              match stateData !! "speed" with
              | None => portSpeedFmt (sprint_field appData "speed") opticsType
              | Some v => portSpeedFmt (Sprintv v) opticsType
              end
            else portSpeedFmt (sprint_field appData "speed") opticsType)
      end
  end.

(** ** Modes *)

(** [m[content[1]] = content[0]] for the keys with at least two parts. *)
Definition member_of (key : string) : option (string * string) :=
  match Split key "|" with a :: b :: _ => Some (b, a) | _ => None end.

Definition members (table : msi) : gmap string string :=
  insert_all (λ '(key, _), member_of key) ∅ (map_range table).

Definition add_mode (table : string) (mode : string → string) (m : gmap string string) (port : string)
  : Cmd (gmap string string) :=
  r ← try (GetMapFromQueries Y [["CONFIG_DB"; table; port]]);
  mret (match r with
        | Err _ => m
        | Ok portData => <[port := match portData !! "mode" with Some v => Sprintv v | None => mode port end]> m
        end).

Definition getIntfModeMap (ports : list string) : Cmd (gmap string string) :=
  r ← try (GetMapFromQueries Y [["CONFIG_DB"; "VLAN_MEMBER"]]);
  match r with
  | Err _ => mret ∅
  | Ok vlanMemberTable =>
      r ← try (GetMapFromQueries Y [["CONFIG_DB"; "PORTCHANNEL_MEMBER"]]);
      match r with
      | Err _ => mret ∅
      | Ok portChannelMemberTable =>
          for_each (add_mode "PORT" (λ port,
            match members portChannelMemberTable !! port with
            | Some pc => pc
            | None => if bool_decide (is_Some (members vlanMemberTable !! port)) then "trunk" else "routed"
            end)) ∅ ports
      end
  end.

Definition getPortchannelModeMap (portchannels : list string) : Cmd (gmap string string) :=
  r ← try (GetMapFromQueries Y [["CONFIG_DB"; "VLAN_MEMBER"]]);
  match r with
  | Err _ => mret ∅
  | Ok vlanMemberTable =>
      for_each (add_mode "PORTCHANNEL" (λ port,
        if bool_decide (is_Some (members vlanMemberTable !! port)) then "trunk" else "routed")) ∅ portchannels
  end.

(** The members of each port channel, in the order of the range. *)
Definition membership (table : msi) : gmap string (list string) :=
  foldl (λ m '(key, _), match Split key "|" with
                        | pc :: intf :: _ => <[pc := default [] (m !! pc) ++ [intf]]> m
                        | _ => m
                        end) ∅ (map_range table).

Definition getPortchannelSpeedMap (portchannels : list string) : Cmd (gmap string string) :=
  r ← try (GetMapFromQueries Y [["CONFIG_DB"; "PORTCHANNEL_MEMBER"]]);
  match r with
  | Err _ => mret ∅
  | Ok portChannelMemberTable =>
      for_each (λ m '(portchannel, intfs),
        speedList ← mapC getPortOperSpeed intfs;
        let aggSpeed := foldl (λ sum speed, to_int64 (sum + portSpeedParse speed)) 0%Z speedList in
        mret (<[portchannel := portSpeedFmt (Itoa aggSpeed) "N/A"]> m)) ∅
        (map_range (membership portChannelMemberTable))
  end.

(** ** Status *)

Definition getSubIntfsFromAppDB (intf : string) : Cmd (list string) :=
  portTable ← GetMapFromQueries Y [["APPL_DB"; "INTF_TABLE"]];
  if bool_decide (intf = "") then mret (map_range portTable).*1
  else if bool_decide (is_Some (portTable !! intf)) then mret [intf]
  else fail (PlainErr ("Sub-interface " +:+ intf +:+ " not found in APPL_DB")).

Definition getSubInterfaceStatus (intf : string) : Cmd json :=
  ports ← getSubIntfsFromAppDB intf;
  mret (rows_doc ((λ p, row_of [("Interface", p); ("Speed", "N/A"); ("MTU", "N/A"); ("Vlan", "N/A"); ("Oper", "N/A");
                                ("Admin", "N/A"); ("Type", "N/A")]) <$> natsort ports)).

Definition status_row (port speed mode optics mtu : string) (data : msi) : row :=
  row_of [("Interface", port); ("Lanes", field_or_NA data "lanes"); ("Speed", speed); ("MTU", mtu);
          ("FEC", field_or_NA data "fec"); ("Alias", field_or_NA data "alias"); ("Vlan", mode);
          ("Oper", field_or_NA data "oper_status"); ("Admin", field_or_NA data "admin_status");
          ("Type", optics); ("Asym", field_or_NA data "pfc_asym")].

Definition port_status (intfModeMap : gmap string string) (port : string) : Cmd row :=
  portOperSpeed ← getPortOperSpeed port;
  portOpticsType ← getPortOptics port;
  data ← GetMapFromQueries Y [["APPL_DB"; "PORT_TABLE"; port]];
  mret (status_row port portOperSpeed (default "" (intfModeMap !! port)) portOpticsType (field_or_NA data "mtu") data).

(** The MTU of a port channel comes from its configuration. *)
Definition portchannel_status (poModeMap poSpeedMap : gmap string string) (port : string) : Cmd row :=
  portOpticsType ← getPortOptics port;
  data ← GetMapFromQueries Y [["APPL_DB"; "LAG_TABLE"; port]];
  config ← GetMapFromQueries Y [["CONFIG_DB"; "PORTCHANNEL"; port]];
  mret (status_row port (default "" (poSpeedMap !! port)) (default "" (poModeMap !! port)) portOpticsType
          (field_or_NA config "mtu") data).

Definition getInterfaceStatus (args : CmdArgs) (options : OptionMap) : Cmd json :=
  let intf := args_At args 0 in
  if bool_decide (intf = "subport") then getSubInterfaceStatus ""
  else if Contains intf "." then getSubInterfaceStatus intf
  else
    ports ← getIntfsFromConfigDB intf;
    portchannels ← getPortchannelIntfsFromConfigDB intf;
    let ports := natsort ports in
    let portchannels := natsort portchannels in
    intfModeMap ← getIntfModeMap ports;
    poModeMap ← getPortchannelModeMap portchannels;
    poSpeedMap ← getPortchannelSpeedMap portchannels;
    rows ← mapC (port_status intfModeMap) ports;
    poRows ← mapC (portchannel_status poModeMap poSpeedMap) portchannels;
    mret (rows_doc (rows ++ poRows)).

(** ** Aliases *)

Definition alias_of (portEntries : msi) (name : string) : string :=
  let alias := GetFieldValueString portEntries name "" "alias" in
  if bool_decide (alias = "") then name else alias.

Definition getInterfaceAlias (args : CmdArgs) (options : OptionMap) : Cmd json :=
  let intf := args_At args 0 in
  mode ← naming_mode options;
  portEntries ← GetMapFromQueries Y [["CONFIG_DB"; "PORT"]];
  let nameToAlias := map_imap (λ name _, Some (alias_of portEntries name)) portEntries in
  if bool_decide (intf = "") then mret (JObj ((λ a, row_doc {["alias" := a]}) <$> nameToAlias))
  else
    name ← TryConvertInterfaceNameFromAlias Y intf mode;
    match nameToAlias !! name with
    | None => fail (PlainErr ("Invalid interface name " +:+ name))
    | Some alias => mret (JObj {[name := row_doc {["alias" := alias]}]})
    end.

(** ** Switchports *)

Definition is_member (table : msi) (name : string) : bool :=
  existsb (λ '(k, _), let '(_, member, ok) := SplitCompositeKey k in ok && bool_decide (member = name)) (map_range table).

Definition GetInterfaceSwitchportMode (portTbl portChannelTbl vlanMemberTbl : msi) (name : string) : string :=
  let m := GetFieldValueString portTbl name "" "mode" in
  if bool_decide (m ≠ "") then m
  else
    let m := GetFieldValueString portChannelTbl name "" "mode" in
    if bool_decide (m ≠ "") then m
    else if is_member vlanMemberTbl name then "trunk" else "routed".

Definition IsInterfaceInPortchannel (portchannelMemberTable : msi) (interfaceName : string) : bool :=
  if bool_decide (interfaceName = "") then false else is_member portchannelMemberTable interfaceName.

Definition switchport_tables : Cmd (msi * msi * msi * msi) :=
  portTbl ← GetMapFromQueries Y [["CONFIG_DB"; "PORT"]];
  portChannelTbl ← GetMapFromQueries Y [["CONFIG_DB"; "PORTCHANNEL"]];
  portChannelMemberTbl ← GetMapFromQueries Y [["CONFIG_DB"; "PORTCHANNEL_MEMBER"]];
  vlanMemberTbl ← GetMapFromQueries Y [["CONFIG_DB"; "VLAN_MEMBER"]];
  mret (portTbl, portChannelTbl, portChannelMemberTbl, vlanMemberTbl).

(** Ports that are in no port channel, and the port channels. *)
Definition switchport_keys (portTbl portChannelTbl portChannelMemberTbl : msi) : list string :=
  natsort (filter (λ p, IsInterfaceInPortchannel portChannelMemberTbl p = false) (map_range portTbl).*1 ++
           (map_range portChannelTbl).*1).

(** The VLANs of an interface with a tagging mode, sorted as strings. *)
Definition add_vlan (vlanMemberTbl : msi) (tagging : string) (m : gmap string (list string)) (e : string * json)
  : gmap string (list string) :=
  let '(k, _) := e in
  match SplitCompositeKey k with
  | (vlan, ifname, true) =>
      if bool_decide (GetFieldValueString vlanMemberTbl k "" "tagging_mode" = tagging) then
        <[ifname := default [] (m !! ifname) ++ [TrimPrefix vlan "Vlan"]]> m
      else m
  | _ => m
  end.

Definition vlan_map (vlanMemberTbl : msi) (tagging : string) : gmap string (list string) :=
  sort_Strings <$> foldl (add_vlan vlanMemberTbl tagging) ∅ (map_range vlanMemberTbl).

Definition getInterfaceSwitchportConfig (args : CmdArgs) (options : OptionMap) : Cmd json :=
  mode ← naming_mode options;
  '(portTbl, portChannelTbl, portChannelMemberTbl, vlanMemberTbl) ← switchport_tables;
  rows ← mapC (λ k,
    name ← GetInterfaceNameForDisplay Y k mode;
    mret (row_of [("Interface", name);
                  ("Mode", GetInterfaceSwitchportMode portTbl portChannelTbl vlanMemberTbl k);
                  ("Untagged", Join (default [] (vlan_map vlanMemberTbl "untagged" !! k)) ",");
                  ("Tagged", Join (default [] (vlan_map vlanMemberTbl "tagged" !! k)) ",")]))
    (switchport_keys portTbl portChannelTbl portChannelMemberTbl);
  mret (rows_doc rows).

Definition getInterfaceSwitchportStatus (args : CmdArgs) (options : OptionMap) : Cmd json :=
  mode ← naming_mode options;
  '(portTbl, portChannelTbl, portChannelMemberTbl, vlanMemberTbl) ← switchport_tables;
  rows ← mapC (λ k,
    name ← GetInterfaceNameForDisplay Y k mode;
    mret (row_of [("Interface", name);
                  ("Mode", GetInterfaceSwitchportMode portTbl portChannelTbl vlanMemberTbl k)]))
    (switchport_keys portTbl portChannelTbl portChannelMemberTbl);
  mret (rows_doc rows).

(** ** Flaps *)

Definition flap_row (portTable : msi) (p : string) : row :=
  let get f d := GetFieldValueString portTable p d f in
  row_of [("Interface", p); ("Flap Count", get "flap_count" "Never");
          ("Admin", Capitalize (get "admin_status" "Unknown")); ("Oper", Capitalize (get "oper_status" "Unknown"));
          ("Link Down TimeStamp(UTC)", get "last_down_time" "Never");
          ("Link Up TimeStamp(UTC)", get "last_up_time" "Never")].

Definition getInterfaceFlap (args : CmdArgs) (options : OptionMap) : Cmd json :=
  let intf := args_At args 0 in
  mode ← naming_mode options;
  portTable ← GetMapFromQueries Y [["APPL_DB"; "PORT_TABLE"]];
  ports ← (if bool_decide (intf = "") then mret (map_range portTable).*1
           else
             intf ← TryConvertInterfaceNameFromAlias Y intf mode;
             if bool_decide (is_Some (portTable !! intf)) then mret [intf]
             else fail (PlainErr ("Invalid interface name " +:+ intf)));
  mret (rows_doc (flap_row portTable <$> natsort ports)).

(** ** Expected neighbours *)

Definition or_none (s : string) : string := if bool_decide (s = "") then "None" else s.

Definition buildEntry (neighborTbl metaTbl : msi) (canonIf : string) : option row :=
  let device := GetFieldValueString neighborTbl canonIf "" "name" in
  if bool_decide (device = "") then None
  else if bool_decide (is_Some (metaTbl !! device)) then
    let meta f := or_none (GetFieldValueString metaTbl device "None" f) in
    Some (row_of [("Neighbor", device);
                  ("NeighborPort", or_none (GetFieldValueString neighborTbl canonIf "None" "port"));
                  ("NeighborLoopback", meta "lo_addr"); ("NeighborMgmt", meta "mgmt_addr");
                  ("NeighborType", meta "type")])
  else None.

Definition add_neighbor (neighborTbl metaTbl : msi) (mode : InterfaceNamingMode) (finalMap : gmap string row)
    (c : string) : Cmd (gmap string row) :=
  match buildEntry neighborTbl metaTbl c with
  | None => mret finalMap
  | Some entry =>
      key ← (if bool_decide (mode = Alias) then GetInterfaceNameForDisplay Y c mode else mret c);
      mret (<[key := entry]> finalMap)
  end.

Definition getInterfaceNeighborExpected (args : CmdArgs) (options : OptionMap) : Cmd json :=
  let intf := args_At args 0 in
  mode ← naming_mode options;
  neighborTbl ← GetMapFromQueries Y [["CONFIG_DB"; "DEVICE_NEIGHBOR"]];
  metaTbl ← GetMapFromQueries Y [["CONFIG_DB"; "DEVICE_NEIGHBOR_METADATA"]];
  finalMap ← for_each (add_neighbor neighborTbl metaTbl mode) ∅ (natsort (map_range neighborTbl).*1);
  if bool_decide (intf = "") then mret (JObj (row_doc <$> finalMap))
  else match finalMap !! intf with
       | None => fail (StatusErr InvalidArgument ("Invalid interface name " +:+ intf))
       | Some entry => mret (JObj {[intf := row_doc entry]})
       end.

Definition getInterfaceNamingMode (args : CmdArgs) (options : OptionMap) : Cmd json :=
  mode ← naming_mode options;
  mret (row_doc {["naming_mode" := mode_String mode]}).
End intf.

(** * What SHOW interfaces guarantees

    The description of interfaces is complete or the process panics, the two
    switchport commands list the same interfaces with the same modes, and the
    names that are displayed in alias mode are accepted in alias mode. *)

(** ** Loops *)

Lemma bind_Cmd_Ok {A B} (m : Cmd A) (f : A → Cmd B) s s' b :
  (m ≫= f) s = (s', Ok b) ↔ ∃ s1 a, m s = (s1, Ok a) ∧ f a s1 = (s', Ok b).
Proof.
  unfold mbind, Cmd_bind. destruct (m s) as [s1 [a|e]]; split; [by eauto| |done|].
  - by intros (? & ? & [= <- <-] & ?).
  - by intros (? & ? & [=] & ?).
Qed.

Lemma bind_Cmd_run {A B} (m : Cmd A) (f : A → Cmd B) s :
  (m ≫= f) s = match m s with (s1, Ok a) => f a s1 | (s1, Err e) => (s1, Err e) end.
Proof. done. Qed.

(** A body that does not touch the state: its result, or a panic. *)
Definition pure_or_crash {A B} (g : A → B → option A) (f : A → B → Cmd A) : Prop :=
  ∀ acc x s, f acc x s = (s, match g acc x with Some a => Ok a | None => Err Crashed end).

Fixpoint fold_option {A B} (g : A → B → option A) (acc : A) (l : list B) : option A :=
  match l with [] => Some acc | x :: l => g acc x ≫= λ acc, fold_option g acc l end.

Lemma for_each_pure {A B} (g : A → B → option A) f acc (l : list B) s :
  pure_or_crash g f →
  for_each f acc l s = (s, match fold_option g acc l with Some a => Ok a | None => Err Crashed end).
Proof.
  intros Hf. revert acc. induction l as [|x l IH]; intros acc; [done|]. simpl. unfold mbind, Cmd_bind.
  rewrite Hf. destruct (g acc x) as [a|]; simpl; [apply IH|done].
Qed.

Section facts.
Context {Sw : Swss} {MR : MapRange} {JCo : JsonCodec} {Fmt : GoFmt} {FL : GoFloat} {NS : NatSort}.
Notation msi := (gmap string json).

(** ** Descriptions *)

(** The name of the interface a key of PORT_TABLE stands for, and whether the
    command looks at it. *)
Definition entry_name (key : string) : string := TrimSpace (default "" (SplitN2 key ":" !! 0)).

Definition selected (config : msi) (name : string) (key : string) : bool :=
  (bool_decide (name = "") || bool_decide (entry_name key = name)) &&
  bool_decide (is_Some (config !! entry_name key)).

(** The row of an entry; [None] when the code panics on it. *)
Definition described (m : msi) : option row :=
  oper ← m !! "oper_status" ≫= as_string; admin ← m !! "admin_status" ≫= as_string;
  alias ← m !! "alias" ≫= as_string; desc ← m !! "description" ≫= as_string;
  Some (row_of [("Oper", oper); ("Admin", admin); ("Alias", alias); ("Description", desc)]).

Definition describe_pure (config : msi) (name : string) (acc : gmap string row) (e : string * json)
  : option (gmap string row) :=
  if selected config name e.1 then
    match as_map e.2 with
    | None => Some acc
    | Some m => (λ r, <[entry_name e.1 := r]> acc) <$> described m
    end
  else Some acc.

Lemma describe_is_pure config name : pure_or_crash (describe_pure config name) (describe config name).
Proof.
  intros acc [key details] s. unfold describe, describe_pure, selected. cbn [fst snd].
  fold (entry_name key). destruct (bool_decide (name = "")), (bool_decide (entry_name key = name)),
    (bool_decide (is_Some (config !! entry_name key))); simpl; try done;
  (destruct (as_map details) as [m|]; [|done]; unfold described, mbind, Cmd_bind, option_bind, must;
   destruct (m !! "oper_status") as [[]|]; try done; simpl;
   destruct (m !! "admin_status") as [[]|]; try done; simpl;
   destruct (m !! "alias") as [[]|]; try done; simpl;
   destruct (m !! "description") as [[]|]; done).
Qed.

(** The interfaces for which the command needs a row. *)
Definition wanted (config details : msi) (name key : string) (m : msi) : Prop :=
  details !! key = Some (JObj m) ∧ selected config name key = true.

Lemma fold_describe_Some config name l acc d :
  fold_option (describe_pure config name) acc l = Some d →
  ∀ e m, e ∈ l → e.2 = JObj m → selected config name e.1 = true → is_Some (described m).
Proof.
  revert acc. induction l as [|x l IH]; intros acc H e m He Hm Hs; [by apply elem_of_nil in He|].
  simpl in H. apply bind_Some in H as (acc' & H1 & H2). apply elem_of_cons in He as [->|He]; [|by eapply IH].
  unfold describe_pure in H1. rewrite Hs, Hm in H1. simpl in H1. apply fmap_Some in H1 as (r & Hr & _). by eauto.
Qed.

Lemma fold_describe_None config name l acc :
  fold_option (describe_pure config name) acc l = None →
  ∃ e m, e ∈ l ∧ e.2 = JObj m ∧ selected config name e.1 = true ∧ described m = None.
Proof.
  revert acc. induction l as [|x l IH]; intros acc H; [done|]. simpl in H.
  destruct (describe_pure config name acc x) as [acc'|] eqn:Ex; simpl in H.
  - destruct (IH _ H) as (e & m & He & ?). exists e, m. split; [by right|done].
  - unfold describe_pure in Ex. destruct (selected config name x.1) eqn:Es; [|done].
    destruct x as [k []]; try done. cbn in Ex. exists (k, JObj m), m. split; [left|].
    split_and!; [done|done|]. by destruct (described m).
Qed.

(** C40. The command that shows descriptions answers exactly when every
    interface it looks at has all four fields as strings; a single one without,
    say, a description makes it panic, which ends the server. *)
Theorem description_complete_or_panic config details name s :
  let r := loadDescriptionFromInterfaceDetails config details name s in
  r.1 = s ∧
  ((∀ key m, wanted config details name key m → is_Some (described m)) ∧ is_ok r.2 = true ∨
   (∃ key m, wanted config details name key m ∧ described m = None) ∧ r.2 = Err Crashed).
Proof.
  cbv zeta. unfold loadDescriptionFromInterfaceDetails. rewrite (for_each_pure _ _ _ _ _ (describe_is_pure config name)).
  split; [done|]. cbn [snd].
  destruct (fold_option _ _ _) as [d|] eqn:E.
  - left. split; [|done]. intros key m [Hk Hs]. eapply (fold_describe_Some _ _ _ _ _ E (key, JObj m)); [|done|done].
    by apply elem_of_map_range.
  - right. split; [|done].
    destruct (fold_describe_None _ _ _ _ E) as ([k v] & m & Hin%elem_of_map_range & Hv & Hs & Hd).
    cbn [fst snd] in *. subst v. by exists k, m.
Qed.

(** ** Switchports *)

(** [name] is the second part of a key of the table. *)
Definition member (t : msi) (name : string) : Prop :=
  ∃ k a, is_Some (t !! k) ∧ SplitCompositeKey k = (a, name, true).

Lemma is_member_spec t name : is_member t name = true ↔ member t name.
Proof.
  unfold is_member. rewrite existsb_exists. setoid_rewrite <- list_elem_of_In. split.
  - intros ([k v] & Hin%elem_of_map_range & Hk). destruct (SplitCompositeKey k) as [[a b] ok] eqn:E.
    apply andb_true_iff in Hk as [-> ->%bool_decide_eq_true]. exists k, a. by eauto.
  - intros (k & a & [v Hv] & Hk). exists (k, v). split; [by apply elem_of_map_range|]. rewrite Hk. simpl.
    by rewrite bool_decide_true.
Qed.

Lemma switchport_keys_spec portTbl pcTbl memberTbl p :
  p ∈ switchport_keys portTbl pcTbl memberTbl ↔
  is_Some (portTbl !! p) ∧ (p = "" ∨ ¬ member memberTbl p) ∨ is_Some (pcTbl !! p).
Proof.
  unfold switchport_keys. rewrite natsort_perm, elem_of_app, list_elem_of_filter.
  assert (∀ t : msi, p ∈ (map_range t).*1 ↔ is_Some (t !! p)) as Hk by (intros t; apply (validated_all t)).
  rewrite !Hk. unfold IsInterfaceInPortchannel.
  assert ((if bool_decide (p = "") then false else is_member memberTbl p) = false ↔ p = "" ∨ ¬ member memberTbl p) as ->.
  { rewrite <- is_member_spec, not_true_iff_false. case_bool_decide; naive_solver. }
  tauto.
Qed.

Lemma mapC_ext {A B C} (f : A → Cmd B) (g : A → Cmd C) (h : B → C) l s :
  (∀ x s, g x s = ((f x s).1, fmap (M := res cmd_err) h (f x s).2)) →
  mapC g l s = ((mapC f l s).1, fmap (M := res cmd_err) (fmap (M := list) h) (mapC f l s).2).
Proof.
  intros Hg. revert s. induction l as [|x l IH]; intros s; [done|]. simpl. unfold mbind, Cmd_bind. rewrite Hg.
  destruct (f x s) as [s1 [b|e]]; simpl; [|done]. rewrite IH. by destruct (mapC f l s1) as [s2 [bs|e]].
Qed.

(** The part of a row under some columns. *)
Definition columns (names : list string) (r : row) : row := filter (λ e, e.1 ∈ names) r.

(** The two switchport commands read the same tables and list the same
    interfaces in the same order with the same modes: the status is the
    configuration without the columns of VLANs, and one fails when the other
    does, leaving the same state. *)
Theorem switchport_agree Y args options s :
  ∃ s' (r : res cmd_err (list row)),
    getInterfaceSwitchportConfig Y args options s = (s', fmap (M := res cmd_err) rows_doc r) ∧
    getInterfaceSwitchportStatus Y args options s = (s', fmap (M := res cmd_err) (λ l, rows_doc (columns ["Interface"; "Mode"] <$> l)) r).
Proof.
  unfold getInterfaceSwitchportConfig, getInterfaceSwitchportStatus. rewrite !bind_Cmd_run.
  destruct (naming_mode options s) as [s1 [mode|e]]; [|by exists s1, (Err e)]. rewrite !bind_Cmd_run.
  destruct (switchport_tables Y s1) as [s2 [[[[t1 t2] t3] t4]|e]]; [|by exists s2, (Err e)]. rewrite !bind_Cmd_run.
  match goal with |- context [mapC ?f (switchport_keys t1 t2 t3) s2] => set (cfg := f) end.
  match goal with |- context [mapC ?f (switchport_keys t1 t2 t3) s2] =>
    lazymatch f with cfg => fail | _ => set (sts := f) end end.
  rewrite (mapC_ext cfg sts (columns ["Interface"; "Mode"])).
  - destruct (mapC cfg (switchport_keys t1 t2 t3) s2) as [s3 [rows|e]]; [by exists s3, (Ok rows)|by exists s3, (Err e)].
  - intros k s3. unfold cfg, sts. rewrite !bind_Cmd_run.
    destruct (GetInterfaceNameForDisplay Y k mode s3) as [s4 [name|e]]; done.
Qed.

(** The rows of the status in the default naming mode. *)
Lemma mapC_pure {A B} (f : A → Cmd B) (g : A → B) l s :
  (∀ x s, f x s = (s, Ok (g x))) → mapC f l s = (s, Ok (g <$> l)).
Proof.
  intros Hf. revert s. induction l as [|x l IH]; intros s; [done|]. simpl. rewrite bind_Cmd_run, Hf, bind_Cmd_run, IH.
  done.
Qed.

(** In the default naming mode the switchport status lists every port that
    is in no port channel and every port channel, once for each table it is in,
    with the mode of the port's own configuration, else of the port channel's,
    else trunk for a member of a VLAN, else routed. *)
Theorem switchport_listing Y args options s s1 s2 t1 t2 t3 t4 :
  naming_mode options s = (s1, Ok Default) →
  switchport_tables Y s1 = (s2, Ok (t1, t2, t3, t4)) →
  ∃ keys,
    getInterfaceSwitchportStatus Y args options s =
      (s2, Ok (rows_doc ((λ k, row_of [("Interface", k); ("Mode", GetInterfaceSwitchportMode t1 t2 t4 k)]) <$> keys))) ∧
    keys ≡ₚ filter (λ p, IsInterfaceInPortchannel t3 p = false) (map_to_list t1).*1 ++ (map_to_list t2).*1 ∧
    (∀ p, p ∈ keys ↔ is_Some (t1 !! p) ∧ (p = "" ∨ ¬ member t3 p) ∨ is_Some (t2 !! p)) ∧
    (∀ p, GetFieldValueString t1 p "" "mode" = "" → GetFieldValueString t2 p "" "mode" = "" →
       GetInterfaceSwitchportMode t1 t2 t4 p = "trunk" ∧ member t4 p ∨
       GetInterfaceSwitchportMode t1 t2 t4 p = "routed" ∧ ¬ member t4 p).
Proof.
  intros Hm Ht. exists (switchport_keys t1 t2 t3). split_and!.
  - unfold getInterfaceSwitchportStatus. rewrite bind_Cmd_run, Hm, bind_Cmd_run, Ht, bind_Cmd_run.
    rewrite (mapC_pure _ (λ k, row_of [("Interface", k); ("Mode", GetInterfaceSwitchportMode t1 t2 t4 k)])); [done|].
    intros k s3. rewrite bind_Cmd_run. unfold GetInterfaceNameForDisplay. by case_bool_decide.
  - unfold switchport_keys. rewrite natsort_perm. by rewrite !map_range_perm.
  - intros p. apply switchport_keys_spec.
  - intros p H1 H2. unfold GetInterfaceSwitchportMode. rewrite H1, H2. rewrite !bool_decide_false by (by intros []).
    rewrite <- is_member_spec. destruct (is_member t4 p); [by left|]. right. by split.
Qed.

(** ** Naming modes *)

(** Once the alias maps are loaded from a configuration in which no two
    ports share an alias, the name that a command displays for a port in alias
    mode is accepted by the commands that take an interface in alias mode, and
    stands for the same port; in the default mode a name stands for itself. *)
Theorem alias_roundtrip Y s p a :
  let s' := set_maps (initAliasMap (sys_env Y) (name_maps s)).1 s in
  aliases_agree (name_maps s') → name2aliasMap (name_maps s') !! p = Some a →
  "initAliasMapOnce" ∈ fired (name_maps s') →
  p ≠ "" → a ≠ p → split_dot p = (p, "") →
  GetInterfaceNameForDisplay Y p Alias s = (s', Ok a) ∧
  TryConvertInterfaceNameFromAlias Y a Alias s' = (s', Ok p) ∧
  GetInterfaceNameForDisplay Y p Default s = (s, Ok p) ∧
  TryConvertInterfaceNameFromAlias Y p Default s = (s, Ok p).
Proof.
  intros s' [_ Hback] Hp Hf Hne Hap Hd.
  assert (s' = set_maps (initAliasMap (sys_env Y) (name_maps s)).1 s) as Hs' by done. clearbody s'.
  split_and!.
  - unfold GetInterfaceNameForDisplay. rewrite bool_decide_false by done. cbn [bool_decide]. rewrite bool_decide_false by done.
    rewrite bind_Cmd_run. unfold PortToAlias, PortToAliasNameMap. rewrite <- Hs', Hd.
    assert (name_maps s' = (initAliasMap (sys_env Y) (name_maps s)).1) as <- by (by rewrite Hs').
    rewrite Hp. unfold mret, Cmd_ret. by rewrite app_empty_r.
  - unfold TryConvertInterfaceNameFromAlias. rewrite bool_decide_true by done. rewrite bind_Cmd_run.
    unfold AliasToPort, AliasToPortNameMap.
    assert ((initAliasMap (sys_env Y) (name_maps s')).1 = name_maps s') as ->.
    { unfold initAliasMap. by rewrite once_fired. }
    assert (set_maps (name_maps s') s' = s') as -> by (by destruct s').
    rewrite (Hback _ _ Hp). cbn [default from_option id]. rewrite !bool_decide_false by done. done.
  - unfold GetInterfaceNameForDisplay. rewrite bool_decide_false by done. done.
  - done.
Qed.

End facts.

(** ** A device with a port channel and a VLAN *)
Module ShowIntfExample.
Import VdbExample.

Lemma sort_perm (l : list string) : sort_Strings l ≡ₚ l.
Proof. apply merge_sort_Permutation. Qed.

#[local] Instance natsort_strings : NatSort := {| natsort := sort_Strings; natsort_perm := sort_perm |}.
#[local] Instance sw : Swss := ShowExample.swss1.
#[local] Instance mr : MapRange := canonical_range.
#[local] Instance fmt : GoFmt := ShowExample.fmt.
#[local] Instance fl : GoFloat := ShowExample.fl.
#[local] Instance codec : JsonCodec := ShowExample.codec.

Definition config : contents :=
  {["PORT|Ethernet0" := {["alias" := "etp1"]}; "PORT|Ethernet4" := {["alias" := "etp2"]};
    "PORT|Ethernet8" := {["alias" := "etp3"; "mode" := "access"]};
    "PORTCHANNEL|PortChannel1" := {["mtu" := "9100"]};
    "PORTCHANNEL_MEMBER|PortChannel1|Ethernet4" := {["NULL" := "NULL"]};
    "VLAN_MEMBER|Vlan10|Ethernet0" := {["tagging_mode" := "tagged"]}]}.

Definition Y : Sys := {|
  sys_env := {|
    env_cfg := env_cfg env0;
    Target2RedisDb := {["" := {["CONFIG_DB" := conn_of config; "APPL_DB" := conn_of ShowExample.appl;
      "STATE_DB" := conn_of ∅]}]};
    UNIT_TEST := "" |};
  read_file := λ _, None
|}.

Definition tables : (gmap string json * gmap string json * gmap string json * gmap string json) :=
  match (switchport_tables Y show_init).2 with Ok t => t | Err _ => (∅, ∅, ∅, ∅) end.

Lemma tables_read :
  switchport_tables Y show_init =
  ((switchport_tables Y show_init).1, Ok (tables.1.1.1, tables.1.1.2, tables.1.2, tables.2)).
Proof. vm_compute. reflexivity. Qed.

(** Ethernet4 is in a port channel. *)
Lemma switchport_listing_witness :
  naming_mode ∅ show_init = (show_init, Ok Default) ∧
  ∃ keys,
    getInterfaceSwitchportStatus Y [] ∅ show_init =
      ((switchport_tables Y show_init).1, Ok (rows_doc ((λ k, row_of [("Interface", k);
         ("Mode", GetInterfaceSwitchportMode tables.1.1.1 tables.1.1.2 tables.2 k)]) <$> keys))) ∧
    "Ethernet8" ∈ keys ∧ "Ethernet4" ∉ keys.
Proof.
  assert (naming_mode ∅ show_init = (show_init, Ok Default)) as Hm by reflexivity. split; [exact Hm|].
  destruct (switchport_listing Y [] ∅ show_init show_init _ _ _ _ _ Hm tables_read) as (keys & H & _ & Hk & _).
  exists keys. split; [exact H|]. split.
  - apply Hk. left. split; [vm_compute; eauto|]. right. rewrite <- is_member_spec. vm_compute. discriminate.
  - rewrite Hk. intros [(_ & [?|[]])|Hc]; [discriminate| |].
    + apply is_member_spec. vm_compute. reflexivity.
    + revert Hc. vm_compute. by intros [].
Defined.

Definition alias_state : ShowState := set_maps (initAliasMap (sys_env Y) (name_maps show_init)).1 show_init.

Lemma alias_state_agrees : aliases_agree (name_maps alias_state).
Proof.
  split.
  - assert (map_Forall (λ p _, is_Some (name2aliasMap (name_maps alias_state) !! p))
      (port2namespaceMap (name_maps alias_state))) as H by (apply (bool_decide_unpack _); vm_compute; exact I).
    intros p [n Hn]. exact (H p n Hn).
  - assert (map_Forall (λ p a, alias2nameMap (name_maps alias_state) !! a = Some p)
      (name2aliasMap (name_maps alias_state))) as H by (apply (bool_decide_unpack _); vm_compute; exact I).
    exact H.
Qed.

Lemma alias_roundtrip_witness :
  aliases_agree (name_maps alias_state) ∧
  name2aliasMap (name_maps alias_state) !! "Ethernet4" = Some "etp2" ∧
  TryConvertInterfaceNameFromAlias Y "etp2" Alias alias_state = (alias_state, Ok "Ethernet4").
Proof.
  split; [exact alias_state_agrees|]. assert (name2aliasMap (name_maps alias_state) !! "Ethernet4" = Some "etp2") as Hp
    by (vm_compute; reflexivity). split; [exact Hp|].
  apply (alias_roundtrip Y show_init "Ethernet4" "etp2" alias_state_agrees Hp).
  - apply (bool_decide_unpack _). vm_compute. exact I.
  - discriminate.
  - discriminate.
  - reflexivity.
Defined.

(** A port without a description ends the process. *)
Example description_panics :
  (getInterfacesDescription Y [] ∅ show_init).2 = Err Crashed.
Proof. vm_compute. reflexivity. Qed.

(** A port channel without a member has no speed at all. *)
Example portchannel_speed :
  (getPortchannelSpeedMap Y ["PortChannel1"; "PortChannel2"] show_init).2 = Ok {["PortChannel1" := "0M"]}.
Proof. vm_compute. reflexivity. Qed.
End ShowIntfExample.
