(* ===== verification/ShowStats.v ===== *)
(** * SHOW drop counters, queues, watermarks and port channels
      (src/show_client/{dropstat_cli,dropconfig_cli,user_cache,queue_cli,
      queue_watermark_cli,watermark_pool_helper,buffer_pool_cli,
      headroom_pool_cli,interface_portchannel_cli}.go)

    The drop counters are shown relative to a checkpoint file and under the
    aliases of their configuration; the map from configured counters to
    statistics is cached for the duration of one command.  A decoded JSON
    number of the checkpoint is read by the parameter [as_int64], which is
    [json.Unmarshal] into an int64. *)
From stdpp Require Import base gmap sets list strings sorting pretty.
From S2P Require Import Prelude GoStrings Gnmi Json DbConfig DbConn VirtualDb VirtualDbFacts DbClient Bypass Show ShowLib ShowCounters ShowIntf.

(** ** Names *)

Definition DEBUG_COUNTER_PORT_STAT_MAP : string := "COUNTERS_DEBUG_NAME_PORT_STAT_MAP".
Definition COUNTERS_PORT_NAME_MAP : string := "COUNTERS_PORT_NAME_MAP".
Definition COUNTER_TABLE_PREFIX : string := "COUNTERS:".
Definition stdPortRxCounters : list string := ["SAI_PORT_STAT_IF_IN_ERRORS"; "SAI_PORT_STAT_IF_IN_DISCARDS"].
Definition stdPortTxCounters : list string := ["SAI_PORT_STAT_IF_OUT_ERRORS"; "SAI_PORT_STAT_IF_OUT_DISCARDS"].
Definition stdPortHeadersMap : gmap string string :=
  {["SAI_PORT_STAT_IF_IN_ERRORS" := "RX_ERR"; "SAI_PORT_STAT_IF_IN_DISCARDS" := "RX_DROPS";
    "SAI_PORT_STAT_IF_OUT_ERRORS" := "TX_ERR"; "SAI_PORT_STAT_IF_OUT_DISCARDS" := "TX_DROPS"]}.

(** [NewUserCache(appName, tag).GetDirectory()]; the directories it makes are
    not looked at. *)
Definition cache_directory (uid : Z) (appName tag : string) : string :=
  let appName := if bool_decide (appName = "") then "app" else appName in
  let suffix := if bool_decide (tag = "") then Itoa uid else Itoa uid +:+ "-" +:+ tag in
  path_Join (path_Join "/tmp/cache" appName) suffix.

Class JsonInt := { as_int64 : json → option Z }.

Section stats.
Context {Sw : Swss} {MR : MapRange} {JCo : JsonCodec} {Fmt : GoFmt} {NS : NatSort} {JI : JsonInt}.
Variable Y : Sys.
Variable uid : Z.
Notation msi := (gmap string json).

(** ** The caches of statistics *)

Definition ClearDropstatStatCaches : Cmd () := λ s, (set_caches ∅ ∅ s, Ok ()).

(** The query of a map of statistics: nil on an error and when it is empty. *)
Definition read_stat_map (objectStatMap : string) : Cmd (gmap string string) :=
  r ← try (GetMapFromQueries Y [["COUNTERS_DB"; objectStatMap]]);
  mret (match r with Ok raw => Sprintv <$> raw | Err _ => ∅ end).

Definition GetStatLookup (objectStatMap : string) : Cmd (gmap string string) := λ s,
  match statLookupCache s !! objectStatMap with
  | Some v => (s, Ok v)
  | None =>
      let '(s, r) := read_stat_map objectStatMap s in
      match r with
      | Ok m => (set_caches (<[objectStatMap := m]> (statLookupCache s)) (reverseStatLookupCache s) s, Ok m)
      | Err e => (s, Err e)
      end
  end.

Definition reverse_map (statMap : gmap string string) : gmap string string :=
  insert_all (λ '(name, stat), Some (stat, name)) ∅ (map_range statMap).

Definition GetReverseStatLookup (objectStatMap : string) : Cmd (gmap string string) := λ s,
  match reverseStatLookupCache s !! objectStatMap with
  | Some v => (s, Ok v)
  | None =>
      let '(s, r) := match statLookupCache s !! objectStatMap with
                     | Some m => (s, Ok m)
                     | None => read_stat_map objectStatMap s
                     end in
      match r with
      | Ok statMap =>
          (set_caches (<[objectStatMap := statMap]> (statLookupCache s))
             (<[objectStatMap := reverse_map statMap]> (reverseStatLookupCache s)) s, Ok (reverse_map statMap))
      | Err e => (s, Err e)
      end
  end.

Definition getConfiguredCounters (objectStatMap : string) : Cmd (list string) :=
  counters ← GetStatLookup objectStatMap; mret (map_range counters).*2.

Definition getCounterName (objectStatMap counterStat : string) : Cmd string :=
  lookup ← GetReverseStatLookup objectStatMap; mret (default "" (lookup !! counterStat)).

Definition getEntry (counterName : string) : Cmd (option msi) :=
  r ← try (GetMapFromQueries Y [["CONFIG_DB"; "DEBUG_COUNTER"; counterName]]);
  mret (match r with Ok row => if bool_decide (row = ∅) then None else Some row | Err _ => None end).

Definition getAlias (counterName : string) : Cmd string :=
  e ← getEntry counterName;
  mret (match e with None => counterName | Some row => Sprintv (GetOrDefault row "alias" (JStr counterName)) end).

Definition is_std (counterStat : string) : bool :=
  ContainsString stdPortRxCounters counterStat || ContainsString stdPortTxCounters counterStat.

Definition inGroup (counterStat objectStatMap group : string) : Cmd bool :=
  if bool_decide (group = "") then mret true
  else if is_std counterStat then mret false
  else
    name ← getCounterName objectStatMap counterStat;
    e ← getEntry name;
    mret (match e with None => false | Some q => bool_decide (group = Sprintv (GetOrDefault q "group" (JStr ""))) end).

Definition isType (counterStat objectStatMap counterType : string) : Cmd bool :=
  if bool_decide (counterType = "") then mret true
  else if ContainsString stdPortRxCounters counterStat then mret (EqualFold counterType "PORT_INGRESS_DROPS")
  else if ContainsString stdPortTxCounters counterStat then mret (EqualFold counterType "PORT_EGRESS_DROPS")
  else
    name ← getCounterName objectStatMap counterStat;
    e ← getEntry name;
    mret (match e with None => false | Some q => bool_decide (counterType = Sprintv (GetOrDefault q "type" (JStr ""))) end).

Definition gatherCounters (stdCounters : list string) (objectStatMap group counterType : string) : Cmd (list string) :=
  configured ← getConfiguredCounters objectStatMap;
  for_each (λ filtered ctr,
    inG ← inGroup ctr objectStatMap group;
    if inG : bool then
      isT ← isType ctr objectStatMap counterType;
      mret (if isT : bool then filtered ++ [ctr] else filtered)
    else mret filtered) [] (stdCounters ++ configured).

Definition gatherHeadersMap (counters : list string) (objectStatMap : string) : Cmd (gmap string string) :=
  counterNames ← GetReverseStatLookup objectStatMap;
  for_each (λ headers counter,
    match stdPortHeadersMap !! counter with
    | Some h => mret (<[counter := h]> headers)
    | None =>
        match counterNames !! counter with
        | Some cn => alias ← getAlias cn; mret (<[counter := alias]> headers)
        | None => mret (<[counter := counter]> headers)
        end
    end) ∅ counters.

(** ** The counts *)

Definition getCounts (counters : list string) (oid : string) : Cmd (gmap string Z) :=
  r ← try (GetMapFromQueries Y [["COUNTERS_DB"; COUNTER_TABLE_PREFIX +:+ oid]]);
  mret (match r with
        | Ok mapping =>
            if bool_decide (mapping = ∅) then ∅
            else insert_all (λ c, Some (c, match mapping !! c with
                                           | Some v => match ParseInt (Sprintv v) with (n, true) => n | _ => 0%Z end
                                           | None => 0%Z
                                           end)) ∅ counters
        | Err _ => ∅
        end).

Definition getCountsTable (counters : list string) (objectTable : string)
  : Cmd (gmap string (gmap string Z) * list string) :=
  r ← try (GetMapFromQueries Y [["COUNTERS_DB"; objectTable]]);
  match r with
  | Err _ => mret (∅, [])
  | Ok mapping =>
      let objs := sort_Strings (map_range mapping).*1 in
      out ← for_each (λ out obj,
        counts ← getCounts counters (sprint_field mapping obj); mret (<[obj := counts]> out)) ∅ objs;
      mret (out, objs)
  end.

(** A checkpoint that cannot be read, or that is not a map of maps of integers,
    is an empty one; JSON null stands for a nil map or the integer 0. *)
Definition decode_counts (v : json) : option (gmap string Z) :=
  match v with
  | JNull => Some ∅
  | JObj m => if bool_decide (map_Forall (λ _ x, x = JNull ∨ is_Some (as_int64 x)) m)
              then Some ((λ x, default 0%Z (as_int64 x)) <$> m) else None
  | _ => None
  end.

Definition decode_checkpoint (v : json) : option (gmap string (gmap string Z)) :=
  match v with
  | JNull => Some ∅
  | JObj m => if bool_decide (map_Forall (λ _ x, is_Some (decode_counts x)) m)
              then Some (default ∅ ∘ decode_counts <$> m) else None
  | _ => None
  end.

Definition loadPortDropCheckpoint (fileName : string) : gmap string (gmap string Z) :=
  match read_file Y (path_Join (cache_directory uid "dropstat" "") fileName) with
  | None => ∅
  | Some text => match Unmarshal text with Some v => default ∅ (decode_checkpoint v) | None => ∅ end
  end.

(** The row of a port: its state and the growth of every counter since the
    checkpoint; two counters with the same header leave one column. *)
Definition drop_row (counters : list string) (headmap : gmap string string) (counts ckpt : gmap string Z)
    (state : string) : row :=
  foldl (λ r ctr,
    let diff := to_int64 (GetOrDefault counts ctr 0%Z - GetOrDefault ckpt ctr 0%Z) in
    let alias := match headmap !! ctr with
                 | Some a => if bool_decide (a = "") then ctr else a
                 | None => ctr
                 end in
    <[alias := FormatInt diff]> r) {["State" := state]} counters.

(** [None] is a nil map. *)
Definition showPortDropCounts (group counterType : string) : Cmd (option (gmap string row)) :=
  let portDropCkpt := loadPortDropCheckpoint "port-stats" in
  counters ← gatherCounters (stdPortRxCounters ++ stdPortTxCounters) DEBUG_COUNTER_PORT_STAT_MAP group counterType;
  match counters with
  | [] => mret (Some ∅)
  | _ =>
      headmap ← gatherHeadersMap counters DEBUG_COUNTER_PORT_STAT_MAP;
      let headmap := stdPortHeadersMap ∪ headmap in
      r ← try (GetMapFromQueries Y [["APPL_DB"; "PORT_TABLE"]]);
      match r with
      | Err _ => mret None
      | Ok portTable =>
          '(countsTable, ports) ← getCountsTable counters COUNTERS_PORT_NAME_MAP;
          mret (Some (insert_all (λ port, Some (port,
            drop_row counters headmap (GetOrDefault countsTable port ∅) (GetOrDefault portDropCkpt port ∅)
              (computeState port portTable))) ∅ ports))
      end
  end.

(** [None]: the reply is empty and there is no error.  The variable that makes
    a test remove the cache is not set. *)
Definition getDropCounters (args : CmdArgs) (options : OptionMap) : Cmd (option json) :=
  let group := default "" (ov_String (opt_get options "group")) in
  let counterType := default "" (ov_String (opt_get options "counter_type")) in
  _ ← ClearDropstatStatCaches;
  portMap ← showPortDropCounts group counterType;
  mret ((λ m, JObj (row_doc <$> m)) <$> portMap).

(** ** Configuration of drop counters *)

Definition getDropcountersCapabilities (args : CmdArgs) (options : OptionMap) : Cmd json :=
  data ← GetMapFromQueries Y [["STATE_DB"; "DEBUG_COUNTER_CAPABILITIES"; "*"]]; mret (JObj data).

Definition getDropCountersReasons (counter_name : string) : Cmd (list string) :=
  r ← try (GetMapFromQueries Y [["CONFIG_DB"; "DEBUG_COUNTER_DROP_REASON"]]);
  mret (match r with
        | Err _ => []
        | Ok data => filter (λ key, head (Split key "|") = Some counter_name) (map_range data).*1
        end).

(** [fields[1]] of a key panics when the key has no bar. *)
Definition reason_of (key : string) : Cmd string := must (Split key "|" !! 1).

Definition counter_columns : list (string * string) :=
  [("group", "group"); ("type", "type"); ("description", "desc"); ("drop_monitor_status", "drop_monitor_status");
   ("window", "window"); ("drop_count_threshold", "drop_count_threshold");
   ("incident_count_threshold", "incident_count_threshold")].

Definition counter_metadata (counter_name : string) (attributes : msi) : Cmd row :=
  keys ← getDropCountersReasons counter_name;
  reasons ← mapC reason_of (sort_Strings keys);
  mret (row_of (
    [("name", counter_name); ("alias", GetValueOrDefault attributes "alias" counter_name);
     ("reason", match reasons with [] => "None" | _ => Join reasons "," end)] ++
    ((λ '(c, f), (c, GetValueOrDefault attributes f "N/A")) <$> counter_columns))).

Definition getDropCountersConfiguration (args : CmdArgs) (options : OptionMap) : Cmd json :=
  let group := default "" (ov_String (opt_get options "group")) in
  config_table ← GetMapFromQueries Y [["CONFIG_DB"; "DEBUG_COUNTER"]];
  result ← for_each (λ result counter_name,
    attributes ← must (config_table !! counter_name ≫= as_map);
    if negb (bool_decide (group = "")) && negb (bool_decide (attributes !! "group" = Some (JStr group))) then mret result
    else md ← counter_metadata counter_name attributes; mret (result ++ [md])) []
    (sort_Strings (map_range config_table).*1);
  mret (rows_doc result).

(** ** Queues *)

Definition queue_fields : list (string * string) :=
  [("Counter/pkts", "SAI_QUEUE_STAT_PACKETS"); ("Counter/bytes", "SAI_QUEUE_STAT_BYTES");
   ("Drop/pkts", "SAI_QUEUE_STAT_DROPPED_PACKETS"); ("Drop/bytes", "SAI_QUEUE_STAT_DROPPED_BYTES")].
Definition trim_fields : list (string * string) :=
  [("Trim/pkts", "SAI_QUEUE_STAT_TRIM_PACKETS"); ("TrimSent/pkts", "SAI_QUEUE_STAT_TX_TRIM_PACKETS");
   ("TrimDrop/pkts", "SAI_QUEUE_STAT_DROPPED_TRIM_PACKETS")].
Definition wred_fields : list (string * string) :=
  [("WredDrp/pkts", "SAI_QUEUE_STAT_WRED_DROPPED_PACKETS"); ("WredDrp/bytes", "SAI_QUEUE_STAT_WRED_DROPPED_BYTES");
   ("EcnMarked/pkts", "SAI_QUEUE_STAT_WRED_ECN_MARKED_PACKETS");
   ("EcnMarked/bytes", "SAI_QUEUE_STAT_WRED_ECN_MARKED_BYTES")].

Definition queue_columns (onlyTrim onlyWred : bool) : list (string * string) :=
  if onlyWred then wred_fields else if onlyTrim then trim_fields
  else queue_fields ++ trim_fields ++ wred_fields.

(** The structures whose empty fields are omitted keep the counters that are
    not 0. *)
Definition queue_row (onlyNonZero : bool) (cols : list (string * string)) (counters : msi) : row :=
  if onlyNonZero then
    row_of (omap (λ '(c, f), let v := GetNonZeroValueOrEmpty counters f in
                             if bool_decide (v = "") then None else Some (c, v)) cols)
  else row_of ((λ '(c, f), (c, GetValueOrDefault counters f DefaultMissingCounterValue)) <$> cols).

Definition queue_mapping (onlyNonZero onlyTrim onlyWred : bool) (queueCounters : msi) : gmap string row :=
  map_imap (λ queue counters,
    if HasSuffix queue "periodic" then None
    else queue_row onlyNonZero (queue_columns onlyTrim onlyWred) <$> as_map counters) queueCounters.

Definition getQueueCountersMappingNonZero (queueCounters : msi) (onlyTrim onlyWred : bool) : gmap string row :=
  queue_mapping true onlyTrim onlyWred queueCounters.
Definition getQueueCountersMapping (queueCounters : msi) (onlyTrim onlyWred : bool) : gmap string row :=
  queue_mapping false onlyTrim onlyWred queueCounters.

(** One query per interface, or one for all. *)
Definition queue_queries (table : string) (ifaces : list string) : list (list string) :=
  match ifaces with
  | [] => [["COUNTERS_DB"; table; "Ethernet*"; "Queues"]]
  | _ => (λ i, ["COUNTERS_DB"; table; i; "Queues"]) <$> ifaces
  end.

Definition getQueueCountersSnapshot (ifaces : list string) (onlyNonZero onlyTrim onlyWred : bool) : Cmd (gmap string row) :=
  queryMap ← GetMapFromQueries Y (queue_queries "COUNTERS" ifaces);
  queueCounters ← RemapAliasToPortNameForQueues Y queryMap;
  mret (if onlyNonZero then getQueueCountersMappingNonZero queueCounters onlyTrim onlyWred
        else getQueueCountersMapping queueCounters onlyTrim onlyWred).

Fixpoint dedup (seen : gset string) (input : list string) : list string :=
  match input with
  | [] => []
  | x :: input => if bool_decide (x ∈ seen) then dedup seen input else x :: dedup ({[x]} ∪ seen) input
  end.
Definition removeDuplicates (input : list string) : list string := dedup ∅ input.

Definition getRequestedInterfaces (args : CmdArgs) (options : OptionMap) : list string :=
  let ifaces := default [] (ov_Strings (opt_get options "interfaces")) in
  let arg_iface := args_At args 0 in
  removeDuplicates (if bool_decide (arg_iface = "") then ifaces else ifaces ++ [arg_iface]).

Definition bool_option (options : OptionMap) (name : string) : bool := default false (ov_Bool (opt_get options name)).

Definition getQueueCounters (args : CmdArgs) (options : OptionMap) : Cmd json :=
  snapshot ← getQueueCountersSnapshot (getRequestedInterfaces args options) (bool_option options "nonzero")
               (bool_option options "trim") false;
  mret (JObj (row_doc <$> snapshot)).

Definition getQueueWredCounters (args : CmdArgs) (options : OptionMap) : Cmd json :=
  snapshot ← getQueueCountersSnapshot (getRequestedInterfaces args options) (bool_option options "nonzero") false true;
  mret (JObj (row_doc <$> snapshot)).

(** ** Watermarks *)

Inductive queue_types := ALL | UNICAST | MULTICAST.

Definition type_wanted (requested : queue_types) (qtype : string) : bool :=
  match requested with
  | ALL => true
  | UNICAST => bool_decide (qtype = "UC")
  | MULTICAST => bool_decide (qtype = "MC")
  end.

(** One turn of the loop: the port gets a row even if the type of the queue is
    not known; [port_qindex[1]] panics when the key has no separator. *)
Definition add_watermark (types : gmap string string) (requested : queue_types) (sep : string)
    (response : gmap string row) (e : string * json) : Cmd (gmap string row) :=
  let '(queue, watermark) := e in
  match as_map watermark with
  | None => mret response
  | Some watermarkMap =>
      let parts := SplitAny queue sep in
      port ← must (parts !! 0);
      let response := match response !! port with Some _ => response | None => <[port := ∅]> response end in
      match types !! queue with
      | None => mret response
      | Some qtype =>
          if type_wanted requested qtype then
            qindex ← must (parts !! 1);
            mret (<[port := <[qtype +:+ qindex := GetValueOrDefault watermarkMap
                     "SAI_QUEUE_STAT_SHARED_WATERMARK_BYTES" DefaultMissingCounterValue]>
                   (default ∅ (response !! port))]> response)
          else mret response
      end
  end.

Definition getQueueWatermarksSnapshot (ifaces : list string) (requested : queue_types) (watermarkType : string)
  : Cmd (gmap string row) :=
  queueWatermarks ← GetMapFromQueries Y (queue_queries watermarkType ifaces);
  sep ← CountersDBSeparator Y;
  types ← (λ s, (s, Ok (countersQueueTypeMap s)));
  for_each (add_watermark types requested sep) ∅ (map_range queueWatermarks).

(** The types are loaded while the map is empty; a failed load leaves it nil. *)
Definition load_queue_types : Cmd () := λ s,
  if bool_decide (countersQueueTypeMap s = ∅) then
    let '(g, r) := GetCountersQueueTypeMap (sys_env Y) (name_maps s) in
    let s := set_maps g s in
    match r with
    | Ok m => (set_queue_types m s, Ok ())
    | Err e => (set_queue_types ∅ s, of_gerr (Err e))
    end
  else (s, Ok ()).

Definition getQueueWatermarksCommon (options : OptionMap) (requested : queue_types) (watermarkType : string) : Cmd json :=
  _ ← load_queue_types;
  snapshot ← getQueueWatermarksSnapshot (default [] (ov_Strings (opt_get options "interfaces"))) requested watermarkType;
  mret (JObj (row_doc <$> snapshot)).

Definition getQueueUserWatermarks : json := JObj {["subcommands" := row_doc (row_of
  [("all", "show/queue/watermark/all"); ("unicast", "show/queue/watermark/unicast");
   ("multicast", "show/queue/watermark/multicast")])]}.
Definition getQueuePersistentWatermarks : json := JObj {["subcommands" := row_doc (row_of
  [("all", "show/queue/persistent-watermark/all"); ("unicast", "show/queue/persistent-watermark/unicast");
   ("multicast", "show/queue/persistent-watermark/multicast")])]}.

Definition getQueueUserWatermarksAll (args : CmdArgs) (options : OptionMap) : Cmd json :=
  getQueueWatermarksCommon options ALL "USER_WATERMARKS".
Definition getQueueUserWatermarksUnicast (args : CmdArgs) (options : OptionMap) : Cmd json :=
  getQueueWatermarksCommon options UNICAST "USER_WATERMARKS".
Definition getQueueUserWatermarksMulticast (args : CmdArgs) (options : OptionMap) : Cmd json :=
  getQueueWatermarksCommon options MULTICAST "USER_WATERMARKS".
Definition getQueuePersistentWatermarksAll (args : CmdArgs) (options : OptionMap) : Cmd json :=
  getQueueWatermarksCommon options ALL "PERSISTENT_WATERMARKS".
Definition getQueuePersistentWatermarksUnicast (args : CmdArgs) (options : OptionMap) : Cmd json :=
  getQueueWatermarksCommon options UNICAST "PERSISTENT_WATERMARKS".
Definition getQueuePersistentWatermarksMulticast (args : CmdArgs) (options : OptionMap) : Cmd json :=
  getQueueWatermarksCommon options MULTICAST "PERSISTENT_WATERMARKS".

(** ** Buffer pools *)

Definition loadBufferPoolNameMap : Cmd (gmap string string) :=
  r ← try (GetMapFromQueries Y [["COUNTERS_DB"; "COUNTERS_BUFFER_POOL_NAME_MAP"]]);
  match r with
  | Err _ => fail (PlainErr "Get buffer pool name map failed")
  | Ok nameMap =>
      let poolToOid := omap (λ v, match v with
                                  | JStr s => if HasPrefix s "oid:" then Some s else None
                                  | _ => None
                                  end) nameMap in
      if bool_decide (poolToOid = ∅) then fail (PlainErr "No buffer pool OIDs extracted") else mret poolToOid
  end.

Definition pool_bytes (tableName fieldName oid : string) : Cmd string :=
  r ← try (GetMapFromQueries Y [["COUNTERS_DB"; tableName; oid]]);
  mret (match r with Ok data => GetValueOrDefault data fieldName DefaultMissingCounterValue
                   | Err _ => DefaultMissingCounterValue end).

Definition collectBufferPoolWatermarks (pools : gmap string string) (tableName fieldName : string) : Cmd (gmap string row) :=
  for_each (λ result '(pool, oid),
    bytes ← pool_bytes tableName fieldName oid; mret (<[pool := {["Bytes" := bytes]}]> result)) ∅ (map_range pools).

Definition watermark_table (persistent : bool) : string :=
  if persistent then "PERSISTENT_WATERMARKS" else "USER_WATERMARKS".

Definition getBufferPoolWatermarkByType (persistent : bool) : Cmd json :=
  poolToOid ← loadBufferPoolNameMap;
  result ← collectBufferPoolWatermarks poolToOid (watermark_table persistent) "SAI_BUFFER_POOL_STAT_WATERMARK_BYTES";
  mret (JObj (row_doc <$> result)).

Definition getBufferPoolWatermark (args : CmdArgs) (options : OptionMap) : Cmd json := getBufferPoolWatermarkByType false.
Definition getBufferPoolPersistentWatermark (args : CmdArgs) (options : OptionMap) : Cmd json :=
  getBufferPoolWatermarkByType true.

Definition getHeadroomPoolWatermarkByType (persistent : bool) : Cmd json :=
  poolToOid ← loadBufferPoolNameMap;
  let filtered := filter (λ e, Contains e.1 "ingress_lossless" = true) poolToOid in
  result ← collectBufferPoolWatermarks filtered (watermark_table persistent)
             "SAI_BUFFER_POOL_STAT_XOFF_ROOM_WATERMARK_BYTES";
  mret (JObj (row_doc <$> result)).

Definition getHeadroomPoolWatermark (args : CmdArgs) (options : OptionMap) : Cmd json := getHeadroomPoolWatermarkByType false.
Definition getHeadroomPoolPersistentWatermark (args : CmdArgs) (options : OptionMap) : Cmd json :=
  getHeadroomPoolWatermarkByType true.

(** ** Port channels *)

Record teamShow := {
  cfgPC : msi; stateLag : msi; applLag : msi; stateLagMem : msi; applLagMem : msi; aliasMode : bool
}.

(** The part of a key after the first bar, if it names a port channel. *)
Definition portchannel_name (k : string) : option string :=
  let name := match SplitN2 k "|" with _ :: rest :: _ => rest | _ => k end in
  if HasPrefix name "PortChannel" then Some name else None.

Definition getPortchannelNames (t : teamShow) : list string := omap portchannel_name (map_range (cfgPC t)).*1.

Definition getPortchannelStatus (t : teamShow) (pc : string) : json :=
  let active := bool_decide (GetFieldValueString (stateLag t) pc "" "runner.active" = "true") in
  let oper := ToLower (GetFieldValueString (applLag t) pc "" "oper_status") in
  JObj {["name" := JStr "LACP"; "active" := JBool active;
         "operational_status" := JStr (if bool_decide (oper = "up") || bool_decide (oper = "down") then oper else "N/A")]}.

Definition getPortchannelMemberStatus (t : teamShow) (pc member : string) : bool * string :=
  (bool_decide (GetFieldValueString (stateLagMem t) (pc +:+ "|" +:+ member) "" "runner.aggregator.selected" = "true"),
   GetFieldValueString (applLagMem t) (pc +:+ ":" +:+ member) "" "status").

Definition unsynced (selected : bool) (status : string) : bool :=
  bool_decide (status = "") || (bool_decide (status = "enabled") && negb selected) ||
  (bool_decide (status = "disabled") && selected).

Definition member_names (t : teamShow) (pc : string) : list string :=
  sort_Strings (omap (λ k, if HasPrefix k (pc +:+ "|") then Some (TrimPrefix k (pc +:+ "|")) else None)
                  (map_range (stateLagMem t)).*1).

Definition getPortchannelMembers (t : teamShow) (pc : string) (mode : InterfaceNamingMode) : Cmd (list json) :=
  mapC (λ mem,
    let '(selected, status) := getPortchannelMemberStatus t pc mem in
    display ← (if aliasMode t then GetInterfaceNameForDisplay Y mem mode else mret mem);
    mret (JObj {["name" := JStr display; "selected" := JBool selected; "status" := JStr status;
                 "in_sync" := JBool (negb (unsynced selected status))]})) (member_names t pc).

Definition getTeamID (team : string) : string :=
  if HasPrefix team "PortChannel" && bool_decide (String.length "PortChannel" < String.length team)
  then str_drop (String.length "PortChannel") team else team.

Definition getTeamshowResult (t : teamShow) (mode : InterfaceNamingMode) : Cmd (gmap string json) :=
  for_each (λ res pc,
    members ← getPortchannelMembers t pc mode;
    mret (<[getTeamID pc := JObj {["Team Dev" := JStr pc; "Protocol" := getPortchannelStatus t pc;
                                   "Ports" := JArr members]}]> res)) ∅ (getPortchannelNames t).

Definition getInterfacePortchannel (args : CmdArgs) (options : OptionMap) : Cmd json :=
  mode ← returns (ParseInterfaceNamingMode (default "" (ov_String (opt_get options SonicCliIfaceMode))));
  cfgPC ← GetMapFromQueries Y [["CONFIG_DB"; "PORTCHANNEL"]];
  stateLag ← GetMapFromQueries Y [["STATE_DB"; "LAG_TABLE"]];
  applLag ← GetMapFromQueries Y [["APPL_DB"; "LAG_TABLE"]];
  stateLagMember ← GetMapFromQueries Y [["STATE_DB"; "LAG_MEMBER_TABLE"]];
  applLagMember ← GetMapFromQueries Y [["APPL_DB"; "LAG_MEMBER_TABLE"]];
  result ← getTeamshowResult {| cfgPC := cfgPC; stateLag := stateLag; applLag := applLag;
    stateLagMem := stateLagMember; applLagMem := applLagMember; aliasMode := bool_decide (mode = Alias) |} mode;
  mret (JObj result).
End stats.

(** * What the statistics commands show

    Drop counters are differences to the checkpoint as long as their headers
    are distinct, the caches of one command agree with each other, and the
    option that leaves out zeros leaves out nothing else. *)

Section facts.
Context {Sw : Swss} {MR : MapRange} {JCo : JsonCodec} {Fmt : GoFmt} {NS : NatSort} {JI : JsonInt}.
Notation msi := (gmap string json).

(** ** Drop counters *)

Definition header (headmap : gmap string string) (ctr : string) : string :=
  match headmap !! ctr with Some a => if bool_decide (a = "") then ctr else a | None => ctr end.

Definition growth (counts ckpt : gmap string Z) (ctr : string) : string :=
  FormatInt (to_int64 (GetOrDefault counts ctr 0%Z - GetOrDefault ckpt ctr 0%Z)).

Lemma drop_row_fold counters headmap counts ckpt state :
  drop_row counters headmap counts ckpt state =
  foldl (λ r ctr, <[header headmap ctr := growth counts ckpt ctr]> r) {["State" := state]} counters.
Proof. done. Qed.

Lemma insert_headers_lookup (h g : string → string) (r : row) l k :
  foldl (λ r x, <[h x := g x]> r) r l !! k =
  match last (filter (λ x, h x = k) l) with Some x => Some (g x) | None => r !! k end.
Proof.
  induction l as [|x l IH] using rev_ind; [done|].
  rewrite foldl_app, filter_app. simpl. destruct (decide (h x = k)) as [<-|Hne].
  - rewrite lookup_insert_eq, filter_cons_True, filter_nil by done. by rewrite last_snoc.
  - rewrite lookup_insert_ne by done. rewrite filter_cons_False, filter_nil, (right_id_L [] (++)) by done. apply IH.
Qed.

(** The row of a port has one column per counter with its growth since
    the checkpoint, wrapped to 64 bits and not clamped, and the state, provided
    that no two counters and no counter and the state have the same header;
    when two counters share an alias, the later one in the list hides the
    earlier one. *)
Theorem drop_row_columns counters headmap counts ckpt state :
  let r := drop_row counters headmap counts ckpt state in
  (∀ ctr, ctr ∈ counters →
     (∀ c, c ∈ counters → header headmap c = header headmap ctr → c = ctr) →
     r !! header headmap ctr = Some (growth counts ckpt ctr)) ∧
  ((∀ c, c ∈ counters → header headmap c ≠ "State") → r !! "State" = Some state) ∧
  (∀ l c1 c2, counters = l ++ [c1; c2] → header headmap c1 = header headmap c2 →
     r !! header headmap c1 = Some (growth counts ckpt c2)).
Proof.
  cbv zeta. rewrite drop_row_fold. split_and!.
  - intros ctr Hin Huniq. rewrite insert_headers_lookup.
    destruct (last _) as [x|] eqn:El.
    + apply last_Some_elem_of, list_elem_of_filter in El as [Hx Hxin]. by rewrite (Huniq x).
    + apply last_None in El. exfalso. assert (ctr ∈ filter (λ x, header headmap x = header headmap ctr) counters) as Hc
        by (by apply list_elem_of_filter). rewrite El in Hc. by apply elem_of_nil in Hc.
  - intros Hs. rewrite insert_headers_lookup. destruct (last _) as [x|] eqn:El; [|by rewrite lookup_singleton_eq].
    apply last_Some_elem_of, list_elem_of_filter in El as [Hx Hxin]. by destruct (Hs x).
  - intros l c1 c2 -> Hh. rewrite insert_headers_lookup. rewrite filter_app.
    rewrite filter_cons_True, filter_cons_True, filter_nil by done.
    change [c1; c2] with ([c1] ++ [c2]). rewrite app_assoc. by rewrite last_snoc.
Qed.

(** ** The caches *)

(** Every reversed map is the reverse of the map that is cached beside it. *)
Definition caches_agree (s : ShowState) : Prop :=
  ∀ k r, reverseStatLookupCache s !! k = Some r → ∃ m, statLookupCache s !! k = Some m ∧ r = reverse_map m.

Lemma query_keeps_caches Y q s s' r :
  GetMapFromQueries Y q s = (s', r) →
  statLookupCache s' = statLookupCache s ∧ reverseStatLookupCache s' = reverseStatLookupCache s.
Proof.
  assert (∀ q s, statLookupCache (query_paths Y q s).1 = statLookupCache s ∧
                 reverseStatLookupCache (query_paths Y q s).1 = reverseStatLookupCache s) as Hq.
  { intros q0 s0. unfold query_paths, PopulateTablePaths. destruct q0 as [|a [|b l]]; [done|done|].
    case_bool_decide; [done|]. by destruct (populateDbtablePath _ _ _ _) as [g [x|[]]]. }
  assert (∀ queries acc s s' r, for_each (λ allPaths q, query_paths Y q ≫= λ tablePaths, mret (allPaths ++ tablePaths)) acc queries s = (s', r) →
    statLookupCache s' = statLookupCache s ∧ reverseStatLookupCache s' = reverseStatLookupCache s) as Hl.
  { induction queries as [|q0 queries IH]; intros acc s0 s1 r1; simpl; [by intros [= <- <-]|].
    rewrite bind_Cmd_run, bind_Cmd_run. pose proof (Hq q0 s0) as [H1 H2].
    destruct (query_paths Y q0 s0) as [s2 [a|e]]; simpl in *.
    - intros H%IH. destruct H. by rewrite H1, H2 in *.
    - by intros [= <- <-]. }
  assert (∀ tps (acc : msi) s s' r, for_each (λ m tp s, (s, of_gerr (TableData2Msi (Target2RedisDb (sys_env Y)) tp false None m))) acc tps s = (s', r) → s' = s) as Ht.
  { induction tps as [|tp tps IH]; intros acc s0 s1 r1; simpl; [by intros [= <- <-]|].
    rewrite bind_Cmd_run. destruct (of_gerr _); [apply IH|by intros [= <- <-]]. }
  unfold GetMapFromQueries. rewrite bind_Cmd_run.
  destruct (CreateTablePathsFromQueries Y q s) as [s1 [tps|e]] eqn:E; apply Hl in E as [H1 H2].
  - intros Hr%Ht. by subst.
  - intros [= <- <-]. done.
Qed.

Lemma read_stat_map_caches Y k s s' r :
  read_stat_map Y k s = (s', r) →
  statLookupCache s' = statLookupCache s ∧ reverseStatLookupCache s' = reverseStatLookupCache s.
Proof.
  unfold read_stat_map. rewrite bind_Cmd_run. unfold try.
  destruct (GetMapFromQueries Y _ s) as [s1 x] eqn:E. apply query_keeps_caches in E as [H1 H2].
  destruct x as [m|[e|]]; intros [= <- <-]; done.
Qed.

(** Looking up a map of statistics and its reverse, in any order and with
    the database changing in between, keeps the two caches in agreement: what
    one command shows under a configured name is the statistic with that
    name. *)
Theorem caches_stay_agreed Y k s :
  caches_agree s →
  caches_agree (GetStatLookup Y k s).1 ∧ caches_agree (GetReverseStatLookup Y k s).1 ∧
  (∀ r, (GetReverseStatLookup Y k s).2 = Ok r →
     ∃ m, statLookupCache (GetReverseStatLookup Y k s).1 !! k = Some m ∧ r = reverse_map m) ∧
  (∀ m Y', (GetStatLookup Y k s).2 = Ok m → GetStatLookup Y' k (GetStatLookup Y k s).1 = ((GetStatLookup Y k s).1, Ok m)).
Proof.
  intros Ha. split_and!.
  - unfold GetStatLookup. destruct (statLookupCache s !! k) as [v|] eqn:Ek; [done|].
    destruct (read_stat_map Y k s) as [s1 [m|e]] eqn:E; apply read_stat_map_caches in E as [H1 H2]; cbn [fst].
    + intros k' r. cbn. rewrite H2. intros (m' & Hm' & ->)%Ha. exists m'. rewrite H1.
      destruct (decide (k' = k)) as [->|Hne]; [congruence|]. by rewrite lookup_insert_ne.
    + intros k' r. rewrite H2. intros (m' & Hm' & ->)%Ha. exists m'. by rewrite H1.
  - unfold GetReverseStatLookup. destruct (reverseStatLookupCache s !! k) as [v|] eqn:Ek; [done|].
    destruct (match statLookupCache s !! k with Some m => (s, Ok m) | None => read_stat_map Y k s end) as [s1 [m|e]] eqn:E.
    + assert (statLookupCache s1 = statLookupCache s ∧ reverseStatLookupCache s1 = reverseStatLookupCache s) as [H1 H2]
        by (destruct (statLookupCache s !! k); [by simplify_eq|by apply read_stat_map_caches in E]).
      cbn [fst]. intros k' r. cbn. destruct (decide (k' = k)) as [->|Hne].
      * rewrite !lookup_insert_eq. intros [= <-]. by eauto.
      * rewrite !lookup_insert_ne by done. rewrite H2. intros (m' & Hm' & ->)%Ha. exists m'. by rewrite H1.
    + assert (statLookupCache s1 = statLookupCache s ∧ reverseStatLookupCache s1 = reverseStatLookupCache s) as [H1 H2]
        by (destruct (statLookupCache s !! k); [by simplify_eq|by apply read_stat_map_caches in E]).
      cbn [fst]. intros k' r. rewrite H2. intros (m' & Hm' & ->)%Ha. exists m'. by rewrite H1.
  - intros r. unfold GetReverseStatLookup. destruct (reverseStatLookupCache s !! k) as [v|] eqn:Ek.
    + cbn. intros [= <-]. by apply Ha.
    + destruct (match statLookupCache s !! k with Some m => (s, Ok m) | None => read_stat_map Y k s end) as [s1 [m|e]];
        cbn; [|done]. intros [= <-]. exists m. by rewrite lookup_insert_eq.
  - intros m Y'. unfold GetStatLookup at 1 3 4. destruct (statLookupCache s !! k) as [v|] eqn:Ek.
    + cbn. intros [= <-]. unfold GetStatLookup. by rewrite Ek.
    + destruct (read_stat_map Y k s) as [s1 [m'|e]]; cbn; [|done]. intros [= <-]. unfold GetStatLookup. cbn.
      by rewrite lookup_insert_eq.
Qed.

(** ** Queues *)

Lemma queue_columns_nodup t w : NoDup (queue_columns t w).*1.
Proof. destruct t, w; apply (bool_decide_unpack _); vm_compute; exact I. Qed.

(** A counter that is an integer other than 0. *)
Definition nonzero (v : string) : bool := (ParseInt v).2 && negb (bool_decide ((ParseInt v).1 = 0%Z)).

Lemma missing_is_zero : nonzero DefaultMissingCounterValue = false.
Proof. vm_compute. reflexivity. Qed.

Lemma nonzero_value counters f :
  GetNonZeroValueOrEmpty counters f =
  let v := GetValueOrDefault counters f DefaultMissingCounterValue in if nonzero v then v else "".
Proof.
  unfold GetNonZeroValueOrEmpty, GetValueOrDefault. destruct (counters !! f) as [v|]; simpl; [|done].
  unfold nonzero. destruct (ParseInt (Sprintv v)) as [n ok]. simpl. destruct ok; simpl; [|done].
  by case_bool_decide; case_bool_decide.
Qed.

Lemma nonzero_not_empty v : nonzero v = true → v ≠ "".
Proof. by intros H ->. Qed.

Lemma queue_row_columns cols (counters : msi) :
  row_of (omap (λ '(c, f), let v := GetNonZeroValueOrEmpty counters f in
                           if bool_decide (v = "") then None else Some (c, v)) cols) =
  row_of (filter (λ e, nonzero e.2 = true)
            ((λ '(c, f), (c, GetValueOrDefault counters f DefaultMissingCounterValue)) <$> cols)).
Proof.
  f_equal. set (g := λ '(c, f), _). induction cols as [|[c f] cols IH]; [done|].
  rewrite fmap_cons, filter_cons. cbn [snd].
  transitivity (match g (c, f) with Some y => y :: omap g cols | None => omap g cols end); [done|].
  subst g. cbv beta iota zeta. rewrite nonzero_value. cbv zeta.
  destruct (nonzero (GetValueOrDefault counters f DefaultMissingCounterValue)) eqn:E.
  - rewrite bool_decide_false by (by apply nonzero_not_empty). rewrite decide_True by done. by rewrite IH.
  - rewrite bool_decide_true by done. rewrite decide_False by done. done.
Qed.

Lemma row_of_filter (p : string → bool) l :
  NoDup l.*1 → row_of (filter (λ e, p e.2 = true) l) = filter (λ e, p e.2 = true) (row_of l).
Proof.
  unfold row_of. induction l as [|[k v] l IH]; intros Hn; [symmetry; apply map_filter_empty|].
  rewrite fmap_cons in Hn. apply NoDup_cons in Hn as [Hk Hn]. rewrite filter_cons, list_to_map_cons. cbn [snd].
  case_decide.
  - rewrite list_to_map_cons, map_filter_insert_True by done. by rewrite IH.
  - rewrite map_filter_insert_False by done. rewrite delete_id by (by apply not_elem_of_list_to_map_1). by apply IH.
Qed.

(** With the option that leaves out zeros, a command on queues shows the
    same queues, and of each exactly the columns whose value is an integer
    other than 0 in the reply without the option. *)
Theorem nonzero_option queueCounters onlyTrim onlyWred :
  getQueueCountersMappingNonZero queueCounters onlyTrim onlyWred =
  (λ r, filter (λ e, nonzero e.2 = true) r) <$> getQueueCountersMapping queueCounters onlyTrim onlyWred.
Proof.
  apply map_eq. intros q. unfold getQueueCountersMappingNonZero, getQueueCountersMapping, queue_mapping.
  rewrite lookup_fmap, !map_lookup_imap. destruct (queueCounters !! q) as [c|]; simpl; [|done].
  destruct (HasSuffix q "periodic"); [done|]. destruct (as_map c) as [m|]; simpl; [|done]. f_equal.
  unfold queue_row. rewrite queue_row_columns.
  apply (row_of_filter nonzero).
  assert (((λ '(c0, f), (c0, GetValueOrDefault m f DefaultMissingCounterValue)) <$> queue_columns onlyTrim onlyWred).*1 =
          (queue_columns onlyTrim onlyWred).*1) as ->; [|apply queue_columns_nodup].
  rewrite <- list_fmap_compose. apply list_fmap_ext. by intros ? [] _.
Qed.

(** A request for interfaces asks for each of them once, in the order in
    which they were first named. *)
Theorem requested_once l :
  NoDup (removeDuplicates l) ∧ (∀ x, x ∈ removeDuplicates l ↔ x ∈ l) ∧ removeDuplicates l `sublist_of` l.
Proof.
  assert (∀ seen, NoDup (dedup seen l) ∧ (∀ x, x ∈ dedup seen l ↔ x ∈ l ∧ x ∉ seen) ∧ dedup seen l `sublist_of` l) as H.
  { induction l as [|y l IH]; intros seen; simpl.
    - split_and!; [constructor| |constructor]. intros x. rewrite elem_of_nil. tauto.
    - case_bool_decide as Hy.
      + destruct (IH seen) as (H1 & H2 & H3). split_and!; [done| |by constructor].
        intros x. rewrite H2, elem_of_cons. split; [tauto|]. intros [[->|?] ?]; tauto.
      + destruct (IH ({[y]} ∪ seen)) as (H1 & H2 & H3). split_and!.
        * constructor; [|done]. rewrite H2. set_solver.
        * intros x. rewrite !elem_of_cons, H2, elem_of_union, elem_of_singleton.
          destruct (decide (x = y)) as [->|]; tauto.
        * by constructor. }
  destruct (H ∅) as (H1 & H2 & H3). split_and!; [done| |done].
  intros x. unfold removeDuplicates. rewrite H2. set_solver.
Qed.
End facts.
