(* ===== verification/ShowHost.v ===== *)
(** * SHOW commands that run programs of the host
      (src/show_client/common/{exec,fdb_data}.go, src/show_client/{kdump,
      arp_cli,ndp_cli,services_cli,uptime_cli}.go)

    A program is run in the namespaces of process 1: the command is one string
    that the library shlex splits into words, and what the string contains is
    what the caller pasted into it.  shlex, the programs and the parsers of
    package net are parameters.  In a document that a command writes, [JNum] is
    the integer itself. *)
From Stdlib Require Import Ascii.
From stdpp Require Import base gmap list strings pretty.
From S2P Require Import Prelude GoStrings Gnmi Json DbConfig DbConn VirtualDb DbClient Bypass Show ShowLib ShowCounters ShowIntf.

(** [None] is an error. *)
Class HostCmd := {
  shlex_split : string → option (list string);
  run_program : list string → option string
}.

(** [net.ParseIP] and [net.ParseCIDR]: whether [To4] gives an address, and the
    text of the address. *)
Class NetAddr := {
  net_ParseIP : string → option (bool * string);
  net_ParseCIDR : string → option bool
}.

(** [sort.Slice]: equal elements may end in any order. *)
Class SliceSort := {
  sort_Slice : ∀ {A : Type}, (A → A → bool) → list A → list A;
  sort_Slice_perm : ∀ {A : Type} (less : A → A → bool) l, sort_Slice less l ≡ₚ l
}.

Definition newline : string := String (ascii_of_nat 10) "".

Definition is_space (c : ascii) : bool := bool_decide (nat_of_ascii c ∈ [9; 10; 11; 12; 13; 32]).

(** [strings.Fields] of ASCII text *)
Fixpoint fields_go (acc : string) (s : string) : list string :=
  match s with
  | EmptyString => if bool_decide (acc = "") then [] else [acc]
  | String c s =>
      if is_space c then (if bool_decide (acc = "") then fields_go "" s else acc :: fields_go "" s)
      else fields_go (acc +:+ String c "") s
  end.
Definition Fields (s : string) : list string := fields_go "" s.

(** [^prefix(\d+)$] *)
Definition numbered (p s : string) : option string :=
  if HasPrefix s p then
    let rest := str_drop (String.length p) s in
    if digits rest then Some rest else None
  else None.

(** [a < b] *)
Definition str_lt (a b : string) : bool := bool_decide (String.le a b) && negb (bool_decide (a = b)).

(** A descending sort of strings. *)
Definition sort_down (l : list string) : list string := reverse (sort_Strings l).

Section host.
Context {Sw : Swss} {MR : MapRange} {JCo : JsonCodec} {Fmt : GoFmt} {H : HostCmd} {NA : NetAddr} {SS : SliceSort}.
Variable Y : Sys.
Notation msi := (gmap string json).

(** ** Running a program *)

Definition base_args : list string :=
  ["nsenter"; "--target"; "1"; "--pid"; "--mount"; "--uts"; "--ipc"; "--net"; "--"].

Definition GetDataFromHostCommand (command : string) : option string :=
  commandParts ← shlex_split command; run_program (base_args ++ commandParts).

Definition GetUptime (params : list string) : string :=
  let uptimeCommand := foldl (λ c p, c +:+ " " +:+ p) "uptime" params in
  match GetDataFromHostCommand uptimeCommand with Some u => TrimSpace u | None => "N/A" end.

Definition getUptime (args : CmdArgs) (options : OptionMap) : Cmd json :=
  mret (row_doc {["uptime" := TrimSuffix (GetUptime ["-p"]) newline]}).

(** ** Kernel dumps *)

Definition KDUMP_CONFIG_STATUS_CMD : string := "/usr/sbin/kdump-config status".
Definition FIND_KDUMP_CMD : string := "find /var/crash -name 'kdump.*'".
Definition FIND_DMESG_CMD : string := "find /var/crash -name 'dmesg.*'".

Definition getKdumpConfigData (fieldName : string) : Cmd string :=
  r ← try (GetMapFromQueries Y [["CONFIG_DB"; "KDUMP"]]);
  mret (match r with Ok rawData => GetFieldValueString rawData "config" "Unknown" fieldName | Err _ => "Unknown" end).

Definition getKdumpOperMode : string :=
  match GetDataFromHostCommand KDUMP_CONFIG_STATUS_CMD with
  | None => "Not Ready"
  | Some output => if existsb (λ line, Contains line ": ready to kdump") (Split output newline) then "Ready" else "Not Ready"
  end.

Definition getKdumpConfig (args : CmdArgs) (options : OptionMap) : Cmd json :=
  adminEnabled ← getKdumpConfigData "enabled";
  let adminMode := if bool_decide (adminEnabled = "true") then "Enabled" else "Disabled" in
  let operMode := getKdumpOperMode in
  let operModeDisplay := if bool_decide (adminMode = "Enabled") && bool_decide (operMode = "Not Ready")
                         then "Ready after reboot" else operMode in
  memory ← getKdumpConfigData "memory";
  num_dumps ← getKdumpConfigData "num_dumps";
  remote ← getKdumpConfigData "remote";
  '(connection, key) ← (if bool_decide (remote = "true") then
      s ← getKdumpConfigData "ssh_string"; p ← getKdumpConfigData "ssh_path"; mret (s, p)
    else mret ("connection_string not found", "ssh_key not found"));
  mret (row_doc (row_of [("administrative_mode", adminMode); ("operational_mode", operModeDisplay);
    ("memory_reservation", memory); ("max_dump_files", num_dumps);
    ("ssh_connection_string", connection); ("ssh_private_key_path", key)])).

(** The files a find command lists, or the message that there are none. *)
Definition found_files (cmd message : string) : string * list string :=
  match GetDataFromHostCommand cmd with
  | None => (message, [])
  | Some output =>
      let files := if bool_decide (TrimSpace output = "") then [] else Split (TrimSpace output) newline in
      (match files with [] => message | _ => "" end, files)
  end.

Definition getKdumpCoreFiles : string * list string := found_files FIND_KDUMP_CMD "No kernel core dump file available!".
Definition getKdumpDmesgFiles : string * list string := found_files FIND_DMESG_CMD "No kernel dmesg file available!".

Definition files_or_message (r : string * list string) : list string := match r.2 with [] => [r.1] | l => l end.

Definition strings_doc (l : list string) : json := JArr (JStr <$> l).

Definition getKdumpFiles (args : CmdArgs) (options : OptionMap) : Cmd json :=
  mret (JObj {["kernel_core_dump_files" := strings_doc (sort_down (files_or_message getKdumpCoreFiles));
               "kernel_dmesg_files" := strings_doc (sort_down (files_or_message getKdumpDmesgFiles))]}).

(** The path of a log: its directory is the part of the name after the last
    dot. *)
Definition log_path (filename : string) : option string :=
  match Split filename "." with
  | (_ :: _ :: _) as parts => Some ("/var/crash/" +:+ default "" (last parts) +:+ "/" +:+ filename)
  | _ => None
  end.

Definition tail_cmd (lines filePath : string) : string := "sudo tail -" +:+ lines +:+ " " +:+ filePath.

Definition log_reply (cmd : string) : Cmd json :=
  match GetDataFromHostCommand cmd with
  | None => fail (PlainErr "Failed to read log file")
  | Some output =>
      let logLines := Split (TrimSpace output) newline in
      mret (JObj {["logs" := strings_doc (if bool_decide (logLines = [""]) then [] else logLines)]})
  end.

Definition getKdumpLogging (args : CmdArgs) (options : OptionMap) : Cmd json :=
  let filename := args_At args 0 in
  let lines := match options !! "lines" with Some o => Itoa (default 0%Z (ov_Int o)) | None => "10" end in
  if bool_decide (filename ≠ "") then
    match log_path filename with
    | None => fail (PlainErr ("Invalid filename: " +:+ filename))
    | Some filePath =>
        match GetDataFromHostCommand ("test -f " +:+ filePath) with
        | None => fail (PlainErr ("Invalid filename: " +:+ filename))
        | Some _ => log_reply (tail_cmd lines filePath)
        end
    end
  else
    let '(cmdMessage, dmesgFiles) := getKdumpDmesgFiles in
    match sort_down dmesgFiles with
    | [] => mret (JObj {["logs" := strings_doc [cmdMessage]]})
    | filePath :: _ => log_reply (tail_cmd lines filePath)
    end.

(** ** Forwarding entries *)

Record BridgeMacEntry := { VlanID : Z; fdb_Mac : string; IfName : string }.

Definition oidPrefix : string := "oid:0x".

(** [json.Unmarshal] into a [map[string]string]. *)
Definition decode_strings (v : json) : option (gmap string string) :=
  match v with
  | JNull => Some ∅
  | JObj m => if bool_decide (map_Forall (λ _ x, x = JNull ∨ is_Some (as_string x)) m)
              then Some ((λ x, default "" (as_string x)) <$> m) else None
  | _ => None
  end.

(** The identifier after the prefix. *)
Definition oid_of (s : string) : option string := if HasPrefix s oidPrefix then Some (TrimPrefix s oidPrefix) else None.

Definition isValidIfName (name : string) : bool :=
  existsb (λ p, bool_decide (is_Some (numbered p name))) ["Ethernet"; "PortChannel"; "Vlan"; "eth"].

Definition name_entry (e : string * json) : option (string * string) :=
  match e with
  | (name, JStr oidStr) => if isValidIfName name then (λ oid, (oid, name)) <$> oid_of oidStr else None
  | _ => None
  end.

Definition getInterfaceOidMap : Cmd (gmap string string) :=
  portMap ← GetMapFromQueries Y [["COUNTERS_DB"; "COUNTERS_PORT_NAME_MAP"]];
  lagMap ← GetMapFromQueries Y [["COUNTERS_DB"; "COUNTERS_LAG_NAME_MAP"]];
  mret (insert_all name_entry (insert_all name_entry ∅ (map_range portMap)) (map_range lagMap)).

Definition bridge_entry (e : string * json) : option (string * string) :=
  let '(key, val) := e in
  match SplitN2 key ":" with
  | _ :: rest :: _ =>
      bridgePortOid ← oid_of rest;
      attrs ← as_map val;
      portIdRaw ← Sprintv <$> attrs !! "SAI_BRIDGE_PORT_ATTR_PORT_ID";
      portId ← oid_of portIdRaw;
      Some (bridgePortOid, portId)
  | _ => None
  end.

Definition getBridgePortMap : Cmd (gmap string string) :=
  entries ← GetMapFromQueries Y [["ASIC_DB"; "ASIC_STATE:SAI_OBJECT_TYPE_BRIDGE_PORT:*"]];
  mret (insert_all bridge_entry ∅ (map_range entries)).

Definition bvid_entry (e : string * json) : option (string * string) :=
  let '(key, val) := e in
  if HasPrefix key "SAI_OBJECT_TYPE_VLAN:" then
    ent ← as_map val;
    vlanIDStr ← ent !! "SAI_VLAN_ATTR_VLAN_ID" ≫= as_string;
    Some (TrimPrefix key "SAI_OBJECT_TYPE_VLAN:", vlanIDStr)
  else None.

Definition buildBvidToVlanMap : Cmd (gmap string string) :=
  vlanData ← GetMapFromQueries Y [["ASIC_DB"; "ASIC_STATE:SAI_OBJECT_TYPE_VLAN:*"]];
  mret (insert_all bvid_entry ∅ (map_range vlanData)).

Definition getVlanIDFromBvid (bvid : string) (bvidMap : gmap string string) : option string := bvidMap !! bvid.

Definition fdb_vlan (fdb bvidMap : gmap string string) : option Z :=
  match fdb !! "vlan" with
  | Some v => Atoi v
  | None =>
      bvid ← fdb !! "bvid";
      vlanIDStr ← getVlanIDFromBvid bvid bvidMap;
      if bool_decide (vlanIDStr = "") then None else Atoi vlanIDStr
  end.

(** The entry of one key; [None] where the loop continues. *)
Definition fdb_entry (ifOidMap ifBrOidMap bvidMap : gmap string string) (e : string * json) : option BridgeMacEntry :=
  let '(fdbKey, entryData) := e in
  match SplitN2 fdbKey ":" with
  | _ :: fdbJSON :: _ =>
      if bool_decide (fdbJSON = "") then None
      else
        fdb ← Unmarshal fdbJSON ≫= decode_strings;
        ent ← as_map entryData;
        brPortOidRaw ← ent !! "SAI_FDB_ENTRY_ATTR_BRIDGE_PORT_ID" ≫= as_string;
        brPortOid ← oid_of brPortOidRaw;
        portID ← ifBrOidMap !! brPortOid;
        vlanID ← fdb_vlan fdb bvidMap;
        Some {| VlanID := vlanID; fdb_Mac := default "" (fdb !! "mac"); IfName := default portID (ifOidMap !! portID) |}
  | _ => None
  end.

Definition FetchFDBData : Cmd (list BridgeMacEntry) :=
  fdbEntries ← GetMapFromQueries Y [["ASIC_DB"; "ASIC_STATE:SAI_OBJECT_TYPE_FDB_ENTRY:*"]];
  ifOidMap ← getInterfaceOidMap;
  ifBrOidMap ← getBridgePortMap;
  bvidMap ← buildBvidToVlanMap;
  mret (omap (fdb_entry ifOidMap ifBrOidMap bvidMap) (map_range fdbEntries)).

(** ** ARP *)

Record ARPEntry := { Address : string; MacAddress : string; Iface : string; Vlan : string }.

(** The word after the last "ether". *)
Fixpoint after_word (w : string) (acc : string) (l : list string) : string :=
  match l with
  | [] => acc
  | x :: l' => after_word w (if bool_decide (x = w) then match l' with y :: _ => y | [] => acc end else acc) l'
  end.

Definition nbr_line (line : string) : option (string * string * string) :=
  if negb (Contains line "ether") then None
  else
    let fields := Fields line in
    if bool_decide (length fields < 5) then None
    else Some (default "" (fields !! 0), after_word "ether" "" fields, default "" (last fields)).

Definition parseNbrData (output : string) : list (string * string * string) :=
  omap nbr_line (tail (Split output newline)).

Definition mergeNbrWithFDB (nbrdata : list (string * string * string)) (fdbEntries : list BridgeMacEntry) : list ARPEntry :=
  let lookup := insert_all (λ f, Some (Itoa (VlanID f) +:+ "|" +:+ ToUpper (fdb_Mac f), IfName f)) ∅ fdbEntries in
  (λ '(address, mac, iface),
     match numbered "Vlan" iface with
     | Some vlanid =>
         {| Address := address; MacAddress := mac;
            Iface := default "-" (lookup !! (vlanid +:+ "|" +:+ ToUpper mac)); Vlan := vlanid |}
     | None => {| Address := address; MacAddress := mac; Iface := iface; Vlan := "-" |}
     end) <$> nbrdata.

Definition ParseIPv4 (ipStr : string) : option string :=
  match net_ParseIP ipStr with Some (true, text) => Some text | _ => None end.

(** The command: the address is normalised, the interface is pasted in. *)
Definition arp_command (args : CmdArgs) (options : OptionMap) (mode : InterfaceNamingMode) : Cmd string :=
  cmd ← (if bool_decide (args_At args 0 = "") then mret "/usr/sbin/arp -n"
         else match ParseIPv4 (args_At args 0) with
              | None => fail (PlainErr ("invalid IPv4 address: " +:+ args_At args 0))
              | Some ip => mret ("/usr/sbin/arp -n " +:+ ip)
              end);
  let ifaceStr := default "" (ov_String (opt_get options "iface")) in
  if bool_decide (ifaceStr = "") then mret cmd
  else
    ifaceStr ← (if HasPrefix ifaceStr "PortChannel" || HasPrefix ifaceStr "eth" then mret ifaceStr
                else TryConvertInterfaceNameFromAlias Y ifaceStr mode);
    mret (cmd +:+ " -i " +:+ ifaceStr).

Definition arp_doc (entries : list ARPEntry) : json :=
  JObj {["entries" := JArr ((λ e, row_doc (row_of [("address", Address e); ("mac_address", MacAddress e);
                                                   ("iface", Iface e); ("vlan", Vlan e)])) <$> entries);
         "total_entries" := JNum (Z.of_nat (length entries))]}.

Definition getARP (args : CmdArgs) (options : OptionMap) : Cmd json :=
  mode ← returns (ParseInterfaceNamingMode (default "" (ov_String (opt_get options SonicCliIfaceMode))));
  cmd ← arp_command args options mode;
  match GetDataFromHostCommand cmd with
  | None => fail (PlainErr "command failed")
  | Some rawOutput =>
      if bool_decide (TrimSpace rawOutput = "") then mret (arp_doc [])
      else
        fdbEntries ← FetchFDBData;
        let entries := mergeNbrWithFDB (parseNbrData rawOutput) fdbEntries in
        mret (arp_doc (sort_Slice (λ a b, str_lt (Address a) (Address b)) entries))
  end.

(** ** NDP *)

Record NeighborEntry := { n_Address : string; n_Mac : string; n_Iface : string; n_Vlan : string; n_Status : string }.

Definition ndp_line (bridgeMacList : list BridgeMacEntry) (intf : string) (line : string) : option NeighborEntry :=
  let fields := Fields line in
  if negb (ContainsString fields "lladdr") then None
  else
    let iface := after_word "dev" "" fields in
    let mac := ToUpper (after_word "lladdr" "" fields) in
    let iface := if bool_decide (iface = "") then intf else iface in
    let vlanID := if HasPrefix iface "Vlan" then Atoi (TrimPrefix iface "Vlan") else None in
    let vlan := match vlanID with Some n => Itoa n | None => "-" end in
    let fdb := match vlanID with
               | Some n => if bool_decide (n ≠ 0%Z) && bool_decide (mac ≠ "")
                           then list_find (λ f, VlanID f = n ∧ EqualFold (fdb_Mac f) mac = true) bridgeMacList else None
               | None => None
               end in
    let '(iface, vlan) := match fdb with Some (_, f) => (IfName f, Itoa (VlanID f)) | None => (iface, vlan) end in
    Some {| n_Address := default "" (fields !! 0); n_Mac := mac; n_Iface := iface; n_Vlan := vlan;
            n_Status := default "" (last fields) |}.

(** An error of the forwarding table is only logged. *)
Definition parseNDPOutput (output intf : string) : Cmd (list NeighborEntry) :=
  r ← try FetchFDBData;
  let bridgeMacList := match r with Ok l => l | Err _ => [] end in
  mret (omap (ndp_line bridgeMacList intf) (Split (TrimSpace output) newline)).

Definition ndp_command (args : CmdArgs) (options : OptionMap) : res show_err string :=
  let ip := args_At args 0 in
  let intf := default "" (ov_String (opt_get options "iface")) in
  cmd ← (if bool_decide (ip = "") then Ok "/bin/ip -6 neigh show"
         else match net_ParseCIDR ip with
              | Some true => Err (PlainErr ("IPv4 prefixes not allowed: " +:+ ip))
              | Some false => Ok ("/bin/ip -6 neigh show " +:+ ip)
              | None => match net_ParseIP ip with
                        | Some (false, _) => Ok ("/bin/ip -6 neigh show " +:+ ip)
                        | _ => Err (PlainErr ("invalid IPv6 address: " +:+ ip))
                        end
              end);
  Ok (if bool_decide (intf = "") then cmd else cmd +:+ " dev " +:+ intf).

Definition ndp_doc (entries : list NeighborEntry) : json :=
  JObj {["total_entries" := JNum (Z.of_nat (length entries));
         "entries" := match entries with
                      | [] => JNull
                      | _ => JArr ((λ e, row_doc (row_of [("address", n_Address e); ("mac_address", n_Mac e);
                                ("iface", n_Iface e); ("vlan", n_Vlan e); ("status", n_Status e)])) <$> entries)
                      end]}.

Definition getNDP (args : CmdArgs) (options : OptionMap) : Cmd json :=
  cmd ← returns (ndp_command args options);
  match GetDataFromHostCommand cmd with
  | None => fail (PlainErr "command failed")
  | Some cmdOutput =>
      if bool_decide (TrimSpace cmdOutput = "") then
        mret (JObj {["total_entries" := JNum 0; "entries" := JArr []]})
      else
        table ← parseNDPOutput cmdOutput (default "" (ov_String (opt_get options "iface")));
        mret (ndp_doc table)
  end.

(** ** Services *)

Definition process_columns : list string :=
  ["user"; "pid"; "cpuPercentage"; "memPercentage"; "vsz"; "rss"; "tty"; "stat"; "start"; "time"].

Definition service_process (line : string) : option row :=
  let fields := Fields line in
  if bool_decide (length fields < 11) then None
  else Some (row_of (zip process_columns fields ++ [("command", Join (drop 10 fields) " ")])).

(** An entry per container; one that could not be listed stays empty. *)
Definition service_entry (serviceName : string) : string * list row :=
  match GetDataFromHostCommand ("bash -o pipefail -c " +:+ String (ascii_of_nat 34) ("sudo docker exec " +:+ serviceName
          +:+ " ps aux --no-headers | sed '$d'" +:+ String (ascii_of_nat 34) "")) with
  | None => ("", [])
  | Some out =>
      let crlf := String (ascii_of_nat 13) newline in
      match omap service_process (Split (TrimSpace (ReplaceAll out crlf newline)) newline) with
      | [] => ("", [])
      | processes => (serviceName, processes)
      end
  end.

Definition getServices (args : CmdArgs) (options : OptionMap) : Cmd json :=
  match GetDataFromHostCommand "sudo docker ps --format '{{.Names}}'" with
  | None => fail (PlainErr "Failed to run command")
  | Some out =>
      let crlf := String (ascii_of_nat 13) newline in
      let serviceNames := Split (TrimSpace (ReplaceAll out crlf newline)) newline in
      mret (JArr ((λ '(name, processes), JObj {["dockerProcessName" := JStr name;
        "processes" := match processes with [] => JNull | _ => rows_doc processes end]}) ∘ service_entry <$> serviceNames))
  end.
End host.
