(* ===== verification/ShowTables.v ===== *)
(** * SHOW commands over tables of the databases
      (src/show_client/{mac_cli,vlan_cli,system_health_cli,feature,
      mirror_session,reboot_cause_cli,switch_trimming_global_cli,
      bgp_device-global,srv6_cli,watermark_telemetry_interval,mmu_cli,
      buffer_configuration_cli}.go, src/show_client/common/{mmu_config,redact,
      file}.go, src/show_client/helpers/bgp_global_state_helper.go)

    In a document that a command writes, [JNum] is the integer itself. *)
From stdpp Require Import base gmap sets list strings pretty.
From S2P Require Import Prelude GoStrings Gnmi Json DbConfig DbConn VirtualDb DbClient Bypass Show ShowLib ShowCounters ShowIntf ShowHost.

(** [net.ParseMAC]: whether it accepts the text. *)
Class NetMac := { net_ParseMAC : string → bool }.

Section tables.
Context {Sw : Swss} {MR : MapRange} {JCo : JsonCodec} {Fmt : GoFmt} {NS : NatSort} {SS : SliceSort}
  {NA : NetAddr} {NM : NetMac}.
Variable Y : Sys.
Notation msi := (gmap string json).

(** A field that is there and is not empty, with a suffix, or a default. *)
Definition field_seconds (data : msi) (f d : string) : string :=
  match data !! f with
  | Some v => if bool_decide (v = JNull) || bool_decide (Sprintv v = "") then d else Sprintv v +:+ "s"
  | None => d
  end.

(** ** MAC table *)

Definition getMacAgingTime (args : CmdArgs) (options : OptionMap) : Cmd json :=
  data ← GetMapFromQueries Y [["APPL_DB"; "SWITCH_TABLE"; "switch"]];
  mret (row_doc {["fdb_aging_time" := field_seconds data "fdb_aging_time" "N/A"]}).

Record macEntry := { m_Vlan : Z; m_MacAddress : string; m_Port : string; m_Type : string }.

Definition parseFDBTableKey (k : string) : option (Z * string) :=
  match SplitN2 k ":" with
  | pre :: mac :: _ =>
      if bool_decide (pre = "") || bool_decide (mac = "") then None
      else (λ vlan, (vlan, mac)) <$> Atoi (TrimPrefix pre "Vlan")
  | _ => None
  end.

Record mac_filter := { vlanFilter : Z; portFilter : string; addrFilter : string; typeFilter : string }.

Definition mac_options (options : OptionMap) : mac_filter := {|
  vlanFilter := default (-1)%Z (ov_Int (opt_get options "vlan"));
  portFilter := default "" (ov_String (opt_get options "port"));
  addrFilter := default "" (ov_String (opt_get options "address"));
  typeFilter := default "" (ov_String (opt_get options "type"))
|}.

Definition mac_matches (f : mac_filter) (e : macEntry) : bool :=
  negb (bool_decide (0 ≤ vlanFilter f)%Z && negb (bool_decide (m_Vlan e = vlanFilter f))) &&
  negb (negb (bool_decide (portFilter f = "")) && negb (EqualFold (m_Port e) (portFilter f))) &&
  negb (negb (bool_decide (addrFilter f = "")) && negb (EqualFold (ToLower (addrFilter f)) (ToLower (m_MacAddress e)))) &&
  negb (negb (bool_decide (typeFilter f = "")) && negb (bool_decide (ToLower (typeFilter f) = ToLower (m_Type e)))).

(** [fmt.Sprint(vlan, "|", mac)]: no spaces, since one operand of each pair is
    a string. *)
Definition seen_key (e : macEntry) : string := Itoa (m_Vlan e) +:+ "|" +:+ ToLower (m_MacAddress e).

(** [addIfMatch] *)
Definition addIfMatch (f : mac_filter) (acc : gset string * list macEntry) (e : macEntry) : gset string * list macEntry :=
  let '(seen, entries) := acc in
  if negb (mac_matches f e) then acc
  else if bool_decide (seen_key e ∈ seen) then acc
  else ({[seen_key e]} ∪ seen,
        entries ++ [{| m_Vlan := m_Vlan e; m_MacAddress := m_MacAddress e; m_Port := m_Port e; m_Type := ToLower (m_Type e) |}]).

Definition fdb_row (e : string * json) : option macEntry :=
  let '(k, v) := e in
  fv ← as_map v;
  '(vlan, mac) ← parseFDBTableKey k;
  Some {| m_Vlan := vlan; m_MacAddress := mac; m_Port := sprint_field fv "port"; m_Type := sprint_field fv "type" |}.

Definition processFDBData (data : msi) (f : mac_filter) : list macEntry :=
  (foldl (addIfMatch f) (∅, []) (omap fdb_row (map_range data))).2.

Definition mac_less (a b : macEntry) : bool :=
  if bool_decide (m_Vlan a = m_Vlan b) then str_lt (ToLower (m_MacAddress a)) (ToLower (m_MacAddress b))
  else bool_decide (m_Vlan a < m_Vlan b)%Z.

Definition mac_doc (e : macEntry) : json :=
  JObj {["vlan" := JNum (m_Vlan e); "macAddress" := JStr (m_MacAddress e); "port" := JStr (m_Port e); "type" := JStr (m_Type e)]}.

(** The checks of the options, in order. *)
Definition mac_check (f : mac_filter) : option show_err :=
  if bool_decide (vlanFilter f ≠ (-1)%Z) && (bool_decide (vlanFilter f < 1)%Z || bool_decide (4095 < vlanFilter f)%Z) then
    Some (PlainErr ("Error: Invalid vlan " +:+ Itoa (vlanFilter f)))
  else if negb (bool_decide (typeFilter f = "")) &&
          negb (bool_decide (ToLower (typeFilter f) = "static")) && negb (bool_decide (ToLower (typeFilter f) = "dynamic")) then
    Some (PlainErr ("Error: Invalid type " +:+ typeFilter f))
  else if negb (bool_decide (addrFilter f = "")) && negb (net_ParseMAC (addrFilter f)) then
    Some (PlainErr ("Error: Invalid mac address " +:+ addrFilter f))
  else None.

Definition getMacTable (args : CmdArgs) (options : OptionMap) : Cmd json :=
  let f := mac_options options in
  let wantCount := default false (ov_Bool (opt_get options "count")) in
  match mac_check f with
  | Some e => fail e
  | None =>
      stateData ← GetMapFromQueries Y [["STATE_DB"; "FDB_TABLE"]];
      portIsValid ← (if bool_decide (portFilter f = "") then mret true
                     else
                       allPorts ← GetMapFromQueries Y [["CONFIG_DB"; "PORT"]];
                       mret (existsb (λ '(port, _), EqualFold port (portFilter f)) (map_range allPorts)));
      if negb portIsValid then fail (PlainErr ("Error: Invalid port " +:+ portFilter f))
      else
        let entries := processFDBData stateData f in
        let total := JNum (Z.of_nat (length entries)) in
        if wantCount then mret (JObj {["total" := total]})
        else mret (JObj {["entries" := JArr (mac_doc <$> sort_Slice mac_less entries); "total" := total]})
  end.

(** ** VLANs *)

Record vlanConfig := { VlanData : msi; VlanIpData : msi; VlanPortsData : msi }.

Definition isIPPrefixInKey (key : string) : bool :=
  let '(vlanId, ip) := ParseKey (JStr key) "|" in
  if bool_decide (vlanId = "") then false
  else bool_decide (is_Some (net_ParseCIDR ip)) || bool_decide (is_Some (net_ParseIP ip)).

(** A nil slice is written as null. *)
Definition slice_doc (l : list json) : json := match l with [] => JNull | _ => JArr l end.

Definition getVlanId (cfg : vlanConfig) (vlan : string) : Cmd json := mret (JStr (TrimPrefix vlan "Vlan")).

Definition getVlanIpAddress (cfg : vlanConfig) (vlan : string) : Cmd json :=
  mret (slice_doc (omap (λ '(key, _),
    if isIPPrefixInKey key then
      let '(ifname, address) := ParseKey (JStr key) "|" in
      if bool_decide (vlan = ifname) then Some (JStr address) else None
    else None) (map_range (VlanIpData cfg)))).

(** The type assertions panic on an entry that is not a map and on an address
    list that is not a string. *)
Definition getVlanDhcpHelperAddress (cfg : vlanConfig) (vlan : string) : Cmd json :=
  match VlanData cfg !! vlan with
  | None => mret (slice_doc [])
  | Some value =>
      m ← must (as_map value);
      match m !! "dhcp_servers@" with
      | None => mret (slice_doc [])
      | Some ips => s ← must (as_string ips); mret (slice_doc (JStr <$> natsort (Split s ",")))
      end
  end.

Definition getVlanPortsAndTagging (cfg : vlanConfig) (vlan : string) : Cmd json :=
  ports ← for_each (λ ports '(key, value),
    let '(portsKey, portsValue) := ParseKey (JStr key) "|" in
    if negb (bool_decide (vlan = portsKey)) then mret ports
    else
      m ← must (as_map value);
      tagging ← must (m !! "tagging_mode" ≫= as_string);
      mret (ports ++ [row_doc (row_of [("name", portsValue); ("port_tagging", tagging)])])) [] (map_range (VlanPortsData cfg));
  mret (slice_doc ports).

Definition getProxyArp (cfg : vlanConfig) (vlan : string) : Cmd json :=
  match VlanIpData cfg !! vlan with
  | None => mret (JStr "disabled")
  | Some value =>
      m ← must (as_map value);
      match m !! "proxy_arp" with
      | None => mret (JStr "disabled")
      | Some v => s ← must (as_string v); mret (JStr s)
      end
  end.

Definition vlan_brief (cfg : vlanConfig) (vlan : string) : Cmd json :=
  id ← getVlanId cfg vlan;
  ip ← getVlanIpAddress cfg vlan;
  ports ← getVlanPortsAndTagging cfg vlan;
  arp ← getProxyArp cfg vlan;
  dhcp ← getVlanDhcpHelperAddress cfg vlan;
  mret (JObj {["vlan_id" := id; "ip_address" := ip; "ports" := ports; "proxy_arp" := arp; "dhcp_helper_addresses" := dhcp]}).

Definition getVlanBrief (args : CmdArgs) (options : OptionMap) : Cmd json :=
  vlanData ← GetMapFromQueries Y [["CONFIG_DB"; "VLAN"]];
  vlanInterfaceData ← GetMapFromQueries Y [["CONFIG_DB"; "VLAN_INTERFACE"]];
  vlanMemberData ← GetMapFromQueries Y [["CONFIG_DB"; "VLAN_MEMBER"]];
  let cfg := {| VlanData := vlanData; VlanIpData := vlanInterfaceData; VlanPortsData := vlanMemberData |} in
  m ← for_each (λ m vlan, d ← vlan_brief cfg vlan; mret (<[vlan := d]> m)) ∅ (GetSortedKeys vlanData);
  mret (JObj m).

(** ** Health of DPUs *)

Definition is_state_value (up : string) (key : string) (v : json) : bool :=
  match v with JStr s => HasSuffix key "_state" && bool_decide (ToLower s = up) | _ => false end.

Definition determineOperStatus (stateInfo : msi) : string :=
  let upCount := length (filter (λ '(k, v), is_state_value "up" k v = true) (map_range stateInfo)) in
  let midplaneDown := existsb (λ '(k, v), is_state_value "down" k v && Contains k "midplane") (map_range stateInfo) in
  if midplaneDown then "Offline"
  else if bool_decide (upCount = 3) then "Online"
  else "Partial Online".

Record DpuStateRow := { d_Name : string; d_OperStatus : string; StateDetail : string; StateValue : string;
                        d_Time : string; d_Reason : string }.

(** One turn of the inner loop. *)
Definition dpu_field (stateType : string) (r : DpuStateRow) (e : string * json) : DpuStateRow :=
  match e with
  | (key, JStr v) =>
      if negb (Contains key stateType) then r
      else if HasSuffix key "_state" then
        {| d_Name := d_Name r; d_OperStatus := d_OperStatus r; StateDetail := key; StateValue := v; d_Time := d_Time r;
           d_Reason := if bool_decide (ToLower v = "up") then "" else d_Reason r |}
      else if HasSuffix key "_time" then
        {| d_Name := d_Name r; d_OperStatus := d_OperStatus r; StateDetail := StateDetail r; StateValue := StateValue r;
           d_Time := v; d_Reason := d_Reason r |}
      else if HasSuffix key "_reason" then
        if bool_decide (ToLower (StateValue r) = "up") then r
        else {| d_Name := d_Name r; d_OperStatus := d_OperStatus r; StateDetail := StateDetail r;
                StateValue := StateValue r; d_Time := d_Time r; d_Reason := v |}
      else r
  | _ => r
  end.

Definition dpu_row (moduleName : string) (stateInfo : msi) (stateType : string) : DpuStateRow :=
  foldl (dpu_field stateType)
    {| d_Name := moduleName; d_OperStatus := determineOperStatus stateInfo; StateDetail := ""; StateValue := "";
       d_Time := ""; d_Reason := "" |} (map_range stateInfo).

Definition createDpuStateRowsFromData (moduleName : string) (stateInfo : msi) : list DpuStateRow :=
  filter (λ r, StateDetail r ≠ "") (dpu_row moduleName stateInfo <$> ["midplane"; "control"; "data"]).

Definition getChassisDataDirect (moduleName : string) : Cmd msi :=
  let one := negb (bool_decide (moduleName = "")) && negb (bool_decide (moduleName = "all")) in
  data ← GetMapFromQueries Y [if one then ["CHASSIS_STATE_DB"; "DPU_STATE"; moduleName] else ["CHASSIS_STATE_DB"; "DPU_STATE"]];
  mret (if one && negb (bool_decide (data = ∅)) then {[moduleName := JObj data]} else data).

Definition dpu_doc (r : DpuStateRow) : json :=
  row_doc (row_of [("name", d_Name r); ("oper_status", d_OperStatus r); ("state_detail", StateDetail r);
                   ("state_value", StateValue r); ("time", d_Time r); ("reason", d_Reason r)]).

Definition getSystemHealthDpu (args : CmdArgs) (options : OptionMap) : Cmd json :=
  let moduleName := default "all" (ov_String (opt_get options "dpu")) in
  stateData ← getChassisDataDirect moduleName;
  let allRows := mjoin ((λ '(name, info), match info with JObj m => createDpuStateRowsFromData name m | _ => [] end)
                          <$> map_range stateData) in
  match allRows with
  | [] => fail (StatusErr NotFound ("module " +:+ moduleName +:+ " not found"))
  | _ => mret (JArr (dpu_doc <$> sort_Slice (λ a b, str_lt (d_Name a) (d_Name b)) allRows))
  end.

(** ** Features *)

Definition buildFeatureConfigEntry (name : string) (data : msi) : json :=
  let fallback := match data !! "no_fallback_to_local" with
                  | Some (JStr s) => if bool_decide (s = "") then (None : option bool) else negb <$> ParseBool s
                  | _ => None
                  end in
  let dataMap := row_of [("state", GetValueOrDefault data "state" ""); ("auto_restart", GetValueOrDefault data "auto_restart" "");
                         ("owner", GetValueOrDefault data "set_owner" "local")] in
  JObj {["name" := JStr name;
         "data" := row_doc (match fallback with
                            | Some b => <["fallback" := if b then "true" else "false"]> dataMap
                            | None => dataMap
                            end)]}.

Definition buildFeatureStatusEntry (name : string) (data : msi) : json :=
  JObj {["name" := JStr name;
         "data" := row_doc (row_of ((λ f, (f, GetValueOrDefault data f "")) <$>
           ["state"; "auto_restart"; "system_state"; "update_time"; "container_id"; "container_version"; "set_owner";
            "current_owner"; "remote_state"]))]}.

Definition buildFeatureAutoRestartEntry (name : string) (data : msi) : json :=
  row_doc (row_of [("name", name); ("auto_restart", GetValueOrDefault data "auto_restart" "unknown")]).

(** The shape the three commands share: one feature, or all in order; an empty
    table and an unknown feature are errors. *)
Definition features_reply (what : string) (table : msi) (args : CmdArgs) (build : string → msi → json) : Cmd json :=
  let featureName := args_At args 0 in
  if bool_decide (table = ∅) then fail (PlainErr ("failed to retrieve feature " +:+ what +:+ " data"))
  else
    let entry name := build name <$> (table !! name ≫= as_map) in
    if bool_decide (featureName = "") then mret (JObj {["features" := slice_doc (omap entry (GetSortedKeys table))]})
    else if bool_decide (is_Some (table !! featureName)) then
      mret (JObj {["features" := slice_doc (omap entry [featureName])]})
    else fail (PlainErr ("feature " +:+ featureName +:+ " not found")).

Definition getFeatureConfig (args : CmdArgs) (options : OptionMap) : Cmd json :=
  rawData ← GetMapFromQueries Y [["CONFIG_DB"; "FEATURE"]]; features_reply "configuration" rawData args buildFeatureConfigEntry.

Definition getFeatureAutoRestart (args : CmdArgs) (options : OptionMap) : Cmd json :=
  rawData ← GetMapFromQueries Y [["CONFIG_DB"; "FEATURE"]]; features_reply "autorestart" rawData args buildFeatureAutoRestartEntry.

(** The configuration goes over the state. *)
Definition getFeatureStatus (args : CmdArgs) (options : OptionMap) : Cmd json :=
  configData ← GetMapFromQueries Y [["CONFIG_DB"; "FEATURE"]];
  stateData ← GetMapFromQueries Y [["STATE_DB"; "FEATURE"]];
  features_reply "status" configData args (λ name config,
    buildFeatureStatusEntry name (config ∪ default ∅ (stateData !! name ≫= as_map))).

(** ** Mirror sessions *)

(** [stateResult] is the entry itself, or a map with the entry under its name. *)
Definition session_state (sessionName : string) (stateResult : msi) : option msi :=
  match stateResult !! sessionName with
  | Some v => as_map v
  | None => if bool_decide (stateResult = ∅) then None else Some stateResult
  end.

Definition with_state (sessionName : string) (session : msi) : Cmd msi :=
  r ← try (GetMapFromQueries Y [["STATE_DB"; "MIRROR_SESSION_TABLE"; sessionName]]);
  let st := match r with Ok m => session_state sessionName m | Err _ => None end in
  mret (match st with
        | Some m => <["monitor_port" := default (JStr "") (m !! "monitor_port")]>
                      (<["status" := default (JStr "inactive") (m !! "status")]> session)
        | None => <["monitor_port" := JStr ""]> (<["status" := JStr "error"]> session)
        end).

Definition readSessionsInfo : Cmd (gmap string msi) :=
  r ← try (GetMapFromQueries Y [["CONFIG_DB"; "MIRROR_SESSION"]]);
  match r with
  | Err _ => fail (PlainErr "failed to get config data")
  | Ok configResult =>
      for_each (λ sessions '(name, session), s ← with_state name session; mret (<[name := s]> sessions)) ∅
        (map_range (omap as_map configResult))
  end.

Definition span_columns : list (string * string) :=
  [("status", "status"); ("dst_port", "dst_port"); ("src_port", "src_port"); ("queue", "queue"); ("policer", "policer")].
Definition erspan_columns : list (string * string) :=
  [("status", "status"); ("src_ip", "src_ip"); ("dst_ip", "dst_ip"); ("gre", "gre_type"); ("dscp", "dscp"); ("ttl", "ttl");
   ("queue", "queue"); ("policer", "policer"); ("monitor_port", "monitor_port"); ("src_port", "src_port")].

Definition session_row (columns : list (string * string)) (name : string) (info : msi) : row :=
  row_of ([("name", name); ("direction", ToLower (GetValueOrDefault info "direction" ""))] ++
          ((λ '(c, f), (c, GetValueOrDefault info f "")) <$> columns)).

(** The sessions in order, SPAN and the others apart. *)
Definition processMirrorSessionData (sessions : gmap string msi) (sessionFilter : string) : list row * list row :=
  foldl (λ '(erspan, span) name,
    let info := default ∅ (sessions !! name) in
    if negb (bool_decide (sessionFilter = "")) && negb (bool_decide (name = sessionFilter)) then (erspan, span)
    else if bool_decide (GetValueOrDefault info "type" "" = "SPAN") then (erspan, span ++ [session_row span_columns name info])
    else (erspan ++ [session_row erspan_columns name info], span)) ([], []) (natsort (map_range sessions).*1).

Definition getMirrorSession (args : CmdArgs) (options : OptionMap) : Cmd json :=
  r ← try readSessionsInfo;
  match r with
  | Err _ => fail (PlainErr "failed to read sessions info")
  | Ok sessions =>
      let '(erspan, span) := processMirrorSessionData sessions (args_At args 0) in
      mret (JObj {["erspan_sessions" := rows_doc erspan; "span_sessions" := rows_doc span]})
  end.

(** ** Reboot causes *)

(** The map is changed in place: every key of the list that is there gets the
    replacement. *)
Definition RedactSensitiveData (m : msi) (keys : list string) (redactedString : string) : msi :=
  map_imap (λ k v, Some (if bool_decide (k ∈ keys) then JStr redactedString else v)) m.

Definition GetDataFromFile (fileName : string) : Cmd string :=
  match read_file Y fileName with Some t => mret t | None => fail (PlainErr ("open " +:+ fileName)) end.

Definition GetMapFromFile (filePath : string) : Cmd msi :=
  text ← GetDataFromFile filePath;
  match Unmarshal text ≫= decode_fields with
  | Some m => mret m
  | None => fail (PlainErr ("failed to parse JSON from " +:+ filePath))
  end.

(** A document, or the bytes of a file. *)
Inductive reply := Document (d : json) | Text (t : string).

Definition redact_option (options : OptionMap) : bool := default true (ov_Bool (opt_get options "redact")).

Definition getPreviousRebootCause (args : CmdArgs) (options : OptionMap) : Cmd reply :=
  let path := "/host/reboot-cause/previous-reboot-cause.json" in
  if redact_option options then
    m ← GetMapFromFile path; mret (Document (JObj (RedactSensitiveData m ["user"] "$USER$")))
  else t ← GetDataFromFile path; mret (Text t).

Definition redact_entry (v : json) : json :=
  match v with JObj m => JObj (RedactSensitiveData m ["user"] "$USER$") | _ => v end.

Definition getRebootCauseHistory (args : CmdArgs) (options : OptionMap) : Cmd reply :=
  if redact_option options then
    m ← GetMapFromQueries Y [["STATE_DB"; "REBOOT_CAUSE"]]; mret (Document (JObj (redact_entry <$> m)))
  else t ← GetDataFromQueries Y [["STATE_DB"; "REBOOT_CAUSE"]]; mret (Text t).

(** ** Other tables *)

Definition getWatermarkTelemetryInterval (args : CmdArgs) (options : OptionMap) : Cmd json :=
  data ← GetMapFromQueries Y [["CONFIG_DB"; "WATERMARK_TABLE"; "TELEMETRY_INTERVAL"]];
  mret (row_doc {["interval" := field_seconds data "interval" "120s"]}).

Definition getSwitchTrimmingGlobalConfig (args : CmdArgs) (options : OptionMap) : Cmd json :=
  r ← try (GetMapFromQueries Y [["CONFIG_DB"; "SWITCH_TRIMMING"; "GLOBAL"]]);
  match r with
  | Err _ => fail (PlainErr "failed to query CONFIG_DB")
  | Ok m =>
      if bool_decide (m = ∅) then mret (row_doc {["response" := "No configuration is present in CONFIG DB"]})
      else mret (row_doc (row_of ((λ f, (f, GetValueOrDefault m f "N/A")) <$> ["size"; "dscp_value"; "tc_value"; "queue_index"])))
  end.

Definition StateBoolToStr (state : string) : string :=
  if bool_decide (state = "true") then "enabled" else if bool_decide (state = "false") then "disabled" else state.

Definition buildBgpDeviceGlobalEntry (data : msi) : json :=
  row_doc (row_of [("tsa", StateBoolToStr (GetValueOrDefault data "tsa_enabled" "N/A"));
                   ("w-ecmp", StateBoolToStr (GetValueOrDefault data "wcmp_enabled" "N/A"))]).

Definition getBGPDeviceGlobal (args : CmdArgs) (options : OptionMap) : Cmd json :=
  table ← GetMapFromQueries Y [["CONFIG_DB"; "BGP_DEVICE_GLOBAL"]];
  if bool_decide (table = ∅) then fail (PlainErr "No configuration is present")
  else match table !! "STATE" ≫= as_map with
       | None => fail (PlainErr "No valid configuration is present")
       | Some data => mret (buildBgpDeviceGlobalEntry data)
       end.

Definition sid_row (sidCounterMap : msi) (sid : string) : Cmd row :=
  sidStats ← GetMapFromQueries Y [["COUNTERS_DB"; "COUNTERS"; sprint_field sidCounterMap sid]];
  mret (row_of [("MySID", sid); ("Packets", GetValueOrDefault sidStats "SAI_COUNTER_STAT_PACKETS" "N/A");
                ("Bytes", GetValueOrDefault sidStats "SAI_COUNTER_STAT_BYTES" "N/A")]).

Definition getSRv6Stats (args : CmdArgs) (options : OptionMap) : Cmd json :=
  let sid := args_At args 0 in
  sidCounterMap ← GetMapFromQueries Y [["COUNTERS_DB"; "COUNTERS_SRV6_NAME_MAP"]];
  sids ← (if bool_decide (sid = "") then mret (map_range sidCounterMap).*1
          else if bool_decide (is_Some (sidCounterMap !! sid)) then mret [sid]
          else fail (PlainErr ("sid " +:+ sid +:+ " not found in COUNTERS_SRV6_NAME_MAP")));
  rows ← mapC (sid_row sidCounterMap) (natsort sids);
  mret (rows_doc rows).

(** ** Buffers *)

Definition getTableAsNestedMap (db table : string) : Cmd (gmap string msi) :=
  m ← GetMapFromQueries Y [if bool_decide (db = "STATE_DB") then [db; table; "*"] else [db; table]];
  mret (omap as_map m).

(** An empty map is omitted. *)
Definition omit_empty (name : string) (m : gmap string msi) : list (string * json) :=
  if bool_decide (m = ∅) then [] else [(name, JObj (JObj <$> m))].

Definition GetMmuConfig (db : string) (verbose : bool) : Cmd json :=
  lossless ← getTableAsNestedMap db "DEFAULT_LOSSLESS_BUFFER_PARAMETER";
  pools ← getTableAsNestedMap db "BUFFER_POOL";
  profiles ← getTableAsNestedMap db "BUFFER_PROFILE";
  mret (JObj (list_to_map (
    omit_empty "losslessTrafficPatterns" lossless ++ omit_empty "pools" pools ++ omit_empty "profiles" profiles ++
    (if verbose then [("totals", JObj {["pools" := JNum (Z.of_nat (base.size pools));
                                        "profiles" := JNum (Z.of_nat (base.size profiles))]})] else [])))).

Definition verbose_option (options : OptionMap) : bool := default false (ov_Bool (opt_get options "verbose")).
Definition getBufferConfig (args : CmdArgs) (options : OptionMap) : Cmd json := GetMmuConfig "CONFIG_DB" (verbose_option options).
Definition getMmuConfig (args : CmdArgs) (options : OptionMap) : Cmd json := GetMmuConfig "CONFIG_DB" (verbose_option options).
End tables.
