(* ===== verification/ShowHostFacts.v ===== *)
(** * What the remaining SHOW commands guarantee

    The MAC table has every matching entry once, users are not disclosed
    unless asked for, the reason of a DPU's state is shown only while it is not
    up; and the log of kernel dumps can be any file. *)
From stdpp Require Import base gmap sets list strings sorting pretty.
From S2P Require Import Prelude GoStrings Gnmi Json DbConfig DbConn VirtualDb VirtualDbFacts DbClient Bypass Show ShowLib ShowCounters ShowIntf ShowHost ShowTables.

Section facts.
Context {Sw : Swss} {MR : MapRange} {JCo : JsonCodec} {Fmt : GoFmt} {NS : NatSort} {SS : SliceSort}
  {H : HostCmd} {NA : NetAddr} {NM : NetMac}.
Notation msi := (gmap string json).

(** ** Logs of kernel dumps *)

Lemma Split_dot_end a : ∃ x l, Split (a +:+ ".") "." = x :: l ∧ last (x :: l) = Some "" ∧ l ≠ [].
Proof.
  assert (∀ acc, ∃ x l, split_go "." (a +:+ ".") acc 0 = x :: l ∧ last (x :: l) = Some "" ∧ l ≠ []) as Hg; [|apply Hg].
  induction a as [|c a IH]; intros acc.
  - exists acc, [""]. done.
  - rewrite app_cons_str. cbn [split_go HasPrefix]. case_bool_decide as Hc; cbn [andb].
    + destruct (IH "") as (x & l & Hx & Hl & Hne). exists acc, (x :: l). cbn [String.length Nat.sub]. rewrite Hx.
      split_and!; [done|done|done].
    + apply IH.
Qed.

(** The name of a log is pasted into the commands that test and read it.
    A name that ends in a comment for shlex names any file: whatever the host
    has under [p] is returned, read as root. *)
Theorem kdump_log_reads_any_file p P content lines s :
  P = "/var/crash//../../.." +:+ p →
  shlex_split ("test -f " +:+ P +:+ " #.") = Some ["test"; "-f"; P] →
  shlex_split ("sudo tail -10 " +:+ P +:+ " #.") = Some ["sudo"; "tail"; "-10"; P] →
  run_program (base_args ++ ["test"; "-f"; P]) = Some "" →
  run_program (base_args ++ ["sudo"; "tail"; "-10"; P]) = Some content →
  lines = Split (TrimSpace content) newline → lines ≠ [""] →
  getKdumpLogging [("../../.." +:+ p +:+ " #.")] ∅ s = (s, Ok (JObj {["logs" := strings_doc lines]})).
Proof.
  intros -> Ht Htail Hr1 Hr2 Hl Hne. unfold getKdumpLogging. cbn [args_At].
  set (f := "../../.." +:+ p +:+ " #.").
  assert (f ≠ "") as Hf by done.
  change (args_At [f] 0) with f. rewrite bool_decide_true by done. cbv zeta.
  assert (log_path f = Some ("/var/crash//../../.." +:+ p +:+ " #.")) as ->.
  { unfold log_path. destruct (Split_dot_end ("../../.." +:+ p +:+ " #")) as (x & l & Hx & Hlast & Hl').
    assert (("../../.." +:+ p +:+ " #") +:+ "." = f) as Hff by (unfold f; by rewrite !app_assoc_str).
    rewrite Hff in Hx. rewrite Hx. destruct l as [|y l]; [done|].
    rewrite Hlast. done. }
  unfold GetDataFromHostCommand, log_reply. rewrite lookup_empty.
  replace ("test -f " +:+ "/var/crash//../../.." +:+ p +:+ " #.")
    with ("test -f " +:+ ("/var/crash//../../.." +:+ p) +:+ " #.") by (by rewrite !app_assoc_str).
  rewrite Ht. cbn [mbind option_bind]. rewrite Hr1. unfold log_reply, GetDataFromHostCommand, tail_cmd.
  replace ("sudo tail -" +:+ "10" +:+ " " +:+ "/var/crash//../../.." +:+ p +:+ " #.")
    with ("sudo tail -10 " +:+ ("/var/crash//../../.." +:+ p) +:+ " #.") by (by rewrite !app_assoc_str).
  rewrite Htail. cbn [mbind option_bind]. rewrite Hr2. rewrite <- Hl. rewrite bool_decide_false by done. done.
Qed.

(** ** The MAC table *)

Definition lowered (e : macEntry) : macEntry :=
  {| m_Vlan := m_Vlan e; m_MacAddress := m_MacAddress e; m_Port := m_Port e; m_Type := ToLower (m_Type e) |}.

Lemma seen_key_lowered e : seen_key (lowered e) = seen_key e.
Proof. done. Qed.

(** The state of the loop after the entries of [l]. *)
Record mac_inv (f : mac_filter) (l : list macEntry) (acc : gset string * list macEntry) : Prop := {
  mi_seen k : k ∈ acc.1 ↔ k ∈ seen_key <$> acc.2;
  mi_nodup : NoDup (seen_key <$> acc.2);
  mi_from e : e ∈ acc.2 → ∃ e0, e0 ∈ l ∧ mac_matches f e0 = true ∧ e = lowered e0;
  mi_all e : e ∈ l → mac_matches f e = true → seen_key e ∈ seen_key <$> acc.2
}.

Lemma mac_inv_step f l acc e : mac_inv f l acc → mac_inv f (l ++ [e]) (addIfMatch f acc e).
Proof.
  destruct acc as [seen entries]. intros [Hs Hn Hf Ha]. cbn [fst snd] in *. unfold addIfMatch. fold (lowered e).
  destruct (mac_matches f e) eqn:Em; cbn [negb]; [case_bool_decide as Hk|].
  - split; cbn [fst snd]; [done|done| |].
    + intros e' (e0 & ? & ? & ->)%Hf. exists e0. split_and!; [|done|done]. apply elem_of_app. by left.
    + intros e' [Hin| ->%list_elem_of_singleton]%elem_of_app Hm; [by apply Ha|by apply Hs].
  - split; cbn [fst snd].
    + intros k. rewrite fmap_app, elem_of_union, elem_of_singleton, elem_of_app, Hs. cbn.
      rewrite list_elem_of_singleton, seen_key_lowered. tauto.
    + rewrite fmap_app. apply NoDup_app. split_and!; [done| |apply NoDup_singleton].
      intros k Hin ->%list_elem_of_singleton. apply Hk, Hs, Hin.
    + intros e' [(e0 & ? & ? & ->)%Hf| ->%list_elem_of_singleton]%elem_of_app.
      * exists e0. split_and!; [|done|done]. apply elem_of_app. by left.
      * exists e. split_and!; [|done|done]. apply elem_of_app. right. left.
    + intros e' [Hin| ->%list_elem_of_singleton]%elem_of_app Hm; rewrite fmap_app, elem_of_app; [left; by apply Ha|].
      right. cbn. left.
  - split; cbn [fst snd]; [done|done| |].
    + intros e' (e0 & ? & ? & ->)%Hf. exists e0. split_and!; [|done|done]. apply elem_of_app. by left.
    + intros e' [Hin| ->%list_elem_of_singleton]%elem_of_app Hm; [by apply Ha|congruence].
Qed.

Lemma mac_inv_fold f l : mac_inv f l (foldl (addIfMatch f) (∅, []) l).
Proof.
  induction l as [|e l IH] using rev_ind.
  - split; cbn; [|constructor| |]; intros *; rewrite ?elem_of_nil; set_solver.
  - rewrite foldl_app. apply mac_inv_step, IH.
Qed.

(** The MAC table lists the entries of FDB_TABLE that match the filters:
    every listed one is an entry of the table with its type in lower case, no
    VLAN and address is listed twice, whatever the case of the address, and
    every matching entry is there under its VLAN and address; the total and the
    count are the number of entries listed. *)
Theorem mac_table_exact data f :
  let l := processFDBData data f in
  NoDup (seen_key <$> l) ∧
  (∀ e, e ∈ l → ∃ k v e0, data !! k = Some v ∧ fdb_row (k, v) = Some e0 ∧ mac_matches f e0 = true ∧ e = lowered e0) ∧
  (∀ k v e0, data !! k = Some v → fdb_row (k, v) = Some e0 → mac_matches f e0 = true → seen_key e0 ∈ seen_key <$> l).
Proof.
  cbv zeta. destruct (mac_inv_fold f (omap fdb_row (map_range data))) as [_ Hn Hf Ha]. unfold processFDBData.
  split_and!; [done| |].
  - intros e (e0 & ([k v] & Hin%elem_of_map_range & Hr)%list_elem_of_omap & Hm & ->)%Hf. by exists k, v, e0.
  - intros k v e0 Hk Hr Hm. apply Ha; [|done]. apply list_elem_of_omap. exists (k, v). by rewrite elem_of_map_range.
Qed.

(** ** Reboot causes *)

Lemma redact_user m : RedactSensitiveData m ["user"] "$USER$" !! "user" = (λ _, JStr "$USER$") <$> m !! "user".
Proof. unfold RedactSensitiveData. rewrite map_lookup_imap. by destruct (m !! "user"). Qed.

Lemma redact_other m k : k ≠ "user" → RedactSensitiveData m ["user"] "$USER$" !! k = m !! k.
Proof.
  intros Hk. unfold RedactSensitiveData. rewrite map_lookup_imap. destruct (m !! k); simpl; [|done].
  by rewrite bool_decide_false by (rewrite list_elem_of_singleton; done).
Qed.

(** Unless the option redact is given as false, the history of reboots
    shows who caused none of them, and everything else as it is stored. *)
Theorem reboot_users_redacted Y args options s s' r :
  ov_Bool (opt_get options "redact") ≠ Some false →
  getRebootCauseHistory Y args options s = (s', Ok r) →
  ∃ m, GetMapFromQueries Y [["STATE_DB"; "REBOOT_CAUSE"]] s = (s', Ok m) ∧
       r = Document (JObj (redact_entry <$> m)) ∧
       ∀ k e, m !! k = Some (JObj e) →
         ∃ e', (redact_entry <$> m) !! k = Some (JObj e') ∧ dom e' = dom e ∧
           (∀ v, e' !! "user" = Some v → v = JStr "$USER$") ∧ ∀ f, f ≠ "user" → e' !! f = e !! f.
Proof.
  intros Ho. unfold getRebootCauseHistory, redact_option.
  assert (default true (ov_Bool (opt_get options "redact")) = true) as ->
    by (destruct (ov_Bool (opt_get options "redact")) as [[]|]; done).
  rewrite bind_Cmd_run. destruct (GetMapFromQueries Y _ s) as [s1 [m|e]]; [|done].
  intros [= <- <-]. exists m. split_and!; [done|done|]. intros k e Hk.
  exists (RedactSensitiveData e ["user"] "$USER$"). split_and!.
  - by rewrite lookup_fmap, Hk.
  - apply set_eq. intros f. rewrite !elem_of_dom. unfold RedactSensitiveData. rewrite map_lookup_imap.
    destruct (e !! f); simpl; split; intros []; eauto; done.
  - intros v. rewrite redact_user. intros (x & _ & ->)%fmap_Some. done.
  - intros f Hf. by apply redact_other.
Qed.

(** ** Health of DPUs *)

Lemma dpu_field_hides t r e :
  (ToLower (StateValue r) = "up" → d_Reason r = "") →
  ToLower (StateValue (dpu_field t r e)) = "up" → d_Reason (dpu_field t r e) = "".
Proof.
  intros Hr. unfold dpu_field. destruct e as [k []]; try done. destruct (Contains k t); [|done]. simpl.
  destruct (HasSuffix k "_state"); simpl; [by case_bool_decide|].
  destruct (HasSuffix k "_time"); simpl; [done|]. destruct (HasSuffix k "_reason"); [|done].
  case_bool_decide; [done|]. simpl. done.
Qed.

(** In whatever order the fields of a DPU are read, the row of a state
    that is up shows no reason, every row has a state, and the module is
    Offline exactly when a midplane state is down. *)
Theorem dpu_rows moduleName stateInfo :
  (∀ r, r ∈ createDpuStateRowsFromData moduleName stateInfo →
     StateDetail r ≠ "" ∧ d_Name r = moduleName ∧ d_OperStatus r = determineOperStatus stateInfo ∧
     (ToLower (StateValue r) = "up" → d_Reason r = "")) ∧
  (determineOperStatus stateInfo = "Offline" ↔
   ∃ k v, stateInfo !! k = Some (JStr v) ∧ HasSuffix k "_state" = true ∧ ToLower v = "down" ∧ Contains k "midplane" = true).
Proof.
  split.
  - intros r [Hd (t & -> & _)%list_elem_of_fmap]%list_elem_of_filter. split; [done|]. clear Hd. unfold dpu_row.
    generalize (map_range stateInfo) as l. intros l.
    assert (∀ r0, d_Name r0 = moduleName → d_OperStatus r0 = determineOperStatus stateInfo →
      (ToLower (StateValue r0) = "up" → d_Reason r0 = "") →
      d_Name (foldl (dpu_field t) r0 l) = moduleName ∧
      d_OperStatus (foldl (dpu_field t) r0 l) = determineOperStatus stateInfo ∧
      (ToLower (StateValue (foldl (dpu_field t) r0 l)) = "up" → d_Reason (foldl (dpu_field t) r0 l) = "")) as Hl.
    { induction l as [|e l IH]; intros r0 H1 H2 H3; [done|]. cbn [foldl]. apply IH; [| |by apply dpu_field_hides].
      - rewrite <- H1. unfold dpu_field. by repeat case_match.
      - rewrite <- H2. unfold dpu_field. by repeat case_match. }
    by apply Hl.
  - unfold determineOperStatus. cbv zeta.
    match goal with |- context [existsb ?p (map_range stateInfo)] => destruct (existsb p (map_range stateInfo)) eqn:E end.
    + split; [intros _|done]. apply existsb_exists in E as ([k v] & Hin%list_elem_of_In%elem_of_map_range & Hk).
      apply andb_true_iff in Hk as [Hs Hc]. unfold is_state_value in Hs. destruct v; try done.
      apply andb_true_iff in Hs as [Hs Hv%bool_decide_eq_true]. by exists k, s.
    + split; [by case_bool_decide|]. intros (k & v & Hk & Hs & Hv & Hc). exfalso.
      assert (existsb (λ '(k, v), is_state_value "down" k v && Contains k "midplane") (map_range stateInfo) = true) as E';
        [|congruence].
      apply existsb_exists. exists (k, JStr v). split; [by apply list_elem_of_In, elem_of_map_range|].
      unfold is_state_value. rewrite Hs, Hc, bool_decide_true by done. done.
Qed.
End facts.

(** ** A host with one secret and one reboot *)
Module ShowHostExample.
Import VdbExample.

(** Words up to a comment; the host can read two files. *)
Fixpoint until_comment (l : list string) : list string :=
  match l with
  | [] => []
  | w :: l => if HasPrefix w "#" then [] else w :: until_comment l
  end.

Definition programs (l : list string) : option string :=
  let words := drop 9 l in
  if bool_decide (words = ["test"; "-f"; "/var/crash//../../../etc/shadow"]) then Some ""
  else if bool_decide (words = ["sudo"; "tail"; "-10"; "/var/crash//../../../etc/shadow"]) then Some "root:secret"
  else None.

#[local] Instance host0 : HostCmd := {|
  shlex_split := λ s, Some (until_comment (Fields s)); run_program := programs |}.

Lemma kdump_log_reads_any_file_witness :
  getKdumpLogging [("../../.." +:+ "/etc/shadow" +:+ " #.")] ∅ show_init =
    (show_init, Ok (JObj {["logs" := strings_doc ["root:secret"]]})) ∧
  Clean "/var/crash//../../../etc/shadow" = "/etc/shadow".
Proof.
  split; [|vm_compute; reflexivity].
  apply (kdump_log_reads_any_file "/etc/shadow" "/var/crash//../../../etc/shadow" "root:secret").
  - reflexivity.
  - vm_compute. reflexivity.
  - vm_compute. reflexivity.
  - vm_compute. reflexivity.
  - vm_compute. reflexivity.
  - vm_compute. reflexivity.
  - discriminate.
Defined.

#[local] Instance sw : Swss := ShowExample.swss1.
#[local] Instance mr : MapRange := canonical_range.
#[local] Instance codec : JsonCodec := ShowExample.codec.

Definition Y : Sys := {|
  sys_env := {|
    env_cfg := env_cfg env0;
    Target2RedisDb := {["" := {["STATE_DB" := conn_of
      {["REBOOT_CAUSE|2024_01_01" := {["cause" := "reboot"; "user" := "admin"]}]}]}]};
    UNIT_TEST := "" |};
  read_file := λ _, None
|}.

Definition history : ShowState * res cmd_err reply := getRebootCauseHistory Y [] ∅ show_init.

Definition history_doc : reply := match history.2 with Ok r => r | Err _ => Text "" end.

Lemma history_run : getRebootCauseHistory Y [] ∅ show_init = (history.1, Ok history_doc).
Proof. vm_compute. reflexivity. Qed.

Lemma reboot_users_redacted_witness :
  ov_Bool (opt_get ∅ "redact") ≠ Some false ∧
  ∃ m e e', m !! "2024_01_01" = Some (JObj e) ∧ history_doc = Document (JObj (redact_entry <$> m)) ∧
    (redact_entry <$> m) !! "2024_01_01" = Some (JObj e') ∧
    e !! "user" = Some (JStr "admin") ∧ e' !! "user" = Some (JStr "$USER$") ∧ e' !! "cause" = Some (JStr "reboot").
Proof.
  assert (ov_Bool (opt_get ∅ "redact") ≠ Some false) as Ho by (vm_compute; discriminate). split; [exact Ho|].
  destruct (reboot_users_redacted Y [] ∅ show_init _ _ Ho history_run) as (m & Hm & Hd & He).
  set (e := {["cause" := JStr "reboot"; "user" := JStr "admin"]} : gmap string json).
  assert (m = {["2024_01_01" := JObj e]}) as Hme.
  { assert ((GetMapFromQueries Y [["STATE_DB"; "REBOOT_CAUSE"]] show_init).2 = Ok {["2024_01_01" := JObj e]}) as Hr
      by (vm_compute; reflexivity). rewrite Hm in Hr. cbn [snd] in Hr. congruence. }
  assert (m !! "2024_01_01" = Some (JObj e)) as Hk by (rewrite Hme; vm_compute; reflexivity).
  destruct (He _ e Hk) as (e' & Hr & Hdom & Hu & Hf).
  exists m, e, e'. split; [exact Hk|]. split; [exact Hd|]. split; [exact Hr|]. split; [vm_compute; reflexivity|].
  assert ("user" ∈ dom e') as [v Hv]%elem_of_dom by (rewrite Hdom; apply (bool_decide_unpack _); vm_compute; exact I).
  split; [rewrite Hv; f_equal; by apply Hu|]. rewrite Hf by discriminate. vm_compute. reflexivity.
Defined.
End ShowHostExample.
