(* ===== verification/ShowSfp.v ===== *)
(** * SHOW commands of transceivers
      (src/show_client/sfpshow_common.go, interface_transceiver_cli.go)

    What a transceiver stores in STATE_DB is shown under the labels of
    ShowSfpTables: its identification, the readings of its sensors with their
    thresholds, its status, and the monitoring of coherent optics, where newer
    tables (VDM) are first copied into the fields of older ones.

    A command shows JSON text inside JSON: [Marshal] of the codec gives the
    text, and an error of it a message.  The formats of floating point numbers
    are parameters; [int(x)] of a decoded number is computed from the bits of
    the float64. *)
From Stdlib Require Import Ascii.
From stdpp Require Import base gmap sets list strings pretty.
From S2P Require Import Prelude GoStrings Gnmi Json DbConfig DbConn VirtualDb VirtualDbFacts DbClient Bypass Show ShowLib ShowCounters ShowIntf ShowHost ShowSfpTables.

(** [%.nE] and [%v] of a float64, and the comparison with 0. *)
Class FloatText {FL : GoFloat} := {
  fmt_E : nat → float64 → string;
  fmt_v : float64 → string;
  fnonzero : float64 → bool
}.

(** ** Text *)

Definition re_space (c : ascii) : bool := bool_decide (nat_of_ascii c ∈ [9; 10; 12; 13; 32]).
Definition is_digit (c : ascii) : bool := bool_decide (48 ≤ nat_of_ascii c ≤ 57).

(** The longest prefix of characters that satisfy [p], and the rest. *)
Fixpoint span (p : ascii → bool) (s : string) : string * string :=
  match s with
  | String c s' => if p c then let '(a, b) := span p s' in (String c a, b) else ("", s)
  | EmptyString => ("", "")
  end.

(** [\s*(\d+)\s*:] at the start of a text: the digits and what follows. *)
Definition number_key (s : string) : option (string * string) :=
  let '(ds, r) := span is_digit (span re_space s).2 in
  match ds, (span re_space r).2 with
  | String _ _, String ":" rest => Some (ds, rest)
  | _, _ => None
  end%char.

(** [re.ReplaceAllString] with [(\{|,)\s*(\d+)\s*:] and [$1 "$2":]; the fuel is
    the length of the text, since every step reads a character. *)
Fixpoint quote_keys (fuel : nat) (s : string) : string :=
  match fuel, s with
  | S fuel, String c s' =>
      if bool_decide (c = "{"%char ∨ c = ","%char) then
        match number_key s' with
        | Some (ds, rest) => String c (" " +:+ dquote +:+ ds +:+ dquote +:+ ":" +:+ quote_keys fuel rest)
        | None => String c (quote_keys fuel s')
        end
      else String c (quote_keys fuel s')
  | _, _ => s
  end.

(** [int(x)] of a float64 given by its bits; out of range it is the smallest
    integer, as on amd64. *)
Definition float_int (bits : Z) : Z :=
  let e := Z.land (Z.shiftr bits 52) 2047 in
  let m := Z.land bits (2 ^ 52 - 1) in
  let a := if bool_decide (e = 0%Z) then 0%Z else Z.shiftl (m + 2 ^ 52) (e - 1075) in
  let v := if Z.testbit bits 63 then (- a)%Z else a in
  if bool_decide (min_int64 ≤ v ≤ max_int64)%Z then v else min_int64.

Definition hex_digit (n : Z) : ascii := ascii_of_nat (Z.to_nat (if bool_decide (n < 10)%Z then 48 + n else 87 + n)).

(** [%x] of an integer; sixteen digits are enough for 64 bits. *)
Fixpoint hex_go (fuel : nat) (n : Z) (acc : string) : string :=
  match fuel with
  | 0 => acc
  | S fuel => let acc := String (hex_digit (n mod 16)) acc in
              if bool_decide (n < 16)%Z then acc else hex_go fuel (n / 16) acc
  end.
Definition hex (n : Z) : string :=
  if bool_decide (n < 0)%Z then "-" +:+ hex_go 17 (- n) "" else hex_go 17 n "".

Section sfp.
Context {Sw : Swss} {MR : MapRange} {JCo : JsonCodec} {Fmt : GoFmt} {NS : NatSort} {H : HostCmd} {SS : SliceSort}.
Variable Y : Sys.
Notation msi := (gmap string json).

(** [m, _ := GetMapFromQueries(q)]: of a query that fails the map is nil, which
    reads as an empty one. *)
Definition map_or_empty (q : list string) : Cmd msi :=
  r ← try (GetMapFromQueries Y [q]);
  mret (match r with Ok m => m | Err _ => ∅ end).

(** [m[k]] of a missing key is "". *)
Definition label (m : labels) (k : string) : string := default "" (m !! k).

(** ** Identification *)

Definition TransceiverStatusNotApplicable : string := "Transceiver status info not applicable".

Definition isTransceiverCmis (sfpInfoDict : msi) : bool := bool_decide (is_Some (sfpInfoDict !! "cmis_rev")).
Definition isTransceiverCCmis (sfpInfoDict : msi) : bool :=
  bool_decide (is_Some (sfpInfoDict !! "supported_max_tx_power")).

Definition CmisDataMap : labels := MergeMaps QsfpDataMap QsfpCmisDeltaDataMap.
Definition CCmisDataMap : labels := MergeMaps CmisDataMap CCmisDeltaDataMap.

Definition getTransceiverDataMap (sfpInfoDict : msi) : labels :=
  if isTransceiverCCmis sfpInfoDict then CCmisDataMap
  else if isTransceiverCmis sfpInfoDict then CmisDataMap
  else QsfpDataMap.

(** [json.Unmarshal] into a [map[string]interface{}]. *)
Definition decode_map (text : string) : option msi := Unmarshal text ≫= decode_fields.

Definition lane_options (v : option json) : string :=
  match v with Some (JNum bits) => "0x" +:+ hex (float_int bits) | _ => "Unknown" end.

Definition nonempty_string (v : option json) : option string :=
  match v with Some (JStr s) => if bool_decide (s = "") then None else Some s | _ => None end.

(** One application; [None] where the loop continues. *)
Definition application_line (e : string * json) : option string :=
  dict ← as_map e.2;
  v ← nonempty_string (dict !! "host_electrical_interface_id");
  Some (Join [v; "Host Assign (" +:+ lane_options (dict !! "host_lane_assignment_options") +:+ ")";
              default "Unknown" (nonempty_string (dict !! "module_media_interface_id"));
              "Media Assign (" +:+ lane_options (dict !! "media_lane_assignment_options") +:+ ")"] " - ").

(** The value under the only key of the map that is returned. *)
Definition convertApplicationAdvertisementToOutputString (sfpInfoDict : msi) : json :=
  match nonempty_string (sfpInfoDict !! "application_advertisement") with
  | None => JStr "N/A"
  | Some appAdvStr =>
      let quoted := ReplaceAll appAdvStr "'" dquote in
      let appAdvStr := quote_keys (String.length quoted) quoted in
      match decode_map appAdvStr with
      | None => JStr appAdvStr
      | Some appAdvDict =>
          if bool_decide (appAdvDict = ∅) then JStr "N/A"
          else strings_doc (omap application_line (map_range appAdvDict))
      end
  end.

Definition data_less (dataMap : labels) (a b : string) : bool :=
  match dataMap !! a, dataMap !! b with
  | Some _, None => true
  | None, Some _ => false
  | Some ka, Some kb => str_lt ka kb
  | None, None => str_lt a b
  end.

Definition getDataMapSortKey (keys : list string) (dataMap : labels) : list string :=
  sort_Slice (data_less dataMap) keys.

Definition spec_compliance (sfpInfoDict : msi) : json :=
  if bool_decide (sfpInfoDict !! "type" = Some (JStr "QSFP-DD Double Density 8X Pluggable Transceiver")) then
    default JNull (sfpInfoDict !! "specification_compliance")
  else
    match sfpInfoDict !! "specification_compliance" with
    | None => JStr ""
    | Some (JStr s) => if bool_decide (s = "") then JStr ""
                       else match decode_map s with None => JStr "N/A" | Some m => JObj m end
    | Some _ => JStr "N/A"
    end.

(** What the loop writes for one key. *)
Definition info_write (sfpInfoDict sfpFirmwareInfoDict : msi) (key : string) : option (string * json) :=
  let dataMap := getTransceiverDataMap sfpInfoDict in
  if bool_decide (key = "cable_type") then
    cableType ← sfpInfoDict !! "cable_type" ≫= as_string;
    Some (cableType, default JNull (sfpInfoDict !! "cable_length"))
  else if bool_decide (key = "cable_length") then None
  else if bool_decide (key = "specification_compliance") && negb (isTransceiverCmis sfpInfoDict) then
    Some (label QsfpDataMap key, spec_compliance sfpInfoDict)
  else if bool_decide (key = "application_advertisement") then
    Some (label QsfpDataMap key, convertApplicationAdvertisementToOutputString sfpInfoDict)
  else if bool_decide (key = "active_firmware") || bool_decide (key = "inactive_firmware") then
    Some (label dataMap key, JStr (default "N/A" (Sprintv <$> sfpFirmwareInfoDict !! key)))
  else if HasPrefix key "e1_" || HasPrefix key "e2_" then
    v ← sfpFirmwareInfoDict !! key; Some (label dataMap key, v)
  else
    displayName ← dataMap !! key;
    if bool_decide (displayName = "") then None
    else Some (displayName, JStr (match sfpInfoDict !! key with
                                  | Some v => Sprintv v
                                  | None => default "N/A" (Sprintv <$> sfpFirmwareInfoDict !! key)
                                  end)).

Definition convertSfpInfoToOutputString (sfpInfoDict sfpFirmwareInfoDict : msi) : msi :=
  let combinedDict := sfpFirmwareInfoDict ∪ sfpInfoDict in
  let sortedKeys := getDataMapSortKey (map_range combinedDict).*1 (getTransceiverDataMap sfpInfoDict) in
  insert_all (info_write sfpInfoDict sfpFirmwareInfoDict) ∅ sortedKeys.

(** ** Sensors *)

Definition with_unit (value unit : string) : string :=
  value +:+ (if negb (bool_decide (value = "Unknown")) && negb (HasSuffix value unit) then unit else "").

Definition reading (domInfoDict : msi) (domValueMap domUnitMap : labels) (key : string) : option (string * json) :=
  match domInfoDict !! key with
  | None | Some JNull => None
  | Some (JStr str) => if bool_decide (str = "N/A") then None
                       else Some (label domValueMap key, JStr (with_unit str (label domUnitMap key)))
  | Some val => Some (label domValueMap key, JStr (with_unit (Sprintv val) (label domUnitMap key)))
  end.

Definition formatDictValueToString (sortedKeyTable : list string) (domInfoDict : msi) (domValueMap domUnitMap : labels) : msi :=
  insert_all (reading domInfoDict domValueMap domUnitMap) ∅ sortedKeyTable.

(** A table of readings over the keys of its labels in natural order. *)
Definition readings (domInfoDict : msi) (domValueMap domUnitMap : labels) : msi :=
  formatDictValueToString (natsort (map_range domValueMap).*1) domInfoDict domValueMap domUnitMap.

Definition convertDomToOutputString (sfpType : string) (isSfpCmis : bool) (domInfoDict : msi) : msi :=
  if HasPrefix sfpType "QSFP" || HasPrefix sfpType "OSFP" then
    list_to_map
      [("ChannelMonitorValues", JObj (if isSfpCmis then readings domInfoDict CmisDomChannelMonitorMap QsfpDdDomValueUnitMap
                                      else readings domInfoDict QsfpDomChannelMonitorMap DomValueUnitMap));
       ("ChannelThresholdValues", JObj (readings domInfoDict
          (if isSfpCmis then SfpDomChannelThresholdMap else QsfpDomChannelThresholdMap) DomChannelThresholdUnitMap));
       ("ModuleMonitorValues", JObj (readings domInfoDict DomModuleMonitorMap DomValueUnitMap));
       ("ModuleThresholdValues", JObj (readings domInfoDict DomModuleThresholdMap DomModuleThresholdUnitMap))]
  else
    list_to_map
      [("MonitorData", JObj (readings domInfoDict DomModuleMonitorMap DomValueUnitMap ∪
                             readings domInfoDict SfpDomChannelMonitorMap DomValueUnitMap));
       ("ThresholdData", JObj (readings domInfoDict SfpDomChannelThresholdMap DomChannelThresholdUnitMap ∪
                               readings domInfoDict DomModuleThresholdMap DomModuleThresholdUnitMap))].

Definition IsRj45Port (iface : string) : Cmd bool :=
  sfpInfoDict ← map_or_empty ["STATE_DB"; "TRANSCEIVER_INFO"; iface];
  mret (bool_decide (sfpInfoDict !! "type" = Some (JStr "RJ45"))).

Definition no_mappings : PortMappingRetriever := {| logicalToPhysical := ∅; physicalToLogic := ∅; pmr_err := None |}.

Definition first_subport (iface : string) : Cmd string :=
  pmr ← ReadPorttabMappings Y no_mappings; mret (GetFirstSubPort pmr iface).

Definition rj45_message : string := "SFP EEPROM is not applicable for RJ45 port".
Definition not_detected : string := "SFP EEPROM Not detected" +:+ newline.

(** The sensors of the first port of the cage, where the type is a string. *)
Definition dom_output (sfpInfoDict : msi) (firstPort : string) : Cmd msi :=
  domInfoDict ← map_or_empty ["STATE_DB"; "TRANSCEIVER_DOM_SENSOR"; firstPort];
  domThresholdDict ← map_or_empty ["STATE_DB"; "TRANSCEIVER_DOM_THRESHOLD"; firstPort];
  mret (match sfpInfoDict !! "type" with
        | Some (JStr sfpType) =>
            convertDomToOutputString sfpType (isTransceiverCmis sfpInfoDict) (domThresholdDict ∪ domInfoDict)
        | _ => ∅
        end).

Definition convertInterfaceSfpInfoToCliOutputString (iface : string) (dumpDom : bool) : Cmd string :=
  firstPort ← first_subport iface;
  if bool_decide (firstPort = "") then mret not_detected
  else
    sfpInfoDict ← map_or_empty ["STATE_DB"; "TRANSCEIVER_INFO"; iface];
    sfpFirmwareInfoDict ← map_or_empty ["STATE_DB"; "TRANSCEIVER_FIRMWARE_INFO"; iface];
    if bool_decide (sfpInfoDict = ∅) then
      rj45 ← IsRj45Port iface;
      mret (if rj45 : bool then rj45_message else not_detected)
    else if bool_decide (sfpInfoDict !! "type" = Some (JStr RJ45PortType)) then mret rj45_message
    else
      dom ← (if dumpDom then dom_output sfpInfoDict firstPort else mret ∅);
      mret (default ("Error serializing SFP info" +:+ newline)
              (Marshal (JObj (dom ∪ convertSfpInfoToOutputString sfpInfoDict sfpFirmwareInfoDict)))).

(** ** Status *)

Definition convertSfpStatusToOutputString (sfpStatus : msi) (statusMap : labels) (orderedKeys : list string) : msi :=
  insert_all (λ k, label ← statusMap !! k; val ← sfpStatus !! k; Some (label, val)) ∅ orderedKeys.

Definition normalize_rules : list (string * string) :=
  [("temphighalarm_flag", "tempHAlarm"); ("temphighwarning_flag", "tempHWarn");
   ("templowwarning_flag", "tempLWarn"); ("templowalarm_flag", "tempLAlarm");
   ("vcchighalarm_flag", "vccHAlarm"); ("vcchighwarning_flag", "vccHWarn");
   ("vcclowwarning_flag", "vccLWarn"); ("vcclowalarm_flag", "vccLAlarm")].

Definition normalizeCmisFlagKeys (m : msi) : msi :=
  foldl (λ m '(old, new),
    match m !! old, m !! new with Some v, None => <[new := v]> m | _, _ => m end) m normalize_rules.

Definition legacy_name (vdmFieldType legacyPrefix threshType : string) : string :=
  if bool_decide (vdmFieldType = "FLAG") then legacyPrefix +:+ threshType +:+ "_flag" else legacyPrefix +:+ threshType.

(** The two loops over what the four tables hold. *)
Definition vdm_update (vdmFieldType : string) (vdmToLegacyFieldMap : labels) (vdmThresholdTypes : gmap string msi)
    (dict : msi) : msi :=
  foldl (λ dict '(vdmField, legacyPrefix),
    foldl (λ dict '(threshType, vdmDict),
      match (vdmDict : msi) !! vdmField with
      | Some val => <[legacy_name vdmFieldType legacyPrefix threshType := val]> dict
      | None => dict
      end) dict (map_range vdmThresholdTypes)) dict (map_range vdmToLegacyFieldMap).

(** [None] is a nil map, which is left alone. *)
Definition convertVdmFieldsToLegacyFields (interfaceName : string) (dictToBeUpdated : option msi)
    (vdmToLegacyFieldMap : labels) (vdmFieldType : string) : Cmd (option msi) :=
  match dictToBeUpdated with
  | None => mret None
  | Some dict =>
      if bool_decide (vdmFieldType ≠ "FLAG") && bool_decide (vdmFieldType ≠ "THRESHOLD") then mret (Some dict)
      else
        let getVdmFromDB prefix := map_or_empty ["STATE_DB"; prefix +:+ "_" +:+ vdmFieldType; interfaceName] in
        halarm ← getVdmFromDB "TRANSCEIVER_VDM_HALARM";
        lalarm ← getVdmFromDB "TRANSCEIVER_VDM_LALARM";
        hwarn ← getVdmFromDB "TRANSCEIVER_VDM_HWARN";
        lwarn ← getVdmFromDB "TRANSCEIVER_VDM_LWARN";
        mret (Some (vdm_update vdmFieldType vdmToLegacyFieldMap
          (list_to_map [("highalarm", halarm); ("lowalarm", lalarm); ("highwarning", hwarn); ("lowwarning", lwarn)]) dict))
  end.

Definition not_applicable : string := TransceiverStatusNotApplicable +:+ newline.

(** The sections of a status, each over the fields as the ones before left
    them: the later sections overwrite labels of the earlier ones. *)
Definition status_output (firstSubport : string) (status : msi) : Cmd msi :=
  let output := convertSfpStatusToOutputString status QsfpStatusMap qsfpStatusOrder in
  '(status, output) ← (if bool_decide (is_Some (status !! "module_state")) then
      status ← convertVdmFieldsToLegacyFields firstSubport (Some (normalizeCmisFlagKeys status)) CmisVdmToLegacyStatusMap "FLAG";
      let status := default ∅ status in
      mret (status, convertSfpStatusToOutputString status CmisStatusMap cmisStatusOrder ∪ output)
    else mret (status, output));
  if bool_decide (is_Some (status !! "tuning_in_progress")) then
    status ← convertVdmFieldsToLegacyFields firstSubport (Some status) CCmisVdmToLegacyStatusMap "FLAG";
    mret (convertSfpStatusToOutputString (default ∅ status) CCmisStatusMap ccmisStatusOrder ∪ output)
  else mret output.

Definition convertInterfaceSfpStatusToCliOutputString (iface : string) : Cmd string :=
  firstSubport ← first_subport iface;
  if bool_decide (firstSubport = "") then mret not_applicable
  else
    sfpStatusDict ← map_or_empty ["STATE_DB"; "TRANSCEIVER_STATUS"; firstSubport];
    if bool_decide (sfpStatusDict = ∅) then mret not_applicable
    else
      merged ← for_each (λ merged '(table, key), inDB ← map_or_empty ["STATE_DB"; table; key]; mret (inDB ∪ merged))
        sfpStatusDict [("TRANSCEIVER_STATUS_SW", iface); ("TRANSCEIVER_STATUS_FLAG", firstSubport);
                       ("TRANSCEIVER_DOM_FLAG", firstSubport)];
      if bool_decide (size merged ≤ 2) then mret not_applicable
      else
        output ← status_output firstSubport merged;
        if bool_decide (output = ∅) then mret not_applicable
        else mret (default ("Error serializing SFP status" +:+ newline) (Marshal (JObj output))).

(** ** Performance monitoring *)
Context {FL : GoFloat} {FT : FloatText}.

Definition BeautifyPmField (prefix : string) (field : float64) : string :=
  if bool_decide (prefix = "prefec_ber") then (if fnonzero field then fmt_E 2 field else "0")
  else fmt_v field.

Definition ZR_PM_NOT_APPLICABLE_STR : string := "Transceiver performance monitoring not applicable".

(** Name of the parameter, unit and prefix. *)
Definition ZR_PM_INFO_MAP : gmap string (string * string) := list_to_map
  [("Tx Power", ("dBm", "tx_power")); ("Rx Total Power", ("dBm", "rx_tot_power"));
   ("Rx Signal Power", ("dBm", "rx_sig_power")); ("CD-short link", ("ps/nm", "cd")); ("PDL", ("dB", "pdl"));
   ("OSNR", ("dB", "osnr")); ("eSNR", ("dB", "esnr")); ("CFO", ("MHz", "cfo")); ("DGD", ("ps", "dgd"));
   ("SOPMD", ("ps^2", "sopmd")); ("SOP ROC", ("krad/s", "soproc")); ("Pre-FEC BER", ("N/A", "prefec_ber"));
   ("Post-FEC BER", ("N/A", "uncorr_frames")); ("EVM", ("%", "evm"))].
Definition ZR_PM_VALUE_KEY_SUFFIXS : list string := ["min"; "avg"; "max"].
Definition ZR_PM_THRESHOLD_KEY_SUFFIXS : list string := ["highalarm"; "highwarning"; "lowalarm"; "lowwarning"].
Definition CCMIS_VDM_THRESHOLD_TO_LEGACY_DOM_THRESHOLD_MAP : labels := list_to_map
  [("rxtotpower1", "rxtotpower"); ("rxsigpower1", "rxsigpower"); ("cdshort1", "cdshort"); ("pdl1", "pdl");
   ("osnr1", "osnr"); ("esnr1", "esnr"); ("cfo1", "cfo"); ("dgd1", "dgd"); ("sopmd1", "sopmd");
   ("soproc1", "soproc"); ("prefec_ber_avg_media_input1", "prefecber");
   ("errored_frames_avg_media_input1", "postfecber"); ("evm1", "evm")].

Definition ConvertPmPrefixToThresholdPrefix (prefix : string) : string :=
  if bool_decide (prefix = "uncorr_frames") then "postfecber"
  else if bool_decide (prefix = "cd") then "cdshort"
  else ReplaceAll prefix "_" "".

Definition pm_number (prefix : string) (v : option json) : string :=
  default "N/A" (v ← v; f ← ParseFloat (Sprintv v); Some (BeautifyPmField prefix f)).

(** Whether the left number is greater, from the texts of both. *)
Definition crossing (gt : string → string → option bool) (value threshold : string) : string :=
  if bool_decide (threshold = "N/A") then "N/A"
  else match gt value threshold with Some b => if b : bool then "true" else "false" | None => "N/A" end.

Definition text_gt (a b : string) : option bool := x ← ParseFloat a; y ← ParseFloat b; Some (fgt x y).

Definition unit_field (unit field : string) : string :=
  field +:+ (if negb (bool_decide (unit = "N/A")) && negb (bool_decide (field = "N/A")) then unit else "") +:+ ",".

Definition pm_row (sfpPMDict sfpThresholdDict : msi) (info : string * string) : string :=
  let '(unit, prefix) := info in
  let value suffix := pm_number prefix (sfpPMDict !! (prefix +:+ "_" +:+ suffix)) in
  let threshold suffix :=
    match sfpThresholdDict !! (ConvertPmPrefixToThresholdPrefix prefix +:+ suffix) with
    | Some (JStr "N/A") => "N/A"
    | v => pm_number prefix v
    end in
  let values := value <$> ZR_PM_VALUE_KEY_SUFFIXS in
  let thresholds := threshold <$> ZR_PM_THRESHOLD_KEY_SUFFIXS in
  let tcaHigh := crossing text_gt (value "max") (threshold "highalarm") in
  let tcaLow := crossing (λ a b, text_gt b a) (value "min") (threshold "lowalarm") in
  Join (unit_field unit <$> (values ++ take 2 thresholds)) "" +:+ tcaHigh +:+ "," +:+
  Join (unit_field unit <$> drop 2 thresholds) "" +:+ tcaLow.

Definition pm_description : string :=
  "Min,Avg,Max,Threshold High Alarm,Threshold High Warning,Threshold Crossing Alert-High,Threshold Low Alarm,Threshold Low Warning,Threshold Crossing Alert-Low".

Definition pm_not_applicable (intf : string) : row :=
  row_of [("interface", intf); ("description", ZR_PM_NOT_APPLICABLE_STR)].

Definition formatSfpPM (intf : string) (sfpPMDict : msi) (sfpThresholdDict : option msi) : Cmd row :=
  firstSubport ← first_subport intf;
  if bool_decide (firstSubport = "") then mret (pm_not_applicable intf)
  else
    sfpThresholdDict ← convertVdmFieldsToLegacyFields firstSubport sfpThresholdDict
      CCMIS_VDM_THRESHOLD_TO_LEGACY_DOM_THRESHOLD_MAP "THRESHOLD";
    mret (if bool_decide (sfpPMDict = ∅) then pm_not_applicable intf
          else insert_all (λ '(paramName, info), Some (paramName, pm_row sfpPMDict (default ∅ sfpThresholdDict) info))
                 (row_of [("interface", intf); ("description", pm_description)]) (map_range ZR_PM_INFO_MAP)).

(** [ok, _ := IsValidPhysicalPort(p)] *)
Definition is_physical (p : string) : Cmd bool :=
  r ← try (IsValidPhysicalPort Y p); mret (match r with Ok b => b | Err _ => false end).

Definition pm_of_port (sfpPMDict sfpThresholdDict : msi) (p : string) : Cmd (option row) :=
  ok ← is_physical p;
  if ok : bool then
    match sfpPMDict !! p with
    | Some (JObj pm) => Some <$> formatSfpPM p pm (sfpThresholdDict !! p ≫= as_map)
    | _ => mret (Some (pm_not_applicable p))
    end
  else mret None.

Definition getInterfaceTransceiverPM (args : CmdArgs) (options : OptionMap) : Cmd json :=
  let intf := args_At args 0 in
  sfpPMDict ← GetMapFromQueries Y [["STATE_DB"; "TRANSCEIVER_PM"; intf]];
  sfpThresholdDict ← GetMapFromQueries Y [["STATE_DB"; "TRANSCEIVER_DOM_THRESHOLD"]];
  ports ← (if bool_decide (intf ≠ "") then mret [intf]
           else portTable ← GetMapFromQueries Y [["APPL_DB"; "PORT_TABLE"]];
                mret (natsort (map_range portTable).*1));
  rows ← mapC (pm_of_port sfpPMDict sfpThresholdDict) ports;
  mret (rows_doc (omap id rows)).

(** ** The other commands *)

Definition getAllPortsFromConfigDB : Cmd (list string) :=
  data ← GetMapFromQueries Y [["CONFIG_DB"; "PORT"]]; mret (map_range data).*1.

Definition getTransceiverErrorStatus (args : CmdArgs) (options : OptionMap) : Cmd string :=
  let intf := args_At args 0 in
  GetDataFromQueries Y [if bool_decide (intf = "") then ["STATE_DB"; "TRANSCEIVER_STATUS_SW"]
                        else ["STATE_DB"; "TRANSCEIVER_STATUS_SW"; intf]].

Definition present (data : msi) (port : string) : string :=
  if bool_decide (is_Some (data !! port)) then "Present" else "Not Present".

Definition getInterfaceTransceiverPresence (args : CmdArgs) (options : OptionMap) : Cmd json :=
  let intf := args_At args 0 in
  data ← GetMapFromQueries Y [["STATE_DB"; "TRANSCEIVER_INFO"]];
  ports ← (if bool_decide (intf ≠ "") then mret [intf] else getAllPortsFromConfigDB);
  mret (row_doc (insert_all (λ port, Some (port, present data port)) ∅ ports)).

Definition getEEPROM (args : CmdArgs) (options : OptionMap) : Cmd row :=
  let intf := args_At args 0 in
  let dumpDom := default false (ov_Bool (opt_get options "dom")) in
  portTable ← GetMapFromQueries Y [["APPL_DB"; "PORT_TABLE"]];
  for_each (λ intfEEPROM iface,
    if bool_decide (intf ≠ "") && bool_decide (iface ≠ intf) then mret intfEEPROM
    else if IsFrontPanelPort iface (GetFieldValueString portTable iface DefaultMissingCounterValue "role") then
      text ← convertInterfaceSfpInfoToCliOutputString iface dumpDom; mret (<[iface := text]> intfEEPROM)
    else mret intfEEPROM) ∅ (map_range portTable).*1.

Definition getTransceiverInfo (args : CmdArgs) (options : OptionMap) : Cmd json :=
  row_doc <$> getEEPROM args options.

Definition lpmode_line (line : string) : option row :=
  let line := TrimSpace line in
  if bool_decide (line = "") || HasPrefix line "Port" || HasPrefix line "---" then None
  else match Fields line with
       | [port; mode] =>
           let ml := ToLower mode in
           let mode := if bool_decide (ml = "on") || bool_decide (ml = "off") then Capitalize ml else mode in
           Some (row_of [("Port", port); ("Low-power Mode", mode)])
       | _ => None
       end.

Definition getInterfaceTransceiverLpMode (args : CmdArgs) (options : OptionMap) : Cmd json :=
  let intf := args_At args 0 in
  let cmdParts := ["sudo"; "sfputil"; "show"; "lpmode"] ++ (if bool_decide (intf ≠ "") then ["-p"; intf] else []) in
  match GetDataFromHostCommand (Join cmdParts " ") with
  | None => fail (PlainErr "command failed")
  | Some output => mret (rows_doc (omap lpmode_line (Split output newline)))
  end.

Definition getInterfaceTransceiverStatus (args : CmdArgs) (options : OptionMap) : Cmd json :=
  let intfArg := args_At args 0 in
  mode ← returns (ParseInterfaceNamingMode (default "" (ov_String (opt_get options SonicCliIfaceMode))));
  portTable ← GetMapFromQueries Y [["APPL_DB"; "PORT_TABLE"]];
  ports ← (if bool_decide (intfArg ≠ "") then
             interfaceName ← TryConvertInterfaceNameFromAlias Y intfArg mode;
             if bool_decide (is_Some (portTable !! interfaceName)) then mret [interfaceName]
             else fail (PlainErr ("invalid interface name " +:+ intfArg))
           else mret (natsort (map_range portTable).*1));
  row_doc <$> for_each (λ result p,
    ok ← is_physical p;
    if ok : bool then text ← convertInterfaceSfpStatusToCliOutputString p; mret (<[p := text]> result)
    else mret result) ∅ ports.
End sfp.

(** * What the commands of transceivers show *)

(** ** Maps filled by a loop *)

Lemma insert_all_other {A B} (f : A → option (string * B)) m l k :
  (∀ y w, y ∈ l → f y ≠ Some (k, w)) → insert_all f m l !! k = m !! k.
Proof.
  unfold insert_all. revert m. induction l as [|x l IH]; intros m Hno; simpl; [done|].
  rewrite IH by (intros y w Hy; apply Hno; by right).
  destruct (f x) as [[k' w]|] eqn:Hx; [|done].
  rewrite lookup_insert_ne; [done|]. intros ->. by apply (Hno x w); [left|].
Qed.

(** The value of a key that all its writers agree on. *)
Lemma insert_all_agree {A B} (f : A → option (string * B)) m l k v :
  (m !! k = Some v ∨ ∃ x, x ∈ l ∧ f x = Some (k, v)) → (∀ y w, y ∈ l → f y = Some (k, w) → w = v) →
  insert_all f m l !! k = Some v.
Proof.
  unfold insert_all. revert m. induction l as [|y l IH]; intros m Hor Hag.
  { destruct Hor as [|(x & Hx & _)]; [done|by apply not_elem_of_nil in Hx]. }
  simpl. apply IH; [|intros z w Hz; apply Hag; by right].
  destruct (f y) as [[k' w]|] eqn:Hy.
  - destruct (decide (k' = k)) as [->|Hne].
    + left. rewrite lookup_insert_eq. f_equal. apply (Hag y); [by left|done].
    + destruct Hor as [Hm|(x & [->|Hx]%elem_of_cons & Hx')].
      * left. by rewrite lookup_insert_ne.
      * congruence.
      * right. eauto.
  - destruct Hor as [Hm|(x & [->|Hx]%elem_of_cons & Hx')]; [by left|congruence|right; eauto].
Qed.

Lemma insert_all_some {A B} (f : A → option (string * B)) m l x k v :
  x ∈ l → f x = Some (k, v) → is_Some (insert_all f m l !! k).
Proof.
  unfold insert_all. intros Hx Hf. revert m. induction l as [|y l IH]; intros m; [by apply not_elem_of_nil in Hx|].
  simpl. apply elem_of_cons in Hx as [<-|Hx]; [|by apply IH].
  rewrite Hf. assert (is_Some (<[k := v]> m !! k)) as Hm by (rewrite lookup_insert_eq; eauto).
  revert Hm. generalize (<[k := v]> m). clear. induction l as [|y l IH]; intros m Hm; simpl; [done|].
  apply IH. destruct (f y) as [[k' w]|]; [|done].
  destruct (decide (k' = k)) as [->|]; [rewrite lookup_insert_eq; eauto|by rewrite lookup_insert_ne].
Qed.

(** A table whose labels are distinct, by computation. *)
Definition distinct_labels (m : labels) : bool := bool_decide (NoDup (map_to_list m).*2 ∧ "" ∉ (map_to_list m).*2).

Lemma NoDup_fmap_eq {A B} (f : A → B) l x y : NoDup (f <$> l) → x ∈ l → y ∈ l → f x = f y → x = y.
Proof.
  intros Hnd [i Hi]%list_elem_of_lookup [j Hj]%list_elem_of_lookup Hf.
  assert (i = j) as ->; [|congruence].
  apply (NoDup_lookup (f <$> l) i j (f x) Hnd); rewrite list_lookup_fmap, ?Hi, ?Hj; simpl; congruence.
Qed.

Lemma distinct_inj m k k' l :
  distinct_labels m = true → m !! k = Some l → m !! k' = Some l → k = k' ∧ l ≠ "".
Proof.
  intros [Hnd He]%bool_decide_eq_true Hk%elem_of_map_to_list Hk'%elem_of_map_to_list. split.
  - by pose proof (NoDup_fmap_eq snd _ _ _ Hnd Hk Hk' eq_refl) as [= ->].
  - intros ->. apply He, list_elem_of_fmap. by exists (k, "").
Qed.

Lemma NoDup_writers {A B} (f : A → option (string * B)) l :
  NoDup l → (∀ x y k v w, x ∈ l → y ∈ l → f x = Some (k, v) → f y = Some (k, w) → x = y) → NoDup (omap f l).*1.
Proof.
  intros Hl. induction Hl as [|x l Hx Hl IH]; intros Hinj; [constructor|]. simpl.
  assert (NoDup (omap f l).*1) as Hnd by (apply IH; intros; eapply Hinj; eauto; by right).
  destruct (f x) as [[k v]|] eqn:Hf; [|done]. simpl. constructor; [|done].
  intros ([k' w] & Hk & (y & Hy & Hfy)%list_elem_of_omap)%list_elem_of_fmap. simpl in Hk. subst k'.
  apply Hx. rewrite (Hinj x y k v w); [done|by left|by right|done..].
Qed.

(** A loop over the keys of a table that writes under their labels. *)
Lemma labelled_loop {A} (m : labels) (f : string → option (string * A)) keys :
  distinct_labels m = true → keys ≡ₚ (map_to_list m).*1 →
  (∀ k l v, k ∈ keys → f k = Some (l, v) → m !! k = Some l) →
  ∀ l v, insert_all f ∅ keys !! l = Some v ↔ ∃ k, m !! k = Some l ∧ f k = Some (l, v).
Proof.
  intros Hd Hk Hf l v. rewrite insert_all_lookup.
  - split; intros (k & H1 & H2); exists k; (split; [|done]); [by eapply Hf|].
    rewrite Hk. apply elem_of_map_to_list in H1. by apply (list_elem_of_fmap_2 fst) in H1.
  - apply NoDup_writers; [rewrite Hk; apply NoDup_fst_map_to_list|].
    intros x y l' v1 v2 Hx Hy Fx Fy. by apply (distinct_inj m x y l' Hd); eapply Hf.
Qed.

Section facts.
Context {Sw : Swss} {MR : MapRange} {JCo : JsonCodec} {Fmt : GoFmt} {NS : NatSort} {H : HostCmd} {SS : SliceSort}.
Notation msi := (gmap string json).

(** ** Identification *)

Lemma data_maps_distinct info : distinct_labels (getTransceiverDataMap info) = true.
Proof. unfold getTransceiverDataMap. destruct (isTransceiverCCmis info), (isTransceiverCmis info); vm_compute; reflexivity. Qed.

(** The labels the special cases take from the first table are those of the
    table in use. *)
Lemma base_label info k : k ∈ ["specification_compliance"; "application_advertisement"] →
  getTransceiverDataMap info !! k = Some (label QsfpDataMap k).
Proof.
  intros Hk. unfold getTransceiverDataMap.
  assert (Forall (λ k, CCmisDataMap !! k = Some (label QsfpDataMap k) ∧ CmisDataMap !! k = Some (label QsfpDataMap k) ∧
                       QsfpDataMap !! k = Some (label QsfpDataMap k))
    ["specification_compliance"; "application_advertisement"]) as HF.
  { repeat constructor; vm_compute; reflexivity. }
  eapply Forall_forall in HF as (? & ? & ?); [|exact Hk].
  by destruct (isTransceiverCCmis info), (isTransceiverCmis info).
Qed.

(** Keys that are shown as they are. *)
Definition plain_key (key : string) : Prop :=
  key ∉ ["cable_type"; "cable_length"; "specification_compliance"; "application_advertisement";
         "active_firmware"; "inactive_firmware"] ∧ HasPrefix key "e1_" = false ∧ HasPrefix key "e2_" = false.

Lemma info_write_plain info fw key : plain_key key →
  info_write info fw key =
    (l ← getTransceiverDataMap info !! key;
     if bool_decide (l = "") then None
     else Some (l, JStr (match info !! key with Some v => Sprintv v | None => default "N/A" (Sprintv <$> fw !! key) end))).
Proof.
  intros (Hk & H1 & H2). unfold info_write. rewrite H1, H2.
  repeat (rewrite not_elem_of_cons in Hk; destruct Hk as [? Hk]).
  by rewrite !bool_decide_false by done.
Qed.

(** A label is written for its own key, or for the type of the cable. *)
Lemma info_write_label info fw k l v :
  info_write info fw k = Some (l, v) → l ≠ "" →
  k = "cable_type" ∧ info !! "cable_type" = Some (JStr l) ∨ getTransceiverDataMap info !! k = Some l.
Proof.
  intros Hw Hl. unfold info_write in Hw. repeat case_bool_decide; simplify_eq/=.
  all: try (destruct (info !! "cable_type") as [[]|]; simplify_eq/=; by left).
  all: right; repeat case_match; simplify_option_eq; try done.
  all: try (by apply base_label; set_solver).
  all: unfold label in *; destruct (getTransceiverDataMap info !! _) eqn:?; simplify_eq/=; done.
Qed.
Lemma sorted_keys_info info fw k :
  k ∈ getDataMapSortKey (map_range (fw ∪ info)).*1 (getTransceiverDataMap info) ↔ is_Some ((fw ∪ info : msi) !! k).
Proof.
  unfold getDataMapSortKey. rewrite sort_Slice_perm, map_range_perm. split.
  - intros ([k' v] & -> & Hv%elem_of_map_to_list)%list_elem_of_fmap. by exists v.
  - intros [v Hv%elem_of_map_to_list]. by apply (list_elem_of_fmap_2 fst) in Hv.
Qed.

(** Every known field of a transceiver is shown under its label with its
    value, whatever the order of the maps and of the sort, unless the type of
    the cable is that label: the value of the field [cable_type] is itself used
    as a label. *)
Theorem sfp_field_shown (info fw : msi) key lbl v :
  plain_key key → getTransceiverDataMap info !! key = Some lbl → info !! key = Some v →
  info !! "cable_type" ≠ Some (JStr lbl) →
  convertSfpInfoToOutputString info fw !! lbl = Some (JStr (Sprintv v)).
Proof.
  intros Hp Hl Hv Hc. destruct (distinct_inj _ _ _ _ (data_maps_distinct info) Hl Hl) as [_ Hne].
  apply insert_all_agree.
  - right. exists key. split; [apply sorted_keys_info, lookup_union_is_Some; right; by exists v|].
    rewrite info_write_plain, Hl, Hv by done. simpl. by rewrite bool_decide_false.
  - intros k w _ Hw. destruct (info_write_label _ _ _ _ _ Hw Hne) as [[_ ?]|Hk]; [done|].
    destruct (distinct_inj _ _ _ _ (data_maps_distinct info) Hk Hl) as [-> _].
    rewrite info_write_plain, Hl, Hv in Hw by done. simpl in Hw. rewrite bool_decide_false in Hw by done. congruence.
Qed.

(** Of a transceiver that is not of the CMIS kind, firmware versions are
    shown without a label: the key is empty, so one of them replaces the
    others. *)
Theorem sfp_firmware_unlabelled (info fw : msi) key v :
  key ∈ ["active_firmware"; "inactive_firmware"] →
  isTransceiverCmis info = false → isTransceiverCCmis info = false → fw !! key = Some v →
  let out := convertSfpInfoToOutputString info fw in
  is_Some (out !! "") ∧
  (info !! "cable_type" ≠ Some (JStr (label QsfpCmisDeltaDataMap key)) →
   out !! label QsfpCmisDeltaDataMap key = None).
Proof.
  intros Hk Hc Hcc Hv out.
  assert (getTransceiverDataMap info = QsfpDataMap) as Hmap by (unfold getTransceiverDataMap; by rewrite Hc, Hcc).
  assert (info_write info fw key = Some ("", JStr (Sprintv v))) as Hw.
  { unfold info_write. rewrite Hmap, Hc.
    apply elem_of_cons in Hk as [->| ->%list_elem_of_singleton]; cbn -[QsfpDataMap label]; by rewrite Hv. }
  split.
  - eapply insert_all_some; [|exact Hw]. apply sorted_keys_info, lookup_union_is_Some. left. by exists v.
  - intros Hcable. unfold out, convertSfpInfoToOutputString. rewrite insert_all_other; [done|].
    intros k w _ Hkw. apply info_write_label in Hkw as [[_ ?]|Hl].
    + done.
    + rewrite Hmap in Hl. apply elem_of_map_to_list, (list_elem_of_fmap_2 snd) in Hl. revert Hl.
      apply elem_of_cons in Hk as [->| ->%list_elem_of_singleton]; apply (bool_decide_unpack _); vm_compute; exact I.
    + apply elem_of_cons in Hk as [->| ->%list_elem_of_singleton]; vm_compute; congruence.
Qed.

(** ** Sensors and status *)

Lemma readings_spec (m um : labels) (d : msi) : distinct_labels m = true →
  ∀ l v, readings d m um !! l = Some v ↔ ∃ k, m !! k = Some l ∧ reading d m um k = Some (l, v).
Proof.
  intros Hd. apply (labelled_loop m); [done|by rewrite natsort_perm, map_range_perm|].
  intros k l v Hk Hr.
  assert (∃ x, m !! k = Some x) as [x Hx].
  { rewrite natsort_perm, map_range_perm in Hk. apply list_elem_of_fmap in Hk as ([k' x] & -> & Hx).
    exists x. by apply elem_of_map_to_list. }
  unfold reading, label in Hr. rewrite Hx in *. repeat case_match; simplify_eq/=; done.
Qed.

(** The tables of readings, with the units that go with them. *)
Definition dom_tables : list (labels * labels) :=
  [(CmisDomChannelMonitorMap, QsfpDdDomValueUnitMap); (QsfpDomChannelMonitorMap, DomValueUnitMap);
   (SfpDomChannelThresholdMap, DomChannelThresholdUnitMap); (QsfpDomChannelThresholdMap, DomChannelThresholdUnitMap);
   (DomModuleMonitorMap, DomValueUnitMap); (DomModuleThresholdMap, DomModuleThresholdUnitMap);
   (SfpDomChannelMonitorMap, DomValueUnitMap)].

Definition units_known (t : labels * labels) : bool :=
  distinct_labels t.1 && forallb (λ k, bool_decide (label t.2 k ≠ "")) (map_to_list t.1).*1.

Lemma dom_tables_known : forallb units_known dom_tables = true.
Proof. vm_compute. reflexivity. Qed.

Lemma dom_table_spec m um : (m, um) ∈ dom_tables →
  distinct_labels m = true ∧ ∀ k l, m !! k = Some l → label um k ≠ "".
Proof.
  intros Hm. pose proof dom_tables_known as HF. rewrite forallb_forall in HF.
  apply list_elem_of_In, HF, andb_true_iff in Hm as [Hd Hu]. split; [done|]. intros k l Hk.
  rewrite forallb_forall in Hu. eapply bool_decide_eq_true_1, Hu.
  apply list_elem_of_In, (list_elem_of_fmap_2 fst _ (k, l)). by apply elem_of_map_to_list.
Qed.

(** A reading is shown under its label with its unit, once: a reading that
    already ends in the unit is shown as it is, an unknown one without unit,
    and what is missing or not available is left out. *)
Theorem dom_reading_shown (m um : labels) (d : msi) key lbl s :
  (m, um) ∈ dom_tables → m !! key = Some lbl → d !! key = Some (JStr s) →
  ∃ unit, um !! key = Some unit ∧ unit ≠ "" ∧
  readings d m um !! lbl =
    (if bool_decide (s = "N/A") then None
     else Some (JStr (if bool_decide (s = "Unknown") || HasSuffix s unit then s else s +:+ unit))).
Proof.
  intros Hm Hk Hs. destruct (dom_table_spec _ _ Hm) as [Hd Hu]. specialize (Hu _ _ Hk).
  exists (label um key). split; [unfold label in *; by destruct (um !! key)|]. split; [done|].
  assert (reading d m um key = if bool_decide (s = "N/A") then None else Some (lbl, JStr (with_unit s (label um key)))) as Hr.
  { assert (label m key = lbl) as <- by (unfold label; by rewrite Hk). unfold reading. by rewrite Hs. }
  case_bool_decide as Hna.
  - apply eq_None_not_Some. intros [v (k & Hk' & Hr')%readings_spec]; [|done].
    destruct (distinct_inj _ _ _ _ Hd Hk' Hk) as [-> _]. congruence.
  - apply readings_spec; [done|]. exists key. split; [done|]. rewrite Hr. do 2 f_equal. unfold with_unit.
    destruct (bool_decide (s = "Unknown")), (HasSuffix s (label um key)); simpl; by rewrite ?app_empty_r.
Qed.

(** The three tables of a status with the orders of their keys. *)
Definition status_tables : list (labels * list string) :=
  [(QsfpStatusMap, qsfpStatusOrder); (CmisStatusMap, cmisStatusOrder); (CCmisStatusMap, ccmisStatusOrder)].

Definition order_complete (t : labels * list string) : bool :=
  distinct_labels t.1 && bool_decide (t.2 ≡ₚ (map_to_list t.1).*1).

Lemma status_tables_complete : forallb order_complete status_tables = true.
Proof. vm_compute. reflexivity. Qed.

(** A section of a status shows exactly the fields its table labels, each
    with its value: the list of keys that is walked leaves out none of the
    table. *)
Theorem status_section_exact (m : labels) (order : list string) (status : msi) lbl v :
  (m, order) ∈ status_tables →
  convertSfpStatusToOutputString status m order !! lbl = Some v ↔ ∃ k, m !! k = Some lbl ∧ status !! k = Some v.
Proof.
  intros Hm. pose proof status_tables_complete as HF. rewrite forallb_forall in HF.
  apply list_elem_of_In, HF, andb_true_iff in Hm as [Hd Ho%bool_decide_eq_true]. simpl in Hd, Ho.
  unfold convertSfpStatusToOutputString. rewrite (labelled_loop m); [|done..|].
  - split; intros (k & Hk & Hv); exists k; (split; [done|]); simplify_option_eq; done.
  - intros k l w _ Hw. by simplify_option_eq.
Qed.
(** ** Fields of the newer tables *)

Definition thresh_types : list string := ["highalarm"; "lowalarm"; "highwarning"; "lowwarning"].

Definition vdm_tables : list (labels * string) :=
  [(CmisVdmToLegacyStatusMap, "FLAG"); (CCmisVdmToLegacyStatusMap, "FLAG");
   (CCMIS_VDM_THRESHOLD_TO_LEGACY_DOM_THRESHOLD_MAP, "THRESHOLD")].

Definition legacy_names (t : labels * string) : list string :=
  (λ '(e, th), legacy_name t.2 e.2 th) <$> (e ← map_to_list t.1; th ← thresh_types; [(e, th)]).

Lemma legacy_names_distinct : forallb (λ t, bool_decide (NoDup (legacy_names t))) vdm_tables = true.
Proof. vm_compute. reflexivity. Qed.

Lemma legacy_name_inj (m : labels) ty f p th f' p' th' :
  (m, ty) ∈ vdm_tables → m !! f = Some p → m !! f' = Some p' → th ∈ thresh_types → th' ∈ thresh_types →
  legacy_name ty p th = legacy_name ty p' th' → f = f' ∧ th = th'.
Proof.
  intros Hm Hf Hf' Ht Ht' Hn. pose proof legacy_names_distinct as HF. rewrite forallb_forall in HF.
  apply list_elem_of_In, HF, bool_decide_eq_true in Hm. unfold legacy_names in Hm.
  assert (∀ g q u, m !! g = Some q → u ∈ thresh_types →
    ((g, q), u) ∈ (e ← map_to_list m; th ← thresh_types; [(e, th)])) as Hin.
  { intros g q u Hg Hu. apply list_elem_of_bind. exists (g, q). split; [|by apply elem_of_map_to_list].
    apply list_elem_of_bind. exists u. split; [by left|done]. }
  pose proof (NoDup_fmap_eq _ _ _ _ Hm (Hin _ _ _ Hf Ht) (Hin _ _ _ Hf' Ht') Hn) as [= -> _ ->]. done.
Qed.

(** What the inner loops write, as one loop. *)
Definition vdm_write (ty : string) (x : (string * string) * (string * msi)) : option (string * json) :=
  let '((f, p), (th, d)) := x in v ← d !! f; Some (legacy_name ty p th, v).

Lemma vdm_update_insert_all ty (m : labels) (T : gmap string msi) dict :
  vdm_update ty m T dict = insert_all (vdm_write ty) dict (e ← map_range m; t ← map_range T; [(e, t)]).
Proof.
  unfold vdm_update, insert_all. generalize (map_range m) as l. intros l. revert dict.
  induction l as [|[f p] l IH]; intros dict; simpl; [done|].
  rewrite IH, foldl_app. f_equal. clear IH. generalize (map_range T) as l'. intros l'. revert dict.
  induction l' as [|[th d] l' IH]; intros dict; simpl; [done|].
  rewrite IH. f_equal. simpl. by destruct (d !! f).
Qed.

Lemma elem_of_vdm (m : labels) (T : gmap string msi) f p th d :
  ((f, p), (th, d)) ∈ (e ← map_range m; t ← map_range T; [(e, t)]) ↔ m !! f = Some p ∧ T !! th = Some d.
Proof.
  rewrite list_elem_of_bind. split.
  - intros ([f' p'] & ([th' d'] & He%list_elem_of_singleton & Ht)%list_elem_of_bind & Hm). simplify_eq.
    by apply elem_of_map_range in Hm, Ht.
  - intros [Hm Ht]. exists (f, p). rewrite elem_of_map_range. split; [|done].
    apply list_elem_of_bind. exists (th, d). rewrite elem_of_map_range. split; [by left|done].
Qed.

(** Copying the newer tables into the fields of the older ones puts every
    value they hold under its old name and changes nothing else, so the order
    of the maps does not matter: no two values have the same name. *)
Theorem vdm_fields_copied (m : labels) ty (T : gmap string msi) (dict : msi) :
  (m, ty) ∈ vdm_tables → dom T ⊆ list_to_set thresh_types →
  let copied name := ∃ (f p th : string) (d : msi), m !! f = Some p ∧ T !! th = Some d ∧ is_Some (d !! f) ∧ name = legacy_name ty p th in
  (∀ (f p th : string) (d : msi) v, m !! f = Some p → T !! th = Some d → d !! f = Some v →
     vdm_update ty m T dict !! legacy_name ty p th = Some v) ∧
  (∀ name, ¬ copied name → vdm_update ty m T dict !! name = dict !! name).
Proof.
  intros Hm HT copied. rewrite vdm_update_insert_all.
  assert (∀ th d, T !! th = Some d → th ∈ thresh_types) as Hth.
  { intros th d Ht. apply elem_of_dom_2, HT, elem_of_list_to_set in Ht. done. }
  split.
  - intros f p th d v Hf Ht Hv. apply insert_all_agree.
    + right. exists ((f, p), (th, d)). split; [by apply elem_of_vdm|]. simpl. by rewrite Hv.
    + intros [[f' p'] [th' d']] w [Hf' Ht']%elem_of_vdm Hw. simpl in Hw. simplify_option_eq.
      destruct (legacy_name_inj m ty f' p' th' f p th) as [-> ->]; [eauto..|]. congruence.
  - intros name Hno. apply insert_all_other.
    intros [[f p] [th d]] w [Hf Ht]%elem_of_vdm Hw. simpl in Hw. simplify_option_eq.
    apply Hno. exists f, p, th, d. eauto.
Qed.

(** ** Performance monitoring *)
Context {FL : GoFloat} {FT : FloatText}.

(** The map of an entry that exists holds its fields. *)
Lemma entry_table_flat t ns db sep tbl key m :
  key ≠ "" → TableData2Msi t (real_path ns db sep tbl key "") false None ∅ = Ok m →
  map_Forall (λ _ v, is_Some (as_string v)) m.
Proof.
  intros Hk. unfold TableData2Msi, real_path, buildTablePath. simpl.
  intros (c & _ & (l & Hl & Hm)%bind_Ok)%bind_Ok. rewrite bool_decide_false in Hl by done.
  injection Hl as <-. simpl in Hm. apply bind_Ok in Hm as (m' & Hr & [= <-]).
  unfold render_key in Hr. simpl in Hr. apply bind_Ok in Hr as (fv & _ & Hr).
  rewrite bool_decide_true in Hr by done. simpl in Hr. injection Hr as <-.
  rewrite (right_id_L ∅ (∪)). intros k v. rewrite lookup_fmap_Some. intros (x & <- & _). by eexists.
Qed.

Lemma entry_is_flat Y q s s1 ns db sep tbl key m s2 :
  key ≠ "" → query_paths Y q s = (s1, Ok [real_path ns db sep tbl key ""]) →
  GetMapFromQueries Y [q] s = (s2, Ok m) → map_Forall (λ _ v, is_Some (as_string v)) m.
Proof.
  intros Hk Hq. unfold GetMapFromQueries, CreateTablePathsFromQueries. simpl.
  unfold mbind, mret, Cmd_bind, Cmd_ret. rewrite Hq. simpl. unfold mbind, mret, Cmd_bind, Cmd_ret.
  destruct (TableData2Msi _ _ _ _ _) as [m'|[]] eqn:Ht; simpl; intros [= <- <-].
  by eapply entry_table_flat.
Qed.

(** Asked for one interface that has monitoring data, the command answers
    that monitoring is not applicable: it looks for the name of the interface
    among the fields of the entry. *)
Theorem pm_of_one_interface Y intf options s s1 ns sep s' doc :
  intf ≠ "" →
  query_paths Y ["STATE_DB"; "TRANSCEIVER_PM"; intf] s = (s1, Ok [real_path ns "STATE_DB" sep "TRANSCEIVER_PM" intf ""]) →
  getInterfaceTransceiverPM Y [intf] options s = (s', Ok doc) →
  doc = rows_doc [] ∨ doc = rows_doc [pm_not_applicable intf].
Proof.
  intros Hi Hq. unfold getInterfaceTransceiverPM. simpl args_At.
  intros (s2 & pm & Hpm & (s3 & th & _ & (s4 & ports & Hp & (s5 & rows & Hr & Hd)%bind_Cmd_Ok)%bind_Cmd_Ok)%bind_Cmd_Ok)%bind_Cmd_Ok.
  pose proof (entry_is_flat _ _ _ _ _ _ _ _ _ _ _ Hi Hq Hpm) as Hflat.
  rewrite bool_decide_true in Hp by done. injection Hp as _ <-.
  simpl in Hr. apply bind_Cmd_Ok in Hr as (s6 & o & Ho & Hr). injection Hr as _ <-. injection Hd as _ <-. simpl.
  assert (o = None ∨ o = Some (pm_not_applicable intf)) as [-> | ->]; [|by left|by right].
  unfold pm_of_port in Ho. apply bind_Cmd_Ok in Ho as (s7 & ok & _ & Ho). unfold mret, Cmd_ret in Ho. destruct ok; [|simplify_eq/=; by left].
  change (args_At [intf] 0) with intf in Ho. right.
  destruct (pm !! intf) as [v|] eqn:Hv; [|by simplify_eq/=].
  destruct (Hflat _ _ Hv) as [str Hs]. destruct v; try done. by simplify_eq/=.
Qed.
End facts.

(** ** Instances *)
Module SfpExample.
Import VdbExample ShowExample.

#[local] Instance sfp_swss : Swss := swss1.
#[local] Instance sfp_range : MapRange := canonical_range.
#[local] Instance sfp_fmt : GoFmt := {| fmt_number := Itoa; fmt_composite _ := "?" |}.
#[local] Instance sfp_float : GoFloat := {|
  float64 := Z; ParseFloat := Atoi; flit := id; fgt a b := bool_decide (b < a)%Z;
  fmul := Z.mul; fdiv := Z.div; fround := id; fmt_f _ := Itoa; fmt_e _ := Itoa |}.
#[local] Instance sfp_text : FloatText := {| fmt_E _ := Itoa; fmt_v := Itoa; fnonzero f := bool_decide (f ≠ 0%Z) |}.
#[local] Instance sfp_codec : JsonCodec := {| Unmarshal _ := None; Marshal _ := Some "{}" |}.
#[local] Instance sfp_sort : NatSort := {| natsort := id; natsort_perm l := reflexivity l |}.
#[local] Instance sfp_slice : SliceSort := {| sort_Slice A _ l := l; sort_Slice_perm A _ l := reflexivity l |}.

Definition module_info : gmap string json :=
  {["model" := JStr "ABC-1"; "type" := JStr "QSFP28"; "cable_type" := JStr "Length Cable(m)"; "cable_length" := JStr "3"]}.
Definition firmware : gmap string json := {["active_firmware" := JStr "1.0"; "inactive_firmware" := JStr "0.9"]}.

Lemma sfp_field_shown_witness :
  plain_key "model" ∧ getTransceiverDataMap module_info !! "model" = Some "Vendor PN" ∧
  module_info !! "model" = Some (JStr "ABC-1") ∧ module_info !! "cable_type" ≠ Some (JStr "Vendor PN") ∧
  convertSfpInfoToOutputString module_info firmware !! "Vendor PN" = Some (JStr "ABC-1").
Proof.
  assert (plain_key "model") as H1.
  { split; [apply (bool_decide_unpack _); vm_compute; exact I|]. split; reflexivity. }
  assert (getTransceiverDataMap module_info !! "model" = Some "Vendor PN") as H2 by (vm_compute; reflexivity).
  assert (module_info !! "model" = Some (JStr "ABC-1")) as H3 by (vm_compute; reflexivity).
  assert (module_info !! "cable_type" ≠ Some (JStr "Vendor PN")) as H4 by (vm_compute; congruence).
  exact (conj H1 (conj H2 (conj H3 (conj H4 (sfp_field_shown module_info firmware _ _ _ H1 H2 H3 H4))))).
Defined.

Lemma sfp_firmware_unlabelled_witness :
  "active_firmware" ∈ ["active_firmware"; "inactive_firmware"] ∧
  isTransceiverCmis module_info = false ∧ isTransceiverCCmis module_info = false ∧
  firmware !! "active_firmware" = Some (JStr "1.0") ∧
  is_Some (convertSfpInfoToOutputString module_info firmware !! "") ∧
  convertSfpInfoToOutputString module_info firmware !! "Active Firmware" = None.
Proof.
  assert ("active_firmware" ∈ ["active_firmware"; "inactive_firmware"]) as H1 by left.
  assert (isTransceiverCmis module_info = false) as H2 by (vm_compute; reflexivity).
  assert (isTransceiverCCmis module_info = false) as H3 by (vm_compute; reflexivity).
  assert (firmware !! "active_firmware" = Some (JStr "1.0")) as H4 by (vm_compute; reflexivity).
  destruct (sfp_firmware_unlabelled module_info firmware _ _ H1 H2 H3 H4) as [H5 H6].
  split_and!; [exact H1|exact H2|exact H3|exact H4|exact H5|]. apply H6. vm_compute. congruence.
Defined.

Lemma dom_reading_shown_witness :
  (DomModuleMonitorMap, DomValueUnitMap) ∈ dom_tables ∧ DomModuleMonitorMap !! "temperature" = Some "Temperature" ∧
  ∃ unit, DomValueUnitMap !! "temperature" = Some unit ∧ unit ≠ "" ∧
    readings {["temperature" := JStr "31.5"]} DomModuleMonitorMap DomValueUnitMap !! "Temperature" =
      Some (JStr (if HasSuffix "31.5" unit then "31.5" else "31.5" +:+ unit)).
Proof.
  assert ((DomModuleMonitorMap, DomValueUnitMap) ∈ dom_tables) as H1 by (unfold dom_tables; rewrite !elem_of_cons; tauto).
  assert (DomModuleMonitorMap !! "temperature" = Some "Temperature") as H2 by (vm_compute; reflexivity).
  split; [exact H1|]. split; [exact H2|].
  apply (dom_reading_shown _ _ {["temperature" := JStr "31.5"]} _ _ "31.5" H1 H2). vm_compute. reflexivity.
Defined.

Lemma status_section_exact_witness :
  (QsfpStatusMap, qsfpStatusOrder) ∈ status_tables ∧
  (convertSfpStatusToOutputString {["tx1fault" := JStr "True"]} QsfpStatusMap qsfpStatusOrder
     !! "Tx fault flag on media lane 1" = Some (JStr "True")).
Proof.
  assert ((QsfpStatusMap, qsfpStatusOrder) ∈ status_tables) as H1 by left. split; [exact H1|].
  apply (status_section_exact _ _ _ _ _ H1). exists "tx1fault". split; vm_compute; reflexivity.
Defined.

Lemma vdm_fields_copied_witness :
  let T : gmap string (gmap string json) := {["highalarm" := {["osnr1" := JStr "True"]}]} in
  (CCmisVdmToLegacyStatusMap, "FLAG") ∈ vdm_tables ∧ dom T ⊆ list_to_set thresh_types ∧
  vdm_update "FLAG" CCmisVdmToLegacyStatusMap T ∅ !! "osnrhighalarm_flag" = Some (JStr "True").
Proof.
  intros T. assert ((CCmisVdmToLegacyStatusMap, "FLAG") ∈ vdm_tables) as H1 by (right; left).
  assert (dom T ⊆ list_to_set thresh_types) as H2.
  { apply (bool_decide_unpack _). vm_compute. exact I. }
  split; [exact H1|]. split; [exact H2|].
  apply (proj1 (vdm_fields_copied CCmisVdmToLegacyStatusMap "FLAG" T ∅ H1 H2)
    "osnr1" "osnr" "highalarm" {["osnr1" := JStr "True"]}); vm_compute; reflexivity.
Defined.

Definition sfp_device : Sys := {|
  sys_env := {|
    env_cfg := env_cfg env0;
    Target2RedisDb := {["" := {["CONFIG_DB" := conn_of {["PORT|Ethernet0" := {["index" := "1"]}]};
      "APPL_DB" := conn_of {["PORT_TABLE:Ethernet0" := {["speed" := "100000"]}]};
      "STATE_DB" := conn_of {["TRANSCEIVER_PM|Ethernet0" := {["osnr_max" := "36"]}]}]}]};
    UNIT_TEST := "" |};
  read_file := λ _, None
|}.

Definition first_row (r : res cmd_err json) (f : string) : option json :=
  match r with Ok (JArr (JObj m :: _)) => m !! f | _ => None end.

(** Without an argument the row of the interface has its data. *)
Example pm_of_all_interfaces :
  first_row (getInterfaceTransceiverPM sfp_device [] ∅ show_init).2 "OSNR"
    = Some (JStr "N/A,N/A,36dB,N/A,N/A,N/A,N/A,N/A,N/A").
Proof. vm_compute. reflexivity. Qed.

Definition pm_doc : json :=
  match (getInterfaceTransceiverPM sfp_device ["Ethernet0"] ∅ show_init).2 with Ok d => d | Err _ => JNull end.

Lemma pm_of_one_interface_witness :
  "Ethernet0" ≠ "" ∧
  (query_paths sfp_device ["STATE_DB"; "TRANSCEIVER_PM"; "Ethernet0"] show_init).2
    = Ok [real_path "" "STATE_DB" "|" "TRANSCEIVER_PM" "Ethernet0" ""] ∧
  (getInterfaceTransceiverPM sfp_device ["Ethernet0"] ∅ show_init).2 = Ok pm_doc ∧
  (pm_doc = rows_doc [] ∨ pm_doc = rows_doc [pm_not_applicable "Ethernet0"]).
Proof.
  set (q := query_paths sfp_device ["STATE_DB"; "TRANSCEIVER_PM"; "Ethernet0"] show_init).
  set (g := getInterfaceTransceiverPM sfp_device ["Ethernet0"] ∅ show_init).
  assert ("Ethernet0" ≠ "") as H1 by congruence.
  assert (q.2 = Ok [real_path "" "STATE_DB" "|" "TRANSCEIVER_PM" "Ethernet0" ""]) as H2 by (vm_compute; reflexivity).
  assert (g.2 = Ok pm_doc) as H3 by (vm_compute; reflexivity).
  split; [exact H1|]. split; [exact H2|]. split; [exact H3|].
  apply (pm_of_one_interface sfp_device "Ethernet0" ∅ show_init q.1 "" "|" g.1 pm_doc H1).
  - unfold q in *. rewrite <- H2. by destruct (query_paths _ _ _).
  - unfold g in *. rewrite <- H3. by destruct (getInterfaceTransceiverPM _ _ _ _).
Defined.
End SfpExample.
