(* ===== verification/ShowSystem.v ===== *)
(** * SHOW commands of the platform
      (src/show_client/common/{host,file}.go, src/show_client/{platform_cli,
      version_cli,processes_cli,system_cli,chassis_module_cli,lldp_helpers,
      lldp_table_cli,lldp_neighbors_cli,ecnconfig_cli,clock_cli}.go,
      src/show_client/helpers/processes_helper.go)

    What the switch is made of, its processes and memory, its modules and its
    neighbours.  The facts about the platform are gathered once per process
    ([hwInfoOnce]) and kept in [hwInfoDict].

    The environment, the existence of files and the YAML library are
    parameters, and so are [json.Unmarshal] into the structures of LLDP and
    what [json.Indent] makes of the list of images.  In a document that a
    command writes, [JNum] is the integer itself. *)
From stdpp Require Import base gmap sets list strings pretty.
From S2P Require Import Prelude GoStrings Gnmi Json DbConfig DbConn VirtualDb VirtualDbFacts DbClient Bypass Show ShowLib ShowCounters ShowIntf ShowStats ShowHost.

Class PlatformEnv := {
  os_Getenv : string → string;
  FileExists : string → bool;
  yaml_Unmarshal : string → option (gmap string json)
}.

(** The lines a [bufio.Scanner] gives: without line ends, up to the first that
    does not fit its buffer. *)
Definition strip_cr (s : string) : string := TrimSuffix s (String (Ascii.ascii_of_nat 13) "").

Fixpoint fitting (lines : list string) : list string :=
  match lines with
  | [] => []
  | l :: lines => if bool_decide (String.length l ≤ 65535) then strip_cr l :: fitting lines else []
  end.

Definition scan_lines (text : string) : list string :=
  let lines := Split text newline in
  let lines := if bool_decide (last lines = Some "") then take (pred (length lines)) lines else lines in
  fitting lines.

(** ** Time zones *)

(** A directory as [filepath.WalkDir] finds it, its entries in lexical order;
    one that cannot be read has none. *)
Inductive fs_tree := FsFile (name : string) | FsDir (name : string) (entries : option (list fs_tree)).

Definition skipped_dirs : list string := ["posix"; "right"; "SystemV"].
Definition skipped_files : list string :=
  ["localtime"; "zone.tab"; "zone1970.tab"; "iso3166.tab"; "leapseconds"; "leap-seconds.list"; "tzdata.zi"; "posixrules"].

(** The path below the root, given the path of the directory. *)
Definition below (dir name : string) : string := if bool_decide (dir = "") then name else dir +:+ "/" +:+ name.

(** The zones of a tree in the order of the walk, or the error that ends it. *)
Fixpoint walk_zones (dir : string) (t : fs_tree) {struct t} : option (list string) :=
  match t with
  | FsFile name => Some (if bool_decide (name ∈ skipped_files) then [] else [below dir name])
  | FsDir name entries =>
      if bool_decide (name ∈ skipped_dirs) then Some []
      else
        l ← entries;
        (fix go (l : list fs_tree) : option (list string) :=
           match l with
           | [] => Some []
           | t :: l => z ← walk_zones (below dir name) t; zs ← go l; Some (z ++ zs)
           end) l
  end.

(** The root is not part of the relative paths; a file as the root is ".". *)
Definition zoneInfoRunner (root : fs_tree) : option (list string) :=
  match root with
  | FsFile name => Some (if bool_decide (name ∈ skipped_files) then [] else ["."])
  | FsDir name entries =>
      if bool_decide (name ∈ skipped_dirs) then Some []
      else l ← entries; zs ← mapM (walk_zones "") l; Some (sort_Strings (concat zs))
  end.

(** ** LLDP: what lldpctl prints, decoded *)

Record idEntry := { id_Type : string; id_Value : string }.
Record valueEntry := { ve_Value : string }.
Record capability := { cap_Type : string; cap_Enabled : bool }.
Record chassis := {
  ch_ID : list idEntry; ch_Name : list valueEntry; ch_Descr : list valueEntry;
  ch_MgmtIp : list valueEntry; ch_MgmtIface : list valueEntry; ch_Capability : list capability
}.
Record advertisedSpeed := { as_Type : string; as_HD : bool; as_FD : bool }.
Record autoNegotiation := {
  an_Supported : bool; an_Enabled : bool; an_Advertised : list advertisedSpeed; an_Current : list valueEntry
}.
Record port := {
  po_ID : list idEntry; po_Descr : list valueEntry; po_TTL : list valueEntry; po_MFS : list valueEntry;
  po_AutoNegotiation : list autoNegotiation
}.
Record vlan := { vl_VLANID : string; vl_PVID : bool; vl_Value : string }.
Record medCapability := { mc_Type : string; mc_Available : bool }.
Record lldpMed := { lm_DeviceType : list valueEntry; lm_Capability : list medCapability }.
Record unknownTLV := { ut_OUI : string; ut_Subtype : string; ut_Len : string; ut_Value : string }.
Record interfaceEntry := {
  ie_Name : string; ie_Via : string; ie_RID : string; ie_Age : string;
  ie_Chassis : list chassis; ie_Port : list port; ie_VLAN : list vlan; ie_LLDPMed : list lldpMed;
  ie_UnknownTLVs : list (option (list unknownTLV))
}.

(** [json.Unmarshal] into the data, the interfaces of its entries in order. *)
Class LldpCodec := { lldp_Unmarshal : string → option (list interfaceEntry) }.

Definition boolToYesNo (b : bool) : string := if b then "yes" else "no".
Definition boolToOnOff (b : bool) : string := if b then "on" else "off".

Section system.
Context {Sw : Swss} {MR : MapRange} {JCo : JsonCodec} {Fmt : GoFmt} {NS : NatSort} {H : HostCmd} {SS : SliceSort} {PE : PlatformEnv}
  {LC : LldpCodec}.
Variable Y : Sys.
Notation msi := (gmap string json).

(** ** Files *)

Definition ReadYamlToMap (filePath : string) : option msi := read_file Y filePath ≫= yaml_Unmarshal.

Definition conf_line (line : string) : option (string * string) :=
  if Contains line "=" then
    match SplitN2 line "=" with k :: v :: _ => Some (TrimSpace k, TrimSpace v) | _ => None end
  else None.

Definition ReadConfToMap (filePath : string) : option (gmap string string) :=
  content ← read_file Y filePath; Some (insert_all conf_line ∅ (Split content newline)).

(** ** The platform *)

Definition MachineConfPath : string := "/host/machine.conf".
Definition HostDevicePath : string := "/usr/share/sonic/device".
Definition containerPlatformPath : string := "/usr/share/sonic/platform".
Definition asicConfFilename : string := "asic.conf".

Definition GetMachineInfo : option (gmap string string) := ReadConfToMap MachineConfPath.

Definition GetLocalhostInfo (field : string) : Cmd string :=
  r ← try (GetMapFromQueries Y [["CONFIG_DB"; "DEVICE_METADATA"]]);
  mret (match r with
        | Ok metadata => default "" (localhost ← metadata !! "localhost" ≫= as_map; localhost !! field ≫= as_string)
        | Err _ => ""
        end).

Definition GetPlatform : Cmd string :=
  let platformEnv := os_Getenv "PLATFORM" in
  if bool_decide (platformEnv ≠ "") then mret platformEnv
  else
    match (machineInfo ← GetMachineInfo;
           match machineInfo !! "onie_platform" with Some v => Some v | None => machineInfo !! "aboot_platform" end) with
    | Some val => mret val
    | None => GetLocalhostInfo "platform"
    end.

Definition GetHwsku : Cmd string := GetLocalhostInfo "hwsku".

Definition GetAsicConfFilePath : Cmd string :=
  let candidate := path_Join containerPlatformPath asicConfFilename in
  if FileExists candidate then mret candidate
  else
    platform ← GetPlatform;
    if bool_decide (platform = "") then mret ""
    else
      let candidate := path_Join (path_Join HostDevicePath platform) asicConfFilename in
      mret (if FileExists candidate then candidate else "").

(** The number of the first line that sets one. *)
Fixpoint num_asics (lines : list string) : Z :=
  match lines with
  | [] => 1
  | line :: lines =>
      match SplitN2 line "=" with
      | k :: v :: _ =>
          if bool_decide (ToLower k = "num_asic") then
            match Atoi (TrimSpace v) with Some n => n | None => num_asics lines end
          else num_asics lines
      | _ => num_asics lines
      end
  end.

Definition ReadAsicConfValue : Cmd Z :=
  asicConfFilePath ← GetAsicConfFilePath;
  mret (if bool_decide (asicConfFilePath = "") then 1%Z
        else match read_file Y asicConfFilePath with Some text => num_asics (scan_lines text) | None => 1%Z end).

Definition IsMultiAsic : Cmd bool := n ← ReadAsicConfValue; mret (bool_decide (1 < n)%Z).

Definition GetAsicPresenceList : Cmd (list Z) :=
  multi ← IsMultiAsic;
  if multi : bool then mret [0%Z]
  else numAsics ← ReadAsicConfValue; mret (Z.of_nat <$> seq 0 (Z.to_nat numAsics)).

Definition GetAsicCount : Cmd (option Z) :=
  val ← GetAsicPresenceList; mret (match val with [] => None | _ => Some (Z.of_nat (length val)) end).

(** What is gathered; the number of ASICs is only ever printed. *)
Definition gather_platform (versionInfo : option msi) : Cmd msi :=
  platform ← GetPlatform;
  hwsku ← GetHwsku;
  asicCount ← GetAsicCount;
  switchType ← GetLocalhostInfo "switch_type";
  let d : msi := {["platform" := JStr platform; "hwsku" := JStr hwsku;
                   "asic_count" := JStr (default "N/A" (Itoa <$> asicCount)); "switch_type" := JStr switchType]} in
  mret (match versionInfo ≫= (.!! "asic_type") with Some t => <["asic_type" := t]> d | None => d end).

Definition keep_platform (d : msi) : Cmd msi := λ s, (set_hw d s, Ok d).

(** [hwInfoOnce.Do] *)
Definition GetPlatformInfo (versionInfo : option msi) : Cmd msi := λ s,
  match hwInfoDict s with
  | Some d => (s, Ok d)
  | None => (gather_platform versionInfo ≫= keep_platform) s
  end.

Definition chassisInfoKey : string := "chassis 1".

Definition GetChassisInfo : Cmd (gmap string string) :=
  chassisInfo ← GetMapFromQueries Y [["STATE_DB"; "CHASSIS_INFO"]];
  let info := default ∅ (chassisInfo !! chassisInfoKey ≫= as_map) in
  mret (row_of ((λ f, (f, GetValueOrDefault info f "N/A")) <$> ["serial"; "model"; "revision"])).

Definition SonicVersionYamlPath : string := "/etc/sonic/sonic_version.yml".

Definition getPlatformSummary (args : CmdArgs) (options : OptionMap) : Cmd json :=
  platformInfo ← GetPlatformInfo (ReadYamlToMap SonicVersionYamlPath);
  chassisInfo ← GetChassisInfo;
  let get f := GetValueOrDefault platformInfo f "N/A" in
  let chassis f := default "" (chassisInfo !! f) in
  let switchType := default "" (platformInfo !! "switch_type" ≫= as_string) in
  mret (row_doc (row_of (
    [("platform", get "platform"); ("hwsku", get "hwsku"); ("asic_type", get "asic_type"); ("asic_count", get "asic_count");
     ("serial", chassis "serial"); ("model", chassis "model"); ("revision", chassis "revision")] ++
    (if bool_decide (switchType ≠ "") then [("switch_type", switchType)] else [])))).

(** *** Power supplies *)

Definition psu_fields : list string := ["model"; "serial"; "revision"; "voltage"; "current"; "power"].

Definition psu_state (psuInfo : msi) : string :=
  if bool_decide (GetValueOrDefault psuInfo "presence" "false" = "true") then
    if bool_decide (GetValueOrDefault psuInfo "status" "" = "true") then
      if bool_decide (GetValueOrDefault psuInfo "power_overload" "" = "True") then "WARNING" else "OK"
    else "NOT OK"
  else "NOT PRESENT".

Definition psu_row (psuData : msi) (x : nat * string) : option row :=
  let '(psuIdx, psuName) := x in
  psuInfo ← psuData !! psuName ≫= as_map;
  let presence := GetValueOrDefault psuInfo "presence" "false" in
  Some (row_of ([("index", Itoa (Z.of_nat (S psuIdx))); ("name", psuName); ("presence", presence);
                 ("status", psu_state psuInfo); ("led_status", GetValueOrDefault psuInfo "led_status" "")] ++
    ((λ f, (f, if bool_decide (presence = "true") then GetValueOrDefault psuInfo f "N/A" else "N/A")) <$> psu_fields))).

Definition psu_rows (psuData : msi) : list row := omap (psu_row psuData) (imap pair (natsort (map_range psuData).*1)).

Definition getPlatformPsustatus (args : CmdArgs) (options : OptionMap) : Cmd json :=
  let psuIndex := default 0%Z (ov_Int (opt_get options "index")) in
  chassisData ← GetMapFromQueries Y [["STATE_DB"; "CHASSIS_INFO"]];
  let numPsusStr := match chassisData !! chassisInfoKey ≫= as_map with
                    | Some chassisInfo => GetValueOrDefault chassisInfo "psu_num" "" | None => "" end in
  if bool_decide (numPsusStr = "") then fail (PlainErr "no PSUs detected")
  else
    psuData ← GetMapFromQueries Y [["STATE_DB"; "PSU_INFO"]];
    let psuStatusList := psu_rows psuData in
    if bool_decide (0 < psuIndex)%Z then
      match psuStatusList !! Z.to_nat (psuIndex - 1) with
      | Some r => mret (rows_doc [r])
      | None => fail (PlainErr ("PSU " +:+ Itoa psuIndex +:+ " is not available"))
      end
    else mret (rows_doc psuStatusList).

(** *** Versions *)

Definition docker_command : string :=
  "bash -o pipefail -c 'docker images --no-trunc --format '\''{" +:+ dquote +:+ "Repository" +:+ dquote +:+ ":" +:+ dquote
  +:+ "{{.Repository}}" +:+ dquote +:+ "," +:+ dquote +:+ "Tag" +:+ dquote +:+ ":" +:+ dquote +:+ "{{.Tag}}" +:+ dquote
  +:+ "," +:+ dquote +:+ "ID" +:+ dquote +:+ ":" +:+ dquote +:+ "{{.ID}}" +:+ dquote +:+ "," +:+ dquote +:+ "Size" +:+ dquote
  +:+ ":" +:+ dquote +:+ "{{.Size}}" +:+ dquote +:+ "}'\'' | jq -s .'".

Definition GetDockerInfo : string := default "N/A" (GetDataFromHostCommand docker_command).

(** [%v] of a field that may be missing. *)
Definition info_text (m : msi) (f : string) : string := default "<nil>" (Sprintv <$> m !! f).

(** [indented] gives what [json.Indent] leaves of a text as a part of the
    reply, or [None] where the reply cannot be encoded. *)
Definition getVersion (indented : string → option json) (now : string) (args : CmdArgs) (options : OptionMap) : Cmd json :=
  match ReadYamlToMap SonicVersionYamlPath with
  | None => fail (PlainErr "failed to read version info")
  | Some versionInfo =>
      platformInfo ← GetPlatformInfo (Some versionInfo);
      chassisInfo ← GetChassisInfo;
      let uptime := GetUptime [] in
      let chassis f := default "" (chassisInfo !! f) in
      match indented GetDockerInfo with
      | None => fail (PlainErr "failed to marshal version info")
      | Some dockerInfo =>
          mret (JObj (<["docker_images" := dockerInfo]> (JStr <$> row_of
            [("sonic_software_version", "SONiC." +:+ info_text versionInfo "build_version");
             ("sonic_os_version", info_text versionInfo "sonic_os_version");
             ("distribution", "Debian " +:+ info_text versionInfo "debian_version");
             ("kernel", info_text versionInfo "kernel_version"); ("build_commit", info_text versionInfo "commit_id");
             ("build_date", info_text versionInfo "build_date"); ("built_by", info_text versionInfo "built_by");
             ("platform", info_text platformInfo "platform"); ("hwsku", info_text platformInfo "hwsku");
             ("asic", info_text platformInfo "asic_type"); ("asic_count", info_text platformInfo "asic_count");
             ("serial_number", chassis "serial"); ("model_number", chassis "model");
             ("hardware_revision", chassis "revision"); ("uptime", uptime); ("date", now)])))
      end
  end.

(** ** Processes and memory *)

(** The part after the last bar, if there is one. *)
Definition process_id (key : string) : string :=
  match Split key "|" with
  | (_ :: _ :: _) as parts => let p := default "" (last parts) in if bool_decide (p = "") then key else p
  | _ => key
  end.

Definition process_record (rec : msi) : msi := default rec (rec !! "value" ≫= as_map).

Definition process_field (rec : msi) (name def : string) : string :=
  match rec !! name with
  | None | Some JNull => def
  | Some v => if bool_decide (Sprintv v = "") then def else Sprintv v
  end.

(** The optional fields are left out when they are empty. *)
Definition process_entry (e : string * json) : option (Z * row) :=
  rec ← as_map e.2;
  pn ← Atoi (process_id e.1);
  let get := process_field (process_record rec) in
  let opt f := if bool_decide (get f "" = "") then [] else [(f, get f "")] in
  Some (pn, row_of ([("PID", process_id e.1); ("PPID", get "PPID" ""); ("CMD", get "CMD" "");
                     ("%MEM", get "%MEM" "0.0"); ("%CPU", get "%CPU" "0.0")] ++
                    opt "STIME" ++ opt "TIME" ++ opt "TT" ++ opt "UID")).

Definition buildProcessEntries (processesSummary : msi) : list (Z * row) :=
  sort_Slice (λ a b, bool_decide (a.1 < b.1)%Z) (omap process_entry (map_range processesSummary)).

Definition getProcessesSummary (args : CmdArgs) (options : OptionMap) : Cmd json :=
  processesSummary ← GetMapFromQueries Y [["STATE_DB"; "PROCESS_STATS"]];
  mret (rows_doc (buildProcessEntries processesSummary).*2).

Definition process_columns : list string :=
  ["pid"; "user"; "pr"; "ni"; "virt"; "res"; "shr"; "s"; "cpu"; "mem"; "time"].

Definition parseProcessLine (line : string) : option row :=
  let fields := Fields line in
  if bool_decide (length fields < 12) then None
  else Some (row_of (zip process_columns fields ++ [("command", Join (drop 11 fields) " ")])).

Record TopOutput := { top_header : gmap string string; top_processes : list row; startParsing : bool }.

Definition top_prefixes : list (string * string) :=
  [("top -", "uptime"); ("Tasks:", "tasks"); ("%Cpu(s):", "cpu_usage"); ("MiB Mem :", "memory_usage"); ("MiB Swap:", "swap_usage")].

Definition cleanPrefix (line prefix : string) : string := TrimSpace (TrimPrefix line prefix).

Definition top_line (o : TopOutput) (line : string) : TopOutput :=
  match find (λ p, HasPrefix line p.1) top_prefixes with
  | Some (prefix, name) =>
      {| top_header := <[name := cleanPrefix line prefix]> (top_header o); top_processes := top_processes o;
         startParsing := startParsing o |}
  | None =>
      if Contains line "PID" && Contains line "USER" then
        {| top_header := top_header o; top_processes := top_processes o; startParsing := true |}
      else if negb (startParsing o) || bool_decide (TrimSpace line = "") then o
      else match parseProcessLine line with
           | None => o
           | Some p => {| top_header := top_header o; top_processes := top_processes o ++ [p]; startParsing := startParsing o |}
           end
  end.

Definition LoadProcessesDataFromCmdOutput (output : string) : res show_err json :=
  if bool_decide (TrimSpace output = "") then Err (PlainErr "Got empty output for top command")
  else
    let o := foldl top_line {| top_header := ∅; top_processes := []; startParsing := false |} (scan_lines output) in
    let get f := default "" (top_header o !! f) in
    if bool_decide (get "uptime" = "") || bool_decide (top_processes o = []) then
      Err (PlainErr "incomplete top output: missing uptime or processes")
    else Ok (JObj (<["processes" := rows_doc (top_processes o)]> (JStr <$> row_of ((λ p, (p.2, get p.2)) <$> top_prefixes)))).

Definition GetProcessesData (processCmd : string) : Cmd json :=
  match GetDataFromHostCommand processCmd with
  | None => fail (PlainErr "command failed")
  | Some processDetails => returns (LoadProcessesDataFromCmdOutput processDetails)
  end.

Definition topCommand : string := "top -bn 1".
Definition getTopMemoryUsage (args : CmdArgs) (options : OptionMap) : Cmd json := GetProcessesData (topCommand +:+ " -o %MEM").
Definition getProcessesCPU (args : CmdArgs) (options : OptionMap) : Cmd json := GetProcessesData (topCommand +:+ " -o %CPU").

Definition getProcessesRoot (args : CmdArgs) (options : OptionMap) : Cmd json :=
  mret (JObj {["subcommands" := row_doc (row_of
    [("summary", "show/processes/summary: Show processes info");
     ("cpu", "show/processes/cpu: Show processes information sorted by cpu usage");
     ("memory", "show/processes/memory: Show processes information sorted by memory usage")])]}).

(** A line of the table of memory: [None] for more columns than the header. *)
Definition memory_row (header fields : list string) : option row :=
  match fields with
  | [] => None
  | name :: values =>
      if bool_decide (length header < length values) then None
      else Some (foldl (λ r '(h, v), <[h := v]> r) {["type" := ReplaceAll name ":" ""]} (zip header values))
  end.

Fixpoint memory_rows (header : list string) (lines : list string) : option (list row) :=
  match lines with
  | [] => Some []
  | line :: lines =>
      match Fields line with
      | [] => memory_rows header lines
      | fields => r ← memory_row header fields; rs ← memory_rows header lines; Some (r :: rs)
      end
  end.

Definition getSystemMemory (args : CmdArgs) (options : OptionMap) : Cmd json :=
  match GetDataFromHostCommand "free -m" with
  | None => fail (PlainErr "command failed")
  | Some output =>
      match Split output newline with
      | [] => fail (PlainErr "No output returned from command free -m")
      | first :: lines =>
          match memory_rows (Fields first) lines with
          | None => fail (PlainErr "Malformed output from command free -m")
          | Some rows => mret (rows_doc rows)
          end
      end
  end.

(** The date is the text of the time, in UTC. *)
Definition getDate (now : string) (args : CmdArgs) (options : OptionMap) : Cmd json := mret (row_doc {["date" := now]}).

Definition getDateTimezone (zoneinfo : option fs_tree) (args : CmdArgs) (options : OptionMap) : Cmd json :=
  match zoneinfo ≫= zoneInfoRunner with
  | None => fail (PlainErr "unable to get list of timezones")
  | Some timezones => mret (JObj {["timezones" := strings_doc timezones]})
  end.

Definition getEcnProfiles (args : CmdArgs) (options : OptionMap) : Cmd json :=
  data ← GetMapFromQueries Y [["CONFIG_DB"; "WRED_PROFILE"; "*"]]; mret (JObj data).

(** ** Modules of the chassis *)

(** The query of a table, or of one entry of it. *)
Definition module_query (db table moduleName : string) : list string :=
  [db; table] ++ (if bool_decide (moduleName ≠ "") then [moduleName] else []).

(** [GetDataFromQueries] and [json.Unmarshal] of the text. *)
Definition decoded_query (q : list string) : Cmd msi :=
  text ← GetDataFromQueries Y [q];
  match Unmarshal text ≫= decode_fields with
  | Some m => mret m
  | None => fail (PlainErr "failed to unmarshal data")
  end.

Definition getChassisModuleData (moduleName : string) : Cmd (msi * msi) :=
  stateBytes ← GetDataFromQueries Y [module_query "STATE_DB" "CHASSIS_MODULE_TABLE" moduleName];
  configBytes ← GetDataFromQueries Y [module_query "CONFIG_DB" "CHASSIS_MODULE" moduleName];
  match Unmarshal stateBytes ≫= decode_fields, Unmarshal configBytes ≫= decode_fields with
  | Some stateData, Some configData => mret (stateData, configData)
  | None, _ => fail (PlainErr "failed to unmarshal state data")
  | _, None => fail (PlainErr "failed to unmarshal config data")
  end.

Definition string_field (m : msi) (f def : string) : string := default def (m !! f ≫= as_string).

Definition createModuleStatusFromFlatData (moduleName : string) (stateData configData : msi) : row :=
  row_of [("name", moduleName); ("description", string_field stateData "desc" "");
          ("physical_slot", string_field stateData "slot" "N/A");
          ("oper_status", string_field stateData "oper_status" "");
          ("admin_status", string_field configData "admin_status" "up");
          ("serial", string_field stateData "serial" "")].

Definition getChassisModuleStatusByModule (moduleName : string) : Cmd json :=
  if bool_decide (moduleName = "") then fail (StatusErr InvalidArgument "empty module name")
  else
    '(stateData, configData) ← getChassisModuleData moduleName;
    if bool_decide (stateData !! "desc" = None) then fail (StatusErr NotFound ("module " +:+ moduleName +:+ " not found"))
    else mret (JObj {[moduleName := row_doc (createModuleStatusFromFlatData moduleName stateData configData)]}).

(** The fields of the state that are shown, with the configured status. *)
Definition chassis_module (configData : msi) (moduleName : string) (stateInfo : json) : option json :=
  stateInfoMap ← as_map stateInfo;
  let filteredState := filter (λ e, e.1 ∈ ["desc"; "oper_status"; "serial"; "slot"]) stateInfoMap in
  Some (JObj (match (configInfoMap ← configData !! moduleName ≫= as_map; configInfoMap !! "admin_status") with
              | Some adminStatus => <["admin_status" := adminStatus]> filteredState
              | None => filteredState
              end)).

Definition getChassisModuleStatus (args : CmdArgs) (options : OptionMap) : Cmd json :=
  match ov_String (opt_get options "dpu") with
  | Some moduleStr => getChassisModuleStatusByModule moduleStr
  | None =>
      '(stateData, configData) ← getChassisModuleData "";
      mret (JObj (map_imap (chassis_module configData) stateData))
  end.

Definition createModuleMidplaneStatusFromFlatData (moduleName : string) (stateData : msi) : row :=
  row_of [("name", moduleName); ("ip_address", string_field stateData "ip_address" "");
          ("reachability", string_field stateData "access" "")].

Definition getChassisModuleMidplaneStatusByModule (moduleName : string) : Cmd json :=
  if bool_decide (moduleName = "") then fail (StatusErr InvalidArgument "empty module name")
  else
    stateData ← decoded_query (module_query "STATE_DB" "CHASSIS_MIDPLANE_TABLE" moduleName);
    if bool_decide (stateData !! "ip_address" = None) then fail (StatusErr NotFound ("module " +:+ moduleName +:+ " not found"))
    else mret (JObj {[moduleName := row_doc (createModuleMidplaneStatusFromFlatData moduleName stateData)]}).

Definition getChassisModuleMidplaneStatus (args : CmdArgs) (options : OptionMap) : Cmd json :=
  match ov_String (opt_get options "dpu") with
  | Some moduleStr => getChassisModuleMidplaneStatusByModule moduleStr
  | None =>
      stateData ← decoded_query (module_query "STATE_DB" "CHASSIS_MIDPLANE_TABLE" "");
      mret (JObj (filter (λ e, is_Some (as_map e.2)) stateData))
  end.

(** ** Neighbours *)

Definition lldp_command (ifaceName : string) : string :=
  "docker exec lldp lldpctl -f json0" +:+ (if bool_decide (ifaceName ≠ "") then " " +:+ ifaceName else "").

Definition getLLDPDataFromHostCommand (ifaceName : string) : Cmd (list interfaceEntry) :=
  match GetDataFromHostCommand (lldp_command ifaceName) with
  | None => fail (PlainErr "command failed")
  | Some out => match lldp_Unmarshal out with Some d => mret d | None => fail (PlainErr "failed to unmarshal lldp output") end
  end.

Definition parseEnabledCapabilityCodes (enabledCapabilities : list string) : string :=
  Join ((λ c, if bool_decide (c = "Bridge") then "B" else if bool_decide (c = "Router") then "R" else "O") <$> enabledCapabilities) "".

(** A value that later elements overwrite when they have one. *)
Definition last_value {A} (f : A → list valueEntry) (l : list A) : string :=
  default "" (ve_Value <$> last (omap (λ x, head (f x)) l)).

Definition extractTableEntry (iface : interfaceEntry) (localPort : string) : row :=
  row_of [("localPort", localPort);
          ("remoteDevice", last_value ch_Name (ie_Chassis iface));
          ("remotePortId", default "" (id_Value <$> last (omap (λ p, head (po_ID p)) (ie_Port iface))));
          ("capability", parseEnabledCapabilityCodes
             (c ← ie_Chassis iface; cap ← ch_Capability c; if cap_Enabled cap then [cap_Type cap] else []));
          ("remotePortDescr", last_value po_Descr (ie_Port iface))].

Definition extractAllTableEntries (data : list interfaceEntry) (namingMode : InterfaceNamingMode) : Cmd (list row) :=
  mapC (λ iface, name ← GetInterfaceNameForDisplay Y (ie_Name iface) namingMode; mret (extractTableEntry iface name)) data.

Definition getLLDPTable (args : CmdArgs) (options : OptionMap) : Cmd json :=
  mode ← naming_mode options;
  data ← getLLDPDataFromHostCommand "";
  neighbors ← extractAllTableEntries data mode;
  mret (JObj {["capability_codes_helper" := JStr "Capability codes: (R) Router, (B) Bridge, (O) Other";
               "neighbors" := rows_doc neighbors; "total" := JNum (Z.of_nat (length neighbors))]}).

(** [omitempty] *)
Definition omit_str (k v : string) : list (string * json) := if bool_decide (v = "") then [] else [(k, JStr v)].
Definition omit_list (k : string) (l : list json) : list (string * json) := match l with [] => [] | _ => [(k, JArr l)] end.
Definition object (l : list (string * json)) : json := JObj (list_to_map l).

Definition first_value (l : list valueEntry) : string := default "" (ve_Value <$> head l).
Definition first_id (l : list idEntry) : string :=
  match l with i :: _ => id_Type i +:+ " " +:+ id_Value i | [] => "" end.

Definition chassis_doc (l : list chassis) : json :=
  match l with
  | [] => object [("ChassisID", JStr ""); ("SysName", JStr ""); ("SysDescr", JStr "")]
  | c :: _ =>
      object ([("ChassisID", JStr (first_id (ch_ID c))); ("SysName", JStr (first_value (ch_Name c)));
               ("SysDescr", JStr (first_value (ch_Descr c)))] ++
              omit_str "MgmtIP" (first_value (ch_MgmtIp c)) ++ omit_str "MgmtIface" (first_value (ch_MgmtIface c)) ++
              omit_list "Capability" ((λ cp, JStr (cap_Type cp +:+ ", " +:+ boolToOnOff (cap_Enabled cp))) <$> ch_Capability c))
  end.

Definition negotiation_doc (an : autoNegotiation) : json :=
  object ([("supported", JStr (boolToYesNo (an_Supported an))); ("enabled", JStr (boolToYesNo (an_Enabled an)))] ++
    omit_list "Adv" ((λ a, object [("Type", JStr (as_Type a)); ("HD", JStr (boolToYesNo (as_HD a)));
                                   ("FD", JStr (boolToYesNo (as_FD a)))]) <$> an_Advertised an) ++
    omit_str "MAU-oper-type" (first_value (an_Current an))).

(** Without a port the pointer to the negotiation is not nil: it is shown as
    an empty object. *)
Definition port_doc (l : list port) : json :=
  match l with
  | [] => object [("PortID", JStr ""); ("PortDescr", JStr ""); ("TTL", JStr ""); ("PMD-autoneg", object [])]
  | p :: _ =>
      object ([("PortID", JStr (first_id (po_ID p))); ("PortDescr", JStr (first_value (po_Descr p)));
               ("TTL", JStr (first_value (po_TTL p)))] ++ omit_str "MFS" (first_value (po_MFS p)) ++
              match po_AutoNegotiation p with an :: _ => [("PMD-autoneg", negotiation_doc an)] | [] => [] end)
  end.

Definition med_doc (m : lldpMed) : json :=
  object [("Device-type", JStr (first_value (lm_DeviceType m)));
          ("Capability", match lm_Capability m with
                         | [] => JNull
                         | l => strings_doc ((λ cp, mc_Type cp +:+ ", " +:+ boolToYesNo (mc_Available cp)) <$> l)
                         end)].

(** The set goes through the codec unchanged; a nil list is null. *)
Definition tlv_doc (l : option (list unknownTLV)) : json :=
  object [("unknown-tlv", match l with
    | None => JNull
    | Some l => JArr ((λ t, object [("oui", JStr (ut_OUI t)); ("subtype", JStr (ut_Subtype t)); ("len", JStr (ut_Len t));
                                    ("value", JStr (ut_Value t))]) <$> l)
    end)].

Definition extractNeighborsEntry (iface : interfaceEntry) : json :=
  object ([("via", JStr (ie_Via iface)); ("RID", JStr (ie_RID iface)); ("Time", JStr (ie_Age iface));
           ("Chassis", chassis_doc (ie_Chassis iface)); ("Port", port_doc (ie_Port iface))] ++
    omit_list "VLAN" ((λ v, object ([("vlan-id", JStr (vl_VLANID v)); ("pvid", JStr (boolToYesNo (vl_PVID v)))] ++
                                    omit_str "value" (vl_Value v))) <$> ie_VLAN iface) ++
    omit_list "LLDP-MED" (med_doc <$> ie_LLDPMed iface) ++
    omit_list "UnknownTLVs" (tlv_doc <$> ie_UnknownTLVs iface)).

Definition extractAllNeighborsEntry (data : list interfaceEntry) (namingMode : InterfaceNamingMode) : Cmd (gmap string json) :=
  for_each (λ neighbors iface,
    name ← GetInterfaceNameForDisplay Y (ie_Name iface) namingMode;
    mret (<[name := extractNeighborsEntry iface]> neighbors)) ∅ data.

Definition getLLDPNeighbors (args : CmdArgs) (options : OptionMap) : Cmd json :=
  mode ← naming_mode options;
  ifaceName ← (if bool_decide (args_At args 0 ≠ "") && bool_decide (mode = Alias)
               then TryConvertInterfaceNameFromAlias Y (args_At args 0) mode else mret (args_At args 0));
  data ← getLLDPDataFromHostCommand ifaceName;
  neighbors ← extractAllNeighborsEntry data mode;
  mret (JObj {["title" := JStr "LLDP neighbors"; "interfaces" := JObj neighbors]}).
End system.

(** * What the commands of the platform show *)
Section facts.
Context {Sw : Swss} {MR : MapRange} {JCo : JsonCodec} {Fmt : GoFmt} {NS : NatSort} {H : HostCmd} {SS : SliceSort} {PE : PlatformEnv}
  {LC : LldpCodec}.
Notation msi := (gmap string json).

(** The facts about the platform are those of the first command that asked
    for them, for as long as the process runs: whatever the system looks like
    later, and if the version file could not be read that first time, the type
    of the ASIC stays unknown. *)
Theorem platform_info_sticks Y versionInfo s s1 d :
  hwInfoDict s = None → GetPlatformInfo Y versionInfo s = (s1, Ok d) →
  (∀ Y' versionInfo', GetPlatformInfo Y' versionInfo' s1 = (s1, Ok d)) ∧
  (d !! "asic_type" = versionInfo ≫= (.!! "asic_type")).
Proof.
  intros Hs Hp. unfold GetPlatformInfo in Hp. rewrite Hs in Hp.
  apply bind_Cmd_Ok in Hp as (s2 & d' & Hg & Hk). unfold keep_platform in Hk. injection Hk as <- <-.
  split; [intros Y' v'; reflexivity|]. unfold gather_platform in Hg.
  apply bind_Cmd_Ok in Hg as (? & p & _ & Hg). apply bind_Cmd_Ok in Hg as (? & h & _ & Hg).
  apply bind_Cmd_Ok in Hg as (? & a & _ & Hg). apply bind_Cmd_Ok in Hg as (? & w & _ & Hg).
  unfold mret, Cmd_ret in Hg. injection Hg as _ <-.
  destruct (versionInfo ≫= (.!! "asic_type")) as [t|]; [apply lookup_insert_eq|].
  by rewrite !lookup_insert_ne, lookup_singleton_ne by congruence.
Qed.

(** ** Neighbours *)

Lemma display_default Y n s : GetInterfaceNameForDisplay Y n Default s = (s, Ok n).
Proof. unfold GetInterfaceNameForDisplay. by destruct (bool_decide (n = "")). Qed.

Lemma neighbors_fold Y data s (m : msi) :
  for_each (λ neighbors iface,
    name ← GetInterfaceNameForDisplay Y (ie_Name iface) Default;
    mret (<[name := extractNeighborsEntry iface]> neighbors)) m data s =
  (s, Ok (foldl (λ m i, <[ie_Name i := extractNeighborsEntry i]> m) m data)).
Proof.
  revert m. induction data as [|i data IH]; intros m; [done|]. simpl. rewrite <- IH.
  rewrite !bind_Cmd_run, display_default. done.
Qed.

Lemma foldl_insert_last {A B} (name : A → string) (f : A → B) (l : list A) (m : gmap string B) k :
  foldl (λ m i, <[name i := f i]> m) m l !! k =
  match last (filter (λ i, name i = k) l) with Some i => Some (f i) | None => m !! k end.
Proof.
  revert m. induction l as [|i l IH] using rev_ind; intros m; [done|].
  rewrite foldl_app, filter_app. simpl. destruct (decide (name i = k)) as [<-|Hne].
  - rewrite filter_cons_True, filter_nil, last_snoc by done. apply lookup_insert_eq.
  - rewrite filter_cons_False, filter_nil, app_nil_r by done. rewrite lookup_insert_ne by done. apply IH.
Qed.

(** The table of neighbours has a row for every neighbour of an interface,
    the detailed listing only the last one that lldpctl printed for it. *)
Theorem lldp_last_neighbor Y (data : list interfaceEntry) s :
  (∃ rows, extractAllTableEntries Y data Default s = (s, Ok rows) ∧
     rows = (λ i, extractTableEntry i (ie_Name i)) <$> data) ∧
  (∃ m, extractAllNeighborsEntry Y data Default s = (s, Ok m) ∧
     ∀ name, m !! name = extractNeighborsEntry <$> last (filter (λ i, ie_Name i = name) data)).
Proof.
  split.
  - eexists. split; [|reflexivity]. unfold extractAllTableEntries.
    induction data as [|i data IH]; [done|]. simpl. rewrite !bind_Cmd_run, display_default. simpl.
    unfold mbind, Cmd_bind in *. by rewrite IH.
  - eexists. split; [apply neighbors_fold|]. intros name. rewrite foldl_insert_last, lookup_empty.
    by destruct (last _).
Qed.

(** ** Power supplies *)

Lemma omap_total {A B} (f : A → option B) (g : A → B) (l : list A) :
  (∀ x, x ∈ l → f x = Some (g x)) → omap f l = g <$> l.
Proof.
  induction l as [|x l IH]; intros Hf; [done|]. simpl. rewrite (Hf x) by left. simpl.
  f_equal. apply IH. intros y Hy. apply Hf. by right.
Qed.

Lemma psu_row_columns (psuData : msi) x r : psu_row psuData x = Some r →
  r !! "index" = Some (Itoa (Z.of_nat (S x.1))) ∧ r !! "name" = Some x.2.
Proof.
  destruct x as [i k]. unfold psu_row. destruct (psuData !! k ≫= as_map) as [info|]; [|done].
  intros [= <-]. split; [apply lookup_insert_eq|].
  unfold row_of. simpl. rewrite lookup_insert_ne by congruence. apply lookup_insert_eq.
Qed.

Lemma psu_rows_lookup (psuData : msi) :
  map_Forall (λ _ v, is_Some (as_map v)) psuData →
  let keys := natsort (map_range psuData).*1 in
  length (psu_rows psuData) = length keys ∧
  ∀ i r, psu_rows psuData !! i = Some r →
    r !! "index" = Some (Itoa (Z.of_nat (S i))) ∧ ∃ k, keys !! i = Some k ∧ r !! "name" = Some k.
Proof.
  intros Hall keys. set (g x := default ∅ (psu_row psuData x)).
  assert (∀ x, x ∈ imap pair keys → psu_row psuData x = Some (g x)) as Hg.
  { intros x (i & k & -> & Hk)%elem_of_lookup_imap_1. apply list_elem_of_lookup_2 in Hk. unfold keys in Hk.
    rewrite natsort_perm, map_range_perm in Hk. apply list_elem_of_fmap in Hk as ([k' v] & -> & Hv%elem_of_map_to_list).
    destruct (Hall _ _ Hv) as [m Hm]. unfold g, psu_row. cbn [fst]. rewrite Hv. simpl. by rewrite Hm. }
  unfold psu_rows. fold keys. rewrite (omap_total _ g) by exact Hg.
  split; [by rewrite length_fmap, length_imap|]. intros i r.
  rewrite list_lookup_fmap, list_lookup_imap. destruct (keys !! i) as [k|] eqn:Hk; simpl; intros [= <-].
  assert (psu_row psuData (i, k) = Some (g (i, k))) as Hr.
  { apply Hg, elem_of_lookup_imap_2. eauto. }
  destruct (psu_row_columns _ _ _ Hr) as [H1 H2]. eauto.
Qed.

(** Asked for a power supply by number, the command shows the one that has
    that number in the full listing, and fails when there is none. *)
Theorem psu_by_index Y args options s s1 s2 chassisData chassisInfo psuData i :
  GetMapFromQueries Y [["STATE_DB"; "CHASSIS_INFO"]] s = (s1, Ok chassisData) →
  chassisData !! chassisInfoKey = Some (JObj chassisInfo) → GetValueOrDefault chassisInfo "psu_num" "" ≠ "" →
  GetMapFromQueries Y [["STATE_DB"; "PSU_INFO"]] s1 = (s2, Ok psuData) →
  map_Forall (λ _ v, is_Some (as_map v)) psuData →
  ov_Int (opt_get options "index") = Some i → (0 < i)%Z →
  match getPlatformPsustatus Y args options s with
  | (s', Ok doc) => s' = s2 ∧ ∃ r, doc = rows_doc [r] ∧ r ∈ psu_rows psuData ∧ r !! "index" = Some (Itoa i)
  | (s', Err _) => s' = s2 ∧ (Z.of_nat (size psuData) < i)%Z
  end.
Proof.
  intros Hq Hc Hn Hq2 Hall Hi Hpos. destruct (psu_rows_lookup _ Hall) as [Hlen Hrow].
  unfold getPlatformPsustatus. rewrite Hi. unfold mbind, Cmd_bind. rewrite Hq. simpl. rewrite Hc. simpl.
  rewrite bool_decide_false by done. rewrite Hq2. rewrite bool_decide_true by done.
  destruct (psu_rows psuData !! Z.to_nat (i - 1)) as [r|] eqn:Hr; simpl.
  - split; [done|]. exists r. split; [done|]. split; [by eapply list_elem_of_lookup_2|].
    destruct (Hrow _ _ Hr) as [-> _]. do 2 f_equal. lia.
  - split; [done|]. apply lookup_ge_None in Hr. rewrite Hlen in Hr.
    assert (length (natsort (map_range psuData).*1) = size psuData) as Hs.
    { rewrite natsort_perm, length_fmap, map_range_perm. apply length_map_to_list. }
    lia.
Qed.
End facts.

(** ** Instances *)
Module SystemExample.
Import VdbExample ShowExample.

#[local] Instance sys_swss : Swss := swss1.
#[local] Instance sys_range : MapRange := canonical_range.
#[local] Instance sys_fmt : GoFmt := {| fmt_number := Itoa; fmt_composite _ := "?" |}.
#[local] Instance sys_sort : NatSort := {| natsort := sort_Strings; natsort_perm := sort_Strings_perm |}.
#[local] Instance sys_platform : PlatformEnv := {| os_Getenv _ := ""; FileExists _ := false; yaml_Unmarshal _ := None |}.

Definition state_db : contents :=
  {["CHASSIS_INFO|chassis 1" := {["psu_num" := "2"; "serial" := "S1"]};
    "PSU_INFO|PSU 1" := {["presence" := "true"; "status" := "true"]};
    "PSU_INFO|PSU 2" := {["presence" := "false"]}]}.

Definition switch : Sys := {|
  sys_env := {|
    env_cfg := env_cfg env0;
    Target2RedisDb := {["" := {["CONFIG_DB" := conn_of {["DEVICE_METADATA|localhost" := {["hwsku" := "ACS-1"; "platform" := "x86"]}]};
      "STATE_DB" := conn_of state_db]}]};
    UNIT_TEST := "" |};
  read_file := λ _, None
|}.

Definition seen : ShowState := (GetPlatformInfo switch None show_init).1.
Definition facts_seen : gmap string json :=
  match (GetPlatformInfo switch None show_init).2 with Ok d => d | Err _ => ∅ end.

(** The version file is missing at first; later the type is known but not
    shown. *)
Lemma platform_info_sticks_witness :
  hwInfoDict show_init = None ∧ GetPlatformInfo switch None show_init = (seen, Ok facts_seen) ∧
  facts_seen !! "hwsku" = Some (JStr "ACS-1") ∧
  ∀ Y, GetPlatformInfo Y (Some {["asic_type" := JStr "broadcom"]}) seen = (seen, Ok facts_seen).
Proof.
  assert (hwInfoDict show_init = None) as H1 by reflexivity.
  assert (GetPlatformInfo switch None show_init = (seen, Ok facts_seen)) as H2 by (vm_compute; reflexivity).
  split; [exact H1|]. split; [exact H2|]. split; [vm_compute; reflexivity|]. intros Y.
  exact (proj1 (platform_info_sticks switch None show_init seen facts_seen H1 H2) Y _).
Defined.

Definition table_of (q : list string) (s : ShowState) : gmap string json :=
  match (GetMapFromQueries switch [q] s).2 with Ok m => m | Err _ => ∅ end.
Definition chassis_q : list string := ["STATE_DB"; "CHASSIS_INFO"].
Definition psu_q : list string := ["STATE_DB"; "PSU_INFO"].
Definition after_chassis : ShowState := (GetMapFromQueries switch [chassis_q] show_init).1.
Definition after_psu : ShowState := (GetMapFromQueries switch [psu_q] after_chassis).1.
Definition second : OptionMap := {["index" := VInt 2]}.

Lemma psu_by_index_witness :
  GetMapFromQueries switch [chassis_q] show_init = (after_chassis, Ok (table_of chassis_q show_init)) ∧
  GetMapFromQueries switch [psu_q] after_chassis = (after_psu, Ok (table_of psu_q after_chassis)) ∧
  ∃ doc r, (getPlatformPsustatus switch [] second show_init).2 = Ok doc ∧ doc = rows_doc [r] ∧ r !! "index" = Some "2".
Proof.
  set (info := {["psu_num" := JStr "2"; "serial" := JStr "S1"]} : gmap string json).
  assert (GetMapFromQueries switch [chassis_q] show_init = (after_chassis, Ok (table_of chassis_q show_init))) as H1
    by (vm_compute; reflexivity).
  assert (GetMapFromQueries switch [psu_q] after_chassis = (after_psu, Ok (table_of psu_q after_chassis))) as H2
    by (vm_compute; reflexivity).
  assert (table_of chassis_q show_init !! chassisInfoKey = Some (JObj info)) as H3 by (vm_compute; reflexivity).
  assert (GetValueOrDefault info "psu_num" "" ≠ "") as H4 by (vm_compute; congruence).
  assert (map_Forall (λ _ v, is_Some (as_map v)) (table_of psu_q after_chassis)) as H5.
  { apply (bool_decide_unpack _). vm_compute. exact I. }
  assert (ov_Int (opt_get second "index") = Some 2%Z) as H6 by (vm_compute; reflexivity).
  assert (0 < 2)%Z as H7 by lia.
  split; [exact H1|]. split; [exact H2|].
  pose proof (psu_by_index switch [] second show_init _ _ _ info _ 2 H1 H3 H4 H2 H5 H6 H7) as HP.
  assert (is_ok (getPlatformPsustatus switch [] second show_init).2 = true) as Hok by (vm_compute; reflexivity).
  destruct (getPlatformPsustatus switch [] second show_init) as [s' [doc|e]]; [|discriminate Hok].
  destruct HP as (_ & r & Hd & _ & Hi). exists doc, r. split; [reflexivity|]. split; [exact Hd|exact Hi].
Defined.
End SystemExample.
