(* ===== verification/ShowIp.v ===== *)
(** * SHOW commands of IPv6
      (src/show_client/{ipv6_cli,ipv6_bgp_network_cli,ipv6_route_cli,
      ipv6_fib_cli,fib_common,ipv6_prefix-list_cli,ipv6_protocol_cli,
      ipv6_interfaces_cli}.go, src/show_client/helpers/ipinterfaces)

    Routes and neighbours are asked of the routing suite by running vtysh with
    a command line made of the arguments; the forwarding table and settings are
    tables; the interfaces are read from the kernel over netlink, per network
    namespace.

    The kernel and the parser of netlink attributes are parameters, and so are
    [json.Unmarshal] into the structures of the routing suite and the text of
    addresses.  In a document that a command writes, [JNum] is the integer
    itself. *)
From Stdlib Require Import Ascii.
From stdpp Require Import base gmap sets list strings pretty.
From S2P Require Import Prelude GoStrings Gnmi Json DbConfig DbConn VirtualDb VirtualDbFacts DbClient Bypass Show ShowLib ShowCounters ShowIntf ShowHost ShowSfp ShowSystem.

(** [for k, v := range m] over a map with integer keys. *)
Class IntRange := {
  int_range : ∀ {A : Type}, gmap Z A → list (Z * A);
  int_range_perm : ∀ {A : Type} (m : gmap Z A), int_range m ≡ₚ map_to_list m
}.

(** The data of the messages that a dump of the links and of the addresses of
    a namespace gives, [None] where the namespace cannot be entered or the
    dump fails; and the decoders of package netlink, where [None] of [Uint32]
    is its panic on data that is not four bytes. *)
Class NetKernel := {
  Uint32 : list Z → option Z;
  netns_dump : string → option (list (list Z) * list (list Z));
  UnmarshalAttributes : list Z → option (list (Z * list Z));
  ip_String : list Z → string;
  cidr_String : string → option string
}.

(** ** What the routing suite prints *)

Record Peer := {
  p_Version : Z; p_RemoteAS : Z; p_MsgRcvd : Z; p_MsgSent : Z; p_TableVersion : Z; p_InQ : Z; p_OutQ : Z;
  p_UpDown : string; p_State : string; p_PfxRcd : Z; p_NeighborName : string
}.

Record IPv6Unicast := {
  RouterID : string; LocalAS : Z; VRFId : Z; TableVersion : Z; RibCount : Z; RibMemory : Z;
  PeerCount : Z; PeerMemory : Z; PeerGroupCount : Z; PeerGroupMemory : Z; Peers : gmap string Peer
}.

Record prefixListEntry := { SequenceNumber : Z; pe_Type : string; Prefix : string; MaximumPrefixLength : Z }.
Record prefixList := { AddressFamily : string; Entries : list prefixListEntry }.

(** The replies about neighbours that are decoded and encoded again. *)
Inductive bgp_reply := BgpNeighbors | NeighborRoutes | AdvertisedRoutes | ReceivedRoutes.

(** [prefix_Decode] gives the documents of a text, and whether it ends after
    the last of them. *)
Class FrrCodec := {
  summary_Unmarshal : string → option IPv6Unicast;
  reencode : bgp_reply → string → option json;
  prefix_Decode : string → list (gmap string (gmap string prefixList)) * bool
}.

(** ** Lines of the protocol table *)

Definition name_char (c : ascii) : bool :=
  let n := nat_of_ascii c in
  bool_decide (48 ≤ n ≤ 57 ∨ 65 ≤ n ≤ 90 ∨ 97 ≤ n ≤ 122 ∨ n = 95 ∨ n = 45).

(** [^VRF:\s*(\S+)] *)
Definition vrf_line (trimmed : string) : option string :=
  if HasPrefix trimmed "VRF:" then
    let name := (span (λ c, negb (re_space c)) (span re_space (str_drop 4 trimmed)).2).1 in
    if bool_decide (name = "") then None else Some name
  else None.

(** [^Protocol\s*:] *)
Definition header_line (line : string) : bool :=
  HasPrefix line "Protocol" && HasPrefix (span re_space (str_drop 8 line)).2 ":".

(** [^([A-Za-z0-9_-]+)\s*: *(.+)$] with both parts trimmed. *)
Definition entry_line (line : string) : option (string * string) :=
  let '(name, rest) := span name_char line in
  match (span re_space rest).2 with
  | String ":"%char value => if bool_decide (name = "") || bool_decide (value = "") then None
                             else Some (TrimSpace name, TrimSpace value)
  | _ => None
  end.

Record ipv6ProtoVRF := { VRF : string; Protocols : list (string * string) }.

Record ProtoState := { results : list ipv6ProtoVRF; current : option ipv6ProtoVRF; inTable : bool }.

Definition flush (p : ProtoState) : ProtoState :=
  {| results := results p ++ option_list (current p); current := None; inTable := false |}.

Definition proto_line (p : ProtoState) (line : string) : ProtoState :=
  let trimmed := TrimSpace line in
  if bool_decide (trimmed = "") then p
  else match vrf_line trimmed with
  | Some name => {| results := results (flush p); current := Some {| VRF := name; Protocols := [] |}; inTable := false |}
  | None =>
      match current p with
      | None => p
      | Some cur =>
          if header_line line then {| results := results p; current := Some cur; inTable := true |}
          else if HasPrefix trimmed "-----" then p
          else if negb (inTable p) then p
          else match entry_line line with
               | Some e => {| results := results p;
                              current := Some {| VRF := VRF cur; Protocols := Protocols cur ++ [e] |}; inTable := true |}
               | None => p
               end
      end
  end.

(** Without a section there is nothing to flush. *)
Definition parseIPv6ProtocolVRFs (raw : string) : list ipv6ProtoVRF :=
  results (flush (foldl proto_line {| results := []; current := None; inTable := false |} (scan_lines raw))).

(** ** Messages of the kernel *)

Definition SizeofIfInfomsg : nat := 16.
Definition SizeofIfAddrmsg : nat := 8.
Definition IFLA_IFNAME : Z := 3.
Definition IFLA_MASTER : Z := 10.
Definition IFLA_CARRIER : Z := 33.
Definition IFA_ADDRESS : Z := 1.
Definition IFA_LOCAL : Z := 2.
Definition AF_INET : Z := 2.
Definition AF_INET6 : Z := 10.
Definition IFF_UP : Z := 1.
Definition IFF_LOWER_UP : Z := 65536.

Definition to_int32 (z : Z) : Z := if bool_decide (z < 2 ^ 31)%Z then z else (z - 2 ^ 32)%Z.

Definition byte_slice (d : list Z) (lo hi : nat) : list Z := take (hi - lo) (drop lo d).

Record linkInfo := { li_name : string; masterIndex : Z; flags : Z; carrier : option bool }.

Definition byte_string (l : list Z) : string :=
  String.string_of_list_ascii ((λ z, ascii_of_nat (Z.to_nat z)) <$> l).

(** [bytes.TrimRight(data, "\x00")] *)
Fixpoint drop_zeros (l : list Z) : list Z :=
  match l with z :: l' => if bool_decide (z = 0%Z) then drop_zeros l' else l | [] => [] end.
Definition trim_zeros (l : list Z) : list Z := reverse (drop_zeros (reverse l)).

Record IPAddressDetail := { Address6 : string; BGPNeighborIP : string; BGPNeighborName : string }.
Record IPInterfaceDetail := {
  d_name : string; IPAddresses : list IPAddressDetail; AdminStatus : string; OperStatus6 : string; Master : string
}.

Definition getAdminStatus (li : linkInfo) : string := if bool_decide (Z.land (flags li) IFF_UP ≠ 0%Z) then "up" else "down".
Definition getOperStatus (li : linkInfo) : string :=
  match carrier li with
  | Some c => if c then "up" else "down"
  | None => if bool_decide (Z.land (flags li) IFF_LOWER_UP ≠ 0%Z) then "up" else "down"
  end.

(** ** Namespaces by role *)
Record NamespacesByRole := { Frontend : list string; Backend : list string; Fabric : list string }.
Record GetInterfacesOptions := { o_Namespace : option string; o_Display : option string }.

Definition defaultNamespace : string := "".
Definition AddressFamilyIPv4 : string := "ipv4".
Definition AddressFamilyIPv6 : string := "ipv6".

Section ip.
Context {Sw : Swss} {MR : MapRange} {IR : IntRange} {JCo : JsonCodec} {Fmt : GoFmt} {H : HostCmd} {SS : SliceSort}
  {NA : NetAddr} {PE : PlatformEnv} {NK : NetKernel} {FC : FrrCodec}.
Variable Y : Sys.
Notation msi := (gmap string json).

(** ** Forwarding table *)

Record fibEntry := { Index : Z; Vrf : string; Route : string; NextHop : string; fib_IfName : string }.

Definition parseFibVrf (key : string) : string * string :=
  if HasPrefix key "VRF-" then
    match SplitN2 key ":" with a :: b :: _ => (TrimPrefix a "VRF-", b) | _ => ("", key) end
  else ("", key).

Definition matchIPFamily (prefix : string) (wantIPv6 : bool) : bool :=
  let host := match SplitN2 prefix "/" with h :: _ => h | [] => prefix end in
  match net_ParseIP host with
  | None => false
  | Some (is4, _) => bool_decide (negb is4 = wantIPv6)
  end.

Definition fib_row (filter : string) (wantIPv6 : bool) (e : string * json) : option fibEntry :=
  let '(rawKey, rowAny) := e in
  r ← as_map rowAny;
  let '(vrf, prefix) := parseFibVrf rawKey in
  if negb (matchIPFamily prefix wantIPv6) then None
  else if bool_decide (filter ≠ "") && bool_decide (filter ≠ prefix) && bool_decide (filter ≠ rawKey) then None
  else Some {| Index := 0; Vrf := vrf; Route := prefix; NextHop := GetValueOrDefault r "nexthop" "";
               fib_IfName := GetValueOrDefault r "ifname" "" |}.

Definition with_index (i : nat) (e : fibEntry) : fibEntry :=
  {| Index := Z.of_nat (S i); Vrf := Vrf e; Route := Route e; NextHop := NextHop e; fib_IfName := fib_IfName e |}.

Definition getFibEntries (filter : string) (wantIPv6 : bool) : Cmd (list fibEntry) :=
  table ← GetMapFromQueries Y [["APPL_DB"; "ROUTE_TABLE"]];
  let out := omap (fib_row filter wantIPv6) (map_range table) in
  mret (imap with_index (sort_Slice (λ a b, str_lt (Route a) (Route b)) out)).

Definition fib_doc (e : fibEntry) : json :=
  object ([("index", JNum (Index e)); ("route", JStr (Route e))] ++ omit_str "vrf" (Vrf e) ++
          omit_str "nexthop" (NextHop e) ++ omit_str "ifname" (fib_IfName e)).

Definition getIPv6Fib (args : CmdArgs) (options : OptionMap) : Cmd json :=
  entries ← getFibEntries (TrimSpace (args_At args 0)) true;
  mret (object [("total", JNum (Z.of_nat (length entries))); ("entries", JArr (fib_doc <$> entries))]).

(** ** Commands of the routing suite *)

Definition vtysh (command : string) : string := "vtysh -c " +:+ dquote +:+ command +:+ dquote.

Definition getIPv6Route (args : CmdArgs) (options : OptionMap) : Cmd json :=
  multi ← IsMultiAsic Y;
  if multi : bool then fail (PlainErr "'show ipv6 route' is not supported on multi-ASIC platforms")
  else
    let vtyshCmdArgs := ["show"; "ipv6"; "route"] ++
      filter (λ a, ¬ (a = "" ∨ a = "nexthop-group" ∨ a = "json")) args ++ ["json"] in
    match GetDataFromHostCommand (vtysh (Join vtyshCmdArgs " ")) with
    | None => fail (PlainErr "command failed")
    | Some output => match Unmarshal output with Some raw => mret raw | None => fail (PlainErr "invalid JSON") end
    end.

Definition getIPv6BGPNetwork (args : CmdArgs) (options : OptionMap) : Cmd json :=
  let ipArg := args_At args 0 in
  let infoType := args_At args 1 in
  if bool_decide (infoType ≠ "") && negb (bool_decide (infoType ∈ ["bestpath"; "json"; "longer-prefixes"; "multipath"]))
  then fail (PlainErr ("invalid info_type " +:+ infoType))
  else if bool_decide (ipArg ≠ "") && negb (Contains ipArg "/") && bool_decide (infoType = "longer-prefixes")
  then fail (PlainErr "only available if passing a network prefix")
  else
    let cmd := "rvtysh -c " +:+ dquote +:+ "show bgp ipv6" +:+
      (if bool_decide (ipArg ≠ "") then " " +:+ ipArg +:+ (if bool_decide (infoType ≠ "") then " " +:+ infoType else "") else "")
      +:+ dquote in
    match GetDataFromHostCommand cmd with
    | None => fail (PlainErr "command failed")
    | Some rawOutput =>
        match (if bool_decide (infoType = "json") then Unmarshal rawOutput else None) with
        | Some doc => mret doc
        | None => mret (row_doc {["output" := rev_str (trim_left (λ c, bool_decide (c = ascii_of_nat 10)) (rev_str rawOutput))]})
        end
    end.

Definition peer_name (bgpNeighborTable : msi) (ip : string) : string :=
  default "NotAvailable" (entry ← bgpNeighborTable !! ip ≫= as_map; entry !! "name" ≫= as_string).

Definition named (n : string) (p : Peer) : Peer :=
  {| p_Version := p_Version p; p_RemoteAS := p_RemoteAS p; p_MsgRcvd := p_MsgRcvd p; p_MsgSent := p_MsgSent p;
     p_TableVersion := p_TableVersion p; p_InQ := p_InQ p; p_OutQ := p_OutQ p; p_UpDown := p_UpDown p;
     p_State := p_State p; p_PfxRcd := p_PfxRcd p; p_NeighborName := n |}.

(** The reply is the encoding of the structure. *)
Definition getIPv6BGPSummary (args : CmdArgs) (options : OptionMap) : Cmd IPv6Unicast :=
  match GetDataFromHostCommand (vtysh "show bgp ipv6 summary json") with
  | None => fail (PlainErr "command failed")
  | Some out =>
      match summary_Unmarshal out with
      | None => fail (PlainErr "unable to create response")
      | Some u =>
          table ← GetMapFromQueries Y [["CONFIG_DB"; "BGP_NEIGHBOR"]];
          mret {| RouterID := RouterID u; LocalAS := LocalAS u; VRFId := VRFId u; TableVersion := TableVersion u;
                  RibCount := RibCount u; RibMemory := RibMemory u; PeerCount := PeerCount u; PeerMemory := PeerMemory u;
                  PeerGroupCount := PeerGroupCount u; PeerGroupMemory := PeerGroupMemory u;
                  Peers := insert_all (λ '(ip, peer), Some (ip, named (peer_name table ip) peer)) (Peers u) (map_range (Peers u)) |}
      end
  end.

Definition isIPv6Address (ip : string) : bool :=
  match net_ParseIP ip with Some (is4, _) => negb is4 | None => false end.

Definition isBGPNeighborPresent (ip : string) : Cmd bool :=
  table ← map_or_empty Y ["CONFIG_DB"; "BGP_NEIGHBOR"]; mret (bool_decide (is_Some (table !! ip))).

Definition vtyshBGPIPv6BGPNeighborsCommand : string := vtysh "show bgp ipv6 neighbors json".

Definition neighbors_command (ip what : string) : string :=
  vtysh ("show bgp ipv6 neighbors " +:+ ip +:+ what +:+ " json").

(** Runs a command and passes its output through the structure. *)
Definition bgp_query (kind : bgp_reply) (cmd : string) : Cmd json :=
  match GetDataFromHostCommand cmd with
  | None => fail (PlainErr "command failed")
  | Some out => match reencode kind out with Some d => mret d | None => fail (PlainErr "failed to parse response") end
  end.

Definition getIPv6BGPNeighbors (ip : string) : Cmd json :=
  bgp_query BgpNeighbors (if bool_decide (ip ≠ "") then neighbors_command ip "" else vtyshBGPIPv6BGPNeighborsCommand).
Definition getIPv6BGPNeighborsRoutes (ip : string) : Cmd json := bgp_query NeighborRoutes (neighbors_command ip " routes").
Definition getIPv6BGPNeighborsAdvertisedRoutes (ip : string) : Cmd json :=
  bgp_query AdvertisedRoutes (neighbors_command ip " advertised-routes").
Definition getIPv6BGPNeighborsReceivedRoutes (ip : string) : Cmd json :=
  bgp_query ReceivedRoutes (neighbors_command ip " received-routes").

Definition getIPv6BGPNeighborsHandler (args : CmdArgs) (options : OptionMap) : Cmd json :=
  let ip := args_At args 0 in
  let info_type := args_At args 1 in
  if bool_decide (ip ≠ "") && negb (isIPv6Address ip) then fail (PlainErr ("Invalid IPv6 address: " +:+ ip))
  else if bool_decide (info_type ≠ "") && bool_decide (ip = "") then
    fail (PlainErr ("IPv6 address is required when info_type " +:+ info_type +:+ " is specified"))
  else
    present ← (if bool_decide (ip ≠ "") then isBGPNeighborPresent ip else mret true);
    if negb present then fail (PlainErr ("neighbor " +:+ ip +:+ " not found in CONFIG_DB"))
    else if bool_decide (info_type = "routes") then getIPv6BGPNeighborsRoutes ip
    else if bool_decide (info_type = "advertised-routes") then getIPv6BGPNeighborsAdvertisedRoutes ip
    else if bool_decide (info_type = "received-routes") then getIPv6BGPNeighborsReceivedRoutes ip
    else if bool_decide (info_type = "") then getIPv6BGPNeighbors ip
    else fail (PlainErr ("Invalid info_type: " +:+ info_type)).

Notation prefixListData := (gmap string (gmap string prefixList)).

(** The lists of one protocol are merged into what there is. *)
Definition merge_lists (prefixListName : string) (merged : prefixListData) (e : string * gmap string prefixList) : prefixListData :=
  let '(proto, lists) := e in
  let dst := default ∅ (merged !! proto) in
  if bool_decide (prefixListName = "") then <[proto := lists ∪ dst]> merged
  else match lists !! prefixListName with
       | Some pl => <[proto := <[prefixListName := pl]> dst]> merged
       | None => merged
       end.

Definition merge_blocks (prefixListName : string) (blocks : list prefixListData) : prefixListData :=
  foldl (λ merged block, foldl (merge_lists prefixListName) merged (map_range block)) ∅ blocks.

(** The reply is the encoding of the map. *)
Definition getIPv6PrefixList (args : CmdArgs) (options : OptionMap) : Cmd prefixListData :=
  match GetDataFromHostCommand (vtysh "show ipv6 prefix-list json") with
  | None => fail (PlainErr "command failed")
  | Some rawOutput =>
      let '(blocks, eof) := prefix_Decode rawOutput in
      if eof : bool then mret (merge_blocks (args_At args 0) blocks) else fail (PlainErr "invalid JSON")
  end.

Definition proto_doc (v : ipv6ProtoVRF) : json :=
  object [("VRF", JStr (VRF v));
          ("Protocols", match Protocols v with
                        | [] => JNull
                        | l => rows_doc ((λ e, row_of [("Protocol", e.1); ("route-map", e.2)]) <$> l)
                        end)].

Definition getIPv6Protocol (args : CmdArgs) (options : OptionMap) : Cmd json :=
  match GetDataFromHostCommand (vtysh "show ipv6 protocol") with
  | None => fail (PlainErr "command failed")
  | Some rawOutput => mret (JArr (proto_doc <$> parseIPv6ProtocolVRFs rawOutput))
  end.

(** ** Link-local addresses *)

Definition tableInterfaceTypeMaps : gmap string string :=
  {["PORT" := "INTERFACE"; "PORTCHANNEL" := "PORTCHANNEL_INTERFACE"; "VLAN" := "VLAN_INTERFACE"]}.

Definition link_local (itfs : msi) (port : string) : string :=
  match (itfData ← itfs !! port ≫= as_map; itfData !! "ipv6_use_link_local_only" ≫= as_string) with
  | Some linkLocalStr => if Contains linkLocalStr "enable" then "Enabled" else "Disabled"
  | None => "Disabled"
  end.

Definition getPortsIpv6LinkLocalMode (args : CmdArgs) (options : OptionMap) : Cmd json :=
  modes ← for_each (λ modes '(table, interfaceType),
    ports ← GetMapFromQueries Y [["CONFIG_DB"; table]];
    itfs ← GetMapFromQueries Y [["CONFIG_DB"; interfaceType]];
    mret (modes ++ ((λ port, (port, link_local itfs port)) <$> (map_range ports).*1))) [] (map_range tableInterfaceTypeMaps);
  match sort_Slice (λ a b, str_lt a.1 b.1) modes with
  | [] => fail (StatusErr NotFound "PORT table is empty.")
  | sorted => mret (rows_doc ((λ e, row_of [("port", e.1); ("mode", e.2)]) <$> sorted))
  end.

(** ** Interfaces of the kernel *)

Definition link_attr (li : linkInfo) (a : Z * list Z) : option linkInfo :=
  let '(ty, data) := a in
  if bool_decide (ty = IFLA_IFNAME) then
    Some {| li_name := byte_string (trim_zeros data); masterIndex := masterIndex li; flags := flags li; carrier := carrier li |}
  else if bool_decide (ty = IFLA_MASTER) then
    u ← Uint32 data;
    Some {| li_name := li_name li; masterIndex := to_int32 u; flags := flags li; carrier := carrier li |}
  else if bool_decide (ty = IFLA_CARRIER) then
    Some (match data with
          | b :: _ => {| li_name := li_name li; masterIndex := masterIndex li; flags := flags li;
                         carrier := Some (bool_decide (b ≠ 0%Z)) |}
          | [] => li
          end)
  else Some li.

(** One message; [None] is a panic. *)
Definition parse_link (links : gmap Z linkInfo) (data : list Z) : option (gmap Z linkInfo) :=
  if bool_decide (length data < SizeofIfInfomsg) then Some links
  else
    u ← Uint32 (byte_slice data 4 8);
    fl ← Uint32 (byte_slice data 8 12);
    match UnmarshalAttributes (drop SizeofIfInfomsg data) with
    | None => Some links
    | Some attrs =>
        li ← foldl (λ li a, li ← li; link_attr li a)
               (Some {| li_name := ""; masterIndex := 0; flags := 0; carrier := None |}) attrs;
        let idx := to_int32 u in
        if bool_decide (li_name li = "") || bool_decide (idx = 0%Z) then Some links
        else Some (<[idx := {| li_name := li_name li; masterIndex := masterIndex li; flags := fl; carrier := carrier li |}]> links)
    end.

Definition parseLinks (msgs : list (list Z)) : option (gmap Z linkInfo) :=
  foldl (λ links m, links ← links; parse_link links m) (Some ∅) msgs.

(** The local address, or else the first that is given. *)
Definition addr_attr (ip : option (list Z)) (a : Z * list Z) : option (list Z) :=
  let '(ty, data) := a in
  if bool_decide (ty = IFA_LOCAL) then Some data
  else if bool_decide (ty = IFA_ADDRESS) then (match ip with None => Some data | Some _ => ip end)
  else ip.

Notation addresses := (gmap Z (list IPAddressDetail)).

Definition parse_address (acc : addresses * addresses) (data : list Z) : option (addresses * addresses) :=
  let '(v4, v6) := acc in
  match data with
  | family :: prefix :: _ =>
      if bool_decide (length data < SizeofIfAddrmsg) then Some acc
      else
        u ← Uint32 (byte_slice data 4 8);
        match UnmarshalAttributes (drop SizeofIfAddrmsg data) with
        | None => Some acc
        | Some attrs =>
            match foldl addr_attr None attrs with
            | None => Some acc
            | Some ip =>
                let ipd := {| Address6 := ip_String ip +:+ "/" +:+ Itoa prefix; BGPNeighborIP := ""; BGPNeighborName := "" |} in
                let idx := to_int32 u in
                let add (m : addresses) := <[idx := default [] (m !! idx) ++ [ipd]]> m in
                Some (if bool_decide (family = AF_INET) then (add v4, v6)
                      else if bool_decide (family = AF_INET6) then (v4, add v6) else acc)
            end
        end
  | _ => Some acc
  end.

Definition parseAddresses (msgs : list (list Z)) : option (addresses * addresses) :=
  foldl (λ acc m, acc ← acc; parse_address acc m) (Some (∅, ∅)) msgs.

Definition assemble (links : gmap Z linkInfo) (byIdx : addresses) (e : Z * linkInfo) : option IPInterfaceDetail :=
  let '(ifidx, li) := e in
  match default [] (byIdx !! ifidx) with
  | [] => None
  | ipAddresses =>
      Some {| d_name := li_name li; IPAddresses := ipAddresses; AdminStatus := getAdminStatus li;
              OperStatus6 := getOperStatus li;
              Master := if bool_decide (masterIndex li = 0%Z) then "" else default "" (li_name <$> links !! masterIndex li) |}
  end.

Definition assembleInterfaces (links : gmap Z linkInfo) (v4 v6 : addresses) (family : string) : list IPInterfaceDetail :=
  omap (assemble links (if bool_decide (family = AddressFamilyIPv4) then v4
                        else if bool_decide (family = AddressFamilyIPv6) then v6 else ∅)) (int_range links).

(** An error is [Ok None], a panic [crash]. *)
Definition getInterfacesInNamespace (ns family : string) : Cmd (option (list IPInterfaceDetail)) :=
  match netns_dump ns with
  | None => mret None
  | Some (linkMsgs, addrMsgs) =>
      links ← must (parseLinks linkMsgs);
      '(v4, v6) ← must (parseAddresses addrMsgs);
      mret (Some (assembleInterfaces links v4 v6 family))
  end.

Definition no_roles : NamespacesByRole := {| Frontend := []; Backend := []; Fabric := [] |}.

Definition add_role (r : NamespacesByRole) (ns subRole : string) : NamespacesByRole :=
  if bool_decide (subRole = "Frontend") then {| Frontend := Frontend r ++ [ns]; Backend := Backend r; Fabric := Fabric r |}
  else if bool_decide (subRole = "Backend") then {| Frontend := Frontend r; Backend := Backend r ++ [ns]; Fabric := Fabric r |}
  else if bool_decide (subRole = "Fabric") then {| Frontend := Frontend r; Backend := Backend r; Fabric := Fabric r ++ [ns] |}
  else r.

Definition asic_query (ns : string) : list string := ["CONFIG_DB/" +:+ ns; "DEVICE_METADATA"; "localhost"].

Definition GetAllNamespaces : Cmd NamespacesByRole :=
  numAsics ← ReadAsicConfValue Y;
  if bool_decide (numAsics ≤ 1)%Z then mret {| Frontend := [defaultNamespace]; Backend := []; Fabric := [] |}
  else for_each (λ namespaces i,
    let ns := "asic" +:+ Itoa (Z.of_nat i) in
    metadata ← map_or_empty Y (asic_query ns);
    mret (match (entry ← metadata !! "DEVICE_METADATA|localhost" ≫= as_map; entry !! "sub_role" ≫= as_string) with
          | Some subRole => add_role namespaces ns subRole
          | None => namespaces
          end)) no_roles (seq 0 (Z.to_nat numAsics)).

Definition resolveNamespaceSelection (opts : GetInterfacesOptions) : Cmd (list string) :=
  isMultiASIC ← IsMultiAsic Y;
  if negb isMultiASIC then
    match o_Namespace opts with
    | Some ns => if bool_decide (ns ≠ defaultNamespace) then fail (PlainErr ("unknown namespace " +:+ ns))
                 else mret [defaultNamespace]
    | None => mret [defaultNamespace]
    end
  else
    roles ← GetAllNamespaces;
    nsList ← (match o_Namespace opts with
              | Some ns => if ContainsString (Frontend roles) ns || ContainsString (Backend roles) ns || ContainsString (Fabric roles) ns
                           then mret [ns] else fail (PlainErr ("unknown namespace " +:+ ns))
              | None => mret (if bool_decide (o_Display opts = None) || bool_decide (o_Display opts = Some "all")
                              then Frontend roles ++ Backend roles ++ Fabric roles else Frontend roles)
              end);
    mret (if ContainsString nsList defaultNamespace then nsList else nsList ++ [defaultNamespace]).

Definition has_address (l : list IPAddressDetail) (a : IPAddressDetail) : bool :=
  existsb (λ b, bool_decide (Address6 b = Address6 a)) l.

Definition add_address (l : list IPAddressDetail) (a : IPAddressDetail) : list IPAddressDetail :=
  if has_address l a then l else l ++ [a].

Definition set_addresses (d : IPInterfaceDetail) (l : list IPAddressDetail) : IPInterfaceDetail :=
  {| d_name := d_name d; IPAddresses := l; AdminStatus := AdminStatus d; OperStatus6 := OperStatus6 d; Master := Master d |}.

Definition merge_interface (m : gmap string IPInterfaceDetail) (iface : IPInterfaceDetail) : gmap string IPInterfaceDetail :=
  match m !! d_name iface with
  | None => <[d_name iface := iface]> m
  | Some existing => <[d_name iface := set_addresses existing (foldl add_address (IPAddresses existing) (IPAddresses iface))]> m
  end.

Record BGPNeighborInfo := { bn_Name : string; NeighborIP : string }.

Definition parseBGPNeighborEntry (e : string * json) : option (string * BGPNeighborInfo) :=
  let '(neighborIP, data) := e in
  _ ← net_ParseIP neighborIP;
  neighborData ← as_map data;
  localAddr ← neighborData !! "local_addr" ≫= as_string;
  Some (localAddr, {| bn_Name := string_field neighborData "name" ""; NeighborIP := neighborIP |}).

Definition getBGPNeighborsFromDB (namespace : string) : Cmd (gmap string BGPNeighborInfo) :=
  let dbName := if bool_decide (namespace = defaultNamespace) then "CONFIG_DB" else "CONFIG_DB/" +:+ namespace in
  nsData ← GetMapFromQueries Y [[dbName; "BGP_NEIGHBOR"]];
  mret (insert_all parseBGPNeighborEntry ∅ (map_range nsData)).

Definition enrich_address (bgpNeighbors : gmap string BGPNeighborInfo) (a : IPAddressDetail) : IPAddressDetail :=
  match (ipStr ← cidr_String (Address6 a); bgpNeighbors !! ipStr) with
  | Some info => {| Address6 := Address6 a; BGPNeighborIP := NeighborIP info; BGPNeighborName := bn_Name info |}
  | None => a
  end.

Definition enrichWithBGPData (interfaces : list IPInterfaceDetail) : Cmd (list IPInterfaceDetail) :=
  r ← try (getBGPNeighborsFromDB defaultNamespace);
  mret (match r with
        | Ok bgpNeighbors => (λ d, set_addresses d (enrich_address bgpNeighbors <$> IPAddresses d)) <$> interfaces
        | Err _ => interfaces
        end).

Definition GetIPInterfaces (addressFamily : string) (opts : GetInterfacesOptions) : Cmd (list IPInterfaceDetail) :=
  if bool_decide (addressFamily ≠ AddressFamilyIPv4) && bool_decide (addressFamily ≠ AddressFamilyIPv6) then
    fail (PlainErr ("unsupported address family: " +:+ addressFamily))
  else
    nsList ← resolveNamespaceSelection opts;
    interfaceMap ← for_each (λ m ns,
      r ← getInterfacesInNamespace ns addressFamily;
      mret (match r with Some l => foldl merge_interface m l | None => m end)) ∅ nsList;
    enrichWithBGPData (map_range interfaceMap).*2.

Definition or_NA (s : string) : string := if bool_decide (s = "") then "N/A" else s.

Definition address_doc (a : IPAddressDetail) : json :=
  row_doc (row_of [("address", Address6 a); ("bgp_neighbor_ip", or_NA (BGPNeighborIP a));
                   ("bgp_neighbor_name", or_NA (BGPNeighborName a))]).

Definition getIPv6Interfaces (args : CmdArgs) (options : OptionMap) : Cmd json :=
  let opts := {| o_Namespace := ov_String (opt_get options "namespace"); o_Display := ov_String (opt_get options "display") |} in
  all ← GetIPInterfaces AddressFamilyIPv6 opts;
  mret (JObj (insert_all (λ d, Some (d_name d, object
    [("ipv6_addresses", JArr (address_doc <$> IPAddresses d)); ("admin_status", JStr (AdminStatus d));
     ("oper_status", JStr (OperStatus6 d)); ("master", JStr (Master d))])) ∅ all)).
End ip.

(** * What the commands of IPv6 show *)
Section facts.
Context {Sw : Swss} {MR : MapRange} {IR : IntRange} {JCo : JsonCodec} {Fmt : GoFmt} {H : HostCmd} {SS : SliceSort}
  {NA : NetAddr} {PE : PlatformEnv} {NK : NetKernel} {FC : FrrCodec}.
Notation msi := (gmap string json).

(** ** Namespaces *)

Lemma map_or_empty_Ok Y q s s' m : map_or_empty Y q s = (s', Ok m) →
  GetMapFromQueries Y [q] s = (s', Ok m) ∨ m = ∅.
Proof.
  unfold map_or_empty. rewrite bind_Cmd_run. unfold try.
  destruct (GetMapFromQueries Y [q] s) as [s1 [m'|[]]]; simpl; intros [= <- <-]; auto.
Qed.

(** The query of the metadata of a namespace leads to its entry, if to
    anything. *)
Definition finds_entry (Y : Sys) : Prop := ∀ ns s s1 tps,
  query_paths Y (asic_query ns) s = (s1, Ok tps) →
  ∃ n db sep, tps = [real_path n db sep "DEVICE_METADATA" "localhost" ""].

Lemma asic_entry_flat Y ns s s' m :
  finds_entry Y → map_or_empty Y (asic_query ns) s = (s', Ok m) → m !! "DEVICE_METADATA|localhost" ≫= as_map = None.
Proof.
  intros Hf [Hm| ->]%map_or_empty_Ok; [|done].
  assert (∃ s1 tps, query_paths Y (asic_query ns) s = (s1, Ok tps)) as (s1 & tps & Hq).
  { unfold GetMapFromQueries, CreateTablePathsFromQueries in Hm. simpl in Hm.
    apply bind_Cmd_Ok in Hm as (s1 & l & Hl & _). apply bind_Cmd_Ok in Hl as (s2 & l2 & Hl & _).
    apply bind_Cmd_Ok in Hl as (s3 & l3 & Hl & _). eauto. }
  destruct (Hf _ _ _ _ Hq) as (n & db & sep & ->).
  assert ("localhost" ≠ "") as Hl by congruence.
  pose proof (entry_is_flat _ _ _ _ _ _ _ _ _ _ _ Hl Hq Hm) as Hflat.
  destruct (m !! "DEVICE_METADATA|localhost") as [v|] eqn:Hv; [|done].
  destruct (Hflat _ _ Hv) as [str Hs]. by destruct v.
Qed.

Lemma for_each_inv {A S} (P : S → Prop) (f : S → A → Cmd S) l acc s s' r :
  P acc → (∀ acc x s s' r, P acc → f acc x s = (s', Ok r) → P r) → for_each f acc l s = (s', Ok r) → P r.
Proof.
  intros Hp Hf. revert acc s Hp. induction l as [|x l IH]; intros acc s Hp; simpl.
  - intros [= <- <-]. done.
  - intros (s1 & acc1 & H1 & H2)%bind_Cmd_Ok. eapply IH; [by eapply Hf|done].
Qed.

Lemma no_asic_roles Y n s s' r : finds_entry Y → (1 < n)%Z → (∀ s, (ReadAsicConfValue Y s).2 = Ok n) →
  GetAllNamespaces Y s = (s', Ok r) → r = no_roles.
Proof.
  intros Hf Hn Ha. unfold GetAllNamespaces. intros (s1 & n' & Hr & Hloop)%bind_Cmd_Ok.
  assert (n' = n) as -> by (specialize (Ha s); rewrite Hr in Ha; by injection Ha).
  rewrite bool_decide_false in Hloop by lia. revert Hloop. apply (for_each_inv (λ r, r = no_roles)); [done|].
  intros acc i s2 s3 r' -> (s4 & m & Hm & Hr')%bind_Cmd_Ok.
  rewrite (asic_entry_flat _ _ _ _ _ Hf Hm) in Hr'. by injection Hr' as _ <-.
Qed.

(** With several ASICs the command never looks into their namespaces: the
    roles are looked for under a key that the reply to the query does not have,
    so only the default namespace is shown and every other that is asked for is
    unknown. *)
Theorem asic_namespaces_unknown Y n opts s s' l :
  finds_entry Y → (1 < n)%Z → (∀ s, (ReadAsicConfValue Y s).2 = Ok n) →
  resolveNamespaceSelection Y opts s = (s', Ok l) → o_Namespace opts = None ∧ l = [defaultNamespace].
Proof.
  intros Hf Hn Ha. unfold resolveNamespaceSelection. intros (s1 & multi & Hm & Hr)%bind_Cmd_Ok.
  unfold IsMultiAsic in Hm. apply bind_Cmd_Ok in Hm as (s2 & n' & Hv & Hm).
  assert (n' = n) as -> by (specialize (Ha s); rewrite Hv in Ha; by injection Ha).
  rewrite bool_decide_true in Hm by lia. injection Hm as <- <-. simpl in Hr.
  apply bind_Cmd_Ok in Hr as (s3 & roles & Hroles & Hr).
  pose proof (no_asic_roles _ _ _ _ _ Hf Hn Ha Hroles) as ->.
  apply bind_Cmd_Ok in Hr as (s4 & nsList & Hns & Hr).
  destruct (o_Namespace opts) as [ns|]; [done|]. split; [done|].
  assert (nsList = []) as ->; [|by injection Hr as _ <-].
  simpl in Hns. destruct (_ || _); by injection Hns as _ <-.
Qed.

(** ** Addresses of interfaces *)

Lemma add_address_spec l a x :
  x ∈ Address6 <$> add_address l a ↔ x ∈ Address6 <$> l ∨ x = Address6 a.
Proof.
  unfold add_address. destruct (has_address l a) eqn:Ha.
  - split; [by left|]. intros [| ->]; [done|]. unfold has_address in Ha. apply existsb_exists in Ha as (b & Hb & Hab).
    apply bool_decide_eq_true in Hab. rewrite <- Hab. apply list_elem_of_fmap_2, list_elem_of_In, Hb.
  - rewrite fmap_app, elem_of_app. simpl. by rewrite list_elem_of_singleton.
Qed.

Lemma add_address_nodup l a : NoDup (Address6 <$> l) → NoDup (Address6 <$> add_address l a).
Proof.
  intros Hl. unfold add_address. destruct (has_address l a) eqn:Ha; [done|].
  rewrite fmap_app. apply NoDup_app. split; [done|]. split; [|apply NoDup_singleton].
  intros x (b & -> & Hb)%list_elem_of_fmap Hx%list_elem_of_singleton.
  assert (has_address l a = true) as Ht; [|congruence].
  apply existsb_exists. exists b. split; [by apply list_elem_of_In|]. by apply bool_decide_eq_true.
Qed.

Lemma add_addresses_spec l l' x :
  x ∈ Address6 <$> foldl add_address l l' ↔ x ∈ Address6 <$> l ∨ x ∈ Address6 <$> l'.
Proof.
  revert l. induction l' as [|a l' IH]; intros l; simpl; [set_solver|].
  rewrite IH, add_address_spec, elem_of_cons. tauto.
Qed.

Lemma add_addresses_nodup l l' : NoDup (Address6 <$> l) → NoDup (Address6 <$> foldl add_address l l').
Proof. revert l. induction l' as [|a l' IH]; intros l Hl; simpl; [done|]. by apply IH, add_address_nodup. Qed.

(** What is shown of the interfaces [l] under a name: once, the addresses of
    all of them, none added twice, and the status of the first. *)
Definition merged_as (l : list IPInterfaceDetail) (name : string) (o : option IPInterfaceDetail) : Prop :=
  match o with
  | None => ∀ i, i ∈ l → d_name i ≠ name
  | Some d =>
      d_name d = name ∧
      (∃ d0, head (filter (λ i, d_name i = name) l) = Some d0 ∧
        AdminStatus d = AdminStatus d0 ∧ OperStatus6 d = OperStatus6 d0 ∧ Master d = Master d0) ∧
      (∀ a, a ∈ Address6 <$> IPAddresses d ↔ ∃ i, i ∈ l ∧ d_name i = name ∧ a ∈ Address6 <$> IPAddresses i) ∧
      ((∀ i, i ∈ l → NoDup (Address6 <$> IPAddresses i)) → NoDup (Address6 <$> IPAddresses d))
  end.

Lemma merged_first l i : merged_as l (d_name i) None → merged_as (l ++ [i]) (d_name i) (Some i).
Proof.
  simpl. intros Hno. split_and!; [done| | |].
  - exists i. split; [|done]. assert (filter (λ j, d_name j = d_name i) l = []) as Hl.
    { apply elem_of_nil_inv. intros j [Hj Hin]%list_elem_of_filter. by apply (Hno j). }
    rewrite filter_app, Hl. simpl. by rewrite filter_cons_True.
  - intros a. setoid_rewrite elem_of_app. setoid_rewrite list_elem_of_singleton. split; [eauto|].
    intros (j & [Hj| ->] & ? & ?); [|done]. by destruct (Hno j Hj).
  - intros Hall. apply Hall, elem_of_app. right. by apply list_elem_of_singleton.
Qed.

Lemma merged_again l i d : merged_as l (d_name i) (Some d) →
  merged_as (l ++ [i]) (d_name i) (Some (set_addresses d (foldl add_address (IPAddresses d) (IPAddresses i)))).
Proof.
  simpl. intros (Hn & (d0 & Hh & H1 & H2 & H3) & Ha & Hnd). split_and!.
  - done.
  - exists d0. rewrite filter_app. by destruct (filter _ l).
  - intros a. rewrite add_addresses_spec, Ha. setoid_rewrite elem_of_app. setoid_rewrite list_elem_of_singleton.
    split; [intros [(j & ? & ? & ?)|?]; eauto 6|]. intros (j & [Hj| ->] & ? & ?); eauto.
  - intros Hall. apply add_addresses_nodup, Hnd. intros j Hj. apply Hall, elem_of_app. by left.
Qed.

Lemma merged_other l i name o : d_name i ≠ name → merged_as l name o → merged_as (l ++ [i]) name o.
Proof.
  intros Hne. destruct o as [d|]; simpl.
  - intros (Hn & (d0 & Hh & Hst) & Ha & Hnd). split_and!; [done| | |].
    + exists d0. rewrite filter_app, filter_cons_False, filter_nil, app_nil_r by done. done.
    + intros a. rewrite Ha. setoid_rewrite elem_of_app. setoid_rewrite list_elem_of_singleton.
      split; [intros (j & ? & ? & ?); eauto 6|]. intros (j & [Hj| ->] & ? & ?); [eauto|done].
    + intros Hall. apply Hnd. intros j Hj. apply Hall, elem_of_app. by left.
  - intros Hno j [Hj| ->%list_elem_of_singleton]%elem_of_app; [by apply Hno|done].
Qed.

(** An interface that several namespaces report is shown once, with the
    addresses of all reports, none of them added twice, and with the status of
    the first report. *)
Theorem interfaces_merged (l : list IPInterfaceDetail) name : merged_as l name (foldl merge_interface ∅ l !! name).
Proof.
  induction l as [|i l IH] using rev_ind.
  { simpl. rewrite lookup_empty. by intros i Hi%not_elem_of_nil. }
  rewrite foldl_app. simpl. unfold merge_interface at 1. set (m := foldl merge_interface ∅ l) in *.
  destruct (decide (d_name i = name)) as [<-|Hne].
  - destruct (m !! d_name i) as [d|] eqn:Hd; rewrite lookup_insert_eq; [by apply merged_again|by apply merged_first].
  - apply merged_other; [done|]. by destruct (m !! d_name i); rewrite lookup_insert_ne.
Qed.

(** ** Prefix lists *)

Definition list_at (m : gmap string (gmap string prefixList)) (proto name : string) : option prefixList :=
  m !! proto ≫= (.!! name).

(** The filtered map holds the list asked for and nothing else. *)
Definition filtered_of (n : string) (filtered full : gmap string (gmap string prefixList)) : Prop :=
  ∀ proto, filtered !! proto = (λ pl, {[n := pl]}) <$> list_at full proto n.

Lemma merge_lists_filtered n filtered full e :
  n ≠ "" → filtered_of n filtered full → filtered_of n (merge_lists n filtered e) (merge_lists "" full e).
Proof.
  intros Hn Hf proto. destruct e as [p lists]. unfold merge_lists. rewrite bool_decide_false by done.
  rewrite bool_decide_true by done. unfold list_at. destruct (decide (p = proto)) as [->|Hne].
  - pose proof (Hf proto) as Hp. unfold list_at in Hp.
    assert (full !! proto ≫= (.!! n) = default ∅ (full !! proto) !! n) as Hd by (by destruct (full !! proto)).
    rewrite Hd in Hp. rewrite lookup_insert_eq. simpl.
    destruct (lists !! n) as [pl|] eqn:Hl.
    + rewrite lookup_insert_eq, (lookup_union_Some_l _ _ _ _ Hl), Hp. simpl. f_equal.
      destruct (default ∅ (full !! proto) !! n); simpl; [apply insert_singleton_eq|done].
    + by rewrite Hp, lookup_union_r.
  - pose proof (Hf proto) as Hp. rewrite (lookup_insert_ne full) by done.
    destruct (lists !! n); [rewrite lookup_insert_ne by done|]; exact Hp.
Qed.

(** Asked for one prefix list, the command shows it for exactly the
    protocols for which the full listing has it, as it is there, and no other
    list. *)
Theorem prefix_list_filter n blocks :
  n ≠ "" → filtered_of n (merge_blocks n blocks) (merge_blocks "" blocks).
Proof.
  intros Hn. unfold merge_blocks.
  assert (filtered_of n ∅ ∅) as H0 by (intros proto; unfold list_at; by rewrite lookup_empty).
  revert H0. generalize (∅ : gmap string (gmap string prefixList)) at 1 3. intros f. generalize (∅ : gmap string (gmap string prefixList)).
  revert f. induction blocks as [|b blocks IH]; intros f g H0; simpl; [done|]. apply IH. clear IH.
  revert f g H0. induction (map_range b) as [|e l IH]; intros f g H0; simpl; [done|].
  by apply IH, merge_lists_filtered.
Qed.

(** ** Commands *)

(** The command about BGP neighbours depends on no program but vtysh with
    one of five fixed commands, in which the only word of the request is a text
    that is accepted as an IPv6 address. *)
Theorem bgp_neighbors_confined (H1 H2 : HostCmd) Y args options s :
  GetDataFromHostCommand (H := H1) vtyshBGPIPv6BGPNeighborsCommand =
    GetDataFromHostCommand (H := H2) vtyshBGPIPv6BGPNeighborsCommand →
  (∀ ip what, isIPv6Address ip = true → what ∈ [""; " routes"; " advertised-routes"; " received-routes"] →
     GetDataFromHostCommand (H := H1) (neighbors_command ip what) = GetDataFromHostCommand (H := H2) (neighbors_command ip what)) →
  getIPv6BGPNeighborsHandler (H := H1) Y args options s = getIPv6BGPNeighborsHandler (H := H2) Y args options s.
Proof.
  intros Hall Heq. unfold getIPv6BGPNeighborsHandler, getIPv6BGPNeighbors.
  set (ip := args_At args 0). set (info_type := args_At args 1). destruct (decide (ip = "")) as [->|Hne].
  - rewrite !(bool_decide_false ("" ≠ "")) by (by intros []). simpl.
    destruct (decide (info_type = "")) as [->|Hi]; [|by rewrite bool_decide_true by done].
    unfold bgp_query. simpl. by rewrite Hall.
  - rewrite (bool_decide_true (ip ≠ "")) by done. simpl.
    destruct (isIPv6Address ip) eqn:Hip; [|done]. simpl.
    assert (∀ k what, what ∈ [""; " routes"; " advertised-routes"; " received-routes"] →
      bgp_query (H := H1) k (neighbors_command ip what) = bgp_query (H := H2) k (neighbors_command ip what)) as Hq.
    { intros k what Hw. unfold bgp_query. by rewrite (Heq _ _ Hip Hw). }
    unfold getIPv6BGPNeighborsRoutes, getIPv6BGPNeighborsAdvertisedRoutes, getIPv6BGPNeighborsReceivedRoutes.
    rewrite !Hq by (rewrite !elem_of_cons; tauto). done.
Qed.

(** The arguments of the route command are pasted between quotes: an
    argument that closes them makes vtysh run a command of its own. *)
Theorem ipv6_route_runs_any Y command out doc options s s1 :
  let quote := dquote in
  let arg := quote +:+ " -c " +:+ quote +:+ command +:+ quote +:+ " -c " +:+ quote +:+ "show version" in
  let words := ["vtysh"; "-c"; "show ipv6 route "; "-c"; command; "-c"; "show version json"] in
  IsMultiAsic Y s = (s1, Ok false) →
  shlex_split (vtysh ("show ipv6 route " +:+ arg +:+ " json")) = Some words →
  run_program (base_args ++ words) = Some out → Unmarshal out = Some doc →
  getIPv6Route Y [arg] options s = (s1, Ok doc).
Proof.
  intros quote arg words Hm Hs Hr Hu. unfold getIPv6Route. rewrite bind_Cmd_run, Hm.
  assert (filter (λ a, ¬ (a = "" ∨ a = "nexthop-group" ∨ a = "json")) [arg] = [arg]) as ->.
  { rewrite filter_cons_True, filter_nil; [done|]. intros [?|[?|?]]; discriminate. }
  change (Join (["show"; "ipv6"; "route"] ++ [arg] ++ ["json"]) " ") with ("show ipv6 route " +:+ arg +:+ " json").
  unfold GetDataFromHostCommand. rewrite Hs. simpl mbind. cbn [mbind option_bind].
  rewrite Hr. simpl. by rewrite Hu.
Qed.

(** The forwarding table shows every route of the family that the filter
    lets through once, numbered in the order in which they are shown. *)
Theorem fib_exact Y f want s s' out :
  getFibEntries Y f want s = (s', Ok out) →
  ∃ table, GetMapFromQueries Y [["APPL_DB"; "ROUTE_TABLE"]] s = (s', Ok table) ∧
    (∀ i e, out !! i = Some e → Index e = Z.of_nat (S i)) ∧
    ((λ e, (Vrf e, Route e, NextHop e, fib_IfName e)) <$> out) ≡ₚ
      ((λ e, (Vrf e, Route e, NextHop e, fib_IfName e)) <$> omap (fib_row f want) (map_to_list table)).
Proof.
  unfold getFibEntries. intros (s1 & table & Hq & Hr)%bind_Cmd_Ok. injection Hr as <- <-.
  exists table. split; [done|]. split.
  - intros i e. rewrite list_lookup_imap. destruct (_ !! i); simpl; by intros [= <-].
  - rewrite fmap_imap. assert (∀ l, imap (λ n e, (Vrf (with_index n e), Route (with_index n e), NextHop (with_index n e),
      fib_IfName (with_index n e))) l = (λ e, (Vrf e, Route e, NextHop e, fib_IfName e)) <$> l) as Himap.
    { intros l. rewrite <- (imap_const _ l). done. }
    etrans; [apply reflexive_eq, Himap|]. by rewrite sort_Slice_perm, map_range_perm.
Qed.
End facts.

(** ** Instances *)
Module IpExample.
Import VdbExample ShowExample.

#[local] Instance ip_swss : Swss := swss1.
#[local] Instance ip_range : MapRange := canonical_range.
#[local] Instance ip_fmt : GoFmt := {| fmt_number := Itoa; fmt_composite _ := "?" |}.
#[local] Instance ip_codec : JsonCodec := {| Unmarshal t := Some (JStr t); Marshal _ := None |}.
#[local] Instance ip_sort : SliceSort := {| sort_Slice A _ l := l; sort_Slice_perm A _ l := reflexivity l |}.
#[local] Instance ip_addr : NetAddr := {| net_ParseIP t := if Contains t ":" then Some (false, t) else None; net_ParseCIDR _ := None |}.
#[local] Instance ip_platform : PlatformEnv := {|
  os_Getenv _ := ""; FileExists p := bool_decide (p = "/usr/share/sonic/platform/asic.conf"); yaml_Unmarshal _ := None |}.
#[local] Instance ip_frr : FrrCodec := {| summary_Unmarshal _ := None; reencode _ t := Some (JStr t); prefix_Decode _ := ([], true) |}.

Definition routes : contents :=
  {["ROUTE_TABLE:fc00::/64" := {["nexthop" := "::"; "ifname" := "Loopback0"]}]}.

Definition box (asics : string) (config : contents) : Sys := {|
  sys_env := {|
    env_cfg := env_cfg env0;
    Target2RedisDb := {["" := {["CONFIG_DB" := conn_of config; "APPL_DB" := conn_of routes]}]};
    UNIT_TEST := "" |};
  read_file p := if bool_decide (p = "/usr/share/sonic/platform/asic.conf") then Some ("NUM_ASIC=" +:+ asics) else None
|}.

Definition fib_out : list fibEntry := match (getFibEntries (box "1" ∅) "" true show_init).2 with Ok l => l | Err _ => [] end.
Definition fib_state : ShowState := (getFibEntries (box "1" ∅) "" true show_init).1.

Lemma fib_exact_witness :
  getFibEntries (box "1" ∅) "" true show_init = (fib_state, Ok fib_out) ∧ Route <$> fib_out = ["fc00::/64"] ∧
  ∀ i e, fib_out !! i = Some e → Index e = Z.of_nat (S i).
Proof.
  assert (getFibEntries (box "1" ∅) "" true show_init = (fib_state, Ok fib_out)) as H1 by (vm_compute; reflexivity).
  split; [exact H1|]. split; [vm_compute; reflexivity|].
  destruct (fib_exact (box "1" ∅) "" true show_init fib_state fib_out H1) as (table & _ & Hi & _). exact Hi.
Defined.

Lemma prefix_list_filter_witness :
  "A" ≠ "" ∧ filtered_of "A" (merge_blocks "A" [{["BGP" := {["A" := {| AddressFamily := "IPv6"; Entries := [] |}]}]}])
                            (merge_blocks "" [{["BGP" := {["A" := {| AddressFamily := "IPv6"; Entries := [] |}]}]}]).
Proof. assert ("A" ≠ "") as H1 by congruence. split; [exact H1|]. exact (prefix_list_filter "A" _ H1). Defined.

(** Two hosts that differ on every program but vtysh. *)
Definition host1 : HostCmd := {| shlex_split c := Some [c]; run_program _ := Some "one" |}.
Definition host2 : HostCmd := {|
  shlex_split c := Some [c]; run_program l := if bool_decide (last l = Some "reboot") then None else Some "one" |}.

Lemma bgp_neighbors_confined_witness :
  GetDataFromHostCommand (H := host1) "reboot" ≠ GetDataFromHostCommand (H := host2) "reboot" ∧
  getIPv6BGPNeighborsHandler (H := host1) (box "1" ∅) ["fc00::1"] ∅ show_init =
  getIPv6BGPNeighborsHandler (H := host2) (box "1" ∅) ["fc00::1"] ∅ show_init.
Proof.
  assert (∀ c, c ≠ "reboot" → GetDataFromHostCommand (H := host1) c = GetDataFromHostCommand (H := host2) c) as Hc.
  { intros c Hc. change (Some "one" = if bool_decide (Some c = Some "reboot") then None else Some "one").
    by rewrite bool_decide_false by congruence. }
  split; [vm_compute; congruence|]. apply bgp_neighbors_confined;
    [|intros ip what _ _]; apply Hc; unfold vtyshBGPIPv6BGPNeighborsCommand, neighbors_command, vtysh; discriminate.
Defined.

(** A host that runs vtysh, with a splitter that knows this command line. *)
Definition evil : string := "clear bgp *".
Definition evil_arg : string :=
  dquote +:+ " -c " +:+ dquote +:+ evil +:+ dquote +:+ " -c " +:+ dquote +:+ "show version".
Definition evil_words : list string := ["vtysh"; "-c"; "show ipv6 route "; "-c"; evil; "-c"; "show version json"].
#[local] Instance host3 : HostCmd := {|
  shlex_split c := if bool_decide (c = vtysh ("show ipv6 route " +:+ evil_arg +:+ " json")) then Some evil_words else None;
  run_program l := if bool_decide (evil ∈ l) then Some "cleared" else None |}.

Lemma ipv6_route_runs_any_witness :
  (IsMultiAsic (box "1" ∅) show_init).2 = Ok false ∧
  (getIPv6Route (box "1" ∅) [evil_arg] ∅ show_init).2 = Ok (JStr "cleared").
Proof.
  set (s1 := (IsMultiAsic (box "1" ∅) show_init).1).
  assert (IsMultiAsic (box "1" ∅) show_init = (s1, Ok false)) as H1 by (vm_compute; reflexivity).
  split; [by rewrite H1|].
  assert (shlex_split (vtysh ("show ipv6 route " +:+ evil_arg +:+ " json")) = Some evil_words) as H2 by (vm_compute; reflexivity).
  assert (run_program (base_args ++ evil_words) = Some "cleared") as H3 by (vm_compute; reflexivity).
  assert (Unmarshal "cleared" = Some (JStr "cleared")) as H4 by reflexivity.
  by rewrite (ipv6_route_runs_any (box "1" ∅) evil "cleared" (JStr "cleared") ∅ show_init s1 H1 H2 H3 H4).
Defined.
End IpExample.
