(* ===== verification/ShowEnv.v ===== *)
(** * SHOW environment (src/show_client/environment_cli.go)

    The output of sensors is read line by line: a line without a colon starts
    a device, a line of its adapter follows, and every other line with a colon
    is a reading, whose thresholds may go on in the lines below.

    Numbers, units and thresholds are found with regular expressions, matched
    here as package regexp does: the leftmost match and, among those, the one
    that comes first when alternatives are tried in order and repetitions are
    greedy.  In a document that a command writes, [JNum] is the integer
    itself. *)
From Stdlib Require Import Ascii.
From stdpp Require Import base gmap sets list strings pretty.
From S2P Require Import Prelude GoStrings Gnmi Json DbConfig DbConn VirtualDb VirtualDbFacts DbClient Bypass Show ShowLib ShowIntf ShowHost ShowSfp ShowSystem.

(** ** Regular expressions *)

Inductive regex :=
| RChar (p : ascii → bool)
| RSeq (a b : regex)
| RAlt (a b : regex)
| ROpt (a : regex)
| RStar (a : regex)
| RGroup (n : nat) (a : regex).

Notation groups := (gmap nat string).

(** What a match at the start of a text gives to the rest of the expression,
    in the order of preference.  A repetition that reads nothing ends, and the
    length of the text bounds the others. *)
Fixpoint rmatch (r : regex) (s : string) (g : groups) (k : string → groups → option (string * groups)) {struct r}
  : option (string * groups) :=
  match r with
  | RChar p => match s with String c s' => if p c then k s' g else None | EmptyString => None end
  | RSeq a b => rmatch a s g (λ s g, rmatch b s g k)
  | RAlt a b => match rmatch a s g k with Some x => Some x | None => rmatch b s g k end
  | ROpt a => match rmatch a s g k with Some x => Some x | None => k s g end
  | RStar a =>
      (fix go (n : nat) (s : string) (g : groups) : option (string * groups) :=
         match n with
         | 0 => k s g
         | S n => match rmatch a s g (λ s' g', if String.length s' <? String.length s then go n s' g' else None) with
                  | Some x => Some x
                  | None => k s g
                  end
         end) (String.length s) s g
  | RGroup n a =>
      rmatch a s g (λ s' g', k s' (<[n := str_take (String.length s - String.length s') s]> g'))
  end.

Definition accept (s : string) (g : groups) : option (string * groups) := Some (s, g).

(** [FindStringSubmatch]: the groups of the leftmost match and what follows. *)
Fixpoint FindSubmatch (r : regex) (s : string) : option (string * groups) :=
  match rmatch r s ∅ accept with
  | Some x => Some x
  | None => match s with String _ s' => FindSubmatch r s' | EmptyString => None end
  end.

(** [FindAllStringSubmatch] of an expression that matches no empty text; the
    fuel is the length of the text. *)
Fixpoint find_all (fuel : nat) (r : regex) (s : string) : list groups :=
  match fuel with
  | 0 => []
  | S fuel => match FindSubmatch r s with Some (rest, g) => g :: find_all fuel r rest | None => [] end
  end.
Definition FindAllSubmatch (r : regex) (s : string) : list groups := find_all (String.length s) r s.

Definition group (g : groups) (n : nat) : string := default "" (g !! n).

(** [a+], and a text as an expression. *)
Definition RPlus (a : regex) : regex := RSeq a (RStar a).
Definition one (c : ascii) : regex := RChar (λ x, bool_decide (x = c)).

Definition is_letter (c : ascii) : bool := bool_decide (65 ≤ nat_of_ascii c ≤ 90 ∨ 97 ≤ nat_of_ascii c ≤ 122).
Definition is_word (c : ascii) : bool := is_letter c || is_digit c || bool_decide (nat_of_ascii c = 95).

Definition spaces : regex := RStar (RChar re_space).
Definition letters : regex := RPlus (RChar is_letter).

(** [[-+]?[0-9]*\.?[0-9]+] *)
Definition number : regex :=
  RSeq (ROpt (RChar (λ c, bool_decide (c = "-"%char ∨ c = "+"%char))))
    (RSeq (RStar (RChar is_digit)) (RSeq (ROpt (one "."%char)) (RPlus (RChar is_digit)))).

(** [([-+]?[0-9]*\.?[0-9]+)\s*([A-Za-z]+|N/A)] *)
Definition not_available : regex := RSeq (one "N"%char) (RSeq (one "/"%char) (one "A"%char)).
Definition unit_part : regex := RGroup 2 (RAlt letters not_available).
Definition valueRe : regex := RSeq (RGroup 1 number) (RSeq spaces unit_part).

(** One or two words, an equals sign, a number and a unit. *)
Definition thresholdRe : regex :=
  RSeq (RGroup 1 (RSeq (RPlus (RChar is_word)) (RSeq spaces (RStar (RChar is_word)))))
    (RSeq spaces (RSeq (one "="%char) (RSeq spaces (RSeq (RGroup 2 number) (RSeq spaces (RGroup 3 letters)))))).

(** ** Readings and devices *)

Record SensorReading := { Label : string; sr_Value : option string; sr_Unit : string; Thresholds : gmap string string }.
Record SensorDevice := { Device : string; Adapter : string; Readings : list SensorReading }.

Definition isAdapterLine (line : string) : bool := HasPrefix line "Adapter:".
Definition isDeviceLine (line : string) : bool := bool_decide (line ≠ "") && negb (isAdapterLine line) && negb (Contains line ":").
Definition parseAdapter (line : string) : string := TrimPrefix line "Adapter: ".
Definition isReadingLine (line : string) : bool := Contains line ":".

Definition parseThresholds (text : string) : gmap string string :=
  insert_all (λ m, Some (TrimSpace (group m 1), group m 2 +:+ " " +:+ group m 3)) ∅ (FindAllSubmatch thresholdRe text).

Definition parse_value (rest : string) : option string * string :=
  match FindSubmatch valueRe rest with
  | Some (_, m) => (if bool_decide (group m 2 ≠ "N/A") then Some (group m 1) else None, group m 2)
  | None => (None, "N/A")
  end.

(** Whether a line below a reading ends it. *)
Definition ends_reading (nextLine : string) : bool :=
  bool_decide (nextLine = "") || negb (isAdapterLine nextLine) && Contains nextLine ":".

(** The thresholds of the lines below, and the first line after them. *)
Fixpoint more_thresholds (thresholds : gmap string string) (lines : list string) : gmap string string * list string :=
  match lines with
  | [] => (thresholds, [])
  | l :: rest =>
      let nextLine := TrimSpace l in
      if ends_reading nextLine then (thresholds, lines)
      else more_thresholds (parseThresholds nextLine ∪ thresholds) rest
  end.

Definition parseReading (l : string) (below : list string) : SensorReading * list string :=
  let parts := SplitN2 (TrimSpace l) ":" in
  let rest := TrimSpace (default "" (parts !! 1)) in
  let '(value, unit) := parse_value rest in
  let '(thresholds, lines) := more_thresholds (parseThresholds rest) below in
  ({| Label := TrimSpace (default "" (parts !! 0)); sr_Value := value; sr_Unit := unit; Thresholds := thresholds |}, lines).

Definition new_device (line : string) : SensorDevice := {| Device := line; Adapter := ""; Readings := [] |}.
Definition with_adapter (a : string) (d : SensorDevice) : SensorDevice :=
  {| Device := Device d; Adapter := a; Readings := Readings d |}.
Definition with_reading (r : SensorReading) (d : SensorDevice) : SensorDevice :=
  {| Device := Device d; Adapter := Adapter d; Readings := Readings d ++ [r] |}.

(** The loop over the lines; the fuel is their number, since every round reads
    one at least. *)
Fixpoint sensor_loop (fuel : nat) (lines : list string) (devices : list SensorDevice) (currentDevice : option SensorDevice)
  : list SensorDevice :=
  match fuel, lines with
  | S fuel, l :: rest =>
      let line := TrimSpace l in
      if isDeviceLine line then sensor_loop fuel rest (devices ++ option_list currentDevice) (Some (new_device line))
      else if isAdapterLine line then sensor_loop fuel rest devices (with_adapter (parseAdapter line) <$> currentDevice)
      else match isReadingLine line, currentDevice with
           | true, Some d => let '(r, lines) := parseReading l rest in sensor_loop fuel lines devices (Some (with_reading r d))
           | _, _ => sensor_loop fuel rest devices currentDevice
           end
  | _, _ => devices ++ option_list currentDevice
  end.

Definition parse_sensors (lines : list string) : list SensorDevice := sensor_loop (length lines) lines [] None.

Definition reading_doc (r : SensorReading) : json :=
  object [("label", JStr (Label r)); ("value", match sr_Value r with Some v => JStr v | None => JNull end);
          ("unit", JStr (sr_Unit r)); ("thresholds", row_doc (Thresholds r))].
Definition device_doc (d : SensorDevice) : json :=
  object [("device", JStr (Device d)); ("adapter", JStr (Adapter d)); ("readings", JArr (reading_doc <$> Readings d))].

Section env.
Context {H : HostCmd}.

Definition getEnvironment (args : CmdArgs) (options : OptionMap) : Cmd json :=
  match GetDataFromHostCommand "sudo sensors" with
  | None => fail (PlainErr "command failed")
  | Some output =>
      let output := TrimSpace output in
      if bool_decide (output = "") then fail (PlainErr "Got empty output for sensors command")
      else
        let devices := parse_sensors (Split output newline) in
        mret (object [("devices", match devices with [] => JNull | _ => JArr (device_doc <$> devices) end);
                      ("total_devices", JNum (Z.of_nat (length devices)))])
  end.
End env.

(** * What the command shows *)

(** ** Matches *)

(** A match ends in what the rest of the expression makes of it. *)
Lemma rmatch_cont r s g k x : rmatch r s g k = Some x → ∃ s' g', k s' g' = Some x.
Proof.
  revert s g k. induction r as [p|a IHa b IHb|a IHa b IHb|a IHa|a IHa|n a IHa]; intros s g k; simpl.
  - destruct s as [|c s]; [done|]. destruct (p c); [eauto|done].
  - intros (s' & g' & Hb)%IHa. by eapply IHb.
  - destruct (rmatch a s g k) eqn:Ha; [intros [= ->]; by eapply IHa|apply IHb].
  - destruct (rmatch a s g k) eqn:Ha; [intros [= ->]; by eapply IHa|eauto].
  - generalize (String.length s) at 1. intros n. revert s g. induction n as [|n IHn]; intros s g; simpl; [eauto|].
    destruct (rmatch a s g _) eqn:Ha; [intros [= ->]|eauto].
    apply IHa in Ha as (s' & g' & Hk). destruct (_ <? _); [by eapply IHn|done].
  - intros (s' & g' & Hk)%IHa. eauto.
Qed.

(** A repeated character before something that never fails takes all it can. *)
Lemma rmatch_star_char p s g k :
  (∀ s g, is_Some (k s g)) → rmatch (RStar (RChar p)) s g k = k (span p s).2 g.
Proof.
  intros Hk. cbn [rmatch]. revert g. induction s as [|c s IH]; intros g; [done|]. simpl.
  destruct (p c); simpl; [|done]. rewrite (proj2 (Nat.ltb_lt _ _)) by lia.
  rewrite IH. destruct (span p s) as [x y]. simpl. by destruct (Hk y g) as [? ->].
Qed.

Lemma span_parts p s :
  str_take (String.length s - String.length (span p s).2) s = (span p s).1 ∧
  String.length (span p s).2 ≤ String.length s ∧ forallb p (String.list_ascii_of_string (span p s).1) = true.
Proof.
  induction s as [|c s (IH1 & IH2 & IH3)]; simpl; [done|].
  destruct (p c) eqn:Hc; simpl; [|by rewrite Nat.sub_diag].
  destruct (span p s) as [x y]. simpl in *. rewrite Nat.sub_succ_l by done. simpl. rewrite IH1, Hc. split; [done|]. split; [lia|done].
Qed.

Definition letters_only (u : string) : Prop := u ≠ "" ∧ forallb is_letter (String.list_ascii_of_string u) = true.

(** The letters come first: the other alternative starts with a letter and is
    never taken. *)
Lemma unit_letters s g x : rmatch unit_part s g accept = Some x → letters_only (group x.2 2).
Proof.
  unfold unit_part, letters, RPlus, not_available, one. cbn [rmatch]. destruct s as [|c s]; [done|].
  destruct (is_letter c) eqn:Hc.
  - pose proof (rmatch_star_char is_letter s g
      (λ s' g', accept s' (<[2 := str_take (String.length (String c s) - String.length s') (String c s)]> g'))) as Hr.
    cbn [rmatch] in Hr. rewrite Hr by (intros; eexists; reflexivity). clear Hr. unfold accept. intros [= <-].
    destruct (span_parts is_letter s) as (H1 & H2 & H3). unfold group. cbn [snd]. rewrite lookup_insert_eq.
    cbn [from_option String.length]. rewrite Nat.sub_succ_l by done. cbn [str_take]. rewrite H1.
    split; [done|]. simpl. by rewrite Hc.
  - case_bool_decide as Hn; [|done]. subst c. done.
Qed.

Lemma value_unit s x : FindSubmatch valueRe s = Some x → letters_only (group x.2 2).
Proof.
  induction s as [|c s IH]; cbn [FindSubmatch]; destruct (rmatch valueRe _ ∅ accept) as [y|] eqn:Hm;
    [intros [= ->]|done|intros [= ->]|exact IH].
  1: done.
  unfold valueRe in Hm. cbn [rmatch] in Hm.
  apply (rmatch_cont number) in Hm as (s1 & g1 & Hm). apply (rmatch_cont spaces) in Hm as (s2 & g2 & Hm).
  by apply unit_letters in Hm.
Qed.

(** A reading has no value exactly when no number with a unit was found; the
    unit of every other is made of letters, so the case of a number that is
    followed by N/A, for which the code has an alternative, never arises: it is
    shown with the unit N. *)
Theorem sensor_unit rest :
  match parse_value rest with
  | (Some _, unit) => letters_only unit ∧ is_Some (FindSubmatch valueRe rest)
  | (None, unit) => unit = "N/A" ∧ FindSubmatch valueRe rest = None
  end.
Proof.
  unfold parse_value. destruct (FindSubmatch valueRe rest) as [x|] eqn:Hf; [|done].
  apply value_unit in Hf as Hl. destruct x as [s m]. simpl in Hl.
  rewrite bool_decide_true; [eauto|]. intros Hn. rewrite Hn in Hl. by destruct Hl as [_ ?].
Qed.

(** ** Lines *)

Lemma more_thresholds_length t lines : length (more_thresholds t lines).2 ≤ length lines.
Proof.
  revert t. induction lines as [|l lines IH]; intros t; simpl; [done|].
  destruct (ends_reading _); simpl; [done|]. by etransitivity; [apply IH|lia].
Qed.

Lemma parseReading_length l below : length (parseReading l below).2 ≤ length below.
Proof.
  unfold parseReading. destruct (parse_value _) as [v u].
  pose proof (more_thresholds_length (parseThresholds (TrimSpace (default "" (SplitN2 (TrimSpace l) ":" !! 1)))) below) as Hm.
  by destruct (more_thresholds _ below).
Qed.

(** The number of lines is fuel enough. *)
Lemma sensor_loop_fuel n lines ds cur :
  length lines ≤ n → sensor_loop n lines ds cur = sensor_loop (length lines) lines ds cur.
Proof.
  remember (length lines) as m eqn:Hm. intros Hn.
  assert (length lines ≤ m) as Hm' by lia. clear Hm. revert n lines ds cur Hn Hm'.
  induction m as [|m IH]; intros n lines ds cur Hn Hm.
  { destruct lines; [by destruct n|simpl in Hm; lia]. }
  destruct n as [|n]; [lia|]. destruct lines as [|l rest]; [done|]. simpl in *.
  destruct (isDeviceLine _); [apply IH; lia|]. destruct (isAdapterLine _); [apply IH; lia|].
  destruct (isReadingLine _), cur as [d|]; try (apply IH; lia).
  pose proof (parseReading_length l rest) as Hp. destruct (parseReading l rest) as [r rest']. apply IH; simpl in Hp; lia.
Qed.

(** ** What sensors prints *)

Record block := { bl_device : string; bl_adapter : string; bl_readings : list string }.

Definition block_lines (b : block) : list string := bl_device b :: ("Adapter: " +:+ bl_adapter b) :: bl_readings b.

(** A device per block, with an empty line between blocks. *)
Definition later_lines (bs : list block) : list string := concat ((λ b, "" :: block_lines b) <$> bs).
Definition sensor_lines (b : block) (bs : list block) : list string :=
  block_lines b ++ later_lines bs.

Definition reading_line (l : string) : Prop := isReadingLine (TrimSpace l) = true ∧ isAdapterLine (TrimSpace l) = false.
Definition well_formed (b : block) : Prop :=
  TrimSpace (bl_device b) = bl_device b ∧ isDeviceLine (bl_device b) = true ∧
  TrimSpace ("Adapter: " +:+ bl_adapter b) = "Adapter: " +:+ bl_adapter b ∧ Forall reading_line (bl_readings b).

Definition read_line (l : string) : SensorReading := (parseReading l []).1.
Definition device_of (b : block) : SensorDevice :=
  {| Device := bl_device b; Adapter := bl_adapter b; Readings := read_line <$> bl_readings b |}.

Definition stops (rest : list string) : Prop := rest = [] ∨ ∃ l rest', rest = l :: rest' ∧ ends_reading (TrimSpace l) = true.

Lemma parseReading_stops l rest : stops rest → parseReading l rest = (read_line l, rest).
Proof.
  unfold read_line, parseReading. destruct (parse_value _) as [v u]. intros [->|(n & rest' & -> & Hn)]; simpl; [done|].
  by rewrite Hn.
Qed.

Lemma readings_run ls rest ds d :
  Forall reading_line ls → stops rest →
  sensor_loop (length (ls ++ rest)) (ls ++ rest) ds (Some d) =
  sensor_loop (length rest) rest ds
    (Some {| Device := Device d; Adapter := Adapter d; Readings := Readings d ++ (read_line <$> ls) |}).
Proof.
  intros Hls Hs. revert d. induction Hls as [|l ls [Hr Ha] Hls IH]; intros d; simpl.
  { rewrite app_nil_r. by destruct d. }
  unfold isDeviceLine. unfold isReadingLine in Hr. rewrite Hr, Ha, andb_false_r. simpl.
  unfold isReadingLine. rewrite Hr, parseReading_stops; [rewrite IH; simpl; by rewrite <- app_assoc|].
  destruct Hls as [|l' ls' [Hr' Ha'] _]; [done|]. right. exists l', (ls' ++ rest). split; [done|].
  unfold ends_reading. unfold isReadingLine in Hr'. by rewrite Ha', Hr', orb_true_r.
Qed.

Lemma block_run b rest ds cur :
  well_formed b → stops rest →
  sensor_loop (length (block_lines b ++ rest)) (block_lines b ++ rest) ds cur =
  sensor_loop (length rest) rest (ds ++ option_list cur) (Some (device_of b)).
Proof.
  intros (Ht & Hd & Ha & Hr) Hs. cbn [block_lines app length sensor_loop]. rewrite Ht, Hd.
  cbn [sensor_loop]. rewrite Ha. unfold isDeviceLine, isAdapterLine.
  assert (HasPrefix ("Adapter: " +:+ bl_adapter b) "Adapter:" = true) as Hp by reflexivity.
  rewrite Hp, andb_false_r. simpl. rewrite readings_run by done. unfold parseAdapter.
  by rewrite (TrimPrefix_app (bl_adapter b) "Adapter: ").
Qed.

Lemma blank_run rest ds cur :
  sensor_loop (length ("" :: rest)) ("" :: rest) ds cur = sensor_loop (length rest) rest ds cur.
Proof. destruct cur; reflexivity. Qed.

Lemma later_stops bs : stops (later_lines bs).
Proof. destruct bs as [|b bs]; [by left|]. right. exists "", (block_lines b ++ later_lines bs). by split. Qed.

Lemma blocks_run bs ds d :
  Forall well_formed bs →
  sensor_loop (length (later_lines bs)) (later_lines bs) ds (Some d) = ds ++ d :: (device_of <$> bs).
Proof.
  intros Hbs. revert ds d. induction Hbs as [|b bs Hb Hbs IH]; intros ds d; [done|].
  change (later_lines (b :: bs)) with ("" :: (block_lines b ++ later_lines bs)).
  rewrite blank_run, block_run by (done || apply later_stops). rewrite IH. by rewrite <- app_assoc.
Qed.

(** Reading back what sensors prints: of blocks of a device, its adapter and
    its readings, with an empty line between them, the command shows exactly
    the devices in order, each with its adapter and one reading per line. *)
Theorem sensors_roundtrip (H : HostCmd) b bs output args options s :
  Forall well_formed (b :: bs) → Forall (free_of (ascii_of_nat 10)) (sensor_lines b bs) →
  GetDataFromHostCommand "sudo sensors" = Some output → TrimSpace output = Join (sensor_lines b bs) newline →
  TrimSpace output ≠ "" →
  getEnvironment args options s =
    (s, Ok (object [("devices", JArr (device_doc <$> (device_of <$> (b :: bs))));
                    ("total_devices", JNum (Z.of_nat (S (length bs))))])).
Proof.
  intros [Hb Hbs]%Forall_cons Hfree Hout Htrim Hne. unfold getEnvironment. rewrite Hout, bool_decide_false by done.
  assert (parse_sensors (Split (TrimSpace output) newline) = device_of <$> (b :: bs)) as ->.
  { rewrite Htrim. unfold newline. rewrite Split_Join by done. unfold parse_sensors, sensor_lines.
    rewrite block_run, blocks_run by (done || apply later_stops). done. }
  cbn [fmap list_fmap length]. by rewrite length_fmap.
Qed.

(** ** The output of a small switch *)
Module EnvExample.

Definition cpu : block := {| bl_device := "coretemp-isa-0000"; bl_adapter := "ISA adapter";
  bl_readings := ["Core 0:       +27.0 C  (high = +98.0 C, crit = +98.0 C)"; "fan1:         N/A"] |}.
Definition psu : block := {| bl_device := "pmbus-i2c-3-58"; bl_adapter := "i2c-0"; bl_readings := ["vin:  +12.1 V"] |}.

#[local] Instance host : HostCmd := {|
  shlex_split c := Some [c]; run_program _ := Some (Join (sensor_lines cpu [psu]) newline +:+ newline) |}.

Lemma sensors_roundtrip_witness :
  (getEnvironment [] ∅ show_init).2 =
    Ok (object [("devices", JArr (device_doc <$> (device_of <$> [cpu; psu]))); ("total_devices", JNum 2)]) ∧
  read_line "Core 0:       +27.0 C  (high = +98.0 C, crit = +98.0 C)" =
    {| Label := "Core 0"; sr_Value := Some "+27.0"; sr_Unit := "C";
       Thresholds := {["high" := "+98.0 C"; "crit" := "+98.0 C"]} |}.
Proof.
  split; [|vm_compute; reflexivity].
  rewrite (sensors_roundtrip host cpu [psu] (Join (sensor_lines cpu [psu]) newline +:+ newline) [] ∅ show_init).
  - reflexivity.
  - repeat constructor; vm_compute; reflexivity.
  - unfold free_of. apply (bool_decide_unpack _). vm_compute. exact I.
  - reflexivity.
  - vm_compute. reflexivity.
  - vm_compute. discriminate.
Defined.
End EnvExample.
